(* ===== verification/_CoqProject ===== *)
-Q . S2P
Prelude.v
Lists.v
Queues.v
Slab.v
LfQueue.v
Ring.v
Heap.v
Hash.v
Frequency.v
RangeCoder.v
Zle.v
Bitmap.v
DiskWords.v
Cache.v
RamDisk.v
Tfs.v
TfsBlock.v
TfsFile.v
Mkfs.v
TfsTheorems.v
AATree.v
Sequence.v
Palloc.v
CMem.v
CString.v
CType.v
CNumber.v
CPrint.v
Utf8.v
Time.v
Sort.v
CBignum.v
CPrintf.v
KTypes.v
VMem.v
VPages.v
KState.v
KSched.v
KThread.v
KIpc.v
KRefine.v
KQueues.v
KInv.v
KMemory.v
KSteps.v
KObjects.v
KHoare.v
KFrame.v
KSchedOk.v
KThreadOk.v
KIpcOk.v
KSystem.v
KBoot.v
KPlatform.v
KRuns.v
KSlices.v
KDemo.v
KTheorems.v
Vnodes.v
Directory.v
Vfs.v
FsServer.v
DirProofs.v
VfsProofs.v
VfsTheorems.v
FsFiles.v
FsTheorems.v
