(* ===== verification/Prelude.v ===== *)
(** * Verification of the eotan operating system

    eotan is a small operating system for the i686: a kernel ("the nerve")
    with threads, ports and a priority scheduler, servers that exchange
    messages through it, a C library, and a boot loader.  This library
    models the parts below in Rocq and proves them correct.  Paths are relative
    to src/.

    ** The program and its files

    Containers, lib/libnc/set.  [Lists] has the doubly linked lists on a store
    of links, and the rings of members they stand for; [Queues] reads rings as
    queues.  [AATree] is the keyed tree, [Sequence] the numbers in use, [Slab]
    the allocator of units, [Hash] the hash table, [Heap], [Ring] and [LfQueue]
    the priority queue, the ring buffer and the lock-free queue.  [Bitmap] holds
    the facts on words and bits that [Sequence], [Palloc] and the file system
    share.

    Memory, kernel/palloc.c, starter/pcat/memory.c and drivers/i686.  [Palloc]
    is the allocator of page frames and its map at boot, [VMem] the walk of the
    page tables and the copies between address spaces, [VPages] the mapping,
    copying, sharing and unmapping of user pages.

    The kernel, kernel/*.c.  [KTypes] and [KState] have its records, its global
    state, its monad and the interface [Platform] to the rest; [KSched] is
    ready.c, sync.c, context.c and the C part of drivers/i686/interrupt.c, [KThread] is thread.c and start.c, [KIpc] is
    ipc.c and api.c.  [KRefine] relates the kernel on pointers to the kernel on
    rings.  [KQueues], [KInv], [KSteps], [KObjects], [KHoare] and [KFrame] hold
    the invariant and the rules to reason about the code; [KSchedOk], [KThreadOk]
    and [KIpcOk] show of every operation that it is defined, what it does, and
    that it keeps the invariant.  [KMemory] and [KPlatform] fill the interface
    with the slabs, the trees, the copies and the queue of this library;
    [KSystem], [KBoot] and [KRuns] put the operations into sequence from the
    boot on, [KSlices] follows the sequence of a slice of time; [KDemo] is a concrete machine, and [KTheorems] states what the
    kernel promises.

    The C library.  [CMem] is the memory of a C program.  [CString], [CType],
    [CNumber], [CPrint], [Utf8], [Time], [Sort], [CBignum] and [CPrintf] are
    lib/libnc/string, lib/libnc/ctype, the parsers of numbers, the formatted
    output of the kernel, the conversions of UTF-8, dates and time stamps,
    qsort and bsearch, and the formatted output of the library with its big
    numbers.

    The boot image.  [Frequency] and [RangeCoder] are the compression of the
    modules (lib/librc, the encoder of starter/pcat/append.c and the decoder of
    starter/pcat/decode.c), [Zle] the zero-length filter.

    Storage.  [Cache] is the block cache of the file systems (lib/libvfs/cache.c)
    over any device of the class [BlockDevice]; [RamDisk] is
    drivers/ramdisk/ramdisk.c with servers/fs/block.c, shows that it is such a
    device, and states the contract of the cache.  [DiskWords] has the bytes of
    the words in a block.  [Tfs] is the file system of lib/libtfs (block.c,
    file.c, tfs.c), [TfsBlock] and [TfsFile] show what its allocator and its
    files do, [Mkfs] is app/tfs/mkfs.c, and [TfsTheorems] states the contract of
    files.

    The file server.  [Vnodes] has its state, its monad and lib/libvfs/vnodes.c,
    name.c, path.c and flag.c; [Directory] is directory.c and stat.c of
    lib/libtfs, [Vfs] is lib/libvfs/vfs.c, and [FsServer] is servers/fs: the
    sessions, the handlers of the messages and the turn of the main loop.
    [DirProofs] reads directories as lists of entries, [VfsProofs] has the table
    of vnodes, and [FsFiles] follows reading and writing from the message to the
    disk and back; [VfsTheorems], [FsFiles] and [FsTheorems] state what holds,
    and run the server on a RAM disk.

    ** How the code is modelled

    A C function is a function of the same name on explicit state; reading or
    writing outside of an object, a division by zero, the overflow of a signed
    negation, a null or dangling pointer, a copy that faults inside the kernel
    is the value [None], so that a theorem that a function returns
    [Some] says that it stays within defined behaviour.  Integers are [Z] with
    [u8], [u16], [u32] and [s32] where the source wraps.  A loop takes fuel, and
    the theorems show that the fuel given is enough:
    - searches and copies in memory run for the length of their strings;
    - [ready_dequeue] looks at 33 words, one more than there are;
    - [dispatch] is closed over the cycle of [leave_serialize], [dispatch] and
      [ipc_notify]; its specification holds for every inner dispatcher;
    - [release_all] runs for the number of threads on the queue;
    - the walks of the frequency tree take at most ten steps ([WALK]), the
      normalisation of the range coder at most four ([TURNS]);
    - the lists of the cache have at most 128 members ([LAPS]), a block has 128
      words ([UNITS]), and a read or write takes a turn per block ([turns]);
    - a directory has an entry per eight bytes at most ([entries]), and the list
      of vnodes and a chain of parents are no longer than their table;
    - the conversion of a double has at most 1074 digits, and the formats of
      [strftime] nest two deep.

    Code that is shared between implementations is written against a class:
    [ListOps] (pointers or rings), [Platform] (what the kernel uses),
    [BlockDevice] with [BlockDeviceLaws] (what the cache uses), the source of
    pages of [Slab], and [ObjectPool] with its laws (what the file server uses of
    a slab).  Each has an instance built from the components of this library.
    The clock, the contents of the stack under a buffer ([World]) and the memory
    of the clients of the file server ([Callers], with [CallersLaws] for what the
    kernel promises of its copies) are given.

    Deliberate simplifications: an allocation with malloc is a boolean or a list
    of booleans that says whether it succeeds; the messages that the kernel
    copies live in a memory of their own, next to the pool of pages; the
    cache names a device by its channel and a key of its table by block number
    and channel; the file server has one file system mounted, its sessions, its
    files and its vnodes have each their own pages; log output is left out.

    ** What the theorems show

    The kernel (KTheorems.v): it never leaves defined behaviour from the boot
    on while its callers keep the contract [acceptable], which is what the code
    takes on trust (addresses of messages, answers to calls that were received,
    stacks, no waiters at the port of a destroyed thread); the pointers follow
    the rings, the invariant is inductive, the best ready thread runs, equals
    take turns over the slices of a run of timer interrupts, and calls,
    receptions, answers, creation and end of threads, ports and the timer do on
    each branch what they are meant to.  An answer that cannot be delivered and
    the destruction of a thread with waiters are shown to strand the waiters.
    Memory: the lowest free frame is allocated and cleared; units never overlap;
    mapping, unmapping and copying change exactly the pages they should; the
    copies page by page are copies byte by byte.
    Containers: each is equivalent to the finite map, queue or priority queue
    it implements, with its bounds.
    The library: parsers and printers are exact, safe at their bounds and
    inverse to each other; UTF-8 round trips; dates are those of the calendar;
    sorting sorts up to the size from which the code goes wrong.
    The boot image: what was encoded is decoded, and the decoder is safe on any
    input.
    Storage: clients of the cache see a plain array of blocks, and a flush
    makes the device agree with it.  On top of it the blocks of TFS are handed
    out once, what is written to a file is read back and changes no other file,
    and mkfs makes a file system.
    The file server: looking a name up finds the first entry with it and its
    one vnode, appending adds one entry, rights are checked bit by bit, every
    request is answered once with the message that belongs to it, and requests
    to read and to write an open file end, move the bytes between the client
    and the file, and leave everything else alone.

    Some statements give the limits of the code: [gmtime_r] on the last day of a
    leap year, [qsort] beyond 114 elements and without memory, the least [int]
    in formatted output, and runs that show [cache_invalidate] of a locked
    block and four requests that the file server mishandles, and smaller ones
    next to the functions concerned.

    ** Not modelled

    The assembler entry points of interrupts, faults, descriptor tables and the
    other assembler of drivers/i686; port I/O (drivers/pcat); drawing and windows (lib/libdraw,
    lib/libwin, lib/libfonts, servers/hmi), whose effect is pixels; the floating
    point instructions of lib/libm; the interactive programs of app, which
    reach the system through messages only; the servers other than the file
    server, which are message loops over devices and over each other.  Of
    shortening and removing files only the code is given, and runs of it:
    [tfs_deallocate_inode] invalidates the inode it still holds, for which the
    cache promises nothing.  Interleaving inside of a
    kernel function is not modelled: the kernel runs with interrupts disabled,
    and the lock-free queue is followed without interference. *)

From Stdlib Require Export ZArith Lia.
From stdpp Require Export base numbers gmap sets fin_maps option sorting list.
Export stdpp.list_basics.list.

#[global] Open Scope Z_scope.

(* Comparisons and powers stay folded under [simpl]. *)
#[global] Arguments Z.eqb : simpl never.
#[global] Arguments Z.ltb : simpl never.
#[global] Arguments Z.leb : simpl never.
#[global] Arguments Z.pow : simpl never.
#[global] Arguments Z.add : simpl never.
#[global] Arguments Z.sub : simpl never.
#[global] Arguments Z.mul : simpl never.

(** ** Machine integers

    The target is a 32-bit i686.  An [unsigned int], [size_t] or [uintptr_t]
    is a [Z] in [0, 2^32), an [int] a [Z] in [-2^31, 2^31); arithmetic that the
    source lets wrap is followed by [u32] or [s32]. *)

Definition u8 (z : Z) : Z := z mod 2 ^ 8.
Definition u16 (z : Z) : Z := z mod 2 ^ 16.
Definition u32 (z : Z) : Z := z mod 2 ^ 32.
Definition s32 (z : Z) : Z := (z + 2 ^ 31) mod 2 ^ 32 - 2 ^ 31.

Definition is_u32 (z : Z) : Prop := 0 <= z < 2 ^ 32.
Definition is_s32 (z : Z) : Prop := - 2 ^ 31 <= z < 2 ^ 31.

#[global] Instance is_u32_dec z : Decision (is_u32 z).
Proof. unfold is_u32. apply _. Defined.
#[global] Instance is_s32_dec z : Decision (is_s32 z).
Proof. unfold is_s32. apply _. Defined.

Lemma u32_small z : is_u32 z -> u32 z = z.
Proof. intros Hz. unfold u32. by rewrite Z.mod_small. Qed.

Lemma u32_range z : is_u32 (u32 z).
Proof. unfold is_u32, u32. apply Z.mod_pos_bound. lia. Qed.

Lemma s32_small z : is_s32 z -> s32 z = z.
Proof. unfold is_s32, s32. intros. rewrite Z.mod_small; lia. Qed.

Lemma s32_range z : is_s32 (s32 z).
Proof.
  unfold is_s32, s32. pose proof (Z.mod_pos_bound (z + 2 ^ 31) (2 ^ 32)). lia.
Qed.

Create HintDb cint.
#[export] Hint Resolve u32_range s32_range : cint.
#[export] Hint Rewrite u32_small s32_small using (unfold is_u32, is_s32 in *; lia) : cint.

(** ** Bits *)

(** Number of trailing zeros of a positive. *)
Fixpoint pos_ntz (p : positive) : Z :=
  match p with
  | xO q => 1 + pos_ntz q
  | _ => 0
  end.

(** [count_ntz] of include/i686/bits.h: 32 for 0, else [bsfl]. *)
Definition count_ntz (d : Z) : Z :=
  match d with
  | Z0 => 32
  | Zpos p => pos_ntz p
  | Zneg p => pos_ntz p
  end.

Lemma pos_ntz_nonneg p : 0 <= pos_ntz p.
Proof. induction p; simpl; lia. Qed.

Lemma pos_ntz_set p : Z.testbit (Zpos p) (pos_ntz p) = true.
Proof.
  induction p as [p IH|p IH|]; simpl pos_ntz; [done| |done].
  rewrite Pos2Z.inj_xO, Z.add_1_l, Z.double_bits_succ by apply pos_ntz_nonneg.
  exact IH.
Qed.

Lemma pos_ntz_below p i : 0 <= i < pos_ntz p -> Z.testbit (Zpos p) i = false.
Proof.
  revert i. induction p as [p IH|p IH|]; intros i Hi; simpl pos_ntz in Hi; try lia.
  rewrite Pos2Z.inj_xO. destruct (decide (i = 0)) as [->|Hne].
  - apply Z.testbit_even_0.
  - replace i with (Z.succ (i - 1)) by lia.
    rewrite Z.double_bits_succ by lia. apply IH. lia.
Qed.

(** [count_ntz d] is the index of the lowest set bit of a non-zero [d]. *)
Lemma count_ntz_set d : 0 < d -> Z.testbit d (count_ntz d) = true.
Proof. destruct d; try lia. intros _. apply pos_ntz_set. Qed.

Lemma count_ntz_below d i :
  0 < d -> 0 <= i < count_ntz d -> Z.testbit d i = false.
Proof. destruct d; try lia. intros _. apply pos_ntz_below. Qed.

Lemma count_ntz_nonneg d : 0 <= count_ntz d.
Proof. destruct d; simpl; try lia; apply pos_ntz_nonneg. Qed.

Lemma testbit_above n k i : 0 <= n < 2 ^ k -> 0 <= k <= i -> Z.testbit n i = false.
Proof.
  intros Hn Hk. rewrite <- (Z.mod_small n (2 ^ k)) by done.
  apply Z.mod_pow2_bits_high. lia.
Qed.

Lemma count_ntz_lt d k : 0 < d < 2 ^ k -> 0 <= k -> count_ntz d < k.
Proof.
  intros Hd Hk. destruct (decide (count_ntz d < k)) as [|Hge]; [done|].
  pose proof (count_ntz_set d ltac:(lia)) as Hset.
  rewrite (testbit_above d k) in Hset by lia. done.
Qed.

(** Clearing and setting one bit, the way the source writes it:
    [x & ~(1 << b)] and [x | (1 << b)]. *)
Definition bit_clear (x b : Z) : Z := Z.land x (Z.lnot (Z.shiftl 1 b)).
Definition bit_set (x b : Z) : Z := Z.lor x (Z.shiftl 1 b).

Lemma testbit_pow2 b i : 0 <= b -> 0 <= i -> Z.testbit (Z.shiftl 1 b) i = bool_decide (i = b).
Proof.
  intros Hb Hi. rewrite Z.shiftl_1_l. case_bool_decide as Hib.
  - subst. by apply Z.pow2_bits_true.
  - apply Z.pow2_bits_false. lia.
Qed.

Lemma testbit_bit_clear x b i :
  0 <= b -> 0 <= i ->
  Z.testbit (bit_clear x b) i = Z.testbit x i && negb (bool_decide (i = b)).
Proof.
  intros. unfold bit_clear. rewrite Z.land_spec, Z.lnot_spec, testbit_pow2 by lia. done.
Qed.

Lemma testbit_bit_set x b i :
  0 <= b -> 0 <= i ->
  Z.testbit (bit_set x b) i = Z.testbit x i || bool_decide (i = b).
Proof. intros. unfold bit_set. rewrite Z.lor_spec, testbit_pow2 by lia. done. Qed.

(** A non-negative number whose bits at and above [k] are all clear is below
    [2^k]. *)
Lemma bits_lt_pow2 x k :
  0 <= k -> 0 <= x -> (forall i, k <= i -> Z.testbit x i = false) -> x < 2 ^ k.
Proof.
  intros Hk Hx Hbits. destruct (decide (x = 0)) as [->|Hne]; [lia|].
  apply Z.log2_lt_pow2; [lia|]. apply Z.nle_gt. intros Hle.
  pose proof (Hbits _ Hle) as H. rewrite Z.bit_log2 in H by lia. done.
Qed.

Lemma bit_clear_range x b k : 0 <= x < 2 ^ k -> 0 <= b -> 0 <= k -> 0 <= bit_clear x b < 2 ^ k.
Proof.
  intros Hx Hb Hk. assert (0 <= bit_clear x b) by (unfold bit_clear; apply Z.land_nonneg; lia).
  split; [done|]. apply bits_lt_pow2; [lia|done|]. intros i Hi.
  rewrite testbit_bit_clear, (testbit_above x k) by lia. done.
Qed.

Lemma bit_set_range x b k : 0 <= x < 2 ^ k -> 0 <= b < k -> 0 <= bit_set x b < 2 ^ k.
Proof.
  intros Hx Hb.
  assert (0 <= bit_set x b).
  { unfold bit_set. apply Z.lor_nonneg. split; [lia|]. apply Z.shiftl_nonneg. lia. }
  split; [done|]. apply bits_lt_pow2; [lia|done|]. intros i Hi.
  rewrite testbit_bit_set, (testbit_above x k), bool_decide_false by lia. done.
Qed.

(** Masking keeps a word a word. *)
Lemma land_range w m : is_u32 w -> is_u32 (Z.land w m).
Proof.
  intros [Hlo Hhi]. assert (0 <= Z.land w m) by (apply Z.land_nonneg; lia). split; [done|].
  apply (bits_lt_pow2 _ 32); [lia|done|]. intros i Hi.
  rewrite Z.land_spec, (testbit_above w 32) by lia. done.
Qed.

(** [(a << k) | b] with [b] below [2^k] is a sum. *)
Lemma lor_shiftl_add a k b :
  0 <= k -> 0 <= b < 2 ^ k -> Z.lor (Z.shiftl a k) b = a * 2 ^ k + b.
Proof.
  intros Hk Hb.
  assert (Hl : Z.land (Z.shiftl a k) b = 0).
  { apply Z.bits_inj'. intros i Hi. rewrite Z.land_spec, Z.bits_0, Z.shiftl_spec by done.
    destruct (decide (i < k)).
    - by rewrite Z.testbit_neg_r by lia.
    - rewrite (testbit_above b k) by lia. apply andb_false_r. }
  rewrite <- Z.lxor_lor, <- Z.add_nocarry_lxor, Z.shiftl_mul_pow2 by done. done.
Qed.

(** ** Lists *)

Section FilterNe.
Context {A : Type} `{EqDecision A}.
Implicit Types (x e : A) (l : list A).

Lemma filter_ne_id e l : e ∉ l -> filter (λ x, x ≠ e) l = l.
Proof.
  induction l as [|x l IH]; intros He; [done|].
  rewrite filter_cons_True by set_solver. f_equal. apply IH. set_solver.
Qed.

Lemma filter_ne_split e l1 l2 :
  e ∉ l1 -> e ∉ l2 -> filter (λ x, x ≠ e) (l1 ++ e :: l2) = l1 ++ l2.
Proof.
  intros H1 H2. rewrite filter_app, filter_cons_False by tauto.
  by rewrite !filter_ne_id.
Qed.

Lemma filter_ne_head e l : NoDup (e :: l) -> filter (λ x, x ≠ e) (e :: l) = l.
Proof. intros [He _]%NoDup_cons. by apply (filter_ne_split e [] l); [set_solver|]. Qed.

Lemma length_filter_ne e l : NoDup l -> e ∈ l -> S (length (filter (λ x, x ≠ e) l)) = length l.
Proof.
  intros Hl (l1 & l2 & ->)%list_elem_of_split. apply NoDup_app in Hl as (_ & H1 & [H2 _]%NoDup_cons).
  rewrite filter_ne_split; [rewrite !length_app; cbn; lia| |done]. intros Hin. by apply (H1 e Hin); left.
Qed.

End FilterNe.
