(* ===== verification/Lists.v ===== *)
(** * Intrusive circular lists (lib/libnc/set/list.c, include/set/list.h)

    A [list_t] is a pair of pointers embedded in another object.  The memory
    that holds the [list_t] objects is a finite map from their addresses to
    their two fields; reading through a pointer to no object is undefined
    behaviour and is the value [None] of every operation.

    [rings] is the abstract view: every guard with the sequence of entries
    chained behind it.  [rep] relates the two, and every operation on pointers
    is shown to implement the operation on rings.  Clients (the scheduler, the
    IPC ports, the slab allocator, the block cache) are written against the
    class [ListOps] and reasoned about on rings. *)

From S2P Require Import Prelude.

Record list_t (loc : Type) := Link { next : loc; prev : loc }.
Arguments Link {loc}.
Arguments next {loc}.
Arguments prev {loc}.

(** ** The operations on pointers *)

Section Pointers.
Context {loc : Type} `{Countable loc}.
Implicit Types h : gmap loc (list_t loc).
Implicit Types e g p q : loc.

Definition set_next h p v : option (gmap loc (list_t loc)) :=
  l ← h !! p; Some (<[p := Link v (prev l)]> h).

Definition set_prev h p v : option (gmap loc (list_t loc)) :=
  l ← h !! p; Some (<[p := Link (next l) v]> h).

Definition list_next h e : option loc := next <$> h !! e.

Definition list_prev h e : option loc := prev <$> h !! e.

Definition list_is_empty h e : option bool :=
  n ← list_next h e; Some (bool_decide (n = e)).

Definition list_is_edge g e : bool := bool_decide (g = e).

Definition list_edge_to_null g e : option loc :=
  if list_is_edge g e then None else Some e.

Definition list_head h g : option (option loc) :=
  n ← list_next h g; Some (list_edge_to_null g n).

Definition list_tail h g : option (option loc) :=
  p ← list_prev h g; Some (list_edge_to_null g p).

Definition list_initialize h e : gmap loc (list_t loc) := <[e := Link e e]> h.

Definition list_append h to entry : option (gmap loc (list_t loc)) :=
  prev ← list_prev h to;
  let h := <[entry := Link to prev]> h in
  h ← set_prev h to entry;
  set_next h prev entry.

Definition list_insert h to entry : option (gmap loc (list_t loc)) :=
  next ← list_next h to;
  let h := <[entry := Link next to]> h in
  h ← set_next h to entry;
  set_prev h next entry.

Definition list_remove h entry : option (gmap loc (list_t loc)) :=
  next ← list_next h entry;
  prev ← list_prev h entry;
  h ← set_prev h next prev;
  h ← set_next h prev next;
  Some (list_initialize h entry).

Definition list_pick h guard : option (option loc * gmap loc (list_t loc)) :=
  entry ← list_next h guard;
  if list_is_edge guard entry then Some (None, h)
  else h ← list_remove h entry; Some (Some entry, h).

(** The [do ... while] loop of [list_release]; [fuel] bounds its iterations. *)
Fixpoint list_release_loop (fuel : nat) h guard entry : option (gmap loc (list_t loc)) :=
  match fuel with
  | O => None
  | S fuel =>
      next ← list_next h entry;
      let h := list_initialize h entry in
      if list_is_edge guard next then Some h
      else list_release_loop fuel h guard next
  end.

Definition list_release h guard : option (gmap loc (list_t loc)) :=
  list_release_loop (size h) h guard guard.

(** A [list_t] cleared by [memset]: its links lead nowhere. *)
Definition list_clear h e : gmap loc (list_t loc) := delete e h.

(** The memory that holds the nodes of [f] has been given back. *)
Definition list_drop h (f : loc -> bool) : gmap loc (list_t loc) := filter (λ x, f x.1 = false) h.

End Pointers.

(** ** Rings *)

Section Rings.
Context {loc : Type} `{Countable loc}.
Implicit Types A : gmap loc (list loc).
Implicit Types e g p q : loc.

(** The guard of the ring that holds [e] as an entry. *)
Definition owner A e : option loc :=
  fst <$> head (filter (λ gl : loc * list loc, e ∈ gl.2) (map_to_list A)).

(** [e] is on no ring: not an entry, and no entries behind it. *)
Definition loose A e : bool :=
  match owner A e with
  | Some _ => false
  | None => match A !! e with Some (_ :: _) => false | _ => true end
  end.

(** The node behind [e] in [l], [g] behind the last. *)
Fixpoint succ_in e g (l : list loc) : option loc :=
  match l with
  | [] => None
  | x :: l => if decide (x = e) then Some (default g (head l)) else succ_in e g l
  end.

Definition ring_next A e : option loc :=
  match A !! e with
  | Some l => Some (default e (head l))
  | None => g ← owner A e; l ← A !! g; succ_in e g l
  end.

Definition ring_prev A g : option loc :=
  l ← A !! g; Some (default g (last l)).

Definition ring_head A g : option (option loc) := head <$> A !! g.

Definition ring_is_empty A g : option bool :=
  l ← A !! g; Some (match l with [] => true | _ => false end).

Definition ring_initialize A e : option (gmap loc (list loc)) :=
  if loose A e then Some (<[e := []]> A) else None.

Definition ring_append A to entry : option (gmap loc (list loc)) :=
  l ← A !! to;
  if bool_decide (to ≠ entry) && loose A entry
  then Some (<[to := l ++ [entry]]> (delete entry A)) else None.

Definition ring_insert A to entry : option (gmap loc (list loc)) :=
  l ← A !! to;
  if bool_decide (to ≠ entry) && loose A entry
  then Some (<[to := entry :: l]> (delete entry A)) else None.

Definition ring_remove A entry : option (gmap loc (list loc)) :=
  match owner A entry with
  | Some g =>
      l ← A !! g;
      Some (<[entry := []]> (<[g := filter (λ x, x ≠ entry) l]> A))
  | None => match A !! entry with Some [] => Some A | _ => None end
  end.

(** Clearing a node that is still linked would leave dangling links. *)
Definition ring_clear A e : option (gmap loc (list loc)) :=
  if loose A e then Some (delete e A) else None.

(** Giving memory back takes whole rings. *)
Definition ring_drop A (f : loc -> bool) : option (gmap loc (list loc)) :=
  if bool_decide (map_Forall (λ g l, Forall (λ e, f e = f g) l) A)
  then Some (filter (λ x, f x.1 = false) A) else None.

(** Every node is on at most one ring, once. *)
Definition rings_wf A : Prop :=
  (forall g l, A !! g = Some l -> NoDup (g :: l)) /\
  (forall g1 l1 g2 l2 x, A !! g1 = Some l1 -> A !! g2 = Some l2 ->
     x ∈ g1 :: l1 -> x ∈ g2 :: l2 -> g1 = g2).

Lemma owner_Some A e g l :
  rings_wf A -> A !! g = Some l -> e ∈ l -> owner A e = Some g.
Proof.
  intros [_ Hdisj] Hg He. unfold owner.
  destruct (filter _ _) as [|[g' l'] k] eqn:Hf.
  - exfalso. assert ((g, l) ∈ @nil (loc * list loc)) as Hin; [|by apply elem_of_nil in Hin].
    rewrite <- Hf. apply list_elem_of_filter. split; [done|]. by apply elem_of_map_to_list.
  - assert ((g', l') ∈ (g', l') :: k) as Hin by left.
    rewrite <- Hf in Hin. apply list_elem_of_filter in Hin as [He' Hl'].
    apply elem_of_map_to_list in Hl'. simpl. f_equal.
    eapply (Hdisj g' l' g l e); eauto; by right.
Qed.

Lemma owner_inv A e g :
  owner A e = Some g -> exists l, A !! g = Some l /\ e ∈ l.
Proof.
  unfold owner. destruct (filter _ _) as [|[g' l'] k] eqn:Hf; [done|].
  intros [= <-]. assert ((g', l') ∈ (g', l') :: k) as Hin by left.
  rewrite <- Hf in Hin. apply list_elem_of_filter in Hin as [He' Hl'].
  apply elem_of_map_to_list in Hl'. eauto.
Qed.

Lemma owner_None A e :
  owner A e = None <-> forall g l, A !! g = Some l -> e ∉ l.
Proof.
  unfold owner. split.
  - intros Hn g l Hg He. destruct (filter _ _) eqn:Hf; [|done].
    assert ((g, l) ∈ @nil (loc * list loc)) as Hin; [|by apply elem_of_nil in Hin].
    rewrite <- Hf. apply list_elem_of_filter. split; [done|]. by apply elem_of_map_to_list.
  - intros Hall. destruct (filter _ _) as [|[g' l'] k] eqn:Hf; [done|].
    assert ((g', l') ∈ (g', l') :: k) as Hin by left.
    rewrite <- Hf in Hin. apply list_elem_of_filter in Hin as [He' Hl'].
    apply elem_of_map_to_list in Hl'. by apply Hall in Hl'.
Qed.

Lemma loose_spec A e :
  loose A e = true <->
  (forall g l, A !! g = Some l -> e ∉ l) /\ (A !! e = None \/ A !! e = Some []).
Proof.
  unfold loose. rewrite <- owner_None. destruct (owner A e).
  - split; [done|]. by intros [? _].
  - destruct (A !! e) as [[|]|]; naive_solver.
Qed.

(** A loose node is on no other ring of a well-formed family. *)
Lemma loose_fresh A e g l x :
  rings_wf A -> loose A e = true -> A !! g = Some l -> x ∈ g :: l -> x ≠ e \/ g = e.
Proof.
  intros Hwf [Hn He]%loose_spec Hg Hx. destruct (decide (x = e)) as [->|]; [|by left].
  right. apply elem_of_cons in Hx as [->|Hx]; [done|]. by apply Hn in Hg.
Qed.

Lemma rings_wf_add A to l l' entry :
  rings_wf A -> A !! to = Some l -> to ≠ entry -> loose A entry = true ->
  l' ≡ₚ entry :: l ->
  rings_wf (<[to := l']> (delete entry A)).
Proof.
  intros Hwf Hto Hne Hl Hp. pose proof Hwf as [Hnd Hdisj].
  assert (Hsub : forall x, x ∈ to :: l' -> x = entry \/ x ∈ to :: l).
  { intros x Hx. rewrite Hp in Hx. set_solver. }
  assert (Hfr : forall g k x, g ≠ entry -> A !! g = Some k -> x ∈ g :: k -> x ≠ entry).
  { intros g k x Hg Hk Hx. destruct (loose_fresh A entry g k x); eauto. }
  split.
  - intros g k Hg. destruct (decide (g = to)) as [->|Hgt].
    + rewrite lookup_insert_eq in Hg. simplify_eq.
      pose proof (Hnd _ _ Hto) as [Ht Hdl]%NoDup_cons. rewrite Hp.
      apply NoDup_cons; split; [set_solver|]. apply NoDup_cons; split; [|done].
      intros Hin. eapply (Hfr to l entry); eauto. by right.
    + rewrite lookup_insert_ne in Hg by done.
      apply lookup_delete_Some in Hg as [? Hg]. eauto.
  - intros g1 l1 g2 l2 x H1 H2 Hx1 Hx2.
    destruct (decide (g1 = to)) as [->|Hg1], (decide (g2 = to)) as [->|Hg2]; [done| | |].
    + rewrite lookup_insert_eq in H1. rewrite lookup_insert_ne in H2 by done. simplify_eq.
      apply lookup_delete_Some in H2 as [? H2].
      apply Hsub in Hx1 as [->|Hx1]; [|by eapply Hdisj].
      exfalso. by eapply (Hfr g2 l2 entry).
    + rewrite lookup_insert_eq in H2. rewrite lookup_insert_ne in H1 by done. simplify_eq.
      apply lookup_delete_Some in H1 as [? H1].
      apply Hsub in Hx2 as [->|Hx2]; [|by eapply Hdisj].
      exfalso. by eapply (Hfr g1 l1 entry).
    + rewrite lookup_insert_ne in H1, H2 by done.
      apply lookup_delete_Some in H1 as [? H1], H2 as [? H2]. by eapply Hdisj.
Qed.

Lemma rings_wf_initialize A e :
  rings_wf A -> loose A e = true -> rings_wf (<[e := []]> A).
Proof.
  intros Hwf Hl. pose proof Hwf as [Hnd Hdisj]. split.
  - intros g l Hg. destruct (decide (g = e)) as [->|].
    + rewrite lookup_insert_eq in Hg. simplify_eq. repeat constructor. set_solver.
    + rewrite lookup_insert_ne in Hg by done. eauto.
  - intros g1 l1 g2 l2 x H1 H2 Hx1 Hx2.
    destruct (decide (g1 = e)) as [->|], (decide (g2 = e)) as [->|]; [done| | |].
    + rewrite lookup_insert_eq in H1. rewrite lookup_insert_ne in H2 by done. simplify_eq.
      apply list_elem_of_singleton in Hx1 as ->.
      destruct (loose_fresh A e g2 l2 e); naive_solver.
    + rewrite lookup_insert_eq in H2. rewrite lookup_insert_ne in H1 by done. simplify_eq.
      apply list_elem_of_singleton in Hx2 as ->.
      destruct (loose_fresh A e g1 l1 e); naive_solver.
    + rewrite lookup_insert_ne in H1, H2 by done. by eapply Hdisj.
Qed.

Lemma rings_wf_remove A g l e :
  rings_wf A -> A !! g = Some l -> e ∈ l ->
  rings_wf (<[e := []]> (<[g := filter (λ x, x ≠ e) l]> A)).
Proof.
  intros Hwf Hg He. pose proof Hwf as [Hnd Hdisj].
  assert (Heg : e ≠ g).
  { intros ->. apply Hnd in Hg as [? _]%NoDup_cons. done. }
  assert (Hother : forall g' l', g' ≠ g -> A !! g' = Some l' -> e ∉ g' :: l').
  { intros g' l' Hne Hg' Hin. apply Hne. eapply (Hdisj g' l' g l e); eauto. by right. }
  apply rings_wf_initialize.
  - split.
    + intros g' l' Hg'. destruct (decide (g' = g)) as [->|].
      * rewrite lookup_insert_eq in Hg'. simplify_eq. apply Hnd in Hg as [? ?]%NoDup_cons.
        apply NoDup_cons. split; [|by apply NoDup_filter].
        by intros [_ ?]%list_elem_of_filter.
      * rewrite lookup_insert_ne in Hg' by done. eauto.
    + intros g1 l1 g2 l2 x H1 H2 Hx1 Hx2.
      assert (forall g' l', <[g:=filter (λ x0, x0 ≠ e) l]> A !! g' = Some l' ->
              exists k, A !! g' = Some k /\ forall x, x ∈ g' :: l' -> x ∈ g' :: k) as Hsub.
      { intros g' l' Hg'. destruct (decide (g' = g)) as [->|].
        - rewrite lookup_insert_eq in Hg'. simplify_eq. eexists. split; [done|].
          intros y [->|Hy]%elem_of_cons; [by left|].
          right. by apply list_elem_of_filter in Hy as [_ ?].
        - rewrite lookup_insert_ne in Hg' by done. eauto. }
      destruct (Hsub _ _ H1) as (k1 & Hk1 & Hs1), (Hsub _ _ H2) as (k2 & Hk2 & Hs2). eauto.
  - apply loose_spec. split.
    + intros g' l' Hg' Hin. destruct (decide (g' = g)) as [->|].
      * rewrite lookup_insert_eq in Hg'. simplify_eq.
        by apply list_elem_of_filter in Hin as [? _].
      * rewrite lookup_insert_ne in Hg' by done. eapply Hother; eauto. by right.
    + rewrite lookup_insert_ne by done. destruct (A !! e) as [l'|] eqn:Hl'; [|by left].
      exfalso. eapply (Hother e l'); eauto. by left.
Qed.

End Rings.

(** ** The representation of rings by pointers *)

Section Representation.
Context {loc : Type} `{Countable loc}.
Implicit Types h : gmap loc (list_t loc).
Implicit Types A : gmap loc (list loc).
Implicit Types e g p q t : loc.
Implicit Types l k : list loc.

(** [seg h p l q]: following [next] from [p] goes through [l] and then to
    [q], and the [prev] fields lead back. *)
Fixpoint seg h p l q : Prop :=
  match l with
  | [] => list_next h p = Some q /\ list_prev h q = Some p
  | x :: l => (list_next h p = Some x /\ list_prev h x = Some p) /\ seg h x l q
  end.

Definition rep h A : Prop :=
  rings_wf A /\ forall g l, A !! g = Some l -> seg h g l g.

Definition last_of p l : loc := default p (last l).

Lemma last_of_cons p x l : last_of p (x :: l) = last_of x l.
Proof. unfold last_of. by destruct l as [|y l]; [|rewrite last_cons_cons; destruct (last (y :: l)) eqn:E; [|apply last_None in E]]. Qed.

Lemma last_of_elem p l : last_of p l ∈ p :: l.
Proof.
  revert p. induction l as [|x l IH]; intros p; [by left|].
  rewrite last_of_cons. right. apply IH.
Qed.

Lemma seg_app h p l x k q : seg h p (l ++ x :: k) q <-> seg h p l x /\ seg h x k q.
Proof. revert p. induction l as [|y l IH]; intros p; simpl; [tauto|]. rewrite IH. tauto. Qed.

Lemma seg_first h p l q : seg h p l q -> list_next h p = Some (default q (head l)).
Proof. destruct l; simpl; naive_solver. Qed.

Lemma seg_last h p l q : seg h p l q -> list_prev h q = Some (last_of p l).
Proof.
  revert p. induction l as [|x l IH]; intros p; simpl; [naive_solver|].
  intros [_ Hs]. rewrite last_of_cons. auto.
Qed.

(** A segment only depends on the [next] fields of its sources and the [prev]
    fields of its targets. *)
Lemma seg_frame h h' p l q :
  (forall x, x ∈ p :: l -> list_next h' x = list_next h x) ->
  (forall x, x ∈ l ++ [q] -> list_prev h' x = list_prev h x) ->
  seg h p l q -> seg h' p l q.
Proof.
  revert p. induction l as [|y l IH]; intros p Hn Hp; simpl.
  - rewrite Hn, Hp; [done|set_solver..].
  - intros [[H1 H2] Hs]. split.
    + rewrite Hn, Hp; [done|set_solver..].
    + apply IH; [set_solver..|done].
Qed.

(** Redirecting the end of a segment to [e]. *)
Lemma seg_retarget h h' p l q e :
  seg h p l q -> NoDup (p :: l) -> e ∉ l ->
  (forall x, x ∈ p :: l -> x ≠ last_of p l -> list_next h' x = list_next h x) ->
  (forall x, x ∈ l -> list_prev h' x = list_prev h x) ->
  list_next h' (last_of p l) = Some e ->
  list_prev h' e = Some (last_of p l) ->
  seg h' p l e.
Proof.
  revert p. induction l as [|y l IH]; intros p Hs Hnd He Hn Hp Hl1 Hl2; simpl in *.
  - split; [exact Hl1|exact Hl2].
  - destruct Hs as [[H1 H2] Hs]. rewrite last_of_cons in *.
    apply NoDup_cons in Hnd as [Hpy Hnd].
    split.
    + rewrite Hp, H2 by set_solver. split; [|done].
      rewrite Hn; [done|by left|]. intros ->. apply Hpy, last_of_elem.
    + apply IH; set_solver.
Qed.

(** Redirecting the start of a segment to [e]. *)
Lemma seg_resource h h' p l q e :
  seg h p l q -> NoDup (l ++ [q]) -> e ∉ l ->
  (forall x, x ∈ l -> list_next h' x = list_next h x) ->
  (forall x, x ∈ l ++ [q] -> Some x ≠ head (l ++ [q]) -> list_prev h' x = list_prev h x) ->
  list_next h' e = head (l ++ [q]) ->
  (forall x, head (l ++ [q]) = Some x -> list_prev h' x = Some e) ->
  seg h' e l q.
Proof.
  destruct l as [|y l]; simpl; intros Hs Hnd He Hn Hp H1 H2; [by auto|].
  destruct Hs as [_ Hs]. apply NoDup_cons in Hnd as [Hy Hnd].
  split; [by auto|]. eapply seg_frame; [..|done].
  - intros x Hx. apply Hn. set_solver.
  - intros x Hx. apply Hp; [set_solver|]. intros [= ->]. done.
Qed.

(** *** Field accesses after the writes of the source *)

Lemma list_next_insert h p v x :
  list_next (<[p := v]> h) x = if decide (p = x) then Some (next v) else list_next h x.
Proof. unfold list_next. rewrite lookup_insert. by case_decide. Qed.

Lemma list_prev_insert h p v x :
  list_prev (<[p := v]> h) x = if decide (p = x) then Some (prev v) else list_prev h x.
Proof. unfold list_prev. rewrite lookup_insert. by case_decide. Qed.

Lemma set_next_spec h p v :
  is_Some (list_next h p) ->
  exists h', set_next h p v = Some h' /\
    (forall x, list_next h' x = if decide (p = x) then Some v else list_next h x) /\
    (forall x, list_prev h' x = list_prev h x).
Proof.
  unfold set_next. intros [n Hn]. unfold list_next in Hn.
  destruct (h !! p) as [lk|] eqn:Hp; [|done]. simpl. eexists. split; [done|]. split; intros x.
  - by rewrite list_next_insert.
  - rewrite list_prev_insert. case_decide; [|done]. subst. unfold list_prev. by rewrite Hp.
Qed.

Lemma set_prev_spec h p v :
  is_Some (list_prev h p) ->
  exists h', set_prev h p v = Some h' /\
    (forall x, list_prev h' x = if decide (p = x) then Some v else list_prev h x) /\
    (forall x, list_next h' x = list_next h x).
Proof.
  unfold set_prev. intros [n Hn]. unfold list_prev in Hn.
  destruct (h !! p) as [lk|] eqn:Hp; [|done]. simpl. eexists. split; [done|]. split; intros x.
  - by rewrite list_prev_insert.
  - rewrite list_next_insert. case_decide; [|done]. subst. unfold list_next. by rewrite Hp.
Qed.

Lemma list_next_prev_Some h p : is_Some (list_next h p) <-> is_Some (list_prev h p).
Proof. unfold list_next, list_prev. by rewrite !fmap_is_Some. Qed.

(** The fields after [list_append] and [list_insert]. *)
Lemma list_append_fields h to entry t :
  list_prev h to = Some t -> is_Some (list_next h t) -> to ≠ entry -> t ≠ entry ->
  exists h', list_append h to entry = Some h' /\
    (forall x, list_next h' x =
       if decide (x = t) then Some entry else
       if decide (x = entry) then Some to else list_next h x) /\
    (forall x, list_prev h' x =
       if decide (x = to) then Some entry else
       if decide (x = entry) then Some t else list_prev h x).
Proof.
  intros Ht Hnt Hne Hte. unfold list_append. rewrite Ht. simpl.
  destruct (set_prev_spec (<[entry := Link to t]> h) to entry) as (h1 & -> & P1 & N1).
  { rewrite list_prev_insert, decide_False, Ht by done. eauto. }
  simpl. destruct (set_next_spec h1 t entry) as (h2 & -> & N2 & P2).
  { rewrite N1, list_next_insert, decide_False by done. done. }
  exists h2. split; [done|]. split; intros x.
  - rewrite N2, N1, list_next_insert. repeat case_decide; naive_solver.
  - rewrite P2, P1, list_prev_insert. repeat case_decide; naive_solver.
Qed.

Lemma list_insert_fields h to entry f :
  list_next h to = Some f -> is_Some (list_prev h f) -> to ≠ entry -> f ≠ entry ->
  exists h', list_insert h to entry = Some h' /\
    (forall x, list_next h' x =
       if decide (x = to) then Some entry else
       if decide (x = entry) then Some f else list_next h x) /\
    (forall x, list_prev h' x =
       if decide (x = f) then Some entry else
       if decide (x = entry) then Some to else list_prev h x).
Proof.
  intros Hf Hpf Hne Hfe. unfold list_insert. rewrite Hf. simpl.
  destruct (set_next_spec (<[entry := Link f to]> h) to entry) as (h1 & -> & N1 & P1).
  { rewrite list_next_insert, decide_False, Hf by done. eauto. }
  simpl. destruct (set_prev_spec h1 f entry) as (h2 & -> & P2 & N2).
  { rewrite P1, list_prev_insert, decide_False by done. done. }
  exists h2. split; [done|]. split; intros x.
  - rewrite N2, N1, list_next_insert. repeat case_decide; naive_solver.
  - rewrite P2, P1, list_prev_insert. repeat case_decide; naive_solver.
Qed.

Lemma list_remove_fields h e n p :
  list_next h e = Some n -> list_prev h e = Some p ->
  is_Some (list_prev h n) -> is_Some (list_next h p) ->
  exists h', list_remove h e = Some h' /\
    (forall x, list_next h' x =
       if decide (x = e) then Some e else if decide (x = p) then Some n else list_next h x) /\
    (forall x, list_prev h' x =
       if decide (x = e) then Some e else if decide (x = n) then Some p else list_prev h x).
Proof.
  intros Hn Hp Hpn Hnp. unfold list_remove. rewrite Hn, Hp. simpl.
  destruct (set_prev_spec h n p Hpn) as (h1 & -> & P1 & N1). simpl.
  destruct (set_next_spec h1 p n) as (h2 & -> & N2 & P2); [by rewrite N1|]. simpl.
  eexists. split; [done|]. unfold list_initialize. split; intros x.
  - rewrite list_next_insert, N2, N1. repeat case_decide; naive_solver.
  - rewrite list_prev_insert, P2, P1. repeat case_decide; naive_solver.
Qed.

(** *** Simulation: each pointer operation implements its ring operation *)

Lemma rep_wf h A : rep h A -> rings_wf A.
Proof. by intros []. Qed.

Lemma rep_seg h A g l : rep h A -> A !! g = Some l -> seg h g l g.
Proof. intros [_ Hs]. apply Hs. Qed.

(** Rings that share no node with the change survive it. *)
Lemma seg_frame_ring h h' (D : loc -> Prop) g l :
  seg h g l g ->
  (forall x, ¬ D x -> list_next h' x = list_next h x /\ list_prev h' x = list_prev h x) ->
  (forall x, x ∈ g :: l -> ¬ D x) ->
  seg h' g l g.
Proof.
  intros Hs Hf Hd. eapply seg_frame; [..|done]; intros x Hx; apply Hf, Hd; set_solver.
Qed.

Lemma ring_disjoint A g1 l1 g2 l2 x :
  rings_wf A -> A !! g1 = Some l1 -> A !! g2 = Some l2 -> g1 ≠ g2 ->
  x ∈ g1 :: l1 -> x ∉ g2 :: l2.
Proof. intros [_ Hd] ?? Hne ??. by apply Hne, (Hd g1 l1 g2 l2 x). Qed.

Lemma seg_succ h p l q e n : seg h p l q -> succ_in e q l = Some n -> list_next h e = Some n.
Proof.
  revert p. induction l as [|x l IH]; intros p; [done|]. cbn [seg succ_in]. intros [_ Hs].
  destruct (decide (x = e)) as [->|]; [|by eapply IH]. intros [= <-]. by eapply seg_first.
Qed.

Lemma rep_next h A g n : rep h A -> ring_next A g = Some n -> list_next h g = Some n.
Proof.
  unfold ring_next. intros Hr Hn. destruct (A !! g) as [l|] eqn:Hl.
  - simplify_eq/=. by rewrite (seg_first h g l g) by by eapply rep_seg.
  - destruct (owner A g) as [o|]; [|done]. cbn in Hn. destruct (A !! o) as [l|] eqn:Ho; [|done]. cbn in Hn.
    eapply seg_succ; [by eapply (rep_seg h A o l)|done].
Qed.

Lemma rep_prev h A g n : rep h A -> ring_prev A g = Some n -> list_prev h g = Some n.
Proof.
  unfold ring_prev. intros Hr Hn. destruct (A !! g) as [l|] eqn:Hl; [|done]. simplify_eq/=.
  by rewrite (seg_last h g l g) by by eapply rep_seg.
Qed.

Lemma rep_head h A g o : rep h A -> ring_head A g = Some o -> list_head h g = Some o.
Proof.
  unfold ring_head, list_head. intros Hr Ho. destruct (A !! g) as [l|] eqn:Hl; [|done].
  simplify_eq/=. rewrite (rep_next h A g (default g (head l))); [|done|by unfold ring_next; rewrite Hl].
  simpl. f_equal. unfold list_edge_to_null, list_is_edge. destruct l as [|x l]; simpl.
  - by rewrite bool_decide_true.
  - rewrite bool_decide_false; [done|]. intros <-.
    apply rep_wf in Hr as [Hnd _]. apply Hnd, NoDup_cons in Hl as [Hl _]. set_solver.
Qed.

Lemma rep_is_empty h A g b :
  rep h A -> ring_is_empty A g = Some b -> list_is_empty h g = Some b.
Proof.
  unfold ring_is_empty, list_is_empty. intros Hr Hb. destruct (A !! g) as [l|] eqn:Hl; [|done].
  simplify_eq/=. rewrite (rep_next h A g (default g (head l))); [|done|by unfold ring_next; rewrite Hl].
  simpl. f_equal. destruct l as [|x l]; simpl; [by apply bool_decide_true|].
  apply bool_decide_false. intros ->.
  apply rep_wf in Hr as [Hnd _]. apply Hnd, NoDup_cons in Hl as [Hl _]. set_solver.
Qed.

Lemma rep_initialize h A e A' :
  rep h A -> ring_initialize A e = Some A' -> rep (list_initialize h e) A'.
Proof.
  unfold ring_initialize. intros Hr Hi. destruct (loose A e) eqn:Hl; [|done]. simplify_eq.
  split; [apply rings_wf_initialize; [by eapply rep_wf|done]|].
  intros g l Hg. unfold list_initialize. destruct (decide (g = e)) as [->|Hne].
  - rewrite lookup_insert_eq in Hg. simplify_eq. simpl.
    by rewrite list_next_insert, list_prev_insert, !decide_True.
  - rewrite lookup_insert_ne in Hg by done.
    eapply (seg_frame_ring h _ (λ x, x = e)); [by eapply rep_seg|..].
    + intros x Hx. rewrite list_next_insert, list_prev_insert, !decide_False by done. done.
    + intros x Hx ->. destruct (loose_fresh A e g l e) as [|]; eauto using rep_wf.
Qed.

Lemma rep_clear h A e A' :
  rep h A -> ring_clear A e = Some A' -> rep (list_clear h e) A'.
Proof.
  unfold ring_clear. intros Hr Hi. destruct (loose A e) eqn:Hl; [|done]. simplify_eq.
  pose proof (rep_wf _ _ Hr) as [Hnd Hdis]. split.
  - split; intros *; rewrite ?lookup_delete_Some; naive_solver.
  - intros g l [Hne Hg]%lookup_delete_Some.
    eapply (seg_frame_ring h _ (λ x, x = e)); [by eapply rep_seg|..].
    + intros x Hx. unfold list_next, list_prev, list_clear. by rewrite !lookup_delete_ne by done.
    + intros x Hx ->. destruct (loose_fresh A e g l e) as [|]; eauto using rep_wf.
Qed.

Lemma ring_drop_lookup A f A' g l :
  ring_drop A f = Some A' -> A' !! g = Some l <-> A !! g = Some l /\ f g = false.
Proof. unfold ring_drop. case_bool_decide; [|done]. intros [= <-]. apply map_lookup_filter_Some. Qed.

Lemma rings_wf_drop A f A' : rings_wf A -> ring_drop A f = Some A' -> rings_wf A'.
Proof.
  intros [Hnd Hdis] Hd. split; intros *; rewrite ?(ring_drop_lookup _ _ _ _ _ Hd); naive_solver.
Qed.

Lemma rep_drop h A f A' : rep h A -> ring_drop A f = Some A' -> rep (list_drop h f) A'.
Proof.
  intros Hr Hd. split; [by eapply rings_wf_drop; [apply (rep_wf h)|]|].
  intros g l [Hg Hf]%(ring_drop_lookup _ _ _ _ _ Hd). unfold ring_drop in Hd.
  case_bool_decide as HF; [|done].
  eapply (seg_frame_ring h _ (λ x, f x = true)); [by eapply rep_seg|..].
  - intros x Hx%not_true_is_false. unfold list_next, list_prev, list_drop.
    destruct (h !! x) as [y|] eqn:E.
    + by rewrite (map_lookup_filter_Some_2 _ h x y).
    + by rewrite map_lookup_filter_None_2 by auto.
  - intros x [->|Hx]%elem_of_cons; [congruence|]. specialize (HF g l Hg). rewrite Forall_forall in HF.
    rewrite (HF x Hx). congruence.
Qed.

(** Both [list_append] and [list_insert] need the guard's ring and the fresh
    entry to be apart. *)
Lemma ring_add_apart A to l entry x :
  rings_wf A -> A !! to = Some l -> to ≠ entry -> loose A entry = true ->
  x ∈ to :: l -> x ≠ entry.
Proof. intros. destruct (loose_fresh A entry to l x); naive_solver. Qed.

Lemma rep_append h A to entry A' :
  rep h A -> ring_append A to entry = Some A' ->
  exists h', list_append h to entry = Some h' /\ rep h' A'.
Proof.
  unfold ring_append. intros Hr Ha. destruct (A !! to) as [l|] eqn:Hl; [|done]. simpl in Ha.
  case_bool_decide as Hne; [|done]. destruct (loose A entry) eqn:Hlo; [|done]. simplify_eq/=.
  pose proof (rep_wf _ _ Hr) as Hwf. pose proof (rep_seg _ _ _ _ Hr Hl) as Hs.
  assert (Hap : forall x, x ∈ to :: l -> x ≠ entry) by (intros; by eapply ring_add_apart).
  pose proof (last_of_elem to l) as Ht. set (t := last_of to l) in *.
  assert (Htn : list_prev h to = Some t) by by apply seg_last.
  destruct (list_append_fields h to entry t) as (h' & -> & N & P); [done| |done|by apply Hap|].
  { apply elem_of_cons in Ht as [->|Ht]; [rewrite list_next_prev_Some, Htn; eauto|].
    apply list_elem_of_split in Ht as (k1 & k2 & Hk). rewrite Hk in Hs.
    apply seg_app in Hs as [_ Hs]. rewrite (seg_first _ _ _ _ Hs). eauto. }
  exists h'. split; [done|].
  split; [eapply rings_wf_add; eauto; by rewrite Permutation_app_comm|].
  intros g k Hg. destruct (decide (g = to)) as [->|Hgt].
  - rewrite lookup_insert_eq in Hg. simplify_eq. apply seg_app. simpl.
    pose proof (proj1 Hwf _ _ Hl) as [Hto Hnd]%NoDup_cons. split.
    + eapply seg_retarget; [done|by constructor|..]; fold t.
      * intros Hin. by eapply (Hap entry); [right|].
      * intros x Hx Hxt. rewrite N, !decide_False; [done|by apply Hap|done].
      * intros x Hx. rewrite P, !decide_False; [done|by apply Hap; right|by intros ->].
      * by rewrite N, decide_True.
      * rewrite P, decide_False, decide_True; by auto using not_eq_sym.
    + rewrite N, P, (decide_True _ _ (eq_refl to)). rewrite decide_False, decide_True; [done..|].
      intros E. by eapply (Hap t).
  - rewrite lookup_insert_ne in Hg by done. apply lookup_delete_Some in Hg as [Hge Hg].
    eapply (seg_frame_ring h h' (λ x, x = t \/ x = entry \/ x = to)); [by eapply rep_seg|..].
    + intros x Hx. rewrite N, P, !decide_False by naive_solver. done.
    + intros x Hx Hd.
      assert (x ≠ entry) by (intros ->; destruct (loose_fresh A entry g k entry); naive_solver).
      assert (x ∉ to :: l) by (eapply (ring_disjoint A g k to l); eauto).
      destruct Hd as [-> | [-> | ->]]; set_solver.
Qed.

Lemma rep_insert h A to entry A' :
  rep h A -> ring_insert A to entry = Some A' ->
  exists h', list_insert h to entry = Some h' /\ rep h' A'.
Proof.
  unfold ring_insert. intros Hr Ha. destruct (A !! to) as [l|] eqn:Hl; [|done]. simpl in Ha.
  case_bool_decide as Hne; [|done]. destruct (loose A entry) eqn:Hlo; [|done]. simplify_eq/=.
  pose proof (rep_wf _ _ Hr) as Hwf. pose proof (rep_seg _ _ _ _ Hr Hl) as Hs.
  assert (Hap : forall x, x ∈ to :: l -> x ≠ entry) by (intros; by eapply ring_add_apart).
  pose proof (seg_first _ _ _ _ Hs) as Hf. set (f := default to (head l)) in *.
  assert (Hfl : f ∈ to :: l) by (unfold f; destruct l; set_solver).
  destruct (list_insert_fields h to entry f) as (h' & -> & N & P); [done| |done|by apply Hap|].
  { unfold f. destruct l as [|y l]; simpl in *; naive_solver. }
  exists h'. split; [done|]. split; [by eapply rings_wf_add|].
  intros g k Hg. destruct (decide (g = to)) as [->|Hgt].
  - rewrite lookup_insert_eq in Hg. simplify_eq.
    pose proof (proj1 Hwf _ _ Hl) as [Hto Hnd]%NoDup_cons.
    assert (Hhd : head (l ++ [to]) = Some f) by by destruct l.
    simpl. rewrite (N to), (P entry), decide_True by done.
    rewrite decide_False, decide_True by (try done; intros E; by eapply (Hap f)).
    split; [done|]. eapply seg_resource; [done|..].
    + rewrite Permutation_app_comm. by constructor.
    + intros Hin. by eapply (Hap entry); [right|].
    + intros x Hx. rewrite N, !decide_False; [done|by apply Hap; right|by intros ->].
    + intros x Hx Hxf. rewrite Hhd in Hxf.
      rewrite P, !decide_False; [done|apply Hap; set_solver|naive_solver].
    + by rewrite N, decide_False, decide_True, Hhd by auto.
    + intros x Hx. rewrite Hhd in Hx. simplify_eq. by rewrite P, decide_True.
  - rewrite lookup_insert_ne in Hg by done. apply lookup_delete_Some in Hg as [Hge Hg].
    eapply (seg_frame_ring h h' (λ x, x = f \/ x = entry \/ x = to)); [by eapply rep_seg|..].
    + intros x Hx. rewrite N, P, !decide_False by naive_solver. done.
    + intros x Hx Hd.
      assert (x ≠ entry) by (intros ->; destruct (loose_fresh A entry g k entry); naive_solver).
      assert (x ∉ to :: l) by (eapply (ring_disjoint A g k to l); eauto).
      destruct Hd as [-> | [-> | ->]]; set_solver.
Qed.

Lemma seg_next_Some h p l q x : seg h p l q -> x ∈ p :: l -> is_Some (list_next h x).
Proof.
  revert p. induction l as [|y l IH]; intros p Hs Hx; simpl in *.
  - apply list_elem_of_singleton in Hx as ->. destruct Hs as [-> _]. eauto.
  - destruct Hs as [[Hn _] Hs]. apply elem_of_cons in Hx as [->|Hx]; [rewrite Hn; eauto|].
    by eapply IH.
Qed.

(** Removing an entry from the segment that goes through it. *)
Lemma seg_remove h h' g l1 e l2 :
  seg h g (l1 ++ e :: l2) g -> NoDup (g :: l1 ++ e :: l2) ->
  (forall x, list_next h' x =
     if decide (x = e) then Some e else
     if decide (x = last_of g l1) then Some (default g (head l2)) else list_next h x) ->
  (forall x, list_prev h' x =
     if decide (x = e) then Some e else
     if decide (x = default g (head l2)) then Some (last_of g l1) else list_prev h x) ->
  seg h' g (l1 ++ l2) g /\ seg h' e [] e.
Proof.
  intros [Hs1 Hs2]%seg_app Hnd N P. simpl. rewrite N, P, !decide_True by done.
  split; [|done]. pose proof (last_of_elem g l1) as Ht. set (t := last_of g l1) in *.
  apply NoDup_cons in Hnd as [Hg Hnd]. apply NoDup_app in Hnd as (Hnd1 & Hdis & Hnd2).
  apply NoDup_cons in Hnd2 as [He2 Hnd2].
  assert (He1 : e ∉ g :: l1) by set_solver. assert (Hte : t ≠ e) by (intros E; by rewrite E in Ht).
  assert (Hone : forall y, default g (head l2) = y -> y ∉ l1 -> y ≠ e -> seg h' g l1 y).
  { intros y Hy Hyl Hye. eapply seg_retarget; [exact Hs1|..]; fold t; try done.
    - apply NoDup_cons. set_solver.
    - intros x Hx Hxt. rewrite N, !decide_False by set_solver. done.
    - intros x Hx. rewrite P, !decide_False by set_solver. done.
    - rewrite N, decide_False, decide_True by done. by rewrite Hy.
    - by rewrite P, decide_False, decide_True by done. }
  destruct l2 as [|y l2]; simpl in *.
  - rewrite app_nil_r. apply Hone; set_solver.
  - apply seg_app. split; [apply Hone; set_solver|].
    apply NoDup_cons in Hnd2 as [Hy2 Hnd2]. destruct Hs2 as [_ Hs2].
    eapply seg_frame; [..|done]; intros x Hx.
    + assert (x ∉ g :: l1) by set_solver. rewrite N, !decide_False by set_solver. done.
    + rewrite P, !decide_False by set_solver. done.
Qed.

Lemma rep_remove h A e A' :
  rep h A -> ring_remove A e = Some A' ->
  exists h', list_remove h e = Some h' /\ rep h' A'.
Proof.
  unfold ring_remove. intros Hr Ha. pose proof (rep_wf _ _ Hr) as Hwf.
  destruct (owner A e) as [g|] eqn:Ho.
  - apply owner_inv in Ho as (l & Hl & He). rewrite Hl in Ha. simplify_eq/=.
    pose proof (rep_seg _ _ _ _ Hr Hl) as Hs.
    pose proof (proj1 Hwf _ _ Hl) as Hnd.
    assert (Hwf' := rings_wf_remove A g l e Hwf Hl He).
    apply list_elem_of_split in He as (l1 & l2 & ->).
    assert (Hf : filter (λ x, x ≠ e) (l1 ++ e :: l2) = l1 ++ l2).
    { apply NoDup_cons in Hnd as [_ (_ & Hd & [He2 _]%NoDup_cons)%NoDup_app].
      apply filter_ne_split; [|done]. intros He1. by apply (Hd e He1); left. }
    rewrite Hf in *.
    pose proof Hs as [Hs1 Hs2]%seg_app.
    destruct (list_remove_fields h e (default g (head l2)) (last_of g l1)) as (h' & -> & N & P).
    { by apply (seg_first _ _ _ _ Hs2). }
    { by apply (seg_last _ _ _ _ Hs1). }
    { destruct l2; simpl in *; naive_solver. }
    { eapply seg_next_Some; [exact Hs1|]. apply last_of_elem. }
    exists h'. split; [done|]. split; [done|].
    destruct (seg_remove h h' g l1 e l2 Hs Hnd N P) as [Hg' He'].
    intros g' k Hk. destruct (decide (g' = e)) as [->|Hge]; [by simplify_map_eq|].
    rewrite lookup_insert_ne in Hk by done.
    destruct (decide (g' = g)) as [->|Hgg]; [by simplify_map_eq|].
    rewrite lookup_insert_ne in Hk by done.
    eapply (seg_frame_ring h h' (λ x, x ∈ g :: l1 ++ e :: l2)); [by eapply rep_seg|..].
    + intros x Hx. pose proof (last_of_elem g l1).
      assert (default g (head l2) ∈ g :: l1 ++ e :: l2) by (destruct l2; set_solver).
      rewrite N, P, !decide_False by set_solver. done.
    + intros x Hx. by eapply (ring_disjoint A g' k g).
  - destruct (A !! e) as [[|]|] eqn:He; [|done..]. simplify_eq.
    pose proof (rep_seg _ _ _ _ Hr He) as [Hn Hp]. simpl in *.
    destruct (list_remove_fields h e e e) as (h' & -> & N & P); eauto.
    exists h'. split; [done|]. split; [done|]. intros g l Hg.
    eapply (seg_frame_ring h h' (λ _, False)); [by eapply rep_seg| |tauto].
    intros x _. rewrite N, P. by repeat case_decide; subst.
Qed.

Lemma rep_remove_entry h A g l e :
  rep h A -> A !! g = Some l -> e ∈ l ->
  exists h', list_remove h e = Some h' /\
    rep h' (<[e := []]> (<[g := filter (λ x, x ≠ e) l]> A)).
Proof.
  intros Hr Hg He. apply (rep_remove h A e); [done|]. unfold ring_remove.
  rewrite (owner_Some A e g l); [|by eapply rep_wf|done..]. by rewrite Hg.
Qed.

(** [list_pick] takes the first entry, and nothing from an empty list. *)
Lemma rep_pick h A g l :
  rep h A -> A !! g = Some l ->
  exists h', list_pick h g = Some (head l, h') /\
    rep h' (match l with [] => A | x :: k => <[x := []]> (<[g := k]> A) end).
Proof.
  intros Hr Hg. unfold list_pick.
  rewrite (rep_next h A g (default g (head l))) by (try done; unfold ring_next; by rewrite Hg).
  pose proof (proj1 (rep_wf _ _ Hr) _ _ Hg) as Hnd. unfold list_is_edge.
  destruct l as [|x k]; simpl.
  - rewrite bool_decide_true by done. eauto.
  - rewrite bool_decide_false by (apply NoDup_cons in Hnd; set_solver).
    destruct (rep_remove_entry h A g (x :: k) x) as (h' & -> & Hr'); [done|done|by left|].
    apply NoDup_cons in Hnd as [_ Hnd]. rewrite filter_ne_head in Hr' by done. eauto.
Qed.

(** The [next] fields alone. *)
Fixpoint chain h p l q : Prop :=
  match l with
  | [] => list_next h p = Some q
  | x :: l => list_next h p = Some x /\ chain h x l q
  end.

Lemma seg_chain h p l q : seg h p l q -> chain h p l q.
Proof. revert p. induction l as [|x l IH]; intros p; simpl; [tauto|]. intros [[? _] ?]. auto. Qed.

Lemma chain_frame h h' p l q :
  (forall x, x ∈ p :: l -> list_next h' x = list_next h x) -> chain h p l q -> chain h' p l q.
Proof.
  revert p. induction l as [|y l IH]; intros p Hf; simpl; (rewrite Hf by (by left)); [done|].
  intros [? ?]. split; [done|]. apply IH; [|done]. intros x Hx. apply Hf. by right.
Qed.

Lemma list_release_loop_spec fuel h g p l :
  chain h p l g -> NoDup (p :: l) -> g ∉ l -> (length l < fuel)%nat ->
  exists h', list_release_loop fuel h g p = Some h' /\
    (forall x, x ∈ p :: l -> h' !! x = Some (Link x x)) /\
    (forall x, x ∉ p :: l -> h' !! x = h !! x).
Proof.
  revert h p fuel. induction l as [|y l IH]; intros h p fuel Hs Hnd Hg Hf;
    (destruct fuel as [|fuel]; [simpl in Hf; lia|]); simpl in *;
    unfold list_is_edge, list_initialize.
  - rewrite Hs. simpl. rewrite bool_decide_true by done.
    eexists. split; [done|]. split; intros x Hx.
    + apply list_elem_of_singleton in Hx as ->. apply lookup_insert_eq.
    + apply lookup_insert_ne. set_solver.
  - destruct Hs as [-> Hs]. simpl. rewrite bool_decide_false by set_solver.
    apply NoDup_cons in Hnd as [Hp Hnd].
    destruct (IH (<[p := Link p p]> h) y fuel) as (h' & -> & Hin & Hout);
      [|done|set_solver|lia|].
    { eapply chain_frame; [|done]. intros x Hx.
      rewrite list_next_insert, decide_False by set_solver. done. }
    exists h'. split; [done|]. split; intros x Hx.
    + apply elem_of_cons in Hx as [->|Hx]; [|by apply Hin].
      rewrite Hout by done. apply lookup_insert_eq.
    + rewrite Hout by set_solver. apply lookup_insert_ne. set_solver.
Qed.

(** The ring of [g] taken apart: one single-node ring per node. *)
Definition ring_release A g : option (gmap loc (list loc)) :=
  l ← A !! g; Some (foldr (λ x, insert x []) A (g :: l)).

Lemma foldr_insert_lookup A (k : list loc) x :
  foldr (λ x, insert x []) A k !! x = if decide (x ∈ k) then Some [] else A !! x.
Proof.
  induction k as [|y k IH]; cbn [foldr].
  - by rewrite decide_False by set_solver.
  - rewrite lookup_insert, IH. repeat case_decide; set_solver.
Qed.

Lemma seg_size h p l q : seg h p l q -> NoDup (p :: l) -> (length (p :: l) <= size h)%nat.
Proof.
  intros Hs Hnd. rewrite <- size_dom, <- (size_list_to_set (C := gset loc)) by done.
  apply subseteq_size. intros x Hx%elem_of_list_to_set.
  eapply seg_next_Some in Hs as [n Hn]; [|done]. unfold list_next in Hn.
  apply elem_of_dom. destruct (h !! x); [eauto|done].
Qed.

Lemma rep_release h A g A' :
  rep h A -> ring_release A g = Some A' ->
  exists h', list_release h g = Some h' /\ rep h' A'.
Proof.
  unfold ring_release. intros Hr Ha. destruct (A !! g) as [l|] eqn:Hl; [|done]. simplify_eq/=.
  pose proof (rep_seg _ _ _ _ Hr Hl) as Hs. pose proof (rep_wf _ _ Hr) as Hwf.
  pose proof (proj1 Hwf _ _ Hl) as Hnd. pose proof (seg_size _ _ _ _ Hs Hnd) as Hsz.
  destruct (list_release_loop_spec (size h) h g g l) as (h' & Hh' & Hin & Hout).
  { by apply seg_chain. } { done. } { by apply NoDup_cons in Hnd as []. } { simpl in Hsz. lia. }
  unfold list_release. rewrite Hh'. exists h'. split; [done|].
  assert (Hlk : forall g' k, foldr (λ x, insert x []) A (g :: l) !! g' = Some k ->
     (g' ∈ g :: l /\ k = []) \/ (g' ∉ g :: l /\ g' ≠ g /\ A !! g' = Some k)).
  { intros g' k. rewrite foldr_insert_lookup. case_decide; [naive_solver|].
    intros. right. set_solver. }
  assert (Hout' : forall g' k x, g' ∉ g :: l -> A !! g' = Some k -> x ∈ g' :: k -> x ∉ g :: l).
  { intros g' k x Hg' Hk Hx. apply (ring_disjoint A g' k g l); set_solver. }
  change (<[g:=[]]> (foldr (λ x, insert x []) A l)) with (foldr (λ x, insert x []) A (g :: l)).
  split; [split|].
  - intros g' k [[_ ->]|(_ & _ & Hk)]%Hlk; [repeat constructor; set_solver|].
    by apply (proj1 Hwf).
  - intros g1 l1 g2 l2 x [[H1 ->]|(H1 & _ & K1)]%Hlk [[H2 ->]|(H2 & _ & K2)]%Hlk Hx1 Hx2.
    + set_solver.
    + exfalso. apply (Hout' g2 l2 x); [done..|]. set_solver.
    + exfalso. apply (Hout' g1 l1 x); [done..|]. set_solver.
    + by eapply (proj2 Hwf).
  - intros g' k [[Hg' ->]|(Hg' & _ & Hk)]%Hlk.
    + simpl. unfold list_next, list_prev. by rewrite !Hin.
    + eapply (seg_frame_ring h h' (λ x, x ∈ g :: l)); [by eapply rep_seg|..].
      * intros x Hx. unfold list_next, list_prev. by rewrite Hout.
      * intros x Hx. by eapply Hout'.
Qed.

End Representation.

(** ** The interface of the component

    What a client may do with lists, whatever holds them. *)

Class ListOps (loc H : Type) := {
  op_initialize : H -> loc -> option H;
  op_clear : H -> loc -> option H;
  op_append : H -> loc -> loc -> option H;
  op_insert : H -> loc -> loc -> option H;
  op_remove : H -> loc -> option H;
  op_pick : H -> loc -> option (option loc * H);
  op_head : H -> loc -> option (option loc);
  op_next : H -> loc -> option loc;
  op_prev : H -> loc -> option loc;
  op_is_empty : H -> loc -> option bool;
  op_drop : H -> (loc -> bool) -> option H;
}.

(** The inline wrappers of include/set/list.h. *)
Definition list_push {loc H} `{ListOps loc H} (h : H) (guard entry : loc) : option H :=
  op_insert h guard entry.

Definition list_pop {loc H} `{ListOps loc H} (h : H) (guard : loc) : option (option loc * H) :=
  op_pick h guard.

Definition list_enqueue {loc H} `{ListOps loc H} (h : H) (guard entry : loc) : option H :=
  op_append h guard entry.

Definition list_dequeue {loc H} `{ListOps loc H} (h : H) (guard : loc) : option (option loc * H) :=
  op_pick h guard.

#[export] Instance pointer_ops {loc} `{Countable loc} : ListOps loc (gmap loc (list_t loc)) := {
  op_initialize h e := Some (list_initialize h e);
  op_clear h e := Some (list_clear h e);
  op_append := list_append;
  op_insert := list_insert;
  op_remove := list_remove;
  op_pick := list_pick;
  op_head := list_head;
  op_next := list_next;
  op_prev := list_prev;
  op_is_empty := list_is_empty;
  op_drop h f := Some (list_drop h f);
}.

Definition ring_pick {loc} `{Countable loc} (A : gmap loc (list loc)) (g : loc) :
    option (option loc * gmap loc (list loc)) :=
  l ← A !! g;
  match l with
  | [] => Some (None, A)
  | x :: k => Some (Some x, <[x := []]> (<[g := k]> A))
  end.

#[export] Instance ring_ops {loc} `{Countable loc} : ListOps loc (gmap loc (list loc)) := {
  op_initialize := ring_initialize;
  op_clear := ring_clear;
  op_append := ring_append;
  op_insert := ring_insert;
  op_remove := ring_remove;
  op_pick := ring_pick;
  op_head := ring_head;
  op_next := ring_next;
  op_prev := ring_prev;
  op_is_empty := ring_is_empty;
  op_drop := ring_drop;
}.

(** A concrete implementation [C] refines an abstract one [A] when every
    abstract step that is defined is matched by the concrete one. *)
Class ListRefines {loc C A} `{!ListOps loc C, !ListOps loc A} (R : C -> A -> Prop) := {
  refine_initialize c a e a' : R c a -> op_initialize a e = Some a' ->
    exists c', op_initialize c e = Some c' /\ R c' a';
  refine_clear c a e a' : R c a -> op_clear a e = Some a' ->
    exists c', op_clear c e = Some c' /\ R c' a';
  refine_append c a g e a' : R c a -> op_append a g e = Some a' ->
    exists c', op_append c g e = Some c' /\ R c' a';
  refine_insert c a g e a' : R c a -> op_insert a g e = Some a' ->
    exists c', op_insert c g e = Some c' /\ R c' a';
  refine_remove c a e a' : R c a -> op_remove a e = Some a' ->
    exists c', op_remove c e = Some c' /\ R c' a';
  refine_pick c a g o a' : R c a -> op_pick a g = Some (o, a') ->
    exists c', op_pick c g = Some (o, c') /\ R c' a';
  refine_head c a g o : R c a -> op_head a g = Some o -> op_head c g = Some o;
  refine_next c a g n : R c a -> op_next a g = Some n -> op_next c g = Some n;
  refine_prev c a g n : R c a -> op_prev a g = Some n -> op_prev c g = Some n;
  refine_is_empty c a g b : R c a -> op_is_empty a g = Some b -> op_is_empty c g = Some b;
  refine_drop c a f a' : R c a -> op_drop a f = Some a' ->
    exists c', op_drop c f = Some c' /\ R c' a';
}.

(** The pointers of list.c implement rings: for every operation and every
    family of well-formed rings, the pointer code is defined whenever the
    operation makes sense and leaves memory representing the result. *)
#[export] Instance pointers_refine_rings {loc} `{Countable loc} :
  ListRefines (C := gmap loc (list_t loc)) (A := gmap loc (list loc)) rep.
Proof.
  split; simpl.
  - intros c a e a' Hr Ha. eexists. split; [done|]. by eapply rep_initialize.
  - intros c a e a' Hr Ha. eexists. split; [done|]. by eapply rep_clear.
  - intros. by eapply rep_append.
  - intros. by eapply rep_insert.
  - intros. by eapply rep_remove.
  - intros c a g o a' Hr Ha. unfold ring_pick in Ha. destruct (a !! g) as [l|] eqn:Hl; [|done].
    destruct (rep_pick c a g l Hr Hl) as (c' & Hp & Hr'). exists c'. simpl in Ha.
    by destruct l; simplify_eq/=.
  - intros. by eapply rep_head.
  - intros. by eapply rep_next.
  - intros. by eapply rep_prev.
  - intros. by eapply rep_is_empty.
  - intros c a f a' Hr Ha. eexists. split; [done|]. by eapply rep_drop.
Qed.

(** ** Properties of the list component *)

(** The queue discipline of list.c.  In every memory that holds
    well-formed lists, [list_append] and then [list_pick] on the same guard
    give back the oldest entry (the appended one when the list was empty), and
    the list is left with the remaining entries in order. *)
Theorem list_append_pick_fifo {loc} `{Countable loc} (h : gmap loc (list_t loc))
    (A : gmap loc (list loc)) (g e : loc) (l : list loc) :
  rep h A -> A !! g = Some l -> g ≠ e -> loose A e = true ->
  exists h1 h2 A2, list_append h g e = Some h1 /\
    list_pick h1 g = Some (head (l ++ [e]), h2) /\
    rep h2 A2 /\ A2 !! g = Some (tail (l ++ [e])).
Proof.
  intros Hr Hg Hne Hl.
  destruct (rep_append h A g e (<[g := l ++ [e]]> (delete e A))) as (h1 & H1 & Hr1); [done| |].
  { unfold ring_append. rewrite Hg. simpl. by rewrite bool_decide_true, Hl. }
  destruct (rep_pick h1 _ g (l ++ [e]) Hr1) as (h2 & H2 & Hr2); [apply lookup_insert_eq|].
  pose proof (proj1 (rep_wf _ _ Hr1) g _ (lookup_insert_eq _ _ _)) as [Hgl _]%NoDup_cons.
  destruct (l ++ [e]) as [|x k] eqn:Hk; [by destruct l|].
  exists h1, h2. eexists. split_and!; [done|done|exact Hr2|].
  rewrite lookup_insert_ne by set_solver. apply lookup_insert_eq.
Qed.

(** [list_remove] unlinks exactly the entry: the ring that held it keeps
    its other entries in their order, the entry becomes an empty list of its
    own, and every other ring is as before. *)
Theorem list_remove_exact {loc} `{Countable loc} (h : gmap loc (list_t loc))
    (A : gmap loc (list loc)) (g e : loc) (l1 l2 : list loc) :
  rep h A -> A !! g = Some (l1 ++ e :: l2) ->
  exists h' A', list_remove h e = Some h' /\ rep h' A' /\
    A' !! g = Some (l1 ++ l2) /\ A' !! e = Some [] /\
    forall g', g' ≠ g -> g' ≠ e -> A' !! g' = A !! g'.
Proof.
  intros Hr Hg. pose proof (proj1 (rep_wf _ _ Hr) _ _ Hg) as Hnd.
  destruct (rep_remove_entry h A g (l1 ++ e :: l2) e) as (h' & H1 & Hr'); [done..|set_solver|].
  apply NoDup_cons in Hnd as [Hge (_ & Hd & [He2 _]%NoDup_cons)%NoDup_app].
  assert (He1 : e ∉ l1) by (intros He1; apply (Hd e He1); by left).
  rewrite filter_ne_split in Hr' by done.
  exists h'. eexists. split_and!; [done|exact Hr'| |apply lookup_insert_eq|].
  - rewrite lookup_insert_ne by set_solver. apply lookup_insert_eq.
  - intros g' ? ?. by rewrite !lookup_insert_ne.
Qed.

(** [list_release] terminates on every well-formed list (the bound on its
    loop is the number of [list_t] objects) and leaves each node of the list,
    the guard included, pointing at itself. *)
Theorem list_release_total {loc} `{Countable loc} (h : gmap loc (list_t loc))
    (A : gmap loc (list loc)) (g : loc) (l : list loc) :
  rep h A -> A !! g = Some l ->
  exists h' A', list_release h g = Some h' /\ rep h' A' /\
    (forall x, x ∈ g :: l -> h' !! x = Some (Link x x) /\ A' !! x = Some []) /\
    (forall x, x ∉ g :: l -> A' !! x = A !! x).
Proof.
  intros Hr Hg. destruct (rep_release h A g (foldr (λ x, insert x []) A (g :: l)))
    as (h' & H1 & Hr'); [done|unfold ring_release; by rewrite Hg|].
  exists h', (foldr (λ x, insert x []) A (g :: l)).
  split; [done|]. split; [done|]. split; intros x Hx.
  - assert (Hx' : foldr (λ x, insert x []) A (g :: l) !! x = Some [])
      by (by rewrite foldr_insert_lookup, decide_True).
    split; [|done]. apply (rep_seg _ _ _ _ Hr') in Hx' as [Hn Hp]. simpl in *.
    unfold list_next, list_prev in *. destruct (h' !! x) as [[]|]; naive_solver.
  - by rewrite foldr_insert_lookup, decide_False.
Qed.

(** ** Witnesses *)

Lemma rep_empty {loc} `{Countable loc} : rep (∅ : gmap loc (list_t loc)) ∅.
Proof. split; [split|]; intros *; by rewrite lookup_empty. Qed.

(** Guard 1 with entries 2, 3 and 4, built by the operations themselves. *)
Definition demo_ring : gmap Z (list Z) := <[1 := [2; 3; 4]]> ∅.

Definition demo_heap : gmap Z (list_t Z) :=
  default ∅ (h ← list_append (list_initialize ∅ 1) 1 2; h ← list_append h 1 3; list_append h 1 4).

Lemma demo_rep : rep demo_heap demo_ring.
Proof.
  destruct (rep_append (list_initialize ∅ 1) (<[1 := []]> ∅) 1 2 (<[1 := [2]]> ∅))
    as (h1 & E1 & R1); [by eapply rep_initialize; [apply rep_empty|reflexivity]|vm_compute; reflexivity|].
  destruct (rep_append h1 (<[1 := [2]]> ∅) 1 3 (<[1 := [2; 3]]> ∅)) as (h2 & E2 & R2);
    [done|vm_compute; reflexivity|].
  destruct (rep_append h2 (<[1 := [2; 3]]> ∅) 1 4 demo_ring) as (h3 & E3 & R3);
    [done|vm_compute; reflexivity|].
  unfold demo_heap. rewrite E1. simpl. rewrite E2. simpl. by rewrite E3.
Qed.

Lemma list_append_pick_fifo_witness :
  exists h1 h2 A2, list_append demo_heap 1 5 = Some h1 /\
    list_pick h1 1 = Some (Some 2, h2) /\ rep h2 A2 /\ A2 !! 1 = Some [3; 4; 5].
Proof.
  apply (list_append_pick_fifo demo_heap demo_ring 1 5 [2; 3; 4]).
  - exact demo_rep.
  - reflexivity.
  - lia.
  - vm_compute. reflexivity.
Defined.

Lemma list_remove_exact_witness :
  exists h' A', list_remove demo_heap 3 = Some h' /\ rep h' A' /\
    A' !! 1 = Some [2; 4] /\ A' !! 3 = Some [] /\
    forall g', g' ≠ 1 -> g' ≠ 3 -> A' !! g' = demo_ring !! g'.
Proof.
  apply (list_remove_exact demo_heap demo_ring 1 3 [2] [4]); [exact demo_rep|reflexivity].
Defined.

Lemma list_release_total_witness :
  exists h' A', list_release demo_heap 1 = Some h' /\ rep h' A' /\
    (forall x, x ∈ [1; 2; 3; 4] -> h' !! x = Some (Link x x) /\ A' !! x = Some []) /\
    (forall x, x ∉ [1; 2; 3; 4] -> A' !! x = demo_ring !! x).
Proof.
  apply (list_release_total demo_heap demo_ring 1 [2; 3; 4]); [exact demo_rep|reflexivity].
Defined.
