(* ===== verification/Queues.v ===== *)
(** * Queues of records held by intrusive lists

    The rings of a component read as queues: some links are guards, and a
    record at address [a] is on the queue of guard [g] through its link
    [link_of g a].  The list operations become operations on the lists of
    addresses behind each guard. *)

From S2P Require Import Prelude Lists.

(** Which links are guards, and by which link a record is on a queue. *)
Class Queueing (loc : Type) := {
  is_guard : loc -> bool;
  link_of : loc -> Z -> loc;
}.

Class QueueingLaws (loc : Type) `{!Queueing loc} := {
  link_of_node g a : is_guard (link_of g a) = false;
  link_of_ext g g' a b : link_of g a = link_of g' b -> a = b /\ forall c, link_of g c = link_of g' c;
}.

Notation rings_of loc := (gmap loc (list loc)).
Notation queues_of loc := (gmap loc (list Z)).

Section Queueing.
Context {loc : Type} `{Countable loc} `{!Queueing loc}.

(** The record [a] is on no queue that uses the links of [g]. *)
Definition off (Q : queues_of loc) (g : loc) (a : Z) : Prop :=
  forall g' l, Q !! g' = Some l -> link_of g' a = link_of g a -> a ∉ l.

(** [A] holds the queues [Q]; the links [I] are initialised. *)
Record qrep (A : rings_of loc) (Q : queues_of loc) (I : gset loc) : Prop := {
  q_wf : rings_wf A;
  q_guard g : is_guard g = true -> A !! g = fmap (link_of g) <$> Q !! g;
  q_dom g l : Q !! g = Some l -> is_guard g = true;
  q_node e : is_guard e = false -> A !! e = None \/ A !! e = Some [];
  q_init g a : link_of g a ∈ I -> off Q g a -> A !! link_of g a = Some [];
}.

Context `{!QueueingLaws loc}.

Lemma link_of_inj g a b : link_of g a = link_of g b -> a = b.
Proof. by intros [-> _]%link_of_ext. Qed.

#[export] Instance link_of_Inj g : Inj (=) (=) (link_of g).
Proof. intros a b. apply link_of_inj. Qed.

Lemma qrep_empty : qrep ∅ ∅ ∅.
Proof.
  split; [|done|done|by left|set_solver].
  split; intros *; rewrite ?lookup_empty; done.
Qed.

Lemma fmap_filter_ne g a (l : list Z) :
  link_of g <$> filter (λ x, x ≠ a) l = filter (λ x, x ≠ link_of g a) (link_of g <$> l).
Proof.
  induction l as [|x l IH]; [done|]. cbn [fmap list_fmap]. destruct (decide (x = a)) as [->|].
  - rewrite !filter_cons_False by (by intros ?). done.
  - rewrite !filter_cons_True; [cbn [fmap list_fmap]; by rewrite IH| |done].
    by intros ?%link_of_inj.
Qed.

Section Queues.
Context (A : rings_of loc) (Q : queues_of loc) (I : gset loc) (HQ : qrep A Q I).

Lemma q_lookup g l : Q !! g = Some l -> A !! g = Some (link_of g <$> l).
Proof. intros Hg. rewrite (q_guard _ _ _ HQ) by (exact (q_dom _ _ _ HQ _ _ Hg)). by rewrite Hg. Qed.

Lemma q_inv g l : A !! g = Some l -> l ≠ [] -> exists l', Q !! g = Some l' /\ l = link_of g <$> l'.
Proof.
  intros Hg Hne. destruct (is_guard g) eqn:E.
  - rewrite (q_guard _ _ _ HQ) in Hg by done.
    apply fmap_Some in Hg as (l' & ? & ->). eauto.
  - destruct (q_node _ _ _ HQ g E); congruence.
Qed.

Lemma q_nodup g l : Q !! g = Some l -> NoDup l.
Proof.
  intros Hg%q_lookup. apply (q_wf _ _ _ HQ) in Hg as [_ Hnd]%NoDup_cons.
  by apply NoDup_fmap_1 in Hnd.
Qed.

(** A record is on one queue of each kind at most. *)
Lemma q_unique g1 g2 l1 l2 a :
  Q !! g1 = Some l1 -> Q !! g2 = Some l2 -> a ∈ l1 -> a ∈ l2 -> link_of g1 a = link_of g2 a -> g1 = g2.
Proof.
  intros H1 H2 Ha1 Ha2 E. destruct (q_wf _ _ _ HQ) as [_ Hd].
  apply (Hd g1 (link_of g1 <$> l1) g2 (link_of g2 <$> l2) (link_of g1 a)); [by apply q_lookup..| |].
  - right. by apply list_elem_of_fmap_2.
  - right. rewrite E. by apply list_elem_of_fmap_2.
Qed.

Lemma q_loose g a : off Q g a -> loose A (link_of g a) = true.
Proof.
  intros Hoff. apply loose_spec. split.
  - intros g' l Hg' Hin. destruct (q_inv g' l Hg') as (l' & HQ' & ->); [by intros ->; apply elem_of_nil in Hin|].
    apply list_elem_of_fmap in Hin as (b & Hb & Hin).
    destruct (link_of_ext _ _ _ _ Hb) as [<- Hl]. by apply (Hoff g' l' HQ').
  - apply (q_node _ _ _ HQ), link_of_node.
Qed.

Lemma q_loose_guard g : is_guard g = true -> (Q !! g = None \/ Q !! g = Some []) -> loose A g = true.
Proof.
  intros Hg Hl. apply loose_spec. split.
  - intros g' l Hg' Hin. destruct (q_inv g' l Hg') as (l' & HQ' & ->); [by intros ->; apply elem_of_nil in Hin|].
    apply list_elem_of_fmap in Hin as (b & -> & _). by rewrite link_of_node in Hg.
  - rewrite (q_guard _ _ _ HQ) by done. destruct Hl as [-> | ->]; auto.
Qed.

Lemma q_head g l : Q !! g = Some l -> ring_head A g = Some (link_of g <$> head l).
Proof. intros Hg. unfold ring_head. rewrite (q_lookup _ _ Hg). by destruct l. Qed.

(** The links behind the guard and behind a member. *)
Lemma q_next_guard g l : Q !! g = Some l -> ring_next A g = Some (default g (link_of g <$> head l)).
Proof. intros Hg. unfold ring_next. rewrite (q_lookup _ _ Hg). by destruct l. Qed.

Lemma q_next_member g a l1 l2 :
  Q !! g = Some (l1 ++ a :: l2) -> ring_next A (link_of g a) = Some (default g (link_of g <$> head l2)).
Proof.
  intros Hg. pose proof (q_nodup _ _ Hg) as Hnd. pose proof (q_lookup _ _ Hg) as HA. unfold ring_next.
  assert (Hin : link_of g a ∈ link_of g <$> (l1 ++ a :: l2)) by (apply list_elem_of_fmap_2; set_solver).
  pose proof (owner_Some A _ g _ (q_wf _ _ _ HQ) HA Hin) as Ho.
  assert (HAn : A !! link_of g a = None).
  { destruct (A !! link_of g a) as [l|] eqn:E; [|done]. destruct (q_wf _ _ _ HQ) as [_ Hd].
    assert (link_of g a = g) as Eg by (eapply (Hd _ l g); [exact E|exact HA|by left|by right]).
    pose proof (q_dom _ _ _ HQ _ _ Hg) as Hgd. by rewrite <- Eg, link_of_node in Hgd. }
  rewrite HAn, Ho. cbn [mbind option_bind]. rewrite HA. cbn [mbind option_bind].
  apply NoDup_app in Hnd as (_ & Hn & _). specialize (Hn a). clear -Hn QueueingLaws0.
  induction l1 as [|x l1 IH]; cbn.
  - rewrite decide_True by done. by destruct l2.
  - rewrite decide_False; [apply IH; intros H; apply Hn; by right|].
    intros E%link_of_inj. subst x. apply Hn; by left.
Qed.

(** [a] joins the queue [g]. *)
Lemma q_add g a l l' :
  Q !! g = Some l -> off Q g a -> l' ≡ₚ a :: l ->
  g ≠ link_of g a /\ qrep (<[g := link_of g <$> l']> (delete (link_of g a) A)) (<[g := l']> Q) I.
Proof.
  intros Hg Hoff Hp. pose proof (q_dom _ _ _ HQ _ _ Hg) as Hgd.
  assert (Hne : g ≠ link_of g a) by (intros E; rewrite E, link_of_node in Hgd; done).
  assert (Hsub : forall x, x ∈ l' <-> x = a \/ x ∈ l) by (intros x; rewrite Hp; set_solver).
  split; [done|]. split.
  - eapply rings_wf_add; [exact (q_wf _ _ _ HQ)|by apply q_lookup|done|by apply q_loose|]. by rewrite Hp.
  - intros g' Hg'. destruct (decide (g' = g)) as [->|]; [by rewrite !lookup_insert_eq|].
    rewrite !lookup_insert_ne by done. rewrite lookup_delete_ne; [by apply (q_guard _ _ _ HQ)|].
    intros <-. by rewrite link_of_node in Hg'.
  - intros g' k. destruct (decide (g' = g)) as [->|]; [done|].
    rewrite lookup_insert_ne by done. by apply (q_dom _ _ _ HQ).
  - intros e He. rewrite lookup_insert_ne by (intros ->; congruence).
    destruct (decide (e = link_of g a)) as [->|]; [left; apply lookup_delete_eq|].
    rewrite lookup_delete_ne by done. by apply (q_node _ _ _ HQ).
  - intros g' b Hb Hoff'. rewrite lookup_insert_ne by (intros ->; by rewrite link_of_node in Hgd).
    assert (Hin' : forall x, x ∈ l' -> link_of g b = link_of g' b -> x ≠ b).
    { intros x Hx E ->. by apply (Hoff' g l'); [apply lookup_insert_eq| |]. }
    rewrite lookup_delete_ne.
    + apply (q_init _ _ _ HQ); [done|]. intros g2 l2 H2 E2 Hin. destruct (decide (g2 = g)) as [->|].
      * simplify_eq. apply (Hin' b); [apply Hsub; by right|done..].
      * apply (Hoff' g2 l2); [by rewrite lookup_insert_ne|done..].
    + intros E. destruct (link_of_ext _ _ _ _ E) as [-> E']. apply (Hin' b); [apply Hsub; by left|by rewrite E'|done].
Qed.

Lemma q_enqueue g a l :
  Q !! g = Some l -> off Q g a ->
  exists A', ring_append A g (link_of g a) = Some A' /\ qrep A' (<[g := l ++ [a]]> Q) I.
Proof.
  intros Hg Hoff. destruct (q_add g a l (l ++ [a]) Hg Hoff) as [Hne HR]; [by rewrite Permutation_app_comm|].
  unfold ring_append. rewrite (q_lookup _ _ Hg). simpl. rewrite bool_decide_true, (q_loose g a Hoff) by done.
  rewrite fmap_app in HR. by eexists.
Qed.

Lemma q_push g a l :
  Q !! g = Some l -> off Q g a ->
  exists A', ring_insert A g (link_of g a) = Some A' /\ qrep A' (<[g := a :: l]> Q) I.
Proof.
  intros Hg Hoff. destruct (q_add g a l (a :: l) Hg Hoff) as [Hne HR]; [done|]. unfold ring_insert.
  rewrite (q_lookup _ _ Hg). simpl. rewrite bool_decide_true, (q_loose g a Hoff) by done. by eexists.
Qed.

Lemma off_shrink g g0 l l' b :
  Q !! g = Some l -> (forall x, x ∈ l' -> x ∈ l) -> off Q g0 b -> off (<[g := l']> Q) g0 b.
Proof.
  intros Hg Hs Ho g' k. destruct (decide (g' = g)) as [->|].
  - rewrite lookup_insert_eq. intros [= <-] E Hin. by eapply Ho; eauto.
  - rewrite lookup_insert_ne by done. apply Ho.
Qed.

(** [a] leaves the queue [g], which keeps the others in order. *)
Lemma q_take g a l l' :
  Q !! g = Some l -> a ∈ l -> l' = filter (λ x, x ≠ a) l ->
  qrep (<[link_of g a := []]> (<[g := link_of g <$> l']> A)) (<[g := l']> Q) I.
Proof.
  intros Hg Ha ->. pose proof (q_dom _ _ _ HQ _ _ Hg) as Hgd.
  pose proof (fmap_filter_ne g a l) as Hf.
  split.
  - rewrite Hf. apply rings_wf_remove; [exact (q_wf _ _ _ HQ)|by apply q_lookup|by apply list_elem_of_fmap_2].
  - intros g' Hg'. rewrite lookup_insert_ne by (intros <-; by rewrite link_of_node in Hg').
    destruct (decide (g' = g)) as [->|]; [by rewrite !lookup_insert_eq|].
    rewrite !lookup_insert_ne by done. by apply (q_guard _ _ _ HQ).
  - intros g' l'. destruct (decide (g' = g)) as [->|]; [done|].
    rewrite lookup_insert_ne by done. by apply (q_dom _ _ _ HQ).
  - intros e He. destruct (decide (e = link_of g a)) as [->|]; [right; apply lookup_insert_eq|].
    rewrite lookup_insert_ne by done. rewrite lookup_insert_ne by (intros ->; congruence). by apply (q_node _ _ _ HQ).
  - intros g' b Hb Hoff. destruct (decide (link_of g' b = link_of g a)) as [->|Hne];
      [apply lookup_insert_eq|].
    rewrite lookup_insert_ne by done. rewrite lookup_insert_ne by (intros ->; by rewrite link_of_node in Hgd).
    apply (q_init _ _ _ HQ); [done|]. intros g2 l2 H2 E2 Hin.
    destruct (decide (g2 = g)) as [->|].
    + simplify_eq. apply (Hoff g (filter (λ x, x ≠ a) l)); [apply lookup_insert_eq|done|].
      apply list_elem_of_filter. split; [|done]. intros ->. by rewrite E2 in Hne.
    + apply (Hoff g2 l2); [by rewrite lookup_insert_ne|done..].
Qed.

Lemma q_remove g a l :
  Q !! g = Some l -> a ∈ l ->
  exists A', ring_remove A (link_of g a) = Some A' /\ qrep A' (<[g := filter (λ x, x ≠ a) l]> Q) I.
Proof.
  intros Hg Ha. unfold ring_remove.
  rewrite (owner_Some A _ g (link_of g <$> l)); [|exact (q_wf _ _ _ HQ)|by apply q_lookup|by apply list_elem_of_fmap_2].
  rewrite (q_lookup _ _ Hg). simpl. eexists. split; [done|].
  rewrite <- fmap_filter_ne. by eapply q_take.
Qed.

Lemma q_remove_off g a : link_of g a ∈ I -> off Q g a -> ring_remove A (link_of g a) = Some A.
Proof.
  intros Ha Hoff. unfold ring_remove. destruct (owner A (link_of g a)) as [g'|] eqn:E.
  - exfalso. pose proof (q_loose g a Hoff) as [Hn _]%loose_spec.
    apply owner_inv in E as (l & Hl & Hin). by eapply Hn.
  - by rewrite (q_init _ _ _ HQ).
Qed.

Lemma q_pick g l :
  Q !! g = Some l ->
  match l with
  | [] => ring_pick A g = Some (None, A)
  | a :: l' => exists A', ring_pick A g = Some (Some (link_of g a), A') /\ qrep A' (<[g := l']> Q) I
  end.
Proof.
  intros Hg. pose proof (q_nodup _ _ Hg) as Hnd. unfold ring_pick. rewrite (q_lookup _ _ Hg). simpl.
  destruct l as [|a l]; [done|]. simpl. eexists. split; [done|].
  apply (q_take g a (a :: l)); [done|by left|]. by rewrite filter_ne_head.
Qed.

Lemma q_initialize g :
  is_guard g = true -> (Q !! g = None \/ Q !! g = Some []) ->
  exists A', ring_initialize A g = Some A' /\ qrep A' (<[g := []]> Q) I.
Proof.
  intros Hg Hl. pose proof (q_loose_guard g Hg Hl) as Hloose.
  unfold ring_initialize. rewrite Hloose. eexists. split; [done|]. split.
  - apply rings_wf_initialize; [exact (q_wf _ _ _ HQ)|done].
  - intros g' Hg'. destruct (decide (g' = g)) as [->|]; [by rewrite !lookup_insert_eq|].
    rewrite !lookup_insert_ne by done. by apply (q_guard _ _ _ HQ).
  - intros g' l'. destruct (decide (g' = g)) as [->|]; [done|].
    rewrite lookup_insert_ne by done. by apply (q_dom _ _ _ HQ).
  - intros e He. rewrite lookup_insert_ne by (intros ->; congruence). by apply (q_node _ _ _ HQ).
  - intros g' b Hb Hoff. rewrite lookup_insert_ne by (intros ->; by rewrite link_of_node in Hg).
    apply (q_init _ _ _ HQ); [done|]. intros g2 l2 H2 E2 Hin.
    apply (Hoff g2 l2); [|done..]. rewrite lookup_insert_ne; [done|]. intros ->.
    destruct Hl as [Hl|Hl]; simplify_eq. by apply elem_of_nil in Hin.
Qed.

(** *** The links of a record under construction *)

Lemma q_clear_link g a :
  off Q g a ->
  exists A', ring_clear A (link_of g a) = Some A' /\ qrep A' Q (I ∖ {[link_of g a]}).
Proof.
  intros Hoff. unfold ring_clear. rewrite (q_loose g a Hoff). eexists. split; [done|].
  pose proof (q_wf _ _ _ HQ) as [Hnd Hdis]. split.
  - split; intros *; rewrite ?lookup_delete_Some; naive_solver.
  - intros g' Hg'. rewrite lookup_delete_ne by (intros <-; by rewrite link_of_node in Hg').
    by apply (q_guard _ _ _ HQ).
  - apply (q_dom _ _ _ HQ).
  - intros e He. destruct (decide (e = link_of g a)) as [->|]; [left; apply lookup_delete_eq|].
    rewrite lookup_delete_ne by done. by apply (q_node _ _ _ HQ).
  - intros g' b Hb Hoff'. rewrite lookup_delete_ne by set_solver. apply (q_init _ _ _ HQ); set_solver.
Qed.

Lemma q_clear_guard g :
  is_guard g = true -> (Q !! g = None \/ Q !! g = Some []) ->
  exists A', ring_clear A g = Some A' /\ qrep A' (delete g Q) I.
Proof.
  intros Hg Hl. unfold ring_clear. rewrite (q_loose_guard g Hg Hl). eexists. split; [done|].
  pose proof (q_wf _ _ _ HQ) as [Hnd Hdis]. split.
  - split; intros *; rewrite ?lookup_delete_Some; naive_solver.
  - intros g' Hg'. destruct (decide (g' = g)) as [->|]; [by rewrite !lookup_delete_eq|].
    rewrite !lookup_delete_ne by done. by apply (q_guard _ _ _ HQ).
  - intros g' l' [_ ?]%lookup_delete_Some. by eapply (q_dom _ _ _ HQ).
  - intros e He. rewrite lookup_delete_ne by (intros ->; congruence). by apply (q_node _ _ _ HQ).
  - intros g' b Hb Hoff. rewrite lookup_delete_ne by (intros ->; by rewrite link_of_node in Hg).
    apply (q_init _ _ _ HQ); [done|]. intros g2 l2 H2 E2 Hin.
    apply (Hoff g2 l2); [|done..]. rewrite lookup_delete_ne; [done|]. intros ->.
    destruct Hl as [Hl|Hl]; simplify_eq. by apply elem_of_nil in Hin.
Qed.

Lemma q_initialize_link g a :
  off Q g a ->
  exists A', ring_initialize A (link_of g a) = Some A' /\ qrep A' Q ({[link_of g a]} ∪ I).
Proof.
  intros Hoff. pose proof (q_loose g a Hoff) as Hl. unfold ring_initialize. rewrite Hl.
  eexists. split; [done|]. split.
  - apply rings_wf_initialize; [exact (q_wf _ _ _ HQ)|done].
  - intros g' Hg'. rewrite lookup_insert_ne by (intros <-; by rewrite link_of_node in Hg').
    by apply (q_guard _ _ _ HQ).
  - apply (q_dom _ _ _ HQ).
  - intros e He. destruct (decide (e = link_of g a)) as [->|]; [right; apply lookup_insert_eq|].
    rewrite lookup_insert_ne by done. by apply (q_node _ _ _ HQ).
  - intros g' b Hb Hoff'. destruct (decide (link_of g' b = link_of g a)) as [->|];
      [apply lookup_insert_eq|].
    rewrite lookup_insert_ne by done. apply (q_init _ _ _ HQ); set_solver.
Qed.

(** A node no queue uses. *)
Lemma q_other_loose e : is_guard e = false -> (forall g a, link_of g a ≠ e) -> loose A e = true.
Proof.
  intros He Hno. apply loose_spec. split; [|by apply (q_node _ _ _ HQ)].
  intros g l Hg Hin. destruct (q_inv g l Hg) as (l' & _ & ->); [by intros ->; apply elem_of_nil in Hin|].
  apply list_elem_of_fmap in Hin as (b & Hb & _). by apply (Hno g b).
Qed.

Lemma q_clear_other e :
  is_guard e = false -> (forall g a, link_of g a ≠ e) -> exists A', ring_clear A e = Some A' /\ qrep A' Q I.
Proof.
  intros He Hno. unfold ring_clear. rewrite (q_other_loose e He Hno). eexists. split; [done|].
  pose proof (q_wf _ _ _ HQ) as [Hnd Hdis]. split.
  - split; intros *; rewrite ?lookup_delete_Some; naive_solver.
  - intros g' Hg'. rewrite lookup_delete_ne by (intros <-; congruence). by apply (q_guard _ _ _ HQ).
  - apply (q_dom _ _ _ HQ).
  - intros e' He'. destruct (decide (e' = e)) as [->|]; [left; apply lookup_delete_eq|].
    rewrite lookup_delete_ne by done. by apply (q_node _ _ _ HQ).
  - intros g' b Hb Hoff'. rewrite lookup_delete_ne by (intros E; by apply (Hno g' b)).
    by apply (q_init _ _ _ HQ).
Qed.

Lemma q_initialize_other e :
  is_guard e = false -> (forall g a, link_of g a ≠ e) -> exists A', ring_initialize A e = Some A' /\ qrep A' Q I.
Proof.
  intros He Hno. pose proof (q_other_loose e He Hno) as Hl. unfold ring_initialize. rewrite Hl.
  eexists. split; [done|]. split.
  - apply rings_wf_initialize; [exact (q_wf _ _ _ HQ)|done].
  - intros g' Hg'. rewrite lookup_insert_ne by (intros <-; congruence). by apply (q_guard _ _ _ HQ).
  - apply (q_dom _ _ _ HQ).
  - intros e' He'. destruct (decide (e' = e)) as [->|]; [right; apply lookup_insert_eq|].
    rewrite lookup_insert_ne by done. by apply (q_node _ _ _ HQ).
  - intros g' b Hb Hoff'. rewrite lookup_insert_ne by (intros E; by apply (Hno g' b)). by apply (q_init _ _ _ HQ).
Qed.

(** Memory is given back with whole queues: the guards of [f], and the links
    that only members of their queues use. *)
Lemma q_drop f :
  (forall g l a, Q !! g = Some l -> a ∈ l -> f (link_of g a) = f g) ->
  exists A', ring_drop A f = Some A' /\ qrep A' (filter (λ x, f x.1 = false) Q) (filter (λ e, f e = false) I).
Proof.
  intros Hf. assert (HF : map_Forall (λ g l, Forall (λ e, f e = f g) l) A).
  { intros g l Hg. apply Forall_forall. intros e He. destruct (q_inv g l Hg) as (l' & HQ' & ->).
    { intros ->. by apply elem_of_nil in He. }
    apply list_elem_of_fmap in He as (a & -> & Ha). by eapply Hf. }
  unfold ring_drop. rewrite bool_decide_true by done. eexists. split; [done|].
  pose proof (q_wf _ _ _ HQ) as [Hnd Hdis].
  assert (Hl : forall g, f g = false -> filter (λ x : loc * list loc, f x.1 = false) A !! g = A !! g).
  { intros g Hg. destruct (A !! g) as [l|] eqn:E.
    - by apply map_lookup_filter_Some_2.
    - apply map_lookup_filter_None_2. by left. }
  assert (Hn : forall g, f g = true -> filter (λ x : loc * list loc, f x.1 = false) A !! g = None).
  { intros g Hg. apply map_lookup_filter_None_2. right. intros l _. simpl. congruence. }
  assert (HlQ : forall g l, filter (λ x : loc * list Z, f x.1 = false) Q !! g = Some l <-> Q !! g = Some l /\ f g = false).
  { intros. apply map_lookup_filter_Some. }
  split.
  - split; intros *; rewrite ?map_lookup_filter_Some; naive_solver.
  - intros g Hg. destruct (f g) eqn:E.
    + rewrite Hn by done. destruct (filter _ Q !! g) eqn:E2; [|done]. apply HlQ in E2 as []. congruence.
    + rewrite Hl by done. rewrite (q_guard _ _ _ HQ) by done.
      destruct (Q !! g) as [l|] eqn:E2; [by rewrite (proj2 (HlQ g l))|].
      destruct (filter _ Q !! g) eqn:E3; [|done]. apply HlQ in E3 as []. congruence.
  - intros g l [? _]%HlQ. by eapply (q_dom _ _ _ HQ).
  - intros e He. destruct (f e) eqn:E; [left; by apply Hn|]. rewrite Hl by done. by apply (q_node _ _ _ HQ).
  - intros g a [Ha HI]%elem_of_filter Hoff. rewrite Hl by done. apply (q_init _ _ _ HQ); [done|].
    intros g' l HQ' E Hin. apply (Hoff g' l); [|done..]. apply HlQ. split; [done|].
    rewrite <- (Hf g' l a) by done. by rewrite E.
Qed.

End Queues.

End Queueing.
