(* ===== verification/Slab.v ===== *)
(** * Slabs (lib/libnc/set/slab.c, slab_destroy.c, include/set/slab.h)

    A slab cuts pages into units of one size.  The blocks with a free unit are
    on [empties], all blocks on [blocks], and the free units of a block on its
    [entries]; a unit finds its block by masking its address.  The pages come
    from the functions the slab was given, an interface of their own. *)

From S2P Require Import Prelude Lists Queues.

(** ** The page functions *)

(** [palloc] returns 0 for [NULL]. *)
Class PageSource (G : Type) := {
  ps_alloc : G -> option (Z * G);
  ps_free : G -> Z -> option G;
}.

(** Pages of [bs] bytes, aligned, below the end of the address space. *)
Class PageSourceLaws (bs : Z) (G : Type) `{!PageSource G} := {
  ps_ok : G -> Prop;
  ps_live : G -> gset Z;
  ps_alloc_law g : ps_ok g ->
    exists p g', ps_alloc g = Some (p, g') /\ ps_ok g' /\
      (p = 0 /\ ps_live g' = ps_live g \/
       p ∉ ps_live g /\ p mod bs = 0 /\ 0 < p /\ p + bs < 2 ^ 32 /\ ps_live g' = {[p]} ∪ ps_live g);
  ps_free_law g p : ps_ok g -> p ∈ ps_live g ->
    exists g', ps_free g p = Some g' /\ ps_ok g' /\ ps_live g' = ps_live g ∖ {[p]};
}.

Arguments ps_ok bs {G _ _}.
Arguments ps_live bs {G _ _}.

(** ** Slabs *)

Definition SLAB_OK : Z := 0.
Definition SLAB_ERROR : Z := -1.
Definition sizeof_slab_block_t : Z := 32.
Definition sizeof_slab_entry_t : Z := 8.

(** The [list_t] objects: those of the slab, of the block at [b], of the unit
    at [p]. *)
Inductive sloc :=
  | SEmpties | SBlocks | BEmpties (b : Z) | BBlocks (b : Z) | BEntries (b : Z) | EEntry (p : Z).

#[export] Instance sloc_eq_dec : EqDecision sloc.
Proof. solve_decision. Defined.

#[export] Instance sloc_countable : Countable sloc.
Proof.
  apply (inj_countable'
    (λ l, match l with
          | SEmpties => (0, 0) | SBlocks => (1, 0) | BEmpties b => (2, b) | BBlocks b => (3, b)
          | BEntries b => (4, b) | EEntry p => (5, p)
          end)
    (λ c, match c with
          | (0, _) => SEmpties | (1, _) => SBlocks | (2, b) => BEmpties b | (3, b) => BBlocks b
          | (4, b) => BEntries b | (_, p) => EEntry p
          end)).
  by intros [].
Defined.

#[export] Instance slab_queueing : Queueing sloc := {
  is_guard g := match g with SEmpties | SBlocks | BEntries _ => true | _ => false end;
  link_of g := match g with SEmpties => BEmpties | SBlocks => BBlocks | _ => EEntry end;
}.

#[export] Instance slab_queueing_laws : QueueingLaws sloc.
Proof. split; [by intros []|]. intros g g' a b. destruct g, g'; naive_solver. Qed.

(** [links] holds the lists and [entry_num] that field of each block. *)
Record slab_t (H : Type) := Slab {
  unit_size : Z;
  block_size : Z;
  min_block : Z;
  max_block : Z;
  entries_per_block : Z;
  mask : Z;
  offset : Z;
  empty_num : Z;
  block_num : Z;
  links : H;
  entry_num : gmap Z Z;
}.

Arguments Slab {H}.
Arguments unit_size {H}.
Arguments block_size {H}.
Arguments min_block {H}.
Arguments max_block {H}.
Arguments entries_per_block {H}.
Arguments mask {H}.
Arguments offset {H}.
Arguments empty_num {H}.
Arguments block_num {H}.
Arguments links {H}.
Arguments entry_num {H}.

(** The fields that change. *)
Definition with_lists {H H'} (en bn : Z) (h : H') (num : gmap Z Z) (s : slab_t H) : slab_t H' :=
  Slab (unit_size s) (block_size s) (min_block s) (max_block s) (entries_per_block s) (mask s) (offset s)
    en bn h num.

Definition slab_max_block (max_unit page_size unit : Z) : Z :=
  let m := max_unit / ((page_size - sizeof_slab_block_t) / unit) in
  if m =? 0 then 1 else m.

Section Slab.
Context {H : Type} `{!ListOps sloc H} {G : Type} `{!PageSource G}.
Implicit Types s : slab_t H.
Implicit Types g : G.

(** The loop that puts the units of a block on its list. *)
Fixpoint add_entries (n : nat) (block entry unit : Z) (h : H) : option H :=
  match n with
  | O => Some h
  | S n =>
      h ← list_enqueue h (BEntries block) (EEntry entry);
      add_entries n block (u32 (entry + unit)) unit h
  end.

Definition slab_add_block s g : option (Z * slab_t H * G) :=
  if max_block s <=? block_num s then Some (0, s, g)
  else
    '(block, g) ← ps_alloc g;
    if block =? 0 then Some (0, s, g)
    else
      h ← list_enqueue (links s) SEmpties (BEmpties block);
      h ← list_enqueue h SBlocks (BBlocks block);
      h ← op_initialize h (BEntries block);
      let entry := u32 (block + sizeof_slab_block_t + offset s) in
      h ← add_entries (Z.to_nat (entries_per_block s)) block entry (unit_size s) h;
      Some (block, with_lists (u32 (empty_num s + 1)) (u32 (block_num s + 1)) h
                     (<[block := entries_per_block s]> (entry_num s)) s, g).

Fixpoint create_loop (n : nat) s g : option (slab_t H * G) :=
  match n with
  | O => Some (s, g)
  | S n =>
      '(b, s, g) ← slab_add_block s g;
      if b =? 0 then Some (s, g) else create_loop n s g
  end.

(** The page functions are given, so that the test for [NULL] is omitted. *)
Definition slab_create s g : option (Z * slab_t H * G) :=
  if (block_size s =? 0) || (unit_size s <? sizeof_slab_entry_t)
     || (block_size s <? u32 (unit_size s + sizeof_slab_block_t)) || (max_block s =? 0)
  then Some (SLAB_ERROR, s, g)
  else
    let s := Slab (unit_size s) (block_size s) (min_block s) (max_block s)
               (u32 (block_size s - sizeof_slab_block_t) / unit_size s)
               (u32 (Z.lnot (u32 (block_size s - 1)))) 0 (empty_num s) (block_num s) (links s) (entry_num s) in
    h ← op_initialize (links s) SEmpties;
    h ← op_initialize h SBlocks;
    '(s, g) ← create_loop (Z.to_nat (min_block s)) (with_lists 0 0 h (entry_num s) s) g;
    Some (SLAB_OK, s, g).

(** The conversion of the head of [empties] to its block. *)
Definition block_of (l : sloc) : option Z := match l with BEmpties b => Some b | _ => None end.

(** The unit taken from the block's list; 0 is [NULL]. *)
Definition unit_of (o : option sloc) : option Z :=
  match o with None => Some 0 | Some (EEntry p) => Some p | Some _ => None end.

Definition take_entry s (block : Z) : option (Z * slab_t H) :=
  n ← entry_num s !! block;
  let n := u32 (n - 1) in
  h ← (if n =? 0 then op_remove (links s) (BEmpties block) else Some (links s));
  let en := if n =? 0 then u32 (empty_num s - 1) else empty_num s in
  '(o, h) ← list_pop h (BEntries block);
  p ← unit_of o;
  Some (p, with_lists en (block_num s) h (<[block := n]> (entry_num s)) s).

Definition slab_alloc s g : option (Z * slab_t H * G) :=
  o ← op_head (links s) SEmpties;
  match o with
  | Some l =>
      block ← block_of l;
      '(p, s) ← take_entry s block;
      Some (p, s, g)
  | None =>
      '(b, s, g) ← slab_add_block s g;
      if b =? 0 then Some (0, s, g)
      else
        o ← op_head (links s) SEmpties;
        l ← o;
        block ← block_of l;
        '(p, s) ← take_entry s block;
        Some (p, s, g)
  end.

(** The links inside of a block. *)
Definition inside (m b : Z) (l : sloc) : bool :=
  match l with
  | BEmpties b' | BBlocks b' | BEntries b' => b' =? b
  | EEntry p => Z.land p m =? b
  | SEmpties | SBlocks => false
  end.

(** The page that goes back takes its links with it. *)
Definition slab_free s g (p : Z) : option (slab_t H * G) :=
  let block := Z.land p (mask s) in
  n ← entry_num s !! block;
  h ← (if n =? 0 then list_enqueue (links s) SEmpties (BEmpties block) else Some (links s));
  let en := if n =? 0 then u32 (empty_num s + 1) else empty_num s in
  let n := u32 (n + 1) in
  if (n =? entries_per_block s) && (1 <? en) && (min_block s <? block_num s) then
    h ← op_remove h (BEmpties block);
    h ← op_remove h (BBlocks block);
    g ← ps_free g block;
    h ← op_drop h (inside (mask s) block);
    Some (with_lists (u32 (en - 1)) (u32 (block_num s - 1)) h (delete block (entry_num s)) s, g)
  else
    h ← list_push h (BEntries block) (EEntry p);
    Some (with_lists en (block_num s) h (<[block := n]> (entry_num s)) s, g).

(** The loop of [slab_destroy]; it ends when [blocks] is empty. *)
Fixpoint destroy_loop (n : nat) (h : H) g : option (H * G) :=
  '(o, h) ← list_dequeue h SBlocks;
  match o with
  | None => Some (h, g)
  | Some (BBlocks b) =>
      g ← ps_free g b;
      match n with O => None | S n => destroy_loop n h g end
  | Some _ => None
  end.

Definition slab_destroy s g : option (slab_t H * G) :=
  '(h, g) ← destroy_loop (Z.to_nat (block_num s)) (links s) g;
  Some (with_lists (empty_num s) (block_num s) h (entry_num s) s, g).

End Slab.

(** ** Invariant *)

Notation srings := (gmap sloc (list sloc)).
Notation squeues := (gmap sloc (list Z)).

(** The units of the block at [b]. *)
Definition slots {H} (s : slab_t H) (b : Z) : list Z :=
  (λ i, b + sizeof_slab_block_t + i * unit_size s) <$> seqZ 0 (entries_per_block s).

(** What [slab_create] has computed from the parameters. *)
Record params_ok {H} (s : slab_t H) : Prop := {
  pm_size : exists n, 0 <= n < 32 /\ block_size s = 2 ^ n;
  pm_unit : sizeof_slab_entry_t <= unit_size s;
  pm_per : 0 < entries_per_block s;
  pm_fits : sizeof_slab_block_t + entries_per_block s * unit_size s <= block_size s;
  pm_mask : mask s = u32 (- block_size s);
  pm_offset : offset s = 0;
  pm_max : 0 < max_block s < 2 ^ 32;
}.

Definition same_params {H H'} (s : slab_t H) (s' : slab_t H') : Prop :=
  unit_size s' = unit_size s /\ block_size s' = block_size s /\ min_block s' = min_block s /\
  max_block s' = max_block s /\ entries_per_block s' = entries_per_block s /\ mask s' = mask s /\
  offset s' = offset s.

Lemma same_params_trans {H1 H2 H3} (s1 : slab_t H1) (s2 : slab_t H2) (s3 : slab_t H3) :
  same_params s1 s2 -> same_params s2 s3 -> same_params s1 s3.
Proof.
  unfold same_params. intros (? & ? & ? & ? & ? & ? & ?) (? & ? & ? & ? & ? & ? & ?). split_and!; congruence.
Qed.

(** The queues [Q] of a slab: [es] are its blocks with a free unit, [bs] all
    its blocks, and [live] the units in use. *)
Record slab_at (s : slab_t srings) (Q : squeues) (es bs : list Z) (live : gset Z) : Prop := {
  sa_params : params_ok s;
  sa_links : qrep (links s) Q ∅;
  sa_es : Q !! SEmpties = Some es;
  sa_bs : Q !! SBlocks = Some bs;
  sa_block b : b ∈ bs -> b mod block_size s = 0 /\ 0 < b /\ b + block_size s < 2 ^ 32;
  sa_entries b l : Q !! BEntries b = Some l -> b ∈ bs /\ forall p, p ∈ l -> p ∈ slots s b;
  sa_units b : b ∈ bs -> exists l, Q !! BEntries b = Some l /\ entry_num s !! b = Some (Z.of_nat (length l)) /\
    (b ∈ es <-> l ≠ []);
  sa_sub b : b ∈ es -> b ∈ bs;
  sa_live p : p ∈ live <-> exists b l, Q !! BEntries b = Some l /\ p ∈ slots s b /\ p ∉ l;
  sa_en : empty_num s = Z.of_nat (length es);
  sa_bn : block_num s = Z.of_nat (length bs) /\ block_num s <= max_block s;
}.

(** [bs] are the blocks of a slab whose units in use are [live]. *)
Definition slab_ok (s : slab_t srings) (bs : list Z) (live : gset Z) : Prop :=
  exists Q es, slab_at s Q es bs live.

Lemma with_lists_params {H H'} en bn (h : H') num (s : slab_t H) : same_params s (with_lists en bn h num s).
Proof. done. Qed.

Lemma with_lists_ok {H H'} en bn (h : H') num (s : slab_t H) : params_ok s -> params_ok (with_lists en bn h num s).
Proof. by intros []. Qed.

Lemma slot_range {H} (s : slab_t H) b p :
  params_ok s -> p ∈ slots s b -> b + sizeof_slab_block_t <= p /\ p + sizeof_slab_entry_t <= b + block_size s.
Proof.
  intros [] Hp. apply list_elem_of_fmap in Hp as (i & -> & Hi). apply elem_of_seqZ in Hi.
  unfold sizeof_slab_entry_t, sizeof_slab_block_t in *. nia.
Qed.

Lemma slots_nodup {H} (s : slab_t H) b : params_ok s -> NoDup (slots s b).
Proof.
  intros []. apply NoDup_fmap_2_strong; [|apply NoDup_seqZ].
  intros i j _ _ E. unfold sizeof_slab_entry_t in *. nia.
Qed.

Lemma length_slots {H} (s : slab_t H) b : params_ok s -> Z.of_nat (length (slots s b)) = entries_per_block s.
Proof. intros []. unfold slots. rewrite length_fmap, length_seqZ. lia. Qed.

(** A unit finds its block by masking. *)
Lemma land_block bs b k :
  (exists n, 0 <= n < 32 /\ bs = 2 ^ n) -> b mod bs = 0 -> 0 <= b -> 0 <= k < bs -> b + k < 2 ^ 32 ->
  Z.land (b + k) (u32 (- bs)) = b.
Proof.
  intros (n & Hn & ->) Hb Hb0 Hk Hlt. pose proof (Z.pow_pos_nonneg 2 n ltac:(lia) ltac:(lia)).
  assert (Hm : u32 (- 2 ^ n) = Z.land (Z.ones 32) (Z.lnot (Z.ones n))).
  { rewrite Z.land_comm, Z.land_ones, Z.ones_equiv by lia. unfold u32, Z.lnot. f_equal. lia. }
  rewrite Hm, Z.land_assoc, Z.land_ones, Z.mod_small by lia.
  rewrite <- Z.ldiff_land. rewrite Z.ldiff_ones_r by lia. rewrite Z.shiftr_div_pow2, Z.shiftl_mul_pow2 by lia.
  apply Z.div_exact in Hb; [|lia]. replace (b + k) with (b / 2 ^ n * 2 ^ n + k) by lia.
  rewrite Z.div_add_l, (Z.div_small k) by lia. lia.
Qed.

Lemma slot_block {H} (s : slab_t H) b p :
  params_ok s -> b mod block_size s = 0 -> 0 < b -> b + block_size s < 2 ^ 32 -> p ∈ slots s b ->
  Z.land p (mask s) = b.
Proof.
  intros HP Hb Hb0 Hlt Hp. pose proof (slot_range s b p HP Hp) as Hr. destruct HP.
  unfold sizeof_slab_entry_t, sizeof_slab_block_t in *.
  rewrite pm_mask0. replace p with (b + (p - b)) by lia. apply land_block; [done|done|lia..].
Qed.

Section SlabAt.
Context (s : slab_t srings) (Q : squeues) (es bs : list Z) (live : gset Z) (HA : slab_at s Q es bs live).

Lemma at_land b p : b ∈ bs -> p ∈ slots s b -> Z.land p (mask s) = b.
Proof.
  intros Hb Hp. destruct (sa_block _ _ _ _ _ HA b Hb) as (? & ? & ?).
  by apply slot_block; [apply (sa_params _ _ _ _ _ HA)|..].
Qed.

(** Two blocks share no unit. *)
Lemma at_block_inj b b' p : b ∈ bs -> b' ∈ bs -> p ∈ slots s b -> p ∈ slots s b' -> b = b'.
Proof. intros Hb Hb' Hp Hp'. by rewrite <- (at_land b p), (at_land b' p). Qed.

Lemma at_live_block p : p ∈ live -> exists b l, b ∈ bs /\ Q !! BEntries b = Some l /\ p ∈ slots s b /\ p ∉ l /\
  Z.land p (mask s) = b.
Proof.
  intros (b & l & Hl & Hp & Hn)%(sa_live _ _ _ _ _ HA). destruct (sa_entries _ _ _ _ _ HA b l Hl) as [Hb _].
  exists b, l. split_and!; try done. by apply at_land.
Qed.

(** The guards of a slab. *)
Lemma off_block g b : (g = SEmpties /\ b ∉ es) \/ (g = SBlocks /\ b ∉ bs) -> off Q g b.
Proof.
  intros Hg g' l Hg' E. pose proof (sa_es _ _ _ _ _ HA). pose proof (sa_bs _ _ _ _ _ HA).
  destruct Hg as [[-> Hb]|[-> Hb]], g'; naive_solver.
Qed.

Lemma off_unit b p : b ∈ bs -> p ∈ slots s b ->
  (forall l, Q !! BEntries b = Some l -> p ∉ l) -> off Q (BEntries b) p.
Proof.
  intros Hb Hp Hn g' l Hg' E Hin. pose proof (q_dom _ _ _ (sa_links _ _ _ _ _ HA) _ _ Hg') as Hd.
  destruct g' as [| | | |b'|]; try done.
  destruct (sa_entries _ _ _ _ _ HA b' l Hg') as [Hb' Hs].
  assert (b' = b) as -> by (eapply at_block_inj; [done|done|by apply Hs|done]). by apply (Hn l).
Qed.

End SlabAt.

(** ** Operations *)

(** The loop over the units of a block. *)
Lemma add_entries_spec n b unit (h : srings) (Q : squeues) l entry :
  qrep h Q ∅ -> Q !! BEntries b = Some l -> 0 <= entry -> 0 < unit -> entry + Z.of_nat n * unit < 2 ^ 32 ->
  (forall i, 0 <= i < Z.of_nat n -> off Q (BEntries b) (entry + i * unit)) ->
  exists h', add_entries n b entry unit h = Some h' /\
    qrep h' (<[BEntries b := l ++ ((λ i, entry + i * unit) <$> seqZ 0 (Z.of_nat n))]> Q) ∅.
Proof.
  revert h Q l entry. induction n as [|n IH]; intros h Q l entry HQ Hl He Hu Hlt Hoff; cbn [add_entries].
  { exists h. split; [done|]. cbn. by rewrite app_nil_r, insert_id. }
  destruct (q_enqueue _ _ _ HQ (BEntries b) entry l Hl) as (h1 & E1 & HQ1).
  { specialize (Hoff 0 ltac:(lia)). by replace (entry + 0 * unit) with entry in Hoff by lia. }
  change (list_enqueue h (BEntries b) (EEntry entry)) with (ring_append h (BEntries b) (link_of (BEntries b) entry)).
  rewrite E1. cbn [mbind option_bind]. rewrite u32_small by (unfold is_u32; lia).
  destruct (IH h1 (<[BEntries b := l ++ [entry]]> Q) (l ++ [entry]) (entry + unit) HQ1) as (h' & E' & HQ');
    [apply lookup_insert_eq|lia..| |].
  { intros i Hi g' k. destruct (decide (g' = BEntries b)) as [->|Hne].
    - rewrite lookup_insert_eq. intros [= <-] _ [Hin|Hin%list_elem_of_singleton]%elem_of_app; [|nia].
      specialize (Hoff (i + 1) ltac:(lia) (BEntries b) l Hl eq_refl).
      by replace (entry + (i + 1) * unit) with (entry + unit + i * unit) in Hoff by lia.
    - rewrite lookup_insert_ne by done. intros Hg' E. specialize (Hoff (i + 1) ltac:(lia)).
      replace (entry + (i + 1) * unit) with (entry + unit + i * unit) in Hoff by lia. by apply (Hoff g' k). }
  exists h'. split; [done|]. rewrite insert_insert_eq, <- app_assoc in HQ'.
  replace ((λ i, entry + i * unit) <$> seqZ 0 (Z.of_nat (S n)))
    with ([entry] ++ ((λ i, entry + unit + i * unit) <$> seqZ 0 (Z.of_nat n))); [done|].
  rewrite (seqZ_cons 0 (Z.of_nat (S n))) by lia. cbn [fmap list_fmap app]. f_equal; [lia|].
  replace (Z.pred (Z.of_nat (S n))) with (Z.of_nat n) by lia.
  rewrite <- (fmap_add_seqZ 1 0), <- list_fmap_compose. apply list_fmap_ext. intros i x _. unfold compose. lia.
Qed.

(** A new block, all of its units free. *)
Lemma grow_at (s : slab_t srings) (Q : squeues) es bs live b h :
  slab_at s Q es bs live -> b ∉ bs -> b mod block_size s = 0 -> 0 < b -> b + block_size s < 2 ^ 32 ->
  block_num s < max_block s ->
  let Q' := <[BEntries b := slots s b]> (<[SBlocks := bs ++ [b]]> (<[SEmpties := es ++ [b]]> Q)) in
  qrep h Q' ∅ ->
  slab_at (with_lists (u32 (empty_num s + 1)) (u32 (block_num s + 1)) h
             (<[b := entries_per_block s]> (entry_num s)) s) Q' (es ++ [b]) (bs ++ [b]) live.
Proof.
  intros HA Hnb Hal Hpos Hend Hroom Q' HQ4. pose proof (sa_params _ _ _ _ _ HA) as HP.
  pose proof (length_slots s b HP) as Hls. destruct (sa_bn _ _ _ _ _ HA) as [Ebn Hmax].
  pose proof (pm_per _ HP) as Hper. pose proof (pm_max _ HP) as Hmx. pose proof (sa_links _ _ _ _ _ HA) as HQ.
  assert (HnE : Q !! BEntries b = None).
  { destruct (Q !! BEntries b) as [l|] eqn:E; [|done]. by apply (sa_entries _ _ _ _ _ HA) in E as [? _]. }
  unfold Q' in *. split.
  - by apply with_lists_ok.
  - exact HQ4.
  - by rewrite !lookup_insert_ne, lookup_insert_eq by done.
  - by rewrite lookup_insert_ne, lookup_insert_eq by done.
  - intros b' [Hb'| ->%list_elem_of_singleton]%elem_of_app; [by apply (sa_block _ _ _ _ _ HA)|done].
  - intros b' l. destruct (decide (b' = b)) as [->|Hbb].
    + rewrite lookup_insert_eq. intros [= <-]. split; [set_solver|done].
    + rewrite !lookup_insert_ne by congruence. intros Hq. destruct (sa_entries _ _ _ _ _ HA b' l Hq). set_solver.
  - intros b' Hb'. destruct (decide (b' = b)) as [->|Hbb].
    + exists (slots s b). rewrite lookup_insert_eq. cbn. rewrite lookup_insert_eq. split_and!; [done|by rewrite Hls|].
      split; [|set_solver]. intros _ E. rewrite E in Hls. cbn in Hls. lia.
    + apply elem_of_app in Hb' as [Hb'| ?%list_elem_of_singleton]; [|done].
      destruct (sa_units _ _ _ _ _ HA b' Hb') as (l & H1 & H2 & H3). exists l.
      rewrite !lookup_insert_ne by congruence. cbn. rewrite lookup_insert_ne by congruence. split_and!; [done..|].
      rewrite <- H3. set_solver.
  - intros b' [Hb'| ->%list_elem_of_singleton]%elem_of_app; [|set_solver].
    apply (sa_sub _ _ _ _ _ HA) in Hb'. set_solver.
  - intros p. rewrite (sa_live _ _ _ _ _ HA). split.
    + intros (b' & l & Hl' & Hp & Hn). exists b', l. rewrite !lookup_insert_ne by congruence. done.
    + intros (b' & l & Hl' & Hp & Hn). destruct (decide (b' = b)) as [->|Hbb].
      * rewrite lookup_insert_eq in Hl'. by simplify_eq.
      * rewrite !lookup_insert_ne in Hl' by congruence. by exists b', l.
  - cbn. rewrite (sa_en _ _ _ _ _ HA), length_app. cbn.
    assert (length es <= length bs)%nat.
    { apply submseteq_length, NoDup_submseteq; [by eapply q_nodup; [exact HQ|exact (sa_es _ _ _ _ _ HA)]|]. intros x. by apply (sa_sub _ _ _ _ _ HA). }
    rewrite u32_small by (unfold is_u32; lia). lia.
  - cbn. rewrite length_app. cbn. rewrite u32_small by (unfold is_u32; lia). lia.
Qed.

(** The free units of one block change. *)
Lemma entries_at (s : slab_t srings) (Q : squeues) es bs live b l l' es' live' h en :
  slab_at s Q es bs live -> Q !! BEntries b = Some l ->
  (forall b', b' ≠ b -> b' ∈ es' <-> b' ∈ es) -> (b ∈ es' <-> l' ≠ []) -> (forall p, p ∈ l' -> p ∈ slots s b) ->
  (forall p, p ∈ live' <-> p ∈ slots s b /\ p ∉ l' \/ p ∈ live /\ p ∉ slots s b) ->
  en = Z.of_nat (length es') ->
  let Q' := <[BEntries b := l']> (<[SEmpties := es']> Q) in
  qrep h Q' ∅ ->
  slab_at (with_lists en (block_num s) h (<[b := Z.of_nat (length l')]> (entry_num s)) s) Q' es' bs live'.
Proof.
  intros HA Hl Hes' Hb Hs Hlive -> Q' HQ'. destruct (sa_entries _ _ _ _ _ HA b l Hl) as [Hbb Hsl].
  unfold Q' in *. split; cbn [links with_lists entry_num empty_num block_num max_block].
  - apply with_lists_ok, (sa_params _ _ _ _ _ HA).
  - done.
  - by rewrite lookup_insert_ne, lookup_insert_eq.
  - rewrite !lookup_insert_ne by done. apply (sa_bs _ _ _ _ _ HA).
  - apply (sa_block _ _ _ _ _ HA).
  - intros b' k. destruct (decide (b' = b)) as [->|Hne].
    + rewrite lookup_insert_eq. by intros [= <-].
    + rewrite !lookup_insert_ne by congruence. apply (sa_entries _ _ _ _ _ HA).
  - intros b' Hb'. destruct (decide (b' = b)) as [->|Hne].
    + exists l'. by rewrite !lookup_insert_eq.
    + destruct (sa_units _ _ _ _ _ HA b' Hb') as (k & H1 & H2 & H3). exists k.
      rewrite !lookup_insert_ne, Hes' by congruence. done.
  - intros b' Hb'. destruct (decide (b' = b)) as [->|Hne]; [done|].
    by apply (sa_sub _ _ _ _ _ HA), Hes'.
  - intros p. rewrite Hlive. split.
    + intros [[Hp Hn]|[Hp Hn]]; [exists b, l'; by rewrite lookup_insert_eq|].
      apply (sa_live _ _ _ _ _ HA) in Hp as (b' & k & Hk & Hp & Hnk). exists b', k.
      rewrite !lookup_insert_ne by congruence. done.
    + intros (b' & k & Hk & Hp & Hnk). destruct (decide (b' = b)) as [->|Hne].
      * left. rewrite lookup_insert_eq in Hk. by simplify_eq.
      * right. rewrite !lookup_insert_ne in Hk by congruence. split; [apply (sa_live _ _ _ _ _ HA); by exists b', k|].
        intros Hp'. apply Hne. by eapply (at_block_inj _ _ _ _ _ HA); [apply (sa_entries _ _ _ _ _ HA b' k Hk)|..].
  - done.
  - apply (sa_bn _ _ _ _ _ HA).
Qed.

(** What is live in the block itself. *)
Lemma live_block (s : slab_t srings) (Q : squeues) es bs live b l p :
  slab_at s Q es bs live -> Q !! BEntries b = Some l -> p ∈ slots s b -> p ∈ live <-> p ∉ l.
Proof.
  intros HA Hl Hp. rewrite (sa_live _ _ _ _ _ HA). split.
  - intros (b' & l' & Hl' & Hp' & Hn). assert (b' = b) as ->; [|congruence].
    by eapply (at_block_inj _ _ _ _ _ HA); [apply (sa_entries _ _ _ _ _ HA b' l' Hl')|apply (sa_entries _ _ _ _ _ HA b l Hl)|..].
  - intros Hn. by exists b, l.
Qed.

Lemma slab_counts (s : slab_t srings) (Q : squeues) es bs live b l :
  slab_at s Q es bs live -> Q !! BEntries b = Some l ->
  Z.of_nat (length l) <= entries_per_block s /\ entries_per_block s < 2 ^ 32 /\ (length es <= length bs)%nat /\
  Z.of_nat (length bs) < 2 ^ 32.
Proof.
  intros HA Hl. pose proof (sa_params _ _ _ _ _ HA) as HP. pose proof (sa_links _ _ _ _ _ HA) as HQ.
  destruct (sa_entries _ _ _ _ _ HA b l Hl) as [Hb Hs]. destruct (sa_block _ _ _ _ _ HA b Hb) as (_ & ? & ?).
  pose proof (pm_fits _ HP). pose proof (pm_unit _ HP). pose proof (pm_per _ HP). pose proof (pm_max _ HP).
  destruct (sa_bn _ _ _ _ _ HA). unfold sizeof_slab_block_t, sizeof_slab_entry_t in *. split_and!; [|nia| |lia].
  - rewrite <- (length_slots s b HP). apply Nat2Z.inj_le, submseteq_length, NoDup_submseteq; [by eapply q_nodup|done].
  - apply submseteq_length, NoDup_submseteq; [eapply (q_nodup _ _ _ HQ), (sa_es _ _ _ _ _ HA)|].
    intros x. apply (sa_sub _ _ _ _ _ HA).
Qed.

Lemma take_spec (s : slab_t srings) (Q : squeues) es bs live b :
  slab_at s Q (b :: es) bs live ->
  exists p s' Q' es', take_entry s b = Some (p, s') /\ same_params s s' /\ p ≠ 0 /\ p ∉ live /\
    slab_at s' Q' es' bs ({[p]} ∪ live).
Proof.
  intros HA. pose proof (sa_links _ _ _ _ _ HA) as HQ. pose proof (sa_es _ _ _ _ _ HA) as Hes.
  pose proof (q_nodup _ _ _ HQ _ _ Hes) as [Hnd Hnd']%NoDup_cons.
  assert (Hb : b ∈ bs) by (apply (sa_sub _ _ _ _ _ HA); by left).
  destruct (sa_units _ _ _ _ _ HA b Hb) as (l & Hl & Hnum & Hiff).
  destruct l as [|p l]; [exfalso; by apply Hiff; [left|]|]. destruct (sa_entries _ _ _ _ _ HA b _ Hl) as [_ Hs].
  pose proof (q_nodup _ _ _ HQ _ _ Hl) as [Hpl Hndl]%NoDup_cons.
  destruct (slab_counts _ _ _ _ _ _ _ HA Hl) as (Hc1 & Hc2 & Hc3 & Hc4). cbn [length] in *.
  pose proof (Hs p ltac:(by left)) as Hp. pose proof (slot_range s b p (sa_params _ _ _ _ _ HA) Hp) as Hpr.
  destruct (sa_block _ _ _ _ _ HA b Hb) as (_ & Hb0 & _). unfold sizeof_slab_block_t in Hpr.
  unfold take_entry. rewrite Hnum. cbn [mbind option_bind].
  replace (u32 (Z.of_nat (S (length l)) - 1)) with (Z.of_nat (length l)) by (rewrite u32_small; unfold is_u32; lia).
  set (es' := match l with [] => es | _ => b :: es end).
  assert (Hrem : exists h1, (if Z.of_nat (length l) =? 0 then op_remove (links s) (BEmpties b) else Some (links s)) = Some h1 /\
    qrep h1 (<[SEmpties := es']> Q) ∅).
  { destruct l as [|q l]; cbn [length].
    - destruct (q_remove _ _ _ HQ SEmpties b (b :: es) Hes) as (h1 & E1 & HQ1); [by left|].
      exists h1. split; [exact E1|]. by rewrite filter_ne_head in HQ1 by (by apply NoDup_cons).
    - exists (links s). rewrite (proj2 (Z.eqb_neq _ 0)) by lia. split; [done|]. unfold es'. by rewrite insert_id. }
  destruct Hrem as (h1 & -> & HQ1). cbn [mbind option_bind].
  pose proof (q_pick _ _ _ HQ1 (BEntries b) (p :: l)) as Hpick. rewrite lookup_insert_ne in Hpick by done.
  destruct (Hpick Hl) as (h2 & E2 & HQ2).
  change (list_pop h1 (BEntries b)) with (ring_pick h1 (BEntries b)). rewrite E2. cbn [mbind option_bind unit_of link_of slab_queueing].
  eexists p, _, _, es'. split; [done|]. split; [done|]. split; [lia|].
  split; [rewrite (live_block _ _ _ _ _ _ _ _ HA Hl Hp); by intros ?; destruct H; left|].
  eapply (entries_at _ _ _ _ _ _ (p :: l) l es'); [exact HA|exact Hl| | | | | |exact HQ2].
  - intros b' Hb'. unfold es'. destruct l; [|done]. set_solver.
  - unfold es'. destruct l; [|split; [done|by left]]. split; [done|]. by intros [].
  - intros q Hq. apply Hs. by right.
  - intros q. rewrite elem_of_union, elem_of_singleton. destruct (decide (q ∈ slots s b)) as [Hq|Hq].
    + rewrite (live_block _ _ _ _ _ _ _ _ HA Hl Hq), elem_of_cons. destruct (decide (q = p)) as [->|]; tauto.
    + split; [intros [->|]; [done|]; by right|tauto].
  - rewrite (sa_en _ _ _ _ _ HA). unfold es'. destruct l; cbn [length].
    + rewrite Z.eqb_refl, u32_small by (unfold is_u32; cbn in *; lia). lia.
    + by rewrite (proj2 (Z.eqb_neq _ 0)) by lia.
Qed.

(** One unit short of full. *)
Lemma full_block {H} (s : slab_t H) b p l :
  params_ok s -> NoDup l -> p ∉ l -> p ∈ slots s b -> (forall q, q ∈ l -> q ∈ slots s b) ->
  Z.of_nat (length l) + 1 = entries_per_block s -> slots s b ≡ₚ p :: l.
Proof.
  intros HP Hnd Hnp Hp Hs Hlen. symmetry. apply submseteq_length_Permutation.
  - apply NoDup_submseteq; [by apply NoDup_cons|]. intros x [->|Hx]%elem_of_cons; auto.
  - pose proof (length_slots s b HP). cbn [length]. lia.
Qed.

(** A block without live units goes away with its links. *)
Lemma shrink_at (s : slab_t srings) (Q : squeues) es bs live b l es' live' h en bn :
  slab_at s Q es bs live -> Q !! BEntries b = Some l ->
  es' = filter (λ x, x ≠ b) es -> en = Z.of_nat (length es') ->
  (forall p, p ∈ live' <-> p ∈ live /\ p ∉ slots s b) ->
  let bs' := filter (λ x, x ≠ b) bs in
  let Q' := filter (λ x, inside (mask s) b x.1 = false) (<[SBlocks := bs']> (<[SEmpties := es']> Q)) in
  qrep h Q' ∅ -> bn = Z.of_nat (length bs') ->
  slab_at (with_lists en bn h (delete b (entry_num s)) s) Q' es' bs' live'.
Proof.
  intros HA Hl -> -> Hlive bs' Q' HQ' ->. pose proof (sa_params _ _ _ _ _ HA) as HP.
  assert (HQ1 : Q' !! SEmpties = Some (filter (λ x, x ≠ b) es)).
  { apply map_lookup_filter_Some_2; [|done]. by rewrite lookup_insert_ne, lookup_insert_eq. }
  assert (HQ2 : Q' !! SBlocks = Some bs') by (apply map_lookup_filter_Some_2; [by rewrite lookup_insert_eq|done]).
  assert (HQ3 : forall b' k, Q' !! BEntries b' = Some k <-> Q !! BEntries b' = Some k /\ b' ≠ b).
  { intros b' k. unfold Q'. rewrite map_lookup_filter_Some, !lookup_insert_ne by done. cbn. by rewrite Z.eqb_neq. }
  split; cbn [links with_lists entry_num empty_num block_num max_block].
  - by apply with_lists_ok.
  - done.
  - done.
  - done.
  - intros b' [_ Hb']%list_elem_of_filter. by apply (sa_block _ _ _ _ _ HA).
  - intros b' k [Hk Hne]%HQ3. destruct (sa_entries _ _ _ _ _ HA b' k Hk) as [Hb' Hs].
    split; [|done]. by apply list_elem_of_filter.
  - intros b' [Hne Hb']%list_elem_of_filter. destruct (sa_units _ _ _ _ _ HA b' Hb') as (k & H1 & H2 & H3).
    exists k. rewrite lookup_delete_ne by done. split_and!; [by apply HQ3|done|].
    rewrite list_elem_of_filter, <- H3. tauto.
  - intros b' [Hne Hb']%list_elem_of_filter. apply list_elem_of_filter. split; [done|]. by apply (sa_sub _ _ _ _ _ HA).
  - intros p. rewrite Hlive. split.
    + intros [(b' & k & Hk & Hp & Hn)%(sa_live _ _ _ _ _ HA) Hnb]. exists b', k. split_and!; [|done|done].
      apply HQ3. split; [done|]. by intros ->.
    + intros (b' & k & [Hk Hne]%HQ3 & Hp & Hn). split; [apply (sa_live _ _ _ _ _ HA); by exists b', k|].
      intros Hp'. apply Hne.
      by eapply (at_block_inj _ _ _ _ _ HA); [apply (sa_entries _ _ _ _ _ HA b' k Hk)|apply (sa_entries _ _ _ _ _ HA b l Hl)|..].
  - done.
  - split; [done|]. destruct (sa_bn _ _ _ _ _ HA) as [E ?]. pose proof (length_filter (λ x, x ≠ b) bs).
    change (Z.of_nat (length bs') <= max_block s). unfold bs'. lia.
Qed.

Section Alloc.
Context {G : Type} `{!PageSource G} (bsz : Z) `{!PageSourceLaws bsz G}.
Implicit Types s : slab_t srings.
Implicit Types g : G.

(** The pages of the other clients of the page source. *)
Definition others g (bs : list Z) : gset Z := ps_live bsz g ∖ list_to_set bs.

(** A slab and the pages it has taken. *)
Definition slab_in s g (bs : list Z) (live : gset Z) : Prop :=
  slab_ok s bs live /\ ps_ok bsz g /\ list_to_set bs ⊆ ps_live bsz g /\ block_size s = bsz.

Lemma add_block_spec s g Q es bs live :
  slab_at s Q es bs live -> ps_ok bsz g -> list_to_set bs ⊆ ps_live bsz g -> block_size s = bsz ->
  exists b s' g', slab_add_block s g = Some (b, s', g') /\ ps_ok bsz g' /\ same_params s s' /\
    (b = 0 /\ s' = s /\ ps_live bsz g' = ps_live bsz g \/
     b ≠ 0 /\ b ∉ ps_live bsz g /\ ps_live bsz g' = {[b]} ∪ ps_live bsz g /\
     exists Q', slab_at s' Q' (es ++ [b]) (bs ++ [b]) live).
Proof.
  intros HA Hg Hsub Hbz. pose proof (sa_params _ _ _ _ _ HA) as HP. unfold slab_add_block.
  destruct (sa_bn _ _ _ _ _ HA) as [Ebn Hmax]. pose proof (pm_max _ HP) as Hmx.
  destruct (Z.leb_spec (max_block s) (block_num s)) as [Hfull|Hroom].
  { exists 0, s, g. split_and!; try done. by left. }
  destruct (ps_alloc_law g Hg) as (b & g' & -> & Hg' & Hb). cbn [mbind option_bind].
  destruct Hb as [[-> Hl]|(Hnew & Hal & Hpos & Hend & Hl)].
  { exists 0, s, g'. split_and!; try done. by left. }
  rewrite (proj2 (Z.eqb_neq b 0)) by lia. rewrite <- Hbz in Hal, Hend.
  assert (Hnb : b ∉ bs) by (intros Hin; apply Hnew, Hsub; set_solver).
  assert (Hne : b ∉ es) by (intros Hin; by apply Hnb, (sa_sub _ _ _ _ _ HA)).
  pose proof (sa_links _ _ _ _ _ HA) as HQ. pose proof (sa_es _ _ _ _ _ HA) as Hes. pose proof (sa_bs _ _ _ _ _ HA) as Hbs.
  destruct (q_enqueue _ _ _ HQ SEmpties b es Hes) as (h1 & E1 & HQ1); [eapply off_block; [done|by left]|].
  change (list_enqueue (links s) SEmpties (BEmpties b)) with (ring_append (links s) SEmpties (link_of SEmpties b)).
  rewrite E1. cbn [mbind option_bind].
  destruct (q_enqueue _ _ _ HQ1 SBlocks b bs) as (h2 & E2 & HQ2).
  { by rewrite lookup_insert_ne. }
  { intros g2 l2. destruct (decide (g2 = SEmpties)) as [->|]; [done|]. rewrite lookup_insert_ne by done.
    intros H2 E. eapply (off_block _ _ _ _ _ HA SBlocks b); [by right|done|done]. }
  change (list_enqueue h1 SBlocks (BBlocks b)) with (ring_append h1 SBlocks (link_of SBlocks b)).
  rewrite E2. cbn [mbind option_bind].
  assert (HnE : Q !! BEntries b = None).
  { destruct (Q !! BEntries b) as [l|] eqn:E; [|done]. by apply (sa_entries _ _ _ _ _ HA) in E as [? _]. }
  destruct (q_initialize _ _ _ HQ2 (BEntries b) eq_refl) as (h3 & E3 & HQ3).
  { left. by rewrite !lookup_insert_ne. }
  change (op_initialize h2 (BEntries b)) with (ring_initialize h2 (BEntries b)). rewrite E3. cbn [mbind option_bind].
  pose proof (pm_fits _ HP) as Hfit. pose proof (pm_per _ HP) as Hper. pose proof (pm_unit _ HP) as Hunit.
  unfold sizeof_slab_block_t, sizeof_slab_entry_t in *.
  rewrite (pm_offset _ HP), Z.add_0_r, (u32_small (b + 32)) by (unfold is_u32; nia).
  assert (Hlist : (λ i, b + 32 + i * unit_size s) <$> seqZ 0 (Z.of_nat (Z.to_nat (entries_per_block s))) = slots s b).
  { unfold slots, sizeof_slab_block_t. by rewrite Z2Nat.id by lia. }
  set (Q3 := <[BEntries b := []]> (<[SBlocks := bs ++ [b]]> (<[SEmpties := es ++ [b]]> Q))) in HQ3.
  destruct (add_entries_spec (Z.to_nat (entries_per_block s)) b (unit_size s) h3 Q3 [] (b + 32) HQ3)
    as (h4 & E4 & HQ4); [apply lookup_insert_eq|lia|lia|nia| |].
  { intros i Hi g2 l2. unfold Q3. destruct (decide (g2 = BEntries b)) as [->|Hg2].
    { rewrite lookup_insert_eq. intros [= <-] _. by apply not_elem_of_nil. }
    rewrite lookup_insert_ne by done. intros H2 E Hin. pose proof (q_dom _ _ _ HQ2 _ _ H2) as Hgd.
    destruct g2 as [| | | |b'|]; try done.
    rewrite !lookup_insert_ne in H2 by done. destruct (sa_entries _ _ _ _ _ HA b' l2 H2) as [Hb' Hs].
      apply Hs in Hin. destruct (sa_block _ _ _ _ _ HA b' Hb') as (? & ? & ?).
      assert (Hi' : b + 32 + i * unit_size s ∈ slots s b).
      { rewrite <- Hlist. apply list_elem_of_fmap. exists i. split; [done|]. apply elem_of_seqZ. lia. }
      assert (b' = b); [|congruence].
      by rewrite <- (slot_block s b' _ HP ltac:(done) ltac:(done) ltac:(done) Hin), (slot_block s b _ HP). }
  rewrite E4. cbn [mbind option_bind]. rewrite Hlist in HQ4. cbn [app] in HQ4. unfold Q3 in HQ4.
  rewrite insert_insert_eq in HQ4.
  eexists b, _, g'. split; [done|]. split; [done|]. split; [done|]. right. split; [lia|]. split; [done|].
  split; [done|]. eexists. by apply grow_at.
Qed.

Lemma slab_alloc_spec s g bs live :
  slab_in s g bs live ->
  exists p s' g' bs', slab_alloc s g = Some (p, s', g') /\ same_params s s' /\ others g' bs' = others g bs /\
    (p = 0 /\ slab_in s' g' bs' live \/ p ≠ 0 /\ p ∉ live /\ slab_in s' g' bs' ({[p]} ∪ live)).
Proof.
  intros ((Q & es & HA) & Hg & Hsub & Hbz). unfold slab_alloc.
  pose proof (q_head _ _ _ (sa_links _ _ _ _ _ HA) _ _ (sa_es _ _ _ _ _ HA)) as Hh.
  change (op_head (links s) SEmpties) with (ring_head (links s) SEmpties). rewrite Hh. cbn [mbind option_bind].
  destruct es as [|b es]; cbn [head fmap option_fmap option_map].
  - destruct (add_block_spec s g Q [] bs live HA Hg Hsub Hbz) as (b & s1 & g1 & -> & Hg1 & Hsp & Hb).
    cbn [mbind option_bind]. destruct Hb as [(-> & -> & Hl)|(Hb0 & Hnb & Hl & Q1 & HA1)].
    { exists 0, s, g1, bs. split_and!; try done; [unfold others; by rewrite Hl|]. left. split; [done|].
      split_and!; try done; [by exists Q, []|by rewrite Hl]. }
    rewrite (proj2 (Z.eqb_neq b 0)) by done. cbn [app] in HA1.
    pose proof (q_head _ _ _ (sa_links _ _ _ _ _ HA1) _ _ (sa_es _ _ _ _ _ HA1)) as Hh1.
    change (op_head (links s1) SEmpties) with (ring_head (links s1) SEmpties). rewrite Hh1.
    cbn [mbind option_bind head fmap option_fmap option_map link_of slab_queueing block_of].
    destruct (take_spec s1 Q1 [] _ _ _ HA1) as (p & s2 & Q2 & es2 & -> & Hsp2 & Hp0 & Hp & HA2).
    cbn [mbind option_bind]. exists p, s2, g1, (bs ++ [b]). split; [done|].
    split; [by eapply same_params_trans|]. split.
    { unfold others. rewrite Hl, list_to_set_app_L. cbn. set_solver. }
    right. split; [done|]. split; [done|]. split; [by eexists _, _|]. split; [done|].
    split; [rewrite Hl, list_to_set_app_L; set_solver|].
    destruct (same_params_trans _ _ _ Hsp Hsp2) as (_ & -> & _). done.
  - cbn [link_of slab_queueing block_of mbind option_bind].
    destruct (take_spec s Q es _ _ _ HA) as (p & s2 & Q2 & es2 & -> & Hsp2 & Hp0 & Hp & HA2).
    cbn [mbind option_bind]. exists p, s2, g, bs. split_and!; try done. right. split; [done|]. split; [done|].
    split; [by eexists _, _|]. split; [done|]. split; [done|]. by destruct Hsp2 as (_ & -> & _).
Qed.

(** [b] is among the blocks with a free unit before its unit is put back. *)
Lemma free_empties s Q es bs live b l :
  slab_at s Q es bs live -> Q !! BEntries b = Some l ->
  let n := Z.of_nat (length l) in
  let es1 := match l with [] => es ++ [b] | _ => es end in
  exists h, (if n =? 0 then list_enqueue (links s) SEmpties (BEmpties b) else Some (links s)) = Some h /\
    qrep h (<[SEmpties := es1]> Q) ∅ /\ b ∈ es1 /\ (forall b', b' ≠ b -> b' ∈ es1 <-> b' ∈ es) /\
    (if n =? 0 then u32 (empty_num s + 1) else empty_num s) = Z.of_nat (length es1) /\ Z.of_nat (length es1) < 2 ^ 32 /\
    filter (λ x, x ≠ b) es1 = filter (λ x, x ≠ b) es /\ NoDup es1.
Proof.
  intros HA Hl n es1. pose proof (sa_links _ _ _ _ _ HA) as HQ. pose proof (sa_es _ _ _ _ _ HA) as Hes.
  destruct (sa_entries _ _ _ _ _ HA b l Hl) as [Hb _]. pose proof (sa_params _ _ _ _ _ HA) as HP.
  destruct (sa_units _ _ _ _ _ HA b Hb) as (l' & Hl' & _ & Hiff). rewrite Hl in Hl'. injection Hl' as <-.
  destruct (slab_counts _ _ _ _ _ _ _ HA Hl) as (_ & _ & Hc3 & Hc4). pose proof (sa_en _ _ _ _ _ HA) as Hen.
  pose proof (q_nodup _ _ _ HQ _ _ Hes) as Hnd. unfold n, es1. destruct l as [|q l]; cbn [length].
  - assert (Hne : b ∉ es) by (intros Hin; by apply Hiff in Hin).
    destruct (q_enqueue _ _ _ HQ SEmpties b es Hes) as (h & E & HQ'); [eapply off_block; [done|by left]|].
    exists h. split; [exact E|]. split; [exact HQ'|]. split; [set_solver|]. split; [set_solver|].
    assert (Hlt : (length es < length bs)%nat).
    { assert (length (b :: es) <= length bs)%nat; [|done]. apply submseteq_length, NoDup_submseteq; [by apply NoDup_cons|].
      intros x [->|Hx]%elem_of_cons; [done|]. by apply (sa_sub _ _ _ _ _ HA). }
    rewrite Z.eqb_refl, length_app, Hen. cbn. rewrite u32_small by (unfold is_u32; lia). split_and!; [lia..| |].
    + by rewrite filter_app, filter_cons_False, app_nil_r by tauto.
    + apply NoDup_app. split_and!; [done|set_solver|apply NoDup_singleton].
  - exists (links s). rewrite (proj2 (Z.eqb_neq _ 0)) by lia. rewrite insert_id by done.
    assert (b ∈ es) by (by apply Hiff). split_and!; try done. lia.
Qed.

Lemma slab_free_spec s g bs live p :
  slab_in s g bs live -> p ∈ live ->
  exists s' g' bs', slab_free s g p = Some (s', g') /\ same_params s s' /\ others g' bs' = others g bs /\
    slab_in s' g' bs' (live ∖ {[p]}).
Proof.
  intros ((Q & es & HA) & Hg & Hsub & Hbz) Hlive.
  destruct (at_live_block _ _ _ _ _ HA p Hlive) as (b & l & Hb & Hl & Hp & Hnp & Hland).
  destruct (sa_units _ _ _ _ _ HA b Hb) as (l' & Hl' & Hnum & _). rewrite Hl in Hl'. injection Hl' as <-.
  pose proof (sa_params _ _ _ _ _ HA) as HP. destruct (sa_entries _ _ _ _ _ HA b l Hl) as [_ Hs].
  destruct (slab_counts _ _ _ _ _ _ _ HA Hl) as (Hc1 & Hc2 & Hc3 & Hc4).
  pose proof (q_nodup _ _ _ (sa_links _ _ _ _ _ HA) _ _ Hl) as Hndl.
  unfold slab_free. rewrite Hland, Hnum. cbn [mbind option_bind].
  destruct (free_empties s Q es bs live b l HA Hl) as (h & Eh & HQ & Hbe & Heq & Een & Hee & Hfe & Hnd1).
  set (es1 := match l with [] => es ++ [b] | _ => es end) in *.
  rewrite Eh, Een. cbn [mbind option_bind].
  assert (Hlt : Z.of_nat (length l) < entries_per_block s).
  { rewrite <- (length_slots s b HP). apply Nat2Z.inj_lt.
    assert (length (p :: l) <= length (slots s b))%nat; [|done]. apply submseteq_length, NoDup_submseteq; [by apply NoDup_cons|].
    intros x [->|Hx]%elem_of_cons; auto. }
  rewrite (u32_small (Z.of_nat (length l) + 1)) by (unfold is_u32; lia).
  destruct (_ && _ && _) eqn:Hif.
  - apply andb_true_iff in Hif as [[Hfull%Z.eqb_eq Htwo%Z.ltb_lt]%andb_true_iff Hmin%Z.ltb_lt].
    destruct (q_remove _ _ _ HQ SEmpties b es1) as (h1 & E1 & HQ1); [apply lookup_insert_eq|done|].
    change (op_remove h (BEmpties b)) with (ring_remove h (link_of SEmpties b)). rewrite E1. cbn [mbind option_bind].
    rewrite insert_insert_eq in HQ1.
    destruct (q_remove _ _ _ HQ1 SBlocks b bs) as (h2 & E2 & HQ2); [rewrite lookup_insert_ne by done; apply (sa_bs _ _ _ _ _ HA)|done|].
    change (op_remove h1 (BBlocks b)) with (ring_remove h1 (link_of SBlocks b)). rewrite E2. cbn [mbind option_bind].
    destruct (ps_free_law g b Hg) as (g' & -> & Hg' & Hlg'); [set_solver|]. cbn [mbind option_bind].
    destruct (q_drop _ _ _ HQ2 (inside (mask s) b)) as (h3 & E3 & HQ3).
    { intros gd k a Hk Ha. destruct (decide (gd = SBlocks)) as [->|].
      { rewrite lookup_insert_eq in Hk. simplify_eq. apply list_elem_of_filter in Ha as [? _]. cbn. by apply Z.eqb_neq. }
      rewrite lookup_insert_ne in Hk by done. destruct (decide (gd = SEmpties)) as [->|].
      { rewrite lookup_insert_eq in Hk. simplify_eq. apply list_elem_of_filter in Ha as [? _]. cbn. by apply Z.eqb_neq. }
      rewrite lookup_insert_ne in Hk by done. pose proof (q_dom _ _ _ (sa_links _ _ _ _ _ HA) _ _ Hk) as Hd.
      destruct gd as [| | | |b'|]; try done. cbn.
      destruct (sa_entries _ _ _ _ _ HA b' k Hk) as [Hb' Hs']. by rewrite (at_land _ _ _ _ _ HA b' a) by auto. }
    change (op_drop h2 (inside (mask s) b)) with (ring_drop h2 (inside (mask s) b)). rewrite E3. cbn [mbind option_bind].
    eexists _, g', (filter (λ x, x ≠ b) bs). split; [done|]. split; [done|].
    assert (Hin : b ∈ (list_to_set bs : gset Z)) by (by apply elem_of_list_to_set).
    assert (Hfs : (list_to_set (filter (λ x, x ≠ b) bs) : gset Z) = list_to_set bs ∖ {[b]}).
    { apply set_eq. intros x. rewrite elem_of_list_to_set, list_elem_of_filter, elem_of_difference, elem_of_list_to_set, elem_of_singleton. tauto. }
    split; [unfold others; rewrite Hlg', Hfs; set_solver|]. split_and!; [|done|rewrite Hlg', Hfs; set_solver|done].
    pose proof (length_filter_ne b es1 Hnd1 Hbe) as Hle. pose proof (sa_bn _ _ _ _ _ HA) as [Ebn _].
    pose proof (length_filter_ne b bs (q_nodup _ _ _ (sa_links _ _ _ _ _ HA) _ _ (sa_bs _ _ _ _ _ HA)) Hb) as Hlb.
    replace (filter _ (∅ : gset sloc)) with (∅ : gset sloc) in HQ3 by set_solver. rewrite Hfe in HQ3. rewrite Hfe in Hle. eexists _, _.
    eapply (shrink_at s Q es bs live b l); [done|done|reflexivity| | |exact HQ3|].
    + rewrite u32_small by (unfold is_u32; lia). lia.
    + intros q. rewrite elem_of_difference, elem_of_singleton. split.
      * intros [Hq Hqp]. split; [done|]. intros Hqs. rewrite (live_block _ _ _ _ _ _ _ _ HA Hl Hqs) in Hq.
        rewrite (full_block s b p l) in Hqs by done. set_solver.
      * intros [Hq Hqs]. split; [done|]. by intros ->.
    + rewrite u32_small by (unfold is_u32; lia). lia.
  - destruct (q_push _ _ _ HQ (BEntries b) p l) as (h1 & E1 & HQ1); [by rewrite lookup_insert_ne| |].
    { intros gd k Hk E Ha. destruct (decide (gd = SEmpties)) as [->|]; [done|]. rewrite lookup_insert_ne in Hk by done.
      eapply (off_unit _ _ _ _ _ HA b p); [done|done|by intros ? [= <-]%(transitivity (eq_sym Hl))|done..]. }
    change (list_push h (BEntries b) (EEntry p)) with (ring_insert h (BEntries b) (link_of (BEntries b) p)).
    rewrite E1. cbn [mbind option_bind]. eexists _, g, bs. split; [done|]. split; [done|]. split; [done|].
    split_and!; [|done..]. eexists _, _.
    replace (Z.of_nat (length l) + 1) with (Z.of_nat (length (p :: l))) by (cbn [length]; lia).
    eapply (entries_at s Q es bs live b l (p :: l) es1); [done|done|done| | | |done|exact HQ1].
    + split; [done|]. by intros _.
    + intros q [->|Hq]%elem_of_cons; auto.
    + intros q. rewrite elem_of_difference, elem_of_singleton. destruct (decide (q ∈ slots s b)) as [Hq|Hq].
      * rewrite (live_block _ _ _ _ _ _ _ _ HA Hl Hq), elem_of_cons. tauto.
      * split; [intros [? _]; by right|]. intros [[]|[? _]]; [done|]. split; [done|by intros ->].
Qed.

Lemma create_loop_spec n s g bs live :
  slab_in s g bs live ->
  exists s' g' bs', create_loop n s g = Some (s', g') /\ same_params s s' /\ others g' bs' = others g bs /\
    slab_in s' g' bs' live /\ (length bs' <= length bs + n)%nat.
Proof.
  revert s g bs. induction n as [|n IH]; intros s g bs HS; cbn [create_loop].
  { exists s, g, bs. split_and!; try done. lia. }
  pose proof HS as ((Q & es & HA) & Hg & Hsub & Hbz).
  destruct (add_block_spec s g Q es bs live HA Hg Hsub Hbz) as (b & s1 & g1 & -> & Hg1 & Hsp & Hb).
  cbn [mbind option_bind]. destruct Hb as [(-> & -> & Hl)|(Hb0 & Hnb & Hl & Q1 & HA1)].
  { exists s, g1, bs. split; [done|]. split; [done|]. split; [unfold others; by rewrite Hl|]. split; [|lia].
    split; [by exists Q, es|]. split; [done|]. split; [by rewrite Hl|done]. }
  rewrite (proj2 (Z.eqb_neq b 0)) by done.
  destruct (IH s1 g1 (bs ++ [b])) as (s2 & g2 & bs2 & -> & Hsp2 & Ho & HS2 & Hlen).
  { split; [by eexists _, _|]. split; [done|]. rewrite Hl, list_to_set_app_L. cbn. split; [set_solver|].
    by destruct Hsp as (_ & -> & _). }
  exists s2, g2, bs2. split; [done|]. split; [by eapply same_params_trans|]. rewrite length_app in Hlen. cbn in Hlen.
  split; [|split; [done|lia]]. rewrite Ho. unfold others. rewrite Hl, list_to_set_app_L. cbn. set_solver.
Qed.

(** The parameters [slab_create] accepts. *)
Definition creatable (s : slab_t srings) : bool :=
  (sizeof_slab_entry_t <=? unit_size s) && (unit_size s + sizeof_slab_block_t <=? block_size s) && (0 <? max_block s).

Lemma slab_create_spec s g :
  ps_ok bsz g -> (exists n, 0 <= n < 32 /\ bsz = 2 ^ n) -> block_size s = bsz -> links s = ∅ ->
  0 <= unit_size s < 2 ^ 32 - sizeof_slab_block_t -> 0 <= max_block s < 2 ^ 32 ->
  if creatable s then
    exists s' g' bs, slab_create s g = Some (SLAB_OK, s', g') /\ slab_in s' g' bs ∅ /\ others g' bs = ps_live bsz g /\
      Z.of_nat (length bs) <= Z.max 0 (min_block s) /\
      unit_size s' = unit_size s /\ entries_per_block s' = (bsz - sizeof_slab_block_t) / unit_size s
  else slab_create s g = Some (SLAB_ERROR, s, g).
Proof.
  intros Hg Hpow Hbz Hl Hu Hm. pose proof Hpow as (n & Hn & En).
  assert (Hb : 0 < bsz < 2 ^ 32).
  { rewrite En. split; [by apply Z.pow_pos_nonneg; lia|]. apply Z.pow_lt_mono_r; lia. }
  unfold slab_create, creatable. unfold sizeof_slab_entry_t, sizeof_slab_block_t in *.
  rewrite (u32_small (unit_size s + 32)), Hbz by (unfold is_u32; lia).
  destruct (Z.eqb_spec bsz 0); [lia|]. cbn [orb].
  destruct (Z.ltb_spec (unit_size s) 8), (Z.leb_spec 8 (unit_size s)); try lia; cbn [orb andb]; [done|].
  destruct (Z.ltb_spec bsz (unit_size s + 32)), (Z.leb_spec (unit_size s + 32) bsz); try lia; cbn [orb andb]; [done|].
  destruct (Z.eqb_spec (max_block s) 0), (Z.ltb_spec 0 (max_block s)); try lia; [done|].
  cbn [links min_block entry_num empty_num block_num block_size unit_size max_block]. rewrite Hl.
  destruct (q_initialize _ _ _ qrep_empty SEmpties) as (h1 & E1 & HQ1); [done|by left|].
  change (op_initialize (∅ : srings) SEmpties) with (ring_initialize (∅ : srings) SEmpties). rewrite E1. cbn [mbind option_bind].
  destruct (q_initialize _ _ _ HQ1 SBlocks) as (h2 & E2 & HQ2); [done|left; by rewrite lookup_insert_ne|].
  change (op_initialize h1 SBlocks) with (ring_initialize h1 SBlocks). rewrite E2. cbn [mbind option_bind].
  rewrite !(u32_small (bsz - _)) by (unfold is_u32; lia).
  replace (Z.lnot (bsz - 1)) with (- bsz) by (unfold Z.lnot; lia).
  match goal with |- context [create_loop _ ?s0 g] => set (s1 := s0) end.
  assert (Hper : 0 < (bsz - 32) / unit_size s) by (apply Z.div_str_pos; lia).
  assert (HP : params_ok s1).
  { split; cbn; [by exists n|done|done| |done|done|lia].
    pose proof (Z.mul_div_le (bsz - 32) (unit_size s) ltac:(lia)). unfold sizeof_slab_block_t. lia. }
  destruct (create_loop_spec (Z.to_nat (min_block s)) s1 g [] ∅) as (s' & g' & bs & -> & Hsp & Ho & HS & Hlen).
  { split; [|split_and!; [done|set_solver|done]]. exists (<[SBlocks := []]> (<[SEmpties := []]> ∅)), [].
    assert (Hno : forall b, <[SBlocks := []]> (<[SEmpties := []]> (∅ : squeues)) !! BEntries b = None)
      by (intros b; by rewrite !lookup_insert_ne).
    split; try done.
    - intros b []%not_elem_of_nil.
    - intros b l E. by rewrite Hno in E.
    - intros b []%not_elem_of_nil.
    - intros p. split; [set_solver|]. intros (b & l & E & _). by rewrite Hno in E.
    - cbn. split; [done|lia]. }
  cbn [mbind option_bind]. exists s', g', bs. split; [done|]. split; [done|]. split.
  { rewrite Ho. unfold others. cbn. set_solver. }
  destruct Hsp as (-> & _ & _ & _ & -> & _). split_and!; [cbn in Hlen; lia|done|done].
Qed.

Lemma destroy_loop_spec n h Q bs g :
  qrep h Q ∅ -> Q !! SBlocks = Some bs -> ps_ok bsz g -> list_to_set bs ⊆ ps_live bsz g -> (length bs <= n)%nat ->
  exists h' g', destroy_loop n h g = Some (h', g') /\ ps_ok bsz g' /\ ps_live bsz g' = others g bs.
Proof.
  revert n h Q g. induction bs as [|b bs IH]; intros n h Q g HQ Hbs Hg Hsub Hlen.
  - pose proof (q_pick _ _ _ HQ SBlocks [] Hbs) as Hp. exists h, g.
    destruct n; cbn [destroy_loop]; change (list_dequeue h SBlocks) with (ring_pick h SBlocks); rewrite Hp;
      (split; [done|]; split; [done|]; unfold others; set_solver).
  - destruct (q_pick _ _ _ HQ SBlocks (b :: bs) Hbs) as (h1 & E1 & HQ1).
    pose proof (q_nodup _ _ _ HQ _ _ Hbs) as [Hnb _]%NoDup_cons.
    destruct n as [|n]; [cbn in Hlen; lia|]. cbn [destroy_loop].
    change (list_dequeue h SBlocks) with (ring_pick h SBlocks). rewrite E1.
    cbn [mbind option_bind link_of slab_queueing].
    destruct (ps_free_law g b Hg) as (g1 & -> & Hg1 & Hl1); [set_solver|]. cbn [mbind option_bind].
    assert (b ∉ (list_to_set bs : gset Z)) by (by rewrite elem_of_list_to_set).
    destruct (IH n h1 _ g1 HQ1) as (h' & g' & E & Hg' & Hl'); [apply lookup_insert_eq|done|rewrite Hl1; set_solver|cbn in Hlen; lia|].
    exists h', g'. split; [exact E|]. split; [done|]. rewrite Hl'. unfold others. rewrite Hl1. set_solver.
Qed.

Lemma slab_destroy_spec s g bs live :
  slab_in s g bs live ->
  exists s' g', slab_destroy s g = Some (s', g') /\ ps_ok bsz g' /\ ps_live bsz g' = others g bs.
Proof.
  intros ((Q & es & HA) & Hg & Hsub & Hbz). unfold slab_destroy. destruct (sa_bn _ _ _ _ _ HA) as [E _].
  destruct (destroy_loop_spec (Z.to_nat (block_num s)) (links s) Q bs g (sa_links _ _ _ _ _ HA) (sa_bs _ _ _ _ _ HA) Hg Hsub)
    as (h' & g' & -> & Hg' & Hl'); [lia|]. by eexists _, g'.
Qed.

End Alloc.

(** ** The pointers of a slab *)

Section Refine.
Context {C A : Type} `{!ListOps sloc C, !ListOps sloc A} (R : C -> A -> Prop) `{!ListRefines R}.
Context {G : Type} `{!PageSource G}.

(** The same slab with its lists represented differently. *)
Definition slab_rel (c : slab_t C) (a : slab_t A) : Prop :=
  R (links c) (links a) /\ same_params a c /\ empty_num c = empty_num a /\ block_num c = block_num a /\
  entry_num c = entry_num a.

Lemma slab_rel_with c a en bn hc ha num :
  slab_rel c a -> R hc ha -> slab_rel (with_lists en bn hc num c) (with_lists en bn ha num a).
Proof. by intros (_ & ? & _) ?. Qed.

(** The steps of the code that may be undefined. *)
Definition tracks {X} (oc : option (X * slab_t C * G)) (oa : option (X * slab_t A * G)) : Prop :=
  forall x a' g', oa = Some (x, a', g') -> exists c', oc = Some (x, c', g') /\ slab_rel c' a'.

Definition follows (oc : option C) (oa : option A) : Prop :=
  forall a', oa = Some a' -> exists c', oc = Some c' /\ R c' a'.

Lemma follow_enqueue c a g e : R c a -> follows (list_enqueue c g e) (list_enqueue a g e).
Proof. intros Hr a' Ha. by eapply (refine_append c a). Qed.
Lemma follow_push c a g e : R c a -> follows (list_push c g e) (list_push a g e).
Proof. intros Hr a' Ha. by eapply (refine_insert c a). Qed.
Lemma follow_remove c a e : R c a -> follows (op_remove c e) (op_remove a e).
Proof. intros Hr a' Ha. by eapply (refine_remove c a). Qed.
Lemma follow_initialize c a e : R c a -> follows (op_initialize c e) (op_initialize a e).
Proof. intros Hr a' Ha. by eapply (refine_initialize c a). Qed.
Lemma follow_drop c a f : R c a -> follows (op_drop c f) (op_drop a f).
Proof. intros Hr a' Ha. by eapply (refine_drop c a). Qed.
Lemma follow_same c a : R c a -> follows (Some c) (Some a).
Proof. intros Hr a' [= <-]. eauto. Qed.

Hint Resolve follow_enqueue follow_push follow_remove follow_initialize follow_drop follow_same : core.

Ltac follow_step :=
  match goal with
  | E : (?oa ≫= _) = Some _ |- exists c', (?oc ≫= _) = Some _ /\ _ =>
      let a1 := fresh "a" in let E1 := fresh "E" in
      destruct oa as [a1|] eqn:E1; [|discriminate E]; cbn [mbind option_bind] in E;
      let c1 := fresh "c" in let Ec := fresh "E" in let Rc := fresh "R" in
      match type of E1 with
      | _ = Some _ =>
          assert (exists c1, oc = Some c1 /\ R c1 a1) as (c1 & Ec & Rc);
          [revert E1; first [apply follow_enqueue | apply follow_push | apply follow_remove
            | apply follow_initialize | apply follow_drop]; assumption|];
          rewrite Ec; cbn [mbind option_bind]
      end
  end.

Lemma add_entries_refines n b entry unit c a a' :
  R c a -> add_entries n b entry unit a = Some a' -> exists c', add_entries n b entry unit c = Some c' /\ R c' a'.
Proof.
  revert entry c a. induction n as [|n IH]; intros entry c a Hr E; cbn [add_entries] in *.
  { simplify_eq. eauto. }
  follow_step. by eapply IH.
Qed.

Lemma slab_add_block_refines c a g : slab_rel c a -> tracks (slab_add_block c g) (slab_add_block a g).
Proof.
  intros Hs x a' g' E. pose proof Hs as (Hr & (E1 & E2 & E3 & E4 & E5 & E6 & E7) & E8 & E9 & E10).
  unfold slab_add_block in *. rewrite E4, E9, E5, E7, E1, E8, E10.
  destruct (max_block a <=? block_num a); [simplify_eq; eauto|].
  destruct (ps_alloc g) as [[b g1]|]; [|done]. cbn [mbind option_bind] in *.
  destruct (b =? 0); [simplify_eq; eauto|]. do 3 follow_step.
  destruct (add_entries _ _ _ _ a2) as [a3|] eqn:Ea; [|done]. cbn [mbind option_bind] in E.
  destruct (add_entries_refines _ _ _ _ c2 a2 a3 ltac:(done) Ea) as (c3 & -> & Hr3). cbn [mbind option_bind].
  simplify_eq. eexists. split; [done|]. by apply slab_rel_with.
Qed.

Lemma take_entry_refines c a b p a' :
  slab_rel c a -> take_entry a b = Some (p, a') -> exists c', take_entry c b = Some (p, c') /\ slab_rel c' a'.
Proof.
  intros Hs E. pose proof Hs as (Hr & _ & E8 & E9 & E10). unfold take_entry in *. rewrite E8, E9, E10.
  destruct (entry_num a !! b) as [n|]; [|done]. cbn [mbind option_bind] in *.
  assert (Hf : follows (if u32 (n - 1) =? 0 then op_remove (links c) (BEmpties b) else Some (links c))
                       (if u32 (n - 1) =? 0 then op_remove (links a) (BEmpties b) else Some (links a))).
  { destruct (u32 (n - 1) =? 0); auto. }
  destruct (if u32 (n - 1) =? 0 then op_remove (links a) _ else _) as [a1|] eqn:Ea; [|done]. cbn [mbind option_bind] in E.
  destruct (Hf a1 eq_refl) as (c1 & -> & Hr1). cbn [mbind option_bind].
  destruct (list_pop a1 (BEntries b)) as [[o a2]|] eqn:Ep; [|done]. cbn [mbind option_bind] in E.
  destruct (refine_pick c1 a1 (BEntries b) o a2 Hr1 Ep) as (c2 & Ec & Hr2).
  change (list_pop c1 (BEntries b)) with (op_pick c1 (BEntries b)). rewrite Ec. cbn [mbind option_bind].
  destruct (unit_of o) as [q|]; [|done]. cbn [mbind option_bind] in *. simplify_eq. eexists. split; [done|].
  by apply slab_rel_with.
Qed.

Lemma slab_alloc_refines c a g : slab_rel c a -> tracks (slab_alloc c g) (slab_alloc a g).
Proof.
  intros Hs x a' g' E. pose proof Hs as (Hr & _). unfold slab_alloc in *.
  destruct (op_head (links a) SEmpties) as [o|] eqn:Eh; [|done]. cbn [mbind option_bind] in E.
  rewrite (refine_head _ _ _ _ Hr Eh). cbn [mbind option_bind]. destruct o as [l|].
  - destruct (block_of l) as [b|]; [|done]. cbn [mbind option_bind] in *.
    destruct (take_entry a b) as [[p a1]|] eqn:Et; [|done]. cbn [mbind option_bind] in E. simplify_eq.
    destruct (take_entry_refines c a b x a' Hs Et) as (c' & -> & Hr'). eexists. split; [done|done].
  - destruct (slab_add_block a g) as [[[b a1] g1]|] eqn:Eb; [|done]. cbn [mbind option_bind] in E.
    destruct (slab_add_block_refines c a g Hs b a1 g1 Eb) as (c1 & -> & Hs1). cbn [mbind option_bind].
    destruct (b =? 0); [simplify_eq; eauto|]. pose proof Hs1 as (Hr1 & _).
    destruct (op_head (links a1) SEmpties) as [[l|]|] eqn:Eh1; try done. cbn [mbind option_bind] in E.
    rewrite (refine_head _ _ _ _ Hr1 Eh1). cbn [mbind option_bind].
    destruct (block_of l) as [b1|]; [|done]. cbn [mbind option_bind] in *.
    destruct (take_entry a1 b1) as [[p a2]|] eqn:Et; [|done]. cbn [mbind option_bind] in E. simplify_eq.
    destruct (take_entry_refines c1 a1 b1 x a' Hs1 Et) as (c' & -> & Hr'). eexists. split; [done|done].
Qed.

Lemma slab_free_refines c a g p a' g' :
  slab_rel c a -> slab_free a g p = Some (a', g') -> exists c', slab_free c g p = Some (c', g') /\ slab_rel c' a'.
Proof.
  intros Hs E. pose proof Hs as (Hr & (E1 & E2 & E3 & E4 & E5 & E6 & E7) & E8 & E9 & E10).
  unfold slab_free in *. rewrite E3, E5, E6, E8, E9, E10. set (b := Z.land p (mask a)) in *.
  destruct (entry_num a !! b) as [n|]; [|done]. cbn [mbind option_bind] in *.
  assert (Hf : follows (if n =? 0 then list_enqueue (links c) SEmpties (BEmpties b) else Some (links c))
                       (if n =? 0 then list_enqueue (links a) SEmpties (BEmpties b) else Some (links a))).
  { destruct (n =? 0); auto. }
  destruct (if n =? 0 then list_enqueue (links a) _ _ else _) as [a1|] eqn:Ea; [|done]. cbn [mbind option_bind] in E.
  destruct (Hf a1 eq_refl) as (c1 & -> & Hr1). cbn [mbind option_bind]. destruct (_ && _ && _).
  - do 2 follow_step. destruct (ps_free g b) as [g1|]; [|done]. cbn [mbind option_bind] in *. follow_step.
    simplify_eq. eexists. split; [done|]. by apply slab_rel_with.
  - follow_step. simplify_eq. eexists. split; [done|]. by apply slab_rel_with.
Qed.

Lemma create_loop_refines n c a g a' g' :
  slab_rel c a -> create_loop n a g = Some (a', g') -> exists c', create_loop n c g = Some (c', g') /\ slab_rel c' a'.
Proof.
  revert c a g. induction n as [|n IH]; intros c a g Hs E; cbn [create_loop] in *; [simplify_eq; eauto|].
  destruct (slab_add_block a g) as [[[b a1] g1]|] eqn:Eb; [|done]. cbn [mbind option_bind] in E.
  destruct (slab_add_block_refines c a g Hs b a1 g1 Eb) as (c1 & -> & Hs1). cbn [mbind option_bind].
  destruct (b =? 0); [simplify_eq; eauto|]. by eapply IH.
Qed.

Lemma slab_create_refines c a g : slab_rel c a -> tracks (slab_create c g) (slab_create a g).
Proof.
  intros Hs x a' g' E. pose proof Hs as (Hr & (E1 & E2 & E3 & E4 & E5 & E6 & E7) & E8 & E9 & E10).
  unfold slab_create in *. rewrite E1, E2, E3, E4. destruct (_ || _ || _ || _); [simplify_eq; eauto|].
  cbn [links min_block entry_num] in *. do 2 follow_step. cbn [links min_block entry_num with_lists] in *.
  match type of E with (create_loop ?n ?sa g ≫= _) = _ => destruct (create_loop n sa g) as [[a3 g3]|] eqn:El; [|done] end.
  cbn [mbind option_bind] in E. eapply create_loop_refines in El as (c3 & -> & Hs3); [simplify_eq; by eexists|].
  split; [done|]. by split_and!.
Qed.

End Refine.
