(* ===== verification/LfQueue.v ===== *)
(** * The lock-free stack and queue (lib/libnc/set/lf_stack.c, lf_queue.c,
    lf_queue_initialize.c)

    A queue of fixed capacity: its nodes are in a buffer, the unused ones on a
    stack.  Each pointer that is swapped carries a count that every swap
    increments.  The definitions below follow the loops of the code, one
    iteration after the other without interference; a lagging [tail], which
    an interrupted call leaves behind, is part of the states considered. *)

From S2P Require Import Prelude.

Definition QUEUE_OK : Z := 0.
Definition QUEUE_EMPTY : Z := -1.
Definition QUEUE_MEMORY : Z := -2.

(** A node of the buffer: [next.ptr] (also [next] of a stack entry),
    [next.count] and the value. *)
Record lfq_node_t (V : Type) := Node { nx : Z; nc : Z; nv : V }.
Arguments Node {V}.
Arguments nx {V}.
Arguments nc {V}.
Arguments nv {V}.

(** [head], [tail] and the head of the stack as pairs of a pointer and a
    count, and the buffer by address. *)
Record lfq_t (V : Type) := Lfq {
  q_head : Z * Z;
  q_tail : Z * Z;
  s_head : Z * Z;
  entry_size : Z;
  nodes : gmap Z (lfq_node_t V);
}.
Arguments Lfq {V}.
Arguments q_head {V}.
Arguments q_tail {V}.
Arguments s_head {V}.
Arguments entry_size {V}.
Arguments nodes {V}.

Definition sizeof_uintptr_t : Z := 4.
Definition sizeof_lfs_entry_t : Z := 4.
Definition sizeof_lfq_node_t : Z := 8.

Definition lfs_entry_size (size : Z) : Z :=
  Z.land (u32 (size + sizeof_lfs_entry_t + sizeof_uintptr_t - 1)) (u32 (Z.lnot (sizeof_uintptr_t - 1))).

Definition lfq_node_size (size : Z) : Z := size + sizeof_lfq_node_t.

Section Code.
Context {V : Type}.
Implicit Types q : lfq_t V.

Definition set_head (h : Z * Z) q : lfq_t V := Lfq h (q_tail q) (s_head q) (entry_size q) (nodes q).
Definition set_tail (t : Z * Z) q : lfq_t V := Lfq (q_head q) t (s_head q) (entry_size q) (nodes q).
Definition set_stack (s : Z * Z) q : lfq_t V := Lfq (q_head q) (q_tail q) s (entry_size q) (nodes q).
Definition set_nodes (n : gmap Z (lfq_node_t V)) q : lfq_t V := Lfq (q_head q) (q_tail q) (s_head q) (entry_size q) n.

Definition set_nx (v : Z) (n : lfq_node_t V) : lfq_node_t V := Node v (nc n) (nv n).
Definition set_link (v : Z * Z) (n : lfq_node_t V) : lfq_node_t V := Node v.1 v.2 (nv n).
Definition set_nv (v : V) (n : lfq_node_t V) : lfq_node_t V := Node (nx n) (nc n) v.

(** A store through a pointer; the address must be a node's. *)
Definition upd (p : Z) (f : lfq_node_t V -> lfq_node_t V) q : option (lfq_t V) :=
  n ← nodes q !! p; Some (set_nodes (<[p := f n]> (nodes q)) q).

(** [cas2]: compare both words and swap them. *)
Definition cas2 (cur old new : Z * Z) : bool * (Z * Z) :=
  if bool_decide (cur = old) then (true, new) else (false, cur).

(** [count + 1] of an [unsigned long]. *)
Definition tick_count (p : Z * Z) (v : Z) : Z * Z := (v, u32 (p.2 + 1)).

(** *** The stack *)

Fixpoint lfs_initialize_loop (n : nat) (p : Z) q : option (lfq_t V) :=
  match n with
  | O => upd p (set_nx 0) q
  | S n =>
      let next := u32 (p + entry_size q) in
      q ← upd p (set_nx next) q;
      lfs_initialize_loop n next q
  end.

Definition lfs_initialize (buf size entry_num : Z) q : option (lfq_t V) :=
  let q := Lfq (q_head q) (q_tail q) (buf, (s_head q).2) (lfs_entry_size size) (nodes q) in
  lfs_initialize_loop (Z.to_nat (entry_num - 1)) buf q.

Fixpoint lfs_push_loop (n : nat) (entry : Z) q : option (lfq_t V) :=
  match n with
  | O => None
  | S n =>
      let old := s_head q in
      if bool_decide (old = s_head q) then
        q ← upd entry (set_nx old.1) q;
        let '(ok, h) := cas2 (s_head q) old (tick_count old entry) in
        if ok then Some (set_stack h q) else lfs_push_loop n entry q
      else lfs_push_loop n entry q
  end.

Definition lfs_push (entry : Z) q : option (lfq_t V) := lfs_push_loop 1 entry q.

(** 0 is [NULL]. *)
Fixpoint lfs_pop_loop (n : nat) q : option (Z * lfq_t V) :=
  match n with
  | O => None
  | S n =>
      let old := s_head q in
      if bool_decide (old = s_head q) then
        if old.1 =? 0 then Some (0, q)
        else
          e ← nodes q !! old.1;
          let '(ok, h) := cas2 (s_head q) old (tick_count old (nx e)) in
          if ok then Some (old.1, set_stack h q) else lfs_pop_loop n q
      else lfs_pop_loop n q
  end.

Definition lfs_pop q : option (Z * lfq_t V) := lfs_pop_loop 1 q.

(** *** The queue *)

(** The loop of [lfq_enqueue]; at most one turn helps a lagging [tail]. *)
Fixpoint lfq_enqueue_loop (n : nat) (node : Z) q : option (Z * lfq_t V) :=
  match n with
  | O => None
  | S n =>
      let tail := q_tail q in
      tn ← nodes q !! tail.1;
      let next := (nx tn, nc tn) in
      if bool_decide (tail = q_tail q) then
        if negb (next.1 =? 0) then
          let '(_, t) := cas2 (q_tail q) tail (tick_count tail next.1) in
          lfq_enqueue_loop n node (set_tail t q)
        else
          cur ← nodes q !! tail.1;
          let '(ok, l) := cas2 (nx cur, nc cur) next (tick_count next node) in
          q ← upd tail.1 (set_link l) q;
          if ok then
            let '(_, t) := cas2 (q_tail q) tail (tick_count tail node) in
            Some (QUEUE_OK, set_tail t q)
          else lfq_enqueue_loop n node q
      else lfq_enqueue_loop n node q
  end.

Definition lfq_enqueue (value : V) q : option (Z * lfq_t V) :=
  '(node, q) ← lfs_pop q;
  if node =? 0 then Some (QUEUE_MEMORY, q)
  else
    q ← upd node (set_nx 0) q;
    q ← upd node (set_nv value) q;
    lfq_enqueue_loop 2 node q.

(** The value that is copied out is the second component. *)
Fixpoint lfq_dequeue_loop (n : nat) q : option (Z * option V * lfq_t V) :=
  match n with
  | O => None
  | S n =>
      let head := q_head q in
      let tail := q_tail q in
      hn ← nodes q !! head.1;
      let next := (nx hn, nc hn) in
      if bool_decide (head = q_head q) then
        if head.1 =? tail.1 then
          if next.1 =? 0 then Some (QUEUE_EMPTY, None, q)
          else
            let '(_, t) := cas2 (q_tail q) tail (tick_count tail next.1) in
            lfq_dequeue_loop n (set_tail t q)
        else
          nn ← nodes q !! next.1;
          let '(ok, h) := cas2 (q_head q) head (tick_count head next.1) in
          if ok then
            q ← lfs_push head.1 (set_head h q);
            Some (QUEUE_OK, Some (nv nn), q)
          else lfq_dequeue_loop n q
      else lfq_dequeue_loop n q
  end.

Definition lfq_dequeue q : option (Z * option V * lfq_t V) := lfq_dequeue_loop 2 q.

Definition lfq_initialize (buf size node_num : Z) q : option (Z * lfq_t V) :=
  q ← lfs_initialize buf (lfq_node_size size - sizeof_lfs_entry_t) node_num q;
  '(node, q) ← lfs_pop q;
  if node =? 0 then Some (QUEUE_MEMORY, q)
  else
    q ← upd node (set_nx 0) q;
    Some (QUEUE_OK, set_head (node, (q_head q).2) (set_tail (node, (q_tail q).2) q)).

End Code.

(** ** Invariant *)

Section Invariant.
Context {V : Type}.
Implicit Types q : lfq_t V.
Implicit Types m : gmap Z (lfq_node_t V).

(** Following [next] from [p] visits [ns] and ends with [NULL]. *)
Fixpoint path m (p : Z) (ns : list Z) : Prop :=
  match ns with
  | [] => p = 0
  | x :: ns => p = x /\ x ≠ 0 /\ exists n, m !! x = Some n /\ path m (nx n) ns
  end.

Definition holds m (p : Z) (v : V) : Prop := exists n, m !! p = Some n /\ nv n = v.

(** The nodes of the queue are [h :: ns], with the values [vs] behind the
    first; [fs] are the unused ones.  [tail] is the last node or the one
    before. *)
Record lfq_at q (h : Z) (ns fs : list Z) (vs : list V) : Prop := {
  lq_head : (q_head q).1 = h;
  lq_path : path (nodes q) h (h :: ns);
  lq_vals : Forall2 (holds (nodes q)) ns vs;
  lq_tail : exists pre, h :: ns = pre ++ [(q_tail q).1] \/ exists x, h :: ns = pre ++ [(q_tail q).1; x];
  lq_free : path (nodes q) (s_head q).1 fs;
  lq_nodup : NoDup (h :: ns ++ fs);
}.

(** A queue that holds [vs], with room for [n] more. *)
Definition lfq_ok q (vs : list V) (n : nat) : Prop := exists h ns fs, lfq_at q h ns fs vs /\ length fs = n.

Lemma path_upd m p ns x n : path m p ns -> x ∉ ns -> path (<[x := n]> m) p ns.
Proof.
  revert p. induction ns as [|y ns IH]; intros p; [done|]. cbn. intros (-> & Hy & n' & Hn & Hp) [Hx Hns]%not_elem_of_cons.
  split; [done|]. split; [done|]. exists n'. rewrite lookup_insert_ne by congruence. auto.
Qed.

(** The last node of a path, before and after a node is linked behind it. *)
Lemma path_last m p pre t : path m p (pre ++ [t]) -> exists n, m !! t = Some n /\ nx n = 0 /\ t ≠ 0.
Proof.
  revert p. induction pre as [|y pre IH]; intros p; cbn.
  - intros (-> & Ht & n & Hn & Hx). exists n. auto.
  - intros (_ & _ & n & _ & Hp). by eapply IH.
Qed.

Lemma path_second m p pre t x : path m p (pre ++ [t; x]) -> exists n, m !! t = Some n /\ nx n = x /\ x ≠ 0.
Proof.
  revert p. induction pre as [|y pre IH]; intros p; cbn.
  - intros (-> & _ & n & Hn & E & Hx & _). exists n. auto.
  - intros (_ & _ & n & _ & Hp). by eapply IH.
Qed.

Lemma path_link m p pre t n x nx' :
  path m p (pre ++ [t]) -> NoDup (pre ++ [t]) -> x ∉ pre ++ [t] -> x ≠ 0 -> m !! t = Some n ->
  m !! x = Some nx' -> nx nx' = 0 ->
  forall c, path (<[t := Node x c (nv n)]> m) p (pre ++ [t; x]).
Proof.
  revert p. induction pre as [|y pre IH]; intros p Hp Hnd Hx Hx0 Ht Hm Hz c; cbn in *.
  - destruct Hp as (-> & Ht0 & _). split; [done|]. split; [done|]. eexists. rewrite lookup_insert_eq. split; [done|].
    cbn. split; [done|]. split; [done|]. exists nx'. rewrite lookup_insert_ne by set_solver. done.
  - destruct Hp as (-> & Hy & n' & Hn' & Hp). apply NoDup_cons in Hnd as [Hy' Hnd]. split; [done|]. split; [done|].
    exists n'. rewrite lookup_insert_ne by set_solver. split; [done|]. apply IH; set_solver.
Qed.

Lemma holds_upd m ns vs x n : Forall2 (holds m) ns vs -> x ∉ ns -> Forall2 (holds (<[x := n]> m)) ns vs.
Proof.
  induction 1 as [|p v ns vs (n' & Hn & Hv) H IH]; intros Hx; constructor.
  - exists n'. rewrite lookup_insert_ne by set_solver. done.
  - apply IH. set_solver.
Qed.

Lemma holds_link m ns vs t n x c :
  Forall2 (holds m) ns vs -> m !! t = Some n -> Forall2 (holds (<[t := Node x c (nv n)]> m)) ns vs.
Proof.
  intros H Ht. eapply Forall2_impl; [exact H|]. intros p v (n' & Hn & Hv). destruct (decide (p = t)) as [->|].
  - eexists. rewrite lookup_insert_eq. split; [done|]. cbn. congruence.
  - exists n'. by rewrite lookup_insert_ne.
Qed.

(** ** Operations *)

Lemma upd_some p f q n : nodes q !! p = Some n -> upd p f q = Some (set_nodes (<[p := f n]> (nodes q)) q).
Proof. intros E. unfold upd. by rewrite E. Qed.

Lemma lfs_pop_spec q fs :
  path (nodes q) (s_head q).1 fs ->
  exists q', lfs_pop q = Some (List.hd 0 fs, q') /\ q_head q' = q_head q /\ q_tail q' = q_tail q /\
    nodes q' = nodes q /\ path (nodes q') (s_head q').1 (tail fs).
Proof.
  intros Hp. unfold lfs_pop. cbn [lfs_pop_loop]. rewrite bool_decide_true by done. destruct fs as [|f fs]; cbn in Hp.
  - rewrite Hp. cbn. exists q. rewrite Hp. auto.
  - destruct Hp as (-> & Hf & n & Hn & Hp). rewrite (proj2 (Z.eqb_neq _ 0)), Hn by done. cbn [mbind option_bind].
    unfold cas2. rewrite bool_decide_true by done. eexists. split; [done|]. auto.
Qed.

Lemma lfs_push_spec q e n fs :
  path (nodes q) (s_head q).1 fs -> nodes q !! e = Some n -> e ≠ 0 -> e ∉ fs ->
  exists q', lfs_push e q = Some q' /\ q_head q' = q_head q /\ q_tail q' = q_tail q /\
    nodes q' = <[e := set_nx (s_head q).1 n]> (nodes q) /\ path (nodes q') (s_head q').1 (e :: fs).
Proof.
  intros Hp Hn He Hfs. unfold lfs_push. cbn [lfs_push_loop]. rewrite bool_decide_true by done. unfold upd. rewrite Hn.
  cbn [mbind option_bind]. unfold cas2. rewrite bool_decide_true by done. eexists. split; [done|]. cbn.
  split_and!; try done. eexists. rewrite lookup_insert_eq. split; [done|]. cbn. by apply path_upd.
Qed.

(** The turn that links the node, with [tail] the last. *)
Lemma lfq_link_turn k q h ns fs vs x n v pre :
  lfq_at q h ns fs vs -> nodes q !! x = Some n -> nx n = 0 -> nv n = v -> x ≠ 0 -> x ∉ h :: ns -> x ∉ fs ->
  h :: ns = pre ++ [(q_tail q).1] ->
  exists q', lfq_enqueue_loop (S k) x q = Some (QUEUE_OK, q') /\ lfq_at q' h (ns ++ [x]) fs (vs ++ [v]).
Proof.
  intros HA Hx Hz Hv Hx0 Hxn Hxf Epre. pose proof (lq_path _ _ _ _ _ HA) as Hp. pose proof (lq_nodup _ _ _ _ _ HA) as Hnd.
  change (NoDup ((h :: ns) ++ fs)) in Hnd. apply NoDup_app in Hnd as (Hn1 & Hn2 & Hn3).
  cbn [lfq_enqueue_loop]. rewrite Epre in Hp. set (t := (q_tail q).1) in *.
  destruct (path_last _ _ _ _ Hp) as (tn & Htn & Htz & Ht0). rewrite Htn. cbn [mbind option_bind].
  rewrite bool_decide_true by done. cbn [fst]. rewrite Htz.
  change (negb (0 =? 0)) with false. cbn iota. unfold cas2 at 1. rewrite bool_decide_true by done.
  unfold upd. rewrite Htn. cbn [mbind option_bind]. unfold cas2. rewrite bool_decide_true by done.
  eexists. split; [done|].
  assert (Hns' : (h :: ns) ++ [x] = pre ++ [t; x]) by (by rewrite Epre, <- app_assoc).
  assert (Htin : t ∈ h :: ns) by (rewrite Epre; set_solver).
  split; cbn [q_head q_tail s_head nodes set_tail set_nodes tick_count fst].
  - apply (lq_head _ _ _ _ _ HA).
  - change (h :: ns ++ [x]) with ((h :: ns) ++ [x]). rewrite Hns'.
    eapply path_link; [done|by rewrite <- Epre|by rewrite <- Epre|done..].
  - apply Forall2_app; [apply holds_link; [apply (lq_vals _ _ _ _ _ HA)|done]|]. constructor; [|constructor].
    exists n. by rewrite lookup_insert_ne by (intros ->; done).
  - exists (h :: ns). by left.
  - apply path_upd; [apply (lq_free _ _ _ _ _ HA)|]. by apply Hn2.
  - change (NoDup (((h :: ns) ++ [x]) ++ fs)). rewrite <- app_assoc. apply NoDup_app. split; [done|].
    split; [set_solver|]. by apply NoDup_cons.
Qed.

(** The loop of [lfq_enqueue], with its node ready: a first turn may help
    [tail]. *)
Lemma lfq_enqueue_loop_spec q h ns fs vs x n v :
  lfq_at q h ns fs vs -> nodes q !! x = Some n -> nx n = 0 -> nv n = v -> x ≠ 0 -> x ∉ h :: ns -> x ∉ fs ->
  exists q', lfq_enqueue_loop 2 x q = Some (QUEUE_OK, q') /\ lfq_at q' h (ns ++ [x]) fs (vs ++ [v]).
Proof.
  intros HA Hx Hz Hv Hx0 Hxn Hxf. destruct (lq_tail _ _ _ _ _ HA) as (pre & [Epre|(y & Epre)]).
  { by eapply (lfq_link_turn 1 q). }
  pose proof (lq_path _ _ _ _ _ HA) as Hp. rewrite Epre in Hp.
  destruct (path_second _ _ _ _ _ Hp) as (tn & Htn & Htx & Hy0).
  set (one := 1%nat). cbn [lfq_enqueue_loop]. rewrite Htn. cbn [mbind option_bind].
  rewrite bool_decide_true by done. cbn [fst].
  rewrite Htx, (proj2 (Z.eqb_neq y 0)) by done. cbn [negb]. unfold cas2 at 1. rewrite bool_decide_true by done.
  assert (Ey : h :: ns = (pre ++ [(q_tail q).1]) ++ [y]) by (by rewrite <- app_assoc).
  apply (lfq_link_turn 0 _ _ _ _ _ _ n _ (pre ++ [(q_tail q).1])); try done.
  destruct HA. split; try done. exists (pre ++ [(q_tail q).1]). by left.
Qed.

Lemma lfq_enqueue_spec q vs n v :
  lfq_ok q vs n ->
  match n with
  | O => exists q', lfq_enqueue v q = Some (QUEUE_MEMORY, q') /\ lfq_ok q' vs O
  | S n => exists q', lfq_enqueue v q = Some (QUEUE_OK, q') /\ lfq_ok q' (vs ++ [v]) n
  end.
Proof.
  intros (h & ns & fs & HA & <-). destruct (lfs_pop_spec q fs (lq_free _ _ _ _ _ HA)) as (q1 & E & E1 & E2 & E3 & Hp).
  unfold lfq_enqueue. rewrite E. cbn [mbind option_bind]. destruct fs as [|f fs]; cbn [length List.hd tail] in *.
  - exists q1. split; [done|]. exists h, ns, []. split; [|done]. destruct HA. split; rewrite ?E1, ?E2, ?E3; try done.
  - pose proof (lq_free _ _ _ _ _ HA) as (_ & Hf0 & n & Hn & _). rewrite (proj2 (Z.eqb_neq f 0)) by done.
    rewrite (upd_some f _ q1 n) by (by rewrite E3). cbn [mbind option_bind].
    erewrite (upd_some f) by apply lookup_insert_eq. cbn [mbind option_bind]. rewrite E3.
    pose proof (lq_nodup _ _ _ _ _ HA) as Hnd. change (NoDup ((h :: ns) ++ f :: fs)) in Hnd.
    apply NoDup_app in Hnd as (Hn1 & Hn2 & [Hff Hn3]%NoDup_cons).
    assert (Hfn : f ∉ h :: ns) by (intros Hin; apply (Hn2 f Hin); by left).
    set (n' := set_nv v (set_nx 0 n)). set (q2 := set_nodes (<[f := n']> (nodes q)) q1).
    replace (set_nodes _ _) with q2 by (unfold q2, set_nodes; cbn; by rewrite insert_insert_eq).
    destruct (lfq_enqueue_loop_spec q2 h ns fs vs f n' v) as (q' & E' & HA'); try done.
    + split; cbn [q2 q_head q_tail s_head nodes set_nodes]; rewrite ?E1, ?E2.
      * apply (lq_head _ _ _ _ _ HA).
      * apply path_upd; [apply (lq_path _ _ _ _ _ HA)|done].
      * apply holds_upd; [apply (lq_vals _ _ _ _ _ HA)|set_solver].
      * apply (lq_tail _ _ _ _ _ HA).
      * rewrite E3 in Hp. by apply path_upd.
      * change (NoDup ((h :: ns) ++ fs)). apply NoDup_app. split; [done|]. split; [|done]. intros x Hx Hxf.
        apply (Hn2 x Hx). by right.
    + cbn. apply lookup_insert_eq.
    + exists q'. split; [exact E'|]. by exists h, (ns ++ [f]), fs.
Qed.

(** The turn that takes the first value, with [tail] past the head. *)
Lemma lfq_take_turn k q h x ns fs v vs :
  lfq_at q h (x :: ns) fs (v :: vs) -> (q_tail q).1 ≠ h ->
  exists q', lfq_dequeue_loop (S k) q = Some (QUEUE_OK, Some v, q') /\ lfq_at q' x ns (h :: fs) vs.
Proof.
  intros HA Ht. pose proof (lq_path _ _ _ _ _ HA) as (_ & Hh0 & hn & Hhn & Exn & Hx0 & xn & Hxn & Hp).
  pose proof (lq_nodup _ _ _ _ _ HA) as [Hhns Hnd]%NoDup_cons. cbn in Hnd.
  pose proof (lq_vals _ _ _ _ _ HA) as Hvs. apply Forall2_cons in Hvs as [(xn' & Hxn' & Hv) Hvs].
  rewrite Hxn in Hxn'. injection Hxn' as <-.
  cbn [lfq_dequeue_loop]. rewrite (lq_head _ _ _ _ _ HA), Hhn. cbn [mbind option_bind]. rewrite bool_decide_true by done.
  rewrite (proj2 (Z.eqb_neq h _)) by congruence. cbn [fst]. rewrite Exn, Hxn. cbn [mbind option_bind].
  unfold cas2. rewrite bool_decide_true by done.
  destruct (lfs_push_spec (set_head (tick_count (q_head q) x) q) h hn fs) as (q' & -> & E1 & E2 & E3 & Hp');
    [exact (lq_free _ _ _ _ _ HA)|done|done|set_solver|].
  cbn [mbind option_bind]. exists q'. rewrite Hv. split; [done|]. cbn [nodes s_head q_head q_tail set_head] in *.
  split; rewrite ?E1, ?E2, ?E3.
  - done.
  - apply path_upd; [|set_solver]. cbn. split; [done|]. split; [done|]. by exists xn.
  - apply holds_upd; [done|set_solver].
  - destruct (lq_tail _ _ _ _ _ HA) as (pre & Hpre). destruct pre as [|y pre].
    { destruct Hpre as [[= ? ?]|(z & [= ? ?])]; done. }
    exists pre. destruct Hpre as [[= _ ->]|(z & [= _ ->])]; [by left|]. right. by exists z.
  - by rewrite E3 in Hp'.
  - assert (x :: ns ++ h :: fs ≡ₚ h :: x :: ns ++ fs) as -> by (by rewrite <- Permutation_middle; rewrite Permutation_swap).
    apply NoDup_cons. by split.
Qed.

Lemma lfq_dequeue_spec q vs n :
  lfq_ok q vs n ->
  match vs with
  | [] => exists q', lfq_dequeue q = Some (QUEUE_EMPTY, None, q') /\ lfq_ok q' [] n
  | v :: vs => exists q', lfq_dequeue q = Some (QUEUE_OK, Some v, q') /\ lfq_ok q' vs (S n)
  end.
Proof.
  intros (h & ns & fs & HA & <-). unfold lfq_dequeue. pose proof (lq_vals _ _ _ _ _ HA) as Hvs.
  destruct (lq_tail _ _ _ _ _ HA) as (pre & Hpre). destruct vs as [|v vs].
  - apply Forall2_nil_inv_r in Hvs as ->. exists q.
    pose proof (lq_path _ _ _ _ _ HA) as (_ & Hh0 & hn & Hhn & Exn). cbn in Exn.
    assert ((q_tail q).1 = h) as Et.
    { destruct Hpre as [E|(z & E)]; destruct pre as [|? [|? ?]]; by simplify_eq/=. }
    cbn [lfq_dequeue_loop]. rewrite (lq_head _ _ _ _ _ HA), Hhn. cbn [mbind option_bind]. rewrite bool_decide_true by done.
    rewrite Et, Z.eqb_refl. cbn [fst]. rewrite Exn. split; [done|]. by exists h, [], fs.
  - apply Forall2_cons_inv_r in Hvs as (x & ns' & (xn & Hxn & Hv) & Hvs & ->).
    destruct (decide ((q_tail q).1 = h)) as [Et|Hne].
    + pose proof (lq_path _ _ _ _ _ HA) as (_ & Hh0 & hn & Hhn & Exn & Hx0 & _).
      set (one := 1%nat). cbn [lfq_dequeue_loop]. rewrite (lq_head _ _ _ _ _ HA), Hhn. cbn [mbind option_bind].
      rewrite bool_decide_true by done. rewrite Et, Z.eqb_refl. cbn [fst]. rewrite Exn, (proj2 (Z.eqb_neq x 0)) by done.
      unfold cas2 at 1. rewrite bool_decide_true by done.
      pose proof (lq_nodup _ _ _ _ _ HA) as [Hhns _]%NoDup_cons.
      destruct (lfq_take_turn 0 (set_tail (tick_count (q_tail q) x) q) h x ns' fs v vs) as (q' & E & HA').
      * assert (Hin : (q_tail q).1 ∉ x :: ns') by (rewrite Et; intros ?; apply Hhns, elem_of_app; by left).
        destruct HA. split; try done. exists [h]. cbn [q_tail set_tail tick_count fst].
        destruct Hpre as [E|(z & E)]; destruct pre as [|y pre]; [done| | |].
        -- exfalso. injection E as _ E. apply Hin. rewrite E. set_solver.
        -- injection E as _ -> ->. by left.
        -- exfalso. injection E as _ E. apply Hin. rewrite E. set_solver.
      * cbn. intros ->. apply Hhns. set_solver.
      * exists q'. split; [exact E|]. by exists x, ns', (h :: fs).
    + destruct (lfq_take_turn 1 q h x ns' fs v vs HA Hne) as (q' & E & HA'). exists q'. split; [exact E|].
      by exists x, ns', (h :: fs).
Qed.

(** The buffer of [n] nodes from [buf] on. *)
Lemma lfs_initialize_loop_spec n p q :
  0 < p -> 0 < entry_size q -> p + Z.of_nat n * entry_size q < 2 ^ 32 ->
  (forall i, 0 <= i <= Z.of_nat n -> is_Some (nodes q !! (p + i * entry_size q))) ->
  exists q', lfs_initialize_loop n p q = Some q' /\ q_head q' = q_head q /\ q_tail q' = q_tail q /\
    s_head q' = s_head q /\ dom (nodes q') = dom (nodes q) /\
    (forall x, x < p -> nodes q' !! x = nodes q !! x) /\
    path (nodes q') p ((λ i, p + i * entry_size q) <$> seqZ 0 (Z.of_nat n + 1)).
Proof.
  revert p q. induction n as [|n IH]; intros p q Hp He Hlt Hn; cbn [lfs_initialize_loop].
  - destruct (Hn 0 ltac:(lia)) as [nd Hnd]. replace (p + 0 * entry_size q) with p in Hnd by lia.
    rewrite (upd_some _ _ _ nd Hnd). eexists. split; [done|].
    cbn [q_head q_tail s_head nodes set_nodes]. split_and!; try done.
    + rewrite dom_insert_L. apply elem_of_dom_2 in Hnd. set_solver.
    + intros x Hx. by rewrite lookup_insert_ne by lia.
    + change (seqZ 0 (Z.of_nat 0 + 1)) with [0]. cbn [fmap list_fmap path]. split; [lia|]. split; [lia|].
      eexists. replace (p + 0 * entry_size q) with p by lia. rewrite lookup_insert_eq. done.
  - destruct (Hn 0 ltac:(lia)) as [nd Hnd]. replace (p + 0 * entry_size q) with p in Hnd by lia.
    rewrite u32_small by (unfold is_u32; nia). unfold upd. rewrite Hnd. cbn [mbind option_bind].
    set (q1 := set_nodes (<[p := set_nx (p + entry_size q) nd]> (nodes q)) q).
    destruct (IH (p + entry_size q) q1) as (q' & E & E1 & E2 & E3 & Ed & Ex & Hpath); [lia|done|cbn; lia| |].
    { intros i Hi. cbn. rewrite lookup_insert_ne by nia.
      replace (p + entry_size q + i * entry_size q) with (p + (i + 1) * entry_size q) by lia. apply Hn. lia. }
    exists q'. split; [exact E|]. split_and!; try done.
    + rewrite Ed. cbn. rewrite dom_insert_L. apply elem_of_dom_2 in Hnd. set_solver.
    + intros x Hx. rewrite Ex by lia. cbn. by rewrite lookup_insert_ne by lia.
    + rewrite (seqZ_cons 0) by lia. cbn [fmap list_fmap path]. split; [lia|]. split; [lia|].
      exists (set_nx (p + entry_size q) nd). replace (p + 0 * entry_size q) with p by lia.
      rewrite Ex by lia. cbn. rewrite lookup_insert_eq. split; [done|].
      replace (Z.pred (Z.of_nat (S n) + 1)) with (Z.of_nat n + 1) by lia.
      rewrite <- (fmap_add_seqZ 1 0), <- list_fmap_compose.
      erewrite list_fmap_ext; [exact Hpath|]. intros i x _. unfold compose. cbn. lia.
Qed.

Lemma lfq_initialize_spec q buf size num :
  let e := lfs_entry_size (lfq_node_size size - sizeof_lfs_entry_t) in
  0 < buf -> 0 < e -> 0 < num -> buf + num * e < 2 ^ 32 ->
  (forall i, 0 <= i < num -> is_Some (nodes q !! (buf + i * e))) ->
  exists q', lfq_initialize buf size num q = Some (QUEUE_OK, q') /\ lfq_ok q' [] (Z.to_nat (num - 1)).
Proof.
  intros e Hb He Hn Hlt Hnd. unfold lfq_initialize, lfs_initialize. fold e.
  set (q0 := Lfq (q_head q) (q_tail q) (buf, (s_head q).2) e (nodes q)).
  destruct (lfs_initialize_loop_spec (Z.to_nat (num - 1)) buf q0) as (q1 & -> & E1 & E2 & E3 & _ & _ & Hp);
    [done|done|cbn; nia|intros i Hi; cbn; apply Hnd; lia|].
  cbn [mbind option_bind]. replace (Z.of_nat (Z.to_nat (num - 1)) + 1) with num in Hp by lia.
  set (fs := (λ i, buf + i * entry_size q0) <$> seqZ 0 num) in Hp.
  assert (Hfs : NoDup fs) by (apply NoDup_fmap_2_strong; [cbn; intros; nia|apply NoDup_seqZ]).
  assert (Hlen : length fs = Z.to_nat num) by (unfold fs; rewrite length_fmap, length_seqZ; done).
  destruct (lfs_pop_spec q1 fs) as (q2 & -> & F1 & F2 & F3 & Hp2); [by rewrite E3|]. cbn [mbind option_bind].
  destruct fs as [|f fs]; [cbn in Hlen; lia|]. cbn [List.hd tail] in *.
  destruct Hp as (_ & Hf0 & fn & Hfn & _). rewrite (proj2 (Z.eqb_neq f 0)) by done.
  apply NoDup_cons in Hfs as [Hff Hnf]. unfold upd. rewrite F3, Hfn. cbn [mbind option_bind].
  eexists. split; [done|]. exists f, [], fs. cbn in Hlen. split; [|lia]. rewrite F3 in Hp2.
  split; cbn [q_head q_tail s_head nodes set_head set_tail set_nodes fst].
  - done.
  - cbn. split; [done|]. split; [done|]. eexists. rewrite lookup_insert_eq. done.
  - constructor.
  - exists []. by left.
  - by apply path_upd.
  - by apply NoDup_cons.
Qed.


(** ** Traces *)

Inductive lfq_call := LEnqueue (v : V) | LDequeue.

(** The code returned, and the value written through [value]. *)
Definition lfq_do q (c : lfq_call) : option (Z * option V * lfq_t V) :=
  match c with
  | LEnqueue v => '(r, q) ← lfq_enqueue v q; Some (r, None, q)
  | LDequeue => lfq_dequeue q
  end.

Fixpoint lfq_run q (cs : list lfq_call) : option (list (Z * option V)) :=
  match cs with
  | [] => Some []
  | c :: cs => '(r, v, q) ← lfq_do q c; l ← lfq_run q cs; Some ((r, v) :: l)
  end.

(** A first-in first-out queue with room for [n] more values. *)
Definition fifo_do (vs : list V) (n : nat) (c : lfq_call) : Z * option V * list V * nat :=
  match c, n, vs with
  | LEnqueue v, O, _ => (QUEUE_MEMORY, None, vs, n)
  | LEnqueue v, S n, _ => (QUEUE_OK, None, vs ++ [v], n)
  | LDequeue, _, [] => (QUEUE_EMPTY, None, [], n)
  | LDequeue, _, v :: vs => (QUEUE_OK, Some v, vs, S n)
  end.

Fixpoint fifo_run (vs : list V) (n : nat) (cs : list lfq_call) : list (Z * option V) :=
  match cs with
  | [] => []
  | c :: cs => let '(r, v, vs, n) := fifo_do vs n c in (r, v) :: fifo_run vs n cs
  end.

Lemma lfq_run_spec cs : forall q vs n, lfq_ok q vs n -> lfq_run q cs = Some (fifo_run vs n cs).
Proof.
  induction cs as [|c cs IH]; intros q vs n Hok; [done|]. cbn [lfq_run fifo_run]. destruct c as [v|]; cbn [lfq_do fifo_do].
  - pose proof (lfq_enqueue_spec q vs n v Hok) as H. destruct n as [|n]; destruct H as (q' & -> & Hok'); cbn [mbind option_bind];
      by rewrite (IH q' _ _ Hok').
  - pose proof (lfq_dequeue_spec q vs n Hok) as H. destruct vs as [|v vs]; destruct H as (q' & -> & Hok'); cbn [mbind option_bind];
      rewrite (IH q' _ _ Hok'); by destruct n.
Qed.

(** C32: the lock-free queue is a bounded first-in first-out queue.  Over a
    buffer of [num] nodes, one of which is the dummy, it answers every
    sequence of calls as a list that holds at most [num - 1] values: values
    come out once, in the order they went in, an enqueue without a free node
    is refused with [QUEUE_MEMORY], a dequeue without a value with
    [QUEUE_EMPTY], and a node that is freed can be used again.  Every loop
    ends, in two turns at most. *)
Theorem lfq_bounded_fifo q buf size num cs :
  let e := lfs_entry_size (lfq_node_size size - sizeof_lfs_entry_t) in
  0 < buf -> 0 < e -> 0 < num -> buf + num * e < 2 ^ 32 ->
  (forall i, 0 <= i < num -> is_Some (nodes q !! (buf + i * e))) ->
  exists q', lfq_initialize buf size num q = Some (QUEUE_OK, q') /\
    lfq_run q' cs = Some (fifo_run [] (Z.to_nat (num - 1)) cs).
Proof.
  intros e Hb He Hn Hlt Hnodes. destruct (lfq_initialize_spec q buf size num Hb He Hn Hlt Hnodes) as (q' & E & Hok).
  exists q'. split; [done|]. by apply lfq_run_spec.
Qed.

End Invariant.

(** Three nodes of 12 bytes. *)
Definition demo_lfq : lfq_t Z := Lfq (0, 0) (0, 0) (0, 0) 0 {[64 := Node 0 0 0; 76 := Node 0 0 0; 88 := Node 0 0 0]}.

Lemma lfq_bounded_fifo_witness :
  exists q', lfq_initialize 64 4 3 demo_lfq = Some (QUEUE_OK, q') /\
    lfq_run q' [LDequeue; LEnqueue 5; LEnqueue 6; LEnqueue 7; LDequeue; LEnqueue 8; LDequeue; LDequeue; LDequeue] =
      Some [(-1, None); (0, None); (0, None); (-2, None); (0, Some 5); (0, None); (0, Some 6); (0, Some 8); (-1, None)].
Proof.
  refine (lfq_bounded_fifo demo_lfq 64 4 3
    [LDequeue; LEnqueue 5; LEnqueue 6; LEnqueue 7; LDequeue; LEnqueue 8; LDequeue; LDequeue; LDequeue] _ _ _ _ _); try by vm_compute.
  intros i Hi. assert (i = 0 \/ i = 1 \/ i = 2) as [->|[-> | ->]] by lia; by eexists.
Defined.
