(* ===== verification/Ring.v ===== *)
(** * Ring buffers (lib/libnc/set/ring.c, include/set/ring.h)

    A buffer of [size] characters between two positions; one character stays
    unused, so that a full buffer differs from an empty one.  Both copies
    run in at most two pieces, before and after the end of the buffer. *)

From S2P Require Import Prelude.

Record ring_t := Ring {
  rd : Z;
  wr : Z;
  rsize : Z;
  rbuf : list Z;
}.

(** [read], [write] and [size] of the header are three words. *)
Definition sizeof_ring_t : Z := 12.
Definition sizeof_ring_chr_t : Z := 1.

Definition cutdown (ring : ring_t) (n : Z) : Z := if rsize ring <=? n then 0 else n.

Definition min (a b : Z) : Z := if a <? b then a else b.

(** The characters behind the header are [buf]. *)
Definition ring_create (buf : list Z) (size : Z) : option ring_t :=
  if size <=? sizeof_ring_t + sizeof_ring_chr_t then None
  else Some (Ring 0 0 (size - sizeof_ring_t) buf).

Definition ring_get_rest (ring : ring_t) : Z :=
  if rd ring <=? wr ring then rsize ring - wr ring + rd ring - 1 else rd ring - wr ring - 1.

(** [memcpy] of a part of the buffer; [None] when it would leave it. *)
Definition slice (off len : Z) (l : list Z) : option (list Z) :=
  if (0 <=? off) && (0 <=? len) && (off + len <=? Z.of_nat (length l))
  then Some (take (Z.to_nat len) (drop (Z.to_nat off) l)) else None.

Definition splice (off : Z) (data l : list Z) : option (list Z) :=
  if (0 <=? off) && (off + Z.of_nat (length data) <=? Z.of_nat (length l))
  then Some (take (Z.to_nat off) l ++ data ++ drop (Z.to_nat off + length data) l) else None.

(** The loop of [ring_get]; [out] is what has been copied. *)
Fixpoint ring_get_loop (n : nat) (ring : ring_t) (size rest : Z) (out : list Z) : option (Z * list Z * ring_t) :=
  if rest =? 0 then Some (size - rest, out, ring)
  else
    match n with
    | O => None
    | S n =>
        let last := rd ring <=? wr ring in
        let len := if last then wr ring - rd ring else rsize ring - rd ring in
        if len =? 0 then Some (size - rest, out, ring)
        else
          let len := min len rest in
          piece ← slice (rd ring) len (rbuf ring);
          let ring := Ring (cutdown ring (rd ring + len)) (wr ring) (rsize ring) (rbuf ring) in
          let rest := rest - len in
          if last then Some (size - rest, out ++ piece, ring)
          else ring_get_loop n ring size rest (out ++ piece)
    end.

Definition ring_get (ring : ring_t) (size : Z) : option (Z * list Z * ring_t) := ring_get_loop 2 ring size size [].

Fixpoint ring_put_loop (n : nat) (ring : ring_t) (buf : list Z) (size rest : Z) : option (Z * ring_t) :=
  if rest =? 0 then Some (size - rest, ring)
  else
    match n with
    | O => None
    | S n =>
        let '(len, last) :=
          if rd ring <=? wr ring then
            let len := rsize ring - wr ring in
            if rd ring =? 0 then (len - 1, true) else (len, false)
          else (rd ring - wr ring - 1, true) in
        if len =? 0 then Some (size - rest, ring)
        else
          let len := min len rest in
          piece ← slice (size - rest) len buf;
          b ← splice (wr ring) piece (rbuf ring);
          let ring := Ring (rd ring) (cutdown ring (wr ring + len)) (rsize ring) b in
          let rest := rest - len in
          if last then Some (size - rest, ring)
          else ring_put_loop n ring buf size rest
    end.

Definition ring_put (ring : ring_t) (buf : list Z) (size : Z) : option (Z * ring_t) :=
  ring_put_loop 2 ring buf size size.

(** ** Invariant *)

(** The characters of [l] from [a] to [b]. *)
Definition piece (a b : Z) (l : list Z) : list Z := take (Z.to_nat (b - a)) (drop (Z.to_nat a) l).

(** What has been put and not yet got. *)
Definition contents (r : ring_t) : list Z :=
  if rd r <=? wr r then piece (rd r) (wr r) (rbuf r)
  else piece (rd r) (rsize r) (rbuf r) ++ piece 0 (wr r) (rbuf r).

Definition ring_ok (r : ring_t) : Prop :=
  0 < rsize r /\ Z.of_nat (length (rbuf r)) = rsize r /\ 0 <= rd r < rsize r /\ 0 <= wr r < rsize r.

Lemma length_piece a b l : 0 <= a <= b -> b <= Z.of_nat (length l) -> Z.of_nat (length (piece a b l)) = b - a.
Proof. intros. unfold piece. rewrite length_take, length_drop. lia. Qed.

Lemma piece_split a b c l : 0 <= a <= b -> b <= c -> piece a c l = piece a b l ++ piece b c l.
Proof.
  intros. unfold piece. replace (Z.to_nat (c - a)) with (Z.to_nat (b - a) + Z.to_nat (c - b))%nat by lia.
  rewrite <- take_take_drop, drop_drop. do 3 f_equal. lia.
Qed.

Lemma slice_piece a n l : 0 <= a -> 0 <= n -> a + n <= Z.of_nat (length l) -> slice a n l = Some (piece a (a + n) l).
Proof.
  intros. unfold slice, piece. rewrite !(proj2 (Z.leb_le _ _)) by lia. cbn. do 2 f_equal. lia.
Qed.

Lemma contents_length r : ring_ok r -> Z.of_nat (length (contents r)) = rsize r - 1 - ring_get_rest r.
Proof.
  intros (H0 & Hl & Hr & Hw). unfold contents, ring_get_rest. destruct (Z.leb_spec (rd r) (wr r)).
  - rewrite length_piece by lia. lia.
  - rewrite length_app, Nat2Z.inj_add, !length_piece by lia. lia.
Qed.

Lemma min_spec a b : min a b = Z.min a b.
Proof. unfold min. destruct (Z.ltb_spec a b); lia. Qed.

Lemma cutdown_spec r n : n <= rsize r -> cutdown r n = if decide (n = rsize r) then 0 else n.
Proof. intros. unfold cutdown. destruct (Z.leb_spec (rsize r) n), (decide (n = rsize r)); lia. Qed.

Lemma take_piece k a b l : 0 <= k <= b - a -> 0 <= a -> take (Z.to_nat k) (piece a b l) = piece a (a + k) l.
Proof. intros. unfold piece. rewrite take_take. f_equal. lia. Qed.

Lemma drop_piece k a b l : 0 <= k <= b - a -> 0 <= a -> drop (Z.to_nat k) (piece a b l) = piece (a + k) b l.
Proof.
  intros. unfold piece. replace (Z.to_nat (b - a)) with (Z.to_nat k + Z.to_nat (b - (a + k)))%nat by lia.
  rewrite <- take_drop_commute, drop_drop. do 2 f_equal. lia.
Qed.

(** ** Getting characters *)

(** What [ring_get] promises for a request of [rest] characters. *)
Definition got (r : ring_t) (size rest : Z) (out : list Z) (res : option (Z * list Z * ring_t)) : Prop :=
  exists r', let n := Z.min rest (Z.of_nat (length (contents r))) in
    res = Some (size - rest + n, out ++ take (Z.to_nat n) (contents r), r') /\ ring_ok r' /\
    contents r' = drop (Z.to_nat n) (contents r) /\ rsize r' = rsize r.

Lemma ring_get_done n r size out : ring_ok r -> got r size 0 out (ring_get_loop n r size 0 out).
Proof.
  intros Hr. exists r. rewrite Z.min_l by lia. change (Z.to_nat 0) with 0%nat. cbn zeta.
  rewrite take_0, drop_0, app_nil_r. split_and!; try done. destruct n; cbn [ring_get_loop]; do 3 f_equal; lia.
Qed.

Lemma ring_get_last n r size rest out :
  ring_ok r -> rd r <= wr r -> 0 < rest -> got r size rest out (ring_get_loop (S n) r size rest out).
Proof.
  intros Hr Hle Hrest. pose proof Hr as (H0 & Hl & Hrd & Hwr). pose proof (contents_length r Hr) as Hlen.
  unfold ring_get_rest in Hlen. cbn [ring_get_loop]. rewrite (proj2 (Z.eqb_neq rest 0)) by lia.
  rewrite (proj2 (Z.leb_le (rd r) (wr r))) in * by lia. unfold got, contents. rewrite (proj2 (Z.leb_le (rd r) (wr r))) by lia.
  unfold contents in Hlen. rewrite (proj2 (Z.leb_le (rd r) (wr r))) in Hlen by lia. rewrite Hlen.
  destruct (Z.eqb_spec (wr r - rd r) 0) as [E|E].
  { exists r. rewrite Z.min_r by lia. replace (rsize r - 1 - _) with 0 by lia. change (Z.to_nat 0) with 0%nat. cbn zeta.
    rewrite take_0, drop_0, app_nil_r. split_and!; try done; [do 3 f_equal; lia|].
    by rewrite (proj2 (Z.leb_le (rd r) (wr r))) by lia. }
  rewrite min_spec. replace (rsize r - 1 - (rsize r - wr r + rd r - 1)) with (wr r - rd r) by lia.
  rewrite Z.min_comm. set (k := Z.min rest (wr r - rd r)). rewrite slice_piece by lia. cbn [mbind option_bind].
  rewrite cutdown_spec, decide_False by lia. eexists. cbn zeta. rewrite take_piece, drop_piece by lia.
  split; [do 3 f_equal; lia|]. cbn [rd wr rsize rbuf]. split; [repeat split; cbn; lia|].
  by rewrite (proj2 (Z.leb_le (rd r + k) (wr r))) by lia.
Qed.

Lemma ring_get_spec r size : ring_ok r -> 0 <= size -> got r size size [] (ring_get r size).
Proof.
  intros Hr Hs. unfold ring_get. destruct (decide (size = 0)) as [->|Hs0]; [by apply ring_get_done|].
  destruct (decide (rd r <= wr r)) as [Hle|Hgt]; [apply ring_get_last; [done|done|lia]|].
  pose proof Hr as (H0 & Hl & Hrd & Hwr). pose proof (contents_length r Hr) as Hlen. unfold ring_get_rest in Hlen.
  rewrite (proj2 (Z.leb_gt (rd r) (wr r))) in Hlen by lia.
  set (one := 1%nat). cbn [ring_get_loop]. rewrite (proj2 (Z.eqb_neq size 0)) by lia.
  rewrite (proj2 (Z.leb_gt (rd r) (wr r))), (proj2 (Z.eqb_neq (rsize r - rd r) 0)) by lia.
  rewrite min_spec. set (k := Z.min (rsize r - rd r) size). rewrite slice_piece by lia. cbn [mbind option_bind app].
  set (r1 := Ring _ _ _ _). assert (Hr1 : ring_ok r1).
  { unfold r1. rewrite cutdown_spec by lia. destruct (decide _); repeat split; cbn; lia. }
  assert (Hc : contents r = piece (rd r) (rd r + k) (rbuf r) ++ contents r1 /\ rd r1 <= wr r1 \/
               contents r = piece (rd r) (rd r + k) (rbuf r) ++ contents r1 /\ k = size).
  { unfold contents at 1 3. rewrite (proj2 (Z.leb_gt (rd r) (wr r))) by lia. unfold contents, r1. cbn [rd wr rsize rbuf].
    rewrite cutdown_spec by lia. destruct (decide (rd r + k = rsize r)) as [E|E].
    - left. rewrite (proj2 (Z.leb_le 0 (wr r))) by lia. rewrite E. split; [done|lia].
    - right. rewrite (proj2 (Z.leb_gt (rd r + k) (wr r))) by lia. rewrite (piece_split (rd r) (rd r + k) (rsize r)) by lia.
      rewrite app_assoc. split; [done|lia]. }
  assert (Hg : got r1 size (size - k) (piece (rd r) (rd r + k) (rbuf r))
                 (ring_get_loop one r1 size (size - k) (piece (rd r) (rd r + k) (rbuf r)))).
  { destruct (decide (size - k = 0)) as [->|]; [by apply ring_get_done|]. apply ring_get_last; [done| |lia].
    destruct Hc as [[_ ?]|[_ ?]]; lia. }
  assert (Hcc : contents r = piece (rd r) (rd r + k) (rbuf r) ++ contents r1) by (destruct Hc as [[? _]|[? _]]; done).
  assert (Hpk : Z.of_nat (length (piece (rd r) (rd r + k) (rbuf r))) = k) by (rewrite length_piece; lia).
  destruct Hg as (r' & -> & Hr' & Hd & Hsz). exists r'. cbn zeta. cbn [app]. rewrite Hcc, length_app, Nat2Z.inj_add, Hpk.
  replace (Z.min size (k + Z.of_nat (length (contents r1)))) with (k + Z.min (size - k) (Z.of_nat (length (contents r1)))) by lia.
  set (m := Z.min _ _). rewrite take_app, drop_app. rewrite (take_ge (piece _ _ _)), (drop_ge (piece _ _ _)) by lia.
  replace (Z.to_nat (k + m) - _)%nat with (Z.to_nat m) by lia.
  split; [do 3 f_equal; lia|]. split_and!; try done.
Qed.

(** ** Putting characters *)

Lemma splice_spec off data l :
  0 <= off -> off + Z.of_nat (length data) <= Z.of_nat (length l) ->
  exists l', splice off data l = Some l' /\ length l' = length l /\
    piece off (off + Z.of_nat (length data)) l' = data /\
    forall a b, 0 <= a <= b -> b <= off \/ off + Z.of_nat (length data) <= a -> piece a b l' = piece a b l.
Proof.
  intros H0 Hle. unfold splice. rewrite !(proj2 (Z.leb_le _ _)) by lia. cbn [andb]. eexists. split; [done|].
  assert (Ht : length (take (Z.to_nat off) l) = Z.to_nat off) by (rewrite length_take; lia).
  split_and!.
  - rewrite !length_app, Ht, length_drop. lia.
  - unfold piece. rewrite drop_app_ge, Ht, Nat.sub_diag, drop_0, take_app by lia.
    rewrite (take_ge data) by lia. replace (Z.to_nat (off + Z.of_nat (length data) - off) - length data)%nat with 0%nat by lia.
    by rewrite take_0, app_nil_r.
  - intros a b Hab Hd. unfold piece. destruct Hd as [Hd|Hd].
    + rewrite !take_drop_commute. f_equal. rewrite take_app_le by lia. rewrite take_take. f_equal. lia.
    + rewrite drop_app_ge by lia. rewrite drop_app_ge by lia. rewrite drop_drop, Ht. do 2 f_equal. lia.
Qed.

(** The room of one turn. *)
Definition room (r : ring_t) : Z :=
  if rd r <=? wr r then (if rd r =? 0 then rsize r - wr r - 1 else rsize r - wr r) else rd r - wr r - 1.

Lemma put_turn r data :
  ring_ok r -> Z.of_nat (length data) <= room r ->
  exists b, splice (wr r) data (rbuf r) = Some b /\
    let r' := Ring (rd r) (cutdown r (wr r + Z.of_nat (length data))) (rsize r) b in
    (0 < length data)%nat -> ring_ok r' /\ contents r' = contents r ++ data.
Proof.
  intros (H0 & Hl & Hrd & Hwr) Hroom. unfold room in Hroom.
  assert (Hfit : wr r + Z.of_nat (length data) <= rsize r).
  { destruct (Z.leb_spec (rd r) (wr r)), (Z.eqb_spec (rd r) 0); lia. }
  destruct (splice_spec (wr r) data (rbuf r)) as (b & -> & Hlb & Hd & Ho); [lia|lia|].
  exists b. split; [done|]. cbn zeta. intros Hn. rewrite cutdown_spec by lia. split.
  { destruct (decide _); repeat split; cbn; lia. }
  unfold contents. cbn [rd wr rsize rbuf]. set (k := Z.of_nat (length data)) in *.
  destruct (Z.leb_spec (rd r) (wr r)) as [Hle|Hgt].
  - destruct (decide (wr r + k = rsize r)) as [E|E].
    + destruct (Z.eqb_spec (rd r) 0); [lia|]. rewrite (proj2 (Z.leb_gt (rd r) 0)) by lia.
      rewrite (piece_split (rd r) (wr r) (rsize r)) by lia. rewrite <- E, Hd, Ho by lia.
      unfold piece at 2. cbn. by rewrite app_nil_r.
    + rewrite (proj2 (Z.leb_le (rd r) (wr r + k))) by lia. rewrite (piece_split (rd r) (wr r) (wr r + k)) by lia.
      by rewrite Hd, Ho by lia.
  - rewrite decide_False by lia. rewrite (proj2 (Z.leb_gt (rd r) (wr r + k))) by lia.
    rewrite (piece_split 0 (wr r) (wr r + k)) by lia. rewrite Hd, !Ho by lia. by rewrite app_assoc.
Qed.

Definition has_put (r : ring_t) (buf : list Z) (size rest : Z) (res : option (Z * ring_t)) : Prop :=
  exists r', let n := Z.min rest (ring_get_rest r) in
    res = Some (size - rest + n, r') /\ ring_ok r' /\
    contents r' = contents r ++ piece (size - rest) (size - rest + n) buf /\ rsize r' = rsize r.

Lemma ring_rest_nonneg r : ring_ok r -> 0 <= ring_get_rest r.
Proof. intros (H0 & Hl & Hrd & Hwr). unfold ring_get_rest. destruct (Z.leb_spec (rd r) (wr r)); lia. Qed.

Lemma ring_put_done n r buf size : ring_ok r -> has_put r buf size 0 (ring_put_loop n r buf size 0).
Proof.
  intros Hr. pose proof (ring_rest_nonneg r Hr). exists r. rewrite Z.min_l by lia. cbn zeta. split_and!; try done.
  - destruct n; cbn [ring_put_loop]; do 2 f_equal; lia.
  - unfold piece. replace (Z.to_nat (size - 0 + 0 - (size - 0))) with 0%nat by lia. by rewrite take_0, app_nil_r.
Qed.

(** A turn that is the last. *)
Lemma ring_put_last n r buf size rest :
  ring_ok r -> Z.of_nat (length buf) = size -> 0 < rest <= size -> (wr r < rd r \/ rd r = 0) ->
  has_put r buf size rest (ring_put_loop (S n) r buf size rest).
Proof.
  intros Hr Hb Hrest Hlast. pose proof Hr as (H0 & Hl & Hrd & Hwr). pose proof (ring_rest_nonneg r Hr) as Hnn.
  cbn [ring_put_loop]. rewrite (proj2 (Z.eqb_neq rest 0)) by lia.
  assert (Eif : (if rd r <=? wr r then if rd r =? 0 then (rsize r - wr r - 1, true) else (rsize r - wr r, false)
                 else (rd r - wr r - 1, true)) = (ring_get_rest r, true) /\ room r = ring_get_rest r).
  { unfold room, ring_get_rest. destruct (Z.leb_spec (rd r) (wr r)), (Z.eqb_spec (rd r) 0); try lia;
      (split; [f_equal|]; lia). }
  destruct Eif as [-> Eroom]. destruct (Z.eqb_spec (ring_get_rest r) 0) as [E|E].
  { exists r. rewrite Z.min_r by lia. cbn zeta. split_and!; try done; [do 2 f_equal; lia|].
    unfold piece. rewrite E. replace (Z.to_nat (size - rest + 0 - (size - rest))) with 0%nat by lia.
    by rewrite take_0, app_nil_r. }
  rewrite min_spec, slice_piece by lia. cbn [mbind option_bind]. rewrite (Z.min_comm (ring_get_rest r)).
  set (k := Z.min rest (ring_get_rest r)). set (data := piece (size - rest) (size - rest + k) buf).
  assert (Hk : Z.of_nat (length data) = k) by (unfold data; rewrite length_piece; lia).
  destruct (put_turn r data Hr) as (b & -> & Hok); [lia|]. cbn [mbind option_bind]. rewrite Hk in Hok.
  destruct Hok as [Hr1 Hc1]; [lia|]. eexists. cbn zeta. split; [do 2 f_equal; lia|]. done.
Qed.

Lemma ring_put_spec r buf :
  ring_ok r -> has_put r buf (Z.of_nat (length buf)) (Z.of_nat (length buf)) (ring_put r buf (Z.of_nat (length buf))).
Proof.
  intros Hr. set (size := Z.of_nat (length buf)). unfold ring_put.
  destruct (decide (size = 0)) as [E|Hs0]; [rewrite E; by apply ring_put_done|].
  destruct (decide (wr r < rd r \/ rd r = 0)) as [Hl|Hnl]; [apply ring_put_last; [done|done|lia|done]|].
  pose proof Hr as (H0 & Hl & Hrd & Hwr). set (one := 1%nat). cbn [ring_put_loop].
  rewrite (proj2 (Z.eqb_neq size 0)), (proj2 (Z.leb_le (rd r) (wr r))), (proj2 (Z.eqb_neq (rd r) 0)) by lia.
  rewrite (proj2 (Z.eqb_neq (rsize r - wr r) 0)), min_spec, slice_piece by lia. cbn [mbind option_bind].
  set (k := Z.min (rsize r - wr r) size). set (data := piece (size - size) (size - size + k) buf).
  assert (Hk : Z.of_nat (length data) = k) by (unfold data; rewrite length_piece; lia).
  destruct (put_turn r data Hr) as (b & -> & Hok).
  { unfold room. rewrite (proj2 (Z.leb_le (rd r) (wr r))), (proj2 (Z.eqb_neq (rd r) 0)) by lia. lia. }
  cbn [mbind option_bind]. rewrite Hk in Hok. destruct Hok as [Hr1 Hc1]; [lia|]. set (r1 := Ring _ _ _ _) in *.
  assert (Hrest1 : ring_get_rest r1 = ring_get_rest r - k).
  { pose proof (contents_length r Hr) as L0. pose proof (contents_length r1 Hr1) as L1.
    rewrite Hc1, length_app, Nat2Z.inj_add, Hk in L1. change (rsize r1) with (rsize r) in L1. lia. }
  assert (Hg : has_put r1 buf size (size - k) (ring_put_loop one r1 buf size (size - k))).
  { destruct (decide (size - k = 0)) as [->|]; [by apply ring_put_done|]. apply ring_put_last; [done|done|lia|].
    left. unfold r1. cbn [wr rd]. rewrite cutdown_spec, decide_True by lia. lia. }
  destruct Hg as (r' & -> & Hr' & Hd & Hsz). exists r'. cbn zeta. rewrite Hrest1 in Hd |- *.
  replace (Z.min size (ring_get_rest r)) with (k + Z.min (size - k) (ring_get_rest r - k)) by lia.
  assert (Hge : 0 <= ring_get_rest r - k) by (rewrite <- Hrest1; by apply ring_rest_nonneg).
  set (m := Z.min (size - k) (ring_get_rest r - k)) in *. split; [do 2 f_equal; lia|]. split; [done|]. split; [|done].
  rewrite Hd, Hc1, <- app_assoc. f_equal. unfold data. rewrite (piece_split (size - size) (size - size + k) (size - size + (k + m))) by lia.
  f_equal. f_equal; lia.
Qed.

(** ** Properties *)

(** A ring buffer is a queue of characters.  In every state the buffer
    can be in, putting [buf] appends as many of its characters as there is
    room for and returns their number, getting [size] characters removes the
    oldest ones, in order, as many as there are; neither copy leaves the
    buffer, both end after two pieces at most, and the characters held and
    the rest always add up to one less than the size. *)
Theorem ring_queue r buf size :
  ring_ok r -> 0 <= size ->
  (exists r', let n := Z.min (Z.of_nat (length buf)) (ring_get_rest r) in
     ring_put r buf (Z.of_nat (length buf)) = Some (n, r') /\ ring_ok r' /\
     contents r' = contents r ++ take (Z.to_nat n) buf /\ rsize r' = rsize r) /\
  (exists r', let n := Z.min size (Z.of_nat (length (contents r))) in
     ring_get r size = Some (n, take (Z.to_nat n) (contents r), r') /\ ring_ok r' /\
     contents r' = drop (Z.to_nat n) (contents r) /\ rsize r' = rsize r) /\
  Z.of_nat (length (contents r)) + ring_get_rest r = rsize r - 1.
Proof.
  intros Hr Hs. split_and!.
  - destruct (ring_put_spec r buf Hr) as (r' & E & Hr' & Hc & Hz). exists r'. cbn zeta in *. rewrite E.
    split; [do 2 f_equal; lia|]. split_and!; try done. rewrite Hc. f_equal. unfold piece.
    rewrite Z.sub_diag. change (Z.to_nat 0) with 0%nat. rewrite drop_0. f_equal. lia.
  - destruct (ring_get_spec r size Hr Hs) as (r' & E & Hr' & Hc & Hz). exists r'. cbn zeta in *. rewrite E.
    split; [do 3 f_equal; lia|]. done.
  - pose proof (contents_length r Hr). lia.
Qed.

(** A buffer whose characters go around its end. *)
Definition demo_ring : ring_t := Ring 5 2 8 [13; 14; 0; 0; 0; 10; 11; 12].

Lemma ring_queue_witness :
  (exists r', let n := Z.min 3 (ring_get_rest demo_ring) in
     ring_put demo_ring [1; 2; 3] 3 = Some (n, r') /\ ring_ok r' /\
     contents r' = contents demo_ring ++ take (Z.to_nat n) [1; 2; 3] /\ rsize r' = rsize demo_ring) /\
  contents demo_ring = [10; 11; 12; 13; 14].
Proof.
  split; [|reflexivity]. apply (ring_queue demo_ring [1; 2; 3] 4); [|lia]. repeat split; cbn; lia.
Defined.
