(* ===== verification/Heap.v ===== *)
(** * Binary heaps (lib/libnc/set/heap.c, include/set/heap.h)

    A heap of integers in an array, the smallest first: the children of the
    element at [i] are at [2i + 1] and [2i + 2]. *)

From S2P Require Import Prelude.

Definition HEAP_OK : Z := 0.
Definition HEAP_FULL : Z := 1.
Definition HEAP_EMPTY : Z := -1.

Record heap_t := Heap { cnt : Z; max : Z; buf : list Z }.

(** Accesses by index; outside of the array they are undefined. *)
Definition get (b : list Z) (i : Z) : option Z := if i <? 0 then None else b !! Z.to_nat i.

Definition put (b : list Z) (i v : Z) : option (list Z) :=
  _ ← get b i; Some (<[Z.to_nat i := v]> b).

Definition heap_initialize (m : Z) (b : list Z) : heap_t := Heap 0 m b.

Definition heap_head (h : heap_t) : option Z :=
  if negb (cnt h =? 0) then get (buf h) 0 else Some HEAP_EMPTY.

(** The loop of [heap_enqueue]: the element at [c] rises. *)
Fixpoint rise (n : nat) (c : Z) (b : list Z) : option (list Z) :=
  if 0 <? c then
    match n with
    | O => None
    | S n =>
        let p := Z.shiftr (c - 1) 1 in
        v1 ← get b c;
        v2 ← get b p;
        if v1 <? v2 then
          b ← put b p v1;
          b ← put b c v2;
          rise n p b
        else Some b
    end
  else Some b.

Definition heap_enqueue (h : heap_t) (val : Z) : option (Z * heap_t) :=
  let c := cnt h in
  if max h <=? c then Some (HEAP_FULL, h)
  else
    b ← put (buf h) c val;
    b ← rise (Z.to_nat c) c b;
    Some (HEAP_OK, Heap (s32 (cnt h + 1)) (max h) b).

(** The loop of [heap_dequeue]: the element at [p] of [n] elements sinks. *)
Fixpoint sink (f : nat) (p n : Z) (b : list Z) : option (list Z) :=
  let c := Z.shiftl p 1 + 1 in
  if c <? n then
    match f with
    | O => None
    | S f =>
        v1 ← get b c;
        '(c, v1) ← (if c + 1 <? n then
                      v2 ← get b (c + 1);
                      Some (if v2 <? v1 then (c + 1, v2) else (c, v1))
                    else Some (c, v1));
        v2 ← get b p;
        if v1 <? v2 then
          b ← put b p v1;
          b ← put b c v2;
          sink f c n b
        else Some b
    end
  else Some b.

Definition heap_dequeue (h : heap_t) : option (Z * heap_t) :=
  if negb (cnt h =? 0) then
    val ← get (buf h) 0;
    let n := cnt h - 1 in
    v ← get (buf h) n;
    b ← put (buf h) 0 v;
    b ← sink (Z.to_nat n) 0 n b;
    Some (val, Heap n (max h) b)
  else Some (HEAP_EMPTY, h).

(** ** Invariant *)

Definition at_ (b : list Z) (i : Z) : Z := default 0 (b !! Z.to_nat i).

Definition parent (i : Z) : Z := (i - 1) / 2.

(** The heap order, except between [x] and its parent. *)
Definition ordered_but (x : Z) (n : Z) (b : list Z) : Prop :=
  forall i, 0 < i < n -> i ≠ x -> at_ b (parent i) <= at_ b i.

Definition ordered (n : Z) (b : list Z) : Prop := forall i, 0 < i < n -> at_ b (parent i) <= at_ b i.

Record heap_ok (h : heap_t) : Prop := {
  ho_max : Z.of_nat (length (buf h)) = max h;
  ho_cnt : 0 <= cnt h <= max h;
  ho_int : max h < 2 ^ 31;
  ho_ordered : ordered (cnt h) (buf h);
}.

(** The elements of the heap, in the order of the array. *)
Definition items (h : heap_t) : list Z := take (Z.to_nat (cnt h)) (buf h).

Lemma get_at b i : 0 <= i < Z.of_nat (length b) -> get b i = Some (at_ b i).
Proof.
  intros Hi. unfold get, at_. rewrite (proj2 (Z.ltb_ge i 0)) by lia.
  destruct (lookup_lt_is_Some_2 b (Z.to_nat i)) as [v Hv]; [lia|]. by rewrite Hv.
Qed.

Lemma put_at b i v : 0 <= i < Z.of_nat (length b) -> put b i v = Some (<[Z.to_nat i := v]> b).
Proof. intros Hi. unfold put. by rewrite get_at. Qed.

Lemma at_put b i j v : 0 <= i < Z.of_nat (length b) -> 0 <= j ->
  at_ (<[Z.to_nat i := v]> b) j = if decide (j = i) then v else at_ b j.
Proof.
  intros Hi Hj. unfold at_. destruct (decide (j = i)) as [->|].
  - by rewrite list_lookup_insert_eq by lia.
  - by rewrite list_lookup_insert_ne by lia.
Qed.

(** Exchanging two elements. *)
Definition swap (b : list Z) (i j : Z) : list Z :=
  <[Z.to_nat j := at_ b i]> (<[Z.to_nat i := at_ b j]> b).

Lemma at_swap b i j k : 0 <= i < Z.of_nat (length b) -> 0 <= j < Z.of_nat (length b) -> 0 <= k ->
  at_ (swap b i j) k = if decide (k = j) then at_ b i else if decide (k = i) then at_ b j else at_ b k.
Proof.
  intros Hi Hj Hk. unfold swap. rewrite at_put by (rewrite ?length_insert; lia). by rewrite at_put by lia.
Qed.

Lemma length_swap b i j : length (swap b i j) = length b.
Proof. unfold swap. by rewrite !length_insert. Qed.

Lemma delete_insert_same (b : list Z) k v : delete k (<[k := v]> b) = delete k b.
Proof. rewrite !delete_take_drop, take_insert_ge, drop_insert_lt by lia. done. Qed.

Lemma swap_perm b i j : 0 <= i < Z.of_nat (length b) -> 0 <= j < Z.of_nat (length b) -> i ≠ j -> swap b i j ≡ₚ b.
Proof.
  intros Hi Hj Hne. unfold swap, at_.
  destruct (lookup_lt_is_Some_2 b (Z.to_nat i)) as [x Hx]; [lia|].
  destruct (lookup_lt_is_Some_2 b (Z.to_nat j)) as [y Hy]; [lia|]. rewrite Hx, Hy. cbn.
  set (b1 := <[Z.to_nat i := y]> b).
  assert (Hy1 : b1 !! Z.to_nat j = Some y) by (unfold b1; by rewrite list_lookup_insert_ne by lia).
  assert (E1 : y :: b ≡ₚ x :: b1).
  { rewrite (delete_Permutation b (Z.to_nat i) x Hx) at 1.
    rewrite (delete_Permutation b1 (Z.to_nat i) y) by (unfold b1; apply list_lookup_insert_eq; lia).
    unfold b1. rewrite delete_insert_same. apply Permutation_swap. }
  assert (E2 : x :: b1 ≡ₚ y :: <[Z.to_nat j := x]> b1).
  { rewrite (delete_Permutation b1 (Z.to_nat j) y Hy1) at 1.
    rewrite (delete_Permutation (<[Z.to_nat j := x]> b1) (Z.to_nat j) x) by (apply list_lookup_insert_eq; apply lookup_lt_Some in Hy1; lia).
    rewrite delete_insert_same. apply Permutation_swap. }
  apply (Permutation_cons_inv (a := y)). by rewrite <- E2, <- E1.
Qed.

(** ** The loops *)

(** [b'] is [b] with its first [n] elements in another order. *)
Definition reordered (n : Z) (b b' : list Z) : Prop :=
  b' ≡ₚ b /\ drop (Z.to_nat n) b' = drop (Z.to_nat n) b.

Lemma reordered_take n b b' : reordered n b b' -> take (Z.to_nat n) b' ≡ₚ take (Z.to_nat n) b.
Proof.
  intros [Hp Hd]. apply (Permutation_app_inv_r (drop (Z.to_nat n) b)).
  by rewrite take_drop, <- Hd, take_drop.
Qed.

Lemma reordered_swap n b i j b' :
  0 <= i < n -> 0 <= j < n -> n <= Z.of_nat (length b) -> i ≠ j -> reordered n (swap b i j) b' -> reordered n b b'.
Proof.
  intros Hi Hj Hn Hne [Hp Hd]. split.
  - by rewrite Hp, swap_perm by lia.
  - rewrite Hd. unfold swap. by rewrite !drop_insert_lt by lia.
Qed.

Lemma swap_puts b i j : 0 <= i < Z.of_nat (length b) -> 0 <= j < Z.of_nat (length b) ->
  (b1 ← put b i (at_ b j); put b1 j (at_ b i)) = Some (swap b i j).
Proof.
  intros Hi Hj. rewrite put_at by done. cbn [mbind option_bind]. by rewrite put_at by (rewrite length_insert; lia).
Qed.

Lemma parent_child p i : 0 < i -> parent i = p <-> i = 2 * p + 1 \/ i = 2 * p + 2.
Proof. intros Hi. unfold parent. pose proof (Z.div_mod (i - 1) 2 ltac:(lia)). pose proof (Z.mod_pos_bound (i - 1) 2 ltac:(lia)). lia. Qed.

Lemma parent_range i : 0 < i -> 0 <= parent i < i.
Proof. intros Hi. unfold parent. pose proof (Z.div_mod (i - 1) 2 ltac:(lia)). pose proof (Z.mod_pos_bound (i - 1) 2 ltac:(lia)). lia. Qed.

Lemma rise_spec f c n b :
  0 <= c < n -> n <= Z.of_nat (length b) -> c <= Z.of_nat f -> ordered_but c n b ->
  (forall i, 0 < i < n -> parent i = c -> 0 < c -> at_ b (parent c) <= at_ b i) ->
  exists b', rise f c b = Some b' /\ ordered n b' /\ reordered n b b'.
Proof.
  revert c b. induction f as [|f IH]; intros c b Hc Hn Hf Ho Hk; cbn [rise].
  { rewrite (proj2 (Z.ltb_ge 0 c)) by lia. exists b. split_and!; try done. intros i Hi. apply Ho; lia. }
  destruct (Z.ltb_spec 0 c) as [Hc0|Hc0].
  2: { exists b. split_and!; try done. intros i Hi. apply Ho; lia. }
  pose proof (parent_range c Hc0) as Hpr. change (Z.shiftr (c - 1) 1) with (Z.div2 (c - 1)).
  rewrite Z.div2_div. fold (parent c). set (p := parent c) in *.
  rewrite (get_at b c), (get_at b p) by lia. cbn [mbind option_bind].
  destruct (Z.ltb_spec (at_ b c) (at_ b p)) as [Hlt|Hge].
  - pose proof (swap_puts b p c ltac:(lia) ltac:(lia)) as Hs. rewrite (put_at b p) in Hs |- * by lia. cbn [mbind option_bind] in *.
    rewrite Hs. cbn [mbind option_bind].
    assert (Hat : forall k, 0 <= k -> at_ (swap b p c) k =
      if decide (k = c) then at_ b p else if decide (k = p) then at_ b c else at_ b k) by (intros; apply at_swap; lia).
    destruct (IH p (swap b p c)) as (b' & E & Ho' & Hr'); [lia|rewrite length_swap; lia|lia| | |].
    + intros i Hi Hip. pose proof (parent_range i ltac:(lia)) as Hpi. rewrite !Hat by lia.
      destruct (decide (i = c)) as [->|Hic].
      { fold p. rewrite decide_False, decide_True by lia. lia. }
      rewrite (decide_False (P := i = p)) by done. destruct (decide (parent i = c)) as [Epc|Hnc].
      { apply Hk; [lia|done|done]. }
      destruct (decide (parent i = p)) as [Epp|Hpp].
      { pose proof (Ho i ltac:(lia) Hic). rewrite Epp in *. lia. }
      apply Ho; [lia|done].
    + intros i Hi Epi Hp0. pose proof (parent_range p Hp0) as Hpp. rewrite !Hat by lia.
      rewrite (decide_False (P := parent p = c)), (decide_False (P := parent p = p)) by lia.
      pose proof (Ho p ltac:(lia) ltac:(lia)) as Hop.
      destruct (decide (i = c)) as [->|Hic]; [lia|]. pose proof (parent_range i ltac:(lia)). rewrite decide_False by lia.
      pose proof (Ho i ltac:(lia) Hic) as Hoi. rewrite Epi in Hoi. lia.
    + exists b'. split; [done|]. split; [done|]. eapply reordered_swap; [..|exact Hr']; lia.
  - exists b. split_and!; try done. intros i Hi. destruct (decide (i = c)) as [->|]; [done|]. by apply Ho.
Qed.

(** The heap order, except between [p] and its children. *)
Lemma sink_spec f p n b :
  0 <= p < n -> n <= Z.of_nat (length b) -> n - p <= Z.of_nat f + 1 ->
  (forall i, 0 < i < n -> parent i ≠ p -> at_ b (parent i) <= at_ b i) ->
  (forall i, 0 < i < n -> parent i = p -> 0 < p -> at_ b (parent p) <= at_ b i) ->
  exists b', sink f p n b = Some b' /\ ordered n b' /\ reordered n b b'.
Proof.
  revert p b. induction f as [|f IH]; intros p b Hp Hn Hf Ho Hk; cbn [sink]; rewrite Z.shiftl_mul_pow2 by lia;
    change (2 ^ 1) with 2.
  { rewrite (proj2 (Z.ltb_ge (p * 2 + 1) n)) by lia. exists b. split_and!; try done.
    intros i Hi. apply Ho; [done|]. rewrite parent_child by lia. lia. }
  destruct (Z.ltb_spec (p * 2 + 1) n) as [Hc|Hc].
  2: { exists b. split_and!; try done. intros i Hi. apply Ho; [done|]. rewrite parent_child by lia. lia. }
  rewrite (get_at b (p * 2 + 1)) by lia. cbn [mbind option_bind].
  assert (exists c, (if p * 2 + 1 + 1 <? n then
      v2 ← get b (p * 2 + 1 + 1); Some (if v2 <? at_ b (p * 2 + 1) then (p * 2 + 1 + 1, v2) else (p * 2 + 1, at_ b (p * 2 + 1)))
    else Some (p * 2 + 1, at_ b (p * 2 + 1))) = Some (c, at_ b c) /\ p < c < n /\ parent c = p /\
    forall i, 0 < i < n -> parent i = p -> at_ b c <= at_ b i) as (c & -> & Hcn & Hpc & Hmin).
  { destruct (Z.ltb_spec (p * 2 + 1 + 1) n).
    - rewrite get_at by lia. cbn [mbind option_bind]. destruct (Z.ltb_spec (at_ b (p * 2 + 1 + 1)) (at_ b (p * 2 + 1))).
      + exists (p * 2 + 1 + 1). split; [done|]. split; [lia|]. split; [apply parent_child; lia|].
        intros i Hi Hpi. apply (proj1 (parent_child p i ltac:(lia))) in Hpi as [->| ->].
        * replace (2 * p + 1) with (p * 2 + 1) by lia. lia.
        * replace (2 * p + 2) with (p * 2 + 1 + 1) by lia. lia.
      + exists (p * 2 + 1). split; [done|]. split; [lia|]. split; [apply parent_child; lia|].
        intros i Hi Hpi. apply (proj1 (parent_child p i ltac:(lia))) in Hpi as [->| ->].
        * replace (2 * p + 1) with (p * 2 + 1) by lia. lia.
        * replace (2 * p + 2) with (p * 2 + 1 + 1) by lia. lia.
    - exists (p * 2 + 1). split; [done|]. split; [lia|]. split; [apply parent_child; lia|].
      intros i Hi Hpi. apply (proj1 (parent_child p i ltac:(lia))) in Hpi as [->| ->]; [|lia].
      replace (2 * p + 1) with (p * 2 + 1) by lia. lia. }
  cbn [mbind option_bind]. rewrite (get_at b p) by lia. cbn [mbind option_bind].
  destruct (Z.ltb_spec (at_ b c) (at_ b p)) as [Hlt|Hge].
  - pose proof (swap_puts b p c ltac:(lia) ltac:(lia)) as Hs. rewrite (put_at b p) in Hs |- * by lia. cbn [mbind option_bind] in *.
    rewrite Hs. cbn [mbind option_bind].
    assert (Hat : forall k, 0 <= k -> at_ (swap b p c) k =
      if decide (k = c) then at_ b p else if decide (k = p) then at_ b c else at_ b k) by (intros; apply at_swap; lia).
    destruct (IH c (swap b p c)) as (b' & E & Ho' & Hr'); [lia|rewrite length_swap; lia|lia| | |].
    + intros i Hi Hpi. pose proof (parent_range i ltac:(lia)) as Hpr. rewrite !Hat by lia.
      rewrite (decide_False (P := parent i = c)) by done. destruct (decide (parent i = p)) as [Epp|Hpp].
      * destruct (decide (i = c)) as [->|Hic]; [lia|]. rewrite decide_False by lia. by apply Hmin.
      * rewrite (decide_False (P := i = c)) by congruence. destruct (decide (i = p)) as [->|Hip]; [|by apply Ho].
        apply Hk; [lia|done|lia].
    + intros i Hi Hpi Hc0. pose proof (parent_range i ltac:(lia)). rewrite Hpc, !Hat by lia.
      rewrite (decide_False (P := p = c)), (decide_True (P := p = p)) by lia.
      rewrite (decide_False (P := i = c)), (decide_False (P := i = p)) by lia.
      rewrite <- Hpi. apply Ho; [done|lia].
    + exists b'. split; [done|]. split; [done|]. eapply reordered_swap; [..|exact Hr']; lia.
  - exists b. split_and!; try done. intros i Hi. destruct (decide (parent i = p)) as [E|]; [|by apply Ho].
    rewrite E. pose proof (Hmin i Hi E). lia.
Qed.

(** ** Operations *)

Lemma ordered_root n b i : ordered n b -> 0 <= i < n -> at_ b 0 <= at_ b i.
Proof.
  intros Ho. induction (Z.lt_wf 0 i) as [i _ IH]. intros Hi. destruct (decide (i = 0)) as [->|Hi0]; [lia|].
  pose proof (parent_range i ltac:(lia)). pose proof (IH (parent i) ltac:(lia) ltac:(lia)). pose proof (Ho i ltac:(lia)). lia.
Qed.

Lemma take_at n b x : 0 <= n <= Z.of_nat (length b) -> x ∈ take (Z.to_nat n) b <-> exists i, 0 <= i < n /\ at_ b i = x.
Proof.
  intros Hn. rewrite list_elem_of_lookup. split.
  - intros (i & Hi). apply lookup_take_Some in Hi as [Hi Hlt]. exists (Z.of_nat i). split; [lia|].
    unfold at_. by rewrite Nat2Z.id, Hi.
  - intros (i & Hi & <-). exists (Z.to_nat i). rewrite lookup_take_lt by lia. unfold at_.
    destruct (lookup_lt_is_Some_2 b (Z.to_nat i)) as [v ->]; [lia|done].
Qed.

Lemma take_snoc n b : 0 <= n < Z.of_nat (length b) ->
  take (Z.to_nat (n + 1)) b = take (Z.to_nat n) b ++ [at_ b n].
Proof.
  intros Hn. replace (Z.to_nat (n + 1)) with (S (Z.to_nat n)) by lia. unfold at_.
  destruct (lookup_lt_is_Some_2 b (Z.to_nat n)) as [v Hv]; [lia|]. rewrite Hv. by apply take_S_r.
Qed.

Lemma heap_enqueue_spec h val :
  heap_ok h ->
  if decide (cnt h = max h) then heap_enqueue h val = Some (HEAP_FULL, h)
  else exists h', heap_enqueue h val = Some (HEAP_OK, h') /\ heap_ok h' /\ max h' = max h /\ items h' ≡ₚ val :: items h.
Proof.
  intros [Hm Hc Hi Ho]. unfold heap_enqueue. destruct (decide (cnt h = max h)) as [E|Hne].
  { by rewrite (proj2 (Z.leb_le (max h) (cnt h))) by lia. }
  rewrite (proj2 (Z.leb_gt (max h) (cnt h))), put_at by lia. cbn [mbind option_bind].
  set (b1 := <[Z.to_nat (cnt h) := val]> (buf h)).
  assert (Hat : forall k, 0 <= k -> at_ b1 k = if decide (k = cnt h) then val else at_ (buf h) k) by (intros; apply at_put; lia).
  assert (Hl1 : length b1 = length (buf h)) by (unfold b1; by rewrite length_insert).
  destruct (rise_spec (Z.to_nat (cnt h)) (cnt h) (cnt h + 1) b1) as (b' & -> & Ho' & Hr'); [lia|lia|lia| | |].
  - intros i Hi' Hic. pose proof (parent_range i ltac:(lia)). rewrite !Hat, !decide_False by lia. apply Ho. lia.
  - intros i Hi' Hp Hc0. pose proof (parent_range i ltac:(lia)). lia.
  - cbn [mbind option_bind]. rewrite s32_small by (unfold is_s32; lia). eexists. split; [done|].
    assert (Hlen : length b' = length (buf h)) by (rewrite <- Hl1; by apply Permutation_length, Hr').
    split; [split; cbn; try lia; exact Ho'|]. split; [done|]. unfold items. cbn [cnt buf].
    rewrite (reordered_take _ _ _ Hr'), take_snoc by lia. rewrite Hat, decide_True by lia.
    rewrite Permutation_app_comm. cbn. constructor. unfold b1. by rewrite take_insert_ge by lia.
Qed.

Lemma heap_dequeue_spec h :
  heap_ok h ->
  if decide (cnt h = 0) then heap_dequeue h = Some (HEAP_EMPTY, h)
  else exists v h', heap_dequeue h = Some (v, h') /\ heap_ok h' /\ max h' = max h /\ items h ≡ₚ v :: items h' /\
    (forall x, x ∈ items h -> v <= x).
Proof.
  intros [Hm Hc Hi Ho]. unfold heap_dequeue. destruct (decide (cnt h = 0)) as [E|Hne].
  { by rewrite E. }
  rewrite (proj2 (Z.eqb_neq (cnt h) 0)) by lia. cbn [negb]. set (n := cnt h - 1).
  rewrite (get_at (buf h) 0), (get_at (buf h) n) by lia. cbn [mbind option_bind]. rewrite put_at by lia. cbn [mbind option_bind].
  set (b1 := <[Z.to_nat 0 := at_ (buf h) n]> (buf h)).
  assert (Hat : forall k, 0 <= k -> at_ b1 k = if decide (k = 0) then at_ (buf h) n else at_ (buf h) k) by (intros; apply at_put; lia).
  assert (Hl1 : length b1 = length (buf h)) by (unfold b1; by rewrite length_insert).
  assert (exists b', sink (Z.to_nat n) 0 n b1 = Some b' /\ ordered n b' /\ reordered n b1 b') as (b' & -> & Ho' & Hr').
  { destruct (decide (n = 0)) as [->|Hn0].
    - exists b1. split; [done|]. split; [intros i; lia|]. done.
    - apply sink_spec; [lia|lia|lia| |lia]. intros i Hi' Hp. pose proof (parent_range i ltac:(lia)).
      rewrite !Hat, !decide_False by lia. apply Ho. lia. }
  cbn [mbind option_bind]. eexists _, _. split; [done|].
  assert (Hlen : length b' = length (buf h)) by (rewrite <- Hl1; by apply Permutation_length, Hr').
  split; [split; cbn; try lia; exact Ho'|]. split; [done|]. split.
  - unfold items. cbn [cnt buf]. rewrite (reordered_take _ _ _ Hr'). replace (cnt h) with (n + 1) by lia.
    rewrite take_snoc by lia. unfold b1. change (Z.to_nat 0) with 0%nat.
    destruct (buf h) as [|x b] eqn:Eb; [cbn in Hm; lia|]. change (at_ (x :: b) 0) with x. rewrite <- Eb in *.
    destruct (decide (n = 0)) as [E0|Hn0].
    + rewrite E0. cbn. unfold at_. by rewrite Eb.
    + replace (Z.to_nat n) with (S (Z.to_nat (n - 1))) by lia. rewrite Eb. cbn [insert list_insert take].
      cbn [app]. constructor. by rewrite Permutation_app_comm.
  - intros x Hx. apply take_at in Hx as (i & Hi' & <-); [|lia]. by apply (ordered_root (cnt h)).
Qed.

(** A heap is a priority queue of bounded size.  In every well-formed
    heap, an insertion into a full heap is refused and changes nothing, any
    other adds exactly the new value; a removal from an empty heap returns
    [HEAP_EMPTY] and changes nothing, any other returns the smallest value and
    removes it alone.  The heap stays well-formed, every access is inside of
    the array, and both loops end. *)
Theorem heap_priority_queue h val :
  heap_ok h ->
  (if decide (cnt h = max h) then heap_enqueue h val = Some (HEAP_FULL, h)
   else exists h', heap_enqueue h val = Some (HEAP_OK, h') /\ heap_ok h' /\ max h' = max h /\
     items h' ≡ₚ val :: items h) /\
  (if decide (cnt h = 0) then heap_dequeue h = Some (HEAP_EMPTY, h)
   else exists v h', heap_dequeue h = Some (v, h') /\ heap_ok h' /\ max h' = max h /\ items h ≡ₚ v :: items h' /\
     forall x, x ∈ items h -> v <= x).
Proof. intros Hh. split; [by apply heap_enqueue_spec|by apply heap_dequeue_spec]. Qed.

Definition demo_heap4 : heap_t := Heap 4 6 [2; 5; 3; 9; 0; 0].

Lemma heap_priority_queue_witness :
  (exists h', heap_enqueue demo_heap4 1 = Some (HEAP_OK, h') /\ heap_ok h' /\ max h' = 6 /\ items h' ≡ₚ 1 :: [2; 5; 3; 9]) /\
  (exists v h', heap_dequeue demo_heap4 = Some (v, h') /\ heap_ok h' /\ max h' = 6 /\ [2; 5; 3; 9] ≡ₚ v :: items h' /\
     forall x, x ∈ [2; 5; 3; 9] -> v <= x).
Proof.
  apply (heap_priority_queue demo_heap4 1). split; cbn; try lia. intros i Hi.
  assert (i = 1 \/ i = 2 \/ i = 3) as [->|[-> | ->]] by (cbn in Hi; lia); vm_compute; discriminate.
Defined.
