(* ===== verification/Hash.v ===== *)
(** * Hash tables (lib/libnc/set/hash.c, include/set/hash.h)

    Buckets of entries held by intrusive lists; the unused entries are on
    [spares].  The hash function and the comparison are the client's; a
    lookup moves the entry it finds to the front of its bucket. *)

From S2P Require Import Prelude Lists Queues.

Definition HASH_OK : Z := 0.
Definition HASH_ERR : Z := 1.
Definition HASH_MIN_BITS : Z := 5.
Definition HASH_MAX_BITS : Z := 20.

Definition primes : list Z :=
  [31; 61; 127; 251; 509; 1021; 2039; 4093;
   8191; 16381; 32749; 65521; 131071; 262139; 524287; 1048573].

(** The [list_t] objects: [spares], the heads of the buckets, the entries by
    their index. *)
Inductive hloc := HSpares | HTbl (i : Z) | HEntry (e : Z).

#[export] Instance hloc_eq_dec : EqDecision hloc.
Proof. solve_decision. Defined.

#[export] Instance hloc_countable : Countable hloc.
Proof.
  apply (inj_countable' (λ l, match l with HSpares => (0, 0) | HTbl i => (1, i) | HEntry e => (2, e) end)
    (λ c, match c with (0, _) => HSpares | (1, i) => HTbl i | (_, e) => HEntry e end)).
  by intros [].
Defined.

#[export] Instance hash_queueing : Queueing hloc := {
  is_guard g := match g with HEntry _ => false | _ => true end;
  link_of _ := HEntry;
}.

#[export] Instance hash_queueing_laws : QueueingLaws hloc.
Proof. split; [done|]. intros g g' a b. cbn. naive_solver. Qed.

(** The loop of [calc_bits]: [f] is [n]. *)
Fixpoint calc_bits_loop (f : nat) (max pat : Z) : Z :=
  match f with
  | O => 0
  | S f' => if Z.land max pat =? 0 then calc_bits_loop f' max (Z.shiftr pat 1) else Z.of_nat f
  end.

Definition calc_bits (max : Z) : Z := calc_bits_loop 31 max (2 ^ 31) + 1.

Section Hash.
Context {K V : Type} (calc : K -> Z -> Z) (cmp : K -> K -> Z).
Context {H : Type} `{!ListOps hloc H}.

(** [data] holds [key] and [value] of each entry; [None] is [NULL]. *)
Record hash_t := Hash {
  size : Z;
  num : Z;
  max : Z;
  links : H;
  data : gmap Z (option K * option V);
}.

Fixpoint init_list_loop (n : nat) (e : Z) (h : H) : option H :=
  match n with
  | O => Some h
  | S n => h ← op_append h HSpares (HEntry e); init_list_loop n (e + 1) h
  end.

Definition init_list (h : H) (n : Z) : option H :=
  h ← op_initialize h HSpares;
  init_list_loop (Z.to_nat n) 0 h.

Fixpoint init_tbl_loop (n : nat) (i : Z) (h : H) : option H :=
  match n with
  | O => Some h
  | S n => h ← op_initialize h (HTbl i); init_tbl_loop n (i + 1) h
  end.

Definition init_tbl (h : H) (n : Z) : option H := init_tbl_loop (Z.to_nat n) 0 h.

(** [got_table] and [got_entries]: whether the two calls of [malloc] succeed;
    [h] and [d] are the memory they return. *)
Definition hash_create (got_table got_entries : bool) (h : H) (d : gmap Z (option K * option V)) (m : Z) :
    option (option hash_t) :=
  let bits := calc_bits m in
  let bits := if bits <? HASH_MIN_BITS then HASH_MIN_BITS
              else if HASH_MAX_BITS <? bits then HASH_MAX_BITS else bits in
  sz ← primes !! Z.to_nat (bits - HASH_MIN_BITS);
  if negb got_table then Some None
  else if negb got_entries then Some None
  else
    h ← init_list h m;
    h ← init_tbl h sz;
    Some (Some (Hash sz 0 m h d)).

(** The links of the entries are overwritten without being read. *)
Definition hash_clear (h : hash_t) : option hash_t :=
  l ← op_drop (links h) (λ _, true);
  l ← init_list l (max h);
  l ← init_tbl l (size h);
  Some (Hash (size h) 0 (max h) l (data h)).

Definition get_head (h : hash_t) (key : K) : hloc := HTbl (calc key (size h)).

Fixpoint find_entry_loop (n : nat) (h : hash_t) (head p : hloc) (key : K) : option (option Z) :=
  if list_is_edge head p then Some None
  else
    match n, p with
    | S n, HEntry e =>
        '(k, _) ← data h !! e;
        k ← k;
        if cmp key k =? 0 then Some (Some e)
        else q ← op_next (links h) p; find_entry_loop n h head q key
    | _, _ => None
    end.

Definition find_entry (h : hash_t) (head : hloc) (key : K) : option (option Z) :=
  p ← op_next (links h) head;
  find_entry_loop (Z.to_nat (max h)) h head p key.

Definition hash_get (h : hash_t) (key : K) : option (option V * hash_t) :=
  let head := get_head h key in
  o ← find_entry h head key;
  match o with
  | None => Some (None, h)
  | Some e =>
      first ← op_next (links h) head;
      l ← (if bool_decide (HEntry e = first) then Some (links h)
           else l ← op_remove (links h) (HEntry e); list_push l head (HEntry e));
      '(_, v) ← data h !! e;
      Some (v, Hash (size h) (num h) (max h) l (data h))
  end.

Definition hash_put (h : hash_t) (key : K) (value : V) : option (Z * hash_t) :=
  let head := get_head h key in
  o ← find_entry h head key;
  match o with
  | Some e => Some (HASH_OK, Hash (size h) (num h) (max h) (links h) (<[e := (Some key, Some value)]> (data h)))
  | None =>
      '(p, l) ← op_pick (links h) HSpares;
      match p with
      | None => Some (HASH_ERR, h)
      | Some (HEntry e) =>
          l ← list_push l head (HEntry e);
          Some (HASH_OK, Hash (size h) (u32 (num h + 1)) (max h) l (<[e := (Some key, Some value)]> (data h)))
      | Some _ => None
      end
  end.

Definition hash_remove (h : hash_t) (key : K) : option (Z * hash_t) :=
  o ← find_entry h (get_head h key) key;
  match o with
  | None => Some (HASH_ERR, h)
  | Some e =>
      l ← op_remove (links h) (HEntry e);
      l ← list_push l HSpares (HEntry e);
      Some (HASH_OK, Hash (size h) (u32 (num h - 1)) (max h) l (<[e := (None, None)]> (data h)))
  end.

Definition hash_size (h : hash_t) : Z := num h.

End Hash.

Arguments Hash {K V H}.
Arguments size {K V H}.
Arguments num {K V H}.
Arguments max {K V H}.
Arguments links {K V H}.
Arguments data {K V H}.

(** ** Invariant *)

Notation hrings := (gmap hloc (list hloc)).
Notation hqueues := (gmap hloc (list Z)).

Section HashAt.
Context {K V : Type} `{Countable K} (calc : K -> Z -> Z) (cmp : K -> K -> Z).
Hypothesis cmp_eq : forall a b, cmp a b = 0 <-> a = b.
Notation table := (@hash_t K V hrings).
Implicit Types h : table.

(** The table [h] with the queues [Q] and [sp] unused entries maps keys to
    values as [m] does. *)
Record hash_at h (Q : hqueues) (sp : list Z) (m : gmap K V) : Prop := {
  ha_links : qrep (links h) Q ∅;
  ha_spares : Q !! HSpares = Some sp;
  ha_tbl i : 0 <= i < size h -> exists l, Q !! HTbl i = Some l;
  ha_entry i l e : Q !! HTbl i = Some l -> e ∈ l ->
    exists k v, data h !! e = Some (Some k, Some v) /\ calc k (size h) = i /\ m !! k = Some v;
  ha_find k v : m !! k = Some v ->
    exists l e, Q !! HTbl (calc k (size h)) = Some l /\ e ∈ l /\ data h !! e = Some (Some k, Some v);
  ha_key i l e e' k v v' : Q !! HTbl i = Some l -> e ∈ l -> e' ∈ l ->
    data h !! e = Some (Some k, v) -> data h !! e' = Some (Some k, v') -> e = e';
  ha_num : num h = Z.of_nat (stdpp.base.size m);
  ha_max : num h + Z.of_nat (length sp) = max h /\ max h < 2 ^ 32;
  ha_size : 0 < size h;
  ha_calc k : 0 <= calc k (size h) < size h;
}.

Definition hash_ok h (m : gmap K V) : Prop := exists Q sp, hash_at h Q sp m.

Lemma is_edge_entry g e : is_guard g = true -> list_is_edge g (HEntry e) = false.
Proof. intros Hg. unfold list_is_edge. apply bool_decide_false. by intros ->. Qed.

(** A bucket has at most as many entries as there are keys. *)
Lemma bucket_length h Q sp m i l : hash_at h Q sp m -> Q !! HTbl i = Some l -> Z.of_nat (length l) <= max h.
Proof.
  intros HA Hl. pose proof (q_nodup _ _ _ (ha_links _ _ _ _ HA) _ _ Hl) as Hnd.
  enough (Hle : (length l <= stdpp.base.size (dom m))%nat).
  { rewrite size_dom in Hle. pose proof (ha_num _ _ _ _ HA). destruct (ha_max _ _ _ _ HA). lia. }
  assert (Hk : forall k, (forall e, e ∈ k -> e ∈ l) -> NoDup k ->
    exists ks : list K, length ks = length k /\ NoDup ks /\
    forall x, x ∈ ks -> x ∈ dom m /\ exists e v, e ∈ k /\ data h !! e = Some (Some x, v)).
  { induction k as [|e k IH]; intros Hs Hn; [exists []; split_and!; [done|constructor|intros x []%not_elem_of_nil]|].
    apply NoDup_cons in Hn as [He Hn]. destruct IH as (ks & Hlen & Hnk & Hks); [set_solver|done|].
    destruct (ha_entry _ _ _ _ HA i l e Hl) as (x & v & Hd & _ & Hm); [set_solver|].
    exists (x :: ks). split; [cbn; lia|]. split.
    - apply NoDup_cons. split; [|done]. intros (_ & e' & v' & He' & Hd')%Hks.
      assert (e = e') as <-; [|done]. eapply (ha_key _ _ _ _ HA i l); [done|set_solver..|done|done].
    - intros y [->|Hy]%elem_of_cons.
      + split; [by eapply elem_of_dom_2|]. exists e, (Some v). split; [by left|done].
      + destruct (Hks y Hy) as (? & e' & v' & ? & ?). split; [done|]. exists e', v'. split; [by right|done]. }
  destruct (Hk l) as (ks & Hlen & Hnk & Hks); [done|done|]. rewrite <- Hlen, <- (size_list_to_set (C := gset K) ks Hnk).
  apply subseteq_size. intros x Hx%elem_of_list_to_set. by apply Hks.
Qed.

(** The walk over a bucket from the entry in front of [l2] on. *)
Lemma find_entry_loop_spec n h Q sp m i l1 l2 key :
  hash_at h Q sp m -> Q !! HTbl i = Some (l1 ++ l2) -> (length l2 <= n)%nat ->
  exists o, find_entry_loop cmp n h (HTbl i) (default (HTbl i) (HEntry <$> head l2)) key = Some o /\
    match o with
    | Some e => e ∈ l2 /\ exists v, data h !! e = Some (Some key, Some v) /\ m !! key = Some v
    | None => forall e v, e ∈ l2 -> data h !! e ≠ Some (Some key, v)
    end.
Proof.
  intros HA. revert l1 l2. induction n as [|n IH]; intros l1 l2 Hl Hlen.
  { destruct l2; [|cbn in Hlen; lia]. exists None. cbn. unfold list_is_edge. rewrite bool_decide_true by done.
    split; [done|]. intros e v []%not_elem_of_nil. }
  destruct l2 as [|e l2].
  { exists None. cbn. unfold list_is_edge. rewrite bool_decide_true by done. split; [done|]. intros e v []%not_elem_of_nil. }
  change (default (HTbl i) (HEntry <$> head (e :: l2))) with (HEntry e). cbn [find_entry_loop].
  rewrite is_edge_entry by done.
  destruct (ha_entry _ _ _ _ HA i _ e Hl) as (k & v & Hd & Hc & Hm); [set_solver|]. rewrite Hd. cbn [mbind option_bind].
  destruct (Z.eqb_spec (cmp key k) 0) as [->%cmp_eq|Hne].
  { exists (Some e). split; [done|]. split; [by left|]. by exists v. }
  change (op_next (links h) (HEntry e)) with (ring_next (links h) (link_of (HTbl i) e)).
  rewrite (q_next_member _ _ _ (ha_links _ _ _ _ HA) (HTbl i) e l1 l2 Hl). cbn [mbind option_bind].
  destruct (IH (l1 ++ [e]) l2) as (o & E & Ho); [by rewrite <- app_assoc|cbn in Hlen; lia|].
  exists o. split; [exact E|]. destruct o as [e'|].
  - destruct Ho as [Hin Ho]. split; [by right|done].
  - intros e' v' [->|Hin]%elem_of_cons; [|by apply Ho]. rewrite Hd. intros [= -> _]. by apply Hne, cmp_eq.
Qed.

Lemma find_entry_spec h Q sp m key l :
  hash_at h Q sp m -> Q !! HTbl (calc key (size h)) = Some l ->
  match m !! key with
  | Some v => exists e, find_entry cmp h (get_head calc h key) key = Some (Some e) /\ e ∈ l /\
      data h !! e = Some (Some key, Some v)
  | None => find_entry cmp h (get_head calc h key) key = Some None /\
      forall e v, e ∈ l -> data h !! e ≠ Some (Some key, v)
  end.
Proof.
  intros HA Hl. unfold find_entry, get_head.
  change (op_next (links h) (HTbl (calc key (size h)))) with (ring_next (links h) (HTbl (calc key (size h)))).
  rewrite (q_next_guard _ _ _ (ha_links _ _ _ _ HA) _ l Hl). cbn [mbind option_bind].
  pose proof (bucket_length _ _ _ _ _ _ HA Hl) as Hlen.
  destruct (find_entry_loop_spec (Z.to_nat (max h)) h Q sp m _ [] l key HA Hl) as (o & E & Ho); [lia|].
  change (default (HTbl (calc key (size h))) (link_of (HTbl (calc key (size h))) <$> head l))
    with (default (HTbl (calc key (size h))) (HEntry <$> head l)). rewrite E. destruct o as [e|].
  - destruct Ho as (Hin & v & Hd & ->). by exists e.
  - destruct (m !! key) as [v|] eqn:Em; [|done]. exfalso.
    destruct (ha_find _ _ _ _ HA key v Em) as (l' & e & Hl' & Hin & Hd). rewrite Hl in Hl'. injection Hl' as <-.
    by apply (Ho e (Some v)).
Qed.

(** The order inside of the buckets does not matter. *)
Lemma hash_at_perm h Q sp m i l l' ln :
  hash_at h Q sp m -> Q !! HTbl i = Some l -> l' ≡ₚ l -> qrep ln (<[HTbl i := l']> Q) ∅ ->
  hash_at (Hash (size h) (num h) (max h) ln (data h)) (<[HTbl i := l']> Q) sp m.
Proof.
  intros HA Hl Hp HQ.
  assert (Hlk : forall j k, <[HTbl i := l']> Q !! HTbl j = Some k -> exists k', Q !! HTbl j = Some k' /\ k ≡ₚ k').
  { intros j k. destruct (decide (j = i)) as [->|]; [rewrite lookup_insert_eq; intros [= <-]; by exists l|].
    rewrite lookup_insert_ne by congruence. intros Hk. by exists k. }
  destruct HA. split; cbn [links size num max data]; try done.
  - by rewrite lookup_insert_ne.
  - intros j Hj. destruct (decide (j = i)) as [->|]; [rewrite lookup_insert_eq; by exists l'|].
    rewrite lookup_insert_ne by congruence. auto.
  - intros j k e Hk He. destruct (Hlk j k Hk) as (k' & Hk' & Hpk). apply (ha_entry0 j k' e Hk'). by rewrite <- Hpk.
  - intros k v Hm. destruct (ha_find0 k v Hm) as (k' & e & Hk' & He & Hd).
    destruct (decide (calc k (size h) = i)) as [E|].
    + exists l', e. rewrite E, lookup_insert_eq. split; [done|]. rewrite E, Hl in Hk'. injection Hk' as <-. by rewrite Hp.
    + exists k', e. by rewrite lookup_insert_ne by congruence.
  - intros j k e e' x v v' Hk He He'. destruct (Hlk j k Hk) as (k' & Hk' & Hpk). rewrite Hpk in He, He'. by eapply ha_key0.
Qed.

(** An entry is on one list. *)
Lemma entry_off h Q sp m e :
  hash_at h Q sp m -> (forall g l, Q !! g = Some l -> e ∉ l) -> forall g, off Q g e.
Proof. intros HA Hn g g' l Hg' _. by apply (Hn g'). Qed.

Lemma hash_get_spec h m key :
  hash_ok h m -> exists h', hash_get calc cmp h key = Some (m !! key, h') /\ hash_ok h' m.
Proof.
  intros (Q & sp & HA). destruct (ha_tbl _ _ _ _ HA (calc key (size h)) (ha_calc _ _ _ _ HA key)) as [l Hl].
  pose proof (find_entry_spec h Q sp m key l HA Hl) as Hf. unfold hash_get. destruct (m !! key) as [v|] eqn:Em.
  - destruct Hf as (e & -> & Hin & Hd). cbn [mbind option_bind]. unfold get_head. set (i := calc key (size h)) in *.
    pose proof (ha_links _ _ _ _ HA) as HQ.
    change (op_next (links h) (HTbl i)) with (ring_next (links h) (HTbl i)).
    rewrite (q_next_guard _ _ _ HQ _ l Hl). cbn [mbind option_bind].
    assert (exists ln, (if bool_decide (HEntry e = default (HTbl i) (link_of (HTbl i) <$> head l)) then Some (links h)
       else l ← op_remove (links h) (HEntry e); list_push l (HTbl i) (HEntry e)) = Some ln /\
       exists l', l' ≡ₚ l /\ qrep ln (<[HTbl i := l']> Q) ∅) as (ln & -> & l' & Hp & HQ').
    { case_bool_decide.
      - exists (links h). split; [done|]. exists l. split; [done|]. by rewrite insert_id.
      - destruct (q_remove _ _ _ HQ (HTbl i) e l Hl Hin) as (A1 & E1 & HQ1).
        change (op_remove (links h) (HEntry e)) with (ring_remove (links h) (link_of (HTbl i) e)). rewrite E1.
        cbn [mbind option_bind].
        destruct (q_push _ _ _ HQ1 (HTbl i) e (filter (λ x, x ≠ e) l)) as (A2 & E2 & HQ2); [apply lookup_insert_eq| |].
        { intros g' k Hk _ Hek. destruct (decide (g' = HTbl i)) as [->|Hne].
          - rewrite lookup_insert_eq in Hk. injection Hk as <-. by apply list_elem_of_filter in Hek as [? _].
          - rewrite lookup_insert_ne in Hk by done. apply Hne. by eapply (q_unique _ _ _ HQ g' (HTbl i) k l e). }
        exists A2. split; [exact E2|]. exists (e :: filter (λ x, x ≠ e) l). rewrite insert_insert_eq in HQ2. split; [|done].
        pose proof (q_nodup _ _ _ HQ _ _ Hl) as Hnd. apply list_elem_of_split in Hin as (l1 & l2 & ->).
        apply NoDup_app in Hnd as (_ & Hn1 & [Hn2 _]%NoDup_cons). rewrite filter_ne_split; [|intros ?; by apply (Hn1 e); [|left]|done].
        apply Permutation_middle. }
    cbn [mbind option_bind]. rewrite Hd. cbn [mbind option_bind]. eexists. split; [done|].
    eexists _, sp. by eapply hash_at_perm.
  - destruct Hf as [-> _]. cbn [mbind option_bind]. exists h. split; [done|]. by exists Q, sp.
Qed.

(** A value is replaced. *)
Lemma hash_at_replace h Q sp m key l e v value :
  hash_at h Q sp m -> Q !! HTbl (calc key (size h)) = Some l -> e ∈ l -> data h !! e = Some (Some key, Some v) ->
  hash_at (Hash (size h) (num h) (max h) (links h) (<[e := (Some key, Some value)]> (data h))) Q sp (<[key := value]> m).
Proof.
  intros HA Hl He Hd. pose proof (ha_links _ _ _ _ HA) as HQ.
  destruct (ha_entry _ _ _ _ HA _ _ e Hl He) as (k0 & v0 & Hd0 & _ & Hm0). rewrite Hd in Hd0. injection Hd0 as <- <-.
  assert (Hkey : forall i k e' v', Q !! HTbl i = Some k -> e' ∈ k -> e' ≠ e -> data h !! e' ≠ Some (Some key, v')).
  { intros i k e' v' Hk He' Hne Hd'. destruct (ha_entry _ _ _ _ HA i k e' Hk He') as (k1 & v1 & Hd1 & Hc1 & _).
    rewrite Hd' in Hd1. injection Hd1 as <- ->. rewrite <- Hc1, Hl in Hk. injection Hk as <-.
    by apply Hne, (ha_key _ _ _ _ HA (calc key (size h)) l e' e key (Some v1) (Some v)). }
  destruct HA. split; cbn [links size num max data]; try done.
  - intros i k e' Hk He'. destruct (decide (e' = e)) as [->|Hne].
    + exists key, value. rewrite !lookup_insert_eq. split_and!; try done.
      destruct (ha_entry0 i k e Hk He') as (k1 & v1 & Hd1 & Hc1 & _). congruence.
    + destruct (ha_entry0 i k e' Hk He') as (k1 & v1 & Hd1 & Hc1 & Hm1). exists k1, v1.
      rewrite !lookup_insert_ne; [done| |done]. intros <-. by apply (Hkey i k e' (Some v1)).
  - intros k1 v1. destruct (decide (k1 = key)) as [->|Hne].
    + rewrite lookup_insert_eq. intros [= <-]. exists l, e. by rewrite lookup_insert_eq.
    + rewrite lookup_insert_ne by done. intros Hm. destruct (ha_find0 k1 v1 Hm) as (k & e' & Hk & He' & Hd').
      exists k, e'. rewrite lookup_insert_ne; [done|]. intros <-. congruence.
  - intros i k e1 e2 x v1 v2 Hk He1 He2.
    destruct (decide (e1 = e)) as [->|Hn1], (decide (e2 = e)) as [->|Hn2]; rewrite ?lookup_insert_eq, ?lookup_insert_ne by done.
    + done.
    + intros [= <- <-] Hd2. exfalso. by eapply (Hkey i k e2).
    + intros Hd1 [= <- <-]. exfalso. by eapply (Hkey i k e1).
    + intros Hd1 Hd2. by eapply (ha_key0 i k e1 e2).
  - rewrite map_size_insert_Some; [done|]. by exists v.
Qed.

(** An unused entry becomes the first of its bucket. *)
Lemma hash_at_add h Q e sp m key l ln value :
  hash_at h Q (e :: sp) m -> Q !! HTbl (calc key (size h)) = Some l -> m !! key = None ->
  let Q' := <[HTbl (calc key (size h)) := e :: l]> (<[HSpares := sp]> Q) in
  qrep ln Q' ∅ ->
  hash_at (Hash (size h) (u32 (num h + 1)) (max h) ln (<[e := (Some key, Some value)]> (data h))) Q' sp (<[key := value]> m).
Proof.
  intros HA Hl Hm Q' HQ'. pose proof (ha_links _ _ _ _ HA) as HQ. set (i0 := calc key (size h)) in *.
  assert (Hoff : forall i k, Q !! HTbl i = Some k -> e ∉ k).
  { intros i k Hk Hin. assert (HTbl i = HSpares); [|done].
    eapply (q_unique _ _ _ HQ _ _ k (e :: sp) e Hk (ha_spares _ _ _ _ HA)); [done|by left|done]. }
  assert (Hlk : forall i k, Q' !! HTbl i = Some k -> exists k', Q !! HTbl i = Some k' /\ (k = k' /\ i ≠ i0 \/ k = e :: k' /\ i = i0)).
  { intros i k. unfold Q'. destruct (decide (i = i0)) as [->|Hne].
    - rewrite lookup_insert_eq. intros [= <-]. exists l. auto.
    - rewrite !lookup_insert_ne by congruence. intros Hk. exists k. auto. }
  assert (Hnd : forall i k x v', Q !! HTbl i = Some k -> x ∈ k -> data h !! x ≠ Some (Some key, v')).
  { intros i k x v' Hk Hx Hd. destruct (ha_entry _ _ _ _ HA i k x Hk Hx) as (k1 & v1 & Hd1 & _ & Hm1). congruence. }
  destruct (ha_max _ _ _ _ HA) as [Hmx Hlt]. pose proof (ha_num _ _ _ _ HA) as Hnum. cbn [length] in Hmx.
  split; cbn [links size num max data].
  - done.
  - unfold Q'. by rewrite lookup_insert_ne, lookup_insert_eq.
  - intros i Hi. unfold Q'. destruct (decide (i = i0)) as [->|]; [rewrite lookup_insert_eq; eauto|].
    rewrite !lookup_insert_ne by congruence. by apply (ha_tbl _ _ _ _ HA).
  - intros i k x Hk Hx. destruct (Hlk i k Hk) as (k' & Hk' & Hcase).
    destruct (decide (x = e)) as [->|Hxe].
    + exists key, value. rewrite !lookup_insert_eq. split_and!; try done.
      destruct Hcase as [[-> _]|[_ ->]]; [|done]. by apply (Hoff i k') in Hx.
    + assert (x ∈ k') as Hx' by (destruct Hcase as [[-> _]|[-> _]]; set_solver).
      destruct (ha_entry _ _ _ _ HA i k' x Hk' Hx') as (k1 & v1 & Hd1 & Hc1 & Hm1). exists k1, v1.
      rewrite !lookup_insert_ne by congruence. done.
  - intros k1 v1. destruct (decide (k1 = key)) as [->|Hne].
    + rewrite lookup_insert_eq. intros [= <-]. exists (e :: l), e. unfold Q'. rewrite !lookup_insert_eq.
      split_and!; try done. by left.
    + rewrite lookup_insert_ne by done. intros Hm1. destruct (ha_find _ _ _ _ HA k1 v1 Hm1) as (k & x & Hk & Hx & Hd).
      assert (x ≠ e) by (intros ->; by apply (Hoff _ _ Hk)). unfold Q'. destruct (decide (calc k1 (size h) = i0)) as [E|Hni].
      * exists (e :: l), x. rewrite E, lookup_insert_eq, lookup_insert_ne by done. rewrite E, Hl in Hk. injection Hk as <-.
        split_and!; try done. by right.
      * exists k, x. by rewrite !lookup_insert_ne by congruence.
  - intros i k x x' y v v' Hk Hx Hx' Hd Hd'. destruct (Hlk i k Hk) as (k' & Hk' & Hcase).
    assert (Hin : forall z, z ∈ k -> z = e \/ z ∈ k') by (destruct Hcase as [[-> _]|[-> _]]; set_solver).
    destruct (Hin x Hx) as [->|Hx1], (Hin x' Hx') as [->|Hx2]; [done| | |].
    + rewrite lookup_insert_eq in Hd. injection Hd as <- <-. rewrite lookup_insert_ne in Hd' by (intros <-; by apply (Hoff i k')).
      exfalso. by eapply (Hnd i k' x').
    + rewrite lookup_insert_eq in Hd'. injection Hd' as <- <-. rewrite lookup_insert_ne in Hd by (intros <-; by apply (Hoff i k')).
      exfalso. by eapply (Hnd i k' x).
    + rewrite lookup_insert_ne in Hd, Hd' by (intros <-; by apply (Hoff i k')). by eapply (ha_key _ _ _ _ HA i k').
  - rewrite map_size_insert_None by done. rewrite Hnum, u32_small; [lia|unfold is_u32; lia].
  - rewrite u32_small by (unfold is_u32; lia). lia.
  - apply (ha_size _ _ _ _ HA).
  - apply (ha_calc _ _ _ _ HA).
Qed.

(** An entry leaves its bucket for the unused ones. *)
Lemma hash_at_drop h Q sp m key l e v ln :
  hash_at h Q sp m -> Q !! HTbl (calc key (size h)) = Some l -> e ∈ l -> data h !! e = Some (Some key, Some v) ->
  let Q' := <[HSpares := e :: sp]> (<[HTbl (calc key (size h)) := filter (λ x, x ≠ e) l]> Q) in
  qrep ln Q' ∅ ->
  hash_at (Hash (size h) (u32 (num h - 1)) (max h) ln (<[e := (None, None)]> (data h))) Q' (e :: sp) (delete key m).
Proof.
  intros HA Hl He Hd Q' HQ'. pose proof (ha_links _ _ _ _ HA) as HQ. set (i0 := calc key (size h)) in *.
  destruct (ha_entry _ _ _ _ HA _ _ e Hl He) as (k0 & v0 & Hd0 & _ & Hm0). rewrite Hd in Hd0. injection Hd0 as <- <-.
  assert (Hlk : forall i k, Q' !! HTbl i = Some k -> exists k', Q !! HTbl i = Some k' /\ forall x, x ∈ k -> x ∈ k' /\ x ≠ e).
  { intros i k. unfold Q'. rewrite lookup_insert_ne by done. destruct (decide (i = i0)) as [->|Hne].
    - rewrite lookup_insert_eq. intros [= <-]. exists l. split; [done|]. intros x [? ?]%list_elem_of_filter. done.
    - rewrite lookup_insert_ne by congruence. intros Hk. exists k. split; [done|]. intros x Hx. split; [done|].
      intros ->. apply Hne. assert (HTbl i = HTbl i0) as [=]; [|done].
      by eapply (q_unique _ _ _ HQ (HTbl i) (HTbl i0) k l e). }
  destruct (ha_max _ _ _ _ HA) as [Hmx Hlt]. pose proof (ha_num _ _ _ _ HA) as Hnum.
  pose proof (map_size_delete_Some key m ltac:(by exists v)) as Hsz.
  assert (Hpos : stdpp.base.size m ≠ 0%nat) by (intros E%map_size_empty_inv; by rewrite E in Hm0).
  split; cbn [links size num max data].
  - done.
  - unfold Q'. by rewrite lookup_insert_eq.
  - intros i Hi. unfold Q'. rewrite lookup_insert_ne by done. destruct (decide (i = i0)) as [->|]; [rewrite lookup_insert_eq; eauto|].
    rewrite lookup_insert_ne by congruence. by apply (ha_tbl _ _ _ _ HA).
  - intros i k x Hk Hx. destruct (Hlk i k Hk) as (k' & Hk' & Hin). destruct (Hin x Hx) as [Hx' Hxe].
    destruct (ha_entry _ _ _ _ HA i k' x Hk' Hx') as (k1 & v1 & Hd1 & Hc1 & Hm1). exists k1, v1.
    rewrite lookup_insert_ne by done. split_and!; [done|done|]. rewrite lookup_delete_ne; [done|]. intros <-. apply Hxe.
    fold i0 in Hc1. subst i. rewrite Hl in Hk'. injection Hk' as <-. by eapply (ha_key _ _ _ _ HA i0 l).
  - intros k1 v1 [Hne Hm1]%lookup_delete_Some. destruct (ha_find _ _ _ _ HA k1 v1 Hm1) as (k & x & Hk & Hx & Hd1).
    assert (x ≠ e) by (intros ->; congruence). unfold Q'. destruct (decide (calc k1 (size h) = i0)) as [E|Hni].
    + exists (filter (λ x, x ≠ e) l), x. rewrite E, lookup_insert_ne, lookup_insert_eq, lookup_insert_ne by done.
      rewrite E, Hl in Hk. injection Hk as <-. split_and!; try done. by apply list_elem_of_filter.
    + exists k, x. rewrite !lookup_insert_ne by congruence. done.
  - intros i k x x' y w w' Hk Hx Hx'. destruct (Hlk i k Hk) as (k' & Hk' & Hin).
    destruct (Hin x Hx), (Hin x' Hx'). rewrite !lookup_insert_ne by done. by eapply (ha_key _ _ _ _ HA i k').
  - rewrite u32_small by (unfold is_u32; lia). lia.
  - rewrite u32_small by (unfold is_u32; lia). cbn [length]. lia.
  - apply (ha_size _ _ _ _ HA).
  - apply (ha_calc _ _ _ _ HA).
Qed.

Lemma hash_put_spec h m key value :
  hash_ok h m ->
  exists r h', hash_put calc cmp h key value = Some (r, h') /\
    (r = HASH_ERR /\ h' = h /\ m !! key = None /\ num h = max h \/ r = HASH_OK /\ hash_ok h' (<[key := value]> m)).
Proof.
  intros (Q & sp & HA). destruct (ha_tbl _ _ _ _ HA (calc key (size h)) (ha_calc _ _ _ _ HA key)) as [l Hl].
  pose proof (find_entry_spec h Q sp m key l HA Hl) as Hf. unfold hash_put. pose proof (ha_links _ _ _ _ HA) as HQ.
  destruct (m !! key) as [v|] eqn:Em.
  - destruct Hf as (e & -> & Hin & Hd). cbn [mbind option_bind]. eexists _, _. split; [done|]. right. split; [done|].
    exists Q, sp. by eapply hash_at_replace.
  - destruct Hf as [-> _]. cbn [mbind option_bind]. change (op_pick (links h) HSpares) with (ring_pick (links h) HSpares).
    pose proof (q_pick _ _ _ HQ HSpares sp (ha_spares _ _ _ _ HA)) as Hp. destruct sp as [|e sp].
    + rewrite Hp. cbn [mbind option_bind]. eexists _, _. split; [done|]. left. split_and!; try done.
      destruct (ha_max _ _ _ _ HA). cbn in *. lia.
    + destruct Hp as (A1 & -> & HQ1). cbn [mbind option_bind link_of hash_queueing]. unfold get_head.
      destruct (q_push _ _ _ HQ1 (HTbl (calc key (size h))) e l) as (A2 & E2 & HQ2); [by rewrite lookup_insert_ne| |].
      { intros g' k Hk _ Hin. pose proof (q_nodup _ _ _ HQ _ _ (ha_spares _ _ _ _ HA)) as [Hne _]%NoDup_cons.
        destruct (decide (g' = HSpares)) as [->|Hg]; [rewrite lookup_insert_eq in Hk; by simplify_eq|].
        rewrite lookup_insert_ne in Hk by done. apply Hg.
        eapply (q_unique _ _ _ HQ g' HSpares k (e :: sp) e Hk (ha_spares _ _ _ _ HA)); [done|by left|done]. }
      change (list_push A1 (HTbl (calc key (size h))) (HEntry e))
        with (ring_insert A1 (HTbl (calc key (size h))) (link_of (HTbl (calc key (size h))) e)).
      rewrite E2. cbn [mbind option_bind]. eexists _, _. split; [done|]. right. split; [done|].
      eexists _, sp. by apply hash_at_add.
Qed.

Lemma hash_remove_spec h m key :
  hash_ok h m ->
  match m !! key with
  | None => hash_remove calc cmp h key = Some (HASH_ERR, h)
  | Some _ => exists h', hash_remove calc cmp h key = Some (HASH_OK, h') /\ hash_ok h' (delete key m)
  end.
Proof.
  intros (Q & sp & HA). destruct (ha_tbl _ _ _ _ HA (calc key (size h)) (ha_calc _ _ _ _ HA key)) as [l Hl].
  pose proof (find_entry_spec h Q sp m key l HA Hl) as Hf. unfold hash_remove. pose proof (ha_links _ _ _ _ HA) as HQ.
  destruct (m !! key) as [v|] eqn:Em; [|destruct Hf as [-> _]; done].
  destruct Hf as (e & -> & Hin & Hd). cbn [mbind option_bind]. set (i0 := calc key (size h)) in *.
  destruct (q_remove _ _ _ HQ (HTbl i0) e l Hl Hin) as (A1 & E1 & HQ1).
  change (op_remove (links h) (HEntry e)) with (ring_remove (links h) (link_of (HTbl i0) e)). rewrite E1. cbn [mbind option_bind].
  destruct (q_push _ _ _ HQ1 HSpares e sp) as (A2 & E2 & HQ2).
  { rewrite lookup_insert_ne by done. apply (ha_spares _ _ _ _ HA). }
  { intros g' k Hk _ Hek. destruct (decide (g' = HTbl i0)) as [->|Hne].
    - rewrite lookup_insert_eq in Hk. injection Hk as <-. by apply list_elem_of_filter in Hek as [? _].
    - rewrite lookup_insert_ne in Hk by done. apply Hne. by eapply (q_unique _ _ _ HQ g' (HTbl i0) k l e). }
  change (list_push A1 HSpares (HEntry e)) with (ring_insert A1 HSpares (link_of HSpares e)). rewrite E2. cbn [mbind option_bind].
  eexists. split; [done|]. eexists _, _. by eapply hash_at_drop.
Qed.

(** ** Creation *)

Lemma init_list_loop_spec n :
  forall e A (Q : hqueues) l, qrep A Q ∅ -> Q !! HSpares = Some l -> (forall x, x ∈ l -> x < e) ->
  (forall g k, Q !! g = Some k -> g ≠ HSpares -> k = []) ->
  exists A', init_list_loop n e A = Some A' /\ qrep A' (<[HSpares := l ++ seqZ e (Z.of_nat n)]> Q) ∅.
Proof.
  induction n as [|n IH]; intros e A Q l HQ Hl He Hg.
  { exists A. rewrite seqZ_nil, app_nil_r, insert_id by (done || lia). done. }
  destruct (q_enqueue _ _ _ HQ HSpares e l Hl) as (A1 & E1 & HQ1).
  { intros g k Hk _ Hin. destruct (decide (g = HSpares)) as [->|Hne]; [simplify_eq; apply He in Hin; lia|].
    rewrite (Hg _ _ Hk Hne) in Hin; by apply elem_of_nil in Hin. }
  destruct (IH (e + 1) A1 _ (l ++ [e]) HQ1) as (A2 & E2 & HQ2); [by rewrite lookup_insert_eq|..].
  { intros x [Hx| ->%list_elem_of_singleton]%elem_of_app; [apply He in Hx|]; lia. }
  { intros g k Hk Hne. rewrite lookup_insert_ne in Hk by done. by eapply Hg. }
  exists A2. cbn [init_list_loop]. change (op_append A HSpares (HEntry e)) with (ring_append A HSpares (link_of HSpares e)).
  rewrite E1. cbn [mbind option_bind]. split; [done|]. rewrite insert_insert_eq in HQ2. rewrite Nat2Z.inj_succ.
  rewrite (seqZ_cons e (Z.succ _)) by lia. rewrite Z.pred_succ. by rewrite <- app_assoc in HQ2.
Qed.

Lemma init_tbl_loop_spec n :
  forall i A (Q : hqueues), qrep A Q ∅ -> (forall j, i <= j -> Q !! HTbl j = None) -> 
  exists A' Q', init_tbl_loop n i A = Some A' /\ qrep A' Q' ∅ /\ Q' !! HSpares = Q !! HSpares /\
    (forall j, i <= j < i + Z.of_nat n -> Q' !! HTbl j = Some []) /\
    (forall j, j < i -> Q' !! HTbl j = Q !! HTbl j) /\ (forall j, i + Z.of_nat n <= j -> Q' !! HTbl j = None).
Proof.
  induction n as [|n IH]; intros i A Q HQ Hi.
  { exists A, Q. split_and!; try done; intros; [lia|apply Hi; lia]. }
  destruct (q_initialize _ _ _ HQ (HTbl i)) as (A1 & E1 & HQ1); [done|left; apply Hi; lia|].
  destruct (IH (i + 1) A1 _ HQ1) as (A2 & Q2 & E2 & HQ2 & Hs & Hin & Hlt & Hge).
  { intros j Hj. rewrite lookup_insert_ne by (intros [= ->]; lia). apply Hi. lia. }
  exists A2, Q2. cbn [init_tbl_loop]. change (op_initialize A (HTbl i)) with (ring_initialize A (HTbl i)).
  rewrite E1. cbn [mbind option_bind]. split_and!; [done|done|by rewrite Hs, lookup_insert_ne|..].
  - intros j Hj. destruct (decide (j = i)) as [->|]; [rewrite Hlt by lia; apply lookup_insert_eq|]. apply Hin. lia.
  - intros j Hj. rewrite Hlt by lia. rewrite lookup_insert_ne by (intros [= ->]; lia). done.
  - intros j Hj. apply Hge. lia.
Qed.

(** Both initialisations make an empty table of whatever [data] holds. *)
Lemma init_spec (sz n : Z) d :
  0 <= n < 2 ^ 32 -> 0 < sz -> (forall k, 0 <= calc k sz < sz) ->
  exists A1 A2, init_list ∅ n = Some A1 /\ init_tbl A1 sz = Some A2 /\ hash_ok (Hash sz 0 n A2 d) ∅.
Proof.
  intros Hn Hsz Hc. destruct (q_initialize _ _ _ qrep_empty HSpares) as (A0 & E0 & HQ0); [done|by left|].
  destruct (init_list_loop_spec (Z.to_nat n) 0 A0 _ [] HQ0) as (A1 & E1 & HQ1); [by rewrite lookup_insert_eq|set_solver|..].
  { intros g k Hk Hg. by rewrite lookup_insert_ne in Hk. }
  destruct (init_tbl_loop_spec (Z.to_nat sz) 0 A1 _ HQ1) as (A2 & Q2 & E2 & HQ2 & Hs & Hin & Hneg & Hge).
  { intros j _. by rewrite !lookup_insert_ne. }
  rewrite insert_insert_eq, lookup_insert_eq in Hs. cbn [app] in Hs.
  exists A1, A2. unfold init_list. change (op_initialize ∅ HSpares) with (ring_initialize ∅ HSpares).
  rewrite E0. cbn [mbind option_bind]. split_and!; [done|done|]. exists Q2, (seqZ 0 n).
  assert (Hnil : forall i l, Q2 !! HTbl i = Some l -> 0 <= i -> l = []).
  { intros i l Hl Hi. destruct (decide (i < sz)); [|by rewrite Hge in Hl by lia]. rewrite Hin in Hl by lia. by injection Hl. }
  assert (Hneg' : forall i, i < 0 -> Q2 !! HTbl i = None) by (intros i Hi; rewrite Hneg by done; by rewrite !lookup_insert_ne).
  split; cbn [links size num max data].
  - done.
  - by rewrite Hs, Z2Nat.id by lia.
  - intros i Hi. rewrite Hin by lia. eauto.
  - intros i l e Hl He. destruct (decide (0 <= i)); [rewrite (Hnil i l) in He by done; by apply elem_of_nil in He|].
    by rewrite (Hneg' i) in Hl by lia.
  - done.
  - intros i l e e' k v v' Hl He. destruct (decide (0 <= i)); [rewrite (Hnil i l) in He by done; by apply elem_of_nil in He|].
    by rewrite (Hneg' i) in Hl by lia.
  - by rewrite map_size_empty.
  - rewrite length_seqZ. lia.
  - done.
  - done.
Qed.

Lemma calc_bits_range m : 1 <= calc_bits m <= 32.
Proof.
  unfold calc_bits. enough (H0 : forall f pat, 0 <= calc_bits_loop f m pat <= Z.of_nat f) by (specialize (H0 31%nat (2 ^ 31)); lia).
  induction f as [|f IH]; intros pat; cbn [calc_bits_loop]; [lia|]. case_match; [|lia]. specialize (IH (Z.shiftr pat 1)). lia.
Qed.

Lemma primes_pos i p : primes !! i = Some p -> 0 < p.
Proof.
  intros Hp. assert (Hall : Forall (λ p, 0 < p) primes) by (repeat constructor). by eapply (Forall_lookup_1 _ _ i p) in Hall.
Qed.

Lemma hash_create_spec n d :
  0 <= n < 2 ^ 32 -> (forall k s, 0 < s -> 0 <= calc k s < s) ->
  exists h, hash_create (K := K) (V := V) true true ∅ d n = Some (Some h) /\ max h = n /\ hash_ok h ∅.
Proof.
  intros Hn Hc. unfold hash_create. pose proof (calc_bits_range n) as Hb.
  set (b := if calc_bits n <? HASH_MIN_BITS then _ else _).
  assert (Hr : 5 <= b <= 20) by (unfold b, HASH_MIN_BITS, HASH_MAX_BITS; repeat case_match; lia).
  destruct (lookup_lt_is_Some_2 primes (Z.to_nat (b - HASH_MIN_BITS))) as [sz Hs]; [unfold HASH_MIN_BITS; cbn; lia|].
  rewrite Hs. cbn [mbind option_bind negb]. pose proof (primes_pos _ _ Hs) as Hpos.
  destruct (init_spec sz n d Hn Hpos (λ k, Hc k sz Hpos)) as (A1 & A2 & -> & E2 & Hok). cbn [mbind option_bind]. rewrite E2. eauto.
Qed.

Lemma hash_clear_spec h m : hash_ok h m -> exists h', hash_clear h = Some h' /\ max h' = max h /\ hash_ok h' ∅.
Proof.
  intros (Q & sp & HA). unfold hash_clear.
  destruct (q_drop _ _ _ (ha_links _ _ _ _ HA) (λ _, true)) as (A' & E & HQ); [done|].
  change (op_drop (links h) (λ _, true)) with (ring_drop (links h) (λ _, true)). rewrite E. cbn [mbind option_bind].
  assert (A' = ∅) as ->.
  { apply map_eq. intros g. rewrite lookup_empty. destruct (A' !! g) as [l|] eqn:El; [|done].
    by apply (ring_drop_lookup _ _ _ _ _ E) in El as [_ ?]. }
  pose proof (ha_num _ _ _ _ HA). destruct (ha_max _ _ _ _ HA) as [Hm1 Hm2].
  destruct (init_spec (size h) (max h) (data h)) as (A1 & A2 & -> & E2 & Hok); [lia|..|].
  { apply (ha_size _ _ _ _ HA). }
  { apply (ha_calc _ _ _ _ HA). }
  cbn [mbind option_bind]. rewrite E2. eauto.
Qed.

(** ** Traces *)

(** A client's calls, and what they return. *)
Inductive hash_call := CGet (k : K) | CPut (k : K) (v : V) | CRemove (k : K) | CSize | CClear.
Inductive hash_answer := AValue (v : option V) | ACode (r : Z).

Definition hash_do h (c : hash_call) : option (hash_answer * table) :=
  match c with
  | CGet k => '(v, h') ← hash_get calc cmp h k; Some (AValue v, h')
  | CPut k v => '(r, h') ← hash_put calc cmp h k v; Some (ACode r, h')
  | CRemove k => '(r, h') ← hash_remove calc cmp h k; Some (ACode r, h')
  | CSize => Some (ACode (hash_size h), h)
  | CClear => h' ← hash_clear h; Some (ACode 0, h')
  end.

(** The same on a finite map of at most [n] keys. *)
Definition map_do (n : Z) (m : gmap K V) (c : hash_call) : hash_answer * gmap K V :=
  match c with
  | CGet k => (AValue (m !! k), m)
  | CPut k v =>
      if decide (m !! k = None /\ Z.of_nat (stdpp.base.size m) = n) then (ACode HASH_ERR, m)
      else (ACode HASH_OK, <[k := v]> m)
  | CRemove k => if decide (m !! k = None) then (ACode HASH_ERR, m) else (ACode HASH_OK, delete k m)
  | CSize => (ACode (Z.of_nat (stdpp.base.size m)), m)
  | CClear => (ACode 0, ∅)
  end.

Fixpoint hash_run h (cs : list hash_call) : option (list hash_answer) :=
  match cs with
  | [] => Some []
  | c :: cs => '(a, h) ← hash_do h c; l ← hash_run h cs; Some (a :: l)
  end.

Fixpoint map_run (n : Z) (m : gmap K V) (cs : list hash_call) : list hash_answer :=
  match cs with
  | [] => []
  | c :: cs => let '(a, m) := map_do n m c in a :: map_run n m cs
  end.

Lemma hash_ok_size h m : hash_ok h m -> hash_size h = Z.of_nat (stdpp.base.size m) /\ Z.of_nat (stdpp.base.size m) <= max h.
Proof.
  intros (Q & sp & HA). pose proof (ha_num _ _ _ _ HA). destruct (ha_max _ _ _ _ HA). unfold hash_size. lia.
Qed.

(** No call changes the capacity. *)
Lemma hash_do_max h c a h' : hash_do h c = Some (a, h') -> max h' = max h.
Proof.
  destruct c; unfold hash_do, hash_get, hash_put, hash_remove, hash_clear;
    repeat (intros; simplify_eq; match goal with
      | E : mbind _ _ = Some _ |- _ => apply bind_Some in E as (? & ? & E)
      | E : (let '(_, _) := ?x in _) = Some _ |- _ => destruct x
      | E : match ?x with _ => _ end = Some _ |- _ => destruct x
      end); intros; simplify_eq; done.
Qed.

Lemma hash_do_spec h m c :
  hash_ok h m -> exists h', hash_do h c = Some (fst (map_do (max h) m c), h') /\ hash_ok h' (snd (map_do (max h) m c)).
Proof.
  intros Hok. pose proof (hash_do_max h c) as Hmax. destruct c as [k|k v|k| |]; cbn [hash_do map_do] in *.
  - destruct (hash_get_spec h m k Hok) as (h' & -> & Hok'). cbn. eauto.
  - destruct (hash_put_spec h m k v Hok) as (r & h' & E & [(-> & -> & Hk & Hf)|(-> & Hok')]); rewrite E in *; cbn [mbind option_bind] in *.
    + destruct (hash_ok_size h m Hok) as [Hs _]. unfold hash_size in Hs. rewrite decide_True by (rewrite <- Hs; done). cbn. eauto.
    + destruct (hash_ok_size _ _ Hok') as [_ Hle]. rewrite (Hmax _ _ eq_refl) in Hle.
      rewrite decide_False; [cbn; eauto|]. intros [Hk Hs]. rewrite map_size_insert_None in Hle by done. lia.
  - pose proof (hash_remove_spec h m k Hok) as Hr. destruct (m !! k) eqn:Ek.
    + destruct Hr as (h' & -> & Hok'). rewrite decide_False by done. cbn. eauto.
    + rewrite Hr, decide_True by done. cbn. eauto.
  - destruct (hash_ok_size h m Hok) as [-> _]. cbn. eauto.
  - destruct (hash_clear_spec h m Hok) as (h' & -> & _ & Hok'). cbn. eauto.
Qed.

Lemma hash_run_spec cs : forall h m, hash_ok h m -> hash_run h cs = Some (map_run (max h) m cs).
Proof.
  induction cs as [|c cs IH]; intros h m Hok; [done|]. destruct (hash_do_spec h m c Hok) as (h' & E & Hok').
  cbn [hash_run map_run]. rewrite E. cbn [mbind option_bind]. rewrite (IH h' _ Hok'), (hash_do_max _ _ _ _ E).
  by destruct (map_do (max h) m c).
Qed.

(** C33: a hash table is a finite map of bounded size.  Whatever the hash
    function (with results below the size of the table) and the comparison
    (that tells keys apart), a table of capacity [n] just created answers
    every sequence of gets, puts, removals, sizes and clearings as a finite
    map does that refuses a new key once it has [n] keys: no bucket chain is
    corrupted by the move to front, no entry is lost between the buckets and
    the unused entries, and every search ends. *)
Theorem hash_bounded_map n d cs :
  0 <= n < 2 ^ 32 -> (forall k s, 0 < s -> 0 <= calc k s < s) ->
  exists h, hash_create true true ∅ d n = Some (Some h) /\ hash_run h cs = Some (map_run n ∅ cs).
Proof.
  intros Hn Hc. destruct (hash_create_spec n d Hn Hc) as (h & E & <- & Hok). exists h. split; [done|]. by apply hash_run_spec.
Qed.

End HashAt.

Definition demo_calls : list (@hash_call Z Z) :=
  [CPut 3 30; CPut 34 31; CPut 3 32; CPut 5 50; CGet 34; CGet 3; CRemove 34; CGet 34; CPut 5 51; CGet 5; CSize; CClear; CGet 5].

Lemma hash_bounded_map_witness :
  exists h, hash_create true true ∅ ∅ 2 = Some (Some h) /\
    hash_run (λ k s, k mod s) Z.sub h demo_calls =
      Some [ACode 0; ACode 0; ACode 0; ACode 1; AValue (Some 31); AValue (Some 32); ACode 0; AValue None; ACode 0;
            AValue (Some 51); ACode 2; ACode 0; AValue None].
Proof.
  assert (Hc : forall a b, a - b = 0 <-> a = b) by lia.
  exact (hash_bounded_map (λ k s, k mod s) Z.sub Hc 2 ∅ demo_calls ltac:(lia) (λ k s, Z.mod_pos_bound k s)).
Defined.
