(* ===== verification/Frequency.v ===== *)
(** * Symbol frequencies of the range coder (lib/librc/bit_*.c)

    The coder keeps how often each of 257 symbols has occurred in a binary
    indexed tree: a cell sums a stretch of symbols that ends at its index, so
    that a cumulative count, an update and the search of the symbol at a
    cumulative count each touch at most nine cells.  The theorems relate the
    cells to a plain function from symbols to frequencies. *)

From S2P Require Import Prelude.

(** ** The code *)

Definition FREQ_INC : Z := 4.
Definition FREQ_LIMIT : Z := 32768.
Definition CHR_RANGE : Z := 257.
Definition CHR_EOS : Z := 256.

Record Frequency := {
  f_size : Z;
  f_count : list Z;
  f_sum : Z;
  f_mid : Z;
}.

Definition cell (l : list Z) (i : Z) : option Z := if i <? 0 then None else l !! Z.to_nat i.

Definition add_cell (l : list Z) (i n : Z) : option (list Z) :=
  x ← cell l i; Some (<[Z.to_nat i := u32 (x + n)]> l).

(** No walk of the tree is longer than this. *)
Definition WALK : nat := 10.

Fixpoint inc_loop (f : nat) (count : list Z) (c n : Z) : option (list Z) :=
  match f with
  | O => None
  | S f =>
      if c <? CHR_RANGE then
        count ← add_cell count c n;
        inc_loop f count (c + Z.land c (- c)) n
      else Some count
  end.

Definition _inc (freq : Frequency) (ch n : Z) : option Frequency :=
  count ← (if 0 <? ch then inc_loop WALK (f_count freq) ch n else add_cell (f_count freq) 0 n);
  Some {| f_size := f_size freq; f_count := count; f_sum := u32 (f_sum freq + n); f_mid := f_mid freq |}.

Fixpoint mid_loop (f : nat) (mid : Z) : option Z :=
  match f with
  | O => None
  | S f => if mid <? Z.quot CHR_RANGE 2 then mid_loop f (u32 (Z.shiftl mid 1)) else Some mid
  end.

Fixpoint ones_loop (f : nat) (freq : Frequency) (i : Z) : option Frequency :=
  match f with
  | O => Some freq
  | S f => freq ← _inc freq i 1; ones_loop f freq (i + 1)
  end.

Definition frequency_initialize : option Frequency :=
  mid ← mid_loop WALK 1;
  ones_loop (Z.to_nat CHR_RANGE)
    {| f_size := CHR_RANGE; f_count := replicate (Z.to_nat CHR_RANGE) 0; f_sum := 0; f_mid := mid |} 0.

(** [for (; i != j; i &= (i - 1)) n -= count[i]] *)
Fixpoint minus_loop (f : nat) (count : list Z) (i j n : Z) : option Z :=
  match f with
  | O => None
  | S f =>
      if i =? j then Some n
      else x ← cell count i; minus_loop f count (Z.land i (i - 1)) j (u32 (n - x))
  end.

Definition frequency_count (freq : Frequency) (ch : Z) : option Z :=
  n ← cell (f_count freq) ch;
  if (0 <? ch) && (Z.land ch 1 =? 0) then
    minus_loop WALK (f_count freq) (ch - 1) (Z.land ch (ch - 1)) n
  else Some n.

Fixpoint halve_loop (f : nat) (freq : Frequency) (i : Z) : option Frequency :=
  match f with
  | O => Some freq
  | S f =>
      x ← frequency_count freq i;
      let n := Z.shiftr x 1 in
      freq ← (if 0 <? n then _inc freq i (- n) else Some freq);
      halve_loop f freq (i + 1)
  end.

Definition frequency_update (freq : Frequency) (ch : Z) : option Frequency :=
  freq ← _inc freq ch FREQ_INC;
  if FREQ_LIMIT <=? f_sum freq then halve_loop (Z.to_nat CHR_RANGE) freq 0 else Some freq.

(** [for (...; i > 0; i &= (i - 1)) n += count[i]] *)
Fixpoint plus_loop (f : nat) (count : list Z) (i n : Z) : option Z :=
  match f with
  | O => None
  | S f =>
      if 0 <? i then x ← cell count i; plus_loop f count (Z.land i (i - 1)) (u32 (n + x))
      else Some n
  end.

(** The occurrences of the symbols before [ch]. *)
Definition _calc (freq : Frequency) (ch : Z) : option Z :=
  if 0 <? ch then n ← cell (f_count freq) 0; plus_loop WALK (f_count freq) (ch - 1) n else Some 0.

(** The descent of [frequency_decode]: the last index whose cumulative count
    is at most [value], and that count. *)
Fixpoint search_loop (f : nat) (count : list Z) (value h n i : Z) : option (Z * Z) :=
  match f with
  | O => None
  | S f =>
      if 0 <? h then
        let q := i + h in
        if q <? CHR_RANGE then
          x ← cell count q;
          if u32 (n + x) <=? value
          then search_loop f count value (Z.shiftr h 1) (u32 (n + x)) q
          else search_loop f count value (Z.shiftr h 1) n i
        else search_loop f count value (Z.shiftr h 1) n i
      else Some (n, i)
  end.

(** The part of [frequency_decode] that looks the symbol up: it and the
    occurrences of the symbols before it. *)
Definition search (freq : Frequency) (value : Z) : option (Z * Z) :=
  c0 ← cell (f_count freq) 0;
  if c0 <=? value then
    '(n, i) ← search_loop WALK (f_count freq) value (f_mid freq) c0 0;
    Some (n, i + 1)
  else Some (0, 0).

(** ** What the cells mean *)

(** The occurrences of the symbols [1] to [x]. *)
Fixpoint pre (f : Z -> Z) (x : nat) : Z :=
  match x with O => 0 | S y => pre f y + f (Z.of_nat x) end.

Definition prefix (f : Z -> Z) (x : Z) : Z := pre f (Z.to_nat x).

(** The occurrences of all symbols before [ch]. *)
Definition before (f : Z -> Z) (ch : Z) : Z := if ch <=? 0 then 0 else f 0 + prefix f (ch - 1).

Definition total (f : Z -> Z) : Z := f 0 + prefix f CHR_EOS.

Definition low_bit (c : Z) : Z := Z.land c (- c).

Record tree_of (freq : Frequency) (f : Z -> Z) : Prop := {
  t_len : length (f_count freq) = Z.to_nat CHR_RANGE;
  t_zero : f_count freq !! 0%nat = Some (f 0);
  t_cell c : 1 <= c <= CHR_EOS ->
    f_count freq !! Z.to_nat c = Some (prefix f c - prefix f (c - low_bit c));
  t_sum : f_sum freq = total f;
  t_mid : f_mid freq = 128;
  t_nonneg c : 0 <= c <= CHR_EOS -> 0 <= f c;
  t_total : total f < 2 ^ 31;
}.

(** One more or less for a symbol. *)
Definition bump (f : Z -> Z) (ch n : Z) : Z -> Z := λ c, if c =? ch then f c + n else f c.

(** ** Facts about indices, by cases *)

Definition symbols : list Z := seqZ 0 257.

Lemma symbols_all (P : Z -> bool) : forallb P symbols = true -> forall c, 0 <= c <= 256 -> P c = true.
Proof.
  rewrite forallb_forall. intros Hall c Hc. apply Hall. apply list_elem_of_In, elem_of_seqZ. lia.
Qed.

(** How often the loop of [_inc] from [c] meets [x]. *)
Fixpoint hits (f : nat) (c x : Z) : Z :=
  match f with
  | O => 0
  | S f => if c <? CHR_RANGE then (if c =? x then 1 else 0) + hits f (c + low_bit c) x else 0
  end.

Definition covers (x ch : Z) : bool := (x - low_bit x <? ch) && (ch <=? x).

Definition hits_row (ch x : Z) : bool :=
  (ch =? 0) || (hits WALK ch x =? (if covers x ch then 1 else 0)).

Lemma hits_table : forallb (λ ch, forallb (hits_row ch) symbols) symbols = true.
Proof. vm_compute. reflexivity. Qed.

Lemma hits_covers ch x : 1 <= ch <= 256 -> 0 <= x <= 256 ->
  hits WALK ch x = if covers x ch then 1 else 0.
Proof.
  intros Hch Hx. pose proof (symbols_all _ hits_table ch ltac:(lia)) as H. cbv beta in H.
  pose proof (symbols_all _ H x ltac:(lia)) as H'. unfold hits_row in H'.
  rewrite (proj2 (Z.eqb_neq ch 0)) in H' by lia. by apply Z.eqb_eq.
Qed.

(** The walk of [_inc] ends in time. *)
Fixpoint inc_ends (f : nat) (c : Z) : bool :=
  match f with O => false | S f => if c <? CHR_RANGE then inc_ends f (c + low_bit c) else true end.

(** The walk down from [i] meets [j] in time and stays above it. *)
Fixpoint down_ends (f : nat) (i j : Z) : bool :=
  match f with
  | O => false
  | S f => (i =? j) || ((0 <? i) && (i <? CHR_RANGE) && (Z.land i (i - 1) =? i - low_bit i)
                        && (j <=? i - low_bit i) && down_ends f (i - low_bit i) j)
  end.

Definition walks_ok (c : Z) : bool :=
  (c =? 0) ||
  (inc_ends WALK c && (1 <=? low_bit c) && (low_bit c <=? c) && down_ends WALK (c - 1) 0
   && (Z.land c (c - 1) =? c - low_bit c)
   && down_ends WALK (c - 1) (c - low_bit c)
   && ((Z.land c 1 =? 0) || (low_bit c =? 1))).

Lemma walks_table : forallb walks_ok symbols = true.
Proof. vm_compute. reflexivity. Qed.

Lemma walks c : 1 <= c <= 256 ->
  inc_ends WALK c = true /\ 1 <= low_bit c <= c /\ down_ends WALK (c - 1) 0 = true /\
  Z.land c (c - 1) = c - low_bit c /\ down_ends WALK (c - 1) (c - low_bit c) = true /\
  (Z.land c 1 ≠ 0 -> low_bit c = 1).
Proof.
  intros Hc. pose proof (symbols_all _ walks_table c ltac:(lia)) as H. unfold walks_ok in H.
  rewrite (proj2 (Z.eqb_neq c 0)) in H by lia.
  rewrite orb_false_l, !andb_true_iff, orb_true_iff, !Z.eqb_eq, !Z.leb_le in H.
  destruct H as [[[[[[H1 H2] H3] H4] H5] H6] Hodd].
  refine (conj H1 (conj (conj H2 H3) (conj H4 (conj H5 (conj H6 _))))).
  intros Hn. by destruct Hodd.
Qed.

(** The descent halves [h] from 128 to 0. *)
Definition half (e : nat) : Z := match e with O => 0 | S e => 2 ^ Z.of_nat e end.

Definition half_row (i : Z) : bool :=
  forallb (λ e, negb (i mod (2 * half e) =? 0) || (CHR_EOS <? i + half e) || (low_bit (i + half e) =? half e)) (seq 1 8).

Lemma half_table : forallb half_row symbols = true.
Proof. vm_compute. reflexivity. Qed.

(** The cell the descent looks at sums the stretch it may jump over. *)
Lemma low_bit_half e i : (1 <= e <= 8)%nat -> 0 <= i -> i mod (2 * half e) = 0 -> i + half e <= CHR_EOS ->
  low_bit (i + half e) = half e.
Proof.
  intros He Hi Hm Hle. assert (0 < half e) by (destruct e; [lia|unfold half; lia]).
  pose proof (symbols_all _ half_table i ltac:(unfold CHR_EOS in *; lia)) as Hr.
  unfold half_row in Hr. rewrite forallb_forall in Hr.
  specialize (Hr e ltac:(apply list_elem_of_In, elem_of_seq; lia)).
  rewrite (proj2 (Z.eqb_eq _ 0) Hm), (proj2 (Z.ltb_ge CHR_EOS _) Hle) in Hr. by apply Z.eqb_eq.
Qed.

(** ** Cumulative counts *)

Lemma prefix_0 f : prefix f 0 = 0.
Proof. done. Qed.

Lemma prefix_succ f x : 1 <= x -> prefix f x = prefix f (x - 1) + f x.
Proof.
  intros Hx. unfold prefix. replace (Z.to_nat x) with (S (Z.to_nat (x - 1))) by lia.
  cbn [pre]. f_equal. f_equal. lia.
Qed.

Lemma prefix_ind (P : Z -> Prop) : P 0 -> (forall x, 1 <= x -> P (x - 1) -> P x) -> forall x, 0 <= x -> P x.
Proof.
  intros H0 Hs. apply natlike_ind; [done|]. intros x Hx IH. apply Hs; [lia|].
  by replace (Z.succ x - 1) with x by lia.
Qed.

Lemma prefix_bump f ch n x : 0 <= x ->
  prefix (bump f ch n) x = prefix f x + if (1 <=? ch) && (ch <=? x) then n else 0.
Proof.
  revert x. apply prefix_ind.
  - rewrite !prefix_0. destruct (1 <=? ch) eqn:?, (ch <=? 0) eqn:?; simpl; lia.
  - intros x Hx IH. rewrite !(prefix_succ _ x), IH by done. unfold bump.
    destruct (Z.eqb_spec x ch), (1 <=? ch) eqn:?, (ch <=? x - 1) eqn:?, (ch <=? x) eqn:?; simpl; lia.
Qed.

Lemma prefix_mono f x y : (forall c, 0 <= c <= CHR_EOS -> 0 <= f c) -> 0 <= x <= y -> y <= CHR_EOS ->
  prefix f x <= prefix f y.
Proof.
  intros Hf Hxy Hy. revert y Hxy Hy.
  enough (forall d, 0 <= d -> x + d <= CHR_EOS -> 0 <= x -> prefix f x <= prefix f (x + d)) as H.
  { intros y Hxy Hy. replace y with (x + (y - x)) by lia. apply H; lia. }
  apply (prefix_ind (λ d, x + d <= CHR_EOS -> 0 <= x -> prefix f x <= prefix f (x + d))).
  - intros. rewrite Z.add_0_r. lia.
  - intros d Hd IH Hle Hx. rewrite (prefix_succ f (x + d)) by lia. specialize (Hf (x + d) ltac:(lia)).
    replace (x + d - 1) with (x + (d - 1)) by lia. lia.
Qed.

Lemma prefix_ext f g x : (forall c, 0 <= c <= CHR_EOS -> f c = g c) -> 0 <= x -> x <= CHR_EOS -> prefix f x = prefix g x.
Proof.
  intros He. revert x. apply (prefix_ind (λ x, x <= CHR_EOS -> prefix f x = prefix g x)); [done|].
  intros x Hx IH Hle. rewrite !(prefix_succ _ x), IH, He by lia. done.
Qed.

Lemma total_bump f ch n : 0 <= ch <= CHR_EOS -> total (bump f ch n) = total f + n.
Proof.
  intros Hch. unfold total. rewrite prefix_bump by (unfold CHR_EOS; lia). unfold bump.
  destruct (Z.eqb_spec 0 ch), (1 <=? ch) eqn:?, (ch <=? CHR_EOS) eqn:?; simpl; lia.
Qed.

Lemma before_next f ch : 0 <= ch -> before f (ch + 1) = before f ch + f ch.
Proof.
  intros Hch. unfold before. rewrite (proj2 (Z.leb_gt (ch + 1) 0)) by lia.
  replace (ch + 1 - 1) with ch by lia. destruct (Z.leb_spec ch 0).
  - replace ch with 0 by lia. rewrite prefix_0. lia.
  - rewrite (prefix_succ f ch) by lia. lia.
Qed.

Lemma before_pos f i : 0 <= i -> before f (i + 1) = f 0 + prefix f i.
Proof. intros. unfold before. rewrite (proj2 (Z.leb_gt (i + 1) 0)) by lia. do 2 f_equal. lia. Qed.

Lemma before_total f : before f CHR_EOS + f CHR_EOS = total f.
Proof. unfold before, total. rewrite (prefix_succ f CHR_EOS) by (unfold CHR_EOS; lia). unfold CHR_EOS. simpl. lia. Qed.

Lemma before_le f ch : (forall c, 0 <= c <= CHR_EOS -> 0 <= f c) -> 0 <= ch <= CHR_EOS ->
  0 <= before f ch /\ before f ch + f ch <= total f.
Proof.
  intros Hf Hch. rewrite <- before_next by lia. rewrite before_pos by lia. unfold total.
  pose proof (prefix_mono f ch CHR_EOS Hf ltac:(lia) ltac:(lia)). split; [|lia].
  unfold before. destruct (Z.leb_spec ch 0); [lia|].
  pose proof (prefix_mono f 0 (ch - 1) Hf ltac:(lia) ltac:(lia)). rewrite prefix_0 in *.
  specialize (Hf 0 ltac:(unfold CHR_EOS; lia)). lia.
Qed.

Lemma stretch_range f c : (forall c, 0 <= c <= CHR_EOS -> 0 <= f c) -> 1 <= c <= CHR_EOS ->
  0 <= prefix f c - prefix f (c - low_bit c) <= total f.
Proof.
  intros Hn Hc. destruct (walks c Hc) as (_ & Hl & _). unfold total.
  pose proof (prefix_mono f (c - low_bit c) c Hn ltac:(lia) ltac:(lia)).
  pose proof (prefix_mono f c CHR_EOS Hn ltac:(lia) ltac:(lia)).
  pose proof (prefix_mono f 0 (c - low_bit c) Hn ltac:(lia) ltac:(lia)). rewrite prefix_0 in *.
  specialize (Hn 0 ltac:(unfold CHR_EOS; lia)). lia.
Qed.

Section Tree.
Context {freq : Frequency} {f : Z -> Z} (Ht : tree_of freq f).

Lemma t_range c : 1 <= c <= CHR_EOS -> 0 <= prefix f c - prefix f (c - low_bit c) <= total f.
Proof. apply stretch_range, Ht. Qed.

Lemma cell_zero : cell (f_count freq) 0 = Some (f 0).
Proof. unfold cell. simpl. apply (t_zero _ _ Ht). Qed.

Lemma cell_at c : 1 <= c <= CHR_EOS -> cell (f_count freq) c = Some (prefix f c - prefix f (c - low_bit c)).
Proof. intros Hc. unfold cell. rewrite (proj2 (Z.ltb_ge c 0)) by lia. by apply (t_cell _ _ Ht). Qed.

Lemma minus_loop_spec fuel : forall i j n, down_ends fuel i j = true -> 0 <= j -> i <= CHR_EOS ->
  prefix f i - prefix f j <= n < 2 ^ 32 -> minus_loop fuel (f_count freq) i j n = Some (n - (prefix f i - prefix f j)).
Proof.
  induction fuel as [|fuel IH]; intros i j n Hd Hj Hi Hn; [done|]. cbn [minus_loop down_ends] in *.
  destruct (Z.eqb_spec i j) as [->|Hne]; [f_equal; lia|].
  rewrite orb_false_l, !andb_true_iff, Z.eqb_eq, Z.leb_le, !Z.ltb_lt in Hd.
  destruct Hd as [[[[Hd1 Hd2] Hd3] Hd4] Hd5]. rewrite cell_at by lia. cbn [mbind option_bind].
  pose proof (t_range i ltac:(lia)) as Hr. destruct (walks i ltac:(unfold CHR_EOS in *; lia)) as (_ & Hl & _).
  pose proof (prefix_mono f j (i - low_bit i) (t_nonneg _ _ Ht) ltac:(lia) ltac:(lia)).
  rewrite Hd3, u32_small by (unfold is_u32; lia). rewrite IH; [f_equal; lia|done|lia|lia|lia].
Qed.

Lemma plus_loop_spec fuel : forall i n, down_ends fuel i 0 = true -> i <= CHR_EOS ->
  0 <= n -> n + prefix f i < 2 ^ 32 -> plus_loop fuel (f_count freq) i n = Some (n + prefix f i).
Proof.
  induction fuel as [|fuel IH]; intros i n Hd Hi Hn Hs; [done|]. cbn [plus_loop down_ends] in *.
  destruct (Z.eqb_spec i 0) as [->|Hne].
  { rewrite (proj2 (Z.ltb_ge 0 0)) by lia. rewrite prefix_0. f_equal. lia. }
  rewrite orb_false_l, !andb_true_iff, Z.eqb_eq, Z.leb_le, !Z.ltb_lt in Hd.
  destruct Hd as [[[[Hd1 Hd2] Hd3] Hd4] Hd5]. rewrite (proj2 (Z.ltb_lt 0 i)) by done.
  rewrite cell_at by lia. cbn [mbind option_bind].
  pose proof (t_range i ltac:(lia)) as Hr. destruct (walks i ltac:(unfold CHR_EOS in *; lia)) as (_ & Hl & _).
  pose proof (prefix_mono f 0 (i - low_bit i) (t_nonneg _ _ Ht) ltac:(lia) ltac:(lia)). rewrite prefix_0 in *.
  rewrite Hd3, u32_small by (unfold is_u32; lia). rewrite IH; [f_equal; lia|done|lia|lia|lia].
Qed.

Lemma frequency_count_spec ch : 0 <= ch <= CHR_EOS -> frequency_count freq ch = Some (f ch).
Proof.
  intros Hch. unfold frequency_count. destruct (Z.ltb_spec 0 ch) as [Hlt|Hle].
  - rewrite cell_at by lia. cbn [mbind option_bind].
    destruct (walks ch ltac:(unfold CHR_EOS in *; lia)) as (_ & Hl & _ & Hland & Hd & Hodd).
    pose proof (t_range ch ltac:(lia)) as Hr. pose proof (t_total _ _ Ht).
    pose proof (prefix_succ f ch ltac:(lia)) as Hs. pose proof (t_nonneg _ _ Ht ch ltac:(lia)).
    destruct (Z.eqb_spec (Z.land ch 1) 0) as [He|Hne]; cbn [andb].
    + rewrite Hland, minus_loop_spec; [f_equal; lia|done|lia|lia|lia].
    + rewrite (Hodd Hne). f_equal. lia.
  - replace ch with 0 by lia. by rewrite cell_zero.
Qed.

Lemma calc_spec ch : 0 <= ch <= CHR_EOS -> _calc freq ch = Some (before f ch).
Proof.
  intros Hch. unfold _calc, before. destruct (Z.ltb_spec 0 ch) as [Hlt|Hle].
  - rewrite (proj2 (Z.leb_gt ch 0)) by lia. rewrite cell_zero. cbn [mbind option_bind].
    destruct (walks ch ltac:(unfold CHR_EOS in *; lia)) as (_ & _ & Hd & _).
    pose proof (prefix_mono f (ch - 1) CHR_EOS (t_nonneg _ _ Ht) ltac:(lia) ltac:(lia)).
    pose proof (t_total _ _ Ht). pose proof (t_nonneg _ _ Ht 0 ltac:(unfold CHR_EOS; lia)).
    unfold total in *. apply plus_loop_spec; [done|lia|lia|lia].
  - by rewrite (proj2 (Z.leb_le ch 0)) by lia.
Qed.

Lemma search_loop_spec value e : forall fuel i, (e < fuel)%nat -> (e <= 8)%nat ->
  0 <= i -> i mod 2 ^ Z.of_nat e = 0 -> i + 2 ^ Z.of_nat e <= 256 ->
  f 0 + prefix f i <= value ->
  (value < f 0 + prefix f (i + 2 ^ Z.of_nat e) \/ i + 2 ^ Z.of_nat e = 256) ->
  exists i', search_loop fuel (f_count freq) value (half e) (f 0 + prefix f i) i = Some (f 0 + prefix f i', i') /\
    0 <= i' <= 255 /\ f 0 + prefix f i' <= value /\ (value < f 0 + prefix f (i' + 1) \/ i' = 255).
Proof.
  induction e as [|e IH]; intros fuel i Hf He Hi Hm Hle Hv Hup; (destruct fuel as [|fuel]; [lia|]); cbn [search_loop].
  - exists i. change (2 ^ Z.of_nat 0) with 1 in *. repeat split; try lia.
  - set (h := 2 ^ Z.of_nat e). assert (Hh : 0 < h) by (unfold h; lia).
    assert (H2 : 2 ^ Z.of_nat (S e) = 2 * h) by (unfold h; rewrite Nat2Z.inj_succ, Z.pow_succ_r by lia; done).
    rewrite H2 in *. change (half (S e)) with h. rewrite (proj2 (Z.ltb_lt 0 h)) by lia.
    rewrite (proj2 (Z.ltb_lt (i + h) CHR_RANGE)) by (unfold CHR_RANGE; lia).
    pose proof (low_bit_half (S e) i ltac:(lia) Hi Hm ltac:(change (half (S e)) with h; unfold CHR_EOS; lia)) as Hl.
    change (half (S e)) with h in Hl.
    rewrite cell_at by (unfold CHR_EOS; lia). rewrite Hl. cbn [mbind option_bind].
    replace (i + h - h) with i by lia.
    pose proof (prefix_mono f 0 (i + h) (t_nonneg _ _ Ht) ltac:(lia) ltac:(unfold CHR_EOS; lia)).
    pose proof (prefix_mono f (i + h) CHR_EOS (t_nonneg _ _ Ht) ltac:(unfold CHR_EOS; lia) ltac:(lia)).
    pose proof (t_total _ _ Ht). pose proof (t_nonneg _ _ Ht 0 ltac:(unfold CHR_EOS; lia)).
    rewrite prefix_0 in *. unfold total in *. rewrite u32_small by (unfold is_u32; lia).
    replace (f 0 + prefix f i + (prefix f (i + h) - prefix f i)) with (f 0 + prefix f (i + h)) by lia.
    assert (Hsh : Z.shiftr h 1 = half e).
    { unfold h. rewrite Z.shiftr_div_pow2 by lia. destruct e as [|e']; [done|]. unfold half.
      rewrite Nat2Z.inj_succ, Z.pow_succ_r by lia. change (2 ^ 1) with 2. rewrite Z.mul_comm. by apply Z.div_mul. }
    rewrite Hsh. assert (Hdiv : exists j, i = 2 * h * j) by (exists (i / (2 * h)); pose proof (Z.div_mod i (2 * h)); lia).
    destruct Hdiv as [j Hj]. destruct (Z.leb_spec (f 0 + prefix f (i + h)) value).
    + apply IH; try lia.
      * fold h. rewrite Hj. replace (2 * h * j + h) with ((2 * j + 1) * h) by lia. apply Z.mod_mul. lia.
      * fold h. replace (i + h + h) with (i + 2 * h) by lia. lia.
    + apply IH; fold h; try lia.
      rewrite Hj. replace (2 * h * j) with ((2 * j) * h) by lia. apply Z.mod_mul. lia.
Qed.

(** The search finds the symbol whose stretch of cumulative counts holds the
    value; a value that is out of range gives the last symbol. *)
Lemma search_spec value : 0 <= value -> exists ch, search freq value = Some (before f ch, ch) /\
  0 <= ch <= CHR_EOS /\ before f ch <= value /\ (value < before f ch + f ch \/ (ch = CHR_EOS /\ total f <= value)).
Proof.
  intros Hv. unfold search. rewrite cell_zero. cbn [mbind option_bind].
  destruct (Z.leb_spec (f 0) value) as [Hle|Hlt].
  - rewrite (t_mid _ _ Ht). change 128 with (half 8).
    destruct (search_loop_spec value 8 WALK 0) as (i & Hs & Hi & Hb & Hup);
      [unfold WALK; lia|lia|lia|done|done|rewrite prefix_0; lia|by right|].
    rewrite prefix_0, Z.add_0_r in Hs. rewrite Hs. cbn [mbind option_bind]. exists (i + 1). rewrite before_pos by lia. unfold CHR_EOS.
    split; [done|]. split; [lia|]. split; [done|].
    rewrite (prefix_succ f (i + 1)) in Hup by lia. replace (i + 1 - 1) with i in Hup by lia.
    destruct (decide (value < f 0 + prefix f i + f (i + 1))); [by left|]. right.
    destruct Hup as [?| ->]; [lia|]. split; [lia|].
    rewrite <- before_total. change CHR_EOS with (255 + 1). rewrite before_pos; lia.
  - exists 0. unfold before. simpl. repeat split; try (unfold CHR_EOS; lia).
Qed.

End Tree.

(** ** Updates *)

Lemma tree_ext freq f g : tree_of freq f -> (forall c, 0 <= c <= CHR_EOS -> f c = g c) -> tree_of freq g.
Proof.
  intros Ht He. assert (Htot : total g = total f).
  { unfold total. rewrite (prefix_ext f g), He by (done || unfold CHR_EOS; lia). done. }
  split.
  - apply Ht.
  - rewrite <- He by (unfold CHR_EOS; lia). apply Ht.
  - intros c Hc. destruct (walks c Hc) as (_ & Hl & _).
    rewrite <- !(prefix_ext f g) by (done || lia). by apply Ht.
  - rewrite Htot. apply Ht.
  - apply Ht.
  - intros c Hc. rewrite <- He by done. by apply Ht.
  - rewrite Htot. apply Ht.
Qed.

Lemma u32_add_u32 a b : u32 (u32 a + b) = u32 (a + b).
Proof. unfold u32. by rewrite Zplus_mod_idemp_l. Qed.

Lemma hits_nonneg fuel c x : 0 <= hits fuel c x.
Proof.
  revert c. induction fuel as [|fuel IH]; intros c; cbn [hits]; [lia|].
  specialize (IH (c + low_bit c)). destruct (c <? CHR_RANGE), (c =? x); lia.
Qed.

Lemma inc_loop_spec fuel n : forall cnt c, inc_ends fuel c = true -> 1 <= c -> length cnt = Z.to_nat CHR_RANGE ->
  exists cnt', inc_loop fuel cnt c n = Some cnt' /\ length cnt' = Z.to_nat CHR_RANGE /\
    forall x, 0 <= x -> cnt' !! Z.to_nat x =
      (λ v, if hits fuel c x =? 0 then v else u32 (v + hits fuel c x * n)) <$> cnt !! Z.to_nat x.
Proof.
  induction fuel as [|fuel IH]; intros cnt c He Hc Hlen; [done|]. cbn [inc_loop inc_ends hits] in *.
  destruct (Z.ltb_spec c CHR_RANGE) as [Hlt|Hge].
  2:{ exists cnt. split; [done|]. split; [done|]. intros x Hx. simpl. symmetry. apply option_fmap_id. }
  destruct (walks c ltac:(unfold CHR_RANGE in *; lia)) as (_ & Hl & _).
  destruct (lookup_lt_is_Some_2 cnt (Z.to_nat c)) as [v Hv]; [lia|].
  unfold add_cell, cell. rewrite (proj2 (Z.ltb_ge c 0)) by lia. rewrite Hv. cbn [mbind option_bind].
  destruct (IH (<[Z.to_nat c := u32 (v + n)]> cnt) (c + low_bit c) He ltac:(lia)) as (cnt' & Hcnt & Hlen' & Hat);
    [by rewrite length_insert|].
  exists cnt'. split; [exact Hcnt|]. split; [done|]. intros x Hx. rewrite Hat by done.
  pose proof (hits_nonneg fuel (c + low_bit c) x).
  destruct (Z.eqb_spec c x) as [->|Hne].
  - rewrite list_lookup_insert_eq, Hv by lia. simpl.
    rewrite (proj2 (Z.eqb_neq (1 + _) 0)) by lia.
    destruct (Z.eqb_spec (hits fuel (x + low_bit x) x) 0) as [->|?]; [do 2 f_equal; lia|].
    rewrite u32_add_u32. do 2 f_equal. lia.
  - rewrite list_lookup_insert_ne by lia. done.
Qed.

Lemma inc_spec freq f ch n : tree_of freq f -> 0 <= ch <= CHR_EOS -> 0 <= f ch + n -> total f + n < 2 ^ 31 ->
  exists freq', _inc freq ch n = Some freq' /\ tree_of freq' (bump f ch n).
Proof.
  intros Ht Hch Hn Htot. pose proof (total_bump f ch n Hch) as Hb.
  assert (Hnn : forall c, 0 <= c <= CHR_EOS -> 0 <= bump f ch n c).
  { intros c Hc. unfold bump. destruct (Z.eqb_spec c ch) as [->|]; [lia|]. by apply Ht. }
  assert (H0 : 0 <= total (bump f ch n)).
  { pose proof (before_le _ CHR_EOS Hnn ltac:(unfold CHR_EOS; lia)). specialize (Hnn CHR_EOS ltac:(unfold CHR_EOS; lia)). lia. }
  assert (Hsum : u32 (f_sum freq + n) = total (bump f ch n)).
  { rewrite (t_sum _ _ Ht), <- Hb. apply u32_small. unfold is_u32. lia. }
  unfold _inc. destruct (Z.ltb_spec 0 ch) as [Hlt|Hle].
  - destruct (walks ch ltac:(unfold CHR_EOS in *; lia)) as (He & _).
    destruct (inc_loop_spec WALK n (f_count freq) ch He ltac:(lia) (t_len _ _ Ht)) as (cnt & Hcnt & Hlen & Hat).
    rewrite Hcnt. cbn [mbind option_bind]. eexists. split; [done|]. split; cbn [f_count f_sum f_mid]; try done; try apply Ht.
    + change 0%nat with (Z.to_nat 0). rewrite (Hat 0 ltac:(lia)).
      rewrite (t_zero _ _ Ht : f_count freq !! Z.to_nat 0 = _). cbn [fmap option_fmap option_map].
      rewrite hits_covers by (unfold CHR_EOS in *; lia). unfold covers, bump.
      rewrite (proj2 (Z.leb_gt ch 0)), (proj2 (Z.eqb_neq 0 ch)), andb_false_r by lia. done.
    + intros c Hc. destruct (walks c Hc) as (_ & Hl & _).
      pose proof (stretch_range _ c Hnn Hc) as Hr. rewrite !prefix_bump in Hr |- * by lia.
      rewrite (Hat c ltac:(lia)), (t_cell _ _ Ht c Hc). cbn [fmap option_fmap option_map]. f_equal.
      rewrite hits_covers by (unfold CHR_EOS in *; lia). unfold covers.
      rewrite (proj2 (Z.leb_le 1 ch)) in Hr |- * by lia. cbn [andb] in *.
      destruct (Z.ltb_spec (c - low_bit c) ch), (Z.leb_spec ch c), (Z.leb_spec ch (c - low_bit c)); cbn [andb]; try lia.
      * rewrite (proj2 (Z.eqb_neq 1 0)) by lia. rewrite u32_small by (unfold is_u32; lia). lia.
      * rewrite Z.eqb_refl. lia.
      * rewrite Z.eqb_refl. lia.
    + lia.
  - replace ch with 0 in * by lia. unfold add_cell, cell. cbn [Z.ltb Z.compare].
    rewrite (t_zero _ _ Ht : f_count freq !! Z.to_nat 0 = _). cbn [mbind option_bind].
    eexists. split; [done|]. split; cbn [f_count f_sum f_mid]; try done; try apply Ht.
    + rewrite length_insert. apply Ht.
    + change (Z.to_nat 0) with 0%nat. rewrite list_lookup_insert_eq by (rewrite (t_len _ _ Ht); unfold CHR_RANGE; lia).
      unfold bump. simpl. f_equal. apply u32_small. unfold is_u32.
      pose proof (before_le _ 0 Hnn ltac:(lia)) as Hb0. unfold before, bump in Hb0. simpl in Hb0. unfold bump in Htot.
      split; [done|]. unfold total, bump in *. simpl in *. lia.
    + intros c Hc. destruct (walks c Hc) as (_ & Hl & _).
      rewrite list_lookup_insert_ne by lia. rewrite (t_cell _ _ Ht c Hc), !prefix_bump by lia. simpl. f_equal. lia.
    + lia.
Qed.

Lemma total_le f g : (forall c, 0 <= c <= CHR_EOS -> f c <= g c) -> total f <= total g.
Proof.
  intros Hle. unfold total. specialize (Hle 0 ltac:(unfold CHR_EOS; lia)) as H0.
  enough (forall x, 0 <= x -> x <= CHR_EOS -> prefix f x <= prefix g x) as H;
    [specialize (H CHR_EOS ltac:(unfold CHR_EOS; lia) ltac:(lia)); lia|].
  apply (prefix_ind (λ x, x <= CHR_EOS -> prefix f x <= prefix g x)); [intros; rewrite !prefix_0; lia|].
  intros x Hx IH Hxe. rewrite !(prefix_succ _ x) by done. specialize (Hle x ltac:(lia)). lia.
Qed.

(** The first [i] symbols with the frequencies of [g], the others with those of [f]. *)
Definition upto (i : Z) (g f : Z -> Z) : Z -> Z := λ c, if c <? i then g c else f c.

Lemma upto_step i g f n : 0 <= i -> g i = f i + n -> forall c, 0 <= c <= CHR_EOS -> bump (upto i g f) i n c = upto (i + 1) g f c.
Proof.
  intros Hi Hg c Hc. unfold bump, upto.
  destruct (Z.eqb_spec c i) as [->|]; [rewrite Z.ltb_irrefl, (proj2 (Z.ltb_lt i (i + 1))) by lia; lia|].
  destruct (Z.ltb_spec c i), (Z.ltb_spec c (i + 1)); done || lia.
Qed.

Lemma upto_all g f c : 0 <= c <= CHR_EOS -> upto CHR_RANGE g f c = g c.
Proof. intros Hc. unfold upto. by rewrite (proj2 (Z.ltb_lt c CHR_RANGE)) by (unfold CHR_EOS, CHR_RANGE in *; lia). Qed.

Lemma ones_loop_spec k : forall freq i, 0 <= i -> i + Z.of_nat k = CHR_RANGE ->
  tree_of freq (upto i (λ _, 1) (λ _, 0)) ->
  exists freq', ones_loop k freq i = Some freq' /\ tree_of freq' (upto CHR_RANGE (λ _, 1) (λ _, 0)).
Proof.
  induction k as [|k IH]; intros freq i Hi Hk Ht; cbn [ones_loop].
  { exists freq. split; [done|]. by replace CHR_RANGE with i by lia. }
  assert (Htot : total (upto i (λ _, 1) (λ _, 0)) <= 257).
  { transitivity (total (λ _, 1)); [|done]. apply total_le. intros c _. unfold upto. destruct (c <? i); lia. }
  destruct (inc_spec freq _ i 1 Ht) as (freq' & Hf & Ht');
    [unfold CHR_RANGE, CHR_EOS in *; lia|unfold upto; rewrite Z.ltb_irrefl; lia|lia|].
  rewrite Hf. cbn [mbind option_bind]. apply IH; [lia|lia|].
  eapply tree_ext; [exact Ht'|]. by apply upto_step.
Qed.

(** The frequencies every symbol starts with. *)
Lemma frequency_initialize_spec : exists freq, frequency_initialize = Some freq /\ tree_of freq (λ _, 1).
Proof.
  unfold frequency_initialize. change (mid_loop WALK 1) with (Some 128). cbn [mbind option_bind].
  set (freq0 := {| f_size := _; f_count := _; f_sum := _; f_mid := _ |}).
  assert (Hz : forall x, prefix (λ _, 0) x = 0).
  { intros x. unfold prefix. induction (Z.to_nat x) as [|y IH]; cbn [pre]; lia. }
  assert (H0 : tree_of freq0 (λ _, 0)).
  { split; try done.
    intros c Hc. rewrite !Hz. unfold freq0. cbn [f_count]. apply lookup_replicate. unfold CHR_RANGE, CHR_EOS in *. split; lia. }
  destruct (ones_loop_spec (Z.to_nat CHR_RANGE) freq0 0 ltac:(lia) ltac:(unfold CHR_RANGE; lia)) as (freq & Hf & Ht).
  { eapply tree_ext; [exact H0|]. intros c Hc. unfold upto. by rewrite (proj2 (Z.ltb_ge c 0)) by lia. }
  exists freq. split; [exact Hf|]. eapply tree_ext; [exact Ht|]. intros. by apply upto_all.
Qed.

(** All frequencies halved, rounded up. *)
Definition halved (f : Z -> Z) : Z -> Z := λ c, f c - f c / 2.

Lemma halve_loop_spec f k : (forall c, 0 <= c <= CHR_EOS -> 0 <= f c) -> total f < 2 ^ 31 -> forall freq i, 0 <= i -> i + Z.of_nat k = CHR_RANGE ->
  tree_of freq (upto i (halved f) f) ->
  exists freq', halve_loop k freq i = Some freq' /\ tree_of freq' (upto CHR_RANGE (halved f) f).
Proof.
  intros Hn Hlim. induction k as [|k IH]; intros freq i Hi Hk Ht; cbn [halve_loop].
  { exists freq. split; [done|]. by replace CHR_RANGE with i by lia. }
  assert (Hie : 0 <= i <= CHR_EOS) by (unfold CHR_RANGE, CHR_EOS in *; lia).
  assert (Hup : upto i (halved f) f i = f i) by (unfold upto; by rewrite Z.ltb_irrefl).
  rewrite (frequency_count_spec Ht) by done. cbn [mbind option_bind]. rewrite Hup.
  rewrite Z.shiftr_div_pow2 by lia. change (2 ^ 1) with 2. specialize (Hn i Hie) as Hi0.
  pose proof (Z.div_mod (f i) 2 ltac:(lia)). pose proof (Z.mod_pos_bound (f i) 2 ltac:(lia)).
  destruct (Z.ltb_spec 0 (f i / 2)) as [Hlt|Hle].
  - assert (Htot : total (upto i (halved f) f) <= total f).
    { apply total_le. intros c Hc. unfold upto, halved. specialize (Hn c Hc). pose proof (Z.div_pos (f c) 2 Hn ltac:(lia)). destruct (c <? i); lia. }
    destruct (inc_spec freq _ i (- (f i / 2)) Ht Hie) as (freq' & Hf & Ht'); [rewrite Hup; lia|lia|].
    rewrite Hf. cbn [mbind option_bind]. apply IH; [lia|lia|]. eapply tree_ext; [exact Ht'|]. apply upto_step; [lia|].
    unfold halved. lia.
  - cbn [mbind option_bind]. apply IH; [lia|lia|]. eapply tree_ext; [exact Ht|]. intros c Hc. unfold upto.
    destruct (Z.ltb_spec c i), (Z.ltb_spec c (i + 1)); try done; try lia.
    unfold halved. replace c with i by lia. lia.
Qed.

(** What an update does to the frequencies. *)
Definition updated (f : Z -> Z) (ch : Z) : Z -> Z :=
  if FREQ_LIMIT <=? total (bump f ch FREQ_INC) then halved (bump f ch FREQ_INC) else bump f ch FREQ_INC.

(** Every symbol has been counted, and not too often altogether. *)
Record counts (f : Z -> Z) : Prop := {
  c_pos c : 0 <= c <= CHR_EOS -> 1 <= f c;
  c_total : total f < FREQ_LIMIT;
}.

Lemma counts_ones : counts (λ _, 1).
Proof. split; [lia|done]. Qed.

Lemma total_halved f : 2 * total (halved f) <= total f + CHR_RANGE.
Proof.
  unfold total. enough (forall x, 0 <= x -> 2 * prefix (halved f) x <= prefix f x + x) as H.
  { specialize (H CHR_EOS ltac:(unfold CHR_EOS; lia)). unfold halved at 1.
    pose proof (Z.div_mod (f 0) 2 ltac:(lia)). pose proof (Z.mod_pos_bound (f 0) 2 ltac:(lia)). unfold CHR_RANGE, CHR_EOS in *. lia. }
  apply prefix_ind; [by rewrite !prefix_0|]. intros x Hx IH. rewrite !(prefix_succ _ x) by done.
  unfold halved at 2. pose proof (Z.div_mod (f x) 2 ltac:(lia)). pose proof (Z.mod_pos_bound (f x) 2 ltac:(lia)). lia.
Qed.

Lemma counts_nonneg f : counts f -> forall c, 0 <= c <= CHR_EOS -> 0 <= f c.
Proof. intros Hc c Hr. pose proof (c_pos _ Hc c Hr). lia. Qed.

Lemma counts_updated f ch : counts f -> 0 <= ch <= CHR_EOS -> counts (updated f ch).
Proof.
  intros Hc Hch. pose proof (total_bump f ch FREQ_INC Hch) as Hb. pose proof (c_total _ Hc) as Hlim.
  assert (Hp : forall c, 0 <= c <= CHR_EOS -> 1 <= bump f ch FREQ_INC c).
  { intros c Hr. pose proof (c_pos _ Hc c Hr). unfold bump, FREQ_INC. destruct (c =? ch); lia. }
  unfold updated. destruct (Z.leb_spec FREQ_LIMIT (total (bump f ch FREQ_INC))); [|by split].
  pose proof (total_halved (bump f ch FREQ_INC)). unfold FREQ_LIMIT, FREQ_INC, CHR_RANGE in *.
  split; [|unfold FREQ_LIMIT; lia]. intros c Hr. specialize (Hp c Hr). unfold halved.
  pose proof (Z.div_mod (bump f ch 4 c) 2 ltac:(lia)). pose proof (Z.mod_pos_bound (bump f ch 4 c) 2 ltac:(lia)). lia.
Qed.

Lemma frequency_update_spec freq f ch : tree_of freq f -> counts f -> 0 <= ch <= CHR_EOS ->
  exists freq', frequency_update freq ch = Some freq' /\ tree_of freq' (updated f ch).
Proof.
  intros Ht Hc Hch. pose proof (total_bump f ch FREQ_INC Hch) as Hb. pose proof (c_total _ Hc) as Hlim.
  pose proof (counts_nonneg _ Hc) as Hn. unfold frequency_update.
  destruct (inc_spec freq f ch FREQ_INC Ht Hch) as (freq' & Hf & Ht');
    [specialize (Hn ch Hch); unfold FREQ_INC; lia|unfold FREQ_LIMIT, FREQ_INC in *; lia|].
  rewrite Hf. cbn [mbind option_bind]. rewrite (t_sum _ _ Ht'). unfold updated.
  destruct (Z.leb_spec FREQ_LIMIT (total (bump f ch FREQ_INC))) as [Hle|Hlt]; [|by exists freq'].
  destruct (halve_loop_spec (bump f ch FREQ_INC) (Z.to_nat CHR_RANGE) (t_nonneg _ _ Ht') (t_total _ _ Ht') freq' 0 ltac:(lia)
    ltac:(unfold CHR_RANGE; lia)) as (freq'' & Hh & Ht'').
  { eapply tree_ext; [exact Ht'|]. intros c Hr. unfold upto. by rewrite (proj2 (Z.ltb_ge c 0)) by lia. }
  exists freq''. split; [exact Hh|]. eapply tree_ext; [exact Ht''|]. intros. by apply upto_all.
Qed.
