(* ===== verification/RangeCoder.v ===== *)
(** * The range coder (lib/librc, starter/pcat/append.c and decode.c)

    The modules of the boot image are compressed with an adaptive range coder:
    [encode] of starter/pcat/append.c writes them, [decode] of
    starter/pcat/decode.c unpacks them into memory when the machine starts.
    The theorems show that what was encoded comes back, and that the decoder
    is safe on whatever bytes it is given. *)

From S2P Require Import Prelude Frequency.

(** ** The code *)

Definition EOF : Z := -1.
Definition ERR_OK : Z := 0.
Definition ERR_FILE : Z := 1.
Definition MAX_RANGE : Z := 4294967295.
Definition MIN_RANGE : Z := 16777216.
Definition SHIFT : Z := 24.

(** What the functions behind [get] and [put] work on: the bytes still to
    read, the bytes written, the room left for more, and whether [put] still
    points to [bputc_1st]. *)
Record stream := {
  s_in : list Z;
  s_out : list Z;
  s_room : Z;
  s_1st : bool;
}.

Definition bgetc (io : stream) : Z * stream :=
  match s_in io with
  | [] => (EOF, io)
  | c :: l => (c, {| s_in := l; s_out := s_out io; s_room := s_room io; s_1st := s_1st io |})
  end.

Definition bputc (ch : Z) (io : stream) : Z * stream :=
  if 0 <? s_room io
  then (ch, {| s_in := s_in io; s_out := s_out io ++ [ch]; s_room := s_room io - 1; s_1st := s_1st io |})
  else (EOF, io).

(** The first byte is dropped. *)
Definition bputc_1st (ch : Z) (io : stream) : Z * stream :=
  (0, {| s_in := s_in io; s_out := s_out io; s_room := s_room io; s_1st := false |}).

Record RangeCoder := {
  rc_io : stream;
  rc_range : Z;
  rc_low : Z;
  rc_carry : bool;
  rc_buf : Z;
  rc_count : Z;
}.

Definition get (rc : RangeCoder) : Z * RangeCoder :=
  let '(c, io) := bgetc (rc_io rc) in
  (c, {| rc_io := io; rc_range := rc_range rc; rc_low := rc_low rc; rc_carry := rc_carry rc; rc_buf := rc_buf rc; rc_count := rc_count rc |}).

Definition put (ch : Z) (rc : RangeCoder) : Z * RangeCoder :=
  let '(r, io) := (if s_1st (rc_io rc) then bputc_1st else bputc) ch (rc_io rc) in
  (r, {| rc_io := io; rc_range := rc_range rc; rc_low := rc_low rc; rc_carry := rc_carry rc; rc_buf := rc_buf rc; rc_count := rc_count rc |}).

Definition set_low (rc : RangeCoder) (low : Z) : RangeCoder :=
  {| rc_io := rc_io rc; rc_range := rc_range rc; rc_low := low; rc_carry := rc_carry rc; rc_buf := rc_buf rc; rc_count := rc_count rc |}.
Definition set_range (rc : RangeCoder) (range : Z) : RangeCoder :=
  {| rc_io := rc_io rc; rc_range := range; rc_low := rc_low rc; rc_carry := rc_carry rc; rc_buf := rc_buf rc; rc_count := rc_count rc |}.
Definition set_carry (rc : RangeCoder) (carry : bool) : RangeCoder :=
  {| rc_io := rc_io rc; rc_range := rc_range rc; rc_low := rc_low rc; rc_carry := carry; rc_buf := rc_buf rc; rc_count := rc_count rc |}.
Definition set_buf (rc : RangeCoder) (buf : Z) : RangeCoder :=
  {| rc_io := rc_io rc; rc_range := rc_range rc; rc_low := rc_low rc; rc_carry := rc_carry rc; rc_buf := buf; rc_count := rc_count rc |}.
Definition set_count (rc : RangeCoder) (count : Z) : RangeCoder :=
  {| rc_io := rc_io rc; rc_range := rc_range rc; rc_low := rc_low rc; rc_carry := rc_carry rc; rc_buf := rc_buf rc; rc_count := count |}.

Definition rc_initialize (io : stream) : RangeCoder :=
  {| rc_io := io; rc_range := MAX_RANGE; rc_low := 0; rc_carry := false; rc_buf := 0; rc_count := 0 |}.

Fixpoint put_loop (n : nat) (rc : RangeCoder) (ch : Z) : Z * RangeCoder :=
  match n with
  | O => (ERR_OK, rc)
  | S n =>
      let '(r, rc) := put ch rc in
      if r =? EOF then (ERR_FILE, rc) else put_loop n rc ch
  end.

Definition _put_buf (rc : RangeCoder) (ch n : Z) : Z * RangeCoder :=
  let '(r, rc) := put (u8 (rc_buf rc)) rc in
  if r =? EOF then (ERR_FILE, rc) else put_loop (Z.to_nat n) rc ch.

(** The head of [rc_encode_normalize]: a carry runs into the bytes held back. *)
Definition carry_over (rc : RangeCoder) : Z * RangeCoder :=
  if rc_carry rc then
    let rc := set_buf (set_carry rc false) (u32 (rc_buf rc + 1)) in
    if 0 <? rc_count rc then
      let '(result, rc) := _put_buf rc 0 (rc_count rc - 1) in
      if negb (result =? ERR_OK) then (result, rc)
      else (ERR_OK, set_count (set_buf rc 0) 0)
    else (ERR_OK, rc)
  else (ERR_OK, rc).

(** The loops that shift by a byte run at most three times. *)
Definition TURNS : nat := 5.

Fixpoint encode_shift (f : nat) (rc : RangeCoder) : option (Z * RangeCoder) :=
  match f with
  | O => None
  | S f =>
      if rc_range rc <? MIN_RANGE then
        let '(result, rc) :=
          if rc_low rc <? u32 (Z.shiftl 255 SHIFT) then
            let '(result, rc) := _put_buf rc 255 (rc_count rc) in
            if negb (result =? ERR_OK) then (result, rc)
            else (ERR_OK, set_count (set_buf rc (Z.shiftr (rc_low rc) SHIFT)) 0)
          else (ERR_OK, set_count rc (u32 (rc_count rc + 1))) in
        if negb (result =? ERR_OK) then Some (result, rc)
        else
          let rc := set_low rc (u32 (Z.shiftl (rc_low rc) 8)) in
          encode_shift f (set_range rc (u32 (Z.shiftl (rc_range rc) 8)))
      else Some (ERR_OK, rc)
  end.

Definition rc_encode_normalize (rc : RangeCoder) : option (Z * RangeCoder) :=
  let '(result, rc) := carry_over rc in
  if negb (result =? ERR_OK) then Some (result, rc) else encode_shift TURNS rc.

Definition _finish (rc : RangeCoder) : Z * RangeCoder :=
  let '(ch, rc) :=
    if rc_carry rc then (0, set_buf (set_carry rc false) (u32 (rc_buf rc + 1))) else (255, rc) in
  let '(result, rc) := _put_buf rc ch (rc_count rc) in
  if negb (result =? ERR_OK) then (result, rc)
  else
    let '(r, rc) := put (u8 (Z.shiftr (rc_low rc) 24)) rc in
    if r =? EOF then (ERR_FILE, rc)
    else
      let '(r, rc) := put (Z.land (Z.shiftr (rc_low rc) 16) 255) rc in
      if r =? EOF then (ERR_FILE, rc)
      else
        let '(r, rc) := put (Z.land (Z.shiftr (rc_low rc) 8) 255) rc in
        if r =? EOF then (ERR_FILE, rc)
        else
          let '(r, rc) := put (Z.land (rc_low rc) 255) rc in
          if r =? EOF then (ERR_FILE, rc) else (ERR_OK, rc).

(** An unsigned division; by zero it is undefined. *)
Definition udiv (x y : Z) : option Z := if y =? 0 then None else Some (x / y).

Definition frequency_encode (freq : Frequency) (rc : RangeCoder) (ch : Z) : option (Z * Frequency * RangeCoder) :=
  tmp ← udiv (rc_range rc) (f_sum freq);
  let prev_low := rc_low rc in
  c ← _calc freq ch;
  let rc := set_low rc (u32 (rc_low rc + u32 (c * tmp))) in
  let rc := set_carry rc (rc_low rc <? prev_low) in
  n ← frequency_count freq ch;
  let rc := set_range rc (u32 (n * tmp)) in
  '(result, rc) ← rc_encode_normalize rc;
  if negb (result =? ERR_OK) then Some (result, freq, rc)
  else
    freq ← frequency_update freq ch;
    Some (ERR_OK, freq, rc).

Fixpoint encode_loop (f : nat) (freq : Frequency) (rc : RangeCoder) : option (Z * Frequency * RangeCoder) :=
  match f with
  | O => None
  | S f =>
      let '(ch, rc) := get rc in
      if ch =? EOF then Some (ERR_OK, freq, rc)
      else
        '(result, freq, rc) ← frequency_encode freq rc ch;
        if negb (result =? ERR_OK) then Some (result, freq, rc) else encode_loop f freq rc
  end.

Definition rc_encode (freq : Frequency) (rc : RangeCoder) : option (Z * RangeCoder) :=
  '(result, freq, rc) ← encode_loop (S (length (s_in (rc_io rc)))) freq rc;
  if negb (result =? ERR_OK) then Some (result, rc)
  else
    '(result, freq, rc) ← frequency_encode freq rc CHR_EOS;
    if negb (result =? ERR_OK) then Some (result, rc) else Some (_finish rc).

(** [encode] of append.c: the result and the bytes appended to a file that
    has [room] for them. *)
Definition encode (data : list Z) (room : Z) : option (Z * list Z) :=
  let rc := rc_initialize {| s_in := data; s_out := []; s_room := room; s_1st := true |} in
  freq ← frequency_initialize;
  '(result, rc) ← rc_encode freq rc;
  Some (result, s_out (rc_io rc)).

Fixpoint decode_shift (f : nat) (rc : RangeCoder) : option (Z * RangeCoder) :=
  match f with
  | O => None
  | S f =>
      if rc_range rc <? MIN_RANGE then
        let '(c, rc) := get rc in
        if c =? EOF then Some (ERR_FILE, rc)
        else
          let rc := set_low rc (u32 (u32 (Z.shiftl (rc_low rc) 8) + c)) in
          decode_shift f (set_range rc (u32 (Z.shiftl (rc_range rc) 8)))
      else Some (ERR_OK, rc)
  end.

Definition rc_decode_normalize (rc : RangeCoder) : option (Z * RangeCoder) := decode_shift TURNS rc.

Definition frequency_decode (freq : Frequency) (rc : RangeCoder) : option (Z * Frequency * RangeCoder) :=
  tmp ← udiv (rc_range rc) (f_sum freq);
  value ← udiv (rc_low rc) tmp;
  '(n, i) ← search freq value;
  let rc := set_low rc (u32 (rc_low rc - u32 (n * tmp))) in
  c ← frequency_count freq i;
  let rc := set_range rc (u32 (c * tmp)) in
  '(result, rc) ← rc_decode_normalize rc;
  if negb (result =? ERR_OK) then Some (EOF, freq, rc)
  else
    freq ← frequency_update freq i;
    Some (i, freq, rc).

Fixpoint decode_loop (f : nat) (freq : Frequency) (rc : RangeCoder) : option (Z * RangeCoder) :=
  match f with
  | O => None
  | S f =>
      '(c, freq, rc) ← frequency_decode freq rc;
      if c =? EOF then Some (ERR_FILE, rc)
      else if c =? CHR_EOS then Some (ERR_OK, rc)
      else
        let '(r, rc) := put (u8 c) rc in
        if r =? EOF then Some (ERR_FILE, rc) else decode_loop f freq rc
  end.

(** A symbol that does not end the loop takes room in the output. *)
Definition rc_decode (freq : Frequency) (rc : RangeCoder) : option (Z * RangeCoder) :=
  let '(c, rc) := get rc in
  if c =? EOF then Some (ERR_FILE, rc)
  else
    let rc := set_low rc (u32 (Z.shiftl c 24)) in
    let '(c, rc) := get rc in
    if c =? EOF then Some (ERR_FILE, rc)
    else
      let rc := set_low rc (Z.lor (rc_low rc) (u32 (Z.shiftl c 16))) in
      let '(c, rc) := get rc in
      if c =? EOF then Some (ERR_FILE, rc)
      else
        let rc := set_low rc (Z.lor (rc_low rc) (u32 (Z.shiftl c 8))) in
        let '(c, rc) := get rc in
        if c =? EOF then Some (ERR_FILE, rc)
        else
          let rc := set_low rc (Z.lor (rc_low rc) (u32 c)) in
          decode_loop (S (S (Z.to_nat (s_room (rc_io rc))))) freq rc.

(** [decode] of starter/pcat/decode.c: the [len] bytes at [src] unpacked into
    at most [max] bytes at [dest]. *)
Definition decode (src : list Z) (max : Z) : option (Z * list Z) :=
  let rc := rc_initialize {| s_in := src; s_out := []; s_room := max; s_1st := false |} in
  freq ← frequency_initialize;
  '(result, rc) ← rc_decode freq rc;
  Some (result, s_out (rc_io rc)).

(** ** Numbers written in bytes *)

Definition byte (b : Z) : Prop := 0 <= b < 256.

Definition num (l : list Z) : Z := foldl (λ a b, a * 256 + b) 0 l.

(** [256 ^ k] *)
Definition scale (k : nat) : Z := 256 ^ Z.of_nat k.

Lemma scale_S k : scale (S k) = 256 * scale k.
Proof. unfold scale. by rewrite Nat2Z.inj_succ, Z.pow_succ_r by lia. Qed.

Lemma scale_add j k : scale (j + k) = scale j * scale k.
Proof. unfold scale. rewrite Nat2Z.inj_add, Z.pow_add_r by lia. done. Qed.

Lemma scale_pos k : 1 <= scale k.
Proof. unfold scale. pose proof (Z.pow_pos_nonneg 256 (Z.of_nat k)). lia. Qed.

Lemma num_app l k : num (l ++ k) = num l * scale (length k) + num k.
Proof.
  unfold num. rewrite foldl_app. generalize (foldl (λ a b, a * 256 + b) 0 l). intros a. revert a.
  assert (H : forall a, foldl (λ a b, a * 256 + b) a k = a * scale (length k) + foldl (λ a b, a * 256 + b) 0 k).
  { induction k as [|b k IH] using rev_ind; intros a; [change (scale (length [])) with 1; simpl; lia|].
    rewrite !foldl_app. simpl. rewrite IH, length_app, Nat.add_comm. cbn [length Nat.add]. rewrite scale_S. lia. }
  intros. apply H.
Qed.

Lemma num_cons b l : num (b :: l) = b * scale (length l) + num l.
Proof. change (b :: l) with ([b] ++ l). by rewrite num_app. Qed.

Lemma num_range l : Forall byte l -> 0 <= num l < scale (length l).
Proof.
  induction 1 as [|b l Hb Hl IH]; [done|]. rewrite num_cons. cbn [length]. rewrite scale_S.
  unfold byte in Hb. nia.
Qed.

Lemma num_ff n : num (replicate n 255) = scale n - 1.
Proof. induction n as [|n IH]; [done|]. cbn [replicate]. rewrite num_cons, length_replicate, scale_S, IH. lia. Qed.

Lemma num_00 n : num (replicate n 0) = 0.
Proof. induction n as [|n IH]; [done|]. cbn [replicate]. rewrite num_cons, IH. lia. Qed.

(** The four bytes of a word. *)
Definition bytes4 (w : Z) : list Z :=
  [u8 (Z.shiftr w 24); Z.land (Z.shiftr w 16) 255; Z.land (Z.shiftr w 8) 255; Z.land w 255].

Lemma land_255 x : Z.land x 255 = x mod 256.
Proof. change 255 with (Z.ones 8). by rewrite Z.land_ones. Qed.

Lemma bytes4_bytes w : Forall byte (bytes4 w).
Proof.
  unfold bytes4, u8, byte. rewrite !land_255. change (2 ^ 8) with 256.
  repeat (constructor; [by apply Z.mod_pos_bound|]). constructor.
Qed.

Lemma num_bytes4 w : 0 <= w < 2 ^ 32 -> num (bytes4 w) = w.
Proof.
  intros Hw. unfold bytes4, u8, num. cbn [foldl]. rewrite !land_255, !Z.shiftr_div_pow2 by lia.
  rewrite !Z.mul_0_l, Z.add_0_l. change (2 ^ 24) with 16777216. change (2 ^ 16) with 65536. change (2 ^ 8) with 256. change (2 ^ 32) with 4294967296 in Hw.
  Z.to_euclidean_division_equations. lia.
Qed.

(** ** The coder on unbounded numbers

    Between two symbols the coder stands for an interval: its low end [L]
    counted in units of the last byte shifted out, and its width [R].  A
    symbol narrows it, and it is scaled by 256 until it is wide enough. *)

Definition shifts (R : Z) : nat :=
  if MIN_RANGE <=? R then 0 else if 65536 <=? R then 1 else if 256 <=? R then 2 else 3.

Record interval := { i_freq : Z -> Z; i_low : Z; i_width : Z }.

Definition share (iv : interval) : Z := i_width iv / total (i_freq iv).
Definition moved (iv : interval) (ch : Z) : nat := shifts (i_freq iv ch * share iv).

Definition narrow (iv : interval) (ch : Z) : interval :=
  let k := moved iv ch in
  {| i_freq := updated (i_freq iv) ch;
     i_low := (i_low iv + before (i_freq iv) ch * share iv) * scale k;
     i_width := i_freq iv ch * share iv * scale k |}.

(** The intervals of a text, and the bytes shifted out on the way. *)
Fixpoint narrows (iv : interval) (l : list Z) : interval * nat :=
  match l with
  | [] => (iv, O)
  | ch :: l => let '(iv', k) := narrows (narrow iv ch) l in (iv', (moved iv ch + k)%nat)
  end.

Record wide (iv : interval) : Prop := {
  w_counts : counts (i_freq iv);
  w_range : MIN_RANGE <= i_width iv < 2 ^ 32;
}.

Definition symbol (ch : Z) : Prop := 0 <= ch <= CHR_EOS.

Lemma shifts_small R : R < MIN_RANGE -> 1 <= R -> shifts R = S (shifts (R * 256)).
Proof.
  unfold shifts, MIN_RANGE. intros H1 H2.
  destruct (Z.leb_spec 16777216 R), (Z.leb_spec 65536 R), (Z.leb_spec 256 R), (Z.leb_spec 16777216 (R * 256)),
    (Z.leb_spec 65536 (R * 256)), (Z.leb_spec 256 (R * 256)); try lia; done.
Qed.

Lemma shifts_large R : MIN_RANGE <= R -> shifts R = O.
Proof. intros H. unfold shifts. by rewrite (proj2 (Z.leb_le _ _) H). Qed.

Lemma shifts_le R : (shifts R <= 3)%nat.
Proof. unfold shifts. repeat case_match; lia. Qed.

Lemma shifts_range R : 1 <= R < 2 ^ 32 -> MIN_RANGE <= R * scale (shifts R) < 2 ^ 32.
Proof.
  unfold shifts, MIN_RANGE. intros H.
  destruct (Z.leb_spec 16777216 R); [change (scale 0) with 1; lia|].
  destruct (Z.leb_spec 65536 R); [change (scale 1) with 256; lia|].
  destruct (Z.leb_spec 256 R); [change (scale 2) with 65536; lia|change (scale 3) with 16777216; lia].
Qed.

(** The stretch of a symbol: within the interval, and not empty. *)
Lemma share_spec iv ch : wide iv -> symbol ch ->
  1 <= share iv /\ 0 <= before (i_freq iv) ch * share iv /\ 1 <= i_freq iv ch * share iv /\
  (before (i_freq iv) ch + i_freq iv ch) * share iv <= i_width iv.
Proof.
  intros [Hc Hw] Hch. pose proof (c_pos _ Hc ch Hch) as Hp.
  destruct (before_le _ ch (counts_nonneg _ Hc) Hch) as [Hb Ht]. pose proof (c_total _ Hc) as Hlim.
  unfold share. set (t := total (i_freq iv)) in *. set (w := i_width iv) in *.
  assert (1 <= w / t) by (apply Z.div_le_lower_bound; unfold FREQ_LIMIT, MIN_RANGE in *; lia).
  pose proof (Z.mul_div_le w t ltac:(lia)). nia.
Qed.

Lemma wide_narrow iv ch : wide iv -> symbol ch -> wide (narrow iv ch).
Proof.
  intros Hw Hch. destruct (share_spec iv ch Hw Hch) as (H1 & H2 & H3 & H4). destruct Hw as [Hc Hr].
  split; cbn [narrow i_freq i_width]; [by apply counts_updated|]. apply shifts_range. nia.
Qed.

(** The intervals are nested. *)
Lemma narrows_nested l : forall iv, wide iv -> Forall symbol l ->
  let '(iv', k) := narrows iv l in
  i_low iv * scale k <= i_low iv' /\ i_low iv' + i_width iv' <= (i_low iv + i_width iv) * scale k /\ wide iv'.
Proof.
  induction l as [|ch l IH]; intros iv Hw Hl; cbn [narrows].
  { change (scale 0) with 1. split; [lia|]. split; [lia|done]. }
  apply Forall_cons in Hl as [Hch Hl]. specialize (IH _ (wide_narrow iv ch Hw Hch) Hl).
  destruct (narrows (narrow iv ch) l) as [iv' k]. destruct IH as (H1 & H2 & H3).
  destruct (share_spec iv ch Hw Hch) as (_ & Hb & _ & Ht). cbn [narrow i_low i_width] in *. fold (moved iv ch) in *.
  pose proof (scale_pos (moved iv ch)). pose proof (scale_pos k). rewrite scale_add.
  split; [|split; [|done]].
  - etransitivity; [|exact H1]. rewrite <- !Z.mul_assoc. apply Z.mul_le_mono_nonneg_r; nia.
  - etransitivity; [exact H2|]. rewrite (Z.mul_assoc _ (scale (moved iv ch))). apply Z.mul_le_mono_nonneg_r; [lia|].
    rewrite <- Z.mul_add_distr_r. apply Z.mul_le_mono_nonneg_r; nia.
Qed.

(** ** The encoder follows the intervals *)

(** The stream after [put] was called for the bytes [sent]. *)
Record says (io : stream) (sent : list Z) (R : Z) (inp : list Z) : Prop := {
  y_in : s_in io = inp;
  y_out : s_out io = drop 1 sent;
  y_room : s_room io = R - Z.of_nat (length (drop 1 sent));
  y_1st : s_1st io = bool_decide (sent = []);
}.

Definition set_io (rc : RangeCoder) (io : stream) : RangeCoder :=
  {| rc_io := io; rc_range := rc_range rc; rc_low := rc_low rc; rc_carry := rc_carry rc; rc_buf := rc_buf rc; rc_count := rc_count rc |}.

Ltac fields :=
  cbn [set_io set_low set_range set_carry set_buf set_count rc_io rc_range rc_low rc_carry rc_buf rc_count].

Lemma put_says rc sent R inp ch : says (rc_io rc) sent R inp -> 0 <= ch -> Z.of_nat (length sent) <= R ->
  exists r io, put ch rc = (r, set_io rc io) /\ r ≠ EOF /\ says io (sent ++ [ch]) R inp.
Proof.
  intros [Hin Hout Hroom H1] Hch Hlen. unfold put. rewrite H1. case_bool_decide as Hs.
  - subst sent. eexists _, _. split; [done|]. split; [done|]. split; simpl; try done.
  - unfold bputc. destruct sent as [|x sent]; [done|]. cbn [drop length app] in *. rewrite drop_0 in *.
    rewrite (proj2 (Z.ltb_lt 0 (s_room _))) by lia. eexists _, _. split; [done|].
    split; [unfold EOF; lia|]. split; cbn [s_in s_out s_room s_1st drop app]; rewrite ?drop_0; try done.
    + by rewrite Hout.
    + rewrite length_app, Hroom. cbn [length]. lia.
Qed.

Lemma set_io_io rc io io' : set_io (set_io rc io) io' = set_io rc io'.
Proof. done. Qed.

Lemma put_loop_says n : forall rc sent R inp ch, says (rc_io rc) sent R inp -> 0 <= ch ->
  Z.of_nat (length sent) + Z.of_nat n <= R + 1 ->
  exists io, put_loop n rc ch = (ERR_OK, set_io rc io) /\ says io (sent ++ replicate n ch) R inp.
Proof.
  induction n as [|n IH]; intros rc sent R inp ch Hs Hch Hlen; cbn [put_loop replicate].
  { exists (rc_io rc). split; [by destruct rc|]. by rewrite app_nil_r. }
  destruct (put_says rc sent R inp ch Hs Hch ltac:(lia)) as (r & io & Hp & Hr & Hs'). rewrite Hp.
  rewrite (proj2 (Z.eqb_neq r EOF) Hr).
  destruct (IH (set_io rc io) (sent ++ [ch]) R inp ch Hs' Hch) as (io' & Hp' & Hs'').
  { rewrite length_app. cbn [length]. lia. }
  exists io'. split; [by rewrite Hp'|]. by rewrite <- app_assoc in Hs''.
Qed.

Lemma put_buf_says rc sent R inp ch n : says (rc_io rc) sent R inp -> 0 <= ch -> 0 <= rc_buf rc < 256 -> 0 <= n ->
  Z.of_nat (length sent) + n <= R ->
  exists io, _put_buf rc ch n = (ERR_OK, set_io rc io) /\ says io (sent ++ rc_buf rc :: replicate (Z.to_nat n) ch) R inp.
Proof.
  intros Hs Hch Hb Hn Hlen. unfold _put_buf. unfold u8. rewrite Z.mod_small by done.
  destruct (put_says rc sent R inp (rc_buf rc) Hs ltac:(lia) ltac:(lia)) as (r & io & Hp & Hr & Hs'). rewrite Hp.
  rewrite (proj2 (Z.eqb_neq r EOF) Hr).
  destruct (put_loop_says (Z.to_nat n) (set_io rc io) (sent ++ [rc_buf rc]) R inp ch Hs' Hch) as (io' & Hp' & Hs'').
  { rewrite length_app. cbn [length]. lia. }
  exists io'. split; [by rewrite Hp'|]. by rewrite <- app_assoc in Hs''.
Qed.

(** The bytes held back: [buf] and [count] times [0xff]. *)
Definition held (rc : RangeCoder) (sent : list Z) : Z :=
  num (sent ++ rc_buf rc :: replicate (Z.to_nat (rc_count rc)) 255).

(** The state of the encoder with low end [L], after [s] shifts, when the
    bytes [sent] have left it. *)
Record enc (R : Z) (inp : list Z) (rc : RangeCoder) (sent : list Z) (L : Z) (s : nat) : Prop := {
  e_says : says (rc_io rc) sent R inp;
  e_bytes : Forall byte sent;
  e_low : L = held rc sent * 2 ^ 32 + (if rc_carry rc then 2 ^ 32 else 0) + rc_low rc;
  e_shifts : Z.of_nat s = Z.of_nat (length sent) + rc_count rc;
  e_buf : 0 <= rc_buf rc < 256;
  e_count : 0 <= rc_count rc;
  e_word : 0 <= rc_low rc < 2 ^ 32;
  e_range : 1 <= rc_range rc < 2 ^ 32;
  e_top : L + rc_range rc <= (num sent + 1) * scale (S (Z.to_nat (rc_count rc))) * 2 ^ 32;
}.

Lemma held_eq rc sent : 0 <= rc_count rc ->
  held rc sent = num sent * scale (S (Z.to_nat (rc_count rc))) + (rc_buf rc + 1) * scale (Z.to_nat (rc_count rc)) - 1.
Proof.
  intros Hc. unfold held. rewrite num_app, num_cons, num_ff. cbn [length]. rewrite length_replicate. lia.
Qed.

(** There is room for a carry in the first byte held back. *)
Lemma carry_room R inp rc sent L s : enc R inp rc sent L s -> rc_carry rc = true -> rc_buf rc + 1 < 256.
Proof.
  intros [_ _ HL _ _ Hc Hw Hr Ht] Hcarry. rewrite Hcarry, held_eq, scale_S in * by done.
  set (k := scale (Z.to_nat (rc_count rc))) in *. pose proof (scale_pos (Z.to_nat (rc_count rc))) as Hk. fold k in Hk.
  change (2 ^ 32) with 4294967296 in *. nia.
Qed.

Lemma Forall_replicate_byte n b : byte b -> Forall byte (replicate n b).
Proof. intros. by apply Forall_replicate. Qed.

Lemma carry_over_spec R inp rc sent L s : enc R inp rc sent L s -> Z.of_nat s <= R ->
  exists rc' sent', carry_over rc = (ERR_OK, rc') /\ enc R inp rc' sent' L s /\
    rc_carry rc' = false /\ rc_range rc' = rc_range rc.
Proof.
  intros He HR. destruct (rc_carry rc) eqn:Hcarry; [|unfold carry_over; rewrite Hcarry; by exists rc, sent].
  pose proof (carry_room _ _ _ _ _ _ He Hcarry) as Hroom.
  destruct He as [Hs Hby HL Hsh Hb Hc Hw Hr Ht]. unfold carry_over. rewrite Hcarry in *. cbv zeta.
  rewrite (u32_small (rc_buf rc + 1)) by (unfold is_u32; lia). cbn [set_buf set_carry rc_count].
  rewrite held_eq in HL by done. rewrite scale_S in *.
  destruct (Z.ltb_spec 0 (rc_count rc)) as [Hpos|Hz].
  - destruct (put_buf_says (set_buf (set_carry rc false) (rc_buf rc + 1)) sent R inp 0 (rc_count rc - 1)) as (io & Hp & Hs');
      [exact Hs|lia|simpl; lia|lia|lia|].
    change ({| rc_io := _; rc_range := _; rc_low := _; rc_carry := _; rc_buf := _; rc_count := rc_count rc |})
      with (set_buf (set_carry rc false) (rc_buf rc + 1)).
    rewrite Hp. simpl. eexists _, _. split; [done|]. split; [|done]. cbn [rc_buf set_buf set_carry] in Hs'.
    assert (Hk : Z.to_nat (rc_count rc) = S (Z.to_nat (rc_count rc - 1))) by lia.
    rewrite Hk, scale_S in *. set (k := scale (Z.to_nat (rc_count rc - 1))) in *.
    assert (Hnum : num (sent ++ rc_buf rc + 1 :: replicate (Z.to_nat (rc_count rc - 1)) 0) = (num sent * 256 + rc_buf rc + 1) * k).
    { rewrite num_app, num_cons, num_00. cbn [length]. rewrite length_replicate, scale_S. fold k. lia. }
    split; fields; try lia; try done.
    + apply Forall_app. split; [done|]. constructor; [unfold byte; lia|]. apply Forall_replicate_byte. unfold byte; lia.
    + rewrite held_eq by (simpl; lia). fields. rewrite Hnum. change (scale (S (Z.to_nat 0))) with 256.
      change (scale (Z.to_nat 0)) with 1. lia.
    + rewrite length_app. cbn [length]. rewrite length_replicate. lia.
    + rewrite Hnum. change (scale (S (Z.to_nat 0))) with 256. rewrite HL. lia.
  - eexists _, sent. split; [done|]. split; [|done].
    assert (Hk : rc_count rc = 0) by lia. rewrite Hk in *. change (scale (Z.to_nat 0)) with 1 in *.
    split; fields; rewrite ?Hk; try lia; try done.
    rewrite held_eq by (simpl; lia). fields. rewrite Hk. change (scale (S (Z.to_nat 0))) with 256.
    change (scale (Z.to_nat 0)) with 1. lia.
Qed.

Lemma u32_shl8 x : u32 (Z.shiftl x 8) = (x * 256) mod 2 ^ 32.
Proof. unfold u32. by rewrite Z.shiftl_mul_pow2 by lia. Qed.

(** One turn of the loop: the top byte of [low] leaves it. *)
Lemma encode_shift_turn R inp rc sent L s f : enc R inp rc sent L s -> rc_carry rc = false ->
  rc_range rc < MIN_RANGE -> Z.of_nat s <= R -> Z.of_nat s + 1 < 2 ^ 32 ->
  exists rc' sent', encode_shift (S f) rc = encode_shift f rc' /\ enc R inp rc' sent' (L * 256) (S s) /\
    rc_carry rc' = false /\ rc_range rc' = rc_range rc * 256.
Proof.
  intros [Hs Hby HL Hsh Hb Hc Hw Hr Ht] Hcarry Hlt HR Hs32. cbn [encode_shift]. rewrite Hcarry in HL.
  rewrite (proj2 (Z.ltb_lt _ _) Hlt). rewrite held_eq, scale_S in HL by done. rewrite scale_S in Ht.
  change (u32 (Z.shiftl 255 SHIFT)) with 4278190080. unfold MIN_RANGE in Hlt.
  assert (Hrange : u32 (Z.shiftl (rc_range rc) 8) = rc_range rc * 256) by (rewrite u32_shl8; apply Z.mod_small; lia).
  pose proof (u32_shl8 (rc_low rc)) as Hlow. set (k := scale (Z.to_nat (rc_count rc))) in *.
  destruct (Z.ltb_spec (rc_low rc) 4278190080) as [Hsmall|Hff].
  - destruct (put_buf_says rc sent R inp 255 (rc_count rc) Hs) as (io & Hp & Hs'); [lia|lia|lia|lia|].
    rewrite Hp. cbn [negb Z.eqb ERR_OK]. eexists _, _. split; [reflexivity|]. fields. rewrite Hrange, Hlow.
    split; [|done]. unfold SHIFT. rewrite Z.shiftr_div_pow2 by lia. change (2 ^ 24) with 16777216.
    assert (Hnum : num (sent ++ rc_buf rc :: replicate (Z.to_nat (rc_count rc)) 255) = num sent * (256 * k) + (rc_buf rc + 1) * k - 1).
    { fold (held rc sent). rewrite held_eq, scale_S by done. fold k. done. }
    pose proof (Z.div_mod (rc_low rc) 16777216 ltac:(lia)) as Hdm.
    pose proof (Z.mod_pos_bound (rc_low rc) 16777216 ltac:(lia)) as Hm.
    assert (Hmod : (rc_low rc * 256) mod 2 ^ 32 = (rc_low rc mod 16777216) * 256).
    { change (2 ^ 32) with (16777216 * 256). rewrite Z.mul_mod_distr_r by lia. done. }
    split; fields; try done; try lia.
    + apply Forall_app. split; [done|]. constructor; [done|]. apply Forall_replicate_byte. unfold byte; lia.
    + rewrite held_eq by (fields; lia). fields. rewrite Hcarry, Hnum, Hmod. change (scale (S (Z.to_nat 0))) with 256.
      change (scale (Z.to_nat 0)) with 1. lia.
    + rewrite length_app. cbn [length]. rewrite length_replicate. lia.
    + rewrite Hnum. change (scale (S (Z.to_nat 0))) with 256. lia.
  - cbn [negb Z.eqb ERR_OK]. eexists _, sent. split; [reflexivity|]. fields. rewrite Hrange, Hlow.
    rewrite (u32_small (rc_count rc + 1)) by (unfold is_u32; lia). split; [|done].
    assert (Hk : Z.to_nat (rc_count rc + 1) = S (Z.to_nat (rc_count rc))) by lia.
    assert (Hmod : (rc_low rc * 256) mod 2 ^ 32 = rc_low rc * 256 - 255 * 2 ^ 32).
    { symmetry. apply (Z.mod_unique_pos _ _ 255); lia. }
    split; fields; try done; try lia.
    + rewrite held_eq by (fields; lia). fields. rewrite Hk, !scale_S, Hmod. fold k. rewrite Hcarry. lia.
    + rewrite Hk, !scale_S. fold k. lia.
Qed.

Lemma encode_shift_spec R inp f : forall rc sent L s, enc R inp rc sent L s -> rc_carry rc = false ->
  (shifts (rc_range rc) < f)%nat -> Z.of_nat (s + shifts (rc_range rc)) <= R -> Z.of_nat (s + shifts (rc_range rc)) < 2 ^ 32 ->
  exists rc' sent', encode_shift f rc = Some (ERR_OK, rc') /\
    enc R inp rc' sent' (L * scale (shifts (rc_range rc))) (s + shifts (rc_range rc)) /\
    rc_carry rc' = false /\ rc_range rc' = rc_range rc * scale (shifts (rc_range rc)).
Proof.
  induction f as [|f IH]; intros rc sent L s He Hcarry Hf HR H32; [lia|].
  destruct (Z.ltb_spec (rc_range rc) MIN_RANGE) as [Hlt|Hge].
  - rewrite (shifts_small _ Hlt (proj1 (e_range _ _ _ _ _ _ He))) in Hf, HR, H32 |- *.
    destruct (encode_shift_turn R inp rc sent L s f He Hcarry Hlt) as (rc' & sent' & Heq & He' & Hc' & Hr'); [lia|lia|].
    rewrite Heq. rewrite <- Hr' in *.
    destruct (IH rc' sent' _ _ He' Hc') as (rc'' & sent'' & Heq' & He'' & Hc'' & Hr''); [lia|lia|lia|].
    exists rc'', sent''. rewrite scale_S, <- Nat.add_succ_comm. split; [done|]. split; [|split; [done|lia]].
    by replace (L * (256 * scale (shifts (rc_range rc')))) with (L * 256 * scale (shifts (rc_range rc'))) by lia.
  - rewrite shifts_large in * by done. change (scale 0) with 1. exists rc, sent. cbn [encode_shift].
    rewrite (proj2 (Z.ltb_ge _ _) Hge), !Z.mul_1_r, Nat.add_0_r. done.
Qed.

Lemma frequency_encode_spec R inp rc sent s freq iv ch : enc R inp rc sent (i_low iv) s -> rc_carry rc = false ->
  rc_range rc = i_width iv -> wide iv -> tree_of freq (i_freq iv) -> symbol ch ->
  Z.of_nat (s + moved iv ch) <= R -> Z.of_nat (s + moved iv ch) < 2 ^ 32 ->
  exists freq' rc' sent', frequency_encode freq rc ch = Some (ERR_OK, freq', rc') /\
    enc R inp rc' sent' (i_low (narrow iv ch)) (s + moved iv ch) /\ rc_carry rc' = false /\
    rc_range rc' = i_width (narrow iv ch) /\ tree_of freq' (i_freq (narrow iv ch)).
Proof.
  intros He Hcarry Hrange Hw Ht Hch HR H32. destruct (share_spec iv ch Hw Hch) as (H1 & H2 & H3 & H4).
  pose proof (w_range _ Hw) as Hwr. pose proof (w_counts _ Hw) as Hcnt.
  pose proof (counts_nonneg _ Hcnt 0 ltac:(unfold CHR_EOS; lia)).
  unfold frequency_encode. rewrite (t_sum _ _ Ht), Hrange. unfold udiv.
  assert (Htot : 0 < total (i_freq iv)).
  { pose proof (before_le _ ch (counts_nonneg _ Hcnt) Hch). pose proof (c_pos _ Hcnt ch Hch). lia. }
  rewrite (proj2 (Z.eqb_neq (total (i_freq iv)) 0)) by lia. fold (share iv). cbn [mbind option_bind].
  rewrite (calc_spec Ht ch Hch). cbn [mbind option_bind]. rewrite (frequency_count_spec Ht ch Hch). cbn [mbind option_bind].
  set (x := before (i_freq iv) ch * share iv) in *. set (w := i_freq iv ch * share iv) in *.
  assert (Hxw : x + w <= i_width iv) by (unfold x, w; lia).
  rewrite (u32_small x), (u32_small w) by (unfold is_u32; lia).
  set (rc1 := set_range _ _). destruct He as [Hs Hby HL Hsh Hb Hc Hwd Hr Htop]. rewrite Hcarry in HL.
  assert (He1 : enc R inp rc1 sent (i_low iv + x) s).
  { unfold rc1. split; fields; try done; try lia.
    - rewrite HL. unfold held. fields. unfold u32.
      destruct (Z.ltb_spec (rc_low rc + x) (2 ^ 32)) as [Hsm|Hbig].
      + rewrite Z.mod_small by lia. rewrite (proj2 (Z.ltb_ge (rc_low rc + x) (rc_low rc))) by lia. lia.
      + rewrite <- (Z.mod_unique_pos (rc_low rc + x) (2 ^ 32) 1 (rc_low rc + x - 2 ^ 32)) by lia.
        rewrite (proj2 (Z.ltb_lt (rc_low rc + x - 2 ^ 32) (rc_low rc))) by lia. lia.
    - apply u32_range. }
  destruct (carry_over_spec _ _ _ _ _ _ He1 ltac:(lia)) as (rc2 & sent2 & Hco & He2 & Hc2 & Hr2).
  unfold rc_encode_normalize. rewrite Hco. cbn [negb Z.eqb ERR_OK].
  assert (Hk : shifts (rc_range rc2) = moved iv ch) by (by rewrite Hr2).
  destruct (encode_shift_spec R inp TURNS rc2 sent2 _ _ He2 Hc2) as (rc3 & sent3 & Hes & He3 & Hc3 & Hr3);
    [pose proof (shifts_le (rc_range rc2)); unfold TURNS; lia|by rewrite Hk|by rewrite Hk|].
  rewrite Hes. cbn [mbind option_bind negb Z.eqb ERR_OK].
  destruct (frequency_update_spec freq (i_freq iv) ch Ht Hcnt Hch) as (freq' & Hu & Ht').
  rewrite Hu. cbn [mbind option_bind]. exists freq', rc3, sent3. rewrite Hk in *.
  split; [done|]. split; [exact He3|]. split; [done|]. split; [|exact Ht']. rewrite Hr3, Hr2. done.
Qed.

Lemma get_enc R c inp rc sent L s : enc R (c :: inp) rc sent L s ->
  exists rc', get rc = (c, rc') /\ enc R inp rc' sent L s /\ rc_carry rc' = rc_carry rc /\ rc_range rc' = rc_range rc.
Proof.
  intros [Hs Hby HL Hsh Hb Hc Hw Hr Ht]. destruct Hs as [Hin Hout Hroom H1]. unfold get, bgetc. rewrite Hin.
  eexists. split; [done|]. split; [|done]. split; fields; try done; try lia.
Qed.

Lemma encode_loop_spec R f : forall inp freq rc sent s iv, enc R inp rc sent (i_low iv) s -> rc_carry rc = false ->
  rc_range rc = i_width iv -> wide iv -> tree_of freq (i_freq iv) -> Forall byte inp -> (length inp < f)%nat ->
  let '(iv', k) := narrows iv inp in Z.of_nat (s + k) <= R -> Z.of_nat (s + k) < 2 ^ 32 ->
  exists freq' rc' sent', encode_loop f freq rc = Some (ERR_OK, freq', rc') /\
    enc R [] rc' sent' (i_low iv') (s + k) /\ rc_carry rc' = false /\ rc_range rc' = i_width iv' /\
    tree_of freq' (i_freq iv') /\ wide iv'.
Proof.
  induction f as [|f IH]; intros inp freq rc sent s iv He Hcarry Hrange Hw Ht Hby Hf; [lia|].
  destruct inp as [|c inp]; cbn [narrows].
  { intros _ _. cbn [encode_loop]. unfold get, bgetc. rewrite (y_in _ _ _ _ (e_says _ _ _ _ _ _ He)).
    rewrite Z.eqb_refl, Nat.add_0_r. exists freq, rc, sent. split; [by destruct rc|]. done. }
  apply Forall_cons in Hby as [Hc Hby]. destruct (get_enc R c inp rc sent _ _ He) as (rc1 & Hg & He1 & Hc1 & Hr1).
  destruct (narrows (narrow iv c) inp) as [iv' k] eqn:Hnar. intros HR H32. cbn [length] in Hf.
  cbn [encode_loop]. rewrite Hg. rewrite (proj2 (Z.eqb_neq c EOF)) by (unfold EOF, byte in *; lia).
  destruct (frequency_encode_spec R inp rc1 sent s freq iv c He1) as (freq' & rc2 & sent2 & Hfe & He2 & Hc2 & Hr2 & Ht2);
    [congruence|congruence|done|done|unfold symbol, byte, CHR_EOS in *; lia|lia|lia|].
  rewrite Hfe. cbn [mbind option_bind negb Z.eqb ERR_OK].
  specialize (IH inp freq' rc2 sent2 (s + moved iv c)%nat (narrow iv c) He2 Hc2 Hr2
    (wide_narrow iv c Hw ltac:(unfold symbol, byte, CHR_EOS in *; lia)) Ht2 Hby ltac:(lia)).
  rewrite Hnar in IH. rewrite Nat.add_assoc in *. apply IH; lia.
Qed.

(** [_finish] writes out the low end. *)
Lemma finish_spec R rc sent L s : enc R [] rc sent L s -> rc_carry rc = false -> Z.of_nat s + 4 <= R ->
  exists rc' sent', _finish rc = (ERR_OK, rc') /\ s_out (rc_io rc') = drop 1 sent' /\ Forall byte sent' /\
    length sent' = (s + 5)%nat /\ num sent' = L.
Proof.
  intros [Hs Hby HL Hsh Hb Hc Hw Hr Ht] Hcarry HR. unfold _finish. rewrite Hcarry in *.
  destruct (put_buf_says rc sent R [] 255 (rc_count rc) Hs) as (io & Hp & Hs'); [lia|lia|lia|lia|].
  rewrite Hp. cbn [negb Z.eqb ERR_OK].
  set (sent1 := sent ++ _) in *. assert (Hl1 : length sent1 = S s).
  { unfold sent1. rewrite length_app. cbn [length]. rewrite length_replicate. lia. }
  assert (Hby1 : Forall byte sent1).
  { apply Forall_app. split; [done|]. constructor; [done|]. apply Forall_replicate_byte. unfold byte; lia. }
  pose proof (bytes4_bytes (rc_low rc)) as H4. unfold bytes4 in H4.
  apply Forall_cons in H4 as [Hb1 H4]. apply Forall_cons in H4 as [Hb2 H4]. apply Forall_cons in H4 as [Hb3 H4].
  apply Forall_cons in H4 as [Hb4 _]. unfold byte in Hb1, Hb2, Hb3, Hb4.
  destruct (put_says (set_io rc io) sent1 R [] _ Hs' (proj1 Hb1)) as (r1 & io1 & Hp1 & Hr1 & Hs1); [lia|].
  fields. rewrite Hp1, (proj2 (Z.eqb_neq _ _) Hr1).
  destruct (put_says (set_io (set_io rc io) io1) _ R [] _ Hs1 (proj1 Hb2)) as (r2 & io2 & Hp2 & Hr2 & Hs2); [rewrite length_app; simpl; lia|].
  fields. rewrite Hp2, (proj2 (Z.eqb_neq _ _) Hr2).
  destruct (put_says (set_io (set_io (set_io rc io) io1) io2) _ R [] _ Hs2 (proj1 Hb3)) as (r3 & io3 & Hp3 & Hr3 & Hs3); [rewrite !length_app; simpl; lia|].
  fields. rewrite Hp3, (proj2 (Z.eqb_neq _ _) Hr3).
  destruct (put_says (set_io (set_io (set_io (set_io rc io) io1) io2) io3) _ R [] _ Hs3 (proj1 Hb4)) as (r4 & io4 & Hp4 & Hr4 & Hs4); [rewrite !length_app; simpl; lia|].
  fields. rewrite Hp4, (proj2 (Z.eqb_neq _ _) Hr4).
  rewrite <- !app_assoc in Hs4. cbn [app] in Hs4. fold (bytes4 (rc_low rc)) in Hs4.
  eexists _, (sent1 ++ bytes4 (rc_low rc)). split; [done|]. split; [apply (y_out _ _ _ _ Hs4)|].
  split; [apply Forall_app; split; [done|apply bytes4_bytes]|].
  split; [rewrite length_app, Hl1; simpl; lia|].
  rewrite num_app, num_bytes4 by done. fold (held rc sent) in *. unfold sent1. fold (held rc sent).
  change (scale (length (bytes4 (rc_low rc)))) with (2 ^ 32). lia.
Qed.

(** The interval before any symbol. *)
Definition whole : interval := {| i_freq := λ _, 1; i_low := 0; i_width := MAX_RANGE |}.

Lemma wide_whole : wide whole.
Proof. split; [apply counts_ones|]. unfold whole, MIN_RANGE, MAX_RANGE. simpl. lia. Qed.

Lemma enc_initial R inp : 0 <= R ->
  enc R inp (rc_initialize {| s_in := inp; s_out := []; s_room := R; s_1st := true |}) [] 0 0.
Proof.
  intros HR. split; unfold rc_initialize; cbn [rc_io rc_low rc_carry rc_buf rc_count rc_range]; try done; try lia.
  split; simpl; try done. lia.
Qed.

(** The bytes of a text are the low end of its interval. *)
Definition coded (data code : list Z) : Prop :=
  let '(iv, k) := narrows whole (data ++ [CHR_EOS]) in
  Forall byte code /\ length code = (k + 4)%nat /\ num code = i_low iv.

Lemma narrows_app l1 l2 : forall iv, narrows iv (l1 ++ l2) =
  let '(iv1, k1) := narrows iv l1 in let '(iv2, k2) := narrows iv1 l2 in (iv2, (k1 + k2)%nat).
Proof.
  induction l1 as [|c l1 IH]; intros iv; cbn [narrows app].
  - by destruct (narrows iv l2).
  - rewrite IH. destruct (narrows (narrow iv c) l1) as [iv1 k1], (narrows iv1 l2) as [iv2 k2]. by rewrite Nat.add_assoc.
Qed.

Lemma narrows_shifts l : forall iv, ((narrows iv l).2 <= 3 * length l)%nat.
Proof.
  induction l as [|c l IH]; intros iv; cbn [narrows]; [simpl; lia|]. specialize (IH (narrow iv c)).
  destruct (narrows (narrow iv c) l) as [iv' k]. cbn [snd length] in *. pose proof (shifts_le (i_freq iv c * share iv)).
  unfold moved. lia.
Qed.

Lemma encode_spec data R : Forall byte data -> Z.of_nat (3 * length data + 7) <= R -> Z.of_nat (3 * length data + 3) < 2 ^ 32 ->
  exists code, encode data R = Some (ERR_OK, code) /\ coded data code.
Proof.
  intros Hby HR H32. unfold encode, coded. destruct frequency_initialize_spec as (freq & Hfi & Ht). rewrite Hfi.
  cbn [mbind option_bind]. set (rc := rc_initialize _). unfold rc_encode.
  pose proof (enc_initial R data ltac:(lia)) as He. fold rc in He. change 0 with (i_low whole) in He.
  pose proof (encode_loop_spec R (S (length data)) data freq rc [] 0 whole He eq_refl eq_refl wide_whole Ht Hby ltac:(lia)) as Hloop.
  rewrite narrows_app. pose proof (narrows_shifts data whole) as Hk. destruct (narrows whole data) as [iv k] eqn:Hnar.
  cbn [snd] in Hk.
  destruct Hloop as (freq1 & rc1 & sent1 & Hl & He1 & Hc1 & Hr1 & Ht1 & Hw1); [lia|lia|].
  change (s_in (rc_io rc)) with data. rewrite Hl. cbn [mbind option_bind negb Z.eqb ERR_OK].
  assert (Heos : symbol CHR_EOS) by (unfold symbol, CHR_EOS; lia).
  pose proof (shifts_le (i_freq iv CHR_EOS * share iv)) as Hk2. fold (moved iv CHR_EOS) in Hk2.
  destruct (frequency_encode_spec R [] rc1 sent1 _ freq1 iv CHR_EOS He1 Hc1 Hr1 Hw1 Ht1 Heos) as (freq2 & rc2 & sent2 & Hf2 & He2 & Hc2 & _ & _);
    [lia|lia|].
  rewrite Hf2. cbn [mbind option_bind negb Z.eqb ERR_OK].
  destruct (finish_spec R rc2 sent2 _ _ He2 Hc2) as (rc3 & sent3 & Hfin & Hout & Hby3 & Hlen & Hnum); [lia|].
  rewrite Hfin. cbn [mbind option_bind]. eexists. split; [done|]. cbn [narrows]. rewrite Hout, Nat.add_0_r.
  pose proof (narrows_nested (data ++ [CHR_EOS]) whole wide_whole) as Hnest. rewrite narrows_app, Hnar in Hnest. cbn [narrows] in Hnest.
  destruct Hnest as (_ & Htop & Hw3).
  { apply Forall_app. split; [|by constructor]. eapply Forall_impl; [exact Hby|]. unfold symbol, byte, CHR_EOS. lia. }
  rewrite Nat.add_0_r in Htop. destruct sent3 as [|b sent3]; [simpl in Hlen; lia|]. apply Forall_cons in Hby3 as [Hb Hby3].
  cbn [drop length] in *. rewrite drop_0. split; [done|]. split; [lia|]. rewrite <- Hnum, num_cons.
  pose proof (num_range _ Hby3) as Hn3. pose proof (w_range _ Hw3) as Hr3. rewrite num_cons in Hnum.
  assert (Hl3 : length sent3 = (k + moved iv CHR_EOS + 4)%nat) by lia. rewrite Hl3 in *. rewrite (scale_add _ 4) in *.
  change (scale 4) with (2 ^ 32) in *. unfold whole at 1 2, MAX_RANGE in Htop. cbn [i_low i_width] in Htop.
  pose proof (scale_pos (k + moved iv CHR_EOS)). unfold byte, MIN_RANGE in *.
  set (S := scale (k + moved iv CHR_EOS)) in *. set (n := num sent3) in *. clearbody S n.
  assert (Hz : b = 0); [|subst b; lia]. destruct (decide (b = 0)) as [|Hne]; [done|exfalso].
  pose proof (Z.mul_le_mono_nonneg_r 1 b (S * 2 ^ 32) ltac:(lia) ltac:(lia)). lia.
Qed.

(** ** The decoder follows the intervals *)

(** [rc] with other bytes to read and another position. *)
Definition reader (rc : RangeCoder) (inp : list Z) (low range : Z) : RangeCoder :=
  {| rc_io := {| s_in := inp; s_out := s_out (rc_io rc); s_room := s_room (rc_io rc); s_1st := s_1st (rc_io rc) |};
     rc_range := range; rc_low := low; rc_carry := rc_carry rc; rc_buf := rc_buf rc; rc_count := rc_count rc |}.

Lemma u32_shift_in x c : u32 (u32 (Z.shiftl (u32 x) 8) + c) = u32 (x * 256 + c).
Proof. rewrite u32_add_u32, Z.shiftl_mul_pow2 by lia. unfold u32. by rewrite <- Zplus_mod_idemp_l, Zmult_mod_idemp_l, Zplus_mod_idemp_l. Qed.

Lemma decode_shift_spec f : forall rc inp low range, (shifts range < f)%nat -> 1 <= range < 2 ^ 32 -> Forall byte inp ->
  decode_shift f (reader rc inp (u32 low) range) =
    if decide (shifts range <= length inp)%nat
    then Some (ERR_OK, reader rc (drop (shifts range) inp)
                 (u32 (low * scale (shifts range) + num (take (shifts range) inp))) (range * scale (shifts range)))
    else Some (ERR_FILE, reader rc [] (u32 (low * scale (length inp) + num inp)) (range * scale (length inp))).
Proof.
  induction f as [|f IH]; intros rc inp low range Hf Hr Hby; [lia|]. cbn [decode_shift]. cbn [reader rc_range].
  destruct (Z.ltb_spec range MIN_RANGE) as [Hlt|Hge].
  - rewrite (shifts_small _ Hlt (proj1 Hr)) in *. destruct inp as [|c inp].
    + rewrite decide_False by (simpl; lia). change (scale (length [])) with 1. change (num []) with 0.
      unfold get. simpl. rewrite Z.mul_1_r, Z.add_0_r, Z.mul_1_r. done.
    + apply Forall_cons in Hby as [Hc Hby]. unfold get. cbn [bgetc s_in reader rc_io].
      rewrite (proj2 (Z.eqb_neq c EOF)) by (unfold EOF, byte in *; lia). cbn [reader rc_low rc_range].
      rewrite u32_shift_in, u32_shl8. rewrite (Z.mod_small (range * 256)) by (unfold MIN_RANGE in *; lia).
      specialize (IH rc inp (low * 256 + c) (range * 256) ltac:(lia) ltac:(unfold MIN_RANGE in *; lia) Hby).
      unfold set_range, set_low, reader in *. fields. cbn [s_in s_out s_room s_1st] in *. rewrite IH.
      set (k := shifts (range * 256)). cbn [length take drop]. rewrite !num_cons, !scale_S.
      destruct (decide (k <= length inp)%nat); [rewrite decide_True by lia|rewrite decide_False by lia].
      * rewrite length_take_le by done. rewrite (Z.mul_assoc range), (Z.mul_assoc low), (Z.add_assoc (low * 256 * _)).
        by rewrite Z.mul_add_distr_r.
      * rewrite (Z.mul_assoc range), (Z.mul_assoc low), (Z.add_assoc (low * 256 * _)). by rewrite Z.mul_add_distr_r.
  - rewrite shifts_large by done. rewrite decide_True by lia. change (scale 0) with 1. rewrite take_0, drop_0.
    change (num []) with 0. by rewrite !Z.mul_1_r, Z.add_0_r.
Qed.

Lemma before_mono f a b : (forall c, 0 <= c <= CHR_EOS -> 0 <= f c) -> 0 <= a < b -> b <= CHR_EOS ->
  before f a + f a <= before f b.
Proof.
  intros Hf Hab Hb. rewrite <- before_next by lia. replace b with (b - 1 + 1) by lia. rewrite !before_pos by lia.
  pose proof (prefix_mono f a (b - 1) Hf). lia.
Qed.

(** The stretches of two symbols do not overlap. *)
Lemma stretch_unique f a b v : (forall c, 0 <= c <= CHR_EOS -> 0 <= f c) -> symbol a -> symbol b ->
  before f a <= v < before f a + f a -> before f b <= v < before f b + f b -> a = b.
Proof.
  intros Hf Ha Hb Hva Hvb. unfold symbol in *. destruct (Z.lt_trichotomy a b) as [Hlt|[?|Hlt]]; [|done|].
  - pose proof (before_mono f a b Hf ltac:(lia) ltac:(lia)). lia.
  - pose proof (before_mono f b a Hf ltac:(lia) ltac:(lia)). lia.
Qed.

Lemma frequency_decode_spec freq f rc inp low range : tree_of freq f -> counts f -> MIN_RANGE <= range < 2 ^ 32 ->
  0 <= low < 2 ^ 32 -> Forall byte inp ->
  let tmp := range / total f in
  exists ch, symbol ch /\ before f ch * tmp <= low /\
    (low < (before f ch + f ch) * tmp \/ (ch = CHR_EOS /\ total f * tmp <= low)) /\
    let k := shifts (f ch * tmp) in
    if decide (k <= length inp)%nat
    then exists freq', tree_of freq' (updated f ch) /\
           frequency_decode freq (reader rc inp low range) =
           Some (ch, freq', reader rc (drop k inp)
             (u32 ((low - before f ch * tmp) * scale k + num (take k inp))) (f ch * tmp * scale k))
    else exists low' range', frequency_decode freq (reader rc inp low range) = Some (EOF, freq, reader rc [] low' range').
Proof.
  intros Ht Hc Hr Hl Hby tmp. pose proof (counts_nonneg _ Hc) as Hn. pose proof (c_total _ Hc) as Htot.
  assert (Hpos : 0 < total f).
  { pose proof (before_le f 0 Hn ltac:(unfold CHR_EOS; lia)). pose proof (c_pos _ Hc 0 ltac:(unfold CHR_EOS; lia)). lia. }
  assert (H1 : 1 <= tmp) by (apply Z.div_le_lower_bound; unfold MIN_RANGE, FREQ_LIMIT in *; lia).
  pose proof (Z.mul_div_le range (total f) Hpos) as Hdle. fold tmp in Hdle.
  destruct (search_spec Ht (low / tmp)) as (ch & Hs & Hch & Hb & Hup); [apply Z.div_pos; lia|].
  exists ch. split; [done|].
  pose proof (Z.mul_div_le low tmp ltac:(lia)) as Hle. pose proof (Z.mul_succ_div_gt low tmp ltac:(lia)) as Hgt.
  destruct (before_le f ch Hn Hch) as [Hb0 Hbt]. pose proof (c_pos _ Hc ch Hch) as Hp.
  assert (Hblow : before f ch * tmp <= low) by nia. split; [done|].
  split. { destruct Hup as [Hup|[-> Hup]]; [left|right; split; [done|]]; nia. }
  assert (Hw : f ch * tmp <= range) by nia.
  unfold frequency_decode. cbn [reader rc_range rc_low]. rewrite (t_sum _ _ Ht). unfold udiv.
  rewrite (proj2 (Z.eqb_neq (total f) 0)) by lia. cbn [mbind option_bind]. fold tmp.
  rewrite (proj2 (Z.eqb_neq tmp 0)) by lia. cbn [mbind option_bind]. rewrite Hs. cbn [mbind option_bind].
  rewrite (frequency_count_spec Ht ch Hch). cbn [mbind option_bind]. cbv zeta.
  rewrite (u32_small (before f ch * tmp)), (u32_small (f ch * tmp)) by (unfold is_u32; nia).
  set (x := f ch * tmp) in *. assert (Hx : 1 <= x < 2 ^ 32) by (unfold x; nia).
  pose proof (decode_shift_spec TURNS rc inp (low - before f ch * tmp) x
    ltac:(pose proof (shifts_le x); unfold TURNS; lia) Hx Hby) as Hd.
  unfold rc_decode_normalize, set_range, set_low, reader in *. fields. cbn [s_in s_out s_room s_1st] in *.
  rewrite Hd. destruct (decide (shifts x <= length inp)%nat); cbn [mbind option_bind negb Z.eqb ERR_OK ERR_FILE].
  - destruct (frequency_update_spec freq f ch Ht Hc Hch) as (freq' & Hu & Ht'). exists freq'. split; [done|].
    rewrite Hu. done.
  - eexists _, _. done.
Qed.

Lemma digit_bounds a x b n s : 0 <= n < s -> a * s <= x * s + n < b * s -> a <= x < b.
Proof. intros. nia. Qed.

(** The decoder is [low] above the low end of the interval, and the bytes
    [rem] lead to the low end of the last interval of the text [l]. *)
Definition on_track (iv : interval) (l rem : list Z) (low : Z) : Prop :=
  let '(iv', k) := narrows iv l in
  Forall byte rem /\ length rem = k /\ (i_low iv + low) * scale k + num rem = i_low iv'.

Lemma on_track_low iv l rem low : wide iv -> Forall symbol l -> on_track iv l rem low -> 0 <= low < i_width iv.
Proof.
  intros Hw Hl. unfold on_track. pose proof (narrows_nested l iv Hw Hl) as Hn. destruct (narrows iv l) as [iv' k].
  intros (Hby & Hlen & Hv). destruct Hn as (Hlo & Hhi & Hw'). pose proof (num_range _ Hby) as Hr. rewrite Hlen in Hr.
  pose proof (w_range _ Hw'). unfold MIN_RANGE in *.
  pose proof (digit_bounds (i_low iv) (i_low iv + low) (i_low iv + i_width iv) (num rem) (scale k) Hr ltac:(lia)). lia.
Qed.

Lemma on_track_step iv ch l rem low : wide iv -> symbol ch -> Forall symbol l -> on_track iv (ch :: l) rem low ->
  let k := moved iv ch in
  before (i_freq iv) ch * share iv <= low < (before (i_freq iv) ch + i_freq iv ch) * share iv /\
  (k <= length rem)%nat /\
  on_track (narrow iv ch) l (drop k rem) ((low - before (i_freq iv) ch * share iv) * scale k + num (take k rem)).
Proof.
  intros Hw Hch Hl. unfold on_track. cbn [narrows]. pose proof (narrows_nested l _ (wide_narrow iv ch Hw Hch) Hl) as Hn.
  destruct (narrows (narrow iv ch) l) as [iv' k2]. intros (Hby & Hlen & Hv). set (k := moved iv ch) in *.
  destruct Hn as (Hlo & Hhi & Hw'). pose proof (w_range _ Hw') as Hwr. unfold MIN_RANGE in Hwr.
  rewrite <- (take_drop k rem) in Hby, Hv at 1. apply Forall_app in Hby as [Hby1 Hby2].
  pose proof (num_range _ Hby1) as Hr1. pose proof (num_range _ Hby2) as Hr2.
  rewrite num_app, scale_add in Hv. rewrite length_drop, length_take in *.
  replace (length rem - k)%nat with k2 in * by lia. replace (k `min` length rem)%nat with k in * by lia.
  cbn [narrow i_low i_width] in Hlo, Hhi |- *. fold k in Hlo, Hhi |- *.
  set (b := before _ _ * share iv) in *. set (w := i_freq iv ch * share iv) in *.
  set (t := num (take k rem)) in *. set (d := num (drop k rem)) in *.
  assert (HV : ((i_low iv + low) * scale k + t) * scale k2 + d = i_low iv') by lia.
  pose proof (digit_bounds ((i_low iv + b) * scale k) ((i_low iv + low) * scale k + t) ((i_low iv + b + w) * scale k) d (scale k2) Hr2
    ltac:(lia)) as H2.
  pose proof (digit_bounds (i_low iv + b) (i_low iv + low) (i_low iv + b + w) t (scale k) Hr1 ltac:(lia)) as H1.
  split; [unfold b, w in *; lia|]. split; [lia|]. split; [done|]. split; [lia|]. rewrite <- HV. lia.
Qed.

(** The symbol found is the one that was coded. *)
Lemma symbol_found iv ch c low : wide iv -> symbol ch -> symbol c ->
  before (i_freq iv) ch * share iv <= low < (before (i_freq iv) ch + i_freq iv ch) * share iv ->
  before (i_freq iv) c * share iv <= low ->
  low < (before (i_freq iv) c + i_freq iv c) * share iv \/ c = CHR_EOS /\ total (i_freq iv) * share iv <= low ->
  c = ch.
Proof.
  intros Hw Hch Hc Hstr Hb Hup. destruct (share_spec iv ch Hw Hch) as (Hsh & _ & _ & Htop).
  assert (Hn : forall c, 0 <= c <= CHR_EOS -> 0 <= i_freq iv c) by apply counts_nonneg, Hw.
  destruct Hup as [Hup|[_ Hup]].
  - apply (stretch_unique (i_freq iv) c ch (low / share iv) Hn Hc Hch);
      (split; [apply Z.div_le_lower_bound; lia|apply Z.div_lt_upper_bound; lia]).
  - destruct (before_le (i_freq iv) ch Hn Hch) as [_ Hbt]. nia.
Qed.

(** One symbol read back. *)
Lemma frequency_decode_step freq iv rc ch l rem tail low : tree_of freq (i_freq iv) -> wide iv -> symbol ch -> Forall symbol l ->
  Forall byte tail -> on_track iv (ch :: l) rem low ->
  exists freq' low', tree_of freq' (i_freq (narrow iv ch)) /\ on_track (narrow iv ch) l (drop (moved iv ch) rem) low' /\
    frequency_decode freq (reader rc (rem ++ tail) low (i_width iv)) =
    Some (ch, freq', reader rc (drop (moved iv ch) rem ++ tail) low' (i_width (narrow iv ch))).
Proof.
  intros Ht Hw Hch Hl Htl Hon. pose proof (on_track_low iv (ch :: l) rem low Hw (Forall_cons_2 _ _ _ Hch Hl) Hon) as Hlow.
  pose proof (w_range _ Hw) as Hwr. destruct (on_track_step iv ch l rem low Hw Hch Hl Hon) as (Hstr & Hk & Hon').
  assert (Hby : Forall byte rem) by (unfold on_track in Hon; destruct (narrows iv (ch :: l)); tauto).
  destruct (frequency_decode_spec freq (i_freq iv) rc (rem ++ tail) low (i_width iv) Ht (w_counts _ Hw) Hwr ltac:(lia))
    as (c & Hc & Hb & Hup & Hd); [by apply Forall_app|]. fold (share iv) in *.
  pose proof (symbol_found iv ch c low Hw Hch Hc Hstr Hb Hup) as ->.
  fold (moved iv ch) in Hd. rewrite decide_True in Hd by (rewrite length_app; lia). destruct Hd as (freq' & Ht' & Hd).
  rewrite drop_app_le, take_app_le in Hd by lia.
  exists freq', ((low - before (i_freq iv) ch * share iv) * scale (moved iv ch) + num (take (moved iv ch) rem)).
  split; [done|]. split; [done|]. rewrite Hd.
  pose proof (on_track_low _ l _ _ (wide_narrow iv ch Hw Hch) Hl Hon') as Hlow'.
  pose proof (w_range _ (wide_narrow iv ch Hw Hch)).
  rewrite u32_small by (unfold is_u32; lia). done.
Qed.

Lemma put_output rc inp low range c : byte c -> s_1st (rc_io rc) = false ->
  put (u8 c) (reader rc inp low range) =
  if 0 <? s_room (rc_io rc)
  then (c, reader (set_io rc {| s_in := []; s_out := s_out (rc_io rc) ++ [c]; s_room := s_room (rc_io rc) - 1; s_1st := false |}) inp low range)
  else (EOF, reader rc inp low range).
Proof.
  intros Hc H1. unfold put, u8. rewrite Z.mod_small by (unfold byte in Hc; lia). cbn [reader rc_io s_1st]. rewrite H1.
  unfold bputc, reader. cbn [s_room]. rewrite H1. by destruct (0 <? s_room (rc_io rc)).
Qed.

Lemma decode_loop_spec data : forall f freq iv rc rem tail low, tree_of freq (i_freq iv) -> wide iv ->
  Forall byte data -> Forall byte tail -> on_track iv (data ++ [CHR_EOS]) rem low ->
  s_1st (rc_io rc) = false -> (Z.to_nat (s_room (rc_io rc)) < f)%nat -> 0 <= s_room (rc_io rc) ->
  exists rc', decode_loop f freq (reader rc (rem ++ tail) low (i_width iv)) =
    Some (if Z.of_nat (length data) <=? s_room (rc_io rc) then ERR_OK else ERR_FILE, rc') /\
    s_out (rc_io rc') = s_out (rc_io rc) ++ take (Z.to_nat (s_room (rc_io rc))) data.
Proof.
  induction data as [|c data IH]; intros f freq iv rc rem tail low Ht Hw Hby Htl Hon H1 Hf Hroom;
    (destruct f as [|f]; [lia|]); cbn [decode_loop app] in *.
  - destruct (frequency_decode_step freq iv rc CHR_EOS [] rem tail low Ht Hw ltac:(unfold symbol, CHR_EOS; lia)
      ltac:(constructor) Htl Hon) as (freq' & low' & _ & _ & Hd).
    rewrite Hd. cbn [mbind option_bind]. rewrite (proj2 (Z.eqb_neq CHR_EOS EOF)) by done. rewrite Z.eqb_refl.
    eexists. rewrite (proj2 (Z.leb_le (Z.of_nat (length [])) _)) by (simpl; lia). split; [done|].
    by rewrite take_nil, app_nil_r.
  - apply Forall_cons in Hby as [Hc Hby].
    destruct (frequency_decode_step freq iv rc c (data ++ [CHR_EOS]) rem tail low Ht Hw) as (freq' & low' & Ht' & Hon' & Hd);
      [unfold symbol, byte, CHR_EOS in *; lia| |done|done|].
    { apply Forall_app. split; [|apply Forall_singleton; unfold symbol, CHR_EOS; lia].
      eapply Forall_impl; [exact Hby|]. unfold symbol, byte, CHR_EOS. lia. }
    rewrite Hd. cbn [mbind option_bind]. unfold byte in Hc. rewrite (proj2 (Z.eqb_neq c EOF)) by (unfold EOF; lia).
    rewrite (proj2 (Z.eqb_neq c CHR_EOS)) by (unfold CHR_EOS; lia). rewrite put_output by done.
    destruct (Z.ltb_spec 0 (s_room (rc_io rc))) as [Hpos|Hz].
    + rewrite (proj2 (Z.eqb_neq c EOF)) by (unfold EOF; lia).
      set (rc1 := set_io rc _). destruct (IH f freq' (narrow iv c) rc1 (drop (moved iv c) rem) tail low' Ht') as (rc' & Hl & Hout);
        [apply wide_narrow; [done|unfold symbol, CHR_EOS; lia]|done|done|done|done|simpl; lia|simpl; lia|].
      exists rc'. rewrite Hl. unfold rc1 in *. cbn [set_io rc_io s_room s_out] in *. split.
      * do 2 f_equal. cbn [length]. destruct (Z.leb_spec (Z.of_nat (length data)) (s_room (rc_io rc) - 1)),
          (Z.leb_spec (Z.of_nat (S (length data))) (s_room (rc_io rc))); done || lia.
      * rewrite Hout, <- app_assoc. replace (Z.to_nat (s_room (rc_io rc))) with (S (Z.to_nat (s_room (rc_io rc) - 1))) by lia. done.
    + rewrite Z.eqb_refl. eexists. rewrite (proj2 (Z.leb_gt (Z.of_nat (length (c :: data))) _)) by (cbn [length]; lia).
      split; [done|]. replace (Z.to_nat (s_room (rc_io rc))) with 0%nat by lia. by rewrite take_0, app_nil_r.
Qed.

Lemma take_drop_commute_sub {A} (l : list A) k m : (k <= m)%nat -> take (m - k) (drop k l) = drop k (take m l).
Proof. intros. rewrite firstn_skipn_comm. do 2 f_equal. lia. Qed.

(** The code ends too early. *)
Lemma frequency_decode_cut freq iv rc ch l rem m low : tree_of freq (i_freq iv) -> wide iv -> symbol ch -> Forall symbol l ->
  on_track iv (ch :: l) rem low -> (m < length rem)%nat ->
  (exists freq' low' m', tree_of freq' (i_freq (narrow iv ch)) /\ (m' < length (drop (moved iv ch) rem))%nat /\
    on_track (narrow iv ch) l (drop (moved iv ch) rem) low' /\
    frequency_decode freq (reader rc (take m rem) low (i_width iv)) =
    Some (ch, freq', reader rc (take m' (drop (moved iv ch) rem)) low' (i_width (narrow iv ch)))) \/
  (exists low' range', frequency_decode freq (reader rc (take m rem) low (i_width iv)) = Some (EOF, freq, reader rc [] low' range')).
Proof.
  intros Ht Hw Hch Hl Hon Hm. pose proof (on_track_low iv (ch :: l) rem low Hw (Forall_cons_2 _ _ _ Hch Hl) Hon) as Hlow.
  pose proof (w_range _ Hw) as Hwr. destruct (on_track_step iv ch l rem low Hw Hch Hl Hon) as (Hstr & Hk & Hon').
  assert (Hby : Forall byte rem) by (unfold on_track in Hon; destruct (narrows iv (ch :: l)); tauto).
  destruct (frequency_decode_spec freq (i_freq iv) rc (take m rem) low (i_width iv) Ht (w_counts _ Hw) Hwr ltac:(lia))
    as (c & Hc & Hb & Hup & Hd); [by apply Forall_take|]. fold (share iv) in *.
  pose proof (symbol_found iv ch c low Hw Hch Hc Hstr Hb Hup) as ->.
  fold (moved iv ch) in Hd. cbv zeta in Hd. rewrite length_take in Hd.
  destruct (decide (moved iv ch <= m `min` length rem)%nat) as [Hle|]; [left|right; by apply Hd].
  destruct Hd as (freq' & Ht' & Hd). rewrite take_take, <- take_drop_commute_sub in Hd by lia.
  replace (moved iv ch `min` m)%nat with (moved iv ch) in Hd by lia.
  exists freq', ((low - before (i_freq iv) ch * share iv) * scale (moved iv ch) + num (take (moved iv ch) rem)), (m - moved iv ch)%nat.
  split; [done|]. split; [rewrite length_drop; lia|]. split; [done|]. rewrite Hd.
  pose proof (on_track_low _ l _ _ (wide_narrow iv ch Hw Hch) Hl Hon') as Hlow'.
  pose proof (w_range _ (wide_narrow iv ch Hw Hch)).
  rewrite u32_small by (unfold is_u32; lia). done.
Qed.

Lemma decode_loop_cut data : forall f freq iv rc rem m low, tree_of freq (i_freq iv) -> wide iv ->
  Forall byte data -> on_track iv (data ++ [CHR_EOS]) rem low -> (m < length rem)%nat ->
  s_1st (rc_io rc) = false -> (Z.to_nat (s_room (rc_io rc)) < f)%nat -> 0 <= s_room (rc_io rc) ->
  exists rc' n, decode_loop f freq (reader rc (take m rem) low (i_width iv)) = Some (ERR_FILE, rc') /\
    s_out (rc_io rc') = s_out (rc_io rc) ++ take n data.
Proof.
  induction data as [|c data IH]; intros f freq iv rc rem m low Ht Hw Hby Hon Hm H1 Hf Hroom;
    (destruct f as [|f]; [lia|]); cbn [decode_loop app] in *.
  - destruct (frequency_decode_cut freq iv rc CHR_EOS [] rem m low Ht Hw ltac:(unfold symbol, CHR_EOS; lia)
      ltac:(constructor) Hon Hm) as [(? & ? & m' & _ & Hm' & Hon' & _)|(low' & range' & Hd)].
    { unfold on_track in Hon'. cbn [narrows] in Hon'. lia. }
    rewrite Hd. cbn [mbind option_bind]. rewrite Z.eqb_refl. eexists _, 0%nat. split; [done|]. by rewrite take_0, app_nil_r.
  - apply Forall_cons in Hby as [Hc Hby]. unfold byte in Hc.
    destruct (frequency_decode_cut freq iv rc c (data ++ [CHR_EOS]) rem m low Ht Hw) as [(freq' & low' & m' & Ht' & Hm' & Hon' & Hd)|(low' & range' & Hd)];
      [unfold symbol, CHR_EOS in *; lia| |done|done| |].
    { apply Forall_app. split; [|apply Forall_singleton; unfold symbol, CHR_EOS; lia].
      eapply Forall_impl; [exact Hby|]. unfold symbol, byte, CHR_EOS. lia. }
    + rewrite Hd. cbn [mbind option_bind]. rewrite (proj2 (Z.eqb_neq c EOF)) by (unfold EOF; lia).
      rewrite (proj2 (Z.eqb_neq c CHR_EOS)) by (unfold CHR_EOS; lia). rewrite put_output by done.
      destruct (Z.ltb_spec 0 (s_room (rc_io rc))) as [Hpos|Hz].
      * rewrite (proj2 (Z.eqb_neq c EOF)) by (unfold EOF; lia). set (rc1 := set_io rc _).
        destruct (IH f freq' (narrow iv c) rc1 (drop (moved iv c) rem) m' low' Ht') as (rc' & n & Hl & Hout);
          [apply wide_narrow; [done|unfold symbol, CHR_EOS; lia]|done|done|done|done|simpl; lia|simpl; lia|].
        exists rc', (S n). rewrite Hl. split; [done|]. rewrite Hout. unfold rc1. cbn [set_io rc_io s_out]. by rewrite <- app_assoc.
      * rewrite Z.eqb_refl. eexists _, 0%nat. split; [done|]. by rewrite take_0, app_nil_r.
    + rewrite Hd. cbn [mbind option_bind]. rewrite Z.eqb_refl. eexists _, 0%nat. split; [done|]. by rewrite take_0, app_nil_r.
Qed.

(** ** Any input *)

Lemma decode_loop_safe f : forall freq fr rc inp low range, tree_of freq fr -> counts fr -> MIN_RANGE <= range < 2 ^ 32 ->
  0 <= low < 2 ^ 32 -> Forall byte inp -> s_1st (rc_io rc) = false -> (Z.to_nat (s_room (rc_io rc)) < f)%nat -> 0 <= s_room (rc_io rc) ->
  exists res rc' l, decode_loop f freq (reader rc inp low range) = Some (res, rc') /\ (res = ERR_OK \/ res = ERR_FILE) /\
    s_out (rc_io rc') = s_out (rc_io rc) ++ l /\ Forall byte l /\ Z.of_nat (length l) <= s_room (rc_io rc).
Proof.
  induction f as [|f IH]; intros freq fr rc inp low range Ht Hc Hr Hl Hby H1 Hf Hroom; [lia|]. cbn [decode_loop].
  destruct (frequency_decode_spec freq fr rc inp low range Ht Hc Hr Hl Hby) as (ch & Hch & _ & _ & Hd). cbv zeta in Hd.
  set (x := fr ch * (range / total fr)) in *. unfold symbol in Hch.
  assert (Hx : 1 <= x < 2 ^ 32).
  { destruct (share_spec {| i_freq := fr; i_low := 0; i_width := range |} ch) as (_ & H2 & H3 & H4); [by split|done|].
    unfold share in *. cbn [i_freq i_width] in *. fold x in H3. unfold x in *. lia. }
  assert (Hnil : forall res low range, res = ERR_OK \/ res = ERR_FILE -> forall inp, exists res' rc' l,
    Some (res, reader rc inp low range) = Some (res', rc') /\ (res' = ERR_OK \/ res' = ERR_FILE) /\
    s_out (rc_io rc') = s_out (rc_io rc) ++ l /\ Forall byte l /\ Z.of_nat (length l) <= s_room (rc_io rc)).
  { intros res low0 range0 Hres inp0. eexists _, _, []. split; [done|]. split; [done|]. split; [by rewrite app_nil_r|].
    split; [done|]. simpl. lia. }
  destruct (decide (shifts x <= length inp)%nat) as [Hk|Hk].
  - destruct Hd as (freq' & Ht' & Hd). rewrite Hd. cbn [mbind option_bind].
    rewrite (proj2 (Z.eqb_neq ch EOF)) by (unfold EOF; lia).
    destruct (Z.eqb_spec ch CHR_EOS) as [->|Hne]; [apply Hnil; by left|].
    assert (Hcb : byte ch) by (unfold byte, CHR_EOS in *; lia). rewrite put_output by done.
    destruct (Z.ltb_spec 0 (s_room (rc_io rc))) as [Hpos|Hz]; [|rewrite Z.eqb_refl; apply Hnil; by right].
    rewrite (proj2 (Z.eqb_neq ch EOF)) by (unfold EOF; lia). set (rc1 := set_io rc _).
    destruct (IH freq' _ rc1 (drop (shifts x) inp) (u32 ((low - before fr ch * (range / total fr)) * scale (shifts x) + num (take (shifts x) inp)))
      (x * scale (shifts x)) Ht') as (res & rc' & l & Hloop & Hres & Hout & Hlb & Hlen);
      [by apply counts_updated|by apply shifts_range|apply u32_range|by apply Forall_drop|done|simpl; lia|simpl; lia|].
    exists res, rc', (ch :: l). rewrite Hloop. split; [done|]. split; [done|]. unfold rc1 in *. cbn [set_io rc_io s_out s_room] in *.
    split; [by rewrite Hout, <- app_assoc|]. split; [by constructor|]. cbn [length]. lia.
  - destruct Hd as (low' & range' & Hd). rewrite Hd. cbn [mbind option_bind]. rewrite Z.eqb_refl. apply Hnil. by right.
Qed.

(** The first four bytes. *)
Lemma rc_decode_head freq inp max : Forall byte inp ->
  let rc := rc_initialize {| s_in := inp; s_out := []; s_room := max; s_1st := false |} in
  if decide (4 <= length inp)%nat
  then rc_decode freq rc = decode_loop (S (S (Z.to_nat max))) freq (reader rc (drop 4 inp) (num (take 4 inp)) MAX_RANGE)
  else exists rc', rc_decode freq rc = Some (ERR_FILE, rc') /\ s_out (rc_io rc') = [].
Proof.
  intros Hby rc. unfold rc_decode, rc, rc_initialize, get.
  destruct inp as [|c1 inp]; [cbn; by eexists|]. apply Forall_cons in Hby as [H1 Hby]. unfold byte in H1.
  cbn -[decode_loop Z.eqb Z.lor u32 num scale drop take decide]. rewrite (proj2 (Z.eqb_neq c1 EOF)) by (unfold EOF; lia).
  destruct inp as [|c2 inp]; [cbn; by eexists|]. apply Forall_cons in Hby as [H2 Hby]. unfold byte in H2.
  cbn -[decode_loop Z.eqb Z.lor u32 num scale drop take decide]. rewrite (proj2 (Z.eqb_neq c2 EOF)) by (unfold EOF; lia).
  destruct inp as [|c3 inp]; [cbn; by eexists|]. apply Forall_cons in Hby as [H3 Hby]. unfold byte in H3.
  cbn -[decode_loop Z.eqb Z.lor u32 num scale drop take decide]. rewrite (proj2 (Z.eqb_neq c3 EOF)) by (unfold EOF; lia).
  destruct inp as [|c4 inp]; [cbn; by eexists|]. apply Forall_cons in Hby as [H4 Hby]. unfold byte in H4.
  cbn -[decode_loop Z.eqb Z.lor u32 num scale drop take decide]. rewrite (proj2 (Z.eqb_neq c4 EOF)) by (unfold EOF; lia).
  rewrite decide_True by lia. cbn [drop take]. rewrite drop_0, take_0.
  unfold reader. cbn [set_low rc_io rc_range rc_low rc_carry rc_buf rc_count s_in s_out s_room s_1st].
  assert (Hnum : Z.lor (Z.lor (Z.lor (u32 (Z.shiftl c1 24)) (u32 (Z.shiftl c2 16))) (u32 (Z.shiftl c3 8))) (u32 c4) = num [c1; c2; c3; c4]).
  { rewrite (u32_small c4) by (unfold is_u32; lia).
    rewrite !u32_small by (unfold is_u32; rewrite Z.shiftl_mul_pow2 by lia; lia).
    rewrite (Z.shiftl_mul_pow2 c2), (Z.shiftl_mul_pow2 c3) by lia.
    rewrite (lor_shiftl_add c1 24) by lia. rewrite <- (Z.lor_comm (c3 * 2 ^ 8)), Z.lor_comm.
    unfold num. cbn [foldl].
    replace (c1 * 2 ^ 24 + c2 * 2 ^ 16) with (Z.shiftl (c1 * 2 ^ 8 + c2) 16) by (rewrite Z.shiftl_mul_pow2 by lia; lia).
    rewrite (Z.lor_comm (c3 * 2 ^ 8)), lor_shiftl_add by lia.
    replace ((c1 * 2 ^ 8 + c2) * 2 ^ 16 + c3 * 2 ^ 8) with (Z.shiftl ((c1 * 2 ^ 8 + c2) * 2 ^ 8 + c3) 8) by (rewrite Z.shiftl_mul_pow2 by lia; lia).
    rewrite Z.lor_comm, lor_shiftl_add by lia. lia. }
  rewrite Hnum. done.
Qed.

Lemma coded_on_track data code : coded data code ->
  (4 <= length code)%nat /\ Forall byte code /\ on_track whole (data ++ [CHR_EOS]) (drop 4 code) (num (take 4 code)).
Proof.
  unfold coded, on_track. destruct (narrows whole (data ++ [CHR_EOS])) as [iv k]. intros (Hby & Hlen & Hnum).
  split; [lia|]. split; [done|]. split; [by apply Forall_drop|]. rewrite length_drop. split; [lia|].
  rewrite <- Hnum. rewrite <- (take_drop 4 code) at 3. rewrite num_app, length_drop.
  replace (length code - 4)%nat with k by lia. done.
Qed.

Lemma decode_coded data code tail max : Forall byte data -> Forall byte tail -> 0 <= max -> coded data code ->
  decode (code ++ tail) max = Some (if Z.of_nat (length data) <=? max then ERR_OK else ERR_FILE, take (Z.to_nat max) data).
Proof.
  intros Hd Htl Hmax Hc. destruct (coded_on_track _ _ Hc) as (Hlen & Hby & Hon). unfold decode.
  destruct frequency_initialize_spec as (freq & Hfi & Ht). rewrite Hfi. clear Hfi. cbn [mbind option_bind].
  pose proof (rc_decode_head freq (code ++ tail) max ltac:(by apply Forall_app)) as Hhead. cbv zeta in Hhead.
  rewrite decide_True in Hhead by (rewrite length_app; lia). rewrite Hhead. rewrite drop_app_le, take_app_le by lia.
  set (rc := rc_initialize _).
  destruct (decode_loop_spec data (S (S (Z.to_nat max))) freq whole rc (drop 4 code) tail _ Ht wide_whole Hd Htl Hon eq_refl)
    as (rc' & Hl & Hout); [simpl; lia|done|].
  change (i_width whole) with MAX_RANGE in Hl. rewrite Hl. cbn [mbind option_bind]. rewrite Hout. reflexivity.
Qed.

(** C27: what the image builder packs, the boot loader unpacks.  For every
    byte string, [encode] succeeds given room and a size below 2^30, and
    [decode] of its output, whatever padding follows, gives the string back;
    when [max] is too small it reports the error after filling the buffer with
    the first [max] bytes. *)
Theorem range_coder_roundtrip data room max tail :
  Forall byte data -> Forall byte tail -> 0 <= max ->
  Z.of_nat (3 * length data + 7) <= room -> Z.of_nat (3 * length data + 3) < 2 ^ 32 ->
  exists code, encode data room = Some (ERR_OK, code) /\
    (Z.of_nat (length data) <= max -> decode (code ++ tail) max = Some (ERR_OK, data)) /\
    (max < Z.of_nat (length data) -> decode (code ++ tail) max = Some (ERR_FILE, take (Z.to_nat max) data)).
Proof.
  intros Hd Htl Hmax Hroom H32. destruct (encode_spec data room Hd Hroom H32) as (code & He & Hc).
  exists code. split; [done|]. rewrite (decode_coded data code tail max Hd Htl Hmax Hc). split; intros Hlen.
  - rewrite (proj2 (Z.leb_le _ _) Hlen). by rewrite take_ge by lia.
  - by rewrite (proj2 (Z.leb_gt _ _) Hlen).
Qed.

Definition sample : list Z := [0; 255; 255; 104; 0; 0].

Lemma sample_bytes : Forall byte sample.
Proof. repeat (constructor; [unfold byte; lia|]). constructor. Qed.

Lemma range_coder_roundtrip_witness : exists code, encode sample 1000 = Some (ERR_OK, code) /\ decode (code ++ [0; 0]) 6 = Some (ERR_OK, sample).
Proof.
  destruct (range_coder_roundtrip sample 1000 6 [0; 0]) as (code & He & Hd & _).
  - exact sample_bytes.
  - repeat (constructor; [unfold byte; lia|]). constructor.
  - lia.
  - simpl. lia.
  - simpl. lia.
  - exists code. split; [exact He|]. apply Hd. simpl. lia.
Defined.

(** On any bytes whatever, [decode] comes to an end, divides by no zero
    and leaves no array, reports success or [ERR_FILE], and writes at most
    [max] bytes. *)
Theorem decode_safe src max : Forall byte src -> 0 <= max ->
  exists result out, decode src max = Some (result, out) /\ (result = ERR_OK \/ result = ERR_FILE) /\
    Forall byte out /\ Z.of_nat (length out) <= max.
Proof.
  intros Hby Hmax. unfold decode. destruct frequency_initialize_spec as (freq & Hfi & Ht). rewrite Hfi. clear Hfi. cbn [mbind option_bind].
  pose proof (rc_decode_head freq src max Hby) as Hhead. cbv zeta in Hhead. set (rc := rc_initialize _) in *.
  destruct (decide (4 <= length src)%nat).
  - rewrite Hhead. pose proof (num_range (take 4 src) ltac:(by apply Forall_take)) as Hn.
    rewrite length_take_le in Hn by done. change (scale 4) with (2 ^ 32) in Hn.
    destruct (decode_loop_safe (S (S (Z.to_nat max))) freq _ rc (drop 4 src) _ MAX_RANGE Ht counts_ones (w_range _ wide_whole) Hn)
      as (res & rc' & out & Hl & Hres & Hout & Hob & Hlen); [by apply Forall_drop|done|simpl; lia|done|].
    exists res, out. rewrite Hl. cbn [mbind option_bind]. rewrite Hout.
    split; [reflexivity|]. split; [exact Hres|]. split; [exact Hob|exact Hlen].
  - destruct Hhead as (rc' & Hr & Hout). exists ERR_FILE, []. rewrite Hr. cbn [mbind option_bind]. rewrite Hout.
    split; [reflexivity|]. split; [by right|]. split; [constructor|]. simpl. lia.
Qed.

Lemma decode_safe_witness : exists result out, decode [255; 255; 255; 255; 1] 3 = Some (result, out) /\ Z.of_nat (length out) <= 3.
Proof.
  destruct (decode_safe [255; 255; 255; 255; 1] 3) as (result & out & Hd & _ & _ & Hlen).
  - repeat (constructor; [unfold byte; lia|]). constructor.
  - lia.
  - exists result, out. split; [exact Hd|exact Hlen].
Defined.

(** A module cut short is noticed.  [decode] of a proper prefix of what
    [encode] wrote reports [ERR_FILE], and what it has unpacked by then is a
    prefix of the data. *)
Theorem decode_truncated data room max n :
  Forall byte data -> 0 <= max -> Z.of_nat (3 * length data + 7) <= room -> Z.of_nat (3 * length data + 3) < 2 ^ 32 ->
  exists code, encode data room = Some (ERR_OK, code) /\
    ((n < length code)%nat -> exists k, decode (take n code) max = Some (ERR_FILE, take k data)).
Proof.
  intros Hd Hmax Hroom H32. destruct (encode_spec data room Hd Hroom H32) as (code & He & Hc). exists code. split; [done|].
  intros Hn. destruct (coded_on_track _ _ Hc) as (Hlen & Hby & Hon). unfold decode.
  destruct frequency_initialize_spec as (freq & Hfi & Ht). rewrite Hfi. clear Hfi. cbn [mbind option_bind].
  pose proof (rc_decode_head freq (take n code) max ltac:(by apply Forall_take)) as Hhead. cbv zeta in Hhead.
  set (rc := rc_initialize _) in *. rewrite length_take in Hhead. destruct (decide (4 <= n `min` length code)%nat).
  - rewrite Hhead, take_take, <- take_drop_commute_sub by lia. replace (4 `min` n)%nat with 4%nat by lia.
    destruct (decode_loop_cut data (S (S (Z.to_nat max))) freq whole rc (drop 4 code) (n - 4) _ Ht wide_whole Hd Hon)
      as (rc' & k & Hl & Hout); [rewrite length_drop; lia|done|simpl; lia|done|].
    exists k. change (i_width whole) with MAX_RANGE in Hl. rewrite Hl. cbn [mbind option_bind]. rewrite Hout. reflexivity.
  - destruct Hhead as (rc' & Hr & Hout). exists 0%nat. rewrite Hr. cbn [mbind option_bind]. rewrite Hout, take_0. reflexivity.
Qed.

Lemma decode_truncated_witness : exists code k, encode sample 1000 = Some (ERR_OK, code) /\ decode (take 5 code) 6 = Some (ERR_FILE, take k sample).
Proof.
  destruct (decode_truncated sample 1000 6 5) as (code & He & Hd).
  - exact sample_bytes.
  - lia.
  - simpl. lia.
  - simpl. lia.
  - assert (Hc : length code = 10%nat).
    { assert (H : encode sample 1000 = Some (ERR_OK, [0; 254; 3; 26; 228; 83; 134; 110; 112; 0])) by (vm_compute; reflexivity).
      rewrite H in He. injection He as <-. reflexivity. }
    destruct Hd as [k Hk]; [rewrite Hc; lia|]. exists code, k. split; [exact He|exact Hk].
Defined.
