(* ===== verification/Zle.v ===== *)
(** * Zero length encoding (lib/librc/zle_encode.c, zle_decode.c)

    A filter in front of the range coder: a run of zeros becomes its length in
    binary, the lowest bit first and without the highest, one byte per bit;
    the other bytes move up by one.  Both programs read with one character of
    push-back. *)

From S2P Require Import Prelude.

Definition EOF : Z := -1.
Definition NOT_CACHE : Z := -2.
Definition ERR_UNKNOWN : Z := 1.

(** The static [cache] and the rest of the input. *)
Record input := { cache : Z; rest : list Z }.

Definition fgetc (l : list Z) : Z * list Z := match l with [] => (EOF, []) | c :: l => (c, l) end.

Definition bgetc (i : input) : Z * input :=
  if cache i =? NOT_CACHE then
    let '(c, l) := fgetc (rest i) in (c, {| cache := NOT_CACHE; rest := l |})
  else (cache i, {| cache := NOT_CACHE; rest := rest i |}).

Definition bungetc (i : input) (c : Z) : Z * input :=
  if cache i =? NOT_CACHE then (0, {| cache := c; rest := rest i |}) else (-1, i).

(** [for (count = 1; !(next = bgetc(in)); count++)] *)
Fixpoint run_loop (f : nat) (i : input) (count : Z) : option (Z * Z * input) :=
  match f with
  | O => None
  | S f =>
      let '(next, i) := bgetc i in
      if next =? 0 then run_loop f i (u32 (count + 1)) else Some (count, next, i)
  end.

(** [for (count++; count != 1; count >>= 1) fputc(count & 1, out)] *)
Fixpoint bits_loop (f : nat) (count : Z) (out : list Z) : option (list Z) :=
  match f with
  | O => None
  | S f => if count =? 1 then Some out else bits_loop f (Z.shiftr count 1) (out ++ [Z.land count 1])
  end.

(** Enough turns for what is left to read, and for the bits of a [size_t]. *)
Definition turns (i : input) : nat := S (S (length (rest i))).
Definition BITS : nat := 34.

Fixpoint encode_loop (f : nat) (out : list Z) (i : input) : option (Z * list Z) :=
  match f with
  | O => None
  | S f =>
      let '(c, i) := bgetc i in
      if c =? EOF then Some (0, out)
      else if c =? 0 then
        '(count, next, i) ← run_loop (turns i) i 1;
        let '(r, i) := bungetc i next in
        if negb (r =? 0) then Some (ERR_UNKNOWN, out)
        else
          out ← bits_loop BITS (u32 (count + 1)) out;
          encode_loop f out i
      else if c =? 254 then encode_loop f ((out ++ [255]) ++ [0]) i
      else if c =? 255 then encode_loop f ((out ++ [255]) ++ [1]) i
      else encode_loop f (out ++ [c + 1]) i
  end.

Definition encode (data : list Z) : option (Z * list Z) :=
  let i := {| cache := NOT_CACHE; rest := data |} in encode_loop (turns i) [] i.

(** The loop on [exp]; a shift of an [int] by 31 or more is undefined. *)
Fixpoint exp_loop (f : nat) (i : input) (count exp : Z) : option (Z * Z * Z * input) :=
  match f with
  | O => None
  | S f =>
      let '(next, i) := bgetc i in
      if (next =? EOF) || (1 <? next) then Some (count, exp, next, i)
      else if 31 <=? exp then None
      else exp_loop f i (Z.lor count (u32 (Z.shiftl next exp))) (exp + 1)
  end.

Fixpoint decode_loop (f : nat) (out : list Z) (i : input) : option (Z * list Z) :=
  match f with
  | O => None
  | S f =>
      let '(c, i) := bgetc i in
      if c =? EOF then Some (0, out)
      else if (c =? 0) || (c =? 1) then
        '(count, exp, next, i) ← exp_loop (turns i) i c 1;
        let '(r, i) := bungetc i next in
        if negb (r =? 0) then Some (ERR_UNKNOWN, out)
        else if 31 <=? exp then None
        else
          (* the bit is set and the count goes down once before each test *)
          let count := Z.lor count (u32 (Z.shiftl 1 exp)) in
          decode_loop f (out ++ replicate (Z.to_nat (u32 (count - 1))) 0) i
      else if c =? 255 then
        let '(c, i) := bgetc i in
        if c =? EOF then Some (ERR_UNKNOWN, out)
        else decode_loop f (out ++ [if c =? 0 then 254 else 255]) i
      else decode_loop f (out ++ [c - 1]) i
  end.

Definition decode (data : list Z) : option (Z * list Z) :=
  let i := {| cache := NOT_CACHE; rest := data |} in decode_loop (turns i) [] i.

(** ** The code of a text *)

Definition byte (b : Z) : Prop := 0 <= b < 256.

(** The binary digits below the highest one. *)
Fixpoint bits (p : positive) : list Z :=
  match p with xH => [] | xO p => 0 :: bits p | xI p => 1 :: bits p end.

Inductive zcode : list Z -> list Z -> Prop :=
  | z_nil : zcode [] []
  | z_run n l o : head l ≠ Some 0 -> zcode l o ->
      zcode (replicate (S n) 0 ++ l) (bits (Pos.of_succ_nat (S n)) ++ o)
  | z_fe l o : zcode l o -> zcode (254 :: l) (255 :: 0 :: o)
  | z_ff l o : zcode l o -> zcode (255 :: l) (255 :: 1 :: o)
  | z_byte c l o : 1 <= c < 254 -> zcode l o -> zcode (c :: l) (c + 1 :: o).

(** What is still to be read, the character pushed back included. *)
Definition pending (i : input) (l : list Z) : Prop :=
  (cache i = NOT_CACHE /\ rest i = l) \/ (cache i = EOF /\ rest i = [] /\ l = []) \/
  (exists c k, byte c /\ cache i = c /\ rest i = k /\ l = c :: k).

Lemma bgetc_nil i : pending i [] -> exists i', bgetc i = (EOF, i') /\ cache i' = NOT_CACHE /\ rest i' = [].
Proof.
  intros [[Hc Hr]|[(Hc & Hr & _)|(c & k & _ & _ & _ & ?)]]; [| |done]; unfold bgetc; rewrite Hc, Hr; by eexists.
Qed.

Lemma bgetc_cons i c l : byte c -> pending i (c :: l) -> bgetc i = (c, {| cache := NOT_CACHE; rest := l |}).
Proof.
  intros Hb [[Hc Hr]|[(_ & _ & ?)|(c' & k & _ & Hc & Hr & Heq)]]; [|done|]; unfold bgetc.
  - by rewrite Hc, Hr.
  - injection Heq as -> ->. rewrite Hc, Hr, (proj2 (Z.eqb_neq c' NOT_CACHE)) by (unfold byte, NOT_CACHE in *; lia). done.
Qed.

Lemma pending_read l : pending {| cache := NOT_CACHE; rest := l |} l.
Proof. by left. Qed.

Lemma bungetc_back c l : byte c -> exists i, bungetc {| cache := NOT_CACHE; rest := l |} c = (0, i) /\ pending i (c :: l) /\ rest i = l.
Proof. intros Hb. eexists. split; [done|]. split; [|done]. right. right. by eexists _, _. Qed.

Lemma run_loop_spec l : head l ≠ Some 0 -> Forall byte l -> forall f n count, (n < f)%nat -> 0 <= count -> count + Z.of_nat n < 2 ^ 32 ->
  run_loop f {| cache := NOT_CACHE; rest := replicate n 0 ++ l |} count =
  Some (count + Z.of_nat n, default EOF (head l), {| cache := NOT_CACHE; rest := tail l |}).
Proof.
  intros Hh Hl f. induction f as [|f IH]; intros n count Hf Hc Hn; [lia|]. cbn [run_loop]. destruct n as [|n].
  - cbn [replicate app]. change (Z.of_nat 0) with 0. rewrite Z.add_0_r. unfold bgetc. cbn [cache rest]. rewrite Z.eqb_refl.
    destruct l as [|x l]; [done|]. cbn [fgetc head tail default]. cbn [head] in Hh.
    rewrite (proj2 (Z.eqb_neq x 0)) by congruence. done.
  - cbn [replicate app]. unfold bgetc. cbn [cache rest]. rewrite Z.eqb_refl. cbn [fgetc]. rewrite Z.eqb_refl, u32_small by (unfold is_u32; lia).
    rewrite IH by lia. do 3 f_equal. lia.
Qed.

Lemma bits_loop_spec f : forall p out, (Pos.size_nat p <= f)%nat -> bits_loop f (Z.pos p) out = Some (out ++ bits p).
Proof.
  induction f as [|f IH]; intros p out Hf; [destruct p; simpl in Hf; lia|]. cbn [bits_loop].
  destruct p as [p|p|]; cbn [bits Pos.size_nat] in *.
  - rewrite (proj2 (Z.eqb_neq (Z.pos p~1) 1)) by lia. change (Z.shiftr (Z.pos p~1) 1) with (Z.pos p).
    change (Z.land (Z.pos p~1) 1) with 1. rewrite IH by lia. by rewrite <- app_assoc.
  - rewrite (proj2 (Z.eqb_neq (Z.pos p~0) 1)) by lia. change (Z.shiftr (Z.pos p~0) 1) with (Z.pos p).
    change (Z.land (Z.pos p~0) 1) with 0. rewrite IH by lia. by rewrite <- app_assoc.
  - by rewrite app_nil_r.
Qed.

Lemma size_nat_le p k : Z.pos p < 2 ^ Z.of_nat k -> (Pos.size_nat p <= k)%nat.
Proof.
  revert k. induction p as [p IH|p IH|]; intros k Hk; cbn [Pos.size_nat];
    (destruct k as [|k]; [simpl in Hk; lia|]); rewrite ?Nat2Z.inj_succ, ?Z.pow_succ_r in Hk by lia;
    [specialize (IH k); lia|specialize (IH k); lia|lia].
Qed.

(** The leading zeros of a text. *)
Lemma zle_split_run l : exists n k, l = replicate n 0 ++ k /\ head k ≠ Some 0.
Proof.
  induction l as [|x l (n & k & -> & Hk)]; [by exists 0%nat, []|].
  destruct (decide (x = 0)) as [->|Hne]; [by exists (S n), k|]. exists 0%nat, (x :: replicate n 0 ++ k). split; [done|].
  simpl. congruence.
Qed.

Lemma pushed_back o : Forall byte o -> exists i,
  bungetc {| cache := NOT_CACHE; rest := tail o |} (default EOF (head o)) = (0, i) /\ pending i o.
Proof.
  intros Hby. destruct o as [|x o]; simpl.
  - eexists. split; [done|]. right. left. done.
  - apply Forall_cons in Hby as [Hx _]. destruct (bungetc_back x o Hx) as (i & Hb & Hp & _). by exists i.
Qed.

Lemma zle_encode_loop_spec f : forall l i out, (length l < f)%nat -> pending i l -> Forall byte l -> Z.of_nat (length l) < 2 ^ 32 - 1 ->
  exists o, zcode l o /\ encode_loop f out i = Some (0, out ++ o).
Proof.
  induction f as [|f IH]; intros l i out Hf Hp Hby Hlen; [lia|]. destruct l as [|c l].
  { destruct (bgetc_nil i Hp) as (i' & Hg & _). exists []. split; [constructor|]. cbn [encode_loop].
    rewrite Hg, Z.eqb_refl, app_nil_r. done. }
  pose proof Hby as Hall. apply Forall_cons in Hby as [Hc Hby]. cbn [encode_loop length] in *. rewrite (bgetc_cons i c l Hc Hp).
  rewrite (proj2 (Z.eqb_neq c EOF)) by (unfold byte, EOF in *; lia). unfold byte in Hc.
  pose proof (λ out, IH l _ out ltac:(lia) (pending_read l) Hby ltac:(lia)) as IHl.
  destruct (Z.eqb_spec c 0) as [->|Hz].
  - destruct (zle_split_run l) as (n & k & -> & Hk). rewrite length_app, length_replicate in *.
    apply Forall_app in Hby as [_ Hbk]. rewrite run_loop_spec; [|done|done|unfold turns; simpl; rewrite length_app, length_replicate; lia|lia|lia].
    cbn [mbind option_bind].
    destruct (pushed_back k Hbk) as (i' & Hb & Hp'). rewrite Hb. cbn [negb Z.eqb].
    rewrite u32_small by (unfold is_u32; lia).
    replace (1 + Z.of_nat n + 1) with (Z.pos (Pos.of_succ_nat (S n))) by lia.
    rewrite bits_loop_spec by (apply size_nat_le; unfold BITS; lia). cbn [mbind option_bind].
    destruct (IH k i' (out ++ bits (Pos.of_succ_nat (S n))) ltac:(lia) Hp' Hbk ltac:(lia)) as (o & Ho & He).
    exists (bits (Pos.of_succ_nat (S n)) ++ o). split; [apply (z_run n k o Hk Ho)|]. by rewrite He, app_assoc.
  - destruct (Z.eqb_spec c 254) as [->|H254].
    + destruct (IHl ((out ++ [255]) ++ [0])) as (o & Ho & He). exists (255 :: 0 :: o). split; [by constructor|].
      by rewrite He, <- !app_assoc.
    + destruct (Z.eqb_spec c 255) as [->|H255].
      * destruct (IHl ((out ++ [255]) ++ [1])) as (o & Ho & He). exists (255 :: 1 :: o). split; [by constructor|].
        by rewrite He, <- !app_assoc.
      * destruct (IHl (out ++ [c + 1])) as (o & Ho & He). exists (c + 1 :: o). split; [constructor; [lia|done]|].
        by rewrite He, <- !app_assoc.
Qed.

(** ** Reading the code *)

Lemma zcode_bytes l o : zcode l o -> Forall byte o.
Proof.
  induction 1 as [|n l o Hh Ho IH|l o Ho IH|l o Ho IH|c l o Hc Ho IH]; unfold byte; [done| | | |].
  - apply Forall_app. split; [|done]. generalize (Pos.of_succ_nat (S n)).
    intros p. induction p; cbn [bits]; constructor; done || lia.
  - repeat constructor; done || lia.
  - repeat constructor; done || lia.
  - constructor; [lia|done].
Qed.

(** What follows a run does not look like one more digit. *)
Lemma zcode_head l o : head l ≠ Some 0 -> zcode l o -> head o = None \/ exists x, head o = Some x /\ 2 <= x.
Proof.
  intros Hh Hz. destruct Hz as [|n l o _ _|l o _|l o _|c l o Hc _]; simpl in *; [by left|done| | |];
    right; eexists; (split; [done|]); lia.
Qed.

Lemma exp_loop_spec o : (head o = None \/ exists x, head o = Some x /\ 2 <= x) -> forall p f count exp,
  (length (bits p) < f)%nat -> 0 <= count < 2 ^ exp -> 0 <= exp -> Z.pos p * 2 ^ exp < 2 ^ 31 ->
  exists count' exp', exp_loop f {| cache := NOT_CACHE; rest := bits p ++ o |} count exp =
    Some (count', exp', default EOF (head o), {| cache := NOT_CACHE; rest := tail o |}) /\
    exp' < 31 /\ Z.lor count' (u32 (Z.shiftl 1 exp')) = count + Z.pos p * 2 ^ exp.
Proof.
  intros Ho. induction p as [p IH|p IH|]; intros f count exp Hf Hc He Hp; (destruct f as [|f]; [cbn [length bits] in Hf; lia|]);
    cbn [exp_loop bits app]; unfold bgetc; cbn [cache rest]; rewrite Z.eqb_refl; cbn [fgetc].
  - assert (Hexp : exp < 30) by (apply (Z.pow_lt_mono_r_iff 2); lia).
    cbn [bits length] in Hf. rewrite (proj2 (Z.leb_gt 31 exp)) by lia. simpl orb. cbv iota.
    destruct (IH f (count + 2 ^ exp) (exp + 1)) as (count' & exp' & Hl & He' & Hv);
      [lia|rewrite Z.pow_add_r by lia; lia|lia|rewrite Z.pow_add_r by lia; lia|].
    exists count', exp'. rewrite (Z.lor_comm count), u32_small, lor_shiftl_add by
      (done || unfold is_u32; rewrite ?Z.shiftl_mul_pow2 by lia; lia).
    rewrite Z.mul_1_l, Z.add_comm. split; [exact Hl|]. split; [done|]. rewrite Hv, Z.pow_add_r by lia. lia.
  - assert (Hexp : exp < 30) by (apply (Z.pow_lt_mono_r_iff 2); lia).
    cbn [bits length] in Hf. rewrite (proj2 (Z.leb_gt 31 exp)) by lia. simpl orb. cbv iota.
    destruct (IH f count (exp + 1)) as (count' & exp' & Hl & He' & Hv);
      [lia|rewrite Z.pow_add_r by lia; lia|lia|rewrite Z.pow_add_r by lia; lia|].
    exists count', exp'. rewrite Z.shiftl_0_l, u32_small, Z.lor_0_r by (unfold is_u32; lia).
    split; [exact Hl|]. split; [done|]. rewrite Hv, Z.pow_add_r by lia. lia.
  - assert (Hexp : exp < 31) by (apply (Z.pow_lt_mono_r_iff 2); lia).
    exists count, exp. split; [|split; [done|]].
    + destruct o as [|x o]; cbn [fgetc head tail default]; [done|]. destruct Ho as [?|(x' & [= <-] & Hx)]; [done|].
      rewrite (proj2 (Z.eqb_neq x EOF)), (proj2 (Z.ltb_lt 1 x)) by (unfold EOF; lia). done.
    + rewrite Z.lor_comm, u32_small, lor_shiftl_add by (done || unfold is_u32; rewrite ?Z.shiftl_mul_pow2 by lia; lia). lia.
Qed.

(** One run: the digits give back its length. *)
Lemma decode_run f n o i out : head o = None \/ (exists x, head o = Some x /\ 2 <= x) -> Forall byte o ->
  Z.of_nat (S n) < 2 ^ 31 - 1 -> pending i (bits (Pos.of_succ_nat (S n)) ++ o) ->
  exists i', pending i' o /\ decode_loop (S f) out i = decode_loop f (out ++ replicate (S n) 0) i'.
Proof.
  intros Ho Hby Hn Hp. destruct (pushed_back o Hby) as (i' & Hb & Hp'). exists i'. split; [done|].
  assert (Hbit : exists p b, bits (Pos.of_succ_nat (S n)) = b :: bits p /\ (b = 0 \/ b = 1) /\ Z.of_nat n + 2 = b + Z.pos p * 2).
  { assert (Hv : Z.pos (Pos.of_succ_nat (S n)) = Z.of_nat n + 2) by lia.
    destruct (Pos.of_succ_nat (S n)) as [p|p|]; [exists p, 1|exists p, 0|lia]; cbn [bits];
      (split; [done|]; split; [auto|lia]). }
  destruct Hbit as (p & b & Hbits & Hb01 & Hval). rewrite Hbits in Hp. cbn [app] in Hp. cbn [decode_loop].
  rewrite (bgetc_cons i b (bits p ++ o)) by (done || unfold byte; lia).
  rewrite (proj2 (Z.eqb_neq b EOF)) by (unfold EOF; lia).
  replace ((b =? 0) || (b =? 1)) with true by (by destruct Hb01 as [-> | ->]).
  destruct (exp_loop_spec o Ho p (turns {| cache := NOT_CACHE; rest := bits p ++ o |}) b 1) as (count & exp & He & Hexp & Hcount);
    [unfold turns; simpl; rewrite length_app; lia|lia|lia|lia|].
  rewrite He. cbn [mbind option_bind]. rewrite Hb. cbn [negb Z.eqb]. rewrite (proj2 (Z.leb_gt 31 exp)) by done.
  rewrite Hcount, u32_small by (unfold is_u32; lia). do 3 f_equal. lia.
Qed.

Lemma zle_decode_loop_spec l o : zcode l o -> forall f out i, pending i o -> (length o < f)%nat -> Z.of_nat (length l) < 2 ^ 31 - 1 ->
  decode_loop f out i = Some (0, out ++ l).
Proof.
  induction 1 as [|n l o Hh Ho IH|l o Ho IH|l o Ho IH|c l o Hc Ho IH]; intros f out i Hp Hf Hlen; (destruct f as [|f]; [lia|]).
  - destruct (bgetc_nil i Hp) as (i' & Hg & _). cbn [decode_loop]. by rewrite Hg, Z.eqb_refl, app_nil_r.
  - rewrite length_app, length_replicate in Hlen. rewrite length_app in Hf.
    destruct (decode_run f n o i out (zcode_head l o Hh Ho) (zcode_bytes l o Ho) ltac:(lia) Hp) as (i' & Hp' & Hd).
    rewrite Hd, app_assoc. apply IH; [done| |lia].
    destruct (bits (Pos.of_succ_nat (S n))) eqn:Hb; [|cbn [length] in Hf; lia].
    exfalso. assert (Z.pos (Pos.of_succ_nat (S n)) = Z.of_nat n + 2) by lia. destruct (Pos.of_succ_nat (S n)); done || lia.
  - cbn [decode_loop]. rewrite (bgetc_cons i 255 (0 :: o)) by (done || unfold byte; lia). cbn [Z.eqb EOF orb Pos.eqb].
    rewrite (bgetc_cons _ 0 o) by (apply pending_read || unfold byte; lia). cbn [Z.eqb EOF].
    cbn [length] in *. rewrite IH by (apply pending_read || lia). by rewrite <- app_assoc.
  - cbn [decode_loop]. rewrite (bgetc_cons i 255 (1 :: o)) by (done || unfold byte; lia). cbn [Z.eqb EOF orb Pos.eqb].
    rewrite (bgetc_cons _ 1 o) by (apply pending_read || unfold byte; lia). cbn [Z.eqb EOF].
    cbn [length] in *. rewrite IH by (apply pending_read || lia). by rewrite <- app_assoc.
  - cbn [decode_loop]. rewrite (bgetc_cons i (c + 1) o) by (done || unfold byte; lia).
    rewrite (proj2 (Z.eqb_neq (c + 1) EOF)), (proj2 (Z.eqb_neq (c + 1) 0)), (proj2 (Z.eqb_neq (c + 1) 1)),
      (proj2 (Z.eqb_neq (c + 1) 255)) by (unfold EOF; lia).
    cbn [orb length] in *. rewrite IH by (apply pending_read || lia). rewrite <- app_assoc. cbn [app]. by replace (c + 1 - 1) with c by lia.
Qed.

(** [decode] undoes [encode]: for every byte string shorter than two
    gigabytes both programs end without error and the string comes back. *)
Theorem zle_roundtrip data : Forall byte data -> Z.of_nat (length data) < 2 ^ 31 - 1 ->
  exists code, encode data = Some (0, code) /\ Forall byte code /\ decode code = Some (0, data).
Proof.
  intros Hby Hlen. unfold encode.
  destruct (zle_encode_loop_spec (turns {| cache := NOT_CACHE; rest := data |}) data {| cache := NOT_CACHE; rest := data |} []
    ltac:(unfold turns; simpl; lia) (pending_read data) Hby ltac:(lia)) as (code & Hz & He).
  exists code. rewrite He. split; [done|]. split; [by eapply zcode_bytes|]. unfold decode.
  rewrite (zle_decode_loop_spec data code Hz) by (apply pending_read || unfold turns; simpl; lia). done.
Qed.

Lemma zle_roundtrip_witness : exists code, encode [7; 0; 0; 0; 0; 0; 254; 255; 0] = Some (0, code) /\ decode code = Some (0, [7; 0; 0; 0; 0; 0; 254; 255; 0]).
Proof.
  destruct (zle_roundtrip [7; 0; 0; 0; 0; 0; 254; 255; 0]) as (code & He & _ & Hd).
  - repeat (constructor; [unfold byte; lia|]). constructor.
  - simpl. lia.
  - exists code. split; [exact He|exact Hd].
Defined.
