(* ===== verification/Bitmap.v ===== *)
(** * Bitmaps of free objects

    The identifier sequence, the physical page allocator and the block
    allocator of the file system all keep their free objects as the set bits
    of an array of 32-bit words.  This file gives the array its meaning, a set
    of numbers, and says what clearing and setting one bit of one word does to
    it. *)

From S2P Require Import Prelude.

(** [MPU_LOG_INT] of include/i686/memory.h. *)
Definition MPU_LOG_INT : Z := 5.

Definition INT_BIT : Z := 32.

(** [(block << MPU_LOG_INT) | offset]. *)
Definition bit_number (block offset : Z) : Z := Z.lor (Z.shiftl block MPU_LOG_INT) offset.

Definition map_bit (m : list Z) (n : Z) : bool :=
  match m !! Z.to_nat (Z.shiftr n MPU_LOG_INT) with
  | Some w => Z.testbit w (Z.land n (INT_BIT - 1))
  | None => false
  end.

Definition free_bits (m : list Z) : gset Z :=
  list_to_set (filter (λ n, map_bit m n = true) (seqZ 0 (INT_BIT * Z.of_nat (length m)))).

Definition words (m : list Z) : Prop := Forall is_u32 m.

Lemma bit_number_eq block offset :
  0 <= offset < INT_BIT -> bit_number block offset = block * 32 + offset.
Proof.
  unfold bit_number, MPU_LOG_INT, INT_BIT. intros Hb. by apply lor_shiftl_add.
Qed.

Lemma map_bit_eq m n :
  0 <= n -> map_bit m n =
  match m !! Z.to_nat (n / 32) with Some w => Z.testbit w (n mod 32) | None => false end.
Proof.
  intros Hn. unfold map_bit, MPU_LOG_INT, INT_BIT.
  rewrite Z.shiftr_div_pow2 by lia. change (32 - 1) with (Z.ones 5).
  by rewrite Z.land_ones by lia.
Qed.

Lemma elem_of_free_bits m n : n ∈ free_bits m <-> 0 <= n /\ map_bit m n = true.
Proof.
  unfold free_bits. rewrite elem_of_list_to_set, list_elem_of_filter, elem_of_seqZ.
  split; [intros [? ?]; split; [lia|done]|]. intros [Hn Hb]. split; [done|].
  rewrite map_bit_eq in Hb by done.
  destruct (m !! Z.to_nat (n / 32)) eqn:Hl; [|done].
  apply lookup_lt_Some in Hl. unfold INT_BIT.
  pose proof (Z.div_mod n 32). pose proof (Z.mod_pos_bound n 32).
  assert (0 <= n / 32) by (apply Z.div_pos; lia). lia.
Qed.

Lemma free_bits_lt m n : n ∈ free_bits m -> 0 <= n < 32 * Z.of_nat (length m).
Proof.
  unfold free_bits. rewrite elem_of_list_to_set, list_elem_of_filter, elem_of_seqZ.
  unfold INT_BIT. lia.
Qed.

(** A word of the array, by block and offset. *)
Lemma map_bit_number m i w b :
  m !! i = Some w -> 0 <= b < 32 ->
  map_bit m (bit_number (Z.of_nat i) b) = Z.testbit w b.
Proof.
  intros Hi Hb. rewrite bit_number_eq by (unfold INT_BIT; lia). rewrite map_bit_eq by lia.
  rewrite Z.div_add_l, Z.div_small, Z.add_0_r, Nat2Z.id, Hi by lia.
  f_equal. rewrite Z.add_comm, Z.mod_add by lia. apply Z.mod_small. lia.
Qed.

Lemma bit_number_inj n i b :
  0 <= n -> 0 <= b < 32 ->
  n = bit_number (Z.of_nat i) b <-> Z.to_nat (n / 32) = i /\ n mod 32 = b.
Proof.
  intros Hn Hb. rewrite bit_number_eq by (unfold INT_BIT; lia).
  pose proof (Z.div_mod n 32 ltac:(lia)). assert (0 <= n / 32) by (apply Z.div_pos; lia).
  split.
  - intros ->. rewrite Z.div_add_l, Z.div_small by lia.
    split; [lia|]. rewrite Z.add_comm, Z.mod_add by lia. apply Z.mod_small. lia.
  - intros [<- <-]. lia.
Qed.

Lemma map_bit_update m i w n :
  (i < length m)%nat -> 0 <= n ->
  map_bit (<[i := w]> m) n =
  if decide (Z.to_nat (n / 32) = i) then Z.testbit w (n mod 32) else map_bit m n.
Proof.
  intros Hi Hn. rewrite !map_bit_eq by done. case_decide as Hd.
  - subst. by rewrite list_lookup_insert_eq.
  - by rewrite list_lookup_insert_ne.
Qed.

(** Clearing bit [b] of word [i] takes the number out of the set. *)
Lemma free_bits_clear m i w b :
  m !! i = Some w -> 0 <= b < 32 ->
  free_bits (<[i := bit_clear w b]> m) = free_bits m ∖ {[bit_number (Z.of_nat i) b]}.
Proof.
  intros Hi Hb. apply set_eq. intros n.
  rewrite elem_of_difference, elem_of_singleton, !elem_of_free_bits.
  split; intros [Hn Hbit].
  - assert (Hlt := lookup_lt_Some _ _ _ Hi).
    rewrite map_bit_update in Hbit by done. rewrite bit_number_inj by lia.
    case_decide as Hd.
    + rewrite testbit_bit_clear in Hbit by (try apply Z.mod_pos_bound; lia).
      apply andb_true_iff in Hbit as [Hbit Hne]. rewrite map_bit_eq, Hd, Hi by done.
      split; [done|]. intros [_ E]. by rewrite bool_decide_true in Hne.
    + split; [done|]. tauto.
  - destruct Hn as [Hn Hm]. split; [done|].
    rewrite map_bit_update by (try done; by eapply lookup_lt_Some).
    rewrite bit_number_inj in Hbit by lia. case_decide as Hd; [|done].
    rewrite map_bit_eq, Hd, Hi in Hm by done.
    rewrite testbit_bit_clear, Hm, bool_decide_false by (try apply Z.mod_pos_bound; tauto || lia).
    done.
Qed.

(** Setting it puts the number in. *)
Lemma free_bits_set m i w b :
  m !! i = Some w -> 0 <= b < 32 ->
  free_bits (<[i := bit_set w b]> m) = {[bit_number (Z.of_nat i) b]} ∪ free_bits m.
Proof.
  intros Hi Hb. assert (Hlt := lookup_lt_Some _ _ _ Hi). apply set_eq. intros n.
  rewrite elem_of_union, elem_of_singleton, !elem_of_free_bits. split.
  - intros [Hn Hbit]. rewrite map_bit_update in Hbit by done. rewrite bit_number_inj by lia.
    case_decide as Hd; [|auto].
    rewrite testbit_bit_set in Hbit by (try apply Z.mod_pos_bound; lia).
    apply orb_true_iff in Hbit as [Hbit|He%bool_decide_eq_true]; [|auto].
    right. split; [done|]. by rewrite map_bit_eq, Hd, Hi.
  - intros H. assert (Hn : 0 <= n).
    { destruct H as [->|[? _]]; [|done]. rewrite bit_number_eq by (unfold INT_BIT; lia). lia. }
    split; [done|]. rewrite map_bit_update by done. rewrite bit_number_inj in H by lia.
    case_decide as Hd.
    + rewrite testbit_bit_set by (try apply Z.mod_pos_bound; lia).
      destruct H as [[_ H]|[_ H]]; apply orb_true_iff; [right; by apply bool_decide_true|left].
      by rewrite map_bit_eq, Hd, Hi in H.
    + destruct H as [[? _]|[_ H]]; [done|]. done.
Qed.

Lemma words_lookup m i w : words m -> m !! i = Some w -> is_u32 w.
Proof. intros Hw Hi. eapply Forall_lookup_1; eauto. Qed.

Lemma words_update m i w : words m -> is_u32 w -> words (<[i := w]> m).
Proof. intros. by apply Forall_insert. Qed.

(** The lowest set bit of a non-zero word is a free number of its block. *)
Lemma count_ntz_free m i w :
  words m -> m !! i = Some w -> w ≠ 0 ->
  0 <= count_ntz w < 32 /\ bit_number (Z.of_nat i) (count_ntz w) ∈ free_bits m.
Proof.
  intros Hw Hi Hne. pose proof (words_lookup _ _ _ Hw Hi) as [Hlo Hhi].
  assert (0 <= count_ntz w < 32).
  { split; [apply count_ntz_nonneg|]. apply count_ntz_lt; lia. }
  split; [done|]. apply elem_of_free_bits. split.
  - rewrite bit_number_eq by (unfold INT_BIT; lia). lia.
  - rewrite (map_bit_number m i w) by done. apply count_ntz_set. lia.
Qed.

Lemma free_bits_block m n :
  n ∈ free_bits m ->
  exists i w, Z.to_nat (n / 32) = i /\ m !! i = Some w /\ Z.testbit w (n mod 32) = true /\
    n = bit_number (Z.of_nat i) (n mod 32).
Proof.
  intros [Hn Hb]%elem_of_free_bits. rewrite map_bit_eq in Hb by done.
  destruct (m !! Z.to_nat (n / 32)) as [w|] eqn:Hw; [|done].
  do 2 eexists. split_and!; [done..|]. apply bit_number_inj; [done| |done]. apply Z.mod_pos_bound. lia.
Qed.

(** A free number of block [i] is a set bit of its word. *)
Lemma free_bits_in_block m i w n :
  m !! i = Some w -> n ∈ free_bits m -> 32 * Z.of_nat i <= n < 32 * (Z.of_nat i + 1) ->
  Z.testbit w (n mod 32) = true /\ n mod 32 = n - 32 * Z.of_nat i.
Proof.
  intros Hi (j & w' & Hj & Hw & Hb & _)%free_bits_block Hn.
  assert (n / 32 = Z.of_nat i) as E by (symmetry; apply Z.div_unique with (n - 32 * Z.of_nat i); lia).
  rewrite E, Nat2Z.id in Hj. pose proof (Z.div_mod n 32 ltac:(lia)).
  split; [congruence|lia].
Qed.

Lemma free_bits_size m : (size (free_bits m) <= 32 * length m)%nat.
Proof.
  trans (size (list_to_set (C := gset Z) (seqZ 0 (32 * Z.of_nat (length m))))).
  - apply subseteq_size. intros z Hz. apply elem_of_list_to_set, elem_of_seqZ.
    apply free_bits_lt in Hz. lia.
  - rewrite size_list_to_set, length_seqZ by apply NoDup_seqZ. lia.
Qed.
