(* ===== verification/DiskWords.v ===== *)
(** * Words on disk blocks

    The structures of the file system are read from and written to the bytes of
    a block buffer: little-endian words of 32 bits at multiples of four, and
    single bytes of the bit map.  A block of bytes is a list of words here, and
    each access to bytes is shown to be the access to the words. *)

From S2P Require Import Prelude Bitmap.

Definition is_byte (b : Z) : Prop := 0 <= b < 256.
Notation bytes_ok := (Forall is_byte).

(** The number that bytes write, the least significant first, and back. *)
Fixpoint le (l : list Z) : Z := match l with [] => 0 | b :: l => b + 256 * le l end.

Fixpoint le_bytes (n : nat) (v : Z) : list Z :=
  match n with O => [] | S n => v mod 256 :: le_bytes n (v / 256) end.

(** [m] copied over a part of [l] that begins at [a]. *)
Definition splice (l : list Z) (a : nat) (m : list Z) : list Z := take a l ++ m ++ drop (a + length m) l.

(** The 32-bit word at index [i] of a buffer, as [((uint32_t * ) l)[i]]. *)
Definition get32 (l : list Z) (i : Z) : option Z :=
  if decide (0 <= i /\ 4 * i + 4 <= Z.of_nat (length l)) then Some (le (take 4 (drop (Z.to_nat (4 * i)) l))) else None.

Definition put32 (l : list Z) (i v : Z) : option (list Z) :=
  if decide (0 <= i /\ 4 * i + 4 <= Z.of_nat (length l)) then
    Some (splice l (Z.to_nat (4 * i)) (le_bytes 4 v))
  else None.

(** The byte at index [i]. *)
Definition get8 (l : list Z) (i : Z) : option Z := if i <? 0 then None else l !! Z.to_nat i.

Definition put8 (l : list Z) (i v : Z) : option (list Z) :=
  if decide (0 <= i < Z.of_nat (length l)) then Some (<[Z.to_nat i := v mod 256]> l) else None.

(** All words of a buffer. *)
Definition words_of (l : list Z) : list Z := (λ i, le (take 4 (drop (4 * i) l))) <$> seq 0 (length l / 4).

(** ** Numbers and bytes *)

Lemma length_le_bytes n v : length (le_bytes n v) = n.
Proof. revert v. induction n; intros v; simpl; [done|by rewrite IHn]. Qed.

Lemma le_bytes_ok n v : bytes_ok (le_bytes n v).
Proof. revert v. induction n; intros v; simpl; constructor; [apply Z.mod_pos_bound; lia|done]. Qed.

Lemma le_range l : bytes_ok l -> 0 <= le l < 256 ^ Z.of_nat (length l).
Proof.
  induction 1 as [|b l Hb _ IH]; simpl; [lia|]. unfold is_byte in Hb. rewrite Nat2Z.inj_succ, Z.pow_succ_r by lia. lia.
Qed.

Lemma le_le_bytes n v : 0 <= v < 256 ^ Z.of_nat n -> le (le_bytes n v) = v.
Proof.
  revert v. induction n as [|n IH]; intros v Hv; simpl; [lia|]. rewrite Nat2Z.inj_succ, Z.pow_succ_r in Hv by lia.
  rewrite IH; [pose proof (Z.div_mod v 256); lia|]. split; [apply Z.div_pos; lia|]. apply Z.div_lt_upper_bound; lia.
Qed.

Lemma le_bytes_le l : bytes_ok l -> le_bytes (length l) (le l) = l.
Proof.
  induction 1 as [|b l Hb _ IH]; simpl; [done|]. unfold is_byte in Hb. f_equal.
  - rewrite Z.mul_comm, Z.mod_add by lia. by apply Z.mod_small.
  - rewrite Z.mul_comm, Z.div_add, Z.div_small, Z.add_0_l by lia. done.
Qed.

Lemma le_inj l l' : bytes_ok l -> bytes_ok l' -> length l = length l' -> le l = le l' -> l = l'.
Proof. intros H H' Hl He. rewrite <- (le_bytes_le l H), <- (le_bytes_le l' H'), Hl, He. done. Qed.

(** Bit [8 j + k] of the number is bit [k] of byte [j]. *)
Lemma le_testbit l j k b : bytes_ok l -> l !! j = Some b -> 0 <= k < 8 -> Z.testbit (le l) (8 * Z.of_nat j + k) = Z.testbit b k.
Proof.
  revert j. induction l as [|c l IH]; intros j Hl Hj Hk; [done|]. apply Forall_cons in Hl as [Hc Hl]. unfold is_byte in Hc. cbn [le].
  assert (Hs : forall n, 0 <= n -> Z.testbit (c + 256 * le l) n = if decide (n < 8) then Z.testbit c n else Z.testbit (le l) (n - 8)).
  { intros n Hn. replace (c + 256 * le l) with (Z.lor (Z.shiftl (le l) 8) c).
    - rewrite Z.lor_spec, Z.shiftl_spec by lia. destruct (decide (n < 8)).
      + by rewrite (Z.testbit_neg_r (le l)) by lia.
      + by rewrite (testbit_above c 8), orb_false_r by lia.
    - rewrite lor_shiftl_add by lia. lia. }
  rewrite Hs by lia. destruct j as [|j].
  - simpl in Hj. injection Hj as <-. rewrite decide_True by lia. f_equal.
  - rewrite decide_False by lia. rewrite <- (IH j Hl Hj Hk). f_equal. lia.
Qed.

(** ** Copies into a buffer *)

Lemma length_splice l a m : (a + length m <= length l)%nat -> length (splice l a m) = length l.
Proof. intros H. unfold splice. rewrite !length_app, length_take, length_drop. lia. Qed.

Lemma splice_lookup l a m j : (a + length m <= length l)%nat ->
  splice l a m !! j = if decide (a <= j < a + length m)%nat then m !! (j - a)%nat else l !! j.
Proof.
  intros H. unfold splice. destruct (decide (a <= j < a + length m)%nat) as [Hj|Hj].
  - rewrite lookup_app_r, length_take by (rewrite length_take; lia). rewrite lookup_app_l by lia. f_equal. lia.
  - destruct (decide (j < a)%nat).
    + by rewrite lookup_app_l, lookup_take_lt by (rewrite ?length_take; lia).
    + rewrite lookup_app_r, length_take, lookup_app_r, lookup_drop by (rewrite ?length_take; lia). f_equal. lia.
Qed.

Lemma splice_ok l a m : bytes_ok l -> bytes_ok m -> bytes_ok (splice l a m).
Proof. intros. unfold splice. apply Forall_app. split; [by apply Forall_take|]. apply Forall_app. split; [done|by apply Forall_drop]. Qed.

Lemma piece_lookup (l : list Z) d n i : take n (drop d l) !! i = if decide (i < n)%nat then l !! (d + i)%nat else None.
Proof.
  case_decide; [by rewrite lookup_take_lt, lookup_drop by done|]. apply lookup_ge_None_2. rewrite length_take. lia.
Qed.

(** What lies beside the copy is as before. *)
Lemma splice_outside l a m d n : (a + length m <= length l)%nat -> (d + n <= a \/ a + length m <= d)%nat ->
  take n (drop d (splice l a m)) = take n (drop d l).
Proof.
  intros H Hd. apply list_eq. intros i. rewrite !piece_lookup. case_decide; [|done]. rewrite splice_lookup by done.
  rewrite decide_False by lia. done.
Qed.

Lemma splice_inside l a m : (a + length m <= length l)%nat -> take (length m) (drop a (splice l a m)) = m.
Proof.
  intros H. apply list_eq. intros i. rewrite piece_lookup. case_decide; [|by rewrite lookup_ge_None_2 by lia].
  rewrite splice_lookup, decide_True by lia. f_equal. lia.
Qed.

(** ** Words *)

Lemma words_at (l : list Z) (n i : nat) : length l = (4 * n)%nat -> (i < n)%nat -> words_of l !! i = Some (le (take 4 (drop (4 * i) l))).
Proof.
  intros Hlen Hi. unfold words_of. rewrite list_lookup_fmap, lookup_seq_lt; [done|]. rewrite Hlen, Nat.mul_comm, Nat.div_mul; lia.
Qed.

Section Words.
Context (l : list Z) (n : nat) (Hlen : length l = (4 * n)%nat) (Hok : bytes_ok l).

Lemma words_count : (length l / 4 = n)%nat.
Proof using Hlen. rewrite Hlen, Nat.mul_comm. by apply Nat.div_mul. Qed.

Lemma length_words_of : length (words_of l) = n.
Proof using Hlen. unfold words_of. by rewrite length_fmap, length_seq, words_count. Qed.

Lemma words_of_lookup i : (i < n)%nat -> words_of l !! i = Some (le (take 4 (drop (4 * i) l))).
Proof using Hlen.
  by apply words_at.
Qed.

Lemma piece_length d : (d + 4 <= length l)%nat -> length (take 4 (drop d l)) = 4%nat.
Proof. intros. rewrite length_take, length_drop. lia. Qed.

Lemma words_of_ok : words (words_of l).
Proof using Hlen Hok.
  apply Forall_lookup. intros i w Hw. assert (Hi : (i < n)%nat) by (rewrite <- length_words_of; by eapply lookup_lt_Some).
  rewrite words_of_lookup in Hw by done. injection Hw as <-. pose proof (le_range (take 4 (drop (4 * i) l))) as H.
  rewrite piece_length in H by lia. apply H. by apply Forall_take, Forall_drop.
Qed.

Lemma get32_words i : 0 <= i -> get32 l i = words_of l !! Z.to_nat i.
Proof using Hlen.
  intros Hi. unfold get32. destruct (decide _) as [[_ H]|H].
  - rewrite words_of_lookup by lia. do 4 f_equal. lia.
  - rewrite lookup_ge_None_2; [done|]. rewrite length_words_of. lia.
Qed.

Lemma put32_words i v : 0 <= i < Z.of_nat n -> is_u32 v ->
  exists l', put32 l i v = Some l' /\ length l' = length l /\ bytes_ok l' /\ words_of l' = <[Z.to_nat i := v]> (words_of l).
Proof using Hlen Hok.
  intros Hi Hv. unfold put32. rewrite decide_True by lia. eexists. split; [done|].
  assert (Hb : (Z.to_nat (4 * i) + length (le_bytes 4 v) <= length l)%nat) by (rewrite length_le_bytes; lia).
  assert (Hl' := length_splice _ _ _ Hb). split; [done|]. split; [apply splice_ok; [done|apply le_bytes_ok]|].
  apply list_eq. intros j. destruct (decide (j < n)%nat) as [Hj|Hj].
  - rewrite (words_at _ n) by lia. destruct (decide (j = Z.to_nat i)) as [->|Hne].
    + rewrite list_lookup_insert_eq by (rewrite length_words_of; lia). f_equal.
      replace (4 * Z.to_nat i)%nat with (Z.to_nat (4 * i)) by lia. pose proof (splice_inside l _ _ Hb) as H.
      rewrite length_le_bytes in H. rewrite H. apply le_le_bytes. exact Hv.
    + rewrite list_lookup_insert_ne, words_of_lookup by done. do 2 f_equal. apply splice_outside; [done|]. rewrite length_le_bytes. lia.
  - rewrite !lookup_ge_None_2; [done| |]; rewrite ?length_insert, ?length_words_of; [lia|].
    unfold words_of. rewrite length_fmap, length_seq, Hl', words_count. lia.
Qed.

(** Setting a bit of a byte sets a bit of a word. *)
Lemma put8_words y k b : 0 <= y < 4 * Z.of_nat n -> 0 <= k < 8 -> get8 l y = Some b ->
  exists l' w, put8 l y (bit_set b k) = Some l' /\ length l' = length l /\ bytes_ok l' /\
    words_of l !! Z.to_nat (y / 4) = Some w /\ words_of l' = <[Z.to_nat (y / 4) := bit_set w (8 * (y mod 4) + k)]> (words_of l).
Proof using Hlen Hok.
  intros Hy Hk Hb. unfold get8 in Hb. rewrite (proj2 (Z.ltb_ge y 0)) in Hb by lia.
  assert (Hbb : is_byte b) by (by eapply (Forall_lookup_1 is_byte l)). unfold is_byte in Hbb.
  pose proof (bit_set_range b k 8 Hbb Hk) as Hb'. pose proof (Z.div_mod y 4 ltac:(lia)) as Hym. pose proof (Z.mod_pos_bound y 4 ltac:(lia)) as Hy4.
  assert (Hi : (Z.to_nat (y / 4) < n)%nat) by lia. set (i := Z.to_nat (y / 4)) in *.
  unfold put8. rewrite decide_True by lia. rewrite Z.mod_small by done. eexists _, _. split; [done|]. rewrite length_insert. split; [done|].
  assert (Hok' : bytes_ok (<[Z.to_nat y := bit_set b k]> l)) by (by apply Forall_insert).
  split; [done|]. split; [by apply words_of_lookup|]. apply list_eq. intros j. destruct (decide (j < n)%nat) as [Hj|Hj].
  2:{ rewrite !lookup_ge_None_2; [done| |]; rewrite ?length_insert, ?length_words_of; [lia|].
      unfold words_of. rewrite length_fmap, length_seq, length_insert, words_count. lia. }
  rewrite (words_at _ n) by (rewrite ?length_insert; lia). destruct (decide (j = i)) as [->|Hne].
  - rewrite list_lookup_insert_eq by (rewrite length_words_of; lia). f_equal.
    set (p := take 4 (drop (4 * i) l)). set (p' := take 4 (drop (4 * i) (<[Z.to_nat y := bit_set b k]> l))).
    assert (Hp : bytes_ok p) by (by apply Forall_take, Forall_drop). assert (Hp' : bytes_ok p') by (by apply Forall_take, Forall_drop).
    assert (Hlp : length p = 4%nat) by (apply piece_length; lia).
    assert (Hlp' : length p' = 4%nat) by (unfold p'; rewrite length_take, length_drop, length_insert; lia).
    apply Z.bits_inj'. intros m Hm. rewrite testbit_bit_set by lia. destruct (decide (m < 32)) as [Hm32|Hm32].
    + pose proof (Z.div_mod m 8 ltac:(lia)) as Hmd. pose proof (Z.mod_pos_bound m 8 ltac:(lia)) as Hm8.
      assert (Hq : (Z.to_nat (m / 8) < 4)%nat) by lia.
      destruct (lookup_lt_is_Some_2 p (Z.to_nat (m / 8)) ltac:(lia)) as [c Hc]. destruct (lookup_lt_is_Some_2 p' (Z.to_nat (m / 8)) ltac:(lia)) as [c' Hc'].
      replace m with (8 * Z.of_nat (Z.to_nat (m / 8)) + m mod 8) at 1 2 by lia. rewrite (le_testbit p' _ _ c'), (le_testbit p _ _ c) by done.
      unfold p in Hc. unfold p' in Hc'. rewrite piece_lookup, decide_True in Hc, Hc' by done.
      destruct (decide (4 * i + Z.to_nat (m / 8) = Z.to_nat y)%nat) as [He|He].
      * rewrite He, list_lookup_insert_eq in Hc' by lia. injection Hc' as <-. rewrite He, Hb in Hc. injection Hc as <-.
        rewrite testbit_bit_set by lia. f_equal. apply bool_decide_ext. lia.
      * rewrite list_lookup_insert_ne in Hc' by done. rewrite Hc in Hc'. injection Hc' as <-. rewrite bool_decide_false, orb_false_r by lia. done.
    + rewrite (testbit_above (le p') 32), (testbit_above (le p) 32), bool_decide_false; [done|lia| |lia| |lia].
      * pose proof (le_range p Hp) as H. by rewrite Hlp in H.
      * pose proof (le_range p' Hp') as H. by rewrite Hlp' in H.
  - rewrite list_lookup_insert_ne, words_of_lookup by done. do 2 f_equal. apply list_eq. intros m. rewrite !piece_lookup. case_decide; [|done].
    apply list_lookup_insert_ne. lia.
Qed.

End Words.
