(* ===== verification/Cache.v ===== *)
(** * The block cache (lib/libvfs/cache.c)

    128 cells of one block each, found by device and block number through a
    hash table, and chained on one of three lists: free, unlocked ("lru") and
    locked.  Clients lock a block with [cache_get] or [cache_create], work on
    the bytes in place and give it back with [cache_release].  The theorems
    show that the cache is invisible: clients see one array of blocks, and
    [cache_flush] makes the device agree with it. *)

From S2P Require Import Prelude Lists Queues Hash.

(** ** Block devices

    The members [read] and [write] of [block_device_t]; a device is named by
    its channel.  [dev_read] takes what is in the buffer and gives the result
    and what is there afterwards. *)

Definition MAX_CACHE : Z := 128.
Definition DEFAULT_BLOCK_SIZE : Z := 512.

Class BlockDevice (D : Type) := {
  dev_read : D -> Z -> Z -> list Z -> Z * list Z * D;
  dev_write : D -> Z -> Z -> list Z -> Z * D;
}.

(** What a driver promises of the blocks it can address: they change by
    writing only, a read that succeeds gives the block, a write that fails
    spoils no other block.  Reliable devices do not fail. *)
Class BlockDeviceLaws (D : Type) `{!BlockDevice D} := {
  addressable : Z * Z -> Prop;
  disk : D -> Z * Z -> list Z;
  disk_length d k : length (disk d k) = Z.to_nat DEFAULT_BLOCK_SIZE;
  reliable : Prop;
  read_length d c b l : length l = Z.to_nat DEFAULT_BLOCK_SIZE -> length (dev_read d c b l).1.2 = Z.to_nat DEFAULT_BLOCK_SIZE;
  read_disk d c b l k : disk (dev_read d c b l).2 k = disk d k;
  read_ok d c b l : length l = Z.to_nat DEFAULT_BLOCK_SIZE -> addressable (b, c) -> (dev_read d c b l).1.1 = DEFAULT_BLOCK_SIZE -> (dev_read d c b l).1.2 = disk d (b, c);
  reliable_read d c b l : reliable -> addressable (b, c) -> (dev_read d c b l).1.1 = DEFAULT_BLOCK_SIZE;
  write_other d c b l k : length l = Z.to_nat DEFAULT_BLOCK_SIZE -> addressable (b, c) -> addressable k -> k ≠ (b, c) -> disk (dev_write d c b l).2 k = disk d k;
  write_ok d c b l : addressable (b, c) -> (dev_write d c b l).1 = 0 -> length l = Z.to_nat DEFAULT_BLOCK_SIZE ->
    disk (dev_write d c b l).2 (b, c) = l;
  reliable_write d c b l : reliable -> addressable (b, c) -> length l = Z.to_nat DEFAULT_BLOCK_SIZE -> (dev_write d c b l).1 = 0;
}.

(** ** The code *)

(** The [list_t] objects: the three heads and the member [lru] of each cell. *)
Inductive cloc := CFree | CLru | CLocked | CCell (i : Z).

#[export] Instance cloc_eq_dec : EqDecision cloc.
Proof. solve_decision. Defined.

#[export] Instance cloc_countable : Countable cloc.
Proof.
  apply (inj_countable' (λ l, match l with CFree => (0, 0) | CLru => (1, 0) | CLocked => (2, 0) | CCell i => (3, i) end)
    (λ c, match c with (0, _) => CFree | (1, _) => CLru | (2, _) => CLocked | (_, i) => CCell i end)).
  by intros [].
Defined.

#[export] Instance cache_queueing : Queueing cloc := {
  is_guard g := match g with CCell _ => false | _ => true end;
  link_of _ := CCell;
}.

#[export] Instance cache_queueing_laws : QueueingLaws cloc.
Proof. split; [done|]. intros g g' a b. cbn. naive_solver. Qed.

Record cache_t := {
  block_no : Z;
  dev : Z;
  dirty : bool;
  lock_count : Z;
  buf : list Z;
}.

(** A key is the pair of members that [compare] looks at.  In the source it is
    the cell itself; a cell changes these members only while it is out of the
    table. *)
Definition calc_hash (key : Z * Z) (size : Z) : Z := u32 key.1 mod size.

Definition compare (x y : Z * Z) : Z :=
  if x.1 =? y.1 then (if x.2 =? y.2 then 0 else if x.2 <? y.2 then -1 else 1)
  else if x.1 <? y.1 then -1 else 1.

Definition key_of (c : cache_t) : Z * Z := (block_no c, dev c).

(** [getLruParent] *)
Definition getLruParent (p : cloc) : option Z := match p with CCell i => Some i | _ => None end.

Section Code.
Context {D : Type} `{!BlockDevice D}.
Context {H : Type} `{!ListOps cloc H} {HH : Type} `{!ListOps hloc HH}.

(** The static variables, and the devices behind them.  A buffer pointer is
    the number of its cell, [None] is [NULL]. *)
Record store := Store {
  hash : @hash_t (Z * Z) Z HH;
  cache : gmap Z cache_t;
  lists : H;
  devices : D;
}.

Definition set_hash (s : store) h := Store h (cache s) (lists s) (devices s).
Definition set_cell (s : store) i c := Store (hash s) (<[i := c]> (cache s)) (lists s) (devices s).
Definition set_lists (s : store) l := Store (hash s) (cache s) l (devices s).
Definition set_devices (s : store) d := Store (hash s) (cache s) (lists s) d.

Definition set_dirty (c : cache_t) b :=
  {| block_no := block_no c; dev := dev c; dirty := b; lock_count := lock_count c; buf := buf c |}.
Definition set_lock_count (c : cache_t) n :=
  {| block_no := block_no c; dev := dev c; dirty := dirty c; lock_count := n; buf := buf c |}.
Definition set_cell_buf (c : cache_t) l :=
  {| block_no := block_no c; dev := dev c; dirty := dirty c; lock_count := lock_count c; buf := l |}.

(** A static cell. *)
Definition blank : cache_t :=
  {| block_no := 0; dev := 0; dirty := false; lock_count := 0; buf := replicate (Z.to_nat DEFAULT_BLOCK_SIZE) 0 |}.

Fixpoint append_loop (n : nat) (i : Z) (l : H) : option H :=
  match n with
  | O => Some l
  | S n => l ← op_append l CFree (CCell i); append_loop n (i + 1) l
  end.

(** [got_table], [got_entries], [h] and [d] as for [hash_create]; [l] is the
    memory of the links. *)
Definition cache_initialize (got_table got_entries : bool) (h : HH) (d : gmap Z (option (Z * Z) * option Z)) (l : H) (dv : D) :
    option (Z * option store) :=
  t ← hash_create got_table got_entries h d MAX_CACHE;
  match t with
  | None => Some (-1, None)
  | Some t =>
      l ← op_initialize l CFree;
      l ← op_initialize l CLru;
      l ← op_initialize l CLocked;
      l ← append_loop (Z.to_nat MAX_CACHE) 0 l;
      Some (0, Some (Store t (gset_to_gmap blank (list_to_set (seqZ 0 MAX_CACHE))) l dv))
  end.

Definition fill (s : store) (i : Z) : option (Z * store) :=
  c ← cache s !! i;
  let '(r, l, d) := dev_read (devices s) (dev c) (block_no c) (buf c) in
  Some (r, set_cell (set_devices s d) i (set_cell_buf c l)).

Definition sweep (s : store) (i : Z) : option (Z * store) :=
  c ← cache s !! i;
  let '(r, d) := dev_write (devices s) (dev c) (block_no c) (buf c) in
  Some (r, set_devices s d).

(** [list_remove] and [list_insert] of a cell. *)
Definition move (s : store) (g : cloc) (i : Z) : option store :=
  l ← op_remove (lists s) (CCell i);
  l ← op_insert l g (CCell i);
  Some (set_lists s l).

Definition dispose (s : store) (i : Z) : option store :=
  s ← move s CFree i;
  c ← cache s !! i;
  '(_, h) ← hash_remove calc_hash compare (hash s) (key_of c);
  Some (set_hash s h).

(** The part that [cache_create] and [cache_get] share: a cell to put the
    block into, [None] if there is none. *)
Definition take_cell (s : store) : option (option Z * store) :=
  e ← op_is_empty (lists s) CFree;
  if negb e then
    p ← op_next (lists s) CFree;
    i ← getLruParent p;
    Some (Some i, s)
  else
    e ← op_is_empty (lists s) CLru;
    if negb e then
      p ← op_next (lists s) CLru;
      i ← getLruParent p;
      c ← cache s !! i;
      '(r, s) ← (if dirty c then sweep s i else Some (0, s));
      if negb (r =? 0) then Some (None, s)
      else
        '(_, h) ← hash_remove calc_hash compare (hash s) (key_of c);
        Some (Some i, set_hash s h)
    else Some (None, s).

(** The members set before the cell is entered into the table. *)
Definition name_cell (s : store) (i channel no : Z) : option store :=
  c ← cache s !! i;
  Some (set_cell s i {| block_no := no; dev := channel; dirty := false; lock_count := 0; buf := buf c |}).

Definition enter_cell (s : store) (i : Z) : option store :=
  c ← cache s !! i;
  '(_, h) ← hash_put calc_hash compare (hash s) (key_of c) i;
  Some (set_hash s h).

Definition lock_cell (s : store) (i : Z) : option store :=
  c ← cache s !! i;
  move (set_cell s i (set_lock_count c (u32 (lock_count c + 1)))) CLocked i.

Definition cache_create (s : store) (channel no : Z) : option (option Z * store) :=
  let no := s32 no in
  '(cp, h) ← hash_get calc_hash compare (hash s) (no, channel);
  let s := set_hash s h in
  '(cp, s) ← (match cp with
              | Some i => Some (Some i, s)
              | None =>
                  '(cp, s) ← take_cell s;
                  match cp with
                  | None => Some (None, s)
                  | Some i => s ← name_cell s i channel no; s ← enter_cell s i; Some (Some i, s)
                  end
              end);
  match cp with
  | None => Some (None, s)
  | Some i =>
      s ← lock_cell s i;
      c ← cache s !! i;
      Some (Some i, set_cell s i (set_cell_buf c (replicate (Z.to_nat DEFAULT_BLOCK_SIZE) 0)))
  end.

Definition cache_get (s : store) (channel no : Z) : option (option Z * store) :=
  let no := s32 no in
  '(cp, h) ← hash_get calc_hash compare (hash s) (no, channel);
  let s := set_hash s h in
  '(cp, s) ← (match cp with
              | Some i => Some (Some i, s)
              | None =>
                  '(cp, s) ← take_cell s;
                  match cp with
                  | None => Some (None, s)
                  | Some i =>
                      s ← name_cell s i channel no;
                      '(r, s) ← fill s i;
                      if negb (r =? DEFAULT_BLOCK_SIZE) then s ← move s CFree i; Some (None, s)
                      else s ← enter_cell s i; Some (Some i, s)
                  end
              end);
  match cp with
  | None => Some (None, s)
  | Some i => s ← lock_cell s i; Some (Some i, s)
  end.

Definition cache_modify (s : store) (p : option Z) : option (bool * store) :=
  match p with
  | None => Some (false, s)
  | Some i => c ← cache s !! i; Some (true, set_cell s i (set_dirty c true))
  end.

Definition cache_release (s : store) (p : option Z) (d : bool) : option (bool * store) :=
  match p with
  | None => Some (false, s)
  | Some i =>
      c ← cache s !! i;
      let c := set_dirty c (dirty c || d) in
      if 0 <? lock_count c then
        let c := set_lock_count c (lock_count c - 1) in
        let s := set_cell s i c in
        s ← (if lock_count c =? 0 then move s CLru i else Some s);
        Some (true, s)
      else Some (true, set_cell s i c)
  end.

Definition cache_invalidate (s : store) (channel no : Z) : option (bool * store) :=
  let no := s32 no in
  '(cp, h) ← hash_get calc_hash compare (hash s) (no, channel);
  let s := set_hash s h in
  match cp with
  | None => Some (false, s)
  | Some i => s ← dispose s i; Some (true, s)
  end.

(** One cell of [cache_flush]: written if dirty. *)
Definition flush_cell (s : store) (i : Z) : option (Z * store) :=
  c ← cache s !! i;
  if dirty c then
    '(error_no, s) ← sweep s i;
    if negb (error_no =? 0) then Some (error_no, s)
    else Some (0, set_cell s i (set_dirty c false))
  else Some (0, s).

Fixpoint flush_lru (f : nat) (s : store) (p : cloc) (channel : Z) (unmount : bool) : option (Z * store) :=
  match f with
  | O => None
  | S f =>
      if list_is_edge CLru p then Some (0, s)
      else
        i ← getLruParent p;
        c ← cache s !! i;
        if negb (dev c =? channel) then p ← op_next (lists s) p; flush_lru f s p channel unmount
        else
          '(error_no, s) ← flush_cell s i;
          if negb (error_no =? 0) then Some (error_no, s)
          else
            p ← op_next (lists s) p;
            s ← (if unmount then dispose s i else Some s);
            flush_lru f s p channel unmount
  end.

Fixpoint flush_locked (f : nat) (s : store) (p : cloc) : option (Z * store) :=
  match f with
  | O => None
  | S f =>
      if list_is_edge CLocked p then Some (0, s)
      else
        i ← getLruParent p;
        '(error_no, s) ← flush_cell s i;
        if negb (error_no =? 0) then Some (error_no, s)
        else p ← op_next (lists s) p; flush_locked f s p
  end.

(** No list is longer than the cache. *)
Definition LAPS : nat := 129.

Definition cache_flush (s : store) (channel : Z) (unmount : bool) : option (Z * store) :=
  p ← op_next (lists s) CLru;
  '(error_no, s) ← flush_lru LAPS s p channel unmount;
  if negb (error_no =? 0) then Some (error_no, s)
  else p ← op_next (lists s) CLocked; flush_locked LAPS s p.

(** The client at work on the bytes of a buffer. *)
Definition buffer (s : store) (i : Z) : option (list Z) := buf <$> cache s !! i.
Definition write_buffer (s : store) (i : Z) (l : list Z) : option store :=
  c ← cache s !! i; Some (set_cell s i (set_cell_buf c l)).

End Code.

(** ** Invariant *)

Notation crings := (gmap cloc (list cloc)).

Lemma compare_eq a b : compare a b = 0 <-> a = b.
Proof.
  destruct a as [x y], b as [x' y']. unfold compare. simpl.
  destruct (Z.eqb_spec x x'), (Z.eqb_spec y y'), (y <? y'), (x <? x'); split; intros; simplify_eq; try done.
Qed.

Lemma calc_hash_range k n : 0 < n -> 0 <= calc_hash k n < n.
Proof. apply Z.mod_pos_bound. Qed.

(** The three lists as queues of cells. *)
Definition queues (lf ll lk : list Z) : gmap cloc (list Z) :=
  <[CFree := lf]> (<[CLru := ll]> (<[CLocked := lk]> ∅)).

Definition rem (i : Z) (l : list Z) : list Z := filter (λ x, x ≠ i) l.

Lemma rem_elem i j l : j ∈ rem i l <-> j ≠ i /\ j ∈ l.
Proof. unfold rem. by rewrite list_elem_of_filter. Qed.

Lemma rem_id i l : i ∉ l -> rem i l = l.
Proof. apply filter_ne_id. Qed.

Section Invariant.
Context {D : Type} `{!BlockDevice D, !BlockDeviceLaws D}.
Notation st := (@store D crings (gmap hloc (list hloc))).
Implicit Types s : st.

(** The cells in use are those of the table [m]; [x] is a cell on its way
    from one block to another. *)
Record cok s (m : gmap (Z * Z) Z) (lf ll lk : list Z) (x : option Z) : Prop := {
  k_hash : hash_ok calc_hash (hash s) m;
  k_max : max (hash s) = MAX_CACHE;
  k_lists : qrep (lists s) (queues lf ll lk) ∅;
  k_perm : lf ++ ll ++ lk ≡ₚ seqZ 0 MAX_CACHE;
  k_cell i : 0 <= i < MAX_CACHE -> exists c, cache s !! i = Some c;
  k_in i c : i ∈ ll ++ lk -> x ≠ Some i -> cache s !! i = Some c -> m !! key_of c = Some i;
  k_map k i : m !! k = Some i -> x ≠ Some i /\ i ∈ ll ++ lk /\ exists c, cache s !! i = Some c /\ key_of c = k;
  k_addr k i : m !! k = Some i -> addressable k;
  k_locked i c : i ∈ lk -> cache s !! i = Some c -> 0 < lock_count c < 2 ^ 32;
  k_unlocked i c : i ∈ ll -> x ≠ Some i -> cache s !! i = Some c ->
    lock_count c = 0 /\ (dirty c = false -> buf c = disk (devices s) (key_of c));
  k_len i c : cache s !! i = Some c -> length (buf c) = Z.to_nat DEFAULT_BLOCK_SIZE;
}.

(** A block as the clients see it. *)
Definition view s (m : gmap (Z * Z) Z) (k : Z * Z) : list Z :=
  match m !! k with
  | Some i => match cache s !! i with Some c => buf c | None => [] end
  | None => disk (devices s) k
  end.

Lemma perm_range (lf ll lk : list Z) i : lf ++ ll ++ lk ≡ₚ seqZ 0 MAX_CACHE -> i ∈ lf ++ ll ++ lk <-> 0 <= i < MAX_CACHE.
Proof. intros ->. rewrite elem_of_seqZ. lia. Qed.

Lemma perm_nodup (lf ll lk : list Z) : lf ++ ll ++ lk ≡ₚ seqZ 0 MAX_CACHE -> NoDup (lf ++ ll ++ lk).
Proof. intros ->. apply NoDup_seqZ. Qed.

Lemma rem_perm (l : list Z) i : NoDup l -> i ∈ l -> i :: rem i l ≡ₚ l.
Proof.
  intros Hnd Hi. apply NoDup_Permutation; [|done|].
  - constructor; [rewrite rem_elem; tauto|by apply NoDup_filter].
  - intros j. rewrite elem_of_cons, rem_elem. destruct (decide (j = i)) as [->|]; naive_solver.
Qed.

(** [move] takes a cell from its list to the head of another. *)
Lemma move_spec s lf ll lk g i : qrep (lists s) (queues lf ll lk) ∅ -> lf ++ ll ++ lk ≡ₚ seqZ 0 MAX_CACHE ->
  0 <= i < MAX_CACHE -> is_guard g = true ->
  exists l, move s g i = Some (set_lists s l) /\
    qrep l (queues ((if decide (g = CFree) then [i] else []) ++ rem i lf)
                   ((if decide (g = CLru) then [i] else []) ++ rem i ll)
                   ((if decide (g = CLocked) then [i] else []) ++ rem i lk)) ∅.
Proof.
  intros HQ Hp Hi Hg. pose proof (perm_nodup _ _ _ Hp) as Hnd. apply (perm_range _ _ _ i) in Hp as [_ Hin]. specialize (Hin Hi).
  apply NoDup_app in Hnd as (_ & Hd1 & Hnd). apply NoDup_app in Hnd as (_ & Hd2 & _).
  assert (Hrem : exists g0 l0, queues lf ll lk !! g0 = Some l0 /\ i ∈ l0 /\
    <[g0 := rem i l0]> (queues lf ll lk) = queues (rem i lf) (rem i ll) (rem i lk)).
  { rewrite !elem_of_app in Hin. unfold queues. destruct Hin as [Hin|[Hin|Hin]].
    - exists CFree, lf. specialize (Hd1 i Hin). rewrite elem_of_app in Hd1. rewrite (rem_id i ll), (rem_id i lk) by tauto.
      split; [done|]. split; [done|]. by rewrite insert_insert_eq.
    - exists CLru, ll. assert (i ∉ lf) by (intros H1; apply (Hd1 i H1), elem_of_app; tauto).
      rewrite (rem_id i lf), (rem_id i lk) by (done || by apply Hd2). split; [done|]. split; [done|].
      rewrite insert_insert_ne, insert_insert_eq by done. done.
    - exists CLocked, lk. assert (i ∉ lf) by (intros H1; apply (Hd1 i H1), elem_of_app; tauto).
      assert (i ∉ ll) by (intros H1; by apply (Hd2 i H1)).
      rewrite (rem_id i lf), (rem_id i ll) by done. split; [done|]. split; [done|].
      rewrite insert_insert_ne, (insert_insert_ne _ CLocked CLru), insert_insert_eq by done. done. }
  destruct Hrem as (g0 & l0 & Hg0 & Hi0 & Heq).
  destruct (q_remove _ _ _ HQ g0 i l0 Hg0 Hi0) as (A1 & Hr & HQ1). fold (rem i l0) in HQ1. rewrite Heq in HQ1.
  unfold move. change (op_remove (lists s) (CCell i)) with (ring_remove (lists s) (link_of g0 i)). rewrite Hr. cbn [mbind option_bind].
  assert (Hoff : off (queues (rem i lf) (rem i ll) (rem i lk)) g i).
  { intros g' l' Hl' _ Hin'. unfold queues in Hl'.
    destruct g'; rewrite ?lookup_insert_eq, ?lookup_insert_ne, ?lookup_insert_eq, ?lookup_insert_ne, ?lookup_insert_eq in Hl' by done;
      simplify_eq; apply rem_elem in Hin'; tauto. }
  assert (Hl : exists l, queues (rem i lf) (rem i ll) (rem i lk) !! g = Some l /\
    <[g := i :: l]> (queues (rem i lf) (rem i ll) (rem i lk)) =
    queues ((if decide (g = CFree) then [i] else []) ++ rem i lf) ((if decide (g = CLru) then [i] else []) ++ rem i ll)
           ((if decide (g = CLocked) then [i] else []) ++ rem i lk)).
  { unfold queues. destruct g; [| | |done]; simpl; eexists; (split; [done|]); apply map_eq; intros [| | |j]; done. }
  destruct Hl as (l & Hl & Heq2).
  destruct (q_push _ _ _ HQ1 g i l Hl Hoff) as (A2 & Hp2 & HQ2). rewrite Heq2 in HQ2.
  change (op_insert A1 g (CCell i)) with (ring_insert A1 g (link_of g i)). rewrite Hp2. cbn [mbind option_bind]. by eexists.
Qed.

Lemma moved_perm (lf ll lk a b c : list Z) i : lf ++ ll ++ lk ≡ₚ seqZ 0 MAX_CACHE -> 0 <= i < MAX_CACHE -> a ++ b ++ c = [i] ->
  (a ++ rem i lf) ++ (b ++ rem i ll) ++ (c ++ rem i lk) ≡ₚ seqZ 0 MAX_CACHE.
Proof.
  intros Hp Hi Hone. rewrite <- Hp. transitivity ((a ++ b ++ c) ++ rem i (lf ++ ll ++ lk)).
  - unfold rem. rewrite !filter_app. solve_Permutation.
  - rewrite Hone. apply rem_perm; [by apply perm_nodup|]. by apply perm_range.
Qed.

Lemma disjoint_lists (lf ll lk : list Z) i : lf ++ ll ++ lk ≡ₚ seqZ 0 MAX_CACHE ->
  (i ∈ lf -> i ∉ ll /\ i ∉ lk) /\ (i ∈ ll -> i ∉ lk).
Proof.
  intros Hnd%perm_nodup. apply NoDup_app in Hnd as (_ & Hd1 & Hnd). apply NoDup_app in Hnd as (_ & Hd2 & _).
  split; [|apply Hd2]. intros Hi%Hd1. rewrite elem_of_app in Hi. tauto.
Qed.

(** There are fewer blocks in the table than cells while one is on its way. *)
Lemma table_room s m lf ll lk i : cok s m lf ll lk (Some i) -> 0 <= i < MAX_CACHE -> Z.of_nat (stdpp.base.size m) < MAX_CACHE.
Proof.
  intros Hok Hi. assert (Hnd : NoDup (snd <$> map_to_list m)).
  { apply NoDup_fmap_2_strong; [|apply NoDup_map_to_list]. intros [k1 j1] [k2 j2] H1%elem_of_map_to_list H2%elem_of_map_to_list.
    simpl. intros ->. destruct (k_map _ _ _ _ _ _ Hok k1 j2 H1) as (_ & _ & c1 & Hc1 & <-).
    destruct (k_map _ _ _ _ _ _ Hok k2 j2 H2) as (_ & _ & c2 & Hc2 & <-). by simplify_eq. }
  assert (Hsub : i :: (snd <$> map_to_list m) ⊆+ seqZ 0 MAX_CACHE).
  { apply NoDup_submseteq.
    - constructor; [|done]. intros ([k j] & -> & Hk%elem_of_map_to_list)%list_elem_of_fmap.
      destruct (k_map _ _ _ _ _ _ Hok k _ Hk) as (Hne & _). done.
    - intros j. rewrite elem_of_cons, elem_of_seqZ. intros [->|([k j'] & -> & Hk%elem_of_map_to_list)%list_elem_of_fmap]; [lia|].
      destruct (k_map _ _ _ _ _ _ Hok k _ Hk) as (_ & Hin & _). simpl.
      assert (j' ∈ lf ++ ll ++ lk) as Hr by (apply elem_of_app; by right).
      apply (perm_range _ _ _ _ (k_perm _ _ _ _ _ _ Hok)) in Hr. lia. }
  apply submseteq_length in Hsub. cbn [length] in Hsub. rewrite length_fmap, length_seqZ in Hsub.
  rewrite length_map_to_list in Hsub. unfold MAX_CACHE in *. lia.
Qed.

Lemma sweep_spec s m lf ll lk x i c : cok s m lf ll lk x -> i ∈ ll ++ lk -> x ≠ Some i -> cache s !! i = Some c -> dirty c = true ->
  exists r d, sweep s i = Some (r, set_devices s d) /\ cok (set_devices s d) m lf ll lk x /\
    (forall k, addressable k -> k ≠ key_of c -> disk d k = disk (devices s) k) /\ (r = 0 -> disk d (key_of c) = buf c) /\
    (r ≠ 0 -> ~ reliable).
Proof.
  intros Hok Hi Hx Hc Hd. unfold sweep. rewrite Hc. cbn [mbind option_bind].
  destruct (dev_write (devices s) (dev c) (block_no c) (buf c)) as [r d] eqn:Hw. exists r, d.
  assert (Haddr : addressable (key_of c)) by (by eapply k_addr, k_in; eauto).
  assert (Hoth : forall k, addressable k -> k ≠ key_of c -> disk d k = disk (devices s) k).
  { intros k Ha Hk. pose proof (write_other (devices s) (dev c) (block_no c) (buf c) k ltac:(by eapply k_len) Haddr Ha Hk) as H. by rewrite Hw in H. }
  split; [done|]. split; [|split; [done|split]].
  - destruct Hok. split; try done. cbn [set_devices devices cache]. intros j cj Hj Hxj Hcj.
    destruct (k_unlocked0 j cj Hj Hxj Hcj) as [Hl Hb]. split; [done|]. intros Hdj.
    assert (m !! key_of cj = Some j) as Hmj by (apply k_in0; [apply elem_of_app; by left|done|done]).
    rewrite Hoth; [by apply Hb|by eapply k_addr0|]. intros Heq.
    assert (m !! key_of c = Some i) as Hmi by (by apply k_in0). rewrite Heq in Hmj. simplify_eq. congruence.
  - intros ->. pose proof (write_ok (devices s) (dev c) (block_no c) (buf c) Haddr) as H. rewrite Hw in H.
    apply H; [done|]. by eapply k_len.
  - intros Hr Hrel. apply Hr. pose proof (reliable_write (devices s) (dev c) (block_no c) (buf c) Hrel Haddr) as H. rewrite Hw in H.
    apply H. by eapply k_len.
Qed.

(** Removing the head of the list of unlocked cells from the table. *)
Lemma drop_key s m lf ll lk i c : cok s m lf ll lk None -> i ∈ ll ++ lk -> cache s !! i = Some c ->
  exists h, hash_remove calc_hash compare (hash s) (key_of c) = Some (HASH_OK, h) /\
    cok (set_hash s h) (delete (key_of c) m) lf ll lk (Some i).
Proof.
  intros Hok Hi Hc. pose proof (k_in _ _ _ _ _ _ Hok i c Hi ltac:(done) Hc) as Hm.
  pose proof (hash_remove_spec calc_hash compare compare_eq (hash s) m (key_of c) (k_hash _ _ _ _ _ _ Hok)) as Hr.
  rewrite Hm in Hr. destruct Hr as (h & Hr & Hh). exists h. split; [done|].
  destruct Hok. split; try done.
  - cbn [set_hash hash]. rewrite <- k_max0. apply (hash_do_max calc_hash compare _ (CRemove (key_of c)) (ACode HASH_OK)).
    unfold hash_do. by rewrite Hr.
  - cbn [set_hash cache]. intros j cj Hj Hne Hcj. rewrite lookup_delete_ne; [by apply k_in0|].
    intros Heq. pose proof (k_in0 j cj Hj ltac:(done) Hcj) as Hmj. rewrite <- Heq in Hmj. congruence.
  - intros k j Hkj. apply lookup_delete_Some in Hkj as [Hk Hkj]. destruct (k_map0 k j Hkj) as (_ & Hin & cj & Hcj & Hkey).
    split; [|split; [done|by exists cj]]. intros [= ->]. simplify_eq.
  - intros k j [_ Hkj]%lookup_delete_Some. by eapply k_addr0.
  - intros j cj Hj _ Hcj. exact (k_unlocked0 j cj Hj ltac:(done) Hcj).
Qed.

Lemma next_guard s lf ll lk g l : qrep (lists s) (queues lf ll lk) ∅ -> queues lf ll lk !! g = Some l ->
  op_is_empty (lists s) g = Some (match l with [] => true | _ => false end) /\
  op_next (lists s) g = Some (default g (CCell <$> head l)).
Proof.
  intros HQ Hg. split; [|exact (q_next_guard _ _ _ HQ g l Hg)]. simpl. unfold ring_is_empty.
  rewrite (q_lookup _ _ _ HQ _ _ Hg). by destruct l.
Qed.

(** What finding a cell does: nothing the clients can see. *)
Lemma take_cell_spec s m lf ll lk : cok s m lf ll lk None ->
  exists r s', take_cell s = Some (r, s') /\ cache s' = cache s /\
  match r with
  | None => cok s' m lf ll lk None /\ (forall k, addressable k -> view s' m k = view s m k) /\ lf = [] /\
      (ll = [] \/ ~ reliable) /\
      (forall j c, cache s !! j = Some c -> j ∈ ll ++ lk -> dirty c = false -> disk (devices s') (key_of c) = disk (devices s) (key_of c))
  | Some i => exists m', cok s' m' lf ll lk (Some i) /\ 0 <= i < MAX_CACHE /\ i ∉ lk /\
      (forall k, addressable k -> view s' m' k = view s m k) /\ (forall k, m !! k = None -> m' !! k = None) /\
      (forall k j, m !! k = Some j -> j ∈ lk -> m' !! k = Some j /\ disk (devices s') k = disk (devices s) k)
  end.
Proof.
  intros Hok. pose proof (k_lists _ _ _ _ _ _ Hok) as HQ. unfold take_cell.
  destruct (next_guard s lf ll lk CFree lf HQ eq_refl) as [He Hn]. rewrite He. cbn [mbind option_bind].
  destruct (disjoint_lists lf ll lk (default 0 (head lf)) (k_perm _ _ _ _ _ _ Hok)) as [Hdf _].
  destruct lf as [|i lf]; cbn [negb].
  2:{ rewrite Hn. cbn [mbind option_bind head fmap option_fmap option_map default id getLruParent].
    destruct (Hdf ltac:(by left)) as [Hil Hik]. cbn [head default] in Hil, Hik.
    eexists _, _. split; [done|]. split; [done|]. exists m. split; [|split; [|split; [done|]]].
    - destruct Hok. split; try done.
      + intros j c Hj _ Hc. by apply k_in0.
      + intros k j Hk. destruct (k_map0 k j Hk) as (_ & Hin & Hc). split; [|done]. intros [= ->]. rewrite elem_of_app in Hin. tauto.
      + intros j c Hj _ Hc. exact (k_unlocked0 j c Hj ltac:(done) Hc).
    - apply (perm_range _ _ _ i (k_perm _ _ _ _ _ _ Hok)). by left.
    - split; [done|]. split; [done|]. done. }
  clear Hdf. destruct (next_guard s [] ll lk CLru ll HQ eq_refl) as [He2 Hn2]. rewrite He2. cbn [mbind option_bind].
  destruct ll as [|i ll]; cbn [negb].
  { eexists _, _. split; [done|]. split; [done|]. split; [done|]. split; [done|]. split; [done|]. split; [by left|]. done. }
  rewrite Hn2. cbn [mbind option_bind head fmap option_fmap option_map default id getLruParent].
  assert (Hi : i ∈ (i :: ll) ++ lk) by (by left). assert (Hik : i ∉ lk).
  { apply (disjoint_lists [] (i :: ll) lk i (k_perm _ _ _ _ _ _ Hok)). by left. }
  assert (Hir : 0 <= i < MAX_CACHE) by (apply (perm_range _ _ _ i (k_perm _ _ _ _ _ _ Hok)); by left).
  destruct (k_cell _ _ _ _ _ _ Hok i Hir) as [c Hc]. rewrite Hc. cbn [mbind option_bind].
  pose proof (k_in _ _ _ _ _ _ Hok i c Hi ltac:(done) Hc) as Hm.
  assert (Hsw : exists r d, (if dirty c then sweep s i else Some (0, s)) = Some (r, set_devices s d) /\
    cok (set_devices s d) m [] (i :: ll) lk None /\ (forall k, addressable k -> k ≠ key_of c -> disk d k = disk (devices s) k) /\
    (r = 0 -> disk d (key_of c) = buf c) /\ (r ≠ 0 -> dirty c = true /\ ~ reliable)).
  { destruct (dirty c) eqn:Hd.
    - destruct (sweep_spec s m [] (i :: ll) lk None i c Hok Hi ltac:(done) Hc Hd) as (r & d & Hs & Hok' & Hoth & Hw & Hr).
      exists r, d. split; [done|]. split; [done|]. split; [done|]. split; [done|]. auto.
    - exists 0, (devices s). split; [by destruct s|]. split; [by destruct s|]. split; [done|]. split; [|done].
      intros _. symmetry. by apply (k_unlocked _ _ _ _ _ _ Hok i c ltac:(by left)). }
  destruct Hsw as (r & d & Hsw & Hok' & Hoth & Hwrote & Hfail). rewrite Hsw. cbn [mbind option_bind].
  destruct (Z.eqb_spec r 0) as [->|Hr]; cbn [negb].
  - destruct (drop_key _ m [] (i :: ll) lk i c Hok' Hi Hc) as (h & Hh & Hok2). cbn [set_devices hash] in Hh. cbn [set_devices hash].
    rewrite Hh. cbn [mbind option_bind]. eexists _, _. split; [done|]. split; [done|].
    exists (delete (key_of c) m). split; [done|]. split; [done|]. split; [done|]. split; [|split].
    + intros k Ha. unfold view. cbn [set_hash set_devices cache devices]. destruct (decide (k = key_of c)) as [->|Hk].
      * rewrite lookup_delete_eq, Hm, Hc. by apply Hwrote.
      * rewrite lookup_delete_ne by done. destruct (m !! k); [done|]. by apply Hoth.
    + intros k Hk. by apply lookup_delete_None; right.
    + intros k j Hk Hj. assert (k ≠ key_of c) by (intros ->; by simplify_eq). rewrite lookup_delete_ne by done. split; [done|].
      apply Hoth; [exact (k_addr _ _ _ _ _ _ Hok _ _ Hk)|done].
  - destruct (Hfail Hr) as [Hd Hdw]. eexists _, _. split; [done|]. split; [done|]. split; [done|]. split; [|split; [done|split]].
    + intros k Ha. unfold view. cbn [set_devices cache devices]. destruct (m !! k) as [j|] eqn:Hk; [done|]. apply Hoth; [done|]. intros ->. congruence.
    + by right.
    + intros j cj Hcj Hj Hdj. cbn [set_devices devices]. pose proof (k_in _ _ _ _ _ _ Hok j cj Hj ltac:(done) Hcj) as Hmj.
      apply Hoth; [exact (k_addr _ _ _ _ _ _ Hok _ _ Hmj)|]. intros Heq. rewrite Heq in Hmj. simplify_eq. congruence.
Qed.

(** ** The cache as an array of blocks *)

(** The blocks, and the buffers that are locked: which block each holds, how
    often it is locked, and whether it was written without being marked. *)
Record blocks := Blocks {
  blk : Z * Z -> list Z;
  held : gmap Z ((Z * Z) * Z * bool);
}.

Record rep s (a : blocks) (m : gmap (Z * Z) Z) (lf ll lk : list Z) : Prop := {
  r_ok : cok s m lf ll lk None;
  r_blk k : addressable k -> blk a k = view s m k;
  r_held i : i ∈ lk <-> is_Some (held a !! i);
  r_cell i k n t : held a !! i = Some (k, n, t) ->
    exists c, cache s !! i = Some c /\ key_of c = k /\ lock_count c = n /\
      (t = false -> dirty c = true \/ buf c = disk (devices s) k);
}.

Definition refines s (a : blocks) : Prop := exists m lf ll lk, rep s a m lf ll lk.

Definition lock (a : blocks) (i : Z) (k : Z * Z) : blocks :=
  Blocks (blk a) (<[i := match held a !! i with Some (_, n, t) => (k, n + 1, t) | None => (k, 1, false) end]> (held a)).

Definition fupd (f : Z * Z -> list Z) (k : Z * Z) (l : list Z) : Z * Z -> list Z := λ k', if decide (k' = k) then l else f k'.

Definition overwrite (a : blocks) (i : Z) (l : list Z) : blocks :=
  match held a !! i with
  | Some (k, n, _) => Blocks (fupd (blk a) k l) (<[i := (k, n, true)]> (held a))
  | None => a
  end.

Lemma hash_get_cok s m lf ll lk x k : cok s m lf ll lk x ->
  exists h, hash_get calc_hash compare (hash s) k = Some (m !! k, h) /\ cok (set_hash s h) m lf ll lk x.
Proof.
  intros Hok. destruct (hash_get_spec calc_hash compare compare_eq (hash s) m k (k_hash _ _ _ _ _ _ Hok)) as (h & Hg & Hh).
  exists h. split; [done|]. destruct Hok. split; try done. cbn [set_hash hash]. rewrite <- k_max0.
  apply (hash_do_max calc_hash compare _ (CGet k) (AValue (m !! k))). unfold hash_do. by rewrite Hg.
Qed.

(** Cell [i], which is on its way, goes to another list. *)
Lemma lock_eval s lf ll lk i c : qrep (lists s) (queues lf ll lk) ∅ -> lf ++ ll ++ lk ≡ₚ seqZ 0 MAX_CACHE -> 0 <= i < MAX_CACHE -> cache s !! i = Some c ->
  exists l, lock_cell s i = Some (Store (hash s) (<[i := set_lock_count c (u32 (lock_count c + 1))]> (cache s)) l (devices s)) /\
    qrep l (queues (rem i lf) (rem i ll) (i :: rem i lk)) ∅ /\ rem i lf ++ rem i ll ++ i :: rem i lk ≡ₚ seqZ 0 MAX_CACHE.
Proof.
  intros HQ0 Hp Hi Hc. unfold lock_cell. rewrite Hc. cbn [mbind option_bind].
  destruct (move_spec (set_cell s i (set_lock_count c (u32 (lock_count c + 1)))) lf ll lk CLocked i) as (l & Hm & HQ);
    [done|done|done|done|].
  exists l. split; [exact Hm|]. split; [exact HQ|]. exact (moved_perm lf ll lk [] [] [i] i Hp Hi eq_refl).
Qed.

(** A block that is in the cache is locked once more. *)
Lemma lock_hit s a m lf ll lk i k : rep s a m lf ll lk -> m !! k = Some i ->
  (forall n t, held a !! i = Some (k, n, t) -> n + 1 < 2 ^ 32) ->
  exists s', lock_cell s i = Some s' /\ rep s' (lock a i k) m (rem i lf) (rem i ll) (i :: rem i lk) /\
    cache s' !! i ≠ None.
Proof.
  intros [Hok Hb Hh Hcl] Hm Hn. destruct (k_map _ _ _ _ _ _ Hok k i Hm) as (_ & Hin & c & Hc & Hk).
  assert (Hir : 0 <= i < MAX_CACHE) by (apply (perm_range _ _ _ i (k_perm _ _ _ _ _ _ Hok)), elem_of_app; by right).
  destruct (lock_eval s lf ll lk i c (k_lists _ _ _ _ _ _ Hok) (k_perm _ _ _ _ _ _ Hok) Hir Hc) as (l & Hl & HQ & Hp). eexists. split; [exact Hl|].
  destruct (disjoint_lists lf ll lk i (k_perm _ _ _ _ _ _ Hok)) as [Hdf Hdl].
  assert (Hcount : u32 (lock_count c + 1) = lock_count c + 1 /\ 0 <= lock_count c).
  { destruct (decide (i ∈ lk)) as [Hik|Hik].
    - apply Hh in Hik as [[[k' n] t] Hheld]. destruct (Hcl _ _ _ _ Hheld) as (c' & Hc' & Hk' & Hn' & _). simplify_eq.
      pose proof (Hn _ _ Hheld). assert (i ∈ lk) as Hik by (apply Hh; eauto).
      pose proof (k_locked _ _ _ _ _ _ Hok i c Hik Hc). split; [apply u32_small; unfold is_u32; lia|lia].
    - assert (i ∈ ll) as Hil by (apply elem_of_app in Hin; tauto).
      destruct (k_unlocked _ _ _ _ _ _ Hok i c Hil ltac:(done) Hc) as [H0 _]. rewrite H0. done. }
  destruct Hcount as [Hcount H0]. rewrite Hcount. set (c' := set_lock_count c (lock_count c + 1)).
  split; [|cbn [cache]; by rewrite lookup_insert_eq]. split.
  - destruct Hok. split; cbn [hash lists cache devices]; try done.
    + intros j Hj. destruct (decide (j = i)) as [->|]; [rewrite lookup_insert_eq; eauto|]. rewrite lookup_insert_ne by done. by apply k_cell0.
    + intros j cj Hj _ Hcj. destruct (decide (j = i)) as [->|Hne].
      * rewrite lookup_insert_eq in Hcj. injection Hcj as <-. change (key_of c') with (key_of c). by rewrite Hk.
      * rewrite lookup_insert_ne in Hcj by done. apply (k_in0 j cj); [|done|done].
        rewrite elem_of_app, elem_of_cons, !rem_elem in Hj. rewrite elem_of_app. naive_solver.
    + intros k' j Hk'. destruct (k_map0 k' j Hk') as (_ & Hinj & cj & Hcj & Hkj). split; [done|]. destruct (decide (j = i)) as [->|Hne].
      * split; [apply elem_of_app; right; by left|]. exists c'. rewrite lookup_insert_eq. split; [done|]. by simplify_eq.
      * split; [|exists cj; by rewrite lookup_insert_ne]. rewrite elem_of_app, elem_of_cons, !rem_elem. rewrite elem_of_app in Hinj. naive_solver.
    + intros j cj Hj Hcj. destruct (decide (j = i)) as [->|Hne].
      * rewrite lookup_insert_eq in Hcj. injection Hcj as <-. unfold c'. cbn [set_lock_count lock_count].
        pose proof (u32_range (lock_count c + 1)) as Hr. rewrite Hcount in Hr. unfold is_u32 in Hr. lia.
      * rewrite lookup_insert_ne in Hcj by done. apply (k_locked0 j cj); [|done]. rewrite elem_of_cons, rem_elem in Hj. naive_solver.
    + intros j cj Hj _ Hcj. apply rem_elem in Hj as [Hne Hj]. rewrite lookup_insert_ne in Hcj by done. exact (k_unlocked0 j cj Hj ltac:(done) Hcj).
    + intros j cj Hcj. destruct (decide (j = i)) as [->|Hne].
      * rewrite lookup_insert_eq in Hcj. injection Hcj as <-. exact (k_len0 i c Hc).
      * rewrite lookup_insert_ne in Hcj by done. by eapply k_len0.
  - intros k' Ha. cbn [lock blk]. rewrite Hb by done. unfold view. cbn [cache devices]. destruct (m !! k') as [j|] eqn:Hj; [|done].
    destruct (decide (j = i)) as [->|Hne]; [by rewrite lookup_insert_eq, Hc|by rewrite lookup_insert_ne].
  - intros j. cbn [lock held]. rewrite elem_of_cons, rem_elem. destruct (decide (j = i)) as [->|Hne].
    + rewrite lookup_insert_eq. split; [eauto|by left].
    + rewrite lookup_insert_ne by done. rewrite <- Hh. naive_solver.
  - intros j k' n t Hj. cbn [lock held cache devices] in *. destruct (decide (j = i)) as [->|Hne].
    + rewrite lookup_insert_eq in Hj. rewrite lookup_insert_eq. exists c'. split; [done|].
      destruct (held a !! i) as [[[k0 n0] t0]|] eqn:Hheld; injection Hj as <- <- <-.
      * destruct (Hcl _ _ _ _ Hheld) as (c0 & Hc0 & Hk0 & Hn0 & Ht0). simplify_eq. done.
      * split; [done|]. assert (Hik : i ∉ lk) by (rewrite Hh, Hheld; by intros [? [=]]).
        assert (i ∈ ll) as Hil by (apply elem_of_app in Hin; tauto).
        destruct (k_unlocked _ _ _ _ _ _ Hok i c Hil ltac:(done) Hc) as [H00 Hd]. unfold c'. cbn. rewrite H00. split; [done|].
        intros _. destruct (dirty c); [by left|right]. rewrite Hd by done. by rewrite Hk.
    + rewrite lookup_insert_ne in Hj by done. rewrite lookup_insert_ne by done. by apply Hcl.
Qed.

(** A cell on its way may be rewritten. *)
Lemma cok_limbo s m lf ll lk i c : cok s m lf ll lk (Some i) -> i ∉ lk -> length (buf c) = Z.to_nat DEFAULT_BLOCK_SIZE ->
  cok (set_cell s i c) m lf ll lk (Some i).
Proof.
  intros Hok Hi Hlen. destruct Hok. split; cbn [set_cell hash lists cache devices]; try done.
  - intros j Hj. destruct (decide (j = i)) as [->|]; [rewrite lookup_insert_eq; eauto|]. rewrite lookup_insert_ne by done. by apply k_cell0.
  - intros j cj Hj Hne Hcj. rewrite lookup_insert_ne in Hcj by congruence. by apply k_in0.
  - intros k j Hk. destruct (k_map0 k j Hk) as (Hne & Hin & cj & Hcj & Hkj). split; [done|]. split; [done|].
    exists cj. by rewrite lookup_insert_ne by congruence.
  - intros j cj Hj Hcj. rewrite lookup_insert_ne in Hcj by (intros ->; done). by eapply k_locked0.
  - intros j cj Hj Hne Hcj. rewrite lookup_insert_ne in Hcj by congruence. exact (k_unlocked0 j cj Hj Hne Hcj).
  - intros j cj Hcj. destruct (decide (j = i)) as [->|]; [rewrite lookup_insert_eq in Hcj; by simplify_eq|].
    rewrite lookup_insert_ne in Hcj by done. by eapply k_len0.
Qed.

Lemma cok_devices s m lf ll lk x d : cok s m lf ll lk x -> (forall k, disk d k = disk (devices s) k) -> cok (set_devices s d) m lf ll lk x.
Proof.
  intros Hok Hd. destruct Hok. split; try done. cbn [set_devices devices cache]. intros j cj Hj Hne Hcj. rewrite Hd.
  exact (k_unlocked0 j cj Hj Hne Hcj).
Qed.

(** The cell on its way is given up. *)
Lemma limbo_free s m lf ll lk i : cok s m lf ll lk (Some i) -> 0 <= i < MAX_CACHE ->
  exists l, move s CFree i = Some (set_lists s l) /\ cok (set_lists s l) m (i :: rem i lf) (rem i ll) (rem i lk) None.
Proof.
  intros Hok Hi. destruct (move_spec s lf ll lk CFree i) as (l & Hm & HQ); [apply Hok|apply Hok|done|done|].
  exists l. split; [done|]. pose proof (moved_perm lf ll lk [i] [] [] i (k_perm _ _ _ _ _ _ Hok) Hi eq_refl) as Hp.
  destruct Hok. split; cbn [set_lists hash lists cache devices]; try done.
  - intros j cj Hj _ Hcj. rewrite elem_of_app, !rem_elem in Hj. apply k_in0; [rewrite elem_of_app; tauto|naive_solver|done].
  - intros k j Hk. destruct (k_map0 k j Hk) as (Hne & Hin & Hc). split; [done|]. split; [|done].
    rewrite elem_of_app in Hin. rewrite elem_of_app, !rem_elem. naive_solver.
  - intros j cj [_ Hj]%rem_elem Hcj. by eapply k_locked0.
  - intros j cj Hj _ Hcj. apply rem_elem in Hj as [Hne Hj]. apply (k_unlocked0 j cj Hj); [naive_solver|done].
Qed.

(** The cell on its way has arrived. *)
Lemma enter_lock s m lf ll lk i c : cok s m lf ll lk (Some i) -> 0 <= i < MAX_CACHE -> i ∉ lk -> cache s !! i = Some c ->
  lock_count c = 0 -> m !! key_of c = None -> addressable (key_of c) ->
  exists h s', enter_cell s i = Some (set_hash s h) /\ lock_cell (set_hash s h) i = Some s' /\
    cok s' (<[key_of c := i]> m) (rem i lf) (rem i ll) (i :: rem i lk) None /\
    cache s' = <[i := set_lock_count c 1]> (cache s) /\ devices s' = devices s.
Proof.
  intros Hok Hi Hik Hc H0 Hm Haddr. pose proof (table_room _ _ _ _ _ _ Hok Hi) as Hroom.
  destruct (hash_put_spec calc_hash compare compare_eq (hash s) m (key_of c) i (k_hash _ _ _ _ _ _ Hok)) as (r & h & Hput & Hres).
  assert (Hh : hash_ok calc_hash h (<[key_of c := i]> m)).
  { destruct Hres as [(_ & _ & _ & Hfull)|[_ Hh]]; [|done].
    destruct (hash_ok_size calc_hash (hash s) m (k_hash _ _ _ _ _ _ Hok)) as [Hsz _]. unfold hash_size in Hsz.
    rewrite (k_max _ _ _ _ _ _ Hok) in Hfull. lia. }
  assert (Hmax : max h = MAX_CACHE).
  { rewrite <- (k_max _ _ _ _ _ _ Hok). apply (hash_do_max calc_hash compare _ (CPut (key_of c) i) (ACode r)). unfold hash_do. by rewrite Hput. }
  destruct (lock_eval (set_hash s h) lf ll lk i c (k_lists _ _ _ _ _ _ Hok) (k_perm _ _ _ _ _ _ Hok) Hi Hc) as (l & Hl & HQ & Hp).
  rewrite H0 in Hl. change (u32 (0 + 1)) with 1 in Hl. cbn [set_hash hash cache devices] in Hl.
  eexists h, _. split; [unfold enter_cell; rewrite Hc; cbn [mbind option_bind]; by rewrite Hput|]. split; [exact Hl|]. split; [|done].
  destruct Hok. split; cbn [hash lists cache devices]; try done.
  - intros j Hj. destruct (decide (j = i)) as [->|]; [rewrite lookup_insert_eq; eauto|]. rewrite lookup_insert_ne by done. by apply k_cell0.
  - intros j cj Hj _ Hcj. destruct (decide (j = i)) as [->|Hne].
    + rewrite lookup_insert_eq in Hcj. injection Hcj as <-. by rewrite lookup_insert_eq.
    + rewrite lookup_insert_ne in Hcj by done. assert (m !! key_of cj = Some j) as Hmj.
      { apply k_in0; [|congruence|done]. rewrite elem_of_app, elem_of_cons, !rem_elem in Hj. rewrite elem_of_app. naive_solver. }
      rewrite lookup_insert_ne; [done|]. intros Heq. rewrite <- Heq in Hmj. congruence.
  - intros k j Hk. split; [done|]. destruct (decide (k = key_of c)) as [->|Hne].
    + rewrite lookup_insert_eq in Hk. injection Hk as <-. split; [apply elem_of_app; right; by left|].
      eexists. rewrite lookup_insert_eq. done.
    + rewrite lookup_insert_ne in Hk by done. destruct (k_map0 k j Hk) as (Hnj & Hin & cj & Hcj & Hkj).
      assert (j ≠ i) by congruence. split; [|exists cj; by rewrite lookup_insert_ne].
      rewrite elem_of_app, elem_of_cons, !rem_elem. rewrite elem_of_app in Hin. naive_solver.
  - intros k j [[<- _]|[_ Hk]]%lookup_insert_Some; [done|by eapply k_addr0].
  - intros j cj Hj Hcj. destruct (decide (j = i)) as [->|Hne].
    + rewrite lookup_insert_eq in Hcj. injection Hcj as <-. cbn. lia.
    + rewrite lookup_insert_ne in Hcj by done. apply (k_locked0 j cj); [|done]. rewrite elem_of_cons, rem_elem in Hj. naive_solver.
  - intros j cj Hj _ Hcj. apply rem_elem in Hj as [Hne Hj]. rewrite lookup_insert_ne in Hcj by done.
    apply (k_unlocked0 j cj Hj); [congruence|done].
  - intros j cj Hcj. destruct (decide (j = i)) as [->|Hne].
    + rewrite lookup_insert_eq in Hcj. injection Hcj as <-. exact (k_len0 i c Hc).
    + rewrite lookup_insert_ne in Hcj by done. by eapply k_len0.
Qed.

(** Why no buffer is given out: all are locked, or a device fails. *)
Definition refused (a : blocks) : Prop := (forall i, 0 <= i < MAX_CACHE -> is_Some (held a !! i)) \/ ~ reliable.

(** The state of the clients survives when cells that are not locked, and
    devices where no locked block lies, change. *)
Lemma rep_transfer s s' a m m' lf ll lk lf' ll' : rep s a m lf ll lk -> cok s' m' lf' ll' lk None ->
  (forall k, addressable k -> view s' m' k = view s m k) ->
  (forall i, i ∈ lk -> cache s' !! i = cache s !! i) ->
  (forall i c, i ∈ lk -> cache s !! i = Some c -> dirty c = true \/ disk (devices s') (key_of c) = disk (devices s) (key_of c)) ->
  rep s' a m' lf' ll' lk.
Proof.
  intros [Hok Hb Hh Hcl] Hok' Hv Hc Hd. split; [done| |done|].
  - intros k Ha. by rewrite Hb, Hv.
  - intros i k n t Hi. destruct (Hcl i k n t Hi) as (c & Hci & Hk & Hn & Ht). assert (i ∈ lk) as Hik by (apply Hh; eauto).
    exists c. rewrite Hc by done. split; [done|]. split; [done|]. split; [done|]. intros Hf. specialize (Ht Hf).
    destruct (Hd i c Hik Hci) as [?|Heq]; [by left|]. rewrite Hk in Heq. by rewrite Heq.
Qed.

Lemma refused_full s a m lk : rep s a m [] [] lk -> refused a.
Proof.
  intros Hr. left. intros i Hi. apply (r_held _ _ _ _ _ _ Hr).
  apply (perm_range [] [] lk i (k_perm _ _ _ _ _ _ (r_ok _ _ _ _ _ _ Hr))) in Hi. by rewrite !app_nil_l in Hi.
Qed.

Definition equiv_blocks (a b : blocks) : Prop := (forall k, addressable k -> blk a k = blk b k) /\ held a = held b.

Lemma refines_ext s a b : equiv_blocks a b -> refines s a -> refines s b.
Proof.
  intros [Hb Hh] (m & lf & ll & lk & [H1 H2 H3 H4]). exists m, lf, ll, lk. split; [done| | |].
  - intros k Ha. by rewrite <- Hb, H2.
  - by rewrite <- Hh.
  - by rewrite <- Hh.
Qed.

(** A block newly in the cache, locked. *)
Definition fresh (a : blocks) (i : Z) (k : Z * Z) (l : list Z) (t : bool) : blocks :=
  Blocks (fupd (blk a) k l) (<[i := (k, 1, t)]> (held a)).

(** The cell [c] has been found for a block that was not in the cache. *)
Record found s s' (m m' : gmap (Z * Z) Z) (lf ll lk : list Z) (i : Z) (c : cache_t) : Prop := {
  fo_ok : cok s' m' lf ll lk (Some i);
  fo_range : 0 <= i < MAX_CACHE;
  fo_free : i ∉ lk;
  fo_cache : cache s' = <[i := c]> (cache s);
  fo_new : m !! key_of c = None /\ m' !! key_of c = None;
  fo_addr : addressable (key_of c);
  fo_view k : addressable k -> k ≠ key_of c -> match m' !! k with Some j => match cache s !! j with Some cj => buf cj | None => [] end
                        | None => disk (devices s') k end = view s m k;
  fo_disk k j : m !! k = Some j -> j ∈ lk -> disk (devices s') k = disk (devices s) k;
  fo_count : lock_count c = 0;
}.

Lemma found_lock s s' a m m' lf ll lk i c t : rep s a m lf ll lk -> found s s' m m' lf ll lk i c ->
  (t = false -> dirty c = true \/ buf c = disk (devices s') (key_of c)) ->
  exists h s'', enter_cell s' i = Some (set_hash s' h) /\ lock_cell (set_hash s' h) i = Some s'' /\
    refines s'' (fresh a i (key_of c) (buf c) t) /\ cache s'' !! i = Some (set_lock_count c 1).
Proof.
  intros [Hok Hb Hh Hcl] [Hok1 Hir Hik Hcs [Hm Hm'] Haddr Hv Hd H0] Hclean.
  destruct (enter_lock s' m' lf ll lk i c Hok1 Hir Hik) as (h & s'' & He & Hl & Hok2 & Hc2 & Hd2);
    [rewrite Hcs; apply lookup_insert_eq|done|done|done|].
  exists h, s''. split; [done|]. split; [done|]. rewrite Hcs, insert_insert_eq in Hc2. split; [|rewrite Hc2; apply lookup_insert_eq].
  eexists _, _, _, _. split; [exact Hok2| | |].
  - intros k Ha. cbn [fresh blk]. unfold fupd, view. rewrite Hc2, Hd2. destruct (decide (k = key_of c)) as [->|Hk].
    + by rewrite lookup_insert_eq, lookup_insert_eq.
    + rewrite lookup_insert_ne by done. rewrite Hb, <- Hv by done. destruct (m' !! k) as [j|] eqn:Hj; [|done].
      rewrite lookup_insert_ne; [done|]. intros ->. by destruct (k_map _ _ _ _ _ _ Hok1 k j Hj).
  - intros j. cbn [fresh held]. rewrite elem_of_cons, rem_elem. destruct (decide (j = i)) as [->|Hji].
    + rewrite lookup_insert_eq. split; [eauto|by left].
    + rewrite lookup_insert_ne by done. rewrite <- Hh. naive_solver.
  - intros j k n t' Hj. cbn [fresh held] in Hj. rewrite Hc2, Hd2. destruct (decide (j = i)) as [->|Hji].
    + rewrite lookup_insert_eq in Hj. rewrite lookup_insert_eq. injection Hj as <- <- <-. by eexists.
    + rewrite lookup_insert_ne in Hj by done. rewrite lookup_insert_ne by done. destruct (Hcl j k n t' Hj) as (cj & Hcj & Hk & Hn & Ht).
      exists cj. split; [done|]. split; [done|]. split; [done|]. intros Hf.
      assert (j ∈ lk) as Hjk by (apply Hh; eauto).
      pose proof (k_in _ _ _ _ _ _ Hok j cj ltac:(apply elem_of_app; by right) ltac:(done) Hcj) as Hmj. rewrite Hk in Hmj.
      rewrite (Hd k j Hmj Hjk). by apply Ht.
Qed.

(** The first half of [cache_get] and [cache_create] on a block that is not in
    the cache. *)
Lemma take_named s a m lf ll lk ch no : rep s a m lf ll lk -> m !! (no, ch) = None -> addressable (no, ch) ->
  exists r s', take_cell s = Some (r, s') /\
  match r with
  | None => refines s' a /\ refused a
  | Some i => exists m' c, name_cell s' i ch no = Some (set_cell s' i c) /\ found s (set_cell s' i c) m m' lf ll lk i c /\
      key_of c = (no, ch) /\ disk (devices s') (no, ch) = blk a (no, ch)
  end.
Proof.
  intros Hrep Hm Haddr. destruct (take_cell_spec s m lf ll lk (r_ok _ _ _ _ _ _ Hrep)) as (r & s1 & Ht & Hc1 & Hr).
  exists r, s1. split; [done|]. destruct r as [i|].
  - destruct Hr as (m' & Hok1 & Hir & Hik & Hv1 & Hnone & Hlk). exists m'.
    destruct (k_cell _ _ _ _ _ _ Hok1 i Hir) as [c Hc]. unfold name_cell. rewrite Hc. cbn [mbind option_bind].
    eexists. split; [done|]. pose proof (k_len _ _ _ _ _ _ Hok1 i c Hc) as Hlen. split; [|split; [done|]].
    + split; cbn [set_cell cache devices]; [by apply cok_limbo|done|done|by rewrite Hc1|by split; [|apply Hnone]|done| | |done].
      * intros k Ha _. rewrite <- Hv1 by done. unfold view. by rewrite Hc1.
      * intros k j Hk Hj. by apply (Hlk k j).
    + rewrite (r_blk _ _ _ _ _ _ Hrep), <- Hv1 by done. unfold view. by rewrite (Hnone _ Hm).
  - destruct Hr as (Hok1 & Hv1 & -> & Hw & Hd1). split.
    + exists m, [], ll, lk. eapply rep_transfer; [exact Hrep|done|done|by rewrite Hc1|].
      intros i c Hi Hc. destruct (dirty c) eqn:Hd; [by left|right]. apply (Hd1 i); [done|apply elem_of_app; by right|done].
    + destruct Hw as [->|Hw]; [by eapply refused_full|by right].
Qed.

(** The second half of [cache_get]: the cell is read into, and given up if
    that fails. *)
Lemma found_fill s s1 a m m' lf ll lk i c : rep s a m lf ll lk -> found s s1 m m' lf ll lk i c ->
  exists r l d, fill s1 i = Some (r, set_cell (set_devices s1 d) i (set_cell_buf c l)) /\
    found s (set_cell (set_devices s1 d) i (set_cell_buf c l)) m m' lf ll lk i (set_cell_buf c l) /\
    disk d (key_of c) = disk (devices s1) (key_of c) /\
    (r = DEFAULT_BLOCK_SIZE -> l = disk (devices s1) (key_of c)) /\ (r ≠ DEFAULT_BLOCK_SIZE -> ~ reliable).
Proof.
  intros Hrep [Hok1 Hir Hik Hcs [Hm Hm'] Haddr Hv Hd H0]. unfold fill. rewrite Hcs, lookup_insert_eq. cbn [mbind option_bind].
  pose proof (read_length (devices s1) (dev c) (block_no c) (buf c)) as Hrl.
  pose proof (read_disk (devices s1) (dev c) (block_no c) (buf c)) as Hrd. pose proof (read_ok (devices s1) (dev c) (block_no c) (buf c)) as Hro.
  pose proof (reliable_read (devices s1) (dev c) (block_no c) (buf c)) as Hrr.
  assert (Hlen : length (buf c) = Z.to_nat DEFAULT_BLOCK_SIZE).
  { eapply (k_len _ _ _ _ _ _ Hok1 i). rewrite Hcs. apply lookup_insert_eq. }
  destruct (dev_read (devices s1) (dev c) (block_no c) (buf c)) as [[r l] d] eqn:Hread. cbn [fst snd] in *.
  exists r, l, d. split; [done|]. split; [|split; [by rewrite Hrd|split; [by apply Hro|]]].
  - split; cbn [set_cell set_devices cache devices]; try done.
    + apply cok_limbo; [|done|by apply Hrl]. by apply cok_devices.
    + by rewrite Hcs, insert_insert_eq.
    + intros k Ha Hk. rewrite <- Hv by done. destruct (m' !! k); [done|]. apply Hrd.
    + intros k j Hk Hj. rewrite Hrd. by eapply Hd.
  - intros Hr Hrel. by apply Hr, Hrr.
Qed.

Lemma found_free s s1 a m m' lf ll lk i c : rep s a m lf ll lk -> found s s1 m m' lf ll lk i c ->
  disk (devices s1) (key_of c) = blk a (key_of c) ->
  exists l, move s1 CFree i = Some (set_lists s1 l) /\ refines (set_lists s1 l) a.
Proof.
  intros Hrep [Hok1 Hir Hik Hcs [Hm Hm'] Haddr Hv Hd H0] Hdisk.
  destruct (limbo_free s1 m' lf ll lk i Hok1 Hir) as (l & Hmv & Hok2). exists l. split; [done|].
  rewrite (rem_id i lk) in Hok2 by done. exists m', (i :: rem i lf), (rem i ll), lk. eapply rep_transfer; [exact Hrep|done| | |].
  - intros k Ha. destruct (decide (k = key_of c)) as [->|Hk].
    + rewrite <- (r_blk _ _ _ _ _ _ Hrep), <- Hdisk by done. unfold view. cbn [set_lists cache devices]. by rewrite Hm'.
    + rewrite <- Hv by done. unfold view. cbn [set_lists cache devices]. destruct (m' !! k) as [j|] eqn:Hj; [|done].
      rewrite Hcs, lookup_insert_ne; [done|]. intros ->. by destruct (k_map _ _ _ _ _ _ Hok1 k j Hj).
  - intros j Hj. cbn [set_lists cache]. rewrite Hcs, lookup_insert_ne; [done|]. by intros ->.
  - intros j cj Hj Hcj. right. apply (Hd _ j); [|done].
    apply (k_in _ _ _ _ _ _ (r_ok _ _ _ _ _ _ Hrep) j cj); [apply elem_of_app; by right|done|done].
Qed.

Lemma fresh_lock s a m lf ll lk i k l : rep s a m lf ll lk -> i ∉ lk -> l = blk a k ->
  equiv_blocks (fresh a i k l false) (lock a i k).
Proof.
  intros Hrep Hi ->. split; cbn [fresh lock blk held].
  - intros k' _. unfold fupd. by case_decide as Hk; subst.
  - destruct (held a !! i) as [x|] eqn:E; [|done]. exfalso. apply Hi, (r_held _ _ _ _ _ _ Hrep). eauto.
Qed.

(** Looking a block up. *)
Lemma lookup_block s a k : refines s a -> exists m lf ll lk h,
  hash_get calc_hash compare (hash s) k = Some (m !! k, h) /\ rep (set_hash s h) a m lf ll lk.
Proof.
  intros (m & lf & ll & lk & Hrep). destruct (hash_get_cok s m lf ll lk None k (r_ok _ _ _ _ _ _ Hrep)) as (h & Hg & Hok).
  exists m, lf, ll, lk, h. split; [done|]. by eapply rep_transfer; eauto.
Qed.

(** The buffer of a block that is in the cache is for that block only. *)
Lemma hit_key s a m lf ll lk i k : rep s a m lf ll lk -> m !! k = Some i ->
  forall k' n t, held a !! i = Some (k', n, t) -> k' = k.
Proof.
  intros Hrep Hm k' n t Hh. destruct (r_cell _ _ _ _ _ _ Hrep _ _ _ _ Hh) as (c & Hc & <- & _).
  destruct (k_map _ _ _ _ _ _ (r_ok _ _ _ _ _ _ Hrep) k i Hm) as (_ & _ & c' & Hc' & <-). congruence.
Qed.

Lemma cache_get_spec s a ch no : refines s a -> addressable (s32 no, ch) ->
  (forall i n t, held a !! i = Some ((s32 no, ch), n, t) -> n + 1 < 2 ^ 32) ->
  exists r s', cache_get s ch no = Some (r, s') /\
    match r with
    | Some i => refines s' (lock a i (s32 no, ch)) /\ (forall k n t, held a !! i = Some (k, n, t) -> k = (s32 no, ch))
    | None => refines s' a /\ refused a
    end.
Proof.
  intros Href Haddr Hn. unfold cache_get. set (k := (s32 no, ch)) in *.
  destruct (lookup_block s a k Href) as (m & lf & ll & lk & h & Hg & Hrep). fold k. rewrite Hg. cbn [mbind option_bind].
  destruct (m !! k) as [i|] eqn:Hm; cbn [mbind option_bind].
  - destruct (lock_hit _ a m lf ll lk i k Hrep Hm) as (s' & Hl & Hr' & _); [intros n t; apply Hn|].
    rewrite Hl. cbn [mbind option_bind]. exists (Some i), s'. split; [done|]. split; [by eexists _, _, _, _|]. by eapply hit_key.
  - destruct (take_named _ a m lf ll lk ch (s32 no) Hrep Hm Haddr) as (r & s1 & Ht & Hr). rewrite Ht. cbn [mbind option_bind].
    destruct r as [i|]; [|by exists None, s1]. destruct Hr as (m' & c & Hname & Hfound & Hkey & Hdisk).
    rewrite Hname. cbn [mbind option_bind].
    destruct (found_fill _ _ a m m' lf ll lk i c Hrep Hfound) as (r & l & d & Hfill & Hfound2 & Hd & Hok & Hbad).
    rewrite Hfill. cbn [mbind option_bind]. change (devices (set_cell s1 i c)) with (devices s1) in *. fold k in Hkey, Hdisk. rewrite Hkey in *.
    destruct (Z.eqb_spec r DEFAULT_BLOCK_SIZE) as [Hsz|Hsz]; cbn [negb].
    + destruct (found_lock _ _ a m m' lf ll lk i _ false Hrep Hfound2) as (h2 & s2 & He & Hl & Hr2 & _).
      { intros _. right. cbn. change (key_of (set_cell_buf c l)) with (key_of c). rewrite Hkey, Hd. by apply Hok. }
      rewrite He. cbn [mbind option_bind]. rewrite Hl. cbn [mbind option_bind]. exists (Some i), s2. split; [done|].
      pose proof (fo_free _ _ _ _ _ _ _ _ _ Hfound) as Hik. split.
      * eapply refines_ext; [|exact Hr2]. change (key_of (set_cell_buf c l)) with (key_of c). rewrite Hkey.
        eapply fresh_lock; [done|done|]. cbn. rewrite Hok by done. done.
      * intros k' n t Hh. exfalso. apply Hik, (r_held _ _ _ _ _ _ Hrep). eauto.
    + destruct (found_free _ _ a m m' lf ll lk i _ Hrep Hfound2) as (l' & Hmv & Hr2).
      { change (key_of (set_cell_buf c l)) with (key_of c). cbn. by rewrite Hkey, Hd. }
      rewrite Hmv. cbn [mbind option_bind]. exists None, (set_lists (set_cell (set_devices (set_cell s1 i c) d) i (set_cell_buf c l)) l').
      split; [done|]. split; [done|]. right. by apply Hbad.
Qed.

(** A locked cell may be rewritten, but for its key and its lock. *)
Lemma rep_locked_cell s a m lf ll lk i c c' : rep s a m lf ll lk -> cache s !! i = Some c -> i ∈ lk ->
  key_of c' = key_of c -> 0 < lock_count c' < 2 ^ 32 -> length (buf c') = Z.to_nat DEFAULT_BLOCK_SIZE ->
  cok (set_cell s i c') m lf ll lk None.
Proof.
  intros [Hok _ _ _] Hc Hi Hk Hn Hl. destruct (disjoint_lists lf ll lk i (k_perm _ _ _ _ _ _ Hok)) as [_ Hd].
  destruct Hok. split; cbn [set_cell hash lists cache devices]; try done.
  - intros j Hj. destruct (decide (j = i)) as [->|]; [rewrite lookup_insert_eq; eauto|]. rewrite lookup_insert_ne by done. by apply k_cell0.
  - intros j cj Hj _ Hcj. destruct (decide (j = i)) as [->|Hne].
    + rewrite lookup_insert_eq in Hcj. injection Hcj as <-. rewrite Hk. by apply k_in0.
    + rewrite lookup_insert_ne in Hcj by done. by apply k_in0.
  - intros k j Hkj. destruct (k_map0 k j Hkj) as (_ & Hin & cj & Hcj & Hkc). split; [done|]. split; [done|].
    destruct (decide (j = i)) as [->|Hne]; [exists c'; rewrite lookup_insert_eq; split; [done|congruence]|].
    exists cj. by rewrite lookup_insert_ne.
  - intros j cj Hj Hcj. destruct (decide (j = i)) as [->|Hne].
    + rewrite lookup_insert_eq in Hcj. by injection Hcj as <-.
    + rewrite lookup_insert_ne in Hcj by done. by eapply k_locked0.
  - intros j cj Hj _ Hcj. rewrite lookup_insert_ne in Hcj by (intros ->; by apply Hd). exact (k_unlocked0 j cj Hj ltac:(done) Hcj).
  - intros j cj Hcj. destruct (decide (j = i)) as [->|Hne]; [rewrite lookup_insert_eq in Hcj; by injection Hcj as <-|].
    rewrite lookup_insert_ne in Hcj by done. by eapply k_len0.
Qed.

(** Which cell holds a locked block. *)
Lemma held_cell s a m lf ll lk i k n t : rep s a m lf ll lk -> held a !! i = Some (k, n, t) ->
  exists c, cache s !! i = Some c /\ key_of c = k /\ lock_count c = n /\ i ∈ lk /\ m !! k = Some i /\ 0 < n /\
    (t = false -> dirty c = true \/ buf c = disk (devices s) k) /\ buf c = blk a k.
Proof.
  intros Hrep Hh. destruct (r_cell _ _ _ _ _ _ Hrep _ _ _ _ Hh) as (c & Hc & Hk & Hn & Ht). exists c.
  assert (Hi : i ∈ lk) by (apply (r_held _ _ _ _ _ _ Hrep); eauto).
  pose proof (r_ok _ _ _ _ _ _ Hrep) as Hok.
  assert (Hm : m !! k = Some i) by (rewrite <- Hk; apply (k_in _ _ _ _ _ _ Hok i c); [apply elem_of_app; by right|done|done]).
  pose proof (k_locked _ _ _ _ _ _ Hok i c Hi Hc). repeat split; try done; [lia|].
  rewrite (r_blk _ _ _ _ _ _ Hrep) by exact (k_addr _ _ _ _ _ _ Hok _ _ Hm). unfold view. by rewrite Hm, Hc.
Qed.

(** A change of a locked cell, seen through the cache. *)
Lemma rep_change s a m lf ll lk i k n t t' c c' : rep s a m lf ll lk -> held a !! i = Some (k, n, t) -> cache s !! i = Some c ->
  key_of c' = key_of c -> 0 < lock_count c' < 2 ^ 32 -> length (buf c') = Z.to_nat DEFAULT_BLOCK_SIZE ->
  (t' = false -> dirty c' = true \/ buf c' = disk (devices s) k) ->
  rep (set_cell s i c') (Blocks (fupd (blk a) k (buf c')) (<[i := (k, lock_count c', t')]> (held a))) m lf ll lk.
Proof.
  intros Hrep Hh Hc Hk Hn Hl Ht. destruct (held_cell _ _ _ _ _ _ _ _ _ _ Hrep Hh) as (c0 & Hc0 & Hk0 & Hn0 & Hi & Hm & _).
  rewrite Hc in Hc0. injection Hc0 as <-. subst k n. split; [by eapply rep_locked_cell| | |].
  - intros k' Ha. cbn [blk]. unfold fupd, view. cbn [set_cell cache devices]. case_decide as Hkk.
    + subst k'. by rewrite Hm, lookup_insert_eq.
    + rewrite (r_blk _ _ _ _ _ _ Hrep) by done. unfold view. destruct (m !! k') as [j|] eqn:Hj; [|done].
      rewrite lookup_insert_ne; [done|]. intros ->. destruct (k_map _ _ _ _ _ _ (r_ok _ _ _ _ _ _ Hrep) k' j Hj) as (_ & _ & cj & Hcj & <-). simplify_eq.
  - intros j. cbn [held]. rewrite (r_held _ _ _ _ _ _ Hrep). destruct (decide (j = i)) as [->|Hne].
    + rewrite lookup_insert_eq, Hh. split; eauto.
    + by rewrite lookup_insert_ne.
  - intros j k' n' t0 Hj. cbn [held] in Hj. cbn [set_cell cache devices]. destruct (decide (j = i)) as [->|Hne].
    + rewrite lookup_insert_eq in Hj. injection Hj as <- <- <-. exists c'. rewrite lookup_insert_eq. done.
    + rewrite lookup_insert_ne in Hj by done. rewrite lookup_insert_ne by done. by apply (r_cell _ _ _ _ _ _ Hrep).
Qed.

Lemma held_count s a m lf ll lk i c : rep s a m lf ll lk -> cache s !! i = Some c -> i ∈ lk -> 0 < lock_count c < 2 ^ 32.
Proof. intros Hrep Hc Hi. exact (k_locked _ _ _ _ _ _ (r_ok _ _ _ _ _ _ Hrep) i c Hi Hc). Qed.

Lemma write_buffer_spec s a i k n t l : refines s a -> held a !! i = Some (k, n, t) -> length l = Z.to_nat DEFAULT_BLOCK_SIZE ->
  exists s', write_buffer s i l = Some s' /\ refines s' (overwrite a i l).
Proof.
  intros (m & lf & ll & lk & Hrep) Hh Hl. destruct (held_cell _ _ _ _ _ _ _ _ _ _ Hrep Hh) as (c & Hc & Hk & Hn & Hi & _).
  unfold write_buffer. rewrite Hc. cbn [mbind option_bind]. eexists. split; [done|]. exists m, lf, ll, lk. unfold overwrite. rewrite Hh.
  subst n. apply (rep_change s a m lf ll lk i k _ t true c (set_cell_buf c l) Hrep Hh Hc eq_refl); [|done|done].
  exact (held_count _ _ _ _ _ _ _ _ Hrep Hc Hi).
Qed.

Lemma buffer_spec s a i k n t : refines s a -> held a !! i = Some (k, n, t) -> buffer s i = Some (blk a k).
Proof.
  intros (m & lf & ll & lk & Hrep) Hh. destruct (held_cell _ _ _ _ _ _ _ _ _ _ Hrep Hh) as (c & Hc & _ & _ & _ & _ & _ & _ & Hb).
  unfold buffer. rewrite Hc. simpl. by rewrite Hb.
Qed.

(** A block is in one buffer. *)
Lemma held_unique s a i j k n n' t t' : refines s a -> held a !! i = Some (k, n, t) -> held a !! j = Some (k, n', t') -> i = j.
Proof.
  intros (m & lf & ll & lk & Hrep) Hi Hj. destruct (held_cell _ _ _ _ _ _ _ _ _ _ Hrep Hi) as (_ & _ & _ & _ & _ & Hmi & _).
  destruct (held_cell _ _ _ _ _ _ _ _ _ _ Hrep Hj) as (_ & _ & _ & _ & _ & Hmj & _). congruence.
Qed.

Lemma lock_held a i k : held (lock a i k) !! i = Some (match held a !! i with Some (_, n, t) => (k, n + 1, t) | None => (k, 1, false) end).
Proof. cbn [lock held]. apply lookup_insert_eq. Qed.

Lemma overwrite_lock a i k l : (forall k' n t, held a !! i = Some (k', n, t) -> k' = k) ->
  exists n t, held (lock a i k) !! i = Some (k, n, t) /\
    equiv_blocks (overwrite (lock a i k) i l) (Blocks (fupd (blk a) k l) (<[i := (k, n, true)]> (held a))).
Proof.
  intros Hk. assert (exists n t, held (lock a i k) !! i = Some (k, n, t)) as (n & t & Hh).
  { rewrite lock_held. destruct (held a !! i) as [[[k' n] t]|] eqn:E; eauto. }
  exists n, t. split; [done|]. unfold overwrite. rewrite Hh. split; [done|]. cbn [lock held]. by rewrite insert_insert_eq.
Qed.

Definition zeros : list Z := replicate (Z.to_nat DEFAULT_BLOCK_SIZE) 0.

Lemma cache_create_spec s a ch no : refines s a -> addressable (s32 no, ch) ->
  (forall i n t, held a !! i = Some ((s32 no, ch), n, t) -> n + 1 < 2 ^ 32) ->
  exists r s', cache_create s ch no = Some (r, s') /\
    match r with
    | Some i => refines s' (overwrite (lock a i (s32 no, ch)) i zeros) /\ (forall k n t, held a !! i = Some (k, n, t) -> k = (s32 no, ch))
    | None => refines s' a /\ refused a
    end.
Proof.
  intros Href Haddr Hn. unfold cache_create. set (k := (s32 no, ch)) in *.
  destruct (lookup_block s a k Href) as (m & lf & ll & lk & h & Hg & Hrep). fold k. rewrite Hg. cbn [mbind option_bind].
  assert (Hzero : forall s2 i c, cache s2 !! i = Some c -> refines s2 (lock a i k) -> (forall k' n t, held a !! i = Some (k', n, t) -> k' = k) ->
    refines (set_cell s2 i (set_cell_buf c zeros)) (overwrite (lock a i k) i zeros)).
  { intros s2 i c Hc Hr Hkey. destruct (overwrite_lock a i k zeros Hkey) as (n & t & Hh & _).
    destruct (write_buffer_spec s2 _ i k n t zeros Hr Hh) as (s3 & Hw & Hr3); [done|].
    unfold write_buffer in Hw. rewrite Hc in Hw. by injection Hw as <-. }
  destruct (m !! k) as [i|] eqn:Hm; cbn [mbind option_bind].
  - destruct (lock_hit _ a m lf ll lk i k Hrep Hm) as (s' & Hl & Hr' & Hsome); [intros n t; apply Hn|].
    rewrite Hl. cbn [mbind option_bind]. destruct (cache s' !! i) as [c|] eqn:Hc; [|done]. cbn [mbind option_bind].
    eexists (Some i), _. split; [done|]. pose proof (hit_key _ _ _ _ _ _ _ _ Hrep Hm) as Hkey. split; [|done].
    apply Hzero; [done|by eexists _, _, _, _|done].
  - destruct (take_named _ a m lf ll lk ch (s32 no) Hrep Hm Haddr) as (r & s1 & Ht & Hr). rewrite Ht. cbn [mbind option_bind].
    destruct r as [i|]; [|by exists None, s1]. destruct Hr as (m' & c & Hname & Hfound & Hkey & _).
    rewrite Hname. cbn [mbind option_bind].
    destruct (found_lock _ _ a m m' lf ll lk i c true Hrep Hfound ltac:(done)) as (h2 & s2 & He & Hl & Hr2 & Hc2).
    rewrite He. cbn [mbind option_bind]. rewrite Hl. cbn [mbind option_bind]. rewrite Hc2. cbn [mbind option_bind].
    eexists (Some i), _. split; [done|]. fold k in Hkey. rewrite Hkey in Hr2.
    pose proof (fo_free _ _ _ _ _ _ _ _ _ Hfound) as Hik.
    assert (Hnone : held a !! i = None) by (destruct (held a !! i) eqn:E; [|done]; exfalso; apply Hik, (r_held _ _ _ _ _ _ Hrep); eauto).
    split; [|rewrite Hnone; done].
    destruct (write_buffer_spec s2 _ i k 1 true zeros Hr2) as (s3 & Hw & Hr3); [apply lookup_insert_eq|done|].
    unfold write_buffer in Hw. rewrite Hc2 in Hw. injection Hw as <-. eapply refines_ext; [|exact Hr3].
    unfold overwrite. cbn [fresh held]. rewrite lookup_insert_eq, lock_held, Hnone. cbn [fresh lock blk held]. rewrite Hnone. split.
    + intros k' _. cbn [blk]. unfold fupd. by repeat case_decide.
    + cbn [held]. by rewrite !insert_insert_eq.
Qed.

(** Marking a buffer as written. *)
Definition mark (a : blocks) (i : Z) : blocks :=
  match held a !! i with Some (k, n, _) => Blocks (blk a) (<[i := (k, n, false)]> (held a)) | None => a end.

Lemma cache_modify_spec s a i k n t : refines s a -> held a !! i = Some (k, n, t) ->
  exists s', cache_modify s (Some i) = Some (true, s') /\ refines s' (mark a i).
Proof.
  intros (m & lf & ll & lk & Hrep) Hh. destruct (held_cell _ _ _ _ _ _ _ _ _ _ Hrep Hh) as (c & Hc & Hk & Hn & Hi & _ & _ & _ & Hb).
  unfold cache_modify. rewrite Hc. cbn [mbind option_bind]. eexists. split; [done|]. unfold mark. rewrite Hh.
  eapply refines_ext; [|exists m, lf, ll, lk; apply (rep_change s a m lf ll lk i k n t false c (set_dirty c true) Hrep Hh Hc eq_refl)].
  - split; [|cbn; by rewrite Hn]. intros k' _. cbn [blk]. unfold fupd. cbn. by case_decide as E; subst.
  - exact (held_count _ _ _ _ _ _ _ _ Hrep Hc Hi).
  - cbn. by eapply k_len; [apply Hrep|].
  - intros _. by left.
Qed.

(** Giving a buffer back. *)
Definition unlock (a : blocks) (i : Z) (d : bool) : blocks :=
  match held a !! i with
  | Some (k, n, t) => Blocks (blk a) (if n =? 1 then delete i (held a) else <[i := (k, n - 1, t && negb d)]> (held a))
  | None => a
  end.

(** The last lock of a clean or marked buffer goes. *)
Lemma rep_unlock s a m lf ll lk i k t c : rep s a m lf ll lk -> held a !! i = Some (k, 1, t) -> cache s !! i = Some c ->
  forall c', key_of c' = key_of c -> lock_count c' = 0 -> buf c' = buf c -> (dirty c' = false -> buf c = disk (devices s) k) ->
  exists l, move (set_cell s i c') CLru i = Some (set_lists (set_cell s i c') l) /\
    rep (set_lists (set_cell s i c') l) (Blocks (blk a) (delete i (held a))) m (rem i lf) (i :: rem i ll) (rem i lk).
Proof.
  intros Hrep Hh Hc c' Hk' Hn' Hb' Hclean. destruct (held_cell _ _ _ _ _ _ _ _ _ _ Hrep Hh) as (c0 & Hc0 & Hk & _ & Hi & Hm & _).
  rewrite Hc in Hc0. injection Hc0 as <-. pose proof (r_ok _ _ _ _ _ _ Hrep) as Hok.
  assert (Hir : 0 <= i < MAX_CACHE) by (apply (perm_range _ _ _ i (k_perm _ _ _ _ _ _ Hok)); rewrite !elem_of_app; tauto).
  destruct (move_spec (set_cell s i c') lf ll lk CLru i) as (l & Hmv & HQ); [apply Hok|apply Hok|done|done|].
  exists l. split; [done|]. pose proof (moved_perm lf ll lk [] [i] [] i (k_perm _ _ _ _ _ _ Hok) Hir eq_refl) as Hp. split.
  - destruct Hok. split; cbn [set_lists set_cell hash lists cache devices]; try done.
    + intros j Hj. destruct (decide (j = i)) as [->|]; [rewrite lookup_insert_eq; eauto|]. rewrite lookup_insert_ne by done. by apply k_cell0.
    + intros j cj Hj _ Hcj. destruct (decide (j = i)) as [->|Hne].
      * rewrite lookup_insert_eq in Hcj. injection Hcj as <-. by rewrite Hk', Hk.
      * rewrite lookup_insert_ne in Hcj by done. apply k_in0; [|done|done].
        rewrite elem_of_app, elem_of_cons, !rem_elem in Hj. rewrite elem_of_app. naive_solver.
    + intros k' j Hkj. destruct (k_map0 k' j Hkj) as (_ & Hin & cj & Hcj & Hkc). split; [done|]. destruct (decide (j = i)) as [->|Hne].
      * split; [by left|]. exists c'. rewrite lookup_insert_eq. split; [done|congruence].
      * split; [|exists cj; by rewrite lookup_insert_ne]. rewrite elem_of_app in Hin. rewrite elem_of_app, elem_of_cons, !rem_elem. naive_solver.
    + intros j cj [Hne Hj]%rem_elem Hcj. rewrite lookup_insert_ne in Hcj by done. by eapply k_locked0.
    + intros j cj Hj _ Hcj. destruct (decide (j = i)) as [->|Hne].
      * rewrite lookup_insert_eq in Hcj. injection Hcj as <-. split; [done|]. rewrite Hb', Hk', Hk. done.
      * rewrite lookup_insert_ne in Hcj by done. apply (k_unlocked0 j cj); [|done|done]. rewrite elem_of_cons, rem_elem in Hj. naive_solver.
    + intros j cj Hcj. destruct (decide (j = i)) as [->|Hne].
      * rewrite lookup_insert_eq in Hcj. injection Hcj as <-. rewrite Hb'. exact (k_len0 i c Hc).
      * rewrite lookup_insert_ne in Hcj by done. by eapply k_len0.
  - intros k' Ha. cbn [blk]. rewrite (r_blk _ _ _ _ _ _ Hrep) by done. unfold view. cbn [set_lists set_cell cache devices].
    destruct (m !! k') as [j|]; [|done]. destruct (decide (j = i)) as [->|Hne]; [by rewrite lookup_insert_eq, Hc, Hb'|by rewrite lookup_insert_ne].
  - intros j. cbn [held]. rewrite rem_elem, (r_held _ _ _ _ _ _ Hrep). destruct (decide (j = i)) as [->|Hne].
    + rewrite lookup_delete_eq. split; [tauto|by intros [? [=]]].
    + rewrite lookup_delete_ne by done. tauto.
  - intros j k' n' t' Hj. cbn [held set_lists set_cell cache devices] in *. apply lookup_delete_Some in Hj as [Hne Hj].
    rewrite lookup_insert_ne by done. by apply (r_cell _ _ _ _ _ _ Hrep).
Qed.

Lemma cache_release_spec s a i k n t d : refines s a -> held a !! i = Some (k, n, t) -> (n = 1 -> t = false \/ d = true) ->
  exists s', cache_release s (Some i) d = Some (true, s') /\ refines s' (unlock a i d).
Proof.
  intros (m & lf & ll & lk & Hrep) Hh Hpre. destruct (held_cell _ _ _ _ _ _ _ _ _ _ Hrep Hh) as (c & Hc & Hk & Hn & Hi & _ & Hpos & Ht & Hb).
  unfold cache_release. rewrite Hc. cbn [mbind option_bind set_dirty lock_count]. rewrite (proj2 (Z.ltb_lt 0 _)) by lia.
  set (c' := set_lock_count (set_dirty c (dirty c || d)) (lock_count c - 1)).
  change (lock_count c') with (lock_count c - 1). unfold unlock. rewrite Hh, Hn.
  destruct (Z.eqb_spec (n - 1) 0) as [H1|H1].
  - assert (n = 1) as E1 by lia. rewrite E1 in *. rewrite Z.eqb_refl.
    destruct (rep_unlock s a m lf ll lk i k t c Hrep Hh Hc c') as (l & Hmv & Hrep'); [done|unfold c'; cbn; lia|done| |].
    { unfold c'. cbn. intros [Hd1 Hd2]%orb_false_iff. destruct (Hpre eq_refl) as [->| ->]; [|done].
      destruct (Ht eq_refl); [congruence|done]. }
    rewrite Hmv. cbn [mbind option_bind]. eexists. split; [done|]. by eexists _, _, _, _.
  - rewrite (proj2 (Z.eqb_neq n 1)) by lia. cbn [mbind option_bind]. eexists. split; [done|].
    pose proof (held_count _ _ _ _ _ _ _ _ Hrep Hc Hi) as Hcnt.
    eapply refines_ext; [|exists m, lf, ll, lk; apply (rep_change s a m lf ll lk i k n t (t && negb d) c c' Hrep Hh Hc eq_refl)].
    + split; [|unfold c'; cbn; by rewrite Hn]. intros k' _. cbn [blk]. unfold fupd. unfold c'. cbn. by case_decide as E; subst.
    + unfold c'. cbn. lia.
    + unfold c'. cbn. by eapply k_len; [apply Hrep|].
    + unfold c'. cbn. intros [Hf|Hf%negb_false_iff]%andb_false_iff.
      * destruct (Ht Hf) as [Hd|Hd]; [left; by rewrite Hd|by right].
      * left. rewrite Hf. apply orb_true_r.
Qed.

(** Throwing a cell away. *)
Lemma dispose_spec s m lf ll lk i c : cok s m lf ll lk None -> i ∈ ll -> cache s !! i = Some c ->
  exists s', dispose s i = Some s' /\ cok s' (delete (key_of c) m) (i :: rem i lf) (rem i ll) (rem i lk) None /\
    cache s' = cache s /\ devices s' = devices s.
Proof.
  intros Hok Hi Hc. assert (Hir : 0 <= i < MAX_CACHE) by (apply (perm_range _ _ _ i (k_perm _ _ _ _ _ _ Hok)); rewrite !elem_of_app; tauto).
  destruct (drop_key s m lf ll lk i c Hok) as (h & Hh & Hok1); [apply elem_of_app; by left|done|].
  destruct (limbo_free _ _ _ _ _ _ Hok1 Hir) as (l & Hmv & Hok2).
  assert (Hmv' : move s CFree i = Some (set_lists s l)).
  { unfold move in *. cbn [set_hash lists] in Hmv. destruct (op_remove (lists s) (CCell i)) as [l1|]; [|done]. cbn [mbind option_bind] in *.
    destruct (op_insert l1 CFree (CCell i)) as [l2|]; [|done]. cbn [mbind option_bind] in *.
    assert (l2 = l) as -> by (by injection Hmv). done. }
  unfold dispose. rewrite Hmv'. cbn [mbind option_bind set_lists cache hash]. rewrite Hc. cbn [mbind option_bind].
  rewrite Hh. cbn [mbind option_bind]. by eexists.
Qed.

Lemma cache_invalidate_spec s a ch no : refines s a -> (forall i n t, held a !! i ≠ Some ((s32 no, ch), n, t)) ->
  exists r s' a', cache_invalidate s ch no = Some (r, s') /\ refines s' a' /\ held a' = held a /\
    (forall k, addressable k -> k ≠ (s32 no, ch) -> blk a' k = blk a k).
Proof.
  intros Href Hnot. unfold cache_invalidate. set (k := (s32 no, ch)) in *.
  destruct (lookup_block s a k Href) as (m & lf & ll & lk & h & Hg & Hrep). fold k. rewrite Hg. cbn [mbind option_bind].
  pose proof (r_ok _ _ _ _ _ _ Hrep) as Hok.
  destruct (m !! k) as [i|] eqn:Hm; [|exists false, (set_hash s h), a; split; [done|]; split; [by eexists _, _, _, _|done]].
  destruct (k_map _ _ _ _ _ _ Hok k i Hm) as (_ & Hin & c & Hc & Hk).
  assert (Hik : i ∉ lk).
  { intros Hik. apply (r_held _ _ _ _ _ _ Hrep) in Hik as [[[k' n] t] Hh]. pose proof (hit_key _ _ _ _ _ _ _ _ Hrep Hm _ _ _ Hh) as ->. by eapply Hnot. }
  assert (Hil : i ∈ ll) by (apply elem_of_app in Hin; tauto).
  destruct (dispose_spec _ m lf ll lk i c Hok Hil Hc) as (s' & Hdis & Hok' & Hc' & Hd'). rewrite Hdis. cbn [mbind option_bind].
  rewrite Hk, (rem_id i lk) in Hok' by done.
  exists true, s', (Blocks (view s' (delete k m)) (held a)). split; [done|]. split; [|split; [done|]].
  - exists (delete k m), (i :: rem i lf), (rem i ll), lk. split; [done|done|apply Hrep|]. cbn [held]. rewrite Hc', Hd'. apply Hrep.
  - intros k' Ha Hk'. cbn [blk]. rewrite (r_blk _ _ _ _ _ _ Hrep) by done. unfold view. rewrite Hc', Hd', lookup_delete_ne by done. done.
Qed.

(** One cell written back: the clients see nothing of it. *)
Lemma flush_cell_spec s a m lf ll lk i c : rep s a m lf ll lk -> i ∈ ll ++ lk -> cache s !! i = Some c ->
  exists r s', flush_cell s i = Some (r, s') /\ rep s' a m lf ll lk /\ lists s' = lists s /\
    (forall j, j ≠ i -> cache s' !! j = cache s !! j) /\
    exists c', cache s' !! i = Some c' /\ key_of c' = key_of c /\ (r = 0 -> dirty c' = false) /\ (r ≠ 0 -> ~ reliable).
Proof.
  intros Hrep Hi Hc. unfold flush_cell. rewrite Hc. cbn [mbind option_bind].
  destruct (dirty c) eqn:Hd; [|exists 0, s; split; [done|]; split; [done|]; split; [done|]; split; [done|]; by exists c].
  pose proof (r_ok _ _ _ _ _ _ Hrep) as Hok.
  destruct (sweep_spec s m lf ll lk None i c Hok Hi ltac:(done) Hc Hd) as (r & d & Hs & Hok1 & Hoth & Hw & Hrel).
  rewrite Hs. cbn [mbind option_bind]. pose proof (k_in _ _ _ _ _ _ Hok i c Hi ltac:(done) Hc) as Hmi.
  assert (Hrep1 : rep (set_devices s d) a m lf ll lk).
  { eapply rep_transfer; [exact Hrep|done| |done|].
    - intros k Ha. unfold view. cbn [set_devices cache devices]. destruct (m !! k) eqn:E; [done|]. apply Hoth; [done|]. congruence.
    - intros j cj Hj Hcj.
      assert (m !! key_of cj = Some j) as Hmj by (apply (k_in _ _ _ _ _ _ Hok j cj); [apply elem_of_app; by right|done|done]).
      destruct (decide (key_of cj = key_of c)) as [Heq|Hne]; [|right; apply Hoth; [exact (k_addr _ _ _ _ _ _ Hok _ _ Hmj)|done]].
      rewrite Heq, Hmi in Hmj. left. congruence. }
  destruct (Z.eqb_spec r 0) as [->|Hr]; cbn [negb].
  2:{ exists r, (set_devices s d). split; [done|]. split; [done|]. split; [done|]. split; [done|]. by exists c. }
  exists 0, (set_cell (set_devices s d) i (set_dirty c false)). split; [done|]. split.
  2:{ cbn [set_cell set_devices lists cache]. split; [done|]. split; [intros j Hj; by rewrite lookup_insert_ne|].
      eexists. rewrite lookup_insert_eq. done. }
  specialize (Hw eq_refl). split.
  - destruct (r_ok _ _ _ _ _ _ Hrep1). split; cbn [set_cell set_devices hash lists cache devices] in *; try done.
    + intros j Hj. destruct (decide (j = i)) as [->|]; [rewrite lookup_insert_eq; eauto|]. rewrite lookup_insert_ne by done. by apply k_cell0.
    + intros j cj Hj _ Hcj. destruct (decide (j = i)) as [->|Hne]; [rewrite lookup_insert_eq in Hcj; by injection Hcj as <-|].
      rewrite lookup_insert_ne in Hcj by done. by apply k_in0.
    + intros k j Hk. destruct (k_map0 k j Hk) as (_ & Hin & cj & Hcj & Hkc). split; [done|]. split; [done|].
      destruct (decide (j = i)) as [->|Hne]; [eexists; rewrite lookup_insert_eq; split; [done|]; simplify_eq; done|].
      exists cj. by rewrite lookup_insert_ne.
    + intros j cj Hj Hcj. destruct (decide (j = i)) as [->|Hne]; [rewrite lookup_insert_eq in Hcj; injection Hcj as <-; by apply (k_locked0 i c)|].
      rewrite lookup_insert_ne in Hcj by done. by eapply k_locked0.
    + intros j cj Hj _ Hcj. destruct (decide (j = i)) as [->|Hne].
      * rewrite lookup_insert_eq in Hcj. injection Hcj as <-. destruct (k_unlocked0 i c Hj ltac:(done) Hc) as [H0 _]. split; [done|]. intros _. symmetry. exact Hw.
      * rewrite lookup_insert_ne in Hcj by done. exact (k_unlocked0 j cj Hj ltac:(done) Hcj).
    + intros j cj Hcj. destruct (decide (j = i)) as [->|Hne]; [rewrite lookup_insert_eq in Hcj; injection Hcj as <-; exact (k_len0 i c Hc)|].
      rewrite lookup_insert_ne in Hcj by done. by eapply k_len0.
  - intros k Ha. rewrite (r_blk _ _ _ _ _ _ Hrep1) by done. unfold view. cbn [set_cell set_devices cache devices].
    destruct (m !! k) as [j|]; [|done]. destruct (decide (j = i)) as [->|Hne]; [by rewrite lookup_insert_eq, Hc|by rewrite lookup_insert_ne].
  - apply Hrep1.
  - intros j k n t Hj. cbn [set_cell set_devices cache devices]. destruct (r_cell _ _ _ _ _ _ Hrep1 j k n t Hj) as (cj & Hcj & Hk & Hn & Ht).
    cbn [set_devices cache devices] in *. destruct (decide (j = i)) as [->|Hne].
    + rewrite lookup_insert_eq. eexists. split; [done|]. simplify_eq. split; [done|]. split; [done|]. intros _. right. symmetry. exact Hw.
    + rewrite lookup_insert_ne by done. by exists cj.
Qed.

(** All cells of the device on the list are clean. *)
Definition clean s (ch : Z) (l : list Z) : Prop := forall j c, j ∈ l -> cache s !! j = Some c -> dev c = ch -> dirty c = false.

Lemma filter_ne_middle (l1 l2 : list Z) i : NoDup (l1 ++ i :: l2) -> rem i (l1 ++ i :: l2) = l1 ++ l2.
Proof.
  intros Hnd. apply NoDup_app in Hnd as (_ & Hd & Hnd). apply NoDup_cons in Hnd as [Hn _]. unfold rem. rewrite filter_app, filter_cons_False by tauto.
  f_equal; apply filter_ne_id; [|done]. intros Hi. apply (Hd i Hi). by left.
Qed.

Lemma next_member s lf ll lk l1 l2 i g : qrep (lists s) (queues lf ll lk) ∅ -> queues lf ll lk !! g = Some (l1 ++ i :: l2) ->
  op_next (lists s) (CCell i) = Some (default g (CCell <$> head l2)).
Proof. intros HQ Hg. exact (q_next_member _ _ _ HQ g i l1 l2 Hg). Qed.

Lemma flush_lru_spec a ch um rest : forall f s m lf past lk, rep s a m lf (past ++ rest) lk -> (length rest < f)%nat -> clean s ch past ->
  exists r s' m' lf' ll', flush_lru f s (default CLru (CCell <$> head rest)) ch um = Some (r, s') /\
    rep s' a m' lf' ll' lk /\ (r = 0 -> clean s' ch ll') /\ (r ≠ 0 -> ~ reliable).
Proof.
  induction rest as [|i rest IH]; intros f s m lf past lk Hrep Hf Hcl; (destruct f as [|f]; [simpl in Hf; lia|]); cbn [flush_lru].
  { exists 0, s, m, lf, past. split; [done|]. rewrite app_nil_r in Hrep. done. }
  cbn [head fmap option_fmap option_map default id]. change (list_is_edge CLru (CCell i)) with false. cbn [getLruParent mbind option_bind].
  pose proof (r_ok _ _ _ _ _ _ Hrep) as Hok. cbn [length] in Hf.
  assert (Hi : i ∈ past ++ i :: rest) by (apply elem_of_app; right; by left).
  assert (Hir : 0 <= i < MAX_CACHE) by (apply (perm_range _ _ _ i (k_perm _ _ _ _ _ _ Hok)); rewrite !elem_of_app; right; left; by apply elem_of_app).
  destruct (k_cell _ _ _ _ _ _ Hok i Hir) as [c Hc]. rewrite Hc. cbn [mbind option_bind].
  pose proof (next_member s lf (past ++ i :: rest) lk past rest i CLru (k_lists _ _ _ _ _ _ Hok) eq_refl) as Hnext.
  assert (Hgo : forall s1 m1 lf1, rep s1 a m1 lf1 ((past ++ [i]) ++ rest) lk -> clean s1 ch (past ++ [i]) ->
    exists r s' m' lf' ll', flush_lru f s1 (default CLru (CCell <$> head rest)) ch um = Some (r, s') /\
      rep s' a m' lf' ll' lk /\ (r = 0 -> clean s' ch ll') /\ (r ≠ 0 -> ~ reliable)).
  { intros s1 m1 lf1 Hrep1 Hcl1. by apply (IH f s1 m1 lf1 (past ++ [i]) lk Hrep1); [lia|]. }
  destruct (Z.eqb_spec (dev c) ch) as [Hdev|Hdev]; cbn [negb].
  - destruct (flush_cell_spec s a m lf _ lk i c Hrep ltac:(apply elem_of_app; by left) Hc) as (r & s1 & Hfc & Hrep1 & Hls & Hoth & c' & Hc' & Hk' & Hd' & Hrel).
    rewrite Hfc. cbn [mbind option_bind]. destruct (Z.eqb_spec r 0) as [->|Hr]; cbn [negb].
    2:{ exists r, s1, m, lf, (past ++ i :: rest). split; [done|]. split; [done|]. split; [by intros ->|exact Hrel]. }
    rewrite Hls, Hnext. cbn [mbind option_bind]. pose proof (perm_nodup _ _ _ (k_perm _ _ _ _ _ _ Hok)) as Hnd.
    apply NoDup_app in Hnd as (_ & _ & Hnd). apply NoDup_app in Hnd as (Hnd & _).
    assert (Hcl1 : clean s1 ch past).
    { intros j cj Hj Hcj. assert (j ≠ i). { intros ->. apply NoDup_app in Hnd as (_ & Hx & _). apply (Hx i Hj). by left. }
      rewrite Hoth in Hcj by done. by apply (Hcl j). }
    destruct um; cbn [mbind option_bind].
    + destruct (dispose_spec s1 m lf _ lk i c' (r_ok _ _ _ _ _ _ Hrep1) Hi Hc') as (s2 & Hdis & Hok2 & Hc2 & Hd2).
      rewrite Hdis. cbn [mbind option_bind]. rewrite (filter_ne_middle past rest i Hnd) in Hok2.
      destruct (disjoint_lists _ _ _ i (k_perm _ _ _ _ _ _ Hok)) as [_ Hik]. specialize (Hik Hi). rewrite (rem_id i lk) in Hok2 by done.
      apply (IH f s2 (delete (key_of c') m) (i :: rem i lf) past lk); [|lia|].
      * eapply rep_transfer; [exact Hrep1|done| |by rewrite Hc2|intros; right; by rewrite Hd2].
        intros k _. unfold view. rewrite Hc2, Hd2. destruct (decide (k = key_of c')) as [->|Hne].
        -- pose proof (k_in _ _ _ _ _ _ (r_ok _ _ _ _ _ _ Hrep1) i c' ltac:(apply elem_of_app; by left) ltac:(done) Hc') as Hm.
           rewrite lookup_delete_eq, Hm, Hc'. symmetry.
           by apply (k_unlocked _ _ _ _ _ _ (r_ok _ _ _ _ _ _ Hrep1) i c' Hi ltac:(done) Hc'), Hd'.
        -- by rewrite lookup_delete_ne.
      * intros j cj Hj. rewrite Hc2. by apply Hcl1.
    + apply (Hgo s1 m lf); [by rewrite <- app_assoc|]. intros j cj Hj Hcj Hdj. apply elem_of_app in Hj as [Hj|Hj%list_elem_of_singleton].
      * by apply (Hcl1 j).
      * subst j. rewrite Hc' in Hcj. injection Hcj as <-. by apply Hd'.
  - rewrite Hnext. cbn [mbind option_bind]. apply (Hgo s m lf); [by rewrite <- app_assoc|].
    intros j cj Hj Hcj Hdj. apply elem_of_app in Hj as [Hj|Hj%list_elem_of_singleton]; [by apply (Hcl j)|]. subst j. congruence.
Qed.

Lemma flush_locked_spec a ch rest : forall f s m lf ll past, rep s a m lf ll (past ++ rest) -> (length rest < f)%nat ->
  clean s ch ll -> (forall j c, j ∈ past -> cache s !! j = Some c -> dirty c = false) ->
  exists r s', flush_locked f s (default CLocked (CCell <$> head rest)) = Some (r, s') /\
    rep s' a m lf ll (past ++ rest) /\
    (r = 0 -> clean s' ch ll /\ forall j c, j ∈ past ++ rest -> cache s' !! j = Some c -> dirty c = false) /\ (r ≠ 0 -> ~ reliable).
Proof.
  induction rest as [|i rest IH]; intros f s m lf ll past Hrep Hf Hcl Hpast; (destruct f as [|f]; [simpl in Hf; lia|]); cbn [flush_locked].
  { exists 0, s. split; [done|]. split; [done|]. rewrite app_nil_r. done. }
  cbn [head fmap option_fmap option_map default id]. change (list_is_edge CLocked (CCell i)) with false. cbn [getLruParent mbind option_bind].
  pose proof (r_ok _ _ _ _ _ _ Hrep) as Hok. cbn [length] in Hf.
  assert (Hi : i ∈ past ++ i :: rest) by (apply elem_of_app; right; by left).
  assert (Hir : 0 <= i < MAX_CACHE) by (apply (perm_range _ _ _ i (k_perm _ _ _ _ _ _ Hok)); rewrite 2!elem_of_app; tauto).
  destruct (k_cell _ _ _ _ _ _ Hok i Hir) as [c Hc].
  pose proof (next_member s lf ll _ past rest i CLocked (k_lists _ _ _ _ _ _ Hok) eq_refl) as Hnext.
  destruct (flush_cell_spec s a m lf ll _ i c Hrep ltac:(apply elem_of_app; by right) Hc) as (r & s1 & Hfc & Hrep1 & Hls & Hoth & c' & Hc' & Hk' & Hd' & Hrel).
  rewrite Hfc. cbn [mbind option_bind]. destruct (Z.eqb_spec r 0) as [->|Hr]; cbn [negb].
  2:{ exists r, s1. split; [done|]. split; [done|]. split; [by intros ->|exact Hrel]. }
  rewrite Hls, Hnext. cbn [mbind option_bind]. replace (past ++ i :: rest) with ((past ++ [i]) ++ rest) in * by by rewrite <- app_assoc.
  apply (IH f s1 m lf ll (past ++ [i]) Hrep1); [lia| |].
  - destruct (disjoint_lists _ _ _ i (k_perm _ _ _ _ _ _ Hok)) as [_ Hd].
    intros j cj Hj Hcj. rewrite Hoth in Hcj by (intros ->; by apply (Hd Hj)). by apply (Hcl j).
  - intros j cj Hj Hcj. destruct (decide (j = i)) as [->|Hne]; [rewrite Hc' in Hcj; injection Hcj as <-; by apply Hd'|].
    rewrite Hoth in Hcj by done. apply elem_of_app in Hj as [Hj|Hj%list_elem_of_singleton]; [by apply (Hpast j)|done].
Qed.

(** No list has more members than there are cells. *)
Lemma list_bound (lf ll lk : list Z) : lf ++ ll ++ lk ≡ₚ seqZ 0 MAX_CACHE -> (length ll < LAPS)%nat /\ (length lk < LAPS)%nat.
Proof. intros Hp%Permutation_length. rewrite !length_app, length_seqZ in Hp. unfold LAPS, MAX_CACHE in *. lia. Qed.

(** Clean cells agree with the device. *)
Lemma clean_disk s a m lf ll lk ch : rep s a m lf ll lk -> clean s ch ll ->
  (forall j c, j ∈ lk -> cache s !! j = Some c -> dirty c = false) ->
  forall k, addressable k -> k.2 = ch -> (forall i n, held a !! i ≠ Some (k, n, true)) -> disk (devices s) k = blk a k.
Proof.
  intros Hrep Hc1 Hc2 k Ha Hk Hnot. rewrite (r_blk _ _ _ _ _ _ Hrep) by done. unfold view. destruct (m !! k) as [i|] eqn:Hm; [|done].
  pose proof (r_ok _ _ _ _ _ _ Hrep) as Hok. destruct (k_map _ _ _ _ _ _ Hok k i Hm) as (_ & Hin & c & Hc & Hkc). rewrite Hc.
  apply elem_of_app in Hin as [Hin|Hin]; symmetry.
  - rewrite <- Hkc. apply (k_unlocked _ _ _ _ _ _ Hok i c Hin ltac:(done) Hc), (Hc1 i c Hin Hc). by rewrite <- Hk, <- Hkc.
  - pose proof (Hc2 i c Hin Hc) as Hd. apply (r_held _ _ _ _ _ _ Hrep) in Hin as [[[k' n] t] Hh].
    destruct (r_cell _ _ _ _ _ _ Hrep _ _ _ _ Hh) as (c0 & Hc0 & Hk0 & _ & Ht). assert (k' = k) as -> by congruence.
    destruct t; [by destruct (Hnot i n)|]. destruct (Ht eq_refl); congruence.
Qed.

(** [cache_flush] is invisible to the clients; if it succeeds, every block of
    the device that is not being written to is on the device, and it succeeds
    on reliable devices. *)
Lemma cache_flush_spec s a ch um : refines s a ->
  exists r s', cache_flush s ch um = Some (r, s') /\ refines s' a /\
    (r = 0 -> forall k, addressable k -> k.2 = ch -> (forall i n, held a !! i ≠ Some (k, n, true)) -> disk (devices s') k = blk a k) /\
    (r ≠ 0 -> ~ reliable).
Proof.
  intros (m & lf & ll & lk & Hrep). unfold cache_flush. generalize list_bound. generalize LAPS. intros laps Hlaps.
  pose proof (r_ok _ _ _ _ _ _ Hrep) as Hok.
  destruct (next_guard s lf ll lk CLru ll (k_lists _ _ _ _ _ _ Hok) eq_refl) as [_ Hn]. rewrite Hn. cbn [mbind option_bind].
  destruct (flush_lru_spec a ch um ll laps s m lf [] lk Hrep) as (r & s1 & m1 & lf1 & ll1 & Hfl & Hrep1 & Hcl1 & Hrel1);
    [apply (Hlaps lf ll lk), Hok|intros j c Hj; by apply elem_of_nil in Hj|].
  rewrite Hfl. cbn [mbind option_bind]. destruct (Z.eqb_spec r 0) as [->|Hr]; cbn [negb].
  2:{ exists r, s1. split; [done|]. split; [by eexists _, _, _, _|]. split; [by intros ->|exact Hrel1]. }
  pose proof (r_ok _ _ _ _ _ _ Hrep1) as Hok1.
  destruct (next_guard s1 lf1 ll1 lk CLocked lk (k_lists _ _ _ _ _ _ Hok1) eq_refl) as [_ Hn1]. rewrite Hn1. cbn [mbind option_bind].
  destruct (flush_locked_spec a ch lk laps s1 m1 lf1 ll1 [] Hrep1) as (r & s2 & Hfk & Hrep2 & Hcl2 & Hrel2);
    [apply (Hlaps lf1 ll1 lk), Hok1|by apply Hcl1|intros j c Hj; by apply elem_of_nil in Hj|].
  rewrite Hfk. exists r, s2. split; [done|]. split; [by eexists _, _, _, _|]. split; [|exact Hrel2]. intros ->. destruct (Hcl2 eq_refl) as [Hc1 Hc2].
  by eapply clean_disk.
Qed.

(** ** The start *)

Lemma append_loop_spec n : forall i (l : crings), 0 <= i -> qrep l (queues (seqZ 0 i) [] []) ∅ ->
  exists l', append_loop n i l = Some l' /\ qrep l' (queues (seqZ 0 (i + Z.of_nat n)) [] []) ∅.
Proof.
  induction n as [|n IH]; intros i l Hi HQ; cbn [append_loop].
  { exists l. by rewrite Z.add_0_r. }
  destruct (q_enqueue _ _ _ HQ CFree i (seqZ 0 i) eq_refl) as (l1 & Ha & HQ1).
  { intros g k Hg _ Hin. unfold queues in Hg.
    destruct g; rewrite ?lookup_insert_eq, ?lookup_insert_ne, ?lookup_insert_eq, ?lookup_insert_ne, ?lookup_insert_eq in Hg by done;
      simplify_eq; [apply elem_of_seqZ in Hin; lia|by apply elem_of_nil in Hin|by apply elem_of_nil in Hin]. }
  change (op_append l CFree (CCell i)) with (ring_append l CFree (link_of CFree i)). rewrite Ha. cbn [mbind option_bind].
  replace (i + Z.of_nat (S n)) with ((i + 1) + Z.of_nat n) by lia. apply IH; [lia|].
  unfold queues in *. rewrite insert_insert_eq in HQ1. replace (seqZ 0 (i + 1)) with (seqZ 0 i ++ [i]); [done|].
  rewrite seqZ_app by lia. done.
Qed.

Lemma cache_initialize_spec d (dv : D) : exists s,
  cache_initialize (H := crings) true true ∅ d ∅ dv = Some (0, Some s) /\ refines s (Blocks (disk dv) ∅).
Proof.
  destruct (hash_create_spec (V := Z) calc_hash compare compare_eq MAX_CACHE d) as (t & Ht & Hmax & Hok); [unfold MAX_CACHE; lia|apply calc_hash_range|].
  unfold cache_initialize. rewrite Ht. cbn [mbind option_bind].
  pose proof (qrep_empty (loc := cloc)) as HQ00. destruct (q_initialize _ _ _ HQ00 CFree) as (l1 & H1 & HQ1); [done|by left|].
  change (op_initialize ∅ CFree) with (ring_initialize (∅ : crings) CFree). rewrite H1. cbn [mbind option_bind].
  destruct (q_initialize _ _ _ HQ1 CLru eq_refl) as (l2 & H2 & HQ2); [by left|].
  change (op_initialize l1 CLru) with (ring_initialize l1 CLru). rewrite H2. cbn [mbind option_bind].
  destruct (q_initialize _ _ _ HQ2 CLocked eq_refl) as (l3 & H3 & HQ3); [by left|].
  change (op_initialize l2 CLocked) with (ring_initialize l2 CLocked). rewrite H3. cbn [mbind option_bind].
  assert (HQ0 : qrep l3 (queues (seqZ 0 0) [] []) ∅).
  { replace (queues (seqZ 0 0) [] []) with (<[CLocked := []]> (<[CLru := []]> (<[CFree := []]> (∅ : gmap cloc (list Z))))); [done|].
    unfold queues. rewrite seqZ_nil by lia. apply map_eq. intros []; done. }
  destruct (append_loop_spec (Z.to_nat MAX_CACHE) 0 l3 ltac:(lia) HQ0) as (l4 & H4 & HQ4). rewrite H4. cbn [mbind option_bind].
  clear Ht H1 H2 H3 H4. eexists. split; [reflexivity|]. exists ∅, (seqZ 0 MAX_CACHE), [], [].
  assert (Hcell : forall i c, gset_to_gmap blank (list_to_set (seqZ 0 MAX_CACHE)) !! i = Some c -> c = blank).
  { intros i c [_ ->]%lookup_gset_to_gmap_Some. done. }
  split.
  - split; cbn [hash lists cache devices].
    + exact Hok.
    + exact Hmax.
    + replace (0 + Z.of_nat (Z.to_nat MAX_CACHE)) with MAX_CACHE in HQ4 by (unfold MAX_CACHE; lia). exact HQ4.
    + by rewrite app_nil_r.
    + intros i Hi. exists blank. apply lookup_gset_to_gmap_Some. split; [|done]. apply elem_of_list_to_set, elem_of_seqZ. lia.
    + intros i c Hi. by apply elem_of_nil in Hi.
    + intros k i Hk. by rewrite lookup_empty in Hk.
    + intros k i Hk. by rewrite lookup_empty in Hk.
    + intros i c Hi. by apply elem_of_nil in Hi.
    + intros i c Hi. by apply elem_of_nil in Hi.
    + intros i c ->%Hcell. done.
  - intros k _. cbn [blk]. unfold view. by rewrite lookup_empty.
  - intros i. cbn [held]. rewrite lookup_empty. split; [by intros ?%elem_of_nil|by intros [? [=]]].
  - intros i k n u Hi. cbn [held] in Hi. by rewrite lookup_empty in Hi.
Qed.

(** ** The contract *)

(** What clients do. *)
Inductive call :=
  | CallGet (ch no : Z) | CallCreate (ch no : Z) | CallRead (i : Z) | CallWrite (i : Z) (l : list Z)
  | CallModify (i : Z) | CallRelease (i : Z) (d : bool) | CallInvalidate (ch no : Z) | CallFlush (ch : Z) (unmount : bool).

Inductive answer := AnsPtr (p : option Z) | AnsBytes (l : list Z) | AnsBool (b : bool) | AnsCode (r : Z).

Definition cache_do s (c : call) : option (answer * st) :=
  match c with
  | CallGet ch no => '(p, s) ← cache_get s ch no; Some (AnsPtr p, s)
  | CallCreate ch no => '(p, s) ← cache_create s ch no; Some (AnsPtr p, s)
  | CallRead i => l ← buffer s i; Some (AnsBytes l, s)
  | CallWrite i l => s ← write_buffer s i l; Some (AnsBool true, s)
  | CallModify i => '(b, s) ← cache_modify s (Some i); Some (AnsBool b, s)
  | CallRelease i d => '(b, s) ← cache_release s (Some i) d; Some (AnsBool b, s)
  | CallInvalidate ch no => '(b, s) ← cache_invalidate s ch no; Some (AnsBool b, s)
  | CallFlush ch um => '(r, s) ← cache_flush s ch um; Some (AnsCode r, s)
  end.

(** The rules of the house: only addressable blocks, buffers only while they
    are locked, a buffer that was written is marked before its last lock goes,
    and no locked block is invalidated. *)
Definition allowed (a : blocks) (c : call) : Prop :=
  match c with
  | CallGet ch no | CallCreate ch no =>
      addressable (s32 no, ch) /\ forall i n t, held a !! i = Some ((s32 no, ch), n, t) -> n + 1 < 2 ^ 32
  | CallRead i | CallModify i => is_Some (held a !! i)
  | CallWrite i l => is_Some (held a !! i) /\ length l = Z.to_nat DEFAULT_BLOCK_SIZE
  | CallRelease i d => exists k n t, held a !! i = Some (k, n, t) /\ (n = 1 -> t = false \/ d = true)
  | CallInvalidate ch no => forall i n t, held a !! i ≠ Some ((s32 no, ch), n, t)
  | CallFlush _ _ => True
  end.

(** What the calls do to the array of blocks. *)
Inductive behaves (a : blocks) : call -> answer -> blocks -> Prop :=
  | b_get ch no i : (forall k n t, held a !! i = Some (k, n, t) -> k = (s32 no, ch)) ->
      behaves a (CallGet ch no) (AnsPtr (Some i)) (lock a i (s32 no, ch))
  | b_get_fail ch no : refused a -> behaves a (CallGet ch no) (AnsPtr None) a
  | b_create ch no i : (forall k n t, held a !! i = Some (k, n, t) -> k = (s32 no, ch)) ->
      behaves a (CallCreate ch no) (AnsPtr (Some i)) (overwrite (lock a i (s32 no, ch)) i zeros)
  | b_create_fail ch no : refused a -> behaves a (CallCreate ch no) (AnsPtr None) a
  | b_read i k n t : held a !! i = Some (k, n, t) -> behaves a (CallRead i) (AnsBytes (blk a k)) a
  | b_write i l : behaves a (CallWrite i l) (AnsBool true) (overwrite a i l)
  | b_modify i : behaves a (CallModify i) (AnsBool true) (mark a i)
  | b_release i d : behaves a (CallRelease i d) (AnsBool true) (unlock a i d)
  | b_invalidate ch no b a' : held a' = held a -> (forall k, addressable k -> k ≠ (s32 no, ch) -> blk a' k = blk a k) ->
      behaves a (CallInvalidate ch no) (AnsBool b) a'
  | b_flush ch um r : (r ≠ 0 -> ~ reliable) -> behaves a (CallFlush ch um) (AnsCode r) a.

Lemma cache_step s a c : refines s a -> allowed a c ->
  exists ans s' a', cache_do s c = Some (ans, s') /\ behaves a c ans a' /\ refines s' a'.
Proof.
  intros Hr Hal. destruct c as [ch no|ch no|i|i l|i|i d|ch no|ch um]; cbn [cache_do allowed] in *.
  - destruct Hal as [Ha Hn]. destruct (cache_get_spec s a ch no Hr Ha Hn) as (p & s' & -> & Hp). cbn [mbind option_bind].
    destruct p as [i|]; destruct Hp as [Hr' Hp]; eexists _, _, _; (split; [done|]); (split; [by constructor|done]).
  - destruct Hal as [Ha Hn]. destruct (cache_create_spec s a ch no Hr Ha Hn) as (p & s' & -> & Hp). cbn [mbind option_bind].
    destruct p as [i|]; destruct Hp as [Hr' Hp]; eexists _, _, _; (split; [done|]); (split; [by constructor|done]).
  - destruct Hal as [[[k n] t] Hh]. rewrite (buffer_spec s a i k n t Hr Hh). cbn [mbind option_bind].
    eexists _, _, _. split; [done|]. split; [by econstructor|done].
  - destruct Hal as [[[[k n] t] Hh] Hl]. destruct (write_buffer_spec s a i k n t l Hr Hh Hl) as (s' & -> & Hr').
    cbn [mbind option_bind]. eexists _, _, _. split; [done|]. split; [by constructor|done].
  - destruct Hal as [[[k n] t] Hh]. destruct (cache_modify_spec s a i k n t Hr Hh) as (s' & -> & Hr').
    cbn [mbind option_bind]. eexists _, _, _. split; [done|]. split; [by constructor|done].
  - destruct Hal as (k & n & t & Hh & Hd). destruct (cache_release_spec s a i k n t d Hr Hh Hd) as (s' & -> & Hr').
    cbn [mbind option_bind]. eexists _, _, _. split; [done|]. split; [by constructor|done].
  - destruct (cache_invalidate_spec s a ch no Hr Hal) as (b & s' & a' & -> & Hr' & Hh & Hb).
    cbn [mbind option_bind]. eexists _, _, _. split; [done|]. split; [by constructor|done].
  - destruct (cache_flush_spec s a ch um Hr) as (r & s' & -> & Hr' & _ & Hrel).
    cbn [mbind option_bind]. eexists _, _, _. split; [done|]. split; [by constructor|done].
Qed.

End Invariant.
