(* ===== verification/RamDisk.v ===== *)
(** The RAM disk (drivers/ramdisk/ramdisk.c) behind the block layer of the
    file server (servers/fs/block.c), as a device of the block cache, and the
    contract of the cache (lib/libvfs/cache.c) on it.

    The memory range of the driver is the list of its bytes, [ranges[0]] the
    only unit. *)

From stdpp Require Import base gmap sets list fin_maps numbers.
From S2P Require Import Prelude Lists Queues Hash Cache.

(** ** The driver *)

(** The address of [ranges[0]] among the units. *)
Definition RANGES0 : Z := 0.
Definition EINVAL : Z := 28.
Definition block_size : Z := DEFAULT_BLOCK_SIZE.

(** [info->initrd]: its bytes.  The driver, [None] if there is no disk. *)
Definition ramdisk_attach (initrd : list Z) : option (list Z) :=
  if negb (Z.of_nat (length initrd) =? 0) then Some initrd else None.

Definition check_unit (unit : Z) : bool := if negb (unit =? RANGES0) then false else true.

(** [off_t] has 64 bits, [size_t] 32. *)
Definition check_param (r : list Z) (unit offset size : Z) : bool :=
  if negb (check_unit unit) then false
  else if offset <? 0 then false
  else if Z.of_nat (length r) <=? offset then false
  else
    let rest := u32 (Z.of_nat (length r) - offset) in
    if rest <? size then false else true.

(** The result and the buffer afterwards. *)
Definition read (r outbuf : list Z) (unit offset size : Z) : Z * list Z :=
  if negb (check_param r unit offset size) then (-1, outbuf)
  else (s32 size, take (Z.to_nat size) (drop (Z.to_nat offset) r) ++ drop (Z.to_nat size) outbuf).

(** The result and the range afterwards. *)
Definition write (r inbuf : list Z) (unit offset size : Z) : Z * list Z :=
  if negb (check_param r unit offset size) then (-1, r)
  else (s32 size, take (Z.to_nat offset) r ++ take (Z.to_nat size) inbuf ++ drop (Z.to_nat offset + Z.to_nat size) r).

(** ** The block layer *)

Definition block_clear (buf : list Z) : list Z := replicate (Z.to_nat block_size) 0 ++ drop (Z.to_nat block_size) buf.

Definition block_read (r buf : list Z) (blockno : Z) : Z * list Z :=
  if blockno <? 0 then (EINVAL, buf)
  else
    let len := block_size in
    let '(result, buf) := read r buf RANGES0 (u32 (blockno * block_size)) len in
    (if u32 result =? len then s32 len else -1, buf).

Definition block_write (r buf : list Z) (blockno : Z) : Z * list Z :=
  if blockno <? 0 then (EINVAL, r)
  else
    let len := block_size in
    let '(result, r) := write r buf RANGES0 (u32 (blockno * block_size)) len in
    (if u32 result =? len then 0 else -1, r).

Definition block_invalidate (blockno : Z) : Z := 0.

(** ** A device of the cache *)

(** What the driver checks. *)
Lemma check_bounds r unit offset size : check_param r unit offset size = true -> Z.of_nat (length r) < 2 ^ 32 ->
  unit = RANGES0 /\ 0 <= offset /\ offset + size <= Z.of_nat (length r).
Proof.
  unfold check_param, check_unit. intros H Hlen. destruct (Z.eqb_spec unit RANGES0); [|done]. cbn [negb] in H.
  destruct (Z.ltb_spec offset 0); [done|]. destruct (Z.leb_spec (Z.of_nat (length r)) offset); [done|].
  rewrite u32_small in H by (unfold is_u32; lia). destruct (Z.ltb_spec (Z.of_nat (length r) - offset) size); [done|]. lia.
Qed.

(** A disk of [n] blocks; the size never changes. *)
Record image (n : Z) := Image {
  bytes : list Z;
  bytes_length : length bytes = Z.to_nat (n * block_size);
}.
Arguments Image {n} _ _.
Arguments bytes {n} _.
Arguments bytes_length {n} _.

(** The image with other bytes. *)
Definition refit {n} (d : image n) (l : list Z) : image n :=
  match decide (length l = Z.to_nat (n * block_size)) with left e => Image l e | right _ => d end.

#[export] Instance ramdisk_device n : BlockDevice (image n) := {
  dev_read d _ b l := let '(r, l) := block_read (bytes d) l b in (r, l, d);
  dev_write d _ b l := let '(r, l) := block_write (bytes d) l b in (r, refit d l);
}.

(** A block of the image. *)
Definition block_of (l : list Z) (b : Z) : list Z := take (Z.to_nat block_size) (drop (Z.to_nat (b * block_size)) l).

Section Laws.
Context {n root : Z} (Hn : 0 <= n < 2 ^ 23).

Definition on_disk (k : Z * Z) : Prop := 0 <= k.1 < n /\ k.2 = root.

#[export] Instance on_disk_dec k : Decision (on_disk k).
Proof. unfold on_disk. apply _. Defined.

Definition ram_disk (d : image n) (k : Z * Z) : list Z :=
  if decide (on_disk k) then block_of (bytes d) k.1 else replicate (Z.to_nat block_size) 0.

Lemma block_of_length (d : image n) b : 0 <= b < n -> length (block_of (bytes d) b) = Z.to_nat block_size.
Proof.
  intros Hb. unfold block_of. rewrite length_take, length_drop, (bytes_length d). unfold block_size, DEFAULT_BLOCK_SIZE. lia.
Qed.

Lemma ram_disk_length (d : image n) k : length (ram_disk d k) = Z.to_nat block_size.
Proof.
  unfold ram_disk. destruct (decide (on_disk k)) as [[? _]|_]; [by apply block_of_length|by rewrite length_replicate].
Qed.

Lemma check_inside (d : image n) b : 0 <= b < n -> check_param (bytes d) RANGES0 (u32 (b * block_size)) block_size = true.
Proof.
  intros Hb. unfold check_param, check_unit. rewrite (bytes_length d), (u32_small (b * block_size)) by (unfold is_u32, block_size, DEFAULT_BLOCK_SIZE; lia).
  rewrite u32_small by (unfold is_u32, block_size, DEFAULT_BLOCK_SIZE; lia). unfold RANGES0, block_size, DEFAULT_BLOCK_SIZE. cbn [negb Z.eqb].
  rewrite (proj2 (Z.ltb_ge (b * 512) 0)), (proj2 (Z.leb_gt _ (b * 512))), (proj2 (Z.ltb_ge _ 512)) by lia. done.
Qed.

Lemma block_read_inside (d : image n) b l : 0 <= b < n -> length l = Z.to_nat block_size ->
  block_read (bytes d) l b = (block_size, block_of (bytes d) b).
Proof.
  intros Hb Hl. unfold block_read, read. rewrite (proj2 (Z.ltb_ge b 0)), check_inside by lia. cbn [negb].
  rewrite (u32_small (b * block_size)) by (unfold is_u32, block_size, DEFAULT_BLOCK_SIZE; lia).
  rewrite (drop_ge l) by lia. rewrite app_nil_r. done.
Qed.

Lemma block_write_inside (d : image n) b l : 0 <= b < n -> length l = Z.to_nat block_size ->
  block_write (bytes d) l b =
    (0, take (Z.to_nat (b * block_size)) (bytes d) ++ l ++ drop (Z.to_nat (b * block_size) + Z.to_nat block_size) (bytes d)).
Proof.
  intros Hb Hl. unfold block_write, write. rewrite (proj2 (Z.ltb_ge b 0)), check_inside by lia. cbn [negb].
  rewrite (u32_small (b * block_size)) by (unfold is_u32, block_size, DEFAULT_BLOCK_SIZE; lia). by rewrite (take_ge l) by lia.
Qed.

Lemma splice_block (r l : list Z) b b' : 0 <= b -> 0 <= b' -> b ≠ b' -> (Z.to_nat (b * block_size) + Z.to_nat block_size <= length r)%nat ->
  length l = Z.to_nat block_size ->
  block_of (take (Z.to_nat (b * block_size)) r ++ l ++ drop (Z.to_nat (b * block_size) + Z.to_nat block_size) r) b' = block_of r b'.
Proof.
  intros Hb Hb' Hne Hr Hl. unfold block_of. unfold block_size, DEFAULT_BLOCK_SIZE in *. apply list_eq. intros i.
  destruct (decide (i < 512)%nat); [|rewrite !lookup_ge_None_2 by (rewrite length_take; lia); done].
  rewrite !lookup_take_lt, !lookup_drop by lia. destruct (decide (b' < b)).
  - rewrite lookup_app_l, lookup_take_lt by (rewrite ?length_take; lia). done.
  - rewrite lookup_app_r, lookup_app_r, lookup_drop by (rewrite ?length_take; lia). rewrite length_take. f_equal. lia.
Qed.

Lemma splice_same (r l : list Z) b : 0 <= b -> (Z.to_nat (b * block_size) <= length r)%nat -> length l = Z.to_nat block_size ->
  block_of (take (Z.to_nat (b * block_size)) r ++ l ++ drop (Z.to_nat (b * block_size) + Z.to_nat block_size) r) b = l.
Proof.
  intros Hb Hr Hl. unfold block_of. rewrite drop_app_length' by (rewrite length_take; lia). by rewrite take_app_length'.
Qed.

Lemma bytes_refit (d : image n) l : length l = Z.to_nat (n * block_size) -> bytes (refit d l) = l.
Proof. intros Hl. unfold refit. by destruct (decide _). Qed.

(** A block written. *)
Lemma write_inside (d : image n) c b l : 0 <= b < n -> length l = Z.to_nat block_size ->
  exists d', dev_write d c b l = (0, d') /\ block_of (bytes d') b = l /\ forall b', 0 <= b' -> b' ≠ b -> block_of (bytes d') b' = block_of (bytes d) b'.
Proof.
  intros Hb Hl. unfold dev_write, ramdisk_device. rewrite block_write_inside by done.
  assert (Hlen : (Z.to_nat (b * block_size) + Z.to_nat block_size <= length (bytes d))%nat)
    by (rewrite (bytes_length d); unfold block_size, DEFAULT_BLOCK_SIZE; lia).
  eexists. split; [done|]. rewrite bytes_refit.
  - split; [apply splice_same; [lia|lia|done]|]. intros b' Hb' Hne. apply splice_block; [lia|lia|lia|lia|done].
  - rewrite !length_app, length_take, length_drop, Hl, <- (bytes_length d). lia.
Qed.

Lemma read_inside (d : image n) c b l : 0 <= b < n -> length l = Z.to_nat block_size -> dev_read d c b l = (block_size, block_of (bytes d) b, d).
Proof. intros Hb Hl. unfold dev_read, ramdisk_device. by rewrite block_read_inside. Qed.

Lemma block_read_length (d : image n) b l : length l = Z.to_nat block_size -> length (block_read (bytes d) l b).2 = Z.to_nat block_size.
Proof.
  intros Hl. unfold block_read, read. destruct (b <? 0); [done|]. destruct (check_param _ _ _ _) eqn:Hc; cbn [negb fst snd]; [|done].
  apply check_bounds in Hc as (_ & H0 & H1); rewrite (bytes_length d) in *; [|unfold block_size, DEFAULT_BLOCK_SIZE; lia].
  rewrite length_app, length_take, length_drop, length_drop, (bytes_length d). lia.
Qed.

#[export] Instance ramdisk_laws : BlockDeviceLaws (image n).
Proof using Hn n root.
  refine {| addressable := on_disk; disk := ram_disk; reliable := True |}.
  - apply ram_disk_length.
  - intros d c b l Hl. pose proof (block_read_length d b l Hl) as H. unfold dev_read, ramdisk_device.
    by destruct (block_read (bytes d) l b).
  - intros d c b l k. unfold dev_read, ramdisk_device. by destruct (block_read (bytes d) l b).
  - intros d c b l Hl Ha _. rewrite read_inside by (done || apply Ha). unfold ram_disk. by rewrite decide_True.
  - intros d c b l _ [Hb _]. unfold dev_read, ramdisk_device, block_read, read. cbn [fst] in Hb.
    rewrite (proj2 (Z.ltb_ge b 0)), check_inside by lia. done.
  - intros d c b l [b' c'] Hl [Hb Hc] [Hb' Hc'] Hne. cbn [fst snd] in *. destruct (write_inside d c b l Hb Hl) as (d' & -> & _ & H).
    unfold ram_disk. cbn [fst snd]. destruct (decide _); [|done]. apply H; [lia|congruence].
  - intros d c b l Ha _ Hl. destruct (write_inside d c b l (proj1 Ha) Hl) as (d' & -> & H & _).
    unfold ram_disk. by rewrite decide_True.
  - intros d c b l _ Ha Hl. by destruct (write_inside d c b l (proj1 Ha) Hl) as (d' & -> & _).
Defined.

End Laws.

(** ** The contract of the cache *)

Section Contract.
Context {D : Type} `{!BlockDevice D} `{!BlockDeviceLaws D}.

(** C15: the cache is invisible.  After [cache_initialize] the clients see the
    blocks of the devices; from then on every call that keeps the rules
    ([allowed]) returns, and does to what the clients see what it does to a
    plain array of blocks ([behaves]): [cache_get] and [cache_create] give the
    buffer of that block and of no other, they fail only if all 128 buffers
    are locked or a device fails, reading a buffer gives the block as last
    written through any buffer, evictions and write-backs change nothing. *)
Theorem cache_transparent :
  (forall d (dv : D), exists s, cache_initialize (H := gmap cloc (list cloc)) true true (∅ : gmap hloc (list hloc)) d ∅ dv = Some (0, Some s) /\
     refines s (Blocks (disk dv) ∅)) /\
  (forall (s : store) a c, refines s a -> allowed a c ->
     exists ans s' a', cache_do s c = Some (ans, s') /\ behaves a c ans a' /\ refines s' a').
Proof. split; [apply cache_initialize_spec|apply cache_step]. Qed.

(** C16: [cache_flush] makes the device current.  It returns; the clients see
    nothing of it; on a device that does not fail it returns 0; and when it
    returns 0 every block of the device is on the device as the clients see
    it, except the blocks that a client has written to but not yet marked. *)
Theorem cache_flush_durable (s : store) (a : blocks) (ch : Z) (um : bool) : refines s a ->
  exists r s', cache_flush s ch um = Some (r, s') /\ refines s' a /\ (reliable -> r = 0) /\
    (r = 0 -> forall k, addressable k -> k.2 = ch -> (forall i n, held a !! i ≠ Some (k, n, true)) -> disk (devices s') k = blk a k).
Proof.
  intros Hr. destruct (cache_flush_spec s a ch um Hr) as (r & s' & Hf & Hr' & Hd & Hrel). exists r, s'.
  split; [done|]. split; [done|]. split; [|done]. intros H. destruct (decide (r = 0)); [done|]. by destruct Hrel.
Qed.

End Contract.

(** ** Runs on a small disk *)

(** Four blocks: block [i] holds [i] everywhere. *)
Definition disk4 : image 4.
Proof.
  refine (Image (mjoin ((λ b, replicate (Z.to_nat block_size) b) <$> [0; 1; 2; 3])) _).
  vm_compute. reflexivity.
Defined.

Definition started : option (store (D := image 4) (H := gmap cloc (list cloc)) (HH := gmap hloc (list hloc))) :=
  match cache_initialize true true (∅ : gmap hloc (list hloc)) ∅ (∅ : gmap cloc (list cloc)) disk4 with
  | Some (_, s) => s
  | None => None
  end.

Fixpoint calls (s : store (D := image 4)) (cs : list call) : option (list answer * store) :=
  match cs with
  | [] => Some ([], s)
  | c :: cs => '(a, s) ← cache_do s c; '(l, s) ← calls s cs; Some (a :: l, s)
  end.

(** The first byte of the blocks on the disk after the calls. *)
Definition disk_after (cs : list call) : option (list Z) :=
  s ← started; '(_, s) ← calls s cs; Some ((λ b, default 0 (head (block_of (bytes (devices s)) b))) <$> [0; 1; 2; 3]).

Definition handles (cs : list call) : option (list answer) := s ← started; fst <$> calls s cs.

Lemma disk4_fits : 0 <= 4 < 2 ^ 23.
Proof. lia. Qed.

Lemma cache_transparent_witness :
  exists s a ans s' a', refines (BlockDeviceLaws0 := ramdisk_laws (root := 7) disk4_fits) s a /\ cache_do s (CallGet 7 2) = Some (ans, s') /\
    behaves (BlockDeviceLaws0 := ramdisk_laws (root := 7) disk4_fits) a (CallGet 7 2) ans a'.
Proof.
  destruct (cache_transparent (BlockDeviceLaws0 := ramdisk_laws (root := 7) disk4_fits)) as [Hi Hs].
  destruct (Hi ∅ disk4) as (s & _ & Hr). destruct (Hs s _ (CallGet 7 2) Hr) as (ans & s' & a' & Hd & Hb & _).
  - split; [by split|]. intros i n t H. discriminate H.
  - by eexists _, _, _, _, _.
Defined.

Lemma cache_flush_durable_witness :
  exists s r s', cache_flush s 7 false = Some (r, s') /\ r = 0 /\
    disk (BlockDeviceLaws := ramdisk_laws (root := 7) disk4_fits) (devices s') (2, 7) = replicate (Z.to_nat block_size) 2.
Proof.
  destruct (cache_initialize_spec (BlockDeviceLaws0 := ramdisk_laws (root := 7) disk4_fits) ∅ disk4) as (s & _ & Hr).
  destruct (cache_flush_durable s _ 7 false Hr) as (r & s' & Hf & _ & H0 & Hd). exists s, r, s'.
  split; [exact Hf|]. specialize (H0 I). split; [exact H0|]. rewrite (Hd H0 (2, 7)).
  - vm_compute. reflexivity.
  - by split.
  - reflexivity.
  - intros i n H. discriminate H.
Defined.

(** A block written through one buffer, evicted and written back. *)
Lemma write_back_run :
  disk_after [CallGet 7 1; CallWrite 0 (replicate (Z.to_nat block_size) 9); CallRelease 0 true; CallFlush 7 false] = Some [0; 9; 2; 3].
Proof. vm_compute. reflexivity. Qed.

(** Invalidating a block that is still locked, as [tfs_deallocate_inode]
    does with the inode of a removed file, loses later data.  Here block 1 is
    changed, marked and invalidated before its buffer is released; then it is
    created anew with other contents (5) and released.  The old cell is on the
    list of unlocked cells although it is not in the table, and the flush
    writes it after the new one: the disk keeps the dead contents (9). *)
Lemma invalidate_locked_loses :
  let cs := [CallGet 7 1; CallWrite 0 (replicate (Z.to_nat block_size) 9); CallModify 0; CallInvalidate 7 1; CallRelease 0 false;
    CallCreate 7 1; CallWrite 1 (replicate (Z.to_nat block_size) 5); CallRelease 1 true; CallFlush 7 false] in
  handles cs = Some [AnsPtr (Some 0); AnsBool true; AnsBool true; AnsBool true; AnsBool true;
    AnsPtr (Some 1); AnsBool true; AnsBool true; AnsCode 0] /\
  disk_after cs = Some [0; 9; 2; 3].
Proof. split; vm_compute; reflexivity. Qed.
