(* ===== verification/Tfs.v ===== *)
(** * The file system TFS: blocks and files (lib/libtfs/block.c, file.c, tfs.c, stat.c)

    A disk holds a boot block, a super block, a bit map of the free blocks, and
    blocks of inodes, of block numbers and of data.  An inode has 113 numbers
    of blocks that hold 128 numbers of data blocks each.  All blocks go through
    the cache; the super block and the inodes of open files stay locked in
    it and are worked on in place. *)

From S2P Require Import Prelude Lists Hash Bitmap DiskWords Cache.

Definition EINVAL : Z := 28.
Definition EIO : Z := 29.
Definition ENOSPC : Z := 52.
Definition CHAR_BIT : Z := 8.
Definition INT_BIT : Z := 32.
Definition TFS_MAGIC : Z := 809915252.
Definition TFS_RESERVED_BLOCKS : Z := 2.
Definition TFS_SUPER_BLOCK_NO : Z := 1.
Definition block_size : Z := DEFAULT_BLOCK_SIZE.

(** [struct tfs] and [struct tfs_inode]: the members by their place among the
    words of the block. *)
Definition fs_sblkno : Z := 0.
Definition fs_dblkno : Z := 1.
Definition fs_bsize : Z := 2.
Definition fs_bshift : Z := 4.
Definition fs_sbsize : Z := 5.
Definition fs_magic : Z := 14.
Definition fs_free_blocks : Z := 15.
Definition fs_block_hand : Z := 16.

Definition i_mode : Z := 0.
Definition i_inumber : Z := 1.
Definition i_size : Z := 2.
Definition i_atime : Z := 4.
Definition i_ctime : Z := 7.
Definition i_mtime : Z := 10.
Definition i_uid : Z := 13.
Definition i_gid : Z := 14.
Definition i_ib : Z := 15.

Definition sizeof_tfs_inode : Z := 60.
Definition num_of_1st_blocks (blksize : Z) : Z := u32 (blksize - sizeof_tfs_inode) / 4.
Definition num_of_2nd_blocks (blksize : Z) : Z := blksize / 4.

Record vfs_t := { channel : Z; private : option Z }.

Record vnode_t := {
  v_index : Z;
  v_mode : Z;
  v_uid : Z;
  v_gid : Z;
  v_size : Z;
  v_private : option Z;
  v_dirty : bool;
  v_refer_count : Z;
  v_lock_count : Z;
}.

Definition set_v_size (v : vnode_t) (n : Z) : vnode_t :=
  {| v_index := v_index v; v_mode := v_mode v; v_uid := v_uid v; v_gid := v_gid v; v_size := n; v_private := v_private v;
     v_dirty := v_dirty v; v_refer_count := v_refer_count v; v_lock_count := v_lock_count v |}.
Definition set_v_dirty (v : vnode_t) (d : bool) : vnode_t :=
  {| v_index := v_index v; v_mode := v_mode v; v_uid := v_uid v; v_gid := v_gid v; v_size := v_size v; v_private := v_private v;
     v_dirty := d; v_refer_count := v_refer_count v; v_lock_count := v_lock_count v |}.

(** Shifts by a number of bits that the word does not have are undefined, so
    is an [int] out of its range. *)
Definition shr (x n : Z) : option Z := if decide (0 <= n < 32) then Some (Z.shiftr x n) else None.
Definition shl32 (x n : Z) : option Z := if decide (0 <= n < 32) then Some (u32 (Z.shiftl x n)) else None.
Definition int (x : Z) : option Z := if decide (is_s32 x) then Some x else None.

(** [mask] of funcs.h. *)
Definition mask (shift : Z) : option Z := x ← shl32 1 shift; Some (u32 (x - 1)).

Section Code.
Context {D : Type} `{!BlockDevice D} {H : Type} `{!ListOps cloc H} {HH : Type} `{!ListOps hloc HH}.
Notation st := (@store D H HH).
Implicit Types s : st.

(** Reading and writing a word of a locked buffer, unsigned and signed. *)
Definition load s (p i : Z) : option Z := l ← buffer s p; get32 l i.
Definition loads s (p i : Z) : option Z := w ← load s p i; Some (s32 w).
Definition save s (p i v : Z) : option st := l ← buffer s p; l ← put32 l i (u32 v); write_buffer s p l.

(** [*(SYSTIM * ) &(inode->i_xtime) = clock]: the two words of the seconds and
    the nanoseconds. *)
Definition save_time s (p i : Z) (clock : Z * Z * Z) : option st :=
  s ← save s p i clock.1.1; s ← save s p (i + 1) clock.1.2; save s p (i + 2) clock.2.

(** [fs->device.clear]. *)
Definition clear_buffer s (p : Z) : option st :=
  l ← buffer s p; write_buffer s p (replicate (Z.to_nat block_size) 0 ++ drop (Z.to_nat block_size) l).

(** ** block.c *)

(** The words of one block of the bit map, from [j]. *)
Fixpoint units_loop (f : nat) s (tfs buf i units j : Z) : option (option Z * st) :=
  match f with
  | O => None
  | S f =>
      if j <? units then
        w ← load s buf j;
        if w =? 0 then units_loop f s tfs buf i units (j + 1)
        else
          let k := count_ntz w in
          s ← save s buf j (bit_clear w k);
          '(ok, s) ← cache_release s (Some buf) true;
          if negb ok then Some (Some 0, s)
          else
            bshift ← loads s tfs fs_bshift;
            x ← shl32 i bshift;
            let block_no := u32 (u32 (x * CHAR_BIT) + j * INT_BIT + k) in
            free ← loads s tfs fs_free_blocks;
            free ← int (free - 1);
            s ← save s tfs fs_free_blocks free;
            s ← save s tfs fs_block_hand (u32 (block_no + 1));
            '(ok, s) ← cache_modify s (Some tfs);
            if negb ok then Some (Some 0, s) else Some (Some block_no, s)
      else Some (None, s)
  end.

(** A block has 128 words. *)
Definition UNITS : nat := 129.

Fixpoint map_loop (f : nat) s (fs : vfs_t) (tfs start units max i : Z) : option (Z * st) :=
  match f with
  | O => None
  | S f =>
      if i <? max then
        '(buf, s) ← cache_get s (channel fs) (u32 (i + TFS_RESERVED_BLOCKS));
        match buf with
        | None => Some (0, s)
        | Some buf =>
            hand ← loads s tfs fs_block_hand;
            j ← (if i =? start then (if units =? 0 then None else Some ((u32 hand / INT_BIT) mod units)) else Some 0);
            '(r, s) ← units_loop UNITS s tfs buf i units j;
            match r with
            | Some block_no => Some (block_no, s)
            | None =>
                '(ok, s) ← cache_release s (Some buf) false;
                if negb ok then Some (0, s) else map_loop f s fs tfs start units max (i + 1)
            end
        end
      else Some (0, s)
  end.

Definition tfs_allocate_block s (fs : vfs_t) : option (Z * st) :=
  tfs ← private fs;
  free ← loads s tfs fs_free_blocks;
  if free =? 0 then Some (0, s)
  else
    hand ← loads s tfs fs_block_hand;
    bshift ← loads s tfs fs_bshift;
    start ← shr (Z.quot hand CHAR_BIT) bshift;
    bsize ← loads s tfs fs_bsize;
    dblkno ← loads s tfs fs_dblkno;
    sblkno ← loads s tfs fs_sblkno;
    sbsize ← loads s tfs fs_sbsize;
    x ← int (dblkno - sblkno);
    x ← int (x - sbsize);
    let start := u32 start in
    let units := u32 bsize / 4 in
    let max := u32 x in
    map_loop (S (Z.to_nat max)) s fs tfs start units max start.

Definition tfs_deallocate_block s (fs : vfs_t) (block_no : Z) : option (Z * st) :=
  tfs ← private fs;
  dblkno ← loads s tfs fs_dblkno;
  if block_no <? u32 dblkno then Some (EINVAL, s)
  else
    bshift ← loads s tfs fs_bshift;
    x ← shr (block_no / CHAR_BIT) bshift;
    '(buf, s) ← cache_get s (channel fs) (u32 (x + TFS_RESERVED_BLOCKS));
    match buf with
    | None => Some (EIO, s)
    | Some buf =>
        m ← mask bshift;
        l ← buffer s buf;
        b ← get8 l (Z.land (block_no / CHAR_BIT) m);
        l ← put8 l (Z.land (block_no / CHAR_BIT) m) (bit_set b (block_no mod CHAR_BIT));
        s ← write_buffer s buf l;
        '(ok, s) ← cache_release s (Some buf) true;
        if negb ok then Some (EIO, s)
        else
          '(_, s) ← cache_invalidate s (channel fs) block_no;
          free ← loads s tfs fs_free_blocks;
          free ← int (free + 1);
          s ← save s tfs fs_free_blocks free;
          hand ← loads s tfs fs_block_hand;
          s ← (if block_no <? u32 hand then save s tfs fs_block_hand block_no else Some s);
          '(ok, s) ← cache_modify s (Some tfs);
          if negb ok then Some (EIO, s) else Some (0, s)
    end.

Definition is_valid_nth (nth : Z) : bool := nth <? u32 (num_of_1st_blocks block_size * num_of_2nd_blocks block_size).

Definition tfs_get_block_no s (fs : vfs_t) (inode nth : Z) : option (Z * st) :=
  if negb (is_valid_nth nth) then Some (0, s)
  else
    let blocks := num_of_2nd_blocks block_size in
    block_no ← load s inode (i_ib + nth / blocks);
    if block_no =? 0 then Some (0, s)
    else
      '(buf, s) ← cache_get s (channel fs) block_no;
      match buf with
      | None => Some (0, s)
      | Some buf =>
          block_no ← load s buf (nth mod blocks);
          '(ok, s) ← cache_release s (Some buf) false;
          if negb ok then Some (0, s) else Some (block_no, s)
      end.

Definition tfs_set_block_no s (fs : vfs_t) (inode nth new_block_no : Z) : option (Z * st) :=
  if negb (is_valid_nth nth) then Some (0, s)
  else if new_block_no =? 0 then Some (0, s)
  else
    let blocks := num_of_2nd_blocks block_size in
    let index := nth / blocks in
    block_no ← load s inode (i_ib + index);
    '(buf, s) ← (if negb (block_no =? 0) then cache_get s (channel fs) block_no
                 else
                   '(block_no, s) ← tfs_allocate_block s fs;
                   if block_no =? 0 then Some (None, s)
                   else s ← save s inode (i_ib + index) block_no; cache_create s (channel fs) block_no);
    match buf with
    | None => Some (0, s)
    | Some buf =>
        s ← save s buf (nth mod blocks) new_block_no;
        '(ok, s) ← cache_release s (Some buf) true;
        if negb ok then Some (0, s) else Some (new_block_no, s)
    end.

(** The loop of [deallocate_2nd]. *)
Fixpoint free_loop (f : nat) s (fs : vfs_t) (base buf i : Z) : option (Z * st) :=
  match f with
  | O => None
  | S f =>
      if i <? base then
        w ← load s buf i;
        if w =? 0 then Some (0, s)
        else
          '(error_no, s) ← tfs_deallocate_block s fs w;
          if negb (error_no =? 0) then Some (error_no, s)
          else s ← save s buf i 0; free_loop f s fs base buf (i + 1)
      else Some (0, s)
  end.

Definition deallocate_2nd s (fs : vfs_t) (base index offset : Z) : option (Z * st) :=
  '(buf, s) ← cache_get s (channel fs) index;
  match buf with
  | None => Some (EIO, s)
  | Some buf =>
      '(error_no, s) ← free_loop UNITS s fs base buf offset;
      if negb (error_no =? 0) then Some (error_no, s)
      else
        '(ok, s) ← cache_release s (Some buf) true;
        if negb ok then Some (EIO, s) else Some (0, s)
  end.

(** The loop of [shorten_blocks]. *)
Fixpoint shorten_loop (f : nat) s (fs : vfs_t) (base inode index : Z) : option (Z * st) :=
  match f with
  | O => None
  | S f =>
      if index <? num_of_1st_blocks block_size then
        w ← load s inode (i_ib + index);
        if w =? 0 then Some (0, s)
        else
          '(error_no, s) ← deallocate_2nd s fs base w 0;
          if negb (error_no =? 0) then Some (error_no, s)
          else
            '(error_no, s) ← tfs_deallocate_block s fs w;
            if negb (error_no =? 0) then Some (error_no, s)
            else s ← save s inode (i_ib + index) 0; shorten_loop f s fs base inode (index + 1)
      else Some (0, s)
  end.

Definition shorten_blocks s (fs : vfs_t) (inode blocks : Z) : option (Z * st) :=
  let base := num_of_2nd_blocks block_size in
  let index := blocks / base in
  let offset := blocks mod base in
  if negb (offset =? 0) then
    w ← load s inode (i_ib + index);
    '(error_no, s) ← deallocate_2nd s fs base w offset;
    if negb (error_no =? 0) then Some (error_no, s) else shorten_loop UNITS s fs base inode (index + 1)
  else shorten_loop UNITS s fs base inode index.

Definition calc_blocks s (tfs size : Z) : option Z :=
  bsize ← loads s tfs fs_bsize;
  bshift ← loads s tfs fs_bshift;
  shr (u32 (size + bsize - 1)) bshift.

Definition tfs_shorten s (fs : vfs_t) (vnode : vnode_t) (size : Z) : option (Z * vnode_t * st) :=
  tfs ← private fs;
  blocks ← calc_blocks s tfs size;
  old ← calc_blocks s tfs (v_size vnode);
  '(error_no, s) ← (if blocks <? old then inode ← v_private vnode; shorten_blocks s fs inode blocks else Some (0, s));
  if negb (error_no =? 0) then Some (error_no, vnode, s) else Some (0, set_v_size vnode size, s).

Definition tfs_allocate_inode s (fs : vfs_t) (vnode : vnode_t) : option (Z * vnode_t * st) :=
  '(block_no, s) ← tfs_allocate_block s fs;
  if block_no =? 0 then Some (ENOSPC, vnode, s)
  else
    '(buf, s) ← cache_get s (channel fs) block_no;
    match buf with
    | None => Some (EIO, vnode, s)
    | Some buf =>
        s ← clear_buffer s buf;
        '(ok, s) ← cache_modify s (Some buf);
        if negb ok then '(_, s) ← cache_release s (Some buf) false; Some (EIO, vnode, s)
        else
          Some (0, {| v_index := block_no; v_mode := v_mode vnode; v_uid := v_uid vnode; v_gid := v_gid vnode; v_size := 0;
                      v_private := Some buf; v_dirty := v_dirty vnode; v_refer_count := v_refer_count vnode;
                      v_lock_count := v_lock_count vnode |}, s)
    end.

Definition tfs_deallocate_inode s (fs : vfs_t) (vnode : vnode_t) : option (Z * vnode_t * st) :=
  let block_no := v_index vnode in
  '(error_no, vnode, s) ← tfs_shorten s fs vnode 0;
  if negb (error_no =? 0) then Some (error_no, vnode, s)
  else
    let vnode := set_v_dirty vnode true in
    p ← v_private vnode;
    s ← clear_buffer s p;
    '(ok, s) ← cache_modify s (Some p);
    if negb ok then Some (EIO, vnode, s)
    else
      let vnode := set_v_dirty vnode false in
      '(error_no, s) ← tfs_deallocate_block s fs block_no;
      Some (error_no, vnode, s).

(** ** file.c *)

Definition tfs_open s (fs : vfs_t) (ino : Z) (vnode : vnode_t) : option (Z * vnode_t * st) :=
  '(inode, s) ← cache_get s (channel fs) ino;
  match inode with
  | None => Some (EIO, vnode, s)
  | Some inode =>
      index ← load s inode i_inumber;
      mode ← load s inode i_mode;
      uid ← load s inode i_uid;
      gid ← load s inode i_gid;
      size ← load s inode i_size;
      Some (0, {| v_index := index; v_mode := mode; v_uid := uid; v_gid := gid; v_size := size; v_private := Some inode;
                  v_dirty := false; v_refer_count := 1; v_lock_count := 0 |}, s)
  end.

Definition _synchronize_vnode s (vnode : vnode_t) : option (Z * vnode_t * st) :=
  if v_dirty vnode then
    inode ← v_private vnode;
    s ← save s inode i_inumber (v_index vnode);
    s ← save s inode i_mode (v_mode vnode);
    s ← save s inode i_uid (v_uid vnode);
    s ← save s inode i_gid (v_gid vnode);
    s ← save s inode i_size (v_size vnode);
    s ← save s inode (i_size + 1) 0;
    '(ok, s) ← cache_modify s (v_private vnode);
    if negb ok then Some (EIO, vnode, s) else Some (0, set_v_dirty vnode false, s)
  else Some (0, vnode, s).

Definition tfs_synchronize s (vnode : vnode_t) : option (Z * vnode_t * st) :=
  match v_private vnode with Some _ => _synchronize_vnode s vnode | None => Some (0, vnode, s) end.

Definition tfs_close s (vnode : vnode_t) : option (Z * vnode_t * st) :=
  match v_private vnode with
  | None => Some (0, vnode, s)
  | Some inode =>
      '(result, vnode, s) ← _synchronize_vnode s vnode;
      if negb (result =? 0) then Some (result, vnode, s)
      else
        '(ok, s) ← cache_release s (Some inode) false;
        if negb ok then Some (EIO, vnode, s) else Some (0, vnode, s)
  end.

(** The copier of the caller: [copy_out] takes bytes from a buffer, [copy_in]
    gives the bytes it has stored into one; both with their result. *)
Section Copiers.
Context {C : Type} (copy_out : C -> list Z -> Z * C) (copy_in : C -> Z -> Z * list Z * C).

Fixpoint read_loop (f : nat) s (fs : vfs_t) (inode : Z) (dest : C) (bsize index skip rest : Z) : option (Z * Z * C * st) :=
  match f with
  | O => None
  | S f =>
      if 0 <? rest then
        '(block_no, s) ← tfs_get_block_no s fs inode index;
        if block_no =? 0 then Some (EIO, rest, dest, s)
        else
          '(src, s) ← cache_get s (channel fs) block_no;
          match src with
          | None => Some (EIO, rest, dest, s)
          | Some src =>
              let len := u32 (bsize - skip) in
              let len := if rest <? len then rest else len in
              l ← buffer s src;
              if Z.of_nat (length l) <? skip + len then None
              else
                let '(result, dest) := copy_out dest (take (Z.to_nat len) (drop (Z.to_nat skip) l)) in
                if negb (result =? 0) then Some (result, rest, dest, s)
                else
                  '(ok, s) ← cache_release s (Some src) false;
                  if negb ok then Some (EIO, rest, dest, s)
                  else read_loop f s fs inode dest bsize (u32 (index + 1)) 0 (rest - len)
          end
      else Some (0, rest, dest, s)
  end.

(** One turn per block. *)
Definition turns (nbytes : Z) : nat := S (S (S (Z.to_nat (nbytes / block_size)))).

(** The result, the size read, the copier, the vnode; [clock] is what
    [time_get] gives. *)
Definition tfs_read s (fs : vfs_t) (vnode : vnode_t) (dest : C) (offset nbytes : Z) (clock : Z * Z * Z) :
    option (Z * Z * C * vnode_t * st) :=
  tfs ← private fs;
  bshift ← loads s tfs fs_bshift;
  index ← shr offset bshift;
  m ← mask bshift;
  bsize ← loads s tfs fs_bsize;
  inode ← v_private vnode;
  '(result, rest, dest, s) ← read_loop (turns nbytes) s fs inode dest (u32 bsize) index (Z.land offset m) nbytes;
  '(vnode, s) ← (if negb (nbytes =? 0) then s ← save_time s inode i_atime clock; Some (set_v_dirty vnode true, s) else Some (vnode, s));
  Some (result, nbytes - rest, dest, vnode, s).

(** [None] in the second place: the function has returned from inside of the
    loop. *)
Fixpoint write_loop (f : nat) s (fs : vfs_t) (inode : Z) (src : C) (bsize index skip rest : Z) : option (Z * option Z * C * st) :=
  match f with
  | O => None
  | S f =>
      if 0 <? rest then
        '(block_no, s) ← tfs_get_block_no s fs inode index;
        '(block_no, s) ← (if block_no =? 0 then '(b, s) ← tfs_allocate_block s fs; tfs_set_block_no s fs inode index b
                          else Some (block_no, s));
        if block_no =? 0 then Some (EIO, Some rest, src, s)
        else
          '(dest, s) ← cache_get s (channel fs) block_no;
          match dest with
          | None => Some (EIO, Some rest, src, s)
          | Some dest =>
              let len := u32 (bsize - skip) in
              let len := if rest <? len then rest else len in
              l ← buffer s dest;
              let '(result, data, src) := copy_in src len in
              if Z.of_nat (length l) <? skip + Z.of_nat (length data) then None
              else
                s ← write_buffer s dest (splice l (Z.to_nat skip) data);
                if negb (result =? 0) then Some (result, Some rest, src, s)
                else
                  '(ok, s) ← cache_release s (Some dest) true;
                  if negb ok then Some (EIO, None, src, s)
                  else write_loop f s fs inode src bsize (u32 (index + 1)) 0 (rest - len)
          end
      else Some (0, Some rest, src, s)
  end.

(** The result, the size written if it is set, the copier, the vnode. *)
Definition tfs_write s (fs : vfs_t) (vnode : vnode_t) (src : C) (offset nbytes : Z) (clock : Z * Z * Z) :
    option (Z * option Z * C * vnode_t * st) :=
  tfs ← private fs;
  bshift ← loads s tfs fs_bshift;
  index ← shr offset bshift;
  m ← mask bshift;
  bsize ← loads s tfs fs_bsize;
  inode ← v_private vnode;
  '(result, rest, src, s) ← write_loop (turns nbytes) s fs inode src (u32 bsize) index (Z.land offset m) nbytes;
  match rest with
  | None => Some (result, None, src, vnode, s)
  | Some rest =>
      let wrote := nbytes - rest in
      if negb (wrote =? 0) then
        let tail := u32 (offset + wrote) in
        let vnode := if v_size vnode <? tail then set_v_size vnode tail else vnode in
        s ← save_time s inode i_mtime clock;
        s ← save_time s inode i_ctime clock;
        Some (result, Some wrote, src, set_v_dirty vnode true, s)
      else Some (result, Some wrote, src, vnode, s)
  end.

(** [vfs_read] of lib/libvfs/vfs.c: a read ends where the file ends. *)
Definition vfs_read s (fs : vfs_t) (vnode : vnode_t) (dest : C) (offset nbytes : Z) (clock : Z * Z * Z) :
    option (Z * Z * C * vnode_t * st) :=
  if v_size vnode <? offset then Some (EINVAL, 0, dest, vnode, s)
  else
    let rest := v_size vnode - offset in
    let len := if rest <? nbytes then rest else nbytes in
    if len =? 0 then Some (0, 0, dest, vnode, s)
    else tfs_read s fs vnode dest offset len clock.

End Copiers.

(** ** tfs.c *)

Definition tfs_mount s (fs : vfs_t) (root : vnode_t) : option (Z * vfs_t * vnode_t * st) :=
  '(tfs, s) ← cache_get s (channel fs) TFS_SUPER_BLOCK_NO;
  match tfs with
  | None => Some (EIO, fs, root, s)
  | Some tfs =>
      magic ← loads s tfs fs_magic;
      bsize ← loads s tfs fs_bsize;
      if negb (magic =? TFS_MAGIC) || negb (u32 bsize =? block_size) then
        '(_, s) ← cache_release s (private fs) false;
        Some (EINVAL, fs, root, s)
      else
        let fs := {| channel := channel fs; private := Some tfs |} in
        dblkno ← loads s tfs fs_dblkno;
        '(error_no, root, s) ← tfs_open s fs (u32 dblkno) root;
        if negb (error_no =? 0) then '(_, s) ← cache_release s (private fs) false; Some (error_no, fs, root, s)
        else Some (error_no, fs, root, s)
  end.

Definition tfs_unmount s (fs : vfs_t) : option (Z * st) :=
  '(ok, s) ← cache_release s (private fs) false;
  Some (if ok : bool then 0 else EIO, s).

End Code.
