(* ===== verification/TfsBlock.v ===== *)
(** * The blocks of TFS

    What block.c does to the file system as its clients see it: the set of free
    blocks, the super block and the numbers of the blocks of a file. *)

From S2P Require Import Prelude Lists Hash Bitmap DiskWords Cache Tfs.

(** ** Working on locked buffers *)

Section Buffers.
Context {D : Type} `{!BlockDevice D, !BlockDeviceLaws D}.
Notation st := (@store D crings (gmap hloc (list hloc))).
Implicit Types (s : st) (f : Z * Z -> list Z) (h : gmap Z (Z * Z * Z * bool)).

(** A word stored into a block. *)
Definition poke (l : list Z) (i v : Z) : list Z := splice l (Z.to_nat (4 * i)) (le_bytes 4 v).

Lemma poke_words l i v : length l = 512%nat -> bytes_ok l -> 0 <= i < 128 -> is_u32 v ->
  put32 l i v = Some (poke l i v) /\ length (poke l i v) = 512%nat /\ bytes_ok (poke l i v) /\
  words_of (poke l i v) = <[Z.to_nat i := v]> (words_of l).
Proof.
  intros Hl Hb Hi Hv. destruct (put32_words l 128 Hl Hb i v ltac:(lia) Hv) as (l' & Hp & H1 & H2 & H3).
  assert (l' = poke l i v) as ->; [|by rewrite <- Hl]. unfold put32 in Hp. destruct (decide _); [|done]. by injection Hp.
Qed.

Lemma load_spec s f h p k n t i : refines s (Blocks f h) -> h !! p = Some (k, n, t) -> length (f k) = 512%nat -> 0 <= i ->
  load s p i = words_of (f k) !! Z.to_nat i.
Proof.
  intros Hr Hh Hl Hi. unfold load. rewrite (buffer_spec s _ p k n t Hr Hh). cbn [mbind option_bind blk].
  by apply (get32_words _ 128).
Qed.

Lemma loads_spec s f h p k n t i w : refines s (Blocks f h) -> h !! p = Some (k, n, t) -> length (f k) = 512%nat -> 0 <= i ->
  words_of (f k) !! Z.to_nat i = Some w -> 0 <= w < 2 ^ 31 -> loads s p i = Some w.
Proof.
  intros Hr Hh Hl Hi Hw Hp. unfold loads. rewrite (load_spec s f h p k n t i) by done. rewrite Hw. cbn [mbind option_bind].
  by rewrite s32_small by (unfold is_s32; lia).
Qed.

Lemma store_spec s f h p k n t l : refines s (Blocks f h) -> h !! p = Some (k, n, t) -> length l = 512%nat ->
  exists s', write_buffer s p l = Some s' /\ refines s' (Blocks (fupd f k l) (<[p := (k, n, true)]> h)).
Proof.
  intros Hr Hh Hl. destruct (write_buffer_spec s _ p k n t l Hr Hh) as (s' & Hw & Hr'); [done|]. exists s'. split; [done|].
  unfold overwrite in Hr'. cbn [held blk] in Hr'. by rewrite Hh in Hr'.
Qed.

Lemma save_spec s f h p k n t i v : refines s (Blocks f h) -> h !! p = Some (k, n, t) -> length (f k) = 512%nat -> bytes_ok (f k) ->
  0 <= i < 128 -> is_u32 v ->
  exists s', save s p i v = Some s' /\ refines s' (Blocks (fupd f k (poke (f k) i v)) (<[p := (k, n, true)]> h)).
Proof.
  intros Hr Hh Hl Hb Hi Hv. unfold save. rewrite (buffer_spec s _ p k n t Hr Hh), u32_small by done. cbn [mbind option_bind blk].
  destruct (poke_words (f k) i v Hl Hb Hi Hv) as (-> & Hl' & _). cbn [mbind option_bind]. by apply (store_spec s f h p k n t).
Qed.

Lemma modify_spec s f h p k n t : refines s (Blocks f h) -> h !! p = Some (k, n, t) ->
  exists s', cache_modify s (Some p) = Some (true, s') /\ refines s' (Blocks f (<[p := (k, n, false)]> h)).
Proof.
  intros Hr Hh. destruct (cache_modify_spec s _ p k n t Hr Hh) as (s' & Hm & Hr'). exists s'. split; [done|].
  unfold mark in Hr'. cbn [held blk] in Hr'. by rewrite Hh in Hr'.
Qed.

Lemma refines_length s a k : refines s a -> addressable k -> length (blk a k) = 512%nat.
Proof.
  intros (m & lf & ll & lk & Hrep) Ha. rewrite (r_blk _ _ _ _ _ _ Hrep) by done. unfold view.
  destruct (m !! k) as [i|] eqn:Hm; [|apply disk_length].
  destruct (k_map _ _ _ _ _ _ (r_ok _ _ _ _ _ _ Hrep) k i Hm) as (_ & _ & c & Hc & _). rewrite Hc.
  by eapply (k_len _ _ _ _ _ _ (r_ok _ _ _ _ _ _ Hrep)).
Qed.

(** A block that nobody holds. *)
Definition unheld h (k : Z * Z) : Prop := forall i n t, h !! i ≠ Some (k, n, t).

Lemma get_spec s f h ch b : refines s (Blocks f h) -> addressable (b, ch) -> 0 <= b < 2 ^ 31 -> unheld h (b, ch) ->
  exists r s', cache_get s ch b = Some (r, s') /\
    match r with
    | Some q => refines s' (Blocks f (<[q := ((b, ch), 1, false)]> h)) /\ h !! q = None
    | None => refines s' (Blocks f h) /\ refused (Blocks f h)
    end.
Proof.
  intros Hr Ha Hb Hu. pose proof (s32_small b ltac:(unfold is_s32; lia)) as E.
  destruct (cache_get_spec s _ ch b Hr) as (r & s' & Hg & Hr'); rewrite ?E in *; [done|intros i n t Hi; by destruct (Hu i n t)|].
  exists r, s'. split; [done|]. destruct r as [q|]; [|done]. destruct Hr' as [Hr' Hk].
  assert (Hq : h !! q = None). { destruct (h !! q) as [[[k n] t]|] eqn:Eq; [|done]. rewrite (Hk k n t Eq) in Eq. by destruct (Hu q n t). }
  split; [|done]. unfold lock in Hr'. cbn [held blk] in Hr'. by rewrite Hq in Hr'.
Qed.

Lemma create_spec s f h ch b : refines s (Blocks f h) -> addressable (b, ch) -> 0 <= b < 2 ^ 31 -> unheld h (b, ch) ->
  exists r s', cache_create s ch b = Some (r, s') /\
    match r with
    | Some q => refines s' (Blocks (fupd f (b, ch) zeros) (<[q := ((b, ch), 1, true)]> h)) /\ h !! q = None
    | None => refines s' (Blocks f h) /\ refused (Blocks f h)
    end.
Proof.
  intros Hr Ha Hb Hu. pose proof (s32_small b ltac:(unfold is_s32; lia)) as E.
  destruct (cache_create_spec s _ ch b Hr) as (r & s' & Hg & Hr'); rewrite ?E in *; [done|intros i n t Hi; by destruct (Hu i n t)|].
  exists r, s'. split; [done|]. destruct r as [q|]; [|done]. destruct Hr' as [Hr' Hk].
  assert (Hq : h !! q = None). { destruct (h !! q) as [[[k n] t]|] eqn:Eq; [|done]. rewrite (Hk k n t Eq) in Eq. by destruct (Hu q n t). }
  split; [|done]. unfold overwrite, lock in Hr'. cbn [held blk] in Hr'. rewrite Hq, lookup_insert_eq, insert_insert_eq in Hr'. done.
Qed.

Lemma give_back_spec s f h q k t d : refines s (Blocks f (<[q := (k, 1, t)]> h)) -> h !! q = None -> t = false \/ d = true ->
  exists s', cache_release s (Some q) d = Some (true, s') /\ refines s' (Blocks f h).
Proof.
  intros Hr Hq Ht. destruct (cache_release_spec s _ q k 1 t d Hr) as (s' & Hrel & Hr'); [cbn [held]; apply lookup_insert_eq|done|].
  exists s'. split; [done|]. unfold unlock in Hr'. cbn [held blk] in Hr'. rewrite lookup_insert_eq in Hr'. cbn in Hr'.
  by rewrite delete_insert_id in Hr'.
Qed.

Lemma invalidate_spec s f h ch b : refines s (Blocks f h) -> 0 <= b < 2 ^ 31 -> unheld h (b, ch) ->
  exists r s' l, cache_invalidate s ch b = Some (r, s') /\ refines s' (Blocks (fupd f (b, ch) l) h).
Proof.
  intros Hr Hb Hu. pose proof (s32_small b ltac:(unfold is_s32; lia)) as E.
  destruct (cache_invalidate_spec s _ ch b Hr) as (r & s' & a' & Hi & Hr' & Hh & Hf); rewrite ?E in *; [done|].
  exists r, s', (blk a' (b, ch)). split; [done|]. eapply refines_ext; [|exact Hr']. split; [|done].
  intros k Hk. cbn [blk]. unfold fupd. case_decide as Hd; [by subst|]. by apply Hf.
Qed.

Lemma refines_fext s f g h : (forall k, f k = g k) -> refines s (Blocks f h) -> refines s (Blocks g h).
Proof. intros E. apply refines_ext. split; [|done]. intros k _. apply E. Qed.

End Buffers.

Lemma fupd_eq f k l : fupd f k l k = l.
Proof. unfold fupd. by rewrite decide_True. Qed.

Lemma fupd_ne f k k' l : k' ≠ k -> fupd f k l k' = f k'.
Proof. intros. unfold fupd. by rewrite decide_False. Qed.

Lemma fupd_fupd f k l l' k' : fupd (fupd f k l) k l' k' = fupd f k l' k'.
Proof. unfold fupd. by case_decide. Qed.

(** ** The file system *)

Section Fs.
Context {D : Type} `{!BlockDevice D, !BlockDeviceLaws D}.
Notation st := (@store D crings (gmap hloc (list hloc))).
Implicit Types (s : st) (f : Z * Z -> list Z) (h : gmap Z (Z * Z * Z * bool)).

(** A file system of [total] blocks on the channel [ch], whose bit map takes
    [maps] blocks; its super block is locked in the buffer [p]. *)
Context (ch maps total p : Z).

Record geometry : Prop := {
  g_maps : 1 <= maps <= 2 ^ 18;
  g_total : 2 + maps < total <= 4096 * maps;
  g_addr b : 0 <= b < total -> addressable (b, ch);
}.

Definition fs : vfs_t := {| channel := ch; private := Some p |}.

Definition W f (b : Z) : list Z := words_of (f (b, ch)).

(** The free blocks: the bits that are set in the bit map. *)
Definition bit f (b : Z) : bool :=
  match W f (2 + b / 4096) !! Z.to_nat (b mod 4096 / 32) with Some w => Z.testbit w (b mod 32) | None => false end.

Definition free f : gset Z := list_to_set (filter (λ b, bit f b = true) (seqZ 0 (4096 * maps))).

Definition usable f : gset Z := filter (λ b, b < total) (free f).

Record fsok f h : Prop := {
  f_super : exists n, h !! p = Some ((1, ch), n, false);
  f_bytes b : 1 <= b < 2 + maps -> bytes_ok (f (b, ch));
  f_geo : W f 1 !! 0%nat = Some 1 /\ W f 1 !! 1%nat = Some (2 + maps) /\ W f 1 !! 2%nat = Some 512 /\ W f 1 !! 4%nat = Some 9 /\
    W f 1 !! 5%nat = Some 1;
  f_free : W f 1 !! 15%nat = Some (Z.of_nat (stdpp.base.size (usable f)));
  f_hand : exists hand, W f 1 !! 16%nat = Some hand /\ 0 <= hand <= 4096 * maps /\ forall b, b ∈ free f -> hand <= b;
  f_data b : b ∈ free f -> 2 + maps <= b;
  f_held i b n t : h !! i = Some ((b, ch), n, t) -> b = 1 \/ (2 + maps <= b < total /\ b ∉ free f);
}.

Lemma elem_of_free f b : b ∈ free f <-> 0 <= b < 4096 * maps /\ bit f b = true.
Proof. unfold free. rewrite elem_of_list_to_set, list_elem_of_filter, elem_of_seqZ. split; intros [? ?]; split; (done || lia). Qed.

Lemma elem_of_usable f b : b ∈ usable f <-> b ∈ free f /\ b < total.
Proof. unfold usable. rewrite elem_of_filter. tauto. Qed.

(** A bit map block that changes. *)
Lemma bit_update f m l b : 0 <= m -> 0 <= b -> bit (fupd f (2 + m, ch) l) b =
  if decide (b / 4096 = m) then match words_of l !! Z.to_nat (b mod 4096 / 32) with Some w => Z.testbit w (b mod 32) | None => false end
  else bit f b.
Proof.
  intros Hm Hb. unfold bit, W. case_decide as Hd; [by rewrite Hd, fupd_eq|]. rewrite fupd_ne; [done|]. intros [=]. lia.
Qed.

(** A block other than those of the bit map changes no bit. *)
Lemma bit_other f g b : (forall m, 0 <= m < maps -> f (2 + m, ch) = g (2 + m, ch)) -> 0 <= b < 4096 * maps -> bit f b = bit g b.
Proof.
  intros E Hb. unfold bit, W. rewrite E; [done|]. split; [apply Z.div_pos; lia|]. apply Z.div_lt_upper_bound; lia.
Qed.

Lemma free_other f g : (forall m, 0 <= m < maps -> f (2 + m, ch) = g (2 + m, ch)) -> free f = free g.
Proof.
  intros E. apply set_eq. intros b. rewrite !elem_of_free. split; intros [Hb Hbit]; (split; [done|]); [by rewrite <- (bit_other f g)|by rewrite (bit_other f g)].
Qed.

(** Number and place of a bit. *)
Lemma bit_place m j k : 0 <= m -> 0 <= j < 128 -> 0 <= k < 32 ->
  let b := 4096 * m + 32 * j + k in b / 4096 = m /\ b mod 4096 / 32 = j /\ b mod 32 = k.
Proof.
  intros Hm Hj Hk b. assert (b / 4096 = m) as H1 by (unfold b; symmetry; apply Z.div_unique with (32 * j + k); lia).
  assert (b mod 4096 = 32 * j + k) as H2 by (rewrite Z.mod_eq by lia; unfold b in *; lia). split; [done|]. split.
  - rewrite H2. symmetry. apply Z.div_unique with k; lia.
  - symmetry. apply Z.mod_unique with (128 * m + j); unfold b; lia.
Qed.

Lemma place_bit b : 0 <= b -> 0 <= b mod 4096 / 32 < 128 /\ 0 <= b mod 32 < 32 /\ b = 4096 * (b / 4096) + 32 * (b mod 4096 / 32) + b mod 32.
Proof.
  intros Hb. pose proof (Z.mod_pos_bound b 4096 ltac:(lia)). pose proof (Z.mod_pos_bound b 32 ltac:(lia)).
  pose proof (Z.div_mod b 4096 ltac:(lia)). pose proof (Z.div_mod (b mod 4096) 32 ltac:(lia)).
  assert (b mod 4096 mod 32 = b mod 32) as E.
  { rewrite (Z.mod_eq (b mod 4096) 32), (Z.mod_eq b 4096), (Z.mod_eq b 32) by lia. 
    assert ((b - 4096 * (b / 4096)) / 32 = b / 32 - 128 * (b / 4096)) as ->; [|lia].
    replace (b - 4096 * (b / 4096)) with (b + (- (128 * (b / 4096))) * 32) by lia. rewrite Z.div_add by lia. lia. }
  rewrite E in *. split; [split; [apply Z.div_pos; lia|apply Z.div_lt_upper_bound; lia]|]. split; [done|lia].
Qed.

(** Clearing or setting a bit of a word of the map. *)
Lemma free_clear f m j w k l : 0 <= m < maps -> 0 <= j < 128 -> 0 <= k < 32 -> W f (2 + m) !! Z.to_nat j = Some w ->
  words_of l = <[Z.to_nat j := bit_clear w k]> (W f (2 + m)) ->
  free (fupd f (2 + m, ch) l) = free f ∖ {[4096 * m + 32 * j + k]}.
Proof.
  intros Hm Hj Hk Hw Hl. apply set_eq. intros b. rewrite elem_of_difference, elem_of_singleton, !elem_of_free.
  destruct (decide (0 <= b < 4096 * maps)) as [Hb|]; [|tauto]. rewrite bit_update by lia.
  destruct (place_bit b ltac:(lia)) as (H1 & H2 & H3). destruct (bit_place m j k ltac:(lia) Hj Hk) as (P1 & P2 & P3).
  assert (b = 4096 * m + 32 * j + k <-> b / 4096 = m /\ b mod 4096 / 32 = j /\ b mod 32 = k) as -> by (split; [by intros ->|intros (<- & <- & <-); done]).
  case_decide as Hd; [|tauto]. unfold bit. rewrite Hl, Hd. destruct (decide (b mod 4096 / 32 = j)) as [->|Hne].
  - rewrite list_lookup_insert_eq, Hw by (by eapply lookup_lt_Some). rewrite testbit_bit_clear by lia.
    rewrite andb_true_iff, negb_true_iff, bool_decide_eq_false. tauto.
  - rewrite list_lookup_insert_ne by lia. tauto.
Qed.

Lemma free_set f m j w k l : 0 <= m < maps -> 0 <= j < 128 -> 0 <= k < 32 -> W f (2 + m) !! Z.to_nat j = Some w ->
  words_of l = <[Z.to_nat j := bit_set w k]> (W f (2 + m)) ->
  free (fupd f (2 + m, ch) l) = {[4096 * m + 32 * j + k]} ∪ free f.
Proof.
  intros Hm Hj Hk Hw Hl. apply set_eq. intros b. rewrite elem_of_union, elem_of_singleton, !elem_of_free.
  destruct (bit_place m j k ltac:(lia) Hj Hk) as (P1 & P2 & P3).
  destruct (decide (0 <= b < 4096 * maps)) as [Hb|Hb]; [|split; [tauto|intros [->|?]; [lia|tauto]]]. rewrite bit_update by lia.
  destruct (place_bit b ltac:(lia)) as (H1 & H2 & H3).
  assert (b = 4096 * m + 32 * j + k <-> b / 4096 = m /\ b mod 4096 / 32 = j /\ b mod 32 = k) as -> by (split; [by intros ->|intros (<- & <- & <-); done]).
  case_decide as Hd; [|tauto]. unfold bit. rewrite Hl, Hd. destruct (decide (b mod 4096 / 32 = j)) as [->|Hne].
  - rewrite list_lookup_insert_eq, Hw by (by eapply lookup_lt_Some). rewrite testbit_bit_set by lia.
    rewrite orb_true_iff, bool_decide_eq_true. tauto.
  - rewrite list_lookup_insert_ne by lia. tauto.
Qed.

(** ** Allocation *)

Context (Hgeo : geometry).

Lemma blk_len s f h b : refines s (Blocks f h) -> 0 <= b < total -> length (f (b, ch)) = 512%nat.
Proof using Hgeo. intros Hr Hb. apply (refines_length s _ _ Hr), (g_addr Hgeo b Hb). Qed.

Lemma usable_size f : 0 <= Z.of_nat (stdpp.base.size (usable f)) < 2 ^ 31 - 1.
Proof using Hgeo.
  assert (stdpp.base.size (usable f) <= stdpp.base.size (list_to_set (C := gset Z) (seqZ 0 total)))%nat as H.
  { apply subseteq_size. intros b [Hb Ht]%elem_of_usable. apply elem_of_free in Hb. apply elem_of_list_to_set, elem_of_seqZ. lia. }
  rewrite size_list_to_set, length_seqZ in H by apply NoDup_seqZ. destruct Hgeo as [H1 H2 _]. lia.
Qed.

(** Reading the super block. *)
Lemma super_load s f h n t i w : refines s (Blocks f h) -> h !! p = Some ((1, ch), n, t) -> W f 1 !! Z.to_nat i = Some w -> 0 <= i -> 0 <= w < 2 ^ 31 ->
  loads s p i = Some w.
Proof using Hgeo.
  intros Hr Hp Hw Hi Hv. eapply loads_spec; [done|done| |done|done|done]. apply (blk_len s f h 1 Hr). destruct Hgeo; lia.
Qed.

(** Storing the number of free blocks and the hand, and marking the super
    block. *)
Lemma super_save s f h n t v w : refines s (Blocks f h) -> h !! p = Some ((1, ch), n, t) -> bytes_ok (f (1, ch)) -> is_u32 v -> is_u32 w ->
  exists s1 s2 s3 l, save s p fs_free_blocks v = Some s1 /\ save s1 p fs_block_hand w = Some s2 /\
    cache_modify s2 (Some p) = Some (true, s3) /\ refines s3 (Blocks (fupd f (1, ch) l) (<[p := ((1, ch), n, false)]> h)) /\ bytes_ok l /\
    words_of l = <[16%nat := w]> (<[15%nat := v]> (W f 1)).
Proof using Hgeo.
  intros Hr Hp Hb Hv Hw. assert (H1 : 0 <= 1 < total) by (destruct Hgeo; lia). pose proof (blk_len s f h 1 Hr H1) as Hl.
  destruct (save_spec s f h p (1, ch) n t fs_free_blocks v Hr Hp Hl Hb ltac:(unfold fs_free_blocks; lia) Hv) as (s1 & Hs1 & Hr1).
  destruct (poke_words (f (1, ch)) fs_free_blocks v Hl Hb ltac:(unfold fs_free_blocks; lia) Hv) as (_ & Hl1 & Hb1 & Hw1).
  set (l1 := poke (f (1, ch)) fs_free_blocks v) in *.
  destruct (save_spec s1 _ _ p (1, ch) n true fs_block_hand w Hr1 ltac:(apply lookup_insert_eq)) as (s2 & Hs2 & Hr2);
    [by rewrite fupd_eq|by rewrite fupd_eq|unfold fs_block_hand; lia|done|].
  rewrite fupd_eq, insert_insert_eq in Hr2. destruct (poke_words l1 fs_block_hand w Hl1 Hb1 ltac:(unfold fs_block_hand; lia) Hw) as (_ & Hl2 & Hb2 & Hw2).
  set (l2 := poke l1 fs_block_hand w) in *. destruct (modify_spec s2 _ _ p (1, ch) n true Hr2 ltac:(apply lookup_insert_eq)) as (s3 & Hs3 & Hr3).
  rewrite insert_insert_eq in Hr3. exists s1, s2, s3, l2. split; [done|]. split; [done|]. split; [done|].
  split; [eapply refines_fext; [|exact Hr3]; intros k; by rewrite fupd_fupd|]. split; [done|]. by rewrite Hw2, Hw1.
Qed.

(** What an allocation does: [b] is taken from the free blocks, and nothing but
    the super block and the bit map changes. *)
Definition system (k : Z * Z) : Prop := k.2 = ch /\ 1 <= k.1 < 2 + maps.

Record took f f' (b : Z) : Prop := {
  t_free : b ∈ free f;
  t_least x : x ∈ free f -> b <= x;
  t_range : 2 + maps <= b < total;
  t_left : free f' = free f ∖ {[b]};
  t_same k : ~ system k -> f' k = f k;
}.

Lemma least_usable f b : (forall x, x ∈ free f -> b <= x) -> b ∈ free f -> usable f ≠ ∅ -> b < total.
Proof.
  intros Hb _ Hne. destruct (set_choose_L _ Hne) as [x [Hx Ht]%elem_of_usable]. specialize (Hb x Hx). lia.
Qed.

Lemma usable_took f f' b : b ∈ free f -> b < total -> free f' = free f ∖ {[b]} ->
  stdpp.base.size (usable f) = S (stdpp.base.size (usable f')).
Proof.
  intros Hb Ht Hf. assert (usable f = {[b]} ∪ usable f') as ->.
  { apply set_eq. intros x. rewrite elem_of_union, elem_of_singleton, !elem_of_usable, Hf, elem_of_difference, elem_of_singleton.
    destruct (decide (x = b)) as [->|]; tauto. }
  rewrite size_union, size_singleton; [done|]. intros x ->%elem_of_singleton. rewrite elem_of_usable, Hf. set_solver.
Qed.

Lemma fsok_took f f' h b l : fsok f h -> took f f' b -> (forall x, 1 <= x < 2 + maps -> bytes_ok (f' (x, ch))) ->
  words_of (f' (1, ch)) = l -> l = <[16%nat := b + 1]> (<[15%nat := Z.of_nat (stdpp.base.size (usable f)) - 1]> (W f 1)) -> fsok f' h.
Proof using Hgeo.
  intros Hok Ht Hb <- Hl. destruct Hok as [H1 H2 H3 H4 H5 H6 H7]. destruct Ht as [T1 T2 T3 T4 T5].
  pose proof (usable_took f f' b T1 ltac:(lia) T4) as Hsz. destruct H5 as (hand & Hh & Hr & Hle). apply lookup_lt_Some in H4 as H15. apply lookup_lt_Some in Hh as H16.
  split; [done|done| | | | |].
  - unfold W at 1 2 3 4 5. rewrite Hl. rewrite !list_lookup_insert_ne by lia. done.
  - unfold W. rewrite Hl, list_lookup_insert_ne, list_lookup_insert_eq by lia. f_equal. lia.
  - exists (b + 1). unfold W. rewrite Hl, list_lookup_insert_eq by (rewrite length_insert; lia). split; [done|]. destruct Hgeo as [G1 G2 _]. split; [lia|].
    intros x. rewrite T4, elem_of_difference, elem_of_singleton. intros [Hx Hne]. specialize (T2 x Hx). lia.
  - intros x. rewrite T4, elem_of_difference. intros [Hx _]. auto.
  - intros i x n t Hi. destruct (H7 i x n t Hi) as [|[? ?]]; [by left|right]. split; [done|]. rewrite T4. set_solver.
Qed.

(** The word found: its lowest bit is the least free block. *)
Lemma word_least f m j w : 0 <= m < maps -> 0 <= j < 128 -> W f (2 + m) !! Z.to_nat j = Some w -> w ≠ 0 -> is_u32 w ->
  (forall x, x ∈ free f -> 4096 * m + 32 * j <= x) ->
  let b := 4096 * m + 32 * j + count_ntz w in
  0 <= count_ntz w < 32 /\ b ∈ free f /\ forall x, x ∈ free f -> b <= x.
Proof.
  intros Hm Hj Hw Hne [Hlo Hhi] Hmin b. assert (Hc : 0 <= count_ntz w < 32) by (split; [apply count_ntz_nonneg|apply count_ntz_lt; lia]).
  destruct (bit_place m j (count_ntz w) ltac:(lia) Hj Hc) as (P1 & P2 & P3). fold b in P1, P2, P3. split; [done|]. split.
  - apply elem_of_free. split; [unfold b; lia|]. unfold bit. rewrite P1, P2, Hw, P3. apply count_ntz_set. lia.
  - intros x Hx. pose proof (Hmin x Hx) as Hge. apply elem_of_free in Hx as [Hx Hbit]. destruct (place_bit x ltac:(lia)) as (X1 & X2 & X3).
    destruct (decide (b <= x)) as [|Hlt]; [done|]. exfalso. unfold b in Hlt.
    assert (x / 4096 = m) as E1 by lia. assert (x mod 4096 / 32 = j) as E2 by lia.
    unfold bit in Hbit. rewrite E1, E2, Hw in Hbit. rewrite count_ntz_below in Hbit by lia. done.
Qed.

(** A word of zeros has no free block. *)
Lemma word_empty f m j : 0 <= m < maps -> 0 <= j < 128 -> W f (2 + m) !! Z.to_nat j = Some 0 ->
  (forall x, x ∈ free f -> 4096 * m + 32 * j <= x) -> forall x, x ∈ free f -> 4096 * m + 32 * (j + 1) <= x.
Proof.
  intros Hm Hj Hw Hmin x Hx. pose proof (Hmin x Hx) as Hge. apply elem_of_free in Hx as [Hx Hbit]. destruct (place_bit x ltac:(lia)) as (X1 & X2 & X3).
  destruct (decide (4096 * m + 32 * (j + 1) <= x)); [done|]. exfalso.
  assert (x / 4096 = m) as E1 by lia. assert (x mod 4096 / 32 = j) as E2 by lia.
  unfold bit in Hbit. rewrite E1, E2, Hw in Hbit. by rewrite Z.bits_0 in Hbit.
Qed.

(** The end of an allocation: the bit is cleared, the super block updated. *)
Lemma take_bit_spec s f h n q m j w : fsok f h -> usable f ≠ ∅ -> h !! p = Some ((1, ch), n, false) -> h !! q = None ->
  refines s (Blocks f (<[q := ((2 + m, ch), 1, false)]> h)) -> 0 <= m < maps -> 0 <= j < 128 ->
  W f (2 + m) !! Z.to_nat j = Some w -> w ≠ 0 -> (forall x, x ∈ free f -> 4096 * m + 32 * j <= x) ->
  let b := 4096 * m + 32 * j + count_ntz w in
  exists s1 s2 s3 s4 s5 f', save s q j (bit_clear w (count_ntz w)) = Some s1 /\ cache_release s1 (Some q) true = Some (true, s2) /\
    loads s2 p fs_bshift = Some 9 /\ loads s2 p fs_free_blocks = Some (Z.of_nat (stdpp.base.size (usable f))) /\
    save s2 p fs_free_blocks (Z.of_nat (stdpp.base.size (usable f)) - 1) = Some s3 /\ save s3 p fs_block_hand (b + 1) = Some s4 /\
    cache_modify s4 (Some p) = Some (true, s5) /\ refines s5 (Blocks f' h) /\ took f f' b /\ fsok f' h.
Proof using Hgeo.
  intros Hok Hne Hp Hq Hr Hm Hj Hw Hw0 Hmin b. pose proof Hgeo as [G1 G2 G3].
  assert (Hin : 0 <= 2 + m < total) by lia. pose proof (blk_len s f _ (2 + m) Hr Hin) as Hl.
  pose proof (f_bytes _ _ Hok (2 + m) ltac:(lia)) as Hb. pose proof (words_lookup _ _ _ (words_of_ok _ 128 Hl Hb) Hw) as Hu.
  destruct (word_least f m j w Hm Hj Hw Hw0 Hu Hmin) as (Hc & Hfree & Hleast). fold b in Hfree, Hleast.
  pose proof (least_usable f b Hleast Hfree Hne) as Hbt. pose proof (f_data _ _ Hok b Hfree) as Hbd. set (c := count_ntz w) in *.
  pose proof (bit_clear_range w c 32 Hu ltac:(lia) ltac:(lia)) as Hcl.
  destruct (save_spec s f _ q (2 + m, ch) 1 false j (bit_clear w c) Hr ltac:(apply lookup_insert_eq) Hl Hb ltac:(lia) Hcl) as (s1 & Hs1 & Hr1).
  destruct (poke_words (f (2 + m, ch)) j (bit_clear w c) Hl Hb ltac:(lia) Hcl) as (_ & Hl1 & Hb1 & Hw1).
  set (l1 := poke (f (2 + m, ch)) j (bit_clear w c)) in *. rewrite insert_insert_eq in Hr1.
  destruct (give_back_spec s1 _ h q (2 + m, ch) true true Hr1 Hq ltac:(by right)) as (s2 & Hs2 & Hr2). set (f1 := fupd f (2 + m, ch) l1) in *.
  assert (HW1 : f1 (1, ch) = f (1, ch)) by (unfold f1; apply fupd_ne; intros [=]; lia).
  pose proof (usable_size f) as Husz. destruct (f_geo _ _ Hok) as (_ & _ & _ & Hsh & _).
  destruct (super_save s2 f1 h n false (Z.of_nat (stdpp.base.size (usable f)) - 1) (b + 1) Hr2 Hp) as (s3 & s4 & s5 & l & Hs3 & Hs4 & Hs5 & Hr5 & Hbl & Hwl).
  { rewrite HW1. apply (f_bytes _ _ Hok). lia. }
  { assert (usable f ≠ ∅ -> stdpp.base.size (usable f) ≠ 0%nat) by (intros Hx Hy; apply Hx; by apply size_empty_inv in Hy; fold_leibniz). unfold is_u32. specialize (H Hne). lia. }
  { unfold is_u32. lia. }
  exists s1, s2, s3, s4, s5, (fupd f1 (1, ch) l). split; [done|]. split; [done|].
  split; [apply (super_load s2 f1 h n false); [done|done|unfold W; by rewrite HW1|done|lia]|].
  split; [apply (super_load s2 f1 h n false); [done|done|unfold W; rewrite HW1; apply (f_free _ _ Hok)|done|lia]|].
  split; [done|]. split; [done|]. split; [done|]. rewrite (insert_id h p) in Hr5 by done. split; [done|].
  assert (Htook : took f (fupd f1 (1, ch) l) b).
  { split; [done|done|lia| |].
    - rewrite (free_other _ f1) by (intros x Hx; apply fupd_ne; intros [=]; lia). by apply (free_clear f m j w c l1).
    - intros k Hk. rewrite fupd_ne by (intros ->; apply Hk; split; simpl; lia). apply fupd_ne. intros ->. apply Hk. split; simpl; lia. }
  split; [done|]. eapply fsok_took; [done|done| |reflexivity|].
  - intros x Hx. destruct (decide (x = 1)) as [->|]; [by rewrite fupd_eq|]. rewrite fupd_ne by congruence.
    destruct (decide (x = 2 + m)) as [->|]; [unfold f1; by rewrite fupd_eq|]. unfold f1. rewrite fupd_ne by congruence. apply (f_bytes _ _ Hok). lia.
  - rewrite fupd_eq, Hwl. unfold W. by rewrite HW1.
Qed.

Lemma units_loop_spec f h n q m : fsok f h -> usable f ≠ ∅ -> h !! p = Some ((1, ch), n, false) -> h !! q = None -> 0 <= m < maps ->
  forall fuel s j, refines s (Blocks f (<[q := ((2 + m, ch), 1, false)]> h)) -> 0 <= j <= 128 -> (128 - Z.to_nat j < fuel)%nat ->
  (forall x, x ∈ free f -> 4096 * m + 32 * j <= x) ->
  exists r s', units_loop fuel s p q m 128 j = Some (r, s') /\
    match r with
    | None => s' = s /\ forall x, x ∈ free f -> 4096 * (m + 1) <= x
    | Some b => exists f', refines s' (Blocks f' h) /\ took f f' b /\ fsok f' h
    end.
Proof using Hgeo.
  intros Hok Hne Hp Hq Hm. pose proof Hgeo as [G1 G2 G3]. induction fuel as [|fuel IH]; intros s j Hr Hj Hfuel Hmin; [lia|]. cbn [units_loop].
  destruct (Z.ltb_spec j 128) as [Hlt|Hge].
  2:{ exists None, s. split; [done|]. split; [done|]. intros x Hx. specialize (Hmin x Hx). lia. }
  pose proof (blk_len s f _ (2 + m) Hr ltac:(lia)) as Hl.
  rewrite (load_spec s f _ q (2 + m, ch) 1 false j Hr ltac:(apply lookup_insert_eq) Hl) by lia.
  destruct (lookup_lt_is_Some_2 (words_of (f (2 + m, ch))) (Z.to_nat j)) as [w Hw]; [rewrite (length_words_of _ 128 Hl); lia|].
  rewrite Hw. cbn [mbind option_bind]. destruct (Z.eqb_spec w 0) as [->|Hw0].
  - apply IH; [done|lia|lia|]. apply (word_empty f m j Hm ltac:(lia) Hw Hmin).
  - destruct (take_bit_spec s f h n q m j w Hok Hne Hp Hq Hr Hm ltac:(lia) Hw Hw0 Hmin)
      as (s1 & s2 & s3 & s4 & s5 & f' & H1 & H2 & H3 & H4 & H5 & H6 & H7 & Hr5 & Ht & Hok').
    rewrite H1. cbn [mbind option_bind]. rewrite H2. cbn [mbind option_bind negb]. rewrite H3. cbn [mbind option_bind].
    assert (shl32 m 9 = Some (512 * m)) as ->.
    { unfold shl32. rewrite decide_True by lia. rewrite Z.shiftl_mul_pow2, u32_small by (unfold is_u32; lia). f_equal. lia. }
    cbn [mbind option_bind]. rewrite H4. cbn [mbind option_bind]. pose proof (usable_size f) as Husz.
    unfold int. rewrite decide_True by (unfold is_s32; lia). cbn [mbind option_bind]. rewrite H5. cbn [mbind option_bind].
    pose proof (t_range _ _ _ Ht) as Hrng. pose proof (count_ntz_nonneg w).
    assert (u32 (u32 (512 * m * CHAR_BIT) + j * INT_BIT + count_ntz w) = 4096 * m + 32 * j + count_ntz w) as ->.
    { unfold CHAR_BIT, INT_BIT. rewrite (u32_small (512 * m * 8)) by (unfold is_u32; lia). rewrite u32_small by (unfold is_u32; lia). lia. }
    rewrite (u32_small (4096 * m + 32 * j + count_ntz w + 1)) by (unfold is_u32; lia). rewrite H6. cbn [mbind option_bind]. rewrite H7.
    cbn [mbind option_bind negb]. eexists (Some _), s5. split; [done|]. by exists f'.
Qed.

(** Nobody holds a block of the bit map. *)
Lemma map_unheld f h m : fsok f h -> 0 <= m < maps -> unheld h (2 + m, ch).
Proof. intros Hok Hm i n t Hi. destruct (f_held _ _ Hok i (2 + m) n t Hi) as [|[? _]]; lia. Qed.

Lemma map_loop_spec f h start j0 : fsok f h -> usable f ≠ ∅ ->
  forall fuel s m, refines s (Blocks f h) -> 0 <= start <= m -> m <= maps -> (Z.to_nat (maps - m) < fuel)%nat ->
  (exists hand, W f 1 !! 16%nat = Some hand /\ (hand / 32) mod 128 = j0) ->
  (forall x, x ∈ free f -> 4096 * m + (if m =? start then 32 * j0 else 0) <= x) ->
  exists r s', map_loop fuel s fs p start 128 maps m = Some (r, s') /\
    (r = 0 /\ refines s' (Blocks f h) /\ refused (Blocks f h) \/ exists f', refines s' (Blocks f' h) /\ took f f' r /\ fsok f' h).
Proof using Hgeo.
  intros Hok Hne. pose proof Hgeo as [G1 G2 G3]. destruct (f_super _ _ Hok) as [n Hp].
  induction fuel as [|fuel IH]; intros s m Hr Hs Hm Hfuel Hhand Hmin; [lia|]. cbn [map_loop].
  destruct (set_choose_L _ Hne) as [x0 [Hx0 Ht0]%elem_of_usable].
  destruct (Z.ltb_spec m maps) as [Hlt|Hge].
  2:{ exfalso. specialize (Hmin x0 Hx0). apply elem_of_free in Hx0 as [Hx0 _]. assert (m = maps) as -> by lia.
      destruct Hhand as (hand & _ & <-). pose proof (Z.mod_pos_bound (hand / 32) 128 ltac:(lia)). destruct (maps =? start); lia. }
  rewrite u32_small by (unfold is_u32, TFS_RESERVED_BLOCKS; lia). replace (m + TFS_RESERVED_BLOCKS) with (2 + m) by (unfold TFS_RESERVED_BLOCKS; lia).
  destruct (get_spec s f h ch (2 + m) Hr ltac:(apply G3; lia) ltac:(lia) ltac:(apply (map_unheld f); [done|lia])) as (r & s1 & Hg & Hr1).
  change (channel fs) with ch. rewrite Hg. cbn [mbind option_bind]. destruct r as [q|].
  2:{ exists 0, s1. split; [done|]. left. split; [done|]. exact Hr1. }
  destruct Hr1 as [Hr1 Hq]. destruct Hhand as (hand & Hhw & Hj0). destruct (f_hand _ _ Hok) as (hand' & Hhw' & Hrange & _).
  assert (hand = hand') as -> by congruence. subst j0.
  assert (Hqp : q ≠ p) by congruence.
  rewrite (super_load s1 f _ n false fs_block_hand hand' Hr1) by (rewrite ?lookup_insert_ne by done; (done || lia)). cbn [mbind option_bind].
  rewrite (u32_small hand') by (unfold is_u32; lia). change (128 =? 0) with false. cbn iota.
  pose proof (Z.mod_pos_bound (hand' / 32) 128 ltac:(lia)) as Hj.
  destruct (units_loop_spec f h n q m Hok Hne Hp Hq ltac:(lia) UNITS s1 (if m =? start then (hand' / 32) mod 128 else 0) Hr1) as (r & s2 & Hu & Hr2).
  { destruct (m =? start); lia. }
  { unfold UNITS. destruct (m =? start); lia. }
  { intros x Hx. specialize (Hmin x Hx). destruct (m =? start); lia. }
  assert ((if m =? start then Some ((hand' / INT_BIT) mod 128) else Some 0) = Some (if m =? start then (hand' / 32) mod 128 else 0)) as -> by (by destruct (m =? start)).
  cbn [mbind option_bind]. rewrite Hu. cbn [mbind option_bind]. destruct r as [b|].
  { exists b, s2. split; [done|]. by right. }
  destruct Hr2 as [-> Hmin2]. destruct (give_back_spec s1 f h q (2 + m, ch) false false Hr1 Hq ltac:(by left)) as (s3 & Hs3 & Hr3).
  rewrite Hs3. cbn [mbind option_bind negb]. apply IH; [done|lia|lia|lia|by exists hand'|].
  intros x Hx. rewrite (proj2 (Z.eqb_neq (m + 1) start)) by lia. specialize (Hmin2 x Hx). lia.
Qed.

(** [tfs_allocate_block] takes the least free block; it returns 0 only if there
    is none, or if a block of the bit map cannot be had. *)
Lemma allocate_spec s f h : fsok f h -> refines s (Blocks f h) ->
  exists r s', tfs_allocate_block s fs = Some (r, s') /\
    (r = 0 /\ refines s' (Blocks f h) /\ (usable f = ∅ \/ refused (Blocks f h)) \/
     exists f', refines s' (Blocks f' h) /\ took f f' r /\ fsok f' h).
Proof using Hgeo.
  intros Hok Hr. pose proof Hgeo as [G1 G2 G3]. destruct (f_super _ _ Hok) as [n Hp]. destruct (f_geo _ _ Hok) as (E0 & E1 & E2 & E4 & E5).
  destruct (f_hand _ _ Hok) as (hand & E16 & Hhand & Hmin). pose proof (f_free _ _ Hok) as E15. pose proof (usable_size f) as Hsz.
  unfold tfs_allocate_block. cbn [fs private mbind option_bind].
  rewrite (super_load s f h n false fs_free_blocks _ Hr Hp E15) by (done || lia). cbn [mbind option_bind].
  destruct (Z.eqb_spec (Z.of_nat (stdpp.base.size (usable f))) 0) as [Hz|Hz].
  { exists 0, s. split; [done|]. left. split; [done|]. split; [done|]. left. apply leibniz_equiv, size_empty_inv. lia. }
  rewrite (super_load s f h n false fs_block_hand _ Hr Hp E16) by (done || lia). cbn [mbind option_bind].
  rewrite (super_load s f h n false fs_bshift _ Hr Hp E4) by (done || lia). cbn [mbind option_bind].
  assert (shr (Z.quot hand CHAR_BIT) 9 = Some (hand / 4096)) as ->.
  { unfold shr, CHAR_BIT. rewrite decide_True by lia. rewrite Z.quot_div_nonneg, Z.shiftr_div_pow2, Z.div_div by lia. done. }
  cbn [mbind option_bind]. rewrite (super_load s f h n false fs_bsize _ Hr Hp E2) by (done || lia). cbn [mbind option_bind].
  rewrite (super_load s f h n false fs_dblkno _ Hr Hp E1) by (done || lia). cbn [mbind option_bind].
  rewrite (super_load s f h n false fs_sblkno _ Hr Hp E0) by (done || lia). cbn [mbind option_bind].
  rewrite (super_load s f h n false fs_sbsize _ Hr Hp E5) by (done || lia). cbn [mbind option_bind].
  unfold int. rewrite decide_True by (unfold is_s32; lia). cbn [mbind option_bind]. rewrite decide_True by (unfold is_s32; lia). cbn [mbind option_bind].
  replace (2 + maps - 1 - 1) with maps by lia. pose proof (Z.div_mod hand 4096 ltac:(lia)) as Hdm. pose proof (Z.mod_pos_bound hand 4096 ltac:(lia)) as Hm4.
  rewrite (u32_small maps), (u32_small (hand / 4096)) by (unfold is_u32; lia). change (u32 512 / 4) with 128.
  destruct (map_loop_spec f h (hand / 4096) ((hand / 32) mod 128) Hok ltac:(by intros E; rewrite E, size_empty in Hz)
    (S (Z.to_nat maps)) s (hand / 4096) Hr) as (r & s' & Hml & Hres); [lia|lia|lia|by exists hand| |].
  { intros x Hx. rewrite Z.eqb_refl. specialize (Hmin x Hx). 
    assert (32 * (hand / 32) <= hand) by (apply Z.mul_div_le; lia). pose proof (Z.div_mod (hand / 32) 128 ltac:(lia)) as H2.
    assert (hand / 32 / 128 = hand / 4096) as H3 by (by rewrite Z.div_div). lia. }
  rewrite Hml. exists r, s'. split; [done|]. destruct Hres as [(-> & Hr' & Href)|Hres]; [left|by right]. split; [done|]. split; [done|]. by right.
Qed.

(** ** Giving a block back *)

Record gave f f' (b : Z) : Prop := {
  v_free : free f' = {[b]} ∪ free f;
  v_same k : ~ system k -> k ≠ (b, ch) -> f' k = f k;
}.

(** The number of free blocks alone. *)
Lemma super_save1 s f h n t v : refines s (Blocks f h) -> h !! p = Some ((1, ch), n, t) -> bytes_ok (f (1, ch)) -> is_u32 v ->
  exists s1 s2 l, save s p fs_free_blocks v = Some s1 /\ refines s1 (Blocks (fupd f (1, ch) l) (<[p := ((1, ch), n, true)]> h)) /\
    cache_modify s1 (Some p) = Some (true, s2) /\ refines s2 (Blocks (fupd f (1, ch) l) (<[p := ((1, ch), n, false)]> h)) /\ bytes_ok l /\
    words_of l = <[15%nat := v]> (W f 1).
Proof using Hgeo.
  intros Hr Hp Hb Hv. assert (H1 : 0 <= 1 < total) by (destruct Hgeo; lia). pose proof (blk_len s f h 1 Hr H1) as Hl.
  destruct (save_spec s f h p (1, ch) n t fs_free_blocks v Hr Hp Hl Hb ltac:(unfold fs_free_blocks; lia) Hv) as (s1 & Hs1 & Hr1).
  destruct (poke_words (f (1, ch)) fs_free_blocks v Hl Hb ltac:(unfold fs_free_blocks; lia) Hv) as (_ & Hl1 & Hb1 & Hw1).
  destruct (modify_spec s1 _ _ p (1, ch) n true Hr1 ltac:(apply lookup_insert_eq)) as (s2 & Hs2 & Hr2). rewrite insert_insert_eq in Hr2.
  by eexists s1, s2, _.
Qed.

(** The bit of the block is set. *)
Lemma set_bit_spec s f h q b : fsok f h -> h !! q = None -> 0 <= b < 4096 * maps ->
  refines s (Blocks f (<[q := ((2 + b / 4096, ch), 1, false)]> h)) ->
  exists l0 c l s1 s2, buffer s q = Some l0 /\ get8 l0 (Z.land (b / 8) 511) = Some c /\
    put8 l0 (Z.land (b / 8) 511) (bit_set c (b mod 8)) = Some l /\ write_buffer s q l = Some s1 /\
    cache_release s1 (Some q) true = Some (true, s2) /\ bytes_ok l /\
    refines s2 (Blocks (fupd f (2 + b / 4096, ch) l) h) /\ free (fupd f (2 + b / 4096, ch) l) = {[b]} ∪ free f.
Proof using Hgeo.
  intros Hok Hq Hb Hr. pose proof Hgeo as [G1 G2 G3]. destruct (place_bit b ltac:(lia)) as (P1 & P2 & P3). set (m := b / 4096) in *.
  assert (Hm : 0 <= m < maps) by (split; [apply Z.div_pos; lia|apply Z.div_lt_upper_bound; lia]).
  pose proof (blk_len s f _ (2 + m) Hr ltac:(lia)) as Hl. pose proof (f_bytes _ _ Hok (2 + m) ltac:(lia)) as Hby.
  change 511 with (Z.ones 9). rewrite Z.land_ones by lia. change (2 ^ 9) with 512. set (y := (b / 8) mod 512).
  assert (Hy : 0 <= y < 4 * Z.of_nat 128) by (apply Z.mod_pos_bound; lia). pose proof (Z.mod_pos_bound b 8 ltac:(lia)) as Hb8.
  assert (Hyb : y / 4 = b mod 4096 / 32 /\ 8 * (y mod 4) + b mod 8 = b mod 32).
  { pose proof (Z.div_mod b 8 ltac:(lia)). pose proof (Z.div_mod (b / 8) 512 ltac:(lia)) as H8. fold y in H8. pose proof (Z.div_mod y 4 ltac:(lia)).
    pose proof (Z.mod_pos_bound y 4 ltac:(lia)). assert (b / 8 / 512 = m) as Hmm by (unfold m; by rewrite Z.div_div).
    rewrite Hmm in H8. lia. }
  destruct (lookup_lt_is_Some_2 (f (2 + m, ch)) (Z.to_nat y)) as [c Hc]; [lia|].
  assert (Hg8 : get8 (f (2 + m, ch)) y = Some c) by (unfold get8; by rewrite (proj2 (Z.ltb_ge y 0)) by lia).
  destruct (put8_words (f (2 + m, ch)) 128 Hl Hby y (b mod 8) c Hy Hb8 Hg8) as (l & w & Hput & Hll & Hlb & Hw & Hlw). rewrite (proj1 Hyb), (proj2 Hyb) in *.
  destruct (store_spec s f _ q (2 + m, ch) 1 false l Hr ltac:(apply lookup_insert_eq) ltac:(lia)) as (s1 & Hs1 & Hr1). rewrite insert_insert_eq in Hr1.
  destruct (give_back_spec s1 _ h q (2 + m, ch) true true Hr1 Hq ltac:(by right)) as (s2 & Hs2 & Hr2).
  exists (f (2 + m, ch)), c, l, s1, s2. split; [exact (buffer_spec s _ q (2 + m, ch) 1 false Hr ltac:(apply lookup_insert_eq))|].
  split; [done|]. split; [done|]. split; [done|]. split; [done|]. split; [done|]. split; [done|].
  rewrite (free_set f m (b mod 4096 / 32) w (b mod 32) l Hm P1 P2 Hw Hlw). by rewrite <- P3.
Qed.

Lemma usable_gave f f' b : b ∉ free f -> b < total -> free f' = {[b]} ∪ free f ->
  stdpp.base.size (usable f') = S (stdpp.base.size (usable f)).
Proof.
  intros Hb Ht Hf. assert (usable f' = {[b]} ∪ usable f) as ->.
  { apply set_eq. intros x. rewrite elem_of_union, elem_of_singleton, !elem_of_usable, Hf, elem_of_union, elem_of_singleton.
    destruct (decide (x = b)) as [->|]; tauto. }
  rewrite size_union, size_singleton; [done|]. intros x ->%elem_of_singleton. rewrite elem_of_usable. tauto.
Qed.

Lemma fsok_gave f f' h b hand : fsok f h -> gave f f' b -> 2 + maps <= b < total -> b ∉ free f -> unheld h (b, ch) ->
  (forall x, 1 <= x < 2 + maps -> bytes_ok (f' (x, ch))) ->
  (forall i, (i < 15)%nat -> W f' 1 !! i = W f 1 !! i) -> W f' 1 !! 15%nat = Some (Z.of_nat (stdpp.base.size (usable f)) + 1) ->
  W f' 1 !! 16%nat = Some hand -> 0 <= hand <= b -> (forall x, x ∈ free f -> hand <= x) -> fsok f' h.
Proof using Hgeo.
  intros Hok Hg Hrng Hb Hu Hby Hsame H15 H16 Hhb Hhx. destruct Hok as [K1 K2 K3 K4 K5 K6 K7]. destruct Hg as [V1 V2].
  pose proof (usable_gave f f' b Hb ltac:(lia) V1) as Hsz. split; [done|done| | | | |].
  - rewrite !Hsame by lia. done.
  - rewrite H15. f_equal. lia.
  - exists hand. split; [done|]. destruct Hgeo as [G1 G2 _]. split; [lia|]. intros x. rewrite V1, elem_of_union, elem_of_singleton.
    intros [->|Hx]; [lia|auto].
  - intros x. rewrite V1, elem_of_union, elem_of_singleton. intros [->|Hx]; [lia|auto].
  - intros i x n t Hi. destruct (K7 i x n t Hi) as [|[? ?]]; [by left|right]. split; [done|]. rewrite V1, elem_of_union, elem_of_singleton.
    intros [->|?]; [by destruct (Hu i n t)|done].
Qed.

(** The super block after a block has been given back. *)
Lemma give_super s f h n v hand b : refines s (Blocks f h) -> h !! p = Some ((1, ch), n, false) -> bytes_ok (f (1, ch)) ->
  W f 1 !! 15%nat = Some v -> 0 <= v < 2 ^ 31 - 1 -> W f 1 !! 16%nat = Some hand -> 0 <= hand < 2 ^ 31 -> 0 <= b < 2 ^ 31 ->
  exists s1 s2 s3 l, loads s p fs_free_blocks = Some v /\ save s p fs_free_blocks (v + 1) = Some s1 /\ loads s1 p fs_block_hand = Some hand /\
    (if b <? hand then save s1 p fs_block_hand b else Some s1) = Some s2 /\ cache_modify s2 (Some p) = Some (true, s3) /\
    refines s3 (Blocks (fupd f (1, ch) l) h) /\ bytes_ok l /\ (forall i, (i < 15)%nat -> words_of l !! i = W f 1 !! i) /\
    words_of l !! 15%nat = Some (v + 1) /\ words_of l !! 16%nat = Some (if b <? hand then b else hand).
Proof using Hgeo.
  intros Hr Hp Hb H15 Hv H16 Hh Hbb. pose proof (lookup_lt_Some _ _ _ H15) as L15. pose proof (lookup_lt_Some _ _ _ H16) as L16.
  destruct (super_save1 s f h n false (v + 1) Hr Hp Hb ltac:(unfold is_u32; lia)) as (s1 & s2 & l & Hs1 & Hr1 & Hs2 & Hr2 & Hbl & Hwl).
  assert (Hh1 : loads s1 p fs_block_hand = Some hand).
  { eapply (super_load s1 _ _ n true); [exact Hr1|apply lookup_insert_eq| |done|lia]. unfold W. rewrite fupd_eq, Hwl, list_lookup_insert_ne; done. }
  pose proof (super_load s f h n false fs_free_blocks v Hr Hp H15 ltac:(done) ltac:(lia)) as Hl.
  destruct (Z.ltb_spec b hand) as [Hlt|Hge].
  - destruct (super_save s f h n false (v + 1) b Hr Hp Hb ltac:(unfold is_u32; lia) ltac:(unfold is_u32; lia)) as (s1' & s3 & s4 & l' & Hs1' & Hs3 & Hs4 & Hr4 & Hbl' & Hwl').
    assert (s1' = s1) as -> by congruence. exists s1, s3, s4, l'. rewrite insert_id in Hr4 by done. split; [done|]. split; [done|].
    split; [done|]. split; [done|]. split; [done|]. split; [done|]. split; [done|]. rewrite Hwl'. split; [intros i Hi; by rewrite !list_lookup_insert_ne by lia|].
    split; [by rewrite list_lookup_insert_ne, list_lookup_insert_eq by lia|]. by rewrite list_lookup_insert_eq by (rewrite length_insert; lia).
  - exists s1, s1, s2, l. rewrite insert_id in Hr2 by done. split; [done|]. split; [done|]. split; [done|]. split; [done|]. split; [done|].
    split; [done|]. split; [done|]. rewrite Hwl. split; [intros i Hi; by rewrite !list_lookup_insert_ne by lia|].
    split; [by rewrite list_lookup_insert_eq|]. by rewrite list_lookup_insert_ne by lia.
Qed.

(** [tfs_deallocate_block] puts a block in use among the free ones; it fails
    only if a block of the bit map cannot be had. *)
Lemma deallocate_spec s f h b : fsok f h -> refines s (Blocks f h) -> 2 + maps <= b < total -> b ∉ free f -> unheld h (b, ch) ->
  exists r s', tfs_deallocate_block s fs b = Some (r, s') /\
    (r = EIO /\ refines s' (Blocks f h) /\ refused (Blocks f h) \/
     r = 0 /\ exists f', refines s' (Blocks f' h) /\ gave f f' b /\ fsok f' h).
Proof using Hgeo.
  intros Hok Hr Hb Hnf Hu. pose proof Hgeo as [G1 G2 G3]. destruct (f_super _ _ Hok) as [n Hp]. destruct (f_geo _ _ Hok) as (E0 & E1 & E2 & E4 & E5).
  destruct (f_hand _ _ Hok) as (hand & E16 & Hhand & Hmin). pose proof (f_free _ _ Hok) as E15. pose proof (usable_size f) as Hsz.
  unfold tfs_deallocate_block. cbn [fs private mbind option_bind].
  rewrite (super_load s f h n false fs_dblkno _ Hr Hp E1) by (done || lia). cbn [mbind option_bind].
  rewrite (u32_small (2 + maps)), (proj2 (Z.ltb_ge b (2 + maps))) by (unfold is_u32; lia).
  rewrite (super_load s f h n false fs_bshift _ Hr Hp E4) by (done || lia). cbn [mbind option_bind].
  assert (shr (b / CHAR_BIT) 9 = Some (b / 4096)) as ->.
  { unfold shr, CHAR_BIT. rewrite decide_True by lia. rewrite Z.shiftr_div_pow2, Z.div_div by lia. done. }
  cbn [mbind option_bind]. assert (Hm : 0 <= b / 4096 < maps) by (split; [apply Z.div_pos; lia|apply Z.div_lt_upper_bound; lia]).
  rewrite u32_small by (unfold is_u32, TFS_RESERVED_BLOCKS; lia). replace (b / 4096 + TFS_RESERVED_BLOCKS) with (2 + b / 4096) by (unfold TFS_RESERVED_BLOCKS; lia).
  change (channel fs) with ch.
  destruct (get_spec s f h ch (2 + b / 4096) Hr ltac:(apply G3; lia) ltac:(lia) ltac:(apply (map_unheld f); [done|lia])) as (r & s1 & Hg & Hr1).
  rewrite Hg. cbn [mbind option_bind]. destruct r as [q|].
  2:{ exists EIO, s1. split; [done|]. left. split; [done|]. exact Hr1. }
  destruct Hr1 as [Hr1 Hq]. change (mask 9) with (Some 511). cbn [mbind option_bind]. unfold CHAR_BIT.
  destruct (set_bit_spec s1 f h q b Hok Hq ltac:(lia) Hr1) as (l0 & c & l & s2 & s3 & Hb0 & Hg8 & Hp8 & Hs2 & Hs3 & Hbl & Hr3 & Hfr).
  rewrite Hb0. cbn [mbind option_bind]. rewrite Hg8. cbn [mbind option_bind]. rewrite Hp8. cbn [mbind option_bind]. rewrite Hs2. cbn [mbind option_bind].
  rewrite Hs3. cbn [mbind option_bind negb]. set (f1 := fupd f (2 + b / 4096, ch) l) in *.
  destruct (invalidate_spec s3 f1 h ch b Hr3 ltac:(lia) Hu) as (ok & s4 & lb & Hs4 & Hr4). rewrite Hs4. cbn [mbind option_bind]. set (f2 := fupd f1 (b, ch) lb) in *.
  assert (HW : f2 (1, ch) = f (1, ch)) by (unfold f2, f1; rewrite !fupd_ne by (intros [=]; lia); done).
  destruct (give_super s4 f2 h n (Z.of_nat (stdpp.base.size (usable f))) hand b Hr4 Hp) as (s5 & s6 & s7 & l' & H1 & H2 & H3 & H4 & H5 & Hr7 & Hbl' & Hlow & H15 & H16);
    [rewrite HW; apply (f_bytes _ _ Hok); lia|unfold W; by rewrite HW|lia|unfold W; by rewrite HW|lia|lia|].
  rewrite H1. cbn [mbind option_bind]. unfold int. rewrite decide_True by (unfold is_s32; lia). cbn [mbind option_bind].
  rewrite H2. cbn [mbind option_bind]. rewrite H3. cbn [mbind option_bind]. rewrite (u32_small hand) by (unfold is_u32; lia). rewrite H4. cbn [mbind option_bind].
  rewrite H5. cbn [mbind option_bind negb]. exists 0, s7. split; [done|]. right. split; [done|]. exists (fupd f2 (1, ch) l'). split; [done|].
  assert (Hgave : gave f (fupd f2 (1, ch) l') b).
  { split.
    - rewrite <- Hfr. apply free_other. intros m' Hm'. rewrite fupd_ne by (intros [=]; lia). unfold f2. apply fupd_ne. intros [=]. lia.
    - intros k Hk Hkb. rewrite fupd_ne by (intros ->; apply Hk; split; simpl; lia). unfold f2, f1. rewrite !fupd_ne; [done| |done].
      intros ->. apply Hk. split; simpl; lia. }
  split; [done|]. eapply fsok_gave; [done|done|done|done|done| | | | | |].
  - intros x Hx. destruct (decide (x = 1)) as [->|]; [by rewrite fupd_eq|]. rewrite fupd_ne by congruence. unfold f2. rewrite fupd_ne by (intros [=]; lia).
    unfold f1. destruct (decide (x = 2 + b / 4096)) as [->|]; [by rewrite fupd_eq|]. rewrite fupd_ne by congruence. apply (f_bytes _ _ Hok). lia.
  - intros i Hi. unfold W. rewrite fupd_eq, Hlow by done. unfold W. by rewrite HW.
  - unfold W. rewrite fupd_eq. exact H15.
  - unfold W. rewrite fupd_eq. exact H16.
  - destruct (Z.ltb_spec b hand); lia.
  - intros x Hx. specialize (Hmin x Hx). destruct (Z.ltb_spec b hand); lia.
Qed.

End Fs.
