(* ===== verification/TfsFile.v ===== *)
(** * The files of TFS

    The numbers of the blocks of a file, and its contents: what file.c reads
    and writes through them. *)

From S2P Require Import Prelude Lists Hash Bitmap DiskWords Cache Tfs TfsBlock.

Section File.
Context {D : Type} `{!BlockDevice D, !BlockDeviceLaws D}.
Notation st := (@store D crings (gmap hloc (list hloc))).
Implicit Types (s : st) (f : Z * Z -> list Z) (h : gmap Z (Z * Z * Z * bool)).
Context (ch maps total p : Z) (Hgeo : geometry ch maps total).
Notation fs := (fs ch p).
Notation free := (free ch maps).
Notation fsok := (fsok ch maps total p).
Notation W := (W ch).

(** Not refused: the devices work, and a buffer is free. *)
Definition roomy h : Prop := reliable /\ exists i, 0 <= i < MAX_CACHE /\ h !! i = None.

Lemma roomy_serves f h : roomy h -> ~ refused (Blocks f h).
Proof. intros [Hr (i & Hi & Hn)] [H|H]; [|done]. destruct (H i Hi) as [x Hx]. cbn [held] in Hx. congruence. Qed.

(** ** Block numbers of a file *)

Definition wd f (b i : Z) : Z := default 0 (W f b !! Z.to_nat i).

(** The number [j] of the inode, and the block that holds the part [nth] of
    the file. *)
Definition ib f (ino j : Z) : Z := wd f ino (i_ib + j).
Definition ptr f (ino nth : Z) : Z := if ib f ino (nth / 128) =? 0 then 0 else wd f (ib f ino (nth / 128)) (nth mod 128).

Definition PARTS : Z := 14464.

Definition inuse f (b : Z) : Prop := 2 + maps <= b < total /\ b ∉ free f.

Definition owned f (ino b : Z) : Prop :=
  b = ino \/ (exists j, 0 <= j < 113 /\ ib f ino j = b /\ b ≠ 0) \/ (exists n, 0 <= n < PARTS /\ ptr f ino n = b /\ b ≠ 0).

Record file f h (ino : Z) : Prop := {
  i_self : inuse f ino /\ bytes_ok (f (ino, ch));
  i_index j : 0 <= j < 113 -> ib f ino j ≠ 0 -> inuse f (ib f ino j) /\ bytes_ok (f (ib f ino j, ch)) /\ unheld h (ib f ino j, ch) /\ ib f ino j ≠ ino;
  i_data n : 0 <= n < PARTS -> ptr f ino n ≠ 0 -> inuse f (ptr f ino n) /\ unheld h (ptr f ino n, ch) /\ ptr f ino n ≠ ino;
  i_ib_inj j j' : 0 <= j < 113 -> 0 <= j' < 113 -> ib f ino j = ib f ino j' -> ib f ino j ≠ 0 -> j = j';
  i_ptr_inj n n' : 0 <= n < PARTS -> 0 <= n' < PARTS -> ptr f ino n = ptr f ino n' -> ptr f ino n ≠ 0 -> n = n';
  i_apart j n : 0 <= j < 113 -> 0 <= n < PARTS -> ptr f ino n = ib f ino j -> ptr f ino n = 0;
}.

Lemma part_place n : 0 <= n < PARTS -> 0 <= n / 128 < 113 /\ 0 <= n mod 128 < 128.
Proof.
  unfold PARTS. intros Hn. split; [|apply Z.mod_pos_bound; lia]. split; [apply Z.div_pos; lia|apply Z.div_lt_upper_bound; lia].
Qed.

Lemma valid_nth n : is_valid_nth n = (n <? PARTS).
Proof. reflexivity. Qed.

(** Words of a block of the file system. *)
Lemma wd_lookup s f h b i : refines s (Blocks f h) -> 0 <= b < total -> 0 <= i < 128 -> W f b !! Z.to_nat i = Some (wd f b i).
Proof using Hgeo.
  intros Hr Hb Hi. unfold wd. pose proof (blk_len ch maps total Hgeo s f h b Hr Hb) as Hl.
  destruct (lookup_lt_is_Some_2 (W f b) (Z.to_nat i)) as [w Hw]; [unfold TfsBlock.W; rewrite (length_words_of _ 128 Hl); lia|]. by rewrite Hw.
Qed.

Lemma inode_load s f h v ino n t i : refines s (Blocks f h) -> h !! v = Some ((ino, ch), n, t) -> 0 <= ino < total -> 0 <= i < 128 ->
  load s v i = Some (wd f ino i).
Proof using Hgeo.
  intros Hr Hv Hi Hj. rewrite (load_spec s f h v (ino, ch) n t i Hr Hv (blk_len ch maps total Hgeo s f h ino Hr Hi) ltac:(lia)).
  by apply (wd_lookup s f h).
Qed.

(** [tfs_get_block_no] looks the number up and leaves everything as it was. *)
Lemma get_block_no_spec s f h v ino n t nth : refines s (Blocks f h) -> file f h ino -> h !! v = Some ((ino, ch), n, t) -> 0 <= nth ->
  exists r s', tfs_get_block_no s fs v nth = Some (r, s') /\ refines s' (Blocks f h) /\
    (r = (if nth <? PARTS then ptr f ino nth else 0) \/ r = 0 /\ refused (Blocks f h)).
Proof using Hgeo.
  intros Hr Hf Hv Hn. pose proof Hgeo as [G1 G2 G3]. unfold tfs_get_block_no. rewrite valid_nth. destruct (Z.ltb_spec nth PARTS) as [Hlt|Hge]; cbn [negb].
  2:{ exists 0, s. split; [done|]. split; [done|]. by left. }
  destruct (part_place nth ltac:(lia)) as [H1 H2]. change (num_of_2nd_blocks block_size) with 128. destruct (i_self _ _ _ Hf) as [[Hino _] _].
  rewrite (inode_load s f h v ino n t) by (done || unfold i_ib; lia). cbn [mbind option_bind]. change (wd f ino (i_ib + nth / 128)) with (ib f ino (nth / 128)).
  unfold ptr. destruct (Z.eqb_spec (ib f ino (nth / 128)) 0) as [E|E].
  { exists 0, s. split; [done|]. split; [done|]. by left. }
  destruct (i_index _ _ _ Hf (nth / 128) H1 E) as ([Hx _] & _ & Hu & _).
  destruct (get_spec s f h ch (ib f ino (nth / 128)) Hr ltac:(apply G3; lia) ltac:(lia) Hu) as (r & s1 & Hg & Hr1).
  change (channel fs) with ch. rewrite Hg. cbn [mbind option_bind]. destruct r as [q|].
  2:{ exists 0, s1. split; [done|]. destruct Hr1. split; [done|]. by right. }
  destruct Hr1 as [Hr1 Hq]. rewrite (inode_load s1 f _ q (ib f ino (nth / 128)) 1 false) by (done || apply lookup_insert_eq || lia). cbn [mbind option_bind].
  destruct (give_back_spec s1 f h q _ false false Hr1 Hq ltac:(by left)) as (s2 & Hs2 & Hr2). rewrite Hs2. cbn [mbind option_bind negb].
  eexists _, s2. split; [done|]. split; [done|]. by left.
Qed.

(** ** Changing the numbers *)

(** Only the mark of a locked buffer changes. *)
Lemma unheld_mark h v k n t t' k' : h !! v = Some (k, n, t) -> unheld h k' -> unheld (<[v := (k, n, t')]> h) k'.
Proof.
  intros Hv Hu i n' u. destruct (decide (i = v)) as [->|Hne].
  - rewrite lookup_insert_eq. intros [= -> _ _]. by apply (Hu v n t).
  - rewrite lookup_insert_ne by done. apply Hu.
Qed.

Lemma fsok_mark f h v b n t t' : fsok f h -> h !! v = Some ((b, ch), n, t) -> b ≠ 1 -> fsok f (<[v := ((b, ch), n, t')]> h).
Proof.
  intros [K1 K2 K3 K4 K5 K6 K7] Hv Hb. split; [|done|done|done|done|done|].
  - destruct K1 as [m Hm]. exists m. rewrite lookup_insert_ne by (intros ->; congruence). done.
  - intros i x m u. destruct (decide (i = v)) as [->|Hne]; [|rewrite lookup_insert_ne by done; apply K7].
    rewrite lookup_insert_eq. intros [= <- _ _]. by apply (K7 v b n t).
Qed.

(** A change of blocks that are not of the system. *)
Lemma fsok_outside f f' h : fsok f h -> (forall k, system ch maps k -> f' k = f k) -> fsok f' h /\ free f' = free f.
Proof using Hgeo.
  intros [K1 K2 K3 K4 K5 K6 K7] Hs. pose proof Hgeo as [G1 G2 G3].
  assert (free f' = free f) as E by (apply free_other; intros m Hm; apply Hs; split; simpl; lia).
  assert (W f' 1 = W f 1) as E1 by (unfold TfsBlock.W; rewrite Hs; [done|split; simpl; lia]). split; [|done].
  split; unfold usable in *; rewrite ?E, ?E1; try done. intros b Hb. rewrite Hs by (split; simpl; lia). auto.
Qed.

Lemma owned_self f ino : owned f ino ino.
Proof. by left. Qed.

(** A part gets a block, perhaps with a new block of numbers. *)
Lemma file_link f f' h h' ino nth new x : file f h ino -> 0 <= nth < PARTS -> ptr f ino nth = 0 -> free f' ⊆ free f ->
  inuse f' new -> unheld h' (new, ch) -> ~ owned f ino new -> new ≠ 0 ->
  (forall k, unheld h k -> unheld h' k) -> bytes_ok (f' (ino, ch)) -> (forall j, 0 <= j < 113 -> ib f' ino j ≠ 0 -> bytes_ok (f' (ib f' ino j, ch))) ->
  x ≠ 0 -> (ib f ino (nth / 128) = x \/ ib f ino (nth / 128) = 0 /\ inuse f' x /\ unheld h' (x, ch) /\ ~ owned f ino x /\ x ≠ new) ->
  (forall j, 0 <= j < 113 -> ib f' ino j = if decide (j = nth / 128) then x else ib f ino j) ->
  (forall m, 0 <= m < PARTS -> ptr f' ino m = if decide (m = nth) then new else ptr f ino m) -> file f' h' ino.
Proof using Hgeo.
  intros Hf Hn Hp0 Hfr Hnew Hun Hown Hn0 Hh Hbi Hbx Hx0 Hx Hib Hptr. destruct Hf as [F1 F2 F3 F4 F5 F6].
  assert (Huse : forall b, inuse f b -> inuse f' b) by (intros b [Hb Hnf]; split; [done|]; intros H; by apply Hnf, Hfr).
  assert (Hni : new ≠ ino) by (intros ->; by apply Hown, owned_self).
  assert (Hxn : x ≠ new).
  { destruct Hx as [<-|(_ & _ & _ & _ & ?)]; [|done]. intros E. apply Hown. right. left. exists (nth / 128). split; [by apply part_place|done]. }
  assert (Hnj : forall j, 0 <= j < 113 -> ib f' ino j ≠ new).
  { intros j Hj. rewrite Hib by done. case_decide; [done|]. intros E. apply Hown. right. left. exists j. done. }
  assert (Hnm : forall m, 0 <= m < PARTS -> ptr f ino m ≠ new) by (intros m Hm E; apply Hown; right; right; by exists m).
  assert (Hxfresh : ib f ino (nth / 128) = x \/ ~ owned f ino x) by tauto.
  split.
  - split; [by apply Huse, F1|done].
  - intros j Hj Hne. assert (Hbj := Hbx j Hj Hne). rewrite Hib in * by done. case_decide as Hd.
    + subst j. destruct Hx as [E|(_ & H1 & H2 & H3 & _)].
      * destruct (F2 (nth / 128) Hj ltac:(by rewrite E)) as (A & _ & B & C). rewrite E in *. split; [by apply Huse|]. split; [done|]. split; [by apply Hh|done].
      * split; [done|]. split; [done|]. split; [done|]. intros ->. by apply H3, owned_self.
    + destruct (F2 j Hj Hne) as (A & _ & B & C). split; [by apply Huse|]. split; [done|]. split; [by apply Hh|done].
  - intros m Hm Hne. rewrite Hptr in * by done. case_decide; [done|]. destruct (F3 m Hm Hne) as (A & B & C). split; [by apply Huse|]. split; [by apply Hh|done].
  - intros j j' Hj Hj' He Hne. rewrite !Hib in * by done. destruct (decide (j = nth / 128)) as [->|Hd], (decide (j' = nth / 128)) as [->|Hd']; try done.
    + destruct Hxfresh as [E|E]; [symmetry; apply F4; congruence|]. destruct E. right. left. exists j'. done.
    + destruct Hxfresh as [E|E]; [apply F4; congruence|]. destruct E. right. left. exists j. split; [done|]. split; [done|congruence].
    + by apply F4.
  - intros m m' Hm Hm' He Hne. rewrite !Hptr in * by done. destruct (decide (m = nth)) as [->|Hd], (decide (m' = nth)) as [->|Hd']; try done.
    + by destruct (Hnm m' Hm').
    + by destruct (Hnm m Hm).
    + by apply F5.
  - intros j m Hj Hm He. rewrite Hptr in * by done. case_decide as Hd; [subst m; by destruct (Hnj j Hj)|].
    rewrite Hib in He by done. case_decide as Hd'; [|by apply (F6 j m)]. subst j. destruct Hxfresh as [E|E]; [apply (F6 (nth / 128) m); congruence|].
    destruct (decide (ptr f ino m = 0)) as [|Hz]; [done|]. destruct E. right. right. exists m. done.
Qed.

Lemma wd_fupd_ne f b b' l j : b ≠ b' -> wd (fupd f (b', ch) l) b j = wd f b j.
Proof. intros Hb. unfold wd, TfsBlock.W. rewrite fupd_ne; [done|congruence]. Qed.

Lemma wd_poke f b l i v j : length l = 512%nat -> bytes_ok l -> 0 <= i < 128 -> is_u32 v -> 0 <= j ->
  wd (fupd f (b, ch) (poke l i v)) b j = if decide (j = i) then v else default 0 (words_of l !! Z.to_nat j).
Proof.
  intros Hl Hb Hi Hv Hj. destruct (poke_words l i v Hl Hb Hi Hv) as (_ & _ & _ & Hw). unfold wd, TfsBlock.W. rewrite fupd_eq, Hw.
  case_decide as Hd; [subst; by rewrite list_lookup_insert_eq by (rewrite (length_words_of l 128 Hl); lia)|]. by rewrite list_lookup_insert_ne by lia.
Qed.

Lemma zeros_words_of j : default 0 (words_of zeros !! j) = 0.
Proof.
  assert (words_of zeros = replicate 128 0) as -> by (vm_compute; reflexivity).
  destruct (replicate 128 0 !! j) as [w|] eqn:E; [|done]. by apply lookup_replicate in E as [-> _].
Qed.

Lemma zeros_ok : length zeros = 512%nat /\ bytes_ok zeros.
Proof. split; [done|]. apply Forall_replicate. unfold is_byte. lia. Qed.

(** What the file, and the rest of the disk, look like after [nth] was linked. *)
Record linked f f' ino nth new : Prop := {
  l_free : free f' ⊆ free f;
  l_frame b : inuse f b -> ~ owned f ino b -> f' (b, ch) = f (b, ch);
  l_data m : 0 <= m < PARTS -> ptr f ino m ≠ 0 -> f' (ptr f ino m, ch) = f (ptr f ino m, ch);
  l_other k : k.2 ≠ ch -> f' k = f k;
  l_owned b : owned f' ino b -> owned f ino b \/ b ∈ free f \/ b = new;
  l_ptr m : 0 <= m < PARTS -> ptr f' ino m = if decide (m = nth) then new else ptr f ino m;
}.

(** The block of numbers exists. *)
Lemma link_old f h ino nth new : fsok f h -> file f h ino -> 0 <= nth < PARTS -> ptr f ino nth = 0 -> ib f ino (nth / 128) ≠ 0 ->
  length (f (ib f ino (nth / 128), ch)) = 512%nat -> inuse f new -> unheld h (new, ch) -> ~ owned f ino new ->
  let x := ib f ino (nth / 128) in let f' := fupd f (x, ch) (poke (f (x, ch)) (nth mod 128) new) in
  fsok f' h /\ file f' h ino /\ linked f f' ino nth new.
Proof using Hgeo.
  intros Hok Hf Hn Hp0 Hx0 Hl Hnew Hun Hown x f'. pose proof Hgeo as [G1 G2 G3]. destruct (part_place nth Hn) as [Hj0 Hm0].
  destruct (i_index _ _ _ Hf _ Hj0 Hx0) as ([Hxr Hxf] & Hxb & Hxu & Hxi). fold x in Hxr, Hxf, Hxb, Hxu, Hxi, Hl, Hx0. destruct Hnew as [Hnr Hnf].
  assert (Hv : is_u32 new) by (unfold is_u32; lia). destruct (poke_words (f (x, ch)) (nth mod 128) new Hl Hxb Hm0 Hv) as (_ & _ & Hpb & _).
  destruct (fsok_outside f f' h Hok) as [Hok' Hfree]; [intros k [Hk1 Hk2]; apply fupd_ne; intros ->; simpl in *; lia|].
  assert (Hib : forall j, 0 <= j < 113 -> ib f' ino j = ib f ino j) by (intros j Hj; by apply wd_fupd_ne).
  assert (Hptr : forall m, 0 <= m < PARTS -> ptr f' ino m = if decide (m = nth) then new else ptr f ino m).
  { intros m Hm. destruct (part_place m Hm) as [Hj Hmm]. unfold ptr. rewrite Hib by done. destruct (decide (m / 128 = nth / 128)) as [E|E].
    - rewrite E. fold x. rewrite (proj2 (Z.eqb_neq x 0)) by done. unfold f'. rewrite wd_poke by (done || lia).
      destruct (decide (m = nth)) as [->|Hne]; [by rewrite decide_True|]. rewrite decide_False; [done|].
      pose proof (Z.div_mod m 128). pose proof (Z.div_mod nth 128). lia.
    - rewrite (decide_False (P := m = nth)) by congruence. destruct (Z.eqb_spec (ib f ino (m / 128)) 0); [done|]. apply wd_fupd_ne.
      intros Ex. apply E. by apply (i_ib_inj _ _ _ Hf). }
  split; [done|]. split.
  - apply (file_link f f' h h ino nth new x); try done.
    + by rewrite Hfree.
    + split; [done|]. by rewrite Hfree.
    + lia.
    + unfold f'. rewrite fupd_ne by congruence. apply (i_self _ _ _ Hf).
    + intros j Hj Hne. rewrite Hib in * by done. unfold f'. destruct (decide (ib f ino j = x)) as [->|Hd]; [by rewrite fupd_eq|].
      rewrite fupd_ne by congruence. by apply (i_index _ _ _ Hf j).
    + by left.
    + intros j Hj. rewrite Hib by done. by case_decide as Hd; subst.
  - assert (Hxo : owned f ino x) by (right; left; by exists (nth / 128)). split.
    + by rewrite Hfree.
    + intros b _ Hb. apply fupd_ne. intros [= ->]. done.
    + intros m Hm Hne. apply fupd_ne. intros [= E]. by apply Hne, (i_apart _ _ _ Hf (nth / 128) m).
    + intros k Hk. apply fupd_ne. intros ->. done.
    + intros b [->|[(j & Hj & E & Hne)|(m & Hm & E & Hne)]].
      * left. by left.
      * rewrite Hib in E by done. left. right. left. by exists j.
      * rewrite Hptr in E by done. case_decide; [right; by right|]. left. right. right. by exists m.
    + done.
Qed.

(** Blocks in use are not of the system. *)
Lemma inuse_outside f b : inuse f b -> ~ system ch maps (b, ch).
Proof. intros [H _] [_ H']. simpl in H'. lia. Qed.

Lemma took_same f f' b x : took ch maps total f f' b -> inuse f x -> f' (x, ch) = f (x, ch).
Proof. intros Ht Hx. by apply (t_same _ _ _ _ _ _ Ht), (inuse_outside f). Qed.

(** The block of numbers is new. *)
Lemma link_new f f1 h ino nth new b v n t : fsok f1 h -> file f h ino -> took ch maps total f f1 b -> 0 <= nth < PARTS -> ib f ino (nth / 128) = 0 ->
  length (f (ino, ch)) = 512%nat -> inuse f new -> unheld h (new, ch) -> ~ owned f ino new -> unheld h (b, ch) -> h !! v = Some ((ino, ch), n, t) ->
  let h' := <[v := ((ino, ch), n, true)]> h in
  let f' := fupd (fupd f1 (ino, ch) (poke (f (ino, ch)) (i_ib + nth / 128) b)) (b, ch) (poke zeros (nth mod 128) new) in
  fsok f' h' /\ file f' h' ino /\ linked f f' ino nth new.
Proof using Hgeo.
  intros Hok Hf Ht Hn Hx0 Hl Hnew Hun Hown Hub Hv h' f'. pose proof Hgeo as [G1 G2 G3]. destruct (part_place nth Hn) as [Hj0 Hm0].
  destruct (i_self _ _ _ Hf) as [Hino Hib0]. pose proof (t_range _ _ _ _ _ _ Ht) as Hbr. pose proof (t_free _ _ _ _ _ _ Ht) as Hbf.
  assert (Hub' : forall x, inuse f x -> x ≠ b) by (intros x [_ Hx] ->; done).
  assert (Hbi : b ≠ ino) by (intros ->; by apply (Hub' ino)). assert (Hbn : b ≠ new) by (intros ->; by apply (Hub' new)).
  assert (Hbu : is_u32 b) by (unfold is_u32; lia). assert (Hnu : is_u32 new) by (destruct Hnew; unfold is_u32; lia).
  destruct (poke_words (f (ino, ch)) (i_ib + nth / 128) b Hl Hib0 ltac:(unfold i_ib; lia) Hbu) as (_ & _ & Hpb & _).
  destruct zeros_ok as [Hzl Hzb]. destruct (poke_words zeros (nth mod 128) new Hzl Hzb Hm0 Hnu) as (_ & _ & Hmb & _).
  set (f2 := fupd f1 (ino, ch) (poke (f (ino, ch)) (i_ib + nth / 128) b)) in *.
  destruct (fsok_outside f1 f' h Hok) as [Hok' Hfree].
  { intros k [Hk1 Hk2]. unfold f', f2. rewrite !fupd_ne; [done|intros ->; simpl in *; destruct Hino; lia|intros ->; simpl in *; lia]. }
  rewrite (t_left _ _ _ _ _ _ Ht) in Hfree.
  assert (Hsub : free f' ⊆ free f) by (intros y; rewrite Hfree, elem_of_difference; tauto).
  assert (Hout : b ∉ free f') by (rewrite Hfree, elem_of_difference, elem_of_singleton; tauto).
  assert (Hsame : forall x, inuse f x -> x ≠ ino -> f' (x, ch) = f (x, ch)).
  { intros x Hx Hxi. unfold f', f2. rewrite !fupd_ne by (intros [=]; try done; by apply (Hub' x)). by apply (took_same f f1 b). }
  assert (Hibs : forall j, 0 <= j < 113 -> ib f' ino j = if decide (j = nth / 128) then b else ib f ino j).
  { intros j Hj. unfold ib, f'. rewrite wd_fupd_ne by done. unfold f2. rewrite wd_poke by (done || unfold i_ib; lia).
    destruct (decide (j = nth / 128)) as [->|Hd]; [by rewrite decide_True|]. by rewrite decide_False by lia. }
  assert (Hwb : forall j, 0 <= j -> wd f' b j = if decide (j = nth mod 128) then new else 0).
  { intros j Hj. unfold f'. rewrite wd_poke by (done || lia). by rewrite zeros_words_of. }
  assert (Hptr : forall m, 0 <= m < PARTS -> ptr f' ino m = if decide (m = nth) then new else ptr f ino m).
  { intros m Hm. destruct (part_place m Hm) as [Hj Hmm]. unfold ptr. rewrite Hibs by done. destruct (decide (m / 128 = nth / 128)) as [E|E].
    - rewrite E, Hx0. rewrite (proj2 (Z.eqb_neq b 0)) by lia. change (0 =? 0) with true. cbn iota. rewrite Hwb by lia.
      destruct (decide (m = nth)) as [->|Hne]; [by rewrite decide_True|]. rewrite decide_False; [done|].
      pose proof (Z.div_mod m 128). pose proof (Z.div_mod nth 128). lia.
    - rewrite (decide_False (P := m = nth)) by congruence. destruct (Z.eqb_spec (ib f ino (m / 128)) 0) as [|Hz]; [done|].
      destruct (i_index _ _ _ Hf (m / 128) Hj Hz) as (Hu & _ & _ & Hi). unfold wd, TfsBlock.W. by rewrite Hsame. }
  split; [by eapply fsok_mark; [exact Hok'|exact Hv|destruct Hino; lia]|]. split.
  - apply (file_link f f' h h' ino nth new b); try done.
    + unfold ptr. by rewrite Hx0.
    + split; [apply Hnew|]. intros Hin. by apply Hnew, Hsub.
    + by apply (unheld_mark h v (ino, ch) n t).
    + destruct Hnew; lia.
    + intros k. by apply (unheld_mark h v (ino, ch) n t).
    + unfold f', f2. rewrite fupd_ne by congruence. by rewrite fupd_eq.
    + intros j Hj Hne. rewrite Hibs in * by done. case_decide as Hd; [unfold f'; by rewrite fupd_eq|].
      destruct (i_index _ _ _ Hf j Hj Hne) as (Hu & Hby & _ & Hi). by rewrite Hsame.
    + lia.
    + right. split; [done|]. split; [done|]. split; [by apply (unheld_mark h v (ino, ch) n t)|]. split; [|done].
      intros [->|[(j & Hj & E & Hne)|(m & Hm & E & Hne)]]; [done| |].
      * destruct (i_index _ _ _ Hf j Hj ltac:(by rewrite E)) as (Hu & _). rewrite E in Hu. by apply (Hub' b).
      * destruct (i_data _ _ _ Hf m Hm ltac:(by rewrite E)) as (Hu & _). rewrite E in Hu. by apply (Hub' b).
  - split.
    + done.
    + intros x Hx Ho. apply Hsame; [done|]. intros ->. by apply Ho, owned_self.
    + intros m Hm Hne. destruct (i_data _ _ _ Hf m Hm Hne) as (Hu & _ & Hi). by apply Hsame.
    + intros k Hk. unfold f', f2. rewrite !fupd_ne by (intros ->; done). apply (t_same _ _ _ _ _ _ Ht). intros [? _]. done.
    + intros x [->|[(j & Hj & E & Hne)|(m & Hm & E & Hne)]].
      * left. by left.
      * rewrite Hibs in E by done. case_decide; [subst; right; by left|]. left. right. left. by exists j.
      * rewrite Hptr in E by done. case_decide; [right; by right|]. left. right. right. by exists m.
    + done.
Qed.

Lemma free_unheld f h b : fsok f h -> b ∈ free f -> unheld h (b, ch).
Proof using Hgeo.
  intros Hok Hb i n t Hi. pose proof Hgeo as [G1 _ _]. pose proof (f_data _ _ _ _ _ _ Hok b Hb).
  destruct (f_held _ _ _ _ _ _ Hok i b n t Hi) as [->|[_ ?]]; [lia|done].
Qed.

Lemma roomy_mark h v k n t t' : roomy h -> h !! v = Some (k, n, t) -> roomy (<[v := (k, n, t')]> h).
Proof.
  intros [Hr (i & Hi & Hn)] Hv. split; [done|]. exists i. split; [done|]. rewrite lookup_insert_ne by congruence. done.
Qed.

(** [tfs_set_block_no] links a block to a part of the file; it returns 0 only
    if it needs a block for the numbers and there is none. *)
Lemma set_block_no_spec s f h v ino n t nth new : refines s (Blocks f h) -> fsok f h -> file f h ino -> roomy h ->
  h !! v = Some ((ino, ch), n, t) -> 0 <= nth < PARTS -> ptr f ino nth = 0 -> inuse f new -> unheld h (new, ch) -> ~ owned f ino new ->
  exists r s', tfs_set_block_no s fs v nth new = Some (r, s') /\
    (r = 0 /\ refines s' (Blocks f h) /\ usable ch maps total f = ∅ \/
     r = new /\ exists f' t', refines s' (Blocks f' (<[v := ((ino, ch), n, t')]> h)) /\ fsok f' (<[v := ((ino, ch), n, t')]> h) /\
       file f' (<[v := ((ino, ch), n, t')]> h) ino /\ linked f f' ino nth new).
Proof using Hgeo.
  intros Hr Hok Hf Hroom Hv Hn Hp0 Hnew Hun Hown. pose proof Hgeo as [G1 G2 G3]. destruct (part_place nth Hn) as [Hj0 Hm0].
  destruct (i_self _ _ _ Hf) as [[Hino Hinof] Hinob]. pose proof (blk_len ch maps total Hgeo s f h ino Hr ltac:(lia)) as Hli.
  unfold tfs_set_block_no. rewrite valid_nth, (proj2 (Z.ltb_lt nth PARTS)) by lia. cbn [negb].
  rewrite (proj2 (Z.eqb_neq new 0)) by (destruct Hnew; lia). change (num_of_2nd_blocks block_size) with 128.
  rewrite (inode_load s f h v ino n t) by (done || unfold i_ib; lia). cbn [mbind option_bind]. change (wd f ino (i_ib + nth / 128)) with (ib f ino (nth / 128)).
  assert (Hnu : is_u32 new) by (destruct Hnew; unfold is_u32; lia). change (channel fs) with ch.
  destruct (Z.eqb_spec (ib f ino (nth / 128)) 0) as [Hx0|Hx0]; cbn [negb].
  - destruct (allocate_spec ch maps total p Hgeo s f h Hok Hr) as (b & s1 & Ha & Hb). rewrite Ha. cbn [mbind option_bind].
    destruct Hb as [(-> & Hr1 & Hw)|(f1 & Hr1 & Ht & Hok1)].
    { cbn [mbind option_bind]. exists 0, s1. split; [done|]. left. split; [done|]. split; [done|]. destruct Hw as [|Hw]; [done|]. by destruct (roomy_serves f h Hroom). }
    pose proof (t_range _ _ _ _ _ _ Ht) as Hbr. rewrite (proj2 (Z.eqb_neq b 0)) by lia.
    assert (Hf1 : f1 (ino, ch) = f (ino, ch)) by (by apply (took_same f f1 b)).
    destruct (save_spec s1 f1 h v (ino, ch) n t (i_ib + nth / 128) b Hr1 Hv) as (s2 & Hs2 & Hr2);
      [by rewrite Hf1|by rewrite Hf1|unfold i_ib; lia|unfold is_u32; lia|]. rewrite Hf1 in Hr2. rewrite Hs2. cbn [mbind option_bind].
    assert (Hub : unheld h (b, ch)) by (apply (free_unheld f); [done|apply Ht]).
    destruct (create_spec s2 _ _ ch b Hr2 ltac:(apply G3; lia) ltac:(lia)) as (q & s3 & Hs3 & Hr3); [by apply (unheld_mark h v (ino, ch) n t)|].
    rewrite Hs3. cbn [mbind option_bind]. destruct q as [q|].
    2:{ destruct Hr3 as [_ Hw]. exfalso. by apply (roomy_serves _ _ (roomy_mark h v _ n t true Hroom Hv) Hw). }
    destruct Hr3 as [Hr3 Hq]. destruct zeros_ok as [Hzl Hzb].
    destruct (save_spec s3 _ _ q (b, ch) 1 true (nth mod 128) new Hr3 ltac:(apply lookup_insert_eq)) as (s4 & Hs4 & Hr4); rewrite ?fupd_eq; [done|done|lia|done|].
    rewrite Hs4. cbn [mbind option_bind]. rewrite fupd_eq, insert_insert_eq in Hr4.
    destruct (give_back_spec s4 _ _ q (b, ch) true true Hr4 Hq ltac:(by right)) as (s5 & Hs5 & Hr5). rewrite Hs5. cbn [mbind option_bind negb].
    exists new, s5. split; [done|]. right. split; [done|]. eexists _, true. split; [eapply refines_fext; [|exact Hr5]; intros k; apply fupd_fupd|].
    by apply (link_new f f1 h ino nth new b v n t).
  - destruct (i_index _ _ _ Hf _ Hj0 Hx0) as ([Hxr Hxf] & Hxb & Hxu & Hxi). set (x := ib f ino (nth / 128)) in *.
    pose proof (blk_len ch maps total Hgeo s f h x Hr ltac:(lia)) as Hlx.
    destruct (get_spec s f h ch x Hr ltac:(apply G3; lia) ltac:(lia) Hxu) as (q & s1 & Hg & Hr1). rewrite Hg. cbn [mbind option_bind]. destruct q as [q|].
    2:{ destruct Hr1 as [_ Hw]. exfalso. by apply (roomy_serves _ _ Hroom Hw). }
    destruct Hr1 as [Hr1 Hq]. destruct (save_spec s1 f _ q (x, ch) 1 false (nth mod 128) new Hr1 ltac:(apply lookup_insert_eq) Hlx Hxb ltac:(lia) Hnu) as (s2 & Hs2 & Hr2).
    rewrite Hs2. cbn [mbind option_bind]. rewrite insert_insert_eq in Hr2.
    destruct (give_back_spec s2 _ _ q (x, ch) true true Hr2 Hq ltac:(by right)) as (s3 & Hs3 & Hr3). rewrite Hs3. cbn [mbind option_bind negb].
    exists new, s3. split; [done|]. right. split; [done|]. eexists _, t. rewrite (insert_id h v) by done. split; [exact Hr3|].
    by apply (link_old f h ino nth new).
Qed.

(** ** The contents of a file *)

Definition content f (ino n : Z) : option Z :=
  if ptr f ino (n / 512) =? 0 then None else f (ptr f ino (n / 512), ch) !! Z.to_nat (n mod 512).

(** The bytes from [off] on, zeros where the file has a hole. *)
Definition stretch f (ino off len : Z) : list Z := (λ i, default 0 (content f ino (off + i))) <$> seqZ 0 len.

Lemma length_stretch f ino off len : length (stretch f ino off len) = Z.to_nat len.
Proof. unfold stretch. by rewrite length_fmap, length_seqZ. Qed.

Lemma stretch_lookup f ino off len i : (i < Z.to_nat len)%nat -> stretch f ino off len !! i = Some (default 0 (content f ino (off + Z.of_nat i))).
Proof.
  intros Hi. unfold stretch. rewrite list_lookup_fmap, lookup_seqZ_lt by lia. done.
Qed.

Lemma stretch_app f ino off a b : 0 <= a -> 0 <= b -> stretch f ino off (a + b) = stretch f ino off a ++ stretch f ino (off + a) b.
Proof.
  intros Ha Hb. apply list_eq. intros i. destruct (decide (i < Z.to_nat a)%nat) as [Hi|Hi].
  - rewrite lookup_app_l by (rewrite length_stretch; lia). by rewrite !stretch_lookup by lia.
  - rewrite lookup_app_r, length_stretch by (rewrite length_stretch; lia). destruct (decide (i < Z.to_nat (a + b))%nat) as [Hi'|Hi'].
    + rewrite !stretch_lookup by lia. do 3 f_equal. lia.
    + rewrite !lookup_ge_None_2; [done|rewrite length_stretch; lia..].
Qed.

(** A piece of one block. *)
Lemma stretch_piece f ino index skip len : 0 <= index -> 0 <= skip -> 0 <= len -> skip + len <= 512 -> ptr f ino index ≠ 0 ->
  length (f (ptr f ino index, ch)) = 512%nat ->
  take (Z.to_nat len) (drop (Z.to_nat skip) (f (ptr f ino index, ch))) = stretch f ino (512 * index + skip) len.
Proof.
  intros Hi Hs Hl Hsl Hp Hlen. apply list_eq. intros i. rewrite piece_lookup. case_decide as Hd.
  - rewrite stretch_lookup by done. unfold content.
    assert ((512 * index + skip + Z.of_nat i) / 512 = index) as -> by (symmetry; apply Z.div_unique with (skip + Z.of_nat i); lia).
    assert ((512 * index + skip + Z.of_nat i) mod 512 = skip + Z.of_nat i) as -> by (symmetry; apply Z.mod_unique with index; lia).
    rewrite (proj2 (Z.eqb_neq _ 0)) by done. replace (Z.to_nat (skip + Z.of_nat i)) with (Z.to_nat skip + i)%nat by lia.
    destruct (lookup_lt_is_Some_2 (f (ptr f ino index, ch)) (Z.to_nat skip + i)) as [w Hw]; [lia|]. by rewrite Hw.
  - rewrite lookup_ge_None_2; [done|]. rewrite length_stretch. lia.
Qed.

(** ** The inode in its buffer *)

(** Words of the inode before the block numbers change. *)
Record restamped f f' ino : Prop := {
  s_bytes : bytes_ok (f' (ino, ch));
  s_words j : (15 <= j)%nat -> W f' ino !! j = W f ino !! j;
  s_other k : k ≠ (ino, ch) -> f' k = f k;
}.

(** Nothing changed but the time at word [i] of the inode. *)
Definition stamped f f' (ino i : Z) (clock : Z * Z * Z) : Prop :=
  (forall k, k ≠ (ino, ch) -> f' k = f k) /\
  forall j, 0 <= j < 128 -> wd f' ino j =
    if decide (j = i) then u32 clock.1.1 else if decide (j = i + 1) then u32 clock.1.2 else if decide (j = i + 2) then u32 clock.2 else wd f ino j.

Lemma restamped_trans f g k ino : restamped f g ino -> restamped g k ino -> restamped f k ino.
Proof. intros [A1 A2 A3] [B1 B2 B3]. split; [done|intros j Hj; by rewrite B2, A2|intros x Hx; by rewrite B3, A3]. Qed.

Lemma save_restamps s f h v ino n t i w : refines s (Blocks f h) -> h !! v = Some ((ino, ch), n, t) -> 0 <= ino < total -> bytes_ok (f (ino, ch)) -> 0 <= i < 15 ->
  exists s' f', save s v i w = Some s' /\ refines s' (Blocks f' (<[v := ((ino, ch), n, true)]> h)) /\ restamped f f' ino /\
    forall j, 0 <= j < 128 -> wd f' ino j = if decide (j = i) then u32 w else wd f ino j.
Proof using Hgeo.
  intros Hr Hv Hino Hb Hi. pose proof (blk_len ch maps total Hgeo s f h ino Hr Hino) as Hl. pose proof (u32_range w) as Hu.
  destruct (save_spec s f h v (ino, ch) n t i (u32 w) Hr Hv Hl Hb ltac:(lia) Hu) as (s' & Hs & Hr').
  destruct (poke_words (f (ino, ch)) i (u32 w) Hl Hb ltac:(lia) Hu) as (_ & _ & Hb' & Hw').
  exists s', (fupd f (ino, ch) (poke (f (ino, ch)) i (u32 w))).
  split; [unfold save in *; by rewrite (u32_small (u32 w)) in Hs by done|]. split; [done|]. split.
  - split; [by rewrite fupd_eq| |intros k Hk; by apply fupd_ne]. intros j Hj. unfold TfsBlock.W. rewrite fupd_eq, Hw'. apply list_lookup_insert_ne. lia.
  - intros j Hj. by rewrite wd_poke by (done || lia).
Qed.

Lemma save_time_spec s f h v ino n t i clock : refines s (Blocks f h) -> h !! v = Some ((ino, ch), n, t) -> 0 <= ino < total -> bytes_ok (f (ino, ch)) ->
  0 <= i -> i + 2 < 15 ->
  exists s' f', save_time s v i clock = Some s' /\ refines s' (Blocks f' (<[v := ((ino, ch), n, true)]> h)) /\ restamped f f' ino /\
    stamped f f' ino i clock.
Proof using Hgeo.
  intros Hr Hv Hino Hb Hi Hi2. unfold save_time.
  destruct (save_restamps s f h v ino n t i clock.1.1 Hr Hv Hino Hb ltac:(lia)) as (s1 & f1 & H1 & Hr1 & R1 & W1). rewrite H1. cbn [mbind option_bind].
  destruct (save_restamps s1 f1 _ v ino n true (i + 1) clock.1.2 Hr1 ltac:(apply lookup_insert_eq) Hino ltac:(apply R1) ltac:(lia)) as (s2 & f2 & H2 & Hr2 & R2 & W2).
  rewrite H2. cbn [mbind option_bind]. rewrite insert_insert_eq in Hr2.
  destruct (save_restamps s2 f2 _ v ino n true (i + 2) clock.2 Hr2 ltac:(apply lookup_insert_eq) Hino ltac:(apply R2) ltac:(lia)) as (s3 & f3 & H3 & Hr3 & R3 & W3).
  rewrite H3. rewrite insert_insert_eq in Hr3. exists s3, f3. split; [done|]. split; [done|].
  assert (R : restamped f f3 ino) by (eapply restamped_trans; [|done]; by eapply restamped_trans). split; [done|]. split; [apply R|].
  intros j Hj. rewrite W3, W2, W1 by done. repeat case_decide; (done || lia).
Qed.

(** The numbers, the file and the file system stay. *)
Lemma restamped_ib f f' ino j : restamped f f' ino -> 0 <= j -> ib f' ino j = ib f ino j.
Proof. intros [_ H _] Hj. unfold ib, wd. rewrite H; [done|]. unfold i_ib. lia. Qed.

Lemma restamped_ptr f f' h ino n : restamped f f' ino -> file f h ino -> 0 <= n < PARTS -> ptr f' ino n = ptr f ino n.
Proof.
  intros Hr Hf Hn. destruct (part_place n Hn) as [Hj _]. unfold ptr. rewrite (restamped_ib f f') by (done || lia).
  destruct (Z.eqb_spec (ib f ino (n / 128)) 0) as [|E]; [done|]. destruct (i_index _ _ _ Hf (n / 128) Hj E) as (_ & _ & _ & Hne).
  unfold wd, TfsBlock.W. rewrite (s_other _ _ _ Hr); [done|congruence].
Qed.

Lemma restamped_file f f' h ino v n t t' : restamped f f' ino -> fsok f h -> file f h ino -> h !! v = Some ((ino, ch), n, t) ->
  fsok f' (<[v := ((ino, ch), n, t')]> h) /\ file f' (<[v := ((ino, ch), n, t')]> h) ino /\ free f' = free f.
Proof using Hgeo.
  intros Hr Hok Hf Hv. destruct (i_self _ _ _ Hf) as [[Hino Hnf] _]. pose proof Hgeo as [G1 G2 G3].
  destruct (fsok_outside f f' h Hok) as [Hok' Hfree]; [intros k [Hk1 Hk2]; apply (s_other _ _ _ Hr); intros ->; simpl in *; lia|].
  split; [eapply fsok_mark; [done|done|lia]|]. split; [|done]. pose proof (λ k, unheld_mark h v (ino, ch) n t t' k Hv) as Hu.
  assert (Hib : forall j, 0 <= j < 113 -> ib f' ino j = ib f ino j) by (intros; by apply restamped_ib; [|lia]).
  assert (Hptr : forall m, 0 <= m < PARTS -> ptr f' ino m = ptr f ino m) by (intros; by eapply restamped_ptr).
  assert (Huse : forall b, inuse f b -> inuse f' b) by (intros b; unfold inuse; by rewrite Hfree).
  destruct Hf as [F1 F2 F3 F4 F5 F6]. split.
  - split; [apply Huse, F1|apply Hr].
  - intros j Hj. rewrite Hib by done. intros Hne. destruct (F2 j Hj Hne) as (A & B & E & F). split; [by apply Huse|].
    rewrite (s_other _ _ _ Hr) by congruence. split; [done|]. split; [by apply Hu|done].
  - intros m Hm. rewrite Hptr by done. intros Hne. destruct (F3 m Hm Hne) as (A & B & E). split; [by apply Huse|]. split; [by apply Hu|done].
  - intros j j' Hj Hj'. rewrite !Hib by done. by apply F4.
  - intros m m' Hm Hm'. rewrite !Hptr by done. by apply F5.
  - intros j m Hj Hm. rewrite Hib, Hptr by done. by apply F6.
Qed.

Lemma restamped_content f f' h ino n : restamped f f' ino -> file f h ino -> 0 <= n < 512 * PARTS -> content f' ino n = content f ino n.
Proof.
  intros Hr Hf Hn. assert (Hp : 0 <= n / 512 < PARTS) by (split; [apply Z.div_pos; lia|apply Z.div_lt_upper_bound; lia]).
  unfold content. rewrite (restamped_ptr f f' h) by done. destruct (Z.eqb_spec (ptr f ino (n / 512)) 0) as [|E]; [done|].
  destruct (i_data _ _ _ Hf _ Hp E) as (_ & _ & Hne). rewrite (s_other _ _ _ Hr); [done|congruence].
Qed.

(** ** Reading *)

Section Read.
Context {C : Type} (copy_out : C -> list Z -> Z * C) (got : C -> list Z) (space : C -> Z).
Context (Hcopy : forall c l, Z.of_nat (length l) <= space c ->
  exists c', copy_out c l = (0, c') /\ got c' = got c ++ l /\ space c' = space c - Z.of_nat (length l)).

(** The loop copies what is there up to the first hole. *)
Lemma read_loop_spec f h v ino n t : file f h ino -> roomy h -> h !! v = Some ((ino, ch), n, t) ->
  forall fuel s dest index skip rest, refines s (Blocks f h) -> 0 <= index -> 0 <= skip < 512 -> 0 <= rest <= space dest ->
    512 * index + skip + rest < 2 ^ 32 -> skip + rest <= 512 * (Z.of_nat fuel - 1) ->
  exists r rest' dest' s', read_loop copy_out fuel s fs v dest 512 index skip rest = Some (r, rest', dest', s') /\ refines s' (Blocks f h) /\
    0 <= rest' <= rest /\ got dest' = got dest ++ stretch f ino (512 * index + skip) (rest - rest') /\ space dest' = space dest - (rest - rest') /\
    (r = 0 /\ rest' = 0 \/ r = EIO /\ 0 < rest' /\ content f ino (512 * index + skip + (rest - rest')) = None).
Proof using Hgeo Hcopy.
  intros Hf Hroom Hv. pose proof Hgeo as [G1 G2 G3].
  induction fuel as [|fuel IH]; intros s dest index skip rest Hr Hi Hs Hrest Hbig Hfuel; [lia|]. cbn [read_loop].
  destruct (Z.ltb_spec 0 rest) as [Hpos|Hz].
  2:{ assert (rest = 0) as -> by lia. exists 0, 0, dest, s. split; [done|]. split; [done|]. split; [lia|]. split; [by rewrite app_nil_r|]. split; [lia|]. by left. }
  destruct (get_block_no_spec s f h v ino n t index Hr Hf Hv Hi) as (b & s1 & Hg & Hr1 & Hb). rewrite Hg. cbn [mbind option_bind].
  destruct Hb as [Hb|[_ Hw]]; [|by destruct (roomy_serves f h Hroom)].
  assert (Hplace : (512 * index + skip) / 512 = index) by (symmetry; apply Z.div_unique with skip; lia).
  destruct (Z.eqb_spec b 0) as [->|Hb0].
  { exists EIO, rest, dest, s1. split; [done|]. split; [done|]. split; [lia|]. rewrite Z.sub_diag. split; [by rewrite app_nil_r|]. split; [lia|]. right.
    split; [done|]. split; [done|]. rewrite Z.add_0_r. unfold content. rewrite Hplace. destruct (Z.ltb_spec index PARTS) as [Hlt|Hge].
    - by rewrite <- Hb.
    - assert (Hdiv : 113 <= index / 128) by (apply Z.div_le_lower_bound; unfold PARTS in Hge; lia).
      assert (ib f ino (index / 128) = 0) as Hib.
      { unfold ib, wd. rewrite lookup_ge_None_2; [done|]. destruct (i_self _ _ _ Hf) as [[? _] _].
        unfold TfsBlock.W. rewrite (length_words_of _ 128 (blk_len ch maps total Hgeo s1 f h ino Hr1 ltac:(lia))). unfold i_ib. lia. }
      unfold ptr. by rewrite Hib. }
  destruct (Z.ltb_spec index PARTS) as [Hlt|]; [|done]. rewrite Hb in *.
  destruct (i_data _ _ _ Hf index ltac:(lia) Hb0) as ([Hbr _] & Hbu & _).
  destruct (get_spec s1 f h ch (ptr f ino index) Hr1 ltac:(apply G3; lia) ltac:(lia) Hbu) as (q & s2 & Hg2 & Hr2).
  change (channel fs) with ch. rewrite Hg2. cbn [mbind option_bind]. destruct q as [q|].
  2:{ destruct Hr2 as [_ Hw]. by destruct (roomy_serves f h Hroom). }
  destruct Hr2 as [Hr2 Hq]. rewrite (buffer_spec s2 _ q (ptr f ino index, ch) 1 false Hr2) by (apply lookup_insert_eq). cbn [mbind option_bind blk].
  pose proof (blk_len ch maps total Hgeo s2 f _ (ptr f ino index) Hr2 ltac:(lia)) as Hlen.
  rewrite (u32_small (512 - skip)) by (unfold is_u32; lia). set (len := if rest <? 512 - skip then rest else 512 - skip).
  assert (Hlen' : 0 < len <= rest /\ skip + len <= 512 /\ (len = rest \/ len = 512 - skip)) by (unfold len; destruct (Z.ltb_spec rest (512 - skip)); lia).
  rewrite (proj2 (Z.ltb_ge _ (skip + len))) by lia.
  rewrite (stretch_piece f ino index skip len) by (done || lia).
  destruct (Hcopy dest (stretch f ino (512 * index + skip) len)) as (dest1 & Hc & Hgot & Hsp); rewrite length_stretch in *; [lia|]. rewrite Hc. cbn [negb]. change (0 =? 0) with true. cbn [negb].
  destruct (give_back_spec s2 f h q _ false false Hr2 Hq ltac:(by left)) as (s3 & Hs3 & Hr3). rewrite Hs3. cbn [mbind option_bind negb].
  rewrite (u32_small (index + 1)) by (unfold is_u32; lia).
  destruct (decide (len = rest)) as [E|E].
  - rewrite E, Z.sub_diag. destruct fuel as [|fuel].
    { exfalso. lia. }
    cbn [read_loop]. change (0 <? 0) with false. cbn iota. exists 0, 0, dest1, s3. split; [done|]. split; [done|]. split; [lia|].
    rewrite E in Hgot. rewrite Z.sub_0_r. split; [done|]. split; [lia|]. by left.
  - assert (Hfull : len = 512 - skip) by lia.
    destruct (IH s3 dest1 (index + 1) 0 (rest - len) Hr3 ltac:(lia) ltac:(lia) ltac:(lia) ltac:(lia) ltac:(lia)) as (r & rest' & dest' & s' & Hrl & Hr' & Hle & Hg' & Hsp' & Hres).
    rewrite Hrl. exists r, rest', dest', s'. split; [done|]. split; [done|]. split; [lia|]. split; [|split; [lia|]].
    + rewrite Hg', Hgot, <- app_assoc. f_equal. replace (rest - rest') with (len + (rest - len - rest')) by lia. rewrite stretch_app by lia. do 2 f_equal. lia.
    + destruct Hres as [?|(? & ? & Hc')]; [by left|right]. split; [done|]. split; [done|]. rewrite <- Hc'. f_equal. lia.
Qed.

Lemma file_turns_enough nbytes : 0 <= nbytes -> 511 + nbytes <= 512 * (Z.of_nat (turns nbytes) - 1).
Proof.
  intros Hn. unfold turns. change block_size with 512. pose proof (Z.div_mod nbytes 512). pose proof (Z.mod_pos_bound nbytes 512). lia.
Qed.

(** [tfs_read] copies the bytes of the file up to the first hole. *)
Lemma tfs_read_spec s f h v ino n t vnode dest offset nbytes clock : refines s (Blocks f h) -> fsok f h -> file f h ino -> roomy h ->
  h !! v = Some ((ino, ch), n, t) -> v_private vnode = Some v -> 0 <= offset -> 0 <= nbytes <= space dest -> offset + nbytes < 2 ^ 32 ->
  exists r size dest' s' f' t', tfs_read copy_out s fs vnode dest offset nbytes clock =
      Some (r, size, dest', (if nbytes =? 0 then vnode else set_v_dirty vnode true), s') /\
    refines s' (Blocks f' (<[v := ((ino, ch), n, t')]> h)) /\ restamped f f' ino /\ (if nbytes =? 0 then f' = f else stamped f f' ino i_atime clock) /\ 0 <= size <= nbytes /\
    got dest' = got dest ++ stretch f ino offset size /\ space dest' = space dest - size /\
    (r = 0 /\ size = nbytes \/ r = EIO /\ size < nbytes /\ content f ino (offset + size) = None).
Proof using Hgeo Hcopy.
  intros Hr Hok Hf Hroom Hv Hvp Hoff Hnb Hbig. pose proof Hgeo as [G1 G2 G3]. destruct (f_super _ _ _ _ _ _ Hok) as [m Hp]. destruct (f_geo _ _ _ _ _ _ Hok) as (_ & _ & E2 & E4 & _).
  destruct (i_self _ _ _ Hf) as [[Hino _] Hinob]. unfold tfs_read. cbn [private TfsBlock.fs mbind option_bind].
  rewrite (super_load ch maps total p Hgeo s f h m false fs_bshift 9 Hr Hp E4) by (done || lia). cbn [mbind option_bind].
  assert (shr offset 9 = Some (offset / 512)) as -> by (unfold shr; rewrite decide_True by lia; by rewrite Z.shiftr_div_pow2 by lia).
  cbn [mbind option_bind]. change (mask 9) with (Some 511). cbn [mbind option_bind].
  rewrite (super_load ch maps total p Hgeo s f h m false fs_bsize 512 Hr Hp E2) by (done || lia). cbn [mbind option_bind]. rewrite Hvp. cbn [mbind option_bind].
  change (u32 512) with 512. change 511 with (Z.ones 9). rewrite Z.land_ones by lia. change (2 ^ 9) with 512.
  pose proof (Z.mod_pos_bound offset 512 ltac:(lia)) as Hm. pose proof (Z.div_mod offset 512 ltac:(lia)) as Hd. pose proof (file_turns_enough nbytes ltac:(lia)) as Ht.
  destruct (read_loop_spec f h v ino n t Hf Hroom Hv (turns nbytes) s dest (offset / 512) (offset mod 512) nbytes Hr) as (r & rest & dest' & s1 & Hrl & Hr1 & Hle & Hg & Hsp & Hres);
    [apply Z.div_pos; lia|done|done|lia|lia|].
  rewrite Hrl. cbn [mbind option_bind]. rewrite <- Hd in Hg, Hres.
  assert (Hfin : r = 0 /\ nbytes - rest = nbytes \/ r = EIO /\ nbytes - rest < nbytes /\ content f ino (offset + (nbytes - rest)) = None).
  { destruct Hres as [[-> ->]|(-> & ? & ?)]; [left; lia|right]. split; [done|]. split; [lia|done]. }
  destruct (Z.eqb_spec nbytes 0) as [->|Hnz]; cbn [negb].
  - cbn [mbind option_bind]. exists r, (0 - rest), dest', s1, f, t. split; [done|]. rewrite (insert_id h v) by done. do 2 (split; [done|]). split; [done|]. split; [lia|]. done.
  - destruct (save_time_spec s1 f h v ino n t i_atime clock Hr1 Hv ltac:(lia) Hinob ltac:(done) ltac:(done)) as (s2 & f' & Hs2 & Hr2 & Hst & Hst').
    rewrite Hs2. cbn [mbind option_bind]. exists r, (nbytes - rest), dest', s2, f', true. do 3 (split; [done|]). split; [done|]. split; [lia|]. done.
Qed.

End Read.

(** ** Growing *)

Lemma file_frame f f' h ino : file f h ino -> free f' ⊆ free f -> f' (ino, ch) = f (ino, ch) ->
  (forall j, 0 <= j < 113 -> ib f ino j ≠ 0 -> f' (ib f ino j, ch) = f (ib f ino j, ch)) ->
  file f' h ino /\ (forall j, ib f' ino j = ib f ino j) /\ (forall m, 0 <= m < PARTS -> ptr f' ino m = ptr f ino m).
Proof.
  intros Hf Hfr Hi Hx. assert (Hib : forall j, ib f' ino j = ib f ino j) by (intros j; unfold ib, wd, TfsBlock.W; by rewrite Hi).
  assert (Hptr : forall m, 0 <= m < PARTS -> ptr f' ino m = ptr f ino m).
  { intros m Hm. destruct (part_place m Hm) as [Hj _]. unfold ptr. rewrite Hib. destruct (Z.eqb_spec (ib f ino (m / 128)) 0) as [|E]; [done|].
    unfold wd, TfsBlock.W. by rewrite Hx. }
  assert (Huse : forall b, inuse f b -> inuse f' b) by (intros b [Hb Hn]; split; [done|]; intros H; by apply Hn, Hfr).
  split; [|done]. destruct Hf as [F1 F2 F3 F4 F5 F6]. split.
  - split; [apply Huse, F1|rewrite Hi; apply F1].
  - intros j Hj. rewrite Hib. intros Hne. destruct (F2 j Hj Hne) as (A & B & E). split; [by apply Huse|]. by rewrite Hx.
  - intros m Hm. rewrite Hptr by done. intros Hne. destruct (F3 m Hm Hne) as (A & B). split; [by apply Huse|done].
  - intros j j' Hj Hj'. rewrite !Hib. by apply F4.
  - intros m m' Hm Hm'. rewrite !Hptr by done. by apply F5.
  - intros j m Hj Hm. rewrite Hib, Hptr by done. by apply F6.
Qed.

(** What writing to a file does to the rest of the disk. *)
Record grown f f' ino : Prop := {
  w_free : free f' ⊆ free f;
  w_frame b : inuse f b -> ~ owned f ino b -> f' (b, ch) = f (b, ch);
  w_other k : k.2 ≠ ch -> f' k = f k;
  w_owned b : owned f' ino b -> owned f ino b \/ b ∈ free f;
  w_ptr m : 0 <= m < PARTS -> ptr f ino m ≠ 0 -> ptr f' ino m = ptr f ino m;
}.

Lemma growth_refl f ino : grown f f ino.
Proof. split; auto. Qed.

Lemma growth_trans f g k ino : grown f g ino -> grown g k ino -> grown f k ino.
Proof.
  intros [A1 A2 A3 A4 A5] [B1 B2 B3 B4 B5]. split.
  - by etrans.
  - intros b Hb Ho. rewrite B2; [by apply A2| |].
    + destruct Hb as [Hb Hn]. split; [done|]. intros H. by apply Hn, A1.
    + intros H. destruct (A4 b H) as [|Hf]; [done|]. by apply Hb.
  - intros x Hx. by rewrite B3, A3.
  - intros b Hb. destruct (B4 b Hb) as [H|H]; [by apply A4|]. right. by apply A1.
  - intros m Hm Hne. rewrite B5; [by apply A5|done|]. by rewrite A5.
Qed.

Lemma owned_same f f' ino b : (forall j, ib f' ino j = ib f ino j) -> (forall m, 0 <= m < PARTS -> ptr f' ino m = ptr f ino m) ->
  owned f' ino b -> owned f ino b.
Proof.
  intros Hib Hptr [->|[(j & Hj & E & Hne)|(m & Hm & E & Hne)]]; [by left| |].
  - right. left. exists j. by rewrite <- Hib.
  - right. right. exists m. by rewrite <- Hptr.
Qed.

(** Taking a free block leaves the file alone. *)
Lemma file_took f f' h ino b : file f h ino -> took ch maps total f f' b ->
  file f' h ino /\ grown f f' ino /\ (forall m, 0 <= m < PARTS -> ptr f' ino m = ptr f ino m) /\ ~ owned f' ino b /\ inuse f' b.
Proof.
  intros Hf Ht. pose proof (t_left _ _ _ _ _ _ Ht) as Hl. pose proof (t_range _ _ _ _ _ _ Ht) as Hr.
  assert (Hsub : free f' ⊆ free f) by (intros y; rewrite Hl, elem_of_difference; tauto).
  destruct (file_frame f f' h ino Hf Hsub) as (Hf' & Hib & Hptr).
  { apply (took_same f f' b); [done|]. apply (i_self _ _ _ Hf). }
  { intros j Hj Hne. apply (took_same f f' b); [done|]. by apply (i_index _ _ _ Hf j Hj Hne). }
  split; [done|]. split; [|split; [done|split]].
  - split; [done| | | |].
    + intros x Hx _. by apply (took_same f f' b).
    + intros k Hk. apply (t_same _ _ _ _ _ _ Ht). intros [? _]. done.
    + intros x Hx. left. by apply (owned_same f f').
    + intros m Hm _. by apply Hptr.
  - intros Ho. assert (Hin : inuse f b -> False) by (intros [_ H]; by apply H, Ht).
    destruct (owned_same f f' ino b Hib Hptr Ho) as [->|[(j & Hj & E & Hne)|(m & Hm & E & Hne)]]; apply Hin; [apply (i_self _ _ _ Hf)| |].
    + rewrite <- E. apply (i_index _ _ _ Hf j Hj). congruence.
    + rewrite <- E. apply (i_data _ _ _ Hf m Hm). congruence.
  - split; [done|]. rewrite Hl, elem_of_difference, elem_of_singleton. tauto.
Qed.

Lemma linked_grown f f' ino nth new g : linked f f' ino nth new -> ptr f ino nth = 0 -> grown g f ino -> new ∈ free g -> grown g f' ino.
Proof.
  intros [L1 L2 L3 L4 L5 L6] Hp [A1 A2 A3 A4 A5] Hnew. split.
  - by etrans.
  - intros b Hb Ho. rewrite L2; [by apply A2| |].
    + destruct Hb as [Hb Hn]. split; [done|]. intros H. by apply Hn, A1.
    + intros H. destruct (A4 b H) as [|Hf]; [done|]. by apply Hb.
  - intros x Hx. by rewrite L4, A3.
  - intros b Hb. destruct (L5 b Hb) as [H|[H| ->]]; [by apply A4|right; by apply A1|by right].
  - intros m Hm Hne. rewrite L6 by done. case_decide; [subst m; rewrite A5 in Hp by done; congruence|by apply A5].
Qed.

(** The block for a part of the file: the one it has, or a new one. *)
Lemma part_spec s f h v ino n t nth : refines s (Blocks f h) -> fsok f h -> file f h ino -> roomy h -> h !! v = Some ((ino, ch), n, t) -> 0 <= nth < 2 ^ 32 ->
  exists r s' f' t', ('(b, s) ← tfs_get_block_no s fs v nth;
      if b =? 0 then '(b, s) ← tfs_allocate_block s fs; tfs_set_block_no s fs v nth b else Some (b, s)) = Some (r, s') /\
    refines s' (Blocks f' (<[v := ((ino, ch), n, t')]> h)) /\ fsok f' (<[v := ((ino, ch), n, t')]> h) /\ file f' (<[v := ((ino, ch), n, t')]> h) ino /\
    grown f f' ino /\ (forall m, 0 <= m < PARTS -> ptr f ino m ≠ 0 -> f' (ptr f ino m, ch) = f (ptr f ino m, ch)) /\
    (r = 0 /\ (forall m, 0 <= m < PARTS -> ptr f' ino m = ptr f ino m) /\ (PARTS <= nth \/ (stdpp.base.size (usable ch maps total f) <= 1)%nat) \/
     r ≠ 0 /\ nth < PARTS /\ forall m, 0 <= m < PARTS -> ptr f' ino m = if decide (m = nth) then r else ptr f ino m).
Proof using Hgeo.
  intros Hr Hok Hf Hroom Hv Hn. pose proof Hgeo as [G1 G2 G3]. pose proof (insert_id h v _ Hv) as Hid.
  destruct (get_block_no_spec s f h v ino n t nth Hr Hf Hv ltac:(lia)) as (b & s1 & Hg & Hr1 & Hb). rewrite Hg. cbn [mbind option_bind].
  destruct Hb as [Hb|[_ Hw]]; [|by destruct (roomy_serves f h Hroom)]. destruct (Z.eqb_spec b 0) as [Hb0|Hb0].
  2:{ exists b, s1, f, t. rewrite Hid. split; [done|]. split; [done|]. split; [done|]. split; [done|]. split; [apply growth_refl|]. split; [done|].
      right. split; [done|]. destruct (Z.ltb_spec nth PARTS); [|done]. split; [done|]. intros m Hm. by case_decide; subst. }
  destruct (allocate_spec ch maps total p Hgeo s1 f h Hok Hr1) as (new & s2 & Ha & Hal). rewrite Ha. cbn [mbind option_bind].
  destruct Hal as [(-> & Hr2 & Hw)|(f1 & Hr2 & Ht & Hok1)].
  { destruct Hw as [Hw|Hw]; [|by destruct (roomy_serves f h Hroom)]. exists 0, s2, f, t. rewrite Hid.
    assert (tfs_set_block_no s2 fs v nth 0 = Some (0, s2)) as -> by (unfold tfs_set_block_no; by destruct (is_valid_nth nth)).
    split; [done|]. split; [done|]. split; [done|]. split; [done|]. split; [apply growth_refl|]. split; [done|]. left. split; [done|]. split; [done|].
    right. rewrite Hw, size_empty. lia. }
  destruct (file_took f f1 h ino new Hf Ht) as (Hf1 & Hgr & Hptr & Hown & Huse).
  assert (Hdata : forall m, 0 <= m < PARTS -> ptr f ino m ≠ 0 -> f1 (ptr f ino m, ch) = f (ptr f ino m, ch)).
  { intros m Hm Hne. apply (took_same f f1 new); [done|]. by apply (i_data _ _ _ Hf m Hm Hne). }
  destruct (Z.ltb_spec nth PARTS) as [Hlt|Hge].
  2:{ exists 0, s2, f1, t. rewrite Hid. assert (tfs_set_block_no s2 fs v nth new = Some (0, s2)) as ->.
      { unfold tfs_set_block_no. rewrite valid_nth, (proj2 (Z.ltb_ge nth PARTS)) by done. done. }
      split; [done|]. split; [done|]. split; [done|]. split; [done|]. split; [done|]. split; [done|]. left. split; [done|]. split; [done|]. by left. }
  assert (Hp0 : ptr f1 ino nth = 0) by (rewrite Hptr by lia; congruence).
  assert (Hun : unheld h (new, ch)) by (apply (free_unheld f); [done|apply Ht]).
  destruct (set_block_no_spec s2 f1 h v ino n t nth new Hr2 Hok1 Hf1 Hroom Hv ltac:(lia) Hp0 Huse Hun Hown) as (r & s3 & Hs & Hres).
  rewrite Hs. destruct Hres as [(-> & Hr3 & Hu)|(-> & f2 & t' & Hr3 & Hok3 & Hf3 & Hl)].
  - exists 0, s3, f1, t. rewrite Hid. split; [done|]. split; [done|]. split; [done|]. split; [done|]. split; [done|]. split; [done|]. left. split; [done|]. split; [done|].
    right. pose proof (usable_took ch maps total Hgeo f f1 new (t_free _ _ _ _ _ _ Ht) ltac:(destruct Ht; lia) (t_left _ _ _ _ _ _ Ht)) as E. rewrite Hu, size_empty in E. lia.
  - exists new, s3, f2, t'. split; [done|]. split; [done|]. split; [done|]. split; [done|].
    split; [eapply linked_grown; [done|done|done|apply Ht]|]. split.
    + intros m Hm Hne. rewrite <- Hdata, <- Hptr by done. apply (l_data _ _ _ _ _ Hl m Hm). by rewrite Hptr.
    + right. split; [destruct Huse; lia|]. split; [lia|]. intros m Hm. rewrite (l_ptr _ _ _ _ _ Hl) by done. case_decide; [done|by apply Hptr].
Qed.

Lemma restamped_grown f f' h ino : restamped f f' ino -> file f h ino -> fsok f h -> grown f f' ino.
Proof using Hgeo.
  intros Hr Hf Hok. destruct (i_self _ _ _ Hf) as [[Hino Hnf] _].
  destruct (fsok_outside f f' h Hok) as [_ Hfree]; [intros k [Hk1 Hk2]; apply (s_other _ _ _ Hr); intros ->; simpl in *; lia|]. split.
  - by rewrite Hfree.
  - intros b _ Hb. apply (s_other _ _ _ Hr). intros [= ->]. by apply Hb, owned_self.
  - intros k Hk. apply (s_other _ _ _ Hr). by intros ->.
  - intros b [->|[(j & Hj & E & Hne)|(m & Hm & E & Hne)]]; left; [by left| |].
    + rewrite (restamped_ib f f') in E by (done || lia). right. left. by exists j.
    + rewrite (restamped_ptr f f' h) in E by done. right. right. by exists m.
  - intros m Hm _. by apply (restamped_ptr f f' h).
Qed.

(** ** Writing *)

(** A data block changes. *)
Lemma data_update f h ino index l : fsok f h -> file f h ino -> 0 <= index < PARTS -> ptr f ino index ≠ 0 ->
  let f' := fupd f (ptr f ino index, ch) l in
  fsok f' h /\ file f' h ino /\ grown f f' ino /\ (forall m, 0 <= m < PARTS -> ptr f' ino m = ptr f ino m) /\ free f' = free f.
Proof using Hgeo.
  intros Hok Hf Hi Hne f'. set (b := ptr f ino index) in *. destruct (i_data _ _ _ Hf index Hi Hne) as ([Hb Hnf] & Hu & Hbi). fold b in Hb, Hnf, Hu, Hbi.
  destruct (fsok_outside f f' h Hok) as [Hok' Hfree]; [intros k [Hk1 Hk2]; apply fupd_ne; intros ->; simpl in *; lia|].
  destruct (file_frame f f' h ino Hf) as (Hf' & Hib & Hptr).
  { by rewrite Hfree. }
  { apply fupd_ne. congruence. }
  { intros j Hj Hx. apply fupd_ne. intros [= E]. apply Hne. by apply (i_apart _ _ _ Hf j index). }
  split; [done|]. split; [done|]. split; [|done]. split.
  - by rewrite Hfree.
  - intros x _ Hx. apply fupd_ne. intros [= ->]. apply Hx. right. right. by exists index.
  - intros k Hk. apply fupd_ne. by intros ->.
  - intros x Hx. left. by apply (owned_same f f').
  - intros m Hm _. by apply Hptr.
Qed.

(** The contents after one block was written. *)
Lemma content_update f f' ino index skip data : 0 <= index < PARTS -> 0 <= skip -> skip + Z.of_nat (length data) <= 512 ->
  ptr f ino index ≠ 0 -> length (f (ptr f ino index, ch)) = 512%nat ->
  (forall m, 0 <= m < PARTS -> ptr f' ino m = ptr f ino m) ->
  (forall m, 0 <= m < PARTS -> m ≠ index -> ptr f ino m ≠ 0 -> f' (ptr f ino m, ch) = f (ptr f ino m, ch)) ->
  f' (ptr f ino index, ch) = splice (f (ptr f ino index, ch)) (Z.to_nat skip) data ->
  forall pos, 0 <= pos < 512 * PARTS -> content f' ino pos =
    if decide (512 * index + skip <= pos < 512 * index + skip + Z.of_nat (length data)) then data !! Z.to_nat (pos - (512 * index + skip)) else content f ino pos.
Proof.
  intros Hi Hs Hsl Hne Hlen Hptr Hsame Hnew pos Hpos.
  assert (Hp : 0 <= pos / 512 < PARTS) by (split; [apply Z.div_pos; lia|apply Z.div_lt_upper_bound; lia]).
  pose proof (Z.div_mod pos 512 ltac:(lia)) as Hd. pose proof (Z.mod_pos_bound pos 512 ltac:(lia)) as Hm. unfold content. rewrite Hptr by done.
  destruct (decide (pos / 512 = index)) as [E|E].
  - rewrite E, (proj2 (Z.eqb_neq _ 0)) by done. rewrite Hnew, splice_lookup by lia. destruct (decide (512 * index + skip <= pos < _)) as [Hin|Hout].
    + rewrite decide_True by lia. f_equal. lia.
    + rewrite decide_False by lia. done.
  - rewrite decide_False by lia. destruct (Z.eqb_spec (ptr f ino (pos / 512)) 0); [done|]. by rewrite Hsame.
Qed.

Section Write.
Context {C : Type} (copy_in : C -> Z -> Z * list Z * C) (left : C -> list Z) (good : C -> Prop).
Context (Hfetch : forall c len, good c -> 0 <= len <= Z.of_nat (length (left c)) ->
  exists c', copy_in c len = (0, take (Z.to_nat len) (left c), c') /\ left c' = drop (Z.to_nat len) (left c) /\ good c').

(** The file holds [data] from [start] on, and what it held elsewhere. *)
Record wrote f f' ino (start : Z) (data : list Z) : Prop := {
  o_new i : (i < length data)%nat -> content f' ino (start + Z.of_nat i) = data !! i;
  o_old pos : 0 <= pos < 512 * PARTS -> content f ino pos ≠ None -> ~ start <= pos < start + Z.of_nat (length data) -> content f' ino pos = content f ino pos;
}.

(** One turn of the loop: a block is found or added, and written to. *)
Lemma write_turn s f h v ino n t src index skip len : refines s (Blocks f h) -> fsok f h -> file f h ino -> roomy h -> h !! v = Some ((ino, ch), n, t) ->
  0 <= index < 2 ^ 32 -> 0 <= skip -> 0 < len <= Z.of_nat (length (left src)) -> skip + len <= 512 -> good src ->
  exists r s' f' t', ('(b, s) ← tfs_get_block_no s fs v index;
      if b =? 0 then '(b, s) ← tfs_allocate_block s fs; tfs_set_block_no s fs v index b else Some (b, s)) = Some (r, s') /\
    refines s' (Blocks f' (<[v := ((ino, ch), n, t')]> h)) /\ fsok f' (<[v := ((ino, ch), n, t')]> h) /\ file f' (<[v := ((ino, ch), n, t')]> h) ino /\ grown f f' ino /\
    (r = 0 /\ (PARTS <= index \/ (stdpp.base.size (usable ch maps total f) <= 1)%nat) /\ wrote f f' ino (512 * index + skip) [] \/
     r ≠ 0 /\ exists q s2 l src' s3 s4 f2, cache_get s' ch r = Some (Some q, s2) /\ buffer s2 q = Some l /\
       copy_in src len = (0, take (Z.to_nat len) (left src), src') /\ left src' = drop (Z.to_nat len) (left src) /\ good src' /\ length l = 512%nat /\
       write_buffer s2 q (splice l (Z.to_nat skip) (take (Z.to_nat len) (left src))) = Some s3 /\ cache_release s3 (Some q) true = Some (true, s4) /\
       refines s4 (Blocks f2 (<[v := ((ino, ch), n, t')]> h)) /\ fsok f2 (<[v := ((ino, ch), n, t')]> h) /\ file f2 (<[v := ((ino, ch), n, t')]> h) ino /\
       grown f f2 ino /\ wrote f f2 ino (512 * index + skip) (take (Z.to_nat len) (left src)) /\ index < PARTS).
Proof using Hgeo Hfetch.
  intros Hr Hok Hf Hroom Hv Hi Hs Hlen Hsl Hgood. pose proof Hgeo as [G1 G2 G3].
  destruct (part_spec s f h v ino n t index Hr Hok Hf Hroom Hv Hi) as (r & s1 & f1 & t' & Hpart & Hr1 & Hok1 & Hf1 & Hgr & Hdata & Hres).
  exists r, s1, f1, t'. split; [done|]. split; [done|]. split; [done|]. split; [done|]. split; [done|]. set (h' := <[v := ((ino, ch), n, t')]> h) in *.
  assert (Hkeep : forall pos, 0 <= pos < 512 * PARTS -> content f ino pos ≠ None -> ptr f1 ino (pos / 512) = ptr f ino (pos / 512) /\
    f1 (ptr f ino (pos / 512), ch) = f (ptr f ino (pos / 512), ch)).
  { intros pos Hpos Hc. assert (Hp : 0 <= pos / 512 < PARTS) by (split; [apply Z.div_pos; lia|apply Z.div_lt_upper_bound; lia]). unfold content in Hc.
    destruct (Z.eqb_spec (ptr f ino (pos / 512)) 0) as [|Hz]; [done|]. split; [by apply (w_ptr _ _ _ Hgr)|by apply Hdata]. }
  assert (Hold : forall pos, 0 <= pos < 512 * PARTS -> content f ino pos ≠ None -> content f1 ino pos = content f ino pos).
  { intros pos Hpos Hc. destruct (Hkeep pos Hpos Hc) as [E1 E2]. unfold content. by rewrite E1, E2. }
  destruct Hres as [(-> & Hptr & Hwhy)|(Hr0 & Hlt & Hptr)].
  { left. split; [done|]. split; [done|]. split; [intros i Hi'; simpl in Hi'; lia|]. intros pos Hpos Hc _. by apply Hold. }
  right. split; [done|]. assert (Hpi : ptr f1 ino index = r) by (rewrite Hptr by lia; by rewrite decide_True).
  destruct (i_data _ _ _ Hf1 index ltac:(lia) ltac:(by rewrite Hpi)) as ([Hbr _] & Hbu & _). rewrite Hpi in Hbr, Hbu.
  destruct (get_spec s1 f1 h' ch r Hr1 ltac:(apply G3; lia) ltac:(lia) Hbu) as (q & s2 & Hg & Hr2). destruct q as [q|].
  2:{ destruct Hr2 as [_ Hw]. by destruct (roomy_serves f1 h' (roomy_mark h v _ n t t' Hroom Hv)). }
  destruct Hr2 as [Hr2 Hq]. pose proof (blk_len ch maps total Hgeo s2 f1 _ r Hr2 ltac:(lia)) as Hl. set (data := take (Z.to_nat len) (left src)).
  assert (Hld : length data = Z.to_nat len) by (unfold data; rewrite length_take; lia).
  destruct (Hfetch src len Hgood ltac:(lia)) as (src' & Hc & Hsrc' & Hgood').
  assert (Hls : length (splice (f1 (r, ch)) (Z.to_nat skip) data) = 512%nat) by (rewrite length_splice; lia).
  destruct (store_spec s2 f1 _ q (r, ch) 1 false _ Hr2 ltac:(apply lookup_insert_eq) Hls) as (s3 & Hs3 & Hr3). rewrite insert_insert_eq in Hr3.
  destruct (give_back_spec s3 _ h' q (r, ch) true true Hr3 Hq ltac:(by right)) as (s4 & Hs4 & Hr4).
  destruct (data_update f1 h' ino index (splice (f1 (r, ch)) (Z.to_nat skip) data) Hok1 Hf1 ltac:(lia) ltac:(by rewrite Hpi)) as (Hok2 & Hf2 & Hgr2 & Hptr2 & _).
  rewrite Hpi in *. eexists q, s2, (f1 (r, ch)), src', s3, s4, _. split; [done|]. split; [exact (buffer_spec s2 _ q (r, ch) 1 false Hr2 ltac:(apply lookup_insert_eq))|].
  split; [done|]. split; [done|]. split; [done|]. split; [done|]. split; [done|]. split; [done|]. split; [done|]. split; [done|]. split; [done|]. split; [by eapply growth_trans|]. split; [|done].
  pose proof (content_update f1 (fupd f1 (r, ch) (splice (f1 (r, ch)) (Z.to_nat skip) data)) ino index skip data ltac:(lia) Hs ltac:(lia)) as Hcu. rewrite Hpi in Hcu.
  specialize (Hcu Hr0 Hl Hptr2). assert (Hsame : forall m, 0 <= m < PARTS -> m ≠ index -> ptr f1 ino m ≠ 0 ->
    fupd f1 (r, ch) (splice (f1 (r, ch)) (Z.to_nat skip) data) (ptr f1 ino m, ch) = f1 (ptr f1 ino m, ch)).
  { intros m Hm Hmi Hmz. apply fupd_ne. intros [= E]. apply Hmi. apply (i_ptr_inj _ _ _ Hf1 m index Hm ltac:(lia)); [congruence|done]. }
  specialize (Hcu Hsame ltac:(apply fupd_eq)). split.
  - intros i Hi'. rewrite Hcu by (unfold PARTS in *; lia). rewrite decide_True by lia. f_equal. lia.
  - intros pos Hpos Hc' Hout. rewrite Hcu by done. rewrite decide_False by done. by apply Hold.
Qed.

Lemma wrote_trans f g k ino start d1 d2 : wrote f g ino start d1 -> wrote g k ino (start + Z.of_nat (length d1)) d2 ->
  0 <= start -> start + Z.of_nat (length d1) <= 512 * PARTS -> wrote f k ino start (d1 ++ d2).
Proof.
  intros [A1 A2] [B1 B2] Hs Hb. split.
  - intros i Hi. rewrite length_app in Hi. destruct (decide (i < length d1)%nat) as [Hlt|Hge].
    + rewrite lookup_app_l by done. rewrite B2; [by apply A1|lia| |lia]. rewrite A1 by done. by destruct (lookup_lt_is_Some_2 d1 i Hlt) as [x ->].
    + rewrite lookup_app_r by lia. rewrite <- B1 by lia. f_equal. lia.
  - intros pos Hpos Hc Hout. rewrite length_app in Hout. rewrite B2; [apply A2; [done|done|lia]|done| |lia]. rewrite A2; [done|done|done|lia].
Qed.

(** The loop writes all, or as far as there is room. *)
Lemma write_loop_spec v ino n : forall fuel s f h t src index skip rest, refines s (Blocks f h) -> fsok f h -> file f h ino -> roomy h ->
    h !! v = Some ((ino, ch), n, t) -> 0 <= index -> 0 <= skip < 512 -> 0 <= rest <= Z.of_nat (length (left src)) ->
    512 * index + skip + rest < 2 ^ 32 -> skip + rest <= 512 * (Z.of_nat fuel - 1) -> good src ->
  exists r rest' src' s' f' t', write_loop copy_in fuel s fs v src 512 index skip rest = Some (r, Some rest', src', s') /\
    refines s' (Blocks f' (<[v := ((ino, ch), n, t')]> h)) /\ fsok f' (<[v := ((ino, ch), n, t')]> h) /\ file f' (<[v := ((ino, ch), n, t')]> h) ino /\
    good src' /\ grown f f' ino /\ 0 <= rest' <= rest /\ wrote f f' ino (512 * index + skip) (take (Z.to_nat (rest - rest')) (left src)) /\
    (r = 0 /\ rest' = 0 \/ r = EIO /\ 0 < rest' /\
      (512 * PARTS <= 512 * index + skip + (rest - rest') \/ (stdpp.base.size (usable ch maps total f') <= 1)%nat)).
Proof using Hgeo Hfetch.
  pose proof Hgeo as [G1 G2 G3].
  induction fuel as [|fuel IH]; intros s f h t src index skip rest Hr Hok Hf Hroom Hv Hi Hs Hrest Hbig Hfuel Hgood; [lia|]. cbn [write_loop].
  destruct (Z.ltb_spec 0 rest) as [Hpos|Hz].
  2:{ assert (rest = 0) as -> by lia. exists 0, 0, src, s, f, t. rewrite (insert_id h v) by done. split; [done|]. split; [done|]. split; [done|]. split; [done|]. split; [done|].
      split; [apply growth_refl|]. split; [lia|]. split; [|by left]. split; [intros i Hi'; simpl in Hi'; lia|done]. }
  rewrite (u32_small (512 - skip)) by (unfold is_u32; lia). set (len := if rest <? 512 - skip then rest else 512 - skip).
  assert (Hlen : 0 < len <= rest /\ skip + len <= 512 /\ (len = rest \/ len = 512 - skip)) by (unfold len; destruct (Z.ltb_spec rest (512 - skip)); lia).
  destruct (write_turn s f h v ino n t src index skip len Hr Hok Hf Hroom Hv ltac:(lia) ltac:(lia) ltac:(lia) ltac:(lia) Hgood)
    as (b & s1 & f1 & t1 & Hpart & Hr1 & Hok1 & Hf1 & Hgr & Hres).
  destruct (tfs_get_block_no s fs v index) as [[b0 s0]|] eqn:E0; [|done]. cbn [mbind option_bind] in Hpart |- *. rewrite Hpart. cbn [mbind option_bind].
  destruct Hres as [(-> & Hwhy & Hw)|(Hb0 & q & s2 & l & src' & s3 & s4 & f2 & Hg & Hbuf & Hc & Hsrc & Hgood' & Hl & Hs3 & Hs4 & Hr4 & Hok4 & Hf4 & Hgr4 & Hw & Hlt)].
  { cbn iota. exists EIO, rest, src, s1, f1, t1. split; [done|]. split; [done|]. split; [done|]. split; [done|]. split; [done|]. split; [done|]. split; [lia|]. rewrite Z.sub_diag. split; [done|].
    right. split; [done|]. split; [done|]. destruct Hwhy as [Hwhy|Hwhy]; [left; lia|right]. etrans; [|exact Hwhy]. apply subseteq_size.
    intros x. rewrite !elem_of_usable. intros [Hx ?]. split; [|done]. by apply (w_free _ _ _ Hgr). }
  rewrite (proj2 (Z.eqb_neq b 0)) by done. change (channel fs) with ch. rewrite Hg. cbn [mbind option_bind]. rewrite Hbuf. cbn [mbind option_bind]. rewrite Hc.
  assert (Hld : length (take (Z.to_nat len) (left src)) = Z.to_nat len) by (rewrite length_take; lia).
  rewrite (proj2 (Z.ltb_ge _ _)) by lia. rewrite Hs3. cbn [mbind option_bind]. change (0 =? 0) with true. cbn [negb]. rewrite Hs4. cbn [mbind option_bind negb].
  rewrite (u32_small (index + 1)) by (unfold is_u32; lia). destruct (decide (len = rest)) as [E|E].
  - rewrite E, Z.sub_diag. destruct fuel as [|fuel]; [exfalso; lia|]. cbn [write_loop]. change (0 <? 0) with false. cbn iota.
    exists 0, 0, src', s4, f2, t1. split; [done|]. split; [done|]. split; [done|]. split; [done|]. split; [done|]. split; [done|]. split; [lia|]. rewrite Z.sub_0_r, <- E. split; [done|by left].
  - assert (Hfull : len = 512 - skip) by lia.
    destruct (IH s4 f2 _ t1 src' (index + 1) 0 (rest - len) Hr4 Hok4 Hf4 (roomy_mark h v _ n t t1 Hroom Hv) ltac:(apply lookup_insert_eq)
      ltac:(lia) ltac:(lia) ltac:(rewrite Hsrc, length_drop; lia) ltac:(lia) ltac:(lia) Hgood') as (r & rest' & src2 & s' & f' & t' & Hwl & Hr' & Hok' & Hf' & Hgood2 & Hgr' & Hle & Hw' & Hres).
    rewrite Hwl. rewrite insert_insert_eq in Hr', Hok', Hf'. exists r, rest', src2, s', f', t'. split; [done|]. split; [done|]. split; [done|]. split; [done|]. split; [done|].
    split; [by eapply growth_trans|]. split; [lia|]. split.
    + replace (512 * (index + 1) + 0) with (512 * index + skip + Z.of_nat (length (take (Z.to_nat len) (left src)))) in Hw' by lia.
      pose proof (wrote_trans f f2 f' ino _ _ _ Hw Hw' ltac:(lia) ltac:(unfold PARTS in *; lia)) as Hwt. rewrite Hsrc in Hwt.
      replace (rest - rest') with (len + (rest - len - rest')) by lia. rewrite Z2Nat.inj_add by lia. rewrite <- take_take_drop. done.
    + destruct Hres as [?|(? & ? & Hwhy)]; [by left|right]. split; [done|]. split; [done|]. destruct Hwhy as [|]; [left; lia|by right].
Qed.

Lemma restamped_wrote f g k h ino start data : wrote f g ino start data -> restamped g k ino -> file g h ino -> 0 <= start ->
  start + Z.of_nat (length data) <= 512 * PARTS -> wrote f k ino start data.
Proof.
  intros [A1 A2] Hr Hf Hs Hb. split.
  - intros i Hi. rewrite (restamped_content g k h) by (done || lia). by apply A1.
  - intros pos Hpos Hc Hout. rewrite (restamped_content g k h) by done. by apply A2.
Qed.

(** Nothing lies behind the last part. *)
Lemma content_behind s f h ino pos : refines s (Blocks f h) -> 0 <= ino < total -> 512 * PARTS <= pos -> content f ino pos = None.
Proof using Hgeo.
  intros Hr Hino Hpos. assert (Hi : PARTS <= pos / 512) by (apply Z.div_le_lower_bound; lia).
  assert (Hdiv : 113 <= pos / 512 / 128) by (apply Z.div_le_lower_bound; unfold PARTS in Hi; lia).
  unfold content, ptr, ib, wd. rewrite (lookup_ge_None_2 (W f ino)); [done|].
  unfold TfsBlock.W. rewrite (length_words_of _ 128 (blk_len ch maps total Hgeo s f h ino Hr Hino)). unfold i_ib. lia.
Qed.

Lemma wrote_bound s f f' h ino start data : refines s (Blocks f' h) -> 0 <= ino < total -> 0 <= start -> wrote f f' ino start data -> data ≠ [] ->
  start + Z.of_nat (length data) <= 512 * PARTS.
Proof using Hgeo.
  intros Hr Hino Hs [A _] Hne. assert (Hl : (length data - 1 < length data)%nat) by (destruct data; [done|simpl; lia]).
  destruct (decide (start + Z.of_nat (length data) <= 512 * PARTS)) as [|Hgt]; [done|]. exfalso. pose proof (A _ Hl) as E.
  rewrite (content_behind s f' h) in E by (done || lia). symmetry in E. apply lookup_ge_None_1 in E. lia.
Qed.

(** [tfs_write] puts the bytes into the file, as far as there is room. *)
Lemma tfs_write_spec s f h v ino n t vnode src offset nbytes clock : refines s (Blocks f h) -> fsok f h -> file f h ino -> roomy h ->
  h !! v = Some ((ino, ch), n, t) -> v_private vnode = Some v -> 0 <= offset -> 0 <= nbytes <= Z.of_nat (length (left src)) -> offset + nbytes < 2 ^ 32 -> good src ->
  exists r size src' vnode' s' f' t', tfs_write copy_in s fs vnode src offset nbytes clock = Some (r, Some size, src', vnode', s') /\
    refines s' (Blocks f' (<[v := ((ino, ch), n, t')]> h)) /\ fsok f' (<[v := ((ino, ch), n, t')]> h) /\ file f' (<[v := ((ino, ch), n, t')]> h) ino /\
    good src' /\ grown f f' ino /\ 0 <= size <= nbytes /\ wrote f f' ino offset (take (Z.to_nat size) (left src)) /\
    vnode' = (if size =? 0 then vnode else set_v_dirty (set_v_size vnode (Z.max (v_size vnode) (offset + size))) true) /\
    (r = 0 /\ size = nbytes \/ r = EIO /\ size < nbytes /\ (512 * PARTS <= offset + size \/ (stdpp.base.size (usable ch maps total f') <= 1)%nat)).
Proof using Hgeo Hfetch.
  intros Hr Hok Hf Hroom Hv Hvp Hoff Hnb Hbig Hgood. pose proof Hgeo as [G1 G2 G3]. destruct (f_super _ _ _ _ _ _ Hok) as [m Hp]. destruct (f_geo _ _ _ _ _ _ Hok) as (_ & _ & E2 & E4 & _).
  unfold tfs_write. cbn [private TfsBlock.fs mbind option_bind].
  rewrite (super_load ch maps total p Hgeo s f h m false fs_bshift 9 Hr Hp E4) by (done || lia). cbn [mbind option_bind].
  assert (shr offset 9 = Some (offset / 512)) as -> by (unfold shr; rewrite decide_True by lia; by rewrite Z.shiftr_div_pow2 by lia).
  cbn [mbind option_bind]. change (mask 9) with (Some 511). cbn [mbind option_bind].
  rewrite (super_load ch maps total p Hgeo s f h m false fs_bsize 512 Hr Hp E2) by (done || lia). cbn [mbind option_bind]. rewrite Hvp. cbn [mbind option_bind].
  change (u32 512) with 512. change 511 with (Z.ones 9). rewrite Z.land_ones by lia. change (2 ^ 9) with 512.
  pose proof (Z.mod_pos_bound offset 512 ltac:(lia)) as Hm. pose proof (Z.div_mod offset 512 ltac:(lia)) as Hd. pose proof (file_turns_enough nbytes ltac:(lia)) as Ht.
  destruct (write_loop_spec v ino n (turns nbytes) s f h t src (offset / 512) (offset mod 512) nbytes Hr Hok Hf Hroom Hv) as
    (r & rest & src' & s1 & f1 & t1 & Hwl & Hr1 & Hok1 & Hf1 & Hgood' & Hgr & Hle & Hw & Hres); [apply Z.div_pos; lia|done|lia|lia|lia|done|].
  rewrite Hwl. cbn [mbind option_bind]. rewrite <- Hd in Hw, Hres. set (h1 := <[v := ((ino, ch), n, t1)]> h) in *.
  assert (Hfin : forall f', usable ch maps total f' = usable ch maps total f1 -> r = 0 /\ nbytes - rest = nbytes \/ r = EIO /\ nbytes - rest < nbytes /\
    (512 * PARTS <= offset + (nbytes - rest) \/ (stdpp.base.size (usable ch maps total f') <= 1)%nat)).
  { intros f' ->. destruct Hres as [[-> ->]|(-> & ? & ?)]; [left; lia|right]. split; [done|]. split; [lia|done]. }
  destruct (Z.eqb_spec (nbytes - rest) 0) as [Hz|Hz]; cbn [negb].
  { rewrite Hz in *. exists r, 0, src', vnode, s1, f1, t1. split; [done|]. split; [done|]. split; [done|]. split; [done|]. split; [done|]. split; [done|]. split; [lia|]. split; [done|]. split; [done|]. by apply Hfin. }
  destruct (i_self _ _ _ Hf1) as [[Hino _] Hinob]. assert (Hv1 : h1 !! v = Some ((ino, ch), n, t1)) by apply lookup_insert_eq.
  destruct (save_time_spec s1 f1 h1 v ino n t1 i_mtime clock Hr1 Hv1 ltac:(lia) Hinob ltac:(done) ltac:(done)) as (s2 & f2 & Hs2 & Hr2 & Hst2 & _).
  destruct (restamped_file f1 f2 h1 ino v n t1 true Hst2 Hok1 Hf1 Hv1) as (Hok2 & Hf2 & Hfree2).
  rewrite Hs2. cbn [mbind option_bind]. unfold h1 in Hr2, Hok2, Hf2. rewrite insert_insert_eq in Hr2, Hok2, Hf2.
  destruct (save_time_spec s2 f2 _ v ino n true i_ctime clock Hr2 ltac:(apply lookup_insert_eq) ltac:(lia) ltac:(apply Hf2) ltac:(done) ltac:(done)) as (s3 & f3 & Hs3 & Hr3 & Hst3 & _).
  destruct (restamped_file f2 f3 _ ino v n true true Hst3 Hok2 Hf2 ltac:(apply lookup_insert_eq)) as (Hok3 & Hf3 & Hfree3).
  rewrite Hs3. cbn [mbind option_bind]. rewrite insert_insert_eq in Hr3, Hok3, Hf3. pose proof (restamped_trans f1 f2 f3 ino Hst2 Hst3) as Hst.
  set (data := take (Z.to_nat (nbytes - rest)) (left src)) in *. assert (Hld : length data = Z.to_nat (nbytes - rest)) by (unfold data; rewrite length_take; lia).
  pose proof (wrote_bound s1 f f1 _ ino offset data Hr1 ltac:(lia) Hoff Hw ltac:(intros E; rewrite E in Hld; simpl in Hld; lia)) as Hbound.
  eexists r, (nbytes - rest), src', _, s3, f3, true. split; [done|]. split; [done|]. split; [done|]. split; [done|]. split; [done|].
  split; [eapply growth_trans; [exact Hgr|]; by eapply restamped_grown|]. split; [lia|].
  split; [by eapply (restamped_wrote f f1 f3)|]. rewrite (proj2 (Z.eqb_neq _ 0)) by done. split.
  - rewrite (u32_small (offset + (nbytes - rest))) by (unfold is_u32; lia). destruct (Z.ltb_spec (v_size vnode) (offset + (nbytes - rest))).
    + by rewrite Z.max_r by lia.
    + rewrite Z.max_l by lia. by destruct vnode.
  - apply Hfin. unfold usable. by rewrite Hfree3, Hfree2.
Qed.

End Write.

End File.
