(* ===== verification/Mkfs.v ===== *)
(** * Making a file system (app/tfs/mkfs.c)

    The program that lays out an empty TFS, and that its result is a file
    system in the sense of [TfsBlock] with an empty root directory, as long
    as the bit map fits into one block. *)

From S2P Require Import Prelude Lists Hash Bitmap DiskWords Cache Tfs TfsBlock TfsFile.

Definition ERR_ARG : Z := 1.
Definition ROOT_BLOCK_NUM : Z := 1.
Definition TFS_BOOT_BLOCKS : Z := 1.
Definition TFS_SUPER_BLOCKS : Z := 1.
Definition S_IFDIR : Z := 16384.

(** [struct tfs] with all its members. *)
Record tfs := {
  t_sblkno : Z; t_dblkno : Z; t_bsize : Z; t_bmask : Z; t_bshift : Z; t_sbsize : Z; t_size : Z; t_dsize : Z;
  t_maxfilesize : Z; t_qbmask : Z; t_magic : Z; t_free_blocks : Z; t_block_hand : Z;
}.

Definition words64 (x : Z) : list Z := [u32 x; u32 (x / 2 ^ 32)].

(** The structure as words. *)
Definition tfs_words (t : tfs) : list Z :=
  [u32 (t_sblkno t); u32 (t_dblkno t); u32 (t_bsize t); u32 (t_bmask t); u32 (t_bshift t); u32 (t_sbsize t)] ++
  words64 (t_size t) ++ words64 (t_dsize t) ++ words64 (t_maxfilesize t) ++ words64 (t_qbmask t) ++
  [u32 (t_magic t); u32 (t_free_blocks t); u32 (t_block_hand t)].

Definition words_bytes (ws : list Z) : list Z := mjoin (le_bytes 4 <$> ws).

(** [memset(buf, 0, size)] and [memcpy(buf, &x, sizeof(x))]. *)
Definition block_with (size : Z) (ws : list Z) : list Z := words_bytes ws ++ replicate (Z.to_nat size - 4 * length ws) 0.

Definition calc_super_block (block_size block_num : Z) : Z + tfs :=
  let bshift := count_ntz block_size in
  if negb (Z.shiftl 1 bshift =? block_size) then inl ERR_ARG
  else
    let bits_per_block := block_size * CHAR_BIT in
    let bitmap_block_num := Z.quot (block_num + bits_per_block - 1) bits_per_block in
    let free_block_num := block_num - TFS_RESERVED_BLOCKS - bitmap_block_num in
    if free_block_num <? ROOT_BLOCK_NUM then inl ERR_ARG
    else
      let dblkno := TFS_BOOT_BLOCKS + TFS_SUPER_BLOCKS + bitmap_block_num in
      let dsize := block_num - dblkno in
      inr {| t_sblkno := TFS_BOOT_BLOCKS; t_dblkno := dblkno; t_bsize := block_size; t_bmask := Z.shiftl 1 bshift - 1; t_bshift := bshift;
             t_sbsize := TFS_SUPER_BLOCKS; t_size := block_num; t_dsize := dsize; t_maxfilesize := Z.shiftl 1 (bshift * 3 - count_ntz 4 * 2);
             t_qbmask := Z.shiftl 1 bshift - 1; t_magic := TFS_MAGIC; t_free_blocks := dsize - ROOT_BLOCK_NUM;
             t_block_hand := dblkno + ROOT_BLOCK_NUM |}.

Definition write_super_block (super : tfs) : list Z := block_with (t_bsize super) (tfs_words super).

(** [while (i++ < edge_block) fwrite(buf)]: what is written and [i] behind the
    loop. *)
Fixpoint zero_blocks (f : nat) (i edge_block : Z) (buf : list Z) : list Z * Z :=
  match f with
  | O => ([], i)
  | S f => if i <? edge_block then let '(l, j) := zero_blocks f (i + 1) edge_block buf in (buf ++ l, j) else ([], i + 1)
  end.

(** [while (++i < max) fwrite(buf)] *)
Fixpoint one_blocks (f : nat) (i max : Z) (buf : list Z) : list Z :=
  match f with
  | O => []
  | S f => if i + 1 <? max then buf ++ one_blocks f (i + 1) max buf else []
  end.

Definition write_bitmap (super : tfs) : list Z :=
  let edge_bit := t_dblkno super + ROOT_BLOCK_NUM in
  let edge_byte := Z.quot edge_bit CHAR_BIT in
  let edge_block := Z.quot edge_byte (t_bsize super) in
  let size := Z.to_nat (t_bsize super) in
  let '(zeros, i) := zero_blocks (S (Z.to_nat edge_block)) 0 edge_block (replicate size 0) in
  let edge_byte := Z.rem edge_byte (t_bsize super) in
  let edge := replicate (Z.to_nat edge_byte) 0 ++ [Z.lnot (Z.shiftl 1 (Z.rem edge_bit CHAR_BIT) - 1) mod 256] ++
              replicate (size - Z.to_nat edge_byte - 1) 255 in
  let max := t_dblkno super - t_sblkno super - t_sbsize super in
  zeros ++ edge ++ one_blocks (S (Z.to_nat max)) i max (replicate size 255).

(** [mode] of [root_inode] with its permissions, [time] of the clock. *)
Definition write_inodes (super : tfs) (mode uid gid time : Z) : list Z :=
  block_with (t_bsize super)
    ([u32 mode; u32 (t_dblkno super)] ++ words64 0 ++ words64 time ++ [0] ++ words64 time ++ [0] ++ words64 time ++ [0] ++ [u32 uid; u32 gid]).

(** What [main] writes; the boot block is skipped. *)
Definition mkfs (block_size block_num mode uid gid time : Z) : Z + list Z :=
  match calc_super_block block_size block_num with
  | inl e => inl e
  | inr super => inr (replicate (Z.to_nat block_size) 0 ++ write_super_block super ++ write_bitmap super ++ write_inodes super mode uid gid time)
  end.

(** ** Blocks of words *)

Lemma length_words_bytes ws : length (words_bytes ws) = (4 * length ws)%nat.
Proof.
  induction ws as [|w ws IH]; [done|]. change (words_bytes (w :: ws)) with (le_bytes 4 w ++ words_bytes ws).
  rewrite length_app, length_le_bytes, IH. cbn [length]. lia.
Qed.

Lemma words_bytes_ok ws : bytes_ok (words_bytes ws).
Proof.
  induction ws as [|w ws IH]; [by apply Forall_nil|]. change (words_bytes (w :: ws)) with (le_bytes 4 w ++ words_bytes ws).
  apply Forall_app. split; [apply le_bytes_ok|done].
Qed.

Lemma words_bytes_at ws rest i w : ws !! i = Some w -> is_u32 w -> le (take 4 (drop (4 * i) (words_bytes ws ++ rest))) = w.
Proof.
  revert i. induction ws as [|x ws IH]; intros i Hi Hw; [done|]. change (words_bytes (x :: ws)) with (le_bytes 4 x ++ words_bytes ws). rewrite <- app_assoc.
  destruct i as [|i].
  - injection Hi as ->. rewrite Nat.mul_0_r, drop_0, (take_app_length' (le_bytes 4 w)) by done. by apply le_le_bytes.
  - replace (4 * S i)%nat with (length (le_bytes 4 x) + 4 * i)%nat by (rewrite length_le_bytes; lia). rewrite drop_app_add. by apply IH.
Qed.

Lemma block_with_spec ws : (length ws <= 128)%nat -> Forall is_u32 ws ->
  length (block_with 512 ws) = 512%nat /\ bytes_ok (block_with 512 ws) /\
  forall i, words_of (block_with 512 ws) !! i = if decide (i < 128)%nat then Some (default 0 (ws !! i)) else None.
Proof.
  intros Hl Hw. assert (Hlen : length (block_with 512 ws) = 512%nat).
  { unfold block_with. rewrite length_app, length_words_bytes, length_replicate. lia. }
  split; [done|]. split; [apply Forall_app; split; [apply words_bytes_ok|apply Forall_replicate; unfold is_byte; lia]|].
  intros i. case_decide as Hi; [|apply lookup_ge_None_2; rewrite (length_words_of _ 128); [lia|done]].
  rewrite (words_at _ 128) by done. f_equal. destruct (ws !! i) as [w|] eqn:E.
  - cbn. apply words_bytes_at; [done|]. by eapply Forall_lookup_1.
  - apply lookup_ge_None_1 in E. unfold block_with. rewrite drop_app_ge by (rewrite length_words_bytes; lia). rewrite drop_replicate, take_replicate.
    cbn [default]. generalize (4 `min` (Z.to_nat 512 - 4 * length ws - (4 * i - length (words_bytes ws))))%nat. intros k. induction k; [done|]. cbn. rewrite IHk. done.
Qed.

(** ** The result *)

Definition super_of (n : Z) : tfs :=
  {| t_sblkno := 1; t_dblkno := 3; t_bsize := 512; t_bmask := 511; t_bshift := 9; t_sbsize := 1; t_size := n; t_dsize := n - 3;
     t_maxfilesize := 8388608; t_qbmask := 511; t_magic := TFS_MAGIC; t_free_blocks := n - 4; t_block_hand := 4 |}.

Definition map_block : list Z := [240] ++ replicate 511 255.

Definition root_words (mode uid gid time : Z) : list Z :=
  [u32 mode; 3] ++ words64 0 ++ words64 time ++ [0] ++ words64 time ++ [0] ++ words64 time ++ [0] ++ [u32 uid; u32 gid].

Lemma calc_super_spec n : 4 <= n <= 4096 -> calc_super_block 512 n = inr (super_of n).
Proof.
  intros Hn. unfold calc_super_block. change (count_ntz 512) with 9. change (negb (Z.shiftl 1 9 =? 512)) with false. cbn iota.
  assert (Z.quot (n + 512 * CHAR_BIT - 1) (512 * CHAR_BIT) = 1) as ->.
  { unfold CHAR_BIT. rewrite Z.quot_div_nonneg by lia. symmetry. apply Z.div_unique with (n - 1); lia. }
  unfold TFS_RESERVED_BLOCKS, ROOT_BLOCK_NUM, TFS_BOOT_BLOCKS, TFS_SUPER_BLOCKS. rewrite (proj2 (Z.ltb_ge (n - 2 - 1) 1)) by lia. cbv zeta. unfold super_of.
  do 2 f_equal; lia || done.
Qed.

Lemma mkfs_spec n mode uid gid time : 4 <= n <= 4096 ->
  mkfs 512 n mode uid gid time =
    inr (replicate 512 0 ++ block_with 512 (tfs_words (super_of n)) ++ map_block ++ block_with 512 (root_words mode uid gid time)).
Proof.
  intros Hn. unfold mkfs. rewrite calc_super_spec by done. f_equal.
Qed.

(** A file system that refuses sizes it cannot have. *)
Lemma mkfs_too_small n mode uid gid time : 0 < n < 4 -> mkfs 512 n mode uid gid time = inl ERR_ARG.
Proof.
  intros Hn. assert (n = 1 \/ n = 2 \/ n = 3) as [E|[E|E]] by lia; rewrite E; reflexivity.
Qed.

Lemma words64_ok x : Forall is_u32 (words64 x).
Proof. repeat constructor; apply u32_range. Qed.

Lemma super_words_ok n : Forall is_u32 (tfs_words (super_of n)).
Proof. unfold tfs_words. rewrite !Forall_app. split_and!; try apply words64_ok; repeat constructor; apply u32_range. Qed.

Lemma root_words_ok mode uid gid time : Forall is_u32 (root_words mode uid gid time).
Proof.
  unfold root_words. rewrite !Forall_app. split_and!; try apply words64_ok; repeat constructor; try apply u32_range; unfold is_u32; lia.
Qed.

(** The bits of the map: from 4 on. *)
Lemma map_bits : let ws := words_of map_block in
  forallb (λ b, Bool.eqb (match ws !! Z.to_nat (b mod 4096 / 32) with Some w => Z.testbit w (b mod 32) | None => false end) (4 <=? b))
  (seqZ 0 4096) = true.
Proof. vm_compute. reflexivity. Qed.

Lemma map_block_ok : length map_block = 512%nat /\ bytes_ok map_block.
Proof. split; [reflexivity|]. apply Forall_app. split; [repeat constructor; lia|apply Forall_replicate; unfold is_byte; lia]. Qed.

Section Made.
Context (ch n p mode uid gid time : Z) (Hn : 4 <= n <= 4096).
Context (f : Z * Z -> list Z) (h : gmap Z (Z * Z * Z * bool)).
Context (H1 : f (1, ch) = block_with 512 (tfs_words (super_of n))) (H2 : f (2, ch) = map_block)
  (H3 : f (3, ch) = block_with 512 (root_words mode uid gid time)).
Context (k : Z) (Hp : h !! p = Some ((1, ch), k, false)) (Hh : forall i b m t, h !! i = Some ((b, ch), m, t) -> b = 1 \/ b = 3).

Lemma made_free b : b ∈ free ch 1 f <-> 4 <= b < 4096.
Proof using H2.
  rewrite elem_of_free. split.
  - intros [Hb Hbit]. pose proof map_bits as Hm. cbv zeta in Hm. rewrite forallb_forall in Hm.
    specialize (Hm b ltac:(apply list_elem_of_In, elem_of_seqZ; lia)). apply eqb_prop in Hm. unfold bit, W in Hbit.
    assert (b / 4096 = 0) as E by (apply Z.div_small; lia). rewrite E in Hbit. change (2 + 0) with 2 in Hbit. rewrite H2 in Hbit.
    rewrite Hm in Hbit. apply Z.leb_le in Hbit. lia.
  - intros Hb. split; [lia|]. pose proof map_bits as Hm. cbv zeta in Hm. rewrite forallb_forall in Hm.
    specialize (Hm b ltac:(apply list_elem_of_In, elem_of_seqZ; lia)). apply eqb_prop in Hm. unfold bit, W.
    assert (b / 4096 = 0) as E by (apply Z.div_small; lia). rewrite E. change (2 + 0) with 2. rewrite H2, Hm. apply Z.leb_le. lia.
Qed.

Lemma made_usable : Z.of_nat (stdpp.base.size (usable ch 1 n f)) = n - 4.
Proof using H2 Hn.
  assert (usable ch 1 n f = list_to_set (seqZ 4 (n - 4))) as ->.
  { apply set_eq. intros b. rewrite elem_of_usable, made_free, elem_of_list_to_set, elem_of_seqZ. lia. }
  rewrite size_list_to_set, length_seqZ by apply NoDup_seqZ. lia.
Qed.

Lemma made_fsok : fsok ch 1 n p f h.
Proof using H1 H2 Hn Hp Hh.
  destruct (block_with_spec (tfs_words (super_of n)) ltac:(cbv; lia) (super_words_ok n)) as (_ & Hb & Hw).
  assert (HW : forall i w, (i < 128)%nat -> default 0 (tfs_words (super_of n) !! i) = w -> W ch f 1 !! i = Some w).
  { intros i w Hi <-. unfold W. by rewrite H1, Hw, decide_True. }
  split.
  - by exists k.
  - intros b Hb'. assert (b = 1 \/ b = 2) as [->| ->] by lia; [by rewrite H1|rewrite H2; apply map_block_ok].
  - split_and!; apply HW; (lia || reflexivity).
  - apply HW; [lia|]. rewrite made_usable. cbn. by rewrite u32_small by (unfold is_u32; lia).
  - exists 4. split; [apply HW; [lia|reflexivity]|]. split; [lia|]. intros b Hb'%made_free. lia.
  - intros b Hb'%made_free. lia.
  - intros i b m t Hi. destruct (Hh i b m t Hi) as [->| ->]; [by left|right]. split; [lia|]. rewrite made_free. lia.
Qed.

Lemma made_root : file ch 1 n f h 3 /\ forall j, 0 <= j -> ptr ch f 3 j = 0.
Proof using H1 H2 H3 Hn.
  destruct (block_with_spec (root_words mode uid gid time) ltac:(cbv; lia) (root_words_ok mode uid gid time)) as (_ & Hb & Hw).
  assert (Hib : forall j, 0 <= j -> ib ch f 3 j = 0).
  { intros j Hj. unfold ib, wd, W. rewrite H3, Hw. case_decide; [|done]. rewrite lookup_ge_None_2; [done|]. cbn [length root_words app words64]. unfold i_ib. lia. }
  assert (Hptr : forall j, 0 <= j -> ptr ch f 3 j = 0).
  { intros j Hj. unfold ptr. rewrite Hib; [done|]. apply Z.div_pos; lia. }
  split; [|done]. split.
  - split; [|by rewrite H3]. split; [lia|]. rewrite made_free. lia.
  - intros j Hj Hne. by rewrite Hib in Hne by lia.
  - intros j Hj Hne. by rewrite Hptr in Hne by lia.
  - intros j j' Hj _ _ Hne. by rewrite Hib in Hne by lia.
  - intros j j' Hj _ _ Hne. by rewrite Hptr in Hne by lia.
  - intros j m _ Hm _. apply Hptr. lia.
Qed.

End Made.
