(* ===== verification/TfsTheorems.v ===== *)
(** * Theorems on the file system

    What TFS (lib/libtfs) promises on top of the block cache, on any device
    that keeps the laws of [BlockDeviceLaws]; the witnesses run it on the
    RAM disk with the file system that mkfs makes. *)

From S2P Require Import Prelude Lists Hash Bitmap DiskWords Cache RamDisk Tfs TfsBlock TfsFile Mkfs.

Section Promises.
Context {D : Type} `{!BlockDevice D, !BlockDeviceLaws D}.
Notation st := (@store D crings (gmap hloc (list hloc))).
Context (ch maps total p : Z).

(** A file of the file system that is open: its inode is locked in the buffer
    of the vnode, and the cache has room for another block. *)
Record opened (s : st) (f : Z * Z -> list Z) (h : gmap Z (Z * Z * Z * bool)) (ino : Z) (vnode : vnode_t) : Prop := {
  p_refines : refines s (Blocks f h);
  p_fsok : fsok ch maps total p f h;
  p_file : file ch maps total f h ino;
  p_roomy : roomy h;
  p_held : exists v n t, h !! v = Some ((ino, ch), n, t) /\ v_private vnode = Some v;
}.

(** Another file of the file system: no block in common. *)
Definition other_file f h (ino other : Z) : Prop :=
  file ch maps total f h other /\ forall b, owned ch f other b -> ~ owned ch f ino b.

Lemma owned_inuse f h ino b : file ch maps total f h ino -> owned ch f ino b -> inuse ch maps total f b.
Proof.
  intros Hf [->|[(j & Hj & <- & Hne)|(m & Hm & <- & Hne)]]; [apply Hf|by apply (i_index _ _ _ _ _ _ Hf j)|by apply (i_data _ _ _ _ _ _ Hf m)].
Qed.

(** What is written to one file is not seen in another. *)
Lemma other_kept f f' h v ino n t t' other : grown ch maps total f f' ino -> h !! v = Some ((ino, ch), n, t) -> other_file f h ino other ->
  file ch maps total f' (<[v := ((ino, ch), n, t')]> h) other /\ forall pos, 0 <= pos < 512 * PARTS -> content ch f' other pos = content ch f other pos.
Proof.
  intros Hg Hv [Ho Hd]. assert (Hsame : forall b, owned ch f other b -> f' (b, ch) = f (b, ch)).
  { intros b Hb. apply (w_frame _ _ _ _ _ _ Hg); [by eapply owned_inuse|by apply Hd]. }
  destruct (file_frame ch maps total f f' h other Ho (w_free _ _ _ _ _ _ Hg)) as (Hf' & Hib & Hptr).
  { apply Hsame. by left. }
  { intros j Hj Hne. apply Hsame. right. left. by exists j. }
  split.
  - destruct Hf' as [F1 F2 F3 F4 F5 F6]. split; [done| | |done|done|done].
    + intros j Hj Hne. destruct (F2 j Hj Hne) as (A & B & E & F). split; [done|]. split; [done|]. split; [by apply (unheld_mark h v (ino, ch) n t)|done].
    + intros m Hm Hne. destruct (F3 m Hm Hne) as (A & B & E). split; [done|]. split; [by apply (unheld_mark h v (ino, ch) n t)|done].
  - intros pos Hpos. assert (Hp : 0 <= pos / 512 < PARTS) by (split; [apply Z.div_pos; lia|apply Z.div_lt_upper_bound; lia]).
    unfold content. rewrite Hptr by done. destruct (Z.eqb_spec (ptr ch f other (pos / 512)) 0) as [|Hne]; [done|]. rewrite Hsame; [done|].
    right. right. by exists (pos / 512).
Qed.

(** C19: the free blocks.  [tfs_allocate_block] returns the least free block of
    the file system and takes it out of the bit map, with the count and the
    hand of the super block kept right and every block that is not of the
    system as it was; it returns 0 only if no block is free or the cache
    refuses a block, with nothing changed.  [tfs_deallocate_block] puts a block
    that is in use and not locked back among the free ones. *)
Theorem tfs_block_allocator (s : st) f h : geometry ch maps total -> fsok ch maps total p f h -> refines s (Blocks f h) ->
  (exists r s', tfs_allocate_block s (fs ch p) = Some (r, s') /\
    (r = 0 /\ refines s' (Blocks f h) /\ (usable ch maps total f = ∅ \/ refused (Blocks f h)) \/
     exists f', refines s' (Blocks f' h) /\ took ch maps total f f' r /\ fsok ch maps total p f' h)) /\
  (forall b, 2 + maps <= b < total -> b ∉ free ch maps f -> unheld h (b, ch) ->
   exists r s', tfs_deallocate_block s (fs ch p) b = Some (r, s') /\
    (r = EIO /\ refines s' (Blocks f h) /\ refused (Blocks f h) \/
     r = 0 /\ exists f', refines s' (Blocks f' h) /\ gave ch maps f f' b /\ fsok ch maps total p f' h)).
Proof.
  intros Hgeo Hok Hr. split; [by apply allocate_spec|]. intros b Hb Hn Hu. by apply deallocate_spec.
Qed.

Context {C : Type} (copy_in : C -> Z -> Z * list Z * C) (left : C -> list Z) (copy_out : C -> list Z -> Z * C) (got : C -> list Z) (space : C -> Z).

Lemma fetch_any :
  (forall c len, 0 <= len <= Z.of_nat (length (left c)) ->
     exists c', copy_in c len = (0, take (Z.to_nat len) (left c), c') /\ left c' = drop (Z.to_nat len) (left c)) ->
  forall c len, True -> 0 <= len <= Z.of_nat (length (left c)) ->
     exists c', copy_in c len = (0, take (Z.to_nat len) (left c), c') /\ left c' = drop (Z.to_nat len) (left c) /\ True.
Proof. intros Hf c len _ Hl. destruct (Hf c len Hl) as (c' & ? & ?). by exists c'. Qed.

(** C17: writing to a file.  For a caller that delivers its bytes, [tfs_write]
    ends, and puts the first [size] of them into the file from [offset] on;
    what the file held elsewhere stays, and so do the other files.  It writes
    all of them with result 0, or stops with [EIO] at the largest size of a
    file or when at most one block is free.  The file grows if needed, and the
    file system stays well formed.  This is for an open file ([opened]) on
    devices that work, with at least one buffer of the cache not locked. *)
Theorem tfs_write_correct (s : st) f h ino vnode (src : C) offset nbytes clock :
  (forall c len, 0 <= len <= Z.of_nat (length (left c)) ->
     exists c', copy_in c len = (0, take (Z.to_nat len) (left c), c') /\ left c' = drop (Z.to_nat len) (left c)) ->
  geometry ch maps total -> opened s f h ino vnode -> 0 <= offset -> 0 <= nbytes <= Z.of_nat (length (left src)) -> offset + nbytes < 2 ^ 32 ->
  exists r size src' vnode' s' f' h', tfs_write copy_in s (fs ch p) vnode src offset nbytes clock = Some (r, Some size, src', vnode', s') /\
    opened s' f' h' ino vnode' /\ 0 <= size <= nbytes /\
    (forall i, 0 <= i < size -> content ch f' ino (offset + i) = left src !! Z.to_nat i) /\
    (forall pos, 0 <= pos < 512 * PARTS -> content ch f ino pos ≠ None -> ~ offset <= pos < offset + size -> content ch f' ino pos = content ch f ino pos) /\
    (forall other, other_file f h ino other -> file ch maps total f' h' other /\
       forall pos, 0 <= pos < 512 * PARTS -> content ch f' other pos = content ch f other pos) /\
    v_size vnode' = (if size =? 0 then v_size vnode else Z.max (v_size vnode) (offset + size)) /\
    (r = 0 /\ size = nbytes \/
     r = EIO /\ size < nbytes /\ (512 * PARTS <= offset + size \/ (stdpp.base.size (usable ch maps total f') <= 1)%nat)).
Proof.
  intros Hfetch Hgeo [Hr Hok Hf Hroom (v & n & t & Hv & Hvp)] Hoff Hnb Hbig.
  destruct (tfs_write_spec ch maps total p Hgeo copy_in left (λ _, True) (fetch_any Hfetch) s f h v ino n t vnode src offset nbytes clock Hr Hok Hf Hroom Hv Hvp Hoff Hnb Hbig I)
    as (r & size & src' & vnode' & s' & f' & t' & Hw & Hr' & Hok' & Hf' & _ & Hg & Hs & [Hnew Hold] & Hvn & Hres).
  rewrite length_take in Hnew, Hold. exists r, size, src', vnode', s', f', (<[v := ((ino, ch), n, t')]> h). split; [done|]. split.
  { split; [done|done|done|by eapply roomy_mark|]. exists v, n, t'. split; [apply lookup_insert_eq|]. rewrite Hvn. by destruct (size =? 0). }
  split; [done|]. split.
  { intros i Hi. specialize (Hnew (Z.to_nat i) ltac:(lia)). rewrite Z2Nat.id in Hnew by lia. rewrite Hnew, lookup_take_lt by lia. done. }
  split; [intros pos Hpos Hc Hout; apply Hold; [done|done|lia]|]. split; [intros other Ho; by eapply other_kept|].
  split; [rewrite Hvn; by destruct (size =? 0)|done].
Qed.

(** C18: what was written is read.  For an open file as in [opened], after [tfs_write] has stored [size] bytes,
    [tfs_read] of that range returns 0 and gives exactly these bytes, in order,
    to a caller with space for them.  The reading changes no block but the
    inode, in the inode only the three words of the access time, which become
    [clock'], and nothing at all for a [size] of 0; the buffers locked after it
    are those locked before, with the same blocks and counts, where only the
    buffer of the inode may have become dirty. *)
Theorem tfs_read_back (s : st) f h ino vnode (src dest : C) offset nbytes clock clock' :
  (forall c len, 0 <= len <= Z.of_nat (length (left c)) ->
     exists c', copy_in c len = (0, take (Z.to_nat len) (left c), c') /\ left c' = drop (Z.to_nat len) (left c)) ->
  (forall c l, Z.of_nat (length l) <= space c ->
     exists c', copy_out c l = (0, c') /\ got c' = got c ++ l /\ space c' = space c - Z.of_nat (length l)) ->
  geometry ch maps total -> opened s f h ino vnode -> 0 <= offset -> 0 <= nbytes <= Z.of_nat (length (left src)) -> offset + nbytes < 2 ^ 32 ->
  nbytes <= space dest ->
  exists r size src' vnode' s' f' h', tfs_write copy_in s (fs ch p) vnode src offset nbytes clock = Some (r, Some size, src', vnode', s') /\
    opened s' f' h' ino vnode' /\
    exists dest' vnode'' s'' f'' h'', tfs_read copy_out s' (fs ch p) vnode' dest offset size clock' = Some (0, size, dest', vnode'', s'') /\
      got dest' = got dest ++ take (Z.to_nat size) (left src) /\ opened s'' f'' h'' ino vnode'' /\
      vnode'' = (if size =? 0 then vnode' else set_v_dirty vnode' true) /\
      (if size =? 0 then f'' = f' else stamped ch f' f'' ino i_atime clock') /\
      exists v n t t', v_private vnode' = Some v /\ h' !! v = Some ((ino, ch), n, t) /\ h'' = <[v := ((ino, ch), n, t')]> h'.
Proof.
  intros Hfetch Hcopy Hgeo [Hr Hok Hf Hroom (v & n & t & Hv & Hvp)] Hoff Hnb Hbig Hspace.
  destruct (tfs_write_spec ch maps total p Hgeo copy_in left (λ _, True) (fetch_any Hfetch) s f h v ino n t vnode src offset nbytes clock Hr Hok Hf Hroom Hv Hvp Hoff Hnb Hbig I)
    as (r & size & src' & vnode' & s' & f' & t' & Hw & Hr' & Hok' & Hf' & _ & Hg & Hs & [Hnew Hold] & Hvn & _).
  exists r, size, src', vnode', s', f', (<[v := ((ino, ch), n, t')]> h). split; [done|]. assert (Hvp' : v_private vnode' = Some v) by (rewrite Hvn; by destruct (size =? 0)).
  set (h' := <[v := ((ino, ch), n, t')]> h) in *. assert (Hv' : h' !! v = Some ((ino, ch), n, t')) by apply lookup_insert_eq.
  split; [split; [done|done|done|by eapply roomy_mark|by exists v, n, t']|].
  destruct (tfs_read_spec ch maps total p Hgeo copy_out got space Hcopy s' f' h' v ino n t' vnode' dest offset size clock' Hr' Hok' Hf' ltac:(by eapply roomy_mark) Hv' Hvp' Hoff ltac:(lia) ltac:(lia))
    as (r2 & size2 & dest' & s'' & f'' & t'' & Hrd & Hr'' & Hst & Hst' & Hs2 & Hgot & _ & Hres).
  assert (Hall : r2 = 0 /\ size2 = size).
  { destruct Hres as [?|(_ & Hlt & Hc)]; [done|]. exfalso. specialize (Hnew (Z.to_nat size2)). rewrite length_take, Z2Nat.id, Hc in Hnew by lia.
    specialize (Hnew ltac:(lia)). symmetry in Hnew. apply lookup_ge_None_1 in Hnew. rewrite length_take in Hnew. lia. }
  destruct Hall as [-> ->]. destruct (restamped_file ch maps total p Hgeo f' f'' h' ino v n t' t'' Hst Hok' Hf' Hv') as (Hok'' & Hf'' & _).
  eexists dest', _, s'', f'', _. split; [exact Hrd|]. split; [|split].
  - rewrite Hgot. f_equal. apply list_eq. intros i. destruct (decide (i < Z.to_nat size)%nat) as [Hi|Hi].
    + rewrite stretch_lookup by done. rewrite (Hnew i) by (rewrite length_take; lia).
      destruct (lookup_lt_is_Some_2 (take (Z.to_nat size) (left src)) i) as [x ->]; [rewrite length_take; lia|done].
    + rewrite !lookup_ge_None_2; [done|rewrite length_take; lia|rewrite length_stretch; lia].
  - split; [exact Hr''|done|done|by do 2 (eapply roomy_mark; [|done])|]. exists v, n, t''. split; [apply lookup_insert_eq|]. by destruct (size =? 0).
  - split; [done|]. split; [done|]. by exists v, n, t', t''.
Qed.

End Promises.

(** ** A new file system *)

Lemma mkfs_made (n mode uid gid time : Z) : 4 <= n <= 4096 ->
  exists img, mkfs 512 n mode uid gid time = inr img /\ length img = 2048%nat /\
    forall ch p f h k, (forall b, 0 <= b < 4 -> f (b, ch) = block_of img b) -> h !! p = Some ((1, ch), k, false) ->
      (forall i b m t, h !! i = Some ((b, ch), m, t) -> b = 1 \/ b = 3) ->
      fsok ch 1 n p f h /\ file ch 1 n f h 3 /\ (forall j, 0 <= j -> ptr ch f 3 j = 0) /\ forall b, b ∈ usable ch 1 n f <-> 4 <= b < n.
Proof.
  intros Hn. eexists. split; [by apply mkfs_spec|].
  destruct (block_with_spec (tfs_words (super_of n)) ltac:(cbv; lia) (super_words_ok n)) as (L1 & _).
  destruct (block_with_spec (root_words mode uid gid time) ltac:(cbv; lia) (root_words_ok mode uid gid time)) as (L3 & _). destruct map_block_ok as [L2 _].
  pose proof (length_replicate 512 0) as L0. split; [rewrite !length_app, L1, L2, L3, L0; done|].
  intros ch p f h k Hf Hp Hh.
  assert (E1 : f (1, ch) = block_with 512 (tfs_words (super_of n))).
  { rewrite Hf by lia. unfold block_of. rewrite drop_app_length' by done. by rewrite take_app_length' by done. }
  assert (E2 : f (2, ch) = map_block).
  { rewrite Hf by lia. unfold block_of. rewrite app_assoc, drop_app_length' by (rewrite length_app, L0, L1; done). by rewrite take_app_length' by done. }
  assert (E3 : f (3, ch) = block_with 512 (root_words mode uid gid time)).
  { rewrite Hf by lia. unfold block_of. rewrite !app_assoc, drop_app_length' by (rewrite !length_app, L0, L1, L2; done). by rewrite take_ge by (rewrite L3; done). }
  destruct (made_root ch n mode uid gid time Hn f h E1 E2 E3) as [Hroot Hptr]. split; [by eapply made_fsok|]. split; [done|]. split; [done|].
  intros b. rewrite elem_of_usable, (made_free ch f E2). lia.
Qed.

(** C20: mkfs makes a file system.  For up to 4096 blocks of 512 bytes, a disk
    that begins with what [mkfs] writes is well formed once its super block is
    locked: the free blocks are those behind the root directory, their number
    and the hand are right, and the root, in block 3, is an empty file. *)
Theorem mkfs_correct (n mode uid gid time : Z) : 4 <= n <= 4096 ->
  exists img, mkfs 512 n mode uid gid time = inr img /\ length img = 2048%nat /\
    forall ch p f h k, (forall b, 0 <= b < 4 -> f (b, ch) = block_of img b) -> h !! p = Some ((1, ch), k, false) ->
      (forall i b m t, h !! i = Some ((b, ch), m, t) -> b = 1 \/ b = 3) ->
      fsok ch 1 n p f h /\ file ch 1 n f h 3 /\ (forall j, 0 <= j -> ptr ch f 3 j = 0) /\ forall b, b ∈ usable ch 1 n f <-> 4 <= b < n.
Proof. apply mkfs_made. Qed.

(** Beyond that the last loop of [write_bitmap] writes a block less than the
    super block counts: the root is written in front of its place. *)
Lemma mkfs_map_short : exists img super, mkfs 512 4097 S_IFDIR 0 0 0 = inr img /\ calc_super_block 512 4097 = inr super /\
  t_dblkno super = 4 /\ length img = 2048%nat.
Proof.
  destruct (mkfs 512 4097 S_IFDIR 0 0 0) as [|img] eqn:E; [discriminate E|]. destruct (calc_super_block 512 4097) as [|super] eqn:E'; [discriminate E'|].
  exists img, super. split; [done|]. split; [done|]. vm_compute in E, E'. injection E as <-. injection E' as <-. by vm_compute.
Qed.

(** ** The file system on the RAM disk *)

(** Sixteen blocks, made by [mkfs]. *)
Definition disk16 : image 16.
Proof.
  refine (Image ((match mkfs 512 16 S_IFDIR 0 0 0 with inr l => l | inl _ => [] end) ++ replicate 6144 0) _). vm_compute. reflexivity.
Defined.

Lemma disk16_fits : 0 <= 16 < 2 ^ 23.
Proof. lia. Qed.

#[local] Instance disk16_laws : BlockDeviceLaws (image 16) := ramdisk_laws (root := 7) disk16_fits.

Lemma geometry16 : geometry 7 1 16.
Proof. split; [lia|lia|]. intros b Hb. by split. Qed.

Lemma blocks16 b : 0 <= b < 4 ->
  ram_disk (n := 16) (root := 7) disk16 (b, 7) = block_of (match mkfs 512 16 S_IFDIR 0 0 0 with inr l => l | inl _ => [] end) b.
Proof.
  intros Hb. assert (b = 0 \/ b = 1 \/ b = 2 \/ b = 3) as [->|[->|[->| ->]]] by lia; vm_compute; reflexivity.
Qed.

(** The vnode of the root, its inode in the buffer [v]. *)
Definition root_vnode (v : Z) : vnode_t :=
  {| v_index := 3; v_mode := S_IFDIR; v_uid := 0; v_gid := 0; v_size := 0; v_private := Some v; v_dirty := false; v_refer_count := 1; v_lock_count := 0 |}.

(** The cache of the new disk with the super block and the root locked. *)
Lemma opened16 : exists s f h p v, opened 7 1 16 p s f h 3 (root_vnode v) /\ f = ram_disk (n := 16) (root := 7) disk16.
Proof.
  destruct (cache_initialize_spec (D := image 16) ∅ disk16) as (s0 & _ & Hr0). set (f := disk disk16) in *.
  assert (Hroom0 : roomy (D := image 16) ∅) by (split; [exact I|]; exists 0; split; [unfold MAX_CACHE; lia|done]).
  destruct (get_spec s0 f ∅ 7 1 Hr0) as (p & s1 & _ & Hr1); [by split|lia|intros i n t Hi; discriminate Hi|].
  destruct p as [p|]; [|destruct Hr1 as [_ Hw]; by destruct (roomy_serves f _ Hroom0)]. destruct Hr1 as [Hr1 _]. set (h1 := <[p := ((1, 7), 1, false)]> ∅) in *.
  assert (Hone : forall i x, h1 !! i = Some x -> i = p /\ x = ((1, 7), 1, false)).
  { intros i x. unfold h1. rewrite lookup_insert. case_decide; [|done]. intros [= <-]. done. }
  destruct (get_spec s1 f h1 7 3 Hr1) as (v & s2 & _ & Hr2); [by split|lia|intros i n t Hi%Hone; destruct Hi; congruence|].
  assert (Hroom1 : forall q (h : gmap Z (Z * Z * Z * bool)), (forall i, is_Some (h !! i) -> i = p \/ i = q) -> roomy (D := image 16) h).
  { intros q h Hh. split; [exact I|]. assert (exists i, 0 <= i < MAX_CACHE /\ i ≠ p /\ i ≠ q) as (i & Hi & ? & ?).
    { unfold MAX_CACHE. destruct (decide (0 ≠ p /\ 0 ≠ q)); [by exists 0|]. destruct (decide (1 ≠ p /\ 1 ≠ q)); [exists 1; lia|]. exists 2. lia. }
    exists i. split; [done|]. destruct (h !! i) eqn:E; [|done]. destruct (Hh i); [by rewrite E|done|done]. }
  destruct v as [v|].
  2:{ destruct Hr2 as [_ Hw]. destruct (roomy_serves f h1); [|done]. apply (Hroom1 p). intros i [x Hx%Hone]. tauto. }
  destruct Hr2 as [Hr2 Hv]. set (h2 := <[v := ((3, 7), 1, false)]> h1) in *.
  assert (Hp : h2 !! p = Some ((1, 7), 1, false)).
  { unfold h2. rewrite lookup_insert_ne; [apply lookup_insert_eq|]. intros ->. unfold h1 in Hv. by rewrite lookup_insert_eq in Hv. }
  assert (Htwo : forall i x, h2 !! i = Some x -> i = p /\ x = ((1, 7), 1, false) \/ i = v /\ x = ((3, 7), 1, false)).
  { intros i x. unfold h2. rewrite lookup_insert. case_decide as E; [intros [= <-]; by right|]. intros H%Hone. by left. }
  exists s2, f, h2, p, v. split; [|done]. destruct (mkfs_made 16 S_IFDIR 0 0 0 ltac:(lia)) as (img & Himg & _ & H).
  destruct (H 7 p f h2 1) as (Hok & Hfile & _); [|exact Hp| |].
  - intros b Hb. pose proof (blocks16 b Hb) as E. rewrite Himg in E. exact E.
  - intros i b m t Hi. destruct (Htwo i _ Hi) as [[_ E]|[_ E]]; injection E as -> _ _; [by left|by right].
  - split; [exact Hr2|exact Hok|exact Hfile| |].
    + apply (Hroom1 v). intros i [x Hx%Htwo]. tauto.
    + exists v, 1, false. split; [apply lookup_insert_eq|done].
Qed.

(** A caller whose bytes are in a list. *)
Definition from_list (c : list Z) (len : Z) : Z * list Z * list Z := (0, take (Z.to_nat len) c, drop (Z.to_nat len) c).
Definition to_list (c l : list Z) : Z * list Z := (0, c ++ l).

Lemma from_list_ok c len : 0 <= len <= Z.of_nat (length (id c)) ->
  exists c', from_list c len = (0, take (Z.to_nat len) (id c), c') /\ id c' = drop (Z.to_nat len) (id c).
Proof. intros _. by eexists. Qed.

Definition list_space (c : list Z) : Z := 2 ^ 32 - Z.of_nat (length c).

Lemma to_list_ok c l : Z.of_nat (length l) <= list_space c ->
  exists c', to_list c l = (0, c') /\ id c' = id c ++ l /\ list_space c' = list_space c - Z.of_nat (length l).
Proof. intros _. eexists. split; [done|]. split; [done|]. unfold list_space. rewrite length_app. lia. Qed.

Lemma mkfs_correct_witness : exists img, mkfs 512 16 S_IFDIR 0 0 0 = inr img /\ length img = 2048%nat.
Proof. destruct (mkfs_correct 16 S_IFDIR 0 0 0 ltac:(lia)) as (img & H1 & H2 & _). by exists img. Defined.

Lemma tfs_block_allocator_witness : exists s p r s', tfs_allocate_block (D := image 16) s (fs 7 p) = Some (r, s').
Proof.
  destruct opened16 as (s & f & h & p & v & Ho & _). destruct (tfs_block_allocator 7 1 16 p s f h geometry16 (p_fsok _ _ _ _ _ _ _ _ _ Ho) (p_refines _ _ _ _ _ _ _ _ _ Ho)) as [(r & s' & H & _) _].
  by exists s, p, r, s'.
Defined.

Lemma tfs_write_correct_witness : exists s p v r size src' vnode' s' f',
  tfs_write (D := image 16) from_list s (fs 7 p) (root_vnode v) [1; 2; 3] 510 3 (0, 0, 0) = Some (r, Some size, src', vnode', s') /\
  0 <= size <= 3 /\ forall i, 0 <= i < size -> content 7 f' 3 (510 + i) = [1; 2; 3] !! Z.to_nat i.
Proof.
  destruct opened16 as (s & f & h & p & v & Ho & _).
  destruct (tfs_write_correct 7 1 16 p from_list id s f h 3 (root_vnode v) [1; 2; 3] 510 3 (0, 0, 0) from_list_ok geometry16 Ho ltac:(lia) ltac:(cbn; lia) ltac:(lia))
    as (r & size & src' & vnode' & s' & f' & h' & Hw & _ & Hs & Hc & _).
  exists s, p, v, r, size, src', vnode', s', f'. split; [exact Hw|]. split; [exact Hs|exact Hc].
Defined.

Lemma tfs_read_back_witness : exists s p v r size src' vnode' s' dest' vnode'' s'',
  tfs_write (D := image 16) from_list s (fs 7 p) (root_vnode v) [1; 2; 3] 510 3 (0, 0, 0) = Some (r, Some size, src', vnode', s') /\
  tfs_read to_list s' (fs 7 p) vnode' [] 510 size (0, 0, 0) = Some (0, size, dest', vnode'', s'') /\ dest' = take (Z.to_nat size) [1; 2; 3].
Proof.
  destruct opened16 as (s & f & h & p & v & Ho & _).
  destruct (tfs_read_back 7 1 16 p from_list id to_list id list_space s f h 3 (root_vnode v) [1; 2; 3] [] 510 3 (0, 0, 0) (0, 0, 0) from_list_ok to_list_ok geometry16 Ho
    ltac:(lia) ltac:(cbn; lia) ltac:(lia) ltac:(unfold list_space; cbn; lia)) as (r & size & src' & vnode' & s' & f' & h' & Hw & _ & dest' & vnode'' & s'' & f'' & h'' & Hr & Hg & _).
  by exists s, p, v, r, size, src', vnode', s', dest', vnode'', s''.
Defined.

(** ** A run *)

(** Mount the new disk, write over the end of a block of the root, read it
    back, close and flush. *)
Definition tfs_run (data : list Z) (offset : Z) : option (Z * option Z * (Z * list Z) * Z * list Z) :=
  c ← cache_initialize true true (∅ : gmap hloc (list hloc)) ∅ (∅ : crings) disk16;
  s ← c.2;
  '(e, fs, root, s) ← tfs_mount s {| channel := 7; private := None |} (root_vnode 0);
  '(r, size, _, root, s) ← tfs_write from_list s fs root data offset (Z.of_nat (length data)) (0, 0, 0);
  '(_, n, l, root, s) ← vfs_read to_list s fs root [] offset 4096 (0, 0, 0);
  '(_, root, s) ← tfs_close s root;
  '(_, s) ← tfs_unmount s fs;
  '(e', s) ← cache_flush s 7 true;
  Some (e + r, size, (n, l), e', take 4 (drop (Z.to_nat (4 * i_size)) (block_of (bytes (devices s)) 3))).

Lemma tfs_run_ok : tfs_run [11; 12; 13; 14; 15] 510 = Some (0, Some 5, (5, [11; 12; 13; 14; 15]), 0, le_bytes 4 515).
Proof. vm_compute. reflexivity. Qed.
