(* ===== verification/AATree.v ===== *)
(** * Keyed trees (lib/libnc/set/aatree.c and its companions, include/set/tree.h)

    The kernel finds threads, ports and pending replies by key in an AA tree.
    A node of the model carries the key and level of the C node, and in [val]
    the object the node is embedded in.  The sentinel [nil_node] is [Nil]: its
    level is 0 and its children are itself.  The rotations of the source write
    through pointers that could be the sentinel; a write that would change it
    is the value [None], and part of what is proved is that it never happens.

    The tree is a search tree for the comparison function of the tree, its
    levels obey the AA discipline, and it implements a finite map. *)

From S2P Require Import Prelude.

Section AATree.
Context {V : Type}.

Inductive node_t :=
| Nil
| Node (key level : Z) (val : V) (left right : node_t).

Record tree_t := Tree {
  compare : Z -> Z -> Z;
  root : node_t;
  node_num : Z;
  removed : option V;
}.

Definition is_nil (n : node_t) : bool := match n with Nil => true | _ => false end.

Definition level (n : node_t) : Z := match n with Nil => 0 | Node _ lv _ _ _ => lv end.

Definition left (n : node_t) : node_t := match n with Nil => Nil | Node _ _ _ l _ => l end.

Definition right (n : node_t) : node_t := match n with Nil => Nil | Node _ _ _ _ r => r end.

(** [p->right = r] and [p->level = lv]; on the sentinel only the write that
    changes nothing is allowed. *)
Definition set_right (p r : node_t) : option node_t :=
  match p, r with
  | Nil, Nil => Some Nil
  | Nil, _ => None
  | Node k lv v l _, _ => Some (Node k lv v l r)
  end.

Definition set_level (p : node_t) (lv : Z) : option node_t :=
  match p with
  | Nil => None
  | Node k _ v l r => Some (Node k lv v l r)
  end.

Definition node_destroy (tree : tree_t) (v : V) : tree_t :=
  Tree (compare tree) (root tree) (u32 (node_num tree - 1)) (Some v).

Definition node_skew (p : node_t) : option node_t :=
  match p with
  | Nil => Some Nil
  | Node k lv v l r =>
      if level l =? lv then
        match l with
        | Nil => None
        | Node lk llv lval ll lr => Some (Node lk llv lval ll (Node k lv v lr r))
        end
      else Some p
  end.

Definition node_split (p : node_t) : option node_t :=
  match p with
  | Nil => None
  | Node k lv v l r =>
      if level (right r) =? lv then
        match r with
        | Nil => None
        | Node rk rlv rval rl rr => Some (Node rk (rlv + 1) rval (Node k lv v l rl) rr)
        end
      else Some p
  end.

(** The inner [option] is the [NULL] the source returns for a key that is
    already present. *)
Fixpoint node_put (tree : tree_t) (p : node_t) (key : Z) (child : V) : option (option node_t) :=
  match p with
  | Nil => Some (Some (Node key 1 child Nil Nil))
  | Node k lv v l r =>
      let d := compare tree key k in
      if d =? 0 then Some None
      else if d <? 0 then
        q ← node_put tree l key child;
        match q with
        | None => Some None
        | Some q => p ← node_skew (Node k lv v q r); p ← node_split p; Some (Some p)
        end
      else
        q ← node_put tree r key child;
        match q with
        | None => Some None
        | Some q => p ← node_skew (Node k lv v l q); p ← node_split p; Some (Some p)
        end
  end.

Definition node_rebalance (p : node_t) : option node_t :=
  match p with
  | Nil => Some Nil
  | Node k lv v l r =>
      if (level l <? lv - 1) || (level r <? lv - 1) then
        let lv := lv - 1 in
        r ← (if lv <? level r then set_level r lv else Some r);
        p ← node_skew (Node k lv v l r);
        q ← node_skew (right p); p ← set_right p q;
        q ← node_skew (right (right p)); q ← set_right (right p) q; p ← set_right p q;
        p ← node_split p;
        q ← node_split (right p); set_right p q
      else Some p
  end.

(** Unlinks the leftmost node of [p]: what is left of [p], and the node that
    takes the place (the level and the left subtree) of the one it replaces. *)
Fixpoint node_remove_swap (p : node_t) : option (node_t * (Z * V)) :=
  match p with
  | Nil => None
  | Node k lv v Nil r => Some (r, (k, v))
  | Node k lv v l r =>
      '(l', m) ← node_remove_swap l;
      p ← node_rebalance (Node k lv v l' r);
      Some (p, m)
  end.

Fixpoint node_remove (tree : tree_t) (p : node_t) (key : Z) : option (tree_t * node_t) :=
  match p with
  | Nil => Some (tree, Nil)
  | Node k lv v l r =>
      let d := compare tree key k in
      if d =? 0 then
        if is_nil l then Some (node_destroy tree v, r)
        else if is_nil r then Some (node_destroy tree v, l)
        else
          '(r', (mk, mv)) ← node_remove_swap r;
          p ← node_rebalance (Node mk lv mv l r');
          Some (node_destroy tree v, p)
      else if d <? 0 then
        '(tree, l') ← node_remove tree l key;
        p ← node_rebalance (Node k lv v l' r);
        Some (tree, p)
      else
        '(tree, r') ← node_remove tree r key;
        p ← node_rebalance (Node k lv v l r');
        Some (tree, p)
  end.

Definition compare_int (a b : Z) : Z := if b <? a then 1 else if a =? b then 0 else -1.

Definition tree_create (cmp : option (Z -> Z -> Z)) : tree_t :=
  Tree (default compare_int cmp) Nil 0 None.

Fixpoint node_get (tree : tree_t) (p : node_t) (key : Z) : option V :=
  match p with
  | Nil => None
  | Node k _ v l r =>
      let d := compare tree key k in
      if d =? 0 then Some v else node_get tree (if d <? 0 then l else r) key
  end.

Definition tree_get (tree : tree_t) (key : Z) : option V := node_get tree (root tree) key.

Definition tree_put (tree : tree_t) (key : Z) (n : V) : option (bool * tree_t) :=
  p ← node_put tree (root tree) key n;
  Some (match p with
        | Some p => (true, Tree (compare tree) p (u32 (node_num tree + 1)) (removed tree))
        | None => (false, tree)
        end).

Definition tree_remove (tree : tree_t) (key : Z) : option (option V * tree_t) :=
  let tree := Tree (compare tree) (root tree) (node_num tree) None in
  '(tree, r) ← node_remove tree (root tree) key;
  Some (removed tree, Tree (compare tree) r (node_num tree) (removed tree)).

Definition tree_size (tree : tree_t) : Z := node_num tree.

Definition tree_root (tree : tree_t) : option V :=
  match root tree with Nil => None | Node _ _ v _ _ => Some v end.

Fixpoint node_first (n : node_t) : option V :=
  match n with
  | Nil => None
  | Node _ _ v Nil _ => Some v
  | Node _ _ _ l _ => node_first l
  end.

Definition tree_first (tree : tree_t) : option V := node_first (root tree).

(** [callback] returns whether to stop, and its updated state. *)
Fixpoint _traverse {S} (n : node_t) (callback : V -> S -> bool * S) (state : S) : bool * S :=
  match n with
  | Nil => (false, state)
  | Node _ _ v l r =>
      let '(stop, state) := _traverse l callback state in
      if stop then (true, state) else
      let '(stop, state) := callback v state in
      if stop then (true, state) else
      let '(stop, state) := _traverse r callback state in
      if stop then (true, state) else (false, state)
  end.

Definition tree_traverse {S} (tree : tree_t) (callback : V -> S -> bool * S) (state : S) : S :=
  (_traverse (root tree) callback state).2.

End AATree.
Arguments node_t : clear implicits.
Arguments tree_t : clear implicits.

(** ** Well-formed trees *)

(** A comparison function in the sense of the source: a total order whose
    sign tells the two keys apart. *)
Class Comparator (cmp : Z -> Z -> Z) := {
  cmp_eq a b : cmp a b = 0 <-> a = b;
  cmp_antisym a b : cmp a b < 0 <-> 0 < cmp b a;
  cmp_trans a b c : cmp a b < 0 -> cmp b c < 0 -> cmp a c < 0;
}.

#[export] Instance compare_int_comparator : Comparator compare_int.
Proof.
  split; unfold compare_int; intros *;
    repeat match goal with |- context [?a <? ?b] => destruct (Z.ltb_spec a b)
           | |- context [?a =? ?b] => destruct (Z.eqb_spec a b) end; lia.
Qed.

Section Invariants.
Context {V : Type}.
Implicit Types (t p l r : node_t V) (v : V) (kv : Z * V).

(** The AA discipline on levels. *)
Fixpoint aa t : Prop :=
  match t with
  | Nil => True
  | Node k lv v l r =>
      level l = lv - 1 /\ lv - 1 <= level r <= lv /\ level (right r) < lv /\ aa l /\ aa r
  end.

Fixpoint elements t : list (Z * V) :=
  match t with
  | Nil => []
  | Node k _ v l r => elements l ++ (k, v) :: elements r
  end.

Lemma is_nil_true t : is_nil t = true -> t = Nil.
Proof. by destruct t. Qed.

Lemma aa_level_nonneg t : aa t -> 0 <= level t.
Proof. induction t; simpl; [lia|]. intros (? & ? & ? & ? & ?). apply IHt1 in H2. lia. Qed.

Lemma aa_right_level t : aa t -> level (right t) <= level t.
Proof. destruct t; simpl; lia. Qed.

(** *** Rotations keep the order of the elements *)

Lemma node_skew_elements p p' : node_skew p = Some p' -> elements p' = elements p.
Proof.
  destruct p as [|k lv v [|lk llv lval ll lr] r]; simpl; intros; repeat case_match; simplify_eq/=; try done.
  by rewrite <- app_assoc.
Qed.

Lemma node_split_elements p p' : node_split p = Some p' -> elements p' = elements p.
Proof.
  destruct p as [|k lv v l [|rk rlv rval rl rr]]; simpl; intros; repeat case_match; simplify_eq/=; try done.
  by rewrite <- app_assoc.
Qed.

Lemma set_level_elements p lv p' : set_level p lv = Some p' -> elements p' = elements p.
Proof. destruct p; simpl; intros; by simplify_eq/=. Qed.

Lemma set_right_elements p r p' :
  set_right p r = Some p' -> elements r = elements (right p) -> elements p' = elements p.
Proof. destruct p; simpl; intros Hp Hr; [by destruct r; simplify_eq|]. simplify_eq/=. by rewrite Hr. Qed.

Ltac bind_inv :=
  repeat match goal with
  | H : (_ ≫= _) = Some _ |- _ =>
      apply bind_Some in H; let x := fresh "x" in let E := fresh "E" in destruct H as (x & E & H)
  end.

Lemma node_rebalance_elements p p' : node_rebalance p = Some p' -> elements p' = elements p.
Proof.
  destruct p as [|k lv v l r]; cbn [node_rebalance]; [by intros [= <-]|].
  destruct (_ || _); [|by intros [= <-]]. intros Hp. bind_inv.
  assert (Ex : elements x = elements r) by (destruct (_ <? _); [by eapply set_level_elements|by simplify_eq]).
  pose proof (node_skew_elements _ _ E0) as E0e. simpl in E0e. rewrite Ex in E0e.
  pose proof (set_right_elements _ _ _ E2 (node_skew_elements _ _ E1)) as E2e.
  pose proof (set_right_elements _ _ _ E4 (node_skew_elements _ _ E3)) as E4e.
  pose proof (set_right_elements _ _ _ E5 E4e) as E5e.
  pose proof (node_split_elements _ _ E6) as E6e.
  pose proof (set_right_elements _ _ _ Hp (node_split_elements _ _ E7)) as E8e.
  simpl. congruence.
Qed.

(** *** Rotations restore the levels *)

Ltac aa_solve :=
  repeat match goal with
  | H : _ /\ _ |- _ => destruct H
  | H : aa ?t |- _ => lazymatch goal with
      | _ : 0 <= level t |- _ => fail
      | _ => pose proof (aa_level_nonneg t H) end
  | |- context [?a =? ?b] => destruct (Z.eqb_spec a b); simpl in *; try lia
  | |- context [?a <? ?b] => destruct (Z.ltb_spec a b); simpl in *; try lia
  end.

(** Runs the rotations symbolically: splits on the nodes they look at and on
    the level tests, and closes the impossible cases. *)
Ltac aa_run :=
  aa_solve; repeat (match goal with
  | |- context [node_skew ?t] => is_var t; destruct t; simpl in *
  | |- context [node_split ?t] => is_var t; destruct t; simpl in *
  | |- context [match ?t with Nil => _ | Node _ _ _ _ _ => _ end] =>
      is_var t; destruct t; simpl in *
  end; try lia; aa_solve).

Ltac aa_finish :=
  eexists; split; [reflexivity|]; simpl; split_and!; try done; try lia;
  try match goal with
  | |- level (right ?t) < _ => pose proof (aa_right_level t ltac:(done)); lia
  end.

(** What [node_put] gives back for a subtree. *)
Definition grown t t' : Prop :=
  aa t' /\ (level t' = level t \/
            (level t' = level t + 1 /\ level (right t') = level t /\ level (right t) = level t)).

Lemma put_left_balance k lv v l r l' :
  aa (Node k lv v l r) -> grown l l' ->
  exists p', (p ← node_skew (Node k lv v l' r); node_split p) = Some p' /\
    grown (Node k lv v l r) p'.
Proof.
  intros (Hl & Hr & Hrr & Hal & Har) [Hal' Hg]. unfold grown.
  destruct l' as [|lk llv lval ll lr]; simpl in *; aa_solve; aa_finish.
Qed.

Lemma put_right_balance k lv v l r r' :
  aa (Node k lv v l r) -> grown r r' ->
  exists p', (p ← node_skew (Node k lv v l r'); node_split p) = Some p' /\
    grown (Node k lv v l r) p'.
Proof.
  intros (Hl & Hr & Hrr & Hal & Har) [Har' Hg]. unfold grown.
  destruct l as [|lk llv lval ll lr], r' as [|rk rlv rval rl rr]; simpl in *; aa_solve; aa_finish.
Qed.

(** What [node_remove] gives back for a subtree: the level drops by at most
    one, and a right child of the node's own level does not appear. *)
Definition shrunk t t' : Prop :=
  aa t' /\ (level t' = level t \/ level t' = level t - 1) /\
  (level t' = level t -> level (right t) < level t -> level (right t') < level t').

Lemma shrunk_refl t : aa t -> shrunk t t.
Proof. unfold shrunk. intros. split_and!; auto. Qed.

Lemma rebalance_left k lv v k' v' l r l' :
  aa (Node k lv v l r) -> shrunk l l' ->
  exists p', node_rebalance (Node k' lv v' l' r) = Some p' /\
    shrunk (Node k lv v l r) p'.
Proof.
  intros (Hl & Hr & Hrr & Hal & Har) (Hal' & Hg & Hh). unfold shrunk.
  cbn [node_rebalance].
  destruct r as [|rk rlv rval [|rlk rllv rlval rll rlr] rr]; simpl in *; aa_run.
  all: aa_finish.
Qed.

Lemma rebalance_right k lv v k' v' l r r' :
  aa (Node k lv v l r) -> shrunk r r' ->
  exists p', node_rebalance (Node k' lv v' l r') = Some p' /\
    shrunk (Node k lv v l r) p'.
Proof.
  intros (Hl & Hr & Hrr & Hal & Har) (Har' & Hg & Hh). unfold shrunk.
  cbn [node_rebalance].
  destruct l as [|lk llv lval ll [|lrk lrlv lrval lrl lrr]]; simpl in *; aa_run.
  all: aa_finish.
Qed.

#[local] Arguments node_skew : simpl never.
#[local] Arguments node_split : simpl never.
#[local] Arguments node_rebalance : simpl never.

(** *** Insertion *)

Lemma node_put_balance tree t key child :
  aa t ->
  node_put tree t key child = Some None \/
  exists t', node_put tree t key child = Some (Some t') /\ grown t t'.
Proof.
  induction t as [|k lv v l IHl r IHr]; intros Haa; simpl.
  - right. eexists. split; [done|]. split; simpl; [lia|]. right. lia.
  - pose proof Haa as (_ & _ & _ & Hal & Har).
    destruct (_ =? 0); [by left|]. destruct (_ <? 0).
    + destruct (IHl Hal) as [->|(l' & -> & Hg)]; simpl; [by left|]. right.
      destruct (put_left_balance k lv v l r l' Haa Hg) as (p' & Hp & Hg').
      apply bind_Some in Hp as (p & -> & Hp). simpl. rewrite Hp. simpl. eauto.
    + destruct (IHr Har) as [->|(r' & -> & Hg)]; simpl; [by left|]. right.
      destruct (put_right_balance k lv v l r r' Haa Hg) as (p' & Hp & Hg').
      apply bind_Some in Hp as (p & -> & Hp). simpl. rewrite Hp. simpl. eauto.
Qed.

(** *** Deletion *)

Lemma node_remove_swap_balance t :
  aa t -> t ≠ Nil ->
  exists t' k v, node_remove_swap t = Some (t', (k, v)) /\ shrunk t t' /\
    elements t = (k, v) :: elements t'.
Proof.
  induction t as [|k lv v l IHl r IHr]; intros Haa Hn; [done|].
  destruct l as [|lk llv lval ll lr] eqn:El.
  - exists r, k, v. split; [done|]. split; [|done].
    destruct Haa as (? & ? & ? & ? & ?). unfold shrunk. simpl in *. split; [done|]. lia.
  - rewrite <- El in *. pose proof Haa as (_ & _ & _ & Hal & Har).
    destruct IHl as (l' & mk & mv & Hm & Hs & He); [done|by subst|].
    destruct (rebalance_left k lv v k v l r l' Haa Hs) as (p' & Hp & Hs').
    exists p', mk, mv. split_and!; [|done|].
    + rewrite El in *. cbn [node_remove_swap] in *. rewrite Hm. simpl. by rewrite Hp.
    + rewrite (node_rebalance_elements _ _ Hp). simpl. by rewrite He.
Qed.

Lemma node_remove_balance tree t key :
  aa t -> exists tree' t', node_remove tree t key = Some (tree', t') /\ shrunk t t'.
Proof.
  revert tree. induction t as [|k lv v l IHl r IHr]; intros tree Haa; simpl.
  - do 2 eexists. split; [done|]. by apply shrunk_refl.
  - pose proof Haa as (Hll & Hlr & Hlrr & Hal & Har).
    destruct (_ =? 0).
    + destruct l as [|lk llv lval ll lr] eqn:El; simpl.
      { do 2 eexists. split; [done|]. unfold shrunk. simpl in *. split; [done|]. lia. }
      rewrite <- El in *. destruct r as [|rk rlv rval rl rr] eqn:Er.
      { exfalso. subst l. simpl in *. pose proof (aa_level_nonneg ll). destruct Hal as (?&?&?&?&?).
        pose proof (aa_level_nonneg ll ltac:(done)). lia. }
      rewrite <- Er in *. subst l. simpl.
      destruct (node_remove_swap_balance r) as (r' & mk & mv & -> & Hs & _); [done|by subst|].
      simpl. destruct (is_nil r) eqn:En; [by subst|].
      destruct (rebalance_right k lv v mk mv _ r r' Haa Hs) as (p' & Hp & Hs').
      rewrite Hp. simpl. eauto.
    + destruct (_ <? 0).
      * destruct (IHl tree Hal) as (tree' & l' & -> & Hs). simpl.
        destruct (rebalance_left k lv v k v l r l' Haa Hs) as (p' & -> & Hs'). simpl. eauto.
      * destruct (IHr tree Har) as (tree' & r' & -> & Hs). simpl.
        destruct (rebalance_right k lv v k v l r r' Haa Hs) as (p' & -> & Hs'). simpl. eauto.
Qed.

(** ** Contents of the tree *)

Section Ordered.
Context (tree : tree_t V) `{HC : !Comparator (compare tree)}.
Notation cmp := (compare tree).

Definition ordered t : Prop := StronglySorted (λ a b, cmp a b < 0) (elements t).*1.

Lemma ordered_node k lv v l r :
  ordered (Node k lv v l r) <->
  ordered l /\ ordered r /\
  (forall kv, kv ∈ elements l -> cmp kv.1 k < 0) /\ (forall kv, kv ∈ elements r -> cmp k kv.1 < 0).
Proof.
  unfold ordered. simpl. rewrite fmap_app, fmap_cons, StronglySorted_app, StronglySorted_cons, Forall_fmap.
  rewrite Forall_forall. simpl. split.
  - intros (Hlr & Hl & Hr & Hsr). split_and!; try done. intros kv Hkv. apply Hlr; [|by left].
    by apply list_elem_of_fmap_2.
  - intros (Hl & Hr & Hlk & Hrk). split_and!; try done.
    intros x1 x2 (kv1 & -> & H1)%list_elem_of_fmap [->|(kv2 & -> & H2)%list_elem_of_fmap]%elem_of_cons.
    + auto.
    + eapply cmp_trans; eauto.
Qed.

Lemma cmp_irrefl a : ¬ cmp a a < 0.
Proof. pose proof (proj2 (cmp_eq a a) eq_refl). lia. Qed.

Lemma ordered_nodup t : ordered t -> NoDup (elements t).*1.
Proof.
  unfold ordered. induction ((elements t).*1) as [|a l IH]; [constructor|].
  intros [Ha Hl]%StronglySorted_cons. constructor; [|auto].
  intros Hin. rewrite Forall_forall in Ha. by apply (cmp_irrefl a), Ha.
Qed.

(** The three outcomes of a comparison on the way down. *)
Lemma cmp_cases a b :
  (cmp a b = 0 /\ a = b) \/ (cmp a b < 0 /\ cmp a b ≠ 0) \/ (cmp b a < 0 /\ 0 < cmp a b).
Proof. pose proof (cmp_eq a b). pose proof (cmp_antisym b a). lia. Qed.

Lemma node_get_spec t key v :
  ordered t -> node_get tree t key = Some v <-> (key, v) ∈ elements t.
Proof.
  induction t as [|k lv w l IHl r IHr]; intros Ho; simpl; [set_solver|].
  apply ordered_node in Ho as (Hl & Hr & Hlk & Hrk).
  rewrite elem_of_app, elem_of_cons.
  assert (Hnl : forall kv, kv ∈ elements l -> kv.1 = key -> cmp key k < 0) by (intros ? ? <-; auto).
  assert (Hnr : forall kv, kv ∈ elements r -> kv.1 = key -> cmp k key < 0) by (intros ? ? <-; auto).
  destruct (cmp_cases key k) as [[Hc ->]|[[Hc Hc']|[Hc Hc']]].
  - rewrite Hc, Z.eqb_refl. split; [intros [= ->]; auto|].
    intros [H|[H|H]]; [|by simplify_eq|]; exfalso.
    + pose proof (Hnl _ H eq_refl). lia.
    + pose proof (Hnr _ H eq_refl) as Hk. by apply cmp_irrefl in Hk.
  - rewrite (proj2 (Z.eqb_neq _ _)), (proj2 (Z.ltb_lt _ _)) by lia. rewrite (IHl Hl).
    split; [tauto|]. intros [H|[H|H]]; [done| |]; exfalso.
    + simplify_eq. by apply cmp_irrefl in Hc.
    + pose proof (Hnr _ H eq_refl). pose proof (cmp_antisym key k). lia.
  - rewrite (proj2 (Z.eqb_neq _ _)), (proj2 (Z.ltb_ge _ _)) by lia. rewrite (IHr Hr).
    split; [tauto|]. intros [H|[H|H]]; [| |done]; exfalso.
    + pose proof (Hnl _ H eq_refl). lia.
    + simplify_eq. by apply cmp_irrefl in Hc.
Qed.

(** Where the new element goes. *)
Definition inserted key child t t' : Prop :=
  exists l1 l2 : list (Z * V), elements t = l1 ++ l2 /\ elements t' = l1 ++ (key, child) :: l2 /\
    (forall kv, kv ∈ l1 -> cmp kv.1 key < 0) /\ (forall kv, kv ∈ l2 -> cmp key kv.1 < 0).

Lemma inserted_ordered key child t t' : ordered t -> inserted key child t t' -> ordered t'.
Proof.
  unfold ordered. intros Ho (l1 & l2 & Ht & Ht' & H1 & H2). rewrite Ht in Ho. rewrite Ht'.
  rewrite fmap_app in Ho. apply StronglySorted_app in Ho as (H12 & Hs1 & Hs2).
  rewrite fmap_app, fmap_cons, StronglySorted_app, StronglySorted_cons, Forall_fmap, Forall_forall.
  split_and!; try done.
  intros x1 x2 Hx1 [->|Hx2]%elem_of_cons; [|auto].
  apply list_elem_of_fmap in Hx1 as (kv & -> & Hkv). auto.
Qed.

Lemma node_put_spec t key child o :
  ordered t -> node_put tree t key child = Some o ->
  match o with
  | None => exists v, (key, v) ∈ elements t
  | Some t' => inserted key child t t'
  end.
Proof.
  revert o. induction t as [|k lv v l IHl r IHr]; intros o Ho Hp; simpl in Hp.
  - simplify_eq. exists [], []. set_solver.
  - apply ordered_node in Ho as (Hl & Hr & Hlk & Hrk).
    destruct (cmp_cases key k) as [[Hc ->]|[[Hc Hc']|[Hc Hc']]].
    + rewrite Hc, Z.eqb_refl in Hp. simplify_eq. exists v. set_solver.
    + rewrite (proj2 (Z.eqb_neq _ _)), (proj2 (Z.ltb_lt _ _)) in Hp by lia. bind_inv.
      destruct x as [l'|]; [|simplify_eq; destruct (IHl _ Hl E) as (w & ?); exists w; set_solver].
      apply (IHl _ Hl) in E as (l1 & l2 & He & He' & H1 & H2). bind_inv. simplify_eq.
      exists l1, (l2 ++ (k, v) :: elements r).
      rewrite (node_split_elements _ _ E0), (node_skew_elements _ _ E). simpl. rewrite He, He', <- !app_assoc.
      split_and!; try done. intros kv [?|[->|?]%elem_of_cons]%elem_of_app; [auto..|].
      eapply cmp_trans; eauto.
    + rewrite (proj2 (Z.eqb_neq _ _)), (proj2 (Z.ltb_ge _ _)) in Hp by lia. bind_inv.
      destruct x as [r'|]; [|simplify_eq; destruct (IHr _ Hr E) as (w & ?); exists w; set_solver].
      apply (IHr _ Hr) in E as (l1 & l2 & He & He' & H1 & H2). bind_inv. simplify_eq.
      exists (elements l ++ (k, v) :: l1), l2.
      rewrite (node_split_elements _ _ E0), (node_skew_elements _ _ E). simpl. rewrite He, He', <- !app_assoc.
      split_and!; try done. intros kv [?|[->|?]%elem_of_cons]%elem_of_app; [|auto..].
      eapply cmp_trans; eauto.
Qed.

Definition deleted key t t' (o : option V) : Prop :=
  match o with
  | None => (forall v, (key, v) ∉ elements t) /\ elements t' = elements t
  | Some v => exists l1 l2 : list (Z * V), elements t = l1 ++ (key, v) :: l2 /\ elements t' = l1 ++ l2
  end.

Lemma deleted_ordered key t t' o : ordered t -> deleted key t t' o -> ordered t'.
Proof.
  unfold ordered. destruct o as [v|]; simpl; [|by intros ? [_ ->]].
  intros Ho (l1 & l2 & Ht & ->). rewrite Ht, fmap_app, fmap_cons in Ho.
  apply StronglySorted_app in Ho as (H12 & Hs1 & [_ Hs2]%StronglySorted_cons).
  rewrite fmap_app. apply StronglySorted_app. split_and!; try done. intros. apply H12; [done|by right].
Qed.

Lemma node_remove_spec tr t key tr' t' :
  compare tr = cmp -> aa t -> ordered t -> node_remove tr t key = Some (tr', t') ->
  exists o, deleted key t t' o /\ tr' = match o with Some v => node_destroy tr v | None => tr end.
Proof.
  intros Hcmp. revert tr' t'. induction t as [|k lv v l IHl r IHr]; intros tr' t' Haa Ho Hr; simpl in Hr.
  - simplify_eq. exists None. split; [|done]. split; [|done]. set_solver.
  - pose proof Haa as (_ & _ & _ & Hal & Har). apply ordered_node in Ho as (Hol & Hor & Hlk & Hrk).
    rewrite Hcmp in Hr. destruct (cmp_cases key k) as [[Hc ->]|[[Hc Hc']|[Hc Hc']]].
    + rewrite Hc, Z.eqb_refl in Hr. exists (Some v).
      destruct (is_nil l) eqn:El.
      { apply is_nil_true in El as ->. simplify_eq. split; [|done]. by exists [], (elements t'). }
      destruct (is_nil r) eqn:Er.
      { apply is_nil_true in Er as ->. simplify_eq. split; [|done]. exists (elements t'), [].
        by rewrite app_nil_r. }
      destruct (node_remove_swap_balance r) as (r' & mk & mv & Hm & _ & He); [done|by intros ->|].
      rewrite Hm in Hr. simpl in Hr. bind_inv. simplify_eq. split; [|done].
      exists (elements l), (elements r). split; [done|].
      rewrite (node_rebalance_elements _ _ E). simpl. by rewrite He.
    + rewrite (proj2 (Z.eqb_neq _ _)), (proj2 (Z.ltb_lt _ _)) in Hr by lia.
      bind_inv. destruct x as [tr1 l']. bind_inv. simplify_eq.
      destruct (IHl _ _ Hal Hol E) as (o & Hd & ->). exists o. split; [|done].
      pose proof (node_rebalance_elements _ _ E0) as He. simpl in He.
      destruct o as [w|]; simpl in *.
      * destruct Hd as (l1 & l2 & H1 & H2). exists l1, (l2 ++ (k, v) :: elements r).
        by rewrite H1, He, H2, <- !app_assoc.
      * destruct Hd as [Hn Hd]. rewrite He, Hd. split; [|done].
        intros w. rewrite elem_of_app, elem_of_cons. intros [H|[H|H]]; [by eapply Hn| |].
        -- simplify_eq. by apply cmp_irrefl in Hc.
        -- pose proof (Hrk _ H). pose proof (cmp_antisym key k). simpl in *. lia.
    + rewrite (proj2 (Z.eqb_neq _ _)), (proj2 (Z.ltb_ge _ _)) in Hr by lia.
      bind_inv. destruct x as [tr1 r']. bind_inv. simplify_eq.
      destruct (IHr _ _ Har Hor E) as (o & Hd & ->). exists o. split; [|done].
      pose proof (node_rebalance_elements _ _ E0) as He. simpl in He.
      destruct o as [w|]; simpl in *.
      * destruct Hd as (l1 & l2 & H1 & H2). exists (elements l ++ (k, v) :: l1), l2.
        by rewrite H1, He, H2, <- !app_assoc.
      * destruct Hd as [Hn Hd]. rewrite He, Hd. split; [|done].
        intros w. rewrite elem_of_app, elem_of_cons. intros [H|[H|H]]; [| |by eapply Hn].
        -- pose proof (Hlk _ H). simpl in *. lia.
        -- simplify_eq. by apply cmp_irrefl in Hc.
Qed.

End Ordered.

End Invariants.

Section Trees.
Context {V : Type}.
Implicit Types (tree : tree_t V) (t : node_t V).

(** A tree as the callers see it: a finite map from keys to objects. *)
Definition tree_map tree : gmap Z V := list_to_map (elements (root tree)).

Definition tree_wf tree : Prop :=
  Comparator (compare tree) /\ aa (root tree) /\ ordered tree (root tree) /\
  node_num tree = u32 (Z.of_nat (length (elements (root tree)))).

Fixpoint height t : Z :=
  match t with Nil => 0 | Node _ _ _ l r => 1 + Z.max (height l) (height r) end.

Lemma height_level t :
  aa t -> height t <= 2 * level t /\ (level (right t) < level t -> height t <= 2 * level t - 1).
Proof.
  induction t as [|k lv v l IHl r IHr]; simpl; [lia|].
  intros (Hl & Hr & Hrr & Hal & Har). destruct (IHl Hal) as [Hhl _], (IHr Har) as [Hhr Hhr'].
  assert (level r = lv \/ level r = lv - 1) as [E|E] by lia.
  - specialize (Hhr' ltac:(lia)). lia.
  - lia.
Qed.

Lemma level_elements t : aa t -> 2 ^ level t <= Z.of_nat (length (elements t)) + 1.
Proof.
  induction t as [|k lv v l IHl r IHr]; simpl; [lia|].
  intros (Hl & Hr & Hrr & Hal & Har). specialize (IHl Hal). specialize (IHr Har).
  pose proof (aa_level_nonneg l Hal).
  assert (2 ^ (lv - 1) <= 2 ^ level r) by (apply Z.pow_le_mono_r; lia).
  rewrite Hl in IHl. replace lv with (Z.succ (lv - 1)) at 1 by lia. rewrite Z.pow_succ_r by lia.
  rewrite length_app. simpl. lia.
Qed.

(** The traversal as a fold that stops at the first callback that says so. *)
Fixpoint run_until {S} (callback : V -> S -> bool * S) (vs : list V) (state : S) : bool * S :=
  match vs with
  | [] => (false, state)
  | v :: vs =>
      let '(stop, state) := callback v state in
      if stop then (true, state) else run_until callback vs state
  end.

Lemma run_until_app {S} (callback : V -> S -> bool * S) l1 l2 state :
  run_until callback (l1 ++ l2) state =
  let '(stop, state) := run_until callback l1 state in
  if stop then (true, state) else run_until callback l2 state.
Proof.
  revert state. induction l1 as [|v l1 IH]; intros state; simpl; [done|].
  destruct (callback v state) as [[] s]; [done|]. apply IH.
Qed.

Lemma _traverse_run {S} (callback : V -> S -> bool * S) t state :
  _traverse t callback state = run_until callback (elements t).*2 state.
Proof.
  revert state. induction t as [|k lv v l IHl r IHr]; intros state; [done|].
  cbn [_traverse elements]. rewrite fmap_app, fmap_cons, run_until_app, IHl. simpl.
  destruct (run_until _ _ _) as [[] s]; [done|]. destruct (callback v s) as [[] s']; [done|].
  rewrite IHr. by destruct (run_until _ _ _) as [[] ?].
Qed.

Lemma tree_map_lookup tree k v :
  tree_wf tree -> tree_map tree !! k = Some v <-> (k, v) ∈ elements (root tree).
Proof.
  intros (? & _ & Ho & _). symmetry. apply elem_of_list_to_map. by eapply ordered_nodup.
Qed.

Lemma tree_wf_create : tree_wf (tree_create (V := V) None).
Proof. split_and!; [apply _|done|constructor|done]. Qed.

(** [tree_put] on a fresh key. *)
Lemma tree_put_fresh tree k v :
  tree_wf tree -> tree_map tree !! k = None ->
  exists tree', tree_put tree k v = Some (true, tree') /\ tree_wf tree' /\
    tree_map tree' = <[k := v]> (tree_map tree).
Proof.
  intros Hwf Hn. pose proof Hwf as (HC & Haa & Ho & Hnum). unfold tree_put.
  destruct (node_put_balance tree (root tree) k v Haa) as [Hp|(t' & Hp & Haa' & _)]; rewrite Hp; simpl.
  { apply (node_put_spec tree) in Hp as (w & Hw); [|done].
    apply tree_map_lookup in Hw; [|done]. congruence. }
  eexists. split; [done|]. pose proof Hp as Hi. apply (node_put_spec tree) in Hi; [|done].
  pose proof (inserted_ordered tree k v _ _ Ho Hi) as Ho'. destruct Hi as (l1 & l2 & He & He' & _ & _).
  split; [split_and!; try done|]; simpl.
  - rewrite Hnum, He', He, !length_app. simpl. unfold u32. rewrite Zplus_mod_idemp_l. f_equal. lia.
  - unfold tree_map. simpl. rewrite He, He'. rewrite <- list_to_map_cons.
    apply list_to_map_proper; [|by rewrite Permutation_middle].
    rewrite <- He'. by eapply (ordered_nodup tree).
Qed.

Lemma tree_put_present tree k v w :
  tree_wf tree -> tree_map tree !! k = Some w -> tree_put tree k v = Some (false, tree).
Proof.
  intros Hwf Hk. pose proof Hwf as (HC & Haa & Ho & Hnum). unfold tree_put.
  destruct (node_put_balance tree (root tree) k v Haa) as [->|(t' & Hp & Haa' & _)]; [done|].
  exfalso. apply (node_put_spec tree) in Hp as (l1 & l2 & He & _ & H1 & H2); [|done].
  apply tree_map_lookup in Hk; [|done]. rewrite He in Hk.
  apply elem_of_app in Hk as [Hk|Hk]; [apply H1 in Hk|apply H2 in Hk]; by apply (cmp_irrefl tree k).
Qed.

Lemma tree_remove_spec tree k :
  tree_wf tree ->
  exists tree', tree_remove tree k = Some (tree_map tree !! k, tree') /\ tree_wf tree' /\
    tree_map tree' = delete k (tree_map tree).
Proof.
  intros Hwf. pose proof Hwf as (HC & Haa & Ho & Hnum). unfold tree_remove. simpl.
  set (tr := Tree (compare tree) (root tree) (node_num tree) None).
  destruct (node_remove_balance tr (root tree) k Haa) as (tr' & t' & Hr & Haa' & _).
  rewrite Hr. simpl. apply (node_remove_spec tree) in Hr as (o & Hd & ->); [|done..].
  pose proof (deleted_ordered tree k _ _ _ Ho Hd) as Ho'.
  assert (Hnd := ordered_nodup tree _ Ho).
  destruct o as [v|]; simpl in Hd |- *.
  - destruct Hd as (l1 & l2 & He & He').
    assert (Hm : tree_map tree = <[k := v]> (list_to_map (l1 ++ l2))).
    { unfold tree_map. rewrite He, <- list_to_map_cons. rewrite He in Hnd.
      apply list_to_map_proper; [done|]. by rewrite Permutation_middle. }
    assert (Hn : (list_to_map (l1 ++ l2) : gmap Z V) !! k = None).
    { apply not_elem_of_list_to_map_1. rewrite He, fmap_app, fmap_cons in Hnd. rewrite fmap_app.
      apply NoDup_app in Hnd as (_ & Hd & [Hk _]%NoDup_cons). simpl in *.
      intros [Hin|Hin]%elem_of_app; [|done]. by apply (Hd _ Hin); left. }
    eexists. split; [rewrite Hm, lookup_insert_eq; done|]. split; [split_and!; try done|]; simpl.
    + rewrite Hnum, He, He', !length_app. simpl. unfold u32. rewrite Zminus_mod_idemp_l. f_equal. lia.
    + unfold tree_map at 1. simpl. by rewrite He', Hm, delete_insert_eq, delete_id.
  - destruct Hd as [Hn He].
    assert (Hk : tree_map tree !! k = None).
    { destruct (tree_map tree !! k) as [v|] eqn:E; [|done].
      apply tree_map_lookup in E; [|done]. by apply Hn in E. }
    eexists. split; [by rewrite Hk|]. split; [split_and!; try done|]; simpl.
    + by rewrite He.
    + unfold tree_map at 1. simpl. rewrite He. by rewrite delete_id.
Qed.

Lemma tree_get_map tree k : tree_wf tree -> tree_get tree k = tree_map tree !! k.
Proof.
  intros Hwf. pose proof Hwf as (HC & _ & Ho & _). apply option_eq. intros v.
  rewrite tree_map_lookup by done. by apply node_get_spec.
Qed.

End Trees.

(** ** The interface of the component: a keyed store *)

Class KeyMap (T : Type -> Type) := {
  km_get {V} : T V -> Z -> option V;
  km_put {V} : T V -> Z -> V -> option (bool * T V);
  km_remove {V} : T V -> Z -> option (option V * T V);
  km_new {V} : T V;
  km_wf {V} : T V -> Prop;
  km_map {V} : T V -> gmap Z V;
}.

Class KeyMapLaws (T : Type -> Type) `{!KeyMap T} := {
  km_new_wf {V} : km_wf (km_new (T := T) (V := V));
  km_new_map {V} : km_map (km_new (T := T) (V := V)) = ∅;
  km_get_law {V} (t : T V) k : km_wf t -> km_get t k = km_map t !! k;
  km_put_fresh {V} (t : T V) k v : km_wf t -> km_map t !! k = None ->
    exists t', km_put t k v = Some (true, t') /\ km_wf t' /\ km_map t' = <[k := v]> (km_map t);
  km_put_present {V} (t : T V) k v w : km_wf t -> km_map t !! k = Some w ->
    km_put t k v = Some (false, t);
  km_remove_law {V} (t : T V) k : km_wf t ->
    exists t', km_remove t k = Some (km_map t !! k, t') /\ km_wf t' /\
      km_map t' = delete k (km_map t);
}.

#[export] Instance aatree_keymap : KeyMap tree_t := {
  km_get V := tree_get;
  km_put V := tree_put;
  km_remove V := tree_remove;
  km_new V := tree_create None;
  km_wf V := tree_wf;
  km_map V := tree_map;
}.

#[export] Instance aatree_keymap_laws : KeyMapLaws tree_t.
Proof.
  split; simpl; intros.
  - apply tree_wf_create.
  - done.
  - by apply tree_get_map.
  - by apply tree_put_fresh.
  - by eapply tree_put_present.
  - by apply tree_remove_spec.
Qed.

(** ** Properties of the tree component *)

Section Properties.
Context {V : Type}.
Implicit Types (tree : tree_t V).

(** The height is logarithmic: a tree of [n] nodes has height [h] with
    [2^h <= (n + 1)^2], so a search passes at most [2 log2 (n + 1)] nodes. *)
Definition balanced tree : Prop := 2 ^ height (root tree) <= (Z.of_nat (size (tree_map tree)) + 1) ^ 2.

Lemma tree_wf_balanced tree : tree_wf tree -> balanced tree.
Proof.
  intros (HC & Haa & Ho & _). unfold balanced, tree_map.
  rewrite map_size_list_to_map by by eapply (ordered_nodup tree).
  pose proof (height_level _ Haa) as [Hh _]. pose proof (level_elements _ Haa).
  pose proof (aa_level_nonneg _ Haa).
  trans (2 ^ (2 * level (root tree))); [apply Z.pow_le_mono_r; lia|].
  rewrite Z.mul_comm, Z.pow_mul_r by lia. apply Z.pow_le_mono_l. lia.
Qed.

(** C28: [tree_put] is total and keeps the tree well formed.  On a key that is
    absent it links the node, on a key that is present it reports failure and
    leaves the tree as it was; in both cases the search order and the AA
    balance hold afterwards, no rotation touches the sentinel, and [tree_get]
    of every key answers as a finite map would.  The tree stays balanced: its
    height is at most twice the logarithm of the number of nodes and one. *)
Theorem tree_put_correct tree k v :
  tree_wf tree ->
  exists ok tree', tree_put tree k v = Some (ok, tree') /\ tree_wf tree' /\
    (ok = true <-> tree_get tree k = None) /\
    (forall k', tree_get tree' k' =
       if decide (ok = true /\ k = k') then Some v else tree_get tree k') /\
    balanced tree'.
Proof.
  intros Hwf. pose proof (tree_get_map tree k Hwf) as Hg.
  destruct (tree_map tree !! k) as [w|] eqn:Hk.
  - exists false, tree. rewrite (tree_put_present tree k v w) by done.
    split_and!; [done..|split; [done|congruence]| |by apply tree_wf_balanced]. intros k'. rewrite decide_False by naive_solver. done.
  - destruct (tree_put_fresh tree k v Hwf Hk) as (tree' & Hp & Hwf' & Hm).
    exists true, tree'. split_and!; [done..|by rewrite Hg| |by apply tree_wf_balanced]. intros k'.
    rewrite !tree_get_map, Hm, lookup_insert by done. repeat case_decide; naive_solver.
Qed.

(** C29: [tree_remove] is total and keeps the tree well formed; it returns the
    object stored under the key ([NULL] when there is none) and removes
    exactly that binding, and the tree stays balanced. *)
Theorem tree_remove_correct tree k :
  tree_wf tree ->
  exists tree', tree_remove tree k = Some (tree_get tree k, tree') /\ tree_wf tree' /\
    (forall k', tree_get tree' k' = if decide (k = k') then None else tree_get tree k') /\
    balanced tree'.
Proof.
  intros Hwf. destruct (tree_remove_spec tree k Hwf) as (tree' & Hr & Hwf' & Hm).
  exists tree'. rewrite tree_get_map by done. split_and!; [done..| |by apply tree_wf_balanced].
  intros k'. rewrite !tree_get_map, Hm, lookup_delete by done. done.
Qed.

(** [tree_traverse] visits the objects in ascending key order, each once,
    and stops at the first one for which the callback returns non-zero;
    [tree_first] is the object with the smallest key. *)
Theorem tree_traverse_in_order {S} tree (callback : V -> S -> bool * S) (state : S) :
  tree_wf tree ->
  exists kvs : list (Z * V), StronglySorted (λ a b, compare tree a b < 0) kvs.*1 /\
    (forall k v, (k, v) ∈ kvs <-> tree_get tree k = Some v) /\
    tree_traverse tree callback state = (run_until callback kvs.*2 state).2 /\
    tree_first tree = snd <$> head kvs.
Proof.
  intros Hwf. pose proof Hwf as (HC & _ & Ho & _). exists (elements (root tree)). split_and!.
  - exact Ho.
  - intros k v. by rewrite tree_get_map, tree_map_lookup.
  - unfold tree_traverse. by rewrite _traverse_run.
  - unfold tree_first. induction (root tree) as [|k lv v l IHl r IHr]; [done|].
    apply (ordered_node tree) in Ho as (Hl & _ & _ & _). specialize (IHl Hl). simpl.
    destruct l as [|lk llv lval ll lr]; [done|]. rewrite IHl. simpl. by destruct (elements ll).
Qed.

End Properties.

(** ** Witnesses *)

(** Keys put in ascending order, the order that rotates the most. *)
Definition demo_tree : tree_t Z :=
  foldl (λ t k, match tree_put t k (10 * k) with Some (_, t) => t | None => t end)
    (tree_create None) [1; 2; 3; 4; 5; 6; 7].

Example demo_tree_root : tree_root demo_tree = Some 40.
Proof. reflexivity. Qed.

Lemma put_wf {V} (t : tree_t V) k v ok t' :
  tree_wf t -> tree_put t k v = Some (ok, t') -> tree_wf t'.
Proof.
  intros Hwf Hp. destruct (tree_map t !! k) as [w|] eqn:Hk.
  - rewrite (tree_put_present t k v w) in Hp by done. by simplify_eq.
  - destruct (tree_put_fresh t k v Hwf Hk) as (t2 & Hp2 & ? & _). by simplify_eq.
Qed.

Lemma demo_tree_wf : tree_wf demo_tree.
Proof.
  unfold demo_tree. generalize (tree_wf_create (V := Z)).
  generalize (tree_create (V := Z) None). induction [1; 2; 3; 4; 5; 6; 7] as [|k ks IH]; intros t Ht; [done|].
  simpl. apply IH. destruct (tree_put t k (10 * k)) as [[ok t']|] eqn:E; [|done]. by eapply put_wf.
Qed.

Lemma tree_put_correct_witness :
  exists ok tree', tree_put demo_tree 8 80 = Some (ok, tree') /\ tree_wf tree' /\
    (ok = true <-> tree_get demo_tree 8 = None) /\
    (forall k', tree_get tree' k' =
       if decide (ok = true /\ 8 = k') then Some 80 else tree_get demo_tree k') /\
    balanced tree'.
Proof. apply (tree_put_correct demo_tree 8 80). exact demo_tree_wf. Defined.

Lemma tree_remove_correct_witness :
  exists tree', tree_remove demo_tree 4 = Some (Some 40, tree') /\ tree_wf tree' /\
    (forall k', tree_get tree' k' = if decide (4 = k') then None else tree_get demo_tree k') /\
    balanced tree'.
Proof. apply (tree_remove_correct demo_tree 4). exact demo_tree_wf. Defined.

Lemma tree_traverse_in_order_witness :
  exists kvs : list (Z * Z), StronglySorted (λ a b, compare demo_tree a b < 0) kvs.*1 /\
    (forall k v, (k, v) ∈ kvs <-> tree_get demo_tree k = Some v) /\
    tree_traverse demo_tree (λ v s, (v =? 30, s ++ [v])) [] = (run_until (λ v s, (v =? 30, s ++ [v])) kvs.*2 []).2 /\
    tree_first demo_tree = snd <$> head kvs.
Proof. apply (tree_traverse_in_order demo_tree). exact demo_tree_wf. Defined.
