(* ===== verification/Sequence.v ===== *)
(** * Identifier sequences (lib/libnc/set/sequence.c, sequence_initialize.c)

    A bitmap of free numbers searched from where the last search ended.  The
    kernel takes the keys of pending replies from one, the process manager its
    process and thread identifiers. *)

From S2P Require Import Prelude Bitmap.

Record sequence_t := Sequence {
  rest : Z;
  clock_block : Z;
  num_of_blocks : Z;
  map : list Z;
  mask : Z;
}.

Definition MASK_ALL : Z := 0xffffffff.

Definition SEQUENCE_BLOCK_SIZE (n : Z) : Z := Z.shiftr (n + (INT_BIT - 1)) MPU_LOG_INT.

Definition INT_MAX : Z := 2 ^ 31 - 1.

(** [buf] says whether the caller passed a buffer. *)
Definition sequence_initialize (max : Z) (buf : bool) : Z * option sequence_t :=
  if (max =? 0) || (INT_MAX <? max) || negb buf then (-1, None)
  else
    let n := SEQUENCE_BLOCK_SIZE max in
    let m := replicate (Z.to_nat n) MASK_ALL in
    let remainder := Z.land max (INT_BIT - 1) in
    let m := if remainder =? 0 then m
             else <[Z.to_nat (n - 1) := Z.shiftl 1 remainder - 1]> m in
    (0, Some (Sequence max 0 n m MASK_ALL)).

Definition _find (s : sequence_t) (block : Z) : option (Z * sequence_t) :=
  w ← map s !! Z.to_nat block;
  let bits := Z.land w (mask s) in
  if bits =? 0 then
    Some (-1, Sequence (rest s) (clock_block s) (num_of_blocks s) (map s) MASK_ALL)
  else
    let offset := count_ntz bits in
    let b := Z.shiftl 1 offset in
    Some (bit_number block offset,
          Sequence (u32 (rest s - 1)) block (num_of_blocks s)
            (<[Z.to_nat block := bit_clear w offset]> (map s))
            (u32 (Z.lnot (u32 (Z.shiftl b 1) - 1)))).

(** [for (i = i0; ...; i++)] over [n] blocks, left at the first hit. *)
Fixpoint scan (n : nat) (s : sequence_t) (i : Z) : option (Z * sequence_t) :=
  match n with
  | O => Some (-1, s)
  | S n =>
      '(k, s) ← _find s i;
      if 0 <=? k then Some (k, s) else scan n s (i + 1)
  end.

Definition sequence_get (s : sequence_t) : option (Z * sequence_t) :=
  if 0 <? rest s then
    '(k, s) ← scan (Z.to_nat (num_of_blocks s - clock_block s)) s (clock_block s);
    if 0 <=? k then Some (k, s)
    else scan (Z.to_nat (clock_block s + 1)) s 0
  else Some (-1, s).

Definition sequence_release (s : sequence_t) (n : Z) : option sequence_t :=
  let block := Z.shiftr (u32 n) MPU_LOG_INT in
  if num_of_blocks s <=? block then Some s
  else
    w ← map s !! Z.to_nat block;
    let offset := Z.land (u32 n) (INT_BIT - 1) in
    if Z.testbit w offset then Some s
    else
      let m := <[Z.to_nat block := bit_set w offset]> (map s) in
      Some (if rest s =? 0
            then Sequence (u32 (rest s + 1)) block (num_of_blocks s) m MASK_ALL
            else Sequence (u32 (rest s + 1)) (clock_block s) (num_of_blocks s) m (mask s)).

(** ** Invariant *)

Definition free (s : sequence_t) : gset Z := free_bits (map s).

Definition sequence_wf (s : sequence_t) : Prop :=
  words (map s) /\ is_u32 (mask s) /\
  num_of_blocks s = Z.of_nat (length (map s)) /\ 0 <= clock_block s < num_of_blocks s /\
  num_of_blocks s <= 2 ^ 26 /\ rest s = Z.of_nat (size (free s)).

Lemma free_size_bound s :
  num_of_blocks s = Z.of_nat (length (map s)) -> num_of_blocks s <= 2 ^ 26 ->
  Z.of_nat (size (free s)) <= 2 ^ 31.
Proof.
  intros Hn Hb. assert (size (free s) <= size (list_to_set (C := gset Z) (seqZ 0 (32 * num_of_blocks s))))%nat.
  { apply subseteq_size. intros n Hf. apply elem_of_list_to_set, elem_of_seqZ.
    apply free_bits_lt in Hf. lia. }
  rewrite size_list_to_set, length_seqZ in H by apply NoDup_seqZ. lia.
Qed.

Lemma land_MASK_ALL w : is_u32 w -> Z.land w MASK_ALL = w.
Proof.
  intros. change MASK_ALL with (Z.ones 32). rewrite Z.land_ones by lia. by apply Z.mod_small.
Qed.

(** [_find] either takes the lowest free number of the block the mask lets
    through, or finds none and resets the mask. *)
Lemma _find_spec s block :
  sequence_wf s -> 0 <= block < num_of_blocks s ->
  (exists k s', _find s block = Some (k, s') /\ k ∈ free s /\ free s' = free s ∖ {[k]} /\ sequence_wf s') \/
  (exists w, map s !! Z.to_nat block = Some w /\ Z.land w (mask s) = 0 /\
   _find s block = Some (-1, Sequence (rest s) (clock_block s) (num_of_blocks s) (map s) MASK_ALL)).
Proof.
  intros (Hw & Hm & Hn & Hc & Hb & Hr) Hbl. unfold _find.
  destruct (lookup_lt_is_Some_2 (map s) (Z.to_nat block)) as [w Hlk]; [lia|].
  rewrite Hlk. simpl. pose proof (words_lookup _ _ _ Hw Hlk) as Hu.
  destruct (Z.eqb_spec (Z.land w (mask s)) 0) as [E|E]; [right; eauto|left].
  pose proof (land_range w (mask s) Hu) as [H0 H1]. set (o := count_ntz _) in *.
  assert (0 <= o < 32) by (split; [apply count_ntz_nonneg|apply count_ntz_lt; lia]).
  assert (Hbit : Z.testbit w o = true).
  { pose proof (count_ntz_set (Z.land w (mask s)) ltac:(lia)) as Hs. fold o in Hs.
    rewrite Z.land_spec in Hs. by apply andb_true_iff in Hs as []. }
  assert (Hin : bit_number block o ∈ free s).
  { apply elem_of_free_bits. split; [rewrite bit_number_eq by (unfold INT_BIT; lia); lia|].
    rewrite <- (Z2Nat.id block), (map_bit_number _ _ w) by (lia || done). done. }
  assert (Hf : free_bits (<[Z.to_nat block := bit_clear w o]> (map s)) = free s ∖ {[bit_number block o]}).
  { rewrite (free_bits_clear _ _ w) by done. by rewrite Z2Nat.id by lia. }
  do 2 eexists. split; [done|]. split; [done|]. split; [done|].
  split_and!; simpl; unfold free; simpl; try lia; try done.
  - apply words_update; [done|]. apply bit_clear_range; [exact Hu|lia..].
  - apply u32_range.
  - by rewrite length_insert.
  - rewrite Hf, size_difference, size_singleton by set_solver.
    pose proof (free_size_bound s Hn Hb).
    assert (0 < size (free s))%nat.
    { apply Nat.neq_0_lt_0. intros Hz. apply size_empty_inv in Hz. set_solver. }
    rewrite u32_small by (unfold is_u32; lia). unfold free in *. lia.
Qed.

(** The scan finds a number, or all the words it looked at (but for the bits
    masked off in the first) are empty. *)
Lemma scan_spec n s i :
  sequence_wf s -> 0 <= i -> i + Z.of_nat n <= num_of_blocks s ->
  (exists k s', scan n s i = Some (k, s') /\ 0 <= k /\ k ∈ free s /\ free s' = free s ∖ {[k]} /\
    sequence_wf s') \/
  (scan n s i = Some (-1, if n then s else Sequence (rest s) (clock_block s) (num_of_blocks s) (map s) MASK_ALL) /\
   forall j w, i <= j < i + Z.of_nat n -> map s !! Z.to_nat j = Some w ->
     Z.land w (if decide (i = j) then mask s else MASK_ALL) = 0).
Proof.
  revert s i. induction n as [|n IH]; intros s i Hwf Hi Hn; simpl.
  - right. split; [done|]. intros. lia.
  - destruct (_find_spec s i Hwf) as [(k & s' & Hf & Hk & Hfr & Hwf')|(w & Hw & Hz & Hf)]; [lia| |].
    + left. exists k, s'. rewrite Hf. simpl. pose proof (proj1 (proj1 (elem_of_free_bits _ _) Hk)).
      rewrite (proj2 (Z.leb_le _ _)) by done. done.
    + rewrite Hf. simpl. set (s1 := Sequence _ _ _ _ _).
      assert (Hwf1 : sequence_wf s1).
      { destruct Hwf as (? & _ & ? & ? & ? & ?). split_and!; try done; simpl; unfold MASK_ALL; lia. }
      destruct (IH s1 (i + 1) Hwf1) as [(k & s' & Hs & Hp)|[Hs Hall]]; [lia|simpl; lia| |].
      * left. exists k, s'. rewrite Hs. by destruct Hp as (? & ? & ? & ?).
      * right. rewrite Hs. split; [by destruct n|].
        intros j w' Hj Hw'. case_decide as Hij; [subst; by simplify_eq|].
        specialize (Hall j w' ltac:(lia) Hw'). simpl in Hall. by case_decide.
Qed.

(** ** The operations *)

Lemma sequence_get_spec s :
  sequence_wf s ->
  exists k s', sequence_get s = Some (k, s') /\ sequence_wf s' /\
    ((free s = ∅ /\ k = -1 /\ s' = s) \/
     (k ∈ free s /\ free s' = free s ∖ {[k]})).
Proof.
  intros Hwf. pose proof Hwf as (Hw & Hm & Hn & Hc & Hb & Hr). unfold sequence_get.
  destruct (Z.ltb_spec 0 (rest s)) as [Hpos|Hz].
  2:{ exists (-1), s. split; [done|]. split; [done|]. left. split_and!; try done.
      apply leibniz_equiv, size_empty_inv. lia. }
  destruct (scan_spec (Z.to_nat (num_of_blocks s - clock_block s)) s (clock_block s) Hwf)
    as [(k & s' & -> & Hk0 & Hk & Hf & Hwf')|[-> H1]]; [lia..| |]; simpl.
  { rewrite (proj2 (Z.leb_le _ _)) by lia. eauto 10. }
  destruct (Z.to_nat _) as [|n1] eqn:En; [lia|].
  set (s1 := Sequence _ _ _ _ _).
  assert (Hwf1 : sequence_wf s1) by (split_and!; try done; simpl; unfold MASK_ALL; lia).
  destruct (scan_spec (Z.to_nat (clock_block s1 + 1)) s1 0 Hwf1)
    as [(k & s' & -> & Hk0 & Hk & Hf & Hwf')|[_ H2]]; [simpl; lia..| |]; [eauto 10|].
  exfalso. assert (He : free s = ∅).
  { apply set_eq. intros n. split; [|set_solver]. intros Hin.
    pose proof (free_bits_lt _ _ Hin) as Hlt.
    apply free_bits_block in Hin as (i & w & Hi & Hlk & Hbit & _).
    pose proof (Z.div_pos n 32 ltac:(lia) ltac:(lia)).
    pose proof (Z.div_lt_upper_bound n 32 (num_of_blocks s) ltac:(lia) ltac:(lia)).
    assert (Hw0 : w = 0).
    { rewrite <- (land_MASK_ALL w) by (by eapply words_lookup).
      destruct (decide (clock_block s < n / 32)).
      - specialize (H1 (n / 32) w ltac:(lia)). rewrite decide_False in H1 by lia. apply H1. by subst.
      - specialize (H2 (n / 32) w). simpl in H2. rewrite Hi in H2.
        specialize (H2 ltac:(lia) Hlk). by destruct (decide (0 = n / 32)). }
    subst. rewrite Z.bits_0 in Hbit. done. }
  rewrite He, size_empty in Hr. lia.
Qed.

Lemma sequence_release_spec s n :
  sequence_wf s -> 0 <= n < 2 ^ 31 ->
  exists s', sequence_release s n = Some s' /\ sequence_wf s' /\
    free s' = (if decide (n < 32 * num_of_blocks s) then {[n]} ∪ free s else free s) /\
    (n ∈ free s -> s' = s).
Proof.
  intros Hwf Hn. pose proof Hwf as (Hw & Hm & Hnum & Hc & Hb & Hr). unfold sequence_release.
  rewrite u32_small by (unfold is_u32; lia). unfold MPU_LOG_INT, INT_BIT.
  rewrite Z.shiftr_div_pow2 by lia. change (32 - 1) with (Z.ones 5). rewrite Z.land_ones by lia.
  change (2 ^ 5) with 32.
  pose proof (Z.div_pos n 32 ltac:(lia) ltac:(lia)). pose proof (Z.mod_pos_bound n 32 ltac:(lia)) as Hmod.
  pose proof (Z.div_mod n 32 ltac:(lia)) as Hdm.
  destruct (Z.leb_spec (num_of_blocks s) (n / 32)).
  { exists s. split_and!; [done..| |done]. rewrite decide_False; [done|]. lia. }
  rewrite decide_True by lia.
  destruct (lookup_lt_is_Some_2 (map s) (Z.to_nat (n / 32))) as [w Hlk]; [lia|].
  rewrite Hlk. simpl. assert (Hbn : n = bit_number (Z.of_nat (Z.to_nat (n / 32))) (n mod 32))
    by (apply bit_number_inj; [lia|lia|done]).
  assert (Hin : n ∈ free s <-> Z.testbit w (n mod 32) = true).
  { unfold free. rewrite elem_of_free_bits. rewrite Hbn at 2.
    rewrite (map_bit_number _ _ w) by done. split; [by intros []|]. split; [lia|done]. }
  destruct (Z.testbit w (n mod 32)) eqn:Hbit.
  { exists s. split_and!; [done..| |done]. assert (n ∈ free s) by tauto. set_solver. }
  assert (Hnin : n ∉ free s) by (intros ?%Hin; done).
  assert (Hf : free_bits (<[Z.to_nat (n / 32) := bit_set w (n mod 32)]> (map s)) = {[n]} ∪ free s)
    by (rewrite (free_bits_set _ _ w), <- Hbn by done; done).
  assert (Hsz : Z.of_nat (size ({[n]} ∪ free s)) = rest s + 1).
  { rewrite size_union, size_singleton by set_solver. lia. }
  pose proof (free_size_bound s Hnum Hb).
  assert (Hrest : u32 (rest s + 1) = Z.of_nat (size ({[n]} ∪ free s)))
    by (rewrite u32_small by (unfold is_u32; lia); lia).
  assert (Hw' : words (<[Z.to_nat (n / 32) := bit_set w (n mod 32)]> (map s))).
  { apply words_update; [done|]. apply bit_set_range; [by eapply words_lookup|lia]. }
  eexists. split; [done|]. destruct (rest s =? 0); (split_and!; [|done|by intros ?]);
    split_and!; simpl; unfold free; simpl; rewrite ?length_insert, ?Hf; try done; unfold MASK_ALL; lia.
Qed.

Lemma sequence_initialize_bits max n :
  0 < max <= INT_MAX ->
  let m := replicate (Z.to_nat (SEQUENCE_BLOCK_SIZE max)) MASK_ALL in
  let r := Z.land max (INT_BIT - 1) in
  let m := if r =? 0 then m else <[Z.to_nat (SEQUENCE_BLOCK_SIZE max - 1) := Z.shiftl 1 r - 1]> m in
  n ∈ free_bits m <-> 0 <= n < max.
Proof.
  unfold INT_MAX, SEQUENCE_BLOCK_SIZE, INT_BIT, MPU_LOG_INT. intros Hmax.
  rewrite Z.shiftr_div_pow2 by lia. change (32 - 1) with (Z.ones 5). rewrite Z.land_ones by lia.
  change (2 ^ 5) with 32. change (Z.ones 5) with 31. simpl.
  pose proof (Z.mod_pos_bound max 32 ltac:(lia)). pose proof (Z.div_mod max 32 ltac:(lia)).
  pose proof (Z.mod_pos_bound (max + 31) 32 ltac:(lia)). pose proof (Z.div_mod (max + 31) 32 ltac:(lia)).
  set (N := (max + 31) / 32) in *. rewrite elem_of_free_bits.
  destruct (decide (0 <= n)) as [Hn|]; [|lia].
  pose proof (Z.mod_pos_bound n 32 ltac:(lia)). pose proof (Z.div_mod n 32 ltac:(lia)).
  pose proof (Z.div_pos n 32 ltac:(lia) ltac:(lia)).
  assert (Hrep : map_bit (replicate (Z.to_nat N) MASK_ALL) n = true <-> n / 32 < N).
  { rewrite map_bit_eq by done. destruct (decide (n / 32 < N)).
    - rewrite lookup_replicate_2 by lia. change MASK_ALL with (Z.ones 32).
      rewrite Z.ones_spec_low by lia. done.
    - rewrite (proj2 (lookup_ge_None _ _)); [by split; [|lia]|]. rewrite length_replicate. lia. }
  destruct (Z.eqb_spec (max mod 32) 0) as [E|E].
  - rewrite Hrep. lia.
  - rewrite map_bit_update by (try done; rewrite length_replicate; lia). case_decide as Hd.
    + rewrite Z.shiftl_1_l, Z.sub_1_r, <- Z.ones_equiv.
      destruct (decide (n mod 32 < max mod 32)).
      * rewrite Z.ones_spec_low by lia. lia.
      * rewrite Z.ones_spec_high by lia. lia.
    + rewrite Hrep. lia.
Qed.

Lemma sequence_initialize_spec max buf :
  0 <= max < 2 ^ 32 ->
  match sequence_initialize max buf with
  | (r, Some s) => r = 0 /\ buf = true /\ 0 < max <= INT_MAX /\ sequence_wf s /\
      forall n, n ∈ free s <-> 0 <= n < max
  | (r, None) => r = -1 /\ (buf = false \/ max = 0 \/ INT_MAX < max)
  end.
Proof.
  intros Hr. unfold sequence_initialize.
  destruct (Z.eqb_spec max 0), (Z.ltb_spec INT_MAX max), buf; simpl; try (split; [done|tauto]).
  assert (Hm : 0 < max <= INT_MAX) by lia. set (m := if Z.land max _ =? 0 then _ else _).
  assert (Hfree : forall n, n ∈ free_bits m <-> 0 <= n < max)
    by (intros n'; apply (sequence_initialize_bits max n' Hm)).
  assert (Hlen : Z.of_nat (length m) = SEQUENCE_BLOCK_SIZE max).
  { unfold m. case_match; rewrite ?length_insert, length_replicate; apply Z2Nat.id;
    unfold SEQUENCE_BLOCK_SIZE, INT_BIT, MPU_LOG_INT; apply Z.shiftr_nonneg; lia. }
  split; [done|]. split; [done|]. split; [done|]. split; [|exact Hfree].
  split_and!; simpl; try done.
  - unfold m, words. assert (Hrep : Forall is_u32 (replicate (Z.to_nat (SEQUENCE_BLOCK_SIZE max)) MASK_ALL))
      by (apply Forall_replicate; unfold is_u32, MASK_ALL; lia).
    case_match; [done|]. apply Forall_insert; [done|].
    unfold INT_BIT. change (32 - 1) with (Z.ones 5). rewrite Z.land_ones by lia. unfold is_u32.
    pose proof (Z.mod_pos_bound max (2 ^ 5) ltac:(lia)). rewrite Z.shiftl_1_l.
    assert (2 ^ (max mod 2 ^ 5) <= 2 ^ 32) by (apply Z.pow_le_mono_r; lia). lia.
  - unfold SEQUENCE_BLOCK_SIZE, INT_BIT, MPU_LOG_INT. rewrite Z.shiftr_div_pow2 by lia.
    apply Z.div_str_pos. lia.
  - unfold SEQUENCE_BLOCK_SIZE, INT_BIT, MPU_LOG_INT. rewrite Z.shiftr_div_pow2 by lia.
    unfold INT_MAX in *. apply Z.lt_succ_r, Z.div_lt_upper_bound; lia.
  - unfold free. simpl. assert (free_bits m = list_to_set (seqZ 0 max)) as ->.
    { apply set_eq. intros n'. rewrite elem_of_list_to_set, elem_of_seqZ, Hfree. lia. }
    rewrite size_list_to_set by apply NoDup_seqZ. rewrite length_seqZ. lia.
Qed.

(** The size of the table never changes. *)
Lemma scan_blocks n s i k s' : scan n s i = Some (k, s') -> num_of_blocks s' = num_of_blocks s.
Proof.
  revert s i. induction n as [|n IH]; intros s i; simpl; [by intros [= <- <-]|].
  unfold _find. destruct (map s !! Z.to_nat i) as [w|]; simpl; [|done].
  destruct (Z.land w (mask s) =? 0); simpl.
  - by intros E%IH.
  - case_match; [by intros [= <- <-]|]. by intros E%IH.
Qed.

Lemma sequence_get_blocks s k s' : sequence_get s = Some (k, s') -> num_of_blocks s' = num_of_blocks s.
Proof.
  unfold sequence_get. case_match; [|by intros [= <- <-]].
  destruct (scan _ s _) as [[k1 s1]|] eqn:E1; simpl; [|done]. apply scan_blocks in E1.
  case_match; [by intros [= <- <-]|]. intros E2%scan_blocks. congruence.
Qed.

Lemma sequence_release_blocks s n s' :
  sequence_release s n = Some s' -> num_of_blocks s' = num_of_blocks s.
Proof.
  unfold sequence_release. case_match; [by intros [= <-]|].
  destruct (map s !! _); simpl; [|done]. case_match; [by intros [= <-]|]. case_match; by intros [= <-].
Qed.

(** ** Properties *)

(** [sequence_get] never fails while a number is free: it returns a free
    number, and exactly that number stops being free; with none free it
    returns -1 and changes nothing. *)
Theorem sequence_get_correct s :
  sequence_wf s ->
  exists k s', sequence_get s = Some (k, s') /\ sequence_wf s' /\
    ((free s = ∅ /\ k = -1 /\ s' = s) \/
     (k ∈ free s /\ free s' = free s ∖ {[k]})).
Proof. apply sequence_get_spec. Qed.

(** [sequence_release] makes a number in range free again, and releasing
    a number that is free already, or beyond the table, changes nothing. *)
Theorem sequence_release_correct s n :
  sequence_wf s -> 0 <= n < 2 ^ 31 ->
  exists s', sequence_release s n = Some s' /\ sequence_wf s' /\
    free s' = (if decide (n < 32 * num_of_blocks s) then {[n]} ∪ free s else free s) /\
    (n ∈ free s -> s' = s).
Proof. apply sequence_release_spec. Qed.

(** [sequence_initialize] accepts exactly the sizes in [1, INT_MAX] with a
    buffer, and then the free numbers are [0, ..., max - 1]: a size that is not
    a multiple of 32 leaves the tail of the last word reserved. *)
Theorem sequence_initialize_correct max buf :
  0 <= max < 2 ^ 32 ->
  match sequence_initialize max buf with
  | (r, Some s) => r = 0 /\ buf = true /\ 0 < max <= INT_MAX /\ sequence_wf s /\
      forall n, n ∈ free s <-> 0 <= n < max
  | (r, None) => r = -1 /\ (buf = false \/ max = 0 \/ INT_MAX < max)
  end.
Proof. apply sequence_initialize_spec. Qed.

(** ** Witnesses *)

Definition demo_sequence : sequence_t := default (Sequence 0 0 0 [] 0) (sequence_initialize 40 true).2.

Lemma demo_sequence_wf : sequence_wf demo_sequence.
Proof.
  split_and!; [|vm_compute; by split|vm_compute; congruence..].
  unfold words. repeat constructor; vm_compute; congruence.
Qed.

Lemma sequence_get_correct_witness :
  exists k s', sequence_get demo_sequence = Some (k, s') /\ sequence_wf s' /\
    ((free demo_sequence = ∅ /\ k = -1 /\ s' = demo_sequence) \/
     (k ∈ free demo_sequence /\ free s' = free demo_sequence ∖ {[k]})).
Proof. apply (sequence_get_correct demo_sequence). exact demo_sequence_wf. Defined.

Lemma sequence_release_correct_witness :
  exists s', sequence_release demo_sequence 50 = Some s' /\ sequence_wf s' /\
    free s' = (if decide (50 < 32 * num_of_blocks demo_sequence)
               then {[50]} ∪ free demo_sequence else free demo_sequence) /\ (50 ∈ free demo_sequence -> s' = demo_sequence).
Proof. apply (sequence_release_correct demo_sequence 50); [exact demo_sequence_wf|lia]. Defined.

Lemma sequence_initialize_correct_witness :
  match sequence_initialize 40 true with
  | (r, Some s) => r = 0 /\ true = true /\ 0 < 40 <= INT_MAX /\ sequence_wf s /\
      forall n, n ∈ free s <-> 0 <= n < 40
  | (r, None) => r = -1 /\ (true = false \/ 40 = 0 \/ INT_MAX < 40)
  end.
Proof. apply (sequence_initialize_correct 40 true). lia. Defined.
