(* ===== verification/Palloc.v ===== *)
(** * Physical pages (kernel/palloc.c, starter/pcat/memory.c)

    The memory map is a bitmap with one bit per page frame, set when the frame
    is free, and [clock_block], below which no frame is free.  The boot code
    fills the map; [palloc] takes the lowest free frame, clears the page and
    returns its kernel address; [pfree] gives a page back. *)

From S2P Require Import Prelude Bitmap.

Definition PAGE_SIZE : Z := 4096.
Definition BITS_OFFSET : Z := 12.
Definition SUPERVISOR_START : Z := 0x80000000.

Definition kern_p2v (addr : Z) : Z := Z.lor addr SUPERVISOR_START.
Definition kern_v2p (addr : Z) : Z := Z.land addr (u32 (Z.lnot SUPERVISOR_START)).

Definition pages (bytes : Z) : Z := Z.shiftr (u32 (bytes + PAGE_SIZE - 1)) BITS_OFFSET.

Record MemoryMap := mkMemoryMap {
  rest_pages : Z;
  clock_block : Z;
  num_blocks : Z;
  max_pages : Z;
  map : list Z;
}.

(** The pages themselves: the 32-bit word at each kernel address. *)
Definition memory := Z -> Z.

Definition store (mem : memory) (a v : Z) : memory := λ x, if x =? a then v else mem x.

(** The loop of [pzero] over the words of a page. *)
Fixpoint pzero_loop (n : nat) (p : Z) (mem : memory) : memory :=
  match n with
  | O => mem
  | S n => pzero_loop n (p + 4) (store mem p 0)
  end.

Definition pzero (p : Z) (mem : memory) : memory := pzero_loop (Z.to_nat (PAGE_SIZE / 4)) p mem.

(** The loop of [palloc] over the [n] blocks from [i] on; the result is the
    address ([NULL] is 0). *)
Fixpoint palloc_loop (n : nat) (i : Z) (mm : MemoryMap) (mem : memory) :
    option (Z * MemoryMap * memory) :=
  match n with
  | O => Some (0, mm, mem)
  | S n =>
      d ← map mm !! Z.to_nat i;
      if d =? 0 then palloc_loop n (i + 1) mm mem
      else
        let bit := count_ntz d in
        let w := bit_clear d bit in
        let mm := mkMemoryMap (u32 (rest_pages mm - 1)) (if w =? 0 then i + 1 else i)
                    (num_blocks mm) (max_pages mm) (<[Z.to_nat i := w]> (map mm)) in
        let addr := u32 (Z.shiftl (bit_number i bit) BITS_OFFSET) in
        let addr := kern_p2v addr in
        Some (addr, mm, pzero addr mem)
  end.

Definition palloc (mm : MemoryMap) (mem : memory) : option (Z * MemoryMap * memory) :=
  if rest_pages mm =? 0 then Some (0, mm, mem)
  else palloc_loop (Z.to_nat (num_blocks mm - clock_block mm)) (clock_block mm) mm mem.

Definition pfree (mm : MemoryMap) (addr : Z) : option MemoryMap :=
  let addr := kern_v2p addr in
  let i := Z.shiftr addr (BITS_OFFSET + MPU_LOG_INT) in
  if num_blocks mm <=? i then Some mm
  else
    w ← map mm !! Z.to_nat i;
    let b := Z.land (Z.shiftr addr BITS_OFFSET) (INT_BIT - 1) in
    if Z.testbit w b then Some mm
    else Some (mkMemoryMap (u32 (rest_pages mm + 1))
                 (if i <? clock_block mm then i else clock_block mm)
                 (num_blocks mm) (max_pages mm) (<[Z.to_nat i := bit_set w b]> (map mm))).

(** ** Boot: building the map *)

Definition E_OK : Z := 0.
Definition E_PAR : Z := -17.
Definition BITS_MASK : Z := 31.
Definition MAP_ALL_FREE : Z := 0xffffffff.
Definition MAP_ALL_USING : Z := 0.

(** [map[i] = f(map[i])]; undefined outside of the array. *)
Definition map_update (i : Z) (f : Z -> Z) (m : list Z) : option (list Z) :=
  w ← m !! Z.to_nat i; Some (<[Z.to_nat i := f w]> m).

Definition map_initialize (mm : MemoryMap) (pages : Z) : option MemoryMap :=
  let num := Z.shiftr (u32 (pages + INT_BIT - 1)) MPU_LOG_INT in
  let m := replicate (Z.to_nat num) MAP_ALL_FREE in
  let offset := Z.land pages BITS_MASK in
  m ← (if offset =? 0 then Some m
       else map_update (num - 1) (λ _, Z.shiftl 1 offset - 1) m);
  Some (mkMemoryMap pages 0 num pages m).

(** The loop that marks [n] whole blocks from [i] on. *)
Fixpoint set_using_loop (n : nat) (i : Z) (m : list Z) : option (list Z) :=
  match n with
  | O => Some m
  | S n => m ← map_update i (λ _, MAP_ALL_USING) m; set_using_loop n (i + 1) m
  end.

Definition map_set_using (mm : MemoryMap) (addr pages : Z) : option (Z * MemoryMap) :=
  if pages =? 0 then Some (E_PAR, mm)
  else
    let i := Z.shiftr addr BITS_OFFSET in
    if max_pages mm <=? i then Some (E_PAR, mm)
    else
      let left := if max_pages mm <? u32 (i + pages) then max_pages mm - i else pages in
      let rest := u32 (rest_pages mm - left) in
      let offset := Z.land i BITS_MASK in
      let i := Z.shiftr i MPU_LOG_INT in
      '(m, i, left, mask) ←
        (if negb (offset =? 0) then
           let mask := Z.shiftl 1 offset - 1 in
           if offset + left <? INT_BIT then Some (map mm, i, left + offset, mask)
           else
             m ← map_update i (λ w, Z.land w mask) (map mm);
             Some (m, i + 1, left - (INT_BIT - offset), 0)
         else Some (map mm, i, left, 0));
      let offset := Z.land left BITS_MASK in
      let left := Z.shiftr left MPU_LOG_INT + i in
      m ← set_using_loop (Z.to_nat (left - i)) i m;
      m ← (if offset =? 0 then Some m
           else map_update (Z.max i left)
                  (λ w, Z.land w (Z.lor mask (Z.lnot (Z.shiftl 1 offset - 1)))) m);
      Some (E_OK, mkMemoryMap rest (clock_block mm) (num_blocks mm) (max_pages mm) m).

(** ** Invariant *)

Definition free_pages (mm : MemoryMap) : gset Z := free_bits (map mm).

(** The kernel address of a frame. *)
Definition page_addr (n : Z) : Z := n * PAGE_SIZE + SUPERVISOR_START.

(** [MAX_PAGES] frames at most, so that kernel addresses fit above
    [SUPERVISOR_START]. *)
Definition palloc_wf (mm : MemoryMap) : Prop :=
  words (map mm) /\ num_blocks mm = Z.of_nat (length (map mm)) /\ num_blocks mm <= 2 ^ 14 /\
  0 <= clock_block mm <= num_blocks mm /\
  rest_pages mm = Z.of_nat (size (free_pages mm)) /\
  forall n, n ∈ free_pages mm -> 32 * clock_block mm <= n.

Lemma kern_p2v_frame n :
  0 <= n < 2 ^ 19 -> kern_p2v (u32 (Z.shiftl n BITS_OFFSET)) = page_addr n.
Proof.
  intros Hn. unfold kern_p2v, page_addr, BITS_OFFSET, SUPERVISOR_START, PAGE_SIZE.
  rewrite Z.shiftl_mul_pow2 by lia. rewrite u32_small by (unfold is_u32; lia).
  rewrite Z.lor_comm. change (Z.lor 0x80000000) with (Z.lor (Z.shiftl 1 31)).
  rewrite lor_shiftl_add by lia. lia.
Qed.

Lemma kern_v2p_frame n k : 0 <= n < 2 ^ 19 -> 0 <= k < PAGE_SIZE -> kern_v2p (page_addr n + k) = n * PAGE_SIZE + k.
Proof.
  unfold PAGE_SIZE. intros Hn Hk. unfold kern_v2p, page_addr, SUPERVISOR_START.
  change (u32 (Z.lnot 0x80000000)) with (Z.ones 31). rewrite Z.land_ones by lia.
  unfold PAGE_SIZE. replace (n * 4096 + 0x80000000 + k) with (n * 4096 + k + 1 * 2 ^ 31) by lia.
  rewrite Z.mod_add by lia. apply Z.mod_small. lia.
Qed.

Lemma frame_block n k :
  0 <= n < 2 ^ 19 -> 0 <= k < PAGE_SIZE ->
  Z.shiftr (n * PAGE_SIZE + k) (BITS_OFFSET + MPU_LOG_INT) = n / 32 /\
  Z.land (Z.shiftr (n * PAGE_SIZE + k) BITS_OFFSET) (INT_BIT - 1) = n mod 32.
Proof.
  unfold PAGE_SIZE, BITS_OFFSET, MPU_LOG_INT, INT_BIT. intros Hn Hk. rewrite !Z.shiftr_div_pow2 by lia.
  change (32 - 1) with (Z.ones 5). rewrite Z.land_ones by lia.
  assert (E : (n * 4096 + k) / 2 ^ 12 = n) by (rewrite Z.div_add_l, Z.div_small; lia).
  rewrite E. split; [|done]. rewrite Z.pow_add_r, <- Z.div_div, E by lia. done.
Qed.

(** *** Clearing a page *)

Lemma pzero_loop_spec n p mem x :
  pzero_loop n p mem x =
  if decide (p <= x < p + 4 * Z.of_nat n /\ (x - p) mod 4 = 0) then 0 else mem x.
Proof.
  revert p mem. induction n as [|n IH]; intros p mem; simpl pzero_loop.
  - rewrite decide_False by lia. done.
  - rewrite IH. unfold store. pose proof (Z.div_mod (x - p) 4 ltac:(lia)).
    pose proof (Z.div_mod (x - (p + 4)) 4 ltac:(lia)).
    assert ((x - (p + 4)) mod 4 = (x - p) mod 4) as ->.
    { replace (x - (p + 4)) with (x - p + (-1) * 4) by lia. by rewrite Z.mod_add by lia. }
    destruct (Z.eqb_spec x p) as [->|].
    + rewrite Z.sub_diag, Z.mod_0_l by lia. repeat case_decide; lia.
    + repeat case_decide; try done; lia.
Qed.

(** *** Allocation *)

(** The map after frame [bit_number i b], the lowest free one, is taken. *)
Lemma palloc_take_wf mm i d r mx :
  palloc_wf mm -> map mm !! Z.to_nat i = Some d -> 0 <= i -> d ≠ 0 ->
  (forall k, k ∈ free_pages mm -> 32 * i <= k) -> r = u32 (rest_pages mm - 1) ->
  let b := count_ntz d in
  let mm' := mkMemoryMap r (if bit_clear d b =? 0 then i + 1 else i) (num_blocks mm) mx
               (<[Z.to_nat i := bit_clear d b]> (map mm)) in
  bit_number i b ∈ free_pages mm /\
  (forall k, k ∈ free_pages mm -> bit_number i b <= k) /\
  free_pages mm' = free_pages mm ∖ {[bit_number i b]} /\ palloc_wf mm'.
Proof.
  intros (Hw & Hn & Hb & Hc & Hr & Hclk) Hd Hi Hne Hlow -> b mm'.
  destruct (count_ntz_free (map mm) (Z.to_nat i) d Hw Hd Hne) as [Hbit Hfree].
  rewrite Z2Nat.id in Hfree by lia. fold b in Hbit, Hfree.
  pose proof (words_lookup _ _ _ Hw Hd) as Hu. pose proof (lookup_lt_Some _ _ _ Hd) as Hlt.
  assert (Hk : bit_number i b = i * 32 + b) by (apply bit_number_eq; unfold INT_BIT; lia).
  assert (Hf : free_pages mm' = free_pages mm ∖ {[bit_number i b]}).
  { unfold free_pages, mm'. simpl. rewrite (free_bits_clear _ _ d) by done. by rewrite Z2Nat.id by lia. }
  assert (Hin : forall k, k ∈ free_pages mm -> k < 32 * (i + 1) ->
    Z.testbit d (k mod 32) = true /\ k mod 32 = k - 32 * i).
  { intros k Hkf Hki. pose proof (Hlow k Hkf).
    destruct (free_bits_in_block (map mm) (Z.to_nat i) d k) as [? E]; [done..|lia|].
    rewrite Z2Nat.id in E by lia. by split. }
  assert (Hmin : forall k, k ∈ free_pages mm -> bit_number i b <= k).
  { intros k Hkf. destruct (decide (k < bit_number i b)); [|lia].
    destruct (Hin k) as [Ht E]; [done|lia|]. pose proof (Hlow k Hkf).
    rewrite (count_ntz_below d) in Ht; [done|unfold is_u32 in Hu; lia|]. fold b. lia. }
  split; [done|]. split; [done|]. split; [done|].
  unfold palloc_wf. split_and!; try done; subst mm'; simpl.
  - apply words_update; [done|]. apply bit_clear_range; [exact Hu|lia..].
  - by rewrite length_insert.
  - case_match; lia.
  - case_match; lia.
  - rewrite Hf, size_difference, size_singleton by set_solver.
    pose proof (free_bits_size (map mm)). unfold free_pages in *.
    assert (0 < size (free_bits (map mm)))%nat.
    { apply Nat.neq_0_lt_0. intros Hz. apply size_empty_inv in Hz. set_solver. }
    rewrite u32_small by (unfold is_u32; lia). lia.
  - rewrite Hf. intros k [Hkf Hkk]%elem_of_difference. rewrite elem_of_singleton in Hkk.
    pose proof (Hlow k Hkf). destruct (Z.eqb_spec (bit_clear d b) 0) as [Hz|]; [|lia].
    destruct (decide (k < 32 * (i + 1))); [|lia]. exfalso.
    destruct (Hin k) as [Ht E]; [done..|].
    assert (Hcl : Z.testbit (bit_clear d b) (k mod 32) = true).
    { rewrite testbit_bit_clear, Ht, bool_decide_false by lia. done. }
    by rewrite Hz, Z.bits_0 in Hcl.
Qed.

Lemma palloc_loop_spec n i mm mem :
  palloc_wf mm -> 0 <= i -> i + Z.of_nat n = num_blocks mm ->
  (forall k, k ∈ free_pages mm -> 32 * i <= k) ->
  (free_pages mm = ∅ /\ palloc_loop n i mm mem = Some (0, mm, mem)) \/
  (exists k mm', palloc_loop n i mm mem = Some (page_addr k, mm', pzero (page_addr k) mem) /\
     k ∈ free_pages mm /\ (forall k', k' ∈ free_pages mm -> k <= k') /\
     free_pages mm' = free_pages mm ∖ {[k]} /\ palloc_wf mm' /\ num_blocks mm' = num_blocks mm).
Proof.
  intros Hwf. pose proof Hwf as (Hw & Hn & Hb & Hc & Hr & Hclk).
  revert i. induction n as [|n IH]; intros i Hi Hin Hlow; simpl.
  - left. split; [|done]. apply set_eq. intros k. split; [|set_solver]. intros Hk.
    pose proof (Hlow k Hk). pose proof (free_bits_lt _ _ Hk). lia.
  - destruct (lookup_lt_is_Some_2 (map mm) (Z.to_nat i)) as [d Hd]; [lia|]. rewrite Hd. simpl.
    destruct (Z.eqb_spec d 0) as [->|Hne].
    + apply IH; [lia..|]. intros k Hk. pose proof (Hlow k Hk).
      destruct (decide (k < 32 * (i + 1))); [|lia].
      destruct (free_bits_in_block (map mm) (Z.to_nat i) 0 k) as [Ht _]; [done..|lia|].
      by rewrite Z.bits_0 in Ht.
    + right. destruct (palloc_take_wf mm i d _ (max_pages mm) Hwf Hd Hi Hne Hlow eq_refl)
        as (Hfree & Hmin & Hf & Hwf').
      pose proof (free_bits_lt _ _ Hfree) as Hlt.
      rewrite kern_p2v_frame by lia. by do 2 eexists.
Qed.

(** *** Release *)

Lemma pfree_spec mm n k :
  palloc_wf mm -> 0 <= n < 2 ^ 19 -> 0 <= k < PAGE_SIZE ->
  exists mm', pfree mm (page_addr n + k) = Some mm' /\ palloc_wf mm' /\
    (if decide (n < 32 * num_blocks mm) then free_pages mm' = {[n]} ∪ free_pages mm else mm' = mm).
Proof.
  intros Hwf Hn Hk. pose proof Hwf as (Hw & Hnb & Hb & Hc & Hr & Hclk).
  unfold pfree. rewrite kern_v2p_frame by done. destruct (frame_block n k Hn Hk) as [-> ->].
  pose proof (Z.div_mod n 32 ltac:(lia)) as Hdm. pose proof (Z.mod_pos_bound n 32 ltac:(lia)) as Hm.
  assert (0 <= n / 32) by (apply Z.div_pos; lia).
  destruct (Z.leb_spec (num_blocks mm) (n / 32)) as [Hge|Hlt].
  { exists mm. rewrite decide_False by lia. done. }
  destruct (lookup_lt_is_Some_2 (map mm) (Z.to_nat (n / 32))) as [w Hw']; [lia|].
  rewrite Hw'. simpl. assert (Hnum : n = bit_number (Z.of_nat (Z.to_nat (n / 32))) (n mod 32)).
  { apply bit_number_inj; auto; lia. }
  destruct (Z.testbit w (n mod 32)) eqn:Hbit.
  { exists mm. rewrite decide_True by lia. split; [done|]. split; [done|]. assert (n ∈ free_pages mm); [|set_solver].
    apply elem_of_free_bits. split; [lia|]. rewrite map_bit_eq, Hw' by lia. done. }
  eexists. rewrite decide_True by lia. split; [done|]. assert (Hnf : n ∉ free_pages mm).
  { intros Hf%elem_of_free_bits. rewrite map_bit_eq, Hw', Hbit in Hf by lia. by destruct Hf. }
  assert (Hf : free_bits (<[Z.to_nat (n / 32) := bit_set w (n mod 32)]> (map mm))
               = {[n]} ∪ free_pages mm).
  { rewrite (free_bits_set _ _ w) by done. by rewrite <- Hnum. }
  split; [|done]. unfold palloc_wf. split_and!; unfold free_pages; simpl; rewrite ?length_insert, ?Hf; try done.
  - apply words_update; [done|]. apply (bit_set_range w _ 32); [|lia]. by eapply words_lookup.
  - case_match; lia.
  - case_match; lia.
  - rewrite size_union, size_singleton by set_solver. pose proof (free_bits_size (map mm)).
    unfold free_pages in *. rewrite u32_small by (unfold is_u32; lia). lia.
  - intros k' [->%elem_of_singleton|Hk']%elem_of_union.
    + case_match eqn:E; [lia|]. apply Z.ltb_ge in E. lia.
    + specialize (Hclk k' Hk'). case_match eqn:E; [apply Z.ltb_lt in E|]; lia.
Qed.

Lemma pfree_blocks mm a mm' : pfree mm a = Some mm' -> num_blocks mm' = num_blocks mm.
Proof.
  unfold pfree. intros E. destruct (_ <=? _) in E; [by simplify_eq|]. destruct (map mm !! _) in E; [|done]. cbn in E.
  destruct (Z.testbit _ _) in E; by simplify_eq.
Qed.

(** *** The boot map *)

Lemma testbit_mask k b : 0 <= k -> 0 <= b -> Z.testbit (Z.shiftl 1 k - 1) b = (b <? k).
Proof. intros. exact (Z.testbit_ones_nonneg k b ltac:(lia) ltac:(lia)). Qed.

Lemma mask_range k : 0 <= k <= 32 -> is_u32 (Z.shiftl 1 k - 1).
Proof.
  intros Hk. unfold is_u32. rewrite Z.shiftl_1_l.
  pose proof (Z.pow_le_mono_r 2 k 32 ltac:(lia) ltac:(lia)).
  pose proof (Z.pow_pos_nonneg 2 k ltac:(lia) ltac:(lia)). lia.
Qed.

(** One word of the map replaced, seen bit by bit. *)
Lemma map_update_spec i f m :
  0 <= i < Z.of_nat (length m) -> words m -> (forall w, is_u32 w -> is_u32 (f w)) ->
  exists m', map_update i f m = Some m' /\ length m' = length m /\ words m' /\
    forall n, 0 <= n -> map_bit m' n =
      if decide (n / 32 = i) then
        match m !! Z.to_nat i with Some w => Z.testbit (f w) (n mod 32) | None => false end
      else map_bit m n.
Proof.
  intros Hi Hw Hf. unfold map_update.
  destruct (lookup_lt_is_Some_2 m (Z.to_nat i)) as [w Hl]; [lia|]. rewrite Hl. simpl.
  eexists. split; [done|]. rewrite length_insert. split; [done|].
  split; [apply words_update; [done|]; by eapply Hf, words_lookup|].
  intros n Hn. rewrite map_bit_update by (try done; lia).
  assert (0 <= n / 32) by (apply Z.div_pos; lia). repeat case_decide; try done; lia.
Qed.

Lemma set_using_loop_spec n i m :
  0 <= i -> i + Z.of_nat n <= Z.of_nat (length m) -> words m ->
  exists m', set_using_loop n i m = Some m' /\ length m' = length m /\ words m' /\
    forall k, 0 <= k -> map_bit m' k =
      map_bit m k && negb (bool_decide (32 * i <= k < 32 * (i + Z.of_nat n))).
Proof.
  revert i m. induction n as [|n IH]; intros i m Hi Hlen Hw; simpl.
  - exists m. split_and!; try done. intros k Hk. rewrite bool_decide_false by lia. by rewrite andb_true_r.
  - destruct (map_update_spec i (λ _, MAP_ALL_USING) m) as (m1 & -> & Hl1 & Hw1 & Hb1); [lia|done| |].
    { intros. unfold MAP_ALL_USING, is_u32. lia. }
    simpl. destruct (IH (i + 1) m1) as (m2 & -> & Hl2 & Hw2 & Hb2); [lia..|done|].
    exists m2. split_and!; try done; [congruence|]. intros k Hk. rewrite Hb2, Hb1 by done.
    pose proof (Z.div_mod k 32 ltac:(lia)). pose proof (Z.mod_pos_bound k 32 ltac:(lia)).
    case_decide as Hd.
    + rewrite (bool_decide_true (32 * i <= _ < _)) by lia.
      rewrite andb_false_r. case_match; [|done]. unfold MAP_ALL_USING. by rewrite Z.bits_0.
    + f_equal. f_equal. apply bool_decide_ext. lia.
Qed.

(** The tail of [map_set_using]: [left] bits from the start of block [i],
    except the bits of [mask] in the last block. *)
Lemma set_using_tail i left mask m :
  words m -> 0 <= i -> 0 <= left -> 32 * i + left <= 32 * Z.of_nat (length m) ->
  exists m1 m2, set_using_loop (Z.to_nat (Z.shiftr left MPU_LOG_INT + i - i)) i m = Some m1 /\
    (if Z.land left BITS_MASK =? 0 then Some m1
     else map_update (Z.max i (Z.shiftr left MPU_LOG_INT + i))
            (λ w, Z.land w (Z.lor mask (Z.lnot (Z.shiftl 1 (Z.land left BITS_MASK) - 1)))) m1) = Some m2 /\
    length m2 = length m /\ words m2 /\
    forall k, 0 <= k -> map_bit m2 k = map_bit m k &&
      negb (bool_decide (32 * i <= k < 32 * i + left /\
              (k / 32 = i + left / 32 -> Z.testbit mask (k mod 32) = false))).
Proof.
  intros Hw Hi Hleft Hlen. unfold MPU_LOG_INT, BITS_MASK. rewrite Z.shiftr_div_pow2 by lia.
  change 31 with (Z.ones 5). rewrite Z.land_ones by lia. change (2 ^ 5) with 32.
  pose proof (Z.div_mod left 32 ltac:(lia)) as Hdm.
  pose proof (Z.mod_pos_bound left 32 ltac:(lia)) as Hm.
  assert (0 <= left / 32) by (apply Z.div_pos; lia).
  destruct (set_using_loop_spec (Z.to_nat (left / 32 + i - i)) i m) as (m1 & -> & Hl1 & Hw1 & Hb1);
    [lia..|done|]. exists m1. rewrite Z2Nat.id in Hb1 by lia.
  replace (Z.max i (left / 32 + i)) with (left / 32 + i) by lia.
  destruct (Z.eqb_spec (left mod 32) 0) as [Hz|Hz].
  - exists m1. split_and!; try done. intros k Hk. rewrite Hb1 by done.
    pose proof (Z.div_mod k 32 ltac:(lia)). pose proof (Z.mod_pos_bound k 32 ltac:(lia)).
    f_equal. f_equal. apply bool_decide_ext. split; [|lia]. intros; split; lia.
  - destruct (map_update_spec (left / 32 + i)
      (λ w, Z.land w (Z.lor mask (Z.lnot (Z.shiftl 1 (left mod 32) - 1)))) m1)
      as (m2 & -> & Hl2 & Hw2 & Hb2); [lia|done|intros; by apply land_range|].
    exists m2. split_and!; try done; [congruence|]. intros k Hk. rewrite Hb2 by done.
    pose proof (Z.div_mod k 32 ltac:(lia)). pose proof (Z.mod_pos_bound k 32 ltac:(lia)).
    case_decide as Hd.
    + assert (Hk1 : map_bit m1 k = map_bit m k).
      { rewrite Hb1, bool_decide_false by lia. by rewrite andb_true_r. }
      rewrite <- Hk1, map_bit_eq, Hd by done.
      destruct (m1 !! Z.to_nat (left / 32 + i)) as [w|]; [|done].
      rewrite Z.land_spec, Z.lor_spec, Z.lnot_spec, testbit_mask by lia. f_equal.
      destruct (Z.testbit mask (k mod 32)) eqn:Hmk; simpl;
        [rewrite bool_decide_false; [done|]; intros [_ Hx]; discriminate Hx; lia|].
      destruct (Z.ltb_spec (k mod 32) (left mod 32)); simpl;
        [rewrite bool_decide_true; [done|]|rewrite bool_decide_false; [done|]]; lia.
    + rewrite Hb1 by done. f_equal. f_equal. apply bool_decide_ext. split; [|lia].
      intros; split; lia.
Qed.

(** The frames [map_set_using] takes. *)
Definition frames (first count : Z) : gset Z := list_to_set (seqZ first count).

Lemma elem_of_frames k first count : k ∈ frames first count <-> first <= k < first + count.
Proof. unfold frames. rewrite elem_of_list_to_set, elem_of_seqZ. lia. Qed.

Lemma size_frames first count : 0 <= count -> Z.of_nat (size (frames first count)) = count.
Proof.
  intros. unfold frames. rewrite size_list_to_set, length_seqZ by apply NoDup_seqZ. lia.
Qed.

Lemma free_bits_frames m m' first count :
  (forall k, 0 <= k -> map_bit m' k =
     map_bit m k && negb (bool_decide (first <= k < first + count))) ->
  free_bits m' = free_bits m ∖ frames first count.
Proof.
  intros Hb. apply set_eq. intros k. rewrite elem_of_difference, elem_of_frames, !elem_of_free_bits.
  split.
  - intros [Hk Hm]. rewrite Hb in Hm by done. apply andb_true_iff in Hm as [? Hn].
    apply negb_true_iff, bool_decide_eq_false in Hn. done.
  - intros [[Hk Hm] Hn]. split; [done|]. by rewrite Hb, Hm, bool_decide_false by done.
Qed.

(** The map after [left] frames from [32 * i + offset] on are taken. *)
Lemma set_using_map m i offset left :
  words m -> 0 <= i -> 0 <= offset < 32 -> 0 < left ->
  32 * i + offset + left <= 32 * Z.of_nat (length m) ->
  exists m0 i0 left0 mask m1 m2,
    (if negb (offset =? 0) then
       let mask := Z.shiftl 1 offset - 1 in
       if offset + left <? INT_BIT then Some (m, i, left + offset, mask)
       else m' ← map_update i (λ w, Z.land w mask) m;
            Some (m', i + 1, left - (INT_BIT - offset), 0)
     else Some (m, i, left, 0)) = Some (m0, i0, left0, mask) /\
    set_using_loop (Z.to_nat (Z.shiftr left0 MPU_LOG_INT + i0 - i0)) i0 m0 = Some m1 /\
    (if Z.land left0 BITS_MASK =? 0 then Some m1
     else map_update (Z.max i0 (Z.shiftr left0 MPU_LOG_INT + i0))
            (λ w, Z.land w (Z.lor mask (Z.lnot (Z.shiftl 1 (Z.land left0 BITS_MASK) - 1)))) m1) = Some m2 /\
    length m2 = length m /\ words m2 /\
    free_bits m2 = free_bits m ∖ frames (32 * i + offset) left.
Proof.
  intros Hw Hi Ho Hl Hlen. unfold INT_BIT. destruct (Z.eqb_spec offset 0) as [->|Hz]; simpl.
  { destruct (set_using_tail i left 0 m Hw) as (m1 & m2 & H1 & H2 & Hl2 & Hw2 & Hb); [lia..|].
    do 6 eexists. split; [done|]. split; [done|]. split; [done|]. split_and!; try done.
    apply free_bits_frames. intros k Hk. rewrite Hb by done. f_equal. f_equal.
    apply bool_decide_ext. rewrite Z.bits_0. split; [lia|]. intros; split; [lia|done]. }
  destruct (Z.ltb_spec (offset + left) 32) as [Hlt|Hge].
  - destruct (set_using_tail i (left + offset) (Z.shiftl 1 offset - 1) m Hw)
      as (m1 & m2 & H1 & H2 & Hl2 & Hw2 & Hb); [lia..|].
    do 6 eexists. split; [done|]. split; [done|]. split; [done|]. split_and!; try done.
    apply free_bits_frames. intros k Hk. rewrite Hb by done. f_equal. f_equal.
    apply bool_decide_ext. rewrite (Z.div_small (left + offset)), Z.add_0_r by lia.
    pose proof (Z.div_mod k 32 ltac:(lia)). pose proof (Z.mod_pos_bound k 32 ltac:(lia)).
    rewrite testbit_mask, Z.ltb_ge by lia. lia.
  - destruct (map_update_spec i (λ w, Z.land w (Z.shiftl 1 offset - 1)) m)
      as (m0 & -> & Hl0 & Hw0 & Hb0); [lia|done|intros; by apply land_range|]. simpl.
    destruct (set_using_tail (i + 1) (left - (32 - offset)) 0 m0 Hw0)
      as (m1 & m2 & H1 & H2 & Hl2 & Hw2 & Hb); [lia..|].
    do 6 eexists. split; [done|]. split; [done|]. split; [done|]. split_and!; try done; [congruence|].
    apply free_bits_frames. intros k Hk. rewrite Hb, Hb0 by done.
    pose proof (Z.div_mod k 32 ltac:(lia)). pose proof (Z.mod_pos_bound k 32 ltac:(lia)).
    rewrite Z.bits_0. case_decide as Hd.
    + rewrite map_bit_eq, Hd by done. destruct (m !! Z.to_nat i); [|done].
      rewrite Z.land_spec, testbit_mask by lia. rewrite <- andb_assoc. f_equal.
      rewrite (bool_decide_false (_ /\ _)) by lia. rewrite andb_true_r.
      destruct (Z.ltb_spec (k mod 32) offset);
        [rewrite bool_decide_false by lia|rewrite bool_decide_true by lia]; done.
    + f_equal. f_equal. apply bool_decide_ext. split; [lia|]. intros; split; [lia|done].
Qed.

Lemma num_blocks_pages pages : 0 <= pages <= 2 ^ 19 ->
  Z.shiftr (u32 (pages + INT_BIT - 1)) MPU_LOG_INT = (pages + 31) / 32.
Proof.
  intros Hp. unfold INT_BIT, MPU_LOG_INT. rewrite u32_small by (unfold is_u32; lia).
  rewrite Z.shiftr_div_pow2 by lia. f_equal. lia.
Qed.

Lemma free_bits_replicate n : free_bits (replicate n MAP_ALL_FREE) = frames 0 (32 * Z.of_nat n).
Proof.
  apply set_eq. intros k. rewrite elem_of_frames. split.
  - intros Hk%free_bits_lt. rewrite length_replicate in Hk. lia.
  - intros Hk. apply elem_of_free_bits. split; [lia|]. rewrite map_bit_eq by lia.
    pose proof (Z.div_mod k 32 ltac:(lia)). pose proof (Z.mod_pos_bound k 32 ltac:(lia)).
    assert (0 <= k / 32) by (apply Z.div_pos; lia).
    rewrite lookup_replicate_2 by lia. change MAP_ALL_FREE with (Z.ones 32).
    apply Z.ones_spec_low. lia.
Qed.

(** The fresh map has every frame below [pages] free, and no other. *)
Lemma map_initialize_spec mm pages :
  0 <= pages <= 2 ^ 19 ->
  exists mm', map_initialize mm pages = Some mm' /\ free_pages mm' = frames 0 pages /\
    palloc_wf mm' /\ clock_block mm' = 0 /\ max_pages mm' = pages /\ pages <= 32 * num_blocks mm'.
Proof.
  intros Hp. unfold map_initialize. rewrite num_blocks_pages by done.
  unfold BITS_MASK. change 31 with (Z.ones 5). rewrite Z.land_ones by lia. change (2 ^ 5) with 32.
  change (Z.ones 5) with 31. pose proof (Z.div_mod (pages + 31) 32 ltac:(lia)).
  pose proof (Z.mod_pos_bound (pages + 31) 32 ltac:(lia)). set (num := (pages + 31) / 32) in *.
  pose proof (Z.div_mod pages 32 ltac:(lia)). pose proof (Z.mod_pos_bound pages 32 ltac:(lia)).
  pose proof (free_bits_replicate (Z.to_nat num)) as Hfr.
  assert (Hwr : words (replicate (Z.to_nat num) MAP_ALL_FREE)).
  { apply Forall_replicate. unfold is_u32, MAP_ALL_FREE. lia. }
  assert (Hwf : forall m, words m -> length m = Z.to_nat num -> free_bits m = frames 0 pages ->
    palloc_wf (mkMemoryMap pages 0 num pages m)).
  { intros m Hw Hl Hf. unfold palloc_wf, free_pages; simpl. rewrite Hf, Hl, size_frames by lia.
    split_and!; try done; try lia. intros k. rewrite elem_of_frames. lia. }
  destruct (Z.eqb_spec (pages mod 32) 0) as [Hz|Hz]; simpl.
  - eexists. split; [done|]. assert (E : 32 * Z.of_nat (Z.to_nat num) = pages) by lia.
    rewrite E in Hfr. split_and!; try done; [|simpl; lia].
    apply Hwf; [done|by rewrite length_replicate|done].
  - destruct (map_update_spec (num - 1) (λ _, Z.shiftl 1 (pages mod 32) - 1)
      (replicate (Z.to_nat num) MAP_ALL_FREE)) as (m & -> & Hl & Hw & Hb);
      [rewrite length_replicate; lia|done|intros; apply mask_range; lia|]. simpl.
    eexists. split; [done|]. rewrite length_replicate in Hl.
    assert (Hf : free_bits m = frames 0 pages).
    { rewrite <- (Z.add_simpl_r 0 pages). set (r := 0 + pages - pages).
      trans (frames 0 (32 * Z.of_nat (Z.to_nat num)) ∖ frames pages 31).
      - rewrite <- Hfr. apply free_bits_frames. intros k Hk. rewrite Hb by done.
        pose proof (Z.div_mod k 32 ltac:(lia)). pose proof (Z.mod_pos_bound k 32 ltac:(lia)).
        case_decide as Hd.
        + rewrite lookup_replicate_2 by lia. rewrite testbit_mask by lia.
          assert (map_bit (replicate (Z.to_nat num) MAP_ALL_FREE) k = true) as ->.
          { apply elem_of_free_bits. rewrite Hfr, elem_of_frames. lia. }
          simpl. destruct (Z.ltb_spec (k mod 32) (pages mod 32));
            [rewrite bool_decide_false|rewrite bool_decide_true]; try done; lia.
        + destruct (bool_decide_reflect (pages <= k < pages + 31)); [|by rewrite andb_true_r].
          rewrite andb_false_r. destruct (map_bit _ k) eqn:E; [|done].
          assert (k ∈ frames 0 (32 * Z.of_nat (Z.to_nat num))) as Hin
            by (rewrite <- Hfr; by apply elem_of_free_bits).
          rewrite elem_of_frames in Hin. lia.
      - apply set_eq. intros k. rewrite elem_of_difference, !elem_of_frames. lia. }
    split; [done|]. split_and!; try done; [by apply Hwf|simpl; lia].
Qed.

Lemma palloc_spec mm mem :
  palloc_wf mm ->
  (free_pages mm = ∅ /\ palloc mm mem = Some (0, mm, mem)) \/
  (exists k mm' mem', palloc mm mem = Some (page_addr k, mm', mem') /\
     k ∈ free_pages mm /\ (forall k', k' ∈ free_pages mm -> k <= k') /\
     free_pages mm' = free_pages mm ∖ {[k]} /\ palloc_wf mm' /\
     forall x, mem' x =
       if decide (page_addr k <= x < page_addr k + PAGE_SIZE /\ (x - page_addr k) mod 4 = 0)
       then 0 else mem x).
Proof.
  intros Hwf. pose proof Hwf as (_ & Hn & _ & Hc & Hr & Hclk). unfold palloc.
  destruct (Z.eqb_spec (rest_pages mm) 0) as [Hz|Hz].
  - left. split; [|done]. apply leibniz_equiv, size_empty_inv. lia.
  - destruct (palloc_loop_spec (Z.to_nat (num_blocks mm - clock_block mm)) (clock_block mm) mm mem)
      as [[He _]|(k & mm' & -> & Hk & Hmin & Hf & Hwf' & _)]; [done|lia..|done| |].
    { rewrite He, size_empty in Hr. done. }
    right. do 3 eexists. split; [done|]. split_and!; try done. intros x.
    unfold pzero. rewrite pzero_loop_spec. done.
Qed.

(** *** Properties *)

(** C30: on a well-formed memory map [palloc] never reads outside of the map;
    it returns [NULL] and changes nothing exactly when no frame is free, and
    otherwise returns the kernel address of the lowest free frame, which alone
    leaves the free frames, with every word of the page cleared and no other
    word of memory changed; the map stays well-formed. *)
Theorem palloc_correct mm mem :
  palloc_wf mm ->
  (free_pages mm = ∅ /\ palloc mm mem = Some (0, mm, mem)) \/
  (exists k mm' mem', palloc mm mem = Some (page_addr k, mm', mem') /\
     k ∈ free_pages mm /\ (forall k', k' ∈ free_pages mm -> k <= k') /\
     free_pages mm' = free_pages mm ∖ {[k]} /\ palloc_wf mm' /\
     forall x, mem' x =
       if decide (page_addr k <= x < page_addr k + PAGE_SIZE /\ (x - page_addr k) mod 4 = 0)
       then 0 else mem x).
Proof. apply palloc_spec. Qed.

(** Freeing any address of the frame [n] makes exactly [n] free, frees of
    frames beyond the map and frees of a free frame change nothing, and the
    map stays well-formed; so freeing the page [palloc] has just returned
    restores the free frames, and the next [palloc] returns the same page. *)
Theorem pfree_correct mm n k :
  palloc_wf mm -> 0 <= n < 2 ^ 19 -> 0 <= k < PAGE_SIZE ->
  exists mm', pfree mm (page_addr n + k) = Some mm' /\ palloc_wf mm' /\
    (if decide (n < 32 * num_blocks mm) then free_pages mm' = {[n]} ∪ free_pages mm else mm' = mm) /\
    (forall mm0 mem0 mem1, palloc_wf mm0 -> palloc mm0 mem0 = Some (page_addr n, mm, mem1) ->
       free_pages mm' = free_pages mm0 /\
       forall mem, exists mm2, palloc mm' mem = Some (page_addr n, mm2, pzero (page_addr n) mem)).
Proof.
  intros Hwf Hn Hk. destruct (pfree_spec mm n k Hwf Hn Hk) as (mm' & Hp & Hwf' & Hd).
  exists mm'. split_and!; try done. intros mm0 mem0 mem1 Hwf0 Hal. unfold palloc in Hal.
  destruct (Z.eqb_spec (rest_pages mm0) 0) as [Hz|Hz].
  { simplify_eq. unfold page_addr, SUPERVISOR_START, PAGE_SIZE in *. lia. }
  pose proof Hwf0 as (_ & Hn0 & _ & Hc0 & Hr0 & Hclk0).
  destruct (palloc_loop_spec (Z.to_nat (num_blocks mm0 - clock_block mm0)) (clock_block mm0) mm0 mem0)
    as [[He _]|(k' & mm1 & Heq & Hk' & Hmin & Hf & Hwf1 & Hnb)]; [done|lia..|done| |].
  { rewrite He, size_empty in Hr0. done. }
  rewrite Heq in Hal. set (pz := pzero _ _) in Hal. clearbody pz. injection Hal as Ha <- _.
  assert (n = k') as -> by (unfold page_addr, PAGE_SIZE in Ha; lia).
  assert (Hfree : free_pages mm' = free_pages mm0).
  { pose proof (free_bits_lt _ _ Hk'). rewrite decide_True in Hd by lia.
    rewrite Hd, Hf. apply set_eq. intros z. destruct (decide (z = k')) as [->|]; set_solver. }
  split; [done|]. intros mem. unfold palloc. pose proof Hwf' as (_ & Hn' & _ & Hc' & Hr' & Hclk').
  assert (Hr'' : rest_pages mm' = rest_pages mm0) by (rewrite Hr', Hr0; congruence).
  destruct (Z.eqb_spec (rest_pages mm') 0); [congruence|].
  destruct (palloc_loop_spec (Z.to_nat (num_blocks mm' - clock_block mm')) (clock_block mm') mm' mem)
    as [[He _]|(k2 & mm2 & -> & Hk2 & Hmin2 & _)]; [done|lia..|done| |].
  { rewrite He, size_empty in Hr'. done. }
  assert (k2 = k') as ->; [|exists mm2; reflexivity]. rewrite Hfree in Hk2, Hmin2.
  specialize (Hmin _ Hk2). specialize (Hmin2 _ Hk'). lia.
Qed.

(** On the map the boot code builds for [total] frames, [map_set_using]
    rejects an empty range and a range that starts beyond the last frame and
    then changes nothing; otherwise it takes exactly the frames of the range
    that exist, never touching a word outside of the map, and when they were
    all free the count of free frames stays exact, so the allocator starts
    from a well-formed map. *)
Theorem map_set_using_correct mm addr n :
  palloc_wf mm -> clock_block mm = 0 -> max_pages mm <= 32 * num_blocks mm ->
  0 <= addr < 2 ^ 32 -> 0 <= n < 2 ^ 31 ->
  let first := Z.shiftr addr BITS_OFFSET in
  let count := Z.min n (max_pages mm - first) in
  if decide (n = 0 \/ max_pages mm <= first) then map_set_using mm addr n = Some (E_PAR, mm)
  else exists mm', map_set_using mm addr n = Some (E_OK, mm') /\
    free_pages mm' = free_pages mm ∖ frames first count /\
    (frames first count ⊆ free_pages mm -> palloc_wf mm').
Proof.
  intros (Hw & Hn & Hb & Hc & Hr & Hclk) Hz Hmx Ha Hp first count. unfold map_set_using.
  destruct (Z.eqb_spec n 0); [by rewrite decide_True by auto|]. fold first.
  destruct (Z.leb_spec (max_pages mm) first); [by rewrite decide_True by auto|].
  rewrite decide_False by lia.
  assert (0 <= first) by (unfold first; apply Z.shiftr_nonneg; lia).
  rewrite (u32_small (first + n)) by (unfold is_u32; lia).
  replace (if max_pages mm <? first + n then max_pages mm - first else n) with count
    by (unfold count; destruct (Z.ltb_spec (max_pages mm) (first + n)); lia).
  pose proof (Z.div_mod first 32 ltac:(lia)). pose proof (Z.mod_pos_bound first 32 ltac:(lia)).
  assert (Hfst : Z.land first BITS_MASK = first mod 32 /\ Z.shiftr first MPU_LOG_INT = first / 32).
  { unfold BITS_MASK, MPU_LOG_INT. change 31 with (Z.ones 5).
    rewrite Z.land_ones, Z.shiftr_div_pow2 by lia. done. }
  destruct Hfst as [-> ->].
  destruct (set_using_map (map mm) (first / 32) (first mod 32) count Hw)
    as (m0 & i0 & left0 & mask & m1 & m2 & Hs & Hu1 & Hu2 & Hl & Hw2 & Hf);
    [apply Z.div_pos; lia|lia..|]. cbv zeta in Hs |- *. rewrite Hs. simpl. rewrite Hu1. simpl. rewrite Hu2. simpl.
  eexists. split; [done|]. unfold free_pages at 1. simpl.
  replace (32 * (first / 32) + first mod 32) with first in Hf by lia. split; [done|].
  intros Hsub. unfold palloc_wf, free_pages; simpl. rewrite Hl, Hf.
  split_and!; try done; [lia..| |].
  - pose proof (free_bits_size (map mm)). pose proof (size_frames first count ltac:(lia)).
    pose proof (subseteq_size _ _ Hsub). rewrite size_difference by done. unfold free_pages in *.
    rewrite u32_small by (unfold is_u32; lia). lia.
  - intros k [Hk _]%elem_of_difference. by apply Hclk.
Qed.

(** *** Witnesses *)

(** 70 frames, of which the boot code has taken 5 from frame 30 on. *)
Definition demo_map : MemoryMap := mkMemoryMap 65 0 3 70 [0x3fffffff; 0xfffffff8; 0x3f].

Lemma demo_map_wf : palloc_wf demo_map.
Proof.
  split; [repeat (constructor; [unfold is_u32; lia|]); constructor|]. split; [done|].
  split; [simpl; lia|]. split; [simpl; lia|]. split; [by vm_compute|].
  intros n Hn. apply free_bits_lt in Hn. simpl. lia.
Qed.

Lemma palloc_correct_witness :
  (free_pages demo_map = ∅ /\ palloc demo_map (λ _, 7) = Some (0, demo_map, λ _, 7)) \/
  (exists k mm' mem', palloc demo_map (λ _, 7) = Some (page_addr k, mm', mem') /\
     k ∈ free_pages demo_map /\ (forall k', k' ∈ free_pages demo_map -> k <= k') /\
     free_pages mm' = free_pages demo_map ∖ {[k]} /\ palloc_wf mm' /\
     forall x, mem' x =
       if decide (page_addr k <= x < page_addr k + PAGE_SIZE /\ (x - page_addr k) mod 4 = 0)
       then 0 else 7).
Proof. exact (palloc_correct demo_map (λ _, 7) demo_map_wf). Defined.

Lemma pfree_correct_witness :
  exists mm', pfree demo_map (page_addr 31 + 8) = Some mm' /\ palloc_wf mm'.
Proof.
  destruct (pfree_correct demo_map 31 8 demo_map_wf) as (mm' & H1 & H2 & _);
    [lia|unfold PAGE_SIZE; lia|]. by exists mm'.
Defined.

Lemma map_set_using_correct_witness :
  exists mm', map_set_using demo_map (36 * PAGE_SIZE) 40 = Some (E_OK, mm') /\
    free_pages mm' = free_pages demo_map ∖ frames 36 34.
Proof.
  destruct (map_set_using_correct demo_map (36 * PAGE_SIZE) 40 demo_map_wf) as (mm' & H1 & H2 & _);
    [done|simpl; lia|unfold PAGE_SIZE; lia..|]. by exists mm'.
Defined.
