(* ===== verification/CMem.v ===== *)
(** * Memory of a C program

    The objects a library function can reach, byte by byte: an access to an
    address outside of them is undefined behaviour, [None].  Arrays, strings
    that end in a zero byte, and what it means to overwrite an array. *)

From S2P Require Import Prelude.

Notation cmem := (gmap Z Z).

Definition get8 (m : cmem) (a : Z) : option Z := m !! a.

Definition put8 (m : cmem) (a v : Z) : option cmem :=
  match m !! a with Some _ => Some (<[a := u8 v]> m) | None => None end.

(** A loop that reads ever higher addresses makes fewer turns than this. *)
Definition turns (m : cmem) : nat := S (size m).

(** ** Arrays *)

Fixpoint bytes_at (m : cmem) (p : Z) (l : list Z) : Prop :=
  match l with [] => True | x :: l => m !! p = Some x /\ bytes_at m (p + 1) l end.

(** The [n] bytes from [p] exist. *)
Definition room (m : cmem) (p n : Z) : Prop := forall a, p <= a < p + n -> is_Some (m !! a).

Definition is_byte (x : Z) : Prop := 0 <= x < 256.

Lemma bytes_at_lookup m p l :
  bytes_at m p l <-> forall i x, l !! i = Some x -> m !! (p + Z.of_nat i) = Some x.
Proof.
  revert p. induction l as [|y l IH]; intros p; cbn [bytes_at]; [done|]. rewrite IH. split.
  - intros [Hy Hl] [|i] x Hx; [injection Hx as <-; by rewrite Z.add_0_r|].
    replace (p + Z.of_nat (S i)) with (p + 1 + Z.of_nat i) by lia. by apply Hl.
  - intros Hl. split; [rewrite <- (Z.add_0_r p); by apply (Hl 0%nat)|]. intros i x Hx.
    replace (p + 1 + Z.of_nat i) with (p + Z.of_nat (S i)) by lia. by apply Hl.
Qed.

Lemma bytes_at_app m p l1 l2 :
  bytes_at m p (l1 ++ l2) <-> bytes_at m p l1 /\ bytes_at m (p + Z.of_nat (length l1)) l2.
Proof.
  revert p. induction l1 as [|x l1 IH]; intros p; cbn [app bytes_at length].
  - rewrite Z.add_0_r. tauto.
  - rewrite IH. replace (p + 1 + Z.of_nat (length l1)) with (p + Z.of_nat (S (length l1))) by lia. tauto.
Qed.

Lemma bytes_at_drop m p l n : bytes_at m p l -> (n <= length l)%nat -> bytes_at m (p + Z.of_nat n) (drop n l).
Proof.
  intros Hl Hn. rewrite <- (take_drop n l), bytes_at_app in Hl. destruct Hl as [_ Hl].
  by rewrite length_take, Nat.min_l in Hl by done.
Qed.

Lemma bytes_at_size m p l : bytes_at m p l -> (length l <= size m)%nat.
Proof.
  intros Hl. rewrite bytes_at_lookup in Hl.
  assert (Hsub : (list_to_set (seqZ p (Z.of_nat (length l))) : gset Z) ⊆ dom m).
  { intros a Ha. apply elem_of_list_to_set, elem_of_seqZ in Ha. apply elem_of_dom.
    destruct (lookup_lt_is_Some_2 l (Z.to_nat (a - p))) as [x Hx]; [lia|]. exists x.
    replace a with (p + Z.of_nat (Z.to_nat (a - p))) by lia. by apply Hl. }
  apply subseteq_size in Hsub. rewrite size_dom, size_list_to_set, length_seqZ in Hsub by apply NoDup_seqZ. lia.
Qed.

Lemma bytes_at_turns m p l : bytes_at m p l -> (length l < turns m)%nat.
Proof. intros Hl%bytes_at_size. unfold turns. lia. Qed.

Lemma room_bytes m p l : bytes_at m p l -> room m p (Z.of_nat (length l)).
Proof.
  rewrite bytes_at_lookup. intros Hl a Ha. destruct (lookup_lt_is_Some_2 l (Z.to_nat (a - p))) as [x Hx]; [lia|].
  exists x. replace a with (p + Z.of_nat (Z.to_nat (a - p))) by lia. by apply Hl.
Qed.

Lemma room_sub m p n q k : room m p n -> p <= q -> q + k <= p + n -> room m q k.
Proof. intros Hr Hq Hk a Ha. apply Hr. lia. Qed.

(** ** Overwriting *)

Fixpoint put (m : cmem) (p : Z) (l : list Z) : cmem :=
  match l with [] => m | x :: l => put (<[p := x]> m) (p + 1) l end.

Lemma put_out m p l a : (a < p \/ p + Z.of_nat (length l) <= a) -> put m p l !! a = m !! a.
Proof.
  revert m p. induction l as [|x l IH]; intros m p Ha; [done|]. cbn [put length] in *.
  rewrite IH, lookup_insert_ne by lia. done.
Qed.

Lemma put_bytes m p l : bytes_at (put m p l) p l.
Proof.
  revert m p. induction l as [|x l IH]; intros m p; [done|]. split; [|apply IH].
  cbn [put]. rewrite put_out by lia. apply lookup_insert_eq.
Qed.

Lemma put_app m p l1 l2 : put m p (l1 ++ l2) = put (put m p l1) (p + Z.of_nat (length l1)) l2.
Proof.
  revert m p. induction l1 as [|x l1 IH]; intros m p; cbn [app put length]; [by rewrite Z.add_0_r|].
  rewrite IH. f_equal. lia.
Qed.

Lemma put_snoc m p l x : put m p (l ++ [x]) = <[p + Z.of_nat (length l) := x]> (put m p l).
Proof. by rewrite put_app. Qed.

Lemma bytes_at_put_out m p l q k :
  bytes_at m q k -> (q + Z.of_nat (length k) <= p \/ p + Z.of_nat (length l) <= q) -> bytes_at (put m p l) q k.
Proof.
  rewrite !bytes_at_lookup. intros Hk Hd i x Hx. pose proof (lookup_lt_Some _ _ _ Hx). rewrite put_out by lia. by apply Hk.
Qed.

Lemma bytes_at_insert_out m a v q k :
  bytes_at m q k -> (q + Z.of_nat (length k) <= a \/ a < q) -> bytes_at (<[a := v]> m) q k.
Proof. intros Hk Ha. apply (bytes_at_put_out m a [v]); [done|]. cbn. lia. Qed.

Lemma room_put m p l q n : room m q n -> room (put m p l) q n.
Proof.
  revert m p. induction l as [|x l IH]; intros m p Hr; [done|]. cbn [put]. apply IH. intros a Ha.
  rewrite lookup_insert_is_Some. destruct (decide (p = a)); [by left|right]. split; [done|by apply Hr].
Qed.

Lemma put_dom m p l : room m p (Z.of_nat (length l)) -> dom (put m p l) = dom m.
Proof.
  revert m p. induction l as [|x l IH]; intros m p Hr; [done|]. cbn [put]. rewrite IH.
  - apply dom_insert_lookup_L. apply Hr. cbn. lia.
  - intros a Ha. rewrite lookup_insert_is_Some. destruct (decide (p = a)); [by left|right]. split; [done|].
    apply Hr. cbn [length]. lia.
Qed.

Lemma put_turns m p l : room m p (Z.of_nat (length l)) -> turns (put m p l) = turns m.
Proof. intros Hr. unfold turns. by rewrite <- !(size_dom (D := gset Z)), put_dom. Qed.

Lemma put8_ok m a v : is_Some (m !! a) -> is_byte v -> put8 m a v = Some (<[a := v]> m).
Proof. intros [x Hx] Hv. unfold put8, u8. rewrite Hx, Z.mod_small by exact Hv. done. Qed.

Lemma put8_room m p n a v : room m p n -> p <= a < p + n -> is_byte v -> put8 m a v = Some (<[a := v]> m).
Proof. intros Hr Ha. apply put8_ok. by apply Hr. Qed.

(** ** Strings *)

Definition is_char (x : Z) : Prop := 0 < x < 256.

(** The characters [s] and the zero byte behind them are at [p]. *)
Definition cstr (m : cmem) (p : Z) (s : list Z) : Prop := bytes_at m p (s ++ [0]) /\ Forall is_char s.

Lemma char_byte x : is_char x -> is_byte x.
Proof. unfold is_char, is_byte. lia. Qed.

Lemma chars_bytes s : Forall is_char s -> Forall is_byte (s ++ [0]).
Proof.
  intros Hs. apply Forall_app. split; [eapply Forall_impl; [exact Hs|apply char_byte]|].
  apply Forall_singleton. unfold is_byte. lia.
Qed.

Lemma cstr_nil m p : cstr m p [] <-> m !! p = Some 0.
Proof. unfold cstr. cbn. split; [tauto|]. intros. split; [done|constructor]. Qed.

Lemma cstr_cons m p x s : cstr m p (x :: s) <-> m !! p = Some x /\ is_char x /\ cstr m (p + 1) s.
Proof. unfold cstr. cbn [app bytes_at]. rewrite Forall_cons. tauto. Qed.

Lemma cstr_turns m p s : cstr m p s -> (length s < turns m)%nat.
Proof. intros [Hb _]. apply bytes_at_size in Hb. rewrite length_app in Hb. unfold turns. cbn in Hb. lia. Qed.

Lemma cstr_nonzero s x : Forall is_char s -> x ∈ s -> x ≠ 0.
Proof. rewrite Forall_forall. intros Hs Hx ->. apply Hs in Hx. unfold is_char in Hx. lia. Qed.

Lemma cstr_drop m p s n : cstr m p s -> (n <= length s)%nat -> cstr m (p + Z.of_nat n) (drop n s).
Proof.
  intros [Hb Hs] Hn. split; [|by apply Forall_drop].
  apply (bytes_at_drop _ _ _ n) in Hb; [|rewrite length_app; lia]. by rewrite drop_app_le in Hb by done.
Qed.

(** The character at an index, the zero byte at the end. *)
Lemma cstr_lookup m p s i : cstr m p s -> 0 <= i <= Z.of_nat (length s) ->
  m !! (p + i) = Some (default 0 (s !! Z.to_nat i)).
Proof.
  intros [Hb _] Hi. rewrite bytes_at_lookup in Hb. replace i with (Z.of_nat (Z.to_nat i)) at 1 by lia. apply Hb.
  destruct (decide (i = Z.of_nat (length s))) as [->|Hne].
  - rewrite Nat2Z.id, (lookup_ge_None_2 s), lookup_app_r, Nat.sub_diag by lia. done.
  - destruct (lookup_lt_is_Some_2 s (Z.to_nat i)) as [x Hx]; [lia|]. rewrite Hx, lookup_app_l by lia. by rewrite Hx.
Qed.

Lemma cstr_put_out m p l q s :
  cstr m q s -> (q + Z.of_nat (length s) < p \/ p + Z.of_nat (length l) <= q) -> cstr (put m p l) q s.
Proof. intros [Hb Hs] Hd. split; [|done]. apply bytes_at_put_out; [done|]. rewrite length_app. cbn. lia. Qed.

Lemma cstr_put m p s : Forall is_char s -> cstr (put m p (s ++ [0])) p s.
Proof. intros Hs. split; [apply put_bytes|done]. Qed.
