(* ===== verification/CString.v ===== *)
(** * Strings and byte arrays (lib/libnc/string)

    The functions on memory and strings, each against what it means on lists of
    bytes: searches, comparisons and copies, the quick search of [strstr], and
    the tokens of [strtok_r].  A pointer result is [None] for [NULL]; the outer
    [None] is undefined behaviour. *)

From S2P Require Import Prelude CMem.

(** ** Length and searches *)

Fixpoint strlen_loop (f : nat) (m : cmem) (r : Z) : option Z :=
  match f with
  | O => None
  | S f => b ← get8 m r; if b =? 0 then Some r else strlen_loop f m (r + 1)
  end.

Definition strlen (m : cmem) (s : Z) : option Z := r ← strlen_loop (turns m) m s; Some (r - s).

Fixpoint strchr_loop (f : nat) (m : cmem) (p ch : Z) : option (option Z) :=
  match f with
  | O => None
  | S f =>
      b ← get8 m p;
      if b =? ch then Some (Some p)
      else if b =? 0 then Some None
      else strchr_loop f m (p + 1) ch
  end.

Definition strchr (m : cmem) (s c : Z) : option (option Z) := strchr_loop (turns m) m s (Z.land c 0xff).

Fixpoint strrchr_loop (f : nat) (m : cmem) (p ch : Z) (found : option Z) : option (option Z) :=
  match f with
  | O => None
  | S f =>
      b ← get8 m p;
      let found := if b =? ch then Some p else found in
      if b =? 0 then Some found else strrchr_loop f m (p + 1) ch found
  end.

Definition strrchr (m : cmem) (s c : Z) : option (option Z) :=
  strrchr_loop (turns m) m s (Z.land c 0xff) None.

Fixpoint memchr_loop (n : nat) (m : cmem) (p ch : Z) : option (option Z) :=
  match n with
  | O => Some None
  | S n => b ← get8 m p; if b =? ch then Some (Some p) else memchr_loop n m (p + 1) ch
  end.

Definition memchr (m : cmem) (s c n : Z) : option (option Z) := memchr_loop (Z.to_nat n) m s (Z.land c 0xff).

(** The loops of [strspn], [strcspn] and [strpbrk]: up to the first character
    that is in [set], or not, as [stop] says; [None] at the end of the string. *)
Fixpoint span_loop (f : nat) (m : cmem) (p set : Z) (stop : bool) : option (Z * bool) :=
  match f with
  | O => None
  | S f =>
      b ← get8 m p;
      if b =? 0 then Some (p, false)
      else
        o ← strchr m set b;
        if eqb (bool_decide (o = None)) (negb stop) then Some (p, true) else span_loop f m (p + 1) set stop
  end.

Definition strspn (m : cmem) (s accept : Z) : option Z :=
  '(p, _) ← span_loop (turns m) m s accept false; Some (p - s).

Definition strcspn (m : cmem) (s reject : Z) : option Z :=
  '(p, _) ← span_loop (turns m) m s reject true; Some (p - s).

Definition strpbrk (m : cmem) (s accept : Z) : option (option Z) :=
  '(p, found) ← span_loop (turns m) m s accept true; Some (if (found : bool) then Some p else None).

(** ** Comparisons *)

Fixpoint memcmp_loop (n : nat) (m : cmem) (p1 p2 : Z) : option Z :=
  match n with
  | O => Some 0
  | S n =>
      a ← get8 m p1; b ← get8 m p2;
      if negb (a - b =? 0) then Some (a - b) else memcmp_loop n m (p1 + 1) (p2 + 1)
  end.

Definition memcmp (m : cmem) (b1 b2 len : Z) : option Z := memcmp_loop (Z.to_nat len) m b1 b2.

Fixpoint strcmp_loop (f : nat) (m : cmem) (p1 p2 : Z) : option Z :=
  match f with
  | O => None
  | S f =>
      a ← get8 m p1; b ← get8 m p2;
      if negb (a - b =? 0) || (a =? 0) then Some (a - b) else strcmp_loop f m (p1 + 1) (p2 + 1)
  end.

Definition strcmp (m : cmem) (s1 s2 : Z) : option Z := strcmp_loop (turns m) m s1 s2.

Fixpoint strncmp_loop (n : nat) (m : cmem) (p1 p2 : Z) : option Z :=
  match n with
  | O => Some 0
  | S n =>
      a ← get8 m p1; b ← get8 m p2;
      if negb (a - b =? 0) || (a =? 0) then Some (a - b) else strncmp_loop n m (p1 + 1) (p2 + 1)
  end.

Definition strncmp (m : cmem) (s1 s2 n : Z) : option Z := strncmp_loop (Z.to_nat n) m s1 s2.

(** ** Copies *)

Fixpoint memset_loop (n : nat) (m : cmem) (w v : Z) : option cmem :=
  match n with O => Some m | S n => m ← put8 m w v; memset_loop n m (w + 1) v end.

Definition memset (m : cmem) (s c n : Z) : option (Z * cmem) :=
  m ← memset_loop (Z.to_nat n) m s (Z.land c 0xff); Some (s, m).

Fixpoint memcpy_loop (n : nat) (m : cmem) (w r : Z) : option cmem :=
  match n with
  | O => Some m
  | S n => b ← get8 m r; m ← put8 m w b; memcpy_loop n m (w + 1) (r + 1)
  end.

Definition memcpy (m : cmem) (s1 s2 n : Z) : option (Z * cmem) :=
  m ← memcpy_loop (Z.to_nat n) m s1 s2; Some (s1, m).

(** The backward loop of [memmove]; [w] and [r] are one past the next byte. *)
Fixpoint memmove_loop (n : nat) (m : cmem) (w r : Z) : option cmem :=
  match n with
  | O => Some m
  | S n => b ← get8 m (r - 1); m ← put8 m (w - 1) b; memmove_loop n m (w - 1) (r - 1)
  end.

Definition memmove (m : cmem) (dest src n : Z) : option (Z * cmem) :=
  m ← (if dest <=? src then memcpy_loop (Z.to_nat n) m dest src
       else memmove_loop (Z.to_nat n) m (dest + n) (src + n));
  Some (dest, m).

Fixpoint memccpy_loop (n : nat) (m : cmem) (w r term : Z) : option (option Z * cmem) :=
  match n with
  | O => Some (None, m)
  | S n =>
      b ← get8 m r; m ← put8 m w b;
      if u8 b =? term then Some (Some (w + 1), m) else memccpy_loop n m (w + 1) (r + 1) term
  end.

Definition memccpy (m : cmem) (s1 s2 c n : Z) : option (option Z * cmem) :=
  memccpy_loop (Z.to_nat n) m s1 s2 (Z.land c 0xff).

Fixpoint strcpy_loop (f : nat) (m : cmem) (w r : Z) : option cmem :=
  match f with
  | O => None
  | S f => c ← get8 m r; m ← put8 m w c; if c =? 0 then Some m else strcpy_loop f m (w + 1) (r + 1)
  end.

Definition strcpy (m : cmem) (s1 s2 : Z) : option (Z * cmem) :=
  m ← strcpy_loop (turns m) m s1 s2; Some (s1, m).

(** [for (; n && *r; n--)] of [strncpy] and [strncat]: where the writing and
    the reading stopped, and what is left of [n]. *)
Fixpoint ncopy_loop (n : nat) (m : cmem) (w r : Z) : option (Z * nat * cmem) :=
  match n with
  | O => Some (w, O, m)
  | S n' =>
      c ← get8 m r;
      if c =? 0 then Some (w, n, m) else m ← put8 m w c; ncopy_loop n' m (w + 1) (r + 1)
  end.

Definition strncpy (m : cmem) (s1 s2 n : Z) : option (Z * cmem) :=
  '(w, n, m) ← ncopy_loop (Z.to_nat n) m s1 s2;
  m ← memset_loop n m w 0; Some (s1, m).

Definition strcat (m : cmem) (s1 s2 : Z) : option (Z * cmem) :=
  w ← strlen_loop (turns m) m s1;
  m ← strcpy_loop (turns m) m w s2; Some (s1, m).

Definition strncat (m : cmem) (s1 s2 n : Z) : option (Z * cmem) :=
  w ← strlen_loop (turns m) m s1;
  '(w, _, m) ← ncopy_loop (Z.to_nat n) m w s2;
  m ← put8 m w 0; Some (s1, m).

(** ** Search of a substring *)

Definition UCHAR_MAX : Z := 255.

(** [skip[needle[i]] = keyLen - i] for the rest of the needle. *)
Fixpoint skip_loop (n : nat) (m : cmem) (needle keyLen i : Z) (skip : list Z) : option (list Z) :=
  match n with
  | O => Some skip
  | S n => b ← get8 m (needle + i); skip_loop n m needle keyLen (i + 1) (<[Z.to_nat b := keyLen - i]> skip)
  end.

(** How many characters of the needle are at [haystack + i], up to [n]. *)
Fixpoint match_loop (n : nat) (m : cmem) (p needle offset : Z) : option Z :=
  match n with
  | O => Some offset
  | S n =>
      a ← get8 m (p + offset); b ← get8 m (needle + offset);
      if negb (a =? b) then Some offset else match_loop n m p needle (offset + 1)
  end.

Fixpoint strstr_loop (f : nat) (m : cmem) (haystack needle keyLen end_ : Z) (skip : list Z) (i : Z) :
    option (option Z) :=
  match f with
  | O => None
  | S f =>
      if end_ <? i then Some None
      else
        offset ← match_loop (Z.to_nat keyLen) m (haystack + i) needle 0;
        if offset =? keyLen then Some (Some (haystack + i))
        else
          b ← get8 m (haystack + (i + keyLen));
          s ← skip !! Z.to_nat b;
          strstr_loop f m haystack needle keyLen end_ skip (s32 (i + s))
  end.

Definition strstr (m : cmem) (haystack needle : Z) : option (option Z) :=
  keyLen ← strlen m needle;
  len ← strlen m haystack;
  let end_ := s32 (len - keyLen) in
  if keyLen =? 0 then Some (Some haystack)
  else
    skip ← skip_loop (Z.to_nat keyLen) m needle keyLen 0 (replicate (Z.to_nat (UCHAR_MAX + 1)) (keyLen + 1));
    strstr_loop (turns m) m haystack needle keyLen end_ skip 0.

(** ** Tokens *)

(** Past the separators at the front. *)
Definition skip_separators (m : cmem) (p sep : Z) : option Z :=
  '(p, _) ← span_loop (turns m) m p sep false; Some p.

(** [strtok_r]: the token, the new state, and the memory with the separator
    behind the token replaced; [s] is [None] for [NULL]. *)
Definition strtok_r (m : cmem) (s : option Z) (sep state : Z) : option (option Z * Z * cmem) :=
  p ← skip_separators m (default state s) sep;
  '(q, found) ← span_loop (turns m) m p sep true;
  if (found : bool) then m ← put8 m q 0; Some (Some p, q + 1, m)
  else if q =? p then Some (None, p, m) else Some (Some p, q, m).

(** ** Length and searches, on lists *)

(** The first index of [c]. *)
Fixpoint index_of (c : Z) (l : list Z) : option nat :=
  match l with [] => None | x :: l => if x =? c then Some O else S <$> index_of c l end.

(** The last index of [c]. *)
Fixpoint last_index_of (c : Z) (l : list Z) : option nat :=
  match l with
  | [] => None
  | x :: l => match last_index_of c l with Some i => Some (S i) | None => if x =? c then Some O else None end
  end.

(** The length of the longest prefix of elements that satisfy [P]. *)
Fixpoint prefix_len (P : Z -> bool) (l : list Z) : nat :=
  match l with x :: l => if P x then S (prefix_len P l) else O | [] => O end.

Definition offset_from (p : Z) (o : option nat) : option Z := (λ i : nat, p + Z.of_nat i) <$> o.

Lemma offset_from_S p o : offset_from p (S <$> o) = offset_from (p + 1) o.
Proof. destruct o; cbn; [|done]. f_equal. lia. Qed.

Lemma land_ff c : Z.land c 0xff = c mod 256.
Proof. change 0xff with (Z.ones 8). by rewrite Z.land_ones by lia. Qed.

Lemma land_ff_byte c : is_byte c -> Z.land c 0xff = c.
Proof. intros Hc. rewrite land_ff. by apply Z.mod_small. Qed.

Lemma strlen_loop_spec f m r s : cstr m r s -> (length s < f)%nat -> strlen_loop f m r = Some (r + Z.of_nat (length s)).
Proof.
  revert r f. induction s as [|x s IH]; intros r [|f] Hs Hf; cbn [length] in *; try lia; cbn [strlen_loop]; unfold get8.
  - apply cstr_nil in Hs. rewrite Hs. cbn. by rewrite Z.add_0_r.
  - apply cstr_cons in Hs as (Hx & Hc & Hs). rewrite Hx. cbn [mbind option_bind].
    rewrite (proj2 (Z.eqb_neq x 0)) by (unfold is_char in Hc; lia). rewrite IH by (done || lia). f_equal. lia.
Qed.

Lemma strlen_spec m r s : cstr m r s -> strlen m r = Some (Z.of_nat (length s)).
Proof.
  intros Hs. unfold strlen. rewrite (strlen_loop_spec _ _ _ s) by (done || by eapply cstr_turns). cbn. f_equal. lia.
Qed.

Lemma strchr_loop_spec f m p s ch : cstr m p s -> (length s < f)%nat ->
  strchr_loop f m p ch = Some (offset_from p (index_of ch (s ++ [0]))).
Proof.
  revert p f. induction s as [|x s IH]; intros p [|f] Hs Hf; cbn [length] in *; try lia; cbn [strchr_loop]; unfold get8.
  - apply cstr_nil in Hs. rewrite Hs. cbn. destruct (0 =? ch); [|done]. cbn. by rewrite Z.add_0_r.
  - apply cstr_cons in Hs as (Hx & Hc & Hs). rewrite Hx. cbn [mbind option_bind app index_of].
    destruct (x =? ch); [cbn; by rewrite Z.add_0_r|].
    rewrite (proj2 (Z.eqb_neq x 0)) by (unfold is_char in Hc; lia). by rewrite IH, offset_from_S by (done || lia).
Qed.

Lemma strchr_spec m p s c : cstr m p s -> strchr m p c = Some (offset_from p (index_of (c mod 256) (s ++ [0]))).
Proof. intros Hs. unfold strchr. rewrite land_ff. apply strchr_loop_spec; [done|by eapply cstr_turns]. Qed.

Lemma index_of_None c l : index_of c l = None <-> c ∉ l.
Proof.
  induction l as [|x l IH]; cbn; [split; [intros _; apply not_elem_of_nil|done]|].
  rewrite not_elem_of_cons. destruct (Z.eqb_spec x c) as [->|Hne]; [split; [done|tauto]|].
  rewrite <- IH. destruct (index_of c l); cbn; [split; [done|by intros [_ ?]]|]. split; [|done]. intros _. split; [congruence|done].
Qed.

(** Whether a character is one of a set, as [strchr] tells. *)
Lemma strchr_member m p s c : cstr m p s -> is_char c -> strchr m p c = Some None <-> c ∉ s.
Proof.
  intros Hs Hc. rewrite (strchr_spec _ _ _ _ Hs), Z.mod_small by (unfold is_char in Hc; lia).
  split.
  - intros [= E]. destruct (index_of c (s ++ [0])) as [i|] eqn:Ei; [done|]. apply index_of_None in Ei. set_solver.
  - intros Hn. rewrite (proj2 (index_of_None c (s ++ [0]))); [done|]. rewrite elem_of_app, list_elem_of_singleton.
    unfold is_char in Hc. intros [?|?]; [done|lia].
Qed.

Lemma strrchr_loop_spec f m p s ch found : cstr m p s -> (length s < f)%nat ->
  strrchr_loop f m p ch found =
  Some (match last_index_of ch (s ++ [0]) with Some i => Some (p + Z.of_nat i) | None => found end).
Proof.
  revert p f found. induction s as [|x s IH]; intros p [|f] found Hs Hf; cbn [length] in *; try lia;
    cbn [strrchr_loop]; unfold get8.
  - apply cstr_nil in Hs. rewrite Hs. cbn. destruct (0 =? ch); [|done]. by rewrite Z.add_0_r.
  - apply cstr_cons in Hs as (Hx & Hc & Hs). rewrite Hx. cbn [mbind option_bind app last_index_of].
    rewrite (proj2 (Z.eqb_neq x 0)) by (unfold is_char in Hc; lia). rewrite IH by (done || lia).
    destruct (last_index_of ch (s ++ [0])) as [i|]; [do 2 f_equal; lia|]. destruct (x =? ch); [|done].
    by rewrite Z.add_0_r.
Qed.

Lemma strrchr_spec m p s c : cstr m p s -> strrchr m p c = Some (offset_from p (last_index_of (c mod 256) (s ++ [0]))).
Proof.
  intros Hs. unfold strrchr. rewrite land_ff, (strrchr_loop_spec _ _ _ s) by (done || by eapply cstr_turns).
  by destruct (last_index_of _ _).
Qed.

Lemma memchr_loop_spec m p l ch : bytes_at m p l -> memchr_loop (length l) m p ch = Some (offset_from p (index_of ch l)).
Proof.
  revert p. induction l as [|x l IH]; intros p Hl; [done|]. destruct Hl as [Hx Hl].
  cbn [length memchr_loop index_of]. unfold get8. rewrite Hx. cbn [mbind option_bind].
  destruct (x =? ch); [cbn; by rewrite Z.add_0_r|]. by rewrite IH, offset_from_S.
Qed.

Lemma memchr_spec m p l c :
  bytes_at m p l -> memchr m p c (Z.of_nat (length l)) = Some (offset_from p (index_of (c mod 256) l)).
Proof. intros Hl. unfold memchr. rewrite land_ff, Nat2Z.id. by apply memchr_loop_spec. Qed.

(** Membership as a test. *)
Definition member (t : list Z) (x : Z) : bool := bool_decide (x ∈ t).

Lemma prefix_len_le P l : (prefix_len P l <= length l)%nat.
Proof. induction l as [|x l IH]; cbn; [lia|]. destruct (P x); lia. Qed.

Lemma prefix_len_ext P Q l : (forall x, P x = Q x) -> prefix_len P l = prefix_len Q l.
Proof. intros E. induction l as [|x l IH]; cbn; [done|]. by rewrite E, IH. Qed.

Lemma span_loop_spec f m p s set t stop : cstr m p s -> cstr m set t -> (length s < f)%nat ->
  let n := prefix_len (λ x, xorb stop (member t x)) s in
  span_loop f m p set stop = Some (p + Z.of_nat n, (n <? length s)%nat).
Proof.
  intros Hs Ht. revert p f Hs. induction s as [|x s IH]; intros p [|f] Hs Hf; cbn [length] in *; try lia;
    cbn [span_loop]; unfold get8.
  - apply cstr_nil in Hs. rewrite Hs. cbn. by rewrite Z.add_0_r.
  - apply cstr_cons in Hs as (Hx & Hc & Hs). rewrite Hx. cbn [mbind option_bind].
    rewrite (proj2 (Z.eqb_neq x 0)) by (unfold is_char in Hc; lia).
    pose proof (strchr_member _ _ _ _ Ht Hc) as Hm.
    destruct (strchr m set x) as [o|] eqn:Eo; [|by rewrite (strchr_spec _ _ _ _ Ht) in Eo]. cbn [mbind option_bind].
    assert (Ho : bool_decide (o = None) = negb (member t x)).
    { unfold member. destruct (decide (x ∈ t)) as [Hin|Hin].
      - rewrite (bool_decide_true (x ∈ t)), bool_decide_false; [done| |done]. intros ->. by apply Hm.
      - rewrite (bool_decide_false (x ∈ t)), bool_decide_true; [done| |done]. by injection (proj2 Hm Hin). }
    rewrite Ho. cbn [prefix_len]. destruct (member t x), stop; cbn [negb eqb xorb].
    2,3: rewrite (IH (p + 1) f) by (done || lia); cbn [xorb]; f_equal; f_equal; lia.
    all: by rewrite Z.add_0_r.
Qed.

Lemma strspn_spec m s a l t : cstr m s l -> cstr m a t -> strspn m s a = Some (Z.of_nat (prefix_len (member t) l)).
Proof.
  intros Hs Ht. unfold strspn. rewrite (span_loop_spec _ _ _ l _ t) by (done || by eapply cstr_turns).
  rewrite (prefix_len_ext _ (member t)) by done. cbn [mbind option_bind]. f_equal. lia.
Qed.

Lemma strcspn_spec m s a l t : cstr m s l -> cstr m a t ->
  strcspn m s a = Some (Z.of_nat (prefix_len (negb ∘ member t) l)).
Proof.
  intros Hs Ht. unfold strcspn. rewrite (span_loop_spec _ _ _ l _ t) by (done || by eapply cstr_turns).
  rewrite (prefix_len_ext _ (negb ∘ member t)) by done. cbn [mbind option_bind]. f_equal. lia.
Qed.

Lemma strpbrk_spec m s a l t : cstr m s l -> cstr m a t ->
  let n := prefix_len (negb ∘ member t) l in
  strpbrk m s a = Some (if (n <? length l)%nat then Some (s + Z.of_nat n) else None).
Proof.
  intros Hs Ht. unfold strpbrk. rewrite (span_loop_spec _ _ _ l _ t) by (done || by eapply cstr_turns).
  by rewrite (prefix_len_ext _ (negb ∘ member t)).
Qed.

(** ** Comparisons, on lists *)

(** The difference at the first place where the lists differ. *)
Fixpoint first_diff (l1 l2 : list Z) : Z :=
  match l1, l2 with
  | a :: l1, b :: l2 => if a - b =? 0 then first_diff l1 l2 else a - b
  | a :: _, [] => a
  | [], b :: _ => - b
  | [], [] => 0
  end.

Lemma memcmp_spec m p1 p2 l1 l2 : bytes_at m p1 l1 -> bytes_at m p2 l2 -> length l1 = length l2 ->
  memcmp m p1 p2 (Z.of_nat (length l1)) = Some (first_diff l1 l2).
Proof.
  unfold memcmp. rewrite Nat2Z.id. revert p1 p2 l2. induction l1 as [|a l1 IH]; intros p1 p2 [|b l2] H1 H2 [=]; [done|].
  destruct H1 as [Ha H1], H2 as [Hb H2]. cbn. unfold get8. rewrite Ha, Hb. cbn.
  destruct (a - b =? 0); cbn [negb]; [by apply IH|done].
Qed.

Lemma strcmp_spec m p1 p2 s1 s2 : cstr m p1 s1 -> cstr m p2 s2 -> strcmp m p1 p2 = Some (first_diff s1 s2).
Proof.
  intros H1 H2. unfold strcmp. pose proof (cstr_turns _ _ _ H1) as Hf. revert Hf. generalize (turns m) as f. intros f.
  revert p1 p2 s2 f H1 H2. induction s1 as [|a s1 IH]; intros p1 p2 s2 [|f] H1 H2 Hf; cbn [length] in *; try lia;
    cbn [strcmp_loop]; unfold get8.
  - apply cstr_nil in H1. rewrite H1. destruct s2 as [|b s2].
    + apply cstr_nil in H2. by rewrite H2.
    + apply cstr_cons in H2 as (Hb & _). rewrite Hb. cbn. by rewrite orb_true_r.
  - apply cstr_cons in H1 as (Ha & Hc & H1). rewrite Ha. cbn [mbind option_bind]. unfold is_char in Hc.
    assert (Ha0 : (a =? 0) = false) by (apply Z.eqb_neq; lia). destruct s2 as [|b s2].
    + apply cstr_nil in H2. rewrite H2. cbn [mbind option_bind first_diff]. by rewrite Z.sub_0_r, Ha0.
    + apply cstr_cons in H2 as (Hb & _ & H2). rewrite Hb. cbn [mbind option_bind first_diff].
      rewrite Ha0. destruct (a - b =? 0); cbn [negb orb]; [|done]. apply IH; [done|done|lia].
Qed.

Lemma strncmp_spec m p1 p2 s1 s2 n : cstr m p1 s1 -> cstr m p2 s2 ->
  strncmp m p1 p2 (Z.of_nat n) = Some (first_diff (take n s1) (take n s2)).
Proof.
  unfold strncmp. rewrite Nat2Z.id. revert p1 p2 s1 s2. induction n as [|n IH]; intros p1 p2 s1 s2 H1 H2; [done|].
  cbn [strncmp_loop]. unfold get8. destruct s1 as [|a s1].
  - apply cstr_nil in H1. rewrite H1. destruct s2 as [|b s2].
    + apply cstr_nil in H2. by rewrite H2.
    + apply cstr_cons in H2 as (Hb & _). rewrite Hb. cbn. by rewrite orb_true_r.
  - apply cstr_cons in H1 as (Ha & Hc & H1). rewrite Ha. cbn [mbind option_bind]. unfold is_char in Hc.
    assert (Ha0 : (a =? 0) = false) by (apply Z.eqb_neq; lia). destruct s2 as [|b s2].
    + apply cstr_nil in H2. rewrite H2. cbn [mbind option_bind take first_diff]. by rewrite Z.sub_0_r, Ha0.
    + apply cstr_cons in H2 as (Hb & _ & H2). rewrite Hb. cbn [mbind option_bind take first_diff].
      rewrite Ha0. destruct (a - b =? 0); cbn [negb orb]; [|done]. by apply IH.
Qed.

(** The comparison orders strings: it is zero on equal strings only, and its
    sign changes when they are exchanged. *)
Lemma first_diff_eq s1 s2 : Forall is_char s1 -> Forall is_char s2 -> first_diff s1 s2 = 0 <-> s1 = s2.
Proof.
  intros H1. revert s2. induction H1 as [|a s1 Ha _ IH]; intros s2 H2; destruct H2 as [|b s2 Hb H2]; cbn; unfold is_char in *.
  - done.
  - split; [lia|done].
  - split; [lia|done].
  - destruct (Z.eqb_spec (a - b) 0) as [E|E]; [|split; [done|intros [=]; lia]].
    rewrite IH by done. split; [intros ->; f_equal; lia|by intros [= _ ->]].
Qed.

Lemma first_diff_opp s1 s2 : first_diff s2 s1 = - first_diff s1 s2.
Proof.
  revert s2. induction s1 as [|a s1 IH]; intros [|b s2]; cbn; try lia.
  destruct (Z.eqb_spec (a - b) 0), (Z.eqb_spec (b - a) 0); try lia. apply IH.
Qed.

(** ** Copies, on lists *)

(** Copying [n] bytes forward from [r] to [w] is safe. *)
Definition forward_ok (w r : Z) (n : nat) : Prop := w <= r \/ r + Z.of_nat n <= w.

Lemma memcpy_loop_spec m w r l :
  bytes_at m r l -> Forall is_byte l -> room m w (Z.of_nat (length l)) -> forward_ok w r (length l) ->
  memcpy_loop (length l) m w r = Some (put m w l).
Proof.
  intros Hl Hb. revert m w r Hl. induction Hb as [|x l Hx _ IH]; intros m w r Hl Hr Hf; [done|].
  destruct Hl as [Hx' Hl]. cbn [length memcpy_loop put]. unfold get8. rewrite Hx'. cbn [mbind option_bind].
  unfold forward_ok in Hf. cbn [length] in Hr, Hf.
  rewrite (put8_room _ _ _ _ _ Hr) by (done || lia). cbn [mbind option_bind]. apply IH.
  - apply bytes_at_insert_out; [done|]. lia.
  - apply (room_put _ w [x]). apply (room_sub _ _ _ _ _ Hr); lia.
  - unfold forward_ok. lia.
Qed.

Lemma memcpy_spec m w r l :
  bytes_at m r l -> Forall is_byte l -> room m w (Z.of_nat (length l)) -> forward_ok w r (length l) ->
  memcpy m w r (Z.of_nat (length l)) = Some (w, put m w l).
Proof. intros. unfold memcpy. by rewrite Nat2Z.id, memcpy_loop_spec. Qed.

Lemma put_insert_comm m p l a v :
  (a < p \/ p + Z.of_nat (length l) <= a) -> put (<[a := v]> m) p l = <[a := v]> (put m p l).
Proof.
  revert m p. induction l as [|x l IH]; intros m p Ha; [done|]. cbn [put length] in *.
  rewrite <- IH by lia. by rewrite insert_insert_ne by lia.
Qed.

Lemma memmove_loop_spec m w r l :
  bytes_at m (r - Z.of_nat (length l)) l -> Forall is_byte l -> room m (w - Z.of_nat (length l)) (Z.of_nat (length l)) ->
  r <= w -> memmove_loop (length l) m w r = Some (put m (w - Z.of_nat (length l)) l).
Proof.
  revert m w r. induction l as [|x l IH] using rev_ind; intros m w r Hl Hb Hr Hw; [done|].
  rewrite length_app in *. cbn [length] in *. rewrite Nat.add_1_r in *. cbn [memmove_loop].
  apply bytes_at_app in Hl as [Hl [Hx _]]. apply Forall_app in Hb as [Hb Hbx]. rewrite Forall_singleton in Hbx.
  replace (r - Z.of_nat (S (length l)) + Z.of_nat (length l)) with (r - 1) in Hx by lia.
  unfold get8. rewrite Hx. cbn [mbind option_bind].
  rewrite (put8_room _ _ _ _ _ Hr) by (done || lia). cbn [mbind option_bind]. rewrite IH.
  - rewrite put_snoc. replace (w - Z.of_nat (S (length l)) + Z.of_nat (length l)) with (w - 1) by lia.
    rewrite put_insert_comm by lia. do 3 f_equal. lia.
  - apply bytes_at_insert_out; [|lia]. by replace (r - 1 - Z.of_nat (length l)) with (r - Z.of_nat (S (length l))) by lia.
  - done.
  - apply (room_put _ (w - 1) [x]). apply (room_sub _ _ _ _ _ Hr); lia.
  - lia.
Qed.

(** [memmove] copies between any two arrays, also where they overlap. *)
Lemma memmove_spec m w r l :
  bytes_at m r l -> Forall is_byte l -> room m w (Z.of_nat (length l)) ->
  memmove m w r (Z.of_nat (length l)) = Some (w, put m w l).
Proof.
  intros Hl Hb Hr. unfold memmove. rewrite Nat2Z.id. destruct (Z.leb_spec w r) as [Hle|Hlt].
  - rewrite memcpy_loop_spec; [done..|by left].
  - rewrite memmove_loop_spec; [|by replace (r + _ - _) with r by lia|done|by replace (w + _ - _) with w by lia|lia].
    cbn. do 3 f_equal. lia.
Qed.

Lemma memset_loop_spec m w v n : room m w (Z.of_nat n) -> is_byte v -> memset_loop n m w v = Some (put m w (replicate n v)).
Proof.
  revert m w. induction n as [|n IH]; intros m w Hr Hv; [done|]. cbn [memset_loop replicate put].
  rewrite (put8_room _ _ _ _ _ Hr) by (done || lia). cbn [mbind option_bind]. apply IH; [|done].
  apply (room_put _ w [v]). apply (room_sub _ _ _ _ _ Hr); lia.
Qed.

Lemma memset_spec m s c n : room m s (Z.of_nat n) ->
  memset m s c (Z.of_nat n) = Some (s, put m s (replicate n (c mod 256))).
Proof.
  intros Hr. unfold memset. rewrite Nat2Z.id, land_ff, memset_loop_spec; [done|done|].
  unfold is_byte. pose proof (Z.mod_pos_bound c 256). lia.
Qed.

Lemma strcpy_loop_spec f m w r s :
  cstr m r s -> room m w (Z.of_nat (length s) + 1) -> forward_ok w r (S (length s)) -> (length s < f)%nat ->
  strcpy_loop f m w r = Some (put m w (s ++ [0])).
Proof.
  revert f m w r. induction s as [|x s IH]; intros [|f] m w r Hs Hr Hf Hn; cbn [length] in *; try lia;
    cbn [strcpy_loop]; unfold get8, forward_ok in *.
  - apply cstr_nil in Hs. rewrite Hs. cbn [mbind option_bind app put].
    by rewrite (put8_room _ _ _ _ _ Hr) by (unfold is_byte; lia).
  - pose proof Hs as [Hbs Hcs]. apply cstr_cons in Hs as (Hx & Hc & Hs). rewrite Hx. cbn [mbind option_bind app put].
    rewrite (put8_room _ _ _ _ _ Hr) by (lia || by apply char_byte). cbn [mbind option_bind].
    rewrite (proj2 (Z.eqb_neq x 0)) by (unfold is_char in Hc; lia). apply IH; [| | |lia].
    + apply (cstr_put_out m w [x]); [done|]. cbn. lia.
    + apply (room_put _ w [x]). apply (room_sub _ _ _ _ _ Hr); lia.
    + unfold forward_ok. lia.
Qed.

Lemma strcpy_spec m d r s :
  cstr m r s -> room m d (Z.of_nat (length s) + 1) -> forward_ok d r (S (length s)) ->
  strcpy m d r = Some (d, put m d (s ++ [0])).
Proof. intros Hs Hr Hf. unfold strcpy. by rewrite (strcpy_loop_spec _ _ _ _ s) by (done || by eapply cstr_turns). Qed.

(** Two arrays without a common byte. *)
Definition apart (p : Z) (n : Z) (q : Z) (k : Z) : Prop := p + n <= q \/ q + k <= p.

Lemma strcat_spec m d r s t :
  cstr m d s -> cstr m r t -> room m d (Z.of_nat (length s + length t) + 1) ->
  apart d (Z.of_nat (length s + length t) + 1) r (Z.of_nat (length t) + 1) ->
  strcat m d r = Some (d, put m (d + Z.of_nat (length s)) (t ++ [0])) /\
  cstr (put m (d + Z.of_nat (length s)) (t ++ [0])) d (s ++ t).
Proof.
  intros Hs Ht Hr Ha. unfold strcat, apart in *. rewrite (strlen_loop_spec _ _ _ s) by (done || by eapply cstr_turns).
  cbn [mbind option_bind]. rewrite (strcpy_loop_spec _ _ _ _ t); [|done| | |by eapply cstr_turns].
  - split; [done|]. destruct Hs as [Hb Hs], Ht as [_ Ht]. split; [|by apply Forall_app].
    rewrite <- app_assoc, bytes_at_app. split; [|apply put_bytes]. apply bytes_at_app in Hb as [Hb _].
    apply bytes_at_put_out; [done|lia].
  - apply (room_sub _ _ _ _ _ Hr); lia.
  - unfold forward_ok. lia.
Qed.

(** Up to [n] characters are copied, with what is left of [n]. *)
Lemma ncopy_loop_spec n m w r s :
  cstr m r s -> room m w (Z.of_nat (min n (length s))) -> forward_ok w r (S (length s)) ->
  ncopy_loop n m w r = Some (w + Z.of_nat (min n (length s)), (n - length s)%nat, put m w (take n s)).
Proof.
  revert m w r s. induction n as [|n IH]; intros m w r s Hs Hr Hf; [cbn; by rewrite Z.add_0_r|].
  cbn [ncopy_loop]. unfold get8. destruct s as [|x s].
  - apply cstr_nil in Hs. rewrite Hs. cbn. by rewrite Z.add_0_r.
  - apply cstr_cons in Hs as (Hx & Hc & Hs). rewrite Hx. cbn [mbind option_bind]. unfold forward_ok in Hf. cbn [length] in *.
    rewrite (proj2 (Z.eqb_neq x 0)) by (unfold is_char in Hc; lia).
    rewrite (put8_room _ _ _ _ _ Hr) by (lia || by apply char_byte). cbn [mbind option_bind take put]. rewrite (IH _ _ _ s).
    + do 3 f_equal; lia.
    + apply (cstr_put_out m w [x]); [done|]. cbn. lia.
    + apply (room_put _ w [x]). apply (room_sub _ _ _ _ _ Hr); lia.
    + unfold forward_ok. lia.
Qed.

Lemma strncpy_spec m d r s n :
  cstr m r s -> room m d (Z.of_nat n) -> forward_ok d r (S (length s)) ->
  strncpy m d r (Z.of_nat n) = Some (d, put m d (take n s ++ replicate (n - length s) 0)).
Proof.
  intros Hs Hr Hf. unfold strncpy. rewrite Nat2Z.id, (ncopy_loop_spec _ _ _ _ s); [|done| |done].
  2:{ apply (room_sub _ _ _ _ _ Hr); lia. }
  cbn [mbind option_bind]. rewrite memset_loop_spec.
  - cbn. do 2 f_equal. rewrite put_app, length_take. do 2 f_equal; lia.
  - apply room_put. apply (room_sub _ _ _ _ _ Hr); lia.
  - unfold is_byte. lia.
Qed.

Lemma strncat_spec m d r s t n :
  cstr m d s -> cstr m r t -> room m d (Z.of_nat (length s + min n (length t)) + 1) ->
  apart d (Z.of_nat (length s + length t) + 1) r (Z.of_nat (length t) + 1) ->
  exists m', strncat m d r (Z.of_nat n) = Some (d, m') /\ cstr m' d (s ++ take n t) /\
    m' = put m (d + Z.of_nat (length s)) (take n t ++ [0]).
Proof.
  intros Hs Ht Hr Ha. unfold strncat, apart in *. rewrite (strlen_loop_spec _ _ _ s) by (done || by eapply cstr_turns).
  cbn [mbind option_bind]. rewrite Nat2Z.id, (ncopy_loop_spec _ _ _ _ t); [|done| |unfold forward_ok; lia].
  2:{ apply (room_sub _ _ _ _ _ Hr); lia. }
  cbn [mbind option_bind]. erewrite (put8_room _ d); [|apply room_put, Hr|lia|unfold is_byte; lia].
  cbn [mbind option_bind]. eexists. split; [done|].
  assert (Em : <[d + Z.of_nat (length s) + Z.of_nat (min n (length t)) := 0]> (put m (d + Z.of_nat (length s)) (take n t))
     = put m (d + Z.of_nat (length s)) (take n t ++ [0])) by (by rewrite put_snoc, length_take).
  rewrite Em. split; [|done]. destruct Hs as [Hb Hs], Ht as [_ Ht]. split; [|apply Forall_app; split; [done|by apply Forall_take]].
  rewrite <- app_assoc, bytes_at_app. split; [|apply put_bytes]. apply bytes_at_app in Hb as [Hb _].
  apply bytes_at_put_out; [done|lia].
Qed.

(** ** Search of a substring *)

(** [n] is in [h] at index [i]. *)
Definition occurs (n h : list Z) (i : nat) : Prop := take (length n) (drop i h) = n.

Lemma occurs_bound n h i : occurs n h i -> (n = [] \/ i + length n <= length h)%nat.
Proof.
  unfold occurs. intros E. destruct n as [|x n]; [by left|right]. apply (f_equal length) in E.
  rewrite length_take, length_drop in E. cbn [length] in *. lia.
Qed.

Lemma occurs_lookup n h i j x : occurs n h i -> n !! j = Some x -> h !! (i + j)%nat = Some x.
Proof.
  unfold occurs. intros E Hx. rewrite <- E in Hx. rewrite lookup_take_lt in Hx by (eapply lookup_lt_Some in Hx; rewrite length_take in Hx; lia).
  by rewrite lookup_drop in Hx.
Qed.

Lemma match_loop_spec m p q off s t :
  cstr m (p + off) s -> cstr m (q + off) t -> (length t <= length s)%nat ->
  exists o, match_loop (length t) m p q off = Some o /\ (o = off + Z.of_nat (length t) <-> take (length t) s = t) /\
    off <= o <= off + Z.of_nat (length t).
Proof.
  revert off s. induction t as [|y t IH]; intros off s Hs Ht Hle; cbn [length match_loop] in *.
  { exists off. split; [done|]. split; [|lia]. rewrite take_0. split; [done|lia]. }
  destruct s as [|x s]; [cbn in Hle; lia|]. apply cstr_cons in Hs as (Hx & _ & Hs), Ht as (Hy & _ & Ht).
  unfold get8. rewrite Hx, Hy. cbn [mbind option_bind take]. destruct (Z.eqb_spec x y) as [->|Hne]; cbn [negb].
  - rewrite <- Z.add_assoc in Hs, Ht. destruct (IH (off + 1) s Hs Ht) as (o & E & Ho & Hb); [cbn in Hle; lia|].
    exists o. split; [done|]. split; [|lia]. split.
    + intros ?. f_equal. apply Ho. lia.
    + intros [= E']. apply Ho in E'. lia.
  - exists off. split; [done|]. split; [|lia]. split; [lia|]. by intros [= ? _].
Qed.

(** A table of shifts for the first [i] characters of the needle: a shift
    reaches no further than the last of them that is the character. *)
Record skips (n : list Z) (i : nat) (skip : list Z) : Prop := {
  sk_length : length skip = 256%nat;
  sk_bounds c s : skip !! c = Some s -> 1 <= s <= Z.of_nat (length n) + 1;
  sk_last j x s : (j < i)%nat -> n !! j = Some x -> skip !! Z.to_nat x = Some s -> s <= Z.of_nat (length n) - Z.of_nat j;
}.

Lemma skip_loop_spec m q n k i skip :
  cstr m q n -> (i + k = length n)%nat -> skips n i skip ->
  exists skip', skip_loop k m q (Z.of_nat (length n)) (Z.of_nat i) skip = Some skip' /\ skips n (length n) skip'.
Proof.
  intros Hn. revert i skip. induction k as [|k IH]; intros i skip Hk Hs; cbn [skip_loop].
  { exists skip. split; [done|]. by replace (length n) with i by lia. }
  destruct (lookup_lt_is_Some_2 n i) as [x Hx]; [lia|].
  assert (Hc : is_char x) by (eapply (Forall_lookup_1 _ n i); [apply Hn|done]).
  unfold get8. rewrite (cstr_lookup _ _ n) by (done || lia). rewrite Nat2Z.id, Hx. change (default 0 (Some x)) with x. cbn [mbind option_bind].
  replace (Z.of_nat i + 1) with (Z.of_nat (S i)) by lia. apply IH; [lia|]. destruct Hs as [Hl Hb Hj]. split.
  - by rewrite length_insert.
  - intros c s Hcs. destruct (decide (c = Z.to_nat x)) as [->|Hne].
    + rewrite list_lookup_insert_eq in Hcs by (unfold is_char in Hc; lia). injection Hcs as <-. lia.
    + rewrite list_lookup_insert_ne in Hcs by done. by eapply Hb.
  - intros j y s Hji Hy Hys. destruct (decide (Z.to_nat x = Z.to_nat y)) as [E|Hne].
    + rewrite E, list_lookup_insert_eq in Hys by (rewrite <- E; unfold is_char in Hc; lia). injection Hys as <-. lia.
    + rewrite list_lookup_insert_ne in Hys by done. assert (j ≠ i) by (intros ->; congruence).
      apply (Hj j y s); [lia|done|done].
Qed.

Lemma skips_start n : skips n 0 (replicate 256 (Z.of_nat (length n) + 1)).
Proof.
  split; [done| |lia]. intros c s Hc. apply lookup_replicate in Hc as [-> _]. lia.
Qed.

(** A shift misses no occurrence. *)
Lemma skip_sound n h i d skip c s :
  skips n (length n) skip -> h !! (i + length n)%nat = Some c -> skip !! Z.to_nat c = Some s ->
  (0 < d)%nat -> Z.of_nat d < s -> ¬ occurs n h (i + d).
Proof.
  intros Hs Hc Hk Hd Hlt Ho. pose proof (sk_bounds _ _ _ Hs _ _ Hk) as Hb.
  destruct (lookup_lt_is_Some_2 n (length n - d)) as [x Hx]; [lia|].
  pose proof (occurs_lookup _ _ _ _ _ Ho Hx) as Hy. replace (i + d + (length n - d))%nat with (i + length n)%nat in Hy by lia.
  rewrite Hc in Hy. injection Hy as ->. pose proof (sk_last _ _ _ Hs (length n - d) x s) as Hl.
  specialize (Hl ltac:(lia) Hx Hk). lia.
Qed.

Definition first_occurrence (hp : Z) (n h : list Z) (from : nat) (o : option Z) : Prop :=
  match o with
  | Some p => exists i, p = hp + Z.of_nat i /\ occurs n h i /\ forall j, (from <= j < i)%nat -> ¬ occurs n h j
  | None => forall j, (from <= j)%nat -> ¬ occurs n h j
  end.

Lemma strstr_loop_spec m hp np h n skip f i :
  cstr m hp h -> cstr m np n -> n ≠ [] -> Z.of_nat (length h) < 2 ^ 31 - 1 -> skips n (length n) skip ->
  Z.of_nat (length h) - Z.of_nat (length n) - Z.of_nat i + 2 <= Z.of_nat f -> (1 <= f)%nat -> (i <= length h + 1)%nat ->
  exists o, strstr_loop f m hp np (Z.of_nat (length n)) (Z.of_nat (length h) - Z.of_nat (length n)) skip (Z.of_nat i) = Some o /\
    first_occurrence hp n h i o.
Proof.
  intros Hh Hn Hne Hlen Hs. revert i. induction f as [|f IH]; intros i Hf Hf1 Hi; [lia|]. cbn [strstr_loop].
  destruct (Z.ltb_spec (Z.of_nat (length h) - Z.of_nat (length n)) (Z.of_nat i)) as [Hlt|Hge].
  { exists None. split; [done|]. intros j Hj [?|?]%occurs_bound; [done|lia]. }
  assert (Hle : (i + length n <= length h)%nat) by lia.
  pose proof (cstr_drop _ _ _ i Hh ltac:(lia)) as Hw.
  destruct (match_loop_spec m (hp + Z.of_nat i) np 0 (drop i h) n) as (o & Eo & Ho & Hob);
    [by rewrite Z.add_0_r|by rewrite Z.add_0_r|rewrite length_drop; lia|].
  rewrite Nat2Z.id, Eo. cbn [mbind option_bind]. destruct (Z.eqb_spec o (Z.of_nat (length n))) as [E|E].
  { exists (Some (hp + Z.of_nat i)). split; [done|]. exists i. split; [done|]. split; [by apply Ho|lia]. }
  unfold get8. rewrite (cstr_lookup _ _ h) by (done || lia). cbn [mbind option_bind].
  replace (Z.to_nat (Z.of_nat i + Z.of_nat (length n))) with (i + length n)%nat by lia.
  set (c := default 0 (h !! (i + length n)%nat)).
  assert (Hc : 0 <= c < 256).
  { unfold c. destruct (h !! (i + length n)%nat) as [x|] eqn:Hx; cbn; [|lia].
    pose proof (Forall_lookup_1 _ _ _ _ (proj2 Hh) Hx) as Hx'. unfold is_char in Hx'. lia. }
  destruct (lookup_lt_is_Some_2 skip (Z.to_nat c)) as [s Hk]; [rewrite (sk_length _ _ _ Hs); lia|]. rewrite Hk.
  cbn [mbind option_bind]. pose proof (sk_bounds _ _ _ Hs _ _ Hk) as Hb. rewrite s32_small by (unfold is_s32; lia).
  replace (Z.of_nat i + s) with (Z.of_nat (i + Z.to_nat s)) by lia.
  destruct (IH (i + Z.to_nat s)%nat) as (r & Er & Hr); [lia| |lia|].
  { destruct f; [|lia]. exfalso. lia. }
  exists r. split; [done|].
  assert (Hskip : forall j, (i <= j < i + Z.to_nat s)%nat -> ¬ occurs n h j).
  { intros j Hj Hoc. destruct (decide (j = i)) as [->|Hji]; [apply E, Ho, Hoc|].
    destruct (h !! (i + length n)%nat) as [x|] eqn:Hx.
    - apply (skip_sound n h i (j - i) skip x s Hs Hx Hk); [lia|lia|]. by replace (i + (j - i))%nat with j by lia.
    - apply lookup_ge_None in Hx. apply occurs_bound in Hoc as [?|?]; [done|lia]. }
  destruct r as [p|]; cbn in *.
  - destruct Hr as (j & -> & Hj & Hmin). exists j. split; [done|]. split; [done|]. intros j' Hj'.
    destruct (decide (j' < i + Z.to_nat s)%nat); [apply Hskip; lia|apply Hmin; lia].
  - intros j Hj. destruct (decide (j < i + Z.to_nat s)%nat); [apply Hskip; lia|apply Hr; lia].
Qed.

Lemma strstr_spec m hp np h n :
  cstr m hp h -> cstr m np n -> Z.of_nat (length h) < 2 ^ 31 - 1 -> Z.of_nat (length n) < 2 ^ 31 - 1 ->
  exists o, strstr m hp np = Some o /\ first_occurrence hp n h 0 o.
Proof.
  intros Hh Hn Hlen Hlen'. unfold strstr. rewrite (strlen_spec _ _ _ Hn), (strlen_spec _ _ _ Hh). cbn [mbind option_bind].
  rewrite s32_small by (unfold is_s32; lia). destruct n as [|x n'] eqn:En.
  { exists (Some hp). split; [done|]. exists 0%nat. split; [by rewrite Z.add_0_r|]. split; [done|lia]. }
  rewrite <- En in *. assert (Hl : (length n > 0)%nat) by (rewrite En; cbn; lia).
  rewrite (proj2 (Z.eqb_neq _ _)) by lia. rewrite Nat2Z.id.
  destruct (skip_loop_spec m np n (length n) 0 _ Hn ltac:(lia) (skips_start n)) as (skip & Es & Hs).
  change (Z.of_nat 0) with 0 in Es. change (Z.to_nat (UCHAR_MAX + 1)) with 256%nat. rewrite Es. cbn [mbind option_bind].
  pose proof (cstr_turns _ _ _ Hh). apply (strstr_loop_spec m hp np h n skip (turns m) 0); try done; [by rewrite En|lia|lia|lia].
Qed.

(** ** Tokens *)

(** The maximal runs of characters that are not in [t]. *)
Fixpoint tokens_from (t cur s : list Z) : list (list Z) :=
  match s with
  | [] => match cur with [] => [] | _ => [cur] end
  | c :: s =>
      if member t c then match cur with [] => tokens_from t [] s | _ => cur :: tokens_from t [] s end
      else tokens_from t (cur ++ [c]) s
  end.

Definition tokens (t s : list Z) : list (list Z) := tokens_from t [] s.

Lemma tokens_from_run t cur tok rest :
  Forall (λ c, member t c = false) tok -> tokens_from t cur (tok ++ rest) = tokens_from t (cur ++ tok) rest.
Proof.
  intros Ht. revert cur. induction Ht as [|c tok Hc _ IH]; intros cur; cbn; [by rewrite app_nil_r|].
  rewrite Hc, IH. by rewrite <- app_assoc.
Qed.

Lemma tokens_skip t pre s : Forall (λ c, member t c = true) pre -> tokens t (pre ++ s) = tokens t s.
Proof. induction 1 as [|c pre Hc _ IH]; [done|]. unfold tokens in *. cbn. by rewrite Hc. Qed.

(** A prefix of separators, a token, and what is behind it. *)
Lemma split_run (P : Z -> bool) s :
  exists pre rest, s = pre ++ rest /\ Forall (λ c, P c = true) pre /\ length pre = prefix_len P s /\
    (rest = [] \/ exists c r, rest = c :: r /\ P c = false).
Proof.
  induction s as [|c s (pre & rest & -> & Hp & Hl & Hr)]; [exists [], []; split_and!; [done..|by left]|].
  cbn [prefix_len]. destruct (P c) eqn:Hc.
  - exists (c :: pre), rest. cbn. rewrite Hl. split_and!; [done|by constructor|done|done].
  - exists [], (c :: pre ++ rest). split_and!; [done..|]. right. by eexists _, _.
Qed.

Section Tokens.
Context (sep : Z) (t : list Z).

Lemma strtok_r_step m so st p s :
  default st so = p -> cstr m p s -> cstr m sep t ->
  exists pre tok rest, s = pre ++ tok ++ rest /\
    match tok, rest with
    | [], _ => strtok_r m so sep st = Some (None, p + Z.of_nat (length pre), m) /\ tokens t s = []
    | _, [] => strtok_r m so sep st = Some (Some (p + Z.of_nat (length pre)), p + Z.of_nat (length pre + length tok), m) /\
        tokens t s = [tok]
    | _, _ :: r => strtok_r m so sep st =
          Some (Some (p + Z.of_nat (length pre)), p + Z.of_nat (length pre + length tok) + 1,
            <[p + Z.of_nat (length pre + length tok) := 0]> m) /\
        tokens t s = tok :: tokens t r
    end.
Proof.
  intros Hso Hs Ht. destruct (split_run (member t) s) as (pre & s1 & Es & Hpre & Hpl & Hs1).
  destruct (split_run (negb ∘ member t) s1) as (tok & rest & Es1 & Htok & Htl & Hrest).
  exists pre, tok, rest. rewrite <- Es1. split; [done|].
  assert (Hcs1 : cstr m (p + Z.of_nat (length pre)) s1).
  { pose proof (cstr_drop _ _ _ (length pre) Hs) as Hd. rewrite Es, length_app, drop_app_length in Hd. apply Hd. lia. }
  assert (Hneg : Forall (λ c, member t c = false) tok).
  { eapply Forall_impl; [exact Htok|]. intros c. unfold compose. by destruct (member t c). }
  assert (Etok : tokens t s = tokens_from t tok rest) by (by rewrite Es, tokens_skip, Es1; unfold tokens; [rewrite tokens_from_run|]).
  assert (E : strtok_r m so sep st =
    if (length tok <? length s1)%nat then m' ← put8 m (p + Z.of_nat (length pre) + Z.of_nat (length tok)) 0;
      Some (Some (p + Z.of_nat (length pre)), p + Z.of_nat (length pre) + Z.of_nat (length tok) + 1, m')
    else if p + Z.of_nat (length pre) + Z.of_nat (length tok) =? p + Z.of_nat (length pre)
      then Some (None, p + Z.of_nat (length pre), m)
      else Some (Some (p + Z.of_nat (length pre)), p + Z.of_nat (length pre) + Z.of_nat (length tok), m)).
  { unfold strtok_r, skip_separators. rewrite Hso, (span_loop_spec _ _ _ s _ t) by (done || by eapply cstr_turns).
    rewrite (prefix_len_ext _ (member t)), <- Hpl by done. cbn [mbind option_bind].
    rewrite (span_loop_spec _ _ _ s1 _ t) by (done || by eapply cstr_turns).
    rewrite (prefix_len_ext _ (negb ∘ member t)), <- Htl by done. done. }
  rewrite E, Etok. clear E Etok. rewrite Nat2Z.inj_add, Z.add_assoc. rewrite Es1, length_app. destruct tok as [|c tok].
  - destruct Hrest as [->|(c & r & -> & Hc)]; [cbn; by rewrite Z.add_0_r, Z.eqb_refl|]. exfalso.
    destruct Hs1 as [E|(c' & r' & E & Hc')]; rewrite E in Es1; [done|]. injection Es1 as -> ->. unfold compose in Hc. by rewrite Hc' in Hc.
  - destruct rest as [|d r].
    + rewrite app_nil_r in *. cbn [length]. rewrite (proj2 (Nat.ltb_ge _ _)), (proj2 (Z.eqb_neq _ _)) by lia. done.
    + rewrite (proj2 (Nat.ltb_lt _ _)) by (cbn; lia). rewrite (put8_ok _ _ 0); [split; [done|]| |unfold is_byte; lia].
      * destruct Hrest as [?|(? & ? & [= <- <-] & Hd)]; [done|]. unfold compose in Hd. cbn [tokens_from].
        apply negb_false_iff in Hd. by rewrite Hd.
      * rewrite (cstr_lookup _ _ s1) by (done || rewrite Es1, length_app; cbn; lia). by eexists.
Qed.

(** A client that takes token after token. *)
Fixpoint strtok_all (f : nat) (m : cmem) (s : option Z) (state : Z) : option (list Z * cmem) :=
  match f with
  | O => None
  | S f =>
      '(r, state, m) ← strtok_r m s sep state;
      match r with
      | None => Some ([], m)
      | Some q => '(l, m) ← strtok_all f m None state; Some (q :: l, m)
      end
  end.

Lemma strtok_all_spec f : forall m so st p s,
  default st so = p -> cstr m p s -> cstr m sep t -> apart p (Z.of_nat (length s) + 1) sep (Z.of_nat (length t) + 1) ->
  (length s < f)%nat ->
  exists ps m', strtok_all f m so st = Some (ps, m') /\ Forall2 (cstr m') ps (tokens t s) /\
    forall a, a < p \/ p + Z.of_nat (length s) <= a -> m' !! a = m !! a.
Proof.
  induction f as [|f IH]; intros m so st p s Hso Hs Ht Ha Hf; [lia|].
  destruct (strtok_r_step m so st p s Hso Hs Ht) as (pre & tok & rest & Es & Hstep). cbn [strtok_all].
  assert (Hlen : length s = (length pre + (length tok + length rest))%nat) by (by rewrite Es, !length_app).
  destruct tok as [|c tok]; [|destruct rest as [|d r]]; destruct Hstep as [-> ->]; cbn [mbind option_bind].
  - exists [], m. by split_and!.
  - assert (Hq : cstr m (p + Z.of_nat (length pre)) (c :: tok)).
    { pose proof (cstr_drop _ _ _ (length pre) Hs) as Hd. rewrite Es, app_nil_r, drop_app_length in Hd. apply Hd.
      rewrite length_app. lia. }
    destruct (IH m None (p + Z.of_nat (length pre + length (c :: tok))) (p + Z.of_nat (length pre + length (c :: tok))) [] eq_refl) as (ps & m' & E & H2 & Hfr).
    { pose proof (cstr_drop _ _ _ (length s) Hs ltac:(done)) as Hd. rewrite drop_all in Hd.
      by replace (p + Z.of_nat (length pre + length (c :: tok))) with (p + Z.of_nat (length s)) by (rewrite Hlen; cbn; lia). }
    { done. } { unfold apart in *. cbn [length] in *. lia. } { cbn in *. lia. }
    rewrite E. cbn [mbind option_bind]. cbn in H2. apply Forall2_nil_inv_r in H2 as ->.
    eexists _, _. split; [done|]. split.
    + constructor; [|done]. destruct Hq as [Hb Hc]. split; [|done]. rewrite bytes_at_lookup in *. intros i x Hx.
      rewrite Hfr; [by apply Hb|]. cbn [length]. lia.
    + intros a Hout. apply Hfr. cbn [length]. lia.
  - set (q := p + Z.of_nat (length pre + length (c :: tok))) in *.
    assert (Hbs : bytes_at m p (pre ++ (c :: tok) ++ d :: r ++ [0])) by (destruct Hs as [Hb _]; by rewrite Es, <- !app_assoc in Hb).
    assert (Hcs : Forall is_char (pre ++ (c :: tok) ++ d :: r)) by (destruct Hs as [_ Hc]; by rewrite Es in Hc).
    apply Forall_app in Hcs as [_ [Hct [Hcd Hcr]%Forall_cons]%Forall_app].
    apply bytes_at_app in Hbs as [_ [Hbt [Hbd Hbr]]%bytes_at_app].
    assert (Eq : p + Z.of_nat (length pre) + Z.of_nat (length (c :: tok)) = q) by (unfold q; lia). rewrite Eq in Hbd, Hbr.
    assert (Hlr : Z.of_nat (length r) + 1 + q = p + Z.of_nat (length s)) by (unfold q; rewrite Hlen; cbn [length]; lia).
    destruct (IH (<[q := 0]> m) None (q + 1) (q + 1) r eq_refl) as (ps & m' & E & H2 & Hfr).
    { split; [|done]. apply bytes_at_insert_out; [done|lia]. }
    { destruct Ht as [Htb Htc]. split; [|done]. apply bytes_at_insert_out; [done|]. rewrite length_app. cbn [length].
      unfold apart in Ha. lia. }
    { unfold apart in *. lia. }
    { lia. }
    rewrite E. cbn [mbind option_bind]. eexists _, _. split; [done|]. split.
    + constructor; [|done]. split; [|done]. apply bytes_at_app. rewrite Eq. split.
      * rewrite bytes_at_lookup in *. intros i x Hx. pose proof (lookup_lt_Some _ _ _ Hx).
        rewrite Hfr, lookup_insert_ne by lia. by apply Hbt.
      * split; [|done]. rewrite Hfr by lia. apply lookup_insert_eq.
    + intros a Hout. rewrite Hfr, lookup_insert_ne by lia. done.
Qed.

End Tokens.

Lemma memccpy_spec m w r l c :
  bytes_at m r l -> Forall is_byte l -> room m w (Z.of_nat (length l)) -> forward_ok w r (length l) ->
  memccpy m w r c (Z.of_nat (length l)) = Some (
    match index_of (c mod 256) l with
    | Some i => (Some (w + Z.of_nat i + 1), put m w (take (S i) l))
    | None => (None, put m w l)
    end).
Proof.
  unfold memccpy. rewrite Nat2Z.id, land_ff. generalize (c mod 256) as ch. intros ch Hl Hb.
  revert m w r Hl. induction Hb as [|x l Hx _ IH]; intros m w r Hl Hr Hf; [done|].
  destruct Hl as [Hx' Hl]. cbn [length memccpy_loop index_of]. unfold get8. rewrite Hx'. cbn [mbind option_bind].
  unfold forward_ok in Hf. cbn [length] in Hr, Hf.
  rewrite (put8_room _ _ _ _ _ Hr) by (done || lia). cbn [mbind option_bind].
  assert (u8 x = x) as -> by (unfold u8; by apply Z.mod_small). destruct (x =? ch); [cbn; by rewrite Z.add_0_r|]. rewrite IH.
  - destruct (index_of ch l) as [i|]; cbn; [|done]. do 3 f_equal. lia.
  - apply bytes_at_insert_out; [done|]. lia.
  - apply (room_put _ w [x]). apply (room_sub _ _ _ _ _ Hr); lia.
  - unfold forward_ok. lia.
Qed.

(** ** The claims *)

(** [strstr] is a correct search.  On any two strings it is defined, reads
    nothing outside of them, and returns the first place where the needle is in
    the haystack, and [NULL] exactly when there is none: the shifts of the
    quick search never step over an occurrence and always end. *)
Theorem strstr_first m haystack needle h n :
  cstr m haystack h -> cstr m needle n -> Z.of_nat (length h) < 2 ^ 31 - 1 -> Z.of_nat (length n) < 2 ^ 31 - 1 ->
  exists o, strstr m haystack needle = Some o /\ first_occurrence haystack n h 0 o.
Proof. apply strstr_spec. Qed.

(** [strtok_r] splits a string.  Called until it returns [NULL] it returns,
    in order, pointers to exactly the maximal runs of characters that are no
    separators, each ended by a zero byte, and changes nothing but the string
    itself. *)
Theorem strtok_splits m p s sep t :
  cstr m p s -> cstr m sep t -> apart p (Z.of_nat (length s) + 1) sep (Z.of_nat (length t) + 1) ->
  exists ps m', strtok_all sep (S (length s)) m (Some p) 0 = Some (ps, m') /\ Forall2 (cstr m') ps (tokens t s) /\
    forall a, a < p \/ p + Z.of_nat (length s) <= a -> m' !! a = m !! a.
Proof. intros Hs Ht Ha. apply (strtok_all_spec sep t (S (length s)) m (Some p) 0 p s); [done..|lia]. Qed.

(** The copies write what they say and nothing else: [memmove] the bytes of
    the source as they were, also when source and destination overlap;
    [strcpy] the string with its end; [strncpy] exactly [n] bytes, the string
    cut or filled up with zeros; [strcmp] is zero on equal strings only and
    changes its sign when its arguments are exchanged. *)
Theorem string_copies m d p l s s' n :
  bytes_at m p l -> Forall is_byte l -> room m d (Z.of_nat (length l)) -> l = s ++ 0 :: s' -> Forall is_char s ->
  memmove m d p (Z.of_nat (length l)) = Some (d, put m d l) /\
  (forward_ok d p (length l) ->
     strcpy m d p = Some (d, put m d (s ++ [0])) /\
     ((n <= length l)%nat -> strncpy m d p (Z.of_nat n) = Some (d, put m d (take n s ++ replicate (n - length s) 0)))) /\
  (forall q t, cstr m q t -> exists c, strcmp m p q = Some c /\ strcmp m q p = Some (- c) /\ (c = 0 <-> s = t)).
Proof.
  intros Hl Hb Hr -> Hs.
  assert (Hcs : cstr m p s).
  { split; [|done]. replace (s ++ 0 :: s') with ((s ++ [0]) ++ s') in Hl by (by rewrite <- app_assoc).
    by apply bytes_at_app in Hl as [? _]. }
  split; [by apply memmove_spec|]. rewrite length_app in *. cbn [length] in *. split.
  - intros Hf. unfold forward_ok in Hf. split.
    + apply strcpy_spec; [done|apply (room_sub _ _ _ _ _ Hr); lia|unfold forward_ok; lia].
    + intros Hn. apply strncpy_spec; [done|apply (room_sub _ _ _ _ _ Hr); lia|unfold forward_ok; lia].
  - intros q t Ht. exists (first_diff s t). rewrite (strcmp_spec _ _ _ _ _ Hcs Ht), (strcmp_spec _ _ _ _ _ Ht Hcs), (first_diff_opp s t).
    split; [done|]. split; [done|]. apply first_diff_eq; [done|apply Ht].
Qed.

(** "to be or not to be", "not" and a blank, in memory. *)
Definition demo_text : list Z := [116; 111; 32; 98; 101; 32; 111; 114; 32; 110; 111; 116; 32; 116; 111; 32; 98; 101].
Definition demo_word : list Z := [110; 111; 116].
Definition demo_strings : cmem := put (put (put ∅ 100 (demo_text ++ [0])) 200 (demo_word ++ [0])) 300 ([32] ++ [0]).

Lemma demo_chars : Forall is_char demo_text /\ Forall is_char demo_word /\ Forall is_char [32].
Proof. unfold demo_text, demo_word, is_char. split_and!; repeat constructor; lia. Qed.

Lemma demo_strings_ok : cstr demo_strings 100 demo_text /\ cstr demo_strings 200 demo_word /\ cstr demo_strings 300 [32].
Proof.
  destruct demo_chars as (H1 & H2 & H3). unfold demo_strings. split_and!.
  - apply cstr_put_out; [|cbn; lia]. apply cstr_put_out; [|cbn; lia]. by apply cstr_put.
  - apply cstr_put_out; [|cbn; lia]. by apply cstr_put.
  - by apply cstr_put.
Qed.

Lemma strstr_first_witness : exists o, strstr demo_strings 100 200 = Some o /\ o = Some 109.
Proof.
  destruct demo_strings_ok as (H1 & H2 & _).
  destruct (strstr_first demo_strings 100 200 demo_text demo_word H1 H2) as (o & E & _); [cbn; lia..|].
  exists o. split; [exact E|]. vm_compute in E. injection E as <-. reflexivity.
Defined.

Lemma strtok_splits_witness :
  exists ps m', strtok_all 300 19 demo_strings (Some 100) 0 = Some (ps, m') /\
    Forall2 (cstr m') ps [[116; 111]; [98; 101]; [111; 114]; [110; 111; 116]; [116; 111]; [98; 101]].
Proof.
  destruct demo_strings_ok as (H1 & _ & H3).
  destruct (strtok_splits demo_strings 100 demo_text 300 [32] H1 H3) as (ps & m' & E & H & _); [left; cbn; lia|].
  exists ps, m'. split; [exact E|exact H].
Defined.

Lemma string_copies_witness :
  memmove demo_strings 102 100 12 = Some (102, put demo_strings 102 (take 12 demo_text)) /\
  exists c, strcmp demo_strings 200 100 = Some c /\ c ≠ 0.
Proof.
  split; [vm_compute; reflexivity|]. destruct demo_strings_ok as (H1 & H2 & _).
  destruct (string_copies demo_strings 110 200 (demo_word ++ [0]) demo_word [] 4) as (_ & _ & Hc).
  - exact (proj1 H2).
  - apply chars_bytes, H2.
  - intros a Ha. cbn in Ha. apply (room_bytes _ _ _ (proj1 H1)). cbn. lia.
  - reflexivity.
  - apply H2.
  - destruct (Hc 100 demo_text H1) as (c & E & _ & H0). exists c. split; [exact E|]. intros Hz. apply H0 in Hz. discriminate Hz.
Defined.
