(* ===== verification/CType.v ===== *)
(** * Classes of characters (lib/libnc/ctype)

    The table that classifies [EOF] and the 256 characters, and the functions
    that read it: each answers for exactly the characters that ASCII puts in its
    class. *)

From S2P Require Import Prelude.

Definition C_N : Z := 0x00.
Definition C_U : Z := 0x01.
Definition C_L : Z := 0x02.
Definition C_X : Z := 0x04.
Definition C_D : Z := 0x08.
Definition C_P : Z := 0x10.
Definition C_C : Z := 0x20.
Definition C_S : Z := 0x40.
Definition C_W : Z := 0x80.

Definition tbl : list Z := [
  (* EOF *) C_N;
  (* 0x00 *) C_C; C_C; C_C; C_C; C_C; C_C; C_C; C_C;
    C_C; Z.lor C_C C_S; Z.lor C_C C_S; Z.lor C_C C_S; Z.lor C_C C_S; Z.lor C_C C_S; C_C; C_C;
  (* 0x10 *) C_C; C_C; C_C; C_C; C_C; C_C; C_C; C_C;
    C_C; C_C; C_C; C_C; C_C; C_C; C_C; C_C;
  (* 0x20 *) Z.lor C_W C_S; C_P; C_P; C_P; C_P; C_P; C_P; C_P;
    C_P; C_P; C_P; C_P; C_P; C_P; C_P; C_P;
  (* 0x30 *) C_D; C_D; C_D; C_D; C_D; C_D; C_D; C_D;
    C_D; C_D; C_P; C_P; C_P; C_P; C_P; C_P;
  (* 0x40 *) C_P; Z.lor C_U C_X; Z.lor C_U C_X; Z.lor C_U C_X; Z.lor C_U C_X; Z.lor C_U C_X; Z.lor C_U C_X; C_U;
    C_U; C_U; C_U; C_U; C_U; C_U; C_U; C_U;
  (* 0x50 *) C_U; C_U; C_U; C_U; C_U; C_U; C_U; C_U;
    C_U; C_U; C_U; C_P; C_P; C_P; C_P; C_P;
  (* 0x60 *) C_P; Z.lor C_L C_X; Z.lor C_L C_X; Z.lor C_L C_X; Z.lor C_L C_X; Z.lor C_L C_X; Z.lor C_L C_X; C_L;
    C_L; C_L; C_L; C_L; C_L; C_L; C_L; C_L;
  (* 0x70 *) C_L; C_L; C_L; C_L; C_L; C_L; C_L; C_L;
    C_L; C_L; C_L; C_P; C_P; C_P; C_P; C_C;
  (* 0x80 *) C_N; C_N; C_N; C_N; C_N; C_N; C_N; C_N;
    C_N; C_N; C_N; C_N; C_N; C_N; C_N; C_N;
  (* 0x90 *) C_N; C_N; C_N; C_N; C_N; C_N; C_N; C_N;
    C_N; C_N; C_N; C_N; C_N; C_N; C_N; C_N;
  (* 0xa0 *) C_N; C_N; C_N; C_N; C_N; C_N; C_N; C_N;
    C_N; C_N; C_N; C_N; C_N; C_N; C_N; C_N;
  (* 0xb0 *) C_N; C_N; C_N; C_N; C_N; C_N; C_N; C_N;
    C_N; C_N; C_N; C_N; C_N; C_N; C_N; C_N;
  (* 0xc0 *) C_N; C_N; C_N; C_N; C_N; C_N; C_N; C_N;
    C_N; C_N; C_N; C_N; C_N; C_N; C_N; C_N;
  (* 0xd0 *) C_N; C_N; C_N; C_N; C_N; C_N; C_N; C_N;
    C_N; C_N; C_N; C_N; C_N; C_N; C_N; C_N;
  (* 0xe0 *) C_N; C_N; C_N; C_N; C_N; C_N; C_N; C_N;
    C_N; C_N; C_N; C_N; C_N; C_N; C_N; C_N;
  (* 0xf0 *) C_N; C_N; C_N; C_N; C_N; C_N; C_N; C_N;
    C_N; C_N; C_N; C_N; C_N; C_N; C_N; C_N].

(** [tbl[c + 1] & mask]; an index out of the table is undefined. *)
Definition class_of (c mask : Z) : option Z :=
  if c + 1 <? 0 then None else b ← tbl !! Z.to_nat (c + 1); Some (Z.land b mask).

Definition isalnum (c : Z) : option Z := class_of c (Z.lor (Z.lor C_U C_L) C_D).
Definition isalpha (c : Z) : option Z := class_of c (Z.lor C_U C_L).
Definition iscntrl (c : Z) : option Z := class_of c C_C.
Definition isdigit (c : Z) : option Z := class_of c C_D.
Definition isgraph (c : Z) : option Z := class_of c (Z.lor (Z.lor (Z.lor C_U C_L) C_D) C_P).
Definition islower (c : Z) : option Z := class_of c C_L.
Definition isprint (c : Z) : option Z := class_of c (Z.lor (Z.lor (Z.lor (Z.lor C_U C_L) C_D) C_P) C_W).
Definition ispunct (c : Z) : option Z := class_of c C_P.
Definition isspace (c : Z) : option Z := class_of c (Z.lor C_S C_W).
Definition isupper (c : Z) : option Z := class_of c C_U.
Definition isxdigit (c : Z) : option Z := class_of c (Z.lor C_D C_X).

Definition tolower (c : Z) : option Z := u ← isupper c; Some (if negb (u =? 0) then c + (97 - 65) else c).
Definition toupper (c : Z) : option Z := u ← islower c; Some (if negb (u =? 0) then c - (97 - 65) else c).

(** ** The classes of ASCII *)

Definition between (a b c : Z) : bool := (a <=? c) && (c <=? b).
Definition upper (c : Z) : bool := between 65 90 c.
Definition lower (c : Z) : bool := between 97 122 c.
Definition digit (c : Z) : bool := between 48 57 c.
Definition hex (c : Z) : bool := digit c || between 65 70 c || between 97 102 c.
Definition space (c : Z) : bool := between 9 13 c || (c =? 32).
Definition control (c : Z) : bool := between 0 31 c || (c =? 127).
Definition graphic (c : Z) : bool := between 33 126 c.
Definition alnum (c : Z) : bool := upper c || lower c || digit c.

(** A test agrees with a class. *)
Definition agrees (f : Z -> option Z) (P : Z -> bool) (c : Z) : bool :=
  match f c with Some v => eqb (negb (v =? 0)) (P c) | None => false end.

Definition class_ok (c : Z) : bool :=
  agrees isalnum alnum c && agrees isalpha (λ c, upper c || lower c) c && agrees iscntrl control c &&
  agrees isdigit digit c && agrees isgraph graphic c && agrees islower lower c &&
  agrees isprint (λ c, graphic c || (c =? 32)) c && agrees ispunct (λ c, graphic c && negb (alnum c)) c &&
  agrees isspace space c && agrees isupper upper c && agrees isxdigit hex c &&
  bool_decide (tolower c = Some (if upper c then c + 32 else c)) &&
  bool_decide (toupper c = Some (if lower c then c - 32 else c)).

Lemma classes : forallb class_ok (seqZ (-1) 257) = true.
Proof. vm_compute. reflexivity. Qed.

Lemma class_at c : -1 <= c < 256 -> class_ok c = true.
Proof. intros Hc. eapply (proj1 (forallb_forall _ _) classes). apply list_elem_of_In, elem_of_seqZ. lia. Qed.

(** A class read off the table. *)
Lemma agrees_spec f P c : agrees f P c = true -> exists v, f c = Some v /\ (negb (v =? 0)) = P c.
Proof. unfold agrees. destruct (f c) as [v|]; [|done]. intros E%eqb_prop. by exists v. Qed.
