(* ===== verification/CNumber.v ===== *)
(** * Numbers from strings (lib/libc/stdlib: strtol, strtoul, atoi, atol)

    The parsers of numbers, against the number that the digits write: what they
    return, where they stop, and what they report when the number does not fit
    into 32 bits. *)

From S2P Require Import Prelude CMem CType.

Definition EINVAL : Z := 28.
Definition ERANGE : Z := 70.
Definition LONG_MAX : Z := 2 ^ 31 - 1.
Definition LONG_MIN : Z := - 2 ^ 31.
Definition ULONG_MAX : Z := 2 ^ 32 - 1.
Definition BASE_MIN : Z := 2.
Definition BASE_MAX : Z := 36.
Definition BASE_OCT : Z := 8.
Definition BASE_DEC : Z := 10.
Definition BASE_HEX : Z := 16.

(** ** The code *)

Definition get_num (chr base : Z) : option Z :=
  if (48 <=? chr) && (chr <=? 57) then Some (if base <=? chr - 48 then -1 else chr - 48)
  else
    c ← toupper chr;
    if (65 <=? c) && (c <=? 90) then Some (if base <=? c - 65 + 10 then -1 else c - 65 + 10)
    else Some (-1).

(** [is_hex(r) && (get_num(r[2], BASE_HEX) >= 0)] *)
Definition hex_prefix (m : cmem) (r : Z) : option bool :=
  a ← get8 m r;
  if negb (a =? 48) then Some false
  else
    b ← get8 m (r + 1);
    u ← toupper b;
    if negb (u =? 88) then Some false
    else c ← get8 m (r + 2); n ← get_num c BASE_HEX; Some (0 <=? n).

Fixpoint skip_spaces (f : nat) (m : cmem) (r : Z) : option Z :=
  match f with
  | O => None
  | S f => b ← get8 m r; v ← isspace b; if negb (v =? 0) then skip_spaces f m (r + 1) else Some r
  end.

(** The sign: whether it is a minus, and where the digits start. *)
Definition get_sign (m : cmem) (r : Z) : option (bool * Z) :=
  b ← get8 m r;
  Some (if b =? 45 then (true, r + 1) else if b =? 43 then (false, r + 1) else (false, r)).

(** The base and the start of the digits; [None] for a base out of range. *)
Definition get_base (m : cmem) (r base : Z) : option (option (Z * Z)) :=
  if negb (base =? 0) then
    if (base <? BASE_MIN) || (BASE_MAX <? base) then Some None
    else if base =? BASE_HEX then x ← hex_prefix m r; Some (Some (base, if (x : bool) then r + 2 else r))
    else Some (Some (base, r))
  else
    a ← get8 m r;
    if a =? 48 then x ← hex_prefix m r; Some (Some (if (x : bool) then (BASE_HEX, r + 2) else (BASE_OCT, r)))
    else Some (Some (BASE_DEC, r)).

Fixpoint strtoul_loop (f : nat) (m : cmem) (r base v : Z) (err : option Z) : option (Z * Z * option Z) :=
  match f with
  | O => None
  | S f =>
      b ← get8 m r; n ← get_num b base;
      if n <? 0 then Some (v, r, err)
      else
        let y := v * base in
        if (2 ^ 32 <=? y) || (ULONG_MAX - y <? n) then strtoul_loop f m (r + 1) base ULONG_MAX (Some ERANGE)
        else strtoul_loop f m (r + 1) base (y + n) err
  end.

(** The value, the end of the number, and the error that is set. *)
Definition strtoul (m : cmem) (str base : Z) : option (Z * Z * option Z) :=
  r ← skip_spaces (turns m) m str;
  '(minus, r) ← get_sign m r;
  o ← get_base m r base;
  match o with
  | None => Some (0, str, Some EINVAL)
  | Some (base, r) =>
      b ← get8 m r; n ← get_num b base;
      if n <? 0 then Some (0, str, None)
      else
        '(v, r, err) ← strtoul_loop (turns m) m r base 0 None;
        Some (u32 (if (minus : bool) then - v else v), r, err)
  end.

Fixpoint strtol_loop (f : nat) (m : cmem) (r base max v : Z) (err : option Z) : option (Z * Z * option Z) :=
  match f with
  | O => None
  | S f =>
      b ← get8 m r; n ← get_num b base;
      if n <? 0 then Some (v, r, err)
      else
        let y := v * base in
        if (2 ^ 32 <=? y) || (max <? y) || (max - y <? n) then strtol_loop f m (r + 1) base max max (Some ERANGE)
        else strtol_loop f m (r + 1) base max (y + n) err
  end.

Definition strtol (m : cmem) (str base : Z) : option (Z * Z * option Z) :=
  r ← skip_spaces (turns m) m str;
  '(minus, r) ← get_sign m r;
  o ← get_base m r base;
  match o with
  | None => Some (0, str, Some EINVAL)
  | Some (base, r) =>
      b ← get8 m r; n ← get_num b base;
      if n <? 0 then Some (0, str, None)
      else
        let max := u32 (if (minus : bool) then LONG_MIN else LONG_MAX) in
        '(v, r, err) ← strtol_loop (turns m) m r base max 0 None;
        Some (s32 (if (minus : bool) then - v else v), r, err)
  end.

Fixpoint atoi_loop (f : nat) (m : cmem) (r v : Z) : option Z :=
  match f with
  | O => None
  | S f =>
      b ← get8 m r; d ← isdigit b;
      if negb (d =? 0) then atoi_loop f m (r + 1) (u32 (u32 (v * 10) + (b - 48))) else Some v
  end.

Definition atoi (m : cmem) (p : Z) : option Z :=
  r ← skip_spaces (turns m) m p;
  '(minus, r) ← get_sign m r;
  v ← atoi_loop (turns m) m r 0;
  Some (s32 (if (minus : bool) then - v else v)).

(** [atol] is the same code on [long], as wide as [int]. *)
Definition atol (m : cmem) (p : Z) : option Z :=
  r ← skip_spaces (turns m) m p;
  '(minus, r) ← get_sign m r;
  v ← atoi_loop (turns m) m r 0;
  Some (s32 (if (minus : bool) then - v else v)).

(** ** What a string says *)

(** The value of a character as a digit. *)
Definition digit_of (c : Z) : Z :=
  if digit c then c - 48 else if upper c then c - 55 else if lower c then c - 87 else 36.

Definition is_digit (base c : Z) : bool := digit_of c <? base.

(** "0x" and a digit behind it. *)
Definition hex_lead (l : list Z) : bool :=
  match l with
  | a :: x :: d :: _ => (a =? 48) && ((x =? 88) || (x =? 120)) && is_digit 16 d
  | _ => false
  end.

Definition radix (base : Z) (l : list Z) : Z :=
  if base =? 0 then if hex_lead l then 16 else if bool_decide (head l = Some 48) then 8 else 10 else base.

Definition body (base : Z) (l : list Z) : list Z :=
  if ((base =? 0) || (base =? 16)) && hex_lead l then drop 2 l else l.

(** The longest prefix of digits. *)
Fixpoint digits (base : Z) (l : list Z) : list Z :=
  match l with c :: l => if is_digit base c then c :: digits base l else [] | [] => [] end.

(** The number that digits write, after [v]. *)
Fixpoint number (base v : Z) (ds : list Z) : Z :=
  match ds with [] => v | c :: ds => number base (v * base + digit_of c) ds end.

(** The optional sign. *)
Definition is_sign (sg : list Z) : Prop := sg = [] \/ sg = [43] \/ sg = [45].
Definition negative (sg : list Z) : bool := bool_decide (sg = [45]).

(** ** The code reads what the string says *)

Lemma byte_class c : is_byte c -> class_ok c = true.
Proof. intros Hc. apply class_at. unfold is_byte in Hc. lia. Qed.

Lemma isspace_spec c : is_byte c -> exists v, isspace c = Some v /\ negb (v =? 0) = space c.
Proof.
  intros Hc%byte_class. apply agrees_spec. unfold class_ok in Hc. by repeat apply andb_prop in Hc as [Hc ?].
Qed.

Lemma isdigit_spec c : is_byte c -> exists v, isdigit c = Some v /\ negb (v =? 0) = digit c.
Proof.
  intros Hc%byte_class. apply agrees_spec. unfold class_ok in Hc. by repeat apply andb_prop in Hc as [Hc ?].
Qed.

Lemma toupper_spec c : is_byte c -> toupper c = Some (if lower c then c - 32 else c).
Proof.
  intros Hc%byte_class. unfold class_ok in Hc. apply andb_prop in Hc as [_ H]. by apply bool_decide_eq_true in H.
Qed.

Lemma get_num_table :
  forallb (λ c, forallb (λ base, bool_decide (get_num c base = Some (if is_digit base c then digit_of c else -1)))
    (seqZ 2 35)) (seqZ 0 256) = true.
Proof. vm_compute. reflexivity. Qed.

Lemma get_num_spec c base :
  is_byte c -> 2 <= base <= 36 -> get_num c base = Some (if is_digit base c then digit_of c else -1).
Proof.
  intros Hc Hb. pose proof (proj1 (forallb_forall _ _) get_num_table c) as H. cbv beta in H.
  rewrite <- list_elem_of_In, elem_of_seqZ in H. unfold is_byte in Hc. specialize (H ltac:(lia)).
  pose proof (proj1 (forallb_forall _ _) H base) as H'. cbv beta in H'. rewrite <- list_elem_of_In, elem_of_seqZ in H'.
  specialize (H' ltac:(lia)). by apply bool_decide_eq_true in H'.
Qed.

Lemma digit_of_range base c : is_digit base c = true -> base <= 36 -> 0 <= digit_of c < base.
Proof.
  unfold is_digit. intros H%Z.ltb_lt Hb. split; [|done]. unfold digit_of, digit, upper, lower, between in *.
  repeat match goal with |- context [?x <=? ?y] => destruct (Z.leb_spec x y); cbn [andb] in *; try lia end.
Qed.

Lemma space_zero : space 0 = false.
Proof. done. Qed.

Lemma is_digit_zero base : base <= 36 -> is_digit base 0 = false.
Proof. intros Hb. apply Z.ltb_ge. done. Qed.

(** The byte at the start of a string. *)
Lemma cstr_first m r s : cstr m r s -> m !! r = Some (default 0 (head s)) /\ is_byte (default 0 (head s)).
Proof.
  destruct s as [|x s].
  - intros H%cstr_nil. split; [done|]. cbn. unfold is_byte. lia.
  - intros (Hx & Hc & _)%cstr_cons. split; [done|]. by apply char_byte.
Qed.

Lemma skip_spaces_spec f m r ws l :
  cstr m r (ws ++ l) -> Forall (λ c, space c = true) ws -> space (default 0 (head l)) = false -> (length ws < f)%nat ->
  skip_spaces f m r = Some (r + Z.of_nat (length ws)).
Proof.
  intros Hs Hw Hl. revert r f Hs. induction Hw as [|c ws Hc _ IH]; intros r [|f] Hs Hf; cbn [length] in *; try lia;
    cbn [skip_spaces]; unfold get8.
  - destruct (cstr_first _ _ _ Hs) as [Hx Hb]. rewrite Hx. cbn [mbind option_bind app] in *.
    destruct (isspace_spec _ Hb) as (v & -> & Hv). cbn [mbind option_bind]. rewrite Hv, Hl. f_equal. lia.
  - cbn [app] in Hs. apply cstr_cons in Hs as (Hx & Hch & Hs). rewrite Hx. cbn [mbind option_bind].
    destruct (isspace_spec c (char_byte _ Hch)) as (v & -> & Hv). cbn [mbind option_bind]. rewrite Hv, Hc, IH by (done || lia).
    f_equal. lia.
Qed.

Lemma hex_prefix_spec m r l : cstr m r l -> hex_prefix m r = Some (hex_lead l).
Proof.
  intros Hl. unfold hex_prefix, get8. destruct (cstr_first _ _ _ Hl) as [Ha _]. rewrite Ha. cbn [mbind option_bind].
  destruct l as [|a l]; [done|]. cbn [head default]. apply cstr_cons in Hl as (_ & _ & Hl).
  change (default 0 (Some a)) with a. destruct (Z.eqb_spec a 48) as [->|Hne]; cbn [negb].
  2:{ destruct l as [|? [|? ?]]; try done; cbn; by rewrite (proj2 (Z.eqb_neq a 48) Hne). }
  destruct (cstr_first _ _ _ Hl) as [Hx Hb]. rewrite Hx. cbn [mbind option_bind]. rewrite (toupper_spec _ Hb).
  cbn [mbind option_bind]. destruct l as [|x l]; [done|]. change (default 0 (head (x :: l))) with x in *.
  apply cstr_cons in Hl as (_ & _ & Hl).
  assert (Hx88 : ((if lower x then x - 32 else x) =? 88) = (x =? 88) || (x =? 120)).
  { unfold lower, between. destruct (Z.leb_spec 97 x), (Z.leb_spec x 122), (Z.eqb_spec x 88), (Z.eqb_spec x 120); cbn;
      first [apply Z.eqb_eq; lia|apply Z.eqb_neq; lia]. }
  rewrite Hx88. unfold hex_lead. destruct l as [|d l].
  - destruct ((x =? 88) || (x =? 120)); cbn [negb]; [|done]. apply cstr_nil in Hl.
    replace (r + 2) with (r + 1 + 1) by lia. rewrite Hl. done.
  - destruct ((x =? 88) || (x =? 120)); cbn [negb andb Z.eqb]; [|done].
    destruct (cstr_first _ _ _ Hl) as [Hd Hdb]. replace (r + 2) with (r + 1 + 1) by lia. rewrite Hd. cbn [mbind option_bind].
    change (default 0 (head (d :: l))) with d in *. rewrite get_num_spec by (done || unfold BASE_HEX; lia).
    cbn [mbind option_bind]. destruct (is_digit 16 d) eqn:Ed; change BASE_HEX with 16; rewrite Ed; [|done].
    pose proof (digit_of_range 16 d Ed). by rewrite (proj2 (Z.leb_le 0 _)) by lia.
Qed.

(** The base and the digits. *)
Lemma get_base_spec m r base l : cstr m r l -> base = 0 \/ 2 <= base <= 36 ->
  exists r', get_base m r base = Some (Some (radix base l, r')) /\ cstr m r' (body base l) /\
    r' + Z.of_nat (length (body base l)) = r + Z.of_nat (length l) /\ 2 <= radix base l <= 36.
Proof.
  intros Hl Hb. unfold get_base, radix, body.
  assert (Hdrop : hex_lead l = true -> cstr m (r + 2) (drop 2 l) /\ r + 2 + Z.of_nat (length (drop 2 l)) = r + Z.of_nat (length l)).
  { intros Hh. destruct l as [|a [|x [|d l]]]; try done. split; [|cbn; lia]. apply (cstr_drop _ _ _ 2 Hl). cbn. lia. }
  destruct (Z.eqb_spec base 0) as [->|Hb0]; cbn [negb orb andb].
  - unfold get8. destruct (cstr_first _ _ _ Hl) as [Ha _]. rewrite Ha. cbn [mbind option_bind].
    destruct (hex_lead l) eqn:Hh.
    + assert (default 0 (head l) = 48) as ->.
      { destruct l as [|a [|x [|d l]]]; try done. cbn in *. by destruct (Z.eqb_spec a 48). }
      cbn [Z.eqb]. rewrite Z.eqb_refl, (hex_prefix_spec _ _ _ Hl), Hh. cbn. destruct (Hdrop eq_refl). eexists. split; [done|].
      split; [done|]. split; [done|lia].
    + destruct (Z.eqb_spec (default 0 (head l)) 48) as [E|E].
      * rewrite (hex_prefix_spec _ _ _ Hl), Hh. cbn [mbind option_bind].
        rewrite bool_decide_true by (destruct (head l); [cbn in E; by f_equal|done]).
        exists r. split; [done|]. split; [done|]. split; [done|lia].
      * rewrite bool_decide_false by (intros E'; rewrite E' in E; by apply E).
        exists r. split; [done|]. split; [done|]. split; [done|lia].
  - unfold BASE_MIN, BASE_MAX, BASE_HEX. rewrite (proj2 (Z.ltb_ge base 2)), (proj2 (Z.ltb_ge 36 base)) by lia. cbn [orb].
    destruct (Z.eqb_spec base 16) as [->|H16]; cbn [andb].
    + rewrite (hex_prefix_spec _ _ _ Hl). cbn [mbind option_bind]. destruct (hex_lead l) eqn:Hh.
      * destruct (Hdrop eq_refl). eexists. split; [done|]. split; [done|]. split; [done|lia].
      * exists r. split; [done|]. split; [done|]. split; [done|lia].
    + exists r. split; [done|]. split; [done|]. split; [done|lia].
Qed.

Lemma strtol_loop_spec f m r base max l n :
  cstr m r l -> 2 <= base <= 36 -> 0 < max < 2 ^ 32 -> 0 <= n -> (length l < f)%nat ->
  let n' := number base n (digits base l) in
  strtol_loop f m r base max (Z.min n max) (if max <? n then Some ERANGE else None) =
  Some (Z.min n' max, r + Z.of_nat (length (digits base l)), if max <? n' then Some ERANGE else None).
Proof.
  intros Hl Hb Hm. revert r f n Hl. induction l as [|c l IH]; intros r [|f] n Hl Hn Hf; cbn [length] in *; try lia;
    cbn [strtol_loop]; unfold get8.
  - apply cstr_nil in Hl. rewrite Hl. cbn [mbind option_bind digits number length].
    rewrite get_num_spec, is_digit_zero by (unfold is_byte; lia). cbn. by rewrite Z.add_0_r.
  - apply cstr_cons in Hl as (Hc & Hch & Hl). rewrite Hc. cbn [mbind option_bind digits].
    rewrite get_num_spec by (lia || by apply char_byte). cbn [mbind option_bind].
    destruct (is_digit base c) eqn:Hd; [|cbn; by rewrite Z.add_0_r].
    pose proof (digit_of_range base c Hd ltac:(lia)) as Hr. cbn [number length].
    rewrite (proj2 (Z.ltb_ge (digit_of c) 0)) by lia.
    specialize (IH (r + 1) f (n * base + digit_of c) Hl ltac:(nia) ltac:(lia)). cbv zeta in IH.
    replace (r + Z.of_nat (S (length (digits base l)))) with (r + 1 + Z.of_nat (length (digits base l))) by lia.
    rewrite <- IH. destruct (Z.ltb_spec max n) as [Hlt|Hge].
    + rewrite !Z.min_r by nia.
      assert ((2 ^ 32 <=? max * base) || (max <? max * base) = true) as ->.
      { apply orb_true_iff. right. apply Z.ltb_lt. nia. }
      cbn [orb]. rewrite (proj2 (Z.ltb_lt max _)) by nia. done.
    + rewrite (Z.min_l n) by lia. destruct (Z.ltb_spec max (n * base + digit_of c)) as [Hlt|Hge'].
      * rewrite Z.min_r by lia.
        assert ((2 ^ 32 <=? n * base) || (max <? n * base) || (max - n * base <? digit_of c) = true) as ->; [|done].
        apply orb_true_iff. right. apply Z.ltb_lt. lia.
      * rewrite Z.min_l by lia.
        rewrite (proj2 (Z.leb_gt (2 ^ 32) _)), (proj2 (Z.ltb_ge max (n * base))), (proj2 (Z.ltb_ge (max - n * base) _)) by lia.
        done.
Qed.

Lemma strtoul_loop_eq f m r base v err : strtoul_loop f m r base v err = strtol_loop f m r base ULONG_MAX v err.
Proof.
  revert r v err. induction f as [|f IH]; intros r v err; [done|]. cbn [strtoul_loop strtol_loop].
  destruct (get8 m r) as [b|]; [|done]. cbn [mbind option_bind]. destruct (get_num b base) as [n|]; [|done].
  cbn [mbind option_bind]. destruct (n <? 0); [done|].
  assert ((ULONG_MAX <? v * base) = (2 ^ 32 <=? v * base)) as ->.
  { unfold ULONG_MAX. destruct (Z.ltb_spec (2 ^ 32 - 1) (v * base)), (Z.leb_spec (2 ^ 32) (v * base)); lia || done. }
  rewrite orb_diag. by rewrite !IH.
Qed.

Lemma digit_ten c : is_digit 10 c = digit c.
Proof.
  unfold is_digit, digit_of, digit, upper, lower, between.
  destruct (Z.leb_spec 48 c), (Z.leb_spec c 57), (Z.leb_spec 65 c), (Z.leb_spec c 90), (Z.leb_spec 97 c), (Z.leb_spec c 122);
    cbn; first [done|lia|apply Z.ltb_lt; lia|apply Z.ltb_ge; lia].
Qed.

Lemma atoi_loop_spec f m r l n :
  cstr m r l -> (length l < f)%nat -> atoi_loop f m r (u32 n) = Some (u32 (number 10 n (digits 10 l))).
Proof.
  revert r f n. induction l as [|c l IH]; intros r [|f] n Hl Hf; cbn [length] in *; try lia; cbn [atoi_loop]; unfold get8.
  - apply cstr_nil in Hl. rewrite Hl. done.
  - apply cstr_cons in Hl as (Hc & Hch & Hl). rewrite Hc. cbn [mbind option_bind digits].
    destruct (isdigit_spec c (char_byte _ Hch)) as (v & -> & Hv). cbn [mbind option_bind]. rewrite Hv, digit_ten.
    destruct (digit c) eqn:Hd; [|done]. cbn [number]. rewrite <- (IH (r + 1) f) by (done || lia). f_equal.
    unfold digit_of. rewrite Hd. unfold u32. rewrite Zplus_mod_idemp_l, (Zplus_mod (_ * 10)), Zmult_mod_idemp_l, <- Zplus_mod. done.
Qed.

(** ** Whole numbers *)

(** Blanks, a sign and the rest. *)
Record spelled (m : cmem) (str : Z) (ws sg l : list Z) : Prop := {
  sp_str : cstr m str (ws ++ sg ++ l);
  sp_ws : Forall (λ c, space c = true) ws;
  sp_sign : is_sign sg;
  sp_rest : sg = [] -> default 0 (head l) ∉ [43; 45] /\ space (default 0 (head l)) = false;
}.

Lemma spelled_start m str ws sg l : spelled m str ws sg l ->
  exists r, skip_spaces (turns m) m str = Some r /\
    get_sign m r = Some (negative sg, str + Z.of_nat (length ws + length sg)) /\
    cstr m (str + Z.of_nat (length ws + length sg)) l.
Proof.
  intros [Hs Hw Hsg Hl]. exists (str + Z.of_nat (length ws)).
  assert (Hr : cstr m (str + Z.of_nat (length ws)) (sg ++ l)).
  { pose proof (cstr_drop _ _ _ (length ws) Hs) as Hd. rewrite drop_app_length in Hd. apply Hd. rewrite length_app. lia. }
  split; [|split].
  - apply (skip_spaces_spec _ _ _ ws (sg ++ l)); [done|done| |].
    + destruct Hsg as [->|[->| ->]]; [by apply Hl|done|done].
    + apply cstr_turns in Hs. rewrite length_app in Hs. lia.
  - unfold get_sign, get8. destruct (cstr_first _ _ _ Hr) as [Hb _]. rewrite Hb. cbn [mbind option_bind].
    destruct Hsg as [->|[->| ->]].
    + destruct (Hl eq_refl) as [Hn _]. cbn [app] in *. rewrite (proj2 (Z.eqb_neq _ 45)), (proj2 (Z.eqb_neq _ 43)) by set_solver.
      cbn [length]. do 2 f_equal. lia.
    + cbn. do 2 f_equal. lia.
    + cbn. do 2 f_equal. lia.
  - pose proof (cstr_drop _ _ _ (length sg) Hr) as Hd. rewrite drop_app_length in Hd.
    replace (str + Z.of_nat (length ws + length sg)) with (str + Z.of_nat (length ws) + Z.of_nat (length sg)) by lia.
    apply Hd. rewrite length_app. lia.
Qed.

(** The end of the digits in a string of [n] characters. *)
Definition number_end (str : Z) (ws sg l : list Z) (base : Z) : Z :=
  str + Z.of_nat (length ws + length sg + length l - length (body base l) + length (digits (radix base l) (body base l))).

Lemma number_nonneg base v ds : 0 <= v -> 0 <= base -> base <= 36 -> Forall (λ c, is_digit base c = true) ds -> 0 <= number base v ds.
Proof.
  intros Hv Hb Hb' Hd. revert v Hv. induction Hd as [|c ds Hc _ IH]; intros v Hv; [done|]. cbn. apply IH.
  pose proof (digit_of_range base c Hc Hb'). nia.
Qed.

Lemma digits_forall base l : Forall (λ c, is_digit base c = true) (digits base l).
Proof. induction l as [|c l IH]; cbn; [constructor|]. destruct (is_digit base c) eqn:E; by constructor. Qed.

Lemma digits_head base l : 2 <= base <= 36 -> digits base l = [] <-> is_digit base (default 0 (head l)) = false.
Proof.
  intros Hb. destruct l as [|c l]; cbn; [by rewrite is_digit_zero by lia|].
  change (default 0 (Some c)) with c. by destruct (is_digit base c).
Qed.

Lemma body_length base l : (length (body base l) <= length l)%nat.
Proof. unfold body. destruct (_ && _); [|done]. rewrite length_drop. lia. Qed.

Section Parse.
Context (m : cmem) (str base : Z) (ws sg l : list Z) (Hsp : spelled m str ws sg l) (Hb : base = 0 \/ 2 <= base <= 36).

Let ds := digits (radix base l) (body base l).
Let n := number (radix base l) 0 ds.

Lemma parse_start : exists r0 r1 b,
  skip_spaces (turns m) m str = Some r0 /\ get_sign m r0 = Some (negative sg, str + Z.of_nat (length ws + length sg)) /\
  get_base m (str + Z.of_nat (length ws + length sg)) base = Some (Some (radix base l, r1)) /\
  cstr m r1 (body base l) /\ 2 <= radix base l <= 36 /\ r1 + Z.of_nat (length ds) = number_end str ws sg l base /\
  get8 m r1 = Some b /\ get_num b (radix base l) = Some (if bool_decide (ds = []) then -1 else digit_of b) /\
  (ds ≠ [] -> 0 <= digit_of b).
Proof.
  destruct (spelled_start _ _ _ _ _ Hsp) as (r0 & E0 & E1 & Hl).
  destruct (get_base_spec _ _ base l Hl Hb) as (r1 & E2 & Hbody & Hlen & Hrad).
  exists r0, r1, (default 0 (head (body base l))). split; [done|]. split; [done|]. split; [done|]. split; [done|].
  split; [done|]. split; [unfold number_end; fold ds; pose proof (body_length base l); lia|].
  destruct (cstr_first _ _ _ Hbody) as [Hx Hbx]. split; [done|]. rewrite get_num_spec by done.
  pose proof (digits_head (radix base l) (body base l) Hrad) as Hd. fold ds in Hd.
  destruct (is_digit (radix base l) (default 0 (head (body base l)))) eqn:E.
  - rewrite bool_decide_false by (intros Hds; by apply Hd in Hds). split; [done|]. intros _.
    apply (digit_of_range _ _ E). lia.
  - rewrite bool_decide_true by (by apply Hd). split; [done|]. intros Hne. destruct Hne. by apply Hd.
Qed.

Lemma parse_number_nonneg : 0 <= n.
Proof.
  destruct parse_start as (_ & _ & _ & _ & _ & _ & _ & Hr & _). apply number_nonneg; [lia..|apply digits_forall].
Qed.

(** The value between [LONG_MIN] and [LONG_MAX] that is closest to [z]. *)
Definition clamp (z : Z) : Z := Z.max LONG_MIN (Z.min z LONG_MAX).
Definition signed : Z := if negative sg then - n else n.

Lemma strtol_spec : strtol m str base = Some (
  if bool_decide (ds = []) then (0, str, None)
  else (clamp signed, number_end str ws sg l base, if bool_decide (clamp signed = signed) then None else Some ERANGE)).
Proof.
  destruct parse_start as (r0 & r1 & b & E0 & E1 & E2 & Hbody & Hrad & Hend & E3 & E4 & Hdig).
  unfold strtol. rewrite E0. cbn [mbind option_bind]. rewrite E1. cbn [mbind option_bind]. rewrite E2. cbn [mbind option_bind].
  rewrite E3. cbn [mbind option_bind]. rewrite E4. cbn [mbind option_bind].
  case_bool_decide as Hds; [done|]. rewrite (proj2 (Z.ltb_ge _ 0)) by auto.
  set (max := u32 (if negative sg then LONG_MIN else LONG_MAX)).
  assert (Hmax : max = if negative sg then 2 ^ 31 else 2 ^ 31 - 1) by (unfold max; by destruct (negative sg)).
  assert (Hm : 0 < max < 2 ^ 32) by (rewrite Hmax; destruct (negative sg); lia).
  pose proof (strtol_loop_spec (turns m) m r1 (radix base l) max (body base l) 0 Hbody Hrad Hm ltac:(lia)
    (cstr_turns _ _ _ Hbody)) as E5. fold ds n in E5. rewrite Z.min_l, (proj2 (Z.ltb_ge max 0)) in E5 by lia.
  rewrite E5. cbn [mbind option_bind]. pose proof parse_number_nonneg as Hn. unfold signed, clamp, LONG_MIN, LONG_MAX.
  rewrite <- Hend. do 2 f_equal; [f_equal|].
  - destruct (negative sg); rewrite s32_small by (unfold is_s32; lia); lia.
  - destruct (Z.ltb_spec max n) as [Hlt|Hge]; [rewrite bool_decide_false|rewrite bool_decide_true]; try done;
      destruct (negative sg); lia.
Qed.

Lemma strtoul_spec : strtoul m str base = Some (
  if bool_decide (ds = []) then (0, str, None)
  else (u32 (let v := Z.min n ULONG_MAX in if negative sg then - v else v), number_end str ws sg l base,
        if n <=? ULONG_MAX then None else Some ERANGE)).
Proof.
  destruct parse_start as (r0 & r1 & b & E0 & E1 & E2 & Hbody & Hrad & Hend & E3 & E4 & Hdig).
  unfold strtoul. rewrite E0. cbn [mbind option_bind]. rewrite E1. cbn [mbind option_bind]. rewrite E2. cbn [mbind option_bind].
  rewrite E3. cbn [mbind option_bind]. rewrite E4. cbn [mbind option_bind].
  case_bool_decide as Hds; [done|]. rewrite (proj2 (Z.ltb_ge _ 0)) by auto.
  rewrite strtoul_loop_eq. unfold ULONG_MAX in *.
  pose proof (strtol_loop_spec (turns m) m r1 (radix base l) (2 ^ 32 - 1) (body base l) 0 Hbody Hrad ltac:(lia) ltac:(lia)
    (cstr_turns _ _ _ Hbody)) as E5. fold ds n in E5. rewrite Z.min_l, (proj2 (Z.ltb_ge (2 ^ 32 - 1) 0)) in E5 by lia.
  rewrite E5. cbn [mbind option_bind]. rewrite <- Hend. do 2 f_equal.
  destruct (Z.ltb_spec (2 ^ 32 - 1) n), (Z.leb_spec n (2 ^ 32 - 1)); lia || done.
Qed.

End Parse.

Lemma strtol_base m str base ws sg l :
  spelled m str ws sg l -> base ≠ 0 -> base < BASE_MIN \/ BASE_MAX < base ->
  strtol m str base = Some (0, str, Some EINVAL) /\ strtoul m str base = Some (0, str, Some EINVAL).
Proof.
  intros Hsp Hb0 Hb. destruct (spelled_start _ _ _ _ _ Hsp) as (r & E0 & E1 & _).
  assert (E2 : forall r, get_base m r base = Some None).
  { intros r'. unfold get_base. rewrite (proj2 (Z.eqb_neq base 0) Hb0). cbn [negb].
    by assert ((base <? BASE_MIN) || (BASE_MAX <? base) = true) as -> by (apply orb_true_iff; rewrite !Z.ltb_lt; lia). }
  unfold strtol, strtoul. rewrite E0. cbn [mbind option_bind]. rewrite E1. cbn [mbind option_bind]. rewrite E2. done.
Qed.

Lemma atoi_spec m str ws sg l : spelled m str ws sg l ->
  let n := number 10 0 (digits 10 l) in
  atoi m str = Some (s32 (if negative sg then - u32 n else u32 n)) /\ atol m str = atoi m str.
Proof.
  intros Hsp n. destruct (spelled_start _ _ _ _ _ Hsp) as (r & E0 & E1 & Hl). split; [|done].
  unfold atoi. rewrite E0. cbn [mbind option_bind]. rewrite E1. cbn [mbind option_bind].
  change 0 with (u32 0) at 1. rewrite (atoi_loop_spec _ _ _ l) by (done || by eapply cstr_turns). done.
Qed.

(** The parsers of numbers.  On blanks, an optional sign and any rest,
    [strtol] returns the number that the longest run of digits of the base
    writes, with the prefixes of base 8 and 16 taken into account, cut to the
    range of [long] with [ERANGE] reported exactly when it does not fit, and
    stops behind the last digit; without a digit it returns zero and the start;
    [strtoul] does the same on [unsigned long]; a base out of range is refused
    with [EINVAL]. *)
Theorem strtol_correct m str base ws sg l :
  spelled m str ws sg l ->
  let ds := digits (radix base l) (body base l) in
  let n := number (radix base l) 0 ds in
  let z := if negative sg then - n else n in
  (base = 0 \/ 2 <= base <= 36 ->
    strtol m str base = Some (
      if bool_decide (ds = []) then (0, str, None)
      else (clamp z, number_end str ws sg l base, if bool_decide (clamp z = z) then None else Some ERANGE)) /\
    strtoul m str base = Some (
      if bool_decide (ds = []) then (0, str, None)
      else (u32 (let v := Z.min n ULONG_MAX in if negative sg then - v else v), number_end str ws sg l base,
            if n <=? ULONG_MAX then None else Some ERANGE))) /\
  (base ≠ 0 -> base < BASE_MIN \/ BASE_MAX < base ->
    strtol m str base = Some (0, str, Some EINVAL) /\ strtoul m str base = Some (0, str, Some EINVAL)).
Proof.
  intros Hsp ds n z. split.
  - intros Hb. split; [by apply strtol_spec|by apply strtoul_spec].
  - intros Hb0 Hb. by eapply strtol_base.
Qed.

(** " -0x7fffffffff" *)
Definition demo_number : cmem := put ∅ 64 ([32; 45; 48; 120; 55; 102; 102; 102; 102; 102; 102; 102; 102; 102] ++ [0]).

Lemma demo_number_ok : spelled demo_number 64 [32] [45] [48; 120; 55; 102; 102; 102; 102; 102; 102; 102; 102; 102].
Proof.
  split; [apply cstr_put; unfold is_char; repeat constructor; lia|by repeat constructor|by right; right|done].
Qed.

Lemma strtol_correct_witness : strtol demo_number 64 0 = Some (LONG_MIN, 78, Some ERANGE).
Proof.
  destruct (proj1 (strtol_correct demo_number 64 0 [32] [45] _ demo_number_ok) (or_introl eq_refl)) as [E _].
  vm_compute in E. exact E.
Defined.

(** An overflow with a minus sign in front: the maximum is negated, and the
    result is 1. *)
Lemma strtoul_negative_overflow : strtoul demo_number 64 0 = Some (1, 78, Some ERANGE).
Proof. vm_compute. reflexivity. Qed.
