(* ===== verification/CPrint.v ===== *)
(** * Formatted output (lib/libnc/stdio/vnprintf.c)

    The small [printf] of the kernel: its state machine over the format, the
    conversions, and what it writes for a format that is made of pieces. *)

From S2P Require Import Prelude CMem CType CNumber.

Definition MAX_INT_COLUMN : nat := 10.
Definition INT_BIT : Z := 32.

(** [count_nlz] of include/i686/bits.h: 32 for 0, else [bsrl], the index of the
    highest bit. *)
Definition count_nlz (d : Z) : Z := if d =? 0 then 32 else Z.log2 (u32 d).

Inductive handler_t := Immediate | Format | Escape.

(** The state: the handler, the format, the arguments that are left, what has
    been written, and its length. *)
Record State := mkState {
  handler : handler_t;
  format : Z;
  ap : list Z;
  out : list Z;
  len : Z;
}.

Definition set_handler (h : handler_t) (s : State) : State := mkState h (format s) (ap s) (out s) (len s).

Definition _putchar (c : Z) (s : State) : State :=
  mkState (handler s) (format s) (ap s) (out s ++ [u8 c]) (len s + 1).

Fixpoint _puts_loop (f : nat) (m : cmem) (str : Z) (s : State) : option State :=
  match f with
  | O => None
  | S f => c ← get8 m str; if c =? 0 then Some s else _puts_loop f m (str + 1) (_putchar c s)
  end.

Definition _puts (m : cmem) (str : Z) (s : State) : option State := _puts_loop (turns m) m str s.

(** Digits go into a buffer of [MAX_INT_COLUMN] characters from its end; one
    more would be written in front of it. *)
Fixpoint _putd_loop (f : nat) (u : Z) (buf : list Z) : option (list Z) :=
  match f with
  | O => None
  | S f =>
      let buf := (u mod 10 + 48) :: buf in
      let u := u / 10 in
      if u =? 0 then Some buf else _putd_loop f u buf
  end.

(** [-v] of an [int]: an overflow, and undefined, for the least one. *)
Definition neg_int (v : Z) : option Z := if v =? - 2 ^ 31 then None else Some (- v).

Definition _putd (v : Z) (s : State) : option State :=
  '(u, s) ← (if v <? 0 then let s := _putchar 45 s in u ← neg_int v; Some (u, s) else Some (v, s));
  buf ← _putd_loop MAX_INT_COLUMN u [];
  Some (fold_left (λ s c, _putchar c s) buf s).

Fixpoint _putx_loop (f : nat) (u shift : Z) (s : State) : option State :=
  match f with
  | O => None
  | S f =>
      let c := Z.land (Z.shiftr u shift) 0xf in
      let s := _putchar (c + (if 10 <=? c then 97 - 10 else 48)) s in
      let shift := shift - 4 in
      if 0 <=? shift then _putx_loop f u shift s else Some s
  end.

Definition _putx (u : Z) (s : State) : option State :=
  let shift := count_nlz u in
  if shift <? INT_BIT then _putx_loop 8 u (Z.land shift (INT_BIT - 1 - 3)) s
  else Some (_putchar 48 s).

(** [*(s->format)++] *)
Definition next_format (m : cmem) (s : State) : option (Z * State) :=
  c ← get8 m (format s); Some (c, mkState (handler s) (format s + 1) (ap s) (out s) (len s)).

Definition va_arg (s : State) : option (Z * State) :=
  match ap s with [] => None | x :: l => Some (x, mkState (handler s) (format s) l (out s) (len s)) end.

Definition _immediate (m : cmem) (s : State) : option (bool * State) :=
  '(c, s) ← next_format m s;
  if c =? 0 then Some (false, s)
  else if c =? 37 then Some (true, set_handler Format s)
  else if c =? 92 then Some (true, set_handler Escape s)
  else Some (true, _putchar c s).

(** One conversion, without the return to [_immediate]. *)
Definition convert (m : cmem) (c : Z) (s : State) : option State :=
  if c =? 99 then '(x, s) ← va_arg s; Some (_putchar (Z.land x 0xff) s)
  else if c =? 100 then '(x, s) ← va_arg s; _putd (s32 x) s
  else if c =? 108 then
    '(c2, s) ← next_format m s;
    if c2 =? 100 then '(x, s) ← va_arg s; _putd (s32 x) s
    else if c2 =? 120 then '(x, s) ← va_arg s; _putx (u32 x) s
    else Some (_putchar c2 (_putchar c (_putchar 37 s)))
  else if c =? 112 then '(x, s) ← va_arg (_putchar 120 (_putchar 48 s)); _putx (u32 x) s
  else if c =? 120 then '(x, s) ← va_arg s; _putx (u32 x) s
  else if c =? 115 then '(x, s) ← va_arg s; _puts m x s
  else Some (_putchar c (_putchar 37 s)).

Definition _format (m : cmem) (s : State) : option (bool * State) :=
  '(c, s) ← next_format m s;
  if c =? 0 then Some (false, _putchar 37 s)
  else s ← convert m c s; Some (true, set_handler Immediate s).

Definition _escape (m : cmem) (s : State) : option (bool * State) :=
  '(c, s) ← next_format m s;
  if c =? 0 then Some (false, _putchar 92 s)
  else
    let c := if c =? 110 then 10 else if c =? 114 then 13 else if c =? 116 then 9 else c in
    Some (true, set_handler Immediate (_putchar c s)).

Definition handle (m : cmem) (s : State) : option (bool * State) :=
  match handler s with Immediate => _immediate m s | Format => _format m s | Escape => _escape m s end.

Fixpoint vnprintf_loop (f : nat) (m : cmem) (s : State) : option State :=
  match f with
  | O => None
  | S f => '(go, s) ← handle m s; if (go : bool) then vnprintf_loop f m s else Some s
  end.

(** What is written, and how much of it. *)
Definition vnprintf (m : cmem) (fmt : Z) (args : list Z) : option (list Z * Z) :=
  s ← vnprintf_loop (turns m) m (mkState Immediate fmt args [] 0); Some (out s, len s).

(** ** Numbers *)

(** [ds] writes [u], without zeros in front. *)
Record spells (base u : Z) (ds : list Z) : Prop := {
  sl_some : ds ≠ [];
  sl_digits : Forall (λ c, is_digit base c = true) ds;
  sl_number : number base 0 ds = u;
  sl_lead : head ds = Some 48 -> ds = [48];
}.

Lemma number_app base v l1 l2 : number base v (l1 ++ l2) = number base (number base v l1) l2.
Proof. revert v. induction l1 as [|c l1 IH]; intros v; [done|]. cbn. apply IH. Qed.

Lemma digit_of_dec d : 0 <= d < 10 -> digit_of (d + 48) = d /\ is_digit 10 (d + 48) = true.
Proof.
  intros Hd. assert (digit (d + 48) = true) as H.
  { unfold digit, between. apply andb_true_iff. rewrite !Z.leb_le. lia. }
  rewrite digit_ten, H. split; [|done]. unfold digit_of. rewrite H. lia.
Qed.

Lemma _putd_loop_spec f u acc : 0 <= u < 10 ^ Z.of_nat f -> (1 <= f)%nat ->
  exists ds, _putd_loop f u acc = Some (ds ++ acc) /\ spells 10 u ds.
Proof.
  revert u acc. induction f as [|f IH]; intros u acc Hu Hf; [lia|]. cbn [_putd_loop].
  pose proof (Z.mod_pos_bound u 10 ltac:(lia)) as Hm. destruct (digit_of_dec _ Hm) as [Hd1 Hd2].
  destruct (Z.eqb_spec (u / 10) 0) as [E|E].
  - exists [u mod 10 + 48]. split; [done|]. assert (u mod 10 = u) as Eu by (rewrite Z.mod_small; [done|]; apply Z.div_small_iff in E; lia).
    split; [done|by constructor| |by intros [= ->]]. cbn. rewrite Hd1. lia.
  - assert (Hq : 0 <= u / 10 < 10 ^ Z.of_nat f).
    { rewrite Nat2Z.inj_succ, Z.pow_succ_r in Hu by lia. split; [apply Z.div_pos; lia|apply Z.div_lt_upper_bound; lia]. }
    destruct f as [|f]; [change (10 ^ Z.of_nat 0) with 1 in Hq; lia|].
    destruct (IH (u / 10) ((u mod 10 + 48) :: acc) Hq ltac:(lia)) as (ds & Eds & [Hs Hd Hn Hl]).
    exists (ds ++ [u mod 10 + 48]). rewrite <- app_assoc. split; [done|]. split.
    + by destruct ds.
    + apply Forall_app. split; [done|by constructor].
    + rewrite number_app, Hn. cbn. rewrite Hd1. pose proof (Z.div_mod u 10). lia.
    + destruct ds as [|c ds]; [done|]. cbn. intros [= ->]. injection (Hl eq_refl) as ->. change (number 10 0 [48]) with 0 in Hn. congruence.
Qed.

Definition written (s : State) (ap : list Z) (t : list Z) : State :=
  mkState (handler s) (format s) ap (out s ++ t) (len s + Z.of_nat (length t)).

Lemma putchars l s : Forall is_byte l -> fold_left (λ s c, _putchar c s) l s = written s (ap s) l.
Proof.
  intros Hl. revert s. induction Hl as [|c l Hc _ IH]; intros s; cbn [fold_left].
  - unfold written. cbn. rewrite app_nil_r, Z.add_0_r. by destruct s.
  - rewrite IH. unfold written, _putchar. cbn. rewrite <- app_assoc. unfold u8. rewrite Z.mod_small by done.
    f_equal. lia.
Qed.

Lemma digit_byte base c : is_digit base c = true -> base <= 36 -> is_char c.
Proof.
  unfold is_digit, digit_of, digit, upper, lower, between, is_char. intros H%Z.ltb_lt Hb.
  repeat match goal with H : context [?x <=? ?y] |- _ => destruct (Z.leb_spec x y); cbn [andb] in *; try lia end.
Qed.

Lemma spells_chars base u ds : spells base u ds -> base <= 36 -> Forall is_char ds.
Proof. intros [_ Hd _ _] Hb. eapply Forall_impl; [exact Hd|]. intros c Hc. exact (digit_byte base c Hc Hb). Qed.

Lemma chars_bytes' l : Forall is_char l -> Forall is_byte l.
Proof. intros H. eapply Forall_impl; [exact H|apply char_byte]. Qed.

Lemma written_trans s a1 a2 t1 t2 : written (written s a1 t1) a2 t2 = written s a2 (t1 ++ t2).
Proof. unfold written. cbn. rewrite app_assoc, length_app. f_equal. lia. Qed.

Lemma putchar_written c s : is_byte c -> _putchar c s = written s (ap s) [c].
Proof. intros Hc. apply (putchars [c]). by constructor. Qed.

(** The numbers an [int] and its opposite hold. *)
Definition is_int (v : Z) : Prop := - 2 ^ 31 < v < 2 ^ 31.

Lemma is_int_s32 v : is_int v -> is_s32 v.
Proof. unfold is_int, is_s32. lia. Qed.

Lemma neg_int_spec v : is_int v -> neg_int v = Some (- v).
Proof. intros Hv. unfold neg_int, is_int in *. by rewrite (proj2 (Z.eqb_neq _ _)) by lia. Qed.

(** The sign and the digits of an [int]. *)
Definition decimal (v : Z) (t : list Z) : Prop := exists ds, t = (if v <? 0 then [45] else []) ++ ds /\ spells 10 (Z.abs v) ds.

Lemma _putd_spec v s : is_int v -> exists t, _putd v s = Some (written s (ap s) t) /\ decimal v t /\ Forall is_char t.
Proof.
  intros Hi. pose proof Hi as Hv. unfold is_int in Hv. unfold _putd. rewrite neg_int_spec by done.
  destruct (_putd_loop_spec MAX_INT_COLUMN (Z.abs v) []) as (ds & E & Hds);
    [unfold MAX_INT_COLUMN; change (10 ^ Z.of_nat 10) with 10000000000; lia|unfold MAX_INT_COLUMN; lia|].
  rewrite app_nil_r in E. pose proof (spells_chars _ _ _ Hds ltac:(lia)) as Hch. unfold decimal.
  destruct (Z.ltb_spec v 0) as [Hneg|Hpos].
  - rewrite Z.abs_neq in E by lia. cbn [mbind option_bind]. rewrite E. cbn [mbind option_bind].
    rewrite putchars by (by apply chars_bytes'). exists ([45] ++ ds). split; [|split].
    + f_equal. rewrite putchar_written by (unfold is_byte; lia). apply written_trans.
    + by exists ds.
    + constructor; [unfold is_char; lia|done].
  - rewrite Z.abs_eq in E by lia. cbn [mbind option_bind]. rewrite E. cbn [mbind option_bind].
    rewrite putchars by (by apply chars_bytes'). exists ds. split; [done|]. split; [by exists ds|done].
Qed.

(** A digit of base 16, written in lower case. *)
Lemma digit_of_hex c : 0 <= c < 16 ->
  let d := c + (if 10 <=? c then 97 - 10 else 48) in digit_of d = c /\ is_digit 16 d = true /\ (d = 48 -> c = 0).
Proof.
  intros Hc. assert (c ∈ seqZ 0 16) as Hin by (apply elem_of_seqZ; lia). revert Hin.
  apply (Forall_forall (λ c, let d := c + (if 10 <=? c then 97 - 10 else 48) in
    digit_of d = c /\ is_digit 16 d = true /\ (d = 48 -> c = 0)) (seqZ 0 16)).
  change (seqZ 0 16) with [0; 1; 2; 3; 4; 5; 6; 7; 8; 9; 10; 11; 12; 13; 14; 15]. repeat constructor; done.
Qed.

Lemma _putx_loop_spec f u k s : 0 <= u -> (k < f)%nat ->
  exists ds, _putx_loop f u (4 * Z.of_nat k) s = Some (written s (ap s) ds) /\
    Forall (λ c, is_digit 16 c = true) ds /\ number 16 (Z.shiftr u (4 * (Z.of_nat k + 1))) ds = u /\
    exists d ds', ds = d :: ds' /\ digit_of d = Z.land (Z.shiftr u (4 * Z.of_nat k)) 0xf.
Proof.
  intros Hu. revert k s. induction f as [|f IH]; intros k s Hf; [lia|]. cbn [_putx_loop].
  set (c := Z.land (Z.shiftr u (4 * Z.of_nat k)) 0xf).
  assert (Hc : c = Z.shiftr u (4 * Z.of_nat k) mod 16) by (unfold c; change 0xf with (Z.ones 4); by rewrite Z.land_ones by lia).
  assert (Hcr : 0 <= c < 16) by (rewrite Hc; apply Z.mod_pos_bound; lia).
  destruct (digit_of_hex c Hcr) as (Hd1 & Hd2 & _). set (d := c + (if 10 <=? c then 97 - 10 else 48)) in *.
  assert (Hdc : is_char d) by (by eapply (digit_byte 16)).
  assert (Hstep : Z.shiftr u (4 * (Z.of_nat k + 1)) * 16 + c = Z.shiftr u (4 * Z.of_nat k)).
  { replace (4 * (Z.of_nat k + 1)) with (4 * Z.of_nat k + 4) by lia. rewrite <- Z.shiftr_shiftr by lia.
    rewrite (Z.shiftr_div_pow2 _ 4) by lia. change (2 ^ 4) with 16. rewrite Hc.
    pose proof (Z.div_mod (Z.shiftr u (4 * Z.of_nat k)) 16). lia. }
  rewrite putchar_written by (by apply char_byte). destruct k as [|k].
  - change (4 * Z.of_nat 0) with 0 in *. rewrite (proj2 (Z.leb_gt 0 (0 - 4))) by lia.
    exists [d]. split; [done|]. split; [by constructor|]. split; [|by exists d, []].
    cbn [number]. rewrite Hd1, Hstep. apply Z.shiftr_0_r.
  - rewrite (proj2 (Z.leb_le 0 (4 * Z.of_nat (S k) - 4))) by lia.
    replace (4 * Z.of_nat (S k) - 4) with (4 * Z.of_nat k) by lia.
    destruct (IH k (written s (ap s) [d]) ltac:(lia)) as (ds & E & Hds & Hn & _).
    exists (d :: ds). rewrite E. split; [by rewrite written_trans|]. split; [by constructor|]. split; [|by exists d, ds].
    cbn [number]. rewrite Hd1, Hstep. by replace (Z.of_nat (S k)) with (Z.of_nat k + 1) by lia.
Qed.

Lemma _putx_spec u s : is_u32 u -> exists t, _putx u s = Some (written s (ap s) t) /\ spells 16 u t.
Proof.
  intros Hu. unfold is_u32 in Hu. unfold _putx, count_nlz. destruct (Z.eqb_spec u 0) as [->|Hne].
  { exists [48]. rewrite putchar_written by (unfold is_byte; lia). split; [done|]. by split; [|repeat constructor| |]. }
  rewrite u32_small by done. pose proof (Z.log2_spec u ltac:(lia)) as Hlog. pose proof (Z.log2_nonneg u) as Hl0.
  assert (Hl32 : Z.log2 u < 32) by (apply Z.log2_lt_pow2; lia).
  unfold INT_BIT. rewrite (proj2 (Z.ltb_lt _ 32)) by lia.
  set (k := Z.log2 u / 4). assert (Hk : 0 <= k < 8) by (split; [apply Z.div_pos; lia|apply Z.div_lt_upper_bound; lia]).
  assert (Hkl : 4 * k <= Z.log2 u < 4 * (k + 1)) by (pose proof (Z.div_mod (Z.log2 u) 4); pose proof (Z.mod_pos_bound (Z.log2 u) 4); lia).
  assert (Z.land (Z.log2 u) (32 - 1 - 3) = 4 * k) as ->.
  { assert (Z.log2 u ∈ seqZ 0 32) as Hin by (apply elem_of_seqZ; lia). unfold k. revert Hin.
    apply (Forall_forall (λ x, Z.land x (32 - 1 - 3) = 4 * (x / 4)) (seqZ 0 32)).
    change (seqZ 0 32) with (seqZ 0 16 ++ seqZ 16 16). repeat constructor. }
  destruct (_putx_loop_spec 8 u (Z.to_nat k) s ltac:(lia) ltac:(lia)) as (ds & E & Hds & Hn & d & ds' & -> & Hd).
  rewrite Z2Nat.id in * by lia. exists (d :: ds'). split; [done|]. split; [done|done| |].
  - assert (u < 2 ^ (4 * (k + 1))).
    { apply Z.lt_le_trans with (2 ^ Z.succ (Z.log2 u)); [lia|]. apply Z.pow_le_mono_r; lia. }
    by rewrite Z.shiftr_div_pow2, Z.div_small in Hn by lia.
  - intros [= ->]. exfalso. change (digit_of 48) with 0 in Hd. change 0xf with (Z.ones 4) in Hd.
    rewrite Z.land_ones, Z.shiftr_div_pow2 in Hd by lia.
    assert (1 <= u / 2 ^ (4 * k)) by (apply Z.div_le_lower_bound; [lia|]; pose proof (Z.pow_le_mono_r 2 (4 * k) (Z.log2 u)); lia).
    assert (u / 2 ^ (4 * k) < 16).
    { apply Z.div_lt_upper_bound; [lia|]. apply Z.lt_le_trans with (2 ^ Z.succ (Z.log2 u)); [lia|].
      change 16 with (2 ^ 4). rewrite <- Z.pow_add_r by lia. apply Z.pow_le_mono_r; lia. }
    rewrite Z.mod_small in Hd by (change (2 ^ 4) with 16; lia). lia.
Qed.

(** ** Formats made of pieces *)

Inductive piece :=
  | Lit (c : Z)
  | Esc (c : Z)
  | Chr (v : Z)
  | Dec (long : bool) (v : Z)
  | Hex (long : bool) (u : Z)
  | Ptr (u : Z)
  | Str (p : Z) (l : list Z).

(** How a piece is spelled in the format, and its argument. *)
Definition spell (p : piece) : list Z :=
  match p with
  | Lit c => [c]
  | Esc c => [92; c]
  | Chr _ => [37; 99]
  | Dec long _ => if long then [37; 108; 100] else [37; 100]
  | Hex long _ => if long then [37; 108; 120] else [37; 120]
  | Ptr _ => [37; 112]
  | Str _ _ => [37; 115]
  end.

Definition argument (p : piece) : list Z :=
  match p with Lit _ | Esc _ => [] | Chr v | Dec _ v | Hex _ v | Ptr v => [v] | Str p _ => [p] end.

Definition escaped (c : Z) : Z := if c =? 110 then 10 else if c =? 114 then 13 else if c =? 116 then 9 else c.

(** What a piece puts out. *)
Definition prints (p : piece) (t : list Z) : Prop :=
  match p with
  | Lit c => t = [c]
  | Esc c => t = [escaped c]
  | Chr v => t = [v mod 256]
  | Dec _ v => decimal v t
  | Hex _ u => spells 16 u t
  | Ptr u => exists ds, t = [48; 120] ++ ds /\ spells 16 u ds
  | Str _ l => t = l
  end.

Definition piece_ok (m : cmem) (p : piece) : Prop :=
  match p with
  | Lit c => is_char c /\ c ≠ 37 /\ c ≠ 92
  | Esc c => is_char c
  | Chr _ => True
  | Dec _ v => is_int v
  | Hex _ u | Ptr u => is_u32 u
  | Str p l => cstr m p l
  end.

(** The state between two pieces. *)
Definition at_piece (fmt : Z) (args o : list Z) : State := mkState Immediate fmt args o (Z.of_nat (length o)).

Lemma _puts_loop_spec f m p l s : cstr m p l -> (length l < f)%nat -> _puts_loop f m p s = Some (written s (ap s) l).
Proof.
  revert p f s. induction l as [|c l IH]; intros p [|f] s Hl Hf; cbn [length] in *; try lia; cbn [_puts_loop]; unfold get8.
  - apply cstr_nil in Hl. rewrite Hl. cbn. f_equal. unfold written. cbn. rewrite app_nil_r, Z.add_0_r. by destruct s.
  - apply cstr_cons in Hl as (Hc & Hch & Hl). rewrite Hc. cbn [mbind option_bind].
    rewrite (proj2 (Z.eqb_neq c 0)) by (unfold is_char in Hch; lia). rewrite IH by (done || lia).
    by rewrite putchar_written, written_trans by (by apply char_byte).
Qed.

Lemma next_format_spec m fmt c l h args o n : cstr m fmt (c :: l) ->
  next_format m (mkState h fmt args o n) = Some (c, mkState h (fmt + 1) args o n).
Proof. intros (Hc & _)%cstr_cons. unfold next_format, get8. cbn [format]. by rewrite Hc. Qed.

Lemma written_at h fmt a args o t :
  written (mkState h fmt a o (Z.of_nat (length o))) args t = mkState h fmt args (o ++ t) (Z.of_nat (length (o ++ t))).
Proof. unfold written. cbn. rewrite length_app, Nat2Z.inj_add. done. Qed.

(** Comparisons of numerals. *)
Ltac eqb_red := repeat match goal with
  | |- context [Z.eqb (Zpos ?a) (Zpos ?b)] =>
      let v := eval vm_compute in (Z.eqb (Zpos a) (Zpos b)) in change (Z.eqb (Zpos a) (Zpos b)) with v
  | |- context [Z.eqb (Zpos ?a) Z0] => change (Z.eqb (Zpos a) Z0) with false
  end; cbv iota; unfold set_handler; cbn [mbind option_bind format ap out len handler].

(** A character behind a percent sign. *)
Lemma step_percent m fmt c l args o f : cstr m fmt (37 :: c :: l) ->
  vnprintf_loop (S (S f)) m (at_piece fmt args o) =
  (s ← convert m c (mkState Format (fmt + 2) args o (Z.of_nat (length o))); vnprintf_loop f m (set_handler Immediate s)).
Proof.
  intros Hs. pose proof Hs as Hs'. apply cstr_cons in Hs' as (_ & _ & Hs'). pose proof (proj2 Hs') as Hc.
  apply Forall_cons in Hc as [Hc _]. cbn [vnprintf_loop]. unfold handle, at_piece. cbn [handler]. unfold _immediate.
  rewrite (next_format_spec _ _ _ _ _ _ _ _ Hs). cbn [mbind option_bind]. eqb_red. cbn [set_handler format ap out len handler].
  unfold _format. rewrite (next_format_spec _ _ _ _ _ _ _ _ Hs'). cbn [mbind option_bind].
  rewrite (proj2 (Z.eqb_neq c 0)) by (unfold is_char in Hc; lia). replace (fmt + 1 + 1) with (fmt + 2) by lia.
  by destruct (convert m c _).
Qed.

(** The handlers take a piece in at most as many turns as it has characters. *)
Lemma piece_step m p fmt l args o :
  cstr m fmt (spell p ++ l) -> piece_ok m p ->
  exists k t, (k <= length (spell p))%nat /\ prints p t /\ forall f,
    vnprintf_loop (k + f) m (at_piece fmt (argument p ++ args) o) =
    vnprintf_loop f m (at_piece (fmt + Z.of_nat (length (spell p))) args (o ++ t)).
Proof.
  intros Hs Hok. destruct p as [c|c|v|lg v|lg u|u|q s]; cbn [spell app argument length piece_ok prints] in *.
  - destruct Hok as (Hc & H37 & H92). exists 1%nat, [c]. split; [done|]. split; [done|]. intros f.
    cbn [Nat.add vnprintf_loop]. unfold handle, at_piece. cbn [handler]. unfold _immediate.
    rewrite (next_format_spec _ _ _ _ _ _ _ _ Hs). cbn [mbind option_bind].
    rewrite (proj2 (Z.eqb_neq c 0)) by (unfold is_char in Hc; lia).
    rewrite (proj2 (Z.eqb_neq c 37) H37), (proj2 (Z.eqb_neq c 92) H92), putchar_written by (by apply char_byte).
    by rewrite written_at.
  - exists 2%nat, [escaped c]. split; [done|]. split; [done|]. intros f. cbn [Nat.add vnprintf_loop].
    unfold handle, at_piece. cbn [handler]. unfold _immediate. rewrite (next_format_spec _ _ _ _ _ _ _ _ Hs).
    cbn [mbind option_bind]. eqb_red. cbn [set_handler format ap out len handler]. unfold _escape.
    pose proof Hs as Hs'. apply cstr_cons in Hs' as (_ & _ & Hs'). rewrite (next_format_spec _ _ _ _ _ _ _ _ Hs').
    cbn [mbind option_bind]. rewrite (proj2 (Z.eqb_neq c 0)) by (unfold is_char in Hok; lia). fold (escaped c).
    rewrite putchar_written, written_at. { by replace (fmt + 1 + 1) with (fmt + 2) by lia. }
    unfold escaped, is_byte. unfold is_char in Hok. repeat destruct (_ =? _); lia.
  - exists 2%nat, [v mod 256]. split; [done|]. split; [done|]. intros f. cbn [Nat.add].
    rewrite (step_percent _ _ _ _ _ _ _ Hs). unfold convert. eqb_red. unfold va_arg. cbn [ap mbind option_bind].
    change 0xff with (Z.ones 8). rewrite Z.land_ones by lia.
    rewrite putchar_written by (unfold is_byte; change (2 ^ 8) with 256; apply Z.mod_pos_bound; lia). by rewrite written_at.
  - destruct lg; cbn [app length] in *.
    + destruct (_putd_spec v (mkState Format (fmt + 3) args o (Z.of_nat (length o))) Hok) as (t & E & Ht & _).
      exists 2%nat, t. split; [lia|]. split; [done|]. intros f. cbn [Nat.add].
      rewrite (step_percent _ _ _ _ _ _ _ Hs). unfold convert. eqb_red.
      assert (Hs' : cstr m (fmt + 2) (100 :: l)) by (apply (cstr_drop _ _ _ 2 Hs); cbn; lia).
      rewrite (next_format_spec _ _ _ _ _ _ _ _ Hs'). cbn [mbind option_bind]. eqb_red. unfold va_arg. cbn [ap mbind option_bind handler format out len].
      rewrite s32_small by (by apply is_int_s32). replace (fmt + 2 + 1) with (fmt + 3) by lia. rewrite E. cbn [mbind option_bind]. by rewrite written_at.
    + destruct (_putd_spec v (mkState Format (fmt + 2) args o (Z.of_nat (length o))) Hok) as (t & E & Ht & _).
      exists 2%nat, t. split; [done|]. split; [done|]. intros f. cbn [Nat.add].
      rewrite (step_percent _ _ _ _ _ _ _ Hs). unfold convert. eqb_red. unfold va_arg. cbn [ap mbind option_bind handler format out len].
      rewrite s32_small by (by apply is_int_s32). rewrite E. cbn [mbind option_bind]. by rewrite written_at.
  - destruct lg; cbn [app length] in *.
    + destruct (_putx_spec u (mkState Format (fmt + 3) args o (Z.of_nat (length o))) Hok) as (t & E & Ht).
      exists 2%nat, t. split; [lia|]. split; [done|]. intros f. cbn [Nat.add].
      rewrite (step_percent _ _ _ _ _ _ _ Hs). unfold convert. eqb_red.
      assert (Hs' : cstr m (fmt + 2) (120 :: l)) by (apply (cstr_drop _ _ _ 2 Hs); cbn; lia).
      rewrite (next_format_spec _ _ _ _ _ _ _ _ Hs'). cbn [mbind option_bind]. eqb_red. unfold va_arg. cbn [ap mbind option_bind handler format out len].
      rewrite u32_small by done. replace (fmt + 2 + 1) with (fmt + 3) by lia. rewrite E. cbn [mbind option_bind]. by rewrite written_at.
    + destruct (_putx_spec u (mkState Format (fmt + 2) args o (Z.of_nat (length o))) Hok) as (t & E & Ht).
      exists 2%nat, t. split; [done|]. split; [done|]. intros f. cbn [Nat.add].
      rewrite (step_percent _ _ _ _ _ _ _ Hs). unfold convert. eqb_red. unfold va_arg. cbn [ap mbind option_bind handler format out len].
      rewrite u32_small by done. rewrite E. cbn [mbind option_bind]. by rewrite written_at.
  - destruct (_putx_spec u (mkState Format (fmt + 2) args (o ++ [48; 120]) (Z.of_nat (length (o ++ [48; 120])))) Hok) as (t & E & Ht).
    exists 2%nat, ([48; 120] ++ t). split; [done|]. split; [by exists t|]. intros f. cbn [Nat.add].
    rewrite (step_percent _ _ _ _ _ _ _ Hs). unfold convert. eqb_red.
    rewrite !putchar_written, written_trans, written_at by (unfold is_byte; lia). unfold va_arg, written. cbn [ap mbind option_bind handler format out len app].
    rewrite u32_small by done. rewrite E. cbn [mbind option_bind]. rewrite written_at. by rewrite <- app_assoc.
  - exists 2%nat, s. split; [done|]. split; [done|]. intros f. cbn [Nat.add].
    rewrite (step_percent _ _ _ _ _ _ _ Hs). unfold convert. eqb_red. unfold va_arg. cbn [ap mbind option_bind handler format out len].
    unfold _puts. rewrite (_puts_loop_spec _ _ _ s) by (done || by eapply cstr_turns). cbn [mbind option_bind]. by rewrite written_at.
Qed.

Lemma vnprintf_loop_spec m (ps : list piece) : forall fmt o f,
  cstr m fmt (concat (spell <$> ps)) -> Forall (piece_ok m) ps -> (length (concat (spell <$> ps)) < f)%nat ->
  exists ts s, vnprintf_loop f m (at_piece fmt (concat (argument <$> ps)) o) = Some s /\ Forall2 prints ps ts /\
    out s = o ++ concat ts /\ len s = Z.of_nat (length (out s)).
Proof.
  induction ps as [|p ps IH]; intros fmt o f Hs Hok Hf; cbn [fmap list_fmap concat] in *.
  - destruct f as [|f]; [cbn in Hf; lia|]. apply cstr_nil in Hs. cbn [vnprintf_loop]. unfold handle, at_piece. cbn [handler].
    unfold _immediate, next_format, get8. cbn [format]. rewrite Hs. cbn.
    eexists [], _. split; [done|]. split; [constructor|]. cbn. by rewrite app_nil_r.
  - apply Forall_cons in Hok as [Hp Hok]. rewrite length_app in Hf.
    destruct (piece_step m p fmt _ (concat (argument <$> ps)) o Hs Hp) as (k & t & Hk & Ht & Hstep).
    replace f with (k + (f - k))%nat by lia. rewrite Hstep.
    destruct (IH (fmt + Z.of_nat (length (spell p))) (o ++ t) (f - k)%nat) as (ts & s & E & H2 & Ho & Hl); [|done|lia|].
    { pose proof (cstr_drop _ _ _ (length (spell p)) Hs) as Hd. rewrite drop_app_length in Hd. apply Hd. rewrite length_app. lia. }
    exists (t :: ts), s. split; [done|]. split; [by constructor|]. split; [|done]. by rewrite Ho, <- app_assoc.
Qed.

Lemma vnprintf_spec m fmt (ps : list piece) :
  cstr m fmt (concat (spell <$> ps)) -> Forall (piece_ok m) ps ->
  exists ts, vnprintf m fmt (concat (argument <$> ps)) = Some (concat ts, Z.of_nat (length (concat ts))) /\ Forall2 prints ps ts.
Proof.
  intros Hs Hok. destruct (vnprintf_loop_spec m ps fmt [] (turns m) Hs Hok) as (ts & s & E & H2 & Ho & Hl).
  { by eapply cstr_turns. }
  exists ts. split; [|done]. unfold vnprintf. change (mkState Immediate fmt _ [] 0) with (at_piece fmt (concat (argument <$> ps)) []).
  rewrite E. cbn [mbind option_bind]. rewrite Hl, Ho. done.
Qed.

(** ** Reading back what was printed *)

Lemma digits_all base ds : Forall (λ c, is_digit base c = true) ds -> digits base ds = ds.
Proof. induction 1 as [|c ds Hc _ IH]; cbn; [done|]. by rewrite Hc, IH. Qed.

Lemma digit_plain base c : is_digit base c = true -> base <= 36 -> c ∉ [43; 45] /\ space c = false.
Proof.
  unfold is_digit, digit_of, digit, upper, lower, space, between. intros H%Z.ltb_lt Hb.
  assert (48 <= c) as Hc.
  { repeat match goal with H : context [?x <=? ?y] |- _ => destruct (Z.leb_spec x y); cbn [andb] in *; try lia end. }
  split; [set_solver by lia|]. apply orb_false_iff. split; [|apply Z.eqb_neq; lia].
  apply andb_false_iff. right. apply Z.leb_gt. lia.
Qed.

Lemma spells_spelled m p sg base u ds : is_sign sg -> spells base u ds -> base <= 36 -> cstr m p (sg ++ ds) -> spelled m p [] sg ds.
Proof.
  intros Hsg [Hne Hd _ _] Hb Hs. split; [done|constructor|done|]. intros _. destruct ds as [|c ds]; [done|]. cbn.
  apply Forall_cons in Hd as [Hc _]. change (default 0 (Some c)) with c. by apply (digit_plain base).
Qed.

(** The digits hold no prefix of base 16. *)
Lemma digits_no_lead ds : Forall (λ c, is_digit 16 c = true) ds -> hex_lead ds = false.
Proof.
  destruct ds as [|a [|x [|d ds]]]; try done. intros Hd. apply Forall_cons in Hd as [_ Hd]. apply Forall_cons in Hd as [Hx _].
  cbn. apply andb_false_iff. left. apply andb_false_iff. right. apply orb_false_iff.
  split; apply Z.eqb_neq; intros ->; done.
Qed.

Lemma decimal_parse m p v t : is_s32 v -> decimal v t -> cstr m p t ->
  strtol m p 10 = Some (v, p + Z.of_nat (length t), None) /\ atoi m p = Some v.
Proof.
  intros Hv (ds & -> & Hds) Hs. set (sg := if v <? 0 then [45] else []).
  assert (Hsg : is_sign sg) by (unfold sg, is_sign; destruct (v <? 0); tauto).
  pose proof (spells_spelled _ _ _ _ _ _ Hsg Hds ltac:(lia) Hs) as Hsp. destruct Hds as [Hne Hd Hn _].
  assert (Hneg : negative sg = (v <? 0)) by (unfold sg, negative; by destruct (v <? 0)).
  unfold is_s32 in Hv. split.
  - rewrite (strtol_spec _ _ 10 _ _ _ Hsp ltac:(lia)). unfold signed, number_end, radix, body.
    change (10 =? 0) with false. change (10 =? 16) with false. cbn [orb andb].
    rewrite (digits_all _ _ Hd), Hn, Hneg, bool_decide_false by done.
    assert ((if v <? 0 then - Z.abs v else Z.abs v) = v) as -> by (destruct (Z.ltb_spec v 0); lia).
    assert (clamp v = v) as -> by (unfold clamp, LONG_MIN, LONG_MAX; lia). rewrite bool_decide_true by done.
    rewrite length_app. cbn [length]. do 3 f_equal. lia.
  - destruct (atoi_spec _ _ _ _ _ Hsp) as [-> _]. rewrite (digits_all _ _ Hd), Hn, Hneg, (u32_small (Z.abs v)) by (unfold is_u32; lia).
    f_equal. destruct (Z.ltb_spec v 0); rewrite s32_small by (unfold is_s32; lia); lia.
Qed.

Lemma hex_parse m p u t : is_u32 u -> spells 16 u t -> cstr m p t ->
  strtoul m p 16 = Some (u, p + Z.of_nat (length t), None).
Proof.
  intros Hu Hds Hs. pose proof (spells_spelled _ _ [] _ _ _ ltac:(by left) Hds ltac:(lia) Hs) as Hsp.
  destruct Hds as [Hne Hd Hn _]. rewrite (strtoul_spec _ _ 16 _ _ _ Hsp ltac:(lia)). unfold number_end, radix, body.
  change (16 =? 0) with false. change (16 =? 16) with true. cbn [orb]. rewrite (digits_no_lead _ Hd). cbn [andb]. rewrite (digits_all _ _ Hd), Hn, bool_decide_false by done.
  unfold is_u32 in Hu. unfold ULONG_MAX. rewrite (proj2 (Z.leb_le u _)) by lia. change (negative []) with false. cbv beta iota zeta.
  rewrite Z.min_l, u32_small by (done || lia). cbn [length]. do 3 f_equal. lia.
Qed.

(** Formatted output.  For every format that is made of plain characters,
    escapes and the conversions c, d, ld, x, lx, p and s, with arguments of the
    range of their types (the least [int] excepted), [vnprintf] reads no argument twice or too many, ends,
    writes the texts of the pieces one after another, and returns how many
    characters it wrote: a decimal conversion writes the sign and the shortest
    digits of its argument, a hexadecimal one the shortest digits. *)
Theorem vnprintf_pieces m fmt (ps : list piece) :
  cstr m fmt (concat (spell <$> ps)) -> Forall (piece_ok m) ps ->
  exists ts, vnprintf m fmt (concat (argument <$> ps)) = Some (concat ts, Z.of_nat (length (concat ts))) /\ Forall2 prints ps ts.
Proof. apply vnprintf_spec. Qed.

(** "%d: %s\n" with -12 and "ok" *)
Definition demo_format : cmem :=
  put (put ∅ 32 ([111; 107] ++ [0])) 64 ([37; 100; 58; 32; 37; 115; 92; 110] ++ [0]).
Definition demo_pieces : list piece := [Dec false (-12); Lit 58; Lit 32; Str 32 [111; 107]; Esc 110].

Lemma demo_format_ok : cstr demo_format 64 (concat (spell <$> demo_pieces)).
Proof. apply cstr_put; unfold is_char; repeat constructor; lia. Qed.

Lemma demo_string_ok : cstr demo_format 32 [111; 107].
Proof. split; [by vm_compute|unfold is_char; repeat constructor; lia]. Qed.

Lemma vnprintf_pieces_witness : exists ts,
  vnprintf demo_format 64 [-12; 32] = Some (concat ts, Z.of_nat (length (concat ts))) /\ Forall2 prints demo_pieces ts.
Proof.
  apply (vnprintf_pieces demo_format 64 demo_pieces demo_format_ok).
  repeat constructor; try done; unfold is_char; try lia.
Defined.

(** C37: printing and reading are inverse.  What [vnprintf] writes for "%d" is
    read back by [strtol] in base 10 and by [atoi], and what it writes for "%x"
    by [strtoul] in base 16: the same number, the whole text consumed, and no
    error, for every [int] but the least, whose negation overflows in [_putd],
    and every [unsigned int]. *)
Theorem print_parse_roundtrip m fmt v u :
  cstr m fmt [37; 100] -> is_int v -> is_u32 u ->
  (exists t, vnprintf m fmt [v] = Some (t, Z.of_nat (length t)) /\ forall m' p, cstr m' p t ->
    strtol m' p 10 = Some (v, p + Z.of_nat (length t), None) /\ atoi m' p = Some v) /\
  (forall m fmt, cstr m fmt [37; 120] ->
    exists t, vnprintf m fmt [u] = Some (t, Z.of_nat (length t)) /\ forall m' p, cstr m' p t ->
    strtoul m' p 16 = Some (u, p + Z.of_nat (length t), None)).
Proof.
  intros Hf Hv Hu. split.
  - destruct (vnprintf_spec m fmt [Dec false v] Hf (proj2 (Forall_singleton (piece_ok m) (Dec false v)) Hv)) as (ts & E & H2).
    apply Forall2_cons_inv_l in H2 as (t & ts' & Ht & Hts%Forall2_nil_inv_l & ->). subst ts'. cbn [concat] in E. rewrite app_nil_r in E.
    exists t. split; [done|]. intros m' p Hs. by apply decimal_parse; [apply is_int_s32|..].
  - clear m fmt Hf. intros m fmt Hf. destruct (vnprintf_spec m fmt [Hex false u] Hf (proj2 (Forall_singleton (piece_ok m) (Hex false u)) Hu)) as (ts & E & H2).
    apply Forall2_cons_inv_l in H2 as (t & ts' & Ht & Hts%Forall2_nil_inv_l & ->). subst ts'. cbn [concat] in E. rewrite app_nil_r in E.
    exists t. split; [done|]. intros m' p Hs. by apply hex_parse.
Qed.

Lemma demo_percent_ok : cstr (put ∅ 64 ([37; 100] ++ [0])) 64 [37; 100].
Proof. apply cstr_put; unfold is_char; repeat constructor; lia. Qed.

Lemma print_parse_roundtrip_witness : exists t,
  vnprintf (put ∅ 64 ([37; 100] ++ [0])) 64 [-2147483647] = Some (t, Z.of_nat (length t)) /\ forall m' p, cstr m' p t ->
    strtol m' p 10 = Some (-2147483647, p + Z.of_nat (length t), None) /\ atoi m' p = Some (-2147483647).
Proof.
  refine (proj1 (print_parse_roundtrip _ 64 (-2147483647) 0 demo_percent_ok _ _)); unfold is_int, is_u32; lia.
Defined.

(** The least [int] cannot be printed: [-v] overflows. *)
Lemma _putd_least s : _putd (- 2 ^ 31) s = None.
Proof. reflexivity. Qed.

(** A format that ends in "%l": the terminator is taken for the conversion, and
    what lies behind the format is read; here there is nothing. *)
Lemma vnprintf_percent_l : vnprintf (put ∅ 64 ([37; 108] ++ [0])) 64 [] = None.
Proof. vm_compute. reflexivity. Qed.
