(* ===== verification/Utf8.v ===== *)
(** * Characters of several bytes (lib/libc/stdlib: mbtowc, mblen, wctomb, mbstowcs, wcstombs)

    The conversions between UTF-8 and UTF-32, against the encoding of a code
    point: the decoder takes exactly the shortest encodings, never reads behind
    the end of a string, and undoes the encoder.

    Wide characters live in a memory of their own, addressed by element: the
    parameters of the functions are [restrict]. *)

From S2P Require Import Prelude CMem.

#[local] Ltac Zify.zify_post_hook ::= Z.to_euclidean_division_equations.

Notation wmem := (gmap Z Z).

Definition put32 (w : wmem) (p v : Z) : option wmem :=
  match w !! p with Some _ => Some (<[p := v]> w) | None => None end.

Definition MB_CUR_MAX : Z := 4.

(** ** The code *)

Fixpoint append_body (m : cmem) (ch p : Z) (n : nat) : option Z :=
  match n with
  | O => Some ch
  | S n =>
      b ← get8 m (p + 1);
      if negb (Z.shiftr b 6 =? 0x2) then Some 0
      else append_body m (Z.lor (Z.shiftl ch 6) (Z.land b 0x3f)) (p + 1) n
  end.

(** The result, and what is stored through [w]. *)
Definition _mbtowc (m : cmem) (r n : Z) : option (Z * option Z) :=
  b ← get8 m r;
  if Z.shiftr b 7 =? 0 then Some (if b =? 0 then 0 else 1, Some b)
  else if Z.shiftr b 5 =? 0x6 then
    if n <? 2 then Some (-1, None)
    else ch ← append_body m (Z.land b 0x1f) r 1; if ch <=? 0x7f then Some (-1, None) else Some (2, Some ch)
  else if Z.shiftr b 4 =? 0xe then
    if n <? 3 then Some (-1, None)
    else ch ← append_body m (Z.land b 0xf) r 2; if ch <=? 0x7ff then Some (-1, None) else Some (3, Some ch)
  else if Z.shiftr b 3 =? 0x1e then
    if n <? 4 then Some (-1, None)
    else ch ← append_body m (Z.land b 0x7) r 3;
         if (ch <=? 0xffff) || (0x10ffff <? ch) then Some (-1, None) else Some (4, Some ch)
  else Some (-1, None).

Definition _mblen (m : cmem) (r n : Z) : option Z :=
  b ← get8 m r;
  if Z.shiftr b 7 =? 0 then Some (if b =? 0 then 0 else 1)
  else if Z.shiftr b 5 =? 0x6 then
    if n <? 2 then Some (-1)
    else ch ← append_body m (Z.land b 0x1f) r 1; if ch <=? 0x7f then Some (-1) else Some 2
  else if Z.shiftr b 4 =? 0xe then
    if n <? 3 then Some (-1)
    else ch ← append_body m (Z.land b 0xf) r 2; if ch <=? 0x7ff then Some (-1) else Some 3
  else if Z.shiftr b 3 =? 0x1e then
    if n <? 4 then Some (-1)
    else ch ← append_body m (Z.land b 0x7) r 3; if (ch <=? 0xffff) || (0x10ffff <? ch) then Some (-1) else Some 4
  else Some (-1).

Definition mblen (m : cmem) (s n : Z) : option Z :=
  if s =? 0 then Some 0 else if n =? 0 then Some 0 else _mblen m s n.

Definition store (w : wmem) (p : Z) (o : option Z) : option wmem :=
  match o with Some v => put32 w p v | None => Some w end.

Definition mbtowc (w : wmem) (m : cmem) (pwc s n : Z) : option (Z * wmem) :=
  if pwc =? 0 then k ← mblen m s n; Some (k, w)
  else if s =? 0 then Some (0, w)
  else if n =? 0 then Some (0, w)
  else '(k, o) ← _mbtowc m s n; w ← store w pwc o; Some (k, w).

Definition _wctomb (m : cmem) (dest ch : Z) : option (Z * cmem) :=
  if ch <=? 0x7f then
    m ← put8 m dest (Z.land ch 0x7f); Some (1, m)
  else if ch <=? 0x7ff then
    m ← put8 m dest (Z.lor 0xc0 (Z.shiftr ch 6));
    m ← put8 m (dest + 1) (Z.lor 0x80 (Z.land ch 0x3f)); Some (2, m)
  else if ch <=? 0xffff then
    m ← put8 m dest (Z.lor 0xe0 (Z.shiftr ch 12));
    m ← put8 m (dest + 1) (Z.lor 0x80 (Z.land (Z.shiftr ch 6) 0x3f));
    m ← put8 m (dest + 2) (Z.lor 0x80 (Z.land ch 0x3f)); Some (3, m)
  else if ch <=? 0x10ffff then
    m ← put8 m dest (Z.lor 0xf0 (Z.shiftr ch 18));
    m ← put8 m (dest + 1) (Z.lor 0x80 (Z.land (Z.shiftr ch 12) 0x3f));
    m ← put8 m (dest + 2) (Z.lor 0x80 (Z.land (Z.shiftr ch 6) 0x3f));
    m ← put8 m (dest + 3) (Z.lor 0x80 (Z.land ch 0x3f)); Some (4, m)
  else Some (-1, m).

Definition wctomb (m : cmem) (s wchar : Z) : option (Z * cmem) :=
  if negb (s =? 0) then _wctomb m s wchar else Some (0, m).

Fixpoint mbstowcs_loop (k : nat) (w : wmem) (m : cmem) (pwcs s len : Z) : option (Z * wmem) :=
  match k with
  | O => Some (len, w)
  | S k =>
      '(c, o) ← _mbtowc m s MB_CUR_MAX;
      w ← store w pwcs o;
      if c <=? 0 then Some (if c <? 0 then u32 (-1) else len, w)
      else mbstowcs_loop k w m (pwcs + 1) (s + c) (len + 1)
  end.

Fixpoint mbscount_loop (k : nat) (m : cmem) (s len : Z) : option Z :=
  match k with
  | O => Some len
  | S k =>
      c ← _mblen m s MB_CUR_MAX;
      if c <=? 0 then Some (if c <? 0 then u32 (-1) else len)
      else mbscount_loop k m (s + c) (len + 1)
  end.

(** [len] goes up to [n], so the loops make at most [n] turns. *)
Definition mbstowcs (w : wmem) (m : cmem) (pwcs s n : Z) : option (Z * wmem) :=
  if negb (pwcs =? 0) then mbstowcs_loop (Z.to_nat n) w m pwcs s 0
  else len ← mbscount_loop (Z.to_nat n) m s 0; Some (len, w).

Definition count (ch : Z) : Z :=
  if ch <=? 0x7f then 1 else if ch <=? 0x7ff then 2 else if ch <=? 0xffff then 3
  else if ch <=? 0x10ffff then 4 else -1.

(** The automatic array [buf]: four bytes of their own. *)
Definition wctomb_buf (ch : Z) : option (Z * list Z) :=
  '(k, b) ← _wctomb (put ∅ 0 [0; 0; 0; 0]) 0 ch;
  b0 ← get8 b 0; b1 ← get8 b 1; b2 ← get8 b 2; b3 ← get8 b 3;
  Some (k, [b0; b1; b2; b3]).

(** [memcpy] out of that array. *)
Fixpoint copy_buf (m : cmem) (s : Z) (l : list Z) : option cmem :=
  match l with [] => Some m | b :: l => m ← put8 m s b; copy_buf m (s + 1) l end.

Fixpoint wcstombs_loop (f : nat) (m : cmem) (w : wmem) (s pwcs n left : Z) : option (Z * cmem) :=
  match f with
  | O => None
  | S f =>
      c ← w !! pwcs;
      if c =? 0 then m ← put8 m s 0; Some (n - left, m)
      else if MB_CUR_MAX <=? left then
        '(k, m) ← _wctomb m s c;
        if k <? 0 then Some (u32 k, m) else wcstombs_loop f m w (s + k) (pwcs + 1) n (left - k)
      else
        '(k, buf) ← wctomb_buf c;
        if k <? 0 then Some (u32 k, m)
        else if left <? k then m ← copy_buf m s (take (Z.to_nat left) buf); Some (n, m)
        else m ← copy_buf m s (take (Z.to_nat k) buf); wcstombs_loop f m w (s + k) (pwcs + 1) n (left - k)
  end.

Fixpoint wcscount_loop (f : nat) (w : wmem) (pwcs len : Z) : option Z :=
  match f with
  | O => None
  | S f =>
      c ← w !! pwcs;
      if c =? 0 then Some len
      else let k := count c in if k <? 0 then Some (u32 k) else wcscount_loop f w (pwcs + 1) (u32 (len + k))
  end.

Definition wcstombs (m : cmem) (w : wmem) (s pwcs n : Z) : option (Z * cmem) :=
  if negb (s =? 0) then wcstombs_loop (turns w) m w s pwcs n n
  else len ← wcscount_loop (turns w) w pwcs 0; Some (len, m).

(** ** The encoding *)

(** A code point other than zero. *)
Definition code (ch : Z) : Prop := 0 < ch <= 0x10ffff.

Definition utf8 (ch : Z) : list Z :=
  if ch <=? 0x7f then [ch]
  else if ch <=? 0x7ff then [192 + ch / 64; 128 + ch mod 64]
  else if ch <=? 0xffff then [224 + ch / 4096; 128 + ch / 64 mod 64; 128 + ch mod 64]
  else [240 + ch / 262144; 128 + ch / 4096 mod 64; 128 + ch / 64 mod 64; 128 + ch mod 64].

Definition utf8s (cs : list Z) : list Z := concat (utf8 <$> cs).

Lemma lor_head k a b : 0 <= k -> 0 <= b < 2 ^ k -> Z.lor (a * 2 ^ k) b = a * 2 ^ k + b.
Proof. intros Hk Hb. rewrite <- (Z.shiftl_mul_pow2 a k) at 1 by done. by apply lor_shiftl_add. Qed.

Lemma append_step m ch p n b : m !! (p + 1) = Some b -> 0 <= ch ->
  append_body m ch p (S n) = if b / 64 =? 2 then append_body m (ch * 64 + b mod 64) (p + 1) n else Some 0.
Proof.
  intros Hb Hch. cbn [append_body]. unfold get8. rewrite Hb. cbn [mbind option_bind].
  rewrite Z.shiftr_div_pow2 by lia. change (2 ^ 6) with 64. change 0x3f with (Z.ones 6). rewrite Z.land_ones by lia.
  rewrite lor_shiftl_add by (lia || apply Z.mod_pos_bound; lia). change (2 ^ 6) with 64. by destruct (b / 64 =? 2).
Qed.

Lemma mbtowc_head m r b n : m !! r = Some b -> 0 <= b < 256 ->
  _mbtowc m r n =
    if b <? 128 then Some (if b =? 0 then 0 else 1, Some b)
    else if (192 <=? b) && (b <? 224) then
      if n <? 2 then Some (-1, None)
      else ch ← append_body m (b - 192) r 1; if ch <=? 0x7f then Some (-1, None) else Some (2, Some ch)
    else if (224 <=? b) && (b <? 240) then
      if n <? 3 then Some (-1, None)
      else ch ← append_body m (b - 224) r 2; if ch <=? 0x7ff then Some (-1, None) else Some (3, Some ch)
    else if (240 <=? b) && (b <? 248) then
      if n <? 4 then Some (-1, None)
      else ch ← append_body m (b - 240) r 3;
           if (ch <=? 0xffff) || (0x10ffff <? ch) then Some (-1, None) else Some (4, Some ch)
    else Some (-1, None).
Proof.
  intros Hb Hr. unfold _mbtowc, get8. rewrite Hb. cbn [mbind option_bind].
  rewrite !Z.shiftr_div_pow2 by lia. change (2 ^ 7) with 128. change (2 ^ 5) with 32. change (2 ^ 4) with 16. change (2 ^ 3) with 8.
  change 0x1f with (Z.ones 5). change 0xf with (Z.ones 4). change 0x7 with (Z.ones 3). rewrite !Z.land_ones by lia.
  change (2 ^ 5) with 32. change (2 ^ 4) with 16. change (2 ^ 3) with 8.
  destruct (Z.ltb_spec b 128); [by rewrite (proj2 (Z.eqb_eq _ _)) by lia|]. rewrite (proj2 (Z.eqb_neq (b / 128) 0)) by lia.
  destruct (Z.leb_spec 192 b), (Z.ltb_spec b 224); cbn [andb]; try lia.
  - rewrite (proj2 (Z.eqb_eq (b / 32) 6)) by lia. by replace (b mod 32) with (b - 192) by lia.
  - rewrite (proj2 (Z.eqb_neq (b / 32) 6)) by lia.
    destruct (Z.leb_spec 224 b), (Z.ltb_spec b 240); cbn [andb]; try lia.
    + rewrite (proj2 (Z.eqb_eq (b / 16) 14)) by lia. by replace (b mod 16) with (b - 224) by lia.
    + rewrite (proj2 (Z.eqb_neq (b / 16) 14)) by lia.
      destruct (Z.leb_spec 240 b), (Z.ltb_spec b 248); cbn [andb]; try lia.
      * rewrite (proj2 (Z.eqb_eq (b / 8) 30)) by lia. by replace (b mod 8) with (b - 240) by lia.
      * by rewrite (proj2 (Z.eqb_neq (b / 8) 30)) by lia.
  - rewrite (proj2 (Z.eqb_neq (b / 32) 6)) by lia. rewrite (proj2 (Z.leb_gt 224 b)), (proj2 (Z.leb_gt 240 b)) by lia. cbn [andb].
    rewrite (proj2 (Z.eqb_neq (b / 16) 14)), (proj2 (Z.eqb_neq (b / 8) 30)) by lia. done.
Qed.

(** The decoder takes every encoding. *)
Lemma _mbtowc_complete m r ch n : code ch -> bytes_at m r (utf8 ch) -> Z.of_nat (length (utf8 ch)) <= n ->
  _mbtowc m r n = Some (Z.of_nat (length (utf8 ch)), Some ch).
Proof.
  unfold code, utf8. intros Hc Hb Hn.
  destruct (Z.leb_spec ch 0x7f); [|destruct (Z.leb_spec ch 0x7ff); [|destruct (Z.leb_spec ch 0xffff)]]; cbn [bytes_at length] in *.
  - destruct Hb as [Hb _]. rewrite (mbtowc_head _ _ _ _ Hb) by lia. rewrite (proj2 (Z.ltb_lt ch 128)), (proj2 (Z.eqb_neq ch 0)) by lia.
    done.
  - destruct Hb as (Hb0 & Hb1 & _). rewrite (mbtowc_head _ _ _ _ Hb0) by lia.
    rewrite (proj2 (Z.ltb_ge _ 128)), (proj2 (Z.leb_le 192 _)), (proj2 (Z.ltb_lt _ 224)), (proj2 (Z.ltb_ge n 2)) by lia. cbn [andb].
    rewrite (append_step _ _ _ _ _ Hb1), (proj2 (Z.eqb_eq _ 2)) by lia. cbn [append_body mbind option_bind].
    replace (_ * 64 + _) with ch by lia. by rewrite (proj2 (Z.leb_gt ch 0x7f)) by lia.
  - destruct Hb as (Hb0 & Hb1 & Hb2 & _). rewrite (mbtowc_head _ _ _ _ Hb0) by lia.
    rewrite (proj2 (Z.ltb_ge _ 128)), (proj2 (Z.leb_le 192 _)), (proj2 (Z.ltb_ge _ 224)), (proj2 (Z.leb_le 224 _)),
      (proj2 (Z.ltb_lt _ 240)), (proj2 (Z.ltb_ge n 3)) by lia. cbn [andb].
    rewrite (append_step _ _ _ _ _ Hb1), (proj2 (Z.eqb_eq _ 2)) by lia.
    rewrite (append_step _ _ _ _ _ Hb2), (proj2 (Z.eqb_eq _ 2)) by lia. cbn [append_body mbind option_bind].
    replace (_ * 64 + _) with ch by lia. by rewrite (proj2 (Z.leb_gt ch 0x7ff)) by lia.
  - destruct Hb as (Hb0 & Hb1 & Hb2 & Hb3 & _). rewrite (mbtowc_head _ _ _ _ Hb0) by lia.
    rewrite (proj2 (Z.ltb_ge _ 128)), (proj2 (Z.leb_le 192 _)), (proj2 (Z.ltb_ge _ 224)), (proj2 (Z.leb_le 224 _)),
      (proj2 (Z.ltb_ge _ 240)), (proj2 (Z.leb_le 240 _)), (proj2 (Z.ltb_lt _ 248)), (proj2 (Z.ltb_ge n 4)) by lia. cbn [andb].
    rewrite (append_step _ _ _ _ _ Hb1), (proj2 (Z.eqb_eq _ 2)) by lia.
    rewrite (append_step _ _ _ _ _ Hb2), (proj2 (Z.eqb_eq _ 2)) by lia.
    rewrite (append_step _ _ _ _ _ Hb3), (proj2 (Z.eqb_eq _ 2)) by lia. cbn [append_body mbind option_bind].
    replace (_ * 64 + _) with ch by lia. by rewrite (proj2 (Z.leb_gt ch 0xffff)), (proj2 (Z.ltb_ge 0x10ffff ch)) by lia.
Qed.

(** A byte that continues a character, or the end of the attempt. *)
Lemma append_one m ch r l n : cstr m (r + 1) l -> 0 <= ch ->
  append_body m ch r (S n) = Some 0 \/
  exists y l', l = y :: l' /\ 128 <= y < 192 /\ cstr m (r + 1 + 1) l' /\
    append_body m ch r (S n) = append_body m (ch * 64 + (y - 128)) (r + 1) n.
Proof.
  intros Hl Hch. destruct l as [|y l].
  - apply cstr_nil in Hl. left. by rewrite (append_step _ _ _ _ _ Hl) by done.
  - apply cstr_cons in Hl as (Hy & Hc & Hl). unfold is_char in Hc. rewrite (append_step _ _ _ _ _ Hy) by done.
    destruct (Z.eqb_spec (y / 64) 2); [right|by left]. exists y, l. split; [done|]. split; [lia|]. split; [done|].
    by replace (y mod 64) with (y - 128) by lia.
Qed.

Definition decodes (l : list Z) (k : Z) (o : option Z) : Prop :=
  (l = [] /\ k = 0 /\ o = Some 0) \/
  (l ≠ [] /\ k = -1 /\ o = None) \/
  exists ch l', code ch /\ l = utf8 ch ++ l' /\ k = Z.of_nat (length (utf8 ch)) /\ o = Some ch.

(** What it takes is an encoding. *)
Lemma _mbtowc_sound m r l : cstr m r l -> exists k o, _mbtowc m r MB_CUR_MAX = Some (k, o) /\ decodes l k o.
Proof.
  intros Hl. unfold decodes. destruct l as [|b l].
  { apply cstr_nil in Hl. rewrite (mbtowc_head _ _ _ _ Hl) by lia. eexists _, _. split; [done|]. by left. }
  apply cstr_cons in Hl as (Hb & Hc & Hl). unfold is_char in Hc. rewrite (mbtowc_head _ _ _ _ Hb) by lia.
  change (MB_CUR_MAX <? 2) with false. change (MB_CUR_MAX <? 3) with false. change (MB_CUR_MAX <? 4) with false.
  assert (Hbad : exists k o, Some (-1, None) = Some (k, o) /\ decodes (b :: l) k o).
  { exists (-1), None. split; [done|]. right. left. done. }
  assert (Hgood : forall k ch l', code ch -> b :: l = utf8 ch ++ l' -> k = Z.of_nat (length (utf8 ch)) ->
    exists k0 o, Some (k, Some ch) = Some (k0, o) /\ decodes (b :: l) k0 o).
  { intros k ch l' H1 H2 H3. exists k, (Some ch). split; [done|]. right. right. by exists ch, l'. }
  fold (decodes (b :: l)). destruct (Z.ltb_spec b 128).
  { rewrite (proj2 (Z.eqb_neq b 0)) by lia. apply (Hgood _ _ l); unfold code, utf8; try lia; by rewrite (proj2 (Z.leb_le b _)) by lia. }
  destruct ((192 <=? b) && (b <? 224)) eqn:E2; [|destruct ((224 <=? b) && (b <? 240)) eqn:E3; [|destruct ((240 <=? b) && (b <? 248)) eqn:E4; [|done]]].
  - apply andb_prop in E2 as [?%Z.leb_le ?%Z.ltb_lt].
    destruct (append_one m (b - 192) r l 0 Hl ltac:(lia)) as [->|(y & l1 & -> & Hy & _ & ->)]; [done|].
    cbn [append_body mbind option_bind]. destruct (Z.leb_spec ((b - 192) * 64 + (y - 128)) 0x7f); [done|].
    apply (Hgood _ _ l1); unfold code, utf8; [lia| |]; rewrite (proj2 (Z.leb_gt _ 0x7f)), (proj2 (Z.leb_le _ 0x7ff)) by lia; [|done].
    cbn [app]. f_equal; [lia|f_equal; lia].
  - apply andb_prop in E3 as [?%Z.leb_le ?%Z.ltb_lt].
    destruct (append_one m (b - 224) r l 1 Hl ltac:(lia)) as [->|(y & l1 & -> & Hy & Hl1 & ->)]; [done|].
    destruct (append_one m ((b - 224) * 64 + (y - 128)) _ l1 0 Hl1 ltac:(lia)) as [->|(z & l2 & -> & Hz & _ & ->)]; [done|].
    cbn [append_body mbind option_bind]. set (ch := _ * 64 + (z - 128)). destruct (Z.leb_spec ch 0x7ff); [done|].
    apply (Hgood _ _ l2); unfold code, utf8; [lia| |];
      rewrite (proj2 (Z.leb_gt _ 0x7f)), (proj2 (Z.leb_gt _ 0x7ff)), (proj2 (Z.leb_le _ 0xffff)) by lia; [|done].
    cbn [app]. f_equal; [lia|f_equal; [lia|f_equal; lia]].
  - apply andb_prop in E4 as [?%Z.leb_le ?%Z.ltb_lt].
    destruct (append_one m (b - 240) r l 2 Hl ltac:(lia)) as [->|(y & l1 & -> & Hy & Hl1 & ->)]; [done|].
    destruct (append_one m ((b - 240) * 64 + (y - 128)) _ l1 1 Hl1 ltac:(lia)) as [->|(z & l2 & -> & Hz & Hl2 & ->)]; [done|].
    destruct (append_one m (((b - 240) * 64 + (y - 128)) * 64 + (z - 128)) _ l2 0 Hl2 ltac:(lia)) as [->|(x & l3 & -> & Hx & _ & ->)]; [done|].
    cbn [append_body mbind option_bind]. set (ch := _ * 64 + (x - 128)).
    destruct (Z.leb_spec ch 0xffff); [done|]. destruct (Z.ltb_spec 0x10ffff ch); [done|]. cbn [orb].
    apply (Hgood _ _ l3); unfold code, utf8; [lia| |];
      rewrite (proj2 (Z.leb_gt _ 0x7f)), (proj2 (Z.leb_gt _ 0x7ff)), (proj2 (Z.leb_gt _ 0xffff)) by lia; [|done].
    cbn [app]. f_equal; [lia|f_equal; [lia|f_equal; [lia|f_equal; lia]]].
Qed.

Lemma utf8_length ch : code ch -> (1 <= length (utf8 ch) <= 4)%nat.
Proof. intros _. unfold utf8. repeat destruct (_ <=? _); cbn; lia. Qed.

Lemma utf8_bytes ch : code ch -> Forall is_char (utf8 ch).
Proof.
  unfold code, utf8, is_char. intros Hc.
  destruct (Z.leb_spec ch 0x7f); [|destruct (Z.leb_spec ch 0x7ff); [|destruct (Z.leb_spec ch 0xffff)]];
    repeat constructor; lia.
Qed.

(** The three outcomes exclude one another. *)
Lemma _mbtowc_spec m r l : cstr m r l ->
  (exists ch l', code ch /\ l = utf8 ch ++ l' /\ _mbtowc m r MB_CUR_MAX = Some (Z.of_nat (length (utf8 ch)), Some ch)) \/
  (forall ch l', code ch -> l ≠ utf8 ch ++ l') /\
    _mbtowc m r MB_CUR_MAX = Some (if bool_decide (l = []) then (0, Some 0) else (-1, None)).
Proof.
  intros Hl. destruct (_mbtowc_sound m r l Hl) as (k & o & E & H). rewrite E.
  destruct H as [(-> & -> & ->)|[(Hne & -> & ->)|(ch & l' & Hc & -> & -> & ->)]].
  - right. split; [|done]. intros ch l' Hc%utf8_length. destruct (utf8 ch); cbn in *; [lia|done].
  - right. rewrite bool_decide_false by done. split; [|done]. intros ch l' Hc ->. destruct Hl as [Hb _].
    rewrite <- app_assoc, bytes_at_app in Hb. destruct Hb as [Hb _].
    rewrite (_mbtowc_complete _ _ ch) in E by (done || (pose proof (utf8_length ch Hc); unfold MB_CUR_MAX; lia)). done.
  - left. by exists ch, l'.
Qed.

(** [mblen] is [mbtowc] without the store. *)
Lemma _mblen_spec m r n : _mblen m r n = (fst <$> _mbtowc m r n).
Proof.
  unfold _mblen, _mbtowc. destruct (get8 m r) as [b|]; [|done]. cbn [mbind option_bind].
  destruct (Z.shiftr b 7 =? 0); [by destruct (b =? 0)|]. destruct (Z.shiftr b 5 =? 0x6); [|destruct (Z.shiftr b 4 =? 0xe);
    [|destruct (Z.shiftr b 3 =? 0x1e); [|done]]]; (destruct (n <? _); [done|]);
    (destruct (append_body _ _ _ _) as [ch|]; [|done]); cbn [mbind option_bind].
  - by destruct (ch <=? 0x7f).
  - by destruct (ch <=? 0x7ff).
  - by destruct ((ch <=? 0xffff) || (0x10ffff <? ch)).
Qed.

(** ** Encoding *)

Lemma put32_room w p n a v : room w p n -> p <= a < p + n -> put32 w a v = Some (<[a := v]> w).
Proof. intros Hr Ha. unfold put32. by destruct (Hr a Ha) as [? ->]. Qed.

Lemma room_insert (m : cmem) a v p n : room m p n -> room (<[a := v]> m) p n.
Proof. apply (room_put m a [v]). Qed.

Lemma lor_tail x : 0 <= x -> Z.lor 0x80 (Z.land x 0x3f) = 128 + x mod 64.
Proof.
  intros Hx. change 0x3f with (Z.ones 6). rewrite Z.land_ones by lia. change 0x80 with (2 * 2 ^ 6).
  rewrite lor_head by (lia || apply Z.mod_pos_bound; lia). done.
Qed.

Lemma _wctomb_spec m d ch : code ch -> room m d (Z.of_nat (length (utf8 ch))) ->
  _wctomb m d ch = Some (Z.of_nat (length (utf8 ch)), put m d (utf8 ch)).
Proof.
  unfold code, utf8, _wctomb. intros Hc Hr.
  assert (H6 : Z.shiftr ch 6 = ch / 64) by (by rewrite Z.shiftr_div_pow2 by lia).
  assert (H12 : Z.shiftr ch 12 = ch / 4096) by (by rewrite Z.shiftr_div_pow2 by lia).
  assert (H18 : Z.shiftr ch 18 = ch / 262144) by (by rewrite Z.shiftr_div_pow2 by lia).
  rewrite H6, H12, H18. clear H6 H12 H18.
  destruct (Z.leb_spec ch 0x7f); [|destruct (Z.leb_spec ch 0x7ff); [|destruct (Z.leb_spec ch 0xffff)]]; cbn [length put] in *.
  - change 0x7f with (Z.ones 7). rewrite Z.land_ones, Z.mod_small by lia.
    rewrite (put8_room _ _ _ _ _ Hr) by (unfold is_byte; lia). done.
  - rewrite lor_tail by lia. change 0xc0 with (6 * 2 ^ 5). rewrite lor_head by lia. change (6 * 2 ^ 5) with 192.
    rewrite (put8_room _ _ _ _ _ Hr) by (unfold is_byte; lia). cbn [mbind option_bind].
    rewrite (put8_room _ d 2) by (first [unfold is_byte; lia|repeat apply room_insert; apply Hr]). done.
  - rewrite !lor_tail by lia. change 0xe0 with (14 * 2 ^ 4). rewrite lor_head by lia. change (14 * 2 ^ 4) with 224.
    rewrite (put8_room _ _ _ _ _ Hr) by (unfold is_byte; lia). cbn [mbind option_bind].
    rewrite (put8_room _ d 3) by (first [unfold is_byte; lia|repeat apply room_insert; apply Hr]). cbn [mbind option_bind].
    rewrite (put8_room _ d 3) by (first [unfold is_byte; lia|repeat apply room_insert; apply Hr]). cbn [mbind option_bind].
    by replace (d + 1 + 1) with (d + 2) by lia.
  - rewrite (proj2 (Z.leb_le ch 0x10ffff)) by lia. rewrite !lor_tail by lia. change 0xf0 with (30 * 2 ^ 3). rewrite lor_head by lia.
    change (30 * 2 ^ 3) with 240.
    rewrite (put8_room _ _ _ _ _ Hr) by (unfold is_byte; lia). cbn [mbind option_bind].
    rewrite (put8_room _ d 4) by (first [unfold is_byte; lia|repeat apply room_insert; apply Hr]). cbn [mbind option_bind].
    rewrite (put8_room _ d 4) by (first [unfold is_byte; lia|repeat apply room_insert; apply Hr]). cbn [mbind option_bind].
    rewrite (put8_room _ d 4) by (first [unfold is_byte; lia|repeat apply room_insert; apply Hr]). cbn [mbind option_bind].
    by replace (d + 1 + 1 + 1) with (d + 3) by lia; replace (d + 1 + 1) with (d + 2) by lia.
Qed.

(** ** Strings *)

(** [cs] is what is decoded of [l] in at most [n] characters, [rest] what is left. *)
Record decoding (n : nat) (l cs rest : list Z) : Prop := {
  dc_codes : Forall code cs;
  dc_text : l = utf8s cs ++ rest;
  dc_len : (length cs <= n)%nat;
  dc_max : (length cs < n)%nat -> forall ch l', code ch -> rest ≠ utf8 ch ++ l';
}.

Definition malformed (n : nat) (cs rest : list Z) : bool := bool_decide ((length cs < n)%nat /\ rest ≠ []).
Definition ended (n : nat) (cs rest : list Z) : bool := bool_decide ((length cs < n)%nat /\ rest = []).

Lemma decoding_cons n l ch cs rest : code ch -> decoding n l cs rest -> decoding (S n) (utf8 ch ++ l) (ch :: cs) rest.
Proof.
  intros Hc [H1 -> H3 H4]. split; [by constructor|by cbn; rewrite <- app_assoc|cbn; lia|]. cbn. intros Hn. apply H4. lia.
Qed.

Lemma malformed_cons n ch cs rest : malformed (S n) (ch :: cs) rest = malformed n cs rest.
Proof. unfold malformed. cbn [length]. apply bool_decide_ext. rewrite <- Nat.succ_lt_mono. done. Qed.

Lemma ended_cons n ch cs rest : ended (S n) (ch :: cs) rest = ended n cs rest.
Proof. unfold ended. cbn [length]. apply bool_decide_ext. rewrite <- Nat.succ_lt_mono. done. Qed.

Lemma mbstowcs_loop_spec k m : forall w p s l len, cstr m s l -> room w p (Z.of_nat k) ->
  exists cs rest, decoding k l cs rest /\
    mbstowcs_loop k w m p s len =
      Some (if malformed k cs rest then u32 (-1) else len + Z.of_nat (length cs), put w p (cs ++ if ended k cs rest then [0] else [])) /\
    mbscount_loop k m s len = Some (if malformed k cs rest then u32 (-1) else len + Z.of_nat (length cs)).
Proof.
  induction k as [|k IH]; intros w p s l len Hl Hr; cbn [mbstowcs_loop mbscount_loop].
  { exists [], l. split; [split; [constructor|done|cbn; lia|cbn; lia]|]. unfold malformed, ended.
    rewrite !bool_decide_false by (cbn; lia). cbn. by rewrite Z.add_0_r. }
  rewrite _mblen_spec. destruct (_mbtowc_spec m s l Hl) as [(ch & l' & Hc & -> & E)|[Hno E]]; rewrite E; cbn [fmap option_fmap option_map mbind option_bind fst].
  - pose proof (utf8_length ch Hc) as Hlen. cbn [store]. rewrite (put32_room _ _ _ _ _ Hr) by lia. cbn [mbind option_bind].
    rewrite (proj2 (Z.leb_gt _ 0)) by lia.
    destruct (IH (<[p := ch]> w) (p + 1) (s + Z.of_nat (length (utf8 ch))) l' (len + 1)) as (cs & rest & Hd & E1 & E2).
    { pose proof (cstr_drop _ _ _ (length (utf8 ch)) Hl) as Hdrop. rewrite drop_app_length in Hdrop. apply Hdrop. rewrite length_app. lia. }
    { apply room_insert. eapply room_sub; [exact Hr|lia|lia]. }
    exists (ch :: cs), rest. split; [by apply decoding_cons|]. rewrite E1, E2, malformed_cons, ended_cons. cbn [length app put].
    by replace (len + 1 + Z.of_nat (length cs)) with (len + Z.of_nat (S (length cs))) by lia.
  - exists [], l. split; [split; [constructor|done|cbn; lia|by intros _]|]. unfold malformed, ended. cbn [length].
    case_bool_decide as He.
    + rewrite (bool_decide_false (_ /\ l ≠ [])), bool_decide_true by (tauto || (split; [lia|done])). cbn [fst store].
      rewrite (put32_room _ _ _ _ _ Hr) by lia. cbn. change (Z.of_nat 0) with 0. by rewrite !Z.add_0_r.
    + rewrite bool_decide_true, bool_decide_false by (tauto || (split; [lia|done])). done.
Qed.

(** A string of code points with the zero behind it. *)
Definition wstr (w : wmem) (p : Z) (cs : list Z) : Prop := bytes_at w p (cs ++ [0]) /\ Forall code cs.

Lemma wctomb_buf_spec ch : code ch ->
  wctomb_buf ch = Some (Z.of_nat (length (utf8 ch)), utf8 ch ++ drop (length (utf8 ch)) [0; 0; 0; 0]).
Proof.
  intros Hc. pose proof (utf8_length ch Hc) as Hlen. unfold wctomb_buf. rewrite _wctomb_spec; [|done|].
  - cbn [mbind option_bind]. destruct (utf8 ch) as [|a [|b [|c [|d [|? ?]]]]]; cbn in Hlen; try lia; reflexivity.
  - apply (room_sub _ 0 4); [|lia|lia]. apply (room_bytes _ 0 [0; 0; 0; 0]), put_bytes.
Qed.

Lemma copy_buf_spec m s l : Forall is_byte l -> room m s (Z.of_nat (length l)) -> copy_buf m s l = Some (put m s l).
Proof.
  intros Hl. revert m s. induction Hl as [|b l Hb _ IH]; intros m s Hr; [done|]. cbn [copy_buf put length] in *.
  rewrite (put8_room _ _ _ _ _ Hr) by (done || lia). cbn [mbind option_bind]. apply IH. apply room_insert.
  eapply room_sub; [exact Hr|lia|lia].
Qed.

Lemma take_utf8 ch (l : list Z) k : (k <= length (utf8 ch))%nat -> take k (utf8 ch ++ l) = take k (utf8 ch).
Proof. intros Hk. by rewrite take_app_le. Qed.

(** What is written: everything and the zero, or the first [n] bytes. *)
Definition cut (n : Z) (l : list Z) : list Z := if Z.of_nat (length l) <=? n then l ++ [0] else take (Z.to_nat n) l.

Lemma wcstombs_loop_spec w n cs : forall f m s p left,
  wstr w p cs -> 0 <= left <= n -> room m s left ->
  (Z.of_nat (length (utf8s cs)) = left -> is_Some (m !! (s + left))) -> (length cs < f)%nat ->
  wcstombs_loop f m w s p n left = Some (Z.min n (n - left + Z.of_nat (length (utf8s cs))), put m s (cut left (utf8s cs))).
Proof.
  induction cs as [|c cs IH]; intros [|f] m s p left [Hw Hc] Hleft Hr Hend Hf; cbn [length] in *; try lia;
    cbn [wcstombs_loop app bytes_at] in *; destruct Hw as [Hx Hw]; rewrite Hx; cbn [mbind option_bind].
  - cbn [Z.eqb]. unfold cut. change (utf8s []) with (@nil Z) in *. cbn [length] in *.
    rewrite (proj2 (Z.leb_le (Z.of_nat 0) left)) by lia. rewrite put8_ok; [| |unfold is_byte; lia].
    + cbn. f_equal. f_equal. lia.
    + destruct (decide (left = 0)) as [->|]; [rewrite <- (Z.add_0_r s); by apply Hend|apply Hr; lia].
  - apply Forall_cons in Hc as [Hc Hcs]. pose proof (utf8_length c Hc) as Hlen.
    rewrite (proj2 (Z.eqb_neq c 0)) by (unfold code in Hc; lia). change (utf8s (c :: cs)) with (utf8 c ++ utf8s cs) in *.
    rewrite length_app in *. set (k := Z.of_nat (length (utf8 c))).
    (* the turns behind this character *)
    assert (Hgo : k <= left ->
      wcstombs_loop f (put m s (utf8 c)) w (s + k) (p + 1) n (left - k) =
      Some (Z.min n (n - left + Z.of_nat (length (utf8 c) + length (utf8s cs))), put m s (cut left (utf8 c ++ utf8s cs)))).
    { intros Hk. rewrite IH; [|done|lia| | |lia].
      - f_equal. f_equal; [lia|]. unfold cut. rewrite length_app. destruct (Z.leb_spec (Z.of_nat (length (utf8s cs))) (left - k)).
        + rewrite (proj2 (Z.leb_le _ left)) by lia. by rewrite <- app_assoc, (put_app m s (utf8 c)).
        + rewrite (proj2 (Z.leb_gt _ left)) by lia. rewrite take_app_ge, (put_app m s (utf8 c)) by lia.
          by replace (Z.to_nat left - length (utf8 c))%nat with (Z.to_nat (left - k)) by lia.
      - apply room_put. eapply room_sub; [exact Hr|lia|lia].
      - intros He. replace (s + k + (left - k)) with (s + left) by lia.
        rewrite put_out by lia. apply Hend. lia. }
    destruct (Z.leb_spec MB_CUR_MAX left) as [Hbig|Hsmall]; unfold MB_CUR_MAX in *.
    + rewrite _wctomb_spec by (done || (eapply room_sub; [exact Hr|lia|lia])). cbn [mbind option_bind]. fold k.
      rewrite (proj2 (Z.ltb_ge k 0)) by lia. apply Hgo. lia.
    + rewrite wctomb_buf_spec by done. cbn [mbind option_bind]. fold k. rewrite (proj2 (Z.ltb_ge k 0)) by lia.
      assert (Hbytes : Forall is_byte (utf8 c)) by (eapply Forall_impl; [by apply utf8_bytes|apply char_byte]).
      destruct (Z.ltb_spec left k) as [Hcut|Hfit].
      * rewrite take_utf8 by lia. rewrite copy_buf_spec; [|by apply Forall_take|rewrite length_take; eapply room_sub; [exact Hr|lia|lia]].
        cbn [mbind option_bind]. f_equal. f_equal; [lia|]. unfold cut. rewrite length_app, (proj2 (Z.leb_gt _ left)) by lia.
        by rewrite take_app_le by lia.
      * replace (Z.to_nat k) with (length (utf8 c)) by lia. rewrite take_utf8, firstn_all by lia. rewrite copy_buf_spec; [|done|eapply room_sub; [exact Hr|lia|lia]].
        cbn [mbind option_bind]. by apply Hgo.
Qed.

Lemma wcscount_loop_spec w cs : forall f p len,
  wstr w p cs -> (length cs < f)%nat -> 0 <= len -> len + Z.of_nat (length (utf8s cs)) < 2 ^ 32 ->
  wcscount_loop f w p len = Some (len + Z.of_nat (length (utf8s cs))).
Proof.
  induction cs as [|c cs IH]; intros [|f] p len [Hw Hc] Hf Hlen Hmax; cbn [length] in *; try lia;
    cbn [wcscount_loop app bytes_at] in *; destruct Hw as [Hx Hw]; rewrite Hx; cbn [mbind option_bind].
  - cbn. by rewrite Z.add_0_r.
  - apply Forall_cons in Hc as [Hc Hcs]. rewrite (proj2 (Z.eqb_neq c 0)) by (unfold code in Hc; lia).
    change (utf8s (c :: cs)) with (utf8 c ++ utf8s cs) in *. rewrite length_app in *.
    assert (count c = Z.of_nat (length (utf8 c))) as ->.
    { unfold count, utf8. unfold code in Hc. rewrite (proj2 (Z.leb_le c 0x10ffff)) by lia. by repeat destruct (_ <=? _). }
    pose proof (utf8_length c Hc). rewrite (proj2 (Z.ltb_ge _ 0)) by lia. rewrite u32_small by (unfold is_u32; lia).
    rewrite IH; [f_equal; lia|done|lia|lia|lia].
Qed.

(** No encoding is the start of another one. *)
Lemma utf8_prefix_free c c' l l' : code c -> code c' -> utf8 c ++ l = utf8 c' ++ l' -> c = c' /\ l = l'.
Proof.
  intros Hc Hc' E. set (m := put ∅ 0 (utf8 c ++ l)). assert (Hm : bytes_at m 0 (utf8 c ++ l)) by apply put_bytes.
  pose proof Hm as Hm'. rewrite E in Hm'. apply bytes_at_app in Hm as [Hm _]. apply bytes_at_app in Hm' as [Hm' _].
  apply (_mbtowc_complete _ _ _ 4) in Hm; [|done|pose proof (utf8_length c Hc); lia].
  apply (_mbtowc_complete _ _ _ 4) in Hm'; [|done|pose proof (utf8_length c' Hc'); lia].
  assert (c = c') as -> by congruence. by apply app_inv_head in E.
Qed.

Lemma decoding_unique cs : forall k cs' rest, Forall code cs -> (length cs < k)%nat ->
  decoding k (utf8s cs) cs' rest -> cs' = cs /\ rest = [].
Proof.
  induction cs as [|c cs IH]; intros k cs' rest Hcs Hk [H1 H2 H3 H4].
  - destruct cs' as [|c' cs']; [by cbn in H2|]. apply Forall_cons in H1 as [Hc' _]. pose proof (utf8_length c' Hc').
    change (utf8s (c' :: cs')) with (utf8 c' ++ utf8s cs') in H2. destruct (utf8 c'); cbn in *; [lia|done].
  - apply Forall_cons in Hcs as [Hc Hcs]. change (utf8s (c :: cs)) with (utf8 c ++ utf8s cs) in H2. destruct cs' as [|c' cs'].
    + destruct (H4 ltac:(cbn in *; lia) c (utf8s cs) Hc). by cbn in H2.
    + apply Forall_cons in H1 as [Hc' Hcs']. change (utf8s (c' :: cs')) with (utf8 c' ++ utf8s cs') in H2. rewrite <- app_assoc in H2.
      destruct (utf8_prefix_free _ _ _ _ Hc Hc' H2) as [<- E]. destruct k as [|k]; [lia|].
      destruct (IH k cs' rest Hcs ltac:(cbn in *; lia)) as [-> ->]; [|done].
      split; [done|done|cbn in *; lia|]. intros Hlt. apply H4. cbn. lia.
Qed.

Lemma utf8s_chars cs : Forall code cs -> Forall is_char (utf8s cs).
Proof. induction 1 as [|c cs Hc _ IH]; [constructor|]. apply Forall_app. split; [by apply utf8_bytes|done]. Qed.

Lemma wstr_turns w p cs : wstr w p cs -> (length cs < turns w)%nat.
Proof. intros [Hb _]. apply bytes_at_turns in Hb. rewrite length_app in Hb. cbn in Hb. lia. Qed.

Lemma wcstombs_spec m w s p n cs :
  wstr w p cs -> s ≠ 0 -> 0 <= n -> room m s n -> (Z.of_nat (length (utf8s cs)) = n -> is_Some (m !! (s + n))) ->
  wcstombs m w s p n = Some (Z.min n (Z.of_nat (length (utf8s cs))), put m s (cut n (utf8s cs))).
Proof.
  intros Hw Hs Hn Hr Hend. unfold wcstombs. rewrite (proj2 (Z.eqb_neq s 0) Hs). cbn [negb].
  rewrite (wcstombs_loop_spec w n cs) by (done || lia || by eapply wstr_turns). by rewrite Z.sub_diag.
Qed.

(** The decoder of strings.  On every string, well formed or not, [mbstowcs]
    is defined and reads nothing behind the end: it stores the longest sequence
    of code points, at most [n], whose encodings the string starts with, and
    returns their number; if the string ends there the zero is stored behind
    them, and if it does not, with less than [n] stored, it returns -1.  Only the
    shortest encodings of code points are taken.  Without a destination it
    returns the same and stores nothing. *)
Theorem mbstowcs_correct w m p s l n :
  cstr m s l -> p ≠ 0 -> 0 <= n -> room w p n ->
  exists cs rest, decoding (Z.to_nat n) l cs rest /\
    let r := if malformed (Z.to_nat n) cs rest then u32 (-1) else Z.of_nat (length cs) in
    mbstowcs w m p s n = Some (r, put w p (cs ++ if ended (Z.to_nat n) cs rest then [0] else [])) /\
    mbstowcs w m 0 s n = Some (r, w).
Proof.
  intros Hl Hp Hn Hr. destruct (mbstowcs_loop_spec (Z.to_nat n) m w p s l 0 Hl) as (cs & rest & Hd & E1 & E2); [by rewrite Z2Nat.id|].
  exists cs, rest. split; [done|]. unfold mbstowcs. rewrite (proj2 (Z.eqb_neq p 0) Hp), Z.eqb_refl. cbn [negb].
  rewrite E1, E2. done.
Qed.

(** Encoding and decoding are inverse.  [wcstombs] writes the encodings of
    the code points of a wide string and the zero behind them, if they fit, and
    [mbstowcs] reads the same code points back out of any memory that holds
    what was written; a single character goes through [wctomb], [mbtowc] and
    [mblen] in the same way. *)
Theorem utf8_roundtrip m w s p n cs :
  wstr w p cs -> s ≠ 0 -> room m s n -> Z.of_nat (length (utf8s cs)) < n ->
  exists m', wcstombs m w s p n = Some (Z.of_nat (length (utf8s cs)), m') /\ cstr m' s (utf8s cs) /\
    (forall w' q k, q ≠ 0 -> Z.of_nat (length cs) < k -> room w' q k ->
      mbstowcs w' m' q s k = Some (Z.of_nat (length cs), put w' q (cs ++ [0]))) /\
    (forall c w' q, c ∈ cs -> q ≠ 0 -> is_Some (w' !! q) -> 4 <= n ->
      exists m1, wctomb m s c = Some (Z.of_nat (length (utf8 c)), m1) /\
        mbtowc w' m1 q s n = Some (Z.of_nat (length (utf8 c)), <[q := c]> w') /\
        mblen m1 s n = Some (Z.of_nat (length (utf8 c)))).
Proof.
  intros Hw Hs Hr Hn. pose proof (proj2 Hw) as Hcs. exists (put m s (cut n (utf8s cs))).
  assert (Hcut : cut n (utf8s cs) = utf8s cs ++ [0]) by (unfold cut; by rewrite (proj2 (Z.leb_le _ n)) by lia).
  assert (Hstr : cstr (put m s (cut n (utf8s cs))) s (utf8s cs)) by (rewrite Hcut; by apply cstr_put, utf8s_chars).
  split; [rewrite (wcstombs_spec _ _ _ _ _ cs) by (done || lia); by rewrite Z.min_r by lia|]. split; [done|]. split.
  - intros w' q k Hq Hk Hr'. destruct (mbstowcs_loop_spec (Z.to_nat k) _ w' q s _ 0 Hstr) as (cs' & rest & Hd & E & _);
      [by rewrite Z2Nat.id by lia|].
    apply decoding_unique in Hd as [-> ->]; [|done|lia]. unfold mbstowcs. rewrite (proj2 (Z.eqb_neq q 0) Hq). cbn [negb]. rewrite E.
    unfold malformed, ended. rewrite bool_decide_false, bool_decide_true by (tauto || (split; [lia|done])). done.
  - intros c w' q Hc Hq Hq' H4. assert (Hcode : code c) by (rewrite Forall_forall in Hcs; by apply Hcs).
    pose proof (utf8_length c Hcode) as Hlen. exists (put m s (utf8 c)).
    assert (E : _mbtowc (put m s (utf8 c)) s n = Some (Z.of_nat (length (utf8 c)), Some c))
      by (apply _mbtowc_complete; [done|apply put_bytes|lia]).
    unfold wctomb, mbtowc, mblen. rewrite (proj2 (Z.eqb_neq s 0) Hs), (proj2 (Z.eqb_neq q 0) Hq), (proj2 (Z.eqb_neq n 0)) by lia.
    cbn [negb]. split; [apply _wctomb_spec; [done|]; eapply room_sub; [exact Hr|lia|lia]|].
    split; [|by rewrite _mblen_spec, E]. rewrite E. cbn [mbind option_bind store]. unfold put32. by destruct Hq' as [? ->].
Qed.

(** The letters of "aé日😀". *)
Definition demo_wide : list Z := [97; 233; 26085; 128512].
Definition demo_wmem : wmem := put ∅ 1 (demo_wide ++ [0]).
Definition demo_room : cmem := put ∅ 64 (replicate 16 0).

Lemma demo_wide_ok : wstr demo_wmem 1 demo_wide.
Proof. split; [apply put_bytes|unfold code; repeat constructor; lia]. Qed.

Lemma demo_room_ok : room demo_room 64 16.
Proof. apply (room_bytes demo_room 64 (replicate 16 0)), put_bytes. Qed.

Lemma utf8_roundtrip_witness : exists m', wcstombs demo_room demo_wmem 64 1 16 = Some (10, m') /\
  mbstowcs demo_wmem m' 1 64 5 = Some (4, demo_wmem).
Proof.
  destruct (utf8_roundtrip demo_room demo_wmem 64 1 16 demo_wide demo_wide_ok ltac:(lia) demo_room_ok) as (m' & E & _ & H & _); [vm_compute; done|].
  exists m'. split; [exact E|]. rewrite H; [vm_compute; reflexivity|lia|vm_compute; done|].
  apply (room_bytes demo_wmem 1 (demo_wide ++ [0])), put_bytes.
Defined.

(** An overlong encoding of "/" behind a letter. *)
Definition demo_overlong : cmem := put ∅ 64 ([97; 0xc0; 0xaf] ++ [0]).

Lemma mbstowcs_correct_witness : exists cs rest, decoding 5 [97; 0xc0; 0xaf] cs rest /\
  mbstowcs demo_wmem demo_overlong 0 64 5 = Some (if malformed 5 cs rest then u32 (-1) else Z.of_nat (length cs), demo_wmem).
Proof.
  destruct (mbstowcs_correct demo_wmem demo_overlong 1 64 [97; 0xc0; 0xaf] 5) as (cs & rest & Hd & _ & E).
  - apply cstr_put. unfold is_char. repeat constructor; lia.
  - lia.
  - lia.
  - apply (room_bytes demo_wmem 1 (demo_wide ++ [0])), put_bytes.
  - exists cs, rest. split; [exact Hd|exact E].
Defined.

(** A destination that the encodings fill exactly: the zero goes behind it. *)
Lemma wcstombs_overflow : wcstombs (put ∅ 64 [0; 0]) (put ∅ 1 ([97; 98] ++ [0])) 64 1 2 = None.
Proof. vm_compute. reflexivity. Qed.
