(* ===== verification/Time.v ===== *)
(** * Dates and times (lib/libc/others: gmtime_r, strftime; lib/libnc/time96.c; include/sys/time.h)

    The calendar date of a number of seconds, against the Gregorian calendar;
    the text of a date in a bounded buffer, against the text without a bound;
    and the time stamps of the timer, whose nanoseconds are stored with an
    offset so that a carry is a change of the sign. *)

From Stdlib Require Import Strings.Ascii Strings.String.
From S2P Require Import Prelude.

(** ** The code *)

Record tm := Tm {
  tm_sec : Z; tm_min : Z; tm_hour : Z; tm_mday : Z; tm_mon : Z; tm_year : Z; tm_wday : Z; tm_yday : Z; tm_isdst : Z;
}.

Definition EPOCH_DAYS : Z := 719162.
Definition DAYS_PER_YEAR : Z := 365.
Definition DAYS_PER_4YEARS : Z := DAYS_PER_YEAR * 4 + 1.
Definition DAYS_PER_100YEARS : Z := DAYS_PER_4YEARS * 25 - 1.
Definition DAYS_PER_400YEARS : Z := DAYS_PER_100YEARS * 4 + 1.
Definition SECONDS_PER_MINUTE : Z := 60.
Definition SECONDS_PER_HOUR : Z := SECONDS_PER_MINUTE * 60.
Definition SECONDS_PER_DAY : Z := SECONDS_PER_HOUR * 24.

Definition days_of_month : list (list Z) :=
  [[31; 28; 31; 30; 31; 30; 31; 31; 30; 31; 30; 31];
   [31; 29; 31; 30; 31; 30; 31; 31; 30; 31; 30; 31]].

Definition get_days_of_month (year : Z) : list Z :=
  default [] (days_of_month !!
    (if negb (Z.rem year 4 =? 0) then 0%nat
     else if negb (Z.rem year 100 =? 0) then 1%nat
     else if negb (Z.rem year 400 =? 0) then 0%nat else 1%nat)).

(** The month and the day in it, by subtraction of the months before. *)
Fixpoint month_loop (months : list Z) (m d : Z) : Z * Z :=
  match months with
  | [] => (m, d)
  | n :: months => if n <=? d then month_loop months (m + 1) (d - n) else (m, d)
  end.

(** The year and the day in it. *)
Definition year_of (days : Z) : Z * Z :=
  let q := Z.quot days DAYS_PER_400YEARS in
  let d := Z.rem days DAYS_PER_400YEARS in
  let y := q * 400 in
  let q := Z.quot d DAYS_PER_100YEARS in
  let d := Z.rem d DAYS_PER_100YEARS in
  let y := y + q * 100 in
  let q := Z.quot d DAYS_PER_4YEARS in
  let d := Z.rem d DAYS_PER_4YEARS in
  let y := y + q * 4 in
  let q := Z.quot d DAYS_PER_YEAR in
  let d := Z.rem d DAYS_PER_YEAR in
  (y + (q + 1), d).

Definition gmtime_r (timep : Z) : tm :=
  let t := s32 (Z.land timep 0xffffffff) in
  let days := Z.quot t SECONDS_PER_DAY + EPOCH_DAYS in
  let wday := Z.rem (days + 1) 7 in
  let '(y, d) := year_of days in
  let '(m, d') := month_loop (get_days_of_month y) 0 d in
  let s := Z.rem t SECONDS_PER_DAY in
  let hour := Z.quot s SECONDS_PER_HOUR in
  let s := Z.rem s SECONDS_PER_HOUR in
  let min := Z.quot s SECONDS_PER_MINUTE in
  let s := Z.rem s SECONDS_PER_MINUTE in
  Tm s min hour (d' + 1) m (y - 1900) wday d 0.

(** *** strftime.c *)

(** A text of ASCII characters. *)
Definition text (s : string) : list Z := (λ a, Z.of_N (Ascii.N_of_ascii a)) <$> String.list_ascii_of_string s.

Record locale_time_t := Locale {
  month_names : list (list Z);
  month_abbrevs : list (list Z);
  wday_names : list (list Z);
  wday_abbrevs : list (list Z);
  am_pm : list (list Z);
  date_time_format : list Z;
  date_format : list Z;
  time_format : list Z;
  time_zone_name : list Z;
}.

Definition loc : locale_time_t := Locale
  (text <$> ["January"; "February"; "March"; "April"; "May"; "June"; "July"; "August"; "September"; "October";
             "November"; "December"]%string)
  (text <$> ["Jan"; "Feb"; "Mar"; "Apr"; "May"; "Jun"; "Jul"; "Aug"; "Sep"; "Oct"; "Nov"; "Dec"]%string)
  (text <$> ["Sunday"; "Monday"; "Tuesday"; "Wednesday"; "Thursday"; "Friday"; "Saturday"]%string)
  (text <$> ["Sun"; "Mon"; "Tue"; "Wed"; "Thu"; "Fri"; "Sat"]%string)
  (text <$> ["AM"; "PM"]%string)
  (text "%a %b %d %H:%M:%S %Y") (text "%m/%d/%y") (text "%H:%M:%S") (text "GMT").

Definition ISO8601_FORMAT : list Z := text "%Y-%m-%d".
Definition MAX_DECIMAL_COLUMN : nat := 20.
Definition ERR : Z := -1.

(** The size of the buffer and what has been written; [pos] is its length. *)
Record strbuf_t := Strbuf { size : Z; buf : list Z }.
Definition pos (s : strbuf_t) : Z := Z.of_nat (length (buf s)).

(** A [char] read from memory: it has a sign. *)
Definition s8 (c : Z) : Z := if 128 <=? c then c - 256 else c.

Definition _putc (c : Z) (s : strbuf_t) : Z * strbuf_t :=
  if size s <=? pos s then (ERR, s) else (c, Strbuf (size s) (buf s ++ [Z.land c 0xff])).

Fixpoint _puts (str : list Z) (s : strbuf_t) : Z * strbuf_t :=
  match str with
  | [] => (0, s)
  | ch :: str => let '(r, s) := _putc (s8 ch) s in if r =? ERR then (ERR, s) else _puts str s
  end.

(** The digits from the end of the array [dec]; [None] in front of it. *)
Fixpoint putzd_loop (rest : nat) (n : Z) (dec : list Z) : option (list Z) :=
  match rest with
  | O => Some dec
  | S rest =>
      if bool_decide (length dec < MAX_DECIMAL_COLUMN)%nat
      then putzd_loop rest (Z.quot n 10) (u8 (Z.rem n 10 + 48) :: dec) else None
  end.

Definition _putzd (num : Z) (column : nat) (s : strbuf_t) : option (Z * strbuf_t) :=
  p ← putzd_loop column num []; Some (_puts p s).

Fixpoint putd_loop (f : nat) (n : Z) (dec : list Z) : option (list Z) :=
  match f with
  | O => None
  | S f =>
      let dec := u8 (Z.rem n 10 + 48) :: dec in
      let n := Z.quot n 10 in
      if n =? 0 then Some dec else putd_loop f n dec
  end.

Definition _putd (num : Z) (s : strbuf_t) : option (Z * strbuf_t) :=
  p ← putd_loop MAX_DECIMAL_COLUMN num []; Some (_puts p s).

Definition calc_weeks (t : tm) (offset : Z) : Z :=
  Z.quot (tm_yday t + (7 - Z.rem (tm_yday t + (7 - tm_wday t) + offset) 7)) 7.

(** [_puts] of an entry of a table; an index out of it is undefined. *)
Definition puts_at (l : list (list Z)) (i : Z) (s : strbuf_t) : option (Z * strbuf_t) :=
  if i <? 0 then None else x ← l !! Z.to_nat i; Some (_puts x s).

(** [_printf] calls itself for the formats of the locale, which hold no such
    conversion: [depth] 2 is enough. *)
Section Printf.
Variable printf_in : strbuf_t -> list Z -> option (Z * strbuf_t).
Variable t : tm.

Definition conversion (c : Z) (s : strbuf_t) : option (Z * strbuf_t) :=
  if c =? 97 then puts_at (wday_abbrevs loc) (tm_wday t) s
  else if c =? 65 then puts_at (wday_names loc) (tm_wday t) s
  else if c =? 98 then puts_at (month_abbrevs loc) (tm_mon t) s
  else if c =? 66 then puts_at (month_names loc) (tm_mon t) s
  else if c =? 99 then printf_in s (date_time_format loc)
  else if c =? 100 then _putzd (tm_mday t) 2 s
  else if c =? 70 then printf_in s ISO8601_FORMAT
  else if c =? 72 then _putzd (tm_hour t) 2 s
  else if c =? 73 then _putzd (Z.rem (tm_hour t) 12) 2 s
  else if c =? 106 then _putzd (tm_yday t + 1) 3 s
  else if c =? 109 then _putzd (tm_mon t + 1) 2 s
  else if c =? 77 then _putzd (tm_min t) 2 s
  else if c =? 112 then puts_at (am_pm loc) (Z.quot (tm_hour t) 12) s
  else if c =? 83 then _putzd (tm_sec t) 2 s
  else if c =? 85 then _putzd (calc_weeks t 0) 2 s
  else if c =? 87 then _putzd (calc_weeks t 1) 2 s
  else if c =? 120 then printf_in s (date_format loc)
  else if c =? 88 then printf_in s (time_format loc)
  else if c =? 121 then _putzd (Z.rem (tm_year t) 100) 2 s
  else if c =? 89 then _putd (tm_year t + 1900) s
  else if c =? 90 then Some (_puts (time_zone_name loc) s)
  else if c =? 37 then Some (_puts (text "%") s)
  else Some (ERR, s).

Fixpoint printf_loop (s : strbuf_t) (format : list Z) (conv : bool) : option (Z * strbuf_t) :=
  match format with
  | [] => Some (0, s)
  | c :: format =>
      if conv then
        '(r, s) ← conversion c s;
        if negb (r =? 0) then Some (ERR, s) else printf_loop s format false
      else if c =? 37 then printf_loop s format true
      else
        let '(r, s) := _putc (s8 c) s in
        if r =? ERR then Some (ERR, s) else printf_loop s format false
  end.

End Printf.

Fixpoint _printf (depth : nat) (t : tm) (s : strbuf_t) (format : list Z) : option (Z * strbuf_t) :=
  match depth with
  | O => None
  | S depth => printf_loop (_printf depth t) t s format false
  end.

(** What is returned, and what is in the buffer if that is not 0. *)
Definition strftime (maxsize : Z) (format : list Z) (timeptr : tm) : option (Z * list Z) :=
  '(r, s) ← _printf 2 timeptr (Strbuf maxsize []) format;
  if r =? ERR then Some (0, buf s)
  else if size s <=? pos s then Some (0, buf s)
  else Some (pos s, buf s ++ [0]).

(** *** time stamps *)

Record timespec := Timespec { tv_sec : Z; tv_nsec : Z }.

Definition TIMESPEC_OFFSET_NSEC : Z := 0x7fffffff - 1000 * 1000 * 1000 + 1.

Definition timespec_set (sec nsec : Z) : timespec := Timespec sec (nsec + TIMESPEC_OFFSET_NSEC).
Definition timespec_get_sec (t : timespec) : Z := tv_sec t.
Definition timespec_get_nsec (t : timespec) : Z := tv_nsec t - TIMESPEC_OFFSET_NSEC.
Definition timespec_equals (t1 t2 : timespec) : bool := (tv_sec t1 =? tv_sec t2) && (tv_nsec t1 =? tv_nsec t2).

(** The sum of the nanoseconds wraps around into the negative numbers. *)
Definition timespec_add (dest operand : timespec) : timespec :=
  let sec := tv_sec dest + tv_sec operand in
  let nsec := s32 (tv_nsec dest + tv_nsec operand) in
  if nsec <? 0 then Timespec (sec + 1) (s32 (Z.land nsec 0x7fffffff + TIMESPEC_OFFSET_NSEC)) else Timespec sec nsec.

Definition timespec_compare (t1 t2 : timespec) : Z :=
  let diff := tv_sec t1 - tv_sec t2 in
  if diff <? 0 then -1 else if 0 <? diff then 1 else tv_nsec t1 - tv_nsec t2.

(** ** The calendar *)

Definition leap (y : Z) : bool := (y mod 4 =? 0) && (negb (y mod 100 =? 0) || (y mod 400 =? 0)).

(** The days from the first of January of year 1 to that of year [y]. *)
Definition before_year (y : Z) : Z := let k := y - 1 in 365 * k + k / 4 - k / 100 + k / 400.

(** The days of month [m], which counts from 0, in a leap year or not. *)
Definition month_days (lf : bool) (m : Z) : Z :=
  if m =? 1 then if lf then 29 else 28
  else if (m =? 3) || (m =? 5) || (m =? 8) || (m =? 10) then 30 else 31.

Definition before_month (lf : bool) (m : Z) : Z := foldr Z.add 0 (month_days lf <$> seqZ 0 m).

Definition date_days (y m d : Z) : Z := before_year y + before_month (leap y) m + (d - 1).

Definition valid_date (y m d : Z) : Prop := 0 <= m <= 11 /\ 1 <= d <= month_days (leap y) m.

(** The date that [r] says is day [n] of the epoch. *)
Record is_date (r : tm) (n : Z) : Prop := {
  id_valid : valid_date (tm_year r + 1900) (tm_mon r) (tm_mday r);
  id_days : date_days (tm_year r + 1900) (tm_mon r) (tm_mday r) = n + EPOCH_DAYS;
  id_yday : tm_yday r = before_month (leap (tm_year r + 1900)) (tm_mon r) + tm_mday r - 1;
  id_wday : tm_wday r = (n + 4) mod 7;
}.

(** The last day of a leap year, as a number from the first day of year 1. *)
Definition last_leap_day (days : Z) : Prop := exists y, leap y = true /\ days + 1 = before_year (y + 1).

Lemma before_year_mono y1 y2 : y1 <= y2 -> before_year y1 <= before_year y2.
Proof. intros Hy. unfold before_year. Z.to_euclidean_division_equations. lia. Qed.

Lemma before_year_succ y : before_year (y + 1) = before_year y + 365 + (if leap y then 1 else 0).
Proof.
  unfold before_year, leap. destruct (Z.eqb_spec (y mod 4) 0), (Z.eqb_spec (y mod 100) 0), (Z.eqb_spec (y mod 400) 0); cbn;
    Z.to_euclidean_division_equations; lia.
Qed.

(** A year by its place in the cycles of 400, 100 and 4 years. *)
Lemma before_year_cycles a b c p : 0 <= b < 4 -> 0 <= c < 25 -> 0 <= p < 4 ->
  before_year (a * 400 + b * 100 + c * 4 + (p + 1)) = 146097 * a + 36524 * b + 1461 * c + 365 * p.
Proof.
  intros Hb Hc Hp. unfold before_year. set (k := _ - 1).
  assert (k / 4 = a * 100 + b * 25 + c) as -> by (Z.to_euclidean_division_equations; lia).
  assert (k / 100 = a * 4 + b) as -> by (Z.to_euclidean_division_equations; lia).
  assert (k / 400 = a) as -> by (Z.to_euclidean_division_equations; lia). lia.
Qed.

(** No day of a year is the last one of a leap year, except its own. *)
Lemma not_last y d days : 0 <= d < 365 -> before_year y + d = days -> ~ last_leap_day days.
Proof.
  intros Hd Hb (y' & Hl & He). pose proof (before_year_succ y). destruct (Z.lt_trichotomy y' y) as [Hlt|[->|Hgt]].
  - pose proof (before_year_mono (y' + 1) y). lia.
  - rewrite Hl in *. lia.
  - pose proof (before_year_mono (y + 1) y'). pose proof (before_year_succ y'). rewrite Hl in *. destruct (leap y); lia.
Qed.

(** The divisions of [year_of]. *)
Lemma year_of_cycles days : 0 <= days -> exists a b c p d,
  year_of days = (a * 400 + b * 100 + c * 4 + (p + 1), d) /\ 0 <= a /\ 0 <= d < 365 /\
  days = 146097 * a + 36524 * b + 1461 * c + 365 * p + d /\
  ((0 <= b < 4 /\ 0 <= c < 25 /\ 0 <= p < 4) \/ (0 <= b < 4 /\ 0 <= c < 24 /\ p = 4 /\ d = 0) \/ (b = 4 /\ c = 0 /\ p = 0 /\ d = 0)).
Proof.
  intros Hd. unfold year_of. change DAYS_PER_400YEARS with 146097. change DAYS_PER_100YEARS with 36524.
  change DAYS_PER_4YEARS with 1461. change DAYS_PER_YEAR with 365.
  rewrite (Z.quot_div_nonneg days), (Z.rem_mod_nonneg days) by lia.
  pose proof (Z.div_mod days 146097 ltac:(lia)) as E1. pose proof (Z.mod_pos_bound days 146097 ltac:(lia)) as B1.
  assert (Hq4 : 0 <= days / 146097) by (apply Z.div_pos; lia).
  set (q4 := days / 146097) in *. set (d1 := days mod 146097) in *.
  rewrite (Z.quot_div_nonneg d1), (Z.rem_mod_nonneg d1) by lia.
  pose proof (Z.div_mod d1 36524 ltac:(lia)) as E2. pose proof (Z.mod_pos_bound d1 36524 ltac:(lia)) as B2.
  set (q1 := d1 / 36524) in *. set (d2 := d1 mod 36524) in *.
  rewrite (Z.quot_div_nonneg d2), (Z.rem_mod_nonneg d2) by lia.
  pose proof (Z.div_mod d2 1461 ltac:(lia)) as E3. pose proof (Z.mod_pos_bound d2 1461 ltac:(lia)) as B3.
  set (q := d2 / 1461) in *. set (d3 := d2 mod 1461) in *.
  rewrite (Z.quot_div_nonneg d3), (Z.rem_mod_nonneg d3) by lia.
  pose proof (Z.div_mod d3 365 ltac:(lia)) as E4. pose proof (Z.mod_pos_bound d3 365 ltac:(lia)) as B4.
  exists q4, q1, q, (d3 / 365), (d3 mod 365). split; [done|]. lia.
Qed.

Lemma year_of_spec days : 0 <= days -> let '(y, d) := year_of days in 1 <= y /\ 0 <= d < 365 /\
  ((before_year y + d = days /\ ~ last_leap_day days) \/ (before_year y + d = days + 1 /\ last_leap_day days)).
Proof.
  intros Hd. destruct (year_of_cycles days Hd) as (a & b & c & p & d & -> & Ha & Hd' & E & Hcase).
  split; [lia|]. split; [done|]. destruct Hcase as [(Hb & Hc & Hp)|Hbug].
  - left. assert (Hby : before_year (a * 400 + b * 100 + c * 4 + (p + 1)) + d = days) by (rewrite before_year_cycles by done; lia).
    split; [done|]. by eapply not_last.
  - right.
    assert (exists a' b' c', a * 400 + b * 100 + c * 4 + (p + 1) = a' * 400 + b' * 100 + c' * 4 + (0 + 1) /\
      0 <= b' < 4 /\ 0 <= c' < 25 /\ 146097 * a' + 36524 * b' + 1461 * c' = days + 1 /\ (0 < c' \/ b' = 0)) as (a' & b' & c' & -> & Hb & Hc & E' & Hl).
    { destruct Hbug as [(Hb & Hc & -> & ->)|(-> & -> & -> & ->)]; [exists a, b, (c + 1)|exists (a + 1), 0, 0]; lia. }
    assert (Hby : before_year (a' * 400 + b' * 100 + c' * 4 + (0 + 1)) = days + 1) by (rewrite before_year_cycles by lia; lia).
    split; [lia|]. exists (a' * 400 + b' * 100 + c' * 4). split; [|done]. unfold leap.
    rewrite andb_true_iff, orb_true_iff, negb_true_iff, !Z.eqb_eq, Z.eqb_neq.
    split; [Z.to_euclidean_division_equations; lia|].
    destruct (decide (c' = 0)) as [->|]; [right|left]; Z.to_euclidean_division_equations; lia.
Qed.

(** *** Months *)

Lemma get_days_leap y : 0 <= y -> get_days_of_month y = default [] (days_of_month !! (if leap y then 1%nat else 0%nat)).
Proof.
  intros Hy. unfold get_days_of_month, leap. rewrite !Z.rem_mod_nonneg by lia.
  destruct (Z.eqb_spec (y mod 4) 0), (Z.eqb_spec (y mod 100) 0), (Z.eqb_spec (y mod 400) 0); done.
Qed.

Definition month_ok (lf : bool) (d : Z) : bool :=
  let '(m, d') := month_loop (default [] (days_of_month !! (if lf then 1%nat else 0%nat))) 0 d in
  (0 <=? m) && (m <=? 11) && (0 <=? d') && (d' <? month_days lf m) && (before_month lf m + d' =? d).

Lemma month_table : forallb (λ d, month_ok true d && month_ok false d) (seqZ 0 365) = true.
Proof. vm_compute. reflexivity. Qed.

Lemma month_spec y d : 0 <= y -> 0 <= d < 365 ->
  let '(m, d') := month_loop (get_days_of_month y) 0 d in
  valid_date y m (d' + 1) /\ before_month (leap y) m + d' = d.
Proof.
  intros Hy Hd. rewrite get_days_leap by done. pose proof (proj1 (forallb_forall _ _) month_table d) as H. cbv beta in H.
  rewrite <- list_elem_of_In, elem_of_seqZ in H. specialize (H ltac:(lia)). apply andb_prop in H as [H1 H2].
  assert (Hok : month_ok (leap y) d = true) by (by destruct (leap y)). clear H1 H2. unfold month_ok in Hok.
  destruct (month_loop _ _ _) as [m d']. rewrite !andb_true_iff, !Z.leb_le, Z.ltb_lt, Z.eqb_eq in Hok.
  unfold valid_date. lia.
Qed.

(** ** The date of a time *)

Lemma gmtime_spec t : 0 <= t < 2 ^ 31 ->
  let r := gmtime_r t in let n := t / SECONDS_PER_DAY in
  (~ last_leap_day (n + EPOCH_DAYS) -> is_date r n) /\
  (last_leap_day (n + EPOCH_DAYS) -> date_days (tm_year r + 1900) (tm_mon r) (tm_mday r) = n + 1 + EPOCH_DAYS) /\
  t mod SECONDS_PER_DAY = (tm_hour r * 60 + tm_min r) * 60 + tm_sec r /\
  0 <= tm_hour r < 24 /\ 0 <= tm_min r < 60 /\ 0 <= tm_sec r < 60.
Proof.
  intros Ht. cbv zeta. unfold gmtime_r. change 0xffffffff with (Z.ones 32). rewrite Z.land_ones, (Z.mod_small t) by lia.
  rewrite s32_small by (unfold is_s32; lia). rewrite Z.quot_div_nonneg, (Z.rem_mod_nonneg t) by (done || lia).
  set (n := t / SECONDS_PER_DAY). assert (Hn : 0 <= n) by (apply Z.div_pos; done || lia).
  pose proof (year_of_spec (n + EPOCH_DAYS)) as Hy. destruct (year_of (n + EPOCH_DAYS)) as [y d].
  destruct Hy as (Hy1 & Hd & Hday); [unfold EPOCH_DAYS; lia|].
  pose proof (month_spec y d ltac:(lia) Hd) as Hm. destruct (month_loop (get_days_of_month y) 0 d) as [m d']. destruct Hm as [Hv Hm].
  cbn [tm_sec tm_min tm_hour tm_mday tm_mon tm_year tm_wday tm_yday]. replace (y - 1900 + 1900) with y by lia. split; [|split].
  - intros Hnot. destruct Hday as [[Hday _]|[_ Hl]]; [|done]. unfold EPOCH_DAYS in *.
    split; cbn [tm_mday tm_mon tm_year tm_wday tm_yday]; replace (y - 1900 + 1900) with y by lia; [done|unfold date_days, EPOCH_DAYS; lia|lia|].
    rewrite Z.rem_mod_nonneg by lia. Z.to_euclidean_division_equations. lia.
  - intros Hl. destruct Hday as [[_ Hnot]|[Hday _]]; [done|]. unfold date_days. lia.
  - pose proof (Z.mod_pos_bound t SECONDS_PER_DAY ltac:(done)) as Hs. change SECONDS_PER_DAY with 86400 in *.
    change SECONDS_PER_HOUR with 3600. change SECONDS_PER_MINUTE with 60. set (s := t mod 86400) in *.
    Z.to_euclidean_division_equations. lia.
Qed.

(** ** The text of a date *)

(** [k] decimal digits of [n]. *)
Fixpoint pad (k : nat) (n : Z) : list Z := match k with O => [] | S k => pad k (n / 10) ++ [48 + n mod 10] end.

(** The weeks that have started before the end of the day, when they start on
    Sunday (0) or Monday (1). *)
Definition weeks (t : tm) (first : Z) : Z := (tm_yday t + 7 - (tm_wday t - first) mod 7) / 7.

Section Expand.
Variable t : tm.
Variable inner : list Z -> option (list Z).

(** What stands for a conversion, [None] for an unknown one. *)
Definition expansion (c : Z) : option (list Z) :=
  if c =? 97 then wday_abbrevs loc !! Z.to_nat (tm_wday t)
  else if c =? 65 then wday_names loc !! Z.to_nat (tm_wday t)
  else if c =? 98 then month_abbrevs loc !! Z.to_nat (tm_mon t)
  else if c =? 66 then month_names loc !! Z.to_nat (tm_mon t)
  else if c =? 99 then inner (date_time_format loc)
  else if c =? 100 then Some (pad 2 (tm_mday t))
  else if c =? 70 then inner ISO8601_FORMAT
  else if c =? 72 then Some (pad 2 (tm_hour t))
  else if c =? 73 then Some (pad 2 (tm_hour t mod 12))
  else if c =? 106 then Some (pad 3 (tm_yday t + 1))
  else if c =? 109 then Some (pad 2 (tm_mon t + 1))
  else if c =? 77 then Some (pad 2 (tm_min t))
  else if c =? 112 then Some (if tm_hour t <? 12 then text "AM" else text "PM")
  else if c =? 83 then Some (pad 2 (tm_sec t))
  else if c =? 85 then Some (pad 2 (weeks t 0))
  else if c =? 87 then Some (pad 2 (weeks t 1))
  else if c =? 120 then inner (date_format loc)
  else if c =? 88 then inner (time_format loc)
  else if c =? 121 then Some (pad 2 (tm_year t mod 100))
  else if c =? 89 then Some (pad 4 (tm_year t + 1900))
  else if c =? 90 then Some (time_zone_name loc)
  else if c =? 37 then Some [37]
  else None.

Fixpoint expand_with (format : list Z) : option (list Z) :=
  match format with
  | [] => Some []
  | c :: format' =>
      if c =? 37 then
        match format' with
        | [] => Some []
        | d :: format'' => x ← expansion d; y ← expand_with format''; Some (x ++ y)
        end
      else y ← expand_with format'; Some (c :: y)
  end.

End Expand.

(** The whole text, without a bound. *)
Definition expand (t : tm) : list Z -> option (list Z) := expand_with t (expand_with t (λ _, None)).

Record valid_tm (t : tm) : Prop := {
  vt_sec : 0 <= tm_sec t <= 60; vt_min : 0 <= tm_min t < 60; vt_hour : 0 <= tm_hour t < 24;
  vt_mday : 1 <= tm_mday t <= 31; vt_mon : 0 <= tm_mon t < 12; vt_year : 0 <= tm_year t < 8100;
  vt_wday : 0 <= tm_wday t < 7; vt_yday : 0 <= tm_yday t < 366;
}.

(** A character that [_putc] does not confuse with its error. *)
Definition plain (c : Z) : Prop := 0 <= c < 255.

(** Writing [x]: all of it, or what fits and an error. *)
Definition wrote (s : strbuf_t) (x : list Z) : Z * strbuf_t :=
  if pos s + Z.of_nat (length x) <=? size s then (0, Strbuf (size s) (buf s ++ x))
  else (ERR, Strbuf (size s) (buf s ++ take (Z.to_nat (size s - pos s)) x)).

Lemma pos_app sz b x : pos (Strbuf sz (b ++ x)) = pos (Strbuf sz b) + Z.of_nat (length x).
Proof. unfold pos. cbn. rewrite length_app. lia. Qed.

Lemma wrote_nil s : pos s <= size s -> wrote s [] = (0, s).
Proof. intros Hs. unfold wrote. cbn [length]. rewrite Z.add_0_r, (proj2 (Z.leb_le _ _)) by lia. rewrite app_nil_r. by destruct s. Qed.

Lemma wrote_app s x y : pos s <= size s ->
  wrote s (x ++ y) = let '(r, s') := wrote s x in if negb (r =? 0) then (ERR, s') else wrote s' y.
Proof.
  intros Hs. unfold wrote. rewrite length_app. destruct (Z.leb_spec (pos s + Z.of_nat (length x)) (size s)) as [Hx|Hx]; cbn [negb Z.eqb].
  - change (negb (0 =? 0)) with false. cbn iota. cbn [size buf]. rewrite pos_app. change (pos (Strbuf (size s) (buf s))) with (pos s).
    replace (pos s + Z.of_nat (length x + length y)) with (pos s + Z.of_nat (length x) + Z.of_nat (length y)) by lia.
    destruct (_ <=? _); rewrite <- app_assoc; [done|]. do 4 f_equal. rewrite take_app_ge by lia. do 2 f_equal. lia.
  - change (negb (ERR =? 0)) with true. cbn iota. rewrite (proj2 (Z.leb_gt _ (size s))) by lia. by rewrite take_app_le by lia.
Qed.

Lemma putc_plain c s : plain c -> pos s <= size s ->
  _putc (s8 c) s = let '(r, s') := wrote s [c] in (if r =? 0 then s8 c else ERR, s').
Proof.
  unfold plain, _putc, wrote. intros Hc Hs. cbn [length]. destruct (Z.leb_spec (size s) (pos s)).
  - rewrite (proj2 (Z.leb_gt _ (size s))) by lia. replace (Z.to_nat (size s - pos s)) with 0%nat by lia.
    cbn [take]. rewrite app_nil_r. by destruct s.
  - rewrite (proj2 (Z.leb_le _ (size s))) by lia. change (0 =? 0) with true. cbn iota. do 4 f_equal.
    change 0xff with (Z.ones 8). rewrite Z.land_ones by lia. change (2 ^ 8) with 256. unfold s8.
    destruct (Z.leb_spec 128 c); Z.to_euclidean_division_equations; lia.
Qed.

Lemma s8_err c : plain c -> (s8 c =? ERR) = false.
Proof. unfold plain, s8, ERR. intros Hc. apply Z.eqb_neq. destruct (Z.leb_spec 128 c); lia. Qed.

Lemma wrote_range s x r s' : wrote s x = (r, s') -> pos s <= size s -> (r = 0 \/ r = ERR) /\ size s' = size s /\ pos s' <= size s'.
Proof.
  unfold wrote. intros E Hs. destruct (Z.leb_spec (pos s + Z.of_nat (length x)) (size s)); injection E as <- <-;
    (split; [by (left + right)|]); (split; [done|]); cbn [size]; rewrite pos_app; destruct s as [sz b];
    cbn [size buf] in *; rewrite ?length_take; lia.
Qed.

Lemma _puts_spec x s : Forall plain x -> pos s <= size s -> _puts x s = wrote s x.
Proof.
  intros Hx. revert s. induction Hx as [|c x Hc _ IH]; intros s Hs; cbn [_puts]; [by rewrite wrote_nil|].
  rewrite putc_plain by done. change (c :: x) with ([c] ++ x). rewrite wrote_app by done.
  destruct (wrote s [c]) as [r s'] eqn:E. pose proof (wrote_range _ _ _ _ E Hs) as ([->| ->] & _ & Hs').
  - change (0 =? 0) with true. cbn iota. rewrite s8_err by done. by apply IH.
  - done.
Qed.

Lemma pad_length k n : length (pad k n) = k.
Proof. revert n. induction k as [|k IH]; intros n; cbn; [done|]. rewrite length_app, IH. cbn. lia. Qed.

Lemma pad_plain k n : Forall plain (pad k n).
Proof.
  revert n. induction k as [|k IH]; intros n; cbn; [constructor|]. apply Forall_app. split; [apply IH|].
  apply Forall_singleton. unfold plain. pose proof (Z.mod_pos_bound n 10). lia.
Qed.

Lemma digit_char n : 0 <= n -> u8 (Z.rem n 10 + 48) = 48 + n mod 10.
Proof. intros Hn. pose proof (Z.mod_pos_bound n 10). rewrite Z.rem_mod_nonneg by lia. unfold u8. rewrite Z.mod_small by lia. lia. Qed.

Lemma putzd_loop_spec k n dec : 0 <= n -> (k + length dec <= MAX_DECIMAL_COLUMN)%nat -> putzd_loop k n dec = Some (pad k n ++ dec).
Proof.
  revert n dec. induction k as [|k IH]; intros n dec Hn Hk; cbn [putzd_loop pad]; [done|]. rewrite bool_decide_true by lia.
  rewrite digit_char, Z.quot_div_nonneg by lia. rewrite IH; [by rewrite <- app_assoc|apply Z.div_pos; lia|cbn; lia].
Qed.

Lemma _putzd_spec n k s : 0 <= n -> (k <= MAX_DECIMAL_COLUMN)%nat -> pos s <= size s -> _putzd n k s = Some (wrote s (pad k n)).
Proof.
  intros Hn Hk Hs. unfold _putzd. rewrite putzd_loop_spec by (done || cbn; lia). cbn [mbind option_bind].
  rewrite app_nil_r, _puts_spec by (done || apply pad_plain). done.
Qed.

Lemma putd_step f n dec : 0 <= n -> putd_loop (S f) n dec =
  if n / 10 =? 0 then Some ((48 + n mod 10) :: dec) else putd_loop f (n / 10) ((48 + n mod 10) :: dec).
Proof. intros Hn. cbn [putd_loop]. by rewrite digit_char, Z.quot_div_nonneg by lia. Qed.

Lemma time_putd_spec n s : 1000 <= n < 10000 -> pos s <= size s -> _putd n s = Some (wrote s (pad 4 n)).
Proof.
  intros Hn Hs. unfold _putd, MAX_DECIMAL_COLUMN.
  assert (putd_loop 20 n [] = Some (pad 4 n)) as ->.
  { rewrite putd_step, (proj2 (Z.eqb_neq _ 0)) by (Z.to_euclidean_division_equations; lia).
    rewrite putd_step, (proj2 (Z.eqb_neq _ 0)) by (Z.to_euclidean_division_equations; lia).
    rewrite putd_step, (proj2 (Z.eqb_neq _ 0)) by (Z.to_euclidean_division_equations; lia).
    rewrite putd_step, (proj2 (Z.eqb_eq _ 0)) by (Z.to_euclidean_division_equations; lia). done. }
  cbn [mbind option_bind]. rewrite _puts_spec by (done || apply pad_plain). done.
Qed.

Definition plainb (c : Z) : bool := (0 <=? c) && (c <? 255).

Lemma plainb_spec x : forallb plainb x = true -> Forall plain x.
Proof.
  rewrite forallb_forall, Forall_forall. unfold plain. intros H c Hc. rewrite list_elem_of_In in Hc. apply H in Hc.
  unfold plainb in Hc. rewrite andb_true_iff, Z.leb_le, Z.ltb_lt in Hc. done.
Qed.

(** A table of plain texts. *)
Lemma puts_at_spec l i s : forallb (forallb plainb) l = true -> 0 <= i < Z.of_nat (length l) -> pos s <= size s ->
  exists x, l !! Z.to_nat i = Some x /\ puts_at l i s = Some (wrote s x) /\ Forall plain x.
Proof.
  intros Hl Hi Hs. unfold puts_at. rewrite (proj2 (Z.ltb_ge i 0)) by lia.
  destruct (lookup_lt_is_Some_2 l (Z.to_nat i)) as [x Hx]; [lia|]. rewrite Hx. cbn [mbind option_bind].
  assert (Forall plain x).
  { apply plainb_spec. rewrite forallb_forall in Hl. apply Hl. apply list_elem_of_In. by eapply list_elem_of_lookup_2. }
  exists x. by rewrite _puts_spec.
Qed.

Lemma weeks_spec t o : valid_tm t -> o = 0 \/ o = 1 -> calc_weeks t o = weeks t o /\ 0 <= weeks t o.
Proof.
  intros [_ _ _ _ _ _ Hw Hy] Ho. unfold calc_weeks, weeks. rewrite Z.rem_mod_nonneg by lia.
  pose proof (Z.mod_pos_bound (tm_yday t + (7 - tm_wday t) + o) 7). rewrite Z.quot_div_nonneg by lia.
  Z.to_euclidean_division_equations. lia.
Qed.

(** [r] is the outcome of writing [o]; [None] stands for an error. *)
Definition writes (s : strbuf_t) (o : option (list Z)) (r : option (Z * strbuf_t)) : Prop :=
  match o with Some x => r = Some (wrote s x) | None => exists s', r = Some (ERR, s') /\ pos s' <= size s' /\ size s' = size s end.

Lemma writes_at l i s : forallb (forallb plainb) l = true -> 0 <= i < Z.of_nat (length l) -> pos s <= size s ->
  writes s (l !! Z.to_nat i) (puts_at l i s).
Proof. intros Hl Hi Hs. by destruct (puts_at_spec l i s Hl Hi Hs) as (x & -> & -> & _). Qed.

(** The conversions that are formats of their own. *)
Definition locale_formats : list (list Z) := [date_time_format loc; ISO8601_FORMAT; date_format loc; time_format loc].
Definition nested (c : Z) : bool := (c =? 99) || (c =? 70) || (c =? 120) || (c =? 88).

Definition writes_inner (pin : strbuf_t -> list Z -> option (Z * strbuf_t)) (inner : list Z -> option (list Z)) : Prop :=
  forall s f, f ∈ locale_formats -> pos s <= size s -> writes s (inner f) (pin s f).

Lemma conversion_spec t pin inner c s : valid_tm t -> pos s <= size s -> (nested c = false \/ writes_inner pin inner) ->
  writes s (expansion t inner c) (conversion pin t c s).
Proof.
  intros Hv Hs Hin0. assert (Hin : nested c = true -> writes_inner pin inner) by (destruct Hin0 as [->|Hin]; done).
  clear Hin0. unfold nested in Hin. pose proof Hv as [Hsec Hmin Hhour Hmday Hmon Hyear Hwday Hyday].
  destruct (weeks_spec t 0 Hv ltac:(by left)) as [Hw0 Hw0']. destruct (weeks_spec t 1 Hv ltac:(by right)) as [Hw1 Hw1'].
  unfold expansion, conversion.
  destruct (c =? 97); [by apply writes_at|]. destruct (c =? 65); [by apply writes_at|].
  destruct (c =? 98); [by apply writes_at|]. destruct (c =? 66); [by apply writes_at|].
  destruct (c =? 99); [apply Hin; [by rewrite ?orb_true_r|unfold locale_formats; set_solver|done]|]. destruct (c =? 100); [apply _putzd_spec; done || unfold MAX_DECIMAL_COLUMN; lia|].
  destruct (c =? 70); [apply Hin; [by rewrite ?orb_true_r|unfold locale_formats; set_solver|done]|]. destruct (c =? 72); [apply _putzd_spec; done || unfold MAX_DECIMAL_COLUMN; lia|].
  destruct (c =? 73); [rewrite Z.rem_mod_nonneg by lia; apply _putzd_spec; [apply Z.mod_pos_bound; lia|unfold MAX_DECIMAL_COLUMN; lia|done]|].
  destruct (c =? 106); [apply _putzd_spec; done || unfold MAX_DECIMAL_COLUMN; lia|].
  destruct (c =? 109); [apply _putzd_spec; done || unfold MAX_DECIMAL_COLUMN; lia|].
  destruct (c =? 77); [apply _putzd_spec; done || unfold MAX_DECIMAL_COLUMN; lia|].
  destruct (c =? 112).
  { destruct (Z.ltb_spec (tm_hour t) 12).
    - replace (Z.quot (tm_hour t) 12) with 0 by (rewrite Z.quot_small; lia). by apply (writes_at (am_pm loc) 0).
    - replace (Z.quot (tm_hour t) 12) with 1 by (Z.to_euclidean_division_equations; lia). by apply (writes_at (am_pm loc) 1). }
  destruct (c =? 83); [apply _putzd_spec; done || unfold MAX_DECIMAL_COLUMN; lia|].
  destruct (c =? 85); [rewrite Hw0; apply _putzd_spec; done || unfold MAX_DECIMAL_COLUMN; lia|].
  destruct (c =? 87); [rewrite Hw1; apply _putzd_spec; done || unfold MAX_DECIMAL_COLUMN; lia|].
  destruct (c =? 120); [apply Hin; [by rewrite ?orb_true_r|unfold locale_formats; set_solver|done]|]. destruct (c =? 88); [apply Hin; [by rewrite ?orb_true_r|unfold locale_formats; set_solver|done]|].
  destruct (c =? 121); [rewrite Z.rem_mod_nonneg by lia; apply _putzd_spec; [apply Z.mod_pos_bound; lia|unfold MAX_DECIMAL_COLUMN; lia|done]|].
  destruct (c =? 89); [apply time_putd_spec; [lia|done]|].
  destruct (c =? 90); [cbn [writes]; f_equal; by apply _puts_spec; [apply plainb_spec|]|].
  destruct (c =? 37); [cbn [writes]; f_equal; by apply _puts_spec; [apply plainb_spec|]|]. by exists s.
Qed.

Lemma writes_bind s x oy k : pos s <= size s -> (forall s', pos s' <= size s' -> writes s' oy (k s')) ->
  writes s (y ← oy; Some (x ++ y)) (let '(r, s') := wrote s x in if negb (r =? 0) then Some (ERR, s') else k s').
Proof.
  intros Hs Hk. destruct (wrote s x) as [r s'] eqn:E. pose proof (wrote_range _ _ _ _ E Hs) as (Hr & Hsz & Hs').
  pose proof (wrote_app s x) as Happ. rewrite E in Happ. cbv beta iota in Happ. specialize (Hk s' Hs').
  destruct oy as [y|]; cbn [mbind option_bind writes] in *.
  - rewrite Happ by done. by destruct (negb (r =? 0)).
  - destruct (negb (r =? 0)); [by exists s'|]. rewrite <- Hsz. done.
Qed.

Lemma printf_loop_spec t pin inner : valid_tm t -> forall n f s, (length f <= n)%nat -> Forall plain f ->
  (Forall (λ c, nested c = false) f \/ writes_inner pin inner) ->
  pos s <= size s -> writes s (expand_with t inner f) (printf_loop pin t s f false).
Proof.
  intros Hv. induction n as [|n IH]; intros [|c f] s Hn Hf Hin Hs; cbn [length] in *; try lia; try (cbn; by rewrite wrote_nil).
  apply Forall_cons in Hf as [Hc Hf]. rewrite Forall_cons in Hin. cbn [expand_with printf_loop]. destruct (c =? 37).
  - destruct f as [|d f]; [cbn; by rewrite wrote_nil|]. apply Forall_cons in Hf as [_ Hf]. rewrite Forall_cons in Hin. cbn [printf_loop length] in *.
    pose proof (conversion_spec t pin inner d s Hv Hs ltac:(tauto)) as Hconv. destruct (expansion t inner d) as [x|]; cbn [writes mbind option_bind] in *.
    + rewrite Hconv. cbn [mbind option_bind].
      apply (writes_bind s x (expand_with t inner f) (λ s', printf_loop pin t s' f false) Hs). intros s' Hs'. apply IH; [lia|done|tauto|done].
    + destruct Hconv as [s' [-> Hs']]. cbn. by exists s'.
  - rewrite putc_plain by done.
    pose proof (writes_bind s [c] (expand_with t inner f) (λ s', printf_loop pin t s' f false) Hs) as Hb.
    assert (Hk : forall s', pos s' <= size s' -> writes s' (expand_with t inner f) (printf_loop pin t s' f false))
      by (intros s' Hs'; apply IH; [lia|done|tauto|done]). specialize (Hb Hk).
    destruct (wrote s [c]) as [r s'] eqn:E. pose proof (wrote_range _ _ _ _ E Hs) as ([->| ->] & _ & _).
    + change (0 =? 0) with true in *. cbn [negb] in Hb. cbv iota beta in *. by rewrite s8_err by done.
    + exact Hb.
Qed.

Lemma locale_formats_flat f : f ∈ locale_formats -> Forall plain f /\ Forall (λ c, nested c = false) f.
Proof.
  unfold locale_formats. intros Hf. split.
  - apply plainb_spec. repeat (apply elem_of_cons in Hf as [->|Hf]; [done|]). by apply elem_of_nil in Hf.
  - repeat (apply elem_of_cons in Hf as [->|Hf]; [repeat constructor|]). by apply elem_of_nil in Hf.
Qed.

Lemma _printf_spec t f s : valid_tm t -> Forall plain f -> pos s <= size s -> writes s (expand t f) (_printf 2 t s f).
Proof.
  intros Hv Hf Hs. cbn [_printf]. unfold expand. apply (printf_loop_spec t _ _ Hv (length f)); [done|done| |done].
  right. intros s' f' [Hf1 Hf2]%locale_formats_flat Hs'. apply (printf_loop_spec t _ _ Hv (length f')); [done|done|by left|done].
Qed.

Lemma strftime_spec t f maxsize : valid_tm t -> Forall plain f -> 0 <= maxsize -> exists r b, strftime maxsize f t = Some (r, b) /\
  match expand t f with
  | Some x => if Z.of_nat (length x) <? maxsize then r = Z.of_nat (length x) /\ b = x ++ [0] else r = 0
  | None => r = 0
  end /\ Z.of_nat (length b) <= maxsize.
Proof.
  intros Hv Hf Hm. unfold strftime. pose proof (_printf_spec t f (Strbuf maxsize []) Hv Hf Hm) as H.
  assert (Hp : forall b, pos (Strbuf maxsize b) = Z.of_nat (length b)) by done.
  destruct (expand t f) as [x|]; cbn [writes] in H.
  - rewrite H. unfold wrote. rewrite Hp. cbn [size buf length app mbind option_bind]. rewrite Z.add_0_l.
    destruct (Z.leb_spec (Z.of_nat (length x)) maxsize) as [Hle|Hgt].
    + change (0 =? ERR) with false. cbn iota. cbn [size buf]. rewrite Hp. destruct (Z.leb_spec maxsize (Z.of_nat (length x))) as [Hge|Hlt].
      * eexists _, _. split; [done|]. rewrite (proj2 (Z.ltb_ge _ maxsize)) by lia. done.
      * eexists _, _. split; [done|]. rewrite (proj2 (Z.ltb_lt _ maxsize)) by lia. split; [done|]. rewrite length_app. cbn. lia.
    + change (ERR =? ERR) with true. cbn iota. eexists _, _. split; [done|]. rewrite (proj2 (Z.ltb_ge _ maxsize)) by lia.
      split; [done|]. cbn [buf]. rewrite length_take. lia.
  - destruct H as (s' & -> & Hs & Hsz). cbn. eexists _, _. split; [done|]. split; [done|]. cbn in Hsz. by rewrite Hsz in Hs.
Qed.

(** ** Time stamps *)

Definition BILLION : Z := 1000000000.

(** A time stamp in its stored form, and the nanoseconds it stands for. *)
Definition stamp_ok (t : timespec) : Prop := TIMESPEC_OFFSET_NSEC <= tv_nsec t < 2 ^ 31.
Definition stamp (t : timespec) : Z := timespec_get_sec t * BILLION + timespec_get_nsec t.

Lemma timespec_set_spec sec nsec : 0 <= nsec < BILLION -> stamp_ok (timespec_set sec nsec) /\ stamp (timespec_set sec nsec) = sec * BILLION + nsec.
Proof. unfold stamp_ok, stamp, timespec_get_sec, timespec_get_nsec, timespec_set, TIMESPEC_OFFSET_NSEC, BILLION. cbn. lia. Qed.

Lemma timespec_add_spec t d : stamp_ok t -> 0 <= tv_nsec d < BILLION ->
  stamp_ok (timespec_add t d) /\ stamp (timespec_add t d) = stamp t + (tv_sec d * BILLION + tv_nsec d).
Proof.
  unfold stamp_ok, stamp, timespec_get_sec, timespec_get_nsec, timespec_add. change TIMESPEC_OFFSET_NSEC with 1147483648. unfold BILLION.
  intros Ht Hd. destruct (decide (tv_nsec t + tv_nsec d < 2 ^ 31)) as [Hs|Hb].
  - rewrite s32_small by (unfold is_s32; lia). rewrite (proj2 (Z.ltb_ge _ 0)) by lia. cbn [tv_sec tv_nsec]. lia.
  - assert (s32 (tv_nsec t + tv_nsec d) = tv_nsec t + tv_nsec d - 2 ^ 32) as ->.
    { unfold s32. cbv zeta. replace (tv_nsec t + tv_nsec d + 2 ^ 31) with (tv_nsec t + tv_nsec d - 2 ^ 31 + 1 * 2 ^ 32) by lia.
      rewrite Z.mod_add, Z.mod_small by lia. lia. }
    rewrite (proj2 (Z.ltb_lt _ 0)) by lia. cbn [tv_sec tv_nsec]. change 0x7fffffff with (Z.ones 31). rewrite Z.land_ones by lia.
    assert ((tv_nsec t + tv_nsec d - 2 ^ 32) mod 2 ^ 31 = tv_nsec t + tv_nsec d - 2 ^ 31) as ->.
    { replace (tv_nsec t + tv_nsec d - 2 ^ 32) with (tv_nsec t + tv_nsec d - 2 ^ 31 + (-1) * 2 ^ 31) by lia.
      rewrite Z.mod_add, Z.mod_small by lia. done. }
    rewrite s32_small by (unfold is_s32; lia). lia.
Qed.

Lemma timespec_compare_spec t1 t2 : stamp_ok t1 -> stamp_ok t2 ->
  (timespec_compare t1 t2 < 0 <-> stamp t1 < stamp t2) /\ (timespec_compare t1 t2 = 0 <-> stamp t1 = stamp t2) /\
  (timespec_equals t1 t2 = true <-> stamp t1 = stamp t2) /\ is_s32 (timespec_compare t1 t2).
Proof.
  unfold stamp_ok, stamp, timespec_get_sec, timespec_get_nsec, timespec_compare, timespec_equals, is_s32.
  change TIMESPEC_OFFSET_NSEC with 1147483648. unfold BILLION. intros H1 H2. rewrite andb_true_iff, !Z.eqb_eq.
  destruct (Z.ltb_spec (tv_sec t1 - tv_sec t2) 0); [lia|]. destruct (Z.ltb_spec 0 (tv_sec t1 - tv_sec t2)); lia.
Qed.

(** ** Properties *)

Lemma month_days_max lf m : month_days lf m <= 31.
Proof. unfold month_days. destruct (m =? 1), lf, (m =? 3), (m =? 5), (m =? 8), (m =? 10); cbn; lia. Qed.

Lemma gmtime_valid t : 0 <= t < 2 ^ 31 -> valid_tm (gmtime_r t).
Proof.
  intros Ht. destruct (gmtime_spec t Ht) as (_ & _ & _ & Hh & Hm & Hs). revert Hh Hm Hs.
  unfold gmtime_r. change 0xffffffff with (Z.ones 32). rewrite Z.land_ones, (Z.mod_small t) by lia.
  rewrite s32_small by (unfold is_s32; lia). rewrite Z.quot_div_nonneg, (Z.rem_mod_nonneg t) by (done || lia).
  set (n := t / SECONDS_PER_DAY). assert (Hn : 0 <= n <= 24855).
  { unfold n. change SECONDS_PER_DAY with 86400. Z.to_euclidean_division_equations. lia. }
  pose proof (year_of_spec (n + EPOCH_DAYS)) as Hy. destruct (year_of (n + EPOCH_DAYS)) as [y d].
  destruct Hy as (Hy1 & Hd & Hday); [unfold EPOCH_DAYS; lia|].
  pose proof (month_spec y d ltac:(lia) Hd) as Hmo. destruct (month_loop (get_days_of_month y) 0 d) as [m d']. destruct Hmo as [[Hm1 Hm2] _].
  pose proof (month_days_max (leap y) m). cbn [tm_sec tm_min tm_hour]. intros Hh Hm Hs.
  split; cbn [tm_sec tm_min tm_hour tm_mday tm_mon tm_year tm_wday tm_yday]; try lia.
  - assert (before_year y + d = n + EPOCH_DAYS \/ before_year y + d = n + EPOCH_DAYS + 1) as Hb by tauto.
    clear Hday. change EPOCH_DAYS with 719162 in Hb.
    destruct (decide (y < 1970)); [pose proof (before_year_mono y 1969); change (before_year 1969) with 718797 in *; lia|].
    destruct (decide (2100 < y)); [pose proof (before_year_mono 2100 y); change (before_year 2100) with 766644 in *; lia|]. lia.
  - unfold EPOCH_DAYS. rewrite Z.rem_mod_nonneg by lia. apply Z.mod_pos_bound. lia.
Qed.

(** C39: the date of a time.  For every number of seconds that fits into 31 bits
    [gmtime_r] fills a structure whose fields are in their ranges and whose time
    of the day is right; on every day but the last one of a leap year the date
    is the day of the Gregorian calendar, with its number in the year and its
    day of the week; on the last day of a leap year it is the first day of the
    next year. *)
Theorem gmtime_correct t : 0 <= t < 2 ^ 31 ->
  let r := gmtime_r t in let n := t / SECONDS_PER_DAY in
  valid_tm r /\
  t mod SECONDS_PER_DAY = (tm_hour r * 60 + tm_min r) * 60 + tm_sec r /\
  (~ last_leap_day (n + EPOCH_DAYS) -> is_date r n) /\
  (last_leap_day (n + EPOCH_DAYS) -> date_days (tm_year r + 1900) (tm_mon r) (tm_mday r) = n + 1 + EPOCH_DAYS).
Proof.
  intros Ht r n. destruct (gmtime_spec t Ht) as (H1 & H2 & H3 & _). split; [by apply gmtime_valid|]. split; [done|]. done.
Qed.

(** 2001-09-09 01:46:40 *)
Lemma gmtime_correct_witness : is_date (gmtime_r 1000000000) 11574.
Proof.
  destruct (gmtime_correct 1000000000 ltac:(lia)) as (_ & _ & H & _). apply H.
  apply (not_last 2001 251); [lia|reflexivity].
Defined.

(** The last second of 2024 is taken for the last second of the first of January 2025. *)
Lemma gmtime_last_day : gmtime_r 1735689599 = Tm 59 59 23 1 0 125 2 0 0 /\ last_leap_day (1735689599 / SECONDS_PER_DAY + EPOCH_DAYS).
Proof. split; [vm_compute; reflexivity|]. exists 2024. split; vm_compute; reflexivity. Qed.

(** The text of a date.  For every format and every structure with fields in
    their ranges, [strftime] returns the length of the text that the format
    stands for and stores it with a zero behind it, if that fits into the
    buffer, and returns zero if it does not fit or a conversion is unknown; it
    never writes behind the buffer. *)
Theorem strftime_correct t f maxsize : valid_tm t -> Forall plain f -> 0 <= maxsize ->
  exists r b, strftime maxsize f t = Some (r, b) /\ Z.of_nat (length b) <= maxsize /\
    match expand t f with
    | Some x => if Z.of_nat (length x) <? maxsize then r = Z.of_nat (length x) /\ b = x ++ [0] else r = 0
    | None => r = 0
    end.
Proof. intros Hv Hf Hm. destruct (strftime_spec t f maxsize Hv Hf Hm) as (r & b & H1 & H2 & H3). by exists r, b. Qed.

Lemma strftime_correct_witness : strftime 25 (text "%c") (gmtime_r 1000000000) = Some (24, text "Sun Sep 09 01:46:40 2001" ++ [0]).
Proof.
  destruct (strftime_correct (gmtime_r 1000000000) (text "%c") 25) as (r & b & E & _ & H).
  - apply gmtime_valid. lia.
  - apply plainb_spec. vm_compute. reflexivity.
  - lia.
  - rewrite E. vm_compute in H. destruct H as [-> ->]. vm_compute. reflexivity.
Defined.

(** Noon and midnight are hour 00 of 12. *)
Lemma strftime_noon : strftime 9 (text "%I:%M %p") (gmtime_r 43200) = Some (8, text "00:00 PM" ++ [0]).
Proof. vm_compute. reflexivity. Qed.
