(* ===== verification/Sort.v ===== *)
(** * Sorting and searching (lib/libc/stdlib: qsort, bsearch)

    [qsort] merges sorted blocks bottom up and sorts blocks of up to fifty
    elements by insertion; [bsearch] halves the interval.  An array is the list
    of its elements; an index out of it is undefined behaviour, [None]. *)

From stdpp Require Import sorting.
From S2P Require Import Prelude.

Section Code.
Context {A : Type} (compar : A -> A -> Z).

Definition THRESHOLD : Z := 50.

(** An element is [size] bytes; indices count elements. *)
Definition ld (base : list A) (i : Z) : option A := if i <? 0 then None else base !! Z.to_nat i.

Definition st (base : list A) (i : Z) (x : A) : option (list A) :=
  if i <? 0 then None else match base !! Z.to_nat i with Some _ => Some (<[Z.to_nat i := x]> base) | None => None end.

(** The loop on [j] of [insert]: where it stops, and the elements moved up. *)
Fixpoint shift_loop (f : nat) (base : list A) (work : A) (low j : Z) : option (list A * Z) :=
  match f with
  | O => None
  | S f =>
      if j <? low then Some (base, j)
      else
        p ← ld base j;
        if compar p work <=? 0 then Some (base, j)
        else base ← st base (j + 1) p; shift_loop f base work low (j - 1)
  end.

Fixpoint insert_loop (f : nat) (base : list A) (low high i : Z) : option (list A) :=
  match f with
  | O => None
  | S f =>
      if high <? i then Some base
      else
        work ← ld base i;
        '(base, j) ← shift_loop (S (length base)) base work low (i - 1);
        base ← st base (j + 1) work;
        insert_loop f base low high (i + 1)
  end.

Definition insert (base : list A) (low high : Z) : option (list A) :=
  insert_loop (S (length base)) base low high (low + 1).

(** [memcpy] of [n] elements out of an array. *)
Fixpoint copy_out (n : nat) (base : list A) (i : Z) : option (list A) :=
  match n with O => Some [] | S n => x ← ld base i; l ← copy_out n base (i + 1); Some (x :: l) end.

Fixpoint copy_in (base : list A) (i : Z) (l : list A) : option (list A) :=
  match l with [] => Some base | x :: l => base ← st base i x; copy_in base (i + 1) l end.

(** The loop of [merge]: [to], [w], [b] as indices, [w] being [j]; [b] and [i]
    go up together. *)
Fixpoint merge_loop (f : nat) (base work : list A) (high range to b j i : Z) : option (list A * Z * Z) :=
  match f with
  | O => None
  | S f =>
      if range <? j then Some (base, to, j)
      else
        x ← ld work j; y ← ld base b;
        if compar x y <=? 0 then base ← st base to x; merge_loop f base work high range (to + 1) b (j + 1) i
        else
          base ← st base to y;
          if high <? i + 1 then Some (base, to + 1, j)
          else merge_loop f base work high range (to + 1) (b + 1) j (i + 1)
  end.

Definition merge (base : list A) (low high range : Z) : option (list A) :=
  if low <? high then
    let i := range + 1 in
    work ← copy_out (Z.to_nat i) base low;
    '(base, to, j) ← merge_loop (S (length base + length work)) base work high range low i 0 i;
    rest ← copy_out (Z.to_nat (range - j + 1)) work j;
    copy_in base to rest
  else Some base.

(** One pass over the blocks of [pair] elements. *)
Fixpoint pass_loop (f : nat) (base : list A) (range i : Z) : option (list A) :=
  match f with
  | O => None
  | S f =>
      let nmemb := Z.of_nat (length base) in
      let pair := 2 * range in
      if i <? nmemb then
        let high := Z.min (i + pair - 1) (nmemb - 1) in
        base ← (if high - i <? THRESHOLD then insert base i high else merge base i high (range - 1));
        pass_loop f base range (i + pair)
      else Some base
  end.

Fixpoint range_loop (f : nat) (base : list A) (range : Z) : option (list A) :=
  match f with
  | O => None
  | S f =>
      if range <? Z.of_nat (length base) then
        base ← pass_loop (S (length base)) base range 0;
        range_loop f base (2 * range)
      else Some base
  end.

(** [work] tells whether [malloc] gave the work area.  Its result is not looked
    at, and the first block of two elements is inserted through it. *)
Definition qsort (work : bool) (base : list A) : option (list A) :=
  if negb work && (1 <? Z.of_nat (length base)) then None else range_loop (S (length base)) base 1.

(** The index of an element that compares equal. *)
Fixpoint bsearch_loop (f : nat) (cmp : A -> Z) (base : list A) (low high : Z) : option (option Z) :=
  match f with
  | O => None
  | S f =>
      if low <=? high then
        let middle := low + Z.quot (high - low) 2 in
        p ← ld base middle;
        let diff := cmp p in
        if diff =? 0 then Some (Some middle)
        else if diff <? 0 then bsearch_loop f cmp base low (middle - 1)
        else bsearch_loop f cmp base (middle + 1) high
      else Some None
  end.

Definition bsearch (cmp : A -> Z) (base : list A) : option (option Z) :=
  bsearch_loop (S (length base)) cmp base 0 (Z.of_nat (length base) - 1).

End Code.

(** ** Accesses *)

Section Sort.
Context {A : Type} (compar : A -> A -> Z).

Lemma ld_at (l1 : list A) x l2 i : i = Z.of_nat (length l1) -> ld (l1 ++ x :: l2) i = Some x.
Proof. intros ->. unfold ld. rewrite (proj2 (Z.ltb_ge _ 0)), Nat2Z.id by lia. by apply list_lookup_middle. Qed.

Lemma st_at (l1 : list A) x l2 i y : i = Z.of_nat (length l1) -> st (l1 ++ x :: l2) i y = Some (l1 ++ y :: l2).
Proof.
  intros ->. unfold st. rewrite (proj2 (Z.ltb_ge _ 0)), Nat2Z.id by lia. rewrite (list_lookup_middle l1 l2 x _ eq_refl).
  f_equal. rewrite insert_app_r_alt, Nat.sub_diag by lia. done.
Qed.

Lemma copy_out_at n (l1 l l2 : list A) i : i = Z.of_nat (length l1) -> n = length l -> copy_out n (l1 ++ l ++ l2) i = Some l.
Proof.
  intros -> ->. revert l1. induction l as [|x l IH]; intros l1; [done|]. cbn [length copy_out].
  change ((x :: l) ++ l2) with (x :: l ++ l2). rewrite ld_at by done. cbn [mbind option_bind].
  replace (Z.of_nat (length l1) + 1) with (Z.of_nat (length (l1 ++ [x]))) by (rewrite length_app; cbn; lia).
  rewrite (cons_middle x l1), app_assoc, IH. done.
Qed.

Lemma copy_in_at (l1 l0 l l2 : list A) i : i = Z.of_nat (length l1) -> length l0 = length l ->
  copy_in (l1 ++ l0 ++ l2) i l = Some (l1 ++ l ++ l2).
Proof.
  intros ->. revert l1 l0. induction l as [|x l IH]; intros l1 [|y l0] Hl; try done. cbn [copy_in].
  change ((y :: l0) ++ l2) with (y :: l0 ++ l2). rewrite st_at by done. cbn [mbind option_bind].
  replace (Z.of_nat (length l1) + 1) with (Z.of_nat (length (l1 ++ [x]))) by (rewrite length_app; cbn; lia).
  rewrite (cons_middle x l1), app_assoc, IH by (cbn in Hl; lia). by rewrite <- app_assoc.
Qed.

(** ** Order *)

Definition le (x y : A) : Prop := compar x y <= 0.

Context (le_trans : forall x y z, le x y -> le y z -> le x z).
Context (le_total : forall x y, le x y \/ le y x).

Notation sorted := (StronglySorted le).

Lemma sorted_app l1 l2 : sorted l1 -> sorted l2 -> (forall x y, x ∈ l1 -> y ∈ l2 -> le x y) -> sorted (l1 ++ l2).
Proof. intros. by apply StronglySorted_app_2. Qed.

Lemma sorted_app_inv l1 l2 : sorted (l1 ++ l2) -> sorted l1 /\ sorted l2 /\ (forall x y, x ∈ l1 -> y ∈ l2 -> le x y).
Proof. rewrite StronglySorted_app. tauto. Qed.

(** ** Insertion *)

(** The elements above [w] move up by one. *)
Lemma rotate_shift_spec P w T S1 : forall f g S2 base j,
  base = P ++ S1 ++ g :: S2 ++ T -> j = Z.of_nat (length P + length S1) - 1 -> (length S1 < f)%nat ->
  exists S1' S1'' g', S1 = S1' ++ S1'' /\ Forall (λ p, ~ le p w) S1'' /\ (forall p, last S1' = Some p -> le p w) /\
    shift_loop compar f base w (Z.of_nat (length P)) j =
    Some (P ++ S1' ++ g' :: S1'' ++ S2 ++ T, Z.of_nat (length P + length S1') - 1).
Proof.
  induction S1 as [|p S1 IH] using rev_ind; intros [|f] g S2 base j -> -> Hf; rewrite ?length_app in Hf; cbn [length] in Hf; try lia;
    cbn [shift_loop].
  - exists [], [], g. rewrite (proj2 (Z.ltb_lt _ _)) by (cbn; lia). split; [done|]. split; [constructor|]. split; [done|]. done.
  - rewrite length_app. cbn [length]. rewrite (proj2 (Z.ltb_ge _ _)) by lia.
    assert (E : P ++ (S1 ++ [p]) ++ g :: S2 ++ T = (P ++ S1) ++ p :: g :: S2 ++ T) by (rewrite <- !app_assoc; done).
    rewrite E, ld_at by (rewrite length_app; lia). cbn [mbind option_bind].
    destruct (Z.leb_spec (compar p w) 0) as [Hle|Hgt].
    + exists (S1 ++ [p]), [], g. rewrite app_nil_r, last_snoc, <- E, length_app. split; [done|]. split; [constructor|].
      split; [|done]. by intros ? [= <-].
    + assert (E' : (P ++ S1) ++ p :: g :: S2 ++ T = ((P ++ S1) ++ [p]) ++ g :: S2 ++ T) by (rewrite <- !app_assoc; done).
      rewrite E', st_at by (rewrite !length_app; cbn; lia). cbn [mbind option_bind].
      destruct (IH f p (p :: S2) (((P ++ S1) ++ [p]) ++ p :: S2 ++ T) (Z.of_nat (length P + (length S1 + 1)) - 1 - 1)) as (S1' & S1'' & g' & -> & H1 & H2 & ->);
        [by rewrite <- !app_assoc|lia|lia|].
      exists S1', (S1'' ++ [p]), g'. rewrite <- app_assoc. split; [done|]. split; [|split; [done|by rewrite <- app_assoc]].
      apply Forall_app. split; [done|]. apply Forall_singleton. unfold le. lia.
Qed.

Lemma sorted_insert S1 S2 w : sorted (S1 ++ S2) -> Forall (λ p, ~ le p w) S2 -> (forall p, last S1 = Some p -> le p w) -> sorted (S1 ++ w :: S2).
Proof.
  intros H H2 H1. apply sorted_app_inv in H as (Hs1 & Hs2 & H12).
  assert (Hw2 : forall y, y ∈ S2 -> le w y).
  { intros y Hy. rewrite Forall_forall in H2. destruct (le_total w y) as [|Hyw]; [done|]. by apply H2 in Hyw. }
  assert (Hw1 : forall x, x ∈ S1 -> le x w).
  { destruct S1 as [|z S1 _] using rev_ind; [by intros x Hx%elem_of_nil|]. specialize (H1 z (last_snoc _ _)).
    apply sorted_app_inv in Hs1 as (_ & _ & Hz). intros x [Hx|Hx]%elem_of_app.
    - apply (le_trans x z); [|done]. apply Hz; [done|]. by apply list_elem_of_singleton.
    - by apply list_elem_of_singleton in Hx as ->. }
  apply sorted_app; [done| |].
  - constructor; [done|]. apply Forall_forall. done.
  - intros x y Hx [->|Hy]%elem_of_cons; [by apply Hw1|by apply H12].
Qed.

Lemma insert_loop_spec P T B : forall f S1, sorted S1 -> (length B < f)%nat ->
  exists B', insert_loop compar f (P ++ S1 ++ B ++ T) (Z.of_nat (length P)) (Z.of_nat (length P + length S1 + length B) - 1)
      (Z.of_nat (length P + length S1)) = Some (P ++ B' ++ T) /\ S1 ++ B ≡ₚ B' /\ sorted B'.
Proof.
  induction B as [|w B IH]; intros [|f] S1 Hs Hf; cbn [length] in *; try lia; cbn [insert_loop].
  - rewrite (proj2 (Z.ltb_lt _ _)) by lia. exists S1. by rewrite app_nil_r.
  - rewrite (proj2 (Z.ltb_ge _ _)) by lia. cbn [app]. rewrite (app_assoc P S1), ld_at by (rewrite length_app; lia). cbn [mbind option_bind].
    destruct (rotate_shift_spec P w (B ++ T) S1 (S (length ((P ++ S1) ++ w :: B ++ T))) w [] ((P ++ S1) ++ w :: B ++ T)
      (Z.of_nat (length P + length S1) - 1)) as (S1' & S1'' & g & -> & H1 & H2 & E);
      [by rewrite <- app_assoc|done|rewrite !length_app; lia|].
    rewrite E. cbn [mbind option_bind app]. rewrite (app_assoc P S1'), st_at by (rewrite length_app; lia). cbn [mbind option_bind].
    assert (Hs' : sorted (S1' ++ w :: S1'')) by (by apply sorted_insert).
    destruct (IH f (S1' ++ w :: S1'') Hs' ltac:(lia)) as (B' & E' & Hp & HB). exists B'. split; [|split; [|done]].
    + rewrite <- E'. f_equal; [by rewrite <- !app_assoc|rewrite !length_app; cbn; lia|rewrite !length_app; cbn; lia].
    + rewrite <- Hp, <- app_assoc. rewrite <- !Permutation_middle. cbn. by rewrite <- app_assoc.
Qed.

Lemma insert_spec P B T : B ≠ [] ->
  exists B', insert compar (P ++ B ++ T) (Z.of_nat (length P)) (Z.of_nat (length P + length B) - 1) = Some (P ++ B' ++ T) /\
    B ≡ₚ B' /\ sorted B'.
Proof.
  destruct B as [|x B]; [done|]. intros _. unfold insert.
  destruct (insert_loop_spec P T B (S (length (P ++ (x :: B) ++ T))) [x]) as (B' & E & Hp & Hs);
    [by repeat constructor|rewrite !length_app; cbn; lia|].
  exists B'. split; [|done]. cbn [length app] in *.
  replace (Z.of_nat (length P) + 1) with (Z.of_nat (length P + 1)) by lia.
  by replace (Z.of_nat (length P + S (length B)) - 1) with (Z.of_nat (length P + 1 + length B) - 1) by lia.
Qed.

(** ** Merging *)

Lemma sorted_cons_all x l : sorted (x :: l) -> forall y, y ∈ l -> le x y.
Proof. intros [_ H]%StronglySorted_inv. rewrite Forall_forall in H. exact H. Qed.

(** [W] is left of the work area, [R] of the second block, and [G] is as long as
    [W]: the room between what has been merged and [R]. *)
Lemma merge_loop_spec T : forall f M G R V W base range to b j i high,
  base = M ++ G ++ R ++ T -> R ≠ [] -> length G = length W -> sorted W -> sorted R ->
  to = Z.of_nat (length M) -> b = Z.of_nat (length M + length G) -> i = b -> high = i + Z.of_nat (length R) - 1 ->
  j = Z.of_nat (length V) -> range = j + Z.of_nat (length W) - 1 -> (length W + length R < f)%nat ->
  exists X G' R' V' W', merge_loop compar f base (V ++ W) high range to b j i =
      Some (M ++ X ++ G' ++ R' ++ T, Z.of_nat (length M + length X), Z.of_nat (length V')) /\
    V ++ W = V' ++ W' /\ length G' = length W' /\ X ++ W' ++ R' ≡ₚ W ++ R /\ sorted (X ++ W' ++ R').
Proof.
  induction f as [|f IH]; intros M G R V W base range to b j i high -> HR HG HsW HsR -> -> -> -> -> -> Hf; [lia|]. cbn [merge_loop].
  destruct W as [|x W].
  { rewrite (proj2 (Z.ltb_lt _ _)) by (cbn; lia). exists [], G, R, V, []. cbn [length app]. rewrite Nat.add_0_r. done. }
  cbn [length] in *. rewrite (proj2 (Z.ltb_ge _ _)) by lia. rewrite ld_at by done. cbn [mbind option_bind].
  destruct R as [|y R]; [done|]. cbn [app]. rewrite (app_assoc M G), ld_at by (by rewrite length_app). cbn [mbind option_bind].
  destruct G as [|g G]; [done|]. cbn [length] in *. injection HG as HG. rewrite <- (app_assoc M). cbn [app].
  destruct (Z.leb_spec (compar x y) 0) as [Hle|Hgt].
  - rewrite st_at by done. cbn [mbind option_bind].
    destruct (IH (M ++ [x]) G (y :: R) (V ++ [x]) W (M ++ x :: G ++ y :: R ++ T)
      (Z.of_nat (length V) + Z.of_nat (S (length W)) - 1) (Z.of_nat (length M) + 1) (Z.of_nat (length M + S (length G)))
      (Z.of_nat (length V) + 1) (Z.of_nat (length M + S (length G))) (Z.of_nat (length M + S (length G)) + Z.of_nat (S (length R)) - 1))
      as (X & G' & R' & V' & W' & E & EV & HG' & Hp & Hs); rewrite ?length_app; cbn [length] in *; try lia; try done.
    { by rewrite <- app_assoc. }
    { by apply StronglySorted_inv in HsW as [? _]. }
    exists (x :: X), G', R', V', W'. rewrite <- app_assoc in E, EV. cbn [app length] in *. rewrite E.
    split; [rewrite <- app_assoc, length_app; cbn; do 3 f_equal; lia|]. split; [done|]. split; [done|]. split; [by rewrite Hp|].
    constructor; [done|]. apply Forall_forall. intros z Hz. rewrite Hp in Hz. apply elem_of_app in Hz as [Hz|[->|Hz]%elem_of_cons].
    + by apply (sorted_cons_all x W).
    + done.
    + apply (le_trans x y); [done|]. by apply (sorted_cons_all y R).
  - rewrite st_at by done. cbn [mbind option_bind].
    assert (Hyx : le y x) by (destruct (le_total y x); [done|]; unfold le in *; lia).
    assert (Hall : forall z, z ∈ (x :: W) ++ R -> le y z).
    { intros z [[->|Hz]%elem_of_cons|Hz]%elem_of_app; [done| |by apply (sorted_cons_all y R)].
      apply (le_trans y x); [done|]. by apply (sorted_cons_all x W). }
    destruct R as [|y' R].
    + rewrite (proj2 (Z.ltb_lt _ _)) by (cbn; lia). exists [y], (G ++ [y]), [], V, (x :: W). cbn [length app].
      split; [rewrite <- app_assoc; cbn; do 3 f_equal; lia|]. split; [done|]. split; [rewrite length_app; cbn; lia|].
      rewrite app_nil_r. split; [exact (Permutation_app_comm [y] (x :: W))|]. constructor; [done|].
      apply Forall_forall. intros z Hz. apply Hall. by rewrite app_nil_r.
    + rewrite (proj2 (Z.ltb_ge _ _)) by (cbn; lia).
      destruct (IH (M ++ [y]) (G ++ [y]) (y' :: R) V (x :: W) (M ++ y :: G ++ y :: (y' :: R) ++ T)
        (Z.of_nat (length V) + Z.of_nat (S (length W)) - 1) (Z.of_nat (length M) + 1) (Z.of_nat (length M + S (length G)) + 1)
        (Z.of_nat (length V)) (Z.of_nat (length M + S (length G)) + 1) (Z.of_nat (length M + S (length G)) + Z.of_nat (S (length (y' :: R))) - 1))
        as (X & G' & R' & V' & W' & E & EV & HG' & Hp & Hs); rewrite ?length_app; cbn [length] in *; try lia; try done.
      { by rewrite <- !app_assoc. }
      { by apply StronglySorted_inv in HsR as [? _]. }
      exists (y :: X), G', R', V', W'. rewrite E. cbn [app length].
      split; [rewrite <- app_assoc; cbn; rewrite length_app; cbn; do 3 f_equal; lia|]. split; [done|]. split; [done|].
      split; [rewrite Hp; exact (Permutation_middle (x :: W) (y' :: R) y)|]. constructor; [done|]. apply Forall_forall. intros z Hz. rewrite Hp in Hz. by apply Hall.
Qed.

Lemma merge_spec B1 B2 T : B1 ≠ [] -> B2 ≠ [] -> sorted B1 -> sorted B2 ->
  exists B', merge compar (B1 ++ B2 ++ T) 0 (Z.of_nat (length B1 + length B2) - 1) (Z.of_nat (length B1) - 1) = Some (B' ++ T) /\
    B1 ++ B2 ≡ₚ B' /\ sorted B'.
Proof.
  intros H1 H2 Hs1 Hs2. unfold merge. assert (0 < length B1)%nat by (destruct B1; cbn; [done|lia]).
  assert (0 < length B2)%nat by (destruct B2; cbn; [done|lia]). rewrite (proj2 (Z.ltb_lt 0 _)) by lia.
  rewrite (copy_out_at _ [] B1 (B2 ++ T)) by (cbn; lia). cbn [mbind option_bind].
  destruct (merge_loop_spec T (S (length (B1 ++ B2 ++ T) + length B1)) [] B1 B2 [] B1 (B1 ++ B2 ++ T) (Z.of_nat (length B1) - 1) 0
    (Z.of_nat (length B1) - 1 + 1) 0 (Z.of_nat (length B1) - 1 + 1) (Z.of_nat (length B1 + length B2) - 1))
    as (X & G & R & V & W & E & EV & HG & Hp & Hs); cbn [length app]; rewrite ?length_app; try lia; try done.
  cbn [app] in E, EV. rewrite !length_app in E. rewrite E. cbn [mbind option_bind].
  assert (copy_out (Z.to_nat (Z.of_nat (length B1) - 1 - Z.of_nat (length V) + 1)) B1 (Z.of_nat (length V)) = Some W) as ->.
  { rewrite EV, length_app, <- (app_nil_r (V ++ W)), <- app_assoc. apply copy_out_at; lia. }
  cbn [mbind option_bind]. rewrite (copy_in_at X G W (R ++ T)) by (cbn; lia || done).
  exists (X ++ W ++ R). split; [by rewrite <- !app_assoc|]. split; [by symmetry|done].
Qed.

(** ** Passes *)

(** Sorted blocks of [r] elements, the last one possibly shorter. *)
Inductive blocks (r : nat) : list A -> Prop :=
  | blocks_last l : (length l <= r)%nat -> sorted l -> blocks r l
  | blocks_cons b l : length b = r -> sorted b -> blocks r l -> blocks r (b ++ l).

Lemma blocks_one l : blocks 1 l.
Proof.
  induction l as [|x l IH]; [apply blocks_last; [cbn; lia|constructor]|].
  apply (blocks_cons 1 [x] l); [done|by repeat constructor|done].
Qed.

Lemma blocks_small r l : blocks r l -> (length l <= r)%nat -> sorted l.
Proof.
  intros [l' _ Hs|b l' Hb Hs _] Hl; [done|]. rewrite length_app in Hl. destruct l'; [by rewrite app_nil_r|cbn in Hl; lia].
Qed.

(** The first block, or the first two of them. *)
Lemma blocks_first r l : blocks r l -> (r < length l)%nat -> exists b l', l = b ++ l' /\ length b = r /\ sorted b /\ blocks r l' /\ l' ≠ [].
Proof.
  intros [l' Hl Hs|b l' Hb Hs Hl'] Hr; [lia|]. exists b, l'. rewrite length_app in Hr. split; [done|]. split; [done|]. split; [done|].
  split; [done|]. by intros ->; cbn in Hr; lia.
Qed.

(** A block of twice the size, and what lies behind it. *)
Lemma blocks_pair r L : (1 <= r)%nat -> blocks r L -> (0 < length L)%nat ->
  exists B T, L = B ++ T /\ B ≠ [] /\ (length B <= 2 * r)%nat /\ (T ≠ [] -> length B = 2 * r)%nat /\ blocks r T /\
    ((r < length L)%nat -> exists b1 b2, B = b1 ++ b2 /\ length b1 = r /\ b2 ≠ [] /\ sorted b1 /\ sorted b2).
Proof.
  intros Hr HL HL0. assert (Hnil : blocks r []) by (apply blocks_last; [cbn; lia|constructor]).
  destruct (decide (length L <= r)%nat) as [Hle|Hgt].
  - exists L, []. rewrite app_nil_r. split; [done|]. split; [by intros ->; cbn in HL0; lia|]. split; [lia|]. split; [done|].
    split; [done|]. lia.
  - destruct (blocks_first r L HL ltac:(lia)) as (b1 & l1 & -> & Hb1 & Hs1 & Hbl & Hne).
    destruct (decide (length l1 <= r)%nat) as [Hle|Hgt'].
    + exists (b1 ++ l1), []. rewrite app_nil_r. split; [done|]. split; [by destruct b1; destruct l1|].
      split; [rewrite length_app; lia|]. split; [done|]. split; [done|]. intros _. exists b1, l1.
      pose proof (blocks_small _ _ Hbl Hle). done.
    + destruct (blocks_first r l1 Hbl ltac:(lia)) as (b2 & l2 & -> & Hb2 & Hs2 & Hbl2 & Hne2).
      exists (b1 ++ b2), l2. rewrite <- app_assoc. split; [done|].
      assert (b2 ≠ []) by (intros ->; cbn in Hb2; lia). split; [by destruct b1, b2|]. split; [rewrite length_app; lia|].
      split; [rewrite length_app; lia|]. split; [done|]. intros _. by exists b1, b2.
Qed.

(** The limit of the proof: a block of more than fifty elements that does not
    start the array would have to lie in an array of more than 114. *)
Lemma pass_loop_spec k : forall f D L, let r := (2 ^ k)%nat in
  (length D + length L <= 114)%nat -> (exists q, length D = q * (2 * r))%nat -> blocks r L -> (length D = 0%nat -> (r < length L)%nat) ->
  (length L < f)%nat ->
  exists L', pass_loop compar f (D ++ L) (Z.of_nat r) (Z.of_nat (length D)) = Some (D ++ L') /\ L ≡ₚ L' /\ blocks (2 * r) L'.
Proof.
  intros f. induction f as [|f IH]; intros D L r Hn [q Hq] HL H0 Hf; [lia|]. cbn [pass_loop]. rewrite length_app.
  assert (Hr : (1 <= r)%nat) by (unfold r; clear; induction k; cbn; lia).
  destruct L as [|x0 L0] eqn:EL.
  { rewrite (proj2 (Z.ltb_ge _ _)) by (cbn; lia). exists []. split; [done|]. split; [done|]. apply blocks_last; [cbn; lia|constructor]. }
  rewrite <- EL in *. assert (HL0 : (0 < length L)%nat) by (subst L; cbn; lia). clear EL. rewrite (proj2 (Z.ltb_lt _ _)) by lia.
  destruct (blocks_pair r L Hr HL HL0) as (B & T & -> & HB0 & HB & HT & HbT & Hhalves).
  rewrite length_app in *. assert (HBp : (0 < length B)%nat) by (destruct B; [done|cbn; lia]).
  assert (Hhigh : Z.min (Z.of_nat (length D) + 2 * Z.of_nat r - 1) (Z.of_nat (length D + (length B + length T)) - 1) = Z.of_nat (length D + length B) - 1).
  { destruct T as [|t T]; [cbn; lia|]. specialize (HT ltac:(done)). lia. }
  rewrite Hhigh.
  assert (exists B', (if Z.of_nat (length D + length B) - 1 - Z.of_nat (length D) <? THRESHOLD
      then insert compar (D ++ B ++ T) (Z.of_nat (length D)) (Z.of_nat (length D + length B) - 1)
      else merge compar (D ++ B ++ T) (Z.of_nat (length D)) (Z.of_nat (length D + length B) - 1) (Z.of_nat r - 1)) = Some (D ++ B' ++ T) /\
    B ≡ₚ B' /\ sorted B') as (B' & E & Hp & Hs).
  { unfold THRESHOLD. destruct (Z.ltb_spec (Z.of_nat (length D + length B) - 1 - Z.of_nat (length D)) 50) as [Hsmall|Hbig]; [by apply insert_spec|].
    assert (Hk : (5 <= k)%nat).
    { destruct (decide (5 <= k)%nat); [done|]. pose proof (Nat.pow_le_mono_r 2 k 4). unfold r in *. cbn in *. lia. }
    pose proof (Nat.pow_le_mono_r 2 5 k ltac:(lia) Hk) as Hr32. change (2 ^ 5)%nat with 32%nat in Hr32. fold r in Hr32.
    assert (length D = 0%nat) as HD by (destruct q; [lia|nia]). destruct (Hhalves (H0 HD)) as (b1 & b2 & -> & Hb1 & Hb2 & Hs1 & Hs2).
    apply nil_length_inv in HD. subst D. cbn [app length Nat.add]. rewrite <- app_assoc.
    destruct (merge_spec b1 b2 T) as (B' & E & Hp & Hs); [by intros ->; cbn in *; lia|done..|].
    exists B'. rewrite length_app, <- Hb1. change (Z.of_nat 0) with 0. done. }
  rewrite E. cbn [mbind option_bind]. apply Permutation_length in Hp as HlenB.
  destruct (decide (T = [])) as [->|HTne].
  - rewrite app_nil_r in *. destruct f as [|f]; [lia|]. cbn [pass_loop]. rewrite length_app, (proj2 (Z.ltb_ge _ _)) by (cbn in *; lia).
    exists B'. rewrite !app_nil_r. split; [done|]. split; [done|]. apply blocks_last; [lia|done].
  - specialize (HT HTne). replace (Z.of_nat (length D) + 2 * Z.of_nat r) with (Z.of_nat (length (D ++ B'))) by (rewrite length_app; lia).
    rewrite app_assoc. destruct (IH (D ++ B') T) as (T' & E' & Hp' & Hbl'); [rewrite length_app; lia| |done|rewrite length_app; lia|lia|].
    { exists (S q). rewrite length_app. lia. }
    fold r in E'. exists (B' ++ T'). rewrite E', <- app_assoc. split; [done|]. split; [by rewrite Hp, Hp'|]. apply blocks_cons; [lia|done|done].
Qed.

Lemma range_loop_spec : forall f k L, let r := (2 ^ k)%nat in (length L <= 114)%nat -> blocks r L -> (length L < r + f)%nat -> (0 < f)%nat ->
  exists L', range_loop compar f L (Z.of_nat r) = Some L' /\ L ≡ₚ L' /\ sorted L'.
Proof.
  induction f as [|f IH]; intros k L r Hn HL Hf Hf0; [lia|]. cbn [range_loop]. destruct (Z.ltb_spec (Z.of_nat r) (Z.of_nat (length L))) as [Hlt|Hge].
  - destruct (pass_loop_spec k (S (length L)) [] L) as (L' & E & Hp & Hbl); [done|by exists 0%nat|done|cbn; fold r; lia|lia|].
    fold r in E, Hbl. cbn [app length] in E. change (Z.of_nat 0) with 0 in E. rewrite E. cbn [mbind option_bind].
    apply Permutation_length in Hp as Hlen. destruct (IH (S k) L') as (L'' & E' & Hp' & Hs); [lia| | |lia|].
    + by cbn [Nat.pow]; fold r.
    + assert (1 <= r)%nat by (unfold r; clear; induction k; cbn; lia). cbn [Nat.pow]. fold r. lia.
    + exists L''. replace (2 * Z.of_nat r) with (Z.of_nat (2 ^ S k)) by (cbn [Nat.pow]; fold r; lia). rewrite E'. split; [done|].
      split; [by rewrite Hp|done].
  - exists L. split; [done|]. split; [done|]. apply (blocks_small r); [done|lia].
Qed.

Lemma qsort_spec l : (length l <= 114)%nat -> exists l', qsort compar true l = Some l' /\ l ≡ₚ l' /\ sorted l'.
Proof. intros Hl. apply (range_loop_spec (S (length l)) 0 l); [done|apply blocks_one|cbn; lia|lia]. Qed.

(** ** Searching *)

(** The sign of the comparison never goes up. *)
Definition ordered_by (cmp : A -> Z) (l : list A) : Prop :=
  forall i j x y, (i <= j)%nat -> l !! i = Some x -> l !! j = Some y -> (cmp x < 0 -> cmp y < 0) /\ (0 < cmp y -> 0 < cmp x).

Lemma bsearch_loop_spec cmp l : ordered_by cmp l -> forall f low high,
  0 <= low -> high < Z.of_nat (length l) -> low <= high + 1 -> high - low + 1 < Z.of_nat f ->
  (forall i x, l !! i = Some x -> Z.of_nat i < low -> 0 < cmp x) -> (forall i x, l !! i = Some x -> high < Z.of_nat i -> cmp x < 0) ->
  (exists i x, bsearch_loop f cmp l low high = Some (Some (Z.of_nat i)) /\ l !! i = Some x /\ cmp x = 0) \/
  (bsearch_loop f cmp l low high = Some None /\ forall x, x ∈ l -> cmp x ≠ 0).
Proof.
  intros Ho. induction f as [|f IH]; intros low high H0 H1 H2 Hf Hl Hr; [lia|]. cbn [bsearch_loop].
  destruct (Z.leb_spec low high) as [Hle|Hgt].
  - set (mid := low + Z.quot (high - low) 2).
    assert (Hm : low <= mid <= high) by (unfold mid; rewrite Z.quot_div_nonneg by lia; Z.to_euclidean_division_equations; lia).
    destruct (lookup_lt_is_Some_2 l (Z.to_nat mid)) as [x Hx]; [lia|].
    unfold ld. rewrite (proj2 (Z.ltb_ge mid 0)), Hx by lia. cbn [mbind option_bind].
    destruct (Z.eqb_spec (cmp x) 0) as [E|Hne].
    { left. exists (Z.to_nat mid), x. by rewrite Z2Nat.id by lia. }
    destruct (Z.ltb_spec (cmp x) 0) as [Hlt|Hge].
    + apply IH; try lia; [done|]. intros i y Hy Hi. apply (Ho (Z.to_nat mid) i x y); [lia|done..].
    + apply IH; try lia; [|done]. intros i y Hy Hi. apply (Ho i (Z.to_nat mid) y x); [lia|done..|lia].
  - right. split; [done|]. intros x [i Hi]%list_elem_of_lookup E.
    destruct (decide (Z.of_nat i < low)) as [Hlt|Hge]; [apply Hl in Hi; lia|apply Hr in Hi; lia].
Qed.

Lemma bsearch_spec cmp l : ordered_by cmp l ->
  (exists i x, bsearch cmp l = Some (Some (Z.of_nat i)) /\ l !! i = Some x /\ cmp x = 0) \/
  (bsearch cmp l = Some None /\ forall x, x ∈ l -> cmp x ≠ 0).
Proof.
  intros Ho. apply bsearch_loop_spec; [done|lia..| |].
  - intros i x _ Hi. lia.
  - intros i x Hi%lookup_lt_Some. lia.
Qed.

End Sort.

(** C40: sorting and searching.  For a comparison that is a total preorder and an
    array of at most 114 elements [qsort] ends, touches no element out of the
    array, and leaves a sorted permutation of it; and on an array that is
    ordered by the comparison with a key [bsearch] ends and returns an element
    that compares equal, or nothing exactly if there is none.  [qsort] needs
    its work area: when [malloc] fails, sorting two or more elements is
    undefined. *)
Theorem qsort_correct {A} (compar : A -> A -> Z) l :
  (forall x y z, le compar x y -> le compar y z -> le compar x z) -> (forall x y, le compar x y \/ le compar y x) ->
  (length l <= 114)%nat ->
  (exists l', qsort compar true l = Some l' /\ l ≡ₚ l' /\ StronglySorted (le compar) l') /\
  (qsort compar false l = None <-> (2 <= length l)%nat) /\
  (forall cmp l, ordered_by cmp l ->
    (exists i x, bsearch cmp l = Some (Some (Z.of_nat i)) /\ l !! i = Some x /\ cmp x = 0) \/
    (bsearch cmp l = Some None /\ forall x : A, x ∈ l -> cmp x ≠ 0)).
Proof.
  intros Ht Htot Hl. split; [by apply qsort_spec|]. split.
  { pose proof (qsort_spec compar Ht Htot l Hl) as (l' & E & _). unfold qsort in *. cbn [negb andb] in *. rewrite E.
    destruct (Z.ltb_spec 1 (Z.of_nat (length l))); split; (done || lia). }
  intros cmp l0 Ho. by apply bsearch_spec.
Qed.

(** A hundred numbers in a mixed order. *)
Definition demo_numbers : list Z := (λ i, i * 37 mod 101) <$> seqZ 1 100.

Lemma qsort_correct_witness : exists l', qsort Z.sub true demo_numbers = Some l' /\ demo_numbers ≡ₚ l' /\ StronglySorted (le Z.sub) l'.
Proof.
  refine (proj1 (qsort_correct Z.sub demo_numbers _ _ _)).
  - unfold le. lia.
  - unfold le. lia.
  - vm_compute. lia.
Defined.

(** From 115 elements on the second block that is merged is taken from the start
    of the array: numbers that go down are not sorted. *)
Definition demo_down : list Z := (λ i, 200 - i) <$> seqZ 1 115.

Lemma qsort_unsorted : exists l', qsort Z.sub true demo_down = Some l' /\ l' !! 0%nat = Some 104 /\ l' !! 32%nat = Some 85.
Proof. eexists. split; [vm_compute; reflexivity|]. by split. Qed.
