(* ===== verification/CBignum.v ===== *)
(** * Big numbers of the formatted output (lib/libnc/stdio/vnprintf2.c, USE_FLOAT)

    The natural numbers that [%f] is computed with: words of 32 bits, the least
    significant one first.  Every operation is the operation on the number that
    the words stand for, keeps the words in their array, and the conversion to
    decimal digits ends within the buffer.

    [malloc] may fail: an operation takes the list of the results of the
    following calls, [true] for success, and returns what is left of it; past
    its end every call succeeds. *)

From S2P Require Import Prelude CNumber CPrint.

Definition NUMBER_MIN_UNITS : nat := 4.
Definition NUMBER_CARRY_BIT : Z := 32.
Definition NUMBER_VALUE_MASK : Z := 0xffffffff.
Definition NUMBER_ARRAY_INITIAL_LEN : nat := 2.
Definition NUMBER_ARRAY_MAX : nat :=
  (NUMBER_ARRAY_INITIAL_LEN + NUMBER_MIN_UNITS - 1) / NUMBER_MIN_UNITS * NUMBER_MIN_UNITS.
Definition INT_BIT : Z := 32.

(** [max] is the length of [buf]. *)
Record number_t := Number { minus : bool; len : nat; buf : list Z }.

Definition max (p : number_t) : nat := length (buf p).

Definition malloc (a : list bool) : bool * list bool :=
  match a with [] => (true, []) | b :: a => (b, a) end.

Definition units (n : nat) : nat := (n + NUMBER_MIN_UNITS - 1) / NUMBER_MIN_UNITS * NUMBER_MIN_UNITS.

Definition number_create (a : list bool) (x : Z) (minus : bool) : option number_t * list bool :=
  let '(ok, a) := malloc a in
  if ok then
    let '(ok, a) := malloc a in
    if ok then
      let v0 := x mod 2 ^ 32 in
      let v1 := x / 2 ^ 32 in
      let last := if v1 =? 0 then 0%nat else 1%nat in
      (Some (Number minus (last + 1) ([v0; v1] ++ replicate (NUMBER_ARRAY_MAX - NUMBER_ARRAY_INITIAL_LEN) 0)), a)
    else (None, a)
  else (None, a).

Definition u64 (z : Z) : Z := z mod 2 ^ 64.

(** One turn for each of the [len + 1] words; behind the last one stands 0. *)
Fixpoint multiply_loop (ws : list Z) (n carry : Z) (i last : nat) : list Z * nat :=
  match ws with
  | [] => ([], last)
  | w :: ws =>
      let v := u64 (u64 (w * n) + carry) in
      let carry := Z.land (Z.shiftr v NUMBER_CARRY_BIT) NUMBER_VALUE_MASK in
      let '(bs, last) := multiply_loop ws n carry (S i) (if v =? 0 then last else i) in
      (Z.land v NUMBER_VALUE_MASK :: bs, last)
  end.

Definition number_multiply (a : list bool) (p : number_t) (n : Z) : Z * number_t * list bool :=
  let n_len := S (len p) in
  let '(bs, last) := multiply_loop (take (len p) (buf p) ++ [0]) n 0 0 0 in
  if bool_decide (max p < n_len)%nat then
    let '(ok, a) := malloc a in
    if ok then (0, Number (minus p) (last + 1) (bs ++ replicate (units n_len - n_len) 0), a) else (-1, p, a)
  else (0, Number (minus p) (last + 1) (bs ++ drop n_len (buf p)), a).

(** A store into the array. *)
Definition upd (l : list Z) (i : nat) (v : Z) : option (list Z) :=
  match l !! i with Some _ => Some (<[i := v]> l) | None => None end.

Fixpoint first_block (ws : list Z) : option nat :=
  match ws with [] => None | w :: ws => if w =? 0 then S <$> first_block ws else Some 0%nat end.

(** [k] turns, with [i] from [fb + k - 1] down to [fb]. *)
Fixpoint move_loop (k : nat) (l : list Z) (fb q : nat) : option (list Z) :=
  match k with
  | O => Some l
  | S k => let i := (fb + k)%nat in w ← l !! i; l ← upd l (i + q) w; move_loop k l fb q
  end.

Fixpoint shift_loop (k : nat) (l : list Z) (fb q : nat) (r rest : Z) : option (list Z * Z) :=
  match k with
  | O => Some (l, rest)
  | S k =>
      let i := (fb + k)%nat in
      w ← l !! i;
      l ← upd l (i + q + 1) (Z.lor rest (Z.shiftr w (INT_BIT - r)));
      shift_loop k l fb q r (u32 (Z.shiftl w r))
  end.

Fixpoint zero_loop (k : nat) (l : list Z) (i : nat) : option (list Z) :=
  match k with O => Some l | S k => l ← upd l i 0; zero_loop k l (S i) end.

(** The words moved up in an array that is long enough, and the new length. *)
Definition shift_words (l : list Z) (len fb : nat) (n : Z) : option (list Z * nat) :=
  let q := Z.to_nat (n / INT_BIT) in
  let r := n - Z.of_nat q * INT_BIT in
  '(l, len') ←
    (if r =? 0 then
       l ← move_loop (len - fb) l fb q;
       Some (l, (len + q)%nat)
     else
       '(l, rest) ← shift_loop (len - fb) l fb q r 0;
       l ← upd l (fb + q) rest;
       w ← l !! (len + q)%nat;
       Some (l, if w =? 0 then (len + q)%nat else (len + q + 1)%nat));
  l ← zero_loop (Nat.min (fb + q) len - fb) l fb;
  Some (l, len').

Definition number_shift (a : list bool) (p : number_t) (n : Z) : option (Z * number_t * list bool) :=
  if n <? 0 then Some (-1, p, a)
  else if n =? 0 then Some (0, p, a)
  else
    match first_block (take (len p) (buf p)) with
    | None => Some (0, p, a)
    | Some fb =>
        let n_len := (len p + Z.to_nat ((n + (INT_BIT - 1)) / INT_BIT))%nat in
        let '(ok, l, a) :=
          (if bool_decide (max p < n_len)%nat then
             let '(ok, a) := malloc a in (ok, take (len p) (buf p) ++ replicate (units n_len - len p) 0, a)
           else (true, buf p, a)) in
        if negb ok then Some (-1, p, a)
        else
          '(l, len') ← shift_words l (len p) fb n;
          Some (0, Number (minus p) len' l, a)
    end.

(** From the most significant word down; [i] is the number of words left. *)
Fixpoint divide_loop (ws : list Z) (reminder : Z) (last : nat) : list Z * Z * nat :=
  match ws with
  | [] => ([], reminder, last)
  | w :: ws =>
      let x := Z.lor (u32 (Z.shiftl reminder (INT_BIT / 2))) (Z.shiftr w (INT_BIT / 2)) in
      let q := u32 (Z.shiftl (Z.quot (s32 x) 10) (INT_BIT / 2)) in
      let x := Z.lor (u32 (Z.shiftl (Z.rem (s32 x) 10) (INT_BIT / 2))) (Z.land w (Z.shiftl 1 (INT_BIT / 2) - 1)) in
      let reminder := Z.rem (s32 x) 10 in
      let q := Z.lor q (Z.quot (s32 x) 10) in
      let last := if bool_decide (last = 0%nat) && negb (q =? 0) then length ws else last in
      let '(qs, reminder, last) := divide_loop ws reminder last in
      (q :: qs, reminder, last)
  end.

Definition number_divide_10 (p : number_t) : Z * number_t :=
  let '(qs, reminder, last) := divide_loop (reverse (take (len p) (buf p))) 0 0 in
  (reminder, Number (minus p) (last + 1) (reverse qs ++ drop (len p) (buf p))).

(** [room] bytes of the buffer are left in front of the digits. *)
Fixpoint to_decimal_loop (room : nat) (num : number_t) (digits : list Z) : option (list Z) :=
  w ← buf num !! 0%nat;
  if bool_decide (1 < len num)%nat || negb (w =? 0) then
    match room with
    | O => None
    | S room => let '(d, num) := number_divide_10 num in to_decimal_loop room num ((d + 48) :: digits)
    end
  else Some digits.

Definition _number_to_decimal (num : number_t) (max : nat) : option (list Z) := to_decimal_loop (max - 1) num [].

(** ** The number that words stand for *)

Notation W := (2 ^ 32).

Fixpoint nval (l : list Z) : Z := match l with [] => 0 | w :: l => w + W * nval l end.

(** [W ^ k] *)
Definition wpow (k : nat) : Z := 2 ^ (32 * Z.of_nat k).

Lemma wpow_0 : wpow 0 = 1.
Proof. done. Qed.

Lemma wpow_S k : wpow (S k) = W * wpow k.
Proof. unfold wpow. replace (32 * Z.of_nat (S k)) with (32 + 32 * Z.of_nat k) by lia. by rewrite Z.pow_add_r by lia. Qed.

Lemma wpow_add j k : wpow (j + k) = wpow j * wpow k.
Proof. unfold wpow. rewrite Nat2Z.inj_add, Z.mul_add_distr_l. by rewrite Z.pow_add_r by lia. Qed.

Lemma wpow_pos k : 0 < wpow k.
Proof. apply Z.pow_pos_nonneg; lia. Qed.

Lemma wpow_mono j k : (j <= k)%nat -> wpow j <= wpow k.
Proof. intros H. apply Z.pow_le_mono_r; lia. Qed.

Lemma nval_app l1 l2 : nval (l1 ++ l2) = nval l1 + wpow (length l1) * nval l2.
Proof.
  induction l1 as [|w l1 IH]; cbn [app nval length]; [rewrite wpow_0; lia|]. rewrite IH, wpow_S. lia.
Qed.

Lemma nval_bound l : Forall is_u32 l -> 0 <= nval l < wpow (length l).
Proof.
  unfold is_u32. induction 1 as [|w l Hw _ IH]; cbn [nval length]; [rewrite wpow_0; lia|]. rewrite wpow_S. nia.
Qed.

Lemma nval_zeros k : nval (replicate k 0) = 0.
Proof. induction k as [|k IH]; cbn [replicate nval]; [done|]. rewrite IH. lia. Qed.

(** The words behind a small number are zero. *)
Lemma nval_high l k : Forall is_u32 l -> nval l < wpow k -> (k <= length l)%nat -> nval (drop k l) = 0 /\ nval (take k l) = nval l.
Proof.
  intros Hl Hv Hk. rewrite <- (take_drop k l), nval_app, length_take, Nat.min_l in Hv by done.
  pose proof (nval_bound (take k l) ltac:(by apply Forall_take)). pose proof (nval_bound (drop k l) ltac:(by apply Forall_drop)).
  assert (nval (drop k l) = 0) as E by (pose proof (wpow_pos k); nia). split; [done|].
  rewrite <- (take_drop k l) at 2. rewrite nval_app, E. lia.
Qed.

Lemma nval_zero l : Forall is_u32 l -> nval l = 0 -> l = replicate (length l) 0.
Proof.
  unfold is_u32. induction 1 as [|w l Hw Hl IH]; cbn [nval length replicate]; [done|]. intros E.
  pose proof (nval_bound l Hl). assert (w = 0 /\ nval l = 0) as [-> E'] by lia. f_equal. by apply IH.
Qed.

Definition val (p : number_t) : Z := nval (buf p).

(** The array is large enough, and [len] is as small as possible. *)
Record wf (p : number_t) : Prop := {
  wf_len : (1 <= len p <= max p)%nat;
  wf_words : Forall is_u32 (buf p);
  wf_high : val p < wpow (len p);
  wf_low : len p = 1%nat \/ wpow (len p - 1) <= val p;
}.

Lemma mask_mod v : Z.land v NUMBER_VALUE_MASK = v mod W.
Proof. change NUMBER_VALUE_MASK with (Z.ones 32). by rewrite Z.land_ones by lia. Qed.

(** ** Multiplication *)

Definition least (v : Z) (k : nat) : Prop := v < wpow (S k) /\ (k = 0%nat \/ wpow k <= v).

Lemma multiply_loop_spec ws n : forall carry i last bs last', Forall is_u32 ws -> is_u32 n -> is_u32 carry ->
  multiply_loop ws n carry i last = (bs, last') ->
  length bs = length ws /\ Forall is_u32 bs /\ (exists c, 0 <= c /\ nval ws * n + carry = nval bs + wpow (length ws) * c) /\
  let v := nval ws * n + carry in
  (v < wpow (length ws) -> (v = 0 /\ last' = last) \/ (v ≠ 0 /\ exists k, last' = (i + k)%nat /\ least v k)).
Proof.
  unfold is_u32. induction ws as [|w ws IH]; intros carry i last bs last' Hws Hn Hc E; cbn [multiply_loop] in E.
  - injection E as <- <-. split; [done|]. split; [constructor|]. split; [exists carry; cbn; rewrite wpow_0; lia|].
    cbn. rewrite wpow_0. intros H. left. split; [lia|done].
  - apply Forall_cons in Hws as [Hw Hws]. assert (Hv64 : 0 <= w * n + carry < 2 ^ 64) by (change (2 ^ 64) with (W * W); nia).
    assert (u64 (u64 (w * n) + carry) = w * n + carry) as Ev.
    { unfold u64. rewrite (Z.mod_small (w * n)) by nia. by apply Z.mod_small. }
    rewrite Ev in E. set (v := w * n + carry) in *. change NUMBER_CARRY_BIT with 32 in E. rewrite !mask_mod, Z.shiftr_div_pow2 in E by lia.
    pose proof (Z.div_mod v W ltac:(lia)) as Hdm. pose proof (Z.mod_pos_bound v W ltac:(lia)) as Hm.
    assert (Hq : 0 <= v / W < W) by (split; [apply Z.div_pos; lia|apply Z.div_lt_upper_bound; lia]).
    rewrite (Z.mod_small (v / W)) in E by lia.
    destruct (multiply_loop ws n (v / W) (S i) (if v =? 0 then last else i)) as [bs0 last0] eqn:E0. injection E as <- <-.
    destruct (IH _ _ _ _ _ Hws Hn Hq E0) as (Hlen & Hbs & (c & Hc0 & Hval) & Hlast). pose proof (nval_bound ws Hws) as Hb.
    split; [cbn; lia|]. split; [by constructor|]. cbn [nval length]. rewrite wpow_S.
    assert (Etot : (w + W * nval ws) * n + carry = v mod W + W * (nval ws * n + v / W)) by (unfold v in *; lia).
    split; [exists c; split; [done|]; rewrite Etot, Hval; lia|]. intros Hlt. rewrite Etot in *. cbv zeta in Hlast.
    destruct Hlast as [[Hz ->]|[Hnz (k & -> & Hk1 & Hk2)]]; [nia| |].
    + assert (v / W = 0) by nia. rewrite Hz. destruct (Z.eqb_spec v 0) as [->|Hne]; [left; done|]. right. split; [lia|].
      exists 0%nat. split; [lia|]. split; [change (wpow 1) with W; lia|by left].
    + right. split; [nia|]. exists (S k). split; [lia|]. split; [rewrite wpow_S; nia|]. right. rewrite wpow_S.
      destruct Hk2 as [->|Hk2]; [rewrite wpow_0; nia|nia].
Qed.

Lemma is_u32_zero : is_u32 0.
Proof. unfold is_u32. lia. Qed.

Lemma zeros_words k : Forall is_u32 (replicate k 0).
Proof. apply Forall_replicate, is_u32_zero. Qed.

(** A number from words, with [last] the index of its last word. *)
Lemma wf_make s l v last k : Forall is_u32 l -> nval l = v -> (v = 0 /\ last = 0%nat) \/ (v ≠ 0 /\ least v last) ->
  (k <= length l)%nat -> (1 <= k)%nat -> v < wpow k -> wf (Number s (last + 1) l) /\ val (Number s (last + 1) l) = v.
Proof.
  intros Hl Hv Hlast Hk Hk1 Hvk. unfold val. cbn [buf]. split; [|done].
  assert (Hleast : least v last).
  { destruct Hlast as [[-> ->]|[_ ?]]; [|done]. split; [apply wpow_pos|by left]. }
  destruct Hleast as [H1 H2]. rewrite Nat.add_1_r. split; unfold max, val; cbn [buf len]; rewrite ?Hv; [|done|done|].
  - split; [lia|]. destruct H2 as [->|H2]; [lia|]. destruct (decide (S last <= length l)%nat); [done|]. exfalso.
    pose proof (wpow_mono k last ltac:(lia)). lia.
  - destruct H2 as [->|H2]; [by left|]. right. by replace (S last - 1)%nat with last by lia.
Qed.

Lemma units_ge n : (n <= units n)%nat.
Proof. unfold units, NUMBER_MIN_UNITS. pose proof (Nat.div_mod (n + 4 - 1) 4 ltac:(lia)). pose proof (Nat.mod_upper_bound (n + 4 - 1) 4 ltac:(lia)). lia. Qed.

Lemma wf_parts p : wf p -> val p = nval (take (len p) (buf p)) /\ nval (drop (len p) (buf p)) = 0 /\ length (take (len p) (buf p)) = len p /\
  Forall is_u32 (take (len p) (buf p)) /\ 0 <= val p.
Proof.
  intros [[Hl1 Hl2] Hw Hh _]. unfold max in Hl2. destruct (nval_high (buf p) (len p) Hw Hh Hl2) as [H1 H2].
  split; [done|]. split; [done|]. split; [rewrite length_take; lia|]. split; [by apply Forall_take|]. by apply nval_bound.
Qed.

Lemma number_multiply_spec a p n r p' a' : wf p -> is_u32 n -> number_multiply a p n = (r, p', a') ->
  (r = 0 /\ wf p' /\ val p' = val p * n) \/ (r = -1 /\ p' = p /\ a ≠ []).
Proof.
  intros Hp Hn E. destruct (wf_parts p Hp) as (Hval & Hdrop & Hlen & Hws & Hpos). pose proof Hp as [[Hl1 Hl2] Hw Hh _].
  unfold number_multiply in E. destruct (multiply_loop _ n 0 0 0) as [bs last] eqn:Em.
  assert (Hws' : Forall is_u32 (take (len p) (buf p) ++ [0])) by (apply Forall_app; split; [done|by repeat constructor]).
  destruct (multiply_loop_spec _ n 0 0 0 bs last Hws' Hn is_u32_zero Em) as (Hlb & Hbs & (c & Hc & Hv) & Hlast).
  rewrite nval_app, length_app, Hlen in *. cbn [nval length] in *.
  assert (E0 : (nval (take (len p) (buf p)) + wpow (len p) * (0 + W * 0)) * n + 0 = val p * n) by (rewrite Hval; lia).
  rewrite E0 in *. replace (len p + 1)%nat with (S (len p)) in * by lia. unfold is_u32 in Hn.
  assert (Hlt : val p * n < wpow (S (len p))) by (rewrite wpow_S; nia).
  assert (Hnb : nval bs = val p * n).
  { pose proof (nval_bound bs Hbs). pose proof (wpow_pos (S (len p))). assert (c = 0) by nia. subst c. lia. }
  assert (Hlast' : (val p * n = 0 /\ last = 0%nat) \/ (val p * n ≠ 0 /\ least (val p * n) last)).
  { destruct (Hlast Hlt) as [?|[? (k & -> & ?)]]; [by left|right; done]. }
  case_bool_decide as Hmax.
  - destruct a as [|[] a]; cbn [malloc] in E; injection E as <- <- <-; [left|left|by right]; (split; [done|]);
      (apply (wf_make (minus p) _ _ last (S (len p))); [|rewrite nval_app, nval_zeros, Hnb; lia|done|rewrite length_app; lia|lia|done]);
      (apply Forall_app; split; [done|apply zeros_words]).
  - injection E as <- <- <-. left. split; [done|]. apply (wf_make (minus p) _ _ last (S (len p))); [| |done|rewrite length_app; lia|lia|done].
    + apply Forall_app. split; [done|by apply Forall_drop].
    + assert (nval (drop (S (len p)) (buf p)) = 0) as Hd.
      { apply nval_high; [done| |unfold max in *; lia]. pose proof (wpow_mono (len p) (S (len p)) ltac:(lia)). unfold val in Hh. lia. }
      rewrite nval_app, Hd, Hnb. lia.
Qed.

(** ** Division by ten *)

Lemma nval_rev_cons w ws : nval (reverse (w :: ws)) = nval (reverse ws) + wpow (length ws) * w.
Proof. rewrite reverse_cons, nval_app, length_reverse. cbn [nval]. lia. Qed.

Lemma half_or a b : 0 <= a -> 0 <= b < 2 ^ 16 -> Z.lor (Z.shiftl a 16) b = a * 2 ^ 16 + b.
Proof. intros Ha Hb. by apply lor_shiftl_add. Qed.

(** The division of one word with the remainder in front of it. *)
Lemma divide_word r w : 0 <= r < 10 -> is_u32 w ->
  let x := Z.lor (u32 (Z.shiftl r (INT_BIT / 2))) (Z.shiftr w (INT_BIT / 2)) in
  let q := u32 (Z.shiftl (Z.quot (s32 x) 10) (INT_BIT / 2)) in
  let y := Z.lor (u32 (Z.shiftl (Z.rem (s32 x) 10) (INT_BIT / 2))) (Z.land w (Z.shiftl 1 (INT_BIT / 2) - 1)) in
  Z.rem (s32 y) 10 = (r * W + w) mod 10 /\ Z.lor q (Z.quot (s32 y) 10) = (r * W + w) / 10.
Proof.
  unfold is_u32. intros Hr Hw. change (INT_BIT / 2) with 16. cbv zeta. change (Z.shiftl 1 16 - 1) with (Z.ones 16).
  rewrite Z.land_ones, Z.shiftr_div_pow2 by lia.
  set (h := w / 2 ^ 16). set (l := w mod 2 ^ 16).
  assert (Hh : 0 <= h < 2 ^ 16) by (unfold h; split; [apply Z.div_pos; lia|apply Z.div_lt_upper_bound; lia]).
  assert (Hl : 0 <= l < 2 ^ 16) by (apply Z.mod_pos_bound; lia).
  assert (Hw' : w = h * 2 ^ 16 + l) by (unfold h, l; pose proof (Z.div_mod w (2 ^ 16)); lia).
  assert (Hsl : forall a, 0 <= a < 2 ^ 16 -> u32 (Z.shiftl a 16) = Z.shiftl a 16).
  { intros a Ha. apply u32_small. unfold is_u32. rewrite Z.shiftl_mul_pow2 by lia. lia. }
  rewrite (Hsl r), half_or by lia. set (x := r * 2 ^ 16 + h). assert (Hx : 0 <= x < 655360) by (unfold x; lia).
  rewrite (s32_small x) by (unfold is_s32; lia). rewrite (Z.quot_div_nonneg x), (Z.rem_mod_nonneg x) by lia.
  pose proof (Z.mod_pos_bound x 10 ltac:(lia)) as Hxm. rewrite (Hsl (x mod 10)), half_or by lia.
  set (y := x mod 10 * 2 ^ 16 + l). assert (Hy : 0 <= y < 655360) by (unfold y; lia).
  rewrite (s32_small y) by (unfold is_s32; lia). rewrite Z.quot_div_nonneg, Z.rem_mod_nonneg by lia.
  assert (Hq : 0 <= x / 10 < 2 ^ 16) by (split; [apply Z.div_pos; lia|apply Z.div_lt_upper_bound; lia]).
  assert (Hq2 : 0 <= y / 10 < 2 ^ 16) by (split; [apply Z.div_pos; lia|apply Z.div_lt_upper_bound; lia]).
  rewrite (Hsl (x / 10)), half_or by lia.
  assert (Et : r * W + w = 10 * (x / 10 * 2 ^ 16 + y / 10) + y mod 10).
  { pose proof (Z.div_mod x 10 ltac:(lia)) as Ex. pose proof (Z.div_mod y 10 ltac:(lia)) as Ey.
    assert (Ex' : x = r * 2 ^ 16 + h) by done. assert (Ey' : y = x mod 10 * 2 ^ 16 + l) by done. clearbody x y h l. lia. }
  pose proof (Z.mod_pos_bound y 10 ltac:(lia)). split.
  - by apply (Zmod_unique _ 10 (x / 10 * 2 ^ 16 + y / 10)).
  - by apply (Zdiv_unique _ 10 _ (y mod 10)).
Qed.

Lemma divide_loop_spec ws : forall r last qs r' last', Forall is_u32 ws -> 0 <= r < 10 -> divide_loop ws r last = (qs, r', last') ->
  length qs = length ws /\ Forall is_u32 qs /\ 0 <= r' < 10 /\
  r * wpow (length ws) + nval (reverse ws) = 10 * nval (reverse qs) + r' /\
  (last ≠ 0%nat -> last' = last) /\
  (last = 0%nat -> (nval (reverse qs) = 0 /\ last' = 0%nat) \/ (nval (reverse qs) ≠ 0 /\ least (nval (reverse qs)) last')).
Proof.
  induction ws as [|w ws IH]; intros r last qs r' last' Hws Hr E; cbn [divide_loop] in E.
  - injection E as <- <- <-. split; [done|]. split; [constructor|]. split; [done|]. cbn [length]. rewrite wpow_0.
    change (nval (reverse [])) with 0. split; [lia|]. split; [done|]. intros ->. by left.
  - apply Forall_cons in Hws as [Hw Hws]. destruct (divide_word r w Hr Hw) as [Er Eq]. cbv zeta in Er, Eq. rewrite Er, Eq in E.
    clear Er Eq. set (q := (r * W + w) / 10) in *. set (r1 := (r * W + w) mod 10) in *. unfold is_u32 in Hw.
    assert (Hq : 0 <= q < W) by (unfold q; split; [apply Z.div_pos; lia|apply Z.div_lt_upper_bound; lia]).
    assert (Hr1 : 0 <= r1 < 10) by (apply Z.mod_pos_bound; lia). pose proof (Z.div_mod (r * W + w) 10 ltac:(lia)) as Hdm. fold q r1 in Hdm.
    destruct (divide_loop ws r1 _) as [[qs0 r0] last0] eqn:E0. injection E as <- <- <-.
    destruct (IH _ _ _ _ _ Hws Hr1 E0) as (Hlen & Hqs & Hr0 & Hval & H1 & H2).
    pose proof (nval_bound (reverse qs0) ltac:(by apply Forall_reverse)) as Hb. rewrite length_reverse, Hlen in Hb.
    cbn [length]. split; [lia|]. split; [by constructor|]. split; [done|]. rewrite !nval_rev_cons, Hlen, wpow_S.
    pose proof (wpow_pos (length ws)) as Hwp. split; [nia|]. split.
    { intros Hl. rewrite bool_decide_false in H1 by done. cbn [andb] in H1. by apply H1. }
    intros ->. rewrite bool_decide_true in * by done. destruct (Z.eqb_spec q 0) as [->|Hne]; cbn [andb negb] in *.
    + rewrite Z.mul_0_r, Z.add_0_r. by apply H2.
    + right. split; [nia|]. destruct (decide (length ws = 0%nat)) as [Hz|Hnz].
      * rewrite Hz in *. rewrite wpow_0 in *. replace (nval (reverse qs0)) with 0 in * by lia.
        destruct (H2 eq_refl) as [[_ ->]|[? _]]; [|lia]. split; [change (wpow 1) with W; lia|by left].
      * rewrite (H1 Hnz). split; [rewrite wpow_S; nia|right; nia].
Qed.

Lemma number_divide_spec p r p' : wf p -> number_divide_10 p = (r, p') -> wf p' /\ 0 <= r < 10 /\ val p = 10 * val p' + r.
Proof.
  intros Hp E. destruct (wf_parts p Hp) as (Hval & Hdrop & Hlen & Hws & Hpos). pose proof Hp as [[Hl1 Hl2] Hw Hh _].
  unfold number_divide_10 in E. destruct (divide_loop _ 0 0) as [[qs r0] last] eqn:Ed. injection E as <- <-.
  destruct (divide_loop_spec (reverse (take (len p) (buf p))) 0 0%nat qs r0 last ltac:(by apply Forall_reverse) ltac:(lia) Ed) as (Hlq & Hqs & Hr & Hv & _ & Hlast).
  rewrite reverse_involutive, length_reverse in *. rewrite Hlen, <- Hval in *. specialize (Hlast eq_refl).
  pose proof (nval_bound (reverse qs) ltac:(by apply Forall_reverse)) as Hb. rewrite length_reverse, Hlq in Hb.
  assert (Hnv : nval (reverse qs ++ drop (len p) (buf p)) = nval (reverse qs)) by (rewrite nval_app, Hdrop; lia).
  destruct (wf_make (minus p) (reverse qs ++ drop (len p) (buf p)) (nval (reverse qs)) last (len p)) as [Hwf Hvl]; try done.
  - apply Forall_app. split; [by apply Forall_reverse|by apply Forall_drop].
  - rewrite length_app, length_reverse. lia.
  - lia.
  - split; [done|]. split; [done|]. rewrite Hvl. lia.
Qed.

(** The loop stops at zero. *)
Lemma number_zero p : wf p -> exists w, buf p !! 0%nat = Some w /\ (bool_decide (1 < len p)%nat || negb (w =? 0)) = negb (val p =? 0).
Proof.
  intros Hp. destruct (wf_parts p Hp) as (Hval & _ & _ & _ & Hpos). destruct Hp as [[Hl1 Hl2] Hw Hh Hlow]. unfold max in Hl2.
  destruct (buf p) as [|w l] eqn:Eb; [cbn in *; lia|]. exists w. split; [done|]. case_bool_decide as Hl; cbn [orb].
  - destruct Hlow as [?|Hlow]; [lia|]. pose proof (wpow_pos (len p - 1)). by rewrite (proj2 (Z.eqb_neq (val p) 0)) by lia.
  - assert (len p = 1%nat) as E1 by lia. rewrite Hval, E1. cbn [take nval]. by rewrite Z.mul_0_r, Z.add_0_r.
Qed.

(** The digits of a number, without zeros in front; none for zero. *)
Definition dec_digits (v : Z) (ds : list Z) : Prop :=
  Forall (λ c, is_digit 10 c = true) ds /\ number 10 0 ds = v /\ head ds ≠ Some 48.

Lemma to_decimal_spec : forall room p acc, wf p -> val p < 10 ^ Z.of_nat room ->
  exists ds, to_decimal_loop room p acc = Some (ds ++ acc) /\ dec_digits (val p) ds /\ (length ds <= room)%nat.
Proof.
  induction room as [|room IH]; intros p acc Hp Hv; destruct (wf_parts p Hp) as (_ & _ & _ & _ & Hpos);
    destruct (number_zero p Hp) as (w & Hw & Hz); cbn [to_decimal_loop]; rewrite Hw; cbn [mbind option_bind]; rewrite Hz.
  - change (10 ^ Z.of_nat 0) with 1 in Hv. assert (val p = 0) as E by lia. rewrite E. cbn. exists [].
    split; [done|]. split; [|cbn; lia]. split; [constructor|done].
  - destruct (Z.eqb_spec (val p) 0) as [E|Hne]; cbn [negb].
    + exists []. split; [done|]. split; [|cbn; lia]. rewrite E. split; [constructor|done].
    + destruct (number_divide_10 p) as [d p'] eqn:Ed. destruct (number_divide_spec p d p' Hp Ed) as (Hp' & Hd & Hval).
      destruct (wf_parts p' Hp') as (_ & _ & _ & _ & Hpos'). rewrite Nat2Z.inj_succ, Z.pow_succ_r in Hv by lia.
      destruct (IH p' ((d + 48) :: acc) Hp' ltac:(lia)) as (ds & E & (Hds & Hn & Hh) & Hlen).
      destruct (digit_of_dec d Hd) as [Hd1 Hd2]. exists (ds ++ [d + 48]). rewrite <- app_assoc. split; [done|].
      split; [|rewrite length_app; cbn; lia]. split; [|split].
      * apply Forall_app. split; [done|by constructor].
      * rewrite number_app, Hn. cbn. rewrite Hd1. lia.
      * destruct ds as [|c ds]; [|done]. cbn in *. intros [= E']. assert (d = 0) by lia. lia.
Qed.

(** ** Shifts *)

Lemma upd_ok l i v : (i < length l)%nat -> upd l i v = Some (<[i := v]> l).
Proof. intros Hi. unfold upd. by destruct (lookup_lt_is_Some_2 l i Hi) as [x ->]. Qed.

Lemma insert_words l i v : Forall is_u32 l -> is_u32 v -> Forall is_u32 (<[i := v]> l).
Proof. intros. by apply Forall_insert. Qed.

Lemma nval_take_S l i w : l !! i = Some w -> nval (take (S i) l) = nval (take i l) + wpow i * w.
Proof.
  intros Hi. rewrite (take_S_r l i w Hi), nval_app. cbn [nval]. pose proof (lookup_lt_Some _ _ _ Hi). rewrite length_take, Nat.min_l by lia. lia.
Qed.

Lemma nval_drop_S l i w : l !! i = Some w -> nval (drop i l) = w + W * nval (drop (S i) l).
Proof. intros Hi. by rewrite (drop_S l w i Hi). Qed.

(** Writing at [i + q] while going down keeps what is still to be read. *)
Lemma take_insert_window k fb i v (l : list Z) : (fb + k <= i)%nat -> take k (drop fb (<[i := v]> l)) = take k (drop fb l).
Proof. intros Hi. rewrite drop_insert_ge, take_insert_ge by lia. done. Qed.

Lemma move_loop_spec k : forall l fb q, Forall is_u32 l -> (fb + k + q <= length l)%nat ->
  exists l', move_loop k l fb q = Some l' /\ length l' = length l /\ Forall is_u32 l' /\
    take (fb + q) l' = take (fb + q) l /\ nval (drop (fb + q) l') = nval (take k (drop fb l)) + wpow k * nval (drop (fb + q + k) l).
Proof.
  induction k as [|k IH]; intros l fb q Hw Hl; cbn [move_loop].
  - exists l. split; [done|]. split; [done|]. split; [done|]. split; [done|]. rewrite wpow_0, Nat.add_0_r, take_0. cbn [nval]. lia.
  - destruct (lookup_lt_is_Some_2 l (fb + k)) as [w Hwi]; [lia|]. rewrite Hwi. cbn [mbind option_bind].
    rewrite upd_ok by lia. cbn [mbind option_bind].
    assert (Hwu : is_u32 w) by (rewrite Forall_forall in Hw; apply Hw; by eapply list_elem_of_lookup_2).
    destruct (IH (<[(fb + k + q)%nat := w]> l) fb q (insert_words _ _ _ Hw Hwu)) as (l' & E & H1 & H2 & H3 & H4); [rewrite length_insert; lia|].
    rewrite length_insert in H1. exists l'. split; [done|]. split; [done|]. split; [done|].
    split; [rewrite H3; apply take_insert_ge; lia|]. rewrite H4, take_insert_window by lia.
    replace (fb + q + S k)%nat with (S (fb + q + k)) by lia.
    rewrite (nval_drop_S _ (fb + q + k) w) by (replace (fb + q + k)%nat with (fb + k + q)%nat by lia; apply list_lookup_insert_eq; lia).
    rewrite drop_insert_lt by lia. rewrite (nval_take_S _ k w) by (by rewrite lookup_drop). rewrite wpow_S. lia.
Qed.

Lemma lor_rest rest w r : 0 < r < 32 -> 0 <= rest < W -> (2 ^ r | rest) -> is_u32 w ->
  Z.lor rest (Z.shiftr w (32 - r)) = rest + w / 2 ^ (32 - r) /\ 0 <= w / 2 ^ (32 - r) < 2 ^ r /\
  rest + w / 2 ^ (32 - r) < W /\ u32 (Z.shiftl w r) = (w mod 2 ^ (32 - r)) * 2 ^ r.
Proof.
  unfold is_u32. intros Hr Hrest [x ->] Hw. rewrite Z.shiftr_div_pow2 by lia.
  assert (HW : W = 2 ^ (32 - r) * 2 ^ r) by (rewrite <- Z.pow_add_r by lia; f_equal; lia).
  assert (Hp : 0 < 2 ^ r) by (apply Z.pow_pos_nonneg; lia). assert (Hp' : 0 < 2 ^ (32 - r)) by (apply Z.pow_pos_nonneg; lia).
  assert (Hd : 0 <= w / 2 ^ (32 - r) < 2 ^ r) by (split; [apply Z.div_pos; lia|apply Z.div_lt_upper_bound; lia]).
  rewrite <- (Z.shiftl_mul_pow2 x r) at 1 by lia. rewrite lor_shiftl_add by lia. split; [done|]. split; [done|]. split.
  - assert (x < 2 ^ (32 - r)) by nia. nia.
  - unfold u32. rewrite Z.shiftl_mul_pow2, HW by lia. by rewrite Z.mul_mod_distr_r by lia.
Qed.

Lemma shift_loop_spec k r : 0 < r < 32 -> forall l fb q rest, Forall is_u32 l -> (fb + k + q + 1 <= length l)%nat ->
  0 <= rest < W -> (2 ^ r | rest) ->
  exists l' rest', shift_loop k l fb q r rest = Some (l', rest') /\ length l' = length l /\ Forall is_u32 l' /\ is_u32 rest' /\
    take (fb + q + 1) l' = take (fb + q + 1) l /\
    rest' + W * nval (drop (fb + q + 1) l') = nval (take k (drop fb l)) * 2 ^ r + wpow k * (rest + W * nval (drop (fb + q + 1 + k) l)).
Proof.
  intros Hr. induction k as [|k IH]; intros l fb q rest Hw Hl Hrest Hdiv; cbn [shift_loop].
  - exists l, rest. split; [done|]. split; [done|]. split; [done|]. split; [done|]. split; [done|]. rewrite wpow_0, Nat.add_0_r, take_0. cbn [nval]. lia.
  - destruct (lookup_lt_is_Some_2 l (fb + k)) as [w Hwi]; [lia|]. rewrite Hwi. cbn [mbind option_bind].
    assert (Hwu : is_u32 w) by (rewrite Forall_forall in Hw; apply Hw; by eapply list_elem_of_lookup_2).
    rewrite upd_ok by lia. cbn [mbind option_bind]. change INT_BIT with 32.
    destruct (lor_rest rest w r Hr Hrest Hdiv Hwu) as (-> & Hd & Hv & ->). set (v := rest + w / 2 ^ (32 - r)) in *.
    assert (Hp' : 0 < 2 ^ (32 - r)) by (apply Z.pow_pos_nonneg; lia). pose proof (Z.mod_pos_bound w (2 ^ (32 - r)) Hp') as Hm.
    assert (HW : W = 2 ^ (32 - r) * 2 ^ r) by (rewrite <- Z.pow_add_r by lia; f_equal; lia).
    destruct (IH (<[(fb + k + q + 1)%nat := v]> l) fb q (w mod 2 ^ (32 - r) * 2 ^ r)) as (l' & rest' & E & H1 & H2 & H3 & H4 & H5).
    { apply insert_words; [done|]. unfold is_u32. lia. }
    { rewrite length_insert. lia. }
    { rewrite HW. nia. }
    { by exists (w mod 2 ^ (32 - r)). }
    rewrite length_insert in H1. exists l', rest'. split; [done|]. split; [done|]. split; [done|]. split; [done|].
    split; [rewrite H4; apply take_insert_ge; lia|]. rewrite H5, take_insert_window by lia.
    replace (fb + q + 1 + S k)%nat with (S (fb + q + 1 + k)) by lia.
    rewrite (nval_drop_S _ (fb + q + 1 + k) v) by (replace (fb + q + 1 + k)%nat with (fb + k + q + 1)%nat by lia; apply list_lookup_insert_eq; lia).
    rewrite drop_insert_lt by lia. rewrite (nval_take_S _ k w) by (by rewrite lookup_drop). rewrite wpow_S.
    assert (Hw2 : w * 2 ^ r + W * rest = W * v + w mod 2 ^ (32 - r) * 2 ^ r).
    { unfold v. pose proof (Z.div_mod w (2 ^ (32 - r)) ltac:(lia)). rewrite HW. nia. }
    nia.
Qed.

Lemma zero_loop_spec k : forall l i, (i + k <= length l)%nat -> zero_loop k l i = Some (take i l ++ replicate k 0 ++ drop (i + k) l).
Proof.
  induction k as [|k IH]; intros l i Hi; cbn [zero_loop].
  - rewrite Nat.add_0_r. cbn. by rewrite take_drop.
  - rewrite upd_ok by lia. cbn [mbind option_bind]. rewrite IH by (rewrite length_insert; lia).
    rewrite drop_insert_lt by lia. rewrite (take_S_r _ i 0) by (apply list_lookup_insert_eq; lia). rewrite take_insert_ge by lia.
    rewrite <- app_assoc. cbn [app replicate]. by replace (S i + k)%nat with (i + S k)%nat by lia.
Qed.

Lemma first_block_spec ws : Forall is_u32 ws ->
  match first_block ws with
  | None => nval ws = 0
  | Some fb => (fb < length ws)%nat /\ nval (take fb ws) = 0 /\ nval ws ≠ 0
  end.
Proof.
  induction 1 as [|w ws Hw Hws IH]; [done|]. cbn [first_block]. pose proof (nval_bound ws Hws).
  destruct (Z.eqb_spec w 0) as [->|Hne]; [|cbn [length]; rewrite take_0; cbn [nval]; unfold is_u32 in Hw; lia].
  destruct (first_block ws) as [fb|]; cbn [fmap option_fmap option_map].
  - cbn [length]. rewrite firstn_cons. cbn [nval]. lia.
  - cbn [nval]. lia.
Qed.

(** Zeros in a part of the array. *)
Lemma nval_part (l : list Z) i j : Forall is_u32 l -> nval (drop i l) = 0 -> nval (take j (drop i l)) = 0.
Proof.
  intros Hl H. pose proof (nval_bound (take j (drop i l)) ltac:(by apply Forall_take, Forall_drop)) as H1.
  pose proof (nval_bound (drop j (drop i l)) ltac:(by apply Forall_drop, Forall_drop)) as H2.
  rewrite <- (take_drop j (drop i l)), nval_app in H. pose proof (wpow_pos (length (take j (drop i l)))). nia.
Qed.

(** The array behind the zeroes in front: [l2] holds the shifted words from
    [fb + q] on, and what [l] held before that. *)
Lemma zero_front l l2 len fb q : Forall is_u32 l -> Forall is_u32 l2 -> length l2 = length l -> (fb < len)%nat -> (fb + q <= length l)%nat -> (len <= length l)%nat ->
  nval (take fb l) = 0 -> nval (drop len l) = 0 -> take (fb + q) l2 = take (fb + q) l ->
  exists l3, zero_loop (Nat.min (fb + q) len - fb) l2 fb = Some l3 /\ length l3 = length l /\ Forall is_u32 l3 /\
    nval l3 = wpow (fb + q) * nval (drop (fb + q) l2).
Proof.
  intros Hw Hw2 Hlen Hfb Hq Hln Hz1 Hz2 Ht. set (j := (Nat.min (fb + q) len - fb)%nat).
  rewrite zero_loop_spec by lia. eexists. split; [done|]. split; [rewrite !length_app, length_take, length_replicate, length_drop; lia|].
  split; [apply Forall_app; split; [by apply Forall_take|apply Forall_app; split; [apply zeros_words|by apply Forall_drop]]|].
  assert (E1 : take fb l2 = take fb l).
  { assert (Hmin : forall l : list Z, take fb l = take fb (take (fb + q) l)) by (intros l0; rewrite take_take; f_equal; lia).
    by rewrite (Hmin l2), (Hmin l), Ht. }
  rewrite !nval_app, E1, Hz1, nval_zeros, length_replicate, length_take, Nat.min_l by lia.
  rewrite <- (take_drop (q - j) (drop (fb + j) l2)), drop_drop, nval_app.
  assert (E2 : take (q - j) (drop (fb + j) l2) = take (q - j) (drop (fb + j) l)).
  { rewrite !take_drop_commute. replace (fb + j + (q - j))%nat with (fb + q)%nat by lia. by rewrite Ht. }
  assert (E3 : nval (take (q - j) (drop (fb + j) l)) = 0).
  { destruct (decide (j = q)) as [->|]; [by rewrite Nat.sub_diag, take_0|]. apply nval_part; [done|].
    by replace (fb + j)%nat with len by lia. }
  rewrite E2, E3, length_take, length_drop, Nat.min_l by lia. replace (fb + j + (q - j))%nat with (fb + q)%nat by lia.
  assert (wpow fb * wpow j * wpow (q - j) = wpow (fb + q)) as <- by (rewrite <- !wpow_add; f_equal; lia). lia.
Qed.

Lemma nval_drop_zero (l : list Z) i j : Forall is_u32 l -> nval (drop i l) = 0 -> nval (drop (i + j) l) = 0.
Proof.
  intros Hl H. rewrite <- drop_drop. pose proof (nval_bound (take j (drop i l)) ltac:(by apply Forall_take, Forall_drop)) as H1.
  pose proof (nval_bound (drop j (drop i l)) ltac:(by apply Forall_drop, Forall_drop)) as H2.
  rewrite <- (take_drop j (drop i l)), nval_app in H. pose proof (wpow_pos (length (take j (drop i l)))). nia.
Qed.

Section Shift.
Context (l : list Z) (ln fb : nat) (n : Z) (Hw : Forall is_u32 l) (Hfb : (fb < ln)%nat) (Hz1 : nval (take fb l) = 0) (Hz2 : nval (drop ln l) = 0).
Context (Hn : 0 < n) (Hln : (ln <= length l)%nat).

Let S1 := take (ln - fb) (drop fb l).

Lemma shift_value : nval l = wpow fb * nval S1.
Proof.
  unfold S1. rewrite <- (take_drop fb l) at 1. rewrite nval_app, Hz1, length_take, Nat.min_l by lia.
  rewrite <- (take_drop (ln - fb) (drop fb l)) at 1. rewrite nval_app, drop_drop.
  replace (fb + (ln - fb))%nat with ln by lia. rewrite Hz2. lia.
Qed.

Lemma shift_words_aligned q : n = 32 * Z.of_nat q -> (ln + q <= length l)%nat ->
  exists l', shift_words l ln fb n = Some (l', (ln + q)%nat) /\ length l' = length l /\ Forall is_u32 l' /\ nval l' = nval l * 2 ^ n.
Proof.
  intros Hq Hl. unfold shift_words. change INT_BIT with 32. assert (Z.to_nat (n / 32) = q) as ->.
  { rewrite Hq, Z.mul_comm, Z.div_mul by lia. lia. }
  rewrite (proj2 (Z.eqb_eq _ 0)) by lia.
  destruct (move_loop_spec (ln - fb) l fb q Hw ltac:(lia)) as (l2 & E & H1 & H2 & H3 & H4). rewrite E. cbn [mbind option_bind].
  destruct (zero_front l l2 ln fb q Hw H2 H1 Hfb ltac:(lia) ltac:(lia) Hz1 Hz2 H3) as (l3 & E3 & H5 & H6 & H7).
  rewrite E3. cbn [mbind option_bind]. exists l3. split; [done|]. split; [done|]. split; [done|].
  rewrite H7, H4, shift_value. fold S1. replace (fb + q + (ln - fb))%nat with (ln + q)%nat by lia.
  rewrite (nval_drop_zero l ln q Hw Hz2). assert (2 ^ n = wpow q) as -> by (unfold wpow; by rewrite Hq). rewrite wpow_add. lia.
Qed.

Lemma shift_words_bits q r : n = 32 * Z.of_nat q + r -> 0 < r < 32 -> (ln + q + 1 <= length l)%nat -> nval l < wpow ln ->
  exists l' len', shift_words l ln fb n = Some (l', len') /\ length l' = length l /\ Forall is_u32 l' /\ nval l' = nval l * 2 ^ n /\
    ((len' = (ln + q)%nat /\ nval l' < wpow (ln + q)) \/ (len' = (ln + q + 1)%nat /\ wpow (ln + q) <= nval l')).
Proof.
  intros Hq Hr Hl Hv. unfold shift_words. change INT_BIT with 32. assert (Z.to_nat (n / 32) = q) as ->.
  { rewrite Hq, Z.mul_comm, Z.div_add_l, (Z.div_small r) by lia. lia. }
  replace (n - Z.of_nat q * 32) with r by lia. rewrite (proj2 (Z.eqb_neq r 0)) by lia.
  destruct (shift_loop_spec (ln - fb) r Hr l fb q 0 Hw ltac:(lia) ltac:(lia) ltac:(by exists 0)) as (l1 & rest & E & H1 & H2 & H3 & H4 & H5).
  rewrite E. cbn [mbind option_bind]. rewrite upd_ok by lia. cbn [mbind option_bind].
  set (l2 := <[(fb + q)%nat := rest]> l1). assert (Hw2 : Forall is_u32 l2) by (by apply insert_words).
  assert (Hlen2 : length l2 = length l) by (unfold l2; by rewrite length_insert).
  destruct (lookup_lt_is_Some_2 l2 (ln + q)) as [w Hwi]; [lia|]. rewrite Hwi. cbn [mbind option_bind].
  assert (Ht2 : take (fb + q) l2 = take (fb + q) l).
  { unfold l2. rewrite take_insert_ge by lia. apply (f_equal (take (fb + q))) in H4. rewrite !take_take in H4. by rewrite !Nat.min_l in H4 by lia. }
  destruct (zero_front l l2 ln fb q Hw Hw2 Hlen2 Hfb ltac:(lia) ltac:(lia) Hz1 Hz2 Ht2) as (l3 & E3 & H6 & H7 & H8).
  rewrite E3. cbn [mbind option_bind].
  (* the value *)
  assert (HD : nval (drop (fb + q) l2) = nval S1 * 2 ^ r).
  { rewrite (nval_drop_S l2 _ rest) by (unfold l2; apply list_lookup_insert_eq; lia). unfold l2. rewrite drop_insert_lt by lia.
    replace (S (fb + q)) with (fb + q + 1)%nat by lia. rewrite H5. fold S1. replace (fb + q + 1 + (ln - fb))%nat with (ln + (q + 1))%nat by lia.
    rewrite (nval_drop_zero l ln (q + 1) Hw Hz2). lia. }
  assert (HV : nval l3 = nval l * 2 ^ n).
  { rewrite H8, HD, shift_value, Hq, Z.pow_add_r by lia. fold (wpow q). rewrite wpow_add. lia. }
  exists l3, (if w =? 0 then (ln + q)%nat else (ln + q + 1)%nat). split; [done|]. split; [done|]. split; [done|]. split; [done|].
  (* the word at the end *)
  assert (Hsplit : nval (drop (fb + q) l2) = nval (take (ln - fb) (drop (fb + q) l2)) + wpow (ln - fb) * (w + W * nval (drop (S (ln + q)) l2))).
  { rewrite <- (take_drop (ln - fb) (drop (fb + q) l2)) at 1. rewrite nval_app, drop_drop, length_take, length_drop, Nat.min_l by lia.
    replace (fb + q + (ln - fb))%nat with (ln + q)%nat by lia. by rewrite (nval_drop_S _ _ w Hwi). }
  pose proof (nval_bound (take (ln - fb) (drop (fb + q) l2)) ltac:(by apply Forall_take, Forall_drop)) as Hb1.
  rewrite length_take, length_drop, Nat.min_l in Hb1 by lia.
  pose proof (nval_bound (drop (S (ln + q)) l2) ltac:(by apply Forall_drop)) as Hb2.
  assert (Hwu : 0 <= w < W) by (rewrite Forall_forall in Hw2; apply Hw2; by eapply list_elem_of_lookup_2).
  assert (Hpow : wpow (ln + q) = wpow (fb + q) * wpow (ln - fb)) by (rewrite <- wpow_add; f_equal; lia).
  pose proof (wpow_pos (fb + q)) as P1. pose proof (wpow_pos (ln - fb)) as P2.
  assert (Hlt : nval l3 < W * wpow (ln + q)).
  { rewrite HV, Hq, Z.pow_add_r by lia. fold (wpow q). rewrite wpow_add.
    assert (2 ^ r < W) by (apply Z.pow_lt_mono_r; lia). pose proof (nval_bound l Hw). pose proof (wpow_pos q). pose proof (wpow_pos ln).
    assert (nval l * wpow q < wpow ln * wpow q) by nia. assert (0 < 2 ^ r) by (apply Z.pow_pos_nonneg; lia). nia. }
  rewrite H8, Hsplit, Hpow in *.
  assert (nval (drop (S (ln + q)) l2) = 0) as Ez.
  { assert (nval (take (ln - fb) (drop (fb + q) l2)) + wpow (ln - fb) * (w + W * nval (drop (S (ln + q)) l2)) < W * wpow (ln - fb)) by nia. nia. }
  rewrite Ez in *. destruct (Z.eqb_spec w 0) as [->|Hne]; [left|right]; (split; [done|]); nia.
Qed.

End Shift.

(** The length that a number of [v] bits needs is what [shift_words] computes. *)
Lemma shift_words_spec l ln fb n : Forall is_u32 l -> (fb < ln)%nat -> nval (take fb l) = 0 -> nval (drop ln l) = 0 -> 0 < n ->
  (ln + Z.to_nat ((n + 31) / 32) <= length l)%nat -> wpow (ln - 1) <= nval l < wpow ln ->
  exists l' len', shift_words l ln fb n = Some (l', len') /\ Forall is_u32 l' /\ nval l' = nval l * 2 ^ n /\
    (1 <= len' <= length l')%nat /\ wpow (len' - 1) <= nval l' < wpow len'.
Proof.
  intros Hw Hfb Hz1 Hz2 Hn Hl [Hlo Hhi]. pose proof (Z.div_mod n 32 ltac:(lia)) as Hdm. pose proof (Z.mod_pos_bound n 32 ltac:(lia)) as Hm.
  set (q := Z.to_nat (n / 32)). assert (Hq : Z.of_nat q = n / 32) by (unfold q; rewrite Z2Nat.id; [done|apply Z.div_pos; lia]).
  pose proof (wpow_pos q) as Pq. pose proof (wpow_add (ln - 1) q) as Ea. pose proof (wpow_add ln q) as Eb.
  destruct (decide (n mod 32 = 0)) as [Hr|Hr].
  - assert (Hc : (n + 31) / 32 = n / 32) by (Z.to_euclidean_division_equations; lia). rewrite Hc in Hl. fold q in Hl.
    destruct (shift_words_aligned l ln fb n Hw Hfb Hz1 Hz2 ltac:(lia) ltac:(lia) q ltac:(lia) ltac:(lia)) as (l' & E & H1 & H2 & H3).
    exists l', (ln + q)%nat. split; [done|]. split; [done|]. split; [done|]. split; [lia|].
    replace (ln + q - 1)%nat with (ln - 1 + q)%nat by lia. rewrite H3, Ea, Eb.
    assert (2 ^ n = wpow q) as -> by (unfold wpow; f_equal; lia). nia.
  - assert (Hc : (n + 31) / 32 = n / 32 + 1) by (Z.to_euclidean_division_equations; lia).
    rewrite Hc, Z2Nat.inj_add in Hl by (lia || apply Z.div_pos; lia). fold q in Hl. change (Z.to_nat 1) with 1%nat in Hl.
    destruct (shift_words_bits l ln fb n Hw Hfb Hz1 Hz2 ltac:(lia) ltac:(lia) q (n mod 32) ltac:(lia) ltac:(lia) ltac:(lia) Hhi) as (l' & len' & E & H1 & H2 & H3 & H4).
    exists l', len'. split; [done|]. split; [done|]. split; [done|].
    assert (E2n : 2 ^ n = wpow q * 2 ^ (n mod 32)) by (unfold wpow; rewrite <- Z.pow_add_r by lia; f_equal; lia).
    assert (P1 : 1 <= 2 ^ (n mod 32)) by (pose proof (Z.pow_pos_nonneg 2 (n mod 32)); lia).
    assert (P2 : 2 ^ (n mod 32) < W) by (apply Z.pow_lt_mono_r; lia).
    destruct H4 as [[-> H4]|[-> H4]]; (split; [lia|]).
    + split; [|done]. replace (ln + q - 1)%nat with (ln - 1 + q)%nat by lia. rewrite H3, Ea, E2n. pose proof (wpow_pos (ln - 1)).
      assert (wpow (ln - 1) * wpow q <= nval l * wpow q) by nia. nia.
    + replace (ln + q + 1 - 1)%nat with (ln + q)%nat by lia. split; [done|]. rewrite H3, Nat.add_1_r, wpow_S, Eb, E2n.
      pose proof (wpow_pos ln). assert (nval l * wpow q < wpow ln * wpow q) by nia. nia.
Qed.

Lemma number_shift_spec a p n : wf p -> 0 <= n -> exists r p' a', number_shift a p n = Some (r, p', a') /\
  ((r = 0 /\ wf p' /\ val p' = val p * 2 ^ n) \/ (r = -1 /\ p' = p /\ a ≠ [])).
Proof.
  intros Hp Hn. unfold number_shift. rewrite (proj2 (Z.ltb_ge n 0)) by lia. destruct (Z.eqb_spec n 0) as [->|Hn0].
  { eexists _, _, _. split; [done|]. left. rewrite Z.mul_1_r. done. }
  destruct (wf_parts p Hp) as (Hval & Hdrop & Hlen & Hws & Hpos). pose proof (first_block_spec _ Hws) as Hfb.
  destruct (first_block (take (len p) (buf p))) as [fb|].
  2:{ eexists _, _, _. split; [done|]. left. rewrite Hval, Hfb, Z.mul_0_l in *. split; [done|]. split; [done|]. lia. }
  destruct Hfb as (Hfb & Hz1 & Hnz). rewrite Hlen in Hfb. rewrite <- Hval in Hnz. rewrite take_take, Nat.min_l in Hz1 by lia.
  pose proof Hp as [[Hl1 Hl2] Hw Hh Hlow]. change (INT_BIT - 1) with 31. change INT_BIT with 32.
  set (n_len := (len p + Z.to_nat ((n + 31) / 32))%nat).
  (* the array, grown or not *)
  assert (Hcore : forall l, Forall is_u32 l -> take (len p) l = take (len p) (buf p) -> nval (drop (len p) l) = 0 -> (n_len <= length l)%nat ->
    exists l' len', shift_words l (len p) fb n = Some (l', len') /\ wf (Number (minus p) len' l') /\ val (Number (minus p) len' l') = val p * 2 ^ n).
  { intros l Hlw Hlt Hld Hll. assert (Hvl : nval l = val p).
    { rewrite <- (take_drop (len p) l), nval_app, Hlt, Hld, Hval. lia. }
    assert (Hf : take fb l = take fb (buf p)).
    { apply (f_equal (take fb)) in Hlt. by rewrite !take_take, !Nat.min_l in Hlt by lia. }
    assert (Hlo : wpow (len p - 1) <= nval l) by (rewrite Hvl; destruct Hlow as [->|?]; [change (wpow (1 - 1)) with 1; lia|done]).
    destruct (shift_words_spec l (len p) fb n Hlw ltac:(lia) ltac:(by rewrite Hf) Hld ltac:(lia) Hll ltac:(lia)) as (l' & len' & E & H1 & H2 & H3 & H4).
    exists l', len'. split; [done|]. unfold val. cbn [buf]. rewrite H2, Hvl. split; [|done].
    split; unfold max, val; cbn [buf len]; [lia|done|lia|right; lia]. }
  case_bool_decide as Hmax.
  - assert (Hgrow : exists l' len', shift_words (take (len p) (buf p) ++ replicate (units n_len - len p) 0) (len p) fb n = Some (l', len') /\
      wf (Number (minus p) len' l') /\ val (Number (minus p) len' l') = val p * 2 ^ n).
    { apply Hcore.
      - apply Forall_app. split; [done|apply zeros_words].
      - by rewrite take_app_le, take_take, Nat.min_id by lia.
      - rewrite drop_app_ge, Hlen, Nat.sub_diag, drop_0 by lia. apply nval_zeros.
      - rewrite length_app, length_replicate, Hlen. pose proof (units_ge n_len). unfold n_len in *. lia. }
    destruct Hgrow as (l' & len' & E & Hwf & Hv).
    destruct a as [|[] a]; cbn [malloc negb]; rewrite ?E; cbn [mbind option_bind]; eexists _, _, _; (split; [done|]); [left|left|right]; done.
  - destruct (Hcore (buf p) Hw eq_refl Hdrop) as (l' & len' & E & Hwf & Hv); [unfold max in *; lia|].
    cbn [negb]. rewrite E. cbn [mbind option_bind]. eexists _, _, _. split; [done|]. by left.
Qed.

Lemma number_create_spec a x s : 0 <= x < 2 ^ 64 -> exists o a', number_create a x s = (o, a') /\
  match o with Some p => wf p /\ val p = x /\ minus p = s | None => a ≠ [] end.
Proof.
  intros Hx. assert (Hwf : forall b, let p := Number s ((if x / W =? 0 then 0%nat else 1%nat) + 1) ([x mod W; x / W] ++ replicate 2 0) in
    b = p -> wf b /\ val b = x /\ minus b = s).
  { intros b p ->. pose proof (Z.div_mod x W ltac:(lia)) as Hdm. pose proof (Z.mod_pos_bound x W ltac:(lia)) as Hm.
    assert (Hq : 0 <= x / W < W) by (split; [apply Z.div_pos; lia|apply Z.div_lt_upper_bound; lia]).
    destruct (wf_make s ([x mod W; x / W] ++ replicate 2 0) x (if x / W =? 0 then 0%nat else 1%nat) 2) as [H1 H2].
    - repeat constructor; unfold is_u32; lia.
    - cbn. lia.
    - unfold least. change (wpow 2) with (2 ^ 64). change (wpow 1) with W. destruct (Z.eqb_spec (x / W) 0) as [E|E].
      + destruct (decide (x = 0)); [left; done|right]. split; [done|]. change (wpow 1) with W. lia.
      + right. split; [lia|]. change (wpow 2) with (2 ^ 64). split; [lia|right]. change (wpow 1) with W. nia.
    - cbn. lia.
    - lia.
    - change (wpow 2) with (2 ^ 64). lia.
    - done. }
  unfold number_create. destruct a as [|[] [|[] a]]; cbn [malloc]; eexists _, _; (split; [reflexivity|]); cbv beta iota;
    try done; by apply Hwf.
Qed.
