(* ===== verification/CPrintf.v ===== *)
(** * Formatted output of the library (lib/libnc/stdio/vnprintf2.c)

    The [printf] of the C library: characters go to a function of the caller,
    and [%f] writes the exact decimal value of a double with the numbers of
    [CBignum]. *)

From S2P Require Import Prelude CMem CType CNumber CPrint CBignum.

Definition B64_EXPONENT_BITS : Z := 11.
Definition B64_SIGNIFICANT_BITS : Z := 52.
Definition B64_EXPONENT_BIAS : Z := 1023.
Definition B64_EXPONENT_SPECIAL : Z := 2047.
Definition B64_EXPONENT_MAX_R10 : nat := 1074.
Definition B64_SIGNIFICANT_MASK : Z := Z.shiftl 1 B64_SIGNIFICANT_BITS - 1.

Definition power5 : list Z :=
  [5; 25; 125; 625; 3125; 15625; 78125; 390625; 1953125; 9765625; 48828125; 244140625; 1220703125].
Definition NUM_OF_POWER5 : nat := length power5.

(** An argument: a word, or the bits of a double. *)
Inductive varg := Word (v : Z) | Double (v : Z).

(** The half of the code that walks the format: [c], the handlers. *)
Section Code.
Context {E : Type} (out : Z -> E -> Z * E).

(** What [State] holds of the output, and the results of [malloc] to come. *)
Record output := Output { env : E; olen : Z; has_error : bool; mallocs : list bool }.

Record state := St { st_handler : handler_t; st_format : Z; st_ap : list varg; st_out : output }.

Definition putchar2 (c : Z) (o : output) : output :=
  let '(r, e) := out (u8 c) (env o) in
  Output e (if 0 <=? r then olen o + 1 else olen o) (has_error o) (mallocs o).

Fixpoint puts_loop2 (f : nat) (m : cmem) (str : Z) (o : output) : option output :=
  match f with
  | O => None
  | S f => c ← get8 m str; if c =? 0 then Some o else puts_loop2 f m (str + 1) (putchar2 c o)
  end.

Definition puts2 (m : cmem) (str : Z) (o : output) : option output := puts_loop2 (turns m) m str o.

(** [_puts] of an array of the function itself. *)
Definition puts_text (l : list Z) (o : output) : output := fold_left (λ o c, putchar2 c o) l o.

Fixpoint putd_loop2 (f : nat) (u radix : Z) (buf : list Z) : option (list Z) :=
  match f with
  | O => None
  | S f =>
      let buf := (u mod radix + 48) :: buf in
      let u := u / radix in
      if u =? 0 then Some buf else putd_loop2 f u radix buf
  end.

Definition putd2 (v radix : Z) (o : output) : option output :=
  '(u, o) ← (if (radix =? 10) && (v <? 0) then let o := putchar2 45 o in u ← neg_int v; Some (u, o) else Some (u32 v, o));
  buf ← putd_loop2 MAX_INT_COLUMN u radix [];
  Some (puts_text buf o).

Fixpoint putx_loop2 (f : nat) (u shift : Z) (o : output) : option output :=
  match f with
  | O => None
  | S f =>
      let c := Z.land (Z.shiftr u shift) 0xf in
      let o := putchar2 (c + (if 10 <=? c then 97 - 10 else 48)) o in
      let shift := shift - 4 in
      if 0 <=? shift then putx_loop2 f u shift o else Some o
  end.

Definition putx2 (u : Z) (o : output) : option output :=
  let shift := count_nlz u in
  if shift <? INT_BIT then putx_loop2 8 u (Z.land shift (INT_BIT - 1 - 3)) o
  else Some (putchar2 48 o).

(** The significand without the zeros at its end, and the number of its bits. *)
Fixpoint significand_loop (f : nat) (x sig i : Z) : option (Z * Z) :=
  match f with
  | O => None
  | S f =>
      if sig =? 0 then Some (x, i)
      else significand_loop f (Z.lor (u64 (Z.shiftl x 1)) (Z.shiftr sig (B64_SIGNIFICANT_BITS - 1)))
             (Z.land (u64 (Z.shiftl sig 1)) B64_SIGNIFICANT_MASK) (i + 1)
  end.

(** The results of [number_multiply] are not looked at. *)
Fixpoint power_loop (f : nat) (a : list bool) (num : number_t) (i : nat) : option (number_t * list bool) :=
  match f with
  | O => None
  | S f =>
      if bool_decide (NUM_OF_POWER5 <= i)%nat then
        n ← power5 !! (NUM_OF_POWER5 - 1)%nat;
        let '(_, num, a) := number_multiply a num n in power_loop f a num (i - NUM_OF_POWER5)
      else if bool_decide (0 < i)%nat then
        n ← power5 !! (i - 1)%nat;
        let '(_, num, a) := number_multiply a num n in Some (num, a)
      else Some (num, a)
  end.

Definition set_mallocs (a : list bool) (o : output) : output := Output (env o) (olen o) (has_error o) a.
Definition set_error (o : output) : output := Output (env o) (olen o) true (mallocs o).

(** The digits of the number, with the point. *)
Definition put_digits (digits : list Z) (decimal_shift : Z) (o : output) : output :=
  let integer_len := Z.of_nat (length digits) - decimal_shift in
  if integer_len <=? 0 then
    let o := puts_text [48; 46] o in
    let o := puts_text (replicate (Z.to_nat (- integer_len)) 48) o in
    puts_text digits o
  else
    let o := puts_text (take (Z.to_nat integer_len) digits) o in
    let o := putchar2 46 o in
    let o := if decimal_shift =? 0 then putchar2 48 o else o in
    puts_text (drop (Z.to_nat integer_len) digits) o.

(** The result of [putdouble] is 0 or -1. *)
Definition putdouble (sig exp : Z) (o : output) : option (Z * output) :=
  '(x, decimal_shift) ←
    (if exp =? - B64_EXPONENT_BIAS then Some (sig, B64_SIGNIFICANT_BITS + B64_EXPONENT_BIAS - 1)
     else '(x, i) ← significand_loop 53 1 sig 0; Some (x, i - exp));
  let '(num, a) := number_create (mallocs o) x false in
  match num with
  | None => Some (-1, set_error (set_mallocs a o))
  | Some num =>
      '(num, decimal_shift, a) ←
        (if 0 <? decimal_shift then
           '(num, a) ← power_loop (S (Z.to_nat decimal_shift)) a num (Z.to_nat decimal_shift);
           Some (num, decimal_shift, a)
         else '(_, num, a) ← number_shift a num (- decimal_shift); Some (num, 0, a));
      digits ← _number_to_decimal num (B64_EXPONENT_MAX_R10 + 1);
      Some (0, put_digits digits decimal_shift (set_mallocs a o))
  end.

Definition _putf (x : Z) (o : output) : option (Z * output) :=
  let sig := Z.land x B64_SIGNIFICANT_MASK in
  let hi := s32 (x / 2 ^ 32) in
  let exp := Z.land (Z.shiftr hi (INT_BIT - 1 - B64_EXPONENT_BITS)) B64_EXPONENT_SPECIAL in
  if negb (sig =? 0) && (exp =? B64_EXPONENT_SPECIAL) then Some (0, puts_text [110; 97; 110] o)
  else
    let o := if hi <? 0 then putchar2 45 o else o in
    if exp =? B64_EXPONENT_SPECIAL then Some (0, puts_text [105; 110; 102] o)
    else if (exp =? 0) && (sig =? 0) then Some (0, puts_text [48; 46; 48] o)
    else putdouble sig (exp - B64_EXPONENT_BIAS) o.

Definition next_format2 (m : cmem) (s : state) : option (Z * state) :=
  c ← get8 m (st_format s); Some (c, St (st_handler s) (st_format s + 1) (st_ap s) (st_out s)).

Definition with_out (s : state) (h : handler_t) (o : output) : state := St h (st_format s) (st_ap s) o.

Definition va_word (s : state) : option (Z * state) :=
  match st_ap s with Word x :: l => Some (x, St (st_handler s) (st_format s) l (st_out s)) | _ => None end.

Definition va_double (s : state) : option (Z * state) :=
  match st_ap s with Double x :: l => Some (x, St (st_handler s) (st_format s) l (st_out s)) | _ => None end.

Definition immediate2 (m : cmem) (s : state) : option (bool * state) :=
  '(c, s) ← next_format2 m s;
  if c =? 0 then Some (false, s)
  else if c =? 37 then Some (true, with_out s Format (st_out s))
  else if c =? 92 then Some (true, with_out s Escape (st_out s))
  else Some (true, with_out s (st_handler s) (putchar2 c (st_out s))).

(** One conversion; 0, or what [_putf] returns. *)
Definition convert2 (m : cmem) (c : Z) (s : state) : option (Z * state) :=
  let put s (f : output -> option output) := o ← f (st_out s); Some (0, with_out s Immediate o) in
  if c =? 99 then '(x, s) ← va_word s; put s (λ o, Some (putchar2 (Z.land x 0xff) o))
  else if c =? 100 then '(x, s) ← va_word s; put s (putd2 (s32 x) 10)
  else if c =? 102 then
    '(x, s) ← va_double s;
    '(r, o) ← _putf x (st_out s);
    Some (r, with_out s (if r =? 0 then Immediate else st_handler s) o)
  else if c =? 108 then
    '(c2, s) ← next_format2 m s;
    if c2 =? 100 then '(x, s) ← va_word s; put s (putd2 (s32 x) 10)
    else if c2 =? 111 then '(x, s) ← va_word s; put s (putd2 (s32 x) 8)
    else if c2 =? 120 then '(x, s) ← va_word s; put s (putx2 (u32 x))
    else put s (λ o, Some (putchar2 c2 (putchar2 c (putchar2 37 o))))
  else if c =? 111 then '(x, s) ← va_word s; put s (putd2 (s32 x) 8)
  else if c =? 112 then '(x, s) ← va_word s; put s (λ o, putx2 (u32 x) (putchar2 120 (putchar2 48 o)))
  else if c =? 120 then '(x, s) ← va_word s; put s (putx2 (u32 x))
  else if c =? 115 then '(x, s) ← va_word s; put s (puts2 m x)
  else put s (λ o, Some (putchar2 c (putchar2 37 o))).

Definition format2 (m : cmem) (s : state) : option (bool * state) :=
  '(c, s) ← next_format2 m s;
  if c =? 0 then Some (false, with_out s (st_handler s) (putchar2 37 (st_out s)))
  else '(r, s) ← convert2 m c s; Some (r =? 0, s).

Definition escape2 (m : cmem) (s : state) : option (bool * state) :=
  '(c, s) ← next_format2 m s;
  if c =? 0 then Some (false, with_out s (st_handler s) (putchar2 92 (st_out s)))
  else
    let c := if c =? 110 then 10 else if c =? 114 then 13 else if c =? 116 then 9 else c in
    Some (true, with_out s Immediate (putchar2 c (st_out s))).

Definition handle2 (m : cmem) (s : state) : option (bool * state) :=
  match st_handler s with Immediate => immediate2 m s | Format => format2 m s | Escape => escape2 m s end.

Fixpoint vnprintf2_loop (f : nat) (m : cmem) (s : state) : option state :=
  match f with
  | O => None
  | S f => '(go, s) ← handle2 m s; if (go : bool) then vnprintf2_loop f m s else Some s
  end.

(** What is returned, and the state of the caller. *)
Definition vnprintf2 (a : list bool) (e : E) (m : cmem) (fmt : Z) (args : list varg) : option (Z * E) :=
  s ← vnprintf2_loop (turns m) m (St Immediate fmt args (Output e 0 false a));
  Some (if has_error (st_out s) then -1 else olen (st_out s), env (st_out s)).

End Code.

(** ** Output as text *)

Section Text.
Context {E : Type} (out : Z -> E -> Z * E).

Lemma puts_text_app l1 l2 o : puts_text out (l1 ++ l2) o = puts_text out l2 (puts_text out l1 o).
Proof. apply fold_left_app. Qed.

Lemma putchar2_u8 c o : putchar2 out (u8 c) o = putchar2 out c o.
Proof. unfold putchar2. unfold u8. by rewrite Zmod_mod. Qed.

Lemma puts2_spec m p l o : cstr m p l -> puts2 out m p o = Some (puts_text out l o).
Proof.
  intros Hl. unfold puts2. pose proof (cstr_turns _ _ _ Hl) as Hf. revert p o Hl Hf. generalize (turns m) as f.
  induction l as [|c l IH]; intros [|f] p o Hl Hf; cbn [length] in *; try lia; cbn [puts_loop2]; unfold get8.
  - apply cstr_nil in Hl. by rewrite Hl.
  - apply cstr_cons in Hl as (Hc & Hch & Hl). rewrite Hc. cbn [mbind option_bind].
    rewrite (proj2 (Z.eqb_neq c 0)) by (unfold is_char in Hch; lia). rewrite IH by (done || lia). done.
Qed.

Lemma digit_of_radix radix d : 2 <= radix <= 10 -> 0 <= d < radix -> digit_of (d + 48) = d /\ is_digit radix (d + 48) = true.
Proof.
  intros Hr Hd. destruct (digit_of_dec d ltac:(lia)) as [H _]. split; [done|]. unfold is_digit. rewrite H. apply Z.ltb_lt. lia.
Qed.

Lemma putd_loop2_spec radix : 2 <= radix <= 10 -> forall f u acc, 0 <= u < radix ^ Z.of_nat f -> (1 <= f)%nat ->
  exists ds, putd_loop2 f u radix acc = Some (ds ++ acc) /\ spells radix u ds.
Proof.
  intros Hr. induction f as [|f IH]; intros u acc Hu Hf; [lia|]. cbn [putd_loop2].
  pose proof (Z.mod_pos_bound u radix ltac:(lia)) as Hm. destruct (digit_of_radix radix _ Hr Hm) as [Hd1 Hd2].
  pose proof (Z.div_mod u radix ltac:(lia)) as Hdm. destruct (Z.eqb_spec (u / radix) 0) as [E0|E0].
  - exists [u mod radix + 48]. split; [done|]. assert (u mod radix = u) as Eu by lia.
    split; [done|by constructor| |by intros [= ->]]. cbn. rewrite Hd1. lia.
  - assert (Hq : 0 <= u / radix < radix ^ Z.of_nat f).
    { rewrite Nat2Z.inj_succ, Z.pow_succ_r in Hu by lia. split; [apply Z.div_pos; lia|apply Z.div_lt_upper_bound; lia]. }
    destruct f as [|f]; [change (radix ^ Z.of_nat 0) with 1 in Hq; lia|].
    destruct (IH (u / radix) ((u mod radix + 48) :: acc) Hq ltac:(lia)) as (ds & Eds & [Hs Hd Hn Hl]).
    exists (ds ++ [u mod radix + 48]). rewrite <- app_assoc. split; [done|]. split.
    + by destruct ds.
    + apply Forall_app. split; [done|by constructor].
    + rewrite number_app, Hn. cbn. rewrite Hd1. lia.
    + destruct ds as [|c ds]; [done|]. cbn. intros [= ->]. injection (Hl eq_refl) as ->. change (number radix 0 [48]) with 0 in Hn. congruence.
Qed.

Lemma putd2_dec v o : is_int v -> exists t, putd2 out v 10 o = Some (puts_text out t o) /\ decimal v t.
Proof.
  intros Hi. pose proof Hi as Hv. unfold is_int in Hv. unfold putd2, decimal. change (10 =? 10) with true. cbn [andb]. rewrite neg_int_spec by done.
  destruct (putd_loop2_spec 10 ltac:(lia) MAX_INT_COLUMN (Z.abs v) []) as (ds & E0 & Hds);
    [unfold MAX_INT_COLUMN; change (10 ^ Z.of_nat 10) with 10000000000; lia|unfold MAX_INT_COLUMN; lia|]. rewrite app_nil_r in E0.
  destruct (Z.ltb_spec v 0).
  - rewrite Z.abs_neq in E0 by lia. cbn [mbind option_bind]. rewrite E0. cbn [mbind option_bind].
    exists ([45] ++ ds). split; [done|]. by exists ds.
  - rewrite u32_small by (unfold is_u32; lia). rewrite Z.abs_eq in E0 by lia. cbn [mbind option_bind]. rewrite E0. cbn [mbind option_bind].
    exists ds. split; [done|]. by exists ds.
Qed.

(** Octal numbers of up to thirty bits: the buffer has room for ten digits. *)
Lemma putd2_oct v o : 0 <= v < 2 ^ 30 -> exists t, putd2 out v 8 o = Some (puts_text out t o) /\ spells 8 v t.
Proof.
  intros Hv. unfold putd2. change (8 =? 10) with false. cbn [andb mbind option_bind]. rewrite u32_small by (unfold is_u32; lia).
  destruct (putd_loop2_spec 8 ltac:(lia) MAX_INT_COLUMN v []) as (ds & E0 & Hds);
    [unfold MAX_INT_COLUMN; change (8 ^ Z.of_nat 10) with (2 ^ 30); lia|unfold MAX_INT_COLUMN; lia|].
  rewrite app_nil_r in E0. rewrite E0. by exists ds.
Qed.

(** The loop of hexadecimal digits is the one of [CPrint]. *)
Lemma putx_loop_sim f : forall u shift s s' o, _putx_loop f u shift s = Some s' ->
  exists t, CPrint.out s' = CPrint.out s ++ t /\ putx_loop2 out f u shift o = Some (puts_text out t o).
Proof.
  induction f as [|f IH]; intros u shift s s' o E0; [done|]. cbn [_putx_loop putx_loop2] in *. set (c := _ + _) in *.
  destruct (0 <=? shift - 4).
  - destruct (IH _ _ _ _ (putchar2 out c o) E0) as (t & Et & ->). cbn in Et. exists (u8 c :: t).
    rewrite Et, <- app_assoc. split; [done|]. cbn. by rewrite putchar2_u8.
  - injection E0 as <-. exists [u8 c]. split; [done|]. cbn. by rewrite putchar2_u8.
Qed.

Lemma putx2_spec u o : is_u32 u -> exists t, putx2 out u o = Some (puts_text out t o) /\ spells 16 u t.
Proof.
  intros Hu. set (s := mkState Immediate 0 [] [] 0). destruct (_putx_spec u s Hu) as (t & E0 & Ht). exists t. split; [|done].
  revert E0. unfold _putx, putx2. change CBignum.INT_BIT with CPrint.INT_BIT. destruct (count_nlz u <? CPrint.INT_BIT).
  - intros E0. destruct (putx_loop_sim _ _ _ _ _ o E0) as (t' & Et & ->). cbn in Et. by subst t'.
  - intros [= E0]. cbn in E0. by subst t.
Qed.

(** ** Doubles *)

(** [t] is the decimal fraction that is exactly [M * 2 ^ e]: digits with a point
    between them, and no needless zeros in front. *)
Definition fraction (M e : Z) (t : list Z) : Prop :=
  exists I F, t = I ++ [46] ++ F /\ I ≠ [] /\ F ≠ [] /\ Forall (λ c, is_digit 10 c = true) (I ++ F) /\ (head I = Some 48 -> I = [48]) /\
    number 10 0 (I ++ F) * 2 ^ Z.max 0 (- e) = M * 2 ^ Z.max 0 e * 10 ^ Z.of_nat (length F).

Lemma significand_loop_spec M : 0 <= M - 2 ^ 52 < 2 ^ 52 -> forall f x sig i,
  0 <= i <= 52 -> 53 - i <= Z.of_nat f -> 0 <= sig < 2 ^ 52 -> (2 ^ i | sig) -> 0 < x -> x * 2 ^ 52 + sig = M * 2 ^ i ->
  exists x' i', significand_loop f x sig i = Some (x', i') /\ 0 <= i' <= 52 /\ 0 < x' < 2 ^ 53 /\ x' * 2 ^ 52 = M * 2 ^ i'.
Proof.
  intros HM. induction f as [|f IH]; intros x sig i Hi Hf Hsig Hdiv Hx HE; [lia|]. cbn [significand_loop].
  assert (P : 0 < 2 ^ i) by (apply Z.pow_pos_nonneg; lia). assert (P' : 2 ^ i <= 2 ^ 52) by (apply Z.pow_le_mono_r; lia).
  destruct (Z.eqb_spec sig 0) as [->|Hne].
  - exists x, i. split; [done|]. split; [done|]. split; [|lia]. nia.
  - destruct Hdiv as [k Hk]. assert (i ≠ 52) by (intros ->; nia).
    assert (Hx64 : 0 <= Z.shiftl x 1 < 2 ^ 64) by (rewrite Z.shiftl_mul_pow2 by lia; nia).
    unfold u64. rewrite (Z.mod_small (Z.shiftl x 1)) by done. change (B64_SIGNIFICANT_BITS - 1) with 51. rewrite Z.shiftr_div_pow2 by lia.
    assert (Hb : 0 <= sig / 2 ^ 51 < 2) by (split; [apply Z.div_pos; lia|apply Z.div_lt_upper_bound; lia]).
    rewrite lor_shiftl_add by lia. rewrite (Z.mod_small (Z.shiftl sig 1)) by (rewrite Z.shiftl_mul_pow2 by lia; lia).
    change B64_SIGNIFICANT_MASK with (Z.ones 52). rewrite Z.land_ones, Z.shiftl_mul_pow2 by lia. change (2 ^ 1) with 2.
    assert (Esig : sig * 2 mod 2 ^ 52 = sig mod 2 ^ 51 * 2) by (change (2 ^ 52) with (2 ^ 51 * 2); by rewrite Z.mul_mod_distr_r by lia).
    rewrite Esig. pose proof (Z.div_mod sig (2 ^ 51) ltac:(lia)) as Hdm. pose proof (Z.mod_pos_bound sig (2 ^ 51) ltac:(lia)) as Hmb.
    assert (Ep : 2 ^ (i + 1) = 2 ^ i * 2) by (rewrite Z.pow_add_r by lia; done).
    apply IH; [lia|lia|lia| |lia|rewrite Ep; lia].
    rewrite Ep. apply Z.mul_divide_mono_r. assert (E51 : 2 ^ 51 = 2 ^ i * 2 ^ (51 - i)) by (rewrite <- Z.pow_add_r by lia; f_equal; lia).
    rewrite Hk, E51, (Z.mul_comm k), Z.mul_mod_distr_l by lia. by exists (k mod 2 ^ (51 - i)); lia.
Qed.

Lemma number_multiply_ok p n : wf p -> is_u32 n -> exists p', number_multiply [] p n = (0, p', []) /\ wf p' /\ val p' = val p * n.
Proof.
  intros Hp Hn. destruct (number_multiply [] p n) as [[r p'] a'] eqn:E0.
  assert (a' = []) as -> by (unfold number_multiply in E0; destruct (multiply_loop _ _ _ _ _); case_bool_decide; cbn in E0; congruence).
  destruct (number_multiply_spec _ _ _ _ _ _ Hp Hn E0) as [(-> & ? & ?)|(_ & _ & ?)]; [|done]. by exists p'.
Qed.

Lemma power5_spec i : (i < 13)%nat -> power5 !! i = Some (5 ^ Z.of_nat (S i)) /\ is_u32 (5 ^ Z.of_nat (S i)).
Proof. intros Hi. unfold is_u32. do 13 (destruct i as [|i]; [by vm_compute|]). lia. Qed.

Lemma power_loop_spec : forall f num i, wf num -> (i < f)%nat ->
  exists num', power_loop f [] num i = Some (num', []) /\ wf num' /\ val num' = val num * 5 ^ Z.of_nat i.
Proof.
  induction f as [|f IH]; intros num i Hw Hf; [lia|]. cbn [power_loop]. change NUM_OF_POWER5 with 13%nat. case_bool_decide as H13.
  - destruct (power5_spec 12 ltac:(lia)) as [E1 H1]. change (13 - 1)%nat with 12%nat. rewrite E1. cbn [mbind option_bind].
    destruct (number_multiply_ok num _ Hw H1) as (num1 & -> & Hw1 & Hv1). destruct (IH num1 (i - 13)%nat Hw1 ltac:(lia)) as (num' & E2 & Hw' & Hv').
    exists num'. split; [done|]. split; [done|]. rewrite Hv', Hv1, <- Z.mul_assoc, <- Z.pow_add_r by lia. do 2 f_equal. lia.
  - case_bool_decide as H0.
    + destruct (power5_spec (i - 1) ltac:(lia)) as [E1 H1]. rewrite E1. cbn [mbind option_bind].
      destruct (number_multiply_ok num _ Hw H1) as (num1 & -> & Hw1 & Hv1). exists num1. split; [done|]. split; [done|].
      rewrite Hv1. do 3 f_equal. lia.
    + exists num. split; [done|]. split; [done|]. assert (i = 0%nat) as -> by lia. change (5 ^ Z.of_nat 0) with 1. lia.
Qed.

Lemma number_zeros k ds v : number 10 v (replicate k 48 ++ ds) = number 10 (v * 10 ^ Z.of_nat k) ds.
Proof.
  revert v. induction k as [|k IH]; intros v; cbn [replicate app number]; [f_equal; change (10 ^ Z.of_nat 0) with 1; lia|].
  rewrite IH. f_equal. change (digit_of 48) with 0. rewrite Nat2Z.inj_succ, Z.pow_succ_r by lia. lia.
Qed.

(** The digits of [v] with the point in front of the last [ds] of them. *)
Lemma put_digits_spec D v ds o : dec_digits v D -> v ≠ 0 -> 0 <= ds ->
  exists I F, put_digits out D ds o = puts_text out (I ++ [46] ++ F) o /\ I ≠ [] /\ F ≠ [] /\
    Forall (λ c, is_digit 10 c = true) (I ++ F) /\ (head I = Some 48 -> I = [48]) /\
    number 10 0 (I ++ F) * 10 ^ ds = v * 10 ^ Z.of_nat (length F).
Proof.
  intros (HD & Hn & Hh) Hv Hds. assert (HDne : D ≠ []) by (intros ->; by cbn in Hn). unfold put_digits.
  destruct (Z.leb_spec (Z.of_nat (length D) - ds) 0) as [Hle|Hgt].
  - set (k := Z.to_nat (- (Z.of_nat (length D) - ds))). exists [48], (replicate k 48 ++ D).
    split; [by rewrite <- !puts_text_app|]. split; [done|]. split; [by destruct k, D|].
    split; [constructor; [done|]; apply Forall_app; split; [by apply Forall_replicate|done]|]. split; [done|].
    change ([48] ++ replicate k 48 ++ D) with (replicate 1 48 ++ replicate k 48 ++ D). rewrite !number_zeros, !Z.mul_0_l, Hn.
    rewrite length_app, length_replicate. do 2 f_equal. lia.
  - set (k := Z.to_nat (Z.of_nat (length D) - ds)). assert (Hk : (0 < k <= length D)%nat) by lia.
    assert (Htd : take k D ++ drop k D = D) by apply take_drop.
    assert (Hh' : head (take k D) = head D) by (destruct k, D; done || lia).
    destruct (Z.eqb_spec ds 0) as [->|Hds0].
    + assert (drop k D = []) as Ed by (apply drop_ge; lia). exists (take k D), [48]. rewrite Ed.
      split; [rewrite (app_assoc (take k D)), !puts_text_app; done|]. split; [by destruct k, D; done || lia|]. split; [done|].
      rewrite Ed, app_nil_r in Htd. rewrite Htd. split; [apply Forall_app; split; [done|by repeat constructor]|].
      split; [done|]. rewrite number_app, Hn. cbn. change (digit_of 48) with 0. lia.
    + exists (take k D), (drop k D). split; [by rewrite !puts_text_app|]. split; [by destruct k, D; done || lia|].
      split; [intros Ed; apply (f_equal length) in Ed; rewrite length_drop in Ed; cbn in Ed; lia|]. rewrite Htd.
      split; [done|]. split; [by rewrite Hh'|]. rewrite Hn, length_drop. do 2 f_equal. lia.
Qed.

Lemma number_shift_ok p n : wf p -> 0 <= n -> exists p', number_shift [] p n = Some (0, p', []) /\ wf p' /\ val p' = val p * 2 ^ n.
Proof.
  intros Hp Hn. destruct (number_shift_spec [] p n Hp Hn) as (r & p' & a' & E0 & H).
  assert (a' = []) as ->.
  { unfold number_shift in E0. destruct (n <? 0); [congruence|]. destruct (n =? 0); [congruence|]. destruct (first_block _); [|congruence].
    case_bool_decide; cbn [malloc negb] in E0; destruct (shift_words _ _ _ _) as [[l' len']|]; cbn [mbind option_bind] in E0; congruence. }
  destruct H as [(-> & ? & ?)|(_ & _ & ?)]; [|done]. by exists p'.
Qed.

Lemma number_create_ok x s : 0 <= x < 2 ^ 64 -> exists p, number_create [] x s = (Some p, []) /\ wf p /\ val p = x.
Proof.
  intros Hx. destruct (number_create_spec [] x s Hx) as (o & a' & E0 & H). unfold number_create in *. cbn [malloc] in *.
  injection E0 as <- <-. eexists. split; [done|]. tauto.
Qed.

(** Multiplication by a power of five divides by a power of two. *)
Lemma scale_five N x F ds : 0 <= ds -> N * 10 ^ ds = x * 5 ^ ds * F -> N * 2 ^ ds = x * F.
Proof.
  intros Hds H. assert (P : 0 < 5 ^ ds) by (apply Z.pow_pos_nonneg; lia).
  apply (Z.mul_reg_r _ _ (5 ^ ds)); [lia|]. replace 10 with (2 * 5) in H by lia. rewrite Z.pow_mul_l in H. lia.
Qed.

Lemma digits_room x ds : 0 < x < 2 ^ 53 -> 0 <= ds <= 1074 -> x * 5 ^ ds < 10 ^ 1074 /\ (ds <= 1023 -> x * 2 ^ ds < 10 ^ 1074).
Proof.
  intros Hx Hds. assert (H5 : 5 ^ ds <= 5 ^ 1074) by (apply Z.pow_le_mono_r; lia). assert (P : 0 < 5 ^ ds) by (apply Z.pow_pos_nonneg; lia).
  assert (H2 : 2 ^ 53 <= 2 ^ 1074) by (apply Z.pow_le_mono_r; lia).
  assert (H10 : 10 ^ 1074 = 2 ^ 1074 * 5 ^ 1074) by (rewrite <- Z.pow_mul_l; done).
  assert (P5 : 4 <= 5 ^ 1074) by (change 4 with (4 ^ 1); transitivity (5 ^ 1); [lia|apply Z.pow_le_mono_r; lia]).
  rewrite H10. generalize dependent (5 ^ 1074). intros p5 H5 _ P5. split.
  - generalize dependent (2 ^ 1074). intros p2 H2. generalize dependent (2 ^ 53). intros p53 Hx H2.
    assert (x < p2) by lia. nia.
  - intros Hd. assert (Hp : 2 ^ ds <= 2 ^ 1023) by (apply Z.pow_le_mono_r; lia). assert (P2 : 0 < 2 ^ ds) by (apply Z.pow_pos_nonneg; lia).
    assert (E1 : 2 ^ 53 * 2 ^ 1023 = 2 ^ 1074 * 4) by (rewrite <- Z.pow_add_r by lia; change 4 with (2 ^ 2); rewrite <- Z.pow_add_r by lia; done).
    generalize dependent (2 ^ 1074). intros p2 H2 E1. generalize dependent (2 ^ 1023). intros p1023 Hp E1.
    generalize dependent (2 ^ 53). intros p53 Hx H2 E1. assert (x * 2 ^ ds < p53 * p1023) by nia. nia.
Qed.

(** From a number [x] and a shift to the text. *)
Lemma decimal_text num x ds M e o :
  wf num -> 0 < val num -> val num < 10 ^ 1074 -> 0 <= ds ->
  (forall N F, N * 10 ^ ds = val num * F -> N * 2 ^ Z.max 0 (- e) = M * 2 ^ Z.max 0 e * F) -> x = val num ->
  exists t, (digits ← _number_to_decimal num (B64_EXPONENT_MAX_R10 + 1); Some (0, put_digits out digits ds o)) = Some (0, puts_text out t o) /\ fraction M e t.
Proof.
  intros Hw Hv Hb Hds Hval ->. unfold _number_to_decimal. change (B64_EXPONENT_MAX_R10 + 1 - 1)%nat with 1074%nat.
  destruct (to_decimal_spec 1074 num [] Hw) as (D & E0 & HD & _); [exact Hb|]. rewrite E0, app_nil_r. cbn [mbind option_bind].
  destruct (put_digits_spec D _ ds o HD ltac:(lia) Hds) as (I & F & -> & HI & HF & Hdig & Hh & Hn).
  eexists. split; [done|]. exists I, F. split; [done|]. split; [done|]. split; [done|]. split; [done|]. split; [done|]. by apply Hval.
Qed.

Lemma putdouble_spec sig exp o : 0 <= sig < 2 ^ 52 -> -1023 <= exp <= 1023 -> (exp = -1023 -> sig ≠ 0) -> mallocs o = [] ->
  let '(M, e) := if exp =? -1023 then (sig, -1074) else (2 ^ 52 + sig, exp - 52) in
  exists t, putdouble out sig exp o = Some (0, puts_text out t o) /\ fraction M e t.
Proof.
  intros Hsig Hexp Hz Hm. unfold putdouble. change (- B64_EXPONENT_BIAS) with (-1023).
  assert (Ho : set_mallocs [] o = o) by (destruct o; cbn in *; by subst). rewrite Hm.
  destruct (Z.eqb_spec exp (-1023)) as [Eexp|Hne]; cbn [mbind option_bind].
  - change (B64_SIGNIFICANT_BITS + B64_EXPONENT_BIAS - 1) with 1074. specialize (Hz Eexp).
    destruct (number_create_ok sig false ltac:(lia)) as (p & -> & Hp & Hv). change (0 <? 1074) with true. cbn iota.
    destruct (power_loop_spec (S (Z.to_nat 1074)) p (Z.to_nat 1074) Hp ltac:(lia)) as (num & E0 & Hw & Hnv). rewrite E0. cbn [mbind option_bind].
    rewrite Ho. rewrite Z2Nat.id, Hv in Hnv by lia. assert (P5 : 0 < 5 ^ 1074) by (apply Z.pow_pos_nonneg; lia).
    apply (decimal_text num (val num) 1074 sig (-1074)); [done| | |lia| |done].
    + rewrite Hnv. nia.
    + rewrite Hnv. apply digits_room; lia.
    + intros N F H. rewrite Hnv in H. change (Z.max 0 (- -1074)) with 1074. change (Z.max 0 (-1074)) with 0. rewrite Z.mul_1_r.
      apply scale_five; [lia|exact H].
  - destruct (significand_loop_spec (2 ^ 52 + sig) ltac:(lia) 53 1 sig 0) as (x & i & -> & Hi & Hx & HE); [lia|lia|lia|by exists sig; lia|lia|lia|].
    cbn [mbind option_bind]. assert (HM : 2 ^ 52 + sig = x * 2 ^ (52 - i)).
    { assert (P : 0 < 2 ^ i) by (apply Z.pow_pos_nonneg; lia). apply (Z.mul_reg_r _ _ (2 ^ i)); [lia|].
      rewrite <- HE, <- Z.mul_assoc, <- Z.pow_add_r by lia. do 2 f_equal. lia. }
    destruct (number_create_ok x false ltac:(lia)) as (p & -> & Hp & Hv). destruct (Z.ltb_spec 0 (i - exp)) as [Hpos|Hneg].
    + destruct (power_loop_spec (S (Z.to_nat (i - exp))) p (Z.to_nat (i - exp)) Hp ltac:(lia)) as (num & E0 & Hw & Hnv).
      rewrite E0. cbn [mbind option_bind]. rewrite Ho. rewrite Z2Nat.id, Hv in Hnv by lia.
      assert (P5 : 0 < 5 ^ (i - exp)) by (apply Z.pow_pos_nonneg; lia).
      apply (decimal_text num (val num)); [done|rewrite Hnv; nia|rewrite Hnv; apply digits_room; lia|lia| |done].
      intros N F H. rewrite Hnv in H. apply scale_five in H; [|lia]. rewrite HM, (Z.max_l 0 (exp - 52)), (Z.max_r 0 (- (exp - 52))) by lia.
      replace (- (exp - 52)) with ((i - exp) + (52 - i)) by lia. rewrite Z.pow_add_r by lia. change (2 ^ 0) with 1.
      rewrite Z.mul_assoc, H. lia.
    + destruct (number_shift_ok p (- (i - exp)) Hp ltac:(lia)) as (num & -> & Hw & Hnv). cbn [mbind option_bind]. rewrite Ho. rewrite Hv in Hnv.
      assert (P2 : 0 < 2 ^ (- (i - exp))) by (apply Z.pow_pos_nonneg; lia).
      apply (decimal_text num (val num)); [done|rewrite Hnv; nia|rewrite Hnv; apply digits_room; lia|lia| |done].
      intros N F H. rewrite Hnv, Z.mul_1_r in H. rewrite H, HM. destruct (decide (52 <= exp)) as [Hge|Hlt].
      * rewrite (Z.max_r 0 (exp - 52)), (Z.max_l 0 (- (exp - 52))) by lia. replace (- (i - exp)) with ((52 - i) + (exp - 52)) by lia.
        rewrite Z.pow_add_r by lia. change (2 ^ 0) with 1. lia.
      * rewrite (Z.max_l 0 (exp - 52)), (Z.max_r 0 (- (exp - 52))) by lia. replace (52 - i) with (- (i - exp) + - (exp - 52)) by lia.
        rewrite Z.pow_add_r by lia. change (2 ^ 0) with 1. lia.
Qed.

(** The fields of a double. *)
Definition d_sign (x : Z) : bool := 2 ^ 63 <=? x.
Definition d_exp (x : Z) : Z := x / 2 ^ 52 mod 2 ^ 11.
Definition d_sig (x : Z) : Z := x mod 2 ^ 52.

(** The text of a double: what is not a number, infinity, zero, or the exact
    value of a normal or a denormal number. *)
Definition float_text (x : Z) (t : list Z) : Prop :=
  let sign := if d_sign x then [45] else [] in
  if d_exp x =? 2047 then t = if d_sig x =? 0 then sign ++ [105; 110; 102] else [110; 97; 110]
  else if (d_exp x =? 0) && (d_sig x =? 0) then t = sign ++ [48; 46; 48]
  else exists t', t = sign ++ t' /\
    if d_exp x =? 0 then fraction (d_sig x) (-1074) t' else fraction (2 ^ 52 + d_sig x) (d_exp x - 1075) t'.

Lemma double_fields x : 0 <= x < 2 ^ 64 ->
  Z.land x B64_SIGNIFICANT_MASK = d_sig x /\ (s32 (x / 2 ^ 32) <? 0) = d_sign x /\
  Z.land (Z.shiftr (s32 (x / 2 ^ 32)) 20) B64_EXPONENT_SPECIAL = d_exp x.
Proof.
  intros Hx. change B64_SIGNIFICANT_MASK with (Z.ones 52). change B64_EXPONENT_SPECIAL with (Z.ones 11).
  rewrite !Z.land_ones, Z.shiftr_div_pow2 by lia. split; [done|]. unfold d_sign, d_exp.
  set (h := x / 2 ^ 32). assert (Hh : 0 <= h < 2 ^ 32) by (split; [apply Z.div_pos; lia|apply Z.div_lt_upper_bound; lia]).
  assert (E52 : x / 2 ^ 52 = h / 2 ^ 20) by (unfold h; rewrite Z.div_div by lia; done).
  assert (E63 : 2 ^ 63 <= x <-> 2 ^ 31 <= h).
  { pose proof (Z.div_mod x (2 ^ 32) ltac:(lia)). pose proof (Z.mod_pos_bound x (2 ^ 32) ltac:(lia)). fold h in H. lia. }
  rewrite E52. destruct (decide (h < 2 ^ 31)) as [Hs|Hb].
  - rewrite s32_small by (unfold is_s32; lia). rewrite (proj2 (Z.ltb_ge h 0)), (proj2 (Z.leb_gt _ x)) by lia. done.
  - assert (s32 h = h - 2 ^ 32) as ->.
    { unfold s32. replace (h + 2 ^ 31) with (h - 2 ^ 31 + 1 * 2 ^ 32) by lia. rewrite Z.mod_add, Z.mod_small by lia. lia. }
    rewrite (proj2 (Z.ltb_lt _ 0)), (proj2 (Z.leb_le _ x)) by lia. split; [done|].
    replace (h - 2 ^ 32) with (h + - 2 ^ 12 * 2 ^ 20) by lia. rewrite Z.div_add by lia.
    replace (h / 2 ^ 20 + - 2 ^ 12) with (h / 2 ^ 20 + (-2) * 2 ^ 11) by lia. by rewrite Z.mod_add by lia.
Qed.

Lemma mallocs_text t o : mallocs o = [] -> mallocs (puts_text out t o) = [].
Proof.
  revert o. induction t as [|c t IH]; intros o Ho; [done|]. cbn. apply IH. unfold putchar2. by destruct (out (u8 c) (env o)).
Qed.

Lemma error_text t o : has_error (puts_text out t o) = has_error o.
Proof.
  revert o. induction t as [|c t IH]; intros o; [done|]. cbn. etransitivity; [apply IH|]. unfold putchar2. by destruct (out (u8 c) (env o)).
Qed.

Lemma _putf_spec x o : 0 <= x < 2 ^ 64 -> mallocs o = [] -> exists t, _putf out x o = Some (0, puts_text out t o) /\ float_text x t.
Proof.
  intros Hx Ho. destruct (double_fields x Hx) as (E1 & E2 & E3). unfold _putf. change (INT_BIT - 1 - B64_EXPONENT_BITS) with 20.
  rewrite E1, E2, E3. change B64_EXPONENT_SPECIAL with 2047. unfold float_text.
  assert (Hsig : 0 <= d_sig x < 2 ^ 52) by (apply Z.mod_pos_bound; lia). assert (Hexp : 0 <= d_exp x < 2 ^ 11) by (apply Z.mod_pos_bound; lia).
  assert (Hsign : forall t, puts_text out t (if d_sign x then putchar2 out 45 o else o) = puts_text out ((if d_sign x then [45] else []) ++ t) o)
    by (intros t; by destruct (d_sign x)).
  destruct (Z.eqb_spec (d_exp x) 2047) as [E4|Hne].
  - rewrite andb_true_r. destruct (Z.eqb_spec (d_sig x) 0); cbn [negb]; eexists; (split; [|done]); [by rewrite Hsign|done].
  - rewrite andb_false_r. destruct (Z.eqb_spec (d_exp x) 0) as [E0|Hn0]; cbn [andb].
    + destruct (Z.eqb_spec (d_sig x) 0) as [Es|Hs]; [eexists; split; [by rewrite Hsign|done]|].
      assert (Ho' : mallocs (if d_sign x then putchar2 out 45 o else o) = []) by (destruct (d_sign x); [by apply (mallocs_text [45])|done]).
      pose proof (putdouble_spec (d_sig x) (0 - 1023) _ Hsig ltac:(lia) ltac:(done) Ho') as H.
      change (0 - 1023 =? -1023) with true in H. cbn iota in H. destruct H as (t & Et & Ht). rewrite E0.
      change (0 - B64_EXPONENT_BIAS) with (0 - 1023). rewrite Et, Hsign. eexists. split; [done|]. by eexists.
    + assert (Ho' : mallocs (if d_sign x then putchar2 out 45 o else o) = []) by (destruct (d_sign x); [by apply (mallocs_text [45])|done]).
      pose proof (putdouble_spec (d_sig x) (d_exp x - 1023) _ Hsig ltac:(lia) ltac:(lia) Ho') as H.
      rewrite (proj2 (Z.eqb_neq (d_exp x - 1023) (-1023))) in H by lia. destruct H as (t & Et & Ht).
      change B64_EXPONENT_BIAS with 1023. rewrite Et, Hsign. eexists. split; [done|]. eexists. split; [done|].
      by replace (d_exp x - 1075) with (d_exp x - 1023 - 52) by lia.
Qed.

(** ** Formats made of pieces *)

(** The pieces of [CPrint], octal numbers and doubles. *)
Inductive piece2 := Piece (p : piece) | Oct (long : bool) (v : Z) | Flt (x : Z).

Definition spell2 (p : piece2) : list Z :=
  match p with Piece p => spell p | Oct long _ => if long then [37; 108; 111] else [37; 111] | Flt _ => [37; 102] end.

Definition argument2 (p : piece2) : list varg :=
  match p with Piece p => Word <$> argument p | Oct _ v => [Word v] | Flt x => [Double x] end.

Definition prints2 (p : piece2) (t : list Z) : Prop :=
  match p with Piece p => prints p t | Oct _ v => spells 8 v t | Flt x => float_text x t end.

(** Octal numbers have at most ten digits. *)
Definition piece2_ok (m : cmem) (p : piece2) : Prop :=
  match p with Piece p => piece_ok m p | Oct _ v => 0 <= v < 2 ^ 30 | Flt x => 0 <= x < 2 ^ 64 end.

Lemma next_format2_spec m fmt c l h args o : cstr m fmt (c :: l) ->
  next_format2 (E := E) m (St h fmt args o) = Some (c, St h (fmt + 1) args o).
Proof. intros (Hc & _)%cstr_cons. unfold next_format2, get8. cbn [st_format]. by rewrite Hc. Qed.

Definition at_piece2 (fmt : Z) (args : list varg) (o : output) : state (E := E) := St Immediate fmt args o.

Lemma step_percent2 m fmt c l args o f : cstr m fmt (37 :: c :: l) ->
  vnprintf2_loop out (S (S f)) m (at_piece2 fmt args o) =
  ('(r, s) ← convert2 out m c (St Format (fmt + 2) args o); if r =? 0 then vnprintf2_loop out f m s else Some s).
Proof.
  intros Hs. pose proof Hs as Hs'. apply cstr_cons in Hs' as (_ & _ & Hs'). pose proof (proj2 Hs') as Hc.
  apply Forall_cons in Hc as [Hc _]. cbn [vnprintf2_loop]. unfold handle2, at_piece2. cbn [st_handler]. unfold immediate2.
  rewrite (next_format2_spec _ _ _ _ _ _ _ Hs). cbn [mbind option_bind]. change (37 =? 0) with false. change (37 =? 37) with true. cbn iota.
  unfold with_out. cbn [mbind option_bind st_handler st_format st_ap st_out]. unfold format2. rewrite (next_format2_spec _ _ _ _ _ _ _ Hs'). cbn [mbind option_bind].
  rewrite (proj2 (Z.eqb_neq c 0)) by (unfold is_char in Hc; lia). replace (fmt + 1 + 1) with (fmt + 2) by lia.
  by destruct (convert2 out m c _) as [[r s]|].
Qed.

Lemma step_long2 m fmt c l args o f : cstr m fmt (37 :: 108 :: c :: l) -> c = 100 \/ c = 111 \/ c = 120 ->
  vnprintf2_loop out (S (S f)) m (at_piece2 fmt args o) =
  ('(r, s) ← convert2 out m c (St Format (fmt + 3) args o); if r =? 0 then vnprintf2_loop out f m s else Some s).
Proof.
  intros Hs Hc. rewrite (step_percent2 _ _ _ _ _ _ _ Hs).
  assert (Hs' : cstr m (fmt + 2) (c :: l)) by (apply (cstr_drop _ _ _ 2 Hs); cbn; lia).
  unfold convert2 at 1. change (108 =? 99) with false. change (108 =? 100) with false. change (108 =? 102) with false. change (108 =? 108) with true.
  cbn iota. rewrite (next_format2_spec _ _ _ _ _ _ _ Hs'). cbn [mbind option_bind]. replace (fmt + 2 + 1) with (fmt + 3) by lia.
  by destruct Hc as [->|[->| ->]].
Qed.

(** One conversion: its arguments are taken and its text is written. *)
Definition converts (m : cmem) (c : Z) (args' args : list varg) (P : list Z -> Prop) : Prop :=
  forall fmt o, mallocs o = [] ->
    exists t, P t /\ convert2 out m c (St Format fmt args' o) = Some (0, St Immediate fmt args (puts_text out t o)).

Lemma converts_dec m v args : is_int v -> converts m 100 (Word v :: args) args (decimal v).
Proof.
  intros Hv fmt o _. destruct (putd2_dec v o Hv) as (t & E0 & Ht). exists t. split; [done|]. unfold convert2. cbn.
  rewrite s32_small by (by apply is_int_s32). by rewrite E0.
Qed.

Lemma converts_oct m v args : 0 <= v < 2 ^ 30 -> converts m 111 (Word v :: args) args (spells 8 v).
Proof.
  intros Hv fmt o _. destruct (putd2_oct v o Hv) as (t & E0 & Ht). exists t. split; [done|]. unfold convert2. cbn.
  rewrite s32_small by (unfold is_s32; lia). by rewrite E0.
Qed.

Lemma converts_hex m u args : is_u32 u -> converts m 120 (Word u :: args) args (spells 16 u).
Proof.
  intros Hu fmt o _. destruct (putx2_spec u o Hu) as (t & E0 & Ht). exists t. split; [done|]. unfold convert2. cbn.
  rewrite u32_small by done. by rewrite E0.
Qed.

Lemma converts_ptr m u args : is_u32 u -> converts m 112 (Word u :: args) args (λ t, exists ds, t = [48; 120] ++ ds /\ spells 16 u ds).
Proof.
  intros Hu fmt o _. destruct (putx2_spec u (puts_text out [48; 120] o) Hu) as (t & E0 & Ht). exists ([48; 120] ++ t).
  split; [by exists t|]. unfold convert2. cbn. rewrite u32_small by done. cbn in E0. by rewrite E0.
Qed.

Lemma converts_str m p l args : cstr m p l -> converts m 115 (Word p :: args) args (eq l).
Proof.
  intros Hl fmt o _. exists l. split; [done|]. unfold convert2. cbn -[puts2]. by rewrite (puts2_spec _ _ _ _ Hl).
Qed.

Lemma converts_chr m v args : converts m 99 (Word v :: args) args (eq [v mod 256]).
Proof.
  intros fmt o _. exists [v mod 256]. split; [done|]. unfold convert2. cbn. change 255 with (Z.ones 8). by rewrite Z.land_ones by lia.
Qed.

Lemma converts_flt m x args : 0 <= x < 2 ^ 64 -> converts m 102 (Double x :: args) args (float_text x).
Proof.
  intros Hx fmt o Ho. destruct (_putf_spec x o Hx Ho) as (t & E0 & Ht). exists t. split; [done|]. unfold convert2. cbn. by rewrite E0.
Qed.

Lemma convert_step m c fmt l args' args o (P : list Z -> Prop) : cstr m fmt (37 :: c :: l) -> mallocs o = [] -> converts m c args' args P ->
  exists t, P t /\ forall f, vnprintf2_loop out (S (S f)) m (at_piece2 fmt args' o) = vnprintf2_loop out f m (at_piece2 (fmt + 2) args (puts_text out t o)).
Proof.
  intros Hs Ho Hc. destruct (Hc (fmt + 2) o Ho) as (t & Ht & E0). exists t. split; [done|]. intros f.
  by rewrite (step_percent2 _ _ _ _ _ _ _ Hs), E0.
Qed.

Lemma convert_long m c fmt l args' args o (P : list Z -> Prop) : cstr m fmt (37 :: 108 :: c :: l) -> c = 100 \/ c = 111 \/ c = 120 ->
  mallocs o = [] -> converts m c args' args P ->
  exists t, P t /\ forall f, vnprintf2_loop out (S (S f)) m (at_piece2 fmt args' o) = vnprintf2_loop out f m (at_piece2 (fmt + 3) args (puts_text out t o)).
Proof.
  intros Hs Hlong Ho Hc. destruct (Hc (fmt + 3) o Ho) as (t & Ht & E0). exists t. split; [done|]. intros f.
  by rewrite (step_long2 _ _ _ _ _ _ _ Hs Hlong), E0.
Qed.

Lemma piece2_step m p fmt l args o : cstr m fmt (spell2 p ++ l) -> piece2_ok m p -> mallocs o = [] ->
  exists k t, (k <= length (spell2 p))%nat /\ prints2 p t /\ forall f,
    vnprintf2_loop out (k + f) m (at_piece2 fmt (argument2 p ++ args) o) =
    vnprintf2_loop out f m (at_piece2 (fmt + Z.of_nat (length (spell2 p))) args (puts_text out t o)).
Proof.
  intros Hs Hok Ho. destruct p as [[c|c|v|[] v|[] u|u|q s]|[] v|x]; cbn [spell2 spell app argument2 argument length fmap list_fmap piece2_ok piece_ok prints2 prints] in *.
  - destruct Hok as (Hc & H37 & H92). exists 1%nat, [c]. split; [done|]. split; [done|]. intros f. cbn [Nat.add vnprintf2_loop].
    unfold handle2, at_piece2. cbn [st_handler]. unfold immediate2. rewrite (next_format2_spec _ _ _ _ _ _ _ Hs). cbn [mbind option_bind].
    rewrite (proj2 (Z.eqb_neq c 0)) by (unfold is_char in Hc; lia). by rewrite (proj2 (Z.eqb_neq c 37) H37), (proj2 (Z.eqb_neq c 92) H92).
  - exists 2%nat, [escaped c]. split; [done|]. split; [done|]. intros f. cbn [Nat.add vnprintf2_loop].
    unfold handle2, at_piece2. cbn [st_handler]. unfold immediate2. rewrite (next_format2_spec _ _ _ _ _ _ _ Hs). cbn [mbind option_bind].
    change (92 =? 0) with false. change (92 =? 37) with false. change (92 =? 92) with true. cbn iota. unfold with_out.
    cbn [mbind option_bind st_handler st_format st_ap st_out]. unfold escape2.
    pose proof Hs as Hs'. apply cstr_cons in Hs' as (_ & _ & Hs'). rewrite (next_format2_spec _ _ _ _ _ _ _ Hs').
    cbn [mbind option_bind]. rewrite (proj2 (Z.eqb_neq c 0)) by (unfold is_char in Hok; lia). cbn [mbind option_bind]. fold (escaped c).
    replace (fmt + 1 + 1) with (fmt + 2) by lia. done.
  - destruct (convert_step _ _ _ _ _ _ _ _ Hs Ho (converts_chr m v args)) as (t & <- & H). by exists 2%nat, [v mod 256].
  - destruct (convert_long _ _ _ _ _ _ _ _ Hs ltac:(tauto) Ho (converts_dec m v args Hok)) as (t & Ht & H). exists 2%nat, t. by split; [lia|].
  - destruct (convert_step _ _ _ _ _ _ _ _ Hs Ho (converts_dec m v args Hok)) as (t & Ht & H). by exists 2%nat, t.
  - destruct (convert_long _ _ _ _ _ _ _ _ Hs ltac:(tauto) Ho (converts_hex m u args Hok)) as (t & Ht & H). exists 2%nat, t. by split; [lia|].
  - destruct (convert_step _ _ _ _ _ _ _ _ Hs Ho (converts_hex m u args Hok)) as (t & Ht & H). by exists 2%nat, t.
  - destruct (convert_step _ _ _ _ _ _ _ _ Hs Ho (converts_ptr m u args Hok)) as (t & Ht & H). by exists 2%nat, t.
  - destruct (convert_step _ _ _ _ _ _ _ _ Hs Ho (converts_str m q s args Hok)) as (t & <- & H). by exists 2%nat, s.
  - destruct (convert_long _ _ _ _ _ _ _ _ Hs ltac:(tauto) Ho (converts_oct m v args Hok)) as (t & Ht & H). exists 2%nat, t. by split; [lia|].
  - destruct (convert_step _ _ _ _ _ _ _ _ Hs Ho (converts_oct m v args Hok)) as (t & Ht & H). by exists 2%nat, t.
  - destruct (convert_step _ _ _ _ _ _ _ _ Hs Ho (converts_flt m x args Hok)) as (t & Ht & H). by exists 2%nat, t.
Qed.

Lemma vnprintf2_loop_spec m (ps : list piece2) : forall fmt o f, mallocs o = [] ->
  cstr m fmt (concat (spell2 <$> ps)) -> Forall (piece2_ok m) ps -> (length (concat (spell2 <$> ps)) < f)%nat ->
  exists ts s, vnprintf2_loop out f m (at_piece2 fmt (concat (argument2 <$> ps)) o) = Some s /\ Forall2 prints2 ps ts /\
    st_out s = puts_text out (concat ts) o.
Proof.
  induction ps as [|p ps IH]; intros fmt o f Ho Hs Hok Hf; cbn [fmap list_fmap concat] in *.
  - destruct f as [|f]; [cbn in Hf; lia|]. apply cstr_nil in Hs. cbn [vnprintf2_loop]. unfold handle2, at_piece2. cbn [st_handler].
    unfold immediate2, next_format2, get8. cbn [st_format]. rewrite Hs. cbn. eexists [], _. split; [done|]. split; [constructor|]. done.
  - apply Forall_cons in Hok as [Hp Hok]. rewrite length_app in Hf.
    destruct (piece2_step m p fmt _ (concat (argument2 <$> ps)) o Hs Hp Ho) as (k & t & Hk & Ht & Hstep).
    replace f with (k + (f - k))%nat by lia. rewrite Hstep.
    destruct (IH (fmt + Z.of_nat (length (spell2 p))) (puts_text out t o) (f - k)%nat) as (ts & s & E0 & H2 & Hout); [by apply mallocs_text| |done|lia|].
    { pose proof (cstr_drop _ _ _ (length (spell2 p)) Hs) as Hd. rewrite drop_app_length in Hd. apply Hd. rewrite length_app. lia. }
    exists (t :: ts), s. split; [done|]. split; [by constructor|]. rewrite Hout. cbn [concat]. by rewrite puts_text_app.
Qed.
End Text.

(** ** Buffers (lib/libc/stdio: __putc, snprintf, vsnprintf, sprintf, vsprintf) *)

(** The memory is that of the destination, apart from the format and the
    arguments; [None] after a store out of it. *)
Record CharBuffer := CharBuf { b_len : Z; b_max : Z; b_buf : Z; b_mem : option cmem }.

Definition __putc (ch : Z) (b : CharBuffer) : Z * CharBuffer :=
  (0, if b_len b <? b_max b
      then CharBuf (b_len b + 1) (b_max b) (b_buf b) (m ← b_mem b; put8 m (b_buf b + b_len b) ch) else b).

Definition vsnprintf (a : list bool) (d : cmem) (str size : Z) (m : cmem) (fmt : Z) (args : list varg) : option (Z * cmem) :=
  '(len, b) ← vnprintf2 __putc a (CharBuf 0 (if negb (size =? 0) then size - 1 else 0) str (Some d)) m fmt args;
  d ← b_mem b;
  if negb (size =? 0) then d ← put8 d (str + b_len b) 0; Some (len, d) else Some (len, d).

(** [va_start] only makes the list of the arguments. *)
Definition snprintf (a : list bool) (d : cmem) (str size : Z) (m : cmem) (fmt : Z) (args : list varg) : option (Z * cmem) :=
  '(len, b) ← vnprintf2 __putc a (CharBuf 0 (if negb (size =? 0) then size - 1 else 0) str (Some d)) m fmt args;
  d ← b_mem b;
  if negb (size =? 0) then d ← put8 d (str + b_len b) 0; Some (len, d) else Some (len, d).

Definition vsprintf (a : list bool) (d : cmem) (str : Z) (m : cmem) (fmt : Z) (args : list varg) : option (Z * cmem) :=
  '(len, b) ← vnprintf2 __putc a (CharBuf 0 0xffffffff str (Some d)) m fmt args;
  d ← b_mem b; d ← put8 d (str + b_len b) 0; Some (len, d).

Definition sprintf (a : list bool) (d : cmem) (str : Z) (m : cmem) (fmt : Z) (args : list varg) : option (Z * cmem) :=
  '(len, b) ← vnprintf2 __putc a (CharBuf 0 0xffffffff str (Some d)) m fmt args;
  d ← b_mem b; d ← put8 d (str + b_len b) 0; Some (len, d).

Lemma putchar2_putc c b n err a : is_byte c -> putchar2 __putc c (Output b n err a) =
  Output (if b_len b <? b_max b then CharBuf (b_len b + 1) (b_max b) (b_buf b) (m ← b_mem b; put8 m (b_buf b + b_len b) c) else b)
    (n + 1) err a.
Proof. intros Hc. unfold putchar2, __putc, u8. cbn [env olen has_error mallocs]. by rewrite Z.mod_small. Qed.

(** What fits into the buffer is stored, and every character is counted. *)
Lemma putc_text t : forall o d, Forall is_byte t -> 0 <= b_len (env o) <= b_max (env o) -> b_mem (env o) = Some d ->
  room d (b_buf (env o)) (b_max (env o)) ->
  let o' := puts_text __putc t o in let n := Z.to_nat (b_max (env o) - b_len (env o)) in
  olen o' = olen o + Z.of_nat (length t) /\
  env o' = CharBuf (b_len (env o) + Z.of_nat (length (take n t))) (b_max (env o)) (b_buf (env o))
             (Some (put d (b_buf (env o) + b_len (env o)) (take n t))).
Proof.
  induction t as [|c t IH]; intros [e len err a] d Ht Hlen Hm Hr; cbn [env olen] in *.
  - cbn. rewrite take_nil. cbn. split; [lia|]. rewrite Z.add_0_r, <- Hm. by destruct e.
  - apply Forall_cons in Ht as [Hc Ht]. destruct e as [bl bm bb mem]. cbn [b_len b_max b_buf b_mem] in *. subst mem.
    change (puts_text __putc (c :: t) ?o) with (puts_text __putc t (putchar2 __putc c o)).
    rewrite putchar2_putc by done. cbn [b_len b_max b_buf b_mem].
    destruct (Z.ltb_spec bl bm) as [Hlt|Hge].
    + cbn [mbind option_bind]. rewrite (put8_room _ _ _ _ _ Hr) by (done || lia).
      destruct (IH (Output (CharBuf (bl + 1) bm bb (Some (<[bb + bl := c]> d))) (len + 1) err a) (<[bb + bl := c]> d) Ht) as [H1 H2];
        [cbn; lia|done|cbn; apply (room_put d (bb + bl) [c] _ _ Hr)|]. cbn [env olen b_len b_max b_buf b_mem] in *.
      split; [rewrite H1; cbn [length]; lia|]. rewrite H2. replace (Z.to_nat (bm - bl)) with (S (Z.to_nat (bm - (bl + 1)))) by lia.
      rewrite firstn_cons. cbn [length put]. f_equal; [lia|]. by replace (bb + (bl + 1)) with (bb + bl + 1) by lia.
    + destruct (IH (Output (CharBuf bl bm bb (Some d)) (len + 1) err a) d Ht) as [H1 H2]; [cbn; lia|done|done|]. cbn [env olen b_len b_max b_buf b_mem] in *.
      split; [rewrite H1; cbn [length]; lia|]. rewrite H2. replace (Z.to_nat (bm - bl)) with 0%nat by lia. rewrite !take_0. done.
Qed.

Lemma digits_bytes base l : base <= 36 -> Forall (λ c, is_digit base c = true) l -> Forall is_byte l.
Proof. intros Hb Hl. eapply Forall_impl; [exact Hl|]. intros c Hc. by apply char_byte, (digit_byte base). Qed.

Lemma spells_bytes base u l : base <= 36 -> spells base u l -> Forall is_byte l.
Proof. intros Hb [_ Hd _ _]. by apply (digits_bytes base). Qed.

Lemma float_bytes x t : float_text x t -> Forall is_byte t.
Proof.
  unfold float_text. set (sign := if d_sign x then [45] else []).
  assert (Hs : Forall is_byte sign) by (unfold sign, is_byte; destruct (d_sign x); repeat constructor; lia).
  assert (Hf : forall M e t, fraction M e t -> Forall is_byte t).
  { intros M e t' (I & F & -> & _ & _ & Hd & _). apply Forall_app in Hd as [HI HF].
    apply Forall_app. split; [by apply (digits_bytes 10)|]. apply Forall_app.
    split; [unfold is_byte; repeat constructor; lia|by apply (digits_bytes 10)]. }
  destruct (d_exp x =? 2047); [intros ->; destruct (d_sig x =? 0)|destruct (_ && _); [intros ->|intros (t' & -> & Ht)]];
    repeat (apply Forall_app; split; [done|]); try (unfold is_byte; repeat constructor; lia).
  destruct (d_exp x =? 0); by eapply Hf.
Qed.

Lemma prints2_bytes m p t : piece2_ok m p -> prints2 p t -> Forall is_byte t.
Proof.
  destruct p as [[c|c|v|[] v|[] u|u|q s]|[] v|x]; cbn [piece2_ok piece_ok prints2 prints]; intros Hok Ht.
  - subst t. apply Forall_singleton, char_byte. tauto.
  - subst t. apply Forall_singleton. unfold escaped, is_byte. unfold is_char in Hok. repeat destruct (_ =? _); lia.
  - subst t. apply Forall_singleton, Z.mod_pos_bound. lia.
  - destruct Ht as (ds & -> & Hds). apply Forall_app. split; [unfold is_byte; destruct (v <? 0); repeat constructor; lia|by apply (spells_bytes 10 (Z.abs v))].
  - destruct Ht as (ds & -> & Hds). apply Forall_app. split; [unfold is_byte; destruct (v <? 0); repeat constructor; lia|by apply (spells_bytes 10 (Z.abs v))].
  - by apply (spells_bytes 16 u).
  - by apply (spells_bytes 16 u).
  - destruct Ht as (ds & -> & Hds). apply Forall_app. split; [unfold is_byte; repeat constructor; lia|by apply (spells_bytes 16 u)].
  - subst t. by apply chars_bytes', Hok.
  - by apply (spells_bytes 8 v).
  - by apply (spells_bytes 8 v).
  - by eapply float_bytes.
Qed.

Lemma texts_bytes m ps ts : Forall (piece2_ok m) ps -> Forall2 prints2 ps ts -> Forall is_byte (concat ts).
Proof.
  intros Hok H. induction H as [|p t ps ts Hp _ IH]; [constructor|]. apply Forall_cons in Hok as [H1 H2]. cbn. apply Forall_app.
  split; [by eapply prints2_bytes|by apply IH].
Qed.

Lemma vnprintf2_spec {E} (out : Z -> E -> Z * E) e m fmt (ps : list piece2) :
  cstr m fmt (concat (spell2 <$> ps)) -> Forall (piece2_ok m) ps ->
  exists ts, Forall2 prints2 ps ts /\
    let o := puts_text out (concat ts) (Output e 0 false []) in
    vnprintf2 out [] e m fmt (concat (argument2 <$> ps)) = Some (olen o, env o).
Proof.
  intros Hs Hok. destruct (vnprintf2_loop_spec out m ps fmt (Output e 0 false []) (turns m) eq_refl Hs Hok) as (ts & s & E0 & H2 & Ho).
  { by eapply cstr_turns. }
  exists ts. split; [done|]. unfold vnprintf2. change (St Immediate fmt ?a ?o) with (at_piece2 fmt a o). rewrite E0. cbn [mbind option_bind].
  by rewrite Ho, error_text.
Qed.

Lemma snprintf_spec d str size m fmt (ps : list piece2) :
  cstr m fmt (concat (spell2 <$> ps)) -> Forall (piece2_ok m) ps -> 0 < size -> room d str size ->
  exists ts, Forall2 prints2 ps ts /\ let t := take (Z.to_nat (size - 1)) (concat ts) in
    snprintf [] d str size m fmt (concat (argument2 <$> ps)) = Some (Z.of_nat (length (concat ts)), put d str (t ++ [0])) /\
    vsnprintf [] d str size m fmt (concat (argument2 <$> ps)) = Some (Z.of_nat (length (concat ts)), put d str (t ++ [0])).
Proof.
  intros Hs Hok Hsz Hr. destruct (vnprintf2_spec __putc (CharBuf 0 (size - 1) str (Some d)) m fmt ps Hs Hok) as (ts & H2 & E0).
  exists ts. split; [done|]. cbv zeta in *. unfold snprintf, vsnprintf. rewrite (proj2 (Z.eqb_neq size 0)) by lia. cbn [negb].
  rewrite E0. cbn [mbind option_bind].
  destruct (putc_text (concat ts) (Output (CharBuf 0 (size - 1) str (Some d)) 0 false []) d) as [H3 H4].
  - by eapply texts_bytes.
  - cbn. lia.
  - done.
  - cbn. eapply room_sub; [exact Hr|lia|lia].
  - cbn [env olen b_len b_max b_buf] in *. rewrite H3, H4. cbn [b_mem b_len mbind option_bind]. rewrite Z.sub_0_r, Z.add_0_r, !Z.add_0_l.
    rewrite put8_ok; [|apply (room_put _ _ _ _ _ Hr); rewrite length_take; lia|unfold is_byte; lia].
    cbn [mbind option_bind]. by rewrite put_snoc.
Qed.

(** C38: the exact text of a double.  [%f] writes, for every double, its sign and
    [nan], [inf], [0.0] or the decimal fraction that is exactly its value, with
    no needless zero in front; the conversion ends and stays within its buffer
    of digits, for the largest and the smallest numbers too.  The memory for the
    digits is there: no [malloc] fails. *)
Theorem float_exact {E} (out : Z -> E -> Z * E) e m fmt x :
  cstr m fmt [37; 102] -> 0 <= x < 2 ^ 64 ->
  exists t, float_text x t /\ let o := puts_text out t (Output e 0 false []) in
    vnprintf2 out [] e m fmt [Double x] = Some (olen o, env o).
Proof.
  intros Hs Hx. destruct (vnprintf2_spec out e m fmt [Flt x] Hs (proj2 (Forall_singleton (piece2_ok m) (Flt x)) Hx)) as (ts & H2 & E0).
  apply Forall2_cons_inv_l in H2 as (t & ts' & Ht & Hts%Forall2_nil_inv_l & ->). subst ts'. cbn [concat] in E0. rewrite app_nil_r in E0.
  by exists t.
Qed.

(** 1.5 *)
Lemma float_exact_witness : exists t, float_text 0x3ff8000000000000 t /\
  let o := puts_text (λ c l, (0, l ++ [c])) t (Output [] 0 false []) in env o = [49; 46; 53] /\ olen o = 3.
Proof.
  destruct (float_exact (λ c l, (0, l ++ [c])) [] (put ∅ 64 ([37; 102] ++ [0])) 64 0x3ff8000000000000) as (t & Ht & E0).
  - apply cstr_put. unfold is_char. repeat constructor; lia.
  - lia.
  - exists t. split; [exact Ht|].
    assert (Hc : vnprintf2 (λ c l, (0, l ++ [c])) [] [] (put ∅ 64 ([37; 102] ++ [0])) 64 [Double 0x3ff8000000000000] = Some (3, [49; 46; 53]))
      by (vm_compute; reflexivity).
    cbv zeta in *. rewrite Hc in E0. injection E0 as E1 E2. exact (conj (eq_sym E2) (eq_sym E1)).
Defined.

(** Formatted output into a buffer.  [snprintf] and [vsnprintf] return the
    length of the whole text of the pieces of the format, with octal numbers
    and doubles among them, store what of it fits in front of the last byte of
    the buffer, put a zero behind it, and write nothing else. *)
Theorem snprintf_correct d str size m fmt (ps : list piece2) :
  cstr m fmt (concat (spell2 <$> ps)) -> Forall (piece2_ok m) ps -> 0 < size -> room d str size ->
  exists ts, Forall2 prints2 ps ts /\ let t := take (Z.to_nat (size - 1)) (concat ts) in
    snprintf [] d str size m fmt (concat (argument2 <$> ps)) = Some (Z.of_nat (length (concat ts)), put d str (t ++ [0])) /\
    vsnprintf [] d str size m fmt (concat (argument2 <$> ps)) = Some (Z.of_nat (length (concat ts)), put d str (t ++ [0])).
Proof. apply snprintf_spec. Qed.

(** "%o|%f" with 8 and 0.1 into six bytes. *)
Definition demo_format2 : cmem := put ∅ 64 ([37; 111; 124; 37; 102] ++ [0]).
Definition demo_pieces2 : list piece2 := [Oct false 8; Piece (Lit 124); Flt 0x3fb999999999999a].
Definition demo_buffer : cmem := put ∅ 16 (replicate 6 0).

Lemma snprintf_correct_witness : exists ts, Forall2 prints2 demo_pieces2 ts /\
  snprintf [] demo_buffer 16 6 demo_format2 64 [Word 8; Double 0x3fb999999999999a] =
  Some (Z.of_nat (length (concat ts)), put demo_buffer 16 (take 5 (concat ts) ++ [0])).
Proof.
  destruct (snprintf_correct demo_buffer 16 6 demo_format2 64 demo_pieces2) as (ts & H & E0 & _).
  - apply cstr_put. unfold is_char. repeat constructor; lia.
  - unfold demo_pieces2. repeat constructor; cbn; unfold is_char; lia.
  - lia.
  - apply (room_bytes demo_buffer 16 (replicate 6 0)), put_bytes.
  - exists ts. split; [exact H|exact E0].
Defined.

(** An octal number of eleven digits goes in front of its array. *)
Lemma octal_overflow : vnprintf2 (λ c l, (0, l ++ [c])) [] [] (put ∅ 64 ([37; 111] ++ [0])) 64 [Word 0xffffffff] = None.
Proof. vm_compute. reflexivity. Qed.

(** A multiplication that finds no memory is left out: with the third call of
    [malloc] failing, 2^-100 is written with the digits of another number. *)
Lemma multiply_failure_ignored :
  fst <$> vnprintf2 (λ c l, (0, l ++ [c])) [true; true; false] [] (put ∅ 64 ([37; 102] ++ [0])) 64 [Double 0x39b0000000000000] ≠
  Some (-1) /\
  snd <$> vnprintf2 (λ c l, (0, l ++ [c])) [true; true; false] [] (put ∅ 64 ([37; 102] ++ [0])) 64 [Double 0x39b0000000000000] ≠
  snd <$> vnprintf2 (λ c l, (0, l ++ [c])) [] [] (put ∅ 64 ([37; 102] ++ [0])) 64 [Double 0x39b0000000000000].
Proof. split; vm_compute; discriminate. Qed.
