(* ===== verification/KTypes.v ===== *)
(** * The nerve: kernel objects and kernel state

    The structures of include/nerve, the constants of include/mitron4, and the
    kernel's global variables as one record, with the monad the kernel code is
    written in: a partial state transformer whose [None] is undefined
    behaviour (a dangling pointer, a broken list, an index out of range). *)

From S2P Require Import Prelude Lists AATree Sequence.

(** ** Constants (include/mitron4, include/nerve/config.h, include/services.h) *)

Definition E_OK : Z := 0.
Definition E_SYS : Z := -5.
Definition E_NOSPT : Z := -9.
Definition E_RSATR : Z := -11.
Definition E_PAR : Z := -17.
Definition E_ID : Z := -18.
Definition E_ILUSE : Z := -28.
Definition E_NOMEM : Z := -33.
Definition E_NOID : Z := -34.
Definition E_OBJ : Z := -41.
Definition E_NOEXS : Z := -42.
Definition E_QOVR : Z := -43.
Definition E_RLWAI : Z := -49.
Definition E_TMOUT : Z := -50.
Definition E_DLT : Z := -51.

Definition TTS_RUN : Z := 0x01.
Definition TTS_RDY : Z := 0x02.
Definition TTS_WAI : Z := 0x04.
Definition TTS_SUS : Z := 0x08.
Definition TTS_WAS : Z := Z.lor TTS_WAI TTS_SUS.
Definition TTS_DMT : Z := 0x10.

Definition TA_ASM : Z := 0x01.
Definition TA_ACT : Z := 0x02.
Definition TA_TFIFO : Z := 0x00.
Definition TSK_SELF : Z := 0.

Definition MIN_MANUAL_ID : Z := 1.
Definition MAX_AUTO_ID : Z := 32767.
Definition MIN_PRIORITY : Z := 0.
Definition MAX_PRIORITY : Z := 7.
Definition TIME_QUANTUM : Z := 10.
Definition MAX_THREAD : Z := 1024.
Definition KTHREAD_STACK_SIZE : Z := 4096.
Definition KTHREAD_DIR_ADDR : Z := 0x2000.
Definition PORT_IDLE : Z := 1.
Definition PORT_DELAY : Z := 2.
Definition EVENT_INTERRUPT : Z := 1.

(** ** Kernel objects *)

Inductive wait_type_e :=
  | wait_none | wait_flag | wait_call | wait_reply | wait_receive | wait_send.

#[export] Instance wait_type_eq_dec : EqDecision wait_type_e.
Proof. solve_decision. Defined.

(** The [list_t] objects of the kernel.  A thread at address [a] has a link on
    the ready queues, one on the queue it waits on, one for mutexes, and the
    two queues of its port; a rendezvous at address [r] has the link of the
    caller it will answer. *)
Inductive loc :=
  | LReady (pri : Z) | LQueue (a : Z) | LWaiting (a : Z) | LLocking (a : Z)
  | LCaller (a : Z) | LReceiver (a : Z) | LReply (r : Z).

#[export] Instance loc_eq_dec : EqDecision loc.
Proof. solve_decision. Defined.

#[export] Instance loc_countable : Countable loc.
Proof.
  apply (inj_countable'
    (λ l, match l with
          | LReady p => (0, p) | LQueue a => (1, a) | LWaiting a => (2, a) | LLocking a => (3, a)
          | LCaller a => (4, a) | LReceiver a => (5, a) | LReply r => (6, r)
          end)
    (λ c, match c with
          | (0, p) => LReady p | (1, a) => LQueue a | (2, a) => LWaiting a | (3, a) => LLocking a
          | (4, a) => LCaller a | (5, a) => LReceiver a | (_, r) => LReply r
          end)).
  by intros [].
Defined.

(** The scalar fields of [wait_reason_t]; [waiting] is [LWaiting]. *)
Record wait_reason_t := WaitReason {
  wtype : wait_type_e;
  wresult : Z;
  ipc_size : Z;
  ipc_message : Z;
  ipc_key : Z;
}.

(** The scalar fields of [ipc_t]; [caller] and [receiver] are [LCaller] and
    [LReceiver]. *)
Record ipc_t := Port {
  opened : bool;
  flag : Z;
  port_attr : Z;
  max_call : Z;
  max_reply : Z;
}.

Record thread_attr := ThreadAttr {
  attr_priority : Z;
  kstack_tail : Z;
  ustack_top : Z;
  entry : Z;
  arg : Z;
}.

(** [frame] is what [create_context] has pushed below [kstack_tail], the
    last word first. *)
Record mpu_context_t := MpuContext {
  esp0 : Z;
  cr3 : Z;
  fpu_state : Z;
  frame : list Z;
}.

Record thread_t := Thread {
  node_key : Z;
  status : Z;
  wait_reason : wait_reason_t;
  priority : Z;
  quantum : Z;
  attr : thread_attr;
  port : ipc_t;
  mpu : mpu_context_t;
}.

Record reply_t := Reply { reply_max : Z }.

Record T_CTSK := Ctsk {
  tskatr : Z;
  exinf : Z;
  task : Z;
  itskpri : Z;
  stksz : Z;
  stk : Z;
  page_table : Z;
  ctsk_ustack_top : Z;
}.

Record T_CPOR := Cpor { poratr : Z; maxcmsz : Z; maxrmsz : Z }.

Definition thread_id (th : thread_t) : Z := node_key th.

Definition is_kthread (th : thread_t) : bool := ustack_top (attr th) =? 0.

(** ** Rendezvous tags (include/nerve/ipc_utils.h) *)

Definition port_of_ipc (tag : Z) : Z := s32 (Z.land (u32 tag) 0xffff).

Definition key_of_ipc (tag : Z) : Z := s32 (Z.shiftr (u32 tag) 16).

Definition create_ipc_tag (p key : Z) : Z :=
  s32 (Z.lor (u32 (Z.shiftl (u32 key) 16)) (u32 p)).

(** ** Field updates *)

Definition set_node_key (v : Z) (t : thread_t) : thread_t :=
  Thread v (status t) (wait_reason t) (priority t) (quantum t) (attr t) (port t) (mpu t).
Definition set_status (v : Z) (t : thread_t) : thread_t :=
  Thread (node_key t) v (wait_reason t) (priority t) (quantum t) (attr t) (port t) (mpu t).
Definition set_wait (f : wait_reason_t -> wait_reason_t) (t : thread_t) : thread_t :=
  Thread (node_key t) (status t) (f (wait_reason t)) (priority t) (quantum t) (attr t) (port t) (mpu t).
Definition set_priority (v : Z) (t : thread_t) : thread_t :=
  Thread (node_key t) (status t) (wait_reason t) v (quantum t) (attr t) (port t) (mpu t).
Definition set_quantum (v : Z) (t : thread_t) : thread_t :=
  Thread (node_key t) (status t) (wait_reason t) (priority t) v (attr t) (port t) (mpu t).
Definition set_port (f : ipc_t -> ipc_t) (t : thread_t) : thread_t :=
  Thread (node_key t) (status t) (wait_reason t) (priority t) (quantum t) (attr t) (f (port t)) (mpu t).
Definition set_mpu (f : mpu_context_t -> mpu_context_t) (t : thread_t) : thread_t :=
  Thread (node_key t) (status t) (wait_reason t) (priority t) (quantum t) (attr t) (port t) (f (mpu t)).

Definition set_wtype (v : wait_type_e) (w : wait_reason_t) : wait_reason_t :=
  WaitReason v (wresult w) (ipc_size w) (ipc_message w) (ipc_key w).
Definition set_wresult (v : Z) (w : wait_reason_t) : wait_reason_t :=
  WaitReason (wtype w) v (ipc_size w) (ipc_message w) (ipc_key w).
Definition set_ipc_size (v : Z) (w : wait_reason_t) : wait_reason_t :=
  WaitReason (wtype w) (wresult w) v (ipc_message w) (ipc_key w).
Definition set_ipc_message (v : Z) (w : wait_reason_t) : wait_reason_t :=
  WaitReason (wtype w) (wresult w) (ipc_size w) v (ipc_key w).
Definition set_ipc_key (v : Z) (w : wait_reason_t) : wait_reason_t :=
  WaitReason (wtype w) (wresult w) (ipc_size w) (ipc_message w) v.

Definition set_opened (v : bool) (p : ipc_t) : ipc_t :=
  Port v (flag p) (port_attr p) (max_call p) (max_reply p).
Definition set_flag (v : Z) (p : ipc_t) : ipc_t :=
  Port (opened p) v (port_attr p) (max_call p) (max_reply p).

Definition set_esp0 (v : Z) (m : mpu_context_t) : mpu_context_t :=
  MpuContext v (cr3 m) (fpu_state m) (frame m).
Definition set_fpu_state (v : Z) (m : mpu_context_t) : mpu_context_t :=
  MpuContext (esp0 m) (cr3 m) v (frame m).
Definition set_frame (v : list Z) (m : mpu_context_t) : mpu_context_t :=
  MpuContext (esp0 m) (cr3 m) (fpu_state m) v.
