(* ===== verification/VMem.v ===== *)
(** * Virtual memory: translation and copies (drivers/i686)

    Two-level page tables in physical memory, the walk of address.c and
    get_writable_page.c, and the copies between the address space in force and
    another thread's (memcpy.c, strncpy.c, scattered_copy.c), each page by
    page.  Physical memory is the word store of [Palloc], seen through the
    kernel's linear map: the word at physical address [x] is at
    [kern_p2v x]. *)

From S2P Require Import Prelude Bitmap Palloc KTypes.

Definition PTE_PER_PAGE : Z := 1024.
Definition PAGE_ADDR_MASK : Z := 0xfffff000.
Definition BITS_PAGE : Z := 10.
Definition MASK_PAGE : Z := Z.shiftl 1 BITS_PAGE - 1.
Definition MASK_OFFSET : Z := Z.shiftl 1 BITS_OFFSET - 1.

Definition PAGE_USER : Z := 0x04.
Definition PAGE_WRITABLE : Z := 0x02.
Definition PAGE_PRESENT : Z := 0x1.
Definition ATTR_USER : Z := Z.lor (Z.lor PAGE_USER PAGE_WRITABLE) PAGE_PRESENT.
Definition ATTR_USER_READ_ONLY : Z := Z.lor PAGE_USER PAGE_PRESENT.

Definition getDirectoryOffset (addr : Z) : Z := Z.shiftr addr (BITS_PAGE + BITS_OFFSET).
Definition getPageOffset (addr : Z) : Z := Z.land (Z.shiftr addr BITS_OFFSET) MASK_PAGE.
Definition getOffset (addr : Z) : Z := Z.land addr MASK_OFFSET.

Definition calc_pte (addr attr : Z) : Z := Z.lor addr attr.
Definition is_present (pte : Z) : bool := negb (Z.land pte PAGE_PRESENT =? 0).

(** ** Words and bytes *)

(** [t[i]] of an array of words. *)
Definition word (mem : memory) (t i : Z) : Z := mem (t + 4 * i).

Definition word_at (a : Z) : Z := 4 * (a / 4).

Definition ld8 (mem : memory) (a : Z) : Z :=
  Z.land (Z.shiftr (mem (word_at a)) (8 * (a mod 4))) 255.

Definition st8 (mem : memory) (a v : Z) : memory :=
  store mem (word_at a)
    (Z.lor (Z.ldiff (mem (word_at a)) (Z.shiftl 255 (8 * (a mod 4)))) (Z.shiftl (Z.land v 255) (8 * (a mod 4)))).

(** ** Walks *)

Definition getPageAddress (mem : memory) (dir addr : Z) : Z :=
  let pte := word mem dir (getDirectoryOffset addr) in
  if is_present pte then
    let table := kern_p2v (Z.land pte PAGE_ADDR_MASK) in
    let pte := word mem table (getPageOffset addr) in
    if is_present pte then kern_p2v (Z.land pte PAGE_ADDR_MASK) else 0
  else 0.

Definition get_writable_page (mem : memory) (dir addr : Z) : Z :=
  let pte := word mem dir (getDirectoryOffset addr) in
  if Z.land pte ATTR_USER_READ_ONLY =? ATTR_USER_READ_ONLY then
    let table := kern_p2v (Z.land pte PAGE_ADDR_MASK) in
    let pte := word mem table (getPageOffset addr) in
    if Z.land pte ATTR_USER =? ATTR_USER then kern_p2v (Z.land pte PAGE_ADDR_MASK) else 0
  else 0.

(** Where the processor, running the kernel on the page directory [cr3], finds
    the byte at [a]: kernel addresses are the linear map that every directory
    shares, other addresses take the walk; [None] is a page fault. *)
Definition user_at (mem : memory) (dir a : Z) : option Z :=
  let p := getPageAddress mem dir a in
  if p =? 0 then None else Some (p + getOffset a).

Definition mmu (mem : memory) (cr3 a : Z) : option Z :=
  if SUPERVISOR_START <=? a then Some a else user_at mem (kern_p2v cr3) a.

(** [memcpy] of lib/libnc/string, on the page directory [cr3]. *)
Fixpoint memcpy (n : nat) (cr3 w r : Z) (mem : memory) : option memory :=
  match n with
  | O => Some mem
  | S n =>
      pr ← mmu mem cr3 r;
      pw ← mmu mem cr3 w;
      memcpy n cr3 (u32 (w + 1)) (u32 (r + 1)) (st8 mem pw (ld8 mem pr))
  end.

(** ** Copies (memcpy.c) *)

(** The loops take one page a turn: [fuel] turns are enough for [bytes]. *)
Definition fuel (bytes : Z) : nat := S (S (Z.to_nat (bytes / PAGE_SIZE))).

Fixpoint k2u_loop (f : nat) (cr3 dir p w r rest len : Z) (mem : memory) : option (Z * memory) :=
  match f with
  | O => None
  | S f =>
      let len := if rest <? len then rest else len in
      mem ← memcpy (Z.to_nat len) cr3 p r mem;
      let rest := rest - len in
      if rest =? 0 then Some (E_OK, mem)
      else
        let w := u32 (w + len) in
        let r := u32 (r + len) in
        let p := getPageAddress mem dir w in
        if p =? 0 then Some (E_PAR, mem) else k2u_loop f cr3 dir p w r rest PAGE_SIZE mem
  end.

Definition memcpy_k2u (mem : memory) (pd : Z) (th : thread_t) (to from bytes : Z) : option (Z * memory) :=
  if is_kthread th then mem ← memcpy (Z.to_nat bytes) pd to from mem; Some (E_OK, mem)
  else
    let dir := kern_p2v (cr3 (mpu th)) in
    let p := getPageAddress mem dir to in
    if p =? 0 then Some (E_PAR, mem)
    else
      let offset := getOffset to in
      k2u_loop (fuel bytes) pd dir (p + offset) to from bytes (PAGE_SIZE - offset) mem.

Fixpoint u2k_loop (f : nat) (cr3 dir p w r rest len : Z) (mem : memory) : option (Z * memory) :=
  match f with
  | O => None
  | S f =>
      let len := if rest <? len then rest else len in
      mem ← memcpy (Z.to_nat len) cr3 w p mem;
      let rest := rest - len in
      if rest =? 0 then Some (E_OK, mem)
      else
        let w := u32 (w + len) in
        let r := u32 (r + len) in
        let p := getPageAddress mem dir r in
        if p =? 0 then Some (E_PAR, mem) else u2k_loop f cr3 dir p w r rest PAGE_SIZE mem
  end.

Definition memcpy_u2k (mem : memory) (pd : Z) (th : thread_t) (to from bytes : Z) : option (Z * memory) :=
  if is_kthread th then mem ← memcpy (Z.to_nat bytes) pd to from mem; Some (E_OK, mem)
  else
    let dir := kern_p2v (cr3 (mpu th)) in
    let p := getPageAddress mem dir from in
    if p =? 0 then Some (E_PAR, mem)
    else
      let offset := getOffset from in
      u2k_loop (fuel bytes) pd dir (p + offset) to from bytes (PAGE_SIZE - offset) mem.

(** ** Copy of a string (strncpy.c) *)

(** [copy]: whether the terminator was met, and how many bytes are left. *)
Fixpoint copy_loop (left : nat) (cr3 dest src : Z) (mem : memory) : option (bool * Z * memory) :=
  match left with
  | O => Some (false, 0, mem)
  | S left' =>
      ps ← mmu mem cr3 src;
      let c := ld8 mem ps in
      pd ← mmu mem cr3 dest;
      let mem := st8 mem pd c in
      if c =? 0 then Some (true, Z.of_nat left, mem)
      else copy_loop left' cr3 (u32 (dest + 1)) (u32 (src + 1)) mem
  end.

(** The count does not include the terminator. *)
Definition copy (cr3 dest src len : Z) (mem : memory) : option (bool * Z * memory) :=
  '(result, rest, mem) ← copy_loop (Z.to_nat len) cr3 dest src mem;
  Some (result, len - rest, mem).

Fixpoint strncpy_loop (f : nat) (cr3 dir p w r left len bytes : Z) (mem : memory) : option (Z * memory) :=
  match f with
  | O => None
  | S f =>
      let len := if left <? len then left else len in
      '(done, len, mem) ← copy cr3 w p len mem;
      let left := left - len in
      if done || (left =? 0) then Some (s32 (bytes - left), mem)
      else
        let w := u32 (w + len) in
        let r := u32 (r + len) in
        let p := getPageAddress mem dir r in
        if p =? 0 then Some (E_PAR, mem) else strncpy_loop f cr3 dir p w r left PAGE_SIZE bytes mem
  end.

Definition strncpy_u2k (mem : memory) (pd : Z) (th : thread_t) (to from bytes : Z) : option (Z * memory) :=
  if is_kthread th then '(_, len, mem) ← copy pd to from bytes mem; Some (s32 len, mem)
  else
    let dir := kern_p2v (cr3 (mpu th)) in
    let p := getPageAddress mem dir from in
    if p =? 0 then Some (E_PAR, mem)
    else
      let offset := getOffset from in
      strncpy_loop (fuel bytes) pd dir (p + offset) to from bytes (PAGE_SIZE - offset) bytes mem.

(** ** Scattered copies (scattered_copy.c) *)

(** A word in the address space in force; a pointer to a structure is aligned. *)
Definition ld32 (mem : memory) (cr3 a : Z) : option Z :=
  p ← mmu mem cr3 a; if p mod 4 =? 0 then Some (mem p) else None.

Definition st32 (mem : memory) (cr3 a v : Z) : option memory :=
  p ← mmu mem cr3 a; if p mod 4 =? 0 then Some (store mem p v) else None.

(** The fields of [copy_range_t]. *)
Definition sizeof_copy_range_t : Z := 20.
Definition range_to : Z := 0.
Definition range_from : Z := 4.
Definition range_num_of_fragments : Z := 8.
Definition range_fragment_size : Z := 12.
Definition range_chunk_size : Z := 16.

(** One fragment. *)
Definition copy_fragment (cr3 dir range : Z) (mem : memory) : option (Z * memory) :=
  r ← ld32 mem cr3 (range + range_from);
  let p := getPageAddress mem dir r in
  if p =? 0 then Some (E_PAR, mem)
  else
    w ← ld32 mem cr3 (range + range_to);
    rest ← ld32 mem cr3 (range + range_fragment_size);
    let offset := getOffset r in
    u2k_loop (fuel rest) cr3 dir (p + offset) w r rest (PAGE_SIZE - offset) mem.

(** The fragments from the [j]-th on; [n] is as many turns as the range has
    fragments, so a copy that changes the count of its own range is not
    defined. *)
Fixpoint fragments_loop (n : nat) (cr3 dir chunk_size range j : Z) (mem : memory) : option (Z * memory) :=
  num ← ld32 mem cr3 (range + range_num_of_fragments);
  if num <=? j then Some (E_OK, mem)
  else
    match n with
    | O => None
    | S n =>
        '(e, mem) ← copy_fragment cr3 dir range mem;
        if negb (e =? E_OK) then Some (e, mem)
        else
          from ← ld32 mem cr3 (range + range_from);
          chunk ← ld32 mem cr3 (range + range_chunk_size);
          mem ← st32 mem cr3 (range + range_from) (u32 (from + chunk));
          to ← ld32 mem cr3 (range + range_to);
          mem ← st32 mem cr3 (range + range_to) (u32 (to + chunk_size));
          fragments_loop n cr3 dir chunk_size range (j + 1) mem
    end.

Fixpoint ranges_loop (n : nat) (cr3 dir chunk_size range : Z) (mem : memory) : option (Z * memory) :=
  match n with
  | O => Some (E_OK, mem)
  | S n =>
      size ← ld32 mem cr3 (range + range_fragment_size);
      '(e, mem) ← (if size =? 0 then Some (E_OK, mem)
                   else
                     num ← ld32 mem cr3 (range + range_num_of_fragments);
                     fragments_loop (Z.to_nat num) cr3 dir chunk_size range 0 mem);
      if negb (e =? E_OK) then Some (e, mem)
      else ranges_loop n cr3 dir chunk_size (range + sizeof_copy_range_t) mem
  end.

Definition scattered_copy_u2k (mem : memory) (pd : Z) (th : thread_t) (chunk_size ranges n : Z) : option (Z * memory) :=
  ranges_loop (Z.to_nat n) pd (kern_p2v (cr3 (mpu th))) chunk_size ranges mem.

(** ** Bytes *)

Lemma word_at_eq a b : word_at a = word_at b -> a mod 4 = b mod 4 -> a = b.
Proof. unfold word_at. intros. rewrite (Z.div_mod a 4), (Z.div_mod b 4) by lia. lia. Qed.

Lemma st8_other mem a v x : word_at a ≠ x -> st8 mem a v x = mem x.
Proof. intros Hne. unfold st8, store. by rewrite (proj2 (Z.eqb_neq x (word_at a))) by done. Qed.

Lemma lane_bit k i : 0 <= i -> Z.testbit (Z.shiftl 255 (8 * k)) i = (8 * k <=? i) && (i <? 8 * k + 8).
Proof.
  intros Hi. rewrite Z.shiftl_spec by done. destruct (Z.leb_spec (8 * k) i); cbn [andb]; [|by rewrite Z.testbit_neg_r by lia].
  change 255 with (Z.ones 8). rewrite Z.testbit_ones by lia. destruct (Z.leb_spec 0 (i - 8 * k)); [|lia]. cbn [andb].
  destruct (Z.ltb_spec (i - 8 * k) 8), (Z.ltb_spec i (8 * k + 8)); lia.
Qed.

Lemma ld8_bit mem a i : 0 <= i -> Z.testbit (ld8 mem a) i = Z.testbit (mem (word_at a)) (i + 8 * (a mod 4)) && (i <? 8).
Proof.
  intros Hi. unfold ld8. rewrite Z.land_spec, Z.shiftr_spec by done. f_equal. change 255 with (Z.ones 8).
  rewrite Z.testbit_ones by lia. by destruct (Z.leb_spec 0 i); [|lia].
Qed.

Lemma byte_bit v i : 0 <= i -> Z.testbit (Z.land v 255) i = Z.testbit v i && (i <? 8).
Proof.
  intros Hi. rewrite Z.land_spec. f_equal. change 255 with (Z.ones 8). rewrite Z.testbit_ones by lia.
  by destruct (Z.leb_spec 0 i); [|lia].
Qed.

Lemma ld8_st8 mem a v b : ld8 (st8 mem a v) b = if decide (a = b) then Z.land v 255 else ld8 mem b.
Proof.
  destruct (decide (word_at a = word_at b)) as [Ew|Hne].
  2:{ rewrite decide_False by congruence. unfold ld8. by rewrite st8_other. }
  apply Z.bits_inj'. intros i Hi. rewrite ld8_bit by done. unfold st8, store. rewrite Ew, Z.eqb_refl.
  pose proof (Z.mod_pos_bound a 4 ltac:(lia)). pose proof (Z.mod_pos_bound b 4 ltac:(lia)).
  rewrite Z.lor_spec, Z.ldiff_spec, lane_bit, (Z.shiftl_spec (Z.land v 255)) by lia.
  destruct (Z.ltb_spec i 8) as [Hi8|Hi8].
  2:{ rewrite andb_false_r. case_decide; [rewrite byte_bit by done|rewrite ld8_bit by done];
      rewrite (proj2 (Z.ltb_ge i 8)), andb_false_r by lia; done. }
  rewrite andb_true_r. destruct (decide (a = b)) as [->|Hab].
  - rewrite (proj2 (Z.leb_le _ _)), (proj2 (Z.ltb_lt _ _)) by lia. cbn [andb negb]. rewrite andb_false_r. cbn [orb].
    f_equal. lia.
  - assert (a mod 4 ≠ b mod 4) by (intros E; by apply Hab, word_at_eq).
    rewrite ld8_bit by done. rewrite (proj2 (Z.ltb_lt i 8)), andb_true_r by lia.
    replace ((8 * (a mod 4) <=? i + 8 * (b mod 4)) && (i + 8 * (b mod 4) <? 8 * (a mod 4) + 8)) with false
      by (symmetry; apply andb_false_iff; rewrite Z.leb_gt, Z.ltb_ge; lia).
    cbn [negb]. rewrite andb_true_r.
    destruct (Z.leb_spec (8 * (a mod 4)) (i + 8 * (b mod 4))).
    + rewrite byte_bit by lia. rewrite (proj2 (Z.ltb_ge _ 8)) by lia. by rewrite andb_false_r, orb_false_r.
    + rewrite (Z.testbit_neg_r (Z.land v 255)) by lia. by rewrite orb_false_r.
Qed.

Lemma ld8_byte mem a : Z.land (ld8 mem a) 255 = ld8 mem a.
Proof. unfold ld8. by rewrite <- Z.land_assoc, Z.land_diag. Qed.

(** ** Addresses *)

Lemma shiftr_div a k : 0 <= k -> Z.shiftr a k = a / 2 ^ k.
Proof. intros. by rewrite Z.shiftr_div_pow2. Qed.

Lemma getOffset_mod a : getOffset a = a mod PAGE_SIZE.
Proof. unfold getOffset. change MASK_OFFSET with (Z.ones 12). by rewrite Z.land_ones by lia. Qed.

Lemma getDirectoryOffset_div a : getDirectoryOffset a = a / PAGE_SIZE / PTE_PER_PAGE.
Proof.
  unfold getDirectoryOffset. change (BITS_PAGE + BITS_OFFSET) with 22. rewrite shiftr_div by lia.
  unfold PAGE_SIZE, PTE_PER_PAGE. rewrite Z.div_div by lia. done.
Qed.

Lemma getPageOffset_mod a : getPageOffset a = (a / PAGE_SIZE) mod PTE_PER_PAGE.
Proof.
  unfold getPageOffset. change MASK_PAGE with (Z.ones 10). rewrite Z.land_ones by lia.
  change BITS_OFFSET with 12. by rewrite shiftr_div by lia.
Qed.

Lemma page_of_same a b mem dir : a / PAGE_SIZE = b / PAGE_SIZE -> getPageAddress mem dir a = getPageAddress mem dir b.
Proof. intros E. unfold getPageAddress. by rewrite !getDirectoryOffset_div, !getPageOffset_mod, E. Qed.

Lemma page_mask z : exists f, 0 <= f < 2 ^ 20 /\ Z.land z PAGE_ADDR_MASK = f * PAGE_SIZE.
Proof.
  exists ((z / PAGE_SIZE) mod 2 ^ 20). split; [apply Z.mod_pos_bound; lia|].
  change PAGE_ADDR_MASK with (Z.shiftl (Z.ones 20) 12). change PAGE_SIZE with (2 ^ 12).
  rewrite <- Z.land_ones, <- shiftr_div, <- Z.shiftl_mul_pow2 by lia.
  apply Z.bits_inj'. intros i Hi. rewrite Z.land_spec, !Z.shiftl_spec by done.
  destruct (decide (12 <= i)); [|by rewrite !(Z.testbit_neg_r _ (i - 12)) by lia; rewrite andb_false_r].
  rewrite Z.land_spec, Z.shiftr_spec by lia. do 2 f_equal. lia.
Qed.

(** The kernel address of a frame. *)
Lemma kern_p2v_page f : 0 <= f < 2 ^ 20 -> exists g, 2 ^ 19 <= g < 2 ^ 20 /\ kern_p2v (f * PAGE_SIZE) = g * PAGE_SIZE.
Proof.
  intros Hf. exists (Z.lor f (2 ^ 19)).
  assert (Hlor : 0 <= Z.lor f (2 ^ 19) < 2 ^ 20).
  { assert (is_u32 f /\ True) by (unfold is_u32; lia). split; [apply Z.lor_nonneg; lia|].
    destruct (decide (Z.lor f (2 ^ 19) = 0)) as [->|]; [lia|]. apply Z.log2_lt_pow2.
    { pose proof (proj2 (Z.lor_nonneg f (2 ^ 19)) ltac:(lia)). lia. }
    rewrite Z.log2_lor by lia. apply Z.max_lub_lt; [|by vm_compute].
    destruct (decide (f = 0)) as [->|]; [by vm_compute|]. apply Z.log2_lt_pow2; lia. }
  split.
  - split; [|lia]. destruct (decide (2 ^ 19 <= Z.lor f (2 ^ 19))) as [|Hlt]; [done|].
    assert (Hb : Z.testbit (Z.lor f (2 ^ 19)) 19 = true) by (rewrite Z.lor_spec, Z.pow2_bits_true by lia; apply orb_true_r).
    rewrite <- (Z.mod_small (Z.lor f (2 ^ 19)) (2 ^ 19)) in Hb by lia.
    rewrite Z.mod_pow2_bits_high in Hb by lia. done.
  - unfold kern_p2v. change SUPERVISOR_START with (Z.shiftl (2 ^ 19) 12). change PAGE_SIZE with (2 ^ 12).
    rewrite <- !Z.shiftl_mul_pow2 by lia. by rewrite Z.shiftl_lor.
Qed.

(** A walk ends on a page of the kernel's half, or on none. *)
Lemma page_address_range mem dir a :
  getPageAddress mem dir a = 0 \/ exists g, 2 ^ 19 <= g < 2 ^ 20 /\ getPageAddress mem dir a = g * PAGE_SIZE.
Proof.
  unfold getPageAddress. case_match; [|by left]. case_match; [|by left]. right.
  destruct (page_mask (word mem (kern_p2v (Z.land (word mem dir (getDirectoryOffset a)) PAGE_ADDR_MASK)) (getPageOffset a)))
    as (f & Hf & ->). by apply kern_p2v_page.
Qed.

(** ** Copies, byte by byte *)

(** The words a walk reads. *)
Definition walked (mem : memory) (dir a x : Z) : Prop :=
  let pte := word mem dir (getDirectoryOffset a) in
  x = dir + 4 * getDirectoryOffset a \/ x = kern_p2v (Z.land pte PAGE_ADDR_MASK) + 4 * getPageOffset a.

Lemma walk_agree mem mem' dir a :
  (forall x, walked mem dir a x -> mem' x = mem x) -> getPageAddress mem' dir a = getPageAddress mem dir a.
Proof.
  intros Hw. unfold getPageAddress, word.
  rewrite (Hw (dir + 4 * getDirectoryOffset a)) by (by left). case_match; [|done].
  rewrite (Hw (kern_p2v (Z.land (mem (dir + 4 * getDirectoryOffset a)) PAGE_ADDR_MASK) + 4 * getPageOffset a)) by (by right).
  done.
Qed.

(** What a copy of [n] bytes means, for a translation of either side: each
    byte goes where it belongs, up to the first that has no place. *)
Fixpoint byte_copy (n : nat) (tw tr : Z -> option Z) (w r : Z) (mem : memory) : Z * memory :=
  match n with
  | O => (E_OK, mem)
  | S n =>
      match tw w, tr r with
      | Some pw, Some pr => byte_copy n tw tr (w + 1) (r + 1) (st8 mem pw (ld8 mem pr))
      | _, _ => (E_PAR, mem)
      end
  end.

(** The same for a string: the count of the bytes before the terminator. *)
Fixpoint byte_strncpy (n : nat) (tw tr : Z -> option Z) (w r : Z) (c : Z) (mem : memory) : Z * memory :=
  match n with
  | O => (s32 c, mem)
  | S n =>
      match tw w, tr r with
      | Some pw, Some pr =>
          let mem' := st8 mem pw (ld8 mem pr) in
          if ld8 mem pr =? 0 then (s32 c, mem') else byte_strncpy n tw tr (w + 1) (r + 1) (c + 1) mem'
      | _, _ => (E_PAR, mem)
      end
  end.

Lemma byte_copy_stop m tw tr w r mem : (0 < m)%nat -> tw w = None \/ tr r = None -> byte_copy m tw tr w r mem = (E_PAR, mem).
Proof. intros Hm Hor. destruct m as [|m]; [lia|]. cbn [byte_copy]. destruct (tw w), (tr r); naive_solver. Qed.

Lemma byte_strncpy_stop m tw tr w r c mem :
  (0 < m)%nat -> tw w = None \/ tr r = None -> byte_strncpy m tw tr w r c mem = (E_PAR, mem).
Proof. intros Hm Hor. destruct m as [|m]; [lia|]. cbn [byte_strncpy]. destruct (tw w), (tr r); naive_solver. Qed.

Lemma user_at_none mem d a : getPageAddress mem d a = 0 -> user_at mem d a = None.
Proof. intros E. unfold user_at. by rewrite E. Qed.

Lemma kernel_mmu mem pd p : SUPERVISOR_START <= p -> mmu mem pd p = Some p.
Proof. intros Hp. unfold mmu. by rewrite (proj2 (Z.leb_le _ _)) by done. Qed.

Section Copies.
(** [n] bytes, at [ua] in the space of the directory [dir], and at [ka] in the
    space in force; the copy writes bytes of [dst], which no walk reads. *)
Context (mem0 : memory) (pd dir ua ka n : Z) (dst : Z -> Prop).
Hypothesis Hua : 0 <= ua /\ ua + n <= 2 ^ 32.
Hypothesis Hka : 0 <= ka /\ ka + n <= 2 ^ 32.

Definition in_walks (x : Z) : Prop :=
  exists j, 0 <= j < n /\
    (walked mem0 dir (ua + j) x \/ ka + j < SUPERVISOR_START /\ walked mem0 (kern_p2v pd) (ka + j) x).

Hypothesis Hdst : forall p, dst p -> ~ in_walks (word_at p).
Hypothesis Hk : forall j, 0 <= j < n -> is_Some (mmu mem0 pd (ka + j)).

Notation utr := (user_at mem0 dir).
Notation ktr := (mmu mem0 pd).

Definition same (mem : memory) : Prop := forall x, in_walks x -> mem x = mem0 x.

Lemma same_st8 mem p v : same mem -> dst p -> same (st8 mem p v).
Proof. intros Hs Hp x Hx. rewrite st8_other; [by apply Hs|]. intros <-. by eapply Hdst. Qed.

Lemma same_page mem j : same mem -> 0 <= j < n -> getPageAddress mem dir (ua + j) = getPageAddress mem0 dir (ua + j).
Proof. intros Hs Hj. apply walk_agree. intros x Hx. apply Hs. exists j. auto. Qed.

Lemma same_mmu mem j : same mem -> 0 <= j < n -> mmu mem pd (ka + j) = ktr (ka + j).
Proof.
  intros Hs Hj. unfold mmu. destruct (Z.leb_spec SUPERVISOR_START (ka + j)); [done|]. unfold user_at.
  rewrite (walk_agree mem0 mem); [done|]. intros x Hx. apply Hs. exists j. auto.
Qed.

(** A page and the offset in it. *)
Lemma utr_page j k :
  0 <= j -> 0 <= k < PAGE_SIZE - getOffset (ua + j) ->
  utr (ua + j + k) = (if getPageAddress mem0 dir (ua + j) =? 0 then None
                      else Some (getPageAddress mem0 dir (ua + j) + getOffset (ua + j) + k)).
Proof.
  intros Hj. rewrite getOffset_mod. intros Hb. pose proof (Z.mod_pos_bound (ua + j) PAGE_SIZE ltac:(by vm_compute)) as Hm.
  pose proof (Z.div_mod (ua + j) PAGE_SIZE ltac:(by vm_compute)) as Hdm.
  assert (Eq : (ua + j + k) / PAGE_SIZE = (ua + j) / PAGE_SIZE) by (symmetry; apply Z.div_unique with ((ua + j) mod PAGE_SIZE + k); lia).
  assert (Em : (ua + j + k) mod PAGE_SIZE = (ua + j) mod PAGE_SIZE + k) by (symmetry; apply Z.mod_unique with ((ua + j) / PAGE_SIZE); lia).
  unfold user_at. rewrite (page_of_same _ _ mem0 dir Eq), getOffset_mod, Em. case_match; [done|]. f_equal. lia.
Qed.

(** Inside of a page the copy is that of the bytes. *)
Lemma k2u_page len : forall j p mem,
  same mem -> 0 <= j -> j + Z.of_nat len <= n -> SUPERVISOR_START <= p -> p + Z.of_nat len <= 2 ^ 32 ->
  (forall k, 0 <= k < Z.of_nat len -> utr (ua + j + k) = Some (p + k) /\ dst (p + k)) ->
  exists mem', memcpy len pd p (ka + j) mem = Some mem' /\ same mem' /\
    forall m, byte_copy (len + m) utr ktr (ua + j) (ka + j) mem =
              byte_copy m utr ktr (ua + (j + Z.of_nat len)) (ka + (j + Z.of_nat len)) mem'.
Proof.
  induction len as [|len IH]; intros j p mem Hs Hj Hlen Hp Hp' Ht.
  { exists mem. split_and!; [done|done|]. intros m. cbn [Nat.add]. by replace (j + Z.of_nat 0) with j by lia. }
  destruct (Ht 0) as [Ht0 Hd0]; [lia|]. rewrite (Z.add_0_r (ua + j)), (Z.add_0_r p) in Ht0. rewrite (Z.add_0_r p) in Hd0.
  destruct (Hk j) as [pr Hpr]; [lia|].
  destruct (IH (j + 1) (p + 1) (st8 mem p (ld8 mem pr))) as (mem' & E & Hs' & Hb); [by apply same_st8|lia..| |].
  { intros k Hk'. destruct (Ht (k + 1)); [lia|]. replace (ua + (j + 1) + k) with (ua + j + (k + 1)) by lia.
    by replace (p + 1 + k) with (p + (k + 1)) by lia. }
  exists mem'. cbn [memcpy Nat.add byte_copy]. rewrite (same_mmu mem j Hs) by lia. rewrite Hpr, kernel_mmu by done. cbn [mbind option_bind].
  rewrite Ht0. split_and!.
  - destruct len as [|len]; [by cbn in E |- *|]. rewrite (u32_small (p + 1)), (u32_small (ka + j + 1)) by (unfold is_u32, SUPERVISOR_START in *; lia).
    by replace (ka + j + 1) with (ka + (j + 1)) by lia.
  - done.
  - intros m. replace (ua + j + 1) with (ua + (j + 1)) by lia. replace (ka + j + 1) with (ka + (j + 1)) by lia.
    rewrite Hb. f_equal; lia.
Qed.

Lemma u2k_page len : forall j p mem,
  same mem -> 0 <= j -> j + Z.of_nat len <= n -> SUPERVISOR_START <= p -> p + Z.of_nat len <= 2 ^ 32 ->
  (forall k, 0 <= k < Z.of_nat len -> utr (ua + j + k) = Some (p + k)) ->
  (forall k q, 0 <= k < n -> ktr (ka + k) = Some q -> dst q) ->
  exists mem', memcpy len pd (ka + j) p mem = Some mem' /\ same mem' /\
    forall m, byte_copy (len + m) ktr utr (ka + j) (ua + j) mem =
              byte_copy m ktr utr (ka + (j + Z.of_nat len)) (ua + (j + Z.of_nat len)) mem'.
Proof.
  induction len as [|len IH]; intros j p mem Hs Hj Hlen Hp Hp' Ht Hd.
  { exists mem. split_and!; [done|done|]. intros m. cbn [Nat.add]. by replace (j + Z.of_nat 0) with j by lia. }
  pose proof (Ht 0 ltac:(lia)) as Ht0. rewrite (Z.add_0_r (ua + j)), (Z.add_0_r p) in Ht0.
  destruct (Hk j) as [pw Hpw]; [lia|].
  destruct (IH (j + 1) (p + 1) (st8 mem pw (ld8 mem p))) as (mem' & E & Hs' & Hb); [|lia..| |done|].
  { apply same_st8; [done|]. by apply (Hd j); [lia|]. }
  { intros k Hk'. rewrite <- (Z.add_assoc p 1), <- (Z.add_assoc ua), <- (Z.add_assoc j 1), Z.add_assoc. apply Ht. lia. }
  exists mem'. cbn [memcpy Nat.add byte_copy]. rewrite (same_mmu mem j Hs) by lia. rewrite Hpw, kernel_mmu by done. cbn [mbind option_bind].
  rewrite Ht0. split_and!.
  - destruct len as [|len]; [by cbn in E |- *|]. rewrite (u32_small (p + 1)), (u32_small (ka + j + 1)) by (unfold is_u32, SUPERVISOR_START in *; lia).
    by replace (ka + j + 1) with (ka + (j + 1)) by lia.
  - done.
  - intros m. replace (ua + j + 1) with (ua + (j + 1)) by lia. replace (ka + j + 1) with (ka + (j + 1)) by lia.
    rewrite Hb. f_equal; lia.
Qed.

(** The byte [j] is on a page; so are those up to the end of the page. *)
Lemma page_span j len :
  0 <= j -> getPageAddress mem0 dir (ua + j) ≠ 0 -> 0 <= len <= PAGE_SIZE - getOffset (ua + j) ->
  let p := getPageAddress mem0 dir (ua + j) + getOffset (ua + j) in
  SUPERVISOR_START <= p /\ p + len <= 2 ^ 32 /\ forall k, 0 <= k < len -> utr (ua + j + k) = Some (p + k).
Proof.
  intros Hj Hp Hl p. destruct (page_address_range mem0 dir (ua + j)) as [E|(g & Hg & E)]; [done|].
  pose proof (Z.mod_pos_bound (ua + j) PAGE_SIZE ltac:(by vm_compute)) as Hm. unfold p. rewrite E, getOffset_mod in *.
  unfold SUPERVISOR_START, PAGE_SIZE in *. split_and!; [lia|lia|]. intros k Hk'.
  rewrite utr_page by (rewrite ?getOffset_mod; unfold PAGE_SIZE; lia).
  rewrite E, (proj2 (Z.eqb_neq _ _)), getOffset_mod by lia. done.
Qed.

(** The next page begins where this one ends. *)
Lemma next_page j : 0 <= j -> getOffset (ua + (j + (PAGE_SIZE - getOffset (ua + j)))) = 0.
Proof.
  intros Hj. rewrite !getOffset_mod. replace (ua + (j + _)) with (0 + ((ua + j) / PAGE_SIZE + 1) * PAGE_SIZE).
  - by rewrite Z.mod_add by (by vm_compute).
  - pose proof (Z.div_mod (ua + j) PAGE_SIZE ltac:(by vm_compute)). lia.
Qed.

(** What one turn copies. *)
Lemma chunk j :
  0 <= j <= n ->
  let len := if n - j <? PAGE_SIZE - getOffset (ua + j) then n - j else PAGE_SIZE - getOffset (ua + j) in
  0 <= getOffset (ua + j) < PAGE_SIZE /\ 0 <= len <= PAGE_SIZE - getOffset (ua + j) /\
  (len = n - j \/ len = PAGE_SIZE - getOffset (ua + j) /\ len <= n - j).
Proof.
  intros Hj len. pose proof (Z.mod_pos_bound (ua + j) PAGE_SIZE ltac:(by vm_compute)) as Hm.
  rewrite <- getOffset_mod in Hm. unfold len. destruct (Z.ltb_spec (n - j) (PAGE_SIZE - getOffset (ua + j))); lia.
Qed.

Lemma k2u_loop_spec f : forall j mem,
  same mem -> 0 <= j <= n -> getPageAddress mem0 dir (ua + j) ≠ 0 -> (1 <= f)%nat ->
  n - j + getOffset (ua + j) <= PAGE_SIZE * Z.of_nat f ->
  (forall k q, 0 <= k < n -> utr (ua + k) = Some q -> dst q) ->
  k2u_loop f pd dir (getPageAddress mem0 dir (ua + j) + getOffset (ua + j)) (ua + j) (ka + j) (n - j) (PAGE_SIZE - getOffset (ua + j)) mem =
  Some (byte_copy (Z.to_nat (n - j)) utr ktr (ua + j) (ka + j) mem).
Proof.
  induction f as [|f IH]; intros j mem Hs Hj Hp Hf Hfuel Hd; [lia|]. cbn [k2u_loop].
  set (len := if n - j <? PAGE_SIZE - getOffset (ua + j) then n - j else PAGE_SIZE - getOffset (ua + j)).
  destruct (chunk j Hj) as (Hm & Hlen & Hor). fold len in Hlen, Hor.
  destruct (page_span j len) as (Hp1 & Hp2 & Hspan); [lia|done|lia|].
  destruct (k2u_page (Z.to_nat len) j (getPageAddress mem0 dir (ua + j) + getOffset (ua + j)) mem) as (mem' & E & Hs' & Hb); [done|lia..| |].
  { intros k Hk'. rewrite Z2Nat.id in Hk' by lia. split; [by apply Hspan|]. apply (Hd (j + k)); [lia|].
    rewrite Z.add_assoc. by apply Hspan. }
  rewrite E. cbn [mbind option_bind]. destruct (Z.eqb_spec (n - j - len) 0) as [Hz|Hz].
  - specialize (Hb 0%nat). rewrite Nat.add_0_r in Hb. replace (n - j) with len by lia. rewrite Hb. done.
  - assert (El : len = PAGE_SIZE - getOffset (ua + j)) by lia. clearbody len. subst len.
    set (j' := j + (PAGE_SIZE - getOffset (ua + j))) in *.
    rewrite (u32_small (ua + j + _)), (u32_small (ka + j + _)) by (unfold is_u32; lia).
    replace (ua + j + _) with (ua + j') by lia. replace (ka + j + _) with (ka + j') by lia.
    replace (n - j - _) with (n - j') by lia. rewrite Z2Nat.id in Hb by lia. fold j' in Hb. specialize (Hb (Z.to_nat (n - j'))).
    replace (Z.to_nat (PAGE_SIZE - _) + Z.to_nat (n - j'))%nat with (Z.to_nat (n - j)) in Hb by lia. rewrite Hb.
    rewrite (same_page mem' j' Hs') by lia. pose proof (next_page j ltac:(lia)) as Ho. fold j' in Ho.
    destruct (Z.eqb_spec (getPageAddress mem0 dir (ua + j')) 0) as [Hnp|Hnp].
    + rewrite byte_copy_stop; [done|lia|]. left. by apply user_at_none.
    + specialize (IH j' mem' Hs' ltac:(lia) Hnp). rewrite Ho, Z.sub_0_r, !Z.add_0_r in IH. apply IH; [unfold PAGE_SIZE in *; lia..|done].
Qed.

Lemma u2k_loop_spec f : forall j mem,
  same mem -> 0 <= j <= n -> getPageAddress mem0 dir (ua + j) ≠ 0 -> (1 <= f)%nat ->
  n - j + getOffset (ua + j) <= PAGE_SIZE * Z.of_nat f ->
  (forall k q, 0 <= k < n -> ktr (ka + k) = Some q -> dst q) ->
  u2k_loop f pd dir (getPageAddress mem0 dir (ua + j) + getOffset (ua + j)) (ka + j) (ua + j) (n - j) (PAGE_SIZE - getOffset (ua + j)) mem =
  Some (byte_copy (Z.to_nat (n - j)) ktr utr (ka + j) (ua + j) mem).
Proof.
  induction f as [|f IH]; intros j mem Hs Hj Hp Hf Hfuel Hd; [lia|]. cbn [u2k_loop].
  set (len := if n - j <? PAGE_SIZE - getOffset (ua + j) then n - j else PAGE_SIZE - getOffset (ua + j)).
  destruct (chunk j Hj) as (Hm & Hlen & Hor). fold len in Hlen, Hor.
  destruct (page_span j len) as (Hp1 & Hp2 & Hspan); [lia|done|lia|].
  destruct (u2k_page (Z.to_nat len) j (getPageAddress mem0 dir (ua + j) + getOffset (ua + j)) mem) as (mem' & E & Hs' & Hb); [done|lia..| |done|].
  { intros k Hk'. rewrite Z2Nat.id in Hk' by lia. by apply Hspan. }
  rewrite E. cbn [mbind option_bind]. destruct (Z.eqb_spec (n - j - len) 0) as [Hz|Hz].
  - specialize (Hb 0%nat). rewrite Nat.add_0_r in Hb. replace (n - j) with len by lia. rewrite Hb. done.
  - assert (El : len = PAGE_SIZE - getOffset (ua + j)) by lia. clearbody len. subst len.
    set (j' := j + (PAGE_SIZE - getOffset (ua + j))) in *.
    rewrite (u32_small (ua + j + _)), (u32_small (ka + j + _)) by (unfold is_u32; lia).
    replace (ua + j + _) with (ua + j') by lia. replace (ka + j + _) with (ka + j') by lia.
    replace (n - j - _) with (n - j') by lia. rewrite Z2Nat.id in Hb by lia. fold j' in Hb. specialize (Hb (Z.to_nat (n - j'))).
    replace (Z.to_nat (PAGE_SIZE - _) + Z.to_nat (n - j'))%nat with (Z.to_nat (n - j)) in Hb by lia. rewrite Hb.
    rewrite (same_page mem' j' Hs') by lia. pose proof (next_page j ltac:(lia)) as Ho. fold j' in Ho.
    destruct (Z.eqb_spec (getPageAddress mem0 dir (ua + j')) 0) as [Hnp|Hnp].
    + rewrite byte_copy_stop; [done|lia|]. right. by apply user_at_none.
    + specialize (IH j' mem' Hs' ltac:(lia) Hnp). rewrite Ho, Z.sub_0_r, !Z.add_0_r in IH. apply IH; [unfold PAGE_SIZE in *; lia..|done].
Qed.

Lemma copy_page len : forall j p c mem,
  same mem -> 0 <= j -> j + Z.of_nat len <= n -> SUPERVISOR_START <= p -> p + Z.of_nat len <= 2 ^ 32 ->
  (forall k, 0 <= k < Z.of_nat len -> utr (ua + j + k) = Some (p + k)) ->
  (forall k q, 0 <= k < n -> ktr (ka + k) = Some q -> dst q) ->
  exists stop rest mem', copy_loop len pd (ka + j) p mem = Some (stop, rest, mem') /\ same mem' /\ 0 <= rest <= Z.of_nat len /\
    if (stop : bool)
    then forall m, byte_strncpy (len + m) ktr utr (ka + j) (ua + j) c mem = (s32 (c + (Z.of_nat len - rest)), mem')
    else rest = 0 /\
      forall m, byte_strncpy (len + m) ktr utr (ka + j) (ua + j) c mem =
                byte_strncpy m ktr utr (ka + (j + Z.of_nat len)) (ua + (j + Z.of_nat len)) (c + Z.of_nat len) mem'.
Proof.
  induction len as [|len IH]; intros j p c mem Hs Hj Hlen Hp Hp' Ht Hd.
  { exists false, 0, mem. split_and!; [done|done|lia..|done|]. intros m. cbn [Nat.add].
    by replace (j + Z.of_nat 0) with j by lia; replace (c + Z.of_nat 0) with c by lia. }
  pose proof (Ht 0 ltac:(lia)) as Ht0. rewrite (Z.add_0_r (ua + j)), (Z.add_0_r p) in Ht0.
  destruct (Hk j) as [pw Hpw]; [lia|]. assert (Hs1 : same (st8 mem pw (ld8 mem p))).
  { apply same_st8; [done|]. by apply (Hd j); [lia|]. }
  cbn [copy_loop Nat.add byte_strncpy]. rewrite (kernel_mmu mem pd p) by done. cbn [mbind option_bind].
  rewrite (same_mmu mem j Hs), Hpw, Ht0 by lia. cbn [mbind option_bind].
  destruct (Z.eqb_spec (ld8 mem p) 0) as [Hc|Hc].
  { exists true, (Z.of_nat (S len)), (st8 mem pw (ld8 mem p)). split_and!; [done|done|lia|lia|]. intros _. do 2 f_equal. lia. }
  destruct (IH (j + 1) (p + 1) (c + 1) (st8 mem pw (ld8 mem p))) as (stop & rest & mem' & E & Hs' & Hr & Hb); [done|lia..| |done|].
  { intros k Hk'. rewrite <- (Z.add_assoc p 1), <- (Z.add_assoc ua), <- (Z.add_assoc j 1), Z.add_assoc. apply Ht. lia. }
  exists stop, rest, mem'. split_and!; [|done|lia|lia|].
  - destruct len as [|len]; [by cbn in E |- *|]. rewrite (u32_small (p + 1)), (u32_small (ka + j + 1)) by (unfold is_u32, SUPERVISOR_START in *; lia).
    by replace (ka + j + 1) with (ka + (j + 1)) by lia.
  - replace (ka + j + 1) with (ka + (j + 1)) by lia. replace (ua + j + 1) with (ua + (j + 1)) by lia. destruct stop.
    + intros m. rewrite Hb. do 2 f_equal. lia.
    + destruct Hb as [-> Hb]. split; [done|]. intros m. rewrite Hb. f_equal; lia.
Qed.

Lemma strncpy_loop_spec f : forall j mem,
  same mem -> 0 <= j <= n -> getPageAddress mem0 dir (ua + j) ≠ 0 -> (1 <= f)%nat ->
  n - j + getOffset (ua + j) <= PAGE_SIZE * Z.of_nat f ->
  (forall k q, 0 <= k < n -> ktr (ka + k) = Some q -> dst q) ->
  strncpy_loop f pd dir (getPageAddress mem0 dir (ua + j) + getOffset (ua + j)) (ka + j) (ua + j) (n - j) (PAGE_SIZE - getOffset (ua + j)) n mem =
  Some (byte_strncpy (Z.to_nat (n - j)) ktr utr (ka + j) (ua + j) j mem).
Proof.
  induction f as [|f IH]; intros j mem Hs Hj Hp Hf Hfuel Hd; [lia|]. cbn [strncpy_loop]. unfold copy.
  set (len := if n - j <? PAGE_SIZE - getOffset (ua + j) then n - j else PAGE_SIZE - getOffset (ua + j)).
  destruct (chunk j Hj) as (Hm & Hlen & Hor). fold len in Hlen, Hor.
  destruct (page_span j len) as (Hp1 & Hp2 & Hspan); [lia|done|lia|].
  destruct (copy_page (Z.to_nat len) j (getPageAddress mem0 dir (ua + j) + getOffset (ua + j)) j mem)
    as (stop & rest & mem' & E & Hs' & Hr & Hb); [done|lia..| |done|].
  { intros k Hk'. rewrite Z2Nat.id in Hk' by lia. by apply Hspan. }
  rewrite E. cbn [mbind option_bind]. destruct stop; cbn [orb].
  { specialize (Hb (Z.to_nat (n - j - len))). replace (Z.to_nat len + _)%nat with (Z.to_nat (n - j)) in Hb by lia. rewrite Hb.
    repeat f_equal. lia. }
  destruct Hb as [-> Hb]. rewrite Z.sub_0_r. destruct (Z.eqb_spec (n - j - len) 0) as [Hz|Hz].
  - specialize (Hb 0%nat). rewrite Nat.add_0_r in Hb. replace (Z.to_nat (n - j)) with (Z.to_nat len) by lia. rewrite Hb.
    cbn [byte_strncpy]. repeat f_equal. lia.
  - assert (El : len = PAGE_SIZE - getOffset (ua + j)) by lia. clearbody len. subst len.
    set (j' := j + (PAGE_SIZE - getOffset (ua + j))) in *.
    rewrite (u32_small (ua + j + _)), (u32_small (ka + j + _)) by (unfold is_u32; lia).
    replace (ua + j + _) with (ua + j') by lia. replace (ka + j + _) with (ka + j') by lia.
    replace (n - j - _) with (n - j') by lia. rewrite Z2Nat.id in Hb by lia. fold j' in Hb. specialize (Hb (Z.to_nat (n - j'))).
    replace (Z.to_nat (PAGE_SIZE - _) + Z.to_nat (n - j'))%nat with (Z.to_nat (n - j)) in Hb by lia. rewrite Hb.
    rewrite (same_page mem' j' Hs') by lia. pose proof (next_page j ltac:(lia)) as Ho. fold j' in Ho.
    destruct (Z.eqb_spec (getPageAddress mem0 dir (ua + j')) 0) as [Hnp|Hnp].
    + rewrite byte_strncpy_stop; [done|lia|]. right. by apply user_at_none.
    + specialize (IH j' mem' Hs' ltac:(lia) Hnp). rewrite Ho, Z.sub_0_r, !Z.add_0_r in IH. apply IH; [unfold PAGE_SIZE in *; lia..|done].
Qed.

End Copies.

(** No byte that the copy writes lies in a word that one of its walks reads. *)
Definition apart (mem : memory) (pd dir ua ka n : Z) (tr : Z -> option Z) (a : Z) : Prop :=
  forall k q, 0 <= k < n -> tr (a + k) = Some q -> ~ in_walks mem pd dir ua ka n (word_at q).

Lemma fuel_enough n o : 0 <= n -> 0 <= o < PAGE_SIZE -> n - 0 + o <= PAGE_SIZE * Z.of_nat (fuel n).
Proof.
  intros Hn Ho. unfold fuel. pose proof (Z.div_mod n PAGE_SIZE ltac:(by vm_compute)).
  pose proof (Z.mod_pos_bound n PAGE_SIZE ltac:(by vm_compute)). pose proof (Z.div_pos n PAGE_SIZE Hn ltac:(by vm_compute)).
  unfold PAGE_SIZE in *. lia.
Qed.

Lemma getOffset_range a : 0 <= getOffset a < PAGE_SIZE.
Proof. rewrite getOffset_mod. by apply Z.mod_pos_bound. Qed.

Section Whole.
Context (mem : memory) (pd : Z) (th : thread_t) (ua ka n : Z).
Let dir := kern_p2v (cr3 (mpu th)).
Hypothesis Hth : is_kthread th = false.
Hypothesis Hn : 0 < n.
Hypothesis Hua : 0 <= ua /\ ua + n <= 2 ^ 32.
Hypothesis Hka : 0 <= ka /\ ka + n <= 2 ^ 32.
Hypothesis Hk : forall j, 0 <= j < n -> is_Some (mmu mem pd (ka + j)).

Lemma memcpy_k2u_spec :
  apart mem pd dir ua ka n (user_at mem dir) ua ->
  memcpy_k2u mem pd th ua ka n = Some (byte_copy (Z.to_nat n) (user_at mem dir) (mmu mem pd) ua ka mem).
Proof.
  intros Ha. unfold memcpy_k2u. rewrite Hth. fold dir.
  destruct (Z.eqb_spec (getPageAddress mem dir ua) 0) as [E|E].
  { rewrite byte_copy_stop; [done|lia|]. left. by apply user_at_none. }
  pose proof (k2u_loop_spec mem pd dir ua ka n (λ q, exists k, 0 <= k < n /\ user_at mem dir (ua + k) = Some q) Hua Hka) as Hl.
  specialize (Hl ltac:(intros p (k & Hk' & Hq); by apply (Ha k)) Hk (fuel n) 0 mem).
  rewrite !Z.add_0_r, Z.sub_0_r in Hl. apply Hl; [done|lia|done|unfold fuel; lia| |eauto].
  pose proof (fuel_enough n (getOffset ua) ltac:(lia) (getOffset_range ua)). lia.
Qed.

Lemma memcpy_u2k_spec :
  apart mem pd dir ua ka n (mmu mem pd) ka ->
  memcpy_u2k mem pd th ka ua n = Some (byte_copy (Z.to_nat n) (mmu mem pd) (user_at mem dir) ka ua mem).
Proof.
  intros Ha. unfold memcpy_u2k. rewrite Hth. fold dir.
  destruct (Z.eqb_spec (getPageAddress mem dir ua) 0) as [E|E].
  { rewrite byte_copy_stop; [done|lia|]. right. by apply user_at_none. }
  pose proof (u2k_loop_spec mem pd dir ua ka n (λ q, exists k, 0 <= k < n /\ mmu mem pd (ka + k) = Some q) Hua Hka) as Hl.
  specialize (Hl ltac:(intros p (k & Hk' & Hq); by apply (Ha k)) Hk (fuel n) 0 mem).
  rewrite !Z.add_0_r, Z.sub_0_r in Hl. apply Hl; [done|lia|done|unfold fuel; lia| |eauto].
  pose proof (fuel_enough n (getOffset ua) ltac:(lia) (getOffset_range ua)). lia.
Qed.

Lemma strncpy_u2k_spec :
  apart mem pd dir ua ka n (mmu mem pd) ka ->
  strncpy_u2k mem pd th ka ua n = Some (byte_strncpy (Z.to_nat n) (mmu mem pd) (user_at mem dir) ka ua 0 mem).
Proof.
  intros Ha. unfold strncpy_u2k. rewrite Hth. fold dir.
  destruct (Z.eqb_spec (getPageAddress mem dir ua) 0) as [E|E].
  { rewrite byte_strncpy_stop; [done|lia|]. right. by apply user_at_none. }
  pose proof (strncpy_loop_spec mem pd dir ua ka n (λ q, exists k, 0 <= k < n /\ mmu mem pd (ka + k) = Some q) Hua Hka) as Hl.
  specialize (Hl ltac:(intros p (k & Hk' & Hq); by apply (Ha k)) Hk (fuel n) 0 mem).
  rewrite !Z.add_0_r, Z.sub_0_r in Hl. apply Hl; [done|lia|done|unfold fuel; lia| |eauto].
  pose proof (fuel_enough n (getOffset ua) ltac:(lia) (getOffset_range ua)). lia.
Qed.

End Whole.

(** ** What a byte-wise copy does *)

Lemma byte_copy_frame m tw tr : forall w r mem x,
  (forall k, 0 <= k < Z.of_nat m -> tw (w + k) ≠ Some x) -> ld8 (byte_copy m tw tr w r mem).2 x = ld8 mem x.
Proof.
  induction m as [|m IH]; intros w r mem x Hx; [done|]. cbn [byte_copy].
  destruct (tw w) as [pw|] eqn:Ew; [|done]. destruct (tr r) as [pr|]; [|done]. rewrite IH.
  - rewrite ld8_st8, decide_False; [done|]. intros ->. apply (Hx 0); [lia|]. by rewrite Z.add_0_r.
  - intros k Hk. replace (w + 1 + k) with (w + (k + 1)) by lia. apply Hx. lia.
Qed.

Lemma byte_copy_data m tw tr : forall w r mem dw dr,
  (forall k, 0 <= k < Z.of_nat m -> tw (w + k) = Some (dw k) /\ tr (r + k) = Some (dr k)) ->
  (forall j k, 0 <= j < Z.of_nat m -> 0 <= k < Z.of_nat m -> dw j = dw k -> j = k) ->
  (forall j k, 0 <= j < Z.of_nat m -> 0 <= k < Z.of_nat m -> dw j ≠ dr k) ->
  exists mem', byte_copy m tw tr w r mem = (E_OK, mem') /\
    forall k, 0 <= k < Z.of_nat m -> ld8 mem' (dw k) = ld8 mem (dr k).
Proof.
  induction m as [|m IH]; intros w r mem dw dr Ht Hinj Hdis.
  { exists mem. split; [done|]. intros; lia. }
  destruct (Ht 0) as [Hw Hr]; [lia|]. rewrite Z.add_0_r in Hw, Hr. cbn [byte_copy]. rewrite Hw, Hr.
  destruct (IH (w + 1) (r + 1) (st8 mem (dw 0) (ld8 mem (dr 0))) (λ k, dw (k + 1)) (λ k, dr (k + 1))) as (mem' & E & Hd).
  - intros k Hk. replace (w + 1 + k) with (w + (k + 1)) by lia. replace (r + 1 + k) with (r + (k + 1)) by lia. apply Ht. lia.
  - intros j k Hj Hk Ejk. apply Hinj in Ejk; lia.
  - intros j k Hj Hk. apply Hdis; lia.
  - exists mem'. split; [done|]. intros k Hk. destruct (decide (k = 0)) as [->|Hne].
    + change mem' with (E_OK, mem').2. rewrite <- E. rewrite byte_copy_frame, ld8_st8, decide_True, ld8_byte; [done|done|].
      intros k Hk0 Ek. replace (w + 1 + k) with (w + (k + 1)) in Ek by lia. destruct (Ht (k + 1)) as [Ht' _]; [lia|].
      rewrite Ht' in Ek. injection Ek as Ek. apply Hinj in Ek; lia.
    + specialize (Hd (k - 1) ltac:(lia)). cbn beta in Hd. replace (k - 1 + 1) with k in Hd by lia.
      rewrite Hd, ld8_st8, decide_False; [done|]. apply Hdis; lia.
Qed.

Lemma byte_copy_words m tw tr : forall w r mem x,
  (forall k q, 0 <= k < Z.of_nat m -> tw (w + k) = Some q -> word_at q ≠ x) -> (byte_copy m tw tr w r mem).2 x = mem x.
Proof.
  induction m as [|m IH]; intros w r mem x Hx; [done|]. cbn [byte_copy].
  destruct (tw w) as [pw|] eqn:Ew; [|done]. destruct (tr r) as [pr|]; [|done]. rewrite IH.
  - rewrite st8_other; [done|]. apply (Hx 0); [lia|]. by rewrite Z.add_0_r.
  - intros k q Hk. replace (w + 1 + k) with (w + (k + 1)) by lia. apply Hx. lia.
Qed.

(** ** Properties *)

(** C34: the copies between address spaces take page after page, translating
    only where a page begins, and yet move every byte to where the processor
    finds it: both copies are the byte-wise copy through the page tables,
    which stops with [E_PAR] at the first user byte that is not mapped, and
    the copy of a string is the byte-wise one, with the count of the bytes
    before the terminator.  The loops end for every length.  The thread is one
    of a process, the kernel's side of the copy is mapped, and neither side
    overlaps the entries of the page tables that translate the two ranges
    ([apart]). *)
Theorem copies_bytewise mem pd th ua ka n :
  let dir := kern_p2v (cr3 (mpu th)) in
  is_kthread th = false -> 0 < n -> 0 <= ua /\ ua + n <= 2 ^ 32 -> 0 <= ka /\ ka + n <= 2 ^ 32 ->
  (forall j, 0 <= j < n -> is_Some (mmu mem pd (ka + j))) ->
  apart mem pd dir ua ka n (user_at mem dir) ua -> apart mem pd dir ua ka n (mmu mem pd) ka ->
  memcpy_k2u mem pd th ua ka n = Some (byte_copy (Z.to_nat n) (user_at mem dir) (mmu mem pd) ua ka mem) /\
  memcpy_u2k mem pd th ka ua n = Some (byte_copy (Z.to_nat n) (mmu mem pd) (user_at mem dir) ka ua mem) /\
  strncpy_u2k mem pd th ka ua n = Some (byte_strncpy (Z.to_nat n) (mmu mem pd) (user_at mem dir) ka ua 0 mem).
Proof.
  intros dir Hth Hn Hua Hka Hk H1 H2.
  split_and!; [by apply memcpy_k2u_spec|by apply memcpy_u2k_spec|by apply strncpy_u2k_spec].
Qed.

(** Walks do not notice a copy that stays off their words. *)
Lemma byte_copy_user_at m tw tr w r mem dir a :
  (forall k q, 0 <= k < Z.of_nat m -> tw (w + k) = Some q -> ~ walked mem dir a (word_at q)) ->
  user_at (byte_copy m tw tr w r mem).2 dir a = user_at mem dir a /\
  forall x, walked (byte_copy m tw tr w r mem).2 dir a x -> walked mem dir a x.
Proof.
  intros Hw. assert (Hag : forall x, walked mem dir a x -> (byte_copy m tw tr w r mem).2 x = mem x).
  { intros x Hx. apply byte_copy_words. intros k q Hk Hq <-. by eapply Hw. }
  unfold user_at. rewrite (walk_agree mem _ dir a) by done. split; [done|].
  unfold walked, word. rewrite (Hag (dir + 4 * getDirectoryOffset a)) by (by left). done.
Qed.

(** A message put into the memory of a user thread and fetched back from
    there is the message that was sent, whatever pages it spans, and nothing
    but the thread's bytes and the buffer it is fetched to has changed. *)
Theorem message_roundtrip mem pd th ua ka kb n (up : Z -> Z) :
  let dir := kern_p2v (cr3 (mpu th)) in
  is_kthread th = false -> 0 < n -> 0 <= ua /\ ua + n <= SUPERVISOR_START ->
  SUPERVISOR_START <= ka /\ ka + n <= 2 ^ 32 -> SUPERVISOR_START <= kb /\ kb + n <= 2 ^ 32 ->
  (forall k, 0 <= k < n -> user_at mem dir (ua + k) = Some (up k)) ->
  (forall j k, 0 <= j < n -> 0 <= k < n -> up j = up k -> j = k) ->
  (forall j k, 0 <= j < n -> 0 <= k < n -> up j ≠ ka + k /\ up j ≠ kb + k) ->
  (forall j k, 0 <= j < n -> 0 <= k < n -> ~ walked mem dir (ua + j) (word_at (up k)) /\ ~ walked mem dir (ua + j) (word_at (kb + k))) ->
  exists m1 m2, memcpy_k2u mem pd th ua ka n = Some (E_OK, m1) /\ memcpy_u2k m1 pd th kb ua n = Some (E_OK, m2) /\
    (forall k, 0 <= k < n -> ld8 m2 (kb + k) = ld8 mem (ka + k)) /\
    (forall x, (forall k, 0 <= k < n -> x ≠ up k /\ x ≠ kb + k) -> ld8 m2 x = ld8 mem x).
Proof.
  intros dir Hth Hn Hua Hka Hkb Hup Hinj Hdis Hwalk.
  assert (Hsup : forall m a, SUPERVISOR_START <= a -> mmu m pd a = Some a) by (intros; by apply kernel_mmu).
  assert (Hap : forall m, (forall j x, 0 <= j < n -> walked m dir (ua + j) x -> walked mem dir (ua + j) x) -> forall b tr a,
    SUPERVISOR_START <= b -> (forall k q, 0 <= k < n -> tr (a + k) = Some q -> q = up k \/ q = kb + k) -> apart m pd dir ua b n tr a).
  { intros m Hm b tr a Hb Htr k q Hk Hq (j & Hj & [Hw|[Hlt _]]); [|lia]. apply Hm in Hw; [|done].
    destruct (Hwalk j k Hj Hk). by destruct (Htr k q Hk Hq) as [-> | ->]. }
  assert (E1 := memcpy_k2u_spec mem pd th ua ka n Hth Hn ltac:(unfold SUPERVISOR_START in *; lia) ltac:(unfold SUPERVISOR_START in *; lia)).
  rewrite E1.
  2:{ intros j Hj. rewrite Hsup by lia. by eexists. }
  2:{ fold dir. apply (Hap mem); [done|lia|]. intros k q Hk Hq. rewrite Hup in Hq by done. left. congruence. }
  fold dir. destruct (byte_copy_data (Z.to_nat n) (user_at mem dir) (mmu mem pd) ua ka mem up (λ k, ka + k)) as (m1 & Eb1 & Hd1).
  { intros k Hk. rewrite Hup, Hsup by lia. done. }
  { intros j k Hj Hk. apply Hinj; lia. }
  { intros j k Hj Hk. apply Hdis; lia. }
  assert (Hpres : forall j, 0 <= j < n -> user_at m1 dir (ua + j) = user_at mem dir (ua + j) /\
    forall x, walked m1 dir (ua + j) x -> walked mem dir (ua + j) x).
  { intros j Hj. change m1 with (E_OK, m1).2. rewrite <- Eb1. apply byte_copy_user_at. intros k q Hk Hq.
    rewrite Hup in Hq by lia. injection Hq as <-. apply Hwalk; lia. }
  assert (E2 := memcpy_u2k_spec m1 pd th ua kb n Hth Hn ltac:(unfold SUPERVISOR_START in *; lia) ltac:(unfold SUPERVISOR_START in *; lia)).
  destruct (byte_copy_data (Z.to_nat n) (mmu m1 pd) (user_at m1 dir) kb ua m1 (λ k, kb + k) up) as (m2 & Eb2 & Hd2).
  { intros k Hk. rewrite (proj1 (Hpres k ltac:(lia))), Hup, Hsup by lia. done. }
  { intros; lia. }
  { intros j k Hj Hk E. destruct (Hdis k j); [lia..|]. done. }
  exists m1, m2. rewrite Eb1, E2; [fold dir; rewrite Eb2|..].
  - split_and!; [done|done|..].
    + intros k Hk. rewrite Hd2, Hd1 by lia. done.
    + intros x Hx. change m2 with (E_OK, m2).2. rewrite <- Eb2, byte_copy_frame.
      * change m1 with (E_OK, m1).2. rewrite <- Eb1. apply byte_copy_frame. intros k Hk.
        rewrite Hup by lia. intros [= E]. destruct (Hx k); [lia|done].
      * intros k Hk. rewrite Hsup by lia. intros [= E]. destruct (Hx k); [lia|done].
  - intros j Hj. rewrite Hsup by lia. by eexists.
  - fold dir. apply (Hap m1); [intros j x Hj; by apply (Hpres j)|lia|]. intros k q Hk Hq. rewrite Hsup in Hq by lia.
    right. congruence.
Qed.

(** ** Witnesses *)

(** A user thread whose directory, at 0x3000, maps the pages of 0x10000 and
    0x11000 to the frames 5 and 6. *)
Definition demo_user : thread_t :=
  Thread 9 TTS_RDY (WaitReason wait_none 0 0 0 0) 4 TIME_QUANTUM (ThreadAttr 4 0x8000c000 0x12000 0x1000 0)
    (Port false 0 0 0 0) (MpuContext 0 0x3000 0 []).

Definition demo_mem : memory := λ x,
  if x =? 0x80003000 then 0x4007
  else if x =? 0x80004040 then 0x5007
  else if x =? 0x80004044 then 0x6007
  else if x =? 0x80009000 then 0x44434241 else 0.

Lemma four k : 0 <= k < 4 -> k = 0 \/ k = 1 \/ k = 2 \/ k = 3.
Proof. lia. Qed.

(** Four bytes from the last two of one page on. *)
Definition demo_at (k : Z) : Z := if k <? 2 then 0x80005ffe + k else 0x80006000 + (k - 2).

Lemma demo_walks j x : 0 <= j < 4 -> walked demo_mem 0x80003000 (0x10ffe + j) x -> x = 0x80003000 \/ x = 0x80004040 \/ x = 0x80004044.
Proof. intros [->|[->|[-> | ->]]]%four [->| ->]; vm_compute; auto. Qed.

Lemma demo_user_at k : 0 <= k < 4 -> user_at demo_mem 0x80003000 (0x10ffe + k) = Some (demo_at k).
Proof. intros [->|[->|[-> | ->]]]%four; reflexivity. Qed.

Lemma demo_apart tr a :
  (forall k q, 0 <= k < 4 -> tr (a + k) = Some q -> word_at q ≠ 0x80003000 /\ word_at q ≠ 0x80004040 /\ word_at q ≠ 0x80004044) ->
  apart demo_mem 0x2000 0x80003000 0x10ffe 0x80009000 4 tr a.
Proof.
  intros Hq k q Hk Hs (j & Hj & [Hw|[Hlt _]]); [|unfold SUPERVISOR_START in Hlt; lia].
  destruct (Hq k q Hk Hs) as (?&?&?). by destruct (demo_walks _ _ Hj Hw) as [?|[?|?]].
Qed.

Lemma copies_bytewise_witness :
  memcpy_k2u demo_mem 0x2000 demo_user 0x10ffe 0x80009000 4 =
    Some (byte_copy 4 (user_at demo_mem 0x80003000) (mmu demo_mem 0x2000) 0x10ffe 0x80009000 demo_mem).
Proof.
  refine (proj1 (copies_bytewise demo_mem 0x2000 demo_user 0x10ffe 0x80009000 4 _ _ _ _ _ _ _)).
  - reflexivity.
  - lia.
  - lia.
  - lia.
  - intros j Hj. rewrite kernel_mmu by (unfold SUPERVISOR_START; lia). by eexists.
  - apply demo_apart. intros k q Hk. change (kern_p2v _) with 0x80003000. rewrite demo_user_at by done. intros [= <-].
    destruct (four k Hk) as [->|[->|[-> | ->]]]; vm_compute; lia.
  - apply demo_apart. intros k q Hk. rewrite kernel_mmu by (unfold SUPERVISOR_START; lia). intros [= <-].
    destruct (four k Hk) as [->|[->|[-> | ->]]]; vm_compute; lia.
Defined.

Lemma message_roundtrip_witness :
  exists m1 m2, memcpy_k2u demo_mem 0x2000 demo_user 0x10ffe 0x80009000 4 = Some (E_OK, m1) /\
    memcpy_u2k m1 0x2000 demo_user 0x8000a001 0x10ffe 4 = Some (E_OK, m2) /\
    (forall k, 0 <= k < 4 -> ld8 m2 (0x8000a001 + k) = ld8 demo_mem (0x80009000 + k)) /\
    (forall x, (forall k, 0 <= k < 4 -> x ≠ demo_at k /\ x ≠ 0x8000a001 + k) -> ld8 m2 x = ld8 demo_mem x).
Proof.
  refine (message_roundtrip demo_mem 0x2000 demo_user 0x10ffe 0x80009000 0x8000a001 4 demo_at _ _ _ _ _ _ _ _ _).
  - reflexivity.
  - lia.
  - unfold SUPERVISOR_START. lia.
  - unfold SUPERVISOR_START. lia.
  - unfold SUPERVISOR_START. lia.
  - intros k Hk. apply (demo_user_at k Hk).
  - intros j k [->|[->|[-> | ->]]]%four [->|[->|[-> | ->]]]%four; vm_compute; congruence.
  - intros j k [->|[->|[-> | ->]]]%four [->|[->|[-> | ->]]]%four; vm_compute; split; congruence.
  - intros j k Hj Hk. split; intros Hw; apply (demo_walks j _ Hj) in Hw; revert Hw;
      destruct (four k Hk) as [->|[->|[-> | ->]]]; vm_compute; intros [?|[?|?]]; congruence.
Defined.
