(* ===== verification/VPages.v ===== *)
(** * Address spaces: page tables of processes (drivers/i686/memory.c)

    Creation of a page directory, mapping, sharing, copying and unmapping of
    user pages, and the move of the arguments to a new stack.  The state is
    the map of the physical pages with the memory, [Palloc]'s. *)

From S2P Require Import Prelude Bitmap Palloc KTypes VMem.

Definition EADDRINUSE : Z := 3.
Definition EFAULT : Z := 21.
Definition EINVAL : Z := 28.
Definition ENOMEM : Z := 49.
Definition W_OK : Z := 2.
Definition sizeof_PTE : Z := 4.

(** The memory map and the memory. *)
Definition machine : Type := MemoryMap * memory.

Definition convert_attr (permission : Z) : Z :=
  if negb (Z.land permission W_OK =? 0) then ATTR_USER else ATTR_USER_READ_ONLY.

(** [t[i] = v]. *)
Definition put_word (s : machine) (t i v : Z) : machine := (s.1, store s.2 (t + 4 * i) v).

Definition page_alloc (s : machine) : option (Z * machine) :=
  '(p, mm, mem) ← palloc s.1 s.2; Some (p, (mm, mem)).

Definition page_free (s : machine) (p : Z) : option machine :=
  mm ← pfree s.1 p; Some (mm, s.2).

Fixpoint copy_page_loop (n : nat) (i dest src : Z) (mem : memory) : memory :=
  match n with
  | O => mem
  | S n => copy_page_loop n (i + 1) dest src (store mem (dest + 4 * i) (word mem src i))
  end.

Definition copy_page (dest src : Z) (mem : memory) : memory :=
  copy_page_loop (Z.to_nat (PAGE_SIZE / 4)) 0 dest src mem.

(** [memset] of lib/libnc/string, on kernel addresses. *)
Fixpoint memset (n : nat) (s c : Z) (mem : memory) : memory :=
  match n with
  | O => mem
  | S n => memset n (s + 1) c (st8 mem s (Z.land c 0xff))
  end.

(** ** A new directory *)

Definition copy_kernel_page_table (s : machine) : option (Z * machine) :=
  '(directory, s) ← page_alloc s;
  if directory =? 0 then Some (0, s)
  else
    let n := getDirectoryOffset SUPERVISOR_START * sizeof_PTE in
    let mem := memset (Z.to_nat n) directory 0 s.2 in
    mem ← memcpy (Z.to_nat (PAGE_SIZE - n)) 0 (directory + n) (kern_p2v KTHREAD_DIR_ADDR + n) mem;
    Some (kern_v2p directory, (s.1, mem)).

(** The range check of the functions that have one. *)
Definition out_of_user (addr n : Z) : bool :=
  (SUPERVISOR_START <=? addr) || (pages (SUPERVISOR_START - addr) <? n).

(** The loops take one directory entry a turn. *)
Definition turns (n : Z) : nat := S (S (Z.to_nat (n / PTE_PER_PAGE))).

(** The last page of this turn. *)
Definition turn_max (offset rest : Z) : Z :=
  if rest <? PTE_PER_PAGE - offset then offset + rest else PTE_PER_PAGE.

(** A table for the entry [i] of a directory: its physical address, [None]
    where there is no memory. *)
Definition new_table (s : machine) (dir i : Z) : option (option Z * machine) :=
  '(p, s) ← page_alloc s;
  let page := kern_v2p p in
  if page =? 0 then Some (None, s) else Some (Some page, put_word s dir i (calc_pte page ATTR_USER)).

(** [dest_page] for the entry [i]. *)
Definition dest_table (s : machine) (dest_dir i : Z) : option (option Z * machine) :=
  let dest_page := word s.2 dest_dir i in
  if negb (dest_page =? 0) then Some (Some (Z.land dest_page PAGE_ADDR_MASK), s) else new_table s dest_dir i.

(** ** Copying pages *)

(** [f] pages from the [j]-th of the tables on. *)
Fixpoint copy_pages_loop (f : nat) (j dest_page src_page attr : Z) (s : machine) : option (Z * machine) :=
  match f with
  | O => Some (0, s)
  | S f =>
      if negb (is_present (word s.2 src_page j)) then Some (EFAULT, s)
      else if negb (word s.2 dest_page j =? 0) then Some (EADDRINUSE, s)
      else
        '(p, s) ← page_alloc s;
        let p := kern_v2p p in
        if p =? 0 then Some (ENOMEM, s)
        else
          let s := put_word s dest_page j (calc_pte p attr) in
          let from := kern_p2v (Z.land (word s.2 src_page j) PAGE_ADDR_MASK) in
          copy_pages_loop f (j + 1) dest_page src_page attr (s.1, copy_page (kern_p2v p) from s.2)
  end.

Fixpoint copy_user_loop (f : nat) (i offset rest dest_dir src_dir attr : Z) (s : machine) : option (Z * machine) :=
  if rest =? 0 then Some (0, s)
  else
    match f with
    | O => None
    | S f =>
        if negb (is_present (word s.2 src_dir i)) then Some (EFAULT, s)
        else
          let mx := turn_max offset rest in
          '(dest_page, s) ← dest_table s dest_dir i;
          match dest_page with
          | None => Some (ENOMEM, s)
          | Some dest_page =>
              let src_page := kern_p2v (Z.land (word s.2 src_dir i) PAGE_ADDR_MASK) in
              '(e, s) ← copy_pages_loop (Z.to_nat (mx - offset)) offset (kern_p2v dest_page) src_page attr s;
              if negb (e =? 0) then Some (e, s)
              else copy_user_loop f (i + 1) 0 (rest - (mx - offset)) dest_dir src_dir attr s
          end
    end.

Definition copy_user_pages (s : machine) (dest src addr n permission : Z) : option (Z * machine) :=
  if out_of_user addr n then Some (EINVAL, s)
  else copy_user_loop (turns n) (getDirectoryOffset addr) (getPageOffset addr) n (kern_p2v dest) (kern_p2v src)
         (convert_attr permission) s.

(** ** Sharing pages *)

Fixpoint attach_pages_loop (f : nat) (j dest_page src_page attr : Z) (s : machine) : option (Z * machine) :=
  match f with
  | O => Some (0, s)
  | S f =>
      if negb (is_present (word s.2 src_page j)) then Some (EFAULT, s)
      else if negb (word s.2 dest_page j =? 0) then Some (EADDRINUSE, s)
      else
        let pte := Z.lor (Z.land (word s.2 src_page j) PAGE_ADDR_MASK) attr in
        attach_pages_loop f (j + 1) dest_page src_page attr (put_word s dest_page j pte)
  end.

Fixpoint attach_user_loop (f : nat) (i offset rest dest_dir src_dir attr : Z) (s : machine) : option (Z * machine) :=
  if rest =? 0 then Some (0, s)
  else
    match f with
    | O => None
    | S f =>
        if negb (is_present (word s.2 src_dir i)) then Some (EFAULT, s)
        else
          let mx := turn_max offset rest in
          '(dest_page, s) ← dest_table s dest_dir i;
          match dest_page with
          | None => Some (ENOMEM, s)
          | Some dest_page =>
              let src_page := kern_p2v (Z.land (word s.2 src_dir i) PAGE_ADDR_MASK) in
              '(e, s) ← attach_pages_loop (Z.to_nat (mx - offset)) offset (kern_p2v dest_page) src_page attr s;
              if negb (e =? 0) then Some (e, s)
              else attach_user_loop f (i + 1) 0 (rest - (mx - offset)) dest_dir src_dir attr s
          end
    end.

Definition attach_user_pages (s : machine) (dest src addr n permission : Z) : option (Z * machine) :=
  if out_of_user addr n then Some (EINVAL, s)
  else attach_user_loop (turns n) (getDirectoryOffset addr) (getPageOffset addr) n (kern_p2v dest) (kern_p2v src)
         (convert_attr permission) s.

(** ** Mapping new pages *)

(** At most [f] pages from the [j]-th of the table on, [n] being left; what is
    left then. *)
Fixpoint map_pages_loop (f : nat) (page j n attr : Z) (s : machine) : option (Z * Z * machine) :=
  match f with
  | O => Some (E_OK, n, s)
  | S f =>
      if n =? 0 then Some (E_OK, n, s)
      else if is_present (word s.2 page j) then map_pages_loop f page (j + 1) (n - 1) attr s
      else
        '(p, s) ← page_alloc s;
        let p := kern_v2p p in
        if p =? 0 then Some (E_NOMEM, n, s)
        else map_pages_loop f page (j + 1) (n - 1) attr (put_word s page j (calc_pte p attr))
  end.

Definition user_table (s : machine) (dir i : Z) : option (option Z * machine) :=
  let page := word s.2 dir i in
  if is_present page then Some (Some (Z.land page PAGE_ADDR_MASK), s) else new_table s dir i.

Fixpoint map_user_loop (f : nat) (dir i j n attr : Z) (s : machine) : option (Z * machine) :=
  if n =? 0 then Some (E_OK, s)
  else
    match f with
    | O => None
    | S f =>
        '(page, s) ← user_table s dir i;
        match page with
        | None => Some (E_NOMEM, s)
        | Some page =>
            '(e, n, s) ← map_pages_loop (Z.to_nat (PTE_PER_PAGE - j)) (kern_p2v page) j n attr s;
            if negb (e =? E_OK) then Some (e, s) else map_user_loop f dir (i + 1) 0 n attr s
        end
    end.

Definition map_user_pages (s : machine) (dir addr cnt permission : Z) : option (Z * machine) :=
  let n := getDirectoryOffset SUPERVISOR_START * PTE_PER_PAGE in
  let i := Z.land (Z.shiftr addr (BITS_PAGE + BITS_OFFSET)) MASK_PAGE in
  let j := Z.land (Z.shiftr addr BITS_OFFSET) MASK_PAGE in
  let n := if cnt <? n then cnt else n in
  map_user_loop (turns n) (kern_p2v dir) i j n (convert_attr permission) s.

(** ** Unmapping *)

(** Whether a page of [f] from the [j]-th of the table on is present. *)
Fixpoint exists_page (f : nat) (page j : Z) (mem : memory) : bool :=
  match f with
  | O => false
  | S f => if is_present (word mem page j) then true else exists_page f page (j + 1) mem
  end.

(** [release]: whether the pages are given back too. *)
Fixpoint unmap_pages_loop (f : nat) (release : bool) (dest_page j : Z) (s : machine) : option machine :=
  match f with
  | O => Some s
  | S f =>
      let p := word s.2 dest_page j in
      s ← (if is_present p then
             let s := put_word s dest_page j 0 in
             if release then page_free s (Z.land p PAGE_ADDR_MASK) else Some s
           else Some s);
      unmap_pages_loop f release dest_page (j + 1) s
  end.

(** The pages [offset, mx) of the table [i], and the table if it is empty then. *)
Definition unmap_table (release : bool) (i offset mx dest_dir : Z) (s : machine) : option machine :=
  if negb (is_present (word s.2 dest_dir i)) then Some s
  else
    let dest_page := kern_p2v (Z.land (word s.2 dest_dir i) PAGE_ADDR_MASK) in
    let before := exists_page (Z.to_nat offset) dest_page 0 s.2 in
    s ← unmap_pages_loop (Z.to_nat (mx - offset)) release dest_page offset s;
    if before || exists_page (Z.to_nat (PTE_PER_PAGE - mx)) dest_page mx s.2 then Some s
    else page_free (put_word s dest_dir i 0) dest_page.

Fixpoint unmap_user_loop (f : nat) (release : bool) (i offset rest dest_dir : Z) (s : machine) : option (Z * machine) :=
  if rest =? 0 then Some (0, s)
  else
    match f with
    | O => None
    | S f =>
        let mx := turn_max offset rest in
        s ← unmap_table release i offset mx dest_dir s;
        unmap_user_loop f release (i + 1) 0 (rest - (mx - offset)) dest_dir s
    end.

Definition unmap_user_pages (s : machine) (dir addr n : Z) : option (Z * machine) :=
  if out_of_user addr n then Some (EINVAL, s)
  else unmap_user_loop (turns n) true (getDirectoryOffset addr) (getPageOffset addr) n (kern_p2v dir) s.

Definition detach_user_pages (s : machine) (dir addr n : Z) : option (Z * machine) :=
  if out_of_user addr n then Some (EINVAL, s)
  else unmap_user_loop (turns n) false (getDirectoryOffset addr) (getPageOffset addr) n (kern_p2v dir) s.

(** ** The stack of a new program *)

(** [w] and [r] are behind the last byte. *)
Fixpoint memrcpy (len : nat) (w r : Z) (mem : memory) : memory :=
  match len with
  | O => mem
  | S len => memrcpy len (w - 1) (r - 1) (st8 mem (w - 1) (ld8 mem (r - 1)))
  end.

Fixpoint move_stack_loop (f : nat) (dir to from left roffset woffset q : Z) (mem : memory) : option (Z * memory) :=
  if left =? 0 then Some (E_OK, mem)
  else
    match f with
    | O => None
    | S f =>
        let p := getPageAddress mem dir (u32 (to + left - 1)) in
        if p =? 0 then Some (E_PAR, mem)
        else
          let len := if left <? roffset then left else roffset in
          let mem := if roffset =? 0 then mem else memrcpy (Z.to_nat len) (p + PAGE_SIZE) (q + roffset) mem in
          let left := if roffset =? 0 then left else left - len in
          if left =? 0 then Some (E_OK, mem)
          else
            let q := getPageAddress mem dir (u32 (from + left - 1)) in
            if q =? 0 then Some (E_PAR, mem)
            else
              let len := if left <? woffset then left else woffset in
              let mem := memrcpy (Z.to_nat len) (p + woffset) (q + PAGE_SIZE) mem in
              move_stack_loop f dir to from (left - len) roffset woffset q mem
    end.

(** The first case reads the kernel's own memory. *)
Definition move_stack (mem : memory) (page_table to from bytes : Z) : option (Z * memory) :=
  let dir := kern_p2v page_table in
  if SUPERVISOR_START <=? from then
    let offset := getOffset to in
    if PAGE_SIZE - offset <? bytes then Some (E_PAR, mem)
    else
      let p := getPageAddress mem dir to in
      if p =? 0 then Some (E_PAR, mem)
      else Some (0, memrcpy (Z.to_nat bytes) (Z.lor p offset) from mem)
  else
    let roffset := getOffset (u32 (from + bytes)) in
    let woffset := PAGE_SIZE - roffset in
    let q := getPageAddress mem dir (u32 (from + bytes - 1)) in
    if q =? 0 then Some (E_PAR, mem)
    else move_stack_loop (S (S (Z.to_nat (bytes / PAGE_SIZE)))) dir to from bytes roffset woffset q mem.

(** ** Entries and frames *)

(** The word [j] of the frame [f]. *)
Definition wd (s : machine) (f j : Z) : Z := word s.2 (page_addr f) j.

Lemma is_present_odd z : is_present z = Z.odd z.
Proof.
  unfold is_present. change PAGE_PRESENT with (Z.ones 1). rewrite Z.land_ones by lia. change (2 ^ 1) with 2.
  rewrite (Zmod_odd z). by destruct (Z.odd z).
Qed.

Lemma mask_entry f a : 0 <= f < 2 ^ 20 -> 0 <= a < PAGE_SIZE -> Z.land (f * PAGE_SIZE + a) PAGE_ADDR_MASK = f * PAGE_SIZE.
Proof.
  intros Hf Ha. change PAGE_ADDR_MASK with (Z.shiftl (Z.ones 20) 12).
  unfold PAGE_SIZE in *. change 4096 with (2 ^ 12) in *.
  apply Z.bits_inj'. intros i Hi. rewrite Z.land_spec, Z.shiftl_spec by done.
  destruct (decide (12 <= i)).
  - rewrite Z.testbit_ones by lia. replace (0 <=? i - 12) with true by (symmetry; apply Z.leb_le; lia). cbn [andb].
    assert (E : Z.testbit (f * 2 ^ 12 + a) i = Z.testbit f (i - 12)).
    { replace i with ((i - 12) + 12) at 1 by lia. rewrite <- Z.shiftr_spec by lia.
      rewrite Z.shiftr_div_pow2, Z.div_add_l, (Z.div_small a) by lia. by rewrite Z.add_0_r. }
    rewrite E, Z.mul_pow2_bits by lia. destruct (Z.ltb_spec (i - 12) 20); [apply andb_true_r|]. rewrite andb_false_r.
    symmetry. rewrite <- (Z.mod_small f (2 ^ 20)) by lia. apply Z.mod_pow2_bits_high. lia.
  - rewrite (Z.testbit_neg_r _ (i - 12)), andb_false_r by lia. symmetry. rewrite Z.mul_pow2_bits by lia.
    apply Z.testbit_neg_r. lia.
Qed.

Lemma p2v_frame f : 0 <= f < 2 ^ 19 -> kern_p2v (f * PAGE_SIZE) = page_addr f.
Proof.
  intros Hf. rewrite <- (kern_p2v_frame f Hf). f_equal. rewrite Z.shiftl_mul_pow2 by (by vm_compute).
  rewrite u32_small; [done|]. unfold is_u32. change (2 ^ BITS_OFFSET) with 4096. lia.
Qed.

Lemma v2p_frame f : 0 <= f < 2 ^ 19 -> kern_v2p (page_addr f) = f * PAGE_SIZE.
Proof. intros Hf. rewrite <- (Z.add_0_r (page_addr f)), kern_v2p_frame; [lia|done|by vm_compute]. Qed.

Lemma calc_pte_entry f attr : 0 <= attr < PAGE_SIZE -> calc_pte (f * PAGE_SIZE) attr = f * PAGE_SIZE + attr.
Proof.
  intros Ha. unfold calc_pte, PAGE_SIZE in *. change 4096 with (2 ^ 12) in *. rewrite <- Z.shiftl_mul_pow2 by lia.
  rewrite lor_shiftl_add by lia. rewrite Z.shiftl_mul_pow2 by lia. lia.
Qed.

(** The words of frames are apart. *)
Lemma word_inj f j f' j' :
  0 <= j < PTE_PER_PAGE -> 0 <= j' < PTE_PER_PAGE -> page_addr f + 4 * j = page_addr f' + 4 * j' -> f = f' /\ j = j'.
Proof. unfold page_addr, PAGE_SIZE, PTE_PER_PAGE. lia. Qed.

Lemma wd_put s t i v f j :
  0 <= i < PTE_PER_PAGE -> 0 <= j < PTE_PER_PAGE ->
  wd (put_word s (page_addr t) i v) f j = if decide (f = t /\ j = i) then v else wd s f j.
Proof.
  intros Hi Hj. unfold wd, word, put_word, store. cbn [fst snd].
  destruct (Z.eqb_spec (page_addr f + 4 * j) (page_addr t + 4 * i)) as [E|E].
  - apply word_inj in E; [|done|done]. by rewrite decide_True.
  - rewrite decide_False; [done|]. intros [-> ->]. done.
Qed.

Notation free s := (free_pages (fst s)).
Implicit Types s : machine.

Lemma free_lt (s : machine) f : palloc_wf s.1 -> f ∈ free s -> 0 <= f < 2 ^ 19.
Proof.
  intros (Hw & Hn & Hb & _) Hf. pose proof (free_bits_lt _ _ Hf). lia.
Qed.

(** A new page: cleared, and out of the free ones. *)
Lemma page_alloc_spec s :
  palloc_wf s.1 ->
  (free s = ∅ /\ page_alloc s = Some (0, s)) \/
  (exists k s', page_alloc s = Some (page_addr k, s') /\ k ∈ free s /\ 0 <= k < 2 ^ 19 /\ free s' = free s ∖ {[k]} /\
     palloc_wf s'.1 /\ forall f j, 0 <= j < PTE_PER_PAGE -> wd s' f j = if decide (f = k) then 0 else wd s f j).
Proof.
  destruct s as [mm mem]. intros Hwf. unfold page_alloc. cbn [fst snd].
  destruct (palloc_spec mm mem Hwf) as [[He ->]|(k & mm' & mem' & -> & Hk & _ & Hf & Hwf' & Hmem)]; [by left|right].
  exists k, (mm', mem'). split; [done|]. split; [done|]. split; [by apply (free_lt (mm, mem))|]. split; [done|]. split; [done|].
  intros f j Hj. unfold wd, word. cbn [snd]. rewrite Hmem. unfold page_addr, PAGE_SIZE, PTE_PER_PAGE in *.
  destruct (decide (f = k)) as [->|Hne].
  - rewrite decide_True; [done|]. split; [lia|]. replace (_ - _) with (j * 4) by lia. apply Z.mod_mul. lia.
  - rewrite decide_False; [done|]. lia.
Qed.

(** ** Address spaces *)

(** The entry of a frame [f] with the attributes [a], present. *)
Definition is_entry (e f a : Z) : Prop := 0 < f < 2 ^ 19 /\ 0 <= a < PAGE_SIZE /\ Z.odd a = true /\ e = f * PAGE_SIZE + a.

Lemma entry_present e f a : is_entry e f a -> is_present e = true /\ e ≠ 0 /\ kern_p2v (Z.land e PAGE_ADDR_MASK) = page_addr f.
Proof.
  intros (Hf & Ha & Ho & ->). rewrite is_present_odd, mask_entry, p2v_frame by lia. split_and!; [|unfold PAGE_SIZE in *; lia|done].
  rewrite Z.odd_add, Z.odd_mul, Ho. change (Z.odd PAGE_SIZE) with false. by rewrite andb_false_r.
Qed.

(** The directory in the frame [d], with the tables [tb]: user pages only. *)
Record aspace_at (s : machine) (d : Z) (tb : gmap Z Z) : Prop := {
  as_wf : palloc_wf s.1;
  as_zero : 0 ∉ free s;
  as_dir : 0 < d < 2 ^ 19 /\ d ∉ free s;
  as_none i : 0 <= i < 512 -> tb !! i = None -> wd s d i = 0;
  as_table i t : tb !! i = Some t -> 0 <= i < 512 /\ t ∉ free s /\ t ≠ d /\ exists a, is_entry (wd s d i) t a;
  as_inj i i' t : tb !! i = Some t -> tb !! i' = Some t -> i = i';
  as_page i t j : tb !! i = Some t -> 0 <= j < PTE_PER_PAGE ->
    wd s t j = 0 \/ exists f a, is_entry (wd s t j) f a /\ f ∉ free s /\ f ≠ d /\ forall i', tb !! i' ≠ Some f;
}.

(** The entry of the page [v] of user space, by the processor's walk. *)
Definition page_entry (s : machine) (d v : Z) : Z :=
  let e := wd s d (v / PTE_PER_PAGE) in
  if is_present e then word s.2 (kern_p2v (Z.land e PAGE_ADDR_MASK)) (v mod PTE_PER_PAGE) else 0.

Lemma vpn_split v : 0 <= v < 2 ^ 19 -> 0 <= v / PTE_PER_PAGE < 512 /\ 0 <= v mod PTE_PER_PAGE < PTE_PER_PAGE.
Proof.
  unfold PTE_PER_PAGE. intros Hv. split; [|apply Z.mod_pos_bound; lia].
  split; [apply Z.div_pos; lia|apply Z.div_lt_upper_bound; lia].
Qed.

Lemma vpn_of i j : 0 <= j < PTE_PER_PAGE ->
  (i * PTE_PER_PAGE + j) / PTE_PER_PAGE = i /\ (i * PTE_PER_PAGE + j) mod PTE_PER_PAGE = j.
Proof. intros Hj. rewrite Z.add_comm, Z.div_add, Z.mod_add, Z.div_small, Z.mod_small by (done || lia). lia. Qed.

Lemma page_entry_at s d tb v :
  aspace_at s d tb -> 0 <= v < 2 ^ 19 ->
  page_entry s d v = match tb !! (v / PTE_PER_PAGE) with Some t => wd s t (v mod PTE_PER_PAGE) | None => 0 end.
Proof.
  intros HA Hv. unfold page_entry. destruct (tb !! (v / PTE_PER_PAGE)) as [t|] eqn:E.
  - destruct (as_table _ _ _ HA _ _ E) as (_ & _ & _ & a & He). by destruct (entry_present _ _ _ He) as (-> & _ & ->).
  - rewrite (as_none _ _ _ HA) by (done || by apply vpn_split). done.
Qed.

(** ** Growth of an address space *)

(** From [s] to [s'] the space has only grown, by pages of [lo, hi) with the
    attributes [attr], each on a free frame of its own, the page [v] with the
    contents [cont v]; nothing else
    that is in use has changed. *)
Record grown (cont : Z -> Z -> Z) (attr lo hi d : Z) (s : machine) (tb : gmap Z Z) (s' : machine) (tb' : gmap Z Z) : Prop := {
  gr_ok : aspace_at s' d tb';
  gr_free : free s' ⊆ free s;
  gr_tables i t : tb' !! i = Some t -> tb !! i = Some t \/ t ∈ free s;
  gr_keep i t : tb !! i = Some t -> tb' !! i = Some t;
  gr_old v : 0 <= v < 2 ^ 19 -> page_entry s d v ≠ 0 \/ ~ (lo <= v < hi) -> page_entry s' d v = page_entry s d v;
  gr_new v : 0 <= v < 2 ^ 19 -> page_entry s d v = 0 -> page_entry s' d v ≠ 0 ->
    exists f, f ∈ free s /\ f ∉ free s' /\ is_entry (page_entry s' d v) f attr /\ forall j, 0 <= j < PTE_PER_PAGE -> wd s' f j = cont v j;
  gr_apart v v' : 0 <= v < 2 ^ 19 -> 0 <= v' < 2 ^ 19 -> page_entry s d v = 0 -> page_entry s d v' = 0 ->
    page_entry s' d v ≠ 0 -> page_entry s' d v = page_entry s' d v' -> v = v';
  gr_frame f j : 0 <= j < PTE_PER_PAGE -> f ∉ free s -> f ≠ d -> (forall i, tb !! i ≠ Some f) -> wd s' f j = wd s f j;
}.

Lemma grown_refl cont attr lo hi d s tb : aspace_at s d tb -> grown cont attr lo hi d s tb s tb.
Proof. intros HA. split; try done; [by left|congruence..]. Qed.

Lemma is_entry_inj e f a f' a' : is_entry e f a -> is_entry e f' a' -> f = f' /\ a = a'.
Proof. intros (?&?&?&->) (?&?&?&E). unfold PAGE_SIZE in *. lia. Qed.

(** The frame of a mapped page is in use, and is neither the directory nor a
    table. *)
Lemma page_entry_frame s d tb v :
  aspace_at s d tb -> 0 <= v < 2 ^ 19 -> page_entry s d v ≠ 0 ->
  exists f a, is_entry (page_entry s d v) f a /\ f ∉ free s /\ f ≠ d /\ forall i, tb !! i ≠ Some f.
Proof.
  intros HA Hv. rewrite (page_entry_at s d tb v HA Hv). destruct (tb !! (v / PTE_PER_PAGE)) as [t|] eqn:E; [|done]. intros Hne.
  destruct (as_page _ _ _ HA _ _ (v mod PTE_PER_PAGE) E) as [?|(f & a & ?)]; [by apply vpn_split|done|]. by exists f, a.
Qed.

Lemma grown_trans cont attr lo hi d s tb s1 tb1 s2 tb2 :
  grown cont attr lo hi d s tb s1 tb1 -> grown cont attr lo hi d s1 tb1 s2 tb2 -> grown cont attr lo hi d s tb s2 tb2.
Proof.
  intros H1 H2.
  assert (Hnew : forall v, 0 <= v < 2 ^ 19 -> page_entry s d v = 0 -> page_entry s1 d v ≠ 0 ->
    page_entry s2 d v = page_entry s1 d v /\ exists f, f ∈ free s /\ f ∉ free s1 /\ is_entry (page_entry s1 d v) f attr /\
      forall j, 0 <= j < PTE_PER_PAGE -> wd s2 f j = cont v j).
  { intros v Hv E0 E1. split; [apply (gr_old _ _ _ _ _ _ _ _ _ H2); auto|].
    destruct (gr_new _ _ _ _ _ _ _ _ _ H1 v Hv E0 E1) as (f & Hf & Hf' & He & Hz). exists f. split_and!; try done. intros j Hj.
    destruct (page_entry_frame _ _ _ v (gr_ok _ _ _ _ _ _ _ _ _ H1) Hv E1) as (f' & a' & He' & _ & Hd & Ht).
    destruct (is_entry_inj _ _ _ _ _ He He') as [<- _]. rewrite (gr_frame _ _ _ _ _ _ _ _ _ H2) by done. by apply Hz. }
  split.
  - apply H2.
  - etrans; [apply H2|apply H1].
  - intros i t [Ht|Ht]%(gr_tables _ _ _ _ _ _ _ _ _ H2); [by apply (gr_tables _ _ _ _ _ _ _ _ _ H1) in Ht|].
    right. by apply (gr_free _ _ _ _ _ _ _ _ _ H1).
  - intros i t Ht. by apply H2, H1.
  - intros v Hv Hor. rewrite (gr_old _ _ _ _ _ _ _ _ _ H2) by (try done; rewrite (gr_old _ _ _ _ _ _ _ _ _ H1); done).
    by apply H1.
  - intros v Hv E0 E2. destruct (decide (page_entry s1 d v = 0)) as [E1|E1].
    + destruct (gr_new _ _ _ _ _ _ _ _ _ H2 v Hv E1 E2) as (f & Hf & ?). exists f. split; [|done]. by apply (gr_free _ _ _ _ _ _ _ _ _ H1).
    + destruct (Hnew v Hv E0 E1) as (-> & f & ? & Hn & ? & ?). exists f. split_and!; try done.
      intros Hf. by apply Hn, (gr_free _ _ _ _ _ _ _ _ _ H2).
  - intros v v' Hv Hv' E0 E0' E2 Eq.
    assert (Hx : forall x y, 0 <= x < 2 ^ 19 -> 0 <= y < 2 ^ 19 -> page_entry s d x = 0 -> page_entry s d y = 0 ->
      page_entry s1 d x ≠ 0 -> page_entry s1 d y = 0 -> page_entry s2 d x = page_entry s2 d y -> page_entry s2 d y ≠ 0 -> False).
    { intros x y Hx Hy Ex Ey Hx1 Hy1 Exy Hy2. destruct (Hnew x Hx Ex Hx1) as (E & f & _ & Hf & He & _).
      destruct (gr_new _ _ _ _ _ _ _ _ _ H2 y Hy Hy1 Hy2) as (f' & Hf' & _ & He' & _). rewrite <- Exy, E in He'.
      destruct (is_entry_inj _ _ _ _ _ He He') as [<- _]. done. }
    destruct (decide (page_entry s1 d v = 0)) as [E1|E1], (decide (page_entry s1 d v' = 0)) as [E1'|E1'].
    + by apply (gr_apart _ _ _ _ _ _ _ _ _ H2).
    + exfalso. apply (Hx v' v); try done.
    + exfalso. apply (Hx v v'); try done. by rewrite <- Eq.
    + apply (gr_apart _ _ _ _ _ _ _ _ _ H1); try done. rewrite <- (proj1 (Hnew v Hv E0 E1)), <- (proj1 (Hnew v' Hv' E0' E1')). done.
  - intros f j Hj Hf Hd Ht. rewrite (gr_frame _ _ _ _ _ _ _ _ _ H2); [by apply (gr_frame _ _ _ _ _ _ _ _ _ H1)|done| |done|].
    + intros Hf'. by apply Hf, (gr_free _ _ _ _ _ _ _ _ _ H1).
    + intros i [?|?]%(gr_tables _ _ _ _ _ _ _ _ _ H1); [by eapply Ht|done].
Qed.

(** One more frame [k] in use, with the contents [c], and one word [y] of the frame [x]
    that now refers to it. *)
Section Step.
Context (cont : Z -> Z -> Z) (attr lo hi d : Z) (s : machine) (tb : gmap Z Z) (k a x y : Z) (c : Z -> Z) (s2 : machine).
Hypothesis HA : aspace_at s d tb.
Hypothesis Hk : k ∈ free s.
Hypothesis Hx : x ∉ free s.
Hypothesis Ha : 0 <= a < PAGE_SIZE /\ Z.odd a = true.
Hypothesis Hf2 : free s2 = free s ∖ {[k]}.
Hypothesis Hwf2 : palloc_wf s2.1.
Hypothesis Hwd : forall f j, 0 <= j < PTE_PER_PAGE ->
  wd s2 f j = if decide (f = x /\ j = y) then k * PAGE_SIZE + a else if decide (f = k) then c j else wd s f j.

Lemma step_entry : is_entry (k * PAGE_SIZE + a) k a.
Proof.
  pose proof (free_lt s k (as_wf _ _ _ HA) Hk). assert (k ≠ 0) by (intros ->; by apply (as_zero _ _ _ HA)).
  split; [lia|]. by split_and!; try apply Ha.
Qed.

Lemma step_wd f j : 0 <= j < PTE_PER_PAGE -> f ∉ free s -> ~ (f = x /\ j = y) -> wd s2 f j = wd s f j.
Proof. intros Hj Hf Hne. rewrite Hwd, decide_False, decide_False by (done || by intros ->). done. Qed.

Lemma step_free f : f ∉ free s -> f ∉ free s2.
Proof. rewrite Hf2. set_solver. Qed.

Lemma step_table i :
  0 <= i < 512 -> tb !! i = None -> x = d -> y = i -> (forall j, c j = 0) -> grown cont attr lo hi d s tb s2 (<[i := k]> tb).
Proof.
  intros Hi Hn Ex Ey Hc. pose proof step_entry as He. destruct (as_dir _ _ _ HA) as [Hd Hdf].
  assert (Hkd : k ≠ d) by congruence.
  assert (Htk : forall i' t, tb !! i' = Some t -> t ≠ k).
  { intros i' t Ht ->. by destruct (as_table _ _ _ HA _ _ Ht) as (_ & ? & _). }
  assert (Hpg : forall t j, t ∉ free s -> t ≠ d -> 0 <= j < PTE_PER_PAGE -> wd s2 t j = wd s t j).
  { intros t j Ht Htd Hj. apply step_wd; [done|done|]. intros [-> _]. done. }
  assert (HA2 : aspace_at s2 d (<[i := k]> tb)).
  { split.
    - done.
    - apply step_free, (as_zero _ _ _ HA).
    - split; [done|]. by apply step_free.
    - intros i' Hi' [Hl Hne]%lookup_insert_None. rewrite step_wd; [by apply (as_none _ _ _ HA)|unfold PTE_PER_PAGE; lia|done|].
      intros [_ ->]. congruence.
    - intros i' t [[<- <-]|[Hne Ht]]%lookup_insert_Some.
      + split_and!; [lia|lia|rewrite Hf2; set_solver|done|]. exists a. rewrite Hwd, decide_True by (done || (unfold PTE_PER_PAGE; lia)). done.
      + destruct (as_table _ _ _ HA _ _ Ht) as (? & ? & ? & b & ?). split_and!; [lia|lia|by apply step_free|done|]. exists b.
        rewrite step_wd; [done|unfold PTE_PER_PAGE; lia|done|]. intros [_ ->]. congruence.
    - intros i1 i2 t [[<- <-]|[? H1]]%lookup_insert_Some [[<- E]|[? H2]]%lookup_insert_Some; [done|by apply Htk in H2|subst; by apply Htk in H1|].
      by eapply (as_inj _ _ _ HA).
    - intros i' t j [[<- <-]|[Hne Ht]]%lookup_insert_Some Hj.
      + left. rewrite Hwd, decide_False, decide_True; [apply Hc|done|by intros [-> _]|done].
      + destruct (as_table _ _ _ HA _ _ Ht) as (? & ? & ? & _). rewrite Hpg by done.
        destruct (as_page _ _ _ HA _ _ j Ht Hj) as [?|(f & b & ? & ? & ? & Hft)]; [by left|right]. exists f, b.
        split_and!; [done|by apply step_free|done|]. intros i1 [[<- <-]|[? ?]]%lookup_insert_Some; [done|by eapply Hft]. }
  assert (Hpe : forall v, 0 <= v < 2 ^ 19 -> page_entry s2 d v = page_entry s d v).
  { intros v Hv. rewrite (page_entry_at _ _ _ v HA2 Hv), (page_entry_at _ _ _ v HA Hv). destruct (vpn_split v Hv) as [Hv1 Hv2].
    destruct (decide (v / PTE_PER_PAGE = i)) as [->|Hne].
    - rewrite lookup_insert_eq, Hn, Hwd, decide_False, decide_True; [apply Hc|done| |done]. by intros [-> _].
    - rewrite lookup_insert_ne by done. destruct (tb !! (v / PTE_PER_PAGE)) as [t|] eqn:Et; [|done].
      destruct (as_table _ _ _ HA _ _ Et) as (? & ? & ? & _). by apply Hpg. }
  split.
  - done.
  - rewrite Hf2. set_solver.
  - intros i' t [[<- <-]|[? ?]]%lookup_insert_Some; [by right|by left].
  - intros i' t Ht. rewrite lookup_insert_ne; [done|congruence].
  - intros v Hv _. by apply Hpe.
  - intros v Hv. rewrite Hpe by done. done.
  - intros v v' Hv Hv'. rewrite !Hpe by done. congruence.
  - intros f j Hj Hf Hfd Hft. by apply Hpg.
Qed.

Lemma step_page i j :
  0 <= j < PTE_PER_PAGE -> tb !! i = Some x -> y = j -> a = attr -> wd s x j = 0 -> lo <= i * PTE_PER_PAGE + j < hi ->
  (forall j', 0 <= j' < PTE_PER_PAGE -> c j' = cont (i * PTE_PER_PAGE + j) j') ->
  grown cont attr lo hi d s tb s2 tb /\ page_entry s2 d (i * PTE_PER_PAGE + j) = k * PAGE_SIZE + attr.
Proof.
  intros Hj Ht Ey Ea Hz Hlo Hc. pose proof step_entry as He. rewrite Ea in He. destruct (as_table _ _ _ HA _ _ Ht) as (Hi & _ & Hxd & _).
  destruct (as_dir _ _ _ HA) as [Hd Hdf].
  assert (Htk : forall i' t, tb !! i' = Some t -> t ∉ free s).
  { intros i' t Ht'. by destruct (as_table _ _ _ HA _ _ Ht') as (_ & ? & _). }
  assert (HA2 : aspace_at s2 d tb).
  { split.
    - done.
    - apply step_free, (as_zero _ _ _ HA).
    - split; [done|]. by apply step_free.
    - intros i' Hi' Hn. rewrite step_wd; [by apply (as_none _ _ _ HA)|unfold PTE_PER_PAGE; lia|done|]. by intros [-> _].
    - intros i' t Ht'. destruct (as_table _ _ _ HA _ _ Ht') as (? & ? & ? & b & ?).
      split_and!; [lia|lia|by apply step_free|done|]. exists b.
      rewrite step_wd; [done|unfold PTE_PER_PAGE; lia|done|]. by intros [-> _].
    - apply (as_inj _ _ _ HA).
    - intros i' t j' Ht' Hj'. destruct (decide (t = x /\ j' = y)) as [[-> ->]|Hne].
      + right. exists k, attr. rewrite Hwd, decide_True, Ea by done. split_and!; [done|rewrite Hf2; set_solver|congruence|].
        intros i1 Hi1. by apply Htk in Hi1.
      + rewrite step_wd by eauto. destruct (as_page _ _ _ HA _ _ j' Ht' Hj') as [?|(f & b & ? & ? & ? & Hft)]; [by left|right].
        exists f, b. split_and!; [done|by apply step_free|done|done]. }
  pose proof (vpn_of i j Hj) as Hsp.
  assert (Hpe : forall v, 0 <= v < 2 ^ 19 -> page_entry s2 d v =
    if decide (v = i * PTE_PER_PAGE + j) then k * PAGE_SIZE + attr else page_entry s d v).
  { intros v Hv. rewrite (page_entry_at _ _ _ v HA2 Hv), (page_entry_at _ _ _ v HA Hv). destruct (vpn_split v Hv) as [Hv1 Hv2].
    case_decide as Ev.
    - rewrite Ev. destruct Hsp as [-> ->]. rewrite Ht, Hwd, decide_True by done. by rewrite Ea.
    - destruct (tb !! (v / PTE_PER_PAGE)) as [t|] eqn:Et; [|done]. apply step_wd; [done|by eapply Htk|]. intros [-> Ej]. apply Ev.
      rewrite (Z.div_mod v PTE_PER_PAGE) by done. rewrite (as_inj _ _ _ HA _ _ _ Et Ht). lia. }
  assert (Hv0 : 0 <= i * PTE_PER_PAGE + j < 2 ^ 19) by (unfold PTE_PER_PAGE in *; lia).
  assert (Hpe0 : page_entry s d (i * PTE_PER_PAGE + j) = 0).
  { rewrite (page_entry_at _ _ _ _ HA Hv0). destruct Hsp as [-> ->]. by rewrite Ht. }
  split; [|by rewrite Hpe, decide_True by done]. split.
  - done.
  - rewrite Hf2. set_solver.
  - intros i' t ?. by left.
  - done.
  - intros v Hv Hor. rewrite Hpe by done. case_decide; [|done]. subst v. destruct Hor; done.
  - intros v Hv E0. rewrite Hpe by done. case_decide; [|done]. intros _. exists k. split_and!; [done|rewrite Hf2; set_solver|done|].
    intros j' Hj'. subst v. rewrite Hwd, decide_False, decide_True; [by apply Hc|done| |done]. by intros [-> _].
  - intros v v' Hv Hv' E0 E0'. rewrite !Hpe by done. repeat case_decide; congruence.
  - intros f j' Hj' Hf Hfd Hft. apply step_wd; [done|done|]. intros [-> _]. by eapply Hft.
Qed.

End Step.

(** ** Mapping *)

Lemma attr_user_ok : 0 <= ATTR_USER < PAGE_SIZE /\ Z.odd ATTR_USER = true.
Proof. by vm_compute. Qed.

Lemma convert_attr_ok permission : 0 <= convert_attr permission < PAGE_SIZE /\ Z.odd (convert_attr permission) = true.
Proof. unfold convert_attr. case_match; by vm_compute. Qed.

(** A page allocated, and the entry that refers to it. *)
Lemma alloc_put_wd s k s1 x y e :
  (forall f j, 0 <= j < PTE_PER_PAGE -> wd s1 f j = if decide (f = k) then 0 else wd s f j) -> 0 <= y < PTE_PER_PAGE ->
  forall f j, 0 <= j < PTE_PER_PAGE ->
  wd (put_word s1 (page_addr x) y e) f j = if decide (f = x /\ j = y) then e else if decide (f = k) then 0 else wd s f j.
Proof. intros H1 Hy f j Hj. rewrite wd_put by done. case_decide; [done|]. by apply H1. Qed.

Section Map.
Context (cont : Z -> Z -> Z) (attr lo hi d : Z).
Hypothesis Hattr : 0 <= attr < PAGE_SIZE /\ Z.odd attr = true.

Lemma new_table_spec s tb i :
  aspace_at s d tb -> 0 <= i < 512 -> tb !! i = None ->
  (free s = ∅ /\ new_table s (page_addr d) i = Some (None, s)) \/
  (exists t s', new_table s (page_addr d) i = Some (Some (t * PAGE_SIZE), s') /\ 0 <= t < 2 ^ 19 /\
     grown cont attr lo hi d s tb s' (<[i := t]> tb)).
Proof.
  intros HA Hi Hn. unfold new_table.
  destruct (page_alloc_spec s (as_wf _ _ _ HA)) as [[He ->]|(k & s1 & -> & Hk & Hkr & Hf & Hwf & Hwd)]; [by left|right].
  cbn [mbind option_bind]. rewrite v2p_frame, (proj2 (Z.eqb_neq _ _)) by
    (try done; assert (k ≠ 0) by (intros ->; by apply (as_zero _ _ _ HA)); unfold PAGE_SIZE; lia).
  exists k, (put_word s1 (page_addr d) i (calc_pte (k * PAGE_SIZE) ATTR_USER)). split; [done|]. split; [done|].
  rewrite calc_pte_entry by apply attr_user_ok.
  apply (step_table cont attr lo hi d s tb k ATTR_USER d i (λ _, 0)); try done; [apply (as_dir _ _ _ HA)|].
  apply alloc_put_wd; [done|unfold PTE_PER_PAGE; lia].
Qed.

Lemma user_table_spec s tb i :
  aspace_at s d tb -> 0 <= i < 512 ->
  (free s = ∅ /\ user_table s (page_addr d) i = Some (None, s)) \/
  (exists t s' tb', user_table s (page_addr d) i = Some (Some (t * PAGE_SIZE), s') /\ 0 <= t < 2 ^ 19 /\
     grown cont attr lo hi d s tb s' tb' /\ tb' !! i = Some t).
Proof.
  intros HA Hi. unfold user_table. change (word s.2 (page_addr d) i) with (wd s d i). destruct (tb !! i) as [t|] eqn:Et.
  - right. destruct (as_table _ _ _ HA _ _ Et) as (_ & _ & _ & a & He). exists t, s, tb.
    destruct (entry_present _ _ _ He) as (-> & _ & _). destruct He as (Ht & Ha & _ & ->).
    rewrite mask_entry by lia. split_and!; try done; [lia..|by apply grown_refl].
  - rewrite (as_none _ _ _ HA) by done. change (is_present 0) with false. cbn beta iota.
    destruct (new_table_spec s tb i HA Hi Et) as [?|(t & s' & -> & Ht & Hg)]; [by left|right].
    exists t, s', (<[i := t]> tb). split_and!; try done; [lia..|apply lookup_insert_eq].
Qed.

Lemma dest_table_spec s tb i :
  aspace_at s d tb -> 0 <= i < 512 ->
  (free s = ∅ /\ dest_table s (page_addr d) i = Some (None, s)) \/
  (exists t s' tb', dest_table s (page_addr d) i = Some (Some (t * PAGE_SIZE), s') /\ 0 <= t < 2 ^ 19 /\
     grown cont attr lo hi d s tb s' tb' /\ tb' !! i = Some t).
Proof.
  intros HA Hi. pose proof (user_table_spec s tb i HA Hi) as Hu. unfold dest_table, user_table in *.
  change (word s.2 (page_addr d) i) with (wd s d i) in *. destruct (tb !! i) as [t|] eqn:Et.
  - destruct (as_table _ _ _ HA _ _ Et) as (_ & _ & _ & a & He). destruct (entry_present _ _ _ He) as (Hp & Hnz & _).
    rewrite (proj2 (Z.eqb_neq _ _)) by done. by rewrite Hp in Hu.
  - by rewrite (as_none _ _ _ HA) in * by done.
Qed.

Lemma map_pages_loop_spec f : (forall v j, cont v j = 0) -> forall j n s tb i t,
  aspace_at s d tb -> tb !! i = Some t -> 0 <= j -> j + Z.of_nat f <= PTE_PER_PAGE -> 0 <= n ->
  lo <= i * PTE_PER_PAGE + j -> i * PTE_PER_PAGE + j + Z.min (Z.of_nat f) n <= hi ->
  exists e n' s', map_pages_loop f (page_addr t) j n attr s = Some (e, n', s') /\ grown cont attr lo hi d s tb s' tb /\
    (e = E_OK /\ n' = n - Z.min (Z.of_nat f) n /\
       (forall v, i * PTE_PER_PAGE + j <= v < i * PTE_PER_PAGE + j + Z.min (Z.of_nat f) n -> page_entry s' d v ≠ 0) \/
     e = E_NOMEM /\ free s' = ∅).
Proof.
  intros Hcont. induction f as [|f IH]; intros j n s tb i t HA Ht Hj Hf Hn Hlo Hhi; cbn [map_pages_loop].
  { exists E_OK, n, s. split; [done|]. split; [by apply grown_refl|]. left. split_and!; [done|lia|intros; lia]. }
  destruct (Z.eqb_spec n 0) as [->|Hnz].
  { exists E_OK, 0, s. split; [done|]. split; [by apply grown_refl|]. left. split_and!; [done|lia|intros; lia]. }
  destruct (as_table _ _ _ HA _ _ Ht) as (Hi & Htf & _ & _).
  change (word s.2 (page_addr t) j) with (wd s t j).
  assert (Hfin : forall s1, grown cont attr lo hi d s tb s1 tb -> page_entry s1 d (i * PTE_PER_PAGE + j) ≠ 0 ->
    exists e n' s', map_pages_loop f (page_addr t) (j + 1) (n - 1) attr s1 = Some (e, n', s') /\ grown cont attr lo hi d s tb s' tb /\
    (e = E_OK /\ n' = n - Z.min (Z.of_nat (S f)) n /\
       (forall v, i * PTE_PER_PAGE + j <= v < i * PTE_PER_PAGE + j + Z.min (Z.of_nat (S f)) n -> page_entry s' d v ≠ 0) \/
     e = E_NOMEM /\ free s' = ∅)).
  { intros s1 Hg He. destruct (IH (j + 1) (n - 1) s1 tb i t) as (e & n' & s' & E & Hg' & Hor);
      [by apply (gr_ok _ _ _ _ _ _ _ _ _ Hg)|done|lia..|].
    exists e, n', s'. split; [done|]. split; [by eapply grown_trans|]. destruct Hor as [(-> & -> & Hv)|?]; [left|by right].
    split_and!; [done|lia|]. intros v Hvr. destruct (decide (v = i * PTE_PER_PAGE + j)) as [->|]; [|apply Hv; lia].
    rewrite (gr_old _ _ _ _ _ _ _ _ _ Hg'); [done|unfold PTE_PER_PAGE in *; lia|by left]. }
  assert (Hsp : page_entry s d (i * PTE_PER_PAGE + j) = wd s t j).
  { rewrite (page_entry_at _ _ _ _ HA) by (unfold PTE_PER_PAGE in *; lia).
    destruct (vpn_of i j) as [-> ->]; [lia|]. by rewrite Ht. }
  destruct (as_page _ _ _ HA _ _ j Ht ltac:(lia)) as [Hz|(g & b & He & _)].
  2:{ destruct (entry_present _ _ _ He) as (-> & Hnz' & _). apply (Hfin s); [by apply grown_refl|]. by rewrite Hsp. }
  rewrite Hz. change (is_present 0) with false. cbn beta iota.
  destruct (page_alloc_spec s (as_wf _ _ _ HA)) as [[He ->]|(k & s1 & -> & Hk & Hkr & Hfr & Hwf & Hwd)].
  { exists E_NOMEM, n, s. split; [done|]. split; [by apply grown_refl|]. by right. }
  assert (Hk0 : k ≠ 0) by (intros ->; by apply (as_zero _ _ _ HA)).
  cbn [mbind option_bind]. rewrite v2p_frame, (proj2 (Z.eqb_neq _ _)), calc_pte_entry by (first [done|apply Hattr|unfold PAGE_SIZE; lia]).
  destruct (step_page cont attr lo hi d s tb k attr t j (λ _, 0) (put_word s1 (page_addr t) j (k * PAGE_SIZE + attr)) HA Hk Htf Hattr Hfr Hwf) with (i := i) (j := j)
    as [Hg He]; try done; [by apply alloc_put_wd; [|lia]|lia|lia|].
  apply Hfin; [done|]. rewrite He. unfold PAGE_SIZE in *. lia.
Qed.

Lemma map_user_loop_spec f : (forall v j, cont v j = 0) -> forall i j n s tb,
  aspace_at s d tb -> 0 <= i -> 0 <= j < PTE_PER_PAGE -> 0 <= n -> i * PTE_PER_PAGE + j + n <= 2 ^ 19 ->
  lo <= i * PTE_PER_PAGE + j -> i * PTE_PER_PAGE + j + n <= hi -> j + n <= PTE_PER_PAGE * Z.of_nat f ->
  exists e s' tb', map_user_loop f (page_addr d) i j n attr s = Some (e, s') /\ grown cont attr lo hi d s tb s' tb' /\
    (e = E_OK /\ (forall v, i * PTE_PER_PAGE + j <= v < i * PTE_PER_PAGE + j + n -> page_entry s' d v ≠ 0) \/
     e = E_NOMEM /\ free s' = ∅).
Proof.
  intros Hcont. induction f as [|f IH]; intros i j n s tb HA Hi Hj Hn Hmax Hlo Hhi Hfuel; cbn [map_user_loop].
  { rewrite (proj2 (Z.eqb_eq n 0)) by lia. exists E_OK, s, tb. split; [done|]. split; [by apply grown_refl|]. left. split; [done|lia]. }
  destruct (Z.eqb_spec n 0) as [->|Hnz].
  { exists E_OK, s, tb. split; [done|]. split; [by apply grown_refl|]. left. split; [done|lia]. }
  destruct (user_table_spec s tb i HA ltac:(unfold PTE_PER_PAGE in *; lia)) as [[He ->]|(t & s1 & tb1 & -> & Ht & Hg1 & Htb)];
    cbn [mbind option_bind].
  { exists E_NOMEM, s, tb. split; [done|]. split; [by apply grown_refl|]. by right. }
  rewrite p2v_frame by done.
  destruct (map_pages_loop_spec (Z.to_nat (PTE_PER_PAGE - j)) Hcont j n s1 tb1 i t (gr_ok _ _ _ _ _ _ _ _ _ Hg1) Htb) as (e & n' & s2 & -> & Hg2 & Hor);
    [lia..|]. pose proof (grown_trans _ _ _ _ _ _ _ _ _ _ _ Hg1 Hg2) as Hg. cbn [mbind option_bind].
  rewrite Z2Nat.id in Hor by lia.
  destruct Hor as [(-> & -> & Hv)|[-> He]]; cbn [negb].
  2:{ exists E_NOMEM, s2, tb1. split; [done|]. split; [done|]. by right. }
  change (E_OK =? E_OK) with true. cbn [negb].
  destruct (decide (n <= PTE_PER_PAGE - j)).
  { exists E_OK, s2, tb1. rewrite Z.min_r, Z.sub_diag in * by lia. split; [by destruct f|]. split; [done|]. by left. }
  rewrite Z.min_l in * by lia.
  destruct (IH (i + 1) 0 (n - (PTE_PER_PAGE - j)) s2 tb1 (gr_ok _ _ _ _ _ _ _ _ _ Hg2)) as (e & s3 & tb3 & E & Hg3 & Hor);
    [unfold PTE_PER_PAGE in *; lia..|].
  exists e, s3, tb3. split; [done|]. split; [by eapply grown_trans|]. destruct Hor as [[-> Hv3]|?]; [left|by right].
  split; [done|]. intros v Hvr. destruct (decide (v < (i + 1) * PTE_PER_PAGE)); [|apply Hv3; unfold PTE_PER_PAGE in *; lia].
  rewrite (gr_old _ _ _ _ _ _ _ _ _ Hg3); [|unfold PTE_PER_PAGE in *; lia|left]; apply Hv; unfold PTE_PER_PAGE in *; lia.
Qed.

End Map.

(** ** Shrinking of an address space *)

Definition frame_of (e : Z) : Z := e / PAGE_SIZE.

Lemma frame_of_entry e f a : is_entry e f a -> frame_of e = f.
Proof. intros (_ & Ha & _ & ->). unfold frame_of. rewrite Z.div_add_l, Z.div_small by (done || lia). lia. Qed.

Definition in_map (s : machine) (f : Z) : Prop := f < 32 * num_blocks s.1.

(** From [s] to [s'] the pages of [lo, hi) have gone, their frames are free
    again if [release], and so are those of the tables that [tb'] has not;
    nothing else has changed. *)
Record shrunk (release : bool) (lo hi d : Z) (s : machine) (tb : gmap Z Z) (s' : machine) (tb' : gmap Z Z) : Prop := {
  sh_ok : aspace_at s' d tb';
  sh_map : num_blocks s'.1 = num_blocks s.1;
  sh_entry v : 0 <= v < 2 ^ 19 -> page_entry s' d v = if decide (lo <= v < hi) then 0 else page_entry s d v;
  sh_tables : tb' ⊆ tb;
  sh_free f : f ∈ free s' <-> f ∈ free s \/ in_map s f /\
    (release = true /\ (exists v, 0 <= v < 2 ^ 19 /\ lo <= v < hi /\ page_entry s d v ≠ 0 /\ frame_of (page_entry s d v) = f) \/
     exists i, tb !! i = Some f /\ tb' !! i = None);
  sh_frame f j : 0 <= j < PTE_PER_PAGE -> f ≠ d -> (forall i, tb !! i ≠ Some f) -> wd s' f j = wd s f j;
}.

(** A frame that is given back is mapped once only. *)
Definition once (release : bool) (lo hi d : Z) (s : machine) : Prop :=
  release = true -> forall v v', 0 <= v < 2 ^ 19 -> 0 <= v' < 2 ^ 19 -> lo <= v < hi -> v ≠ v' ->
    page_entry s d v ≠ 0 -> page_entry s d v' ≠ 0 -> frame_of (page_entry s d v) ≠ frame_of (page_entry s d v').

Lemma shrunk_none release lo hi d s tb :
  aspace_at s d tb -> (forall v, 0 <= v < 2 ^ 19 -> lo <= v < hi -> page_entry s d v = 0) -> shrunk release lo hi d s tb s tb.
Proof.
  intros HA Hz. split; try done.
  - intros v Hv. case_decide; [|done]. by apply Hz.
  - intros f. split; [by left|]. intros [?|(_ & [(_ & v & Hv & Hlo & Hne & _)|(i & H1 & H2)])]; [done| |congruence].
    by rewrite Hz in Hne.
Qed.

Lemma once_shrunk release lo hi d s tb s' tb' a b : once release lo hi d s -> shrunk release a b d s tb s' tb' -> once release lo hi d s'.
Proof.
  intros Ho Hs Hr v v' Hv Hv' Hlo Hne. rewrite !(sh_entry _ _ _ _ _ _ _ _ Hs) by done. repeat case_decide; try done.
  by apply Ho.
Qed.

Lemma shrunk_trans release lo mid hi d s tb s1 tb1 s2 tb2 :
  lo <= mid <= hi -> shrunk release lo mid d s tb s1 tb1 -> shrunk release mid hi d s1 tb1 s2 tb2 -> shrunk release lo hi d s tb s2 tb2.
Proof.
  intros Hm H1 H2.
  assert (Hent : forall v, 0 <= v < 2 ^ 19 -> mid <= v < hi -> page_entry s1 d v = page_entry s d v).
  { intros v Hv Hr. rewrite (sh_entry _ _ _ _ _ _ _ _ H1), decide_False by (done || lia). done. }
  split.
  - apply H2.
  - rewrite (sh_map _ _ _ _ _ _ _ _ H2). apply H1.
  - intros v Hv. rewrite (sh_entry _ _ _ _ _ _ _ _ H2), (sh_entry _ _ _ _ _ _ _ _ H1) by done. repeat case_decide; (done || lia).
  - etrans; [apply H2|apply H1].
  - intros f. rewrite (sh_free _ _ _ _ _ _ _ _ H2), (sh_free _ _ _ _ _ _ _ _ H1). unfold in_map. rewrite (sh_map _ _ _ _ _ _ _ _ H1).
    split.
    + intros [[?|(? & [(? & v & ? & ? & ?)|(i & ? & Hn)])]|(? & [(? & v & Hv & Hr & Hp & Hf)|(i & Hi & ?)])]; [by left|..]; right; (split; [done|]).
      * left. split; [done|]. exists v. split_and!; try done; lia.
      * right. exists i. split; [done|]. destruct (tb2 !! i) eqn:E; [|done].
        by rewrite (lookup_weaken _ _ _ _ E (sh_tables _ _ _ _ _ _ _ _ H2)) in Hn.
      * left. split; [done|]. rewrite Hent in Hp, Hf by (done || lia). exists v. split_and!; try done; lia.
      * right. exists i. split; [|done]. by eapply lookup_weaken; [|apply H1].
    + intros [?|(Hmp & [(? & v & Hv & Hr & Hp & Hf)|(i & Hi & Hn)])]; [by left; left|..].
      * destruct (decide (v < mid)); [left; right|right]; (split; [done|]); left; (split; [done|]); exists v;
          rewrite ?Hent by (done || lia); split_and!; (done || lia).
      * destruct (tb1 !! i) as [f'|] eqn:E; [right|left; right]; (split; [done|]); right; exists i; [|done].
        rewrite (lookup_weaken _ _ _ _ E (sh_tables _ _ _ _ _ _ _ _ H1)) in Hi. split; congruence.
  - intros f j Hj Hd Ht. rewrite (sh_frame _ _ _ _ _ _ _ _ H2); [by apply (sh_frame _ _ _ _ _ _ _ _ H1)|done|done|].
    intros i Hi. apply (Ht i). by eapply lookup_weaken; [|apply H1].
Qed.

(** A frame given back, by its physical or its kernel address. *)
Lemma page_free_spec s f p :
  palloc_wf s.1 -> 0 <= f < 2 ^ 19 -> p = f * PAGE_SIZE \/ p = page_addr f ->
  exists s', page_free s p = Some s' /\ s'.2 = s.2 /\ palloc_wf s'.1 /\ num_blocks s'.1 = num_blocks s.1 /\
    forall g, g ∈ free s' <-> g ∈ free s \/ in_map s f /\ g = f.
Proof.
  intros Hwf Hf Hp. destruct (pfree_spec s.1 f 0 Hwf Hf ltac:(by vm_compute)) as (mm' & E & Hwf' & Hfr). rewrite Z.add_0_r in E.
  assert (Ep : pfree s.1 p = Some mm').
  { destruct Hp as [->| ->]; [|done]. rewrite <- E. unfold pfree. rewrite (v2p_frame f Hf).
    replace (kern_v2p (f * PAGE_SIZE)) with (f * PAGE_SIZE); [done|]. unfold kern_v2p, SUPERVISOR_START, PAGE_SIZE.
    change (u32 (Z.lnot 0x80000000)) with (Z.ones 31). rewrite Z.land_ones, Z.mod_small; lia. }
  exists (mm', s.2). unfold page_free. rewrite Ep. split_and!; try done; [by eapply pfree_blocks|]. intros g. cbn [fst].
  unfold in_map. case_decide as Hm; [rewrite Hfr; set_solver|]. subst mm'. naive_solver.
Qed.

Lemma clear_step release d s tb i t j :
  aspace_at s d tb -> tb !! i = Some t -> 0 <= j < PTE_PER_PAGE -> is_present (wd s t j) = true ->
  once release (i * PTE_PER_PAGE + j) (i * PTE_PER_PAGE + j + 1) d s ->
  exists s', (if release then page_free (put_word s (page_addr t) j 0) (Z.land (wd s t j) PAGE_ADDR_MASK)
              else Some (put_word s (page_addr t) j 0)) = Some s' /\
    shrunk release (i * PTE_PER_PAGE + j) (i * PTE_PER_PAGE + j + 1) d s tb s' tb.
Proof.
  intros HA Ht Hj Hp Ho. destruct (as_page _ _ _ HA _ _ j Ht Hj) as [Hz|(f & a & He & Hff & Hfd & Hft)]; [by rewrite Hz in Hp|].
  destruct (as_table _ _ _ HA _ _ Ht) as (Hi & Htf & Htd & _). destruct (as_dir _ _ _ HA) as [Hd Hdf].
  pose proof (vpn_of i j Hj) as [Hq Hm]. set (v0 := i * PTE_PER_PAGE + j) in *.
  assert (Hv0 : 0 <= v0 < 2 ^ 19) by (unfold v0, PTE_PER_PAGE in *; lia).
  assert (Hpe0 : page_entry s d v0 = wd s t j) by (rewrite (page_entry_at _ _ _ _ HA Hv0), Hq, Hm, Ht; done).
  assert (Hex : exists s', (if release then page_free (put_word s (page_addr t) j 0) (Z.land (wd s t j) PAGE_ADDR_MASK)
    else Some (put_word s (page_addr t) j 0)) = Some s' /\ s'.2 = (put_word s (page_addr t) j 0).2 /\ palloc_wf s'.1 /\
    num_blocks s'.1 = num_blocks s.1 /\ forall g, g ∈ free s' <-> g ∈ free s \/ in_map s f /\ release = true /\ g = f).
  { destruct release; [|eexists; split_and!; try done; [apply (as_wf _ _ _ HA)|naive_solver]].
    destruct He as (Hf & Ha & _ & E). destruct (page_free_spec (put_word s (page_addr t) j 0) f (Z.land (wd s t j) PAGE_ADDR_MASK))
      as (s' & Ef & E2 & Hwf & Hnb & Hfr); [apply (as_wf _ _ _ HA)|lia|left; rewrite E, mask_entry; lia|].
    exists s'. split_and!; try done. intros g. rewrite Hfr. unfold in_map. cbn. naive_solver. }
  destruct Hex as (s' & E & E2 & Hwf & Hnb & Hfr). exists s'. split; [done|].
  assert (Hwd : forall g k, 0 <= k < PTE_PER_PAGE -> wd s' g k = if decide (g = t /\ k = j) then 0 else wd s g k).
  { intros g k Hk. rewrite <- wd_put by done. unfold wd. by rewrite E2. }
  assert (Hnf : forall g, g ∉ free s -> g ≠ f -> g ∉ free s') by (intros g Hg Hne; rewrite Hfr; naive_solver).
  assert (HA' : aspace_at s' d tb).
  { split.
    - done.
    - apply Hnf; [apply (as_zero _ _ _ HA)|]. intros <-. destruct He. lia.
    - split; [done|]. by apply Hnf.
    - intros i' Hi' Hn. rewrite Hwd, decide_False by (try (unfold PTE_PER_PAGE; lia); by intros [-> _]). by apply (as_none _ _ _ HA).
    - intros i' t' Ht'. destruct (as_table _ _ _ HA _ _ Ht') as (? & ? & ? & b & ?).
      split_and!; [lia|lia|apply Hnf; [done|by intros ->; apply (Hft i')]|done|]. exists b.
      rewrite Hwd, decide_False by (try (unfold PTE_PER_PAGE; lia); by intros [-> _]). done.
    - apply (as_inj _ _ _ HA).
    - intros i' t' j' Ht' Hj'. rewrite Hwd by done. case_decide as Hc; [by left|].
      destruct (as_page _ _ _ HA _ _ j' Ht' Hj') as [?|(g & b & Hg & Hgf & Hgd & Hgt)]; [by left|right]. exists g, b.
      split_and!; try done. rewrite Hfr. intros [?|(_ & Hr & ->)]; [done|].
      destruct (as_table _ _ _ HA _ _ Ht') as (Hi' & _). destruct (vpn_of i' j' Hj') as [Hq' Hm'].
      assert (Hv' : 0 <= i' * PTE_PER_PAGE + j' < 2 ^ 19) by (unfold PTE_PER_PAGE in *; lia).
      assert (Hpe' : page_entry s d (i' * PTE_PER_PAGE + j') = wd s t' j') by (rewrite (page_entry_at _ _ _ _ HA Hv'), Hq', Hm', Ht'; done).
      apply (Ho Hr v0 (i' * PTE_PER_PAGE + j') Hv0 Hv'); [lia| |rewrite Hpe0|rewrite Hpe'|].
      + intros Ev. apply Hc. rewrite <- Ev, Hq in Hq'. subst i'. split; [congruence|]. rewrite <- Ev in Hm'. lia.
      + by apply (entry_present _ _ _ He).
      + by apply (entry_present _ _ _ Hg).
      + rewrite Hpe0, Hpe', (frame_of_entry _ _ _ He), (frame_of_entry _ _ _ Hg). done. }
  split.
  - done.
  - done.
  - intros v Hv. rewrite (page_entry_at _ _ _ _ HA' Hv), (page_entry_at _ _ _ _ HA Hv). destruct (vpn_split v Hv) as [? ?].
    destruct (decide (v0 <= v < v0 + 1)) as [Hr|Hr].
    + replace v with v0 by lia. rewrite Hq, Hm, Ht, Hwd, decide_True by done. done.
    + destruct (tb !! (v / PTE_PER_PAGE)) as [t'|] eqn:Et; [|done]. rewrite Hwd, decide_False; [done| |done]. intros [-> Ej].
      assert (Hvi := as_inj _ _ _ HA _ _ _ Et Ht). rewrite (Z.div_mod v PTE_PER_PAGE) in Hr by done. unfold v0 in Hr.
      rewrite Hvi, Ej in Hr. lia.
  - done.
  - intros g. rewrite Hfr. split.
    + intros [?|(? & ? & ->)]; [by left|right]. split; [done|]. left. split; [done|]. exists v0. rewrite Hpe0.
      split_and!; [lia..|by apply (entry_present _ _ _ He)|by eapply frame_of_entry].
    + intros [?|(? & [(? & v & Hv & Hr & _ & Hf)|(i' & H1 & H2)])]; [by left| |congruence]. right.
      replace v with v0 in Hf by lia. rewrite Hpe0, (frame_of_entry _ _ _ He) in Hf. by subst g.
  - intros g k Hk Hgd Hgt. rewrite Hwd, decide_False; [done| |done]. intros [-> _]. by apply (Hgt i).
Qed.

(** A table without pages goes. *)
Lemma drop_step release lo d s tb i t :
  aspace_at s d tb -> tb !! i = Some t -> (forall j, 0 <= j < PTE_PER_PAGE -> wd s t j = 0) ->
  exists s', page_free (put_word s (page_addr d) i 0) (page_addr t) = Some s' /\ shrunk release lo lo d s tb s' (delete i tb).
Proof.
  intros HA Ht Hz. destruct (as_table _ _ _ HA _ _ Ht) as (Hi & Htf & Htd & a & He). destruct (as_dir _ _ _ HA) as [Hd Hdf].
  destruct (page_free_spec (put_word s (page_addr d) i 0) t (page_addr t)) as (s' & E & E2 & Hwf & Hnb & Hfr);
    [apply (as_wf _ _ _ HA)|destruct He; lia|by right|].
  exists s'. split; [done|].
  assert (Hwd : forall g k, 0 <= k < PTE_PER_PAGE -> wd s' g k = if decide (g = d /\ k = i) then 0 else wd s g k).
  { intros g k Hk. rewrite <- wd_put by (unfold PTE_PER_PAGE in *; lia). unfold wd. by rewrite E2. }
  assert (Hnf : forall g, g ∉ free s -> g ≠ t -> g ∉ free s') by (intros g Hg Hne; rewrite Hfr; cbn; naive_solver).
  assert (HA' : aspace_at s' d (delete i tb)).
  { split.
    - done.
    - apply Hnf; [apply (as_zero _ _ _ HA)|]. intros <-. destruct He. lia.
    - split; [done|]. by apply Hnf.
    - intros i' Hi' [->|Hn]%lookup_delete_None; rewrite Hwd by (unfold PTE_PER_PAGE; lia); [by rewrite decide_True|].
      case_decide; [done|]. by apply (as_none _ _ _ HA).
    - intros i' t' [Hne Ht']%lookup_delete_Some. destruct (as_table _ _ _ HA _ _ Ht') as (? & ? & ? & b & ?).
      split_and!; [lia|lia|apply Hnf; [done|]|done|].
      + intros ->. by apply Hne, (as_inj _ _ _ HA _ _ _ Ht).
      + exists b. rewrite Hwd, decide_False by (try (unfold PTE_PER_PAGE; lia); intros [_ ->]; done). done.
    - intros i1 i2 t' [_ H1]%lookup_delete_Some [_ H2]%lookup_delete_Some. by eapply (as_inj _ _ _ HA).
    - intros i' t' j' [Hne Ht']%lookup_delete_Some Hj'. destruct (as_table _ _ _ HA _ _ Ht') as (_ & _ & ? & _).
      rewrite Hwd, decide_False by (done || by intros [-> _]).
      destruct (as_page _ _ _ HA _ _ j' Ht' Hj') as [?|(g & b & Hg & Hgf & Hgd & Hgt)]; [by left|right]. exists g, b.
      split_and!; [done|apply Hnf; [done|by intros ->; apply (Hgt i)]|done|]. intros i1 [_ H1]%lookup_delete_Some. by apply (Hgt i1). }
  split.
  - done.
  - done.
  - intros v Hv. rewrite decide_False by lia. rewrite (page_entry_at _ _ _ _ HA' Hv), (page_entry_at _ _ _ _ HA Hv).
    destruct (vpn_split v Hv) as [? ?]. destruct (decide (v / PTE_PER_PAGE = i)) as [->|Hne].
    + rewrite lookup_delete_eq, Ht. symmetry. by apply Hz.
    + rewrite lookup_delete_ne by done. destruct (tb !! (v / PTE_PER_PAGE)) as [t'|] eqn:Et; [|done].
      destruct (as_table _ _ _ HA _ _ Et) as (_ & _ & ? & _). rewrite Hwd by done. rewrite decide_False; [done|]. by intros [-> _].
  - apply delete_subseteq.
  - intros g. rewrite Hfr. change (in_map (put_word s (page_addr d) i 0) t) with (in_map s t). cbn [fst put_word]. split.
    + intros [?|[? ->]]; [by left|right]. split; [done|]. right. exists i. split; [done|]. apply lookup_delete_eq.
    + intros [?|(? & [(_ & v & _ & ? & _)|(i' & H1 & H2)])]; [by left|lia|]. right.
      destruct (decide (i' = i)) as [->|Hne]; [rewrite Ht in H1; by injection H1 as <-|]. rewrite lookup_delete_ne in H2 by done. congruence.
  - intros g k Hk Hgd Hgt. rewrite Hwd by done. rewrite decide_False; [done|]. by intros [-> _].
Qed.

Lemma exists_page_spec f page : forall j mem,
  exists_page f page j mem = false -> forall k, j <= k < j + Z.of_nat f -> is_present (word mem page k) = false.
Proof.
  induction f as [|f IH]; intros j mem; cbn [exists_page]; [intros; lia|]. case_match eqn:E; [done|].
  intros H k Hk. destruct (decide (k = j)) as [->|]; [done|]. apply (IH (j + 1) mem H). lia.
Qed.

Lemma unmap_pages_loop_spec release d f : forall s tb i t j,
  aspace_at s d tb -> tb !! i = Some t -> 0 <= j -> j + Z.of_nat f <= PTE_PER_PAGE ->
  once release (i * PTE_PER_PAGE + j) (i * PTE_PER_PAGE + j + Z.of_nat f) d s ->
  exists s', unmap_pages_loop f release (page_addr t) j s = Some s' /\
    shrunk release (i * PTE_PER_PAGE + j) (i * PTE_PER_PAGE + j + Z.of_nat f) d s tb s' tb.
Proof.
  induction f as [|f IH]; intros s tb i t j HA Ht Hj Hf Ho; cbn [unmap_pages_loop].
  { exists s. split; [done|]. apply shrunk_none; [done|]. intros; lia. }
  change (word s.2 (page_addr t) j) with (wd s t j). destruct (as_table _ _ _ HA _ _ Ht) as (Hi & _).
  assert (Hone : exists s1, (if is_present (wd s t j) then
      if release then page_free (put_word s (page_addr t) j 0) (Z.land (wd s t j) PAGE_ADDR_MASK)
      else Some (put_word s (page_addr t) j 0) else Some s) = Some s1 /\
      shrunk release (i * PTE_PER_PAGE + j) (i * PTE_PER_PAGE + j + 1) d s tb s1 tb).
  { destruct (is_present (wd s t j)) eqn:Ep.
    - apply clear_step; [done|done|lia|done|]. intros Hr v v' Hv Hv' Hl. apply (Ho Hr v v' Hv Hv'). lia.
    - exists s. split; [done|]. apply shrunk_none; [done|]. intros v Hv Hl. replace v with (i * PTE_PER_PAGE + j) in * by lia.
      rewrite (page_entry_at _ _ _ _ HA Hv). destruct (vpn_of i j) as [-> ->]; [lia|]. rewrite Ht.
      destruct (as_page _ _ _ HA _ _ j Ht ltac:(lia)) as [?|(g & b & Hg & _)]; [done|].
      by rewrite (proj1 (entry_present _ _ _ Hg)) in Ep. }
  destruct Hone as (s1 & -> & H1). cbn [mbind option_bind].
  destruct (IH s1 tb i t (j + 1) (sh_ok _ _ _ _ _ _ _ _ H1) Ht) as (s' & E & H2); [lia|lia| |].
  { eapply once_shrunk; [|exact H1]. intros Hr v v' Hv Hv' Hl. apply (Ho Hr v v' Hv Hv'). lia. }
  exists s'. split; [done|]. replace (i * PTE_PER_PAGE + (j + 1)) with (i * PTE_PER_PAGE + j + 1) in H2 by lia.
  replace (i * PTE_PER_PAGE + j + 1 + Z.of_nat f) with (i * PTE_PER_PAGE + j + Z.of_nat (S f)) in H2 by lia.
  eapply shrunk_trans; [|done|done]. lia.
Qed.

(** One turn: the pages [offset, mx) of the table [i]. *)
Lemma unmap_turn release d s tb i offset mx :
  aspace_at s d tb -> 0 <= i < 512 -> 0 <= offset -> offset <= mx <= PTE_PER_PAGE ->
  once release (i * PTE_PER_PAGE + offset) (i * PTE_PER_PAGE + mx) d s ->
  exists s' tb', unmap_table release i offset mx (page_addr d) s = Some s' /\
    shrunk release (i * PTE_PER_PAGE + offset) (i * PTE_PER_PAGE + mx) d s tb s' tb'.
Proof.
  intros HA Hi Ho Hm Honce. unfold unmap_table. change (word s.2 (page_addr d) i) with (wd s d i). destruct (tb !! i) as [t|] eqn:Ht.
  2:{ exists s, tb. rewrite (as_none _ _ _ HA) by done. split; [done|]. apply shrunk_none; [done|]. intros v Hv Hl.
      rewrite (page_entry_at _ _ _ _ HA Hv). replace v with (i * PTE_PER_PAGE + (v - i * PTE_PER_PAGE)) by lia.
      destruct (vpn_of i (v - i * PTE_PER_PAGE)) as [-> _]; [lia|]. by rewrite Ht. }
  destruct (as_table _ _ _ HA _ _ Ht) as (_ & _ & Htd & a & He). destruct (entry_present _ _ _ He) as (-> & _ & ->). cbn [negb].
  destruct (unmap_pages_loop_spec release d (Z.to_nat (mx - offset)) s tb i t offset HA Ht) as (s1 & E & Hs); [lia|lia| |].
  { intros Hr v v' Hv Hv' Hl. apply (Honce Hr v v' Hv Hv'). lia. }
  replace (i * PTE_PER_PAGE + offset + Z.of_nat (Z.to_nat (mx - offset))) with (i * PTE_PER_PAGE + mx) in Hs by lia.
  cbv zeta. rewrite E. cbn [mbind option_bind]. destruct (_ || _) eqn:Ex.
  { exists s1, tb. done. }
  apply orb_false_iff in Ex as [Ex1 Ex2]. pose proof (sh_ok _ _ _ _ _ _ _ _ Hs) as HA1.
  assert (Hsame : forall j, 0 <= j < PTE_PER_PAGE -> wd s1 t j = if decide (offset <= j < mx) then 0 else wd s t j).
  { intros j Hj. destruct (vpn_of i j Hj) as [Hq Hmm]. assert (Hv : 0 <= i * PTE_PER_PAGE + j < 2 ^ 19) by (unfold PTE_PER_PAGE in *; lia).
    pose proof (sh_entry _ _ _ _ _ _ _ _ Hs _ Hv) as Hse. rewrite (page_entry_at _ _ _ _ HA1 Hv), (page_entry_at _ _ _ _ HA Hv), Hq, Hmm, Ht in Hse.
    rewrite Hse. repeat case_decide; (done || lia). }
  destruct (drop_step release (i * PTE_PER_PAGE + mx) d s1 tb i t HA1 Ht) as (s' & E' & Hs').
  - intros j Hj. destruct (as_page _ _ _ HA1 _ _ j Ht Hj) as [?|(g & b & Hg & _)]; [done|].
    pose proof (proj1 (entry_present _ _ _ Hg)) as Hp. destruct (decide (offset <= j < mx)) as [Hr|Hr]; [by rewrite Hsame, decide_True by done|].
    destruct (decide (j < offset)).
    + rewrite Hsame, decide_False in Hp by done. unfold wd in Hp. rewrite (exists_page_spec _ _ _ _ Ex1 j) in Hp by lia. done.
    + unfold wd in Hp. rewrite (exists_page_spec _ _ _ _ Ex2 j) in Hp by lia. done.
  - exists s', (delete i tb). split; [done|]. eapply shrunk_trans; [|exact Hs|exact Hs']. lia.
Qed.

Lemma turn_max_spec offset rest :
  0 <= offset < PTE_PER_PAGE -> 0 < rest ->
  offset < turn_max offset rest <= PTE_PER_PAGE /\ turn_max offset rest - offset = Z.min rest (PTE_PER_PAGE - offset).
Proof. intros Ho Hr. unfold turn_max. destruct (Z.ltb_spec rest (PTE_PER_PAGE - offset)); lia. Qed.

Lemma unmap_user_loop_spec release d f : forall i offset rest s tb,
  aspace_at s d tb -> 0 <= i -> 0 <= offset < PTE_PER_PAGE -> 0 <= rest -> i * PTE_PER_PAGE + offset + rest <= 2 ^ 19 ->
  offset + rest <= PTE_PER_PAGE * Z.of_nat f ->
  once release (i * PTE_PER_PAGE + offset) (i * PTE_PER_PAGE + offset + rest) d s ->
  exists s' tb', unmap_user_loop f release i offset rest (page_addr d) s = Some (0, s') /\
    shrunk release (i * PTE_PER_PAGE + offset) (i * PTE_PER_PAGE + offset + rest) d s tb s' tb'.
Proof.
  induction f as [|f IH]; intros i offset rest s tb HA Hi Ho Hr Hmax Hfuel Honce; cbn [unmap_user_loop].
  { rewrite (proj2 (Z.eqb_eq rest 0)) by lia. exists s, tb. split; [done|]. apply shrunk_none; [done|]. intros; lia. }
  destruct (Z.eqb_spec rest 0) as [->|Hnz].
  { exists s, tb. split; [done|]. apply shrunk_none; [done|]. intros; lia. }
  destruct (turn_max_spec offset rest Ho ltac:(lia)) as [Hm1 Hm2]. set (mx := turn_max offset rest) in *. clearbody mx.
  destruct (unmap_turn release d s tb i offset mx HA) as (s1 & tb1 & E & H1); [unfold PTE_PER_PAGE in *; lia|lia|lia| |].
  { intros Hrel v v' Hv Hv' Hl. apply (Honce Hrel v v' Hv Hv'). lia. }
  rewrite E. cbn [mbind option_bind]. destruct (decide (rest <= PTE_PER_PAGE - offset)).
  { exists s1, tb1. replace (rest - (mx - offset)) with 0 by lia. split; [by destruct f|].
    by replace (i * PTE_PER_PAGE + offset + rest) with (i * PTE_PER_PAGE + mx) by lia. }
  assert (mx = PTE_PER_PAGE) as -> by lia. replace (i * PTE_PER_PAGE + PTE_PER_PAGE) with ((i + 1) * PTE_PER_PAGE + 0) in H1 by lia.
  destruct (IH (i + 1) 0 (rest - (PTE_PER_PAGE - offset)) s1 tb1 (sh_ok _ _ _ _ _ _ _ _ H1)) as (s' & tb' & E' & H2);
    [unfold PTE_PER_PAGE in *; lia..| |].
  { eapply once_shrunk; [|exact H1]. intros Hrel v v' Hv Hv' Hl. apply (Honce Hrel v v' Hv Hv'). lia. }
  exists s', tb'. split; [done|].
  replace ((i + 1) * PTE_PER_PAGE + 0 + (rest - (PTE_PER_PAGE - offset))) with (i * PTE_PER_PAGE + offset + rest) in H2 by lia.
  eapply shrunk_trans; [|exact H1|exact H2]. lia.
Qed.

(** ** Copying *)

Lemma grown_weaken cont attr lo hi hi' d s tb s' tb' :
  hi <= hi' -> grown cont attr lo hi d s tb s' tb' -> grown cont attr lo hi' d s tb s' tb'.
Proof. intros Hle [? ? ? ? Hold ? ? ?]. split; try done. intros v Hv [?|?]; apply Hold; auto; right; lia. Qed.

Lemma copy_page_loop_wd n : forall i dest src s f j,
  0 <= i -> i + Z.of_nat n <= PTE_PER_PAGE -> dest ≠ src -> 0 <= j < PTE_PER_PAGE ->
  wd (s.1, copy_page_loop n i (page_addr dest) (page_addr src) s.2) f j =
    if decide (f = dest /\ i <= j < i + Z.of_nat n) then wd s src j else wd s f j.
Proof.
  induction n as [|n IH]; intros i dest src s f j Hi Hn Hne Hj; cbn [copy_page_loop].
  { rewrite decide_False by lia. done. }
  etrans; [apply (IH (i + 1) dest src (put_word s (page_addr dest) i (wd s src i)) f j); lia|].
  rewrite !wd_put by lia. repeat case_decide; try done; try lia; naive_solver lia.
Qed.

Lemma copy_page_wd s dest src f j :
  dest ≠ src -> 0 <= j < PTE_PER_PAGE ->
  wd (s.1, copy_page (page_addr dest) (page_addr src) s.2) f j = if decide (f = dest) then wd s src j else wd s f j.
Proof.
  intros Hne Hj. unfold copy_page. rewrite copy_page_loop_wd by (done || lia).
  change (0 + Z.of_nat (Z.to_nat (PAGE_SIZE / 4))) with PTE_PER_PAGE. repeat case_decide; naive_solver lia.
Qed.

Section CopyPages.
(** The space of [ds] in [s0] is the source; nothing of it is the directory
    or a table of the destination, the space of [dd]. *)
Context (attr lo ds dd : Z) (s0 : machine) (tbs tbd0 : gmap Z Z).
Hypothesis Hattr : 0 <= attr < PAGE_SIZE /\ Z.odd attr = true.
Hypothesis HS : aspace_at s0 ds tbs.
Hypothesis HD : aspace_at s0 dd tbd0.

Definition src_frame (f : Z) : Prop :=
  f = ds \/ (exists i, tbs !! i = Some f) \/
  exists v, 0 <= v < 2 ^ 19 /\ page_entry s0 ds v ≠ 0 /\ frame_of (page_entry s0 ds v) = f.

Hypothesis Hsep : forall f, src_frame f -> f ≠ dd /\ forall i, tbd0 !! i ≠ Some f.

Definition src_cont (v j : Z) : Z := wd s0 (frame_of (page_entry s0 ds v)) j.

Lemma src_used f : src_frame f -> f ∉ free s0.
Proof.
  intros [->|[[i Hi]|(v & Hv & Hne & <-)]]; [apply (as_dir _ _ _ HS)|by apply (as_table _ _ _ HS i)|].
  destruct (page_entry_frame _ _ _ v HS Hv Hne) as (f & a & He & Hf & _). by rewrite (frame_of_entry _ _ _ He).
Qed.

Lemma src_same hi s tbd f j :
  grown src_cont attr lo hi dd s0 tbd0 s tbd -> src_frame f -> 0 <= j < PTE_PER_PAGE -> wd s f j = wd s0 f j.
Proof. intros Hg Hf Hj. destruct (Hsep f Hf). apply (gr_frame _ _ _ _ _ _ _ _ _ Hg); try done. by apply src_used. Qed.

(** The source page [v] of the table [ts]. *)
Lemma src_page i ts j :
  tbs !! i = Some ts -> 0 <= j < PTE_PER_PAGE -> page_entry s0 ds (i * PTE_PER_PAGE + j) = wd s0 ts j.
Proof.
  intros Ht Hj. destruct (as_table _ _ _ HS _ _ Ht) as (Hi & _).
  rewrite (page_entry_at _ _ _ _ HS) by (unfold PTE_PER_PAGE in *; lia). destruct (vpn_of i j Hj) as [-> ->]. by rewrite Ht.
Qed.

(** How far the copy from [s] to [s'] came, and why no farther. *)
Definition copied (v0 w v1 e : Z) (s : machine) (tbd : gmap Z Z) (s' : machine) (tbd' : gmap Z Z) : Prop :=
  v0 <= w <= v1 /\ grown src_cont attr lo w dd s tbd s' tbd' /\
  (forall v, v0 <= v < w -> page_entry s0 ds v ≠ 0 /\ page_entry s0 dd v = 0 /\ page_entry s' dd v ≠ 0) /\
  (e = 0 /\ w = v1 \/ e = EFAULT /\ w < v1 /\ page_entry s0 ds w = 0 \/
   e = EADDRINUSE /\ w < v1 /\ page_entry s0 dd w ≠ 0 \/ e = ENOMEM /\ free s' = ∅).

Lemma copied_none v0 v1 e s tbd :
  aspace_at s dd tbd -> v0 <= v1 ->
  (e = 0 /\ v0 = v1 \/ e = EFAULT /\ v0 < v1 /\ page_entry s0 ds v0 = 0 \/
   e = EADDRINUSE /\ v0 < v1 /\ page_entry s0 dd v0 ≠ 0 \/ e = ENOMEM /\ free s = ∅) ->
  copied v0 v0 v1 e s tbd s tbd.
Proof. intros HA Hle Hor. split_and!; [lia|lia|by apply grown_refl|intros; lia|done]. Qed.

Lemma copied_trans v0 v1 w v2 e s tbd s1 tbd1 s2 tbd2 :
  0 <= v0 -> v1 <= 2 ^ 19 -> copied v0 v1 v1 0 s tbd s1 tbd1 -> copied v1 w v2 e s1 tbd1 s2 tbd2 -> copied v0 w v2 e s tbd s2 tbd2.
Proof.
  intros Hv0 Hv1 (Hw1 & Hg1 & Hn1 & _) (Hw & Hg2 & Hn2 & Hor). split_and!; [lia|lia| | |done].
  - eapply grown_trans; [eapply grown_weaken; [|exact Hg1]; lia|done].
  - intros v Hv. destruct (decide (v < v1)); [|apply Hn2; lia]. destruct (Hn1 v ltac:(lia)) as (? & ? & ?). split_and!; try done.
    rewrite (gr_old _ _ _ _ _ _ _ _ _ Hg2); [done|lia|by left].
Qed.

Lemma copy_pages_loop_spec f : forall i ts td j s tbd,
  grown src_cont attr lo (i * PTE_PER_PAGE + j) dd s0 tbd0 s tbd -> tbs !! i = Some ts -> tbd !! i = Some td ->
  0 <= j -> j + Z.of_nat f <= PTE_PER_PAGE -> lo <= i * PTE_PER_PAGE + j ->
  exists e s' w, copy_pages_loop f j (page_addr td) (page_addr ts) attr s = Some (e, s') /\
    copied (i * PTE_PER_PAGE + j) w (i * PTE_PER_PAGE + j + Z.of_nat f) e s tbd s' tbd.
Proof.
  induction f as [|f IH]; intros i ts td j s tbd Hg Hts Htd Hj Hf Hlo; cbn [copy_pages_loop].
  { exists 0, s, (i * PTE_PER_PAGE + j). split; [done|]. apply copied_none; [apply (gr_ok _ _ _ _ _ _ _ _ _ Hg)|lia|left; lia]. }
  set (v := i * PTE_PER_PAGE + j) in *. pose proof (gr_ok _ _ _ _ _ _ _ _ _ Hg) as HA.
  destruct (as_table _ _ _ HA _ _ Htd) as (Hi & Htdf & Htdd & _). pose proof (vpn_of i j ltac:(lia)) as [Hq Hm]. fold v in Hq, Hm.
  assert (Hv : 0 <= v < 2 ^ 19) by (unfold v, PTE_PER_PAGE in *; lia).
  assert (Hpd : page_entry s dd v = wd s td j) by (by rewrite (page_entry_at _ _ _ _ HA Hv), Hq, Hm, Htd).
  assert (Hp0 : page_entry s dd v = page_entry s0 dd v) by (apply (gr_old _ _ _ _ _ _ _ _ _ Hg); [done|right; lia]).
  assert (Hsrc : word s.2 (page_addr ts) j = page_entry s0 ds v).
  { unfold v. rewrite (src_page i ts j Hts) by lia. apply (src_same v s tbd ts j Hg); [right; left; by exists i|lia]. }
  change (word s.2 (page_addr td) j) with (wd s td j). rewrite Hsrc, <- Hpd, Hp0.
  destruct (decide (page_entry s0 ds v = 0)) as [Hz|Hnz].
  { rewrite Hz. exists EFAULT, s, v. split; [done|]. apply copied_none; [done|lia|]. right. left. split_and!; [done|lia|done]. }
  destruct (page_entry_frame _ _ _ v HS Hv Hnz) as (g & b & He & Hgf & _). destruct (entry_present _ _ _ He) as (-> & _ & Eg). cbn [negb].
  destruct (Z.eqb_spec (page_entry s0 dd v) 0) as [Hd0|Hd0]; cbn [negb].
  2:{ exists EADDRINUSE, s, v. split; [done|]. apply copied_none; [done|lia|]. right. right. left. split_and!; [done|lia|done]. }
  destruct (page_alloc_spec s (as_wf _ _ _ HA)) as [[Hemp ->]|(k & s1 & -> & Hk & Hkr & Hfr & Hwf & Hwd)].
  { exists ENOMEM, s, v. split; [done|]. apply copied_none; [done|lia|]. by right; right; right. }
  assert (Hk0 : k ≠ 0) by (intros ->; by apply (as_zero _ _ _ HA)). cbn [mbind option_bind].
  rewrite v2p_frame, (proj2 (Z.eqb_neq _ _)), calc_pte_entry, p2v_frame by (first [done|apply Hattr|unfold PAGE_SIZE; lia]).
  set (s2 := put_word s1 (page_addr td) j (k * PAGE_SIZE + attr)).
  assert (Hsf : src_frame ts /\ src_frame g).
  { split; [right; left; by exists i|]. right. right. exists v. split_and!; [lia|lia|done|by eapply frame_of_entry]. }
  assert (Hkg : forall f', src_frame f' -> k ≠ f').
  { intros f' Hf' ->. apply (src_used f' Hf'). by apply (gr_free _ _ _ _ _ _ _ _ _ Hg). }
  assert (Hwd2 : forall f' j', 0 <= j' < PTE_PER_PAGE -> wd s2 f' j' =
    if decide (f' = td /\ j' = j) then k * PAGE_SIZE + attr else if decide (f' = k) then 0 else wd s f' j') by (apply alloc_put_wd; [done|lia]).
  assert (Hstay : forall f' j', src_frame f' -> 0 <= j' < PTE_PER_PAGE -> wd s2 f' j' = wd s0 f' j').
  { intros f' j' Hf' Hj'. rewrite Hwd2, decide_False, decide_False; [by eapply src_same|..]; [by intros ->; apply (Hkg k)| |done].
    intros [-> _]. destruct (Hsep td Hf') as [_ Hs]. destruct (gr_tables _ _ _ _ _ _ _ _ _ Hg _ _ Htd) as [?|Hfree]; [by eapply Hs|].
    by apply (src_used td). }
  fold s2. replace (word s2.2 (page_addr ts) j) with (page_entry s0 ds v).
  2:{ unfold v. rewrite (src_page i ts j Hts) by lia. symmetry. apply (Hstay ts j); [apply Hsf|lia]. }
  rewrite Eg. set (s3 := (s2.1, copy_page (page_addr k) (page_addr g) s2.2)).
  assert (Hfr3 : free s3 = free s ∖ {[k]}) by exact Hfr. assert (Hwf3 : palloc_wf s3.1) by exact Hwf.
  assert (Hwd3 : forall f' j', 0 <= j' < PTE_PER_PAGE -> wd s3 f' j' =
    if decide (f' = td /\ j' = j) then k * PAGE_SIZE + attr else if decide (f' = k) then wd s0 g j' else wd s f' j').
  { intros f' j' Hj'. unfold s3. rewrite copy_page_wd by first [exact Hj'|exact (Hkg g (proj2 Hsf))]. destruct (decide (f' = k)) as [->|Hfk];
      [|rewrite Hwd2 by exact Hj'; by rewrite (decide_False (P := f' = k)) by exact Hfk].
    rewrite decide_False by (intros [-> _]; exact (Htdf Hk)). exact (Hstay g j' (proj2 Hsf) Hj'). }
  clearbody s3.
  destruct (step_page src_cont attr lo (v + 1) dd s tbd k attr td j (λ j', wd s0 g j') s3 HA Hk Htdf Hattr Hfr3 Hwf3 Hwd3 i j)
    as [Hg3 He3]; [lia|exact Htd|reflexivity|reflexivity|by rewrite <- Hpd, Hp0|fold v; lia| |].
  { intros j' Hj'. fold v. unfold src_cont. by rewrite (frame_of_entry _ _ _ He). }
  assert (Hgs : grown src_cont attr lo (v + 1) dd s0 tbd0 s3 tbd) by (eapply grown_trans; [eapply grown_weaken; [|exact Hg]; lia|exact Hg3]).
  destruct (IH i ts td (j + 1) s3 tbd) as (e & s' & w & E & Hc); [by replace (i * PTE_PER_PAGE + (j + 1)) with (v + 1) by lia|done|done|lia..|].
  exists e, s', w. split; [done|]. replace (i * PTE_PER_PAGE + (j + 1)) with (v + 1) in Hc by lia.
  replace (v + 1 + Z.of_nat f) with (v + Z.of_nat (S f)) in Hc by lia.
  eapply (copied_trans v (v + 1)); [lia|lia| |exact Hc]. split_and!; [lia|lia|done| |by left].
  intros v' Hv'. replace v' with v by lia. split_and!; [done|done|]. fold v in He3. rewrite He3. unfold PAGE_SIZE in *. destruct Hattr. lia.
Qed.

Lemma copy_user_loop_spec f : forall i offset rest s tbd,
  grown src_cont attr lo (i * PTE_PER_PAGE + offset) dd s0 tbd0 s tbd -> 0 <= i -> 0 <= offset < PTE_PER_PAGE -> 0 <= rest ->
  i * PTE_PER_PAGE + offset + rest <= 2 ^ 19 -> offset + rest <= PTE_PER_PAGE * Z.of_nat f -> lo <= i * PTE_PER_PAGE + offset ->
  exists e s' tbd' w, copy_user_loop f i offset rest (page_addr dd) (page_addr ds) attr s = Some (e, s') /\
    copied (i * PTE_PER_PAGE + offset) w (i * PTE_PER_PAGE + offset + rest) e s tbd s' tbd'.
Proof.
  induction f as [|f IH]; intros i offset rest s tbd Hg Hi Ho Hr Hmax Hfuel Hlo; pose proof (gr_ok _ _ _ _ _ _ _ _ _ Hg) as HA;
    cbn [copy_user_loop].
  { rewrite (proj2 (Z.eqb_eq rest 0)) by lia. do 4 eexists. split; [done|]. apply copied_none; [done|lia|left; lia]. }
  destruct (Z.eqb_spec rest 0) as [->|Hnz].
  { do 4 eexists. split; [done|]. apply copied_none; [done|lia|left; lia]. }
  assert (Hi' : 0 <= i < 512) by (unfold PTE_PER_PAGE in *; lia).
  assert (Hsd : forall s1 tbd1, grown src_cont attr lo (i * PTE_PER_PAGE + offset) dd s0 tbd0 s1 tbd1 -> word s1.2 (page_addr ds) i = wd s0 ds i).
  { intros s1 tbd1 Hg1. apply (src_same _ s1 tbd1 ds i Hg1); [by left|unfold PTE_PER_PAGE; lia]. }
  rewrite (Hsd s tbd Hg). destruct (tbs !! i) as [ts|] eqn:Hts.
  2:{ rewrite (as_none _ _ _ HS) by done. do 4 eexists. split; [done|]. apply copied_none; [done|lia|]. right. left. split_and!; [done|lia|].
      rewrite (page_entry_at _ _ _ _ HS) by (unfold PTE_PER_PAGE in *; lia). destruct (vpn_of i offset Ho) as [-> _]. by rewrite Hts. }
  destruct (as_table _ _ _ HS _ _ Hts) as (_ & _ & _ & a & He). destruct (entry_present _ _ _ He) as (-> & _ & Ets). cbn [negb].
  destruct (turn_max_spec offset rest Ho ltac:(lia)) as [Hm1 Hm2]. set (mx := turn_max offset rest) in *. clearbody mx.
  destruct (dest_table_spec src_cont attr lo (i * PTE_PER_PAGE + offset) dd s tbd i HA Hi')
    as [[Hemp ->]|(td & s1 & tbd1 & -> & Htd & Hg1 & Htb)]; cbn [mbind option_bind].
  { do 4 eexists. split; [done|]. apply copied_none; [done|lia|]. by right; right; right. }
  pose proof (grown_trans _ _ _ _ _ _ _ _ _ _ _ Hg Hg1) as Hg01. rewrite (Hsd s1 tbd1 Hg01), Ets, p2v_frame by done.
  destruct (copy_pages_loop_spec (Z.to_nat (mx - offset)) i ts td offset s1 tbd1 Hg01 Hts Htb) as (e & s2 & w & -> & Hc); [lia..|].
  cbn [mbind option_bind]. replace (_ + offset + Z.of_nat _) with (i * PTE_PER_PAGE + mx) in Hc by lia.
  assert (Hc1 : copied (i * PTE_PER_PAGE + offset) w (i * PTE_PER_PAGE + mx) e s tbd s2 tbd1).
  { destruct Hc as (? & Hg2 & ? & ?). split; [done|]. split; [|done]. eapply grown_trans; [|exact Hg2]. eapply grown_weaken; [|exact Hg1]. lia. }
  destruct (Z.eqb_spec e 0) as [->|Hne]; cbn [negb].
  2:{ exists e, s2, tbd1, w. split; [done|]. destruct Hc1 as (? & ? & ? & Hor). split_and!; [lia|lia|done|done|].
      destruct Hor as [[? _]|[(? & ? & ?)|[(? & ? & ?)|?]]]; [done|right; left|right; right; left|by right; right; right]; split_and!; (done || lia). }
  assert (w = i * PTE_PER_PAGE + mx) as ->.
  { destruct Hc1 as (_ & _ & _ & [[_ ?]|[[? _]|[[? _]|[? _]]]]); done. }
  destruct (decide (rest <= PTE_PER_PAGE - offset)).
  { exists 0, s2, tbd1, (i * PTE_PER_PAGE + mx). replace (rest - (mx - offset)) with 0 by lia. split; [by destruct f|].
    by replace (i * PTE_PER_PAGE + offset + rest) with (i * PTE_PER_PAGE + mx) by lia. }
  assert (mx = PTE_PER_PAGE) as -> by lia. replace (i * PTE_PER_PAGE + PTE_PER_PAGE) with ((i + 1) * PTE_PER_PAGE + 0) in Hc1 by lia.
  destruct (IH (i + 1) 0 (rest - (PTE_PER_PAGE - offset)) s2 tbd1) as (e & s3 & tbd3 & w & E & Hc3);
    [|unfold PTE_PER_PAGE in *; lia..|].
  { eapply grown_trans; [eapply grown_weaken; [|exact Hg]; lia|]. apply Hc1. }
  exists e, s3, tbd3, w. split; [done|].
  replace ((i + 1) * PTE_PER_PAGE + 0 + (rest - (PTE_PER_PAGE - offset))) with (i * PTE_PER_PAGE + offset + rest) in Hc3 by lia.
  eapply copied_trans; [| |exact Hc1|exact Hc3]; unfold PTE_PER_PAGE in *; lia.
Qed.

End CopyPages.

(** ** Properties *)

Lemma turns_enough n j : 0 <= n -> 0 <= j < PTE_PER_PAGE -> j + n <= PTE_PER_PAGE * Z.of_nat (turns n).
Proof.
  intros Hn Hj. unfold turns. pose proof (Z.div_mod n PTE_PER_PAGE ltac:(done)).
  pose proof (Z.mod_pos_bound n PTE_PER_PAGE ltac:(done)). pose proof (Z.div_pos n PTE_PER_PAGE Hn ltac:(done)).
  unfold PTE_PER_PAGE in *. lia.
Qed.

Lemma addr_vpn addr :
  0 <= addr -> getDirectoryOffset addr * PTE_PER_PAGE + getPageOffset addr = addr / PAGE_SIZE /\
  0 <= getDirectoryOffset addr /\ 0 <= getPageOffset addr < PTE_PER_PAGE.
Proof.
  intros Ha. rewrite getDirectoryOffset_div, getPageOffset_mod. pose proof (Z.div_mod (addr / PAGE_SIZE) PTE_PER_PAGE ltac:(done)).
  split; [lia|]. split; [|by apply Z.mod_pos_bound]. apply Z.div_pos; [|done]. by apply Z.div_pos.
Qed.

(** The range check: the pages lie in user space. *)
Lemma in_user addr n : 0 <= addr -> out_of_user addr n = false -> addr / PAGE_SIZE + n <= 2 ^ 19.
Proof.
  intros Ha [H1%Z.leb_gt H2%Z.ltb_ge]%orb_false_iff. unfold pages, SUPERVISOR_START, BITS_OFFSET in *.
  rewrite Z.shiftr_div_pow2, u32_small in H2 by (try unfold is_u32, PAGE_SIZE; lia).
  change (2 ^ 12) with PAGE_SIZE in H2. pose proof (Z.div_mod addr PAGE_SIZE ltac:(done)). pose proof (Z.mod_pos_bound addr PAGE_SIZE ltac:(done)).
  assert ((0x80000000 - addr + PAGE_SIZE - 1) / PAGE_SIZE < 2 ^ 19 - addr / PAGE_SIZE + 1); [|lia].
  apply Z.div_lt_upper_bound; [done|]. unfold PAGE_SIZE in *. lia.
Qed.

(** C35: mapping pages.  In every well-formed address space, for every range
    of user space, [map_user_pages] ends, and the space has only grown: it
    answers [E_OK] with every page of the range mapped, or [E_NOMEM] with no
    frame free.  In both cases the pages mapped before and the pages out of
    the range are as before, each new page is on a free frame of its own with
    the attributes asked for and reads as zeros, and no word of a frame in use
    elsewhere has changed. *)
Theorem map_user_pages_correct s d tb addr cnt permission :
  aspace_at s d tb -> 0 <= addr -> 0 <= cnt -> addr / PAGE_SIZE + cnt <= 2 ^ 19 ->
  exists e s' tb', map_user_pages s (d * PAGE_SIZE) addr cnt permission = Some (e, s') /\
    grown (λ _ _, 0) (convert_attr permission) (addr / PAGE_SIZE) (addr / PAGE_SIZE + cnt) d s tb s' tb' /\
    (e = E_OK /\ (forall v, addr / PAGE_SIZE <= v < addr / PAGE_SIZE + cnt -> page_entry s' d v ≠ 0) \/
     e = E_NOMEM /\ free s' = ∅).
Proof.
  intros HA Ha Hc Hmax. unfold map_user_pages. destruct (addr_vpn addr Ha) as (Hv & Hi & Hj).
  rewrite p2v_frame by (destruct (as_dir _ _ _ HA); lia).
  assert (addr < 2 ^ 32).
  { pose proof (Z.div_mod addr PAGE_SIZE ltac:(done)). pose proof (Z.mod_pos_bound addr PAGE_SIZE ltac:(done)). unfold PAGE_SIZE in *. lia. }
  change (Z.land (Z.shiftr addr BITS_OFFSET) MASK_PAGE) with (getPageOffset addr).
  change (Z.shiftr addr (BITS_PAGE + BITS_OFFSET)) with (getDirectoryOffset addr). change MASK_PAGE with (Z.ones 10).
  rewrite Z.land_ones, (Z.mod_small (getDirectoryOffset addr)) by (try split; unfold PTE_PER_PAGE in *; lia).
  change (getDirectoryOffset SUPERVISOR_START * PTE_PER_PAGE) with (2 ^ 19).
  replace (if cnt <? 2 ^ 19 then cnt else 2 ^ 19) with cnt by (destruct (Z.ltb_spec cnt (2 ^ 19)); pose proof (Z.div_pos addr PAGE_SIZE Ha ltac:(done)); lia).
  rewrite <- Hv. apply map_user_loop_spec; try done; try lia; [apply convert_attr_ok|by apply turns_enough].
Qed.

(** Unmapping pages.  A range out of user space is refused with [EINVAL]
    and nothing changes.  Otherwise the pages of the range are gone, all
    other pages are as before, the tables left without pages are given back,
    and [unmap_user_pages] gives back exactly the frames of the pages, while
    [detach_user_pages] leaves those alone; no word of another frame has
    changed. *)
Theorem unmap_user_pages_correct s d tb addr n :
  aspace_at s d tb -> 0 <= addr -> 0 <= n ->
  if out_of_user addr n then
    unmap_user_pages s (d * PAGE_SIZE) addr n = Some (EINVAL, s) /\ detach_user_pages s (d * PAGE_SIZE) addr n = Some (EINVAL, s)
  else
    (once true (addr / PAGE_SIZE) (addr / PAGE_SIZE + n) d s ->
     exists s' tb', unmap_user_pages s (d * PAGE_SIZE) addr n = Some (0, s') /\
       shrunk true (addr / PAGE_SIZE) (addr / PAGE_SIZE + n) d s tb s' tb') /\
    (exists s' tb', detach_user_pages s (d * PAGE_SIZE) addr n = Some (0, s') /\
       shrunk false (addr / PAGE_SIZE) (addr / PAGE_SIZE + n) d s tb s' tb').
Proof.
  intros HA Ha Hn. unfold unmap_user_pages, detach_user_pages. destruct (out_of_user addr n) eqn:Eo; [done|].
  pose proof (in_user addr n Ha Eo) as Hmax. destruct (addr_vpn addr Ha) as (Hv & Hi & Hj).
  rewrite p2v_frame by (destruct (as_dir _ _ _ HA); lia). rewrite <- Hv in *.
  split; [intros Ho|]; apply unmap_user_loop_spec; try done; try lia; by apply turns_enough.
Qed.

(** C36: copying pages, as a fork does.  Between two well-formed address
    spaces that share no table, a range out of user space is refused with
    [EINVAL]; otherwise the copy ends at a page [w]: the pages before [w] were
    mapped in the source and not in the destination, and are now mapped there,
    each on a free frame of its own, with the contents of the source page;
    the copy stops with [EFAULT] at a page that the source has not,
    with [EADDRINUSE] at one that the destination has, with [ENOMEM] when no
    frame is free, and with 0 only at the end of the range.  The other pages
    of the destination, and every frame in use, are as before. *)
Theorem copy_user_pages_correct s ds dd tbs tbd addr n permission :
  aspace_at s ds tbs -> aspace_at s dd tbd ->
  (forall f, src_frame ds s tbs f -> f ≠ dd /\ forall i, tbd !! i ≠ Some f) -> 0 <= addr -> 0 <= n ->
  if out_of_user addr n then copy_user_pages s (dd * PAGE_SIZE) (ds * PAGE_SIZE) addr n permission = Some (EINVAL, s)
  else
    exists e s' tbd' w, copy_user_pages s (dd * PAGE_SIZE) (ds * PAGE_SIZE) addr n permission = Some (e, s') /\
      copied (convert_attr permission) (addr / PAGE_SIZE) ds dd s (addr / PAGE_SIZE) w (addr / PAGE_SIZE + n) e s tbd s' tbd'.
Proof.
  intros HS HD Hsep Ha Hn. unfold copy_user_pages. destruct (out_of_user addr n) eqn:Eo; [done|].
  pose proof (in_user addr n Ha Eo) as Hmax. destruct (addr_vpn addr Ha) as (Hv & Hi & Hj).
  rewrite !p2v_frame by (destruct (as_dir _ _ _ HS), (as_dir _ _ _ HD); lia). rewrite <- Hv in *.
  eapply copy_user_loop_spec; try done; try lia; [apply convert_attr_ok|by apply grown_refl|by apply turns_enough].
Qed.

(** ** A new space *)

(** On kernel addresses [memcpy] is the copy of the bytes. *)
Lemma kernel_memcpy pd n : forall w r mem,
  SUPERVISOR_START <= w -> w + Z.of_nat n <= 2 ^ 32 -> SUPERVISOR_START <= r -> r + Z.of_nat n <= 2 ^ 32 ->
  memcpy n pd w r mem = Some (byte_copy n Some Some w r mem).2.
Proof.
  induction n as [|n IH]; intros w r mem Hw Hw' Hr Hr'; [done|]. cbn [memcpy byte_copy]. rewrite !kernel_mmu by done.
  cbn [mbind option_bind]. destruct n as [|n]; [done|].
  rewrite (u32_small (w + 1)), (u32_small (r + 1)) by (unfold is_u32, SUPERVISOR_START in *; lia). apply IH; lia.
Qed.

Lemma memset_zero n : forall p mem x, mem x = 0 -> memset n p 0 mem x = 0.
Proof.
  induction n as [|n IH]; intros p mem x Hx; [done|]. cbn [memset]. apply IH.
  destruct (decide (word_at p = x)) as [<-|Hne]; [|by rewrite st8_other].
  unfold st8, store. by rewrite Z.eqb_refl, Hx, Z.ldiff_0_l, Z.land_0_l, Z.shiftl_0_l.
Qed.

Lemma memset_other n : forall p c mem x, (forall k, 0 <= k < Z.of_nat n -> word_at (p + k) ≠ x) -> memset n p c mem x = mem x.
Proof.
  induction n as [|n IH]; intros p c mem x Hx; [done|]. cbn [memset]. rewrite IH.
  - apply st8_other. specialize (Hx 0). rewrite Z.add_0_r in Hx. apply Hx. lia.
  - intros k Hk. replace (p + 1 + k) with (p + (k + 1)) by lia. apply Hx. lia.
Qed.

(** The word of a byte of a frame. *)
Lemma word_at_page f b : word_at (page_addr f + b) = page_addr f + 4 * (b / 4).
Proof.
  unfold word_at, page_addr, SUPERVISOR_START, PAGE_SIZE. replace (f * 4096 + 0x80000000 + b) with (b + (f * 1024 + 0x20000000) * 4) by lia.
  rewrite Z.div_add by lia. lia.
Qed.

Lemma quarter a b k : 4 * a <= k < 4 * b -> a <= k / 4 < b.
Proof. intros Hk. pose proof (Z.div_mod k 4 ltac:(lia)). pose proof (Z.mod_pos_bound k 4 ltac:(lia)). lia. Qed.

Definition kernel_dir : Z := page_addr 2.

(** A new address space.  The directory that [copy_kernel_page_table]
    makes is a well-formed address space without any page, its upper half is
    byte for byte that of the kernel's directory, and no other frame has
    changed; without a free frame it returns [NULL] and changes nothing. *)
Theorem copy_kernel_page_table_correct s :
  palloc_wf s.1 -> 0 ∉ free s -> 2 ∉ free s ->
  (free s = ∅ /\ copy_kernel_page_table s = Some (0, s)) \/
  (exists d s', copy_kernel_page_table s = Some (d * PAGE_SIZE, s') /\ d ∈ free s /\ free s' = free s ∖ {[d]} /\
     aspace_at s' d ∅ /\ (forall v, 0 <= v < 2 ^ 19 -> page_entry s' d v = 0) /\
     (forall b, 2048 <= b < PAGE_SIZE -> ld8 s'.2 (page_addr d + b) = ld8 s.2 (kernel_dir + b)) /\
     (forall f j, 0 <= j < PTE_PER_PAGE -> f ≠ d -> wd s' f j = wd s f j)).
Proof.
  intros Hwf H0 H2. unfold copy_kernel_page_table.
  destruct (page_alloc_spec s Hwf) as [[He ->]|(d & s1 & -> & Hd & Hdr & Hf & Hwf1 & Hwd)]; [by left|right].
  cbn [mbind option_bind]. rewrite (proj2 (Z.eqb_neq (page_addr d) 0)) by (unfold page_addr, PAGE_SIZE, SUPERVISOR_START; lia).
  change (getDirectoryOffset SUPERVISOR_START * sizeof_PTE) with 2048. change (kern_p2v KTHREAD_DIR_ADDR) with kernel_dir.
  change (Z.to_nat (PAGE_SIZE - 2048)) with (Z.to_nat 2048). set (m1 := memset (Z.to_nat 2048) (page_addr d) 0 s1.2).
  assert (Hm1 : forall f j, 0 <= j < PTE_PER_PAGE -> word m1 (page_addr f) j = if decide (f = d) then 0 else wd s f j).
  { intros f j Hj. unfold m1, word. destruct (decide (f = d)) as [->|Hne].
    - apply memset_zero. change (wd s1 d j = 0). by rewrite Hwd, decide_True.
    - rewrite memset_other; [change (wd s1 f j = wd s f j); by rewrite Hwd, decide_False|]. intros k Hk. rewrite word_at_page.
      intros E. apply word_inj in E as [-> _]; [done| |done]. apply quarter. unfold PTE_PER_PAGE. lia. }
  clearbody m1. rewrite kernel_memcpy by (unfold kernel_dir, page_addr, PAGE_SIZE, SUPERVISOR_START in *; lia). cbn [mbind option_bind].
  rewrite v2p_frame by done.
  destruct (byte_copy_data (Z.to_nat 2048) Some Some (page_addr d + 2048) (kernel_dir + 2048) m1
    (λ k, page_addr d + 2048 + k) (λ k, kernel_dir + 2048 + k)) as (m2 & E & Hdat); [split; reflexivity|intros; lia| |].
  { intros j k Hj Hk. assert (d ≠ 2) by (intros ->; exact (H2 Hd)). unfold kernel_dir, page_addr, PAGE_SIZE. lia. }
  assert (Hm2 : forall f j, 0 <= j < PTE_PER_PAGE -> f ≠ d \/ j < 512 -> word m2 (page_addr f) j = word m1 (page_addr f) j).
  { intros f j Hj Hor. unfold word. change m2 with (E_OK, m2).2. rewrite <- E. apply byte_copy_words.
    intros k q Hk [= <-]. rewrite <- Z.add_assoc, word_at_page. intros Ew.
    assert (512 <= (2048 + k) / 4 < PTE_PER_PAGE) by (apply quarter; unfold PTE_PER_PAGE; lia).
    apply word_inj in Ew as [E1 E2]; lia. }
  rewrite E. cbn [snd]. clear E.
  assert (Hd0 : d ≠ 0) by (intros ->; done). assert (Hd2 : d ≠ 2) by (intros ->; done).
  assert (Hnone : forall i, 0 <= i < 512 -> wd (s1.1, m2) d i = 0).
  { intros i Hi. unfold wd. cbn [snd]. rewrite Hm2, Hm1, decide_True by (unfold PTE_PER_PAGE; lia). done. }
  assert (HA : aspace_at (s1.1, m2) d ∅).
  { split; cbn [fst]; try done; [rewrite Hf; set_solver|split; [lia|rewrite Hf; set_solver]|intros i Hi _; by apply Hnone]. }
  exists d, (s1.1, m2). split; [done|]. split; [done|]. split; [done|]. split; [done|]. split_and!.
  - intros v Hv. rewrite (page_entry_at _ _ _ _ HA Hv). by rewrite lookup_empty.
  - intros b Hb. cbn [snd]. specialize (Hdat (b - 2048) ltac:(unfold PAGE_SIZE in *; lia)).
    replace (page_addr d + b) with (page_addr d + 2048 + (b - 2048)) by lia. rewrite Hdat.
    replace (kernel_dir + 2048 + (b - 2048)) with (kernel_dir + b) by lia. unfold ld8.
    unfold kernel_dir. rewrite word_at_page. specialize (Hm1 2 (b / 4) ltac:(apply quarter; unfold PTE_PER_PAGE, PAGE_SIZE in *; lia)).
    rewrite decide_False in Hm1 by done. unfold word in Hm1. by rewrite Hm1.
  - intros f j Hj Hne. unfold wd at 1. cbn [snd]. rewrite Hm2, Hm1, decide_False by auto. done.
Qed.

(** ** The stack of a new program, from kernel memory *)

Lemma memrcpy_frame len : forall w r mem x, ~ (w - Z.of_nat len <= x < w) -> ld8 (memrcpy len w r mem) x = ld8 mem x.
Proof.
  induction len as [|len IH]; intros w r mem x Hx; [done|]. cbn [memrcpy]. rewrite IH by lia.
  rewrite ld8_st8, decide_False; [done|lia].
Qed.

(** With the arguments in kernel memory the copy runs down from [to], so that
    [move_stack] reports success although no byte of the stack it was asked to
    fill, [bytes] from [to] on, has changed. *)
Theorem move_stack_kernel_source mem page_table to from bytes :
  let p := getPageAddress mem (kern_p2v page_table) to in
  SUPERVISOR_START <= from -> p ≠ 0 -> 0 <= bytes <= PAGE_SIZE - getOffset to ->
  exists mem', move_stack mem page_table to from bytes = Some (0, mem') /\
    forall k, 0 <= k < bytes -> ld8 mem' (p + getOffset to + k) = ld8 mem (p + getOffset to + k).
Proof.
  intros p Hf Hp Hb. unfold move_stack. rewrite (proj2 (Z.leb_le _ _)), (proj2 (Z.ltb_ge _ _)) by lia. fold p.
  rewrite (proj2 (Z.eqb_neq _ _)) by done. eexists. split; [done|]. intros k Hk.
  destruct (page_address_range mem (kern_p2v page_table) to) as [?|(g & Hg & E)]; [done|]. fold p in E.
  assert (El : Z.lor p (getOffset to) = p + getOffset to).
  { pose proof (getOffset_range to). rewrite E. change PAGE_SIZE with (2 ^ 12) in *. rewrite <- Z.shiftl_mul_pow2 by lia.
    rewrite lor_shiftl_add by lia. rewrite Z.shiftl_mul_pow2; lia. }
  rewrite El. apply memrcpy_frame. lia.
Qed.

(** ** Witnesses *)

(** The memory of [demo_mem], with the frames 16 to 31 free: the space of the
    directory in frame 3 has the pages 16 and 17, that of the directory in
    frame 8 none. *)
Definition demo_machine : machine := (mkMemoryMap 16 0 1 32 [0xffff0000], demo_mem).

Lemma demo_machine_wf : palloc_wf demo_machine.1.
Proof.
  unfold palloc_wf. split_and!.
  - repeat constructor; vm_compute; congruence.
  - reflexivity.
  - by vm_compute.
  - by vm_compute.
  - by vm_compute.
  - by vm_compute.
  - intros n Hn. pose proof (free_bits_lt _ _ Hn). cbn [clock_block demo_machine fst]. lia.
Qed.

Lemma demo_free f : f ∈ free demo_machine <-> 16 <= f < 32.
Proof.
  assert (E : free demo_machine = list_to_set (seqZ 16 16)) by (apply leibniz_equiv; by vm_compute).
  rewrite E, elem_of_list_to_set, elem_of_seqZ. lia.
Qed.

Lemma demo_wd f j : wd demo_machine f j =
  let x := page_addr f + 4 * j in
  if x =? 0x80003000 then 0x4007 else if x =? 0x80004040 then 0x5007 else if x =? 0x80004044 then 0x6007
  else if x =? 0x80009000 then 0x44434241 else 0.
Proof. reflexivity. Qed.

Lemma demo_space : aspace_at demo_machine 3 {[0 := 4]}.
Proof.
  split.
  - apply demo_machine_wf.
  - rewrite demo_free. lia.
  - rewrite demo_free. lia.
  - intros i Hi Hn. rewrite demo_wd. unfold page_addr, PAGE_SIZE, SUPERVISOR_START. cbv zeta.
    destruct (decide (i = 0)) as [->|]; [by rewrite lookup_singleton_eq in Hn|]. repeat case_match; lia.
  - intros i t [<- <-]%lookup_singleton_Some. rewrite demo_free. split_and!; try lia. exists 7. by vm_compute.
  - intros i i' t [<- _]%lookup_singleton_Some [<- _]%lookup_singleton_Some. done.
  - intros i t j [<- <-]%lookup_singleton_Some Hj. rewrite demo_wd. unfold page_addr, PAGE_SIZE, SUPERVISOR_START, PTE_PER_PAGE in *. cbv zeta.
    assert (Hf : forall f, f ∉ free demo_machine <-> ~ (16 <= f < 32)) by (intros f; by rewrite demo_free).
    repeat case_match; try (by left); try lia; right; [exists 5, 7|exists 6, 7]; rewrite Hf;
      (split; [by vm_compute|]); split_and!; try lia; intros i' [_ ?]%lookup_singleton_Some; lia.
Qed.

Lemma demo_empty : aspace_at demo_machine 8 ∅.
Proof.
  split.
  - apply demo_machine_wf.
  - rewrite demo_free. lia.
  - rewrite demo_free. lia.
  - intros i Hi Hn. rewrite demo_wd. unfold page_addr, PAGE_SIZE, SUPERVISOR_START. cbv zeta. repeat case_match; lia.
  - intros i t Ht. by rewrite lookup_empty in Ht.
  - intros i i' t Ht. by rewrite lookup_empty in Ht.
  - intros i t j Ht. by rewrite lookup_empty in Ht.
Qed.

(** Two pages, in two tables; then two more pages around the two there are. *)
Lemma map_user_pages_correct_witness :
  exists e s' tb', map_user_pages demo_machine (8 * PAGE_SIZE) 0x3ff000 2 W_OK = Some (e, s') /\
    grown (λ _ _, 0) ATTR_USER 1023 1025 8 demo_machine ∅ s' tb' /\
    (e = E_OK /\ (forall v, 1023 <= v < 1025 -> page_entry s' 8 v ≠ 0) \/ e = E_NOMEM /\ free s' = ∅).
Proof.
  refine (map_user_pages_correct demo_machine 8 ∅ 0x3ff000 2 W_OK demo_empty _ _ _); [lia|lia|by vm_compute].
Defined.

Lemma demo_once : once true 16 18 3 demo_machine.
Proof.
  intros _ v v' Hv Hv' Hr Hne _. rewrite !(page_entry_at _ _ _ _ demo_space) by done.
  assert (Hv'0 : v' / PTE_PER_PAGE = 0 \/ ({[0 := 4]} : gmap Z Z) !! (v' / PTE_PER_PAGE) = None).
  { destruct (decide (v' / PTE_PER_PAGE = 0)); [by left|right]. by rewrite lookup_singleton_ne. }
  destruct Hv'0 as [E|E]; [|by rewrite E].
  assert (Hs : v' < PTE_PER_PAGE) by (apply Z.div_small_iff in E; [unfold PTE_PER_PAGE in *; lia|done]).
  rewrite E, (Z.mod_small v') by lia. rewrite (Z.div_small v), (Z.mod_small v) by (unfold PTE_PER_PAGE in *; lia).
  rewrite lookup_singleton_eq, !demo_wd. unfold page_addr, PAGE_SIZE, SUPERVISOR_START. cbv zeta. unfold frame_of, PAGE_SIZE.
  assert (v = 16 \/ v = 17) as [->| ->] by lia; cbn; repeat case_match; try lia; by vm_compute.
Qed.

Lemma unmap_user_pages_correct_witness :
  exists s' tb', unmap_user_pages demo_machine (3 * PAGE_SIZE) 0x10000 2 = Some (0, s') /\
    shrunk true 16 18 3 demo_machine {[0 := 4]} s' tb'.
Proof.
  refine (proj1 (unmap_user_pages_correct demo_machine 3 {[0 := 4]} 0x10000 2 demo_space _ _) demo_once); lia.
Defined.

Lemma copy_user_pages_correct_witness :
  exists e s' tbd' w, copy_user_pages demo_machine (8 * PAGE_SIZE) (3 * PAGE_SIZE) 0x10000 3 0 = Some (e, s') /\
    copied ATTR_USER_READ_ONLY 16 3 8 demo_machine 16 w 19 e demo_machine ∅ s' tbd'.
Proof.
  refine (copy_user_pages_correct demo_machine 3 8 {[0 := 4]} ∅ 0x10000 3 0 demo_space demo_empty _ _ _); [|lia|lia].
  intros f Hf. split; [|done]. intros ->. destruct Hf as [|[[i [_ ?]%lookup_singleton_Some]|(v & Hv & Hne & Hf)]]; [lia|lia|].
  destruct (page_entry_frame _ _ _ v demo_space Hv Hne) as (g & a & He & _ & _ & _). rewrite (frame_of_entry _ _ _ He) in Hf. subst g.
  rewrite (page_entry_at _ _ _ _ demo_space Hv) in He. destruct (decide (v / PTE_PER_PAGE = 0)) as [E|E].
  - rewrite E, lookup_singleton_eq, demo_wd in He. cbv zeta in He. destruct He as (_ & Ha & _ & He). unfold PAGE_SIZE in *.
    repeat case_match; lia.
  - rewrite lookup_singleton_ne in He by done. destruct He as (? & ? & ? & ?). unfold PAGE_SIZE in *. lia.
Defined.

Lemma copy_kernel_page_table_correct_witness :
  exists d s', copy_kernel_page_table demo_machine = Some (d * PAGE_SIZE, s') /\ d ∈ free demo_machine /\
    free s' = free demo_machine ∖ {[d]} /\ aspace_at s' d ∅ /\ (forall v, 0 <= v < 2 ^ 19 -> page_entry s' d v = 0) /\
    (forall b, 2048 <= b < PAGE_SIZE -> ld8 s'.2 (page_addr d + b) = ld8 demo_mem (kernel_dir + b)) /\
    (forall f j, 0 <= j < PTE_PER_PAGE -> f ≠ d -> wd s' f j = wd demo_machine f j).
Proof.
  refine (match copy_kernel_page_table_correct demo_machine demo_machine_wf _ _ with or_introl H => _ | or_intror H => H end).
  - rewrite demo_free. lia.
  - rewrite demo_free. lia.
  - exfalso. destruct H as [He _]. assert (Hin : 16 ∈ free demo_machine) by (rewrite demo_free; lia). by rewrite He in Hin.
Defined.
