(* ===== verification/KState.v ===== *)
(** * The nerve: global state and the kernel monad

    The static variables of kernel/*.c and the part of [system_info_t] the
    kernel uses, as one record.  The record is parametric in the lists (so that
    the same code runs on the pointers of list.c and on the rings they stand
    for) and in a [Platform]: the keyed store, the object allocators, the
    copies between address spaces and the queue of delayed calls, each
    through the interface the kernel sees. *)

From S2P Require Import Prelude Lists AATree Sequence KTypes.

(** ** Interfaces to the other components *)

(** [thread_slab], [reply_slab] and the pages: allocation returns [NULL] as
    [None], or as 0 for pages. *)
Class KernelMemory (Mm : Type) := {
  thread_slab_create : Mm -> option Mm;
  reply_slab_create : Mm -> option Mm;
  thread_alloc : Mm -> option (option Z * Mm);
  thread_free : Mm -> Z -> option Mm;
  reply_alloc : Mm -> option (option Z * Mm);
  reply_free : Mm -> Z -> option Mm;
  page_alloc : Mm -> option (Z * Mm);
  page_free : Mm -> Z -> option Mm;
}.

(** Copies between the running address space and a thread's: the arguments
    are the page directory in force, the thread, and those of the C function.
    The functions check the pages of the thread only; [None] is a page fault
    inside of the kernel, at an address of the other side. *)
Class MsgCopy (U : Type) := {
  memcpy_k2u : U -> Z -> thread_t -> Z -> Z -> Z -> option (Z * U);
  memcpy_u2k : U -> Z -> thread_t -> Z -> Z -> Z -> option (Z * U);
  strncpy_u2k : U -> Z -> thread_t -> Z -> Z -> Z -> option (Z * U);
  scattered_copy_u2k : U -> Z -> thread_t -> Z -> Z -> Z -> option (Z * U);
}.

(** The functions the kernel passes to [icall->handle]. *)
Inductive handler := H_ready_rotate | H_thread_destroy.

Record delay_param_t := DelayParam { dp_arg1 : handler; dp_arg2 : Z; dp_arg3 : Z }.

(** The queue of delayed calls: [false] when there is no room. *)
Class DelayQueue (Q : Type) := {
  kq_put : Q -> delay_param_t -> bool * Q;
  kq_take : Q -> option delay_param_t * Q;
}.

(** [pf_thread_end] is the address of the function [thread_end], where the
    entry function of a kernel thread returns to. *)
Class Platform := {
  pf_tree : Type -> Type;
  pf_memory : Type;
  pf_umem : Type;
  pf_kqueue : Type;
  pf_thread_end : Z;
  #[global] pf_keymap :: KeyMap pf_tree;
  #[global] pf_kmem :: KernelMemory pf_memory;
  #[global] pf_copy :: MsgCopy pf_umem;
  #[global] pf_delay :: DelayQueue pf_kqueue;
}.

(** ** Global state *)

(** The registers and variables of drivers/i686/context.c. *)
Record cpu_t := Cpu {
  cpu_cr3 : Z;
  current_page_table : Z;
  fpu_holder : Z;
  cpu_fpu : Z;
  tss_esp0 : Z;
}.

(** [sysinfo->sync.state] and [sysinfo->delay_thread_start]. *)
Record sync_t := Sync {
  interrupt_nest : Z;
  no_request : Z;
  serializing : Z;
  delay_thread_start : bool;
}.

(** The union's [dispatch_skippable]: the three fields read as one word. *)
Definition dispatch_skippable (s : sync_t) : Z :=
  Z.lor (interrupt_nest s) (Z.lor (Z.shiftl (no_request s) 16) (Z.shiftl (serializing s) 24)).

Section State.
Context {P : Platform}.

Record kernel (H : Type) := Kernel {
  lists : H;
  threads : gmap Z thread_t;
  replies : gmap Z reply_t;
  running : Z;
  ready_bits : Z;
  thread_tree : pf_tree Z;
  reply_tree : pf_tree Z;
  reply_sequence : sequence_t;
  sync : sync_t;
  kqueue : pf_kqueue;
  memory : pf_memory;
  umem : pf_umem;
  cpu : cpu_t;
}.

End State.

Arguments kernel {P} H.
Arguments Kernel {P H}.
Arguments lists {P H}.
Arguments threads {P H}.
Arguments replies {P H}.
Arguments running {P H}.
Arguments ready_bits {P H}.
Arguments thread_tree {P H}.
Arguments reply_tree {P H}.
Arguments reply_sequence {P H}.
Arguments sync {P H}.
Arguments kqueue {P H}.
Arguments memory {P H}.
Arguments umem {P H}.
Arguments cpu {P H}.

Section Updates.
Context {P : Platform} {H : Type}.
Implicit Types k : kernel H.

Definition set_lists {H'} (v : H') k : kernel H' :=
  Kernel v (threads k) (replies k) (running k) (ready_bits k) (thread_tree k) (reply_tree k)
    (reply_sequence k) (sync k) (kqueue k) (memory k) (umem k) (cpu k).
Definition set_threads v k : kernel H :=
  Kernel (lists k) v (replies k) (running k) (ready_bits k) (thread_tree k) (reply_tree k)
    (reply_sequence k) (sync k) (kqueue k) (memory k) (umem k) (cpu k).
Definition set_replies v k : kernel H :=
  Kernel (lists k) (threads k) v (running k) (ready_bits k) (thread_tree k) (reply_tree k)
    (reply_sequence k) (sync k) (kqueue k) (memory k) (umem k) (cpu k).
Definition set_running v k : kernel H :=
  Kernel (lists k) (threads k) (replies k) v (ready_bits k) (thread_tree k) (reply_tree k)
    (reply_sequence k) (sync k) (kqueue k) (memory k) (umem k) (cpu k).
Definition set_ready_bits v k : kernel H :=
  Kernel (lists k) (threads k) (replies k) (running k) v (thread_tree k) (reply_tree k)
    (reply_sequence k) (sync k) (kqueue k) (memory k) (umem k) (cpu k).
Definition set_thread_tree v k : kernel H :=
  Kernel (lists k) (threads k) (replies k) (running k) (ready_bits k) v (reply_tree k)
    (reply_sequence k) (sync k) (kqueue k) (memory k) (umem k) (cpu k).
Definition set_reply_tree v k : kernel H :=
  Kernel (lists k) (threads k) (replies k) (running k) (ready_bits k) (thread_tree k) v
    (reply_sequence k) (sync k) (kqueue k) (memory k) (umem k) (cpu k).
Definition set_reply_sequence v k : kernel H :=
  Kernel (lists k) (threads k) (replies k) (running k) (ready_bits k) (thread_tree k) (reply_tree k)
    v (sync k) (kqueue k) (memory k) (umem k) (cpu k).
Definition set_sync v k : kernel H :=
  Kernel (lists k) (threads k) (replies k) (running k) (ready_bits k) (thread_tree k) (reply_tree k)
    (reply_sequence k) v (kqueue k) (memory k) (umem k) (cpu k).
Definition set_kqueue v k : kernel H :=
  Kernel (lists k) (threads k) (replies k) (running k) (ready_bits k) (thread_tree k) (reply_tree k)
    (reply_sequence k) (sync k) v (memory k) (umem k) (cpu k).
Definition set_memory v k : kernel H :=
  Kernel (lists k) (threads k) (replies k) (running k) (ready_bits k) (thread_tree k) (reply_tree k)
    (reply_sequence k) (sync k) (kqueue k) v (umem k) (cpu k).
Definition set_umem v k : kernel H :=
  Kernel (lists k) (threads k) (replies k) (running k) (ready_bits k) (thread_tree k) (reply_tree k)
    (reply_sequence k) (sync k) (kqueue k) (memory k) v (cpu k).
Definition set_cpu v k : kernel H :=
  Kernel (lists k) (threads k) (replies k) (running k) (ready_bits k) (thread_tree k) (reply_tree k)
    (reply_sequence k) (sync k) (kqueue k) (memory k) (umem k) v.

End Updates.

Definition set_no_request (v : Z) (s : sync_t) : sync_t :=
  Sync (interrupt_nest s) v (serializing s) (delay_thread_start s).
Definition set_serializing (v : Z) (s : sync_t) : sync_t :=
  Sync (interrupt_nest s) (no_request s) v (delay_thread_start s).
Definition set_delay_thread_start (v : bool) (s : sync_t) : sync_t :=
  Sync (interrupt_nest s) (no_request s) (serializing s) v.

(** ** The kernel monad *)

Definition M {P : Platform} (H A : Type) : Type := kernel H -> option (A * kernel H).

#[export] Instance M_ret {P : Platform} {H} : MRet (M H) := λ A x k, Some (x, k).

#[export] Instance M_bind {P : Platform} {H} : MBind (M H) := λ A B f m k,
  match m k with Some (x, k) => f x k | None => None end.

Section Monad.
Context {P : Platform} {H : Type} `{!ListOps loc H}.

(** Undefined behaviour. *)
Definition fail {A} : M H A := λ _, None.

Definition gets {A} (f : kernel H -> A) : M H A := λ k, Some (f k, k).

Definition modify (f : kernel H -> kernel H) : M H unit := λ k, Some (tt, f k).

Definition some {A} (o : option A) : M H A := λ k, x ← o; Some (x, k).

(** *** Objects: a dead object cannot be read or written *)

Definition thread (a : Z) : M H thread_t := λ k, th ← threads k !! a; Some (th, k).

Definition upd_thread (a : Z) (f : thread_t -> thread_t) : M H unit := λ k,
  th ← threads k !! a; Some (tt, set_threads (<[a := f th]> (threads k)) k).

Definition reply_at (r : Z) : M H reply_t := λ k, x ← replies k !! r; Some (x, k).

Definition upd_sync (f : sync_t -> sync_t) : M H unit := modify (λ k, set_sync (f (sync k)) k).

(** *** Lists *)

Definition l_initialize (e : loc) : M H unit := λ k,
  h ← op_initialize (lists k) e; Some (tt, set_lists h k).
Definition l_clear (e : loc) : M H unit := λ k,
  h ← op_clear (lists k) e; Some (tt, set_lists h k).
Definition l_enqueue (g e : loc) : M H unit := λ k,
  h ← list_enqueue (lists k) g e; Some (tt, set_lists h k).
Definition l_remove (e : loc) : M H unit := λ k,
  h ← op_remove (lists k) e; Some (tt, set_lists h k).
Definition l_dequeue (g : loc) : M H (option loc) := λ k,
  '(o, h) ← list_dequeue (lists k) g; Some (o, set_lists h k).
Definition l_head (g : loc) : M H (option loc) := λ k, o ← op_head (lists k) g; Some (o, k).
Definition l_next (g : loc) : M H loc := λ k, o ← op_next (lists k) g; Some (o, k).
Definition l_prev (g : loc) : M H loc := λ k, o ← op_prev (lists k) g; Some (o, k).

(** [getThread] and [getThreadWaiting]: from the link to its thread. *)
Definition getThread (p : loc) : M H Z := match p with LQueue a => mret a | _ => fail end.
Definition getThreadWaiting (p : loc) : M H Z := match p with LWaiting a => mret a | _ => fail end.

(** *** Trees, allocators, copies *)

Definition thread_tree_get (id : Z) : M H (option Z) := gets (λ k, km_get (thread_tree k) id).
Definition thread_tree_put (id a : Z) : M H bool := λ k,
  '(b, t) ← km_put (thread_tree k) id a; Some (b, set_thread_tree t k).
Definition thread_tree_remove (id : Z) : M H (option Z) := λ k,
  '(o, t) ← km_remove (thread_tree k) id; Some (o, set_thread_tree t k).
Definition reply_tree_get (key : Z) : M H (option Z) := gets (λ k, km_get (reply_tree k) key).
Definition reply_tree_put (key r : Z) : M H bool := λ k,
  '(b, t) ← km_put (reply_tree k) key r; Some (b, set_reply_tree t k).
Definition reply_tree_remove (key : Z) : M H (option Z) := λ k,
  '(o, t) ← km_remove (reply_tree k) key; Some (o, set_reply_tree t k).

(** [create_tree] of kernel/tree_utils.c for the two trees of the kernel. *)
Definition create_thread_tree : M H unit := λ k,
  m ← thread_slab_create (memory k); Some (tt, set_thread_tree km_new (set_memory m k)).
Definition create_reply_tree : M H unit := λ k,
  m ← reply_slab_create (memory k); Some (tt, set_reply_tree km_new (set_memory m k)).

(** Memory given back is not an object any more. *)
Definition slab_alloc_thread : M H (option Z) := λ k,
  '(o, m) ← thread_alloc (memory k); Some (o, set_memory m k).
Definition slab_free_thread (a : Z) : M H unit := λ k,
  m ← thread_free (memory k) a; Some (tt, set_threads (delete a (threads k)) (set_memory m k)).
Definition slab_alloc_reply : M H (option Z) := λ k,
  '(o, m) ← reply_alloc (memory k); Some (o, set_memory m k).
Definition slab_free_reply (r : Z) : M H unit := λ k,
  m ← reply_free (memory k) r; Some (tt, set_replies (delete r (replies k)) (set_memory m k)).
Definition palloc_page : M H Z := λ k, '(p, m) ← page_alloc (memory k); Some (p, set_memory m k).
Definition pfree_page (p : Z) : M H unit := λ k, m ← page_free (memory k) p; Some (tt, set_memory m k).

Definition get_sequence : M H Z := λ k,
  '(n, s) ← sequence_get (reply_sequence k); Some (n, set_reply_sequence s k).
Definition release_sequence (n : Z) : M H unit := λ k,
  s ← sequence_release (reply_sequence k) n; Some (tt, set_reply_sequence s k).

Definition copy (f : pf_umem -> Z -> thread_t -> Z -> Z -> Z -> option (Z * pf_umem))
    (a x y z : Z) : M H Z := λ k,
  th ← threads k !! a;
  '(r, u) ← f (umem k) (cpu_cr3 (cpu k)) th x y z;
  Some (r, set_umem u k).

End Monad.
