(* ===== verification/KSched.v ===== *)
(** * The nerve: scheduling (kernel/ready.c, kernel/sync.c, drivers/i686/context.c)

    The ready queues with their bit map, blocking and releasing a thread, the
    dispatcher, and the context switch.  [leave_serialize], [dispatch] and
    [ipc_notify] call one another: the cycle is written with the dispatcher as
    an argument and closed with fuel; the specification of the dispatcher in
    KSchedOk.v holds for every inner dispatcher, so the inner call is never
    made. *)

From S2P Require Import Prelude Lists AATree Sequence KTypes KState.

(** ** Building a thread's first stack frame *)

Definition EFLAGS_INTERRUPT_ENABLE : Z := 0x200.
Definition EFLAGS_IOPL_3 : Z := 0x3000.
Definition kern_code : Z := 0x08.
Definition kern_data : Z := 0x10.
Definition user_code : Z := 0x18.
Definition user_data : Z := 0x20.
Definition dpl_user : Z := 3.

(** A stack: its pointer, and what has been pushed, last word first. *)
Definition push (w : Z) (s : Z * list Z) : Z * list Z := (s.1 - 4, w :: s.2).

Definition context_create_kernel (s : Z * list Z) (eflags eip : Z) : Z * list Z :=
  let s := push eflags s in
  let s := push kern_code s in
  let s := push eip s in
  let s := push kern_data s in
  let s := push kern_data s in
  let s := push kern_data s in
  let s := push kern_data s in
  let esp0 := s.1 in
  let s := push 0 s in
  let s := push 0 s in
  let s := push 0 s in
  let s := push 0 s in
  let s := push esp0 s in
  let s := push 0 s in
  let s := push 0 s in
  push 0 s.

Definition context_create_user (s : Z * list Z) (eflags eip esp : Z) : Z * list Z :=
  let s := push (Z.lor user_data dpl_user) s in
  let s := push esp s in
  let s := push eflags s in
  let s := push (Z.lor user_code dpl_user) s in
  let s := push eip s in
  let s := push user_data s in
  let s := push user_data s in
  let s := push user_data s in
  let s := push user_data s in
  let esp0 := s.1 in
  let s := push 0 s in
  let s := push 0 s in
  let s := push 0 s in
  let s := push 0 s in
  let s := push esp0 s in
  let s := push 0 s in
  let s := push 0 s in
  push 0 s.

Section Sched.
Context {P : Platform} {H : Type} `{!ListOps loc H}.

(** The stack [create_context] builds: the registers the first switch to the
    thread pops. *)
Definition initial_stack (th : thread_t) : Z * list Z :=
  let eflags := Z.lor EFLAGS_INTERRUPT_ENABLE EFLAGS_IOPL_3 in
  let sp := (kstack_tail (attr th), []) in
  if is_kthread th then
    context_create_kernel (push pf_thread_end (push (arg (attr th)) sp)) eflags (entry (attr th))
  else context_create_user sp eflags (entry (attr th)) (ustack_top (attr th)).

Definition create_context (a : Z) : M H unit :=
  th ← thread a;
  let s := initial_stack th in
  upd_thread a (set_mpu (λ m, set_frame s.2 (set_esp0 s.1 m))).

Definition context_release (a : Z) : M H unit :=
  modify (λ k, if a =? fpu_holder (cpu k)
               then set_cpu (Cpu (cpu_cr3 (cpu k)) (current_page_table (cpu k)) 0
                               (cpu_fpu (cpu k)) (tss_esp0 (cpu k))) k
               else k).

(** The part of [context_switch] that loads the machine's registers; the last
    one, [stack_switch], is the change of [running] itself. *)
Definition context_switch (next : Z) : M H unit :=
  th ← thread next;
  if is_kthread th then mret tt
  else
    c ← gets cpu;
    modify (set_cpu (if cr3 (mpu th) =? current_page_table c then c
                     else Cpu (cr3 (mpu th)) (cr3 (mpu th)) (fpu_holder c) (cpu_fpu c) (tss_esp0 c)));;
    if next =? fpu_holder c then mret tt
    else
      (if fpu_holder c =? 0 then mret tt
       else upd_thread (fpu_holder c) (set_mpu (set_fpu_state (cpu_fpu c))));;
      th ← thread next;
      modify (λ k, set_cpu (Cpu (cpu_cr3 (cpu k)) (current_page_table (cpu k)) next
                              (fpu_state (mpu th)) (kstack_tail (attr th))) k).

(** ** Ready queues *)

Fixpoint ready_initialize_loop (n : nat) (i : Z) : M H unit :=
  match n with
  | O => mret tt
  | S n => l_initialize (LReady i);; ready_initialize_loop n (i + 1)
  end.

Definition ready_initialize : M H unit :=
  ready_initialize_loop (Z.to_nat (MAX_PRIORITY - MIN_PRIORITY + 1)) MIN_PRIORITY;;
  modify (set_ready_bits 0).

(** [src] is the [queue] link of a thread. *)
Definition ready_enqueue (pri : Z) (src : loc) : M H unit :=
  modify (λ k, set_ready_bits (bit_set (ready_bits k) pri) k);;
  l_enqueue (LReady pri) src.

(** The loop of [ready_dequeue]; every turn clears a bit of a 32-bit word. *)
Fixpoint ready_dequeue_loop (n : nat) : M H (option Z) :=
  match n with
  | O => fail
  | S n =>
      bits ← gets ready_bits;
      if bits =? 0 then mret None
      else
        let pri := count_ntz bits in
        q ← l_head (LReady pri);
        match q with
        | Some q => a ← getThread q; mret (Some a)
        | None => modify (set_ready_bits (bit_clear bits pri));; ready_dequeue_loop n
        end
  end.

Definition ready_dequeue : M H (option Z) := ready_dequeue_loop 33.

(** ** Critical sections, waiting and releasing *)

Definition enter_serialize : M H unit := upd_sync (set_serializing 1).

Definition release (a : Z) : M H unit :=
  upd_thread a (set_wait (set_wtype wait_none));;
  upd_thread a (λ th, set_status (Z.land (status th) (Z.lnot TTS_WAI)) th);;
  th ← thread a;
  if status th =? 0 then
    upd_thread a (set_status TTS_RDY);;
    ready_enqueue (priority th) (LQueue a)
  else mret tt.

(** The loop of [release_all]: a queue holds each thread once at most. *)
Fixpoint release_all_loop (n : nat) (waiting : loc) : M H unit :=
  match n with
  | O => fail
  | S n =>
      q ← l_dequeue waiting;
      match q with
      | None => mret tt
      | Some q =>
          p ← getThreadWaiting q;
          upd_thread p (set_wait (set_wresult E_DLT));;
          release p;;
          release_all_loop n waiting
      end
  end.

Definition release_all (waiting : loc) : M H unit :=
  n ← gets (λ k, size (threads k));
  release_all_loop (S n) waiting.

Definition get_thread_ptr (tskid : Z) : M H (option Z) := thread_tree_get tskid.

(** ** The dispatcher *)

Section Cycle.
Context (dispatch : M H unit).

Definition leave_serialize_ : M H unit :=
  upd_sync (set_serializing 0);;
  s ← gets sync;
  if dispatch_skippable s =? 0 then dispatch else mret tt.

Definition ipc_notify_ (port_id flg : Z) : M H Z :=
  enter_serialize;;
  p ← get_thread_ptr port_id;
  result ←
    (match p with
     | None => mret E_NOEXS
     | Some a =>
         th ← thread a;
         if status th =? TTS_DMT then mret E_OBJ
         else if bool_decide ((status th = TTS_WAI \/ status th = TTS_WAS) /\
                (wtype (wait_reason th) = wait_flag \/ wtype (wait_reason th) = wait_receive)) then
           upd_thread a (set_port (set_flag 0));;
           upd_thread a (set_wait (set_wresult E_RLWAI));;
           l_remove (LWaiting a);;
           release a;;
           mret E_OK
         else
           upd_thread a (set_port (λ p, set_flag (Z.lor (flag p) flg) p));;
           mret E_OK
     end);
  leave_serialize_;;
  mret result.

(** Interrupts are off from [enter_critical] to [leave_critical]. *)
Definition dispatch_ : M H unit :=
  s ← gets sync;
  if negb (serializing s =? 0) then upd_sync (set_no_request 0)
  else
    upd_sync (set_no_request 1);;
    (if delay_thread_start s then
       upd_sync (set_delay_thread_start false);;
       ipc_notify_ PORT_DELAY EVENT_INTERRUPT;;
       mret tt
     else mret tt);;
    prev ← gets running;
    next ← ready_dequeue;
    if bool_decide (next = Some prev) then mret tt
    else
      th ← thread prev;
      (if status th =? TTS_RUN then upd_thread prev (set_status TTS_RDY) else mret tt);;
      next ← some next;
      upd_thread next (set_status TTS_RUN);;
      modify (set_running next);;
      context_switch next.

End Cycle.

Fixpoint dispatch_fuel (n : nat) : M H unit :=
  match n with O => fail | S n => dispatch_ (dispatch_fuel n) end.

Definition dispatch : M H unit := dispatch_fuel 1.

Definition leave_serialize : M H unit := leave_serialize_ dispatch.

Definition ipc_notify (port_id flg : Z) : M H Z := ipc_notify_ dispatch port_id flg.

Definition leave_serialize_and_dispatch : M H unit :=
  upd_sync (set_no_request 0);;
  leave_serialize.

(** [wait] gives the processor away; what follows the call in its caller runs
    when the thread is dispatched again. *)
Definition wait (a : Z) : M H unit :=
  upd_thread a (set_wait (set_wresult E_OK));;
  upd_thread a (set_status TTS_WAI);;
  l_remove (LQueue a);;
  leave_serialize_and_dispatch.

(** ** Time slices *)

Definition ready_rotate (pri th : Z) : M H unit :=
  enter_serialize;;
  let guard := LReady pri in
  head ← l_next guard;
  (if bool_decide (head = guard) then mret tt
   else
     a ← getThread head;
     last ← l_prev guard;
     if bool_decide (a = th /\ last ≠ head) then
       l_dequeue guard;;
       l_enqueue guard head
     else mret tt);;
  leave_serialize.

(** servers/interrupt/main.c: [kq_enqueue] behind [icall->handle]. *)
Definition delayed_handle (callback : handler) (arg1 arg2 : Z) : M H Z :=
  r ← (λ k, let '(b, q) := kq_put (kqueue k) (DelayParam callback arg1 arg2) in
            Some (b, set_kqueue q k));
  if negb r then mret E_TMOUT
  else
    upd_sync (set_no_request 0);;
    upd_sync (set_delay_thread_start true);;
    mret E_OK.

Definition tick : M H unit :=
  a ← gets running;
  th ← thread a;
  if is_kthread th then mret tt
  else
    let q := u32 (quantum th - 1) in
    upd_thread a (set_quantum q);;
    if q =? 0 then
      upd_thread a (set_quantum TIME_QUANTUM);;
      delayed_handle H_ready_rotate (priority th) a;;
      mret tt
    else mret tt.

(** ** Interrupts (drivers/i686/interrupt.c) *)

Definition set_interrupt_nest (v : Z) (s : sync_t) : sync_t :=
  Sync v (no_request s) (serializing s) (delay_thread_start s).

(** [interrupt], [isr] being the services bound to the number: a dispatch that
    they request happens when the outermost interrupt ends. *)
Definition interrupt (isr : M H unit) : M H unit :=
  upd_sync (λ s, set_interrupt_nest (u16 (interrupt_nest s + 1)) s);;
  isr;;
  upd_sync (λ s, set_interrupt_nest (u16 (interrupt_nest s - 1)) s);;
  s ← gets sync;
  if dispatch_skippable s =? 0 then dispatch else mret tt.

End Sched.
