(* ===== verification/KThread.v ===== *)
(** * The nerve: threads (kernel/thread.c, kernel/start.c)

    Creation, start, end, termination, suspension and resumption of threads,
    and the boot of the kernel up to its first dispatch. *)

From S2P Require Import Prelude Lists AATree Sequence Palloc KTypes KState KSched.

Section Thread.
Context {P : Platform} {H : Type} `{!ListOps loc H}.

(** ** Creation *)

(** A thread whose fields, [node] apart, [memset] has cleared. *)
Definition cleared (key : Z) : thread_t :=
  Thread key 0 (WaitReason wait_none 0 0 0 0) 0 0 (ThreadAttr 0 0 0 0 0) (Port false 0 0 0 0)
    (MpuContext 0 0 0 []).

Definition setup (a : Z) (pk : T_CTSK) : M H Z :=
  p ← (if negb (stk pk =? 0) then mret (Some (stk pk))
       else
         p ← palloc_page;
         mret (if p =? 0 then None else Some (u32 (p + stksz pk))));
  match p with
  | None => mret E_NOMEM
  | Some p =>
      upd_thread a (λ th, cleared (node_key th));;
      l_clear (LQueue a);; l_clear (LWaiting a);; l_clear (LLocking a);;
      l_clear (LCaller a);; l_clear (LReceiver a);;
      l_initialize (LQueue a);;
      l_initialize (LWaiting a);;
      l_initialize (LLocking a);;
      upd_thread a (λ th,
        Thread (node_key th) TTS_DMT (wait_reason th) (priority th) (quantum th)
          (ThreadAttr (itskpri pk) (kern_p2v p) (ctsk_ustack_top pk) (task pk) (exinf pk))
          (port th)
          (MpuContext (kern_p2v p)
             (if ctsk_ustack_top pk =? 0 then KTHREAD_DIR_ADDR else page_table pk)
             (fpu_state (mpu th)) (frame (mpu th))));;
      mret E_OK
  end.

Definition fire (a : Z) : M H unit :=
  upd_thread a (λ th, set_priority (attr_priority (attr th)) th);;
  upd_thread a (set_quantum TIME_QUANTUM);;
  upd_thread a (set_port (set_flag 0));;
  create_context a;;
  upd_thread a (set_status TTS_RDY);;
  th ← thread a;
  ready_enqueue (priority th) (LQueue a);;
  leave_serialize_and_dispatch.

(** The key [tree_put] writes into the node it links; the rest of the object
    is what the memory held. *)
Definition new_thread (a key : Z) : M H unit :=
  modify (λ k, set_threads (<[a := set_node_key key (default (cleared 0) (threads k !! a))]> (threads k)) k).

Definition thread_create (tskid : Z) (pk : T_CTSK) : M H Z :=
  if (tskid <? MIN_MANUAL_ID) || (MAX_AUTO_ID <? tskid) then mret E_ID
  else if negb (Z.land (tskatr pk) TA_ASM =? 0) then mret E_RSATR
  else if negb (stksz pk =? KTHREAD_STACK_SIZE) then mret E_PAR
  else
    enter_serialize;;
    node ← slab_alloc_thread;
    match node with
    | None => leave_serialize;; mret E_NOMEM
    | Some a =>
        ok ← thread_tree_put tskid a;
        if negb ok then slab_free_thread a;; leave_serialize;; mret E_OBJ
        else
          new_thread a tskid;;
          result ← setup a pk;
          if negb (result =? 0) then
            th ← thread a;
            node ← thread_tree_remove (node_key th);
            match node with
            | Some a => slab_free_thread a;; leave_serialize;; mret result
            | None => leave_serialize;; mret result
            end
          else if negb (Z.land (tskatr pk) TA_ACT =? 0) then fire a;; mret E_OK
          else leave_serialize;; mret E_OK
    end.

(** ** Life cycle *)

Definition release_resources (a : Z) : M H unit :=
  th ← thread a;
  pfree_page (u32 (kstack_tail (attr th) - KTHREAD_STACK_SIZE)).

Definition thread_destroy (tskid : Z) : M H Z :=
  enter_serialize;;
  p ← get_thread_ptr tskid;
  result ←
    (match p with
     | None => mret E_NOEXS
     | Some a =>
         th ← thread a;
         if negb (status th =? TTS_DMT) then mret E_OBJ
         else
           context_release a;;
           release_resources a;;
           node ← thread_tree_remove tskid;
           (match node with Some a => slab_free_thread a | None => mret tt end);;
           mret E_OK
     end);
  leave_serialize;;
  mret result.

Definition thread_start (tskid : Z) : M H Z :=
  enter_serialize;;
  tskid ← (if tskid =? TSK_SELF then self ← gets running; me ← thread self; mret (thread_id me)
           else mret tskid);
  p ← get_thread_ptr tskid;
  match p with
  | None => leave_serialize;; mret E_NOEXS
  | Some a =>
      th ← thread a;
      if negb (status th =? TTS_DMT) then leave_serialize;; mret E_QOVR
      else fire a;; mret E_OK
  end.

Definition thread_end : M H unit :=
  enter_serialize;;
  a ← gets running;
  l_remove (LQueue a);;
  upd_thread a (set_status TTS_DMT);;
  leave_serialize_and_dispatch.

Definition thread_end_and_destroy : M H unit :=
  enter_serialize;;
  a ← gets running;
  th ← thread a;
  delayed_handle H_thread_destroy (thread_id th) 0;;
  thread_end.

Definition thread_terminate (tskid : Z) : M H Z :=
  enter_serialize;;
  p ← get_thread_ptr tskid;
  result ←
    (match p with
     | None => mret E_NOEXS
     | Some a =>
         th ← thread a;
         if status th =? TTS_RUN then mret E_ILUSE
         else if status th =? TTS_RDY then
           l_remove (LQueue a);;
           upd_thread a (set_status TTS_DMT);;
           mret E_OK
         else if (status th =? TTS_WAI) || (status th =? TTS_WAS) || (status th =? TTS_SUS) then
           (if bool_decide (wtype (wait_reason th) = wait_none) || (status th =? TTS_SUS) then mret tt
            else
              upd_thread a (set_wait (set_wtype wait_none));;
              l_remove (LWaiting a));;
           upd_thread a (set_status TTS_DMT);;
           mret E_OK
         else mret E_OBJ
     end);
  leave_serialize;;
  mret result.

Definition thread_suspend (tskid : Z) : M H Z :=
  enter_serialize;;
  self ← gets running;
  p ← (if tskid =? TSK_SELF then mret (Some self) else get_thread_ptr tskid);
  match p with
  | None => leave_serialize;; mret E_NOEXS
  | Some a =>
      th ← thread a;
      if status th =? TTS_RUN then
        upd_thread a (set_status TTS_SUS);;
        l_remove (LQueue a);;
        (if tskid =? TSK_SELF then leave_serialize_and_dispatch else leave_serialize);;
        mret E_OK
      else if status th =? TTS_RDY then
        upd_thread a (set_status TTS_SUS);;
        l_remove (LQueue a);;
        leave_serialize;;
        mret E_OK
      else if status th =? TTS_WAI then
        upd_thread a (set_status TTS_WAS);;
        leave_serialize;;
        mret E_OK
      else if (status th =? TTS_SUS) || (status th =? TTS_WAS) then leave_serialize;; mret E_QOVR
      else leave_serialize;; mret E_OBJ
  end.

Definition thread_resume (tskid : Z) : M H Z :=
  enter_serialize;;
  p ← get_thread_ptr tskid;
  match p with
  | None => leave_serialize;; mret E_NOEXS
  | Some a =>
      th ← thread a;
      if status th =? TTS_SUS then
        upd_thread a (set_status TTS_RDY);;
        ready_enqueue (priority th) (LQueue a);;
        leave_serialize_and_dispatch;;
        mret E_OK
      else if status th =? TTS_WAS then
        upd_thread a (set_status TTS_WAI);;
        leave_serialize;;
        mret E_OK
      else leave_serialize;; mret E_OBJ
  end.

Definition thread_get_id : M H Z :=
  a ← gets running; th ← thread a; mret (node_key th).

(** ** Delayed calls (servers/interrupt/main.c) *)

(** One turn of [delay_process]: the next delayed call, [false] when the
    queue is empty and the thread listens. *)
Definition delay_turn : M H bool :=
  o ← (λ k, let '(o, q) := kq_take (kqueue k) in Some (o, set_kqueue q k));
  match o with
  | Some d =>
      match dp_arg1 d with
      | H_ready_rotate => ready_rotate (dp_arg2 d) (dp_arg3 d)
      | H_thread_destroy => thread_destroy (dp_arg2 d);; mret tt
      end;;
      mret true
  | None => mret false
  end.

End Thread.
