(* ===== verification/KIpc.v ===== *)
(** * The nerve: inter-process communication (kernel/ipc.c, kernel/api.c)

    Ports, calls, receptions, replies and notifications.  A function that
    waits ends there with the continuation it will run when its thread is
    dispatched again: [Block] carries it, [ipc_resume] runs it. *)

From S2P Require Import Prelude Lists AATree Sequence KTypes KState KSched KThread.

(** What is left to do after [wait] returns, by function; [KCall] keeps the
    key of the rendezvous. *)
Inductive cont := KCall (reply_key : Z) | KReceive | KSend | KListen.

(** The value returned and, for [ipc_receive], what is stored in [*tag]. *)
Inductive outcome :=
  | Return (v : Z) (tag : option Z)
  | Block (c : cont).

Section Ipc.
Context {P : Platform} {H : Type} `{!ListOps loc H}.

Definition ret (v : Z) : M H outcome := mret (Return v None).

Definition fail_with (v : Z) : M H outcome := leave_serialize;; ret v.

(** ** Ports *)

Definition clear (a : Z) (pk : T_CPOR) : M H unit :=
  upd_thread a (set_port (set_opened true));;
  l_initialize (LCaller a);;
  l_initialize (LReceiver a);;
  upd_thread a (set_port (λ p, Port (opened p) (flag p) (poratr pk) (maxcmsz pk) (maxrmsz pk))).

Definition ipc_open (pk : option T_CPOR) : M H Z :=
  match pk with
  | None => mret E_PAR
  | Some pk =>
      if negb (poratr pk =? TA_TFIFO) then mret E_RSATR
      else
        enter_serialize;;
        a ← gets running;
        th ← thread a;
        result ← (if opened (port th) then mret E_OBJ else clear a pk;; mret E_OK);
        leave_serialize;;
        mret result
  end.

Definition ipc_close : M H Z :=
  enter_serialize;;
  a ← gets running;
  th ← thread a;
  result ←
    (if negb (opened (port th)) then mret E_OBJ
     else
       upd_thread a (set_port (set_opened false));;
       release_all (LReceiver a);;
       release_all (LCaller a);;
       mret E_OK);
  leave_serialize_and_dispatch;;
  mret result.

(** ** Rendezvous *)

Definition release_rendezvous (key : Z) : M H unit :=
  node ← reply_tree_remove key;
  match node with
  | Some r => slab_free_reply r;; release_sequence key
  | None => mret tt
  end.

(** Handing a message to a waiting receiver. *)
Definition deliver (tp size tag : Z) : M H unit :=
  l_remove (LWaiting tp);;
  upd_thread tp (set_wait (set_ipc_size size));;
  upd_thread tp (set_wait (set_ipc_key tag));;
  release tp.

Definition ipc_call (port_id message size : Z) : M H outcome :=
  enter_serialize;;
  p ← get_thread_ptr port_id;
  match p with
  | None => fail_with E_NOEXS
  | Some o =>
      th ← thread o;
      if negb (opened (port th)) then fail_with E_NOEXS
      else if max_call (port th) <? size then fail_with E_PAR
      else
        reply_key ← get_sequence;
        if reply_key <? 0 then fail_with E_NOID
        else
          node ← slab_alloc_reply;
          match node with
          | None => release_sequence reply_key;; fail_with E_NOMEM
          | Some r =>
              ok ← reply_tree_put reply_key r;
              if negb ok then
                slab_free_reply r;; release_sequence reply_key;; fail_with E_SYS
              else
                l_initialize (LReply r);;
                modify (λ k, set_replies (<[r := Reply (max_reply (port th))]> (replies k)) k);;
                self ← gets running;
                me ← thread self;
                let tag := create_ipc_tag (thread_id me) reply_key in
                q ← l_head (LReceiver o);
                match q with
                | Some q =>
                    tp ← getThreadWaiting q;
                    w ← thread tp;
                    e ← copy memcpy_k2u tp (ipc_message (wait_reason w)) message size;
                    if negb (e =? 0) then release_rendezvous reply_key;; fail_with E_PAR
                    else
                      deliver tp size tag;;
                      l_enqueue (LReply r) (LWaiting self);;
                      upd_thread self (set_wait (set_wtype wait_reply));;
                      upd_thread self (set_wait (set_ipc_message message));;
                      wait self;;
                      mret (Block (KCall reply_key))
                | None =>
                    l_enqueue (LCaller o) (LWaiting self);;
                    upd_thread self (set_wait (set_ipc_size size));;
                    upd_thread self (set_wait (set_ipc_key tag));;
                    upd_thread self (set_wait (set_wtype wait_call));;
                    upd_thread self (set_wait (set_ipc_message message));;
                    wait self;;
                    mret (Block (KCall reply_key))
                end
          end
  end.

(** Taking the message of the caller or sender at the head of the queue. *)
Definition accept (tp : Z) : M H unit :=
  l_remove (LWaiting tp);;
  w ← thread tp;
  match wtype (wait_reason w) with
  | wait_call =>
      node ← reply_tree_get (key_of_ipc (ipc_key (wait_reason w)));
      r ← some node;
      l_enqueue (LReply r) (LWaiting tp);;
      upd_thread tp (set_wait (set_wtype wait_reply))
  | wait_send => release tp
  | _ => mret tt
  end.

Definition ipc_receive (port_id message : Z) : M H outcome :=
  enter_serialize;;
  self ← gets running;
  me ← thread self;
  if negb (flag (port me) =? 0) then
    upd_thread self (set_port (set_flag 0));; fail_with E_RLWAI
  else
    p ← get_thread_ptr port_id;
    match p with
    | None => fail_with E_NOEXS
    | Some o =>
        th ← thread o;
        if negb (opened (port th)) then fail_with E_NOEXS
        else
          q ← l_head (LCaller o);
          match q with
          | Some q =>
              tp ← getThreadWaiting q;
              w ← thread tp;
              let result := ipc_size (wait_reason w) in
              e ← copy memcpy_u2k tp message (ipc_message (wait_reason w)) result;
              if negb (e =? 0) then fail_with E_PAR
              else
                accept tp;;
                leave_serialize;;
                mret (Return result (Some (ipc_key (wait_reason w))))
          | None =>
              l_enqueue (LReceiver o) (LWaiting self);;
              upd_thread self (set_wait (set_ipc_message message));;
              upd_thread self (set_wait (set_wtype wait_receive));;
              wait self;;
              mret (Block KReceive)
          end
    end.

Definition _reply (key message size : Z) : M H outcome :=
  enter_serialize;;
  node ← reply_tree_get key;
  match node with
  | None => release_rendezvous key;; fail_with E_OBJ
  | Some r =>
      rp ← reply_at r;
      if reply_max rp <? size then release_rendezvous key;; fail_with E_PAR
      else
        q ← l_head (LReply r);
        match q with
        | Some q =>
            tp ← getThreadWaiting q;
            w ← thread tp;
            e ← copy memcpy_k2u tp (ipc_message (wait_reason w)) message size;
            if negb (e =? 0) then release_rendezvous key;; fail_with E_PAR
            else
              l_remove q;;
              upd_thread tp (set_wait (set_ipc_size size));;
              release tp;;
              release_rendezvous key;;
              leave_serialize_and_dispatch;;
              ret E_OK
        | None =>
            release_rendezvous key;;
            leave_serialize_and_dispatch;;
            ret E_OBJ
        end
  end.

Definition _send (port_id message size : Z) : M H outcome :=
  enter_serialize;;
  p ← get_thread_ptr port_id;
  match p with
  | None => fail_with E_NOEXS
  | Some o =>
      th ← thread o;
      if negb (opened (port th)) then fail_with E_NOEXS
      else if max_call (port th) <? size then fail_with E_PAR
      else
        self ← gets running;
        me ← thread self;
        let tag := create_ipc_tag (thread_id me) 0 in
        q ← l_head (LReceiver o);
        match q with
        | Some q =>
            tp ← getThreadWaiting q;
            w ← thread tp;
            e ← copy memcpy_k2u tp (ipc_message (wait_reason w)) message size;
            if negb (e =? 0) then fail_with E_PAR
            else deliver tp size tag;; leave_serialize;; ret E_OK
        | None =>
            l_enqueue (LCaller o) (LWaiting self);;
            upd_thread self (set_wait (set_ipc_size size));;
            upd_thread self (set_wait (set_ipc_message message));;
            upd_thread self (set_wait (set_ipc_key tag));;
            upd_thread self (set_wait (set_wtype wait_send));;
            wait self;;
            mret (Block KSend)
        end
  end.

Definition ipc_send (tag message size : Z) : M H outcome :=
  let key := key_of_ipc tag in
  if negb (key =? 0) then _reply key message size else _send tag message size.

Definition ipc_listen : M H outcome :=
  enter_serialize;;
  a ← gets running;
  th ← thread a;
  if negb (flag (port th) =? 0) then
    upd_thread a (set_port (set_flag 0));; leave_serialize;; ret E_OK
  else
    upd_thread a (set_wait (set_wtype wait_flag));;
    wait a;;
    mret (Block KListen).

(** What follows [wait] in [ipc_call], [ipc_receive], [_send] and
    [ipc_listen], run by the thread that waited. *)
Definition ipc_resume (c : cont) : M H outcome :=
  a ← gets running;
  th ← thread a;
  let w := wait_reason th in
  match c with
  | KCall reply_key =>
      if negb (wresult w =? 0) then
        enter_serialize;;
        release_rendezvous reply_key;;
        leave_serialize;;
        (* [running] is this thread again when [leave_serialize] returns *)
        ret (wresult w)
      else ret (ipc_size w)
  | KReceive =>
      enter_serialize;;
      leave_serialize;;
      mret (if negb (wresult w =? 0) then Return (wresult w) None
            else Return (ipc_size w) (Some (ipc_key w)))
  | KSend => ret (wresult w)
  | KListen => ret (wresult w)
  end.

(** ** The rest of the kernel's interface (kernel/api.c) *)

Definition kcall_page_alloc : M H Z :=
  enter_serialize;; result ← palloc_page; leave_serialize;; mret result.

Definition kcall_page_free (addr : Z) : M H unit :=
  enter_serialize;; pfree_page addr;; leave_serialize.

Definition region (f : pf_umem -> Z -> thread_t -> Z -> Z -> Z -> option (Z * pf_umem))
    (id x y z : Z) : M H Z :=
  enter_serialize;;
  p ← get_thread_ptr id;
  result ← (match p with Some a => copy f a x y z | None => mret E_NOEXS end);
  leave_serialize;;
  mret result.

Definition region_get (id from size to : Z) : M H Z := region memcpy_u2k id to from size.
Definition region_put (id to size from : Z) : M H Z := region memcpy_k2u id to from size.
Definition region_copy (id from size to : Z) : M H Z := region strncpy_u2k id to from size.
Definition skip_copy (id skip ranges n : Z) : M H Z := region scattered_copy_u2k id skip ranges n.

(** The system call gate: [ipc_call] is the only entry of [svc_entries]. *)
Definition syscall (svcno arg1 arg2 arg3 : Z) : M H outcome :=
  if 1 <=? svcno then ret E_NOSPT else ipc_call arg1 arg2 (u32 arg3).

(** ** Boot (kernel/start.c) *)

Definition ipc_initialize : M H Z :=
  match sequence_initialize MAX_THREAD true with
  | (_, None) => mret E_PAR
  | (_, Some s) =>
      modify (set_reply_sequence s);;
      n ← get_sequence;
      if n <? 0 then mret E_SYS
      else create_reply_tree;; mret E_OK
  end.

Definition thread_initialize : M H Z :=
  create_thread_tree;;
  ready_initialize;;
  mret E_OK.

(** [dummy] is the address of the local variable that stands for the thread
    that boots, [idle_start] that of the idle function. *)
Definition create_idle_thread (dummy idle_start ex : Z) : M H Z :=
  modify (λ k, set_running dummy (set_threads (<[dummy := set_status TTS_DMT (cleared 0)]> (threads k)) k));;
  thread_create PORT_IDLE (Ctsk TA_ACT ex idle_start MAX_PRIORITY KTHREAD_STACK_SIZE 0 0 0).

Definition start (dummy idle_start callback : Z) : M H Z :=
  modify (set_sync (Sync 0 1 0 false));;
  ipc_initialize;;
  thread_initialize;;
  create_idle_thread dummy idle_start callback.

End Ipc.
