(* ===== verification/KRefine.v ===== *)
(** * The kernel on pointers refines the kernel on rings

    The kernel code is parametric in its lists.  Here the same code is run on
    two implementations, one of which refines the other: whatever the abstract
    kernel does, the concrete one does with the same result, down to the
    states, which stay related.  Instantiated with the pointers of list.c and
    the rings, it carries every theorem on rings over to the pointers. *)

From S2P Require Import Prelude Lists AATree Sequence KTypes KState KSched KThread KIpc.

Create HintDb sim.

Section Refine.
Context {P : Platform} {C A : Type} `{!ListOps loc C, !ListOps loc A}.
Context (R : C -> A -> Prop) `{!ListRefines R}.

(** Related kernels differ in their lists only. *)
Definition krel (kc : kernel C) (ka : kernel A) : Prop :=
  R (lists kc) (lists ka) /\ kc = set_lists (lists kc) ka.

Definition sim {X} (mc : M C X) (ma : M A X) : Prop :=
  forall kc ka x ka', krel kc ka -> ma ka = Some (x, ka') ->
  exists kc', mc kc = Some (x, kc') /\ krel kc' ka'.

Lemma sim_ret {X} (x : X) : sim (mret x) (mret x).
Proof. intros kc ka y ka' Hr Hm. injection Hm as <- <-. by exists kc. Qed.

Lemma sim_fail {X} (m : M C X) : sim m fail.
Proof. by intros kc ka x ka' _ Hm. Qed.

Lemma sim_bind {X Y} (mc : M C X) ma (fc : X -> M C Y) fa :
  sim mc ma -> (forall x, sim (fc x) (fa x)) -> sim (mc ≫= fc) (ma ≫= fa).
Proof.
  intros Hm Hf kc ka y ka'' Hr. unfold mbind, M_bind.
  destruct (ma ka) as [[x ka']|] eqn:Ea; [|done]. intros Hy.
  destruct (Hm _ _ _ _ Hr Ea) as (kc' & -> & Hr'). by apply (Hf x _ ka').
Qed.

Lemma sim_gets {X} (fc : kernel C -> X) (fa : kernel A -> X) :
  (forall h k, fc (set_lists h k) = fa k) -> sim (gets fc) (gets fa).
Proof.
  intros Hf kc ka x ka' [Hr He] Hm. injection Hm as <- <-. exists kc.
  unfold gets. rewrite He, Hf. simpl. split; [done|]. by split.
Qed.

Lemma sim_modify fc fa :
  (forall h k, fc (set_lists h k) = set_lists h (fa k)) ->
  (forall k, lists (fa k) = lists k) -> sim (modify fc) (modify fa).
Proof.
  intros Hf Hl kc ka x ka' [Hr He] Hm. injection Hm as <- <-. exists (fc kc).
  split; [done|]. rewrite He, Hf. split; simpl; [by rewrite Hl|done].
Qed.

(** Steps that neither read nor write the lists. *)
Lemma sim_step {X} (mc : M C X) (ma : M A X) :
  (forall h k, mc (set_lists h k) = '(x, k') ← ma k; Some (x, set_lists h k')) ->
  (forall k x k', ma k = Some (x, k') -> lists k' = lists k) -> sim mc ma.
Proof.
  intros Hf Hl kc ka x ka' [Hr He] Hm. exists (set_lists (lists kc) ka').
  rewrite He, Hf, Hm. simpl. split; [done|]. split; simpl; [|done].
  by rewrite (Hl _ _ _ Hm).
Qed.

(** Steps on the lists alone. *)
Lemma sim_lists {X} (oc : C -> option (X * C)) (oa : A -> option (X * A)) :
  (forall c a x a', R c a -> oa a = Some (x, a') -> exists c', oc c = Some (x, c') /\ R c' a') ->
  sim (λ k, '(x, h) ← oc (lists k); Some (x, set_lists h k))
      (λ k, '(x, h) ← oa (lists k); Some (x, set_lists h k)).
Proof.
  intros Ho kc ka x ka' [Hr He] Hm.
  destruct (oa (lists ka)) as [[y a']|] eqn:Ea; [|done]. injection Hm as <- <-.
  destruct (Ho _ _ _ _ Hr Ea) as (c' & Ec & Hr'). exists (set_lists c' kc).
  rewrite Ec. split; [done|]. split; simpl; [done|]. rewrite He. done.
Qed.

Lemma sim_update (oc : C -> option C) (oa : A -> option A) :
  (forall c a a', R c a -> oa a = Some a' -> exists c', oc c = Some c' /\ R c' a') ->
  sim (λ k, h ← oc (lists k); Some (tt, set_lists h k))
      (λ k, h ← oa (lists k); Some (tt, set_lists h k)).
Proof.
  intros Ho kc ka [] ka' [Hr He] Hm.
  destruct (oa (lists ka)) as [a'|] eqn:Ea; [|done]. injection Hm as <-.
  destruct (Ho _ _ _ Hr Ea) as (c' & Ec & Hr'). exists (set_lists c' kc).
  rewrite Ec. split; [done|]. split; simpl; [done|]. by rewrite He.
Qed.

Lemma sim_read {X} (oc : C -> option X) (oa : A -> option X) :
  (forall c a x, R c a -> oa a = Some x -> oc c = Some x) ->
  sim (λ k, x ← oc (lists k); Some (x, k)) (λ k, x ← oa (lists k); Some (x, k)).
Proof.
  intros Ho kc ka x ka' [Hr He] Hm.
  destruct (oa (lists ka)) as [y|] eqn:Ea; [|done]. injection Hm as <- <-.
  rewrite (Ho _ _ _ Hr Ea). by exists kc.
Qed.

(** *** The list operations of the kernel *)

Lemma sim_initialize e : sim (l_initialize e) (l_initialize e).
Proof. apply (sim_update (λ h, op_initialize h e) (λ h, op_initialize h e)). intros. by eapply refine_initialize. Qed.

Lemma sim_clear e : sim (l_clear e) (l_clear e).
Proof. apply (sim_update (λ h, op_clear h e) (λ h, op_clear h e)). intros. by eapply refine_clear. Qed.

Lemma sim_enqueue g e : sim (l_enqueue g e) (l_enqueue g e).
Proof. apply (sim_update (λ h, op_append h g e) (λ h, op_append h g e)). intros. by eapply refine_append. Qed.

Lemma sim_remove e : sim (l_remove e) (l_remove e).
Proof. apply (sim_update (λ h, op_remove h e) (λ h, op_remove h e)). intros. by eapply refine_remove. Qed.

Lemma sim_dequeue g : sim (l_dequeue g) (l_dequeue g).
Proof. apply (sim_lists (λ h, op_pick h g) (λ h, op_pick h g)). intros. by eapply refine_pick. Qed.

Lemma sim_head g : sim (l_head g) (l_head g).
Proof. apply (sim_read (λ h, op_head h g) (λ h, op_head h g)). intros. by eapply refine_head. Qed.

Lemma sim_next g : sim (l_next g) (l_next g).
Proof. apply (sim_read (λ h, op_next h g) (λ h, op_next h g)). intros. by eapply refine_next. Qed.

Lemma sim_prev g : sim (l_prev g) (l_prev g).
Proof. apply (sim_read (λ h, op_prev h g) (λ h, op_prev h g)). intros. by eapply refine_prev. Qed.

(** *** The other primitives *)

Ltac sim_unfold := cbv [thread upd_thread reply_at some copy thread_tree_put thread_tree_remove
  reply_tree_put reply_tree_remove create_thread_tree create_reply_tree slab_alloc_thread slab_free_thread slab_alloc_reply
  slab_free_reply palloc_page pfree_page get_sequence release_sequence mbind option_bind]; cbn.

Ltac sim_prim := apply sim_step; intros; sim_unfold;
  [ repeat (case_match; cbn); by simplify_eq/=
  | match goal with H : _ = Some _ |- _ => revert H end; sim_unfold;
    repeat (case_match; cbn); intros; by simplify_eq/= ].

Lemma sim_thread a : sim (thread a) (thread a).
Proof. sim_prim. Qed.
Lemma sim_upd_thread a f : sim (upd_thread a f) (upd_thread a f).
Proof. sim_prim. Qed.
Lemma sim_reply_at r : sim (reply_at r) (reply_at r).
Proof. sim_prim. Qed.
Lemma sim_some {X} (o : option X) : sim (some o) (some o).
Proof. sim_prim. Qed.
Lemma sim_copy f a x y z : sim (copy f a x y z) (copy f a x y z).
Proof. sim_prim. Qed.
Lemma sim_thread_tree_put id a : sim (thread_tree_put id a) (thread_tree_put id a).
Proof. sim_prim. Qed.
Lemma sim_thread_tree_remove id : sim (thread_tree_remove id) (thread_tree_remove id).
Proof. sim_prim. Qed.
Lemma sim_reply_tree_put key r : sim (reply_tree_put key r) (reply_tree_put key r).
Proof. sim_prim. Qed.
Lemma sim_reply_tree_remove key : sim (reply_tree_remove key) (reply_tree_remove key).
Proof. sim_prim. Qed.
Lemma sim_create_thread_tree : sim create_thread_tree create_thread_tree.
Proof. sim_prim. Qed.
Lemma sim_create_reply_tree : sim create_reply_tree create_reply_tree.
Proof. sim_prim. Qed.
Lemma sim_slab_alloc_thread : sim slab_alloc_thread slab_alloc_thread.
Proof. sim_prim. Qed.
Lemma sim_slab_free_thread a : sim (slab_free_thread a) (slab_free_thread a).
Proof. sim_prim. Qed.
Lemma sim_slab_alloc_reply : sim slab_alloc_reply slab_alloc_reply.
Proof. sim_prim. Qed.
Lemma sim_slab_free_reply r : sim (slab_free_reply r) (slab_free_reply r).
Proof. sim_prim. Qed.
Lemma sim_palloc_page : sim palloc_page palloc_page.
Proof. sim_prim. Qed.
Lemma sim_pfree_page p : sim (pfree_page p) (pfree_page p).
Proof. sim_prim. Qed.
Lemma sim_get_sequence : sim get_sequence get_sequence.
Proof. sim_prim. Qed.
Lemma sim_release_sequence n : sim (release_sequence n) (release_sequence n).
Proof. sim_prim. Qed.
Lemma sim_upd_sync f : sim (upd_sync f) (upd_sync f).
Proof. by apply sim_modify. Qed.
Lemma sim_thread_tree_get id : sim (thread_tree_get id) (thread_tree_get id).
Proof. by apply sim_gets. Qed.
Lemma sim_reply_tree_get key : sim (reply_tree_get key) (reply_tree_get key).
Proof. by apply sim_gets. Qed.

#[local] Hint Resolve sim_initialize sim_clear sim_enqueue sim_remove sim_dequeue sim_head sim_next
  sim_prev sim_thread sim_upd_thread sim_reply_at sim_some sim_copy sim_thread_tree_put
  sim_thread_tree_remove sim_reply_tree_put sim_reply_tree_remove sim_create_thread_tree
  sim_create_reply_tree sim_slab_alloc_thread
  sim_slab_free_thread sim_slab_alloc_reply sim_slab_free_reply sim_palloc_page sim_pfree_page
  sim_get_sequence sim_release_sequence sim_upd_sync sim_thread_tree_get sim_reply_tree_get : sim.

(** One step of the code on both sides. *)
Ltac sim_go := repeat match goal with
  | |- sim (mbind _ _) _ => apply sim_bind; [|intros ?]
  | |- sim (mret _) _ => apply sim_ret
  | |- sim _ fail => apply sim_fail
  | |- sim (gets _) _ => apply sim_gets; done
  | |- sim (modify _) _ => apply sim_modify; intros; cbn; repeat case_match; done
  | |- sim (match ?x with _ => _ end) _ => destruct x
  | |- _ => progress cbv zeta
  | |- _ => solve [eauto with sim]
  end.

(** *** Scheduling *)

Lemma sim_getThread p : sim (getThread p) (getThread p).
Proof. unfold getThread. sim_go. Qed.
#[local] Hint Resolve sim_getThread : sim.
Lemma sim_getThreadWaiting p : sim (getThreadWaiting p) (getThreadWaiting p).
Proof. unfold getThreadWaiting. sim_go. Qed.
#[local] Hint Resolve sim_getThreadWaiting : sim.
Lemma sim_create_context a : sim (create_context a) (create_context a).
Proof. unfold create_context. sim_go. Qed.
#[local] Hint Resolve sim_create_context : sim.
Lemma sim_context_release a : sim (context_release a) (context_release a).
Proof. unfold context_release. sim_go. Qed.
#[local] Hint Resolve sim_context_release : sim.
Lemma sim_context_switch a : sim (context_switch a) (context_switch a).
Proof. unfold context_switch. sim_go. Qed.
#[local] Hint Resolve sim_context_switch : sim.
Lemma sim_ready_enqueue pri e : sim (ready_enqueue pri e) (ready_enqueue pri e).
Proof. unfold ready_enqueue. sim_go. Qed.
#[local] Hint Resolve sim_ready_enqueue : sim.
Lemma sim_enter_serialize : sim enter_serialize enter_serialize.
Proof. unfold enter_serialize. sim_go. Qed.
#[local] Hint Resolve sim_enter_serialize : sim.
Lemma sim_release a : sim (release a) (release a).
Proof. unfold release. sim_go. Qed.
#[local] Hint Resolve sim_release : sim.
Lemma sim_get_thread_ptr id : sim (get_thread_ptr id) (get_thread_ptr id).
Proof. unfold get_thread_ptr. sim_go. Qed.
#[local] Hint Resolve sim_get_thread_ptr : sim.

Lemma sim_ready_initialize_loop n i : sim (ready_initialize_loop n i) (ready_initialize_loop n i).
Proof. revert i. induction n; intros; simpl; sim_go; auto. Qed.
#[local] Hint Resolve sim_ready_initialize_loop : sim.
Lemma sim_ready_initialize : sim ready_initialize ready_initialize.
Proof. unfold ready_initialize. sim_go. Qed.
#[local] Hint Resolve sim_ready_initialize : sim.

Lemma sim_ready_dequeue_loop n : sim (ready_dequeue_loop n) (ready_dequeue_loop n).
Proof. induction n; simpl; sim_go; auto. Qed.
#[local] Hint Resolve sim_ready_dequeue_loop : sim.
Lemma sim_ready_dequeue : sim ready_dequeue ready_dequeue.
Proof. unfold ready_dequeue. sim_go. Qed.
#[local] Hint Resolve sim_ready_dequeue : sim.

Lemma sim_release_all_loop n w : sim (release_all_loop n w) (release_all_loop n w).
Proof. induction n; simpl; sim_go; auto. Qed.
#[local] Hint Resolve sim_release_all_loop : sim.
Lemma sim_release_all w : sim (release_all w) (release_all w).
Proof. unfold release_all. sim_go. Qed.
#[local] Hint Resolve sim_release_all : sim.

Lemma sim_dispatch_fuel n : sim (dispatch_fuel n) (dispatch_fuel n).
Proof.
  induction n; simpl; [apply sim_fail|]. unfold dispatch_, ipc_notify_, leave_serialize_. sim_go.
Qed.
#[local] Hint Resolve sim_dispatch_fuel : sim.

Lemma sim_dispatch : sim dispatch dispatch.
Proof. unfold dispatch. sim_go. Qed.
#[local] Hint Resolve sim_dispatch : sim.
Lemma sim_leave_serialize : sim leave_serialize leave_serialize.
Proof. unfold leave_serialize, leave_serialize_. sim_go. Qed.
#[local] Hint Resolve sim_leave_serialize : sim.
Lemma sim_ipc_notify p f : sim (ipc_notify p f) (ipc_notify p f).
Proof. unfold ipc_notify, ipc_notify_, leave_serialize_. sim_go. Qed.
#[local] Hint Resolve sim_ipc_notify : sim.
Lemma sim_leave_serialize_and_dispatch : sim leave_serialize_and_dispatch leave_serialize_and_dispatch.
Proof. unfold leave_serialize_and_dispatch. sim_go. Qed.
#[local] Hint Resolve sim_leave_serialize_and_dispatch : sim.
Lemma sim_wait a : sim (wait a) (wait a).
Proof. unfold wait. sim_go. Qed.
#[local] Hint Resolve sim_wait : sim.
Lemma sim_ready_rotate pri th : sim (ready_rotate pri th) (ready_rotate pri th).
Proof. unfold ready_rotate. sim_go. Qed.
#[local] Hint Resolve sim_ready_rotate : sim.

Lemma sim_delayed_handle c x y : sim (delayed_handle c x y) (delayed_handle c x y).
Proof.
  unfold delayed_handle. apply sim_bind; [|intros; sim_go].
  apply sim_step; intros; [|revert H]; simpl; by destruct (kq_put _ _); intros; simplify_eq/=.
Qed.
#[local] Hint Resolve sim_delayed_handle : sim.
Lemma sim_tick : sim tick tick.
Proof. unfold tick. sim_go. Qed.
#[local] Hint Resolve sim_tick : sim.
Lemma sim_interrupt m m' : sim m m' -> sim (interrupt m) (interrupt m').
Proof. intros Hm. unfold interrupt. sim_go. Qed.

(** *** Threads *)

Lemma sim_setup a pk : sim (setup a pk) (setup a pk).
Proof. unfold setup. sim_go. Qed.
#[local] Hint Resolve sim_setup : sim.
Lemma sim_fire a : sim (fire a) (fire a).
Proof. unfold fire. sim_go. Qed.
#[local] Hint Resolve sim_fire : sim.
Lemma sim_new_thread a key : sim (new_thread a key) (new_thread a key).
Proof. unfold new_thread. sim_go. Qed.
#[local] Hint Resolve sim_new_thread : sim.
Lemma sim_thread_create id pk : sim (thread_create id pk) (thread_create id pk).
Proof. unfold thread_create. sim_go. Qed.
#[local] Hint Resolve sim_thread_create : sim.
Lemma sim_release_resources a : sim (release_resources a) (release_resources a).
Proof. unfold release_resources. sim_go. Qed.
#[local] Hint Resolve sim_release_resources : sim.
Lemma sim_thread_destroy id : sim (thread_destroy id) (thread_destroy id).
Proof. unfold thread_destroy. sim_go. Qed.
#[local] Hint Resolve sim_thread_destroy : sim.
Lemma sim_thread_start id : sim (thread_start id) (thread_start id).
Proof. unfold thread_start. sim_go. Qed.
#[local] Hint Resolve sim_thread_start : sim.
Lemma sim_thread_end : sim thread_end thread_end.
Proof. unfold thread_end. sim_go. Qed.
#[local] Hint Resolve sim_thread_end : sim.
Lemma sim_thread_end_and_destroy : sim thread_end_and_destroy thread_end_and_destroy.
Proof. unfold thread_end_and_destroy. sim_go. Qed.
#[local] Hint Resolve sim_thread_end_and_destroy : sim.
Lemma sim_thread_terminate id : sim (thread_terminate id) (thread_terminate id).
Proof. unfold thread_terminate. sim_go. Qed.
#[local] Hint Resolve sim_thread_terminate : sim.
Lemma sim_thread_suspend id : sim (thread_suspend id) (thread_suspend id).
Proof. unfold thread_suspend. sim_go. Qed.
#[local] Hint Resolve sim_thread_suspend : sim.
Lemma sim_thread_resume id : sim (thread_resume id) (thread_resume id).
Proof. unfold thread_resume. sim_go. Qed.
#[local] Hint Resolve sim_thread_resume : sim.
Lemma sim_thread_get_id : sim thread_get_id thread_get_id.
Proof. unfold thread_get_id. sim_go. Qed.
#[local] Hint Resolve sim_thread_get_id : sim.

Lemma sim_delay_turn : sim delay_turn delay_turn.
Proof.
  unfold delay_turn. apply sim_bind; [|intros; sim_go].
  apply sim_step; intros; [|revert H]; simpl; by destruct (kq_take _); intros; simplify_eq/=.
Qed.

(** *** Communication *)

Lemma sim_ipc_ret v : sim (ret v) (ret v).
Proof. unfold ret. sim_go. Qed.
#[local] Hint Resolve sim_ipc_ret : sim.
Lemma sim_fail_with v : sim (fail_with v) (fail_with v).
Proof. unfold fail_with. sim_go. Qed.
#[local] Hint Resolve sim_fail_with : sim.
Lemma sim_port_clear a pk : sim (clear a pk) (clear a pk).
Proof. unfold clear. sim_go. Qed.
#[local] Hint Resolve sim_port_clear : sim.
Lemma sim_ipc_open pk : sim (ipc_open pk) (ipc_open pk).
Proof. unfold ipc_open. sim_go. Qed.
#[local] Hint Resolve sim_ipc_open : sim.
Lemma sim_ipc_close : sim ipc_close ipc_close.
Proof. unfold ipc_close. sim_go. Qed.
#[local] Hint Resolve sim_ipc_close : sim.
Lemma sim_release_rendezvous key : sim (release_rendezvous key) (release_rendezvous key).
Proof. unfold release_rendezvous. sim_go. Qed.
#[local] Hint Resolve sim_release_rendezvous : sim.
Lemma sim_deliver tp size tag : sim (deliver tp size tag) (deliver tp size tag).
Proof. unfold deliver. sim_go. Qed.
#[local] Hint Resolve sim_deliver : sim.
Lemma sim_ipc_call p m z : sim (ipc_call p m z) (ipc_call p m z).
Proof. unfold ipc_call. sim_go. Qed.
#[local] Hint Resolve sim_ipc_call : sim.
Lemma sim_accept tp : sim (accept tp) (accept tp).
Proof. unfold accept. sim_go. Qed.
#[local] Hint Resolve sim_accept : sim.
Lemma sim_ipc_receive p m : sim (ipc_receive p m) (ipc_receive p m).
Proof. unfold ipc_receive. sim_go. Qed.
#[local] Hint Resolve sim_ipc_receive : sim.
Lemma sim__reply key m z : sim (_reply key m z) (_reply key m z).
Proof. unfold _reply. sim_go. Qed.
#[local] Hint Resolve sim__reply : sim.
Lemma sim__send p m z : sim (_send p m z) (_send p m z).
Proof. unfold _send. sim_go. Qed.
#[local] Hint Resolve sim__send : sim.
Lemma sim_ipc_send tag m z : sim (ipc_send tag m z) (ipc_send tag m z).
Proof. unfold ipc_send. sim_go. Qed.
#[local] Hint Resolve sim_ipc_send : sim.
Lemma sim_ipc_listen : sim ipc_listen ipc_listen.
Proof. unfold ipc_listen. sim_go. Qed.
#[local] Hint Resolve sim_ipc_listen : sim.
Lemma sim_ipc_resume c : sim (ipc_resume c) (ipc_resume c).
Proof. unfold ipc_resume. sim_go. Qed.
#[local] Hint Resolve sim_ipc_resume : sim.
Lemma sim_kcall_page_alloc : sim kcall_page_alloc kcall_page_alloc.
Proof. unfold kcall_page_alloc. sim_go. Qed.
#[local] Hint Resolve sim_kcall_page_alloc : sim.
Lemma sim_kcall_page_free a : sim (kcall_page_free a) (kcall_page_free a).
Proof. unfold kcall_page_free. sim_go. Qed.
#[local] Hint Resolve sim_kcall_page_free : sim.
Lemma sim_region f id x y z : sim (region f id x y z) (region f id x y z).
Proof. unfold region. sim_go. Qed.
#[local] Hint Resolve sim_region : sim.
Lemma sim_syscall n x y z : sim (syscall n x y z) (syscall n x y z).
Proof. unfold syscall. sim_go. Qed.
#[local] Hint Resolve sim_syscall : sim.
Lemma sim_ipc_initialize : sim ipc_initialize ipc_initialize.
Proof. unfold ipc_initialize. sim_go. Qed.
#[local] Hint Resolve sim_ipc_initialize : sim.
Lemma sim_thread_initialize : sim thread_initialize thread_initialize.
Proof. unfold thread_initialize. sim_go. Qed.
#[local] Hint Resolve sim_thread_initialize : sim.
Lemma sim_create_idle_thread d i x : sim (create_idle_thread d i x) (create_idle_thread d i x).
Proof. unfold create_idle_thread. sim_go. Qed.
#[local] Hint Resolve sim_create_idle_thread : sim.
Lemma sim_start d i x : sim (start d i x) (start d i x).
Proof. unfold start. sim_go. Qed.
#[local] Hint Resolve sim_start : sim.

End Refine.
