(* ===== verification/KQueues.v ===== *)
(** * The queues of the kernel

    The rings of the kernel read as queues of threads: for each guard (a ready
    queue, a port's callers or receivers, a rendezvous) the list of the
    addresses of the threads on it. *)

From S2P Require Import Prelude Lists Queues KTypes.

Notation rings := (gmap loc (list loc)).
Notation queues := (gmap loc (list Z)).

(** A thread is on a ready queue by [queue], on the others by [waiting]. *)
#[export] Instance kernel_queueing : Queueing loc := {
  is_guard g := match g with LReady _ | LCaller _ | LReceiver _ | LReply _ => true | _ => false end;
  link_of g := match g with LReady _ => LQueue | _ => LWaiting end;
}.

#[export] Instance kernel_queueing_laws : QueueingLaws loc.
Proof. split; [by intros []|]. intros g g' a b. destruct g, g'; naive_solver. Qed.

(** The queues threads wait on. *)
Definition wait_guard (g : loc) : bool :=
  match g with LCaller _ | LReceiver _ | LReply _ => true | _ => false end.

Lemma wait_guard_link g : wait_guard g = true -> link_of g = LWaiting.
Proof. by destruct g. Qed.

Section KQueues.
Context (A : rings) (Q : queues) (I : gset loc) (HQ : qrep A Q I).

Lemma q_clear_locking a :
  exists A', ring_clear A (LLocking a) = Some A' /\ qrep A' Q I.
Proof. apply (q_clear_other _ _ _ HQ); [done|]. by intros []. Qed.

Lemma q_initialize_locking a :
  exists A', ring_initialize A (LLocking a) = Some A' /\ qrep A' Q I.
Proof. apply (q_initialize_other _ _ _ HQ); [done|]. by intros []. Qed.

End KQueues.
