(* ===== verification/KInv.v ===== *)
(** * The kernel invariant

    What holds of the kernel's objects whenever no list operation is under
    way: which thread is on which queue, which identifier names which thread,
    which key names which rendezvous, what the ready bits, the stacks and the
    processor's registers stand for.  The invariant is split: [core] is about
    ghost maps, the threads that are ready ([rd]), what each thread waits for
    ([ws]) and the rest of its fields that matter ([sg]), and [kcrit] says that
    they are what the threads' fields say.  A function of the kernel breaks and
    restores the second while each of its steps keeps the first. *)

From S2P Require Import Prelude Lists AATree Bitmap Sequence Palloc KTypes KState KSched KThread.
From S2P Require Import KIpc Queues KQueues.

(** ** What the kernel relies on from its allocators *)

Class KernelMemoryLaws (Mm : Type) `{!KernelMemory Mm} := {
  mem_raw : Mm -> Prop;
  mem_ok : Mm -> Prop;
  live_threads : Mm -> gset Z;
  live_replies : Mm -> gset Z;
  live_pages : Mm -> gset Z;
  slab_create_law m : mem_raw m ->
    exists m1 m2, reply_slab_create m = Some m1 /\ thread_slab_create m1 = Some m2 /\ mem_ok m2 /\
      live_threads m2 = ∅ /\ live_replies m2 = ∅;
  thread_alloc_law m : mem_ok m ->
    exists o m', thread_alloc m = Some (o, m') /\ mem_ok m' /\
      live_replies m' = live_replies m /\ live_pages m' = live_pages m /\
      match o with
      | None => live_threads m' = live_threads m
      | Some a => a ∉ live_threads m /\ a ≠ 0 /\ live_threads m' = {[a]} ∪ live_threads m
      end;
  thread_free_law m a : mem_ok m -> a ∈ live_threads m ->
    exists m', thread_free m a = Some m' /\ mem_ok m' /\
      live_replies m' = live_replies m /\ live_pages m' = live_pages m /\
      live_threads m' = live_threads m ∖ {[a]};
  reply_alloc_law m : mem_ok m ->
    exists o m', reply_alloc m = Some (o, m') /\ mem_ok m' /\
      live_threads m' = live_threads m /\ live_pages m' = live_pages m /\
      match o with
      | None => live_replies m' = live_replies m
      | Some r => r ∉ live_replies m /\ live_replies m' = {[r]} ∪ live_replies m
      end;
  reply_free_law m r : mem_ok m -> r ∈ live_replies m ->
    exists m', reply_free m r = Some m' /\ mem_ok m' /\
      live_threads m' = live_threads m /\ live_pages m' = live_pages m /\
      live_replies m' = live_replies m ∖ {[r]};
  page_alloc_law m : mem_ok m ->
    exists p m', page_alloc m = Some (p, m') /\ mem_ok m' /\
      live_threads m' = live_threads m /\ live_replies m' = live_replies m /\
      (p = 0 /\ live_pages m' = live_pages m \/
       p ∉ live_pages m /\ SUPERVISOR_START <= p < 2 ^ 32 - PAGE_SIZE /\
       live_pages m' = {[p]} ∪ live_pages m);
  page_free_law m p : mem_ok m -> p ∈ live_pages m ->
    exists m', page_free m p = Some m' /\ mem_ok m' /\
      live_threads m' = live_threads m /\ live_replies m' = live_replies m /\
      live_pages m' = live_pages m ∖ {[p]};
}.

(** The queue of delayed calls holds what was put into it, in order, while
    there is room. *)
Class DelayQueueLaws (Q : Type) `{!DelayQueue Q} := {
  kq_holds : Q -> list delay_param_t -> nat -> Prop;
  kq_put_law q vs n d : kq_holds q vs (S n) -> exists q', kq_put q d = (true, q') /\ kq_holds q' (vs ++ [d]) n;
  kq_take_law q vs n : kq_holds q vs n ->
    match vs with
    | [] => exists q', kq_take q = (None, q') /\ kq_holds q' [] n
    | d :: vs => exists q', kq_take q = (Some d, q') /\ kq_holds q' vs (S n)
    end;
}.

(** ** Ghost state *)

Definition ready (st : Z) : bool := (st =? TTS_RUN) || (st =? TTS_RDY).

Definition waiting (st : Z) : bool := (st =? TTS_WAI) || (st =? TTS_WAS).

(** What a thread waits for; a caller that has not been received yet, with
    the key of its rendezvous. *)
Inductive wstate := WNone | WFlag | WCall (key : Z) | WReply | WReceive | WSend.

Definition wstate_of (w : wait_reason_t) : wstate :=
  match wtype w with
  | wait_none => WNone
  | wait_flag => WFlag
  | wait_call => WCall (key_of_ipc (ipc_key w))
  | wait_reply => WReply
  | wait_receive => WReceive
  | wait_send => WSend
  end.

(** The threads on a queue of the kind of [g]. *)
Definition fits (t : wstate) (g : loc) : bool :=
  match t, g with
  | WCall _, LCaller _ | WSend, LCaller _ | WReceive, LReceiver _ | WReply, LReply _ => true
  | _, _ => false
  end.

Definition queued (t : wstate) : bool := match t with WNone | WFlag => false | _ => true end.

(** The fields of a thread the queues do not move. *)
Record sig := Sig {
  sg_key : Z;
  sg_opened : bool;
  sg_stack : Z;
  sg_priority : Z;
  sg_attr_priority : Z;
  sg_kernel : bool;
  sg_kstack : Z;
  sg_cr3 : Z;
}.

Definition stack_page (th : thread_t) : Z := u32 (kstack_tail (attr th) - KTHREAD_STACK_SIZE).

Definition sig_of (th : thread_t) : sig :=
  Sig (node_key th) (opened (port th)) (stack_page th) (priority th) (attr_priority (attr th))
    (is_kthread th) (kstack_tail (attr th)) (cr3 (mpu th)).

Notation tmap := (gmap Z thread_t).

Definition rdm (ths : tmap) : gmap Z Z :=
  omap (λ th, if ready (status th) then Some (priority th) else None) ths.

Definition wsm (ths : tmap) : gmap Z wstate := (λ th, wstate_of (wait_reason th)) <$> ths.

Definition sgm (ths : tmap) : gmap Z sig := sig_of <$> ths.

#[global] Arguments rdm : simpl never.
#[global] Arguments wsm : simpl never.
#[global] Arguments sgm : simpl never.

(** ** The parts of the invariant *)

(** The ready queues hold the ready threads by priority, and no queue whose
    bit is clear holds any. *)
Record rq_ok (rd : gmap Z Z) (bits : Z) (Q : queues) : Prop := {
  rq_dom p : is_Some (Q !! LReady p) <-> MIN_PRIORITY <= p <= MAX_PRIORITY;
  rq_mem p l a : Q !! LReady p = Some l -> a ∈ l <-> rd !! a = Some p;
  rq_range a p : rd !! a = Some p -> MIN_PRIORITY <= p <= MAX_PRIORITY;
  rq_bits_range : 0 <= bits < 2 ^ 8;
  rq_bits p l : Q !! LReady p = Some l -> l ≠ [] -> Z.testbit bits p = true;
}.

(** A queue in use: the port is open, the rendezvous exists. *)
Definition in_use (sg : gmap Z sig) (rm : gmap Z Z) (g : loc) : Prop :=
  match g with
  | LCaller o | LReceiver o => exists s, sg !! o = Some s /\ sg_opened s = true
  | LReply r => exists key, rm !! key = Some r
  | _ => True
  end.

Record w_ok (sg : gmap Z sig) (rm : gmap Z Z) (ws : gmap Z wstate) (Q : queues) : Prop := {
  w_dom : dom ws = dom sg;
  w_mem g l a : Q !! g = Some l -> a ∈ l -> wait_guard g = true ->
    exists t, ws !! a = Some t /\ fits t g = true;
  w_que a t : ws !! a = Some t -> queued t = true ->
    exists g l, Q !! g = Some l /\ a ∈ l /\ fits t g = true;
  w_use g l : Q !! g = Some l -> l ≠ [] -> in_use sg rm g;
  w_port o s : sg !! o = Some s -> sg_opened s = true ->
    is_Some (Q !! LCaller o) /\ is_Some (Q !! LReceiver o);
  w_rdv key r : rm !! key = Some r -> exists l, Q !! LReply r = Some l /\ (length l <= 1)%nat;
  w_call a key : ws !! a = Some (WCall key) ->
    exists r, rm !! key = Some r /\ Q !! LReply r = Some [];
  w_inj a b key : ws !! a = Some (WCall key) -> ws !! b = Some (WCall key) -> a = b;
  w_rminj k1 k2 r : rm !! k1 = Some r -> rm !! k2 = Some r -> k1 = k2;
}.

(** Stacks are distinct live pages, priorities are in range. *)
Record st_ok (sg : gmap Z sig) (live : gset Z) : Prop := {
  st_page a s : sg !! a = Some s -> sg_stack s ∈ live;
  st_inj a b s t : sg !! a = Some s -> sg !! b = Some t -> sg_stack s = sg_stack t -> a = b;
  st_prio a s : sg !! a = Some s ->
    MIN_PRIORITY <= sg_priority s <= MAX_PRIORITY /\ MIN_PRIORITY <= sg_attr_priority s <= MAX_PRIORITY;
  st_cr3 a s : sg !! a = Some s -> sg_kernel s = false -> sg_cr3 s ≠ 0;
  st_zero : sg !! 0 = None;
}.

(** The FPU belongs to a user thread, whose kernel stack the TSS names; the
    page directory in force is the one [context_switch] remembers. *)
Definition cpu_ok (sg : gmap Z sig) (c : cpu_t) : Prop :=
  (fpu_holder c = 0 \/ exists s, sg !! fpu_holder c = Some s /\ sg_kernel s = false /\
     tss_esp0 c = sg_kstack s) /\
  (current_page_table c = 0 \/ current_page_table c = cpu_cr3 c).

Section Invariant.
Context {P : Platform} `{!KeyMapLaws pf_tree} `{!KernelMemoryLaws pf_memory}.
Notation kern := (kernel rings).
Implicit Types k : kern.

Record reg_ok (sg : gmap Z sig) (tree : pf_tree Z) (m : pf_memory) : Prop := {
  reg_wf : km_wf tree;
  reg_mem : mem_ok m;
  reg_key id a : km_map tree !! id = Some a <-> exists s, sg !! a = Some s /\ sg_key s = id;
  reg_dom : dom sg = live_threads m;
  reg_range a s : sg !! a = Some s -> MIN_MANUAL_ID <= sg_key s <= MAX_AUTO_ID;
}.

Record rep_ok (tree : pf_tree Z) (seq : sequence_t) (reps : gmap Z reply_t) (m : pf_memory) : Prop := {
  rep_tree : km_wf tree;
  rep_seq : sequence_wf seq;
  rep_blocks : num_of_blocks seq = 32;
  rep_key key r : km_map tree !! key = Some r -> 0 < key < MAX_THREAD /\ key ∉ free seq;
  rep_free key : key ∈ free seq -> 0 < key < MAX_THREAD;
  rep_dom : dom reps = live_replies m;
  rep_live r : r ∈ live_replies m <-> exists key, km_map tree !! key = Some r;
}.

(** The links of every thread are initialised. *)
Definition links_ok (k : kern) (Q : queues) : Prop :=
  exists I, qrep (lists k) Q I /\
    forall a, a ∈ dom (threads k) -> LQueue a ∈ I /\ LWaiting a ∈ I.

Record core (k : kern) (Q : queues) (sg : gmap Z sig) (rd : gmap Z Z) (ws : gmap Z wstate) : Prop := {
  c_links : links_ok k Q;
  c_dom : dom sg = dom (threads k);
  c_rq : rq_ok rd (ready_bits k) Q;
  c_w : w_ok sg (km_map (reply_tree k)) ws Q;
  c_st : st_ok sg (live_pages (memory k));
  c_cpu : cpu_ok sg (cpu k);
  c_reg : reg_ok sg (thread_tree k) (memory k);
  c_rep : rep_ok (reply_tree k) (reply_sequence k) (replies k) (memory k);
  c_rd a p : rd !! a = Some p -> exists s, sg !! a = Some s /\ sg_priority s = p;
}.

(** The states a thread can be in. *)
Definition valid_status (st : Z) : Prop :=
  st ∈ [TTS_RUN; TTS_RDY; TTS_WAI; TTS_SUS; TTS_WAS; TTS_DMT].

(** A thread waits for something exactly when its status says so. *)
Definition thread_ok (th : thread_t) : Prop :=
  valid_status (status th) /\
  (waiting (status th) = true <-> wstate_of (wait_reason th) ≠ WNone).

Definition threads_ok (ths : tmap) : Prop := map_Forall (λ _ th, thread_ok th) ths.

(** The idle thread never leaves the last ready queue. *)
Definition idle_ok (k : kern) : Prop :=
  exists a th, km_map (thread_tree k) !! PORT_IDLE = Some a /\ threads k !! a = Some th /\
    ready (status th) = true /\ priority th = MAX_PRIORITY.

(** While a user thread runs, the processor holds its registers. *)
Definition run_cpu (k : kern) : Prop :=
  forall th, threads k !! running k = Some th -> is_kthread th = false ->
    fpu_holder (cpu k) = running k /\ current_page_table (cpu k) = cr3 (mpu th).

(** What holds besides [core] whenever the fields of the threads are
    consistent with the queues. *)
Record crit (k : kern) : Prop := {
  crit_threads : threads_ok (threads k);
  crit_idle : idle_ok k;
  crit_only a th : threads k !! a = Some th -> status th = TTS_RUN -> a = running k;
  crit_cpu : run_cpu k;
  crit_run : is_Some (threads k !! running k);
  crit_nest : interrupt_nest (sync k) = 0;
  crit_request : no_request (sync k) = 0 \/ no_request (sync k) = 1;
}.

(** The invariant inside a critical section. *)
Definition kcrit (k : kern) (Q : queues) : Prop :=
  core k Q (sgm (threads k)) (rdm (threads k)) (wsm (threads k)) /\ crit k.

(** The invariant between system calls: the running thread is ready. *)
Definition kernel_at (k : kern) (Q : queues) : Prop :=
  kcrit k Q /\ is_Some (rdm (threads k) !! running k) /\ serializing (sync k) = 0.

Definition kernel_ok (k : kern) : Prop := exists Q, kernel_at k Q.

End Invariant.
