(* ===== verification/KMemory.v ===== *)
(** * The memory of the kernel

    [thread_slab] and [reply_slab] over the pages of palloc.c: the slabs of
    Slab.v, on the pointers of list.c, take their blocks from the allocator of
    Palloc.v, and together they are the memory the kernel's theorems ask for. *)

From S2P Require Import Prelude Lists Queues Slab AATree Bitmap Palloc KTypes KState KInv.

(** ** Pages *)

(** The memory map and the contents of the pages. *)
Definition page_pool : Type := MemoryMap * Palloc.memory.

#[export] Instance palloc_pages : PageSource page_pool := {
  ps_alloc g := '(p, mm, mem) ← palloc g.1 g.2; Some (p, (mm, mem));
  ps_free g p := mm ← pfree g.1 p; Some (mm, g.2);
}.

Definition page_frame (p : Z) : Z := (p - SUPERVISOR_START) / PAGE_SIZE.

(** The pages in use, by their kernel address. *)
Definition used_pages (g : page_pool) : gset Z :=
  set_map page_addr (frames 0 (32 * num_blocks g.1) ∖ free_pages g.1).

Lemma page_addr_inj n n' : page_addr n = page_addr n' -> n = n'.
Proof. unfold page_addr, PAGE_SIZE. lia. Qed.

Lemma used_page g n : page_addr n ∈ used_pages g <-> 0 <= n < 32 * num_blocks g.1 /\ n ∉ free_pages g.1.
Proof.
  unfold used_pages. rewrite elem_of_map. split.
  - intros (n' & ->%page_addr_inj & [Hf Hn]%elem_of_difference). rewrite elem_of_frames in Hf. split; [lia|done].
  - intros [Hn Hf]. exists n. split; [done|]. apply elem_of_difference. rewrite elem_of_frames. split; [lia|done].
Qed.

Lemma used_page_inv g p : p ∈ used_pages g -> exists n, p = page_addr n.
Proof. unfold used_pages. rewrite elem_of_map. intros (n & -> & _). eauto. Qed.

(** Fewer than [MAX_PAGES] frames: the last page of the address space is never
    handed out. *)
Definition pool_ok (g : page_pool) : Prop := palloc_wf g.1 /\ num_blocks g.1 < 2 ^ 14.

Lemma pool_alloc g : pool_ok g ->
  exists p g', ps_alloc g = Some (p, g') /\ pool_ok g' /\
  (p = 0 /\ used_pages g' = used_pages g \/
   p ∉ used_pages g /\ p mod PAGE_SIZE = 0 /\ SUPERVISOR_START <= p < 2 ^ 32 - PAGE_SIZE /\
   used_pages g' = {[p]} ∪ used_pages g).
Proof.
  destruct g as [mm mem]. intros [Hwf Hlt]. cbn [fst snd] in *. cbn [ps_alloc palloc_pages fst snd]. unfold palloc.
  pose proof Hwf as (_ & Hn & _ & Hc & Hr & Hclk).
  destruct (Z.eqb_spec (rest_pages mm) 0) as [Hz|Hz].
  { exists 0, (mm, mem). split; [done|]. split; [done|]. by left. }
  destruct (palloc_loop_spec (Z.to_nat (num_blocks mm - clock_block mm)) (clock_block mm) mm mem)
    as [[He ->]|(k & mm' & -> & Hk & Hmin & Hf & Hwf' & Hnb)]; [done|lia..|done| |].
  { exists 0, (mm, mem). split; [done|]. split; [done|]. by left. }
  set (pz := pzero _ _). clearbody pz. pose proof (free_bits_lt _ _ Hk) as Hkl.
  exists (page_addr k), (mm', pz). split; [done|]. split; [split; [done|]; cbn [fst]; by rewrite Hnb|]. right.
  unfold page_addr, PAGE_SIZE, SUPERVISOR_START. split; [|split; [|split; [lia|]]].
  + change (page_addr k ∉ used_pages (mm, mem)). by rewrite used_page; intros [_ ?].
  + replace (k * 4096 + 0x80000000) with ((k + 524288) * 4096) by lia. apply Z.mod_mul. lia.
  + change (used_pages (mm', pz) = {[page_addr k]} ∪ used_pages (mm, mem)). apply set_eq. intros p.
    rewrite elem_of_union, elem_of_singleton. split.
    * intros Hp. destruct (used_page_inv _ _ Hp) as (n & ->). apply used_page in Hp as [Hn1 Hn2].
      cbn [fst] in *. rewrite Hf in Hn2. destruct (decide (n = k)) as [->|Hne]; [by left|]. right.
      apply used_page. cbn [fst]. rewrite Hnb in Hn1. split; [done|]. set_solver.
    * intros [->|Hp].
      -- apply used_page. cbn [fst]. rewrite Hnb, Hf. split; [lia|set_solver].
      -- destruct (used_page_inv _ _ Hp) as (n & ->). apply used_page in Hp as [Hn1 Hn2]. apply used_page.
         cbn [fst] in *. rewrite Hnb, Hf. split; [done|set_solver].
Qed.

Lemma pool_free g p : pool_ok g -> p ∈ used_pages g ->
  exists g', ps_free g p = Some g' /\ pool_ok g' /\ used_pages g' = used_pages g ∖ {[p]}.
Proof.
  destruct g as [mm mem]. intros [Hwf Hlt] Hp. cbn [fst snd] in *. destruct (used_page_inv _ _ Hp) as (n & ->).
  apply used_page in Hp as [Hn1 Hn2]. cbn [fst] in *.
  destruct (pfree_spec mm n 0 Hwf ltac:(lia) ltac:(unfold PAGE_SIZE; lia)) as (mm' & E & Hwf' & Hd).
  rewrite Z.add_0_r in E. rewrite decide_True in Hd by lia.
  exists (mm', mem). split; [cbn; by rewrite E|].
  pose proof (pfree_blocks _ _ _ E) as Hnb.
  split; [split; [done|]; cbn [fst]; by rewrite Hnb|]. apply set_eq. intros q. rewrite elem_of_difference, elem_of_singleton. split.
  + intros Hq. destruct (used_page_inv _ _ Hq) as (m & ->). apply used_page in Hq as [Hm1 Hm2]. cbn [fst] in *.
    rewrite Hd in Hm2. split; [apply used_page; cbn [fst]; rewrite <- Hnb; split; [done|set_solver]|].
    intros ->%page_addr_inj. set_solver.
  + intros [Hq Hne]. destruct (used_page_inv _ _ Hq) as (m & ->). apply used_page in Hq as [Hm1 Hm2].
    apply used_page. cbn [fst] in *. rewrite Hnb, Hd. split; [done|].
    assert (m ≠ n) by (by intros ->). set_solver.
Qed.

#[export] Instance palloc_pages_laws : PageSourceLaws PAGE_SIZE page_pool.
Proof.
  refine (Build_PageSourceLaws _ _ _ pool_ok used_pages _ pool_free).
  abstract (intros g Hg; destruct (pool_alloc g Hg) as (p & g' & E & Hg' & Hp); exists p, g';
    split; [exact E|]; split; [exact Hg'|];
    destruct Hp as [Hp|(H1 & H2 & H3 & H4)]; [left; exact Hp|right];
    unfold SUPERVISOR_START, PAGE_SIZE in *; split_and!; first [assumption | lia]).
Defined.

(** ** The units of a slab *)

Notation plinks := (gmap sloc (list_t sloc)).

Section Walk.
Context {loc : Type} `{Countable loc}.
Implicit Types h : gmap loc (list_t loc).

(** The entries behind the guard [g], following [next] from [p]. *)
Fixpoint walk (n : nat) h (g p : loc) : list loc :=
  match n with
  | O => []
  | S n => match list_next h p with
           | Some q => if list_is_edge g q then [] else q :: walk n h g q
           | None => []
           end
  end.

Definition members h (g : loc) : list loc := walk (S (size h)) h g g.

Lemma walk_seg n h g p l : seg h p l g -> g ∉ l -> (length l < n)%nat -> walk n h g p = l.
Proof.
  revert p l. induction n as [|n IH]; intros p l Hs Hg Hn; [lia|]. cbn [walk]. unfold list_is_edge.
  destruct l as [|x l]; cbn [seg] in Hs.
  - destruct Hs as [-> _]. by rewrite bool_decide_true.
  - destruct Hs as [[-> _] Hs]. apply not_elem_of_cons in Hg as [Hx Hg]. rewrite bool_decide_false by done.
    f_equal. apply IH; [done|done|cbn in Hn; lia].
Qed.

Lemma members_rep h A g l : rep h A -> A !! g = Some l -> members h g = l.
Proof.
  intros Hr Hg. pose proof (rep_wf _ _ Hr) as [Hnd _]. pose proof (Hnd _ _ Hg) as [Hgl Hnl]%NoDup_cons.
  pose proof (rep_seg _ _ _ _ Hr Hg) as Hs. apply walk_seg; [done|done|].
  pose proof (seg_size h g l g Hs ltac:(by apply NoDup_cons)) as Hlen. cbn in Hlen. lia.
Qed.

End Walk.

Definition blocks_of (s : slab_t plinks) : list Z :=
  omap (λ l, match l with BBlocks b => Some b | _ => None end) (members (links s) SBlocks).

Definition free_units (s : slab_t plinks) (b : Z) : list Z :=
  omap (λ l, match l with EEntry p => Some p | _ => None end) (members (links s) (BEntries b)).

(** The units handed out. *)
Definition live_units (s : slab_t plinks) : gset Z :=
  list_to_set (b ← blocks_of s; filter (λ p, p ∉ free_units s b) (slots s b)).

Lemma omap_fmap_id {A B} (f : A -> B) (f' : B -> option A) (l : list A) :
  (forall x, f' (f x) = Some x) -> omap f' (f <$> l) = l.
Proof. intros Hf. induction l as [|x l IH]; [done|]. cbn. rewrite Hf. by f_equal. Qed.

(** A slab on pointers whose blocks are [bs]. *)
Definition pslab_in (s : slab_t plinks) (g : page_pool) (bs : list Z) (live : gset Z) : Prop :=
  exists a, slab_rel rep s a /\ slab_in PAGE_SIZE a g bs live.

Lemma pslab_blocks s g bs live : pslab_in s g bs live -> blocks_of s = bs.
Proof.
  intros (a & (Hr & _) & (Q & es & HA) & _). unfold blocks_of.
  rewrite (members_rep _ _ _ _ Hr (q_lookup _ _ _ (sa_links _ _ _ _ _ HA) _ _ (sa_bs _ _ _ _ _ HA))).
  by apply omap_fmap_id.
Qed.

Lemma pslab_live s g bs live : pslab_in s g bs live -> live_units s = live.
Proof.
  intros HS. pose proof (pslab_blocks _ _ _ _ HS) as Hbs. destruct HS as (a & (Hr & Hsp & _) & (Q & es & HA) & _).
  assert (Hsl : forall b, slots s b = slots a b).
  { intros b. unfold slots. destruct Hsp as (-> & _ & _ & _ & -> & _). done. }
  assert (Hfu : forall b l, Q !! BEntries b = Some l -> free_units s b = l).
  { intros b l Hl. unfold free_units. rewrite (members_rep _ _ _ _ Hr (q_lookup _ _ _ (sa_links _ _ _ _ _ HA) _ _ Hl)).
    by apply omap_fmap_id. }
  apply set_eq. intros p. unfold live_units. rewrite Hbs, elem_of_list_to_set, list_elem_of_bind.
  rewrite (sa_live _ _ _ _ _ HA). split.
  - intros (b & [Hn Hp]%list_elem_of_filter & Hb). destruct (sa_units _ _ _ _ _ HA b Hb) as (l & Hl & _).
    exists b, l. rewrite Hsl in Hp. by rewrite (Hfu b l Hl) in Hn.
  - intros (b & l & Hl & Hp & Hn). exists b. destruct (sa_entries _ _ _ _ _ HA b l Hl) as [Hb _]. split; [|done].
    apply list_elem_of_filter. by rewrite (Hfu b l Hl), Hsl.
Qed.

(** The other clients of the page pool keep their pages. *)
Lemma pslab_alloc s g bs live :
  pslab_in s g bs live ->
  exists p s' g' bs', slab_alloc s g = Some (p, s', g') /\ others PAGE_SIZE g' bs' = others PAGE_SIZE g bs /\
    (p = 0 /\ pslab_in s' g' bs' live \/ p ≠ 0 /\ p ∉ live /\ pslab_in s' g' bs' ({[p]} ∪ live)).
Proof.
  intros (a & Hr & HS). destruct (slab_alloc_spec _ _ _ _ _ HS) as (p & a' & g' & bs' & E & _ & Ho & Hp).
  destruct (slab_alloc_refines rep s a g Hr _ _ _ E) as (s' & E' & Hr').
  exists p, s', g', bs'. split_and!; [done|done|]. unfold pslab_in. naive_solver.
Qed.

Lemma pslab_free s g bs live p :
  pslab_in s g bs live -> p ∈ live ->
  exists s' g' bs', slab_free s g p = Some (s', g') /\ others PAGE_SIZE g' bs' = others PAGE_SIZE g bs /\
    pslab_in s' g' bs' (live ∖ {[p]}).
Proof.
  intros (a & Hr & HS) Hp. destruct (slab_free_spec _ _ _ _ _ _ HS Hp) as (a' & g' & bs' & E & _ & Ho & HS').
  destruct (slab_free_refines rep s a g p _ _ Hr E) as (s' & E' & Hr').
  exists s', g', bs'. split_and!; [done|done|]. by exists a'.
Qed.

(** The slab of a client is untouched by what others do to the pool. *)
Lemma pslab_frame s g g' bs live :
  pslab_in s g bs live -> ps_ok PAGE_SIZE g' -> list_to_set bs ⊆ ps_live PAGE_SIZE g' -> pslab_in s g' bs live.
Proof. intros (a & Hr & Ha & _ & _ & Hb) Hg Hs. by exists a. Qed.

(** ** The slabs of the kernel *)

(** The sizes of the records on the 32-bit target. *)
Definition sizeof_thread_t : Z := 656.
Definition sizeof_reply_t : Z := 28.

Record kmem := Kmem {
  kp_pool : page_pool;
  kp_threads : slab_t plinks;
  kp_replies : slab_t plinks;
}.

(** The part of [create_tree] that concerns the slab. *)
Definition create_slab (entry_size : Z) (s : slab_t plinks) (g : page_pool) : option (slab_t plinks * page_pool) :=
  let s := Slab entry_size PAGE_SIZE 1 (slab_max_block 32768 PAGE_SIZE entry_size)
             (entries_per_block s) (mask s) (offset s) (empty_num s) (block_num s) (links s) (entry_num s) in
  '(_, s, g) ← slab_create s g;
  Some (s, g).

Definition null (p : Z) : option Z := if p =? 0 then None else Some p.

#[export] Instance kernel_memory : KernelMemory kmem := {
  thread_slab_create m :=
    '(s, g) ← create_slab sizeof_thread_t (kp_threads m) (kp_pool m); Some (Kmem g s (kp_replies m));
  reply_slab_create m :=
    '(s, g) ← create_slab sizeof_reply_t (kp_replies m) (kp_pool m); Some (Kmem g (kp_threads m) s);
  thread_alloc m :=
    '(p, s, g) ← slab_alloc (kp_threads m) (kp_pool m); Some (null p, Kmem g s (kp_replies m));
  thread_free m p := '(s, g) ← slab_free (kp_threads m) (kp_pool m) p; Some (Kmem g s (kp_replies m));
  reply_alloc m :=
    '(p, s, g) ← slab_alloc (kp_replies m) (kp_pool m); Some (null p, Kmem g (kp_threads m) s);
  reply_free m p := '(s, g) ← slab_free (kp_replies m) (kp_pool m) p; Some (Kmem g (kp_threads m) s);
  page_alloc m := '(p, g) ← ps_alloc (kp_pool m); Some (p, Kmem g (kp_threads m) (kp_replies m));
  page_free m p := g ← ps_free (kp_pool m) p; Some (Kmem g (kp_threads m) (kp_replies m));
}.

Definition kmem_ok (m : kmem) : Prop :=
  exists bt br, pslab_in (kp_threads m) (kp_pool m) bt (live_units (kp_threads m)) /\
    pslab_in (kp_replies m) (kp_pool m) br (live_units (kp_replies m)) /\
    (list_to_set bt : gset Z) ## list_to_set br.

(** The pages that belong to neither slab. *)
Definition kmem_pages (m : kmem) : gset Z :=
  used_pages (kp_pool m) ∖ list_to_set (blocks_of (kp_threads m)) ∖ list_to_set (blocks_of (kp_replies m)).

(** A pool nobody has used, and slabs in cleared memory. *)
Definition kmem_raw (m : kmem) : Prop :=
  ps_ok PAGE_SIZE (kp_pool m) /\ links (kp_threads m) = ∅ /\ links (kp_replies m) = ∅.

Lemma kmem_intro g t r bt br lt lr :
  pslab_in t g bt lt -> pslab_in r g br lr -> (list_to_set bt : gset Z) ## list_to_set br ->
  kmem_ok (Kmem g t r) /\ live_units t = lt /\ live_units r = lr /\
  kmem_pages (Kmem g t r) = used_pages g ∖ list_to_set bt ∖ list_to_set br.
Proof.
  intros Ht Hr Hd. rewrite (pslab_live _ _ _ _ Ht), (pslab_live _ _ _ _ Hr). split; [|split; [done|split; [done|]]].
  - exists bt, br. cbn [kp_threads kp_pool kp_replies]. by rewrite (pslab_live _ _ _ _ Ht), (pslab_live _ _ _ _ Hr).
  - unfold kmem_pages. cbn [kp_threads kp_pool kp_replies]. by rewrite (pslab_blocks _ _ _ _ Ht), (pslab_blocks _ _ _ _ Hr).
Qed.

Lemma pslab_ok s g bs live : pslab_in s g bs live -> ps_ok PAGE_SIZE g /\ list_to_set bs ⊆ used_pages g.
Proof. intros (a & _ & _ & Hg & Hs & _). split; [exact Hg|exact Hs]. Qed.

(** One slab works while the other keeps its blocks. *)
Lemma other_slab r g g' bs bs' br lr :
  pslab_in r g br lr -> (list_to_set bs : gset Z) ## list_to_set br -> ps_ok PAGE_SIZE g' ->
  others PAGE_SIZE g' bs' = others PAGE_SIZE g bs ->
  pslab_in r g' br lr /\ (list_to_set bs' : gset Z) ## list_to_set br /\
  used_pages g' ∖ list_to_set bs' ∖ list_to_set br = used_pages g ∖ list_to_set bs ∖ list_to_set br.
Proof.
  intros Hr Hd Hg Ho. destruct (pslab_ok _ _ _ _ Hr) as [_ Hs]. unfold others in Ho.
  change (ps_live PAGE_SIZE g) with (used_pages g) in *. change (ps_live PAGE_SIZE g') with (used_pages g') in *.
  assert (Hin : list_to_set br ⊆ used_pages g' ∖ list_to_set bs') by (rewrite Ho; set_solver).
  split; [eapply pslab_frame; [done|done|set_solver]|]. split; [set_solver|]. by rewrite Ho.
Qed.

Lemma create_slab_spec e s g :
  ps_ok PAGE_SIZE g -> links s = ∅ -> sizeof_slab_entry_t <= e -> e + sizeof_slab_block_t <= PAGE_SIZE ->
  exists s' g' bs, create_slab e s g = Some (s', g') /\ pslab_in s' g' bs ∅ /\ others PAGE_SIZE g' bs = used_pages g.
Proof.
  intros Hg Hl He1 He2. unfold create_slab. unfold sizeof_slab_entry_t, sizeof_slab_block_t, PAGE_SIZE in *.
  match goal with |- context [slab_create ?x g] => set (c := x) end.
  assert (Hmx : 0 < max_block c < 2 ^ 32).
  { cbn. unfold slab_max_block, sizeof_slab_block_t. destruct (Z.eqb_spec (32768 / ((4096 - 32) / e)) 0); [lia|].
    assert (0 < (4096 - 32) / e) by (apply Z.div_str_pos; lia).
    pose proof (Z.div_pos 32768 ((4096 - 32) / e) ltac:(lia) ltac:(lia)).
    pose proof (Z.div_le_upper_bound 32768 ((4096 - 32) / e) 32768 ltac:(lia) ltac:(nia)). lia. }
  set (a := with_lists (empty_num c) (block_num c) (∅ : gmap sloc (list sloc)) (entry_num c) c).
  assert (Hr : slab_rel rep c a).
  { split; [|done]. cbn. rewrite Hl. apply rep_empty. }
  pose proof (slab_create_spec 4096 a g Hg ltac:(by exists 12) eq_refl eq_refl) as Hc.
  specialize (Hc ltac:(cbn; unfold sizeof_slab_block_t; lia) ltac:(cbn in *; lia)).
  assert (creatable a = true) as Hcr.
  { unfold creatable. rewrite !andb_true_iff, !Z.leb_le, Z.ltb_lt. unfold sizeof_slab_entry_t, sizeof_slab_block_t. cbn in *. lia. }
  rewrite Hcr in Hc. destruct Hc as (a' & g' & bs & E & HS & Ho & _).
  destruct (slab_create_refines rep c a g Hr _ _ _ E) as (s' & -> & Hr'). cbn [mbind option_bind].
  exists s', g', bs. split; [done|]. split; [by exists a'|done].
Qed.

Lemma null_0 : null 0 = None.
Proof. done. Qed.

Lemma null_ne p : p ≠ 0 -> null p = Some p.
Proof. intros Hp. unfold null. by rewrite (proj2 (Z.eqb_neq p 0)). Qed.

Ltac kp := cbn [kp_pool kp_threads kp_replies] in *.

Lemma kmem_create m : kmem_raw m ->
  exists m1 m2, reply_slab_create m = Some m1 /\ thread_slab_create m1 = Some m2 /\ kmem_ok m2 /\
    live_units (kp_threads m2) = ∅ /\ live_units (kp_replies m2) = ∅.
Proof.
  destruct m as [g t r]. intros (Hg & Ht & Hr). kp.
  destruct (create_slab_spec sizeof_reply_t r g Hg Hr) as (r1 & g1 & br & E1 & HS1 & Ho1); [done|done|].
  destruct (pslab_ok _ _ _ _ HS1) as [Hg1 Hs1].
  destruct (create_slab_spec sizeof_thread_t t g1 Hg1 Ht) as (t2 & g2 & bt & E2 & HS2 & Ho2); [done|done|].
  destruct (pslab_ok _ _ _ _ HS2) as [Hg2 Hs2].
  exists (Kmem g1 t r1), (Kmem g2 t2 r1). cbn [reply_slab_create thread_slab_create kernel_memory]. kp.
  rewrite E1, E2. split; [done|]. split; [done|]. unfold others in *.
  change (ps_live PAGE_SIZE g2) with (used_pages g2) in *.
  assert (Hin : list_to_set br ⊆ used_pages g2 ∖ list_to_set bt) by (rewrite Ho2; exact Hs1).
  destruct (kmem_intro g2 t2 r1 bt br ∅ ∅ HS2) as (H1 & H2 & H3 & _); [|set_solver|done].
  eapply pslab_frame; [exact HS1|exact Hg2|]. change (ps_live PAGE_SIZE g2) with (used_pages g2). set_solver.
Qed.

(** What an allocation or a release by the slab [s] leaves alone. *)
Lemma kmem_thread_step g t r g' t' bt bt' br lt' :
  pslab_in t g bt (live_units t) -> pslab_in r g br (live_units r) -> (list_to_set bt : gset Z) ## list_to_set br ->
  others PAGE_SIZE g' bt' = others PAGE_SIZE g bt -> pslab_in t' g' bt' lt' ->
  kmem_ok (Kmem g' t' r) /\ kmem_pages (Kmem g' t' r) = kmem_pages (Kmem g t r) /\ live_units t' = lt'.
Proof.
  intros Ht Hr Hd Ho Ht'. destruct (pslab_ok _ _ _ _ Ht') as [Hg' _].
  destruct (other_slab r g g' bt bt' br _ Hr Hd Hg' Ho) as (Hr' & Hd' & Epg).
  destruct (kmem_intro g t r _ _ _ _ Ht Hr Hd) as (_ & _ & _ & Ep0).
  destruct (kmem_intro g' t' r _ _ _ _ Ht' Hr' Hd') as (Hok & El1 & El2 & Ep).
  split; [done|]. split; [by rewrite Ep, Epg, Ep0|done].
Qed.

Lemma kmem_reply_step g t r g' r' br br' bt lr' :
  pslab_in t g bt (live_units t) -> pslab_in r g br (live_units r) -> (list_to_set bt : gset Z) ## list_to_set br ->
  others PAGE_SIZE g' br' = others PAGE_SIZE g br -> pslab_in r' g' br' lr' ->
  kmem_ok (Kmem g' t r') /\ kmem_pages (Kmem g' t r') = kmem_pages (Kmem g t r) /\ live_units r' = lr'.
Proof.
  intros Ht Hr Hd Ho Hr'. destruct (pslab_ok _ _ _ _ Hr') as [Hg' _].
  destruct (other_slab t g g' br br' bt _ Ht ltac:(done) Hg' Ho) as (Ht' & Hd' & Epg). symmetry in Hd'.
  destruct (kmem_intro g t r _ _ _ _ Ht Hr Hd) as (_ & _ & _ & Ep0).
  destruct (kmem_intro g' t r' _ _ _ _ Ht' Hr' Hd') as (Hok & El1 & El2 & Ep).
  split; [done|]. split; [|done]. rewrite Ep, Ep0, !difference_difference_l_L, (union_comm_L (list_to_set bt)).
  by rewrite <- !difference_difference_l_L, Epg, !difference_difference_l_L, (union_comm_L (list_to_set br)).
Qed.

Lemma kmem_thread_alloc m : kmem_ok m ->
  exists o m', thread_alloc m = Some (o, m') /\ kmem_ok m' /\
    live_units (kp_replies m') = live_units (kp_replies m) /\ kmem_pages m' = kmem_pages m /\
    match o with
    | None => live_units (kp_threads m') = live_units (kp_threads m)
    | Some a => a ∉ live_units (kp_threads m) /\ a ≠ 0 /\
        live_units (kp_threads m') = {[a]} ∪ live_units (kp_threads m)
    end.
Proof.
  destruct m as [g t r]. intros (bt & br & Ht & Hr & Hd). kp.
  destruct (pslab_alloc _ _ _ _ Ht) as (p & t' & g' & bt' & E & Ho & Hp).
  exists (null p), (Kmem g' t' r). split; [cbn [thread_alloc kernel_memory]; kp; by rewrite E|].
  destruct Hp as [[-> Ht']|(Hp0 & Hpl & Ht')];
    destruct (kmem_thread_step _ _ _ _ _ _ _ _ _ Ht Hr Hd Ho Ht') as (Hok & Ep & El);
    (split; [exact Hok|]; split; [reflexivity|]; split; [exact Ep|]); [exact El|].
  rewrite null_ne by exact Hp0. kp. rewrite El. auto.
Qed.

Lemma kmem_thread_free m p : kmem_ok m -> p ∈ live_units (kp_threads m) ->
  exists m', thread_free m p = Some m' /\ kmem_ok m' /\
    live_units (kp_replies m') = live_units (kp_replies m) /\ kmem_pages m' = kmem_pages m /\
    live_units (kp_threads m') = live_units (kp_threads m) ∖ {[p]}.
Proof.
  destruct m as [g t r]. intros (bt & br & Ht & Hr & Hd) Hp. kp.
  destruct (pslab_free _ _ _ _ p Ht Hp) as (t' & g' & bt' & E & Ho & Ht').
  exists (Kmem g' t' r). split; [cbn [thread_free kernel_memory]; kp; by rewrite E|].
  destruct (kmem_thread_step _ _ _ _ _ _ _ _ _ Ht Hr Hd Ho Ht') as (Hok & Ep & El). auto.
Qed.

Lemma kmem_reply_alloc m : kmem_ok m ->
  exists o m', reply_alloc m = Some (o, m') /\ kmem_ok m' /\
    live_units (kp_threads m') = live_units (kp_threads m) /\ kmem_pages m' = kmem_pages m /\
    match o with
    | None => live_units (kp_replies m') = live_units (kp_replies m)
    | Some a => a ∉ live_units (kp_replies m) /\ live_units (kp_replies m') = {[a]} ∪ live_units (kp_replies m)
    end.
Proof.
  destruct m as [g t r]. intros (bt & br & Ht & Hr & Hd). kp.
  destruct (pslab_alloc _ _ _ _ Hr) as (p & r' & g' & br' & E & Ho & Hp).
  exists (null p), (Kmem g' t r'). split; [cbn [reply_alloc kernel_memory]; kp; by rewrite E|].
  destruct Hp as [[-> Hr']|(Hp0 & Hpl & Hr')];
    destruct (kmem_reply_step _ _ _ _ _ _ _ _ _ Ht Hr Hd Ho Hr') as (Hok & Ep & El);
    (split; [exact Hok|]; split; [reflexivity|]; split; [exact Ep|]); [exact El|].
  rewrite null_ne by exact Hp0. kp. rewrite El. auto.
Qed.

Lemma kmem_reply_free m p : kmem_ok m -> p ∈ live_units (kp_replies m) ->
  exists m', reply_free m p = Some m' /\ kmem_ok m' /\
    live_units (kp_threads m') = live_units (kp_threads m) /\ kmem_pages m' = kmem_pages m /\
    live_units (kp_replies m') = live_units (kp_replies m) ∖ {[p]}.
Proof.
  destruct m as [g t r]. intros (bt & br & Ht & Hr & Hd) Hp. kp.
  destruct (pslab_free _ _ _ _ p Hr Hp) as (r' & g' & br' & E & Ho & Hr').
  exists (Kmem g' t r'). split; [cbn [reply_free kernel_memory]; kp; by rewrite E|].
  destruct (kmem_reply_step _ _ _ _ _ _ _ _ _ Ht Hr Hd Ho Hr') as (Hok & Ep & El). auto.
Qed.

Lemma kmem_page_alloc m : kmem_ok m ->
  exists p m', page_alloc m = Some (p, m') /\ kmem_ok m' /\
    live_units (kp_threads m') = live_units (kp_threads m) /\ live_units (kp_replies m') = live_units (kp_replies m) /\
    (p = 0 /\ kmem_pages m' = kmem_pages m \/
     p ∉ kmem_pages m /\ SUPERVISOR_START <= p < 2 ^ 32 - PAGE_SIZE /\ kmem_pages m' = {[p]} ∪ kmem_pages m).
Proof.
  destruct m as [g t r]. intros (bt & br & Ht & Hr & Hd). kp.
  destruct (pslab_ok _ _ _ _ Ht) as [Hg Hst]. destruct (pslab_ok _ _ _ _ Hr) as [_ Hsr].
  destruct (kmem_intro g t r _ _ _ _ Ht Hr Hd) as (_ & _ & _ & Ep0).
  destruct (pool_alloc g Hg) as (p & g' & E & Hg' & Hp).
  exists p, (Kmem g' t r). split; [cbn [page_alloc kernel_memory]; kp; by rewrite E|].
  assert (Hsub : used_pages g ⊆ used_pages g') by (destruct Hp as [[_ ->]|(_ & _ & _ & ->)]; set_solver).
  destruct (kmem_intro g' t r bt br _ _ (pslab_frame _ _ g' _ _ Ht Hg' ltac:(by etrans))
    (pslab_frame _ _ g' _ _ Hr Hg' ltac:(by etrans)) Hd) as (Hok & _ & _ & Ep).
  split; [done|]. split; [done|]. split; [done|]. rewrite Ep, Ep0.
  destruct Hp as [[-> ->]|(Hpn & Hal & Hp1 & ->)]; [by left|]. right. split; [set_solver|]. split; [done|set_solver].
Qed.

Lemma kmem_page_free m p : kmem_ok m -> p ∈ kmem_pages m ->
  exists m', page_free m p = Some m' /\ kmem_ok m' /\
    live_units (kp_threads m') = live_units (kp_threads m) /\ live_units (kp_replies m') = live_units (kp_replies m) /\
    kmem_pages m' = kmem_pages m ∖ {[p]}.
Proof.
  destruct m as [g t r]. intros (bt & br & Ht & Hr & Hd) Hp. kp.
  destruct (pslab_ok _ _ _ _ Ht) as [Hg Hst]. destruct (pslab_ok _ _ _ _ Hr) as [_ Hsr].
  destruct (kmem_intro g t r _ _ _ _ Ht Hr Hd) as (_ & _ & _ & Ep0). rewrite Ep0 in Hp |- *.
  destruct (pool_free g p Hg) as (g' & E & Hg' & Hl'); [set_solver|].
  exists (Kmem g' t r). split; [cbn [page_free kernel_memory]; kp; by rewrite E|].
  assert (Hs1 : list_to_set bt ⊆ used_pages g') by (rewrite Hl'; set_solver).
  assert (Hs2 : list_to_set br ⊆ used_pages g') by (rewrite Hl'; set_solver).
  destruct (kmem_intro g' t r bt br _ _ (pslab_frame _ _ g' _ _ Ht Hg' Hs1) (pslab_frame _ _ g' _ _ Hr Hg' Hs2) Hd)
    as (Hok & _ & _ & Ep).
  split; [done|]. split; [done|]. split; [done|]. rewrite Ep, Hl'. set_solver.
Qed.

(** The slabs and the page allocator are what the kernel needs. *)
#[export] Instance kernel_memory_laws : KernelMemoryLaws kmem := {
  mem_raw := kmem_raw;
  mem_ok := kmem_ok;
  live_threads m := live_units (kp_threads m);
  live_replies m := live_units (kp_replies m);
  live_pages := kmem_pages;
  slab_create_law := kmem_create;
  thread_alloc_law := kmem_thread_alloc;
  thread_free_law := kmem_thread_free;
  reply_alloc_law := kmem_reply_alloc;
  reply_free_law := kmem_reply_free;
  page_alloc_law := kmem_page_alloc;
  page_free_law := kmem_page_free;
}.

(** ** The units of a slab are apart *)

Lemma slab_live_slot s Q es bs live p :
  slab_at s Q es bs live -> p ∈ live ->
  exists b i, b ∈ bs /\ 0 <= i < entries_per_block s /\ p = b + sizeof_slab_block_t + i * unit_size s.
Proof.
  intros HA Hp. destruct (at_live_block _ _ _ _ _ HA p Hp) as (b & l & Hb & _ & Hs & _).
  unfold slots in Hs. apply list_elem_of_fmap in Hs as (i & -> & Hi%elem_of_seqZ). exists b, i. split; [done|]. split; [lia|done].
Qed.

(** Blocks are aligned to their size, so they do not overlap. *)
Lemma slab_blocks_apart s Q es bs live b b' :
  slab_at s Q es bs live -> b ∈ bs -> b' ∈ bs -> b < b' -> b + block_size s <= b'.
Proof.
  intros HA Hb Hb' Hlt. destruct (sa_block _ _ _ _ _ HA b Hb) as (H1 & _ & _). destruct (sa_block _ _ _ _ _ HA b' Hb') as (H2 & _ & _).
  destruct (pm_size _ (sa_params _ _ _ _ _ HA)) as (n & Hn & Eq). pose proof (Z.pow_pos_nonneg 2 n ltac:(lia) ltac:(lia)) as Hpos.
  rewrite <- Eq in Hpos. generalize dependent (block_size s). intros z H1 H2 _ Hpos.
  assert (Hz : z ≠ 0) by lia. apply (Z.mod_divide _ _ Hz) in H1 as [x ->]. apply (Z.mod_divide _ _ Hz) in H2 as [y ->].
  assert (x < y) by (by apply (Z.mul_lt_mono_pos_r z)). nia.
Qed.

Lemma pslab_apart s g bs live p q :
  pslab_in s g bs live -> p ∈ live -> q ∈ live -> p < q -> p + unit_size s <= q.
Proof.
  intros (a & (_ & Hsp & _) & (Q & es & HA) & _) Hp Hq Hlt. destruct Hsp as (-> & _).
  destruct (slab_live_slot _ _ _ _ _ _ HA Hp) as (b & i & Hb & Hi & ->). destruct (slab_live_slot _ _ _ _ _ _ HA Hq) as (b' & j & Hb' & Hj & ->).
  pose proof (pm_fits _ (sa_params _ _ _ _ _ HA)). pose proof (pm_unit _ (sa_params _ _ _ _ _ HA)). unfold sizeof_slab_entry_t, sizeof_slab_block_t in *.
  destruct (Z.lt_trichotomy b b') as [Hl|[->|Hl]].
  - pose proof (slab_blocks_apart _ _ _ _ _ b b' HA Hb Hb' Hl). nia.
  - assert (i < j) by (apply (Z.mul_lt_mono_pos_r (unit_size a)); lia). nia.
  - pose proof (slab_blocks_apart _ _ _ _ _ b' b HA Hb' Hb Hl). nia.
Qed.

Lemma pslab_inside s g bs live p :
  pslab_in s g bs live -> p ∈ live -> exists b, b ∈ bs /\ b + sizeof_slab_block_t <= p /\ p + unit_size s <= b + PAGE_SIZE.
Proof.
  intros (a & (_ & Hsp & _) & (Q & es & HA) & _ & _ & Hbz) Hp. destruct Hsp as (-> & _).
  destruct (slab_live_slot _ _ _ _ _ _ HA Hp) as (b & i & Hb & Hi & ->). exists b. split; [done|].
  pose proof (pm_fits _ (sa_params _ _ _ _ _ HA)). pose proof (pm_unit _ (sa_params _ _ _ _ _ HA)). unfold sizeof_slab_entry_t in *.
  rewrite Hbz in *. nia.
Qed.

(** C31: the slab allocator over the page allocator.  From a slab whose units
    in use are [live], an allocation returns [NULL] or a unit that was not in
    use, and a unit in use can be given back; the units in use lie inside of
    the blocks of the slab and never overlap.  Whatever blocks the slab takes
    or returns, it leaves the pages of the other clients alone, and its
    doubly linked lists of blocks and units stay consistent. *)
Theorem slab_units s g bs live :
  pslab_in s g bs live ->
  (exists p s' g' bs', slab_alloc s g = Some (p, s', g') /\ others PAGE_SIZE g' bs' = others PAGE_SIZE g bs /\
     (p = 0 /\ pslab_in s' g' bs' live \/ p ≠ 0 /\ p ∉ live /\ pslab_in s' g' bs' ({[p]} ∪ live))) /\
  (forall p, p ∈ live -> exists s' g' bs', slab_free s g p = Some (s', g') /\
     others PAGE_SIZE g' bs' = others PAGE_SIZE g bs /\ pslab_in s' g' bs' (live ∖ {[p]})) /\
  (forall p, p ∈ live -> exists b, b ∈ bs /\ b + sizeof_slab_block_t <= p /\ p + unit_size s <= b + PAGE_SIZE) /\
  (forall p q, p ∈ live -> q ∈ live -> p < q -> p + unit_size s <= q).
Proof.
  intros HS. split_and!.
  - by apply pslab_alloc.
  - intros p. by apply pslab_free.
  - intros p. by eapply pslab_inside.
  - intros p q. by eapply pslab_apart.
Qed.

(** A slab of rendezvous on 64 free pages. *)
Definition demo_pool : page_pool := (mkMemoryMap 64 0 3 96 [0; 0xffffffff; 0xffffffff], λ _, 0).
Definition demo_slab : slab_t plinks := Slab 0 0 0 0 0 0 0 0 0 ∅ ∅.

Lemma demo_pool_ok : pool_ok demo_pool.
Proof.
  split; [|by vm_compute]. unfold palloc_wf. split_and!.
  - repeat constructor; vm_compute; congruence.
  - reflexivity.
  - by vm_compute.
  - by vm_compute.
  - by vm_compute.
  - by vm_compute.
  - intros n Hn. pose proof (free_bits_lt _ _ Hn). cbn [clock_block demo_pool fst]. lia.
Qed.

Lemma slab_units_witness :
  exists s g bs p s' g' bs', create_slab sizeof_reply_t demo_slab demo_pool = Some (s, g) /\ slab_alloc s g = Some (p, s', g') /\
    others PAGE_SIZE g' bs' = others PAGE_SIZE g bs /\
    (p = 0 /\ pslab_in s' g' bs' ∅ \/ p ≠ 0 /\ p ∉ (∅ : gset Z) /\ pslab_in s' g' bs' ({[p]} ∪ ∅)).
Proof.
  destruct (create_slab_spec sizeof_reply_t demo_slab demo_pool) as (s & g & bs & E & HS & _);
    [exact demo_pool_ok|reflexivity|by vm_compute|by vm_compute|].
  destruct (slab_units s g bs ∅ HS) as ((p & s' & g' & bs' & Ha & Ho & Hp) & _).
  exists s, g, bs, p, s', g', bs'. split; [exact E|]. split; [exact Ha|]. split; [exact Ho|exact Hp].
Defined.
