(* ===== verification/KSteps.v ===== *)
(** * How single steps move the invariant

    The effect of each list operation, field update and allocation on [core]:
    which ghost map it changes, and that everything else stays as it is. *)

From S2P Require Import Prelude Lists AATree Bitmap Sequence Palloc KTypes KState KSched KThread.
From S2P Require Import KIpc Queues KQueues KInv.

(** ** Queues *)

Lemma rq_ok_frame rd bits (Q : queues) g l :
  rq_ok rd bits Q -> wait_guard g = true -> rq_ok rd bits (<[g := l]> Q).
Proof.
  intros [Hd Hm Hr Hb Hbits] Hg.
  assert (Hne : forall p, g ≠ LReady p) by (by intros p ->).
  split; try done.
  - intros p. rewrite lookup_insert_ne by done. apply Hd.
  - intros p l' a. rewrite lookup_insert_ne by done. apply Hm.
  - intros p l'. rewrite lookup_insert_ne by done. apply Hbits.
Qed.

(** A ready queue replaced by one with the right members. *)
Lemma rq_ok_replace rd rd' bits bits' (Q : queues) p l l' :
  rq_ok rd bits Q -> Q !! LReady p = Some l ->
  (forall a, a ∈ l' <-> rd' !! a = Some p) ->
  (forall a p', p' ≠ p -> rd' !! a = Some p' <-> rd !! a = Some p') ->
  0 <= bits' < 2 ^ 8 -> (l' ≠ [] -> Z.testbit bits' p = true) ->
  (forall p', Z.testbit bits p' = true -> Z.testbit bits' p' = true) ->
  rq_ok rd' bits' (<[LReady p := l']> Q).
Proof.
  intros [Hd Hm Hr Hb Hbits] Hp Hl' Hrd Hb' Hne Hmono.
  assert (Hpr : MIN_PRIORITY <= p <= MAX_PRIORITY) by (apply Hd; by eexists).
  split; try done.
  - intros p'. destruct (decide (p' = p)) as [->|].
    + rewrite lookup_insert_eq. split; [done|by eexists].
    + rewrite lookup_insert_ne by congruence. apply Hd.
  - intros p' k a. destruct (decide (p' = p)) as [->|].
    + rewrite lookup_insert_eq. intros [= <-]. apply Hl'.
    + rewrite lookup_insert_ne by congruence. intros Hk. rewrite Hrd by done. by apply Hm.
  - intros a p'. destruct (decide (p' = p)) as [->|]; [done|]. rewrite Hrd by done. apply Hr.
  - intros p' k. destruct (decide (p' = p)) as [->|].
    + rewrite lookup_insert_eq. intros [= <-]. done.
    + rewrite lookup_insert_ne by congruence. intros Hk Hkn. by eapply Hmono, Hbits.
Qed.

Lemma rq_ok_unready rd bits (Q : queues) p l a :
  rq_ok rd bits Q -> Q !! LReady p = Some l -> rd !! a = Some p ->
  rq_ok (delete a rd) bits (<[LReady p := filter (λ x, x ≠ a) l]> Q).
Proof.
  intros HR Hp Ha. pose proof HR as [Hd Hm Hr Hb Hbits].
  eapply rq_ok_replace; [done|done|..]; try done.
  - intros b. rewrite list_elem_of_filter, (Hm p l b Hp), lookup_delete_Some. naive_solver.
  - intros b p' Hne. rewrite lookup_delete_Some. naive_solver.
  - intros Hne. apply (Hbits p l Hp). by intros ->.
Qed.

Lemma rq_ok_enready rd bits (Q : queues) p l a :
  rq_ok rd bits Q -> Q !! LReady p = Some l -> rd !! a = None ->
  rq_ok (<[a := p]> rd) (bit_set bits p) (<[LReady p := l ++ [a]]> Q).
Proof.
  intros HR Hp Ha. pose proof HR as [Hd Hm Hr Hb Hbits].
  assert (Hpr : 0 <= p <= 7) by (apply Hd; by eexists).
  eapply rq_ok_replace; [done|done|..].
  - intros b. rewrite elem_of_app, list_elem_of_singleton, (Hm p l b Hp), lookup_insert_Some. naive_solver.
  - intros b p' Hne. rewrite lookup_insert_Some. naive_solver.
  - apply bit_set_range; [done|lia].
  - intros _. rewrite testbit_bit_set by lia. rewrite bool_decide_true by done. apply orb_true_r.
  - intros p' Hp'. destruct (decide (0 <= p')); [|by rewrite Z.testbit_neg_r in Hp' by lia].
    rewrite testbit_bit_set, Hp' by lia. done.
Qed.

Lemma rq_ok_rotate rd bits (Q : queues) p l a :
  rq_ok rd bits Q -> Q !! LReady p = Some (a :: l) -> rq_ok rd bits (<[LReady p := l ++ [a]]> Q).
Proof.
  intros HR Hp. pose proof HR as [Hd Hm Hr Hb Hbits].
  eapply rq_ok_replace; [done|done|..]; try done.
  - intros b. rewrite <- (Hm p (a :: l) b Hp). set_solver.
  - intros _. by apply (Hbits p _ Hp).
Qed.

Lemma rq_ok_clear rd bits (Q : queues) p :
  rq_ok rd bits Q -> Q !! LReady p = Some [] -> rq_ok rd (bit_clear bits p) Q.
Proof.
  intros [Hd Hm Hr Hb Hbits] Hp. assert (Hpr : 0 <= p <= 7) by (apply Hd; by eexists).
  split; try done.
  - apply bit_clear_range; lia.
  - intros p' l Hl Hne. assert (0 <= p' <= 7) by (apply Hd; by eexists).
    rewrite testbit_bit_clear, (Hbits p' l), bool_decide_false by (done || lia || by intros ->; congruence).
    done.
Qed.

Lemma fits_kind t g : fits t g = true -> wait_guard g = true.
Proof. by destruct t, g. Qed.

Lemma fits_queued t g : fits t g = true -> queued t = true.
Proof. by destruct t, g. Qed.

Section Waits.
Context (sg : gmap Z sig) (rm : gmap Z Z).

(** A thread leaves the queue it waits on. *)
Lemma w_ok_unwait ws (Q : queues) g l a :
  w_ok sg rm ws Q -> Q !! g = Some l -> a ∈ l -> wait_guard g = true ->
  (forall g' l', Q !! g' = Some l' -> a ∈ l' -> wait_guard g' = true -> g' = g) ->
  w_ok sg rm (<[a := WNone]> ws) (<[g := filter (λ x, x ≠ a) l]> Q).
Proof.
  intros W Hg Ha Hk Hu. destruct (w_mem _ _ _ _ W g l a Hg Ha Hk) as (t & Ht & Hfit).
  assert (Hsub : forall g' l', <[g:=filter (λ x, x ≠ a) l]> Q !! g' = Some l' ->
    exists l0, Q !! g' = Some l0 /\ (forall x, x ∈ l' -> x ∈ l0) /\ (length l' <= length l0)%nat).
  { intros g' l'. destruct (decide (g' = g)) as [->|].
    - rewrite lookup_insert_eq. intros [= <-]. exists l. split; [done|]. split.
      + by intros x [_ ?]%list_elem_of_filter.
      + apply length_filter.
    - rewrite lookup_insert_ne by done. eauto. }
  split.
  - rewrite dom_insert_L, (w_dom _ _ _ _ W). apply elem_of_dom_2 in Ht.
    rewrite (w_dom _ _ _ _ W) in Ht. set_solver.
  - intros g' l' b Hg' Hb Hk'. destruct (Hsub _ _ Hg') as (l0 & H0 & Hin & _).
    destruct (decide (b = a)) as [->|Hne].
    + exfalso. destruct (decide (g' = g)) as [->|Hgne].
      * rewrite lookup_insert_eq in Hg'. simplify_eq. by apply list_elem_of_filter in Hb as [? _].
      * rewrite lookup_insert_ne in Hg' by done. by apply Hgne, (Hu g' l').
    + rewrite lookup_insert_ne by done. by apply (w_mem _ _ _ _ W g' l0 b); auto.
  - intros b t'. destruct (decide (b = a)) as [->|Hne]; [by rewrite lookup_insert_eq; intros [= <-]|].
    rewrite lookup_insert_ne by done. intros Hb Hq.
    destruct (w_que _ _ _ _ W b t' Hb Hq) as (g' & l' & Hg' & Hin & Hf).
    destruct (decide (g' = g)) as [->|].
    + simplify_eq. exists g, (filter (λ x, x ≠ a) l). rewrite lookup_insert_eq.
      split; [done|]. split; [|done]. by apply list_elem_of_filter.
    + exists g', l'. by rewrite lookup_insert_ne.
  - intros g' l' Hg' Hne. destruct (Hsub _ _ Hg') as (l0 & H0 & Hin & _).
    apply (w_use _ _ _ _ W g' l0 H0). destruct l' as [|x l']; [done|].
    intros ->. specialize (Hin x). set_solver.
  - intros o s Ho Hop. destruct (w_port _ _ _ _ W o s Ho Hop) as [H1 H2].
    split; rewrite lookup_insert_is_Some; destruct (decide (g = LCaller o)), (decide (g = LReceiver o)); auto.
  - intros key r Hr. destruct (w_rdv _ _ _ _ W key r Hr) as (l0 & H0 & Hlen).
    destruct (decide (g = LReply r)) as [->|].
    + eexists. rewrite lookup_insert_eq. split; [done|]. simplify_eq.
      etrans; [apply length_filter|done].
    + exists l0. by rewrite lookup_insert_ne.
  - intros b key. destruct (decide (b = a)) as [->|Hne]; [by rewrite lookup_insert_eq|].
    rewrite lookup_insert_ne by done. intros Hb. destruct (w_call _ _ _ _ W b key Hb) as (r & Hr & Hq).
    exists r. split; [done|]. destruct (decide (g = LReply r)) as [->|]; [|by rewrite lookup_insert_ne].
    simplify_eq. by apply elem_of_nil in Ha.
  - intros b c key. destruct (decide (b = a)) as [->|]; [by rewrite lookup_insert_eq|].
    destruct (decide (c = a)) as [->|]; [by rewrite lookup_insert_ne, lookup_insert_eq|].
    rewrite !lookup_insert_ne by done. apply (w_inj _ _ _ _ W).
  - apply (w_rminj _ _ _ _ W).
Qed.

(** A thread that waits for nothing joins the queue [g]. *)
Lemma w_ok_enwait ws (Q : queues) g l a t :
  w_ok sg rm ws Q -> Q !! g = Some l -> ws !! a = Some WNone -> fits t g = true -> in_use sg rm g ->
  match t with
  | WCall key => (exists r, rm !! key = Some r /\ Q !! LReply r = Some []) /\
      forall b, ws !! b ≠ Some (WCall key)
  | WReply => l = [] /\ forall b key r, ws !! b = Some (WCall key) -> rm !! key = Some r -> g ≠ LReply r
  | _ => True
  end ->
  w_ok sg rm (<[a := t]> ws) (<[g := l ++ [a]]> Q).
Proof.
  intros W Hg Ha Hfit Huse Ht.
  assert (Hkeep : forall g' l', Q !! g' = Some l' -> exists l0, <[g:=l ++ [a]]> Q !! g' = Some l0 /\
    forall x, x ∈ l' -> x ∈ l0).
  { intros g' l' Hg'. destruct (decide (g' = g)) as [->|].
    - simplify_eq. eexists. rewrite lookup_insert_eq. split; [done|]. set_solver.
    - exists l'. by rewrite lookup_insert_ne. }
  split.
  - rewrite dom_insert_L, (w_dom _ _ _ _ W). apply elem_of_dom_2 in Ha.
    rewrite (w_dom _ _ _ _ W) in Ha. set_solver.
  - intros g' l' b Hg' Hb Hk'. destruct (decide (b = a)) as [->|Hne].
    + rewrite lookup_insert_eq. exists t. split; [done|]. destruct (decide (g' = g)) as [->|Hgne]; [done|].
      rewrite lookup_insert_ne in Hg' by done.
      destruct (w_mem _ _ _ _ W g' l' a Hg' Hb Hk') as (t0 & Ht0 & Hf). by simplify_eq.
    + rewrite lookup_insert_ne by done. destruct (decide (g' = g)) as [->|Hgne].
      * rewrite lookup_insert_eq in Hg'. simplify_eq. apply (w_mem _ _ _ _ W g l b); [done|set_solver|done].
      * rewrite lookup_insert_ne in Hg' by done. by apply (w_mem _ _ _ _ W g' l' b).
  - intros b t'. destruct (decide (b = a)) as [->|Hne].
    + rewrite lookup_insert_eq. intros [= <-] _. exists g, (l ++ [a]). rewrite lookup_insert_eq. set_solver.
    + rewrite lookup_insert_ne by done. intros Hb Hq.
      destruct (w_que _ _ _ _ W b t' Hb Hq) as (g' & l' & Hg' & Hin & Hf).
      destruct (Hkeep g' l' Hg') as (l0 & H0 & Hsub). exists g', l0. auto.
  - intros g' l'. destruct (decide (g' = g)) as [->|]; [done|].
    rewrite lookup_insert_ne by done. apply (w_use _ _ _ _ W).
  - intros o s Ho Hop. destruct (w_port _ _ _ _ W o s Ho Hop) as [[l1 H1] [l2 H2]].
    destruct (Hkeep _ _ H1) as (? & ? & _), (Hkeep _ _ H2) as (? & ? & _). by split; eexists.
  - intros key r Hr. destruct (w_rdv _ _ _ _ W key r Hr) as (l0 & H0 & Hlen).
    destruct (decide (g = LReply r)) as [->|].
    + eexists. rewrite lookup_insert_eq. split; [done|]. destruct t; try done.
      destruct Ht as [-> _]. simpl. lia.
    + exists l0. by rewrite lookup_insert_ne.
  - intros b key. destruct (decide (b = a)) as [->|Hne].
    + rewrite lookup_insert_eq. intros [= ->]. destruct Ht as [(r & Hr & Hq) _]. exists r.
      split; [done|]. rewrite lookup_insert_ne; [done|]. by intros ->.
    + rewrite lookup_insert_ne by done. intros Hb. destruct (w_call _ _ _ _ W b key Hb) as (r & Hr & Hq).
      exists r. split; [done|]. destruct (decide (g = LReply r)) as [->|]; [|by rewrite lookup_insert_ne].
      destruct t; try done. destruct Ht as [_ Ht]. by destruct (Ht b key r).
  - intros b c key. destruct (decide (b = a)) as [->|], (decide (c = a)) as [->|]; [done|..].
    + rewrite lookup_insert_eq, lookup_insert_ne by done. intros [= ->] Hc. destruct Ht as [_ Ht]. by apply Ht in Hc.
    + rewrite lookup_insert_eq, lookup_insert_ne by done. intros Hc [= ->]. destruct Ht as [_ Ht]. by apply Ht in Hc.
    + rewrite !lookup_insert_ne by done. apply (w_inj _ _ _ _ W).
  - apply (w_rminj _ _ _ _ W).
Qed.

(** Waiting for a flag, or for nothing, is waiting on no queue. *)
Lemma w_ok_flag ws (Q : queues) a t t' :
  w_ok sg rm ws Q -> ws !! a = Some t -> queued t = false -> queued t' = false ->
  w_ok sg rm (<[a := t']> ws) Q.
Proof.
  intros W Ha Hq Hq'. split.
  - rewrite dom_insert_L, (w_dom _ _ _ _ W). apply elem_of_dom_2 in Ha.
    rewrite (w_dom _ _ _ _ W) in Ha. set_solver.
  - intros g l b Hg Hb Hk. destruct (w_mem _ _ _ _ W g l b Hg Hb Hk) as (t0 & H0 & Hf).
    rewrite lookup_insert_ne; [eauto|]. intros <-. simplify_eq. apply fits_queued in Hf. congruence.
  - intros b t0. destruct (decide (b = a)) as [->|]; [rewrite lookup_insert_eq; congruence|].
    rewrite lookup_insert_ne by done. apply (w_que _ _ _ _ W).
  - apply (w_use _ _ _ _ W).
  - apply (w_port _ _ _ _ W).
  - apply (w_rdv _ _ _ _ W).
  - intros b key. destruct (decide (b = a)) as [->|]; [rewrite lookup_insert_eq; naive_solver|].
    rewrite lookup_insert_ne by done. apply (w_call _ _ _ _ W).
  - intros b c key. destruct (decide (b = a)) as [->|]; [rewrite lookup_insert_eq; naive_solver|].
    destruct (decide (c = a)) as [->|]; [rewrite (lookup_insert_eq _ a); naive_solver|].
    rewrite !lookup_insert_ne by done. apply (w_inj _ _ _ _ W).
  - apply (w_rminj _ _ _ _ W).
Qed.

(** The ready queues do not concern the waiting ones. *)
Lemma w_ok_frame ws (Q : queues) p l :
  w_ok sg rm ws Q -> w_ok sg rm ws (<[LReady p := l]> Q).
Proof.
  intros W. split.
  - apply (w_dom _ _ _ _ W).
  - intros g l' a. destruct (decide (g = LReady p)) as [->|]; [done|].
    rewrite lookup_insert_ne by done. apply (w_mem _ _ _ _ W).
  - intros a t Ha Hq. destruct (w_que _ _ _ _ W a t Ha Hq) as (g & l' & Hg & Hin & Hf).
    exists g, l'. rewrite lookup_insert_ne; [done|]. intros <-. by destruct t.
  - intros g l'. destruct (decide (g = LReady p)) as [->|]; [done|].
    rewrite lookup_insert_ne by done. apply (w_use _ _ _ _ W).
  - intros o s. rewrite !lookup_insert_ne by done. apply (w_port _ _ _ _ W).
  - intros key r. rewrite lookup_insert_ne by done. apply (w_rdv _ _ _ _ W).
  - intros a key Ha.
    apply (w_call _ _ _ _ W) in Ha.
    destruct Ha as (r & ? & ?). exists r. by rewrite lookup_insert_ne.
  - apply (w_inj _ _ _ _ W).
  - apply (w_rminj _ _ _ _ W).
Qed.

End Waits.

(** ** The invariant *)

Section Core.
Context {P : Platform} `{!KeyMapLaws pf_tree} `{!KernelMemoryLaws pf_memory}.
Implicit Types k : kernel rings.
Implicit Types Q : queues.

Lemma core_sig_dom k Q sg rd ws a :
  core k Q sg rd ws -> is_Some (ws !! a) <-> a ∈ dom (threads k).
Proof.
  intros HC. by rewrite <- elem_of_dom, (w_dom _ _ _ _ (c_w _ _ _ _ _ HC)), (c_dom _ _ _ _ _ HC).
Qed.

Lemma core_off_ready k Q sg rd ws a p : core k Q sg rd ws -> rd !! a = None -> off Q (LReady p) a.
Proof.
  intros HC Ha g l Hg E Hin. destruct g; try done.
  apply (rq_mem _ _ _ (c_rq _ _ _ _ _ HC) _ _ _ Hg) in Hin. congruence.
Qed.

Lemma core_guard k Q sg rd ws g l : core k Q sg rd ws -> Q !! g = Some l -> is_guard g = true.
Proof. intros HC Hg. destruct (c_links _ _ _ _ _ HC) as (I & HQ & _). by eapply (q_dom _ _ _ HQ). Qed.

Lemma core_off_wait k Q sg rd ws g a t :
  core k Q sg rd ws -> wait_guard g = true -> ws !! a = Some t -> queued t = false -> off Q g a.
Proof.
  intros HC Hk Ha Hq g' l Hg E Hin.
  assert (wait_guard g' = true) as Hk'.
  { pose proof (core_guard _ _ _ _ _ _ _ HC Hg). by destruct g, g'. }
  destruct (w_mem _ _ _ _ (c_w _ _ _ _ _ HC) g' l a Hg Hin Hk') as (t' & ? & Hf).
  apply fits_queued in Hf. congruence.
Qed.

Lemma core_unique k Q sg rd ws g g' l l' a :
  core k Q sg rd ws -> Q !! g = Some l -> a ∈ l -> wait_guard g = true ->
  Q !! g' = Some l' -> a ∈ l' -> wait_guard g' = true -> g' = g.
Proof.
  intros HC Hg Ha Hk Hg' Ha' Hk'. destruct (c_links _ _ _ _ _ HC) as (I & HQ & _).
  apply (q_unique _ _ _ HQ g' g l' l a); auto. by rewrite !wait_guard_link.
Qed.

(** A new list memory, with the queues it holds. *)
Lemma core_relink k Q sg rd ws A' Q' rd' ws' bits :
  core k Q sg rd ws -> (forall I, qrep (lists k) Q I -> qrep A' Q' I) ->
  rq_ok rd' bits Q' -> w_ok (sg) (km_map (reply_tree k)) ws' Q' ->
  (forall a p, rd' !! a = Some p -> exists s, sg !! a = Some s /\ sg_priority s = p) ->
  core (set_ready_bits bits (set_lists A' k)) Q' sg rd' ws'.
Proof.
  intros [HL Hdom Hrq Hw Hst Hcpu Hreg Hrep Hrd] HA Hrq' Hw' Hrd'. split; try done.
  destruct HL as (I & HQ & HI). exists I. split; [by apply HA|done].
Qed.

Lemma set_ready_bits_id (h : rings) k : set_ready_bits (ready_bits k) (set_lists h k) = set_lists h k.
Proof. done. Qed.

Lemma core_unwait k Q sg rd ws g l a :
  core k Q sg rd ws -> Q !! g = Some l -> a ∈ l -> wait_guard g = true ->
  exists A', ring_remove (lists k) (LWaiting a) = Some A' /\
    core (set_lists A' k) (<[g := filter (λ x, x ≠ a) l]> Q) sg rd (<[a := WNone]> ws).
Proof.
  intros HC Hg Ha Hk. destruct (c_links _ _ _ _ _ HC) as (I & HQ & HI).
  rewrite <- (wait_guard_link g Hk). destruct (q_remove _ _ _ HQ g a l Hg Ha) as (A' & HA & HQ').
  exists A'. split; [done|]. rewrite <- set_ready_bits_id. eapply core_relink; [done|..].
  - intros I' HQI. destruct (q_remove _ _ _ HQI g a l Hg Ha) as (A2 & HA2 & ?). congruence.
  - apply rq_ok_frame; [by apply (c_rq _ _ _ _ _ HC)|done].
  - eapply w_ok_unwait; [by apply (c_w _ _ _ _ _ HC)|done..|]. intros. by eapply core_unique.
  - apply (c_rd _ _ _ _ _ HC).
Qed.

Lemma core_pick k Q sg rd ws g a l :
  core k Q sg rd ws -> Q !! g = Some (a :: l) -> wait_guard g = true ->
  exists A', ring_pick (lists k) g = Some (Some (LWaiting a), A') /\
    core (set_lists A' k) (<[g := l]> Q) sg rd (<[a := WNone]> ws).
Proof.
  intros HC Hg Hk. destruct (c_links _ _ _ _ _ HC) as (I & HQ & HI).
  pose proof (q_nodup _ _ _ HQ _ _ Hg) as Hnd. pose proof (filter_ne_head _ _ Hnd) as Hf.
  pose proof (q_pick _ _ _ HQ g _ Hg) as (A' & HA & HQ'). rewrite wait_guard_link in HA by done.
  exists A'. split; [done|]. rewrite <- set_ready_bits_id. eapply core_relink; [done|..].
  - intros I' HQI. pose proof (q_pick _ _ _ HQI g _ Hg) as (A2 & HA2 & ?).
    rewrite wait_guard_link in HA2 by done. congruence.
  - apply rq_ok_frame; [by apply (c_rq _ _ _ _ _ HC)|done].
  - rewrite <- Hf at 1. eapply w_ok_unwait; [by apply (c_w _ _ _ _ _ HC)|done|by left|done|].
    intros. eapply core_unique; eauto. by left.
  - apply (c_rd _ _ _ _ _ HC).
Qed.

Lemma core_pick_empty k Q sg rd ws g :
  core k Q sg rd ws -> Q !! g = Some [] -> ring_pick (lists k) g = Some (None, lists k).
Proof.
  intros HC Hg. destruct (c_links _ _ _ _ _ HC) as (I & HQ & HI). exact (q_pick _ _ _ HQ g _ Hg).
Qed.

Lemma core_enwait k Q sg rd ws g l a t :
  core k Q sg rd ws -> Q !! g = Some l -> ws !! a = Some WNone -> fits t g = true ->
  in_use (sg) (km_map (reply_tree k)) g ->
  match t with
  | WCall key => (exists r, km_map (reply_tree k) !! key = Some r /\ Q !! LReply r = Some []) /\
      forall b, ws !! b ≠ Some (WCall key)
  | WReply => l = [] /\ forall b key r, ws !! b = Some (WCall key) ->
      km_map (reply_tree k) !! key = Some r -> g ≠ LReply r
  | _ => True
  end ->
  exists A', ring_append (lists k) g (LWaiting a) = Some A' /\
    core (set_lists A' k) (<[g := l ++ [a]]> Q) sg rd (<[a := t]> ws).
Proof.
  intros HC Hg Ha Hf Hu Ht. destruct (c_links _ _ _ _ _ HC) as (I & HQ & HI).
  assert (Hk : wait_guard g = true) by (by destruct t, g).
  assert (Hoff : off Q g a) by (by eapply core_off_wait).
  rewrite <- (wait_guard_link g Hk). destruct (q_enqueue _ _ _ HQ g a l Hg Hoff) as (A' & HA & HQ').
  exists A'. split; [done|]. rewrite <- set_ready_bits_id. eapply core_relink; [done|..].
  - intros I' HQI. destruct (q_enqueue _ _ _ HQI g a l Hg Hoff) as (A2 & HA2 & ?). congruence.
  - apply rq_ok_frame; [by apply (c_rq _ _ _ _ _ HC)|done].
  - by eapply w_ok_enwait; [apply (c_w _ _ _ _ _ HC)|..].
  - apply (c_rd _ _ _ _ _ HC).
Qed.

(** Removing a link that is on no queue changes nothing. *)
Lemma core_unwait_off k Q sg rd ws a t :
  core k Q sg rd ws -> ws !! a = Some t -> queued t = false ->
  ring_remove (lists k) (LWaiting a) = Some (lists k).
Proof.
  intros HC Ha Hq. destruct (c_links _ _ _ _ _ HC) as (I & HQ & HI).
  apply (q_remove_off _ _ _ HQ (LCaller 0) a).
  - apply HI. by apply (core_sig_dom _ _ _ _ _ _ HC).
  - by eapply core_off_wait.
Qed.

Lemma core_flag k Q sg rd ws a t t' :
  core k Q sg rd ws -> ws !! a = Some t -> queued t = false -> queued t' = false ->
  core k Q sg rd (<[a := t']> ws).
Proof. intros [] ???. split; try done. by eapply w_ok_flag. Qed.

(** Threads written to in fields the queues do not concern. *)
Lemma sgm_update (ths : tmap) a th th' :
  ths !! a = Some th -> sig_of th' = sig_of th -> sgm (<[a := th']> ths) = sgm ths.
Proof.
  intros Ha Hs. unfold sgm. rewrite fmap_insert, Hs. apply insert_id. by rewrite lookup_fmap, Ha.
Qed.

Lemma core_upd k Q sg rd ws a th' :
  core k Q sg rd ws -> a ∈ dom (threads k) ->
  core (set_threads (<[a := th']> (threads k)) k) Q sg rd ws.
Proof.
  intros [HL Hdom Hrq Hw Hst Hcpu Hreg Hrep Hrd] Ha.
  assert (Hd : dom (<[a := th']> (threads k)) = dom (threads k)) by (rewrite dom_insert_L; set_solver).
  split; cbn; rewrite ?Hd; try done.
  destruct HL as (I & HQ & HI). exists I. split; [done|]. cbn. by rewrite Hd.
Qed.

Lemma core_unready k Q sg rd ws p l a :
  core k Q sg rd ws -> Q !! LReady p = Some l -> rd !! a = Some p ->
  exists A', ring_remove (lists k) (LQueue a) = Some A' /\
    core (set_lists A' k) (<[LReady p := filter (λ x, x ≠ a) l]> Q) sg (delete a rd) ws.
Proof.
  intros HC Hg Ha. destruct (c_links _ _ _ _ _ HC) as (I & HQ & HI).
  assert (Hin : a ∈ l) by (by apply (rq_mem _ _ _ (c_rq _ _ _ _ _ HC) _ _ _ Hg)).
  destruct (q_remove _ _ _ HQ (LReady p) a l Hg Hin) as (A' & HA & HQ').
  exists A'. split; [done|]. rewrite <- set_ready_bits_id. eapply core_relink; [done|..].
  - intros I' HQI. destruct (q_remove _ _ _ HQI (LReady p) a l Hg Hin) as (A2 & HA2 & ?). congruence.
  - apply rq_ok_unready; [by apply (c_rq _ _ _ _ _ HC)|done..].
  - apply w_ok_frame, (c_w _ _ _ _ _ HC).
  - intros b p' [_ Hb]%lookup_delete_Some. by apply (c_rd _ _ _ _ _ HC).
Qed.

(** Removing a link that is on no ready queue changes nothing. *)
Lemma core_unready_off k Q sg rd ws a :
  core k Q sg rd ws -> a ∈ dom (threads k) -> rd !! a = None ->
  ring_remove (lists k) (LQueue a) = Some (lists k).
Proof.
  intros HC Ha Hr. destruct (c_links _ _ _ _ _ HC) as (I & HQ & HI).
  apply (q_remove_off _ _ _ HQ (LReady 0) a); [by apply HI|]. by eapply core_off_ready.
Qed.

Lemma core_enready k Q sg rd ws l a s :
  core k Q sg rd ws -> Q !! LReady (sg_priority s) = Some l -> rd !! a = None ->
  sg !! a = Some s ->
  exists A', ring_append (lists k) (LReady (sg_priority s)) (LQueue a) = Some A' /\
    core (set_ready_bits (bit_set (ready_bits k) (sg_priority s)) (set_lists A' k))
      (<[LReady (sg_priority s) := l ++ [a]]> Q) sg (<[a := sg_priority s]> rd) ws.
Proof.
  intros HC Hg Ha Hs. destruct (c_links _ _ _ _ _ HC) as (I & HQ & HI).
  assert (Hoff : off Q (LReady (sg_priority s)) a) by (by eapply core_off_ready).
  destruct (q_enqueue _ _ _ HQ _ a l Hg Hoff) as (A' & HA & HQ').
  exists A'. split; [done|]. eapply core_relink; [done|..].
  - intros I' HQI. destruct (q_enqueue _ _ _ HQI _ a l Hg Hoff) as (A2 & HA2 & ?). congruence.
  - apply rq_ok_enready; [by apply (c_rq _ _ _ _ _ HC)|done..].
  - apply w_ok_frame, (c_w _ _ _ _ _ HC).
  - intros b p' [[<- <-]|[_ Hb]]%lookup_insert_Some; [by exists s|]. by apply (c_rd _ _ _ _ _ HC).
Qed.

Lemma core_clear_bit k Q sg rd ws p :
  core k Q sg rd ws -> Q !! LReady p = Some [] ->
  core (set_ready_bits (bit_clear (ready_bits k) p) k) Q sg rd ws.
Proof. intros [] Hp. split; try done. by apply rq_ok_clear. Qed.

Lemma core_rotate k Q sg rd ws p l a :
  core k Q sg rd ws -> Q !! LReady p = Some (a :: l) ->
  exists A1 A2, ring_pick (lists k) (LReady p) = Some (Some (LQueue a), A1) /\
    ring_append A1 (LReady p) (LQueue a) = Some A2 /\
    core (set_lists A2 k) (<[LReady p := l ++ [a]]> Q) sg rd ws.
Proof.
  intros HC Hg. destruct (c_links _ _ _ _ _ HC) as (I & HQ & HI).
  assert (Hrot : forall I', qrep (lists k) Q I' -> exists A1 A2,
    ring_pick (lists k) (LReady p) = Some (Some (LQueue a), A1) /\
    ring_append A1 (LReady p) (LQueue a) = Some A2 /\ qrep A2 (<[LReady p := l ++ [a]]> Q) I').
  { intros I' HQI. pose proof (q_pick _ _ _ HQI _ _ Hg) as (A1 & H1 & HQ1).
    pose proof (q_nodup _ _ _ HQI _ _ Hg) as [Hal _]%NoDup_cons.
    destruct (q_enqueue _ _ _ HQ1 (LReady p) a l) as (A2 & H2 & HQ2); [apply lookup_insert_eq| |].
    - intros g' l' Hg' E Hin. destruct g'; try done. destruct (decide (pri = p)) as [->|].
      + rewrite lookup_insert_eq in Hg'. congruence.
      + rewrite lookup_insert_ne in Hg' by congruence.
        assert (LReady pri = LReady p) by (eapply (q_unique _ _ _ HQI); eauto; by left). congruence.
    - rewrite insert_insert_eq in HQ2. eauto. }
  destruct (Hrot I HQ) as (A1 & A2 & H1 & H2 & _). exists A1, A2. split; [done|]. split; [done|].
  rewrite <- set_ready_bits_id. eapply core_relink; [done|..].
  - intros I' HQI. destruct (Hrot I' HQI) as (? & ? & ? & ? & ?). congruence.
  - apply rq_ok_rotate; [by apply (c_rq _ _ _ _ _ HC)|done..].
  - apply w_ok_frame, (c_w _ _ _ _ _ HC).
  - apply (c_rd _ _ _ _ _ HC).
Qed.

End Core.
