(* ===== verification/KObjects.v ===== *)
(** * Objects that come and go

    The effect on the invariant of creating and destroying threads and
    rendezvous, of opening and closing ports, and of a change of priority. *)

From S2P Require Import Prelude Lists AATree Bitmap Sequence Palloc KTypes KState KSched KThread.
From S2P Require Import KIpc Queues KQueues KInv KSteps.

Section Objects.
Context {P : Platform} `{!KeyMapLaws pf_tree} `{!KernelMemoryLaws pf_memory}.
Implicit Types k : kernel rings.
Implicit Types Q : queues.

(** A guard of an object that does not exist is loose. *)
Lemma w_unused sg rm ws Q g : w_ok sg rm ws Q -> ¬ in_use sg rm g -> Q !! g = None \/ Q !! g = Some [].
Proof.
  intros W Hu. destruct (Q !! g) as [[|a l]|] eqn:E; auto. exfalso. by eapply Hu, (w_use _ _ _ _ W).
Qed.

(** ** Rendezvous *)

Lemma w_ok_new_reply sg rm ws Q key r :
  w_ok sg rm ws Q -> rm !! key = None -> (forall i', rm !! i' ≠ Some r) ->
  w_ok sg (<[key := r]> rm) ws (<[LReply r := []]> Q).
Proof.
  intros W Hkey Hr. pose proof (w_unused _ _ _ _ (LReply r) W) as Hl.
  assert (Hold : forall l a, Q !! LReply r = Some l -> a ∉ l).
  { intros l a Hq Hin. destruct Hl as [?|?]; [by intros [i' ?]; eapply Hr|congruence|].
    simplify_eq. by apply elem_of_nil in Hin. }
  split.
  - apply (w_dom _ _ _ _ W).
  - intros g l a. destruct (decide (g = LReply r)) as [->|].
    + rewrite lookup_insert_eq. intros [= <-] []%elem_of_nil.
    + rewrite lookup_insert_ne by done. apply (w_mem _ _ _ _ W).
  - intros a t Ha Hq. destruct (w_que _ _ _ _ W a t Ha Hq) as (g & l & Hg & Hin & Hf).
    exists g, l. rewrite lookup_insert_ne; [done|]. intros <-. by apply (Hold l a).
  - intros g l. destruct (decide (g = LReply r)) as [->|].
    + rewrite lookup_insert_eq. by intros [= <-].
    + rewrite lookup_insert_ne by done. intros Hg Hne. pose proof (w_use _ _ _ _ W g l Hg Hne) as Hu.
      destruct g; try done. destruct Hu as [i' Hi']. exists i'. rewrite lookup_insert_ne; congruence.
  - intros o s. rewrite !lookup_insert_ne by done. apply (w_port _ _ _ _ W).
  - intros i' r' Hi'. destruct (decide (r' = r)) as [->|].
    + exists []. rewrite lookup_insert_eq. split; [done|simpl; lia].
    + rewrite lookup_insert_ne by congruence. apply lookup_insert_Some in Hi' as [[??]|[? Hi']]; [done|].
      by apply (w_rdv _ _ _ _ W i').
  - intros a i' Ha. destruct (w_call _ _ _ _ W a i' Ha) as (r' & Hr' & Hq').
    exists r'. assert (r' ≠ r) by (intros ->; by eapply Hr).
    rewrite !lookup_insert_ne by congruence. done.
  - apply (w_inj _ _ _ _ W).
  - intros i1 i2 r'. rewrite !lookup_insert_Some.
    intros [[<- <-]|[? H1]] [[<- Hr']|[? H2]]; try done; [by apply Hr in H2|subst; by apply Hr in H1|].
    by eapply (w_rminj _ _ _ _ W).
Qed.

Lemma w_ok_del_reply sg rm ws Q key r :
  w_ok sg rm ws Q -> rm !! key = Some r -> Q !! LReply r = Some [] ->
  (forall a, ws !! a ≠ Some (WCall key)) -> w_ok sg (delete key rm) ws Q.
Proof.
  intros W Hkey Hq Hws. split; try by destruct W.
  - intros g l Hg Hne. pose proof (w_use _ _ _ _ W g l Hg Hne) as Hu.
    destruct g; try done. destruct Hu as [i' Hi']. exists i'. rewrite lookup_delete_ne; [done|].
    intros ->. congruence.
  - intros i' r' [_ Hi']%lookup_delete_Some. by apply (w_rdv _ _ _ _ W i').
  - intros a i' Ha. destruct (w_call _ _ _ _ W a i' Ha) as (r' & Hr' & Hq').
    exists r'. rewrite lookup_delete_ne; [done|]. intros ->. by apply Hws in Ha.
  - intros i1 i2 r' [_ H1]%lookup_delete_Some [_ H2]%lookup_delete_Some. by eapply (w_rminj _ _ _ _ W).
Qed.

Lemma rep_fresh tree seq reps m key r :
  rep_ok tree seq reps m -> key ∈ free seq -> r ∉ live_replies m ->
  km_map tree !! key = None /\ (forall i', km_map tree !! i' ≠ Some r).
Proof.
  intros R Hk Hr. split.
  - destruct (km_map tree !! key) eqn:E; [|done]. by apply (rep_key _ _ _ _ R) in E as [_ ?].
  - intros i' Hi'. apply Hr, (rep_live _ _ _ _ R). by exists i'.
Qed.

Lemma core_new_reply k Q sg rd ws key seq r m t x :
  core k Q sg rd ws ->
  key ∈ free (reply_sequence k) -> sequence_wf seq -> free seq = free (reply_sequence k) ∖ {[key]} ->
  num_of_blocks seq = num_of_blocks (reply_sequence k) ->
  mem_ok m -> live_threads m = live_threads (memory k) -> live_pages m = live_pages (memory k) ->
  r ∉ live_replies (memory k) -> live_replies m = {[r]} ∪ live_replies (memory k) ->
  km_wf t -> km_map t = <[key := r]> (km_map (reply_tree k)) ->
  exists A', ring_initialize (lists k) (LReply r) = Some A' /\
    core (set_replies (<[r := x]> (replies k)) (set_lists A'
           (set_reply_tree t (set_memory m (set_reply_sequence seq k))))) (<[LReply r := []]> Q) sg rd ws.
Proof.
  intros [HL Hdom Hrq Hw Hst Hcpu Hreg Hrep Hrd] Hkey Hseq Hfree Hblk Hm Hlt Hlp Hr Hlr Ht Hmap.
  destruct (rep_fresh _ _ _ _ key r Hrep) as [Hk0 Hr0]; [done..|].
  destruct HL as (I & HQ & HI).
  assert (Hun : Q !! LReply r = None \/ Q !! LReply r = Some []).
  { eapply w_unused; [done|]. intros [i' ?]. by eapply Hr0. }
  destruct (q_initialize _ _ _ HQ (LReply r)) as (A' & HA & HQ'); [done..|].
  exists A'. split; [done|]. split; cbn; try done; rewrite ?Hmap, ?Hlp; try done.
  - by exists I.
  - by apply rq_ok_frame.
  - by apply w_ok_new_reply.
  - destruct Hreg. split; try done. by rewrite Hlt.
  - destruct Hrep as [R1 R2 R3 R4 R5 R6 R7]. split; try done.
    + by rewrite Hblk.
    + intros i' r'. rewrite Hmap, Hfree, lookup_insert_Some. intros [[<- <-]|[? H']].
      * split; [by apply R5|set_solver].
      * apply R4 in H' as [? ?]. split; [done|set_solver].
    + intros i'. rewrite Hfree. intros [? _]%elem_of_difference. by apply R5.
    + rewrite dom_insert_L, R6, Hlr. done.
    + intros r'. rewrite Hlr, Hmap, elem_of_union, elem_of_singleton, R7. split.
      * intros [->|[i' Hi']]; [exists key; apply lookup_insert_eq|].
        exists i'. rewrite lookup_insert_ne; [done|]. intros ->. congruence.
      * intros [i' [[_ <-]|[_ Hi']]%lookup_insert_Some]; eauto.
Qed.

Lemma core_del_reply k Q sg rd ws key seq r m t :
  core k Q sg rd ws -> km_map (reply_tree k) !! key = Some r -> Q !! LReply r = Some [] ->
  (forall a, ws !! a ≠ Some (WCall key)) ->
  sequence_wf seq -> free seq = {[key]} ∪ free (reply_sequence k) ->
  num_of_blocks seq = num_of_blocks (reply_sequence k) ->
  mem_ok m -> live_threads m = live_threads (memory k) -> live_pages m = live_pages (memory k) ->
  live_replies m = live_replies (memory k) ∖ {[r]} ->
  km_wf t -> km_map t = delete key (km_map (reply_tree k)) ->
  core (set_reply_sequence seq (set_replies (delete r (replies k)) (set_memory m (set_reply_tree t k))))
    Q sg rd ws.
Proof.
  intros [HL Hdom Hrq Hw Hst Hcpu Hreg Hrep Hrd] Hkey Hq Hws Hseq Hfree Hblk Hm Hlt Hlp Hlr Ht Hmap.
  split; cbn; try done; rewrite ?Hmap, ?Hlp; try done.
  - by eapply w_ok_del_reply.
  - destruct Hreg. split; try done. by rewrite Hlt.
  - destruct Hrep as [R1 R2 R3 R4 R5 R6 R7]. split; try done.
    + by rewrite Hblk.
    + intros i' r'. rewrite Hmap, Hfree. intros [Hne H']%lookup_delete_Some.
      apply R4 in H' as [? ?]. split; [done|]. set_solver.
    + intros i'. rewrite Hfree. intros [->%elem_of_singleton|?]%elem_of_union; [|by apply R5].
      by eapply R4.
    + rewrite dom_delete_L, R6, Hlr. done.
    + intros r'. rewrite Hlr, Hmap, elem_of_difference, elem_of_singleton, R7. split.
      * intros [[i' Hi'] Hne]. exists i'. rewrite lookup_delete_ne; [done|]. intros ->. congruence.
      * intros [i' [Hne Hi']%lookup_delete_Some]. split; [by exists i'|].
        intros ->. apply Hne. by eapply (w_rminj _ _ _ _ Hw).
Qed.

(** ** Threads *)

Lemma w_ok_new_thread sg rm ws Q a s :
  w_ok sg rm ws Q -> sg !! a = None -> sg_opened s = false ->
  w_ok (<[a := s]> sg) rm (<[a := WNone]> ws) (delete (LReceiver a) (delete (LCaller a) Q)).
Proof.
  intros W Ha Hs.
  assert (Hws : ws !! a = None).
  { apply not_elem_of_dom. rewrite (w_dom _ _ _ _ W). by apply not_elem_of_dom. }
  assert (Hun : forall g l x, g = LCaller a \/ g = LReceiver a -> Q !! g = Some l -> x ∉ l).
  { intros g l x Hg Hl Hx. assert (Hi : in_use sg rm g).
    { eapply (w_use _ _ _ _ W); [done|]. intros ->. by apply elem_of_nil in Hx. }
    destruct Hg as [-> | ->]; destruct Hi as (? & ? & _); congruence. }
  split.
  - rewrite !dom_insert_L. by rewrite (w_dom _ _ _ _ W).
  - intros g l b Hg Hb Hk. apply lookup_delete_Some in Hg as [_ Hg].
    apply lookup_delete_Some in Hg as [_ Hg].
    destruct (w_mem _ _ _ _ W g l b Hg Hb Hk) as (t & Ht & Hf). exists t.
    rewrite lookup_insert_ne; [done|]. congruence.
  - intros b t. destruct (decide (b = a)) as [->|]; [by rewrite lookup_insert_eq; intros [= <-]|].
    rewrite lookup_insert_ne by done. intros Hb Hq.
    destruct (w_que _ _ _ _ W b t Hb Hq) as (g & l & Hg & Hin & Hf). exists g, l.
    rewrite !lookup_delete_ne; [done|..]; intros <-;
      [apply (Hun _ _ _ (or_introl eq_refl) Hg Hin)|apply (Hun _ _ _ (or_intror eq_refl) Hg Hin)].
  - intros g l Hg Hne. apply lookup_delete_Some in Hg as [? Hg]. apply lookup_delete_Some in Hg as [? Hg].
    pose proof (w_use _ _ _ _ W g l Hg Hne) as Hu. destruct g; try done; destruct Hu as (s' & Hs' & ?);
      exists s'; (rewrite lookup_insert_ne; [done|congruence]).
  - intros o s'. rewrite lookup_insert_Some. intros [[<- <-]|[Hne Ho]] Hop; [congruence|].
    rewrite !lookup_delete_ne by congruence. by apply (w_port _ _ _ _ W o s').
  - intros key r Hr. rewrite !lookup_delete_ne by done. by apply (w_rdv _ _ _ _ W key).
  - intros b key. rewrite lookup_insert_Some. intros [[_ ?]|[_ Hb]]; [done|].
    destruct (w_call _ _ _ _ W b key Hb) as (r & ? & ?). exists r. by rewrite !lookup_delete_ne by done.
  - intros b c key. rewrite !lookup_insert_Some. intros [[_ ?]|[_ Hb]] [[_ ?]|[_ Hc]]; try done.
    by eapply (w_inj _ _ _ _ W).
  - apply (w_rminj _ _ _ _ W).
Qed.

Lemma w_ok_del_thread sg rm ws Q a :
  w_ok sg rm ws Q -> ws !! a = Some WNone ->
  (Q !! LCaller a = None \/ Q !! LCaller a = Some []) ->
  (Q !! LReceiver a = None \/ Q !! LReceiver a = Some []) ->
  w_ok (delete a sg) rm (delete a ws) Q.
Proof.
  intros W Ha Hc Hr. split.
  - rewrite !dom_delete_L. by rewrite (w_dom _ _ _ _ W).
  - intros g l b Hg Hb Hk. destruct (w_mem _ _ _ _ W g l b Hg Hb Hk) as (t & Ht & Hf). exists t.
    rewrite lookup_delete_ne; [done|]. intros <-. by simplify_eq.
  - intros b t [_ Hb]%lookup_delete_Some. by apply (w_que _ _ _ _ W).
  - intros g l Hg Hne. pose proof (w_use _ _ _ _ W g l Hg Hne) as Hu.
    destruct g; try done; destruct Hu as (s' & Hs' & ?); exists s';
      (rewrite lookup_delete_ne; [done|]); intros <-; destruct Hc, Hr; congruence.
  - intros o s' [_ Ho]%lookup_delete_Some. by apply (w_port _ _ _ _ W).
  - apply (w_rdv _ _ _ _ W).
  - intros b key [_ Hb]%lookup_delete_Some. by apply (w_call _ _ _ _ W b).
  - intros b c key [_ Hb]%lookup_delete_Some [_ Hc']%lookup_delete_Some. by eapply (w_inj _ _ _ _ W).
  - apply (w_rminj _ _ _ _ W).
Qed.

(** The links of a new thread: cleared with the rest of the object, then
    initialised. *)
Lemma q_setup A Q I a :
  qrep A Q I -> off Q (LReady 0) a -> off Q (LCaller 0) a ->
  (Q !! LCaller a = None \/ Q !! LCaller a = Some []) ->
  (Q !! LReceiver a = None \/ Q !! LReceiver a = Some []) ->
  exists A1 A2 A3 A4 A5 A6 A7 A8,
    ring_clear A (LQueue a) = Some A1 /\ ring_clear A1 (LWaiting a) = Some A2 /\
    ring_clear A2 (LLocking a) = Some A3 /\ ring_clear A3 (LCaller a) = Some A4 /\
    ring_clear A4 (LReceiver a) = Some A5 /\ ring_initialize A5 (LQueue a) = Some A6 /\
    ring_initialize A6 (LWaiting a) = Some A7 /\ ring_initialize A7 (LLocking a) = Some A8 /\
    qrep A8 (delete (LReceiver a) (delete (LCaller a) Q)) ({[LWaiting a]} ∪ ({[LQueue a]} ∪ I)).
Proof.
  intros HQ Hoq How Hc Hr.
  destruct (q_clear_link _ _ _ HQ (LReady 0) a Hoq) as (A1 & H1 & HQ1).
  destruct (q_clear_link _ _ _ HQ1 (LCaller 0) a How) as (A2 & H2 & HQ2).
  destruct (q_clear_locking _ _ _ HQ2 a) as (A3 & H3 & HQ3).
  destruct (q_clear_guard _ _ _ HQ3 (LCaller a)) as (A4 & H4 & HQ4); [done..|].
  destruct (q_clear_guard _ _ _ HQ4 (LReceiver a)) as (A5 & H5 & HQ5);
    [done|by rewrite lookup_delete_ne|].
  assert (Hsub : forall g, off Q g a -> off (delete (LReceiver a) (delete (LCaller a) Q)) g a).
  { intros g Ho g' l [_ [_ Hg']%lookup_delete_Some]%lookup_delete_Some. by apply Ho. }
  destruct (q_initialize_link _ _ _ HQ5 (LReady 0) a) as (A6 & H6 & HQ6); [by apply Hsub|].
  destruct (q_initialize_link _ _ _ HQ6 (LCaller 0) a) as (A7 & H7 & HQ7); [by apply Hsub|].
  destruct (q_initialize_locking _ _ _ HQ7 a) as (A8 & H8 & HQ8). cbn in *.
  exists A1, A2, A3, A4, A5, A6, A7, A8. split_and!; try done. destruct HQ8. split; try done.
  intros g b Hb Hob. destruct (decide (link_of g b = LWaiting a)) as [E|E1];
    [|destruct (decide (link_of g b = LQueue a)) as [E|E2]]; apply q_init; auto; rewrite ?E; set_solver.
Qed.

(** [a] has been allocated and entered in the tree as [id], with its stack
    in place. *)
Lemma core_new_thread k Q sg rd ws a s th m t :
  core k Q sg rd ws -> a ∉ live_threads (memory k) -> a ≠ 0 ->
  mem_ok m -> live_threads m = {[a]} ∪ live_threads (memory k) ->
  live_replies m = live_replies (memory k) -> live_pages (memory k) ⊆ live_pages m ->
  km_wf t -> km_map t = <[sg_key s := a]> (km_map (thread_tree k)) ->
  km_map (thread_tree k) !! sg_key s = None ->
  MIN_MANUAL_ID <= sg_key s <= MAX_AUTO_ID -> sg_opened s = false ->
  MIN_PRIORITY <= sg_priority s <= MAX_PRIORITY -> MIN_PRIORITY <= sg_attr_priority s <= MAX_PRIORITY ->
  (sg_kernel s = false -> sg_cr3 s ≠ 0) ->
  sg_stack s ∈ live_pages m -> (forall b s', sg !! b = Some s' -> sg_stack s' ≠ sg_stack s) ->
  exists A1 A2 A3 A4 A5 A6 A7 A8,
    ring_clear (lists k) (LQueue a) = Some A1 /\ ring_clear A1 (LWaiting a) = Some A2 /\
    ring_clear A2 (LLocking a) = Some A3 /\ ring_clear A3 (LCaller a) = Some A4 /\
    ring_clear A4 (LReceiver a) = Some A5 /\ ring_initialize A5 (LQueue a) = Some A6 /\
    ring_initialize A6 (LWaiting a) = Some A7 /\ ring_initialize A7 (LLocking a) = Some A8 /\
    core (set_lists A8 (set_threads (<[a := th]> (threads k)) (set_memory m (set_thread_tree t k))))
      (delete (LReceiver a) (delete (LCaller a) Q)) (<[a := s]> sg) rd (<[a := WNone]> ws).
Proof.
  intros HC Ha Ha0 Hm Hlt Hlr Hlp Ht Hmap Hid Hidr Hop Hp Hap Hcr Hpg Hpd.
  pose proof HC as [HL Hdom Hrq Hw Hst Hcpu Hreg Hrep Hrd].
  assert (Hsg : sg !! a = None) by (apply not_elem_of_dom; by rewrite (reg_dom _ _ _ Hreg)).
  assert (Hra : rd !! a = None).
  { destruct (rd !! a) eqn:E; [|done]. apply Hrd in E as (? & ? & _). congruence. }
  assert (Hwa : ws !! a = None).
  { apply not_elem_of_dom. rewrite (w_dom _ _ _ _ Hw). by apply not_elem_of_dom. }
  destruct HL as (I & HQ & HI).
  destruct (q_setup (lists k) Q I a HQ) as (A1 & A2 & A3 & A4 & A5 & A6 & A7 & A8 & H1 & H2 & H3 & H4 & H5
    & H6 & H7 & H8 & HQ8).
  { by eapply core_off_ready. }
  { intros g l Hg E Hin. destruct (w_mem _ _ _ _ Hw g l a Hg Hin) as (? & ? & _); [|congruence].
    pose proof (q_dom _ _ _ HQ g l Hg). by destruct g. }
  { eapply w_unused; [done|]. intros (? & ? & _). congruence. }
  { eapply w_unused; [done|]. intros (? & ? & _). congruence. }
  exists A1, A2, A3, A4, A5, A6, A7, A8. do 8 (split; [done|]). split; cbn; try done.
  - eexists. split; [done|]. cbn. intros b. rewrite dom_insert_L. specialize (HI b). set_solver.
  - by rewrite !dom_insert_L, Hdom.
  - destruct Hrq as [D1 D2 D3 D4 D5]. split; try done.
    + intros p. rewrite !lookup_delete_ne by done. apply D1.
    + intros p l b. rewrite !lookup_delete_ne by done. apply D2.
    + intros p l. rewrite !lookup_delete_ne by done. apply D5.
  - by apply w_ok_new_thread.
  - destruct Hst as [S1 S2 S3 S4 S5]. split.
    + intros b s'. rewrite lookup_insert_Some. intros [[<- <-]|[_ Hb]]; [done|]. apply S1 in Hb. set_solver.
    + intros b c s1 s2. rewrite !lookup_insert_Some.
      intros [[<- <-]|[_ Hb]] [[<- <-]|[_ Hc]] E; try done; [by apply Hpd in Hc|by apply Hpd in Hb|by eapply S2].
    + intros b s'. rewrite lookup_insert_Some. intros [[<- <-]|[_ Hb]]; [done|]. by apply S3 in Hb.
    + intros b s'. rewrite lookup_insert_Some. intros [[<- <-]|[_ Hb]]; [done|]. by eapply S4.
    + by rewrite lookup_insert_ne.
  - destruct Hcpu as [[E|(s' & Hs' & ?)] ?]; (split; [|done]); [by left|]. right. exists s'.
    rewrite lookup_insert_ne; [done|congruence].
  - destruct Hreg as [G1 G2 G3 G4 G5]. split; try done.
    + intros id b. rewrite Hmap, lookup_insert_Some. split.
      * intros [[<- <-]|[Hne Hb]]; [exists s; by rewrite lookup_insert_eq|].
        apply G3 in Hb as (s' & Hs' & <-). exists s'. rewrite lookup_insert_ne; [done|congruence].
      * intros (s' & [[<- <-]|[Hne Hs']]%lookup_insert_Some & <-); [by left|]. right.
        assert (km_map (thread_tree k) !! sg_key s' = Some b) as Hb by (apply G3; eauto).
        split; [|done]. intros E. rewrite <- E in Hb. congruence.
    + by rewrite dom_insert_L, G4, Hlt.
    + intros b s'. rewrite lookup_insert_Some. intros [[<- <-]|[_ Hb]]; [done|]. by eapply G5.
  - destruct Hrep. split; try done; by rewrite Hlr.
  - intros b p Hb. destruct (Hrd b p Hb) as (s' & Hs' & ?). exists s'. rewrite lookup_insert_ne; [done|].
    congruence.
Qed.

(** [a] has left the tree and its memory has been given back. *)
Lemma core_del_thread k Q sg rd ws a s m t :
  core k Q sg rd ws -> sg !! a = Some s -> rd !! a = None -> ws !! a = Some WNone ->
  (Q !! LCaller a = None \/ Q !! LCaller a = Some []) ->
  (Q !! LReceiver a = None \/ Q !! LReceiver a = Some []) ->
  fpu_holder (cpu k) ≠ a ->
  mem_ok m -> live_threads m = live_threads (memory k) ∖ {[a]} ->
  live_replies m = live_replies (memory k) -> live_pages m = live_pages (memory k) ∖ {[sg_stack s]} ->
  km_wf t -> km_map t = delete (sg_key s) (km_map (thread_tree k)) ->
  core (set_threads (delete a (threads k)) (set_memory m (set_thread_tree t k)))
    Q (delete a sg) rd (delete a ws).
Proof.
  intros [HL Hdom Hrq Hw Hst Hcpu Hreg Hrep Hrd] Hs Hra Hwa Hc Hr Hfpu Hm Hlt Hlr Hlp Ht Hmap.
  split; cbn; try done.
  - destruct HL as (I & HQ & HI). exists I. split; [done|]. cbn. intros b. rewrite dom_delete_L.
    specialize (HI b). set_solver.
  - by rewrite !dom_delete_L, Hdom.
  - by apply w_ok_del_thread.
  - destruct Hst as [S1 S2 S3 S4 S5]. split.
    + intros b s' [Hne Hb]%lookup_delete_Some. rewrite Hlp, elem_of_difference, elem_of_singleton.
      split; [by eapply S1|]. intros E. by destruct Hne; eapply (S2 a b).
    + intros b c s1 s2 [_ Hb]%lookup_delete_Some [_ Hc']%lookup_delete_Some. by apply S2.
    + intros b s' [_ Hb]%lookup_delete_Some. by eapply S3.
    + intros b s' [_ Hb]%lookup_delete_Some. by eapply S4.
    + apply lookup_delete_None. by right.
  - destruct Hcpu as [[E|(s' & Hs' & ?)] ?]; (split; [|done]); [by left|]. right. exists s'.
    rewrite lookup_delete_ne; [done|congruence].
  - destruct Hreg as [G1 G2 G3 G4 G5]. split; try done.
    + intros id b. rewrite Hmap, lookup_delete_Some. split.
      * intros [Hne (s' & Hs' & <-)%G3]. exists s'. split; [|done]. rewrite lookup_delete_ne; [done|].
        intros ->. congruence.
      * intros (s' & [Hne Hs']%lookup_delete_Some & <-).
        assert (km_map (thread_tree k) !! sg_key s' = Some b) as Hb by (apply G3; eauto).
        split; [|done]. intros E. rewrite <- E in Hb.
        assert (km_map (thread_tree k) !! sg_key s = Some a) by (apply G3; eauto). congruence.
    + by rewrite dom_delete_L, G4, Hlt.
    + intros b s' [_ Hb]%lookup_delete_Some. by eapply G5.
  - destruct Hrep. split; try done; by rewrite Hlr.
  - intros b p Hb. destruct (Hrd b p Hb) as (s' & Hs' & ?). exists s'. rewrite lookup_delete_ne; [done|].
    congruence.
Qed.

(** ** Ports and priorities *)

Lemma core_init_guard k Q sg rd ws g :
  core k Q sg rd ws -> wait_guard g = true -> (Q !! g = None \/ Q !! g = Some []) ->
  exists A', ring_initialize (lists k) g = Some A' /\ core (set_lists A' k) (<[g := []]> Q) sg rd ws.
Proof.
  intros HC Hk Hg. destruct (c_links _ _ _ _ _ HC) as (I & HQ & HI).
  destruct (q_initialize _ _ _ HQ g) as (A' & HA & HQ'); [by destruct g|done|].
  exists A'. split; [done|]. rewrite <- set_ready_bits_id. eapply core_relink; [done|..].
  - intros I' HQI. destruct (q_initialize _ _ _ HQI g) as (A2 & HA2 & ?); [by destruct g|done|]. congruence.
  - apply rq_ok_frame; [by apply (c_rq _ _ _ _ _ HC)|done].
  - pose proof (c_w _ _ _ _ _ HC) as W.
    assert (Hin : forall g' l, <[g:=[]]> Q !! g' = Some l -> l ≠ [] -> Q !! g' = Some l).
    { intros g' l. rewrite lookup_insert_Some. naive_solver. }
    assert (Hkeep : forall g', is_Some (Q !! g') -> is_Some (<[g:=[]]> Q !! g')).
    { intros g' ?. rewrite lookup_insert_is_Some. destruct (decide (g = g')); auto. }
    split; try by destruct W.
    + intros g' l a Hg' Ha Hk'. apply (w_mem _ _ _ _ W g' l a); auto. apply Hin; [done|].
      intros ->. by apply elem_of_nil in Ha.
    + intros a t Ha Hq. destruct (w_que _ _ _ _ W a t Ha Hq) as (g' & l & Hg' & Hal & Hf).
      exists g', l. rewrite lookup_insert_ne; [done|]. intros <-.
      destruct Hg; simplify_eq; by apply elem_of_nil in Hal.
    + intros g' l Hg' Hne. apply (w_use _ _ _ _ W g' l); auto.
    + intros o s Ho Hop. destruct (w_port _ _ _ _ W o s Ho Hop). auto.
    + intros key r Hr. destruct (w_rdv _ _ _ _ W key r Hr) as (l & Hl & ?).
      destruct (decide (g = LReply r)) as [->|]; [|exists l; by rewrite lookup_insert_ne].
      exists []. rewrite lookup_insert_eq. split; [done|simpl; lia].
    + intros a key Ha. destruct (w_call _ _ _ _ W a key Ha) as (r & Hr & Hl). exists r. split; [done|].
      destruct (decide (g = LReply r)) as [->|]; [apply lookup_insert_eq|by rewrite lookup_insert_ne].
  - apply (c_rd _ _ _ _ _ HC).
Qed.

(** A thread's port is opened or closed, or its priority changes while it is
    on no ready queue. *)
Lemma core_sig k Q sg rd ws a s s' :
  core k Q sg rd ws -> sg !! a = Some s ->
  sg_key s' = sg_key s -> sg_stack s' = sg_stack s -> sg_kernel s' = sg_kernel s ->
  sg_kstack s' = sg_kstack s -> sg_cr3 s' = sg_cr3 s -> sg_attr_priority s' = sg_attr_priority s ->
  MIN_PRIORITY <= sg_priority s' <= MAX_PRIORITY -> (rd !! a = None \/ sg_priority s' = sg_priority s) ->
  (sg_opened s' = true -> is_Some (Q !! LCaller a) /\ is_Some (Q !! LReceiver a)) ->
  (sg_opened s' = false -> sg_opened s = false \/ Q !! LCaller a = Some [] /\ Q !! LReceiver a = Some []) ->
  core k Q (<[a := s']> sg) rd ws.
Proof.
  intros [HL Hdom Hrq Hw Hst Hcpu Hreg Hrep Hrd] Hs Ek Es Eke Eks Ec Eap Hp Hra Hop Hcl.
  assert (Hd : dom (<[a := s']> sg) = dom sg) by (by rewrite dom_insert_lookup_L by by eexists).
  split; rewrite ?Hd; try done.
  - destruct Hw as [W1 W2 W3 W4 W5 W6 W7 W8 W9]. split; rewrite ?Hd; try done.
    + intros g l Hg Hne. pose proof (W4 g l Hg Hne) as Hu.
      destruct g; try done; destruct Hu as (s0 & Hs0 & Ho);
        (destruct (decide (a0 = a)) as [->|]; [|exists s0; by rewrite lookup_insert_ne]);
        (exists s'; rewrite lookup_insert_eq; split; [done|]); destruct (sg_opened s') eqn:E; try done;
        destruct Hcl as [?|[? ?]]; congruence.
    + intros o s0. rewrite lookup_insert_Some. intros [[<- <-]|[_ Ho]]; [done|]. by apply W5.
  - destruct Hst as [S1 S2 S3 S4 S5]. split.
    + intros b s0. rewrite lookup_insert_Some. intros [[<- <-]|[_ Hb]]; [rewrite Es|]; by eapply S1.
    + intros b c s1 s2. rewrite !lookup_insert_Some.
      intros [[<- <-]|[_ Hb]] [[<- <-]|[_ Hc]]; try done; rewrite ?Es; by eapply S2.
    + intros b s0. rewrite lookup_insert_Some. intros [[<- <-]|[_ Hb]]; [|by eapply S3].
      split; [done|]. rewrite Eap. by apply (S3 a).
    + intros b s0. rewrite lookup_insert_Some. intros [[<- <-]|[_ Hb]]; [rewrite Eke, Ec|]; by eapply S4.
    + rewrite lookup_insert_ne; [done|]. congruence.
  - destruct Hcpu as [[E|(s0 & Hs0 & ? & ?)] ?]; (split; [|done]); [by left|]. right.
    destruct (decide (fpu_holder (cpu k) = a)) as [E'|].
    + rewrite E' in *. simplify_eq. exists s'. rewrite lookup_insert_eq, Eke, Eks. done.
    + exists s0. by rewrite lookup_insert_ne.
  - destruct Hreg as [G1 G2 G3 G4 G5]. split; rewrite ?Hd; try done.
    + intros id b. rewrite G3. split; intros (s0 & Hs0 & Hid).
      * destruct (decide (b = a)) as [->|]; [|exists s0; by rewrite lookup_insert_ne].
        simplify_eq. exists s'. by rewrite lookup_insert_eq.
      * apply lookup_insert_Some in Hs0 as [[<- <-]|[_ Hs0]]; [|eauto]. exists s. split; [done|congruence].
    + intros b s0. rewrite lookup_insert_Some. intros [[<- <-]|[_ Hb]]; [rewrite Ek|]; by eapply G5.
  - intros b p Hb. destruct (Hrd b p Hb) as (s0 & Hs0 & Hsp).
    destruct (decide (b = a)) as [->|]; [|exists s0; by rewrite lookup_insert_ne].
    simplify_eq. exists s'. rewrite lookup_insert_eq. split; [done|]. destruct Hra; congruence.
Qed.

End Objects.
