(* ===== verification/KHoare.v ===== *)
(** * Reasoning about kernel code

    [wp m k Φ]: run from [k], [m] is defined and ends in [Φ].  Rules for the
    primitives, and how an update of one thread changes the ghost maps. *)

From S2P Require Import Prelude Lists AATree Bitmap Sequence Palloc KTypes KState KSched KThread.
From S2P Require Import KIpc Queues KQueues KInv KSteps.

Section Wp.
Context {P : Platform}.
Notation kern := (kernel rings).
Implicit Types k : kern.

Definition wp {X} (m : M rings X) (k : kern) (Φ : X -> kern -> Prop) : Prop :=
  exists x k', m k = Some (x, k') /\ Φ x k'.

Lemma wp_mono {X} (m : M rings X) k (Φ Ψ : X -> kern -> Prop) :
  wp m k Φ -> (forall x k', Φ x k' -> Ψ x k') -> wp m k Ψ.
Proof. intros (x & k' & E & HΦ) Hm. exists x, k'. auto. Qed.

Lemma wp_ret {X} (x : X) k Φ : Φ x k -> wp (mret x) k Φ.
Proof. intros. by exists x, k. Qed.

Lemma wp_bind {X Y} (m : M rings X) (f : X -> M rings Y) k Φ :
  wp m k (λ x k', wp (f x) k' Φ) -> wp (m ≫= f) k Φ.
Proof.
  intros (x & k' & E & y & k'' & E' & H). exists y, k''. unfold mbind, M_bind. by rewrite E.
Qed.

Lemma wp_gets {X} (f : kern -> X) k Φ : Φ (f k) k -> wp (gets f) k Φ.
Proof. intros. by exists (f k), k. Qed.

Lemma wp_modify f k Φ : Φ tt (f k) -> wp (modify f) k Φ.
Proof. intros. by exists tt, (f k). Qed.

Lemma wp_some {X} (x : X) k Φ : Φ x k -> wp (some (Some x)) k Φ.
Proof. intros. by exists x, k. Qed.

Lemma wp_upd_sync f k Φ : Φ tt (set_sync (f (sync k)) k) -> wp (upd_sync f) k Φ.
Proof. intros. by eexists _, _. Qed.

Lemma wp_thread a th k Φ : threads k !! a = Some th -> Φ th k -> wp (thread a) k Φ.
Proof. intros E H. exists th, k. unfold thread. by rewrite E. Qed.

Lemma wp_upd_thread a th f k Φ :
  threads k !! a = Some th -> Φ tt (set_threads (<[a := f th]> (threads k)) k) -> wp (upd_thread a f) k Φ.
Proof. intros E H. eexists _, _. split; [|exact H]. unfold upd_thread. by rewrite E. Qed.

Lemma wp_reply_at r x k Φ : replies k !! r = Some x -> Φ x k -> wp (reply_at r) k Φ.
Proof. intros E H. exists x, k. unfold reply_at. by rewrite E. Qed.

Lemma wp_remove e A k Φ :
  ring_remove (lists k) e = Some A -> Φ tt (set_lists A k) -> wp (l_remove e) k Φ.
Proof. intros E H. eexists _, _. split; [|exact H]. unfold l_remove. cbn. by rewrite E. Qed.

Lemma wp_enqueue g e A k Φ :
  ring_append (lists k) g e = Some A -> Φ tt (set_lists A k) -> wp (l_enqueue g e) k Φ.
Proof. intros E H. eexists _, _. split; [|exact H]. unfold l_enqueue, list_enqueue. cbn. by rewrite E. Qed.

Lemma wp_initialize e A k Φ :
  ring_initialize (lists k) e = Some A -> Φ tt (set_lists A k) -> wp (l_initialize e) k Φ.
Proof. intros E H. eexists _, _. split; [|exact H]. unfold l_initialize. cbn. by rewrite E. Qed.

Lemma wp_clear e A k Φ :
  ring_clear (lists k) e = Some A -> Φ tt (set_lists A k) -> wp (l_clear e) k Φ.
Proof. intros E H. eexists _, _. split; [|exact H]. unfold l_clear. cbn. by rewrite E. Qed.

Lemma wp_dequeue g o A k Φ :
  ring_pick (lists k) g = Some (o, A) -> Φ o (set_lists A k) -> wp (l_dequeue g) k Φ.
Proof. intros E H. eexists _, _. split; [|exact H]. unfold l_dequeue, list_dequeue. cbn. by rewrite E. Qed.

Lemma wp_head g o k Φ : ring_head (lists k) g = Some o -> Φ o k -> wp (l_head g) k Φ.
Proof. intros E H. eexists _, _. split; [|exact H]. unfold l_head. cbn. by rewrite E. Qed.

Lemma wp_next g o k Φ : ring_next (lists k) g = Some o -> Φ o k -> wp (l_next g) k Φ.
Proof. intros E H. eexists _, _. split; [|exact H]. unfold l_next. cbn. by rewrite E. Qed.

Lemma wp_prev g o k Φ : ring_prev (lists k) g = Some o -> Φ o k -> wp (l_prev g) k Φ.
Proof. intros E H. eexists _, _. split; [|exact H]. unfold l_prev. cbn. by rewrite E. Qed.

Lemma wp_copy f a th x y z r u k Φ :
  threads k !! a = Some th -> f (umem k) (cpu_cr3 (cpu k)) th x y z = Some (r, u) ->
  Φ r (set_umem u k) -> wp (copy f a x y z) k Φ.
Proof. intros E Ef H. eexists _, _. split; [|exact H]. unfold copy. rewrite E. cbn. by rewrite Ef. Qed.

End Wp.

(** Goes through straight-line code. *)
Ltac wp_step := first
  [ apply wp_bind
  | apply wp_ret
  | apply wp_gets
  | apply wp_modify
  | apply wp_upd_sync
  | eapply wp_thread; [eassumption|]
  | eapply wp_upd_thread; [eassumption|] ].

(** The threads of an updated state. *)
Ltac kred := repeat match goal with
  | |- context [threads ?s] =>
      let t := eval cbn in (threads s) in
      lazymatch t with threads s => fail | _ => change (threads s) with t end
  end; rewrite ?insert_insert_eq.

(** ** One thread updated *)

Section Ghost.
Implicit Types ths : tmap.

Lemma sig_of_eq th th' :
  sig_of th' = sig_of th ->
  node_key th' = node_key th /\ priority th' = priority th /\ is_kthread th' = is_kthread th /\
  cr3 (mpu th') = cr3 (mpu th).
Proof. unfold sig_of. by intros [=]. Qed.

Lemma sgm_insert ths a th : sgm (<[a := th]> ths) = <[a := sig_of th]> (sgm ths).
Proof. apply fmap_insert. Qed.

Lemma wsm_insert ths a th : wsm (<[a := th]> ths) = <[a := wstate_of (wait_reason th)]> (wsm ths).
Proof. unfold wsm. by rewrite fmap_insert. Qed.

Lemma rdm_insert ths a th :
  rdm (<[a := th]> ths) =
  if ready (status th) then <[a := priority th]> (rdm ths) else delete a (rdm ths).
Proof.
  unfold rdm. destruct (ready (status th)) eqn:E.
  - rewrite (omap_insert_Some _ _ _ _ (priority th)); [done|]. by rewrite E.
  - rewrite omap_insert_None; [done|]. by rewrite E.
Qed.

Lemma sgm_lookup ths a th : ths !! a = Some th -> sgm ths !! a = Some (sig_of th).
Proof. intros E. unfold sgm. by rewrite lookup_fmap, E. Qed.

Lemma wsm_lookup ths a th : ths !! a = Some th -> wsm ths !! a = Some (wstate_of (wait_reason th)).
Proof. intros E. unfold wsm. by rewrite lookup_fmap, E. Qed.

Lemma rdm_lookup ths a th :
  ths !! a = Some th -> rdm ths !! a = if ready (status th) then Some (priority th) else None.
Proof. intros E. unfold rdm. by rewrite lookup_omap, E. Qed.

Lemma rdm_inv ths a p :
  rdm ths !! a = Some p -> exists th, ths !! a = Some th /\ ready (status th) = true /\ priority th = p.
Proof.
  unfold rdm. rewrite lookup_omap. intros (th & ? & E)%bind_Some. exists th.
  destruct (ready (status th)); naive_solver.
Qed.

Lemma wsm_inv ths a t : wsm ths !! a = Some t -> exists th, ths !! a = Some th /\ wstate_of (wait_reason th) = t.
Proof. unfold wsm. rewrite lookup_fmap. intros (th & ? & ?)%fmap_Some. eauto. Qed.

Lemma sgm_inv ths a s : sgm ths !! a = Some s -> exists th, ths !! a = Some th /\ sig_of th = s.
Proof. unfold sgm. rewrite lookup_fmap. intros (th & ? & ?)%fmap_Some. eauto. Qed.

(** Updates that leave a ghost map as it is. *)
Lemma wsm_update ths a th th' :
  ths !! a = Some th -> wstate_of (wait_reason th') = wstate_of (wait_reason th) ->
  wsm (<[a := th']> ths) = wsm ths.
Proof. intros Ha E. rewrite wsm_insert, E. apply insert_id. by apply wsm_lookup. Qed.

Lemma rdm_update ths a th th' :
  ths !! a = Some th -> ready (status th') = ready (status th) -> priority th' = priority th ->
  rdm (<[a := th']> ths) = rdm ths.
Proof.
  intros Ha E Ep. rewrite rdm_insert, E, Ep. pose proof (rdm_lookup _ _ _ Ha) as Hl.
  destruct (ready (status th)); [by apply insert_id|by apply delete_id].
Qed.

Lemma threads_ok_insert ths a th :
  threads_ok ths -> thread_ok th -> threads_ok (<[a := th]> ths).
Proof. intros. by apply map_Forall_insert_2. Qed.

End Ghost.
