(* ===== verification/KFrame.v ===== *)
(** * What the dispatcher does not see

    The dispatcher and the notifications it sends read and write neither the
    rendezvous nor the memory behind them.  So the end of a critical section
    does the same whatever has been done to the rendezvous, also when a
    rendezvous has been freed that a thread still waits on. *)

From S2P Require Import Prelude Lists AATree Sequence Palloc KTypes KState KSched KThread.
From S2P Require Import KIpc Queues KQueues KInv KSteps KHoare.

Section Frame.
Context {P : Platform}.
Notation kern := (kernel rings).
Implicit Types k : kern.

(** The rendezvous of [k1] in the rest of [k]. *)
Definition with_rdv k1 k : kern :=
  set_reply_sequence (reply_sequence k1) (set_replies (replies k1) (set_memory (memory k1)
    (set_reply_tree (reply_tree k1) k))).

Definition blind {X} (m : M rings X) : Prop :=
  forall v k, m (with_rdv v k) = match m k with Some (x, k') => Some (x, with_rdv v k') | None => None end.

Lemma blind_ret {X} (x : X) : blind (mret x).
Proof. by intros v k. Qed.

Lemma blind_fail {X} : blind (fail (A := X)).
Proof. by intros v k. Qed.

Lemma blind_bind {X Y} (m : M rings X) (f : X -> M rings Y) :
  blind m -> (forall x, blind (f x)) -> blind (m ≫= f).
Proof. intros Hm Hf v k. unfold mbind, M_bind. rewrite Hm. destruct (m k) as [[x k']|]; [apply Hf|done]. Qed.

Lemma blind_if {X} (b : bool) (m m' : M rings X) : blind m -> blind m' -> blind (if b then m else m').
Proof. by destruct b. Qed.

Lemma blind_gets {X} (f : kern -> X) : (forall v k, f (with_rdv v k) = f k) -> blind (gets f).
Proof. intros Hf v k. unfold gets. by rewrite Hf. Qed.

Lemma blind_modify (f : kern -> kern) : (forall v k, f (with_rdv v k) = with_rdv v (f k)) -> blind (modify f).
Proof. intros Hf v k. unfold modify. by rewrite Hf. Qed.

Lemma blind_sync f : blind (upd_sync f).
Proof. by apply blind_modify. Qed.

Lemma blind_some {X} (o : option X) : blind (some o).
Proof. intros v k. by destruct o. Qed.

Lemma blind_thread a : blind (thread a).
Proof. intros v k. unfold thread. cbn. by destruct (threads k !! a). Qed.

Lemma blind_upd_thread a f : blind (upd_thread a f).
Proof. intros v k. unfold upd_thread. cbn. by destruct (threads k !! a). Qed.

Lemma blind_enqueue g e : blind (l_enqueue g e).
Proof. intros v k. unfold l_enqueue, list_enqueue. cbn. by destruct (ring_append _ _ _). Qed.

Lemma blind_remove e : blind (l_remove e).
Proof. intros v k. unfold l_remove. cbn. by destruct (ring_remove _ _). Qed.

Lemma blind_head g : blind (l_head g).
Proof. intros v k. unfold l_head. cbn. by destruct (ring_head _ _). Qed.

Lemma blind_getThread p : blind (getThread p).
Proof. by destruct p. Qed.

Create HintDb blind.
#[local] Hint Resolve blind_ret blind_fail blind_bind blind_if blind_sync blind_some blind_thread blind_upd_thread
  blind_enqueue blind_remove blind_head blind_getThread : blind.
#[local] Hint Extern 1 (blind (gets _)) => by apply blind_gets : blind.
#[local] Hint Extern 1 (blind (modify _)) => by apply blind_modify : blind.

(** Goes through code, a branch at a time. *)
Ltac blind_go := repeat first
  [ progress intros
  | solve [auto with blind nocore]
  | apply blind_bind
  | apply blind_if
  | match goal with |- blind (match ?o with _ => _ end) => destruct o end ].

Lemma blind_release a : blind (release a).
Proof. unfold release, ready_enqueue. blind_go. Qed.
#[local] Hint Resolve blind_release : blind.

Lemma blind_ready_dequeue n : blind (ready_dequeue_loop n).
Proof. induction n as [|n IH]; cbn [ready_dequeue_loop]; blind_go. Qed.

Lemma blind_switch a : blind (context_switch a).
Proof. unfold context_switch. blind_go. Qed.
#[local] Hint Resolve blind_switch : blind.

Section Cycle.
Context (disp : M rings unit) (Hdisp : blind disp).

Lemma blind_leave_ : blind (leave_serialize_ disp).
Proof. unfold leave_serialize_. blind_go. Qed.
#[local] Hint Resolve blind_leave_ : blind.

Lemma blind_notify_ port_id flg : blind (ipc_notify_ disp port_id flg).
Proof. unfold ipc_notify_, enter_serialize, get_thread_ptr, thread_tree_get. blind_go. Qed.
#[local] Hint Resolve blind_notify_ : blind.

Lemma blind_dispatch_ : blind (dispatch_ disp).
Proof. unfold dispatch_, ready_dequeue. pose proof (blind_ready_dequeue 33). blind_go. Qed.

End Cycle.

Lemma blind_leave_serialize : blind leave_serialize.
Proof. apply blind_leave_, blind_dispatch_, blind_fail. Qed.

Lemma blind_leave_and_dispatch : blind leave_serialize_and_dispatch.
Proof. apply blind_bind; [apply blind_sync|intros; apply blind_leave_serialize]. Qed.

(** A blind function on other rendezvous. *)
Lemma wp_blind {X} (m : M rings X) v k Φ :
  blind m -> wp m k Φ -> wp m (with_rdv v k) (λ x k', exists k0, k' = with_rdv v k0 /\ Φ x k0).
Proof. intros Hm (x & k' & E & HΦ). exists x, (with_rdv v k'). rewrite Hm, E. split; [done|]. by exists k'. Qed.

(** The code is deterministic: what holds of its one outcome under a
    condition can be shown under the condition. *)
Lemma wp_when {X} (m : M rings X) k (C : Prop) Φ Ψ :
  wp m k Φ -> (C -> wp m k Ψ) -> wp m k (λ x k', Φ x k' /\ (C -> Ψ x k')).
Proof.
  intros (x & k' & E & HΦ) HΨ. exists x, k'. split; [done|]. split; [done|]. intros HC.
  destruct (HΨ HC) as (x' & k'' & E' & ?). congruence.
Qed.

End Frame.
