(* ===== verification/KSchedOk.v ===== *)
(** * The scheduler keeps the invariant

    Releasing and blocking threads, the choice of the next thread, the
    dispatcher and the end of a critical section. *)

From S2P Require Import Prelude Lists AATree Bitmap Sequence Palloc KTypes KState KSched KThread.
From S2P Require Import KIpc Queues KQueues KInv KSteps KObjects KHoare.

Section Sched.
Context {P : Platform} `{!KeyMapLaws pf_tree} `{!KernelMemoryLaws pf_memory}.
Notation kern := (kernel rings).
Implicit Types k : kern.
Implicit Types Q : queues.

(** ** Threads and their state *)

Lemma waiting_not_ready st : waiting st = true -> ready st = false.
Proof.
  unfold waiting, ready. intros [H1|H1]%orb_true_iff; apply Z.eqb_eq in H1; by subst.
Qed.

(** [crit] and [core] depend on a few fields each. *)
Lemma crit_ext k k' :
  crit k -> threads k' = threads k -> thread_tree k' = thread_tree k -> running k' = running k ->
  cpu k' = cpu k -> sync k' = sync k -> crit k'.
Proof.
  intros [C1 C2 C3 C4 C5 C6 C7] Et Ett Er Ec Es.
  split; unfold idle_ok, run_cpu in *; rewrite ?Et, ?Ett, ?Er, ?Ec, ?Es; auto.
Qed.

Lemma core_ext k k' Q sg rd ws :
  core k Q sg rd ws -> lists k' = lists k -> threads k' = threads k -> replies k' = replies k ->
  ready_bits k' = ready_bits k -> thread_tree k' = thread_tree k -> reply_tree k' = reply_tree k ->
  reply_sequence k' = reply_sequence k -> memory k' = memory k -> cpu k' = cpu k -> core k' Q sg rd ws.
Proof.
  intros [] El Et Er Eb Ett Ert Es Em Ec.
  split; unfold links_ok in *; rewrite ?El, ?Et, ?Er, ?Eb, ?Ett, ?Ert, ?Es, ?Em, ?Ec; auto.
Qed.

Lemma set_status_twice x y th : set_status x (set_status y th) = set_status x th.
Proof. done. Qed.

(** One thread changes; the other conditions follow from what it becomes. *)
Lemma crit_upd k a th th' :
  crit k -> threads k !! a = Some th -> thread_ok th' -> sig_of th' = sig_of th ->
  (km_map (thread_tree k) !! PORT_IDLE ≠ Some a \/ ready (status th') = true) ->
  (status th' = TTS_RUN -> a = running k) ->
  crit (set_threads (<[a := th']> (threads k)) k).
Proof.
  intros [C1 C2 C3 C4 C5 C6 C7] Ha Hok Hs Hi Hr. split; cbn; try done.
  - by apply threads_ok_insert.
  - destruct C2 as (b & tb & Hb & Htb & Hrb & Hpb). exists b.
    destruct (decide (b = a)) as [->|]; [|exists tb; cbn; by rewrite lookup_insert_ne].
    assert (tb = th) as -> by congruence. exists th'. cbn. rewrite lookup_insert_eq. split_and!; try done.
    + by destruct Hi.
    + apply sig_of_eq in Hs as (_ & -> & _). done.
  - intros b tb. rewrite lookup_insert_Some. intros [[<- <-]|[_ Hb]]; [done|]. by eapply C3.
  - intros tr. cbn. rewrite lookup_insert_Some. intros [[Hra <-]|[_ Htr]] Hk; [|by apply C4].
    subst a. specialize (C4 th Ha). apply sig_of_eq in Hs as (_ & _ & Hk' & Hc').
    rewrite Hc'. apply C4. congruence.
  - rewrite lookup_insert_is_Some. destruct (decide (a = running k)); auto.
Qed.

(** Fields that matter neither to the queues nor to the scheduler. *)
Lemma kcrit_upd k Q a th th' :
  kcrit k Q -> threads k !! a = Some th -> sig_of th' = sig_of th -> status th' = status th ->
  wstate_of (wait_reason th') = wstate_of (wait_reason th) ->
  kcrit (set_threads (<[a := th']> (threads k)) k) Q.
Proof.
  intros [HC HR] Ha Hs Hst Hw. split.
  - cbn. rewrite (sgm_update _ _ _ _ Ha Hs), (wsm_update _ _ _ _ Ha Hw).
    rewrite (rdm_update _ _ _ _ Ha); [|by rewrite Hst|by apply sig_of_eq in Hs as (_ & -> & _)].
    apply core_upd; [done|]. by eapply elem_of_dom_2.
  - eapply crit_upd; [done|done| |done|..].
    + unfold thread_ok. rewrite Hst, Hw. by apply (crit_threads _ HR a).
    + destruct (decide (km_map (thread_tree k) !! PORT_IDLE = Some a)) as [E|]; [right|by left].
      destruct (crit_idle _ HR) as (b & tb & Hb & Htb & Hrb & _). rewrite Hst. congruence.
    + rewrite Hst. by eapply (crit_only _ HR).
Qed.

(** ** Releasing a thread *)

(** What [release] makes of a waiting thread. *)
Definition woken (th : thread_t) : thread_t :=
  set_status (if status th =? TTS_WAI then TTS_RDY else TTS_SUS)
    (set_wait (set_wtype wait_none) th).

(** The queues afterwards: a thread that is not suspended joins its ready
    queue at the end. *)
Definition woken_queues (a : Z) (th : thread_t) (Q : queues) : queues :=
  if status th =? TTS_WAI
  then <[LReady (priority th) := default [] (Q !! LReady (priority th)) ++ [a]]> Q else Q.

(** [k'] differs from [k] in its lists, threads and ready bits only. *)
Definition qframe k k' : Prop :=
  k' = set_ready_bits (ready_bits k') (set_threads (threads k') (set_lists (lists k') k)).

Lemma qframe_refl k : qframe k k.
Proof. by destruct k. Qed.

Lemma qframe_trans k1 k2 k3 : qframe k1 k2 -> qframe k2 k3 -> qframe k1 k3.
Proof. unfold qframe. destruct k1, k2, k3. cbn. intros [=] [=]. by subst. Qed.

(** Off its queue and still marked as waiting. *)
Definition unhooked k Q a : Prop :=
  core k Q (sgm (threads k)) (rdm (threads k)) (<[a := WNone]> (wsm (threads k))) /\ crit k.

(** The queues and the thread, whatever [sg] says of the others. *)
Lemma release_core k Q sg a th s :
  core k Q sg (rdm (threads k)) (<[a := WNone]> (wsm (threads k))) -> threads k !! a = Some th ->
  waiting (status th) = true -> sg !! a = Some s -> sg_priority s = priority th ->
  wp (release a) k (λ _ k',
    core k' (woken_queues a th Q) sg (rdm (threads k')) (wsm (threads k')) /\ qframe k k' /\
    threads k' = <[a := woken th]> (threads k)).
Proof.
  intros HC Ha Hw Hs Hsp. pose proof (waiting_not_ready _ Hw) as Hnr.
  pose proof (core_upd _ _ _ _ _ a (woken th) HC (elem_of_dom_2 _ _ _ Ha)) as HC1.
  assert (Hrda : rdm (threads k) !! a = None) by (rewrite (rdm_lookup _ _ _ Ha), Hnr; done).
  unfold release. wp_step. eapply wp_upd_thread; [done|]. wp_step.
  eapply wp_upd_thread; [apply lookup_insert_eq|]. cbn. rewrite insert_insert_eq. wp_step.
  eapply wp_thread; [apply lookup_insert_eq|]. cbn.
  assert (Hst : status th = TTS_WAI \/ status th = TTS_WAS).
  { unfold waiting in Hw. apply orb_true_iff in Hw as [?%Z.eqb_eq|?%Z.eqb_eq]; auto. }
  destruct Hst as [Hst|Hst].
  - (* enters its ready queue *)
    assert (Hwk : woken th = set_status TTS_RDY (set_wait (set_wtype wait_none) th))
      by (unfold woken; by rewrite Hst).
    unfold woken_queues. rewrite Hst, Hwk in *. change (TTS_WAI =? TTS_WAI) with true. cbn in *.
    assert (Hp : MIN_PRIORITY <= priority th <= MAX_PRIORITY).
    { rewrite <- Hsp. by apply (st_prio _ _ (c_st _ _ _ _ _ HC) a s). }
    destruct (proj2 (rq_dom _ _ _ (c_rq _ _ _ _ _ HC) (priority th)) Hp) as [l Hl].
    destruct (core_enready _ _ _ _ _ l a s HC1) as (A' & HA & HC2); [by rewrite Hsp|done|done|].
    rewrite Hsp in *.
    change (Z.land TTS_WAI (Z.lnot TTS_WAI) =? 0) with true. cbn iota.
    wp_step. eapply wp_upd_thread; [apply lookup_insert_eq|]. cbn. rewrite insert_insert_eq.
    unfold ready_enqueue. wp_step. wp_step. eapply wp_enqueue; [exact HA|]. cbn.
    split; [|split; [done|done]]. rewrite Hl. cbn.
    kred. rewrite set_status_twice, rdm_insert, wsm_insert. exact HC2.
  - (* stays suspended *)
    assert (Hwk : woken th = set_status TTS_SUS (set_wait (set_wtype wait_none) th))
      by (unfold woken; by rewrite Hst).
    unfold woken_queues. rewrite Hst, Hwk in *. change (TTS_WAS =? TTS_WAI) with false. cbn in *.
    change (Z.land TTS_WAS (Z.lnot TTS_WAI)) with TTS_SUS. cbn iota. wp_step.
    split; [|split; [done|done]]. cbn. rewrite rdm_insert, wsm_insert. cbn.
    rewrite delete_id by done. exact HC1.
Qed.

(** A waiting thread is not the idle one, and can be released. *)
Lemma crit_woken k a th :
  crit k -> threads k !! a = Some th -> waiting (status th) = true ->
  crit (set_threads (<[a := woken th]> (threads k)) k).
Proof.
  intros HR Ha Hw. pose proof (waiting_not_ready _ Hw) as Hnr. eapply crit_upd; [done|done| |done| |].
  - unfold thread_ok, woken, valid_status. cbn. destruct (status th =? TTS_WAI); cbn;
      (split; [set_solver|]); by split.
  - left. intros E. destruct (crit_idle _ HR) as (b & tb & Hb & Htb & Hrb & _). congruence.
  - cbn. by destruct (status th =? TTS_WAI).
Qed.

Lemma release_spec k Q a th :
  unhooked k Q a -> threads k !! a = Some th -> waiting (status th) = true ->
  wp (release a) k (λ _ k', kcrit k' (woken_queues a th Q) /\ qframe k k' /\
    threads k' = <[a := woken th]> (threads k)).
Proof.
  intros [HC HR] Ha Hw.
  eapply wp_mono; [by apply (release_core _ _ _ _ _ (sig_of th) HC Ha Hw); [apply sgm_lookup|]|].
  intros [] k' (HC' & Hf & Et). split_and!; [|done|done]. split.
  - rewrite Et, (sgm_update _ _ _ (woken th) Ha) by done. by rewrite Et in HC'.
  - eapply crit_ext; [by apply (crit_woken k a th)|done|by rewrite Hf..].
Qed.

(** ** Choosing the next thread *)

(** [a] is the first thread of the first ready queue that is not empty. *)
Definition highest Q p a l : Prop :=
  Q !! LReady p = Some (a :: l) /\ forall p', MIN_PRIORITY <= p' < p -> Q !! LReady p' = Some [].

Lemma ready_dequeue_loop_spec n j k Q sg rd ws a0 p0 :
  core k Q sg rd ws -> rd !! a0 = Some p0 -> 0 <= j ->
  (forall i, 0 <= i < j -> Z.testbit (ready_bits k) i = false) -> 8 - j < Z.of_nat n ->
  wp (ready_dequeue_loop n) k (λ o k', exists p a l, o = Some a /\ highest Q p a l /\
    k' = set_ready_bits (ready_bits k') k /\ core k' Q sg rd ws).
Proof.
  revert j k. induction n as [|n IH]; intros j k HC Hrd Hj Hlow Hn.
  { destruct (rq_range _ _ _ (c_rq _ _ _ _ _ HC) a0 p0 Hrd) as [Hp0 Hp7].
    destruct (proj2 (rq_dom _ _ _ (c_rq _ _ _ _ _ HC) p0)) as [l Hl]; [done|].
    assert (a0 ∈ l) as Hin by (by apply (rq_mem _ _ _ (c_rq _ _ _ _ _ HC) _ _ _ Hl)).
    pose proof (rq_bits _ _ _ (c_rq _ _ _ _ _ HC) p0 l Hl) as Hb. unfold MIN_PRIORITY, MAX_PRIORITY in *.
    rewrite Hlow in Hb by lia. destruct l; [by apply elem_of_nil in Hin|]. by discriminate Hb. }
  simpl. wp_step. wp_step. pose proof (rq_bits_range _ _ _ (c_rq _ _ _ _ _ HC)) as Hbr.
  assert (Hne : ready_bits k ≠ 0).
  { intros E. destruct (rq_range _ _ _ (c_rq _ _ _ _ _ HC) a0 p0 Hrd) as [Hp0 Hp7].
    destruct (proj2 (rq_dom _ _ _ (c_rq _ _ _ _ _ HC) p0)) as [l Hl]; [done|].
    assert (a0 ∈ l) as Hin by (by apply (rq_mem _ _ _ (c_rq _ _ _ _ _ HC) _ _ _ Hl)).
    pose proof (rq_bits _ _ _ (c_rq _ _ _ _ _ HC) p0 l Hl) as Hb. rewrite E, Z.bits_0 in Hb.
    destruct l; [by apply elem_of_nil in Hin|]. by discriminate Hb. }
  rewrite (proj2 (Z.eqb_neq _ _) Hne). set (pri := count_ntz (ready_bits k)).
  pose proof (count_ntz_set (ready_bits k) ltac:(lia)) as Hset. fold pri in Hset.
  pose proof (count_ntz_lt (ready_bits k) 8 ltac:(lia) ltac:(lia)) as Hlt. fold pri in Hlt.
  pose proof (count_ntz_nonneg (ready_bits k)) as Hnn. fold pri in Hnn.
  destruct (proj2 (rq_dom _ _ _ (c_rq _ _ _ _ _ HC) pri)) as [l Hl];
    [unfold MIN_PRIORITY, MAX_PRIORITY; lia|].
  destruct (c_links _ _ _ _ _ HC) as (I & HQ & _). wp_step.
  eapply wp_head; [by apply (q_head _ _ _ HQ)|]. destruct l as [|a l]; cbn.
  - wp_step. wp_step. eapply wp_mono.
    + apply (IH (pri + 1)); [by apply core_clear_bit|done|lia| |].
      * intros i Hi. cbn. rewrite testbit_bit_clear by lia. destruct (decide (i = pri)) as [->|].
        -- rewrite bool_decide_true by done. apply andb_false_r.
        -- rewrite (count_ntz_below (ready_bits k) i) by (fold pri; lia). done.
      * assert (j <= pri); [|lia]. destruct (decide (pri < j)); [|lia]. by rewrite Hlow in Hset by lia.
    + intros o k' (p & a & l & -> & Hh & -> & HC'). exists p, a, l. split_and!; try done.
  - wp_step. wp_step. wp_step. exists pri, a, l. split_and!; try done; [|by destruct k].
    split; [done|]. intros p' [Hp0 Hp']. destruct (proj2 (rq_dom _ _ _ (c_rq _ _ _ _ _ HC) p')) as [l' Hl'];
      [unfold MIN_PRIORITY, MAX_PRIORITY in *; lia|].
    destruct l' as [|b l']; [done|]. exfalso.
    pose proof (rq_bits _ _ _ (c_rq _ _ _ _ _ HC) p' _ Hl' ltac:(done)) as Hb.
    rewrite (count_ntz_below (ready_bits k) p') in Hb; [done|lia|]. fold pri. unfold MIN_PRIORITY in *. lia.
Qed.

Lemma ready_dequeue_spec k Q :
  kcrit k Q ->
  wp ready_dequeue k (λ o k', exists p a l, o = Some a /\ highest Q p a l /\
    k' = set_ready_bits (ready_bits k') k /\ kcrit k' Q).
Proof.
  intros [HC HR]. destruct (crit_idle _ HR) as (b & tb & _ & Htb & Hrb & Hpb).
  eapply wp_mono.
  - apply (ready_dequeue_loop_spec 33 0 k Q _ _ _ b MAX_PRIORITY HC); [|lia..].
    by rewrite (rdm_lookup _ _ _ Htb), Hrb, Hpb.
  - intros o k' (p & a & l & -> & Hh & E & HC'). exists p, a, l. split_and!; try done.
    rewrite E in HC' |- *. split; [exact HC'|by eapply crit_ext].
Qed.

(** The chosen thread is a ready one. *)
Lemma highest_ready k Q p a l :
  kcrit k Q -> highest Q p a l ->
  exists th, threads k !! a = Some th /\ ready (status th) = true /\ priority th = p.
Proof.
  intros [HC HR] [Hq _]. apply rdm_inv. apply (rq_mem _ _ _ (c_rq _ _ _ _ _ HC) _ _ _ Hq). by left.
Qed.

(** ** Taking a thread off the queue it waits on *)

Definition unhook (a : Z) (Q : queues) : queues :=
  map_imap (λ g l, Some (if wait_guard g then filter (λ x, x ≠ a) l else l)) Q.

Lemma unhook_lookup a Q g :
  unhook a Q !! g = (λ l, if wait_guard g then filter (λ x, x ≠ a) l else l) <$> Q !! g.
Proof. unfold unhook. rewrite map_lookup_imap. by destruct (Q !! g). Qed.

Lemma unhook_one k Q sg rd ws g l a :
  core k Q sg rd ws -> Q !! g = Some l -> a ∈ l -> wait_guard g = true ->
  <[g := filter (λ x, x ≠ a) l]> Q = unhook a Q.
Proof.
  intros HC Hg Ha Hk. apply map_eq. intros g'. rewrite unhook_lookup.
  destruct (decide (g' = g)) as [->|Hne]; [by rewrite lookup_insert_eq, Hg, Hk|].
  rewrite lookup_insert_ne by done. destruct (Q !! g') as [l'|] eqn:Hl'; [|done]. cbn.
  destruct (wait_guard g') eqn:Hk'; [|done]. rewrite filter_ne_id; [done|].
  intros Hin. apply Hne. by eapply core_unique.
Qed.

Lemma unhook_none k Q sg rd ws a t :
  core k Q sg rd ws -> ws !! a = Some t -> queued t = false -> unhook a Q = Q.
Proof.
  intros HC Ha Hq. apply map_eq. intros g. rewrite unhook_lookup.
  destruct (Q !! g) as [l|] eqn:Hl; [|done]. cbn.
  destruct (wait_guard g) eqn:Hk; [|done]. rewrite filter_ne_id; [done|]. intros Hin.
  by eapply (core_off_wait _ _ _ _ _ g).
Qed.

Lemma unhook_spec k Q a th :
  kcrit k Q -> threads k !! a = Some th -> wstate_of (wait_reason th) ≠ WNone ->
  exists A', ring_remove (lists k) (LWaiting a) = Some A' /\ unhooked (set_lists A' k) (unhook a Q) a.
Proof.
  intros [HC HR] Ha Hw. pose proof (wsm_lookup _ _ _ Ha) as Hws.
  destruct (queued (wstate_of (wait_reason th))) eqn:Hq.
  - destruct (w_que _ _ _ _ (c_w _ _ _ _ _ HC) _ _ Hws Hq) as (g & l & Hg & Hin & Hf).
    pose proof (fits_kind _ _ Hf) as Hk.
    destruct (core_unwait _ _ _ _ _ g l a HC Hg Hin Hk) as (A' & HA & HC').
    exists A'. split; [done|]. rewrite (unhook_one _ _ _ _ _ g l a HC) in HC' by done.
    split; [exact HC'|by eapply crit_ext].
  - exists (lists k). split; [by eapply core_unwait_off|]. erewrite unhook_none; [|done..].
    split; [|by eapply crit_ext]. cbn. eapply core_ext; [by eapply core_flag|done..].
Qed.

(** Fields written between the two steps. *)
Lemma unhooked_upd k Q a th th' :
  unhooked k Q a -> threads k !! a = Some th -> sig_of th' = sig_of th -> status th' = status th ->
  wstate_of (wait_reason th) ≠ WNone -> wstate_of (wait_reason th') ≠ WNone ->
  unhooked (set_threads (<[a := th']> (threads k)) k) Q a.
Proof.
  intros [HC HR] Ha Hs Hst Hw Hw'. split.
  - cbn. rewrite (sgm_update _ _ _ _ Ha Hs), wsm_insert, insert_insert_eq.
    rewrite (rdm_update _ _ _ _ Ha); [|by rewrite Hst|by apply sig_of_eq in Hs as (_ & -> & _)].
    apply core_upd; [done|]. by eapply elem_of_dom_2.
  - eapply crit_upd; [done|done| |done|..].
    + destruct (crit_threads _ HR a th Ha) as [Hv Hi]. split; rewrite Hst; [done|]. tauto.
    + destruct (decide (km_map (thread_tree k) !! PORT_IDLE = Some a)) as [E|]; [right|by left].
      destruct (crit_idle _ HR) as (b & tb & Hb & Htb & Hrb & _). rewrite Hst. congruence.
    + rewrite Hst. by eapply (crit_only _ HR).
Qed.

(** ** Notification *)

Definition flag_reason (w : wait_reason_t) : bool :=
  match wtype w with wait_flag | wait_receive => true | _ => false end.

Definition flag_waiter (th : thread_t) : bool := waiting (status th) && flag_reason (wait_reason th).

(** What [ipc_notify] makes of a thread that is not dormant. *)
Definition notified (flg : Z) (th : thread_t) : thread_t :=
  if flag_waiter th then woken (set_wait (set_wresult E_RLWAI) (set_port (set_flag 0) th))
  else set_port (λ p, set_flag (Z.lor (flag p) flg) p) th.

Definition notified_queues (a : Z) (th : thread_t) Q : queues :=
  if flag_waiter th then woken_queues a th (unhook a Q) else Q.

Definition serialized k : kern := set_sync (set_serializing 1 (sync k)) k.

(** The state [k'] and queues [Q'] in which [ipc_notify] leaves its critical
    section, and its result [r]. *)
Definition notify_rel k Q (port_id flg r : Z) k' Q' : Prop :=
  match km_map (thread_tree k) !! port_id with
  | None => r = E_NOEXS /\ k' = serialized k /\ Q' = Q
  | Some a => exists th, threads k !! a = Some th /\
      if status th =? TTS_DMT then r = E_OBJ /\ k' = serialized k /\ Q' = Q
      else r = E_OK /\ qframe (serialized k) k' /\
           threads k' = <[a := notified flg th]> (threads k) /\ Q' = notified_queues a th Q
  end.

Lemma kcrit_serialized k Q : kcrit k Q -> kcrit (serialized k) Q.
Proof.
  intros [HC HR]. split; [by eapply core_ext|].
  destruct HR as [C1 C2 C3 C4 C5 C6 C7]. by split.
Qed.

(** The tree finds exactly the threads. *)
Lemma tree_lookup k Q id :
  kcrit k Q -> km_get (thread_tree k) id = km_map (thread_tree k) !! id.
Proof. intros [HC _]. apply km_get_law, (reg_wf _ _ _ (c_reg _ _ _ _ _ HC)). Qed.

Lemma tree_thread k Q id a :
  kcrit k Q -> km_map (thread_tree k) !! id = Some a ->
  exists th, threads k !! a = Some th /\ node_key th = id.
Proof.
  intros [HC _] Ha. apply (reg_key _ _ _ (c_reg _ _ _ _ _ HC)) in Ha as (s & Hs & <-).
  apply sgm_inv in Hs as (th & Hth & <-). eauto.
Qed.

Lemma thread_tree_id k Q a th :
  kcrit k Q -> threads k !! a = Some th -> km_map (thread_tree k) !! node_key th = Some a.
Proof.
  intros [HC _] Ha. apply (reg_key _ _ _ (c_reg _ _ _ _ _ HC)). exists (sig_of th).
  split; [by apply sgm_lookup|done].
Qed.

Lemma waiting_cases st : waiting st = true <-> st = TTS_WAI \/ st = TTS_WAS.
Proof. unfold waiting. rewrite orb_true_iff, !Z.eqb_eq. done. Qed.

Lemma notify_spec disp k Q port_id flg (Φ : Z -> kern -> Prop) :
  kcrit k Q ->
  (forall r k' Q', kcrit k' Q' -> notify_rel k Q port_id flg r k' Q' ->
     wp (leave_serialize_ disp) k' (λ _ k'', Φ r k'')) ->
  wp (ipc_notify_ disp port_id flg) k Φ.
Proof.
  intros HK HΦ. pose proof (kcrit_serialized _ _ HK) as HK1. unfold ipc_notify_, enter_serialize.
  wp_step. wp_step. fold (serialized k).
  assert (Hend : forall r k' Q', kcrit k' Q' -> notify_rel k Q port_id flg r k' Q' ->
    wp (leave_serialize_ disp ≫= (λ _, mret r)) k' Φ).
  { intros r k' Q' Hk' Hrel. wp_step. eapply wp_mono; [by eapply HΦ|]. intros [] k'' ?. by wp_step. }
  clear HΦ. wp_step. unfold get_thread_ptr, thread_tree_get. wp_step. cbn.
  rewrite (tree_lookup _ _ _ HK).
  destruct (km_map (thread_tree k) !! port_id) as [a|] eqn:Hp.
  2:{ wp_step. wp_step. eapply Hend; [done|]. unfold notify_rel. by rewrite Hp. }
  destruct (tree_thread _ _ _ _ HK Hp) as (th & Ha & _).
  assert (Hrel : forall r k' Q', (if status th =? TTS_DMT then r = E_OBJ /\ k' = serialized k /\ Q' = Q
      else r = E_OK /\ qframe (serialized k) k' /\
           threads k' = <[a := notified flg th]> (threads k) /\ Q' = notified_queues a th Q) ->
    notify_rel k Q port_id flg r k' Q').
  { intros r k' Q' Hr. unfold notify_rel. rewrite Hp. eauto. }
  wp_step. wp_step. eapply wp_thread; [done|].
  destruct (status th =? TTS_DMT) eqn:Hd; [wp_step; by eapply Hend, Hrel|].
  destruct (crit_threads _ (proj2 HK) a th Ha) as [Hv Hwi].
  unfold notified, notified_queues in Hrel.
  destruct (flag_waiter th) eqn:Hf.
  - (* released *)
    unfold flag_waiter, flag_reason in Hf. apply andb_true_iff in Hf as [Hw Ht].
    rewrite bool_decide_true; [|split; [by apply waiting_cases|]; by destruct (wtype _); auto].
    destruct (unhook_spec (serialized k) Q a th HK1) as (A' & HA & HU); [done|by apply Hwi|].
    set (th1 := set_wait (set_wresult E_RLWAI) (set_port (set_flag 0) th)) in *.
    assert (HU' : unhooked (set_lists A' (set_threads (<[a := th1]> (threads k)) (serialized k))) (unhook a Q) a).
    { eapply (unhooked_upd _ _ _ th th1) in HU; [exact HU|done..|by apply Hwi|by apply Hwi]. }
    wp_step. eapply wp_upd_thread; [done|]. wp_step. eapply wp_upd_thread; [apply lookup_insert_eq|].
    cbn. rewrite insert_insert_eq. wp_step. eapply wp_remove; [exact HA|]. wp_step.
    eapply wp_mono.
    + apply (release_spec _ (unhook a Q) a th1); [exact HU'|apply lookup_insert_eq|done].
    + intros [] k' (HK' & Hq & Hth). cbn. wp_step. eapply Hend; [exact HK'|]. apply Hrel.
      split; [done|]. split; [|split; [|done]].
      * eapply qframe_trans; [|exact Hq]. done.
      * rewrite Hth. kred. done.
  - (* flagged *)
    rewrite bool_decide_false.
    2:{ intros [Hw Ht]. apply waiting_cases in Hw. unfold flag_waiter, flag_reason in Hf. rewrite Hw in Hf.
        by destruct Ht as [E|E]; rewrite E in Hf. }
    wp_step. eapply wp_upd_thread; [done|]. wp_step. eapply Hend; [|by apply Hrel].
    by eapply (kcrit_upd (serialized k) Q a th).
Qed.

(** ** Switching context *)

(** The same thread up to the saved FPU registers. *)
Definition fpu_eq (th th' : thread_t) : Prop :=
  exists v, th' = set_mpu (set_fpu_state v) th.

Definition same_threads (R : thread_t -> thread_t -> Prop) (ths ths' : tmap) : Prop :=
  forall b, match ths !! b, ths' !! b with
            | Some th, Some th' => R th th'
            | None, None => True
            | _, _ => False
            end.

Lemma fpu_eq_refl th : fpu_eq th th.
Proof. exists (fpu_state (mpu th)). by destruct th as [? ? ? ? ? ? ? []]. Qed.

Lemma same_threads_refl (R : thread_t -> thread_t -> Prop) ths :
  (forall th, R th th) -> same_threads R ths ths.
Proof. intros HR b. by destruct (ths !! b). Qed.

Lemma same_threads_insert (R : thread_t -> thread_t -> Prop) ths a th th' :
  (forall t, R t t) -> ths !! a = Some th -> R th th' -> same_threads R ths (<[a := th']> ths).
Proof.
  intros HR Ha Ht b. destruct (decide (b = a)) as [->|].
  - by rewrite Ha, lookup_insert_eq.
  - rewrite lookup_insert_ne by done. by destruct (ths !! b).
Qed.

Lemma same_threads_trans (R : thread_t -> thread_t -> Prop) t1 t2 t3 :
  (forall a b c, R a b -> R b c -> R a c) ->
  same_threads R t1 t2 -> same_threads R t2 t3 -> same_threads R t1 t3.
Proof.
  intros HR H12 H23 b. specialize (H12 b). specialize (H23 b).
  destruct (t1 !! b), (t2 !! b), (t3 !! b); try done. by eapply HR.
Qed.

(** The registers of the processor are those of the user thread [th]. *)
Definition loaded (c : cpu_t) (a : Z) (th : thread_t) : Prop :=
  fpu_holder c = a /\ current_page_table c = cr3 (mpu th) /\ cpu_cr3 c = cr3 (mpu th) /\
  tss_esp0 c = kstack_tail (attr th).

Definition kcore k Q : Prop := core k Q (sgm (threads k)) (rdm (threads k)) (wsm (threads k)).

(** A page table that is loaded already is not loaded again. *)
Lemma core_load k Q a th c :
  kcore k Q -> threads k !! a = Some th -> is_kthread th = false -> fpu_holder (cpu k) = fpu_holder c ->
  tss_esp0 (cpu k) = tss_esp0 c -> current_page_table c = cpu_cr3 c -> kcore (set_cpu c k) Q.
Proof.
  intros [] Ha Hk Hf Ht Hp. split; try done. cbn. destruct c_cpu as [Hc1 _].
  split; [|by right]. by rewrite <- Hf, <- Ht.
Qed.

Lemma context_switch_spec k Q a th :
  kcore k Q -> threads k !! a = Some th ->
  wp (context_switch a) k (λ _ k', kcore k' Q /\ k' = set_cpu (cpu k') (set_threads (threads k') k) /\
    (is_kthread th = false -> loaded (cpu k') a th) /\ (is_kthread th = true -> k' = k) /\
    same_threads fpu_eq (threads k) (threads k')).
Proof.
  intros HC Ha. unfold context_switch. wp_step. eapply wp_thread; [done|].
  destruct (is_kthread th) eqn:Hk.
  { wp_step. split_and!; try done; [by destruct k|]. apply same_threads_refl, fpu_eq_refl. }
  wp_step. wp_step. wp_step. wp_step.
  set (c1 := if cr3 (mpu th) =? current_page_table (cpu k) then _ else _).
  assert (Hc0 : cr3 (mpu th) ≠ 0).
  { apply (st_cr3 _ _ (c_st _ _ _ _ _ HC) a (sig_of th)); [by apply sgm_lookup|done]. }
  assert (Hc1 : current_page_table c1 = cr3 (mpu th) /\ cpu_cr3 c1 = cr3 (mpu th) /\
    fpu_holder c1 = fpu_holder (cpu k) /\ tss_esp0 c1 = tss_esp0 (cpu k)).
  { unfold c1. destruct (Z.eqb_spec (cr3 (mpu th)) (current_page_table (cpu k))) as [E|]; [|done].
    split; [done|]. split; [|done]. destruct (c_cpu _ _ _ _ _ HC) as [_ [E'|E']]; congruence. }
  destruct Hc1 as (Hp1 & Hp2 & Hp3 & Hp4).
  assert (HC1 : kcore (set_cpu c1 k) Q) by (eapply core_load; [done|done|done|congruence..]).
  destruct (Z.eqb_spec a (fpu_holder (cpu k))) as [E|E].
  { wp_step. split_and!; try done; [|apply same_threads_refl, fpu_eq_refl].
    intros _. split_and!; try done; cbn; [by rewrite Hp3|].
    destruct (c_cpu _ _ _ _ _ HC) as [[E'|(s & Hs & _ & Ht)] _].
    - exfalso. rewrite <- E in E'. rewrite E' in Ha.
      pose proof (st_zero _ _ (c_st _ _ _ _ _ HC)) as Hz. by rewrite (sgm_lookup _ _ _ Ha) in Hz.
    - rewrite <- E, (sgm_lookup _ _ _ Ha) in Hs. injection Hs as <-. cbn in Ht. congruence. }
  assert (Hlast : forall k1, kcore k1 Q -> k1 = set_threads (threads k1) (set_cpu c1 k) ->
    same_threads fpu_eq (threads k) (threads k1) ->
    wp (th0 ← thread a; modify (λ k0, set_cpu (Cpu (cpu_cr3 (cpu k0)) (current_page_table (cpu k0)) a
        (fpu_state (mpu th0)) (kstack_tail (attr th0))) k0)) k1
      (λ _ k', kcore k' Q /\ k' = set_cpu (cpu k') (set_threads (threads k') k) /\
        (false = false -> loaded (cpu k') a th) /\ (false = true -> k' = k) /\
        same_threads fpu_eq (threads k) (threads k'))).
  { intros k1 HC2 Hk1 Hs1. pose proof (Hs1 a) as Hsa. rewrite Ha in Hsa.
    destruct (threads k1 !! a) as [tha|] eqn:Ha1; [|done]. destruct Hsa as [v ->].
    wp_step. eapply wp_thread; [done|]. wp_step.
    assert (Ecpu : cpu k1 = c1) by (by rewrite Hk1). rewrite Ecpu.
    split_and!; try done.
    - destruct HC2. split; try done. cbn. split; [|by right; rewrite Hp1, Hp2]. right.
      exists (sig_of th). split; [exact (sgm_lookup _ _ _ Ha1)|done].
    - cbn. rewrite Hk1 at 1. by destruct k. }
  destruct (Z.eqb_spec (fpu_holder (cpu k)) 0) as [Ez|Ez].
  { wp_step. wp_step. apply Hlast; [done|by destruct k|]. apply same_threads_refl, fpu_eq_refl. }
  destruct (c_cpu _ _ _ _ _ HC) as [[?|(s & Hs & _)] _]; [done|].
  apply sgm_inv in Hs as (tho & Hho & _). wp_step. eapply wp_upd_thread; [done|].
  apply Hlast.
  - unfold kcore in *. cbn. rewrite (sgm_update _ _ _ _ Hho) by done.
    rewrite (wsm_update _ _ _ _ Hho), (rdm_update _ _ _ _ Hho) by done.
    apply (core_upd (set_cpu c1 k)); [done|]. by eapply elem_of_dom_2.
  - by destruct k.
  - cbn. eapply same_threads_insert; [apply fpu_eq_refl|done|]. by eexists.
Qed.

(** ** The dispatcher *)

(** What a switch does to a thread: it may turn from running to ready or back,
    and the registers of the FPU may be saved in it. *)
Definition switched (th th' : thread_t) : Prop :=
  exists st v, th' = set_mpu (set_fpu_state v) (set_status st th) /\
    (st = status th \/ ready st = true /\ ready (status th) = true).

Lemma switched_fpu th th' : fpu_eq th th' -> switched th th'.
Proof. intros [v ->]. exists (status th), v. split; [by destruct th|by left]. Qed.

Lemma switched_refl th : switched th th.
Proof. apply switched_fpu, fpu_eq_refl. Qed.

Lemma switched_trans t1 t2 t3 : switched t1 t2 -> switched t2 t3 -> switched t1 t3.
Proof.
  intros (st1 & v1 & -> & H1) (st2 & v2 & -> & H2). exists st2, v2. split; [by destruct t1 as [? ? ? ? ? ? ? []]|].
  cbn in H2. destruct H1 as [-> |[? ?]], H2 as [-> |[? ?]]; auto.
Qed.

Lemma switched_status th st :
  ready st = true -> ready (status th) = true -> switched th (set_status st th).
Proof.
  intros Hst Hr. exists st, (fpu_state (mpu th)). split; [by destruct th as [? ? ? ? ? ? ? []]|by right].
Qed.

(** A switch changes the processor, the running thread, the record of
    interrupts and the bit map of the ready queues; no queue. *)
Record sframe k k' : Prop := {
  sf_eq : k' = set_cpu (cpu k') (set_sync (sync k') (set_running (running k')
    (set_ready_bits (ready_bits k') (set_threads (threads k') k))));
  sf_threads : same_threads switched (threads k) (threads k');
}.

Lemma sframe_refl k : sframe k k.
Proof. split; [by destruct k|apply same_threads_refl, switched_refl]. Qed.

Lemma sframe_trans k1 k2 k3 : sframe k1 k2 -> sframe k2 k3 -> sframe k1 k3.
Proof.
  intros [E1 T1] [E2 T2]. split.
  - rewrite E2, E1. by destruct k1.
  - eapply same_threads_trans; [exact switched_trans|done..].
Qed.

Lemma sframe_sync s k k' : sframe (set_sync s k) k' <-> sframe k k'.
Proof. split; intros [E HT]; split; [rewrite E; by destruct k|done|rewrite E; by destruct k|done]. Qed.

(** The thread for delayed calls has been notified. *)
Definition rung k Q k' Q' : Prop :=
  exists s r, notify_rel (set_sync s k) Q PORT_DELAY EVENT_INTERRUPT r k' Q'.

(** A dispatch: the thread for delayed calls is notified if that is due, and
    then the processor is switched. *)
Definition dispatched k Q k' Q' : Prop :=
  exists k1, (if delay_thread_start (sync k) then rung k Q k1 Q' else k1 = k /\ Q' = Q) /\ sframe k1 k'.

(** A dispatch may have happened. *)
Definition dframe k Q k' Q' : Prop := dispatched k Q k' Q' \/ Q' = Q /\ sframe k k'.

Lemma dframe_refl k Q : dframe k Q k Q.
Proof. right. split; [done|apply sframe_refl]. Qed.

Lemma dframe_dispatched k Q k' Q' : dispatched k Q k' Q' -> dframe k Q k' Q'.
Proof. by left. Qed.

Lemma dispatched_sync s k Q k' Q' :
  delay_thread_start s = delay_thread_start (sync k) -> dispatched (set_sync s k) Q k' Q' -> dispatched k Q k' Q'.
Proof.
  intros Es (k1 & Hr & HS). unfold dispatched. cbn in Hr. rewrite Es in Hr. destruct (delay_thread_start (sync k)).
  - exists k1. by split.
  - destruct Hr as [-> ->]. exists k. split; [done|]. by apply sframe_sync in HS.
Qed.

(** What is left of a thread by a switch or a notification: its state of
    readiness may change, and it may have been waiting for a flag that came. *)
Definition lrel (th th' : thread_t) : Prop :=
  sig_of th' = sig_of th /\ (status th' = TTS_DMT <-> status th = TTS_DMT) /\
  (wait_reason th' = wait_reason th \/
   flag_reason (wait_reason th) = true /\ wstate_of (wait_reason th') = WNone).

Lemma lrel_refl th : lrel th th.
Proof. split_and!; try done. by left. Qed.

Lemma lrel_trans t1 t2 t3 : lrel t1 t2 -> lrel t2 t3 -> lrel t1 t3.
Proof.
  intros (E1 & S1 & W1) (E2 & S2 & W2). split_and!; [congruence|tauto|].
  destruct W1 as [W1|[F1 W1]], W2 as [W2|[F2 W2]]; rewrite ?W1 in *; [by left|by right|right..].
  - by rewrite W2.
  - done.
Qed.

Lemma lrel_switched th th' : switched th th' -> lrel th th'.
Proof.
  intros (st & v & -> & Hst). split_and!; [done| |by left]. cbn. destruct Hst as [-> |[H1 H2]]; [done|].
  split; intros E; exfalso; [by rewrite E in H1|by rewrite E in H2].
Qed.

Record lframe k Q k' Q' : Prop := {
  lf_tree : reply_tree k' = reply_tree k;
  lf_threads : same_threads lrel (threads k) (threads k');
  lf_reply r : Q' !! LReply r = Q !! LReply r;
}.

Lemma lframe_trans k1 Q1 k2 Q2 k3 Q3 :
  lframe k1 Q1 k2 Q2 -> lframe k2 Q2 k3 Q3 -> lframe k1 Q1 k3 Q3.
Proof.
  intros [E1 T1 R1] [E2 T2 R2]. split.
  - by rewrite E2.
  - eapply same_threads_trans; [exact lrel_trans|done..].
  - intros r. by rewrite R2.
Qed.

Lemma same_threads_sub (R S : thread_t -> thread_t -> Prop) t1 t2 :
  (forall a b, R a b -> S a b) -> same_threads R t1 t2 -> same_threads S t1 t2.
Proof. intros HRS HR b. specialize (HR b). destruct (t1 !! b), (t2 !! b); auto. Qed.

Lemma sframe_lframe k k' Q : sframe k k' -> lframe k Q k' Q.
Proof. intros [E HT]. split; [by rewrite E|eapply same_threads_sub; [exact lrel_switched|done]|done]. Qed.

(** The running thread is the one that should run. *)
Definition scheduled k Q : Prop := exists p l, highest Q p (running k) l.

Lemma skippable_request s : interrupt_nest s = 0 -> no_request s = 1 -> dispatch_skippable s ≠ 0.
Proof.
  intros Hn Hr E. unfold dispatch_skippable in E. rewrite Hn, Hr in E.
  apply Z.lor_eq_0_iff in E as [_ E]. by apply Z.lor_eq_0_iff in E as [E _].
Qed.

(** A critical section that ends while no dispatch is requested. *)
Lemma leave_skip disp k (Φ : unit -> kern -> Prop) :
  interrupt_nest (sync k) = 0 -> no_request (sync k) = 1 ->
  Φ tt (set_sync (set_serializing 0 (sync k)) k) -> wp (leave_serialize_ disp) k Φ.
Proof.
  intros Hn Hr HΦ. unfold leave_serialize_. wp_step. wp_step. wp_step. wp_step. cbn.
  rewrite (proj2 (Z.eqb_neq _ _)); [by wp_step|]. by apply skippable_request.
Qed.

Lemma crit_sync k s :
  crit k -> interrupt_nest s = 0 -> (no_request s = 0 \/ no_request s = 1) -> crit (set_sync s k).
Proof. intros [] ? ?. by split. Qed.

Lemma kcrit_sync k Q s :
  kcrit k Q -> interrupt_nest s = 0 -> (no_request s = 0 \/ no_request s = 1) -> kcrit (set_sync s k) Q.
Proof. intros [HC HR] ? ?. split; [by eapply core_ext|by apply crit_sync]. Qed.

Lemma lrel_notified flg th : thread_ok th -> lrel th (notified flg th).
Proof.
  intros [_ Hw]. unfold notified. destruct (flag_waiter th) eqn:Hf; [|split_and!; try done; by left].
  unfold flag_waiter in Hf. apply andb_true_iff in Hf as [Hf1 Hf2]. split_and!; [done| |by right].
  apply waiting_cases in Hf1. unfold woken. cbn. by destruct Hf1 as [-> | ->].
Qed.

Lemma woken_queues_reply a th Q r : woken_queues a th Q !! LReply r = Q !! LReply r.
Proof. unfold woken_queues. destruct (_ =? _); [|done]. by rewrite lookup_insert_ne. Qed.

(** A thread that waits for a flag or a message holds no rendezvous. *)
Lemma unhook_reply k Q a th r :
  kcrit k Q -> threads k !! a = Some th -> wstate_of (wait_reason th) ≠ WReply ->
  unhook a Q !! LReply r = Q !! LReply r.
Proof.
  intros [HC _] Ha Hw. rewrite unhook_lookup. destruct (Q !! LReply r) as [l|] eqn:Hl; [|done]. cbn.
  rewrite filter_ne_id; [done|]. intros Hin.
  destruct (w_mem _ _ _ _ (c_w _ _ _ _ _ HC) _ _ a Hl Hin) as (t & Ht & Hf); [done|].
  rewrite (wsm_lookup _ _ _ Ha) in Ht. simplify_eq. by destruct (wstate_of _).
Qed.

Lemma notify_lframe k Q port_id flg r k' Q' :
  kcrit k Q -> notify_rel k Q port_id flg r k' Q' -> lframe k Q k' Q' /\ sync k' = set_serializing 1 (sync k) /\
    running k' = running k.
Proof.
  intros HK. unfold notify_rel.
  assert (Hser : lframe k Q (serialized k) Q).
  { split; [done|apply same_threads_refl, lrel_refl|done]. }
  destruct (km_map (thread_tree k) !! port_id) as [a|]; [|by intros (_ & -> & ->)].
  intros (th & Ha & Hr). destruct (status th =? TTS_DMT); [by destruct Hr as (_ & -> & ->)|].
  destruct Hr as (_ & Hq & Hth & ->). split; [|by rewrite Hq]. split.
  - by rewrite Hq.
  - rewrite Hth. eapply same_threads_insert; [apply lrel_refl|done|].
    apply lrel_notified. by apply (crit_threads _ (proj2 HK) a).
  - intros r'. unfold notified_queues. destruct (flag_waiter th) eqn:Hf; [|done].
    rewrite woken_queues_reply. eapply unhook_reply; [done|done|].
    unfold flag_waiter, flag_reason in Hf. apply andb_true_iff in Hf as [_ Hf]. unfold wstate_of. by destruct (wtype _).
Qed.

Lemma rung_lframe k Q k' Q' : kcrit k Q -> rung k Q k' Q' -> lframe k Q k' Q'.
Proof.
  intros [HC HR] (s & r & Hn).
  assert (HK : forall s, crit (set_sync s k) -> kcrit (set_sync s k) Q) by (intros s' ?; split; [by eapply core_ext|done]).
  destruct (notify_lframe (set_sync (sync k) k) Q PORT_DELAY EVENT_INTERRUPT r
    (set_sync (set_serializing 1 (sync k)) k') Q') as ([E HT HQ] & _); [apply HK; by destruct HR|..|by split].
  unfold notify_rel in *. cbn in *. destruct (km_map (thread_tree k) !! PORT_DELAY) as [a|].
  - destruct Hn as (th & Ha & Hn). exists th. split; [done|]. destruct (status th =? TTS_DMT).
    + destruct Hn as (-> & -> & ->). done.
    + destruct Hn as (-> & Hq & Et & ->). split_and!; [done| |done|done]. rewrite Hq. done.
  - by destruct Hn as (-> & -> & ->).
Qed.

Lemma dframe_lframe k Q k' Q' : kcrit k Q -> dframe k Q k' Q' -> lframe k Q k' Q'.
Proof.
  intros HK [(k1 & Hr & HS)|[-> HS]]; [|by apply sframe_lframe]. destruct (delay_thread_start (sync k)).
  - eapply lframe_trans; [by apply rung_lframe|by apply sframe_lframe].
  - destruct Hr as [-> ->]. by apply sframe_lframe.
Qed.

(** Marking a ready thread as running, or a running one as ready. *)
Lemma kcore_status k Q a th st :
  kcore k Q -> threads k !! a = Some th -> ready st = true -> ready (status th) = true ->
  kcore (set_threads (<[a := set_status st th]> (threads k)) k) Q.
Proof.
  intros HC Ha Hst Hr. unfold kcore. cbn.
  rewrite (sgm_update _ _ _ _ Ha), (wsm_update _ _ _ _ Ha) by done.
  rewrite (rdm_update _ _ _ _ Ha) by (done || cbn; congruence).
  apply core_upd; [done|]. by eapply elem_of_dom_2.
Qed.

Lemma thread_ok_status th st :
  thread_ok th -> ready st = true -> ready (status th) = true -> thread_ok (set_status st th).
Proof.
  intros [Hv Hw] Hst Hr. split.
  - unfold valid_status. unfold ready in Hst. apply orb_true_iff in Hst as [E|E]; apply Z.eqb_eq in E; subst; set_solver.
  - assert (waiting st = false).
    { destruct (waiting st) eqn:E; [|done]. apply waiting_not_ready in E. congruence. }
    assert (waiting (status th) = false).
    { destruct (waiting (status th)) eqn:E; [|done]. apply waiting_not_ready in E. congruence. }
    cbn. rewrite H. rewrite H0 in Hw. done.
Qed.

(** Giving the processor to [a], ready, from the thread that had it. *)
Lemma switch_spec k Q p a l th tha :
  kcrit k Q -> highest Q p a l -> threads k !! running k = Some th -> threads k !! a = Some tha ->
  a ≠ running k ->
  let k1 := if status th =? TTS_RUN
            then set_threads (<[running k := set_status TTS_RDY th]> (threads k)) k else k in
  wp (context_switch a) (set_running a (set_threads (<[a := set_status TTS_RUN tha]> (threads k1)) k1))
    (λ _ k', kcrit k' Q /\ running k' = a /\ sync k' = sync k /\ sframe k k').
Proof.
  intros HK Hh Hth Hta Hne k1. pose proof HK as [HC HR].
  destruct (highest_ready _ _ _ _ _ HK Hh) as (tha' & Hta' & Hra & _). simplify_eq.
  assert (Hk1 : kcore k1 Q /\ threads k1 !! a = Some tha /\ same_threads switched (threads k) (threads k1) /\
    (forall b tb, threads k1 !! b = Some tb -> thread_ok tb /\ status tb ≠ TTS_RUN \/ b = a) /\
    k1 = set_threads (threads k1) k /\
    (forall b tb, threads k !! b = Some tb -> exists tb', threads k1 !! b = Some tb' /\
       sig_of tb' = sig_of tb /\ (ready (status tb) = true -> ready (status tb') = true))).
  { unfold k1. destruct (Z.eqb_spec (status th) TTS_RUN) as [E|E].
    - assert (Hr : ready (status th) = true) by (by rewrite E).
      split_and!; [by apply kcore_status|by cbn; rewrite lookup_insert_ne| | | |].
      + cbn. eapply same_threads_insert; [apply switched_refl|done|]. by apply switched_status.
      + cbn. intros b tb. rewrite lookup_insert_Some. intros [[<- <-]|[Hb Htb]]; left.
        * split; [|done]. apply thread_ok_status; [|done..]. by apply (crit_threads _ HR (running k)).
        * split; [by apply (crit_threads _ HR b)|]. intros E'. by apply Hb; symmetry; eapply (crit_only _ HR).
      + done.
      + cbn. intros b tb Hb. destruct (decide (b = running k)) as [->|].
        * simplify_eq. eexists. rewrite lookup_insert_eq. by split_and!.
        * exists tb. by rewrite lookup_insert_ne.
    - split_and!; try done; [apply same_threads_refl, switched_refl| |by destruct k|eauto].
      intros b tb Htb. left. split; [by apply (crit_threads _ HR b)|]. intros E'.
      assert (b = running k) as -> by (by eapply (crit_only _ HR)). congruence. }
  destruct Hk1 as (HC1 & Hta1 & Hs1 & Hok1 & Ek1 & Hsig1). clearbody k1.
  set (k2 := set_running a (set_threads (<[a := set_status TTS_RUN tha]> (threads k1)) k1)).
  assert (HC2 : kcore k2 Q).
  { apply (core_ext (set_threads (<[a := set_status TTS_RUN tha]> (threads k1)) k1)); try done.
    by apply kcore_status. }
  assert (Ha2 : threads k2 !! a = Some (set_status TTS_RUN tha)) by apply lookup_insert_eq.
  eapply wp_mono; [by apply (context_switch_spec k2 Q a _ HC2 Ha2)|].
  intros [] k' (HC' & Ek' & Hload & Hkt & Hs').
  assert (Hrun : running k' = a) by (by rewrite Ek').
  assert (Hsync : sync k' = sync k) by (rewrite Ek'; cbn; by rewrite Ek1).
  assert (Htree : thread_tree k' = thread_tree k) by (rewrite Ek'; cbn; by rewrite Ek1).
  assert (Hs2 : same_threads switched (threads k) (threads k2)).
  { eapply same_threads_trans; [exact switched_trans|exact Hs1|]. cbn.
    eapply same_threads_insert; [apply switched_refl|done|]. by apply switched_status. }
  assert (Hall : same_threads switched (threads k) (threads k')).
  { eapply same_threads_trans; [exact switched_trans|exact Hs2|]. eapply same_threads_sub; [exact switched_fpu|done]. }
  split; [|split; [done|split; [done|]]].
  2:{ split; [|done]. rewrite Ek'. unfold k2. rewrite Ek1. by destruct k. }
  split; [done|].
  assert (Hinv : forall b tb', threads k' !! b = Some tb' -> exists tb2, threads k2 !! b = Some tb2 /\ fpu_eq tb2 tb').
  { intros b tb' Hb. specialize (Hs' b). rewrite Hb in Hs'. destruct (threads k2 !! b); [eauto|done]. }
  split; rewrite ?Hrun, ?Hsync.
  - intros b tb' Hb. destruct (Hinv b tb' Hb) as (tb2 & Hb2 & [v ->]). unfold k2 in Hb2. cbn in Hb2.
    apply lookup_insert_Some in Hb2 as [[<- <-]|[Hbne Hb2]].
    + destruct (thread_ok_status tha TTS_RUN) as [? ?]; [by apply (crit_threads _ HR a)|done..|]. by split.
    + destruct (Hok1 b tb2 Hb2) as [[[? ?] _]|?]; [by split|done].
  - destruct (crit_idle _ HR) as (i & ti & Hi & Hti & Hri & Hpi). exists i. rewrite Htree.
    destruct (Hsig1 i ti Hti) as (ti1 & Hti1 & Hsi & Hri1).
    apply sig_of_eq in Hsi as (_ & Hp1 & _).
    assert (exists ti2, threads k2 !! i = Some ti2 /\ ready (status ti2) = true /\ priority ti2 = MAX_PRIORITY)
      as (ti2 & Hti2 & Hr2 & Hp2).
    { unfold k2. cbn. destruct (decide (i = a)) as [->|].
      - simplify_eq. eexists. rewrite lookup_insert_eq. by split_and!.
      - exists ti1. rewrite lookup_insert_ne by done. split_and!; [done|auto|congruence]. }
    specialize (Hs' i). rewrite Hti2 in Hs'. destruct (threads k' !! i) as [ti'|] eqn:Hti'; [|done].
    destruct Hs' as [v ->]. eexists. split_and!; done.
  - intros b tb' Hb Hst. destruct (Hinv b tb' Hb) as (tb2 & Hb2 & [v ->]). unfold k2 in Hb2. cbn in Hb2, Hst.
    apply lookup_insert_Some in Hb2 as [[<- <-]|[Hbne Hb2]]; [done|].
    destruct (Hok1 b tb2 Hb2) as [[_ ?]|?]; [congruence|done].
  - intros tr Htr Hk. rewrite Hrun in *. destruct (Hinv a tr Htr) as (tb2 & Hb2 & [v ->]). simplify_eq.
    destruct (Hload Hk) as (H1 & H2 & _). done.
  - specialize (Hs' a). rewrite Ha2 in Hs'. by destruct (threads k' !! a).
  - apply (crit_nest _ HR).
  - apply (crit_request _ HR).
Qed.

Lemma dispatch_spec_ disp k Q :
  kcrit k Q -> serializing (sync k) = 0 ->
  wp (dispatch_ disp) k (λ _ k', exists Q', kcrit k' Q' /\ scheduled k' Q' /\ dispatched k Q k' Q' /\
    sync k' = Sync 0 1 0 false).
Proof.
  intros HK Hser. pose proof (crit_nest _ (proj2 HK)) as Hnest. unfold dispatch_. wp_step. wp_step.
  rewrite Hser. cbn. wp_step. wp_step.
  set (k1 := set_sync (set_no_request 1 (sync k)) k).
  assert (HK1 : kcrit k1 Q) by (apply kcrit_sync; auto).
  (* the part after the notification of the delay thread *)
  assert (Hrest : forall k2 Q2, kcrit k2 Q2 -> sync k2 = Sync 0 1 0 false ->
    (forall k', sframe k2 k' -> dispatched k Q k' Q2) ->
    wp (prev ← gets running; next ← ready_dequeue;
        if bool_decide (next = Some prev) then mret tt
        else
          th ← thread prev;
          (if status th =? TTS_RUN then upd_thread prev (set_status TTS_RDY) else mret tt);;
          next ← some next;
          upd_thread next (set_status TTS_RUN);;
          modify (set_running next);;
          context_switch next) k2
      (λ _ k', exists Q', kcrit k' Q' /\ scheduled k' Q' /\ dispatched k Q k' Q' /\
         sync k' = Sync 0 1 0 false)).
  { intros k2 Q2 HK2 Hs2 HD2. wp_step. wp_step. wp_step.
    eapply wp_mono; [by apply ready_dequeue_spec|].
    intros o k3 (p & a & l & -> & Hh & E3 & HK3).
    assert (Hrun3 : running k3 = running k2) by (by rewrite E3).
    assert (Hs3 : sync k3 = Sync 0 1 0 false) by (by rewrite E3).
    assert (HS3 : sframe k2 k3).
    { rewrite E3. split; [by destruct k2|apply same_threads_refl, switched_refl]. }
    destruct (decide (a = running k2)) as [->|Hne].
    { rewrite bool_decide_true by done. wp_step. exists Q2. split_and!; [done| |by apply HD2|done].
      exists p, l. by rewrite Hrun3. }
    rewrite bool_decide_false by congruence.
    destruct (crit_run _ (proj2 HK3)) as [th Hth].
    destruct (highest_ready _ _ _ _ _ HK3 Hh) as (tha & Hta & _).
    rewrite <- Hrun3 in Hne |- *. wp_step. eapply wp_thread; [done|].
    pose proof (switch_spec k3 Q2 p a l th tha HK3 Hh Hth Hta Hne) as Hsw. cbv zeta in Hsw.
    wp_step. eapply wp_mono with (Φ := λ _ k', k' = if status th =? TTS_RUN
      then set_threads (<[running k3 := set_status TTS_RDY th]> (threads k3)) k3 else k3).
    { destruct (status th =? TTS_RUN); [|by wp_step]. by eapply wp_upd_thread. }
    intros [] k4 E4. rewrite <- E4 in Hsw. wp_step. apply wp_some. wp_step. eapply wp_upd_thread.
    { rewrite E4. destruct (status th =? TTS_RUN); [|done]. cbn. by rewrite lookup_insert_ne. }
    wp_step. wp_step. eapply wp_mono; [exact Hsw|].
    intros [] k5 (HK5 & Hrun5 & Hs5 & HS5). exists Q2. split_and!; [done| | |congruence].
    - exists p, l. by rewrite Hrun5.
    - apply HD2. by eapply sframe_trans. }
  wp_step. destruct (delay_thread_start (sync k)) eqn:Hdel.
  - wp_step. wp_step. wp_step.
    assert (HK2 : kcrit (set_sync (set_delay_thread_start false (sync k1)) k1) Q).
    { apply kcrit_sync; [done|exact Hnest|by right]. }
    eapply notify_spec; [exact HK2|]. intros r k2 Q2 HK2' Hrel.
    destruct (notify_lframe _ _ _ _ _ _ _ HK2 Hrel) as (_ & Hs2 & _). cbn in Hs2.
    apply leave_skip; [by rewrite Hs2|by rewrite Hs2|]. wp_step. apply (Hrest _ Q2).
    + apply kcrit_sync; [done|by rewrite Hs2|rewrite Hs2; by right].
    + cbn. rewrite Hs2. unfold k1. cbn. unfold set_serializing. cbn. by rewrite Hnest.
    + intros k' HS. exists k2. rewrite Hdel. split; [|by apply sframe_sync in HS]. by eexists _, r.
  - wp_step. apply (Hrest _ Q); [done| |].
    + unfold k1. cbn. destruct (sync k); cbn in *. by subst.
    + intros k' HS. exists k. rewrite Hdel. split; [done|]. by apply sframe_sync in HS.
Qed.

Lemma dispatch_spec k Q :
  kcrit k Q -> serializing (sync k) = 0 ->
  wp dispatch k (λ _ k', exists Q', kcrit k' Q' /\ scheduled k' Q' /\ dispatched k Q k' Q' /\
    sync k' = Sync 0 1 0 false).
Proof. apply dispatch_spec_. Qed.

Lemma scheduled_ready k Q : kcrit k Q -> scheduled k Q -> is_Some (rdm (threads k) !! running k).
Proof.
  intros HK (p & l & Hh). destruct (highest_ready _ _ _ _ _ HK Hh) as (th & Hth & Hr & _).
  rewrite (rdm_lookup _ _ _ Hth), Hr. by eexists.
Qed.

(** ** The end of a critical section *)

Lemma leave_serialize_spec k Q :
  kcrit k Q -> is_Some (rdm (threads k) !! running k) ->
  wp leave_serialize k (λ _ k', exists Q', kernel_at k' Q' /\ dframe k Q k' Q').
Proof.
  intros HK Hr. unfold leave_serialize, leave_serialize_. wp_step. wp_step. wp_step. wp_step.
  set (k1 := set_sync (set_serializing 0 (sync k)) k).
  assert (HK1 : kcrit k1 Q).
  { apply kcrit_sync; [done|apply (crit_nest _ (proj2 HK))|apply (crit_request _ (proj2 HK))]. }
  destruct (_ =? 0).
  - eapply wp_mono; [by apply (dispatch_spec k1 Q)|]. intros [] k' (Q' & HK' & Hs & HD & Es).
    exists Q'. split; [|left; by eapply dispatched_sync; [|exact HD]]. split; [done|]. split; [by eapply scheduled_ready|].
    by rewrite Es.
  - wp_step. exists Q. split; [by split_and!|]. right. split; [done|]. apply (sframe_sync (set_serializing 0 (sync k))), sframe_refl.
Qed.

(** A dispatch is due: the best thread runs afterwards. *)
Lemma leave_serialize_and_dispatch_spec k Q :
  kcrit k Q ->
  wp leave_serialize_and_dispatch k (λ _ k', exists Q', kernel_at k' Q' /\ scheduled k' Q' /\ dispatched k Q k' Q' /\
    sync k' = Sync 0 1 0 false).
Proof.
  intros HK. unfold leave_serialize_and_dispatch, leave_serialize, leave_serialize_. do 6 wp_step.
  set (k1 := set_sync (set_serializing 0 (set_no_request 0 (sync k))) k).
  assert (Hn : interrupt_nest (sync k) = 0) by apply (crit_nest _ (proj2 HK)).
  assert (HK1 : kcrit k1 Q) by (apply kcrit_sync; auto).
  cbn. assert (dispatch_skippable (set_serializing 0 (set_no_request 0 (sync k))) = 0) as ->.
  { unfold dispatch_skippable. cbn. by rewrite Hn. }
  cbn. eapply wp_mono; [by apply (dispatch_spec k1 Q)|]. intros [] k' (Q' & HK' & Hs & HD & Es).
  exists Q'. split_and!; [|done|by eapply dispatched_sync; [|exact HD]|done].
  split; [done|]. split; [by eapply scheduled_ready|]. by rewrite Es.
Qed.

End Sched.

(** The code that opens every operation. *)
Ltac wp_enter := unfold enter_serialize; wp_step; wp_step;
  match goal with |- wp _ (set_sync (set_serializing 1 (sync ?k)) ?k) _ => fold (serialized k) end.
