(* ===== verification/KThreadOk.v ===== *)
(** * The operations on threads keep the invariant

    Each operation of kernel/thread.c, from a state that satisfies the kernel
    invariant: it is defined, what it does to the thread and the queues in its
    critical section, and that the invariant holds when it returns. *)

From S2P Require Import Prelude Lists AATree Bitmap Sequence Palloc KTypes KState KSched KThread.
From S2P Require Import KIpc Queues KQueues KInv KSteps KObjects KHoare KSchedOk.

Section Threads.
Context {P : Platform} `{!KeyMapLaws pf_tree} `{!KernelMemoryLaws pf_memory}.
Notation kern := (kernel rings).
Implicit Types k : kern.
Implicit Types Q : queues.

(** ** Leaving and joining the ready queues *)

Definition unready (a : Z) (Q : queues) : queues :=
  map_imap (λ g l, Some (match g with LReady _ => filter (λ x, x ≠ a) l | _ => l end)) Q.

Lemma unready_lookup a Q g :
  unready a Q !! g = (λ l, match g with LReady _ => filter (λ x, x ≠ a) l | _ => l end) <$> Q !! g.
Proof. unfold unready. rewrite map_lookup_imap. by destruct (Q !! g). Qed.

Lemma unready_one k Q sg rd ws p l a :
  core k Q sg rd ws -> Q !! LReady p = Some l -> rd !! a = Some p ->
  <[LReady p := filter (λ x, x ≠ a) l]> Q = unready a Q.
Proof.
  intros HC Hg Ha. apply map_eq. intros g. rewrite unready_lookup.
  destruct (decide (g = LReady p)) as [->|Hne]; [by rewrite lookup_insert_eq, Hg|].
  rewrite lookup_insert_ne by done. destruct (Q !! g) as [l'|] eqn:Hl'; [|done]. cbn.
  destruct g; try done. rewrite filter_ne_id; [done|]. intros Hin.
  apply (rq_mem _ _ _ (c_rq _ _ _ _ _ HC) _ _ _ Hl') in Hin. congruence.
Qed.

(** A thread is taken off its ready queue, if it is on one. *)
Lemma unready_spec k Q sg ws a th :
  core k Q sg (rdm (threads k)) ws -> threads k !! a = Some th -> ready (status th) = true ->
  exists A', ring_remove (lists k) (LQueue a) = Some A' /\
    core (set_lists A' k) (unready a Q) sg (delete a (rdm (threads k))) ws.
Proof.
  intros HC Ha Hr. pose proof (rdm_lookup _ _ _ Ha) as Hrd. rewrite Hr in Hrd.
  pose proof (rq_range _ _ _ (c_rq _ _ _ _ _ HC) _ _ Hrd) as Hp.
  destruct (proj2 (rq_dom _ _ _ (c_rq _ _ _ _ _ HC) (priority th)) Hp) as [l Hl].
  destruct (core_unready _ _ _ _ _ _ l a HC Hl Hrd) as (A' & HA & HC').
  exists A'. split; [done|]. by erewrite <- unready_one.
Qed.

(** A ready thread [a] that is not the idle thread stops being ready. *)
Lemma park k k' Q a th th' :
  crit k -> threads k !! a = Some th -> km_map (thread_tree k) !! PORT_IDLE ≠ Some a ->
  core k' Q (sgm (threads k)) (delete a (rdm (threads k)))
    (<[a := wstate_of (wait_reason th')]> (wsm (threads k))) ->
  threads k' = <[a := th']> (threads k) -> sig_of th' = sig_of th -> thread_ok th' ->
  ready (status th') = false ->
  thread_tree k' = thread_tree k -> running k' = running k -> cpu k' = cpu k -> sync k' = sync k ->
  kcrit k' Q.
Proof.
  intros HR Ha Hi HC Et Hs Hok Hnr Ett Er Ec Es. split.
  - rewrite Et, (sgm_update _ _ _ _ Ha Hs), rdm_insert, Hnr, wsm_insert. done.
  - eapply (crit_ext (set_threads (<[a := th']> (threads k)) k)); [|done..].
    eapply crit_upd; [done|done|done|done|by left|]. intros E. rewrite E in Hnr. done.
Qed.

(** ** End *)

Definition ended (th : thread_t) : thread_t := set_status TTS_DMT th.

Lemma ended_ok th : wstate_of (wait_reason th) = WNone -> thread_ok (ended th).
Proof. intros E. split; [unfold valid_status; set_solver|]. cbn. rewrite E. by split. Qed.

Lemma ready_wnone th : thread_ok th -> ready (status th) = true -> wstate_of (wait_reason th) = WNone.
Proof.
  intros [_ Hw] Hr. destruct (decide (waiting (status th) = true)) as [E|E].
  - apply waiting_not_ready in E. congruence.
  - destruct (wstate_of (wait_reason th)); try done; exfalso; apply E, Hw; done.
Qed.

Lemma wsm_self ths a th : ths !! a = Some th ->
  <[a := wstate_of (wait_reason th)]> (wsm ths) = wsm ths.
Proof. intros Ha. apply insert_id. by apply wsm_lookup. Qed.

(** A ready thread becomes dormant or suspended. *)
Lemma park_status k Q a th st :
  kcrit k Q -> threads k !! a = Some th -> ready (status th) = true ->
  km_map (thread_tree k) !! PORT_IDLE ≠ Some a -> st = TTS_DMT \/ st = TTS_SUS ->
  exists A', ring_remove (lists k) (LQueue a) = Some A' /\
    kcrit (set_lists A' (set_threads (<[a := set_status st th]> (threads k)) k)) (unready a Q).
Proof.
  intros [HC HR] Ha Hr Hi Hst. destruct (unready_spec _ _ _ _ _ _ HC Ha Hr) as (A' & HA & HC').
  exists A'. split; [done|].
  assert (Hw : wstate_of (wait_reason th) = WNone) by (apply ready_wnone; [by apply (crit_threads _ HR a)|done]).
  eapply (park k _ _ a th (set_status st th)); try done.
  - cbn [set_status wait_reason]. rewrite (wsm_self _ _ _ Ha).
    eapply (core_ext (set_threads (<[a := set_status st th]> (threads k)) (set_lists A' k))); [|done..].
    apply (core_upd (set_lists A' k)); [done|]. by eapply elem_of_dom_2.
  - split; [|cbn; rewrite Hw]; destruct Hst as [-> | ->]; try done; unfold valid_status; cbn; set_solver.
  - by destruct Hst as [-> | ->].
Qed.

Lemma thread_end_spec k Q th :
  kcrit k Q -> threads k !! running k = Some th -> ready (status th) = true ->
  km_map (thread_tree k) !! PORT_IDLE ≠ Some (running k) ->
  wp thread_end k (λ _ k', exists k1 Q', kcrit k1 (unready (running k) Q) /\
    threads k1 = <[running k := ended th]> (threads k) /\ qframe (serialized k) k1 /\
    kernel_at k' Q' /\ scheduled k' Q' /\ dframe k1 (unready (running k) Q) k' Q').
Proof.
  intros HK0 Ha Hr Hi. pose proof (kcrit_serialized _ _ HK0) as HK.
  destruct (park_status (serialized k) Q (running k) th TTS_DMT HK) as (A' & HA' & HK'); [done|done|done|by left|].
  unfold thread_end. wp_enter. do 2 wp_step. cbn.
  wp_step. eapply wp_remove; [exact HA'|]. wp_step. eapply wp_upd_thread; [done|].
  eapply wp_mono.
  - apply (leave_serialize_and_dispatch_spec _ (unready (running k) Q)). exact HK'.
  - intros [] k' (Q' & H1 & H2 & H3 & _). do 2 eexists. split_and!; [exact HK'|done|done|done|done|by apply dframe_dispatched].
Qed.

(** ** Delayed calls *)

(** [icall->handle] touches the queue of delayed calls and the request for a
    dispatch only. *)
Lemma delayed_handle_spec k Q c x y :
  kcrit k Q ->
  wp (delayed_handle c x y) k (λ r k', kcrit k' Q /\ (r = E_OK \/ r = E_TMOUT) /\
    k' = set_kqueue (kqueue k') (set_sync (sync k') k) /\
    (r = E_OK -> kq_put (kqueue k) (DelayParam c x y) = (true, kqueue k') /\
       delay_thread_start (sync k') = true)).
Proof.
  intros HK. unfold delayed_handle. wp_step.
  destruct (kq_put (kqueue k) (DelayParam c x y)) as [b q] eqn:Eq.
  exists b, (set_kqueue q k). split; [by rewrite Eq|].
  assert (HK1 : kcrit (set_kqueue q k) Q).
  { destruct HK as [HC HR]. split; [by eapply core_ext|by eapply crit_ext]. }
  destruct b; cbn.
  - do 5 wp_step. split_and!; [|by left|by destruct k|done].
    apply (kcrit_sync (set_kqueue q k)); [done|apply (crit_nest _ (proj2 HK))|by left].
  - wp_step. split_and!; [done|by right|by destruct k|done].
Qed.

Lemma thread_end_and_destroy_spec k Q th :
  kernel_at k Q -> threads k !! running k = Some th -> km_map (thread_tree k) !! PORT_IDLE ≠ Some (running k) ->
  wp thread_end_and_destroy k (λ _ k', exists k1 Q', kcrit k1 (unready (running k) Q) /\
    threads k1 = <[running k := ended th]> (threads k) /\
    qframe (set_kqueue (kqueue k1) (set_sync (sync k1) k)) k1 /\
    kernel_at k' Q' /\ scheduled k' Q' /\ dframe k1 (unready (running k) Q) k' Q').
Proof.
  intros (HK0 & Hrun & _) Ha Hi. pose proof (kcrit_serialized _ _ HK0) as HK.
  assert (Hr : ready (status th) = true).
  { rewrite (rdm_lookup _ _ _ Ha) in Hrun. destruct (ready (status th)); [done|by destruct Hrun]. }
  unfold thread_end_and_destroy. wp_enter. do 3 wp_step. eapply wp_thread; [done|]. wp_step.
  eapply wp_mono; [by apply delayed_handle_spec|]. intros r k1 (HK1 & _ & E1 & _).
  eapply wp_mono.
  - apply (thread_end_spec k1 Q th HK1); try rewrite E1; done.
  - intros [] k' (k2 & Q' & H1 & H2 & H3 & H4). rewrite E1 in H1, H2, H3, H4. cbn in *.
    exists k2, Q'. split_and!; try done; [|by destruct H4 as (?&?&?)..].
    rewrite H3. by destruct k.
Qed.

(** ** Termination *)

Definition terminate_rel k Q (id r : Z) k1 Q1 : Prop :=
  match km_map (thread_tree k) !! id with
  | None => r = E_NOEXS /\ k1 = serialized k /\ Q1 = Q
  | Some a => exists th, threads k !! a = Some th /\
      if status th =? TTS_RUN then r = E_ILUSE /\ k1 = serialized k /\ Q1 = Q
      else if status th =? TTS_DMT then r = E_OBJ /\ k1 = serialized k /\ Q1 = Q
      else r = E_OK /\ qframe (serialized k) k1 /\
        threads k1 = <[a := ended (if waiting (status th) then set_wait (set_wtype wait_none) th else th)]>
                       (threads k) /\
        Q1 = if status th =? TTS_RDY then unready a Q else if waiting (status th) then unhook a Q else Q
  end.

Lemma valid_cases st : valid_status st ->
  st = TTS_RUN \/ st = TTS_RDY \/ st = TTS_WAI \/ st = TTS_SUS \/ st = TTS_WAS \/ st = TTS_DMT.
Proof. unfold valid_status. set_solver. Qed.

(** A suspended thread becomes dormant, off every queue. *)
Lemma dormant_spec k Q a th :
  kcrit k Q -> threads k !! a = Some th -> status th = TTS_SUS ->
  kcrit (set_threads (<[a := ended th]> (threads k)) k) Q.
Proof.
  intros [HC HR] Ha Hst. destruct (crit_threads _ HR a th Ha) as [_ Hw]. rewrite Hst in Hw.
  assert (Hwn : wstate_of (wait_reason th) = WNone).
  { destruct (wstate_of (wait_reason th)); try done; exfalso; by assert (false = true) by (by apply Hw). }
  assert (Hi : km_map (thread_tree k) !! PORT_IDLE ≠ Some a).
  { intros E. destruct (crit_idle _ HR) as (b & tb & Hb & Htb & Hrb & _). simplify_eq. by rewrite Hst in Hrb. }
  assert (Hrd : rdm (threads k) !! a = None) by (by rewrite (rdm_lookup _ _ _ Ha), Hst).
  eapply (park k _ _ a th (ended th)); try done; [|by apply ended_ok].
  cbn [ended set_status wait_reason]. rewrite (wsm_self _ _ _ Ha), delete_id by done.
  apply core_upd; [done|]. by eapply elem_of_dom_2.
Qed.

(** A waiting thread becomes dormant. *)
Lemma unhooked_ended k Q a th :
  unhooked k Q a -> threads k !! a = Some th -> waiting (status th) = true ->
  kcrit (set_threads (<[a := ended (set_wait (set_wtype wait_none) th)]> (threads k)) k) Q.
Proof.
  intros [HC HR] Ha Hw. pose proof (waiting_not_ready _ Hw) as Hnr.
  assert (Hi : km_map (thread_tree k) !! PORT_IDLE ≠ Some a).
  { intros E. destruct (crit_idle _ HR) as (b & tb & Hb & Htb & Hrb & _). congruence. }
  assert (Hrd : rdm (threads k) !! a = None) by (by rewrite (rdm_lookup _ _ _ Ha), Hnr).
  eapply (park k _ _ a th); try done; [|by apply ended_ok].
  cbn [ended set_status set_wait wait_reason]. rewrite delete_id by done.
  apply core_upd; [done|]. by eapply elem_of_dom_2.
Qed.

(** The end of an operation: [leave_serialize], then the result. *)
Lemma leave_ret {X} k Q (r : X) (Φ : X -> kern -> Prop) :
  kcrit k Q -> is_Some (rdm (threads k) !! running k) ->
  (forall k' Q', kernel_at k' Q' -> dframe k Q k' Q' -> Φ r k') ->
  wp (leave_serialize;; mret r) k Φ.
Proof.
  intros HK Hr HΦ. wp_step. eapply wp_mono; [by apply leave_serialize_spec|].
  intros [] k' (Q' & H1 & H2). wp_step. by eapply HΦ.
Qed.

Lemma rdm_other ths a b th th' :
  ths !! b = Some th' -> b ≠ a -> rdm (<[a := th]> ths) !! b = rdm ths !! b.
Proof.
  intros Hb Hne. rewrite rdm_insert. destruct (ready (status th)).
  - by rewrite lookup_insert_ne.
  - by rewrite lookup_delete_ne.
Qed.

Lemma thread_terminate_spec k Q id :
  kernel_at k Q -> id ≠ PORT_IDLE ->
  (km_map (thread_tree k) !! id = Some (running k) -> forall th, threads k !! running k = Some th ->
     status th = TTS_RUN) ->
  wp (thread_terminate id) k (λ r k', exists k1 Q1 Q', kcrit k1 Q1 /\ terminate_rel k Q id r k1 Q1 /\
    kernel_at k' Q' /\ dframe k1 Q1 k' Q').
Proof.
  intros (HK0 & Hrun & _) Hid Hself. pose proof (kcrit_serialized _ _ HK0) as HK.
  destruct (crit_run _ (proj2 HK0)) as [thr Hthr].
  assert (Hend : forall r k1 Q1, kcrit k1 Q1 -> terminate_rel k Q id r k1 Q1 ->
    running k1 = running k -> is_Some (rdm (threads k1) !! running k) ->
    wp (leave_serialize;; mret r) k1 (λ r k', exists k1 Q1 Q', kcrit k1 Q1 /\ terminate_rel k Q id r k1 Q1 /\
      kernel_at k' Q' /\ dframe k1 Q1 k' Q')).
  { intros r k1 Q1 HK1 Hrel Er Hr1. eapply leave_ret; [done|by rewrite Er|]. intros k' Q' ? ?. by exists k1, Q1, Q'. }
  unfold thread_terminate. wp_enter. wp_step. unfold get_thread_ptr, thread_tree_get. wp_step. cbn.
  rewrite (tree_lookup _ _ _ HK0). wp_step. unfold terminate_rel in *.
  destruct (km_map (thread_tree k) !! id) as [a|] eqn:Hp.
  2:{ wp_step. by eapply Hend. }
  destruct (tree_thread _ _ _ _ HK0 Hp) as (th & Ha & Hkey).
  destruct (crit_threads _ (proj2 HK0) a th Ha) as [Hv Hwi].
  assert (Hi : km_map (thread_tree k) !! PORT_IDLE ≠ Some a).
  { intros E. destruct (tree_thread _ _ _ _ HK0 E) as (th' & Ha' & Hk'). rewrite Ha in Ha'. congruence. }
  assert (Hne : status th ≠ TTS_RUN -> running k ≠ a).
  { intros Hst E. subst a. by eapply Hst, Hself. }
  wp_step. eapply wp_thread; [done|].
  destruct (valid_cases _ Hv) as [E|[E|[E|[E|[E|E]]]]]; rewrite E in *; cbn.
  - wp_step. eapply Hend; [done| |done|done]. exists th. by rewrite E.
  - destruct (park_status (serialized k) Q a th TTS_DMT HK) as (A' & HA' & HK'); [done|by rewrite E|done|by left|].
    wp_step. eapply wp_remove; [exact HA'|]. wp_step. eapply wp_upd_thread; [done|]. wp_step.
    eapply Hend; [exact HK'| |done|].
    + exists th. rewrite E. by split_and!.
    + cbn. rewrite (rdm_other _ _ _ _ thr) by auto. done.
  - destruct (unhook_spec (serialized k) Q a th HK) as (A' & HA' & HU); [done|by apply Hwi|].
    rewrite bool_decide_false by (intros Ew; apply Hwi; [done|unfold wstate_of; by rewrite Ew]).
    cbn. do 2 wp_step. eapply wp_upd_thread; [done|]. eapply wp_remove; [exact HA'|].
    wp_step. eapply wp_upd_thread; [apply lookup_insert_eq|]. kred. wp_step.
    pose proof (unhooked_ended _ _ a th HU Ha) as HK'. rewrite E in HK'.
    eapply Hend; [by apply HK'| |done|].
    + exists th. rewrite E. split; [done|]. by split_and!.
    + cbn. rewrite (rdm_other _ _ _ _ thr) by auto. done.
  - wp_step. rewrite Z.eqb_refl, orb_true_r. wp_step. wp_step. eapply wp_upd_thread; [done|]. wp_step.
    eapply Hend; [by apply dormant_spec| |done|].
    + exists th. rewrite E. by split_and!.
    + cbn. rewrite (rdm_other _ _ _ _ thr) by auto. done.
  - destruct (unhook_spec (serialized k) Q a th HK) as (A' & HA' & HU); [done|by apply Hwi|].
    rewrite bool_decide_false by (intros Ew; apply Hwi; [done|unfold wstate_of; by rewrite Ew]).
    cbn. do 2 wp_step. eapply wp_upd_thread; [done|]. eapply wp_remove; [exact HA'|].
    wp_step. eapply wp_upd_thread; [apply lookup_insert_eq|]. kred. wp_step.
    pose proof (unhooked_ended _ _ a th HU Ha) as HK'. rewrite E in HK'.
    eapply Hend; [by apply HK'| |done|].
    + exists th. rewrite E. split; [done|]. by split_and!.
    + cbn. rewrite (rdm_other _ _ _ _ thr) by auto. done.
  - wp_step. eapply Hend; [done| |done|done]. exists th. by rewrite E.
Qed.

(** ** Suspension and resumption *)

(** What an operation leaves behind: its critical section ends in [k1], [Q1],
    related to the start by [R], and a dispatch may follow. *)
Definition op_post {X} (R : X -> kern -> queues -> Prop) (r : X) k' : Prop :=
  exists k1 Q1 Q', kcrit k1 Q1 /\ R r k1 Q1 /\ kernel_at k' Q' /\ dframe k1 Q1 k' Q'.

Lemma leave_op {X} (R : X -> kern -> queues -> Prop) r k1 Q1 :
  kcrit k1 Q1 -> is_Some (rdm (threads k1) !! running k1) -> R r k1 Q1 ->
  wp (leave_serialize;; mret r) k1 (op_post R).
Proof. intros HK Hr HR. eapply leave_ret; [done|done|]. intros k' Q' ? ?. by exists k1, Q1, Q'. Qed.

Lemma dispatch_op {X} (R : X -> kern -> queues -> Prop) r k1 Q1 :
  kcrit k1 Q1 -> R r k1 Q1 -> wp (leave_serialize_and_dispatch;; mret r) k1 (op_post R).
Proof.
  intros HK HR. wp_step. eapply wp_mono; [by apply leave_serialize_and_dispatch_spec|].
  intros [] k' (Q' & H1 & _ & H2 & _). wp_step. exists k1, Q1, Q'. split_and!; try done. by left.
Qed.

Definition suspend_rel k Q (a r : Z) k1 Q1 : Prop :=
  exists th, threads k !! a = Some th /\
    if ready (status th) then
      r = E_OK /\ qframe (serialized k) k1 /\ Q1 = unready a Q /\
      threads k1 = <[a := set_status TTS_SUS th]> (threads k)
    else if status th =? TTS_WAI then
      r = E_OK /\ qframe (serialized k) k1 /\ Q1 = Q /\
      threads k1 = <[a := set_status TTS_WAS th]> (threads k)
    else r = (if status th =? TTS_DMT then E_OBJ else E_QOVR) /\ k1 = serialized k /\ Q1 = Q.

Definition resume_rel k Q (a r : Z) k1 Q1 : Prop :=
  exists th, threads k !! a = Some th /\
    if status th =? TTS_SUS then
      r = E_OK /\ qframe (serialized k) k1 /\
      Q1 = <[LReady (priority th) := default [] (Q !! LReady (priority th)) ++ [a]]> Q /\
      threads k1 = <[a := set_status TTS_RDY th]> (threads k)
    else if status th =? TTS_WAS then
      r = E_OK /\ qframe (serialized k) k1 /\ Q1 = Q /\
      threads k1 = <[a := set_status TTS_WAI th]> (threads k)
    else r = E_OBJ /\ k1 = serialized k /\ Q1 = Q.

(** Suspending a waiting thread, or the reverse, moves it on no queue. *)
Lemma kcrit_suspended k Q a th st :
  kcrit k Q -> threads k !! a = Some th -> waiting (status th) = true -> waiting st = true ->
  kcrit (set_threads (<[a := set_status st th]> (threads k)) k) Q.
Proof.
  intros [HC HR] Ha Hw Hst. pose proof (waiting_not_ready _ Hw) as Hnr.
  destruct (crit_threads _ HR a th Ha) as [_ Hwi].
  assert (Hi : km_map (thread_tree k) !! PORT_IDLE ≠ Some a).
  { intros E. destruct (crit_idle _ HR) as (b & tb & Hb & Htb & Hrb & _). congruence. }
  assert (Hrd : rdm (threads k) !! a = None) by (by rewrite (rdm_lookup _ _ _ Ha), Hnr).
  eapply (park k _ _ a th (set_status st th)); try done; [| |by apply waiting_not_ready].
  - cbn [set_status wait_reason]. rewrite (wsm_self _ _ _ Ha), delete_id by done.
    apply core_upd; [done|]. by eapply elem_of_dom_2.
  - split; [|cbn; naive_solver]. apply waiting_cases in Hst. unfold valid_status. cbn. set_solver.
Qed.

(** The target of [thread_suspend]. *)
Definition suspend_target k (id : Z) : option Z :=
  if id =? TSK_SELF then Some (running k) else km_map (thread_tree k) !! id.

Lemma idle_other k Q id a :
  kcrit k Q -> km_map (thread_tree k) !! id = Some a -> id ≠ PORT_IDLE ->
  km_map (thread_tree k) !! PORT_IDLE ≠ Some a.
Proof.
  intros HK Hp Hid E. destruct (tree_thread _ _ _ _ HK E) as (th & Ha & Hk).
  destruct (tree_thread _ _ _ _ HK Hp) as (th' & Ha' & Hk'). rewrite Ha in Ha'. congruence.
Qed.

Lemma thread_suspend_spec k Q id :
  kernel_at k Q ->
  (forall a, suspend_target k id = Some a -> km_map (thread_tree k) !! PORT_IDLE ≠ Some a) ->
  (suspend_target k id = Some (running k) -> id = TSK_SELF /\
     forall th, threads k !! running k = Some th -> status th = TTS_RUN) ->
  wp (thread_suspend id) k (op_post (λ r k1 Q1,
    match suspend_target k id with
    | None => r = E_NOEXS /\ k1 = serialized k /\ Q1 = Q
    | Some a => suspend_rel k Q a r k1 Q1
    end)).
Proof.
  intros (HK0 & Hrun & _) Hidle Hself. pose proof (kcrit_serialized _ _ HK0) as HK.
  destruct (crit_run _ (proj2 HK0)) as [thr Hthr].
  unfold thread_suspend. wp_enter. do 3 wp_step. cbn [running serialized set_sync].
  apply wp_mono with (λ p k', p = suspend_target k id /\ k' = serialized k).
  { unfold suspend_target. destruct (id =? TSK_SELF); [by apply wp_ret|].
    unfold get_thread_ptr, thread_tree_get. wp_step. cbn. by rewrite (tree_lookup _ _ _ HK0). }
  intros p ? [-> ->]. destruct (suspend_target k id) as [a|] eqn:Hp; [|by eapply leave_op].
  assert (is_Some (threads k !! a)) as [th Ha].
  { revert Hp. unfold suspend_target. destruct (id =? TSK_SELF); [by intros [= <-]|].
    intros E. destruct (tree_thread _ _ _ _ HK0 E) as (th & ? & _). by exists th. }
  destruct (crit_threads _ (proj2 HK0) a th Ha) as [Hv Hwi]. specialize (Hidle a eq_refl).
  assert (Hne : status th ≠ TTS_RUN -> running k ≠ a).
  { intros Hst <-. destruct (Hself eq_refl) as [_ Hs]. by apply Hst, Hs. }
  wp_step. eapply wp_thread; [done|].
  destruct (valid_cases _ Hv) as [E|[E|[E|[E|[E|E]]]]]; rewrite E in *; cbn.
  - assert (a = running k) as -> by (by eapply (crit_only _ (proj2 HK0))).
    destruct (Hself eq_refl) as [-> _]. cbn.
    destruct (park_status (serialized k) Q (running k) th TTS_SUS HK) as (A' & HA' & HK');
      [done|by rewrite E|done|by right|].
    wp_step. eapply wp_upd_thread; [done|]. wp_step. eapply wp_remove; [exact HA'|].
    eapply dispatch_op; [exact HK'|]. exists th. by rewrite E.
  - destruct (park_status (serialized k) Q a th TTS_SUS HK) as (A' & HA' & HK');
      [done|by rewrite E|done|by right|].
    wp_step. eapply wp_upd_thread; [done|]. wp_step. eapply wp_remove; [exact HA'|].
    eapply leave_op; [exact HK'| |exists th; by rewrite E].
    cbn. rewrite (rdm_other _ _ _ _ thr) by auto. done.
  - wp_step. eapply wp_upd_thread; [done|].
    eapply leave_op; [apply kcrit_suspended; [done|done|by rewrite E|done]| |exists th; by rewrite E].
    cbn. rewrite (rdm_other _ _ _ _ thr) by auto. done.
  - eapply leave_op; [done|done|]. exists th. by rewrite E.
  - eapply leave_op; [done|done|]. exists th. by rewrite E.
  - eapply leave_op; [done|done|]. exists th. by rewrite E.
Qed.

(** Joining the ready queue of one's priority. *)
Lemma enready_spec k Q sg rd ws a s :
  core k Q sg rd ws -> rd !! a = None -> sg !! a = Some s ->
  wp (ready_enqueue (sg_priority s) (LQueue a)) k (λ _ k',
    core k' (<[LReady (sg_priority s) := default [] (Q !! LReady (sg_priority s)) ++ [a]]> Q) sg
      (<[a := sg_priority s]> rd) ws /\
    k' = set_ready_bits (ready_bits k') (set_lists (lists k') k)).
Proof.
  intros HC Hrd Hs. pose proof (proj1 (st_prio _ _ (c_st _ _ _ _ _ HC) a s Hs)) as Hp.
  destruct (proj2 (rq_dom _ _ _ (c_rq _ _ _ _ _ HC) (sg_priority s)) Hp) as [l Hl].
  destruct (core_enready _ _ _ _ _ l a s HC Hl Hrd Hs) as (A' & HA & HC2).
  unfold ready_enqueue. do 2 wp_step. eapply wp_enqueue; [exact HA|]. split; [|done]. rewrite Hl. exact HC2.
Qed.

Lemma thread_resume_spec k Q id :
  kernel_at k Q ->
  wp (thread_resume id) k (op_post (λ r k1 Q1,
    match km_map (thread_tree k) !! id with
    | None => r = E_NOEXS /\ k1 = serialized k /\ Q1 = Q
    | Some a => resume_rel k Q a r k1 Q1
    end)).
Proof.
  intros (HK0 & Hrun & _). pose proof (kcrit_serialized _ _ HK0) as HK.
  destruct (crit_run _ (proj2 HK0)) as [thr Hthr].
  unfold thread_resume. wp_enter. wp_step. unfold get_thread_ptr, thread_tree_get. wp_step. cbn.
  rewrite (tree_lookup _ _ _ HK0). destruct (km_map (thread_tree k) !! id) as [a|] eqn:Hp; [|by eapply leave_op].
  destruct (tree_thread _ _ _ _ HK0 Hp) as (th & Ha & Hkey).
  destruct (crit_threads _ (proj2 HK0) a th Ha) as [Hv Hwi].
  assert (Hne : ready (status th) = false -> running k ≠ a).
  { intros Hst <-. rewrite (rdm_lookup _ _ _ Ha), Hst in Hrun. by destruct Hrun. }
  wp_step. eapply wp_thread; [done|].
  destruct (valid_cases _ Hv) as [E|[E|[E|[E|[E|E]]]]]; rewrite E in *; cbn.
  1, 2, 3, 6: eapply leave_op; [done|done|]; exists th; by rewrite E.
  - assert (Hw : wstate_of (wait_reason th) = WNone).
    { destruct (wstate_of (wait_reason th)); try done; exfalso; by assert (false = true) by (by apply Hwi). }
    pose proof (core_upd _ _ _ _ _ a (set_status TTS_RDY th) (proj1 HK) (elem_of_dom_2 _ _ _ Ha)) as HC1.
    wp_step. eapply wp_upd_thread; [done|]. wp_step. eapply wp_mono.
    + apply (enready_spec _ _ _ _ _ a (sig_of th) HC1); [|by apply sgm_lookup].
      by rewrite (rdm_lookup (threads (serialized k)) _ _ Ha), E.
    + intros [] k1 [HC2 E1].
      assert (Et : threads k1 = <[a := set_status TTS_RDY th]> (threads k)) by (by rewrite E1).
      eapply (dispatch_op _ _ k1).
      2:{ exists th. rewrite E, Z.eqb_refl. split_and!; [done|done| |done|by rewrite E1]. by rewrite E1. }
      split.
      * rewrite Et, (sgm_update _ _ _ (set_status TTS_RDY th) Ha eq_refl), rdm_insert,
          (wsm_update _ _ _ (set_status TTS_RDY th) Ha eq_refl). exact HC2.
      * eapply (crit_ext (set_threads (<[a := set_status TTS_RDY th]> (threads k)) (serialized k)));
          [|by rewrite E1..]. eapply (crit_upd (serialized k)); [apply HK|done| |done|by right|done].
        split; [unfold valid_status; set_solver|]. cbn. by rewrite Hw.
  - wp_step. eapply wp_upd_thread; [done|].
    eapply leave_op; [apply kcrit_suspended; [done|done|by rewrite E|done]| |exists th; by rewrite E].
    cbn. rewrite (rdm_other _ _ _ _ thr) by auto. done.
Qed.

(** ** Start *)

(** A dormant thread made ready for its first turn. *)
Definition fired (th : thread_t) : thread_t :=
  let th1 := set_port (set_flag 0) (set_quantum TIME_QUANTUM (set_priority (attr_priority (attr th)) th)) in
  let s := initial_stack th1 in
  set_status TTS_RDY (set_mpu (λ m, set_frame s.2 (set_esp0 s.1 m)) th1).

Definition joined (p a : Z) Q : queues := <[LReady p := default [] (Q !! LReady p) ++ [a]]> Q.

Lemma dormant_facts k Q a th :
  kcrit k Q -> threads k !! a = Some th -> status th = TTS_DMT ->
  wstate_of (wait_reason th) = WNone /\ rdm (threads k) !! a = None /\
  km_map (thread_tree k) !! PORT_IDLE ≠ Some a.
Proof.
  intros [_ HR] Ha E. destruct (crit_threads _ HR a th Ha) as [_ Hwi]. rewrite E in Hwi. split_and!.
  - destruct (wstate_of (wait_reason th)); try done; exfalso; by assert (false = true) by (by apply Hwi).
  - by rewrite (rdm_lookup _ _ _ Ha), E.
  - intros Hi. destruct (crit_idle _ HR) as (b & tb & Hb & Htb & Hrb & _).
    assert (tb = th) as -> by congruence. by rewrite E in Hrb.
Qed.

(** As [crit_upd], for a thread that is not the idle one. *)
Lemma crit_upd_other k a th th' :
  crit k -> threads k !! a = Some th -> thread_ok th' -> is_kthread th' = is_kthread th ->
  cr3 (mpu th') = cr3 (mpu th) -> km_map (thread_tree k) !! PORT_IDLE ≠ Some a ->
  status th' ≠ TTS_RUN -> crit (set_threads (<[a := th']> (threads k)) k).
Proof.
  intros [C1 C2 C3 C4 C5 C6 C7] Ha Hok Hk Hc Hi Hr. split; cbn; try done.
  - by apply threads_ok_insert.
  - destruct C2 as (b & tb & Hb & Htb & ?). exists b, tb. cbn. rewrite lookup_insert_ne; [done|]. congruence.
  - intros b tb. rewrite lookup_insert_Some. intros [[<- <-]|[_ Hb]]; [done|]. by eapply C3.
  - intros tr. cbn. rewrite lookup_insert_Some. intros [[Hra <-]|[_ Htr]] Hkt; [|by apply C4].
    subst a. rewrite Hc. apply (C4 th Ha). congruence.
  - rewrite lookup_insert_is_Some. destruct (decide (a = running k)); auto.
Qed.

Lemma fire_spec k Q a th :
  kcrit k Q -> threads k !! a = Some th -> status th = TTS_DMT ->
  wp (fire a) k (λ _ k', exists k1 Q', kcrit k1 (joined (attr_priority (attr th)) a Q) /\
    threads k1 = <[a := fired th]> (threads k) /\ qframe k k1 /\
    kernel_at k' Q' /\ scheduled k' Q' /\ dframe k1 (joined (attr_priority (attr th)) a Q) k' Q').
Proof.
  intros HK Ha E. destruct (dormant_facts _ _ _ _ HK Ha E) as (Hw & Hrd & Hi). pose proof HK as [HC HR].
  pose proof (sgm_lookup _ _ _ Ha) as Hs.
  assert (HC1 : core (set_threads (<[a := fired th]> (threads k)) k) Q
    (<[a := sig_of (fired th)]> (sgm (threads k))) (rdm (threads k)) (wsm (threads k))).
  { eapply core_sig; [by apply core_upd; [|eapply elem_of_dom_2]|exact Hs|done..| | | |].
    - exact (proj2 (st_prio _ _ (c_st _ _ _ _ _ HC) a _ Hs)).
    - by left.
    - intros Ho. by apply (w_port _ _ _ _ (c_w _ _ _ _ _ HC) a _ Hs).
    - intros Ho. by left. }
  unfold fire. do 2 wp_step. wp_step. eapply wp_upd_thread; [apply lookup_insert_eq|]. kred.
  wp_step. eapply wp_upd_thread; [apply lookup_insert_eq|]. kred.
  wp_step. unfold create_context. wp_step. eapply wp_thread; [apply lookup_insert_eq|].
  eapply wp_upd_thread; [apply lookup_insert_eq|]. kred.
  wp_step. eapply wp_upd_thread; [apply lookup_insert_eq|]. kred.
  wp_step. eapply wp_thread; [apply lookup_insert_eq|]. wp_step.
  eapply wp_mono; [exact (enready_spec _ _ _ _ _ a _ HC1 Hrd (lookup_insert_eq _ _ _))|].
  intros [] k1 [HC2 E1].
  assert (Et : threads k1 = <[a := fired th]> (threads k)) by (by rewrite E1).
  assert (HK1 : kcrit k1 (joined (attr_priority (attr th)) a Q)).
  { split.
    - rewrite Et, sgm_insert, rdm_insert, (wsm_update _ _ _ (fired th) Ha) by done. exact HC2.
    - eapply (crit_ext (set_threads (<[a := fired th]> (threads k)) k)); [|by rewrite E1..].
      eapply crit_upd_other; try done. split; [unfold valid_status; set_solver|].
      change (wait_reason (fired th)) with (wait_reason th). by rewrite Hw. }
  eapply wp_mono; [by apply leave_serialize_and_dispatch_spec|].
  intros [] k' (Q' & H1 & H2 & H3 & _). exists k1, Q'. split_and!; try done; [by rewrite E1|by left].
Qed.

(** The identifier [thread_start] acts on. *)
Definition start_id k (id : Z) : Z :=
  if id =? TSK_SELF then default 0 (node_key <$> threads k !! running k) else id.

Definition start_rel k Q (id r : Z) k1 Q1 : Prop :=
  match km_map (thread_tree k) !! start_id k id with
  | None => r = E_NOEXS /\ k1 = serialized k /\ Q1 = Q
  | Some a => exists th, threads k !! a = Some th /\
      if status th =? TTS_DMT then
        r = E_OK /\ qframe (serialized k) k1 /\ Q1 = joined (attr_priority (attr th)) a Q /\
        threads k1 = <[a := fired th]> (threads k)
      else r = E_QOVR /\ k1 = serialized k /\ Q1 = Q
  end.

Lemma thread_start_spec k Q id :
  kernel_at k Q -> wp (thread_start id) k (op_post (start_rel k Q id)).
Proof.
  intros (HK0 & Hrun & _). pose proof (kcrit_serialized _ _ HK0) as HK.
  destruct (crit_run _ (proj2 HK0)) as [thr Hthr].
  unfold thread_start. wp_enter. wp_step.
  apply wp_mono with (λ p k', p = start_id k id /\ k' = serialized k).
  { unfold start_id. destruct (id =? TSK_SELF); [|by apply wp_ret]. do 3 wp_step.
    eapply wp_thread; [done|]. wp_step. by rewrite Hthr. }
  intros p ? [-> ->]. wp_step. unfold get_thread_ptr, thread_tree_get. wp_step. cbn.
  rewrite (tree_lookup _ _ _ HK0). unfold start_rel.
  destruct (km_map (thread_tree k) !! start_id k id) as [a|] eqn:Hp; [|by eapply leave_op].
  destruct (tree_thread _ _ _ _ HK0 Hp) as (th & Ha & Hkey). wp_step. eapply wp_thread; [done|].
  destruct (Z.eqb_spec (status th) TTS_DMT) as [E|E]; cbn.
  - wp_step. eapply wp_mono; [by apply (fire_spec _ Q _ th)|].
    intros [] k' (k1 & Q' & H1 & H2 & H3 & H4 & _ & H5). wp_step.
    exists k1, (joined (attr_priority (attr th)) a Q), Q'.
    split_and!; [done| |done|done]. exists th. rewrite E. by split_and!.
  - eapply leave_op; [done|done|]. exists th. apply Z.eqb_neq in E. by rewrite E.
Qed.

(** ** Round robin *)

(** The thread at the head of a queue goes to its end, if it is [th] and not
    alone. *)
Definition rotated (th : Z) (l : list Z) : list Z :=
  match l with
  | a :: ((_ :: _) as rest) => if decide (a = th) then rest ++ [a] else l
  | _ => l
  end.

Lemma last_not_head (a b : Z) l : NoDup (a :: b :: l) -> exists c, last (a :: b :: l) = Some c /\ c ≠ a.
Proof.
  intros Hnd. destruct (last_is_Some (b :: l)) as [_ [c Hc]]; [done|].
  exists c. change (last (a :: b :: l)) with (last (b :: l)). split; [done|].
  apply last_Some_elem_of in Hc. apply NoDup_cons in Hnd as [Hn _]. set_solver.
Qed.

Lemma ready_rotate_to k Q pri th l (Φ : unit -> kern -> Prop) :
  kernel_at k Q -> Q !! LReady pri = Some l ->
  (forall k1, kcrit k1 (<[LReady pri := rotated th l]> Q) -> k1 = set_lists (lists k1) (serialized k) ->
     wp leave_serialize k1 Φ) ->
  wp (ready_rotate pri th) k Φ.
Proof.
  intros (HK0 & Hrun & _) Hl Hend. pose proof (kcrit_serialized _ _ HK0) as HK.
  destruct (c_links _ _ _ _ _ (proj1 HK)) as (I & HQ & _).
  assert (HA : lists (serialized k) !! LReady pri = Some (LQueue <$> l)) by (by apply (q_lookup _ _ _ HQ)).
  pose proof (q_nodup _ _ _ HQ _ _ Hl) as Hnd.
  unfold ready_rotate. wp_enter. wp_step.
  eapply wp_next; [unfold ring_next; by rewrite HA|]. wp_step.
  destruct l as [|a l]; cbn [fmap list_fmap head default].
  { rewrite bool_decide_true by done. wp_step. eapply Hend; [|by destruct k]. by rewrite insert_id. }
  rewrite bool_decide_false by done. wp_step. cbn [getThread]. wp_step. wp_step.
  eapply wp_prev; [unfold ring_prev; by rewrite HA|].
  destruct l as [|b l].
  { cbn. rewrite bool_decide_false by (by intros [_ ?]). wp_step. eapply Hend; [|by destruct k].
    by rewrite insert_id. }
  destruct (last_not_head _ _ _ Hnd) as (c & Hc & Hca). rewrite fmap_last, Hc. cbn [fmap option_fmap option_map default].
  unfold rotated in *. destruct (decide (a = th)) as [Hd|Hd].
  - rewrite bool_decide_true by (split; [done|]; by intros [=]).
    destruct (core_rotate _ _ _ _ _ _ _ _ (proj1 HK) Hl) as (A1 & A2 & H1 & H2 & HC).
    wp_step. eapply wp_dequeue; [exact H1|]. eapply wp_enqueue; [exact H2|].
    eapply Hend; [|done]. split; [exact HC|]. eapply crit_ext; [exact (proj2 HK)|done..].
  - rewrite bool_decide_false by tauto. wp_step.
    eapply Hend; [|by destruct k]. by rewrite insert_id.
Qed.

Lemma ready_rotate_spec k Q pri th l :
  kernel_at k Q -> Q !! LReady pri = Some l ->
  wp (ready_rotate pri th) k (λ _ k', exists k1 Q', kcrit k1 (<[LReady pri := rotated th l]> Q) /\
    k1 = set_lists (lists k1) (serialized k) /\ kernel_at k' Q' /\
    dframe k1 (<[LReady pri := rotated th l]> Q) k' Q').
Proof.
  intros HKa Hl. apply (ready_rotate_to _ _ _ _ _ _ HKa Hl). intros k1 HK1 E1.
  eapply wp_mono; [apply leave_serialize_spec; [done|rewrite E1; apply HKa]|]. intros [] k' (Q' & ? & ?). by exists k1, Q'.
Qed.

(** The timer takes a tick from the running user thread; at the end of its
    quantum a rotation of its queue is requested. *)
Definition tick_rel k k' : Prop :=
  exists th, threads k !! running k = Some th /\
    if is_kthread th then k' = k
    else
      let q := u32 (quantum th - 1) in
      if q =? 0 then
        k' = set_kqueue (kq_put (kqueue k) (DelayParam H_ready_rotate (priority th) (running k))).2
               (set_sync (sync k') (set_threads (<[running k := set_quantum TIME_QUANTUM th]> (threads k)) k)) /\
        ((kq_put (kqueue k) (DelayParam H_ready_rotate (priority th) (running k))).1 = true ->
           no_request (sync k') = 0 /\ delay_thread_start (sync k') = true)
      else k' = set_threads (<[running k := set_quantum q th]> (threads k)) k.

(** The same as a function. *)
Definition ticked k : kern :=
  match threads k !! running k with
  | None => k
  | Some th =>
      if is_kthread th then k
      else
        let q := u32 (quantum th - 1) in
        if q =? 0 then
          let '(b, kq) := kq_put (kqueue k) (DelayParam H_ready_rotate (priority th) (running k)) in
          set_kqueue kq (set_sync (if b then set_delay_thread_start true (set_no_request 0 (sync k)) else sync k)
            (set_threads (<[running k := set_quantum TIME_QUANTUM th]> (threads k)) k))
        else set_threads (<[running k := set_quantum q th]> (threads k)) k
  end.

Lemma tick_run k : is_Some (threads k !! running k) -> tick k = Some (tt, ticked k).
Proof.
  intros [th Ha]. enough (wp tick k (λ _ k', k' = ticked k)) as ([] & k' & -> & ->) by done.
  unfold ticked. rewrite Ha. unfold tick. do 3 wp_step. eapply wp_thread; [done|].
  destruct (is_kthread th); [by wp_step|].
  wp_step. eapply wp_upd_thread; [done|]. cbn zeta. destruct (u32 (quantum th - 1) =? 0); [|by wp_step].
  wp_step. eapply wp_upd_thread; [apply lookup_insert_eq|]. kred. wp_step. unfold delayed_handle. wp_step.
  destruct (kq_put (kqueue k) _) as [b kq] eqn:Eq. eexists b, _. split; [cbn in *; by rewrite Eq|].
  destruct b; cbn; [by do 6 wp_step|]. do 2 wp_step. by destruct k.
Qed.

Lemma ticked_rel k : is_Some (threads k !! running k) -> tick_rel k (ticked k).
Proof.
  intros [th Ha]. exists th. split; [done|]. unfold ticked. rewrite Ha. destruct (is_kthread th); [done|].
  cbn zeta. destruct (u32 (quantum th - 1) =? 0); [|done]. destruct (kq_put _ _) as [b q]. split; [done|]. by intros [= ->].
Qed.

Lemma kernel_at_quantum k Q th v :
  kernel_at k Q -> threads k !! running k = Some th ->
  kernel_at (set_threads (<[running k := set_quantum v th]> (threads k)) k) Q.
Proof.
  intros (HK & Hrun & Hser) Ha. split_and!; [by eapply kcrit_upd| |done]. cbn.
  by rewrite (rdm_update _ _ _ (set_quantum v th) Ha).
Qed.

Lemma kernel_at_delayed k Q q s :
  kernel_at k Q -> interrupt_nest s = 0 -> (no_request s = 0 \/ no_request s = 1) -> serializing s = 0 ->
  kernel_at (set_kqueue q (set_sync s k)) Q.
Proof.
  intros (HK & Hrun & Hser) H1 H2 H3. pose proof (kcrit_sync _ _ s HK H1 H2) as [HC HR].
  split_and!; [split; [by eapply core_ext|by eapply crit_ext]|done|done].
Qed.

Lemma kernel_at_ticked k Q : kernel_at k Q -> kernel_at (ticked k) Q.
Proof.
  intros HK. unfold ticked. destruct (threads k !! running k) as [th|] eqn:Ha; [|done].
  destruct (is_kthread th); [done|]. cbn zeta. destruct (u32 (quantum th - 1) =? 0); [|by apply kernel_at_quantum].
  destruct (kq_put _ _) as [b q]. pose proof HK as ((_ & HR) & _ & Hser).
  apply (kernel_at_delayed (set_threads _ k)); [by apply kernel_at_quantum|..]; destruct b; try done;
    [exact (crit_nest _ HR)..|by left|exact (crit_request _ HR)].
Qed.

Lemma tick_spec k Q : kernel_at k Q -> wp tick k (λ _ k', kernel_at k' Q /\ tick_rel k k').
Proof.
  intros HK. pose proof (crit_run _ (proj2 (proj1 HK))) as Hr. exists tt, (ticked k). split; [by apply tick_run|].
  split; [by apply kernel_at_ticked|by apply ticked_rel].
Qed.

(** [tick] does not see how deep interrupts are nested. *)
Lemma ticked_nest n k :
  ticked (set_sync (set_interrupt_nest n (sync k)) k) = set_sync (set_interrupt_nest n (sync (ticked k))) (ticked k).
Proof.
  unfold ticked. cbn. destruct (threads k !! running k) as [th|]; [|done]. destruct (is_kthread th); [done|].
  cbn zeta. destruct (_ =? 0); [|done]. destruct (kq_put _ _) as [b q]. by destruct b.
Qed.

(** The interrupt of the timer: a tick, and the dispatch if one is requested. *)
Lemma interrupt_tick_spec k Q :
  kernel_at k Q ->
  wp (interrupt tick) k (λ _ k', exists Q', kernel_at k' Q' /\
    if no_request (sync (ticked k)) =? 0
    then scheduled k' Q' /\ dispatched (ticked k) Q k' Q' /\ sync k' = Sync 0 1 0 false
    else k' = ticked k /\ Q' = Q).
Proof.
  intros HK. pose proof (kernel_at_ticked _ _ HK) as HK1. pose proof HK as ((_ & HR) & _ & _).
  unfold interrupt. wp_step. wp_step. rewrite (crit_nest _ HR). change (u16 (0 + 1)) with 1.
  wp_step. eexists tt, _. split; [by apply tick_run, (crit_run _ HR)|]. rewrite ticked_nest.
  pose proof HK1 as (HKc & Hrun & Hser). pose proof (crit_nest _ (proj2 HKc)) as Hn.
  wp_step. wp_step. cbn [sync set_sync interrupt_nest set_interrupt_nest]. change (u16 (1 - 1)) with 0.
  replace (set_sync _ _) with (ticked k).
  2:{ destruct (ticked k) as [? ? ? ? ? ? ? ? [] ? ? ? ?]. cbn in Hn. by subst. }
  wp_step. wp_step. destruct (crit_request _ (proj2 HKc)) as [E|E]; rewrite E; cbn [Z.eqb].
  - assert (dispatch_skippable (sync (ticked k)) = 0) as ->.
    { unfold dispatch_skippable. by rewrite Hn, E, Hser. }
    cbn [Z.eqb]. eapply wp_mono; [by apply (dispatch_spec _ Q)|]. intros [] k' (Q' & HK' & Hs & HD & Es).
    exists Q'. split; [|done]. split; [done|]. split; [by eapply scheduled_ready|by rewrite Es].
  - rewrite (proj2 (Z.eqb_neq _ _)) by (by apply skippable_request). wp_step. by exists Q.
Qed.

(** ** Destruction *)

(** The processor after [context_release]. *)
Definition fpu_released (a : Z) (c : cpu_t) : cpu_t :=
  if a =? fpu_holder c then Cpu (cpu_cr3 c) (current_page_table c) 0 (cpu_fpu c) (tss_esp0 c) else c.

Definition destroy_rel k Q (id r : Z) k1 Q1 : Prop :=
  Q1 = Q /\
  match km_map (thread_tree k) !! id with
  | None => r = E_NOEXS /\ k1 = serialized k
  | Some a => exists th, threads k !! a = Some th /\
      if status th =? TTS_DMT then
        r = E_OK /\
        k1 = set_threads (delete a (threads k)) (set_memory (memory k1)
               (set_thread_tree (thread_tree k1) (set_cpu (fpu_released a (cpu k)) (serialized k)))) /\
        km_map (thread_tree k1) = delete id (km_map (thread_tree k)) /\
        live_threads (memory k1) = live_threads (memory k) ∖ {[a]} /\
        live_pages (memory k1) = live_pages (memory k) ∖ {[stack_page th]} /\
        live_replies (memory k1) = live_replies (memory k)
      else r = E_OBJ /\ k1 = serialized k
  end.

Lemma crit_del_thread k k' a :
  crit k -> a ≠ running k -> km_map (thread_tree k) !! PORT_IDLE ≠ Some a ->
  threads k' = delete a (threads k) ->
  km_map (thread_tree k') !! PORT_IDLE = km_map (thread_tree k) !! PORT_IDLE ->
  running k' = running k -> sync k' = sync k -> cpu k' = fpu_released a (cpu k) -> crit k'.
Proof.
  intros [C1 C2 C3 C4 C5 C6 C7] Hr Hi Et Ett Er Es Ec. split; rewrite ?Et, ?Es, ?Er; try done.
  - by apply map_Forall_delete.
  - destruct C2 as (b & tb & Hb & Htb & ?). exists b, tb. rewrite Ett, Et, lookup_delete_ne; [done|congruence].
  - intros b tb [_ Hb]%lookup_delete_Some. by apply C3.
  - intros th. rewrite Et, Er, lookup_delete_ne by done. intros Hth Hk. rewrite Ec. unfold fpu_released.
    destruct (C4 th Hth Hk) as [Hf ?]. rewrite Hf. destruct (Z.eqb_spec a (running k)); done.
  - by rewrite lookup_delete_ne.
Qed.

Lemma core_fpu_released k Q sg rd ws a :
  core k Q sg rd ws -> core (set_cpu (fpu_released a (cpu k)) k) Q sg rd ws.
Proof.
  intros []. split; try done. cbn. unfold fpu_released. destruct (a =? fpu_holder (cpu k)); [|done].
  destruct c_cpu as [_ ?]. split; [by left|done].
Qed.

Lemma sgm_delete ths a : sgm (delete a ths) = delete a (sgm ths).
Proof. apply fmap_delete. Qed.

Lemma wsm_delete ths a : wsm (delete a ths) = delete a (wsm ths).
Proof. apply fmap_delete. Qed.

Lemma rdm_delete ths a : rdm (delete a ths) = delete a (rdm ths).
Proof. apply omap_delete. Qed.

(** The queues of a port nobody uses. *)
Definition port_idle Q (a : Z) : Prop :=
  (Q !! LCaller a = None \/ Q !! LCaller a = Some []) /\ (Q !! LReceiver a = None \/ Q !! LReceiver a = Some []).

(** A dormant thread is freed whether or not threads wait at its port; the
    invariant holds afterwards if none does. *)
Lemma thread_destroy_frees k Q id a th (Φ : Z -> kern -> Prop) :
  kernel_at k Q -> km_map (thread_tree k) !! id = Some a -> threads k !! a = Some th -> status th = TTS_DMT ->
  (forall k2, destroy_rel k Q id E_OK k2 Q -> (port_idle Q a -> kcrit k2 Q) ->
     is_Some (rdm (threads k2) !! running k2) -> wp (leave_serialize;; mret E_OK) k2 Φ) ->
  wp (thread_destroy id) k Φ.
Proof.
  intros (HK0 & Hrun & _) Hp Ha E HΦ. pose proof (kcrit_serialized _ _ HK0) as HK.
  destruct (tree_thread _ _ _ _ HK0 Hp) as (th' & Ha' & Hkey). assert (th' = th) as -> by congruence.
  unfold thread_destroy. wp_enter. wp_step. unfold get_thread_ptr, thread_tree_get. wp_step. cbn.
  rewrite (tree_lookup _ _ _ HK0), Hp. wp_step. wp_step. eapply wp_thread; [done|]. rewrite E. cbn.
  destruct (dormant_facts _ _ _ _ HK0 Ha E) as (Hw & Hrd & Hi).
  assert (Har : a ≠ running k) by (intros ->; rewrite Hrd in Hrun; by destruct Hrun).
  pose proof (sgm_lookup _ _ _ Ha) as Hs.
  pose proof (core_fpu_released _ _ _ _ _ a (proj1 HK)) as HC1.
  set (k1 := set_cpu (fpu_released a (cpu (serialized k))) (serialized k)) in *.
  wp_step. unfold context_release. wp_step.
  replace (if a =? fpu_holder (cpu (serialized k)) then _ else serialized k) with k1.
  2:{ unfold k1, fpu_released. cbn. destruct (a =? fpu_holder (cpu k)); [done|by destruct k]. }
  unfold release_resources. do 2 wp_step. eapply wp_thread; [done|].
  assert (Hpg : stack_page th ∈ live_pages (memory k)).
  { by apply (st_page _ _ (c_st _ _ _ _ _ HC1) a (sig_of th)). }
  destruct (page_free_law (memory k) (stack_page th) (reg_mem _ _ _ (c_reg _ _ _ _ _ HC1)) Hpg)
    as (m1 & Em1 & Hm1 & Hlt1 & Hlr1 & Hlp1).
  exists tt, (set_memory m1 k1). split; [unfold pfree_page; cbn; unfold stack_page in Em1; by rewrite Em1|].
  destruct (km_remove_law (thread_tree k) id (reg_wf _ _ _ (c_reg _ _ _ _ _ HC1))) as (t & Et & Hwf & Hm).
  wp_step. exists (Some a), (set_thread_tree t (set_memory m1 k1)).
  split; [unfold thread_tree_remove; cbn; by rewrite Et, Hp|]. wp_step.
  assert (Hal : a ∈ live_threads m1).
  { rewrite Hlt1. change (memory k) with (memory k1).
    rewrite <- (reg_dom _ _ _ (c_reg _ _ _ _ _ HC1)). by eapply elem_of_dom_2. }
  destruct (thread_free_law m1 a Hm1 Hal) as (m2 & Em2 & Hm2 & Hlr2 & Hlp2 & Hlt2).
  set (k2 := set_threads (delete a (threads k)) (set_memory m2 (set_thread_tree t k1))).
  exists tt, k2. split; [unfold slab_free_thread; cbn; by rewrite Em2|]. wp_step. apply HΦ.
  - split; [done|]. rewrite Hp. exists th. split; [done|]. rewrite E, Z.eqb_refl.
    cbn. rewrite Hlt2, Hlr2, Hlp2, Hlt1, Hlr1, Hlp1. by split_and!.
  - intros [Hp1 Hp2]. split.
    + cbn. rewrite sgm_delete, wsm_delete, rdm_delete, (delete_id (rdm (threads k))) by done.
      eapply (core_del_thread k1 Q _ _ _ a (sig_of th)); try done; cbn.
      * by rewrite (wsm_lookup _ _ _ Ha), Hw.
      * unfold fpu_released. destruct (Z.eqb_spec a (fpu_holder (cpu k))) as [Ef|Ef]; cbn; [|done].
        intros <-. pose proof (st_zero _ _ (c_st _ _ _ _ _ HC1)) as Hz. cbn in Hz. congruence.
      * by rewrite Hlt2, Hlt1.
      * by rewrite Hlr2, Hlr1.
      * by rewrite Hlp2, Hlp1.
      * by rewrite Hm, Hkey.
    + eapply (crit_del_thread (serialized k) _ a); try done; [apply HK|]. cbn. rewrite Hm.
      apply lookup_delete_ne. intros ->. by apply Hi.
  - cbn. rewrite rdm_delete, lookup_delete_ne by done. done.
Qed.

Lemma thread_destroy_spec k Q id :
  kernel_at k Q ->
  (forall a th, km_map (thread_tree k) !! id = Some a -> threads k !! a = Some th -> status th = TTS_DMT ->
     port_idle Q a) ->
  wp (thread_destroy id) k (op_post (destroy_rel k Q id)).
Proof.
  intros HKa Hport. pose proof HKa as (HK0 & Hrun & _). pose proof (kcrit_serialized _ _ HK0) as HK.
  assert (Hother : forall r, destroy_rel k Q id r (serialized k) Q ->
    wp (leave_serialize;; mret r) (serialized k) (op_post (destroy_rel k Q id))).
  { intros r Hr. by eapply leave_op. }
  destruct (km_map (thread_tree k) !! id) as [a|] eqn:Hp.
  2:{ unfold thread_destroy. wp_enter. wp_step. unfold get_thread_ptr, thread_tree_get. wp_step. cbn.
      rewrite (tree_lookup _ _ _ HK0), Hp. wp_step. wp_step. apply Hother. split; [done|]. by rewrite Hp. }
  destruct (tree_thread _ _ _ _ HK0 Hp) as (th & Ha & _). destruct (Z.eqb_spec (status th) TTS_DMT) as [E|E].
  - eapply thread_destroy_frees; [done..|]. intros k2 Hrel HK2 Hr2. eapply leave_op; [|done|done].
    apply HK2. by eapply Hport.
  - unfold thread_destroy. wp_enter. wp_step. unfold get_thread_ptr, thread_tree_get. wp_step. cbn.
    rewrite (tree_lookup _ _ _ HK0), Hp. wp_step. wp_step. eapply wp_thread; [done|]. apply Z.eqb_neq in E.
    rewrite E. cbn. wp_step. apply Hother. split; [done|]. rewrite Hp. exists th. by rewrite E.
Qed.

(** Threads that wait at the port of a thread that is destroyed stay on the
    queues in its freed record. *)
Lemma thread_destroy_strands k Q id a th :
  kernel_at k Q -> km_map (thread_tree k) !! id = Some a -> threads k !! a = Some th -> status th = TTS_DMT ->
  no_request (sync k) = 1 ->
  wp (thread_destroy id) k (λ r k', r = E_OK /\ lists k' = lists k /\ threads k' = delete a (threads k) /\
    km_map (thread_tree k') = delete id (km_map (thread_tree k)) /\
    live_threads (memory k') = live_threads (memory k) ∖ {[a]}).
Proof.
  intros HKa Hp Ha E Hn. eapply thread_destroy_frees; [done..|]. intros k2 [_ Hrel] _ _. rewrite Hp in Hrel.
  destruct Hrel as (th' & Ha' & Hrel). assert (th' = th) as -> by congruence. rewrite E, Z.eqb_refl in Hrel.
  destruct Hrel as (_ & E2 & Ht & Hl & _). wp_step. apply leave_skip.
  - rewrite E2. apply (crit_nest _ (proj2 (proj1 HKa))).
  - by rewrite E2.
  - wp_step. cbn. split_and!; try done; by rewrite E2.
Qed.

(** ** Creation *)

(** The new thread, [sp] being the end of its stack. *)
Definition created (id : Z) (pk : T_CTSK) (sp : Z) : thread_t :=
  Thread id TTS_DMT (WaitReason wait_none 0 0 0 0) 0 0
    (ThreadAttr (itskpri pk) (kern_p2v sp) (ctsk_ustack_top pk) (task pk) (exinf pk))
    (Port false 0 0 0 0)
    (MpuContext (kern_p2v sp) (if ctsk_ustack_top pk =? 0 then KTHREAD_DIR_ADDR else page_table pk) 0 []).

Definition without_port (a : Z) Q : queues := delete (LReceiver a) (delete (LCaller a) Q).

Definition not_created k k1 : Prop :=
  k1 = set_memory (memory k1) (set_thread_tree (thread_tree k1) (serialized k)) /\
  km_map (thread_tree k1) = km_map (thread_tree k) /\
  live_threads (memory k1) = live_threads (memory k) /\
  live_pages (memory k1) = live_pages (memory k) /\
  live_replies (memory k1) = live_replies (memory k).

(** The stack: the caller's, or a new page. *)
Definition stack_given k (pk : T_CTSK) (sp : Z) k1 : Prop :=
  if stk pk =? 0 then
    exists page, page ∉ live_pages (memory k) /\ SUPERVISOR_START <= page < 2 ^ 32 - PAGE_SIZE /\
      sp = page + KTHREAD_STACK_SIZE /\ live_pages (memory k1) = {[page]} ∪ live_pages (memory k)
  else sp = stk pk /\ live_pages (memory k1) = live_pages (memory k).

Definition create_done k Q (id : Z) (pk : T_CTSK) (a sp : Z) k1 Q1 : Prop :=
  k1 = set_memory (memory k1) (set_thread_tree (thread_tree k1) (set_threads (threads k1)
         (set_ready_bits (ready_bits k1) (set_lists (lists k1) (serialized k))))) /\
  threads k !! a = None /\ stack_given k pk sp k1 /\
  km_map (thread_tree k1) = <[id := a]> (km_map (thread_tree k)) /\
  live_threads (memory k1) = {[a]} ∪ live_threads (memory k) /\
  live_replies (memory k1) = live_replies (memory k) /\
  if Z.land (tskatr pk) TA_ACT =? 0 then
    threads k1 = <[a := created id pk sp]> (threads k) /\ Q1 = without_port a Q
  else threads k1 = <[a := fired (created id pk sp)]> (threads k) /\
    Q1 = joined (itskpri pk) a (without_port a Q).

Definition create_rel k Q (id : Z) (pk : T_CTSK) (r : Z) k1 Q1 : Prop :=
  if (id <? MIN_MANUAL_ID) || (MAX_AUTO_ID <? id) then r = E_ID /\ k1 = k /\ Q1 = Q
  else if negb (Z.land (tskatr pk) TA_ASM =? 0) then r = E_RSATR /\ k1 = k /\ Q1 = Q
  else if negb (stksz pk =? KTHREAD_STACK_SIZE) then r = E_PAR /\ k1 = k /\ Q1 = Q
  else
    r = E_NOMEM /\ not_created k k1 /\ Q1 = Q \/
    match km_map (thread_tree k) !! id with
    | Some _ => r = E_OBJ /\ not_created k k1 /\ Q1 = Q
    | None => r = E_OK /\ exists a sp, create_done k Q id pk a sp k1 Q1
    end.

(** What a caller of [thread_create] is expected to pass. *)
Definition ctsk_ok k (pk : T_CTSK) : Prop :=
  MIN_PRIORITY <= itskpri pk <= MAX_PRIORITY /\
  (ctsk_ustack_top pk ≠ 0 -> page_table pk ≠ 0) /\
  (stk pk ≠ 0 -> let page := u32 (kern_p2v (stk pk) - KTHREAD_STACK_SIZE) in
     page ∈ live_pages (memory k) /\ forall a th, threads k !! a = Some th -> stack_page th ≠ page).

Lemma kern_p2v_high x : SUPERVISOR_START <= x < 2 ^ 32 -> kern_p2v x = x.
Proof.
  unfold kern_p2v, SUPERVISOR_START. intros Hx. apply Z.bits_inj'. intros i Hi. rewrite Z.lor_spec.
  change 0x80000000 with (2 ^ 31). rewrite Z.pow2_bits_eqb by lia.
  destruct (Z.eqb_spec 31 i) as [<-|]; [|by rewrite orb_false_r]. rewrite orb_true_r. symmetry.
  apply Z.testbit_true; [lia|]. change (2 ^ 31) with 2147483648 in *. change (2 ^ 32) with 4294967296 in *.
  assert (x / 2147483648 = 1) as -> by (symmetry; apply (Z.div_unique x _ 1 (x - 2147483648)); lia). done.
Qed.

Lemma created_stack id pk page :
  SUPERVISOR_START <= page < 2 ^ 32 - PAGE_SIZE -> stack_page (created id pk (page + KTHREAD_STACK_SIZE)) = page.
Proof.
  unfold stack_page. cbn [created attr kstack_tail].
  intros Hp. unfold SUPERVISOR_START, PAGE_SIZE, KTHREAD_STACK_SIZE in *.
  rewrite kern_p2v_high by (unfold SUPERVISOR_START; lia). unfold u32. rewrite Z.mod_small; lia.
Qed.

Lemma core_remem k Q sg rd ws m t :
  core k Q sg rd ws -> mem_ok m -> live_threads m = live_threads (memory k) ->
  live_pages m = live_pages (memory k) -> live_replies m = live_replies (memory k) ->
  km_wf t -> km_map t = km_map (thread_tree k) ->
  core (set_memory m (set_thread_tree t k)) Q sg rd ws.
Proof.
  intros [] Hm Ht Hp Hr Hwf Hmap. split; cbn; try done.
  - by rewrite Hp.
  - destruct c_reg. split; try done; [by rewrite Hmap|by rewrite Ht].
  - destruct c_rep. split; try done; by rewrite Hr.
Qed.

Lemma not_created_kcrit k Q m t :
  kcrit k Q -> mem_ok m -> live_threads m = live_threads (memory k) ->
  live_pages m = live_pages (memory k) -> live_replies m = live_replies (memory k) ->
  km_wf t -> km_map t = km_map (thread_tree k) ->
  kcrit (set_memory m (set_thread_tree t (serialized k))) Q /\
  not_created k (set_memory m (set_thread_tree t (serialized k))).
Proof.
  intros HK Hm Ht Hp Hr Hwf Hmap. split; [|by split_and!].
  destruct (kcrit_serialized _ _ HK) as [HC HR]. split; [by apply core_remem|].
  destruct HR as [C1 C2 C3 C4 C5 C6 C7]. split; try done. unfold idle_ok in *. cbn in *. by rewrite Hmap.
Qed.

(** A new dormant thread. *)
Lemma crit_new_thread k k' a th :
  crit k -> threads k !! a = None -> thread_ok th -> status th = TTS_DMT ->
  threads k' = <[a := th]> (threads k) ->
  (forall b, km_map (thread_tree k) !! PORT_IDLE = Some b -> km_map (thread_tree k') !! PORT_IDLE = Some b) ->
  running k' = running k -> sync k' = sync k -> cpu k' = cpu k -> crit k'.
Proof.
  intros [C1 C2 C3 C4 C5 C6 C7] Ha Hok Hst Et Ett Er Es Ec.
  assert (Hra : a ≠ running k) by (intros ->; rewrite Ha in C5; by destruct C5).
  split; rewrite ?Et, ?Es, ?Er; try done.
  - by apply threads_ok_insert.
  - destruct C2 as (b & tb & Hb & Htb & ?). exists b, tb. rewrite (Ett _ Hb), Et, lookup_insert_ne; [done|congruence].
  - intros b tb. rewrite lookup_insert_Some. intros [[<- <-]|[_ Hb]]; [by rewrite Hst|]. by apply C3.
  - intros tr. rewrite Et, Er, Ec, lookup_insert_ne by done. apply C4.
  - by rewrite lookup_insert_ne.
Qed.

(** The object of a new thread filled in: from the state in which its memory
    is allocated and its identifier entered, with the stack at [sp]. *)
Lemma new_thread_kcrit k Q id pk sp a m t :
  kcrit k Q -> a ∉ live_threads (memory k) -> a ≠ 0 -> mem_ok m ->
  live_threads m = {[a]} ∪ live_threads (memory k) -> live_replies m = live_replies (memory k) ->
  live_pages (memory k) ⊆ live_pages m ->
  km_wf t -> km_map t = <[id := a]> (km_map (thread_tree k)) -> km_map (thread_tree k) !! id = None ->
  MIN_MANUAL_ID <= id <= MAX_AUTO_ID -> MIN_PRIORITY <= itskpri pk <= MAX_PRIORITY ->
  (ctsk_ustack_top pk ≠ 0 -> page_table pk ≠ 0) ->
  stack_page (created id pk sp) ∈ live_pages m ->
  (forall b th, threads k !! b = Some th -> stack_page th ≠ stack_page (created id pk sp)) ->
  exists A1 A2 A3 A4 A5 A6 A7 A8,
    ring_clear (lists k) (LQueue a) = Some A1 /\ ring_clear A1 (LWaiting a) = Some A2 /\
    ring_clear A2 (LLocking a) = Some A3 /\ ring_clear A3 (LCaller a) = Some A4 /\
    ring_clear A4 (LReceiver a) = Some A5 /\ ring_initialize A5 (LQueue a) = Some A6 /\
    ring_initialize A6 (LWaiting a) = Some A7 /\ ring_initialize A7 (LLocking a) = Some A8 /\
    kcrit (set_lists A8 (set_threads (<[a := created id pk sp]> (threads k)) (set_memory m (set_thread_tree t k))))
      (without_port a Q).
Proof.
  intros [HC HR] Ha Ha0 Hm Hlt Hlr Hlp Hwf Hmap Hid Hrange Hpri Hpt Hst Hfresh.
  assert (Hth : threads k !! a = None).
  { apply not_elem_of_dom. by rewrite <- (c_dom _ _ _ _ _ HC), (reg_dom _ _ _ (c_reg _ _ _ _ _ HC)). }
  destruct (core_new_thread k Q _ _ _ a (sig_of (created id pk sp)) (created id pk sp) m t HC)
    as (A1 & A2 & A3 & A4 & A5 & A6 & A7 & A8 & H1 & H2 & H3 & H4 & H5 & H6 & H7 & H8 & HC'); try done.
  - cbn. destruct (Z.eqb_spec (ctsk_ustack_top pk) 0); [done|auto].
  - intros b s' Hb. apply sgm_inv in Hb as (th & Hth' & <-). by apply (Hfresh b).
  - exists A1, A2, A3, A4, A5, A6, A7, A8. split_and!; try done. split.
    + kred. rewrite sgm_insert, wsm_insert, rdm_insert. cbn. rewrite delete_id; [exact HC'|].
      destruct (rdm (threads k) !! a) eqn:E; [|done]. apply rdm_inv in E as (? & ? & _). congruence.
    + eapply (crit_new_thread k _ a (created id pk sp)); try done.
      * split; [unfold valid_status; set_solver|]. by cbn.
      * intros b Hb. cbn. rewrite Hmap, lookup_insert_ne; [done|]. congruence.
Qed.

Lemma setup_run k a pk sp id A1 A2 A3 A4 A5 A6 A7 A8 th :
  threads k !! a = Some th -> node_key th = id ->
  ring_clear (lists k) (LQueue a) = Some A1 -> ring_clear A1 (LWaiting a) = Some A2 ->
  ring_clear A2 (LLocking a) = Some A3 -> ring_clear A3 (LCaller a) = Some A4 ->
  ring_clear A4 (LReceiver a) = Some A5 -> ring_initialize A5 (LQueue a) = Some A6 ->
  ring_initialize A6 (LWaiting a) = Some A7 -> ring_initialize A7 (LLocking a) = Some A8 ->
  wp (upd_thread a (λ th, cleared (node_key th));;
      l_clear (LQueue a);; l_clear (LWaiting a);; l_clear (LLocking a);;
      l_clear (LCaller a);; l_clear (LReceiver a);;
      l_initialize (LQueue a);; l_initialize (LWaiting a);; l_initialize (LLocking a);;
      upd_thread a (λ th,
        Thread (node_key th) TTS_DMT (wait_reason th) (priority th) (quantum th)
          (ThreadAttr (itskpri pk) (kern_p2v sp) (ctsk_ustack_top pk) (task pk) (exinf pk))
          (port th)
          (MpuContext (kern_p2v sp)
             (if ctsk_ustack_top pk =? 0 then KTHREAD_DIR_ADDR else page_table pk)
             (fpu_state (mpu th)) (frame (mpu th))));;
      mret E_OK) k
    (λ r k', r = E_OK /\ k' = set_lists A8 (set_threads (<[a := created id pk sp]> (threads k)) k)).
Proof.
  intros Ha Hid H1 H2 H3 H4 H5 H6 H7 H8. wp_step. eapply wp_upd_thread; [done|].
  wp_step. eapply wp_clear; [exact H1|]. wp_step. eapply wp_clear; [exact H2|].
  wp_step. eapply wp_clear; [exact H3|]. wp_step. eapply wp_clear; [exact H4|].
  wp_step. eapply wp_clear; [exact H5|]. wp_step. eapply wp_initialize; [exact H6|].
  wp_step. eapply wp_initialize; [exact H7|]. wp_step. eapply wp_initialize; [exact H8|].
  wp_step. eapply wp_upd_thread; [apply lookup_insert_eq|]. kred. wp_step. split; [done|].
  cbn. by rewrite Hid.
Qed.

Lemma create_finish k Q id pk a sp k1 :
  kernel_at k Q -> kcrit k1 (without_port a Q) ->
  (id <? MIN_MANUAL_ID) || (MAX_AUTO_ID <? id) = false -> Z.land (tskatr pk) TA_ASM = 0 ->
  stksz pk = KTHREAD_STACK_SIZE -> km_map (thread_tree k) !! id = None ->
  k1 = set_memory (memory k1) (set_thread_tree (thread_tree k1) (set_threads (threads k1)
         (set_ready_bits (ready_bits k1) (set_lists (lists k1) (serialized k))))) ->
  threads k !! a = None -> stack_given k pk sp k1 ->
  km_map (thread_tree k1) = <[id := a]> (km_map (thread_tree k)) ->
  live_threads (memory k1) = {[a]} ∪ live_threads (memory k) ->
  live_replies (memory k1) = live_replies (memory k) ->
  threads k1 = <[a := created id pk sp]> (threads k) ->
  wp (if negb (Z.land (tskatr pk) TA_ACT =? 0) then fire a;; mret E_OK
      else leave_serialize;; mret E_OK) k1 (op_post (create_rel k Q id pk)).
Proof.
  intros (HK0 & Hrun & _) HK1 Hid Hasm Hsz Hp E1 Ha Hst Hmap Hlt Hlr Et.
  unfold create_rel. rewrite Hid, Hasm, Hsz, Z.eqb_refl, Hp. cbn [negb]. rewrite Z.eqb_refl. cbn [negb].
  assert (Har : running k ≠ a) by (intros <-; destruct (crit_run _ (proj2 HK0)); congruence).
  destruct (Z.land (tskatr pk) TA_ACT =? 0) eqn:Hact; cbn [negb].
  - eapply leave_op; [exact HK1| |].
    + rewrite Et. destruct (crit_run _ (proj2 HK0)) as [thr Hthr].
      replace (running k1) with (running k) by (by rewrite E1). by rewrite (rdm_other _ _ _ _ thr).
    + right. split; [done|]. exists a, sp. unfold create_done. rewrite Hact. by split_and!.
  - wp_step. eapply wp_mono; [apply (fire_spec _ _ a (created id pk sp) HK1); [|done]; rewrite Et; apply lookup_insert_eq|].
    intros [] k' (k2 & Q' & H1 & H2 & H3 & H4 & _ & H5). wp_step.
    exists k2, (joined (itskpri pk) a (without_port a Q)), Q'. split_and!; [done| |done|done].
    right. split; [done|]. exists a, sp. unfold create_done, stack_given in *. rewrite Hact.
    assert (memory k2 = memory k1) as -> by (by rewrite H3).
    assert (thread_tree k2 = thread_tree k1) as -> by (by rewrite H3).
    rewrite H2, Et, insert_insert_eq. split_and!; try done. rewrite H3, E1, H2, Et. cbn. by rewrite insert_insert_eq.
Qed.

(** [setup] once the stack is known, and what follows it. *)
Lemma create_setup k Q id pk a sp m t th0 :
  kernel_at k Q -> a ∉ live_threads (memory k) -> a ≠ 0 -> mem_ok m ->
  live_threads m = {[a]} ∪ live_threads (memory k) -> live_replies m = live_replies (memory k) ->
  live_pages (memory k) ⊆ live_pages m ->
  km_wf t -> km_map t = <[id := a]> (km_map (thread_tree k)) -> km_map (thread_tree k) !! id = None ->
  (id <? MIN_MANUAL_ID) || (MAX_AUTO_ID <? id) = false -> Z.land (tskatr pk) TA_ASM = 0 ->
  stksz pk = KTHREAD_STACK_SIZE ->
  MIN_MANUAL_ID <= id <= MAX_AUTO_ID -> MIN_PRIORITY <= itskpri pk <= MAX_PRIORITY ->
  (ctsk_ustack_top pk ≠ 0 -> page_table pk ≠ 0) ->
  stack_page (created id pk sp) ∈ live_pages m ->
  (forall b th, threads k !! b = Some th -> stack_page th ≠ stack_page (created id pk sp)) ->
  node_key th0 = id ->
  (forall k1 : kern, memory k1 = m -> stack_given k pk sp k1) ->
  wp (upd_thread a (λ th, cleared (node_key th));;
      l_clear (LQueue a);; l_clear (LWaiting a);; l_clear (LLocking a);;
      l_clear (LCaller a);; l_clear (LReceiver a);;
      l_initialize (LQueue a);; l_initialize (LWaiting a);; l_initialize (LLocking a);;
      upd_thread a (λ th,
        Thread (node_key th) TTS_DMT (wait_reason th) (priority th) (quantum th)
          (ThreadAttr (itskpri pk) (kern_p2v sp) (ctsk_ustack_top pk) (task pk) (exinf pk))
          (port th)
          (MpuContext (kern_p2v sp)
             (if ctsk_ustack_top pk =? 0 then KTHREAD_DIR_ADDR else page_table pk)
             (fpu_state (mpu th)) (frame (mpu th))));;
      mret E_OK)
    (set_threads (<[a := th0]> (threads k)) (set_thread_tree t (set_memory m (serialized k))))
    (λ result k', wp (
      if negb (result =? 0) then
        th ← thread a;
        node ← thread_tree_remove (node_key th);
        match node with
        | Some a => slab_free_thread a;; leave_serialize;; mret result
        | None => leave_serialize;; mret result
        end
      else if negb (Z.land (tskatr pk) TA_ACT =? 0) then fire a;; mret E_OK
      else leave_serialize;; mret E_OK) k' (op_post (create_rel k Q id pk))).
Proof.
  intros HK0 Ha Ha0 Hm Hlt Hlr Hlp Hwf Hmap Hid Hidr Hasm Hsz Hrange Hpri Hpt Hst Hfresh Hkey Hgiven.
  pose proof HK0 as (HK & _). pose proof (kcrit_serialized _ _ HK) as HKs.
  destruct (new_thread_kcrit (serialized k) Q id pk sp a m t HKs)
    as (A1 & A2 & A3 & A4 & A5 & A6 & A7 & A8 & H1 & H2 & H3 & H4 & H5 & H6 & H7 & H8 & HK'); try done.
  eapply wp_mono; [eapply setup_run; [apply lookup_insert_eq|exact Hkey|done..]|].
  intros r k' [-> ->]. cbn iota. kred.
  assert (Hth : threads k !! a = None).
  { apply not_elem_of_dom.
    by rewrite <- (c_dom _ _ _ _ _ (proj1 HK)), (reg_dom _ _ _ (c_reg _ _ _ _ _ (proj1 HK))). }
  apply (create_finish k Q id pk a sp); try done; by apply Hgiven.
Qed.

Lemma thread_create_spec k Q id pk :
  kernel_at k Q -> ctsk_ok k pk -> wp (thread_create id pk) k (op_post (create_rel k Q id pk)).
Proof.
  intros HK0 (Hpri & Hpt & Hstk). pose proof HK0 as (HK & Hrun & _).
  pose proof (kcrit_serialized _ _ HK) as HKs.
  assert (Hearly : forall r, create_rel k Q id pk r k Q -> wp (mret r) k (op_post (create_rel k Q id pk))).
  { intros r Hr. wp_step. exists k, Q, Q. split_and!; [done|done|done|apply dframe_refl]. }
  unfold thread_create. destruct ((id <? MIN_MANUAL_ID) || (MAX_AUTO_ID <? id)) eqn:Hid.
  { apply Hearly. unfold create_rel. by rewrite Hid. }
  destruct (Z.eqb_spec (Z.land (tskatr pk) TA_ASM) 0) as [Hasm|Hasm]; cbn [negb].
  2:{ apply Hearly. unfold create_rel. apply Z.eqb_neq in Hasm. by rewrite Hid, Hasm. }
  destruct (Z.eqb_spec (stksz pk) KTHREAD_STACK_SIZE) as [Hsz|Hsz]; cbn [negb].
  2:{ apply Hearly. unfold create_rel. apply Z.eqb_neq in Hsz. by rewrite Hid, Hasm, Hsz. }
  clear Hearly.
  assert (Hfail : forall r m t, (r = E_NOMEM \/ r = E_OBJ /\ is_Some (km_map (thread_tree k) !! id)) ->
    mem_ok m -> live_threads m = live_threads (memory k) -> live_pages m = live_pages (memory k) ->
    live_replies m = live_replies (memory k) -> km_wf t -> km_map t = km_map (thread_tree k) ->
    wp (leave_serialize;; mret r) (set_memory m (set_thread_tree t (serialized k))) (op_post (create_rel k Q id pk))).
  { intros r m t Hr Hm Ht Hp Hrp Hwf Hmap.
    destruct (not_created_kcrit k Q m t HK) as [HK1 Hn]; [done..|]. eapply leave_op; [exact HK1|done|].
    unfold create_rel. rewrite Hid, Hasm, Hsz, Z.eqb_refl. cbn [negb]. rewrite Z.eqb_refl. cbn [negb].
    destruct Hr as [->|[-> [w ->]]]; [by left|by right]. }
  pose proof (reg_wf _ _ _ (c_reg _ _ _ _ _ (proj1 HK))) as Hwf.
  destruct (thread_alloc_law (memory k) (reg_mem _ _ _ (c_reg _ _ _ _ _ (proj1 HK))))
    as (o & m1 & Em1 & Hm1 & Hlr1 & Hlp1 & Ho).
  wp_enter. wp_step. exists o, (set_memory m1 (serialized k)).
  split; [unfold slab_alloc_thread; cbn; by rewrite Em1|].
  destruct o as [a|]; [|by apply (Hfail _ m1 (thread_tree k)); auto].
  destruct Ho as (Ha & Ha0 & Hlt1).
  assert (Hth : threads k !! a = None).
  { apply not_elem_of_dom.
    by rewrite <- (c_dom _ _ _ _ _ (proj1 HK)), (reg_dom _ _ _ (c_reg _ _ _ _ _ (proj1 HK))). }
  assert (Hfree : forall m t ths r, (r = E_NOMEM \/ r = E_OBJ /\ is_Some (km_map (thread_tree k) !! id)) ->
    mem_ok m -> live_threads m = live_threads m1 -> live_pages m = live_pages (memory k) ->
    live_replies m = live_replies (memory k) -> km_wf t -> km_map t = km_map (thread_tree k) ->
    delete a ths = threads k ->
    wp (slab_free_thread a;; leave_serialize;; mret r)
      (set_threads ths (set_thread_tree t (set_memory m (serialized k)))) (op_post (create_rel k Q id pk))).
  { intros m t ths r Hr Hm Hlt Hlp Hlr Hwt Hmt Hths.
    destruct (thread_free_law m a Hm) as (m2 & Em2 & Hm2 & Hlr2 & Hlp2 & Hlt2); [rewrite Hlt, Hlt1; set_solver|].
    wp_step. eexists tt, (set_memory m2 (set_thread_tree t (serialized k))).
    split; [unfold slab_free_thread; cbn; by rewrite Em2, Hths|].
    apply Hfail; try done; [|congruence..]. rewrite Hlt2, Hlt, Hlt1. set_solver. }
  wp_step. destruct (km_map (thread_tree k) !! id) as [w|] eqn:Hp.
  { exists false, (set_memory m1 (serialized k)).
    split; [unfold thread_tree_put; cbn; by rewrite (km_put_present _ _ _ w)|]. cbn.
    apply (Hfree m1 (thread_tree k) (threads k)); try done; [by right|by rewrite delete_id]. }
  destruct (km_put_fresh (thread_tree k) id a Hwf Hp) as (t1 & Et1 & Hwf1 & Hmap1).
  exists true, (set_thread_tree t1 (set_memory m1 (serialized k))).
  split; [unfold thread_tree_put; cbn; by rewrite Et1|]. cbn [negb].
  wp_step. unfold new_thread. wp_step. cbn [threads set_thread_tree set_memory serialized set_sync]. rewrite Hth.
  cbn [default]. set (th0 := set_node_key id (cleared 0)).
  assert (Hrange : MIN_MANUAL_ID <= id <= MAX_AUTO_ID).
  { apply orb_false_iff in Hid as [?%Z.ltb_ge ?%Z.ltb_ge]. lia. }
  wp_step. unfold setup. wp_step.
  destruct (Z.eqb_spec (stk pk) 0) as [Hk|Hk]; cbn [negb].
  - wp_step. destruct (page_alloc_law m1 Hm1) as (p & m2 & Em2 & Hm2 & Hlt2 & Hlr2 & Hpg).
    exists p, (set_threads (<[a := th0]> (threads k)) (set_thread_tree t1 (set_memory m2 (serialized k)))).
    split; [unfold palloc_page; cbn; by rewrite Em2|]. wp_step.
    destruct (Z.eqb_spec p 0) as [Hp0|Hp0].
    + wp_step. change (negb (E_NOMEM =? 0)) with true. cbn iota. wp_step.
      eapply wp_thread; [apply lookup_insert_eq|]. wp_step.
      destruct (km_remove_law t1 id Hwf1) as (t2 & Et2 & Hwf2 & Hmap2).
      exists (Some a), (set_threads (<[a := th0]> (threads k)) (set_thread_tree t2 (set_memory m2 (serialized k)))).
      split; [unfold thread_tree_remove; cbn; by rewrite Et2, Hmap1, lookup_insert_eq|].
      apply Hfree; try done; [by left| | | |].
      * destruct Hpg as [[_ ->]|[_ [? _]]]; [done|]. unfold SUPERVISOR_START in *. lia.
      * by rewrite Hlr2.
      * by rewrite Hmap2, Hmap1, delete_insert_id.
      * by rewrite delete_insert_id.
    + destruct Hpg as [[-> _]|(Hpn & Hpr & Hlp2)]; [done|]. rewrite Hlp1 in *.
      rewrite Hsz. assert (u32 (p + KTHREAD_STACK_SIZE) = p + KTHREAD_STACK_SIZE) as ->.
      { unfold u32. apply Z.mod_small. unfold SUPERVISOR_START, PAGE_SIZE, KTHREAD_STACK_SIZE in *. lia. }
      apply (create_setup k Q id pk a (p + KTHREAD_STACK_SIZE) m2 t1 th0); try done.
      * congruence.
      * congruence.
      * set_solver.
      * rewrite created_stack by done. set_solver.
      * rewrite created_stack by done. intros b th Hb <-. apply Hpn.
        by apply (st_page _ _ (c_st _ _ _ _ _ (proj1 HK)) b (sig_of th)), sgm_lookup.
      * intros k1 E1. unfold stack_given. rewrite Hk, E1. cbn. by exists p.
  - wp_step. destruct (Hstk Hk) as [Hlive Hfresh].
    apply (create_setup k Q id pk a (stk pk) m1 t1 th0); try done.
    * by rewrite Hlp1.
    * by rewrite Hlp1.
    * intros k1 E1. unfold stack_given. apply Z.eqb_neq in Hk. by rewrite Hk, E1.
Qed.

End Threads.
