(* ===== verification/KIpcOk.v ===== *)
(** * The rendezvous keep the invariant

    Each operation of kernel/ipc.c and of kernel/api.c, from a state that
    satisfies the kernel invariant: it is defined, what it does to the threads,
    the queues and the rendezvous in its critical section, and that the
    invariant holds when it returns. *)

From S2P Require Import Prelude Lists AATree Bitmap Sequence Palloc KTypes KState KSched KThread.
From S2P Require Import KIpc Queues KQueues KInv KSteps KObjects KHoare KFrame KSchedOk KThreadOk.

Section Ipc.
Context {P : Platform} `{!KeyMapLaws pf_tree} `{!KernelMemoryLaws pf_memory}.
Notation kern := (kernel rings).
Implicit Types k : kern.
Implicit Types Q : queues.

(** ** Waiting *)

(** A thread that waits for [w]. *)
Definition blocked (w : wait_reason_t) (th : thread_t) : thread_t :=
  set_status TTS_WAI (set_wait (λ _, set_wresult E_OK w) th).

(** The running thread, with its wait reason [w] written and its link on the
    queue it waits on, gives up the processor. *)
Lemma block_spec k Q th w :
  crit k -> threads k !! running k = Some th -> ready (status th) = true ->
  km_map (thread_tree k) !! PORT_IDLE ≠ Some (running k) -> wstate_of w ≠ WNone ->
  core k Q (sgm (threads k)) (rdm (threads k)) (<[running k := wstate_of w]> (wsm (threads k))) ->
  wp (wait (running k)) (set_threads (<[running k := set_wait (λ _, w) th]> (threads k)) k) (λ _ k',
    exists k1 Q', kcrit k1 (unready (running k) Q) /\ qframe k k1 /\
      threads k1 = <[running k := blocked w th]> (threads k) /\
      kernel_at k' Q' /\ scheduled k' Q' /\ dispatched k1 (unready (running k) Q) k' Q' /\
      sync k' = Sync 0 1 0 false).
Proof.
  intros HR Ha Hr Hi Hw HC. destruct (unready_spec _ _ _ _ _ _ HC Ha Hr) as (A' & HA & HC').
  set (k1 := set_lists A' (set_threads (<[running k := blocked w th]> (threads k)) k)).
  assert (HK1 : kcrit k1 (unready (running k) Q)).
  { eapply (park k k1 _ (running k) th (blocked w th)); try done.
    - eapply (core_ext (set_threads (<[running k := blocked w th]> (threads k)) (set_lists A' k))); [|done..].
      apply (core_upd (set_lists A' k)); [exact HC'|]. by eapply elem_of_dom_2.
    - split; [unfold valid_status; set_solver|]. cbn. by split. }
  unfold wait. wp_step. eapply wp_upd_thread; [apply lookup_insert_eq|]. kred.
  wp_step. eapply wp_upd_thread; [apply lookup_insert_eq|]. kred.
  wp_step. eapply wp_remove; [exact HA|].
  eapply wp_mono; [by apply (leave_serialize_and_dispatch_spec k1)|].
  intros [] k' (Q' & H1 & H2 & H3 & H4). exists k1, Q'. by split_and!.
Qed.

(** ** Listening *)

Definition listen_rel k Q (o : outcome) k1 Q1 : Prop :=
  exists me, threads k !! running k = Some me /\
    if flag (port me) =? 0 then
      o = Block KListen /\ qframe (serialized k) k1 /\ Q1 = unready (running k) Q /\
      threads k1 = <[running k := blocked (set_wtype wait_flag (wait_reason me)) me]> (threads k)
    else o = Return E_OK None /\ Q1 = Q /\
      k1 = set_threads (<[running k := set_port (set_flag 0) me]> (threads k)) (serialized k).

Lemma running_facts k Q :
  kernel_at k Q -> exists me, threads k !! running k = Some me /\ ready (status me) = true /\
    wstate_of (wait_reason me) = WNone.
Proof.
  intros ([_ HR] & Hrun & _). destruct (crit_run _ HR) as [me Hme]. exists me. split; [done|].
  rewrite (rdm_lookup _ _ _ Hme) in Hrun. destruct (ready (status me)) eqn:E; [|by destruct Hrun].
  split; [done|]. apply ready_wnone; [|done]. by apply (crit_threads _ HR (running k)).
Qed.

Lemma ipc_listen_spec k Q :
  kernel_at k Q -> km_map (thread_tree k) !! PORT_IDLE ≠ Some (running k) ->
  wp ipc_listen k (op_post (listen_rel k Q)).
Proof.
  intros HK0 Hi. destruct (running_facts _ _ HK0) as (me & Hme & Hr & Hw). destruct HK0 as (HK0 & Hrun & _).
  pose proof (kcrit_serialized _ _ HK0) as HK.
  unfold ipc_listen. wp_enter. do 3 wp_step. eapply wp_thread; [done|]. cbn [running serialized set_sync].
  destruct (Z.eqb_spec (flag (port me)) 0) as [Hf|Hf]; cbn [negb].
  - wp_step. eapply wp_upd_thread; [done|]. wp_step. eapply wp_mono.
    + apply (block_spec (serialized k) Q me (set_wtype wait_flag (wait_reason me))); try done; [apply HK|].
      eapply core_flag; [apply HK|exact (eq_trans (wsm_lookup _ _ _ Hme) (f_equal Some Hw))|done|done].
    + intros [] k' (k1 & Q' & H1 & H2 & H3 & H4 & _ & H5 & _). wp_step.
      exists k1, (unready (running k) Q), Q'. split_and!; [done| |done|by left]. exists me. by rewrite Hf.
  - wp_step. eapply wp_upd_thread; [done|]. unfold ret. apply Z.eqb_neq in Hf.
    eapply leave_op; [by eapply (kcrit_upd (serialized k))| |exists me; by rewrite Hf].
    cbn. by rewrite (rdm_update _ _ _ (set_port (set_flag 0) me) Hme).
Qed.

(** ** Handing over a message *)

Definition delivered (size tag : Z) (th : thread_t) : thread_t :=
  set_wait (λ w, set_ipc_key tag (set_ipc_size size w)) th.

Lemma deliver_spec k Q tp th size tag :
  kcrit k Q -> threads k !! tp = Some th -> wtype (wait_reason th) = wait_receive ->
  wp (deliver tp size tag) k (λ _ k', kcrit k' (woken_queues tp th (unhook tp Q)) /\ qframe k k' /\
    threads k' = <[tp := woken (delivered size tag th)]> (threads k)).
Proof.
  intros HK Ha Hw. assert (Hws : wstate_of (wait_reason th) = WReceive) by (unfold wstate_of; by rewrite Hw).
  destruct (crit_threads _ (proj2 HK) tp th Ha) as [_ Hwi].
  destruct (unhook_spec k Q tp th HK Ha) as (A' & HA & HU); [by rewrite Hws|].
  unfold deliver. wp_step. eapply wp_remove; [exact HA|].
  wp_step. eapply wp_upd_thread; [done|]. wp_step. eapply wp_upd_thread; [apply lookup_insert_eq|]. kred.
  eapply wp_mono.
  - apply (release_spec _ (unhook tp Q) tp (delivered size tag th)).
    + apply (unhooked_upd (set_lists A' k) _ _ th (delivered size tag th)); try done; [by rewrite Hws|]. unfold wstate_of. cbn. by rewrite Hw.
    + apply lookup_insert_eq.
    + cbn. apply Hwi. by rewrite Hws.
  - intros [] k' (H1 & H2 & H3). split_and!; [done| |by rewrite H3; kred].
    rewrite H2. done.
Qed.

(** ** Ports and their queues *)

Lemma port_queues k Q o th :
  kcrit k Q -> threads k !! o = Some th -> opened (port th) = true ->
  is_Some (Q !! LCaller o) /\ is_Some (Q !! LReceiver o).
Proof. intros [HC _] Ho Hop. by apply (w_port _ _ _ _ (c_w _ _ _ _ _ HC) o (sig_of th)); [apply sgm_lookup|]. Qed.

(** Who is on which queue. *)
Lemma queued_thread k Q g l a :
  kcrit k Q -> Q !! g = Some l -> a ∈ l -> wait_guard g = true ->
  exists th, threads k !! a = Some th /\ fits (wstate_of (wait_reason th)) g = true /\ waiting (status th) = true.
Proof.
  intros [HC HR] Hg Ha Hw. destruct (w_mem _ _ _ _ (c_w _ _ _ _ _ HC) g l a Hg Ha Hw) as (t & Ht & Hf).
  apply wsm_inv in Ht as (th & Hth & <-). exists th. split_and!; [done|done|].
  apply (crit_threads _ HR a th Hth). intros E. by rewrite E in Hf.
Qed.

Lemma receiver_thread k Q o a l :
  kcrit k Q -> Q !! LReceiver o = Some (a :: l) ->
  exists th, threads k !! a = Some th /\ wtype (wait_reason th) = wait_receive /\ waiting (status th) = true.
Proof.
  intros HK Hg. destruct (queued_thread _ _ _ _ a HK Hg) as (th & Hth & Hf & Hw); [left|done|].
  exists th. split_and!; [done| |done]. unfold wstate_of in Hf. by destruct (wtype (wait_reason th)).
Qed.

Lemma caller_thread k Q o a l :
  kcrit k Q -> Q !! LCaller o = Some (a :: l) ->
  exists th, threads k !! a = Some th /\ waiting (status th) = true /\
    (wtype (wait_reason th) = wait_call \/ wtype (wait_reason th) = wait_send).
Proof.
  intros HK Hg. destruct (queued_thread _ _ _ _ a HK Hg) as (th & Hth & Hf & Hw); [left|done|].
  exists th. split_and!; [done|done|]. unfold wstate_of in Hf. destruct (wtype (wait_reason th)); naive_solver.
Qed.

Lemma wp_queue_head k Q g l (Φ : option loc -> kern -> Prop) :
  kcrit k Q -> Q !! g = Some l -> Φ (link_of g <$> head l) k -> wp (l_head g) k Φ.
Proof.
  intros [HC _] Hg HΦ. destruct (c_links _ _ _ _ _ HC) as (I & HQ & _).
  eapply wp_head; [by apply (q_head _ _ _ HQ)|done].
Qed.

Lemma kcrit_umem k Q u : kcrit k Q -> kcrit (set_umem u k) Q.
Proof. intros [HC HR]. split; [by eapply core_ext|by eapply crit_ext]. Qed.

(** The running thread queues itself on [g] and blocks. *)
Lemma enqueue_block_spec k Q th g l w :
  kcrit k Q -> threads k !! running k = Some th -> ready (status th) = true ->
  km_map (thread_tree k) !! PORT_IDLE ≠ Some (running k) ->
  Q !! g = Some l -> fits (wstate_of w) g = true ->
  in_use (sgm (threads k)) (km_map (reply_tree k)) g ->
  match wstate_of w with
  | WCall key => (exists r, km_map (reply_tree k) !! key = Some r /\ Q !! LReply r = Some []) /\
      forall b, wsm (threads k) !! b ≠ Some (WCall key)
  | WReply => l = [] /\ forall b key r, wsm (threads k) !! b = Some (WCall key) ->
      km_map (reply_tree k) !! key = Some r -> g ≠ LReply r
  | _ => True
  end ->
  exists A', ring_append (lists k) g (LWaiting (running k)) = Some A' /\
  wp (wait (running k)) (set_lists A' (set_threads (<[running k := set_wait (λ _, w) th]> (threads k)) k)) (λ _ k',
    exists k1 Q', kcrit k1 (unready (running k) (<[g := l ++ [running k]]> Q)) /\ qframe k k1 /\
      threads k1 = <[running k := blocked w th]> (threads k) /\
      kernel_at k' Q' /\ scheduled k' Q' /\ dframe k1 (unready (running k) (<[g := l ++ [running k]]> Q)) k' Q').
Proof.
  intros HK Ha Hr Hi Hg Hf Hu Hx. pose proof HK as [HC HR].
  assert (Hw : wstate_of (wait_reason th) = WNone).
  { apply ready_wnone; [by apply (crit_threads _ HR (running k))|done]. }
  destruct (core_enwait k Q _ _ _ g l (running k) (wstate_of w) HC Hg) as (A' & HA & HC'); try done.
  { by rewrite (wsm_lookup _ _ _ Ha), Hw. }
  exists A'. split; [done|]. eapply wp_mono.
  - apply (block_spec (set_lists A' k) (<[g := l ++ [running k]]> Q) th w); try done.
    + by eapply crit_ext.
    + intros E. by rewrite E in Hf.
  - intros [] k' (k1 & Q' & H1 & H2 & H3 & H4 & H5 & H6 & _). exists k1, Q'. split; [done|].
    split; [rewrite H2; done|]. split_and!; try done. by left.
Qed.

(** ** Copies that do not fault *)

(** The message at [message] can be read and written to the message of the
    first thread of [l], if there is one. *)
Definition copies_to k (l : option (list Z)) (message size : Z) : Prop :=
  forall tp l' w, l = Some (tp :: l') -> threads k !! tp = Some w ->
    is_Some (memcpy_k2u (umem k) (cpu_cr3 (cpu k)) w (ipc_message (wait_reason w)) message size).

(** The message of the first thread of [l] can be read and written to [message]. *)
Definition copies_from k (l : option (list Z)) (message : Z) : Prop :=
  forall tp l' w, l = Some (tp :: l') -> threads k !! tp = Some w ->
    is_Some (memcpy_u2k (umem k) (cpu_cr3 (cpu k)) w message (ipc_message (wait_reason w)) (ipc_size (wait_reason w))).

(** [ipc_call] and [_send] do not fault when they hand their message over, and
    [ipc_receive] when it takes one. *)
Definition port_writable k Q (port_id message size : Z) : Prop :=
  forall p, km_map (thread_tree k) !! port_id = Some p -> copies_to k (Q !! LReceiver p) message size.

Definition port_readable k Q (port_id message : Z) : Prop :=
  forall p, km_map (thread_tree k) !! port_id = Some p -> copies_from k (Q !! LCaller p) message.

(** ** Sending *)

Definition unchanged k Q k1 Q1 : Prop := k1 = serialized k /\ Q1 = Q.

(** The first receiver of the port takes the message, or the running thread
    waits among the callers of the port. *)
Definition send_rel k Q (port_id message size : Z) (o : outcome) k1 Q1 : Prop :=
  match km_map (thread_tree k) !! port_id with
  | None => o = Return E_NOEXS None /\ unchanged k Q k1 Q1
  | Some p => exists th me, threads k !! p = Some th /\ threads k !! running k = Some me /\
      let tag := create_ipc_tag (thread_id me) 0 in
      if negb (opened (port th)) then o = Return E_NOEXS None /\ unchanged k Q k1 Q1
      else if max_call (port th) <? size then o = Return E_PAR None /\ unchanged k Q k1 Q1
      else match Q !! LReceiver p with
           | Some (tp :: _) => exists w, threads k !! tp = Some w /\
               exists e u, memcpy_k2u (umem k) (cpu_cr3 (cpu k)) w (ipc_message (wait_reason w)) message size = Some (e, u) /\
               if e =? 0 then
                 o = Return E_OK None /\ qframe (set_umem u (serialized k)) k1 /\
                 threads k1 = <[tp := woken (delivered size tag w)]> (threads k) /\
                 Q1 = woken_queues tp w (unhook tp Q)
               else o = Return E_PAR None /\ k1 = set_umem u (serialized k) /\ Q1 = Q
           | _ =>
               o = Block KSend /\ qframe (serialized k) k1 /\
               threads k1 = <[running k := blocked (WaitReason wait_send E_OK size message tag) me]> (threads k) /\
               Q1 = unready (running k) (<[LCaller p := default [] (Q !! LCaller p) ++ [running k]]> Q)
           end
  end.

Lemma rdm_waiting k Q tp th :
  kernel_at k Q -> threads k !! tp = Some th -> waiting (status th) = true -> running k ≠ tp.
Proof.
  intros (_ & Hrun & _) Ha Hw E. rewrite E in Hrun. apply waiting_not_ready in Hw.
  rewrite (rdm_lookup _ _ _ Ha), Hw in Hrun. by destruct Hrun.
Qed.

(** The running thread stays ready when another thread is released. *)
Lemma running_stays k Q tp th th' :
  kernel_at k Q -> threads k !! tp = Some th -> waiting (status th) = true ->
  is_Some (rdm (<[tp := th']> (threads k)) !! running k).
Proof.
  intros HK Ha Hw. pose proof (rdm_waiting _ _ _ _ HK Ha Hw) as Hne. destruct HK as (HK & Hrun & _).
  destruct (crit_run _ (proj2 HK)) as [thr Hthr]. by rewrite (rdm_other _ _ _ _ thr).
Qed.

Lemma _send_spec k Q port_id message size :
  kernel_at k Q -> km_map (thread_tree k) !! PORT_IDLE ≠ Some (running k) -> port_writable k Q port_id message size ->
  wp (_send port_id message size) k (op_post (send_rel k Q port_id message size)).
Proof.
  intros HKa Hi Hcp. destruct (running_facts _ _ HKa) as (me & Hme & Hr & Hw). pose proof HKa as (HK0 & Hrun & _).
  pose proof (kcrit_serialized _ _ HK0) as HK.
  unfold _send, fail_with, ret. wp_enter. wp_step. unfold get_thread_ptr, thread_tree_get. wp_step. cbn.
  rewrite (tree_lookup _ _ _ HK0). unfold send_rel.
  destruct (km_map (thread_tree k) !! port_id) as [p|] eqn:Hp; [|by eapply leave_op].
  destruct (tree_thread _ _ _ _ HK0 Hp) as (th & Ha & _). wp_step. eapply wp_thread; [done|].
  destruct (opened (port th)) eqn:Ho; cbn [negb].
  2:{ eapply leave_op; [done|done|]. exists th, me. by rewrite Ho. }
  destruct (max_call (port th) <? size) eqn:Hsz.
  { eapply leave_op; [done|done|]. exists th, me. by rewrite Ho, Hsz. }
  destruct (port_queues _ _ _ _ HK0 Ha Ho) as [[lc Hlc] [lr Hlr]].
  do 3 wp_step. eapply wp_thread; [done|]. wp_step. eapply (wp_queue_head _ Q); [done..|]. rewrite Hlr.
  destruct lr as [|tp lr]; cbn [fmap option_fmap option_map head link_of].
  - destruct (enqueue_block_spec (serialized k) Q me (LCaller p) lc
      (WaitReason wait_send (wresult (wait_reason me)) size message (create_ipc_tag (thread_id me) 0)))
      as (A' & HA & Hwp); try done.
    { exists (sig_of th). split; [by apply sgm_lookup|done]. }
    wp_step. eapply wp_enqueue; [exact HA|].
    wp_step. eapply wp_upd_thread; [done|]. wp_step. eapply wp_upd_thread; [apply lookup_insert_eq|]. kred.
    wp_step. eapply wp_upd_thread; [apply lookup_insert_eq|]. kred.
    wp_step. eapply wp_upd_thread; [apply lookup_insert_eq|]. kred.
    wp_step. eapply wp_mono; [exact Hwp|]. intros [] k' (k1 & Q' & H1 & H2 & H3 & H4 & _ & H5). wp_step.
    eexists k1, _, Q'. split_and!; [exact H1| |done|done]. exists th, me. rewrite Ho, Hsz, Hlc. by split_and!.
  - destruct (receiver_thread _ _ _ _ _ HK0 Hlr) as (w & Hw' & Hrw & Hww).
    wp_step. cbn [getThreadWaiting]. wp_step. wp_step. eapply wp_thread; [done|]. wp_step.
    destruct (Hcp p Hp tp lr w Hlr Hw') as [[e u] Em]. eapply wp_copy; [done|exact Em|].
    pose proof (kcrit_umem _ _ u HK) as HKu. destruct (e =? 0) eqn:Ee; cbn [negb].
    + wp_step. eapply wp_mono; [by apply (deliver_spec _ Q tp w)|]. intros [] k1 (H1 & H2 & H3).
      eapply leave_op; [exact H1| |].
      * replace (running k1) with (running k) by (by rewrite H2). rewrite H3.
        exact (running_stays _ _ _ _ _ HKa Hw' Hww).
      * exists th, me. rewrite Ho, Hsz. cbn. do 2 (split; [done|]). exists w. split; [done|]. exists e, u. rewrite Ee. by split_and!.
    + eapply leave_op; [exact HKu|done|]. exists th, me. rewrite Ho, Hsz. cbn. do 2 (split; [done|]).
      exists w. split; [done|]. exists e, u. by rewrite Ee.
Qed.

(** ** Receiving *)

(** A caller whose message has been taken waits for the answer; a sender is
    released. *)
Definition accepted (th : thread_t) : thread_t :=
  match wtype (wait_reason th) with
  | wait_call => set_wait (set_wtype wait_reply) th
  | _ => woken th
  end.

Definition accept_queues k (tp : Z) (th : thread_t) Q : queues :=
  match wtype (wait_reason th), km_map (reply_tree k) !! key_of_ipc (ipc_key (wait_reason th)) with
  | wait_call, Some r => <[LReply r := [tp]]> (unhook tp Q)
  | _, _ => woken_queues tp th (unhook tp Q)
  end.

Lemma reply_lookup k Q key : kcrit k Q -> km_get (reply_tree k) key = km_map (reply_tree k) !! key.
Proof. intros [HC _]. apply km_get_law, (rep_tree _ _ _ _ (c_rep _ _ _ _ _ HC)). Qed.

(** A waiting thread whose wait reason changes, consistently with the queues. *)
Lemma kcrit_rewait k Q A' a th th' :
  crit k -> threads k !! a = Some th -> waiting (status th) = true -> status th' = status th ->
  sig_of th' = sig_of th -> wstate_of (wait_reason th') ≠ WNone ->
  core (set_lists A' k) Q (sgm (threads k)) (rdm (threads k))
    (<[a := wstate_of (wait_reason th')]> (wsm (threads k))) ->
  kcrit (set_threads (<[a := th']> (threads k)) (set_lists A' k)) Q.
Proof.
  intros HR Ha Hw Hst Hsg Hne HC. split.
  - cbn. rewrite (sgm_update _ _ _ _ Ha Hsg), wsm_insert.
    apply sig_of_eq in Hsg as (_ & Hp & _).
    rewrite (rdm_update _ _ th th' Ha) by congruence. apply (core_upd (set_lists A' k)); [done|].
    by eapply elem_of_dom_2.
  - apply (crit_upd (set_lists A' k) a th); [by eapply crit_ext|done| |done| |].
    + destruct (crit_threads _ HR a th Ha) as [Hv Hwi]. split; rewrite Hst; [done|]. naive_solver.
    + left. intros E. destruct (crit_idle _ HR) as (b & tb & Hb & Htb & Hrb & _).
      apply waiting_not_ready in Hw. cbn in E. congruence.
    + intros E. rewrite E in Hst. by rewrite <- Hst in Hw.
Qed.

Lemma accept_spec k Q tp th o l :
  kcrit k Q -> threads k !! tp = Some th -> Q !! LCaller o = Some (tp :: l) ->
  wp (accept tp) k (λ _ k', kcrit k' (accept_queues k tp th Q) /\ qframe k k' /\
    threads k' = <[tp := accepted th]> (threads k)).
Proof.
  intros HK Ha Hq. destruct (caller_thread _ _ _ _ _ HK Hq) as (th' & Ha' & Hww & Hwt).
  assert (th' = th) as -> by congruence.
  assert (Hne : wstate_of (wait_reason th) ≠ WNone) by (unfold wstate_of; by destruct Hwt as [-> | ->]).
  destruct (unhook_spec k Q tp th HK Ha Hne) as (A' & HA & HU).
  unfold accept, accept_queues, accepted. wp_step. eapply wp_remove; [exact HA|].
  wp_step. eapply wp_thread; [done|].
  destruct Hwt as [Hwt|Hwt]; rewrite Hwt.
  2:{ eapply wp_mono; [by apply (release_spec _ (unhook tp Q) tp th)|].
      intros [] k' (H1 & H2 & H3). split_and!; [done| |done]. rewrite H2. done. }
  set (key := key_of_ipc (ipc_key (wait_reason th))).
  assert (Hws : wsm (threads k) !! tp = Some (WCall key)).
  { rewrite (wsm_lookup _ _ _ Ha). unfold wstate_of. by rewrite Hwt. }
  pose proof HK as [HC HR]. pose proof (c_w _ _ _ _ _ HC) as HW.
  destruct (w_call _ _ _ _ HW tp key Hws) as (r & Hr & Hl).
  wp_step. unfold reply_tree_get. wp_step. cbn. rewrite (reply_lookup _ _ _ HK), Hr.
  wp_step. apply wp_some.
  assert (Hl' : unhook tp Q !! LReply r = Some []) by (by rewrite unhook_lookup, Hl).
  destruct (core_enwait (set_lists A' k) (unhook tp Q) _ _ _ (LReply r) [] tp WReply (proj1 HU) Hl')
    as (A2 & HA2 & HC2); try done.
  { apply lookup_insert_eq. }
  { by exists key. }
  { split; [done|]. intros b key' r' Hb Hr' [= <-]. cbn in Hr'.
    assert (key' = key) as -> by (by eapply (w_rminj _ _ _ _ HW)).
    rewrite lookup_insert_Some in Hb. destruct Hb as [[_ ?]|[Hb1 Hb2]]; [done|].
    apply Hb1. by eapply (w_inj _ _ _ _ HW). }
  wp_step. eapply wp_enqueue; [exact HA2|]. eapply wp_upd_thread; [done|].
  split_and!; [|done|done]. cbn [app] in HC2. rewrite insert_insert_eq in HC2.
  apply (kcrit_rewait k _ A2 tp th); done.
Qed.

Definition receive_rel k Q (port_id message : Z) (o : outcome) k1 Q1 : Prop :=
  exists me, threads k !! running k = Some me /\
  if negb (flag (port me) =? 0) then
    o = Return E_RLWAI None /\ Q1 = Q /\
    k1 = set_threads (<[running k := set_port (set_flag 0) me]> (threads k)) (serialized k)
  else match km_map (thread_tree k) !! port_id with
  | None => o = Return E_NOEXS None /\ unchanged k Q k1 Q1
  | Some p => exists th, threads k !! p = Some th /\
      if negb (opened (port th)) then o = Return E_NOEXS None /\ unchanged k Q k1 Q1
      else match Q !! LCaller p with
           | Some (tp :: _) => exists w, threads k !! tp = Some w /\
               let size := ipc_size (wait_reason w) in
               exists e u, memcpy_u2k (umem k) (cpu_cr3 (cpu k)) w message (ipc_message (wait_reason w)) size = Some (e, u) /\
               if e =? 0 then
                 o = Return size (Some (ipc_key (wait_reason w))) /\ qframe (set_umem u (serialized k)) k1 /\
                 threads k1 = <[tp := accepted w]> (threads k) /\ Q1 = accept_queues k tp w Q
               else o = Return E_PAR None /\ k1 = set_umem u (serialized k) /\ Q1 = Q
           | _ =>
               o = Block KReceive /\ qframe (serialized k) k1 /\
               threads k1 = <[running k := blocked (set_wtype wait_receive (set_ipc_message message (wait_reason me))) me]>
                              (threads k) /\
               Q1 = unready (running k) (<[LReceiver p := default [] (Q !! LReceiver p) ++ [running k]]> Q)
           end
  end.

Lemma ipc_receive_spec k Q port_id message :
  kernel_at k Q -> km_map (thread_tree k) !! PORT_IDLE ≠ Some (running k) -> port_readable k Q port_id message ->
  wp (ipc_receive port_id message) k (op_post (receive_rel k Q port_id message)).
Proof.
  intros HKa Hi Hcp. destruct (running_facts _ _ HKa) as (me & Hme & Hr & Hw). pose proof HKa as (HK0 & Hrun & _).
  pose proof (kcrit_serialized _ _ HK0) as HK.
  unfold ipc_receive, fail_with, ret, receive_rel. wp_enter. do 3 wp_step. eapply wp_thread; [done|].
  cbn [running serialized set_sync].
  destruct (flag (port me) =? 0) eqn:Hf; cbn [negb].
  2:{ wp_step. eapply wp_upd_thread; [done|].
      eapply leave_op; [by eapply (kcrit_upd (serialized k))| |exists me; by rewrite Hf].
      cbn. by rewrite (rdm_update _ _ _ (set_port (set_flag 0) me) Hme). }
  wp_step. unfold get_thread_ptr, thread_tree_get. wp_step. cbn. rewrite (tree_lookup _ _ _ HK0).
  destruct (km_map (thread_tree k) !! port_id) as [p|] eqn:Hp.
  2:{ eapply leave_op; [done|done|]. exists me. by rewrite Hf. }
  destruct (tree_thread _ _ _ _ HK0 Hp) as (th & Ha & _). wp_step. eapply wp_thread; [done|].
  destruct (opened (port th)) eqn:Ho; cbn [negb].
  2:{ eapply leave_op; [done|done|]. exists me. rewrite Hf. split; [done|]. exists th. by rewrite Ho. }
  destruct (port_queues _ _ _ _ HK0 Ha Ho) as [[lc Hlc] [lr Hlr]].
  wp_step. eapply (wp_queue_head _ Q); [done..|]. rewrite Hlc.
  destruct lc as [|tp lc]; cbn [fmap option_fmap option_map head link_of].
  - destruct (enqueue_block_spec (serialized k) Q me (LReceiver p) lr
      (set_wtype wait_receive (set_ipc_message message (wait_reason me)))) as (A' & HA & Hwp); try done.
    { exists (sig_of th). split; [by apply sgm_lookup|done]. }
    wp_step. eapply wp_enqueue; [exact HA|].
    wp_step. eapply wp_upd_thread; [done|]. wp_step. eapply wp_upd_thread; [apply lookup_insert_eq|]. kred.
    wp_step. eapply wp_mono; [exact Hwp|]. intros [] k' (k1 & Q' & H1 & H2 & H3 & H4 & _ & H5). wp_step.
    eexists k1, _, Q'. split_and!; [exact H1| |done|done]. exists me. rewrite Hf. split; [done|].
    exists th. rewrite Ho, Hlr. by split_and!.
  - destruct (caller_thread _ _ _ _ _ HK0 Hlc) as (w & Hw' & Hww & _).
    wp_step. cbn [getThreadWaiting]. wp_step. wp_step. eapply wp_thread; [done|]. wp_step.
    destruct (Hcp p Hp tp lc w Hlc Hw') as [[e u] Em]. eapply wp_copy; [done|exact Em|].
    pose proof (kcrit_umem _ _ u HK) as HKu. destruct (e =? 0) eqn:Ee; cbn [negb].
    + wp_step. eapply wp_mono; [by apply (accept_spec _ Q tp w p lc)|]. intros [] k1 (H1 & H2 & H3).
      eapply leave_op; [exact H1| |].
      * replace (running k1) with (running k) by (by rewrite H2). rewrite H3.
        exact (running_stays _ _ _ _ _ HKa Hw' Hww).
      * exists me. rewrite Hf. split; [done|]. exists th. rewrite Ho. split; [done|]. exists w.
        split; [done|]. exists e, u. rewrite Ee. by split_and!.
    + eapply leave_op; [exact HKu|done|]. exists me. rewrite Hf. split; [done|].
      exists th. rewrite Ho. split; [done|]. exists w. split; [done|]. exists e, u. by rewrite Ee.
Qed.

(** ** Tags *)

Lemma u32_s32 x : is_u32 x -> u32 (s32 x) = x.
Proof.
  unfold is_u32, u32, s32. intros Hx. rewrite Zminus_mod_idemp_l.
  replace (x + 2 ^ 31 - 2 ^ 31) with x by lia. by apply Z.mod_small.
Qed.

Lemma tag_word p key : 0 <= p < 2 ^ 16 -> 0 <= key < 2 ^ 16 ->
  u32 (create_ipc_tag p key) = Z.lor (Z.shiftl key 16) p /\ is_u32 (Z.lor (Z.shiftl key 16) p).
Proof.
  intros Hp Hk. assert (Hr : is_u32 (Z.lor (Z.shiftl key 16) p)).
  { rewrite Z.shiftl_mul_pow2 by lia. rewrite <- Z.add_nocarry_lor.
    - unfold is_u32. lia.
    - rewrite <- Z.shiftl_mul_pow2 by lia. apply Z.bits_inj'. intros i Hi. rewrite Z.land_spec, Z.bits_0.
      destruct (Z.ltb_spec i 16); [by rewrite Z.shiftl_spec_low by lia|].
      assert (2 ^ 16 <= 2 ^ i) by (apply Z.pow_le_mono_r; lia).
      assert (Z.testbit p i = false) as -> by (apply Z.testbit_false; [lia|]; by rewrite Z.div_small by lia).
      apply andb_false_r. }
  split; [|done]. unfold create_ipc_tag. rewrite (u32_small key), (u32_small p), (u32_small (Z.shiftl key 16));
    [by apply u32_s32|..]; unfold is_u32; try lia. rewrite Z.shiftl_mul_pow2; lia.
Qed.

Lemma key_of_create p key : 0 <= p < 2 ^ 16 -> 0 <= key < 2 ^ 16 -> key_of_ipc (create_ipc_tag p key) = key.
Proof.
  intros Hp Hk. destruct (tag_word p key Hp Hk) as [E _]. unfold key_of_ipc. rewrite E, Z.shiftr_lor.
  rewrite Z.shiftr_shiftl_l, Z.shiftl_0_r by lia. rewrite (Z.shiftr_div_pow2 p), Z.div_small by lia.
  rewrite Z.lor_0_r. apply s32_small. unfold is_s32. lia.
Qed.

Lemma port_of_create p key : 0 <= p < 2 ^ 16 -> 0 <= key < 2 ^ 16 -> port_of_ipc (create_ipc_tag p key) = p.
Proof.
  intros Hp Hk. destruct (tag_word p key Hp Hk) as [E _]. unfold port_of_ipc. rewrite E, Z.land_lor_distr_l.
  change 0xffff with (Z.ones 16). rewrite !Z.land_ones by lia. rewrite Z.shiftl_mul_pow2 by lia.
  rewrite Z.mod_mul, Z.mod_small by lia. apply s32_small. unfold is_s32. lia.
Qed.

(** ** The end of a rendezvous *)

(** [k'] differs from [k] in its rendezvous and the memory for them. *)
Definition rdv_frame k k' : Prop :=
  k' = with_rdv k' k /\
  live_threads (memory k') = live_threads (memory k) /\ live_pages (memory k') = live_pages (memory k).

(** The rendezvous [key] is gone, if there was one. *)
Definition rdv_gone (key : Z) k k' : Prop :=
  km_map (reply_tree k') = delete key (km_map (reply_tree k)) /\
  match km_map (reply_tree k) !! key with
  | Some r => replies k' = delete r (replies k) /\
      live_replies (memory k') = live_replies (memory k) ∖ {[r]} /\
      free (reply_sequence k') = {[key]} ∪ free (reply_sequence k)
  | None => replies k' = replies k /\ live_replies (memory k') = live_replies (memory k) /\
      reply_sequence k' = reply_sequence k
  end.

Lemma crit_rdv k k' : crit k -> rdv_frame k k' -> crit k'.
Proof. intros HC [E _]. eapply crit_ext; [done|by rewrite E..]. Qed.

(** Nobody waits on the rendezvous [key], or to be received under it. *)
Definition rdv_unused k Q (key : Z) : Prop :=
  (forall r, km_map (reply_tree k) !! key = Some r -> Q !! LReply r = Some []) /\
  (forall a, wsm (threads k) !! a ≠ Some (WCall key)).

(** A rendezvous is freed whether or not it is in use; the invariant holds
    afterwards if it was not. *)
Lemma release_rendezvous_frees k Q key :
  kcrit k Q ->
  wp (release_rendezvous key) k (λ _ k', rdv_frame k k' /\ rdv_gone key k k' /\ (rdv_unused k Q key -> kcrit k' Q)).
Proof.
  intros [HC HR]. pose proof (c_rep _ _ _ _ _ HC) as HP.
  destruct (km_remove_law (reply_tree k) key (rep_tree _ _ _ _ HP)) as (t & Et & Hwf & Hm).
  unfold release_rendezvous. wp_step. eexists _, _.
  split; [unfold reply_tree_remove; rewrite Et; reflexivity|].
  destruct (km_map (reply_tree k) !! key) as [r|] eqn:Hr.
  - destruct (rep_key _ _ _ _ HP key r Hr) as [Hk Hnf].
    destruct (reply_free_law (memory k) r (reg_mem _ _ _ (c_reg _ _ _ _ _ HC))) as (m & Em & Hm' & Hlt & Hlp & Hlr).
    { apply (rep_live _ _ _ _ HP). by exists key. }
    wp_step. eexists _, _. split; [unfold slab_free_reply; cbn; rewrite Em; reflexivity|].
    destruct (sequence_release_spec (reply_sequence k) key (rep_seq _ _ _ _ HP)) as (s & Es & Hws & Hfs & _).
    { unfold MAX_THREAD in Hk. lia. }
    rewrite decide_True in Hfs by (rewrite (rep_blocks _ _ _ _ HP); unfold MAX_THREAD in *; lia).
    eexists _, _. split; [unfold release_sequence; cbn; rewrite Es; reflexivity|].
    assert (Hfr : rdv_frame k (set_reply_sequence s (set_replies (delete r (replies k)) (set_memory m (set_reply_tree t k))))).
    { by split_and!. }
    split; [exact Hfr|]. split; [unfold rdv_gone; rewrite Hr; by split_and!|]. intros [Hring Hcall]. split.
    + eapply core_del_reply; try done; [by apply Hring|]. by eapply sequence_release_blocks.
    + by eapply crit_rdv.
  - wp_step. assert (Hfr : rdv_frame k (set_reply_tree t k)) by (by split_and!; [destruct k|..]).
    split; [exact Hfr|]. split; [unfold rdv_gone; rewrite Hr; by split_and!|]. intros _. split.
    + destruct HC. split; try done.
      * cbn. rewrite Hm, delete_id by done. done.
      * destruct c_rep. split; cbn; try done; rewrite Hm, delete_id; done.
    + by eapply crit_rdv.
Qed.

Lemma release_rendezvous_spec k Q key :
  kcrit k Q ->
  (forall r, km_map (reply_tree k) !! key = Some r -> Q !! LReply r = Some []) ->
  (forall a, wsm (threads k) !! a ≠ Some (WCall key)) ->
  wp (release_rendezvous key) k (λ _ k', kcrit k' Q /\ rdv_frame k k' /\ rdv_gone key k k').
Proof.
  intros HK Hring Hcall. eapply wp_mono; [by apply release_rendezvous_frees|].
  intros [] k' (H1 & H2 & H3). split; [by apply H3|done].
Qed.

(** ** Replying *)

(** An answer that can be delivered: nobody still waits to be received under
    [key], and the answer fits and can be copied to the caller that waits for
    it. *)
Definition reply_guard k Q (key message size : Z) : Prop :=
  (forall a, wsm (threads k) !! a ≠ Some (WCall key)) /\
  forall r tp l rp w, km_map (reply_tree k) !! key = Some r -> Q !! LReply r = Some (tp :: l) ->
    replies k !! r = Some rp -> threads k !! tp = Some w ->
    size <= reply_max rp /\
    exists u, memcpy_k2u (umem k) (cpu_cr3 (cpu k)) w (ipc_message (wait_reason w)) message size = Some (0, u).

Definition reply_rel k Q (key message size : Z) (o : outcome) k1 Q1 : Prop :=
  match km_map (reply_tree k) !! key with
  | None => o = Return E_OBJ None /\ Q1 = Q /\ rdv_frame (serialized k) k1 /\ rdv_gone key k k1
  | Some r => exists rp, replies k !! r = Some rp /\
      match Q !! LReply r with
      | Some (tp :: _) => exists w u, threads k !! tp = Some w /\
          memcpy_k2u (umem k) (cpu_cr3 (cpu k)) w (ipc_message (wait_reason w)) message size = Some (0, u) /\
          o = Return E_OK None /\ rdv_gone key k k1 /\
          (exists k0, qframe (set_umem u (serialized k)) k0 /\ rdv_frame k0 k1) /\
          threads k1 = <[tp := woken (set_wait (set_ipc_size size) w)]> (threads k) /\
          Q1 = woken_queues tp w (unhook tp Q)
      | _ => o = Return (if reply_max rp <? size then E_PAR else E_OBJ) None /\ Q1 = Q /\
          rdv_frame (serialized k) k1 /\ rdv_gone key k k1
      end
  end.

Lemma rdv_threads k k' : rdv_frame k k' -> threads k' = threads k /\ running k' = running k.
Proof. intros [E _]. by rewrite E. Qed.

Lemma reply_object k Q key r :
  kcrit k Q -> km_map (reply_tree k) !! key = Some r ->
  exists rp l, replies k !! r = Some rp /\ Q !! LReply r = Some l /\ (length l <= 1)%nat.
Proof.
  intros [HC _] Hr. destruct (w_rdv _ _ _ _ (c_w _ _ _ _ _ HC) key r Hr) as (l & Hl & Hlen).
  pose proof (c_rep _ _ _ _ _ HC) as HP.
  assert (r ∈ dom (replies k)) as [rp Hrp]%elem_of_dom.
  { rewrite (rep_dom _ _ _ _ HP). apply (rep_live _ _ _ _ HP). by exists key. }
  by exists rp, l.
Qed.

Lemma unhook_single Q a r : Q !! LReply r = Some [a] -> unhook a Q !! LReply r = Some [].
Proof.
  intros E. rewrite unhook_lookup, E. cbn [fmap option_fmap option_map wait_guard].
  by rewrite filter_cons_False, filter_nil by (intros Hne; by apply Hne).
Qed.

Lemma wsm_woken k tp w key :
  (forall a, wsm (threads k) !! a ≠ Some (WCall key)) ->
  forall a, wsm (<[tp := woken w]> (threads k)) !! a ≠ Some (WCall key).
Proof.
  intros Hc a. rewrite wsm_insert. destruct (decide (a = tp)) as [->|]; [by rewrite lookup_insert_eq|].
  rewrite lookup_insert_ne by done. apply Hc.
Qed.

Lemma _reply_delivers k Q key message size :
  kernel_at k Q -> reply_guard k Q key message size ->
  wp (_reply key message size) k (op_post (reply_rel k Q key message size)).
Proof.
  intros HKa [Hcall Hguard]. pose proof HKa as (HK0 & Hrun & _). pose proof (kcrit_serialized _ _ HK0) as HK.
  unfold _reply, fail_with, ret, reply_rel. wp_enter. wp_step. unfold reply_tree_get. wp_step. cbn.
  rewrite (reply_lookup _ _ _ HK0).
  assert (Hrel : forall (m : M rings outcome) o,
    (forall r, km_map (reply_tree k) !! key = Some r -> Q !! LReply r = Some []) ->
    (forall k1, kcrit k1 Q -> rdv_frame (serialized k) k1 -> rdv_gone key k k1 ->
       wp m k1 (op_post (λ x k1 Q1, x = o /\ Q1 = Q /\ rdv_frame (serialized k) k1 /\ rdv_gone key k k1))) ->
    wp (release_rendezvous key;; m) (serialized k)
      (op_post (λ x k1 Q1, x = o /\ Q1 = Q /\ rdv_frame (serialized k) k1 /\ rdv_gone key k k1))).
  { intros m o Hring Hm. wp_step. eapply wp_mono; [by apply (release_rendezvous_spec _ Q)|].
    intros [] k1 (H1 & H2 & H3). by apply Hm. }
  assert (Hready : forall k1, rdv_frame (serialized k) k1 -> is_Some (rdm (threads k1) !! running k1)).
  { intros k1 [-> ->]%rdv_threads. done. }
  destruct (km_map (reply_tree k) !! key) as [r|] eqn:Hr.
  2:{ apply Hrel; [done|]. intros k1 H1 H2 H3. eapply leave_op; [done|by apply Hready|done]. }
  destruct (reply_object _ _ _ _ HK0 Hr) as (rp & l & Hrp & Hl & Hlen).
  wp_step. eapply wp_reply_at; [done|]. rewrite Hl.
  destruct l as [|tp l].
  - assert (Hring : forall r', Some r = Some r' -> Q !! LReply r' = Some []) by (by intros r' [= <-]).
    eapply wp_mono with (op_post (λ x k1 Q1, x = Return (if reply_max rp <? size then E_PAR else E_OBJ) None /\ Q1 = Q /\
      rdv_frame (serialized k) k1 /\ rdv_gone key k k1)).
    2:{ intros x k' (k1 & Q1 & Q' & H1 & H2 & H3). exists k1, Q1, Q'. split_and!; [done| |naive_solver..]. by exists rp. }
    destruct (reply_max rp <? size).
    + apply Hrel; [done|]. intros k1 H1 H2 H3. eapply leave_op; [done|by apply Hready|done].
    + wp_step. eapply (wp_queue_head _ Q); [done..|]. cbn.
      apply Hrel; [done|]. intros k1 H1 H2 H3. by eapply dispatch_op.
  - destruct l; [|cbn in Hlen; lia]. clear Hrel.
    destruct (queued_thread _ _ _ _ tp HK0 Hl) as (w & Hw & Hf & Hww); [left|done|].
    destruct (Hguard r tp [] rp w eq_refl Hl Hrp Hw) as (Hsz & u & Hcp).
    destruct (Z.ltb_spec (reply_max rp) size); [lia|].
    wp_step. eapply (wp_queue_head _ Q); [done..|]. cbn [fmap option_fmap option_map head link_of].
    wp_step. cbn [getThreadWaiting]. wp_step. wp_step. eapply wp_thread; [done|]. wp_step.
    eapply wp_copy; [done|exact Hcp|]. cbn [Z.eqb negb].
    pose proof (kcrit_umem _ _ u HK) as HKu.
    assert (Hwt : wtype (wait_reason w) = wait_reply).
    { unfold wstate_of in Hf. by destruct (wtype (wait_reason w)). }
    assert (Hws : wstate_of (wait_reason w) = WReply) by (unfold wstate_of; by rewrite Hwt).
    destruct (unhook_spec _ Q tp w HKu Hw) as (A' & HA & HU); [by rewrite Hws|].
    wp_step. eapply wp_remove; [exact HA|]. wp_step. eapply wp_upd_thread; [done|]. wp_step.
    eapply wp_mono.
    { apply (release_spec _ (unhook tp Q) tp (set_wait (set_ipc_size size) w)); [|apply lookup_insert_eq|done].
      apply (unhooked_upd (set_lists A' (set_umem u (serialized k))) _ _ w); try done; [by rewrite Hws|].
      unfold wstate_of. cbn. by rewrite Hwt. }
    intros [] k1 (H1 & H2 & H3). cbn [threads set_threads set_lists set_umem serialized set_sync] in H3.
    rewrite insert_insert_eq in H3.
    assert (Ert : reply_tree k1 = reply_tree k) by (by rewrite H2).
    wp_step. eapply wp_mono.
    { apply (release_rendezvous_spec k1 (woken_queues tp w (unhook tp Q)) key H1).
      - intros r'. rewrite Ert, Hr. intros [= <-].
        rewrite woken_queues_reply. by apply unhook_single.
      - rewrite H3. by apply (wsm_woken k). }
    intros [] k2 (G1 & G2 & G3). eapply dispatch_op; [exact G1|]. exists rp. split; [done|].
    exists w, u. do 3 (split; [done|]). split.
    { revert G3. unfold rdv_gone. rewrite Ert, Hr.
      assert (replies k1 = replies k) as -> by (by rewrite H2).
      assert (memory k1 = memory k) as -> by (by rewrite H2).
      assert (reply_sequence k1 = reply_sequence k) as -> by (by rewrite H2). done. }
    split; [exists k1; split; [by rewrite H2|done]|]. split; [|done].
    rewrite (proj1 (rdv_threads _ _ G2)). exact H3.
Qed.

(** The rendezvous is freed and the call ends with [e], its copies having left
    [u]; nothing else has happened but a dispatch.  A thread that waited for
    the answer, or to be received, waits on; without one the invariant
    holds. *)
Definition reply_ended k Q (key e : Z) (u : pf_umem) (o : outcome) k' : Prop :=
  o = Return e None /\
  (exists k1 Q', kernel_at k1 Q' /\ dframe (set_umem u (serialized k)) Q k1 Q' /\
     rdv_frame k1 k' /\ rdv_gone key k1 k') /\
  (rdv_unused k Q key -> kernel_ok k').

(** The copy of an answer does not fault. *)
Definition reply_writable k Q (key message size : Z) : Prop :=
  forall r rp, km_map (reply_tree k) !! key = Some r -> replies k !! r = Some rp -> size <= reply_max rp ->
    copies_to k (Q !! LReply r) message size.

Definition reply_post k Q (key message size : Z) (o : outcome) k' : Prop :=
  match km_map (reply_tree k) !! key with
  | None => reply_ended k Q key E_OBJ (umem k) o k'
  | Some r => exists rp l, replies k !! r = Some rp /\ Q !! LReply r = Some l /\
      if reply_max rp <? size then reply_ended k Q key E_PAR (umem k) o k'
      else match l with
           | [] => reply_ended k Q key E_OBJ (umem k) o k'
           | tp :: _ => exists w e u, threads k !! tp = Some w /\
               memcpy_k2u (umem k) (cpu_cr3 (cpu k)) w (ipc_message (wait_reason w)) message size = Some (e, u) /\
               if e =? 0 then op_post (reply_rel k Q key message size) o k'
               else reply_ended k Q key E_PAR u o k'
           end
  end.

Lemma notify_rdv k Q port_id flg r k1 Q1 :
  notify_rel k Q port_id flg r k1 Q1 -> k1 = with_rdv k k1.
Proof.
  unfold notify_rel. destruct (_ !! port_id) as [a|]; [|intros (_ & -> & _); by destruct k].
  intros (th & _ & Hr). destruct (_ =? _); [destruct Hr as (_ & -> & _); by destruct k|].
  destruct Hr as (_ & Hq & _). rewrite Hq. by destruct k.
Qed.

(** A dispatch leaves the rendezvous and the memory as they are. *)
Lemma dframe_rdv k Q k' Q' : dframe k Q k' Q' -> k' = with_rdv k k'.
Proof.
  assert (HS : forall k1, sframe k1 k' -> k1 = with_rdv k k1 -> k' = with_rdv k k').
  { intros k1 [E _] E1. rewrite E, E1. by destruct k1. }
  intros [(k1 & Hr & Hs)|[_ Hs]]; (eapply HS; [exact Hs|]); [|by destruct k].
  destruct (delay_thread_start (sync k)); [|destruct Hr as [-> _]; by destruct k].
  destruct Hr as (s & r & Hn). apply notify_rdv in Hn. rewrite Hn at 1. done.
Qed.

Lemma reply_ends k Q key e u (leave : M rings unit) :
  kernel_at k Q -> leave = leave_serialize \/ leave = leave_serialize_and_dispatch ->
  wp (release_rendezvous key;; leave;; mret (Return e None)) (set_umem u (serialized k)) (reply_ended k Q key e u).
Proof.
  intros (HK0 & Hrun & _) Hleave. pose proof (kcrit_umem _ _ u (kcrit_serialized _ _ HK0)) as HK.
  set (b := set_umem u (serialized k)) in *.
  assert (Hl : blind leave /\ forall b Q, kcrit b Q -> is_Some (rdm (threads b) !! running b) ->
    wp leave b (λ _ k', exists Q', kernel_at k' Q' /\ dframe b Q k' Q')).
  { destruct Hleave as [-> | ->].
    - split; [apply blind_leave_serialize|]. intros b' Q' H1 H2. by apply leave_serialize_spec.
    - split; [apply blind_leave_and_dispatch|]. intros b' Q' H1 _.
      eapply wp_mono; [by apply leave_serialize_and_dispatch_spec|]. intros [] k' (Q1 & H3 & _ & H4 & _).
      exists Q1. split; [done|by left]. }
  destruct Hl as [Hb Hl]. wp_step. eapply wp_mono; [by apply release_rendezvous_frees|].
  intros [] k1 (Hfr & Hg & Hun). wp_step. eapply wp_mono.
  - apply (wp_when _ _ (rdv_unused b Q key) (λ _ k', exists k0, k' = with_rdv k1 k0 /\
      exists Q', kernel_at k0 Q' /\ dframe b Q k0 Q') (λ _ k', kernel_ok k')).
    + rewrite (proj1 Hfr). apply (wp_blind leave k1 b (λ _ k0, exists Q', kernel_at k0 Q' /\ dframe b Q k0 Q') Hb).
      apply (Hl b Q HK Hrun).
    + intros Hu. eapply wp_mono; [apply (Hl k1 Q (Hun Hu)); by destruct (rdv_threads _ _ Hfr) as [-> ->]|].
      intros [] k' (Q' & ? & _). by exists Q'.
  - intros [] k' [(k0 & -> & Q' & HK' & HD) Hok]. wp_step. split; [done|]. split; [|exact Hok].
    pose proof (dframe_rdv _ _ _ _ HD) as E0. exists k0, Q'. split; [done|]. split; [done|].
    destruct Hfr as (_ & H1 & H2). rewrite E0. split; [by split_and!|exact Hg].
Qed.

(** Answering, whatever the answer. *)
Lemma _reply_spec k Q key message size :
  kernel_at k Q -> reply_writable k Q key message size ->
  wp (_reply key message size) k (reply_post k Q key message size).
Proof.
  intros HKa Hcp. pose proof HKa as (HK0 & Hrun & _). pose proof (kcrit_serialized _ _ HK0) as HK.
  assert (Eu : serialized k = set_umem (umem k) (serialized k)) by (by destruct k).
  unfold reply_post. destruct (km_map (reply_tree k) !! key) as [r|] eqn:Hr.
  2:{ unfold _reply, fail_with, ret. wp_enter. wp_step. unfold reply_tree_get. wp_step. cbn.
      rewrite (reply_lookup _ _ _ HK0), Hr, Eu. apply reply_ends; [done|by left]. }
  destruct (reply_object _ _ _ _ HK0 Hr) as (rp & l & Hrp & Hl & Hlen).
  assert (Hstart : forall Φ, wp (if reply_max rp <? size then release_rendezvous key;; fail_with E_PAR
      else match link_of (LReply r) <$> head l with
        | Some q =>
            tp ← getThreadWaiting q; w ← thread tp;
            e ← copy memcpy_k2u tp (ipc_message (wait_reason w)) message size;
            if negb (e =? 0) then release_rendezvous key;; fail_with E_PAR
            else l_remove q;; upd_thread tp (set_wait (set_ipc_size size));; release tp;;
              release_rendezvous key;; leave_serialize_and_dispatch;; ret E_OK
        | None => release_rendezvous key;; leave_serialize_and_dispatch;; ret E_OBJ
        end) (serialized k) Φ -> wp (_reply key message size) k Φ).
  { intros Φ HΦ. unfold _reply. wp_enter. wp_step. unfold reply_tree_get. wp_step. cbn.
    rewrite (reply_lookup _ _ _ HK0), Hr. wp_step. eapply wp_reply_at; [done|].
    destruct (reply_max rp <? size); [done|]. wp_step. by eapply (wp_queue_head _ Q). }
  eapply wp_mono with (λ o k', if reply_max rp <? size then reply_ended k Q key E_PAR (umem k) o k'
      else match l with
           | [] => reply_ended k Q key E_OBJ (umem k) o k'
           | tp :: _ => exists w e u, threads k !! tp = Some w /\
               memcpy_k2u (umem k) (cpu_cr3 (cpu k)) w (ipc_message (wait_reason w)) message size = Some (e, u) /\
               if e =? 0 then op_post (reply_rel k Q key message size) o k'
               else reply_ended k Q key E_PAR u o k'
           end); [|intros o k' HΦ; by exists rp, l].
  destruct (reply_max rp <? size) eqn:Hsz.
  { apply Hstart. rewrite Eu. apply reply_ends; [done|by left]. }
  destruct l as [|tp l]; [apply Hstart; rewrite Eu; apply reply_ends; [done|by right]|].
  destruct (queued_thread _ _ _ _ tp HK0 Hl) as (w & Hw & _ & _); [left|done|].
  destruct (Hcp r rp Hr Hrp (proj1 (Z.ltb_ge _ _) Hsz) tp l w Hl Hw) as [[e u] Em].
  destruct (e =? 0) eqn:Ee.
  - eapply wp_mono; [apply (_reply_delivers k Q key message size HKa)|].
    + apply Z.eqb_eq in Ee as ->. apply Z.ltb_ge in Hsz. split.
      * intros a Ha. destruct (w_call _ _ _ _ (c_w _ _ _ _ _ (proj1 HK0)) a key Ha) as (r' & Hr' & Hl'). congruence.
      * intros r' tp' l' rp' w' Hr' Hl' Hrp' Hw'. simplify_eq. split; [done|by exists u].
    + intros o k' Hop. exists w, e, u. by rewrite Ee.
  - apply Hstart. cbn [fmap option_fmap option_map head link_of]. wp_step. cbn [getThreadWaiting]. wp_step. wp_step.
    eapply wp_thread; [done|]. wp_step. eapply wp_copy; [done|exact Em|]. rewrite Ee. cbn [negb].
    eapply wp_mono; [apply reply_ends; [done|by left]|]. intros o k' Hend. exists w, e, u. by rewrite Ee.
Qed.

(** A caller that waits for an answer that is not delivered. *)
Lemma reply_abandons k Q key e u r tp o k' :
  kernel_at k Q -> km_map (reply_tree k) !! key = Some r -> Q !! LReply r = Some [tp] ->
  reply_ended k Q key e u o k' ->
  o = Return e None /\ r ∉ live_replies (memory k') /\ lists k' !! LReply r = Some [LWaiting tp] /\
  (exists w, threads k' !! tp = Some w /\ wtype (wait_reason w) = wait_reply) /\ ¬ kernel_ok k'.
Proof.
  intros HKa Hr Hl (-> & (k1 & Q' & HK1 & HD & Hfr & Hg) & _). pose proof HKa as (HK0 & _).
  pose proof (dframe_lframe _ _ _ _ (kcrit_umem _ _ u (kcrit_serialized _ _ HK0)) HD) as [Et HT HQ].
  destruct Hg as [Hm Hg]. rewrite Et in Hm, Hg. cbn in Hm, Hg. rewrite Hr in Hg. destruct Hg as (_ & Hlive & _).
  destruct (rdv_threads _ _ Hfr) as [Eth _]. assert (Hgone : r ∉ live_replies (memory k')) by (rewrite Hlive; set_solver).
  destruct (c_links _ _ _ _ _ (proj1 (proj1 HK1))) as (I & HQ1 & _).
  assert (Hls : lists k' !! LReply r = Some [LWaiting tp]).
  { replace (lists k') with (lists k1) by (by rewrite (proj1 Hfr)). apply (q_lookup _ _ _ HQ1 (LReply r) [tp]). by rewrite HQ. }
  split_and!; [done|done|done| |].
  - destruct (queued_thread _ _ _ _ tp HK0 Hl) as (w & Hw & Hf & _); [left|done|].
    assert (Hwt : wtype (wait_reason w) = wait_reply) by (unfold wstate_of in Hf; by destruct (wtype (wait_reason w))).
    rewrite Eth. specialize (HT tp). cbn in HT. rewrite Hw in HT. destruct (threads k1 !! tp) as [w'|]; [|done].
    exists w'. split; [done|]. destruct HT as (_ & _ & [-> |[Hfr' _]]); [done|]. unfold flag_reason in Hfr'. by rewrite Hwt in Hfr'.
  - intros (Q2 & HK2 & _). destruct (c_links _ _ _ _ _ (proj1 HK2)) as (I2 & HQ2 & _).
    rewrite (q_guard _ _ _ HQ2 (LReply r)) in Hls by done. destruct (Q2 !! LReply r) as [l2|] eqn:Hl2; [|done].
    destruct (w_use _ _ _ _ (c_w _ _ _ _ _ (proj1 HK2)) _ _ Hl2) as [key2 Hk2]; [intros ->; discriminate Hls|].
    apply Hgone, (rep_live _ _ _ _ (c_rep _ _ _ _ _ (proj1 HK2))). by exists key2.
Qed.

(** ** Calling *)

(** The rendezvous is as before, a queue of no rendezvous apart. *)
Definition rdv_same k Q k1 Q1 : Prop :=
  rdv_frame k k1 /\ km_map (reply_tree k1) = km_map (reply_tree k) /\
  live_replies (memory k1) = live_replies (memory k) /\
  free (reply_sequence k1) = free (reply_sequence k) /\
  (Q1 = Q \/ exists r, r ∉ live_replies (memory k) /\ Q1 = <[LReply r := []]> Q).

(** A rendezvous [r] is reserved under [key]. *)
Definition reserved k (key r : Z) (port : ipc_t) k1 : Prop :=
  key ∈ free (reply_sequence k) /\ r ∉ live_replies (memory k) /\
  km_map (reply_tree k1) = <[key := r]> (km_map (reply_tree k)) /\
  free (reply_sequence k1) = free (reply_sequence k) ∖ {[key]} /\
  replies k1 = <[r := Reply (max_reply port)]> (replies k) /\
  live_replies (memory k1) = {[r]} ∪ live_replies (memory k).

Definition call_rel k Q (port_id message size : Z) (o : outcome) k1 Q1 : Prop :=
  match km_map (thread_tree k) !! port_id with
  | None => o = Return E_NOEXS None /\ unchanged k Q k1 Q1
  | Some p => exists th me, threads k !! p = Some th /\ threads k !! running k = Some me /\
      if negb (opened (port th)) then o = Return E_NOEXS None /\ unchanged k Q k1 Q1
      else if max_call (port th) <? size then o = Return E_PAR None /\ unchanged k Q k1 Q1
      else
        o = Return E_NOID None /\ free (reply_sequence k) = ∅ /\ unchanged k Q k1 Q1 \/
        o = Return E_NOMEM None /\ rdv_same (serialized k) Q k1 Q1 \/
        exists key r, let tag := create_ipc_tag (thread_id me) key in
          match Q !! LReceiver p with
          | Some (tp :: _) => exists w, threads k !! tp = Some w /\
              exists e u, memcpy_k2u (umem k) (cpu_cr3 (cpu k)) w (ipc_message (wait_reason w)) message size = Some (e, u) /\
              if e =? 0 then
                o = Block (KCall key) /\ reserved k key r (port th) k1 /\
                (exists k0, rdv_frame (set_umem u (serialized k)) k0 /\ qframe k0 k1) /\
                threads k1 =
                  <[running k := blocked (set_ipc_message message (set_wtype wait_reply (wait_reason me))) me]>
                    (<[tp := woken (delivered size tag w)]> (threads k)) /\
                Q1 = unready (running k) (<[LReply r := [running k]]>
                       (woken_queues tp w (unhook tp (<[LReply r := []]> Q))))
              else o = Return E_PAR None /\ exists A, rdv_same (set_lists A (set_umem u (serialized k))) Q k1 Q1
          | _ =>
              o = Block (KCall key) /\ reserved k key r (port th) k1 /\
              (exists k0, rdv_frame (serialized k) k0 /\ qframe k0 k1) /\
              threads k1 = <[running k := blocked (WaitReason wait_call E_OK size message tag) me]> (threads k) /\
              Q1 = unready (running k)
                     (<[LCaller p := default [] (Q !! LCaller p) ++ [running k]]> (<[LReply r := []]> Q))
          end
  end.

(** A key that is free names no rendezvous, and nobody calls with it. *)
Lemma free_key k Q key :
  kcrit k Q -> key ∈ free (reply_sequence k) ->
  km_map (reply_tree k) !! key = None /\ (forall a, wsm (threads k) !! a ≠ Some (WCall key)) /\ 0 < key < MAX_THREAD.
Proof.
  intros [HC _] Hf. pose proof (c_rep _ _ _ _ _ HC) as HP.
  assert (Hn : km_map (reply_tree k) !! key = None).
  { destruct (km_map (reply_tree k) !! key) as [r|] eqn:E; [|done]. by apply (rep_key _ _ _ _ HP) in E as [_ ?]. }
  split_and!; [done| |by apply (rep_free _ _ _ _ HP)..].
  intros a Ha. destruct (w_call _ _ _ _ (c_w _ _ _ _ _ HC) a key Ha) as (r & Hr & _). congruence.
Qed.

Lemma reserve_spec k Q p key seq (Φ : outcome -> kern -> Prop) (m : Z -> M rings outcome) (fl : M rings outcome)
    (sys : Z -> M rings outcome) :
  kcrit k Q -> sequence_get (reply_sequence k) = Some (key, seq) -> key ∈ free (reply_sequence k) ->
  sequence_wf seq -> free seq = free (reply_sequence k) ∖ {[key]} ->
  (forall k1, kcrit k1 Q -> rdv_same k Q k1 Q -> wp fl k1 Φ) ->
  (forall r k1 A, ring_initialize (lists k) (LReply r) = Some A ->
     kcrit k1 (<[LReply r := []]> Q) -> reserved k key r p k1 ->
     rdv_frame (set_lists A k) k1 -> wp (m r) k1 Φ) ->
  wp (node ← slab_alloc_reply;
      match node with
      | None => release_sequence key;; fl
      | Some r =>
          ok ← reply_tree_put key r;
          if negb ok then sys r
          else
            l_initialize (LReply r);;
            modify (λ k, set_replies (<[r := Reply (max_reply p)]> (replies k)) k);;
            m r
      end) (set_reply_sequence seq k) Φ.
Proof.
  intros HK Eseq Hkey Hwf Hfree Hfl Hm. pose proof HK as [HC HR]. pose proof (c_rep _ _ _ _ _ HC) as HP.
  destruct (free_key _ _ _ HK Hkey) as (Hrm & Hcall & Hrange).
  destruct (reply_alloc_law (memory k) (reg_mem _ _ _ (c_reg _ _ _ _ _ HC))) as (o & m1 & Em & Hm1 & Hlt & Hlp & Ho).
  wp_step. eexists _, _. split; [unfold slab_alloc_reply; cbn; rewrite Em; reflexivity|].
  destruct o as [r|].
  - destruct Ho as [Hr Hlr].
    destruct (km_put_fresh (reply_tree k) key r (rep_tree _ _ _ _ HP) Hrm) as (t & Et & Hwt & Hmt).
    wp_step. eexists _, _. split; [unfold reply_tree_put; cbn; rewrite Et; reflexivity|]. cbn [negb].
    destruct (core_new_reply k Q _ _ _ key seq r m1 t (Reply (max_reply p)) HC) as (A & HA & HC'); try done.
    { by eapply sequence_get_blocks. }
    wp_step. eapply wp_initialize; [exact HA|]. wp_step. wp_step.
    eapply (Hm r); [exact HA| |by split_and!|by split_and!].
    split; [exact HC'|by eapply crit_ext].
  - destruct (sequence_release_spec seq key Hwf) as (s & Es & Hws & Hfs & _); [unfold MAX_THREAD in *; lia|].
    pose proof (sequence_get_blocks _ _ _ Eseq) as Hb. pose proof (sequence_release_blocks _ _ _ Es) as Hb'.
    rewrite decide_True in Hfs by (rewrite Hb, (rep_blocks _ _ _ _ HP); unfold MAX_THREAD in *; lia).
    assert (Hfs' : free s = free (reply_sequence k)).
    { rewrite Hfs, Hfree, <- union_difference_L; [done|]. set_solver. }
    wp_step. eexists _, _. split; [unfold release_sequence; cbn; rewrite Es; reflexivity|].
    apply Hfl.
    + split; [|by eapply crit_ext].
      eapply (core_ext (set_reply_sequence s (set_memory m1 (set_thread_tree (thread_tree k) k)))); [|done..].
      pose proof (core_remem _ _ _ _ _ m1 (thread_tree k) HC Hm1 Hlt Hlp Ho
        (reg_wf _ _ _ (c_reg _ _ _ _ _ HC)) eq_refl) as [].
      split; try done. destruct c_rep. split; try done; cbn; try (by rewrite Hfs').
      by rewrite Hb', Hb.
    + split_and!; try done. by left.
Qed.

(** Undoing a reservation restores the rendezvous. *)
Lemma unreserve k key r p k1 k2 Q A :
  key ∈ free (reply_sequence k) -> km_map (reply_tree k) !! key = None ->
  reserved k key r p k1 -> rdv_frame (set_lists A k) k1 -> rdv_frame k1 k2 -> rdv_gone key k1 k2 ->
  rdv_same (set_lists A k) Q k2 (<[LReply r := []]> Q).
Proof.
  intros Hk Hn (_ & Hr & Hm & Hf & _ & Hlr) [E1 [Hlt1 Hlp1]] [E2 [Hlt2 Hlp2]] [Hm2 Hg].
  rewrite Hm, lookup_insert_eq in Hg. destruct Hg as (_ & Hlr2 & Hf2). split_and!.
  - split_and!; [|cbn in *; congruence..]. rewrite E2, E1. done.
  - by rewrite Hm2, Hm, delete_insert_id.
  - rewrite Hlr2, Hlr. cbn. set_solver.
  - rewrite Hf2, Hf. cbn. rewrite <- union_difference_L; [done|]. set_solver.
  - right. exists r. done.
Qed.

Lemma reserved_after k key r p k1 k2 :
  reserved k key r p k1 -> qframe k1 k2 -> reserved k key r p k2.
Proof. intros (H1 & H2 & H3 & H4 & H5 & H6) E. rewrite E. by split_and!. Qed.

Lemma rdv_qframe A k k1 k2 :
  rdv_frame (set_lists A k) k1 -> qframe k1 k2 -> exists k0, rdv_frame k k0 /\ qframe k0 k2.
Proof.
  intros [E1 [H1 H2]] E2. exists (set_lists (lists k) k1). split; [split_and!; [|done..]; by rewrite E1|by rewrite E2].
Qed.

Lemma thread_id_range k Q a th :
  kcrit k Q -> threads k !! a = Some th -> 0 <= thread_id th < 2 ^ 16.
Proof.
  intros [HC _] Ha. pose proof (reg_range _ _ _ (c_reg _ _ _ _ _ HC) a _ (sgm_lookup _ _ _ Ha)) as Hr.
  unfold MIN_MANUAL_ID, MAX_AUTO_ID, thread_id in *. cbn in Hr. lia.
Qed.

(** What a call does once its rendezvous is reserved: the queues of the port
    are [lr] and [lc]. *)
Definition call_going k Q (p : Z) (th me : thread_t) (message size : Z) (lr lc : list Z) (o : outcome) k1 Q1 : Prop :=
  exists key r, let tag := create_ipc_tag (thread_id me) key in
    match lr with
    | tp :: _ => exists w, threads k !! tp = Some w /\
        exists e u, memcpy_k2u (umem k) (cpu_cr3 (cpu k)) w (ipc_message (wait_reason w)) message size = Some (e, u) /\
        if e =? 0 then
          o = Block (KCall key) /\ reserved k key r (port th) k1 /\
          (exists k0, rdv_frame (set_umem u (serialized k)) k0 /\ qframe k0 k1) /\
          threads k1 =
            <[running k := blocked (set_ipc_message message (set_wtype wait_reply (wait_reason me))) me]>
              (<[tp := woken (delivered size tag w)]> (threads k)) /\
          Q1 = unready (running k) (<[LReply r := [running k]]>
                 (woken_queues tp w (unhook tp (<[LReply r := []]> Q))))
        else o = Return E_PAR None /\ exists A, rdv_same (set_lists A (set_umem u (serialized k))) Q k1 Q1
    | [] =>
        o = Block (KCall key) /\ reserved k key r (port th) k1 /\
        (exists k0, rdv_frame (serialized k) k0 /\ qframe k0 k1) /\
        threads k1 = <[running k := blocked (WaitReason wait_call E_OK size message tag) me]> (threads k) /\
        Q1 = unready (running k) (<[LCaller p := lc ++ [running k]]> (<[LReply r := []]> Q))
    end.

Lemma call_deliver k Q p th me message size lr lc key r k1 A :
  kernel_at k Q -> km_map (thread_tree k) !! PORT_IDLE ≠ Some (running k) ->
  threads k !! running k = Some me -> ready (status me) = true ->
  threads k !! p = Some th -> opened (port th) = true ->
  Q !! LReceiver p = Some lr -> Q !! LCaller p = Some lc -> copies_to k (Some lr) message size ->
  key ∈ free (reply_sequence k) -> kcrit k1 (<[LReply r := []]> Q) -> reserved (serialized k) key r (port th) k1 ->
  rdv_frame (set_lists A (serialized k)) k1 ->
  wp (self ← gets running;
      me ← thread self;
      let tag := create_ipc_tag (thread_id me) key in
      q ← l_head (LReceiver p);
      match q with
      | Some q =>
          tp ← getThreadWaiting q;
          w ← thread tp;
          e ← copy memcpy_k2u tp (ipc_message (wait_reason w)) message size;
          if negb (e =? 0) then release_rendezvous key;; leave_serialize;; mret (Return E_PAR None)
          else
            deliver tp size tag;;
            l_enqueue (LReply r) (LWaiting self);;
            upd_thread self (set_wait (set_wtype wait_reply));;
            upd_thread self (set_wait (set_ipc_message message));;
            wait self;;
            mret (Block (KCall key))
      | None =>
          l_enqueue (LCaller p) (LWaiting self);;
          upd_thread self (set_wait (set_ipc_size size));;
          upd_thread self (set_wait (set_ipc_key tag));;
          upd_thread self (set_wait (set_wtype wait_call));;
          upd_thread self (set_wait (set_ipc_message message));;
          wait self;;
          mret (Block (KCall key))
      end) k1 (op_post (λ o k1 Q1,
        o = Return E_NOID None /\ free (reply_sequence k) = ∅ /\ unchanged k Q k1 Q1 \/
        o = Return E_NOMEM None /\ rdv_same (serialized k) Q k1 Q1 \/
        call_going k Q p th me message size lr lc o k1 Q1)).
Proof.
  intros HKa Hi Hme Hr Ha Ho Hlr Hlc Hcp Hkey HK1 Hres Hfr. pose proof HKa as (HK0 & Hrun & _).
  destruct (free_key _ _ _ HK0 Hkey) as (Hrm & Hcall & Hrange).
  pose proof (rdv_threads _ _ Hfr) as [Et Er]. cbn in Et, Er.
  assert (Ei : thread_tree k1 = thread_tree k) by (by rewrite (proj1 Hfr)).
  assert (Hmap : km_map (reply_tree k1) !! key = Some r).
  { destruct Hres as (_ & _ & -> & _). apply lookup_insert_eq. }
  assert (Hcall1 : forall a, wsm (threads k1) !! a ≠ Some (WCall key)) by (by rewrite Et).
  do 3 wp_step. eapply wp_thread; [by rewrite Er, Et|].
  wp_step. eapply (wp_queue_head _ _ _ lr); [exact HK1|by rewrite lookup_insert_ne|].
  destruct lr as [|tp lr]; cbn [fmap option_fmap option_map head link_of].
  - destruct (enqueue_block_spec k1 (<[LReply r := []]> Q) me (LCaller p) lc
      (WaitReason wait_call (wresult (wait_reason me)) size message (create_ipc_tag (thread_id me) key)))
      as (A' & HA & Hwp); try done.
    + by rewrite Er, Et.
    + by rewrite Er, Ei.
    + by rewrite lookup_insert_ne.
    + exists (sig_of th). rewrite Et. split; [by apply sgm_lookup|done].
    + unfold wstate_of. cbn. rewrite key_of_create; [|by eapply thread_id_range|unfold MAX_THREAD in *; lia].
      split; [exists r; by rewrite lookup_insert_eq|done].
    + rewrite Er, Et in *.
      wp_step. eapply wp_enqueue; [exact HA|].
      wp_step. eapply wp_upd_thread; [cbn; by rewrite Et|]. wp_step. eapply wp_upd_thread; [apply lookup_insert_eq|]. kred.
      wp_step. eapply wp_upd_thread; [apply lookup_insert_eq|]. kred.
      wp_step. eapply wp_upd_thread; [apply lookup_insert_eq|]. kred.
      wp_step. rewrite Et. eapply wp_mono; [exact Hwp|].
      intros [] k' (k2 & Q' & H1 & H2 & H3 & H4 & _ & H5). wp_step.
      eexists k2, _, Q'. split_and!; [exact H1| |done|done]. right. right. exists key, r.
      split_and!; [done|by eapply (reserved_after (serialized k))|by eapply rdv_qframe|done|done].
  - destruct (receiver_thread _ _ _ _ _ HK0 Hlr) as (w & Hw & Hwt & Hww).
    pose proof (rdm_waiting _ _ _ _ HKa Hw Hww) as Hne.
    wp_step. cbn [getThreadWaiting]. wp_step. wp_step. eapply wp_thread; [by rewrite Et|]. wp_step.
    assert (Eu : umem k1 = umem k) by (by rewrite (proj1 Hfr)). assert (Ec : cpu k1 = cpu k) by (by rewrite (proj1 Hfr)).
    destruct (Hcp tp lr w eq_refl Hw) as [[e u] Em]. eapply wp_copy; [by rewrite Et|by rewrite Eu, Ec|].
    pose proof (kcrit_umem _ _ u HK1) as HKu.
    assert (Hgoing : forall o k2 Q2, (if e =? 0 then
          o = Block (KCall key) /\ reserved k key r (port th) k2 /\
          (exists k0, rdv_frame (set_umem u (serialized k)) k0 /\ qframe k0 k2) /\
          threads k2 =
            <[running k := blocked (set_ipc_message message (set_wtype wait_reply (wait_reason me))) me]>
              (<[tp := woken (delivered size (create_ipc_tag (thread_id me) key) w)]> (threads k)) /\
          Q2 = unready (running k) (<[LReply r := [running k]]>
                 (woken_queues tp w (unhook tp (<[LReply r := []]> Q))))
        else o = Return E_PAR None /\ exists A, rdv_same (set_lists A (set_umem u (serialized k))) Q k2 Q2) ->
        call_going k Q p th me message size (tp :: lr) lc o k2 Q2).
    { intros o k2 Q2 Hx. exists key, r. exists w. split; [done|]. by exists e, u. }
    assert (Hfru : rdv_frame (set_lists A (set_umem u (serialized k))) (set_umem u k1)).
    { destruct Hfr as [E1 [? ?]]. split_and!; [|done..]. rewrite E1. done. }
    destruct (e =? 0) eqn:Ee; cbn [negb].
    + wp_step. eapply wp_mono; [apply (deliver_spec _ _ tp w size _ HKu); [cbn; by rewrite Et|done]|].
      intros [] k2 (H1 & H2 & H3). cbn in H3. rewrite Et in H3.
      assert (Er2 : running k2 = running k) by (by rewrite H2).
      assert (Ert2 : reply_tree k2 = reply_tree k1) by (by rewrite H2).
      destruct (enqueue_block_spec k2 (woken_queues tp w (unhook tp (<[LReply r := []]> Q))) me (LReply r) []
        (set_ipc_message message (set_wtype wait_reply (wait_reason me)))) as (A' & HA & Hwp); try done.
      * by rewrite Er2, H3, lookup_insert_ne.
      * rewrite Er2. replace (thread_tree k2) with (thread_tree k) by (rewrite H2; cbn; by rewrite Ei). done.
      * by rewrite woken_queues_reply, unhook_lookup, lookup_insert_eq.
      * exists key. by rewrite Ert2.
      * cbn. split; [done|]. rewrite Ert2, H3. intros b key' r' Hb Hr' [= <-].
        assert (key' = key) as -> by (by eapply (w_rminj _ _ _ _ (c_w _ _ _ _ _ (proj1 HK1)))).
        by apply (wsm_woken k) in Hb.
      * rewrite Er2, Er in *. wp_step. eapply wp_enqueue; [exact HA|]. wp_step.
        eapply wp_upd_thread; [cbn; by rewrite H3, lookup_insert_ne|].
        wp_step. eapply wp_upd_thread; [apply lookup_insert_eq|]. kred. wp_step.
        eapply wp_mono; [exact Hwp|]. intros [] k' (k3 & Q' & G1 & G2 & G3 & G4 & _ & G5). wp_step.
        eexists k3, _, Q'. split_and!; [exact G1| |done|done]. right. right. apply Hgoing.
        pose proof (qframe_trans _ _ _ H2 G2) as H23.
        split_and!; [done| | |by rewrite G3, H3|done].
        -- eapply reserved_after; [|exact H23]. destruct Hres as (R1 & R2 & R3 & R4 & R5 & R6). by split_and!.
        -- by eapply rdv_qframe.
    + wp_step. eapply wp_mono; [apply (release_rendezvous_spec _ _ key HKu)|].
      * cbn. intros r'. rewrite Hmap. intros [= <-]. apply lookup_insert_eq.
      * done.
      * intros [] k2 (H1 & H2 & H3). eapply leave_op; [exact H1| |].
        { destruct (rdv_threads _ _ H2) as [-> ->]. cbn. by rewrite Et, Er. }
        right. right. apply Hgoing. split; [done|]. exists A.
        eapply (unreserve (set_umem u (serialized k)) key r (port th) (set_umem u k1)); done.
Qed.

Lemma ipc_call_spec k Q port_id message size :
  kernel_at k Q -> km_map (thread_tree k) !! PORT_IDLE ≠ Some (running k) -> port_writable k Q port_id message size ->
  wp (ipc_call port_id message size) k (op_post (call_rel k Q port_id message size)).
Proof.
  intros HKa Hi Hcp. destruct (running_facts _ _ HKa) as (me & Hme & Hr & Hw). pose proof HKa as (HK0 & Hrun & _).
  pose proof (kcrit_serialized _ _ HK0) as HK.
  unfold ipc_call, fail_with, ret. wp_enter. wp_step. unfold get_thread_ptr, thread_tree_get. wp_step. cbn.
  rewrite (tree_lookup _ _ _ HK0). unfold call_rel.
  destruct (km_map (thread_tree k) !! port_id) as [p|] eqn:Hp; [|by eapply leave_op].
  destruct (tree_thread _ _ _ _ HK0 Hp) as (th & Ha & _). wp_step. eapply wp_thread; [done|].
  destruct (opened (port th)) eqn:Ho; cbn [negb].
  2:{ eapply leave_op; [done|done|]. exists th, me. by rewrite Ho. }
  destruct (max_call (port th) <? size) eqn:Hsz.
  { eapply leave_op; [done|done|]. exists th, me. by rewrite Ho, Hsz. }
  destruct (port_queues _ _ _ _ HK0 Ha Ho) as [[lc Hlc] [lr Hlr]].
  eapply wp_mono with (op_post (λ o k1 Q1,
    o = Return E_NOID None /\ free (reply_sequence k) = ∅ /\ unchanged k Q k1 Q1 \/
    o = Return E_NOMEM None /\ rdv_same (serialized k) Q k1 Q1 \/ call_going k Q p th me message size lr lc o k1 Q1)).
  2:{ intros o k' (k1 & Q1 & Q' & H1 & H2 & H3). exists k1, Q1, Q'. split_and!; [done| |naive_solver..].
      exists th, me. rewrite Ho, Hsz, Hlr, Hlc. cbn. do 2 (split; [done|]). exact H2. }
  destruct (sequence_get_spec (reply_sequence k)) as (key & seq & Eseq & Hws & Hseq).
  { apply (rep_seq _ _ _ _ (c_rep _ _ _ _ _ (proj1 HK0))). }
  wp_step. eexists _, _. split; [unfold get_sequence; cbn; rewrite Eseq; reflexivity|].
  destruct Hseq as [(Hf & -> & ->)|[Hkey Hfree]].
  { cbn. eapply leave_op; [|done|by left; split_and!; [..|by destruct k]].
    replace (set_reply_sequence _ _) with (serialized k) by (by destruct k). done. }
  destruct (free_key _ _ _ HK0 Hkey) as (Hrm & Hcall & Hrange).
  destruct (Z.ltb_spec key 0); [lia|].
  eapply (reserve_spec (serialized k) Q (port th) key seq); try done.
  { intros k1 HK1 Hs. eapply leave_op; [done| |by right; left].
    destruct Hs as [[-> ->]%rdv_threads _]. done. }
  intros r k1 A HA HK1 Hres Hfr. eapply call_deliver; try done. rewrite <- Hlr. by apply Hcp.
Qed.

(** ** Ports *)

Lemma crit_port k a th f :
  crit k -> threads k !! a = Some th -> crit (set_threads (<[a := set_port f th]> (threads k)) k).
Proof.
  intros [C1 C2 C3 C4 C5 C6 C7] Ha. split; cbn; try done.
  - apply threads_ok_insert; [done|]. exact (C1 a th Ha).
  - destruct C2 as (b & tb & Hb & Htb & Hr & Hp). exists b. cbn.
    destruct (decide (b = a)) as [->|]; [|exists tb; by rewrite lookup_insert_ne].
    assert (tb = th) as -> by congruence. eexists. rewrite lookup_insert_eq. by split_and!.
  - intros b tb. rewrite lookup_insert_Some. intros [[<- <-]|[_ Hb]]; [exact (C3 _ _ Ha)|by apply C3].
  - intros tr. cbn. rewrite lookup_insert_Some. intros [[Hra <-]|[_ Htr]]; [subst a; exact (C4 th Ha)|by apply C4].
  - rewrite lookup_insert_is_Some. destruct (decide (a = running k)); auto.
Qed.

(** The ghost maps other than [sgm] do not see ports. *)
Lemma port_ghosts ths a th f :
  ths !! a = Some th ->
  rdm (<[a := set_port f th]> ths) = rdm ths /\ wsm (<[a := set_port f th]> ths) = wsm ths.
Proof. intros Ha. split; [by apply (rdm_update _ _ th)|by apply (wsm_update _ _ th)]. Qed.

Definition port_opened (pk : T_CPOR) (th : thread_t) : thread_t :=
  set_port (λ p, Port true (flag p) (poratr pk) (maxcmsz pk) (maxrmsz pk)) th.

Definition open_rel k Q (pk : option T_CPOR) (r : Z) k1 Q1 : Prop :=
  match pk with
  | None => r = E_PAR /\ k1 = k /\ Q1 = Q
  | Some pk =>
      if negb (poratr pk =? TA_TFIFO) then r = E_RSATR /\ k1 = k /\ Q1 = Q
      else exists me, threads k !! running k = Some me /\
        if opened (port me) then r = E_OBJ /\ unchanged k Q k1 Q1
        else r = E_OK /\ qframe (serialized k) k1 /\
          threads k1 = <[running k := port_opened pk me]> (threads k) /\
          Q1 = <[LReceiver (running k) := []]> (<[LCaller (running k) := []]> Q)
  end.

(** The queues of a closed port are empty, if it ever had any. *)
Lemma closed_queues k Q a th :
  kcrit k Q -> threads k !! a = Some th -> opened (port th) = false -> port_idle Q a.
Proof.
  intros [HC _] Ha Ho. pose proof (c_w _ _ _ _ _ HC) as HW.
  assert (Hn : ¬ exists s, sgm (threads k) !! a = Some s /\ sg_opened s = true).
  { intros (s & Hs & Ht). rewrite (sgm_lookup _ _ _ Ha) in Hs. simplify_eq. cbn in Ht. congruence. }
  split; by eapply w_unused.
Qed.

Lemma ipc_open_spec k Q pk : kernel_at k Q -> wp (ipc_open pk) k (op_post (open_rel k Q pk)).
Proof.
  intros HKa. pose proof HKa as (HK0 & Hrun & _). pose proof (kcrit_serialized _ _ HK0) as HK.
  destruct (crit_run _ (proj2 HK0)) as [me Hme]. unfold ipc_open, open_rel.
  assert (Hearly : forall (R : Z -> kern -> queues -> Prop) r, R r k Q -> wp (mret r) k (op_post R)).
  { intros R r Hr. wp_step. exists k, Q, Q. split_and!; [done|done|done|apply dframe_refl]. }
  destruct pk as [pk|]; [|by apply Hearly]. destruct (poratr pk =? TA_TFIFO); cbn [negb]; [|by apply Hearly].
  wp_enter. do 3 wp_step. eapply wp_thread; [done|]. wp_step. cbn [running serialized set_sync].
  destruct (opened (port me)) eqn:Ho.
  { wp_step. eapply leave_op; [done|done|]. exists me. by rewrite Ho. }
  destruct (closed_queues _ _ _ _ HK0 Hme Ho) as [Hc Hr].
  destruct (core_init_guard (serialized k) Q _ _ _ (LCaller (running k)) (proj1 HK)) as (A1 & HA1 & HC1); [done|done|].
  destruct (core_init_guard _ _ _ _ _ (LReceiver (running k)) HC1) as (A2 & HA2 & HC2);
    [done|by rewrite lookup_insert_ne|].
  wp_step. unfold clear. wp_step. eapply wp_upd_thread; [done|]. wp_step. eapply wp_initialize; [exact HA1|].
  wp_step. eapply wp_initialize; [exact HA2|]. eapply wp_upd_thread; [apply lookup_insert_eq|]. kred. wp_step.
  set (k1 := set_threads (<[running k := port_opened pk me]> (threads k)) (set_lists A2 (serialized k))).
  eapply (leave_op _ _ k1 (<[LReceiver (running k) := []]> (<[LCaller (running k) := []]> Q))).
  - destruct (port_ghosts (threads k) (running k) me (λ p, Port true (flag p) (poratr pk) (maxcmsz pk) (maxrmsz pk)) Hme)
      as [Erd Ews].
    split.
    + cbn. unfold port_opened. rewrite sgm_insert, Erd, Ews.
      eapply core_sig; [apply (core_upd (set_lists A2 (set_lists A1 (serialized k)))); [exact HC2|by eapply elem_of_dom_2]
        |by apply sgm_lookup|done..| | | |].
      * exact (proj1 (st_prio _ _ (c_st _ _ _ _ _ HC2) _ _ (sgm_lookup _ _ _ Hme))).
      * by right.
      * intros _. rewrite lookup_insert_eq, lookup_insert_ne, lookup_insert_eq by done. eauto.
      * done.
    + eapply crit_ext; [eapply (crit_port (serialized k) (running k) me); [exact (proj2 HK)|exact Hme]|done..].
  - cbn. unfold port_opened. by rewrite (proj1 (port_ghosts _ _ _ _ Hme)).
  - exists me. by rewrite Ho.
Qed.

(** ** Closing a port *)

(** A thread that waited on a port that is gone. *)
Definition dropped (th : thread_t) : thread_t := woken (set_wait (set_wresult E_DLT) th).

Definition drop_threads (l : list Z) (ths : tmap) : tmap := foldl (λ ths a, alter dropped a ths) ths l.

(** They join their ready queues in the order in which they waited. *)
Definition drop_queues (ths : tmap) (l : list Z) Q : queues :=
  foldl (λ Q a, from_option (λ th, woken_queues a th Q) Q (ths !! a)) Q l.

Lemma woken_queues_guard a th Q g l :
  wait_guard g = true -> woken_queues a th (<[g := l]> Q) = <[g := l]> (woken_queues a th Q).
Proof.
  intros Hg. unfold woken_queues. destruct (status th =? TTS_WAI); [|done].
  rewrite (lookup_insert_ne Q) by (by intros ->). apply insert_insert_ne. by intros <-.
Qed.

Lemma woken_queues_lookup a th Q g : wait_guard g = true -> woken_queues a th Q !! g = Q !! g.
Proof.
  intros Hg. unfold woken_queues. destruct (status th =? TTS_WAI); [|done].
  rewrite lookup_insert_ne; [done|]. by intros <-.
Qed.

Lemma drop_queues_guard ths l Q g l' :
  wait_guard g = true -> drop_queues ths l (<[g := l']> Q) = <[g := l']> (drop_queues ths l Q).
Proof.
  intros Hg. revert Q. induction l as [|a l IH]; intros Q; [done|]. cbn. destruct (ths !! a); cbn; [|apply IH].
  rewrite woken_queues_guard by done. apply IH.
Qed.

Lemma drop_queues_lookup ths l Q g : wait_guard g = true -> drop_queues ths l Q !! g = Q !! g.
Proof.
  intros Hg. revert Q. induction l as [|a l IH]; intros Q; [done|].
  unfold drop_queues in *. cbn. rewrite IH. destruct (ths !! a); [by apply woken_queues_lookup|done].
Qed.

(** Dropping one thread leaves the queues the others join. *)
Lemma drop_queues_alter ths l a Q : a ∉ l -> drop_queues (alter dropped a ths) l Q = drop_queues ths l Q.
Proof.
  intros Ha. revert Q. induction l as [|b l IH]; intros Q; [done|]. cbn.
  rewrite lookup_alter_ne by set_solver. apply IH. set_solver.
Qed.

Lemma drop_threads_lookup l ths a :
  a ∉ l -> drop_threads l ths !! a = ths !! a.
Proof.
  revert ths. induction l as [|b l IH]; intros ths Ha; [done|].
  unfold drop_threads in *. cbn. rewrite IH by set_solver. apply lookup_alter_ne. set_solver.
Qed.

(** Ghost signatures that agree with the threads on their priority. *)
Definition sig_prio (sg : gmap Z sig) (ths : tmap) : Prop :=
  forall a th, ths !! a = Some th -> exists s, sg !! a = Some s /\ sg_priority s = priority th.

Lemma release_all_loop_spec n g l k Q sg :
  core k Q sg (rdm (threads k)) (wsm (threads k)) -> crit k -> sig_prio sg (threads k) ->
  wait_guard g = true -> Q !! g = Some l -> (length l < n)%nat ->
  wp (release_all_loop n g) k (λ _ k',
    core k' (drop_queues (threads k) l (<[g := []]> Q)) sg (rdm (threads k')) (wsm (threads k')) /\ crit k' /\
    sig_prio sg (threads k') /\ qframe k k' /\ threads k' = drop_threads l (threads k)).
Proof.
  revert l k Q. induction n as [|n IH]; intros l k Q HC HR Hsg Hg Hl Hn; [lia|]. cbn [release_all_loop]. wp_step.
  destruct l as [|a l].
  { eapply wp_dequeue; [by eapply core_pick_empty|]. replace (set_lists (lists k) k) with k by (by destruct k).
    wp_step. unfold drop_queues. cbn. rewrite insert_id by done. split_and!; try done. apply qframe_refl. }
  destruct (c_links _ _ _ _ _ HC) as (I & HQ & _). pose proof (q_nodup _ _ _ HQ _ _ Hl) as [Hnd _]%NoDup_cons.
  destruct (w_mem _ _ _ _ (c_w _ _ _ _ _ HC) g _ a Hl) as (t & Ht & Hf); [left|done|].
  apply wsm_inv in Ht as (th & Ha & Ht).
  assert (Hw : waiting (status th) = true).
  { apply (crit_threads _ HR a th Ha). intros E. rewrite <- Ht, E in Hf. done. }
  destruct (core_pick _ _ _ _ _ _ _ _ HC Hl Hg) as (A' & HA & HC').
  eapply wp_dequeue; [exact HA|]. wp_step. cbn [getThreadWaiting]. wp_step. wp_step.
  eapply wp_upd_thread; [done|]. wp_step. kred.
  set (k1 := set_threads (<[a := set_wait (set_wresult E_DLT) th]> (threads k)) (set_lists A' k)).
  destruct (Hsg a th Ha) as (s & Hs & Hp).
  assert (HC1 : core k1 (<[g := l]> Q) sg (rdm (threads k1)) (<[a := WNone]> (wsm (threads k1)))).
  { cbn. rewrite (rdm_update _ _ th) by done. rewrite wsm_insert, insert_insert_eq.
    apply (core_upd (set_lists A' k)); [done|by eapply elem_of_dom_2]. }
  assert (HR1 : crit k1).
  { eapply (crit_ext (set_threads (<[a := set_wait (set_wresult E_DLT) th]> (threads k)) k)); [|done..].
    eapply crit_upd; [exact HR|exact Ha|exact (crit_threads _ HR a th Ha)|done| |exact (crit_only _ HR a th Ha)].
    left. intros E. destruct (crit_idle _ HR) as (b & tb & Hb & Htb & Hrb & _).
    apply waiting_not_ready in Hw. congruence. }
  eapply wp_mono; [apply (release_core k1 _ sg a (set_wait (set_wresult E_DLT) th) s HC1);
    [apply lookup_insert_eq|done|done|done]|].
  intros [] k2 (HC2 & Hf2 & Et2). cbn in Et2. rewrite insert_insert_eq in Et2. fold (dropped th) in Et2.
  assert (Ealt : threads k2 = alter dropped a (threads k)).
  { rewrite Et2. apply map_eq. intros b. destruct (decide (b = a)) as [->|].
    - by rewrite lookup_insert_eq, lookup_alter_eq, Ha.
    - by rewrite lookup_insert_ne, lookup_alter_ne. }
  eapply wp_mono; [apply (IH l k2 (<[g := l]> (woken_queues a th Q)))|].
  - change (woken_queues a (set_wait (set_wresult E_DLT) th)) with (woken_queues a th) in HC2.
    by rewrite woken_queues_guard in HC2.
  - eapply crit_ext; [by apply (crit_woken k1 a (set_wait (set_wresult E_DLT) th)); [|apply lookup_insert_eq|]
      | |by rewrite Hf2..]. cbn. by rewrite Et2, insert_insert_eq.
  - rewrite Et2. intros b tb. rewrite lookup_insert_Some. intros [[<- <-]|[_ Hb]]; [by exists s|by apply Hsg].
  - done.
  - apply lookup_insert_eq.
  - cbn in Hn. lia.
  - intros [] k3 (HC3 & HR3 & Hs3 & Hf3 & Et3). split_and!; [|done|done| |].
    + rewrite insert_insert_eq in HC3. cbn. rewrite Ha. cbn. rewrite woken_queues_guard by done.
      rewrite Ealt, drop_queues_alter in HC3 by done. exact HC3.
    + eapply qframe_trans; [|done]. rewrite Hf2. done.
    + rewrite Et3, Ealt. done.
Qed.

Lemma release_all_spec g l k Q sg :
  core k Q sg (rdm (threads k)) (wsm (threads k)) -> crit k -> sig_prio sg (threads k) ->
  wait_guard g = true -> Q !! g = Some l ->
  wp (release_all g) k (λ _ k',
    core k' (drop_queues (threads k) l (<[g := []]> Q)) sg (rdm (threads k')) (wsm (threads k')) /\ crit k' /\
    sig_prio sg (threads k') /\ qframe k k' /\ threads k' = drop_threads l (threads k)).
Proof.
  intros HC HR Hsg Hg Hl. unfold release_all. do 2 wp_step. apply release_all_loop_spec; try done.
  destruct (c_links _ _ _ _ _ HC) as (I & HQ & _). pose proof (q_nodup _ _ _ HQ _ _ Hl) as Hnd.
  rewrite <- (size_list_to_set (C := gset Z) l Hnd), <- (size_dom (threads k)).
  apply Nat.lt_succ_r, subseteq_size. intros a Ha%elem_of_list_to_set.
  destruct (w_mem _ _ _ _ (c_w _ _ _ _ _ HC) g l a Hl Ha Hg) as (t & Ht & _).
  apply wsm_inv in Ht as (th & Hth & _). by eapply elem_of_dom_2.
Qed.

Lemma sgm_drop l ths : sgm (drop_threads l ths) = sgm ths.
Proof.
  revert ths. induction l as [|a l IH]; intros ths; [done|].
  change (drop_threads (a :: l) ths) with (drop_threads l (alter dropped a ths)). rewrite IH.
  apply map_eq. intros b. unfold sgm. rewrite !lookup_fmap. destruct (decide (b = a)) as [->|].
  - rewrite lookup_alter_eq. by destruct (ths !! a).
  - by rewrite lookup_alter_ne.
Qed.

Definition port_closed (th : thread_t) : thread_t := set_port (set_opened false) th.

Definition close_rel k Q (r : Z) k1 Q1 : Prop :=
  exists me, threads k !! running k = Some me /\
    if opened (port me) then
      let lr := default [] (Q !! LReceiver (running k)) in
      let lc := default [] (Q !! LCaller (running k)) in
      let ths := <[running k := port_closed me]> (threads k) in
      r = E_OK /\ qframe (serialized k) k1 /\ threads k1 = drop_threads lc (drop_threads lr ths) /\
      Q1 = drop_queues (drop_threads lr ths) lc (<[LCaller (running k) := []]>
             (drop_queues ths lr (<[LReceiver (running k) := []]> Q)))
    else r = E_OBJ /\ unchanged k Q k1 Q1.

Lemma ipc_close_spec k Q : kernel_at k Q -> wp ipc_close k (op_post (close_rel k Q)).
Proof.
  intros HKa. pose proof HKa as (HK0 & Hrun & _). pose proof (kcrit_serialized _ _ HK0) as HK.
  destruct (crit_run _ (proj2 HK0)) as [me Hme]. unfold ipc_close.
  wp_enter. do 3 wp_step. eapply wp_thread; [done|]. wp_step. cbn [running serialized set_sync].
  destruct (opened (port me)) eqn:Ho; cbn [negb].
  2:{ wp_step. eapply dispatch_op; [done|]. exists me. by rewrite Ho. }
  destruct (port_queues _ _ _ _ HK0 Hme Ho) as [[lc Hlc] [lr Hlr]].
  wp_step. eapply wp_upd_thread; [done|]. fold (port_closed me).
  set (k1 := set_threads (<[running k := port_closed me]> (threads (serialized k))) (serialized k)).
  destruct (port_ghosts (threads k) (running k) me (set_opened false) Hme) as [Erd Ews]. fold (port_closed me) in Erd, Ews.
  assert (HC1 : core k1 Q (sgm (threads k)) (rdm (threads k1)) (wsm (threads k1))).
  { cbn. rewrite Erd, Ews. apply core_upd; [apply HK|by eapply elem_of_dom_2]. }
  assert (HR1 : crit k1) by (apply crit_port; [apply HK|done]).
  assert (Hsp : sig_prio (sgm (threads k)) (threads k1)).
  { intros a th. cbn. rewrite lookup_insert_Some. intros [[<- <-]|[_ Ha]];
      [exists (sig_of me)|exists (sig_of th)]; (split; [by apply sgm_lookup|done]). }
  wp_step. eapply wp_mono; [by apply (release_all_spec (LReceiver (running k)) lr k1 Q _ HC1)|].
  intros [] k2 (HC2 & HR2 & Hs2 & Hf2 & Et2). wp_step.
  eapply wp_mono.
  { apply (release_all_spec (LCaller (running k)) lc k2 _ _ HC2); try done.
    by rewrite drop_queues_lookup, lookup_insert_ne. }
  intros [] k3 (HC3 & HR3 & _ & Hf3 & Et3). wp_step. rewrite Et2 in Et3.
  eapply dispatch_op.
  - split; [|done].
    assert (sgm (threads k3) = <[running k := sig_of (port_closed me)]> (sgm (threads k))) as ->
      by (rewrite Et3, !sgm_drop; apply sgm_insert).
    eapply core_sig; [exact HC3|by apply sgm_lookup|done..| | | |].
    + exact (proj1 (st_prio _ _ (c_st _ _ _ _ _ HC1) _ _ (sgm_lookup _ _ _ Hme))).
    + by right.
    + done.
    + intros _. right. rewrite !drop_queues_lookup by done.
      rewrite lookup_insert_eq, lookup_insert_ne, drop_queues_lookup, lookup_insert_eq by done. done.
  - exists me. rewrite Ho, Hlr, Hlc. cbn. split_and!; try done.
    + eapply qframe_trans; [|exact Hf3]. eapply qframe_trans; [|exact Hf2]. done.
    + by rewrite Et2.
Qed.

(** ** What follows a wait *)

(** The thread that waited takes its result. *)
Definition resume_out (w : wait_reason_t) (c : cont) : outcome :=
  match c with
  | KCall _ => Return (if wresult w =? 0 then ipc_size w else wresult w) None
  | KReceive => if wresult w =? 0 then Return (ipc_size w) (Some (ipc_key w)) else Return (wresult w) None
  | KSend | KListen => Return (wresult w) None
  end.

Definition ipc_resume_rel k Q (c : cont) (o : outcome) k1 Q1 : Prop :=
  exists me, threads k !! running k = Some me /\ o = resume_out (wait_reason me) c /\ Q1 = Q /\
    match c with
    | KCall key => if wresult (wait_reason me) =? 0 then k1 = k
                   else rdv_frame (serialized k) k1 /\ rdv_gone key k k1
    | KReceive => k1 = serialized k
    | KSend | KListen => k1 = k
    end.

Lemma ipc_resume_spec k Q c :
  kernel_at k Q ->
  (forall key me, c = KCall key -> threads k !! running k = Some me -> wresult (wait_reason me) ≠ 0 ->
     (forall r, km_map (reply_tree k) !! key = Some r -> Q !! LReply r = Some []) /\
     (forall a, wsm (threads k) !! a ≠ Some (WCall key))) ->
  wp (ipc_resume c) k (op_post (ipc_resume_rel k Q c)).
Proof.
  intros HKa Hg. pose proof HKa as (HK0 & Hrun & _). pose proof (kcrit_serialized _ _ HK0) as HK.
  destruct (crit_run _ (proj2 HK0)) as [me Hme]. unfold ipc_resume, ret, ipc_resume_rel, resume_out.
  do 3 wp_step. eapply wp_thread; [done|]. cbn [wait_reason].
  assert (Hearly : forall o k1, k1 = k -> (exists me, threads k !! running k = Some me /\ o = resume_out (wait_reason me) c /\
      Q = Q /\ match c with KCall key => if wresult (wait_reason me) =? 0 then k1 = k
         else rdv_frame (serialized k) k1 /\ rdv_gone key k k1 | KReceive => k1 = serialized k | _ => k1 = k end) ->
      wp (mret o) k1 (op_post (ipc_resume_rel k Q c))).
  { intros o k1 -> Hr. wp_step. exists k, Q, Q. split_and!; [done|done|done|apply dframe_refl]. }
  destruct c as [key| | |].
  - destruct (wresult (wait_reason me) =? 0) eqn:Hw; cbn [negb].
    + apply Hearly; [done|]. exists me. unfold resume_out. by rewrite Hw.
    + apply Z.eqb_neq in Hw as Hw'. destruct (Hg key me eq_refl Hme Hw') as [Hring Hcall].
      wp_enter. wp_step. eapply wp_mono; [by apply (release_rendezvous_spec _ Q)|].
      intros [] k1 (H1 & H2 & H3). eapply leave_op; [exact H1| |].
      * destruct (rdv_threads _ _ H2) as [-> ->]. done.
      * exists me. by rewrite Hw.
  - wp_enter. destruct (wresult (wait_reason me) =? 0) eqn:Hw; cbn [negb];
      (eapply leave_op; [exact HK|done|]; exists me; by rewrite Hw).
  - apply Hearly; [done|]. by exists me.
  - apply Hearly; [done|]. by exists me.
Qed.

(** ** The rest of the kernel's interface *)

Lemma ipc_notify_spec k Q port_id flg :
  kernel_at k Q -> wp (ipc_notify port_id flg) k (op_post (notify_rel k Q port_id flg)).
Proof.
  intros HKa. pose proof HKa as (HK & Hrun & _). unfold ipc_notify. apply (notify_spec _ _ Q); [done|].
  intros r k1 Q1 HK1 Hrel. eapply wp_mono; [apply (leave_serialize_spec k1 Q1 HK1)|].
  - destruct (notify_lframe _ _ _ _ _ _ _ HK Hrel) as (_ & _ & Er). rewrite Er.
    unfold notify_rel in Hrel. destruct (km_map (thread_tree k) !! port_id) as [a|]; [|by destruct Hrel as (_ & -> & _)].
    destruct Hrel as (th & Ha & Hrel). destruct (status th =? TTS_DMT); [by destruct Hrel as (_ & -> & _)|].
    destruct Hrel as (_ & _ & -> & _). destruct (flag_waiter th) eqn:Hf.
    + eapply running_stays; [done|done|]. by apply andb_true_iff in Hf as [? _].
    + unfold notified. rewrite Hf. by rewrite (proj1 (port_ghosts _ _ _ _ Ha)).
  - intros [] k' (Q' & H1 & H2). by exists k1, Q1, Q'.
Qed.

Definition page_alloc_rel k Q (r : Z) k1 Q1 : Prop :=
  Q1 = Q /\ k1 = set_memory (memory k1) (serialized k) /\
  live_threads (memory k1) = live_threads (memory k) /\ live_replies (memory k1) = live_replies (memory k) /\
  (r = 0 /\ live_pages (memory k1) = live_pages (memory k) \/
   r ∉ live_pages (memory k) /\ SUPERVISOR_START <= r < 2 ^ 32 - PAGE_SIZE /\
   live_pages (memory k1) = {[r]} ∪ live_pages (memory k)).

(** A change of the pages that keeps the stacks. *)
Lemma kcrit_pages k Q m :
  kcrit k Q -> mem_ok m -> live_threads m = live_threads (memory k) -> live_replies m = live_replies (memory k) ->
  (forall a th, threads k !! a = Some th -> stack_page th ∈ live_pages (memory k) -> stack_page th ∈ live_pages m) ->
  kcrit (set_memory m k) Q.
Proof.
  intros [HC HR] Hm Ht Hr Hp. split; [|by eapply crit_ext]. destruct HC. split; cbn; try done.
  - destruct c_st as [S1 S2 S3 S4 S5]. split; try done. intros a s Hs.
    pose proof Hs as Hs'. apply sgm_inv in Hs' as (th & Hth & <-). apply (Hp a th Hth). by apply (S1 a (sig_of th)).
  - destruct c_reg. split; try done. by rewrite Ht.
  - destruct c_rep. split; try done; by rewrite Hr.
Qed.

Lemma kcall_page_alloc_spec k Q :
  kernel_at k Q -> wp kcall_page_alloc k (op_post (page_alloc_rel k Q)).
Proof.
  intros (HK0 & Hrun & _). pose proof (kcrit_serialized _ _ HK0) as HK. unfold kcall_page_alloc. wp_enter. wp_step.
  destruct (page_alloc_law (memory k) (reg_mem _ _ _ (c_reg _ _ _ _ _ (proj1 HK0))))
    as (p & m & Em & Hm & Hlt & Hlr & Hp).
  eexists _, _. split; [unfold palloc_page; cbn; rewrite Em; reflexivity|].
  eapply leave_op; [|done|by split_and!]. apply (kcrit_pages (serialized k)); try done.
  intros a th _ Hin. destruct Hp as [[_ ->]|(_ & _ & ->)]; [done|]. set_solver.
Qed.

Definition page_free_rel {X} k Q (addr : Z) (x y : X) k1 Q1 : Prop :=
  y = x /\ Q1 = Q /\ k1 = set_memory (memory k1) (serialized k) /\
  live_threads (memory k1) = live_threads (memory k) /\ live_replies (memory k1) = live_replies (memory k) /\
  live_pages (memory k1) = live_pages (memory k) ∖ {[addr]}.

Lemma kcall_page_free_spec {X} k Q addr (x : X) :
  kernel_at k Q -> addr ∈ live_pages (memory k) ->
  (forall a th, threads k !! a = Some th -> stack_page th ≠ addr) ->
  wp (kcall_page_free addr;; mret x) k (op_post (page_free_rel k Q addr x)).
Proof.
  intros (HK0 & Hrun & _) Hl Hst. pose proof (kcrit_serialized _ _ HK0) as HK. unfold kcall_page_free.
  wp_step. wp_enter. wp_step.
  destruct (page_free_law (memory k) addr (reg_mem _ _ _ (c_reg _ _ _ _ _ (proj1 HK0))) Hl)
    as (m & Em & Hm & Hlt & Hlr & Hp).
  eexists _, _. split; [unfold pfree_page; cbn; rewrite Em; reflexivity|].
  eapply wp_mono; [apply (leave_serialize_spec (set_memory m (serialized k)) Q)|]; [|done|].
  - apply (kcrit_pages (serialized k)); try done. intros a th Ha Hin. rewrite Hp. specialize (Hst a th Ha). set_solver.
  - intros [] k' (Q' & H1 & H2). wp_step. eexists _, Q, Q'. split_and!; [| |exact H1|exact H2]; [|by split_and!].
    apply (kcrit_pages (serialized k)); try done. intros a th Ha Hin. rewrite Hp. specialize (Hst a th Ha). set_solver.
Qed.

Definition region_rel (f : pf_umem -> Z -> thread_t -> Z -> Z -> Z -> option (Z * pf_umem)) k Q (id x y z r : Z) k1 Q1 : Prop :=
  Q1 = Q /\
  match km_map (thread_tree k) !! id with
  | None => r = E_NOEXS /\ k1 = serialized k
  | Some a => exists th, threads k !! a = Some th /\
      exists u, f (umem k) (cpu_cr3 (cpu k)) th x y z = Some (r, u) /\ k1 = set_umem u (serialized k)
  end.

(** A copy for the thread [id] does not fault. *)
Definition region_ok (f : pf_umem -> Z -> thread_t -> Z -> Z -> Z -> option (Z * pf_umem)) k (id x y z : Z) : Prop :=
  forall a th, km_map (thread_tree k) !! id = Some a -> threads k !! a = Some th ->
    is_Some (f (umem k) (cpu_cr3 (cpu k)) th x y z).

Lemma region_spec f k Q id x y z :
  kernel_at k Q -> region_ok f k id x y z -> wp (region f id x y z) k (op_post (region_rel f k Q id x y z)).
Proof.
  intros (HK0 & Hrun & _) Hok. pose proof (kcrit_serialized _ _ HK0) as HK. unfold region, region_rel. wp_enter. wp_step.
  unfold get_thread_ptr, thread_tree_get. wp_step. cbn. rewrite (tree_lookup _ _ _ HK0). wp_step.
  destruct (km_map (thread_tree k) !! id) as [a|] eqn:Hp; [|wp_step; by eapply leave_op].
  destruct (tree_thread _ _ _ _ HK0 Hp) as (th & Ha & _). 
  destruct (Hok a th Hp Ha) as [[e u] Ef]. eapply wp_copy; [done|exact Ef|].
  eapply leave_op; [by apply kcrit_umem|done|]. split; [done|]. exists th. split; [done|]. by exists u.
Qed.

End Ipc.
