(* ===== verification/KSystem.v ===== *)
(** * The kernel as a system

    The operations of the kernel in sequence: a thread that waits leaves the
    rest of its call in [pend], and goes on with it when it is dispatched
    again.  The rendezvous of a pending call stays reserved for its caller,
    and every sequence of operations whose arguments are acceptable is defined
    and keeps the invariant. *)

From S2P Require Import Prelude Lists AATree Bitmap Sequence Palloc KTypes KState KSched KThread.
From S2P Require Import KIpc Queues KQueues KInv KSteps KObjects KHoare KSchedOk KThreadOk KIpcOk.

(** ** Operations *)

Inductive action :=
  | ANotify (id flg : Z)
  | AOpen (pk : option T_CPOR)
  | AClose
  | ACall (port_id message size : Z)
  | AReceive (port_id message : Z)
  | ASend (tag message size : Z)
  | AListen
  | AResume
  | ACreate (id : Z) (pk : T_CTSK)
  | ADestroy (id : Z)
  | AStart (id : Z)
  | AEnd
  | AEndDestroy
  | ATerminate (id : Z)
  | ASuspend (id : Z)
  | AWake (id : Z)
  | ADelay
  | ATick
  | APageAlloc
  | APageFree (addr : Z)
  | ARegionGet (id from size to : Z)
  | ARegionPut (id to size from : Z)
  | ARegionCopy (id from size to : Z)
  | ASkipCopy (id skip ranges n : Z).

Section Perform.
Context {P : Platform} {H : Type} `{!ListOps loc H}.

Record sys := Sys { kern : kernel H; pend : gmap Z cont }.

Definition code (m : M H Z) : M H outcome := r ← m; ret r.

(** What the running thread does; [c] is the rest of its pending call. *)
Definition perform (act : action) (c : option cont) : M H outcome :=
  match act with
  | ANotify id flg => code (ipc_notify id flg)
  | AOpen pk => code (ipc_open pk)
  | AClose => code ipc_close
  | ACall port_id message size => ipc_call port_id message size
  | AReceive port_id message => ipc_receive port_id message
  | ASend tag message size => ipc_send tag message size
  | AListen => ipc_listen
  | AResume => c ← some c; ipc_resume c
  | ACreate id pk => code (thread_create id pk)
  | ADestroy id => code (thread_destroy id)
  | AStart id => code (thread_start id)
  | AEnd => thread_end;; ret E_OK
  | AEndDestroy => thread_end_and_destroy;; ret E_OK
  | ATerminate id => code (thread_terminate id)
  | ASuspend id => code (thread_suspend id)
  | AWake id => code (thread_resume id)
  | ADelay => delay_turn;; ret E_OK
  | ATick => interrupt tick;; ret E_OK
  | APageAlloc => code kcall_page_alloc
  | APageFree addr => kcall_page_free addr;; ret E_OK
  | ARegionGet id from size to => code (region_get id from size to)
  | ARegionPut id to size from => code (region_put id to size from)
  | ARegionCopy id from size to => code (region_copy id from size to)
  | ASkipCopy id skip ranges n => code (skip_copy id skip ranges n)
  end.

(** A thread that blocks keeps its continuation until it resumes or is
    terminated. *)
Definition pend_after (s : sys) (act : action) (o : outcome) : gmap Z cont :=
  match o with
  | Block c => <[running (kern s) := c]> (pend s)
  | Return r _ =>
      match act with
      | AResume => delete (running (kern s)) (pend s)
      | ATerminate id =>
          if r =? E_OK then
            match km_get (thread_tree (kern s)) id with Some a => delete a (pend s) | None => pend s end
          else pend s
      | _ => pend s
      end
  end.

Definition sys_exec (act : action) (s : sys) : option (outcome * sys) :=
  '(o, k) ← perform act (pend s !! running (kern s)) (kern s);
  Some (o, Sys k (pend_after s act o)).

End Perform.

Arguments sys {P} H.

(** ** Pending calls *)

Definition is_reply (t : wstate) : bool := match t with WReply => true | _ => false end.
Definition is_none (t : wstate) : bool := match t with WNone => true | _ => false end.

(** What a thread with this continuation can be waiting for. *)
Definition cont_fits (c : cont) (t : wstate) : bool :=
  match c, t with
  | _, WNone => true
  | KCall key, WCall key' => key =? key'
  | KCall _, WReply | KReceive, WReceive | KSend, WSend | KListen, WFlag => true
  | _, _ => false
  end.

(** A thread and its continuation, on their own. *)
Definition local (o : option thread_t) (p : option cont) : Prop :=
  match o, p with
  | None, None => True
  | None, Some _ => False
  | Some th, None => wstate_of (wait_reason th) = WNone
  | Some th, Some c => status th ≠ TTS_DMT /\ cont_fits c (wstate_of (wait_reason th)) = true /\
      (wstate_of (wait_reason th) ≠ WNone -> wresult (wait_reason th) = 0)
  end.

(** The key whose rendezvous the thread still needs, and whether it is on the
    queue of the rendezvous. *)
Definition claim (o : option thread_t) (p : option cont) : option (Z * bool) :=
  match o, p with
  | Some th, Some (KCall key) =>
      let t := wstate_of (wait_reason th) in
      if is_none t && (wresult (wait_reason th) =? 0) then None else Some (key, is_reply t)
  | _, _ => None
  end.

Definition rdv_at (rm : gmap Z Z) (Q : queues) (a key : Z) (x : bool) : Prop :=
  exists r, rm !! key = Some r /\ Q !! LReply r = Some (if x then [a] else []).

Record pinv (ths : tmap) (rm : gmap Z Z) (Q : queues) (pend : gmap Z cont) : Prop := {
  pi_local a : local (ths !! a) (pend !! a);
  pi_rdv a key x : claim (ths !! a) (pend !! a) = Some (key, x) -> rdv_at rm Q a key x;
  pi_key a b key x y : claim (ths !! a) (pend !! a) = Some (key, x) ->
    claim (ths !! b) (pend !! b) = Some (key, y) -> a = b;
}.

Section Pending.
Context (ths : tmap) (rm : gmap Z Z) (Q : queues) (pend : gmap Z cont) (HP : pinv ths rm Q pend).

(** Changes that claim nothing new and keep what is claimed. *)
Lemma pinv_less ths' rm' Q' pend' :
  (forall a, local (ths' !! a) (pend' !! a)) ->
  (forall a key x, claim (ths' !! a) (pend' !! a) = Some (key, x) ->
     exists y, claim (ths !! a) (pend !! a) = Some (key, y) /\ rdv_at rm' Q' a key x) ->
  pinv ths' rm' Q' pend'.
Proof.
  intros HL HC. split; [done| |].
  - intros a key x Hc. by destruct (HC a key x Hc) as (y & _ & ?).
  - intros a b key x y Ha Hb. destruct (HC a key x Ha) as (x' & Ha' & _), (HC b key y Hb) as (y' & Hb' & _).
    by eapply (pi_key _ _ _ _ HP).
Qed.

(** One thread claims a key nobody claims. *)
Lemma pinv_more ths' rm' Q' pend' a0 key0 x0 :
  (forall a, local (ths' !! a) (pend' !! a)) ->
  claim (ths' !! a0) (pend' !! a0) = Some (key0, x0) -> rdv_at rm' Q' a0 key0 x0 -> rm !! key0 = None ->
  (forall a key x, a ≠ a0 -> claim (ths' !! a) (pend' !! a) = Some (key, x) ->
     exists y, claim (ths !! a) (pend !! a) = Some (key, y) /\ rdv_at rm' Q' a key x) ->
  pinv ths' rm' Q' pend'.
Proof.
  intros HL H0 HR Hn HC.
  assert (Hk : forall b y, b ≠ a0 -> claim (ths' !! b) (pend' !! b) ≠ Some (key0, y)).
  { intros b y Hb Hcb. destruct (HC b key0 y Hb Hcb) as (z & Hz & _).
    apply (pi_rdv _ _ _ _ HP) in Hz as (r & Hr & _). congruence. }
  split; [done| |].
  - intros a key x Hc. destruct (decide (a = a0)) as [->|Hne].
    + rewrite H0 in Hc. by simplify_eq.
    + by destruct (HC a key x Hne Hc) as (y & _ & ?).
  - intros a b key x y Ha Hb. destruct (decide (a = a0)) as [->|Hna], (decide (b = a0)) as [->|Hnb]; [done|..].
    + rewrite H0 in Ha. simplify_eq. by apply Hk in Hb.
    + rewrite H0 in Hb. simplify_eq. by apply Hk in Ha.
    + destruct (HC a key x Hna Ha) as (x' & Ha' & _), (HC b key y Hnb Hb) as (y' & Hb' & _).
      by eapply (pi_key _ _ _ _ HP).
Qed.

(** Nothing of what the waits are about changes. *)
Lemma pinv_same ths' Q' :
  same_threads (λ th th', wait_reason th' = wait_reason th /\ (status th' = TTS_DMT -> status th = TTS_DMT)) ths ths' ->
  (forall r, Q' !! LReply r = Q !! LReply r) -> pinv ths' rm Q' pend.
Proof.
  intros HS HQ. apply pinv_less.
  - intros a. specialize (HS a). pose proof (pi_local _ _ _ _ HP a) as HL. unfold local in *.
    destruct (ths !! a), (ths' !! a), (pend !! a); try done; destruct HS as [-> ?]; naive_solver.
  - intros a key x Hc. specialize (HS a). exists x.
    assert (claim (ths !! a) (pend !! a) = Some (key, x)) as Hc'.
    { unfold claim in *. destruct (ths !! a), (ths' !! a); try done. by destruct HS as [<- _]. }
    split; [done|]. destruct (pi_rdv _ _ _ _ HP a key x Hc') as (r & Hr & Hq). exists r. by rewrite HQ.
Qed.

(** One thread whose wait has nothing to do with a rendezvous. *)
Lemma pinv_one ths' pend' Q' a0 :
  (forall a, a ≠ a0 -> ths' !! a = ths !! a /\ pend' !! a = pend !! a) ->
  (forall r, Q' !! LReply r = Q !! LReply r) ->
  local (ths' !! a0) (pend' !! a0) -> claim (ths' !! a0) (pend' !! a0) = None ->
  pinv ths' rm Q' pend'.
Proof.
  intros HO HQ HL0 HC0. apply pinv_less.
  - intros a. destruct (decide (a = a0)) as [->|Hne]; [done|]. destruct (HO a Hne) as [-> ->]. apply (pi_local _ _ _ _ HP).
  - intros a key x Hc. destruct (decide (a = a0)) as [->|Hne]; [congruence|]. destruct (HO a Hne) as [E1 E2].
    rewrite E1, E2 in Hc. exists x. split; [done|].
    destruct (pi_rdv _ _ _ _ HP a key x Hc) as (r & Hr & Hq). exists r. by rewrite HQ.
Qed.

End Pending.

Section System.
Context {P : Platform} `{!KeyMapLaws pf_tree} `{!KernelMemoryLaws pf_memory}.
Notation kern_t := (kernel rings).
Implicit Types k : kern_t.
Implicit Types Q : queues.
Implicit Types pd : gmap Z cont.

Definition pending k Q pd : Prop := pinv (threads k) (km_map (reply_tree k)) Q pd.

Definition sys_at (s : sys rings) Q : Prop := kernel_at (kern s) Q /\ pending (kern s) Q (pend s).

(** The invariant of the system. *)
Definition sys_ok (s : sys rings) : Prop := exists Q, sys_at s Q.

(** ** The effect of each operation on the pending calls *)

(** A dispatch ends the wait for a flag or a message at most. *)
Lemma pending_lframe k Q k' Q' pd : pending k Q pd -> lframe k Q k' Q' -> pending k' Q' pd.
Proof.
  intros HP [E HT HQ]. unfold pending in *. rewrite E.
  eapply pinv_less; [exact HP| |].
  - intros a. specialize (HT a). pose proof (pi_local _ _ _ _ HP a) as HL. unfold local in *.
    destruct (threads k !! a) as [th|], (threads k' !! a) as [th'|]; try done.
    destruct HT as (_ & HD & [-> | [_ ->]]); destruct (pd !! a) as [c|]; try done; [naive_solver|].
    destruct HL as (HL & _). split_and!; [naive_solver|by destruct c|done].
  - intros a key x Hc. specialize (HT a). pose proof (pi_local _ _ _ _ HP a) as HL. exists x.
    assert (claim (threads k !! a) (pd !! a) = Some (key, x)) as Hc'.
    { unfold claim, local in *. destruct (threads k !! a) as [th|], (threads k' !! a) as [th'|]; try done.
      destruct (pd !! a) as [[]|]; try done. destruct HT as (_ & _ & [<- | [HF HN]]); [done|].
      unfold flag_reason in HF. unfold wstate_of in HL. destruct HL as (_ & HL & _).
      by destruct (wtype (wait_reason th)). }
    split; [done|]. destruct (pi_rdv _ _ _ _ HP a key x Hc') as (r & Hr & Hq). exists r. by rewrite HQ.
Qed.

Lemma pending_dframe k Q k' Q' pd : kcrit k Q -> pending k Q pd -> dframe k Q k' Q' -> pending k' Q' pd.
Proof. intros HK HP HD. eapply pending_lframe; [done|by apply dframe_lframe]. Qed.

(** A thread is changed in fields other than its wait reason. *)
Lemma pending_upd k Q k1 Q1 pd a th th' :
  pending k Q pd -> threads k !! a = Some th -> threads k1 = <[a := th']> (threads k) ->
  wait_reason th' = wait_reason th -> (status th' = TTS_DMT -> status th = TTS_DMT \/ pd !! a = None) ->
  reply_tree k1 = reply_tree k -> (forall r, Q1 !! LReply r = Q !! LReply r) -> pending k1 Q1 pd.
Proof.
  intros HP Ha Et Hw Hd Er HQ. unfold pending in *. rewrite Er.
  assert (Hcl : forall b, claim (threads k1 !! b) (pd !! b) = claim (threads k !! b) (pd !! b)).
  { intros b. rewrite Et. destruct (decide (b = a)) as [->|]; [|by rewrite lookup_insert_ne].
    rewrite lookup_insert_eq, Ha. unfold claim. by rewrite Hw. }
  eapply pinv_less; [exact HP| |].
  - intros b. pose proof (pi_local _ _ _ _ HP b) as HL. rewrite Et.
    destruct (decide (b = a)) as [->|]; [|by rewrite lookup_insert_ne].
    rewrite lookup_insert_eq. rewrite Ha in HL. unfold local in *. rewrite Hw.
    destruct (pd !! a); [|done]. naive_solver.
  - intros b key x. rewrite Hcl. intros Hc. exists x. split; [done|].
    destruct (pi_rdv _ _ _ _ HP b key x Hc) as (r & Hr & Hq). exists r. by rewrite HQ.
Qed.

Lemma pending_keep k Q k1 Q1 pd a th th' :
  pending k Q pd -> threads k !! a = Some th -> threads k1 = <[a := th']> (threads k) ->
  wait_reason th' = wait_reason th -> status th' = status th ->
  reply_tree k1 = reply_tree k -> (forall r, Q1 !! LReply r = Q !! LReply r) -> pending k1 Q1 pd.
Proof. intros HP Ha Et Hw Hs. eapply pending_upd; [done..|]. left. congruence. Qed.

(** A thread that does not call stops waiting. *)
Lemma pending_wake k Q k1 Q1 pd a th th' :
  pending k Q pd -> threads k !! a = Some th -> threads k1 = <[a := th']> (threads k) ->
  wstate_of (wait_reason th') = WNone -> status th' ≠ TTS_DMT ->
  (forall key, pd !! a = Some (KCall key) -> wresult (wait_reason th') = 0) ->
  reply_tree k1 = reply_tree k -> (forall r, Q1 !! LReply r = Q !! LReply r) -> pending k1 Q1 pd.
Proof.
  intros HP Ha Et Hw Hd Hc Er HQ. unfold pending in *. rewrite Er, Et. apply (pinv_one _ _ _ _ HP _ pd Q1 a).
  - intros b Hb. by rewrite lookup_insert_ne.
  - done.
  - rewrite lookup_insert_eq. unfold local. rewrite Hw. destruct (pd !! a) as [c|]; [|done].
    split_and!; [done|by destruct c|done].
  - rewrite lookup_insert_eq. unfold claim. rewrite Hw. destruct (pd !! a) as [[key| | |]|] eqn:Hp; try done.
    cbn. by rewrite (Hc key eq_refl).
Qed.

(** The running thread, with no pending call, starts to wait for something
    other than an answer. *)
Lemma pending_block k Q k1 Q1 pd me w c :
  pending k Q pd -> threads k1 = <[running k := blocked w me]> (threads k) ->
  cont_fits c (wstate_of w) = true -> (forall key, c ≠ KCall key) ->
  reply_tree k1 = reply_tree k -> (forall r, Q1 !! LReply r = Q !! LReply r) ->
  pending k1 Q1 (<[running k := c]> pd).
Proof.
  intros HP Et Hf Hc Er HQ. unfold pending in *. rewrite Er, Et. apply (pinv_one _ _ _ _ HP _ _ Q1 (running k)).
  - intros b Hb. by rewrite !lookup_insert_ne.
  - done.
  - rewrite !lookup_insert_eq. split_and!; [done| |done]. exact Hf.
  - rewrite !lookup_insert_eq. destruct c as [key| | |]; try done. by destruct (Hc key).
Qed.

(** A waiting thread has a continuation of the right kind. *)
Lemma pending_kind k Q pd a th :
  pending k Q pd -> threads k !! a = Some th -> wstate_of (wait_reason th) ≠ WNone ->
  exists c, pd !! a = Some c /\ cont_fits c (wstate_of (wait_reason th)) = true /\ wresult (wait_reason th) = 0.
Proof.
  intros HP Ha Hw. pose proof (pi_local _ _ _ _ HP a) as HL. rewrite Ha in HL. unfold local in HL.
  destruct (pd !! a) as [c|]; [|done]. exists c. naive_solver.
Qed.

Definition pend_out k pd (o : outcome) : gmap Z cont :=
  match o with Block c => <[running k := c]> pd | Return _ _ => pd end.

Lemma unready_reply a Q r : unready a Q !! LReply r = Q !! LReply r.
Proof. rewrite unready_lookup. by destruct (Q !! LReply r). Qed.

Lemma qframe_tree k k1 : qframe k k1 -> reply_tree k1 = reply_tree k.
Proof. intros E. by rewrite E. Qed.

Lemma listen_pend k Q pd o k1 Q1 :
  pending k Q pd -> listen_rel k Q o k1 Q1 -> pending k1 Q1 (pend_out k pd o).
Proof.
  intros HP (me & Hme & Hr). destruct (flag (port me) =? 0).
  - destruct Hr as (-> & Hq & -> & Et). eapply pending_block; [done|done|done|done|by apply qframe_tree in Hq|].
    intros r. by rewrite unready_reply.
  - destruct Hr as (-> & -> & ->). by eapply (pending_keep _ _ _ _ _ _ me).
Qed.

(** A thread that waits on a port keeps no rendezvous queue. *)
Lemma port_waiter_reply k Q a th r :
  kcrit k Q -> threads k !! a = Some th -> wtype (wait_reason th) ≠ wait_reply ->
  woken_queues a th (unhook a Q) !! LReply r = Q !! LReply r.
Proof.
  intros HK Ha Hw. rewrite woken_queues_reply. eapply unhook_reply; [done|done|].
  unfold wstate_of. by destruct (wtype (wait_reason th)).
Qed.

Lemma woken_status th : status (woken th) ≠ TTS_DMT.
Proof. unfold woken. cbn. by destruct (status th =? TTS_WAI). Qed.

(** A receiver gets a message. *)
Lemma deliver_pend k Q pd tp w size tag k1 :
  kcrit k Q -> pending k Q pd -> threads k !! tp = Some w -> wtype (wait_reason w) = wait_receive ->
  threads k1 = <[tp := woken (delivered size tag w)]> (threads k) -> reply_tree k1 = reply_tree k ->
  pending k1 (woken_queues tp w (unhook tp Q)) pd.
Proof.
  intros HK HP Hw Hwt Et Er. assert (Hws : wstate_of (wait_reason w) = WReceive) by (unfold wstate_of; by rewrite Hwt).
  destruct (pending_kind _ _ _ _ _ HP Hw) as (c & Hc & Hf & Hz); [by rewrite Hws|]. rewrite Hws in Hf.
  eapply (pending_wake _ _ _ _ _ tp w); try done.
  - apply woken_status.
  - intros r. apply (port_waiter_reply k); [done|done|by rewrite Hwt].
Qed.

Lemma send_pend k Q pd port_id message size o k1 Q1 :
  kcrit k Q -> pending k Q pd -> send_rel k Q port_id message size o k1 Q1 -> pending k1 Q1 (pend_out k pd o).
Proof.
  intros HK HP Hr. unfold send_rel in Hr.
  destruct (km_map (thread_tree k) !! port_id) as [p|]; [|by destruct Hr as (-> & -> & ->)].
  destruct Hr as (th & me & Hth & Hme & Hr). cbn zeta in Hr.
  destruct (negb (opened (port th))); [by destruct Hr as (-> & -> & ->)|].
  destruct (max_call (port th) <? size); [by destruct Hr as (-> & -> & ->)|].
  destruct (Q !! LReceiver p) as [[|tp l]|] eqn:Hl; [shelve| |shelve].
  - destruct Hr as (w & Hw & Hr). destruct Hr as (e & u & _ & Hr).
    destruct (e =? 0); [|by destruct Hr as (-> & -> & ->)].
    destruct Hr as (-> & Hq & Et & ->). destruct (receiver_thread _ _ _ _ _ HK Hl) as (w' & Hw' & Hwt & _).
    assert (w' = w) as -> by congruence. eapply deliver_pend; try done. by apply qframe_tree in Hq.
  Unshelve. all: destruct Hr as (-> & Hq & Et & ->); eapply pending_block; [done|done|done|done|by apply qframe_tree in Hq|];
    intros r; by rewrite unready_reply, lookup_insert_ne.
Qed.

(** Only the claimant of a key is affected by what happens to its
    rendezvous. *)
Lemma claims_other k Q pd a b key key' r x y :
  kcrit k Q -> pending k Q pd -> claim (threads k !! a) (pd !! a) = Some (key, x) ->
  km_map (reply_tree k) !! key = Some r -> claim (threads k !! b) (pd !! b) = Some (key', y) -> b ≠ a ->
  exists r', key' ≠ key /\ r' ≠ r /\ km_map (reply_tree k) !! key' = Some r' /\
    Q !! LReply r' = Some (if y then [b] else []).
Proof.
  intros [HC _] HP Ha Hr Hb Hne. destruct (pi_rdv _ _ _ _ HP b key' y Hb) as (r' & Hr' & Hq').
  assert (Hk : key' ≠ key) by (intros ->; by apply Hne; eapply (pi_key _ _ _ _ HP)).
  exists r'. split_and!; try done. intros ->. apply Hk. by eapply (w_rminj _ _ _ _ (c_w _ _ _ _ _ HC)).
Qed.

Lemma accept_pend k Q pd tp w k1 :
  kcrit k Q -> pending k Q pd -> threads k !! tp = Some w -> waiting (status w) = true ->
  wtype (wait_reason w) = wait_call \/ wtype (wait_reason w) = wait_send ->
  threads k1 = <[tp := accepted w]> (threads k) -> reply_tree k1 = reply_tree k ->
  pending k1 (accept_queues k tp w Q) pd.
Proof.
  intros HK HP Hw Hww Hwt Et Er. unfold accepted, accept_queues in *. destruct Hwt as [Hwt|Hwt]; rewrite Hwt in *.
  - set (key := key_of_ipc (ipc_key (wait_reason w))) in *.
    assert (Hws : wstate_of (wait_reason w) = WCall key) by (unfold wstate_of; by rewrite Hwt).
    destruct (pending_kind _ _ _ _ _ HP Hw) as (c & Hc & Hf & Hz); [by rewrite Hws|]. rewrite Hws in Hf.
    destruct c as [key'| | |]; try done. apply Z.eqb_eq in Hf as ->.
    assert (Hcl : claim (threads k !! tp) (pd !! tp) = Some (key, false)).
    { rewrite Hw, Hc. unfold claim. by rewrite Hws. }
    destruct (pi_rdv _ _ _ _ HP tp key false Hcl) as (r & Hr & Hq). rewrite Hr.
    unfold pending. rewrite Er, Et. eapply pinv_less; [exact HP| |].
    + intros a. destruct (decide (a = tp)) as [->|]; [|rewrite lookup_insert_ne by done; apply (pi_local _ _ _ _ HP)].
      rewrite lookup_insert_eq, Hc. split_and!; [|done|done]. cbn.
      intros E. rewrite E in Hww. done.
    + intros a key' x. destruct (decide (a = tp)) as [->|Hne].
      * rewrite lookup_insert_eq, Hc. cbn. intros [= <- <-]. exists false. split; [by rewrite <- Hc|].
        exists r. by rewrite lookup_insert_eq.
      * rewrite lookup_insert_ne by done. intros Hca. exists x. split; [done|].
        destruct (claims_other _ _ _ tp a key key' r false x HK HP Hcl Hr Hca Hne) as (r' & Hk & Hrr & Hr' & Hq').
        exists r'. split; [done|]. rewrite lookup_insert_ne by congruence.
        rewrite (unhook_reply k Q tp w); [done|done|done|by rewrite Hws].
  - assert (Hws : wstate_of (wait_reason w) = WSend) by (unfold wstate_of; by rewrite Hwt).
    destruct (pending_kind _ _ _ _ _ HP Hw) as (c & Hc & Hf & Hz); [by rewrite Hws|].
    eapply (pending_wake _ _ _ _ _ tp w); try done.
    + apply woken_status.
    + intros r. apply (port_waiter_reply k); [done|done|by rewrite Hwt].
Qed.

Lemma receive_pend k Q pd port_id message o k1 Q1 :
  kcrit k Q -> pending k Q pd -> receive_rel k Q port_id message o k1 Q1 -> pending k1 Q1 (pend_out k pd o).
Proof.
  intros HK HP (me & Hme & Hr). destruct (negb (flag (port me) =? 0)).
  { destruct Hr as (-> & -> & ->). by eapply (pending_keep _ _ _ _ _ _ me). }
  destruct (km_map (thread_tree k) !! port_id) as [p|]; [|by destruct Hr as (-> & -> & ->)].
  destruct Hr as (th & Hth & Hr). destruct (negb (opened (port th))); [by destruct Hr as (-> & -> & ->)|].
  destruct (Q !! LCaller p) as [[|tp l]|] eqn:Hl; [shelve| |shelve].
  - destruct Hr as (w & Hw & Hr). cbn zeta in Hr. destruct Hr as (e & u & _ & Hr).
    destruct (e =? 0); [|by destruct Hr as (-> & -> & ->)].
    destruct Hr as (-> & Hq & Et & ->). apply qframe_tree in Hq. cbn in Hq.
    destruct (caller_thread _ _ _ _ _ HK Hl) as (w' & Hw' & Hww & Hwt). assert (w' = w) as -> by congruence.
    by eapply accept_pend.
  Unshelve. all: destruct Hr as (-> & Hq & Et & ->); eapply pending_block; [done|done|done|done|by apply qframe_tree in Hq|];
    intros r; by rewrite unready_reply, lookup_insert_ne.
Qed.

(** ** Rendezvous *)

(** The calls under [key] that are still pending have been received. *)
Definition received k pd (key : Z) : Prop :=
  forall a x, claim (threads k !! a) (pd !! a) = Some (key, x) -> x = true.

Lemma call_claim k Q pd a key :
  pending k Q pd -> wsm (threads k) !! a = Some (WCall key) ->
  claim (threads k !! a) (pd !! a) = Some (key, false).
Proof.
  intros HP Ha. apply wsm_inv in Ha as (th & Hth & Hw).
  destruct (pending_kind _ _ _ _ _ HP Hth) as (c & Hc & Hf & _); [by rewrite Hw|]. rewrite Hw in Hf.
  destruct c as [key'| | |]; try done. apply Z.eqb_eq in Hf as ->. rewrite Hth, Hc. unfold claim. by rewrite Hw.
Qed.

Lemma received_calls k Q pd key :
  pending k Q pd -> received k pd key -> forall a, wsm (threads k) !! a ≠ Some (WCall key).
Proof. intros HP Hr a Ha. apply (call_claim _ _ _ _ _ HP) in Ha. by apply Hr in Ha. Qed.

(** The caller on a rendezvous claims its key. *)
Lemma reply_claim k Q pd key r tp l :
  kcrit k Q -> pending k Q pd -> km_map (reply_tree k) !! key = Some r -> Q !! LReply r = Some (tp :: l) ->
  exists w, threads k !! tp = Some w /\ wtype (wait_reason w) = wait_reply /\ pd !! tp = Some (KCall key) /\
    claim (threads k !! tp) (pd !! tp) = Some (key, true) /\ wresult (wait_reason w) = 0.
Proof.
  intros HK HP Hr Hl. destruct (queued_thread _ _ _ _ tp HK Hl) as (w & Hw & Hf & _); [left|done|].
  assert (Hwt : wtype (wait_reason w) = wait_reply) by (unfold wstate_of in Hf; by destruct (wtype (wait_reason w))).
  assert (Hws : wstate_of (wait_reason w) = WReply) by (unfold wstate_of; by rewrite Hwt).
  destruct (pending_kind _ _ _ _ _ HP Hw) as (c & Hc & Hcf & Hz); [by rewrite Hws|]. rewrite Hws in Hcf.
  destruct c as [key0| | |]; try done.
  assert (Hcl : claim (threads k !! tp) (pd !! tp) = Some (key0, true)) by (rewrite Hw, Hc; unfold claim; by rewrite Hws).
  destruct (pi_rdv _ _ _ _ HP tp key0 true Hcl) as (r0 & Hr0 & Hq0). destruct HK as [HC _].
  assert (LReply r = LReply r0) as [= <-].
  { eapply core_unique; [done|exact Hq0|by left|done|exact Hl|by left|done]. }
  assert (key0 = key) as -> by (by eapply (w_rminj _ _ _ _ (c_w _ _ _ _ _ HC))). by exists w.
Qed.

(** A rendezvous that nobody claims goes away. *)
Lemma pending_gone k Q k1 pd key :
  pending k Q pd -> (forall a x, claim (threads k !! a) (pd !! a) ≠ Some (key, x)) ->
  threads k1 = threads k -> km_map (reply_tree k1) = delete key (km_map (reply_tree k)) -> pending k1 Q pd.
Proof.
  intros HP Hn Et Em. unfold pending. rewrite Et, Em. eapply pinv_less; [exact HP|apply (pi_local _ _ _ _ HP)|].
  intros a key' x Hc. exists x. split; [done|]. destruct (pi_rdv _ _ _ _ HP a key' x Hc) as (r & Hr & Hq).
  exists r. split; [|done]. rewrite lookup_delete_ne; [done|]. intros ->. by eapply Hn.
Qed.

Lemma reply_pend k Q pd key message size o k1 Q1 :
  kcrit k Q -> pending k Q pd -> received k pd key -> reply_rel k Q key message size o k1 Q1 ->
  pending k1 Q1 (pend_out k pd o).
Proof.
  intros HK HP Hrc Hr. unfold reply_rel in Hr.
  assert (Hgone : (forall r, km_map (reply_tree k) !! key = Some r -> Q !! LReply r = Some []) ->
    rdv_frame (serialized k) k1 -> rdv_gone key k k1 -> pending k1 Q pd).
  { intros Hring Hf [Hm _]. eapply pending_gone; [done| |by apply rdv_threads in Hf as [-> _]|done].
    intros a x Hc. pose proof (Hrc a x Hc) as ->. destruct (pi_rdv _ _ _ _ HP a key true Hc) as (r & Hr' & Hq).
    rewrite (Hring r Hr') in Hq. done. }
  destruct (km_map (reply_tree k) !! key) as [r|] eqn:Hrm.
  2:{ destruct Hr as (-> & -> & Hf & Hg). by apply Hgone. }
  destruct Hr as (rp & Hrp & Hr). destruct (reply_object _ _ _ _ HK Hrm) as (_ & l & _ & Hl & Hlen). rewrite Hl in Hr.
  destruct l as [|tp l].
  { destruct Hr as (-> & -> & Hf & Hg). apply Hgone; [|done|done]. by intros r' [= <-]. }
  destruct l; [|cbn in Hlen; lia]. destruct Hr as (w & u & Hw & _ & -> & [Hm _] & _ & Et & ->).
  destruct (reply_claim _ _ _ _ _ _ _ HK HP Hrm Hl) as (w' & Hw' & Hwt & Hpd & Hcl & Hz).
  assert (w' = w) as -> by congruence.
  unfold pending. cbn [pend_out]. rewrite Et, Hm. eapply pinv_less; [exact HP| |].
  - intros a. destruct (decide (a = tp)) as [->|]; [|rewrite lookup_insert_ne by done; apply (pi_local _ _ _ _ HP)].
    rewrite lookup_insert_eq, Hpd. split_and!; [apply woken_status|done|done].
  - intros a key' x. destruct (decide (a = tp)) as [->|Hne].
    + rewrite lookup_insert_eq, Hpd. cbn. by rewrite Hz.
    + rewrite lookup_insert_ne by done. intros Hca. exists x. split; [done|].
      destruct (claims_other _ _ _ tp a key key' r true x HK HP Hcl Hrm Hca Hne) as (r' & Hk & Hrr & Hr' & Hq').
      exists r'. rewrite lookup_delete_ne by done. split; [done|].
      rewrite woken_queues_reply, unhook_lookup, Hq'. cbn. rewrite filter_ne_id; [done|].
      destruct x; set_solver.
Qed.

(** The rest of a call that failed gives its rendezvous back. *)
Lemma ipc_resume_pend k Q pd c o k1 Q1 :
  kernel_at k Q -> pending k Q pd -> pd !! running k = Some c -> ipc_resume_rel k Q c o k1 Q1 ->
  pending k1 Q1 (delete (running k) pd).
Proof.
  intros HKa HP Hc (me & Hme & _ & -> & Hr).
  destruct (running_facts _ _ HKa) as (me' & Hme' & _ & Hw). assert (me' = me) as -> by congruence.
  assert (Hdel : pending k Q (delete (running k) pd)).
  { eapply pinv_one; [exact HP| |done| |]; [intros a Ha; by rewrite lookup_delete_ne|..];
      rewrite lookup_delete_eq, Hme; [by cbn|done]. }
  destruct c as [key| | |]; [|by subst k1..]. destruct (wresult (wait_reason me) =? 0) eqn:Hz; [by subst k1|].
  destruct Hr as [Hf [Hm _]].
  assert (Hcl : claim (threads k !! running k) (pd !! running k) = Some (key, false)).
  { rewrite Hme, Hc. unfold claim. by rewrite Hw, Hz. }
  eapply (pending_gone k); [done| |by apply rdv_threads in Hf as [-> _]|done].
  intros a x Ha. destruct (decide (a = running k)) as [->|Hne].
  - rewrite lookup_delete_eq, Hme in Ha. done.
  - rewrite lookup_delete_ne in Ha by done. apply Hne. by eapply (pi_key _ _ _ _ HP).
Qed.

(** What [ipc_resume] needs of the rendezvous. *)
Lemma resume_guard k Q pd key me :
  kernel_at k Q -> pending k Q pd -> pd !! running k = Some (KCall key) ->
  threads k !! running k = Some me -> wresult (wait_reason me) ≠ 0 ->
  (forall r, km_map (reply_tree k) !! key = Some r -> Q !! LReply r = Some []) /\
  (forall a, wsm (threads k) !! a ≠ Some (WCall key)).
Proof.
  intros HKa HP Hc Hme Hz. destruct (running_facts _ _ HKa) as (me' & Hme' & _ & Hw).
  assert (me' = me) as -> by congruence. apply Z.eqb_neq in Hz.
  assert (Hcl : claim (threads k !! running k) (pd !! running k) = Some (key, false)).
  { rewrite Hme, Hc. unfold claim. by rewrite Hw, Hz. }
  split.
  - intros r Hr. destruct (pi_rdv _ _ _ _ HP _ _ _ Hcl) as (r' & Hr' & Hq). congruence.
  - intros a Ha. pose proof (call_claim _ _ _ _ _ HP Ha) as Hca.
    assert (a = running k) as -> by (by eapply (pi_key _ _ _ _ HP)).
    rewrite (wsm_lookup _ _ _ Hme), Hw in Ha. done.
Qed.

(** ** Calls *)

Lemma pending_live k Q pd a key x :
  kcrit k Q -> pending k Q pd -> claim (threads k !! a) (pd !! a) = Some (key, x) ->
  exists r, km_map (reply_tree k) !! key = Some r /\ r ∈ live_replies (memory k) /\
    Q !! LReply r = Some (if x then [a] else []).
Proof.
  intros [HC _] HP Hc. destruct (pi_rdv _ _ _ _ HP a key x Hc) as (r & Hr & Hq). exists r. split_and!; try done.
  apply (rep_live _ _ _ _ (c_rep _ _ _ _ _ HC)). by exists key.
Qed.

Lemma rdv_same_pend k0 k Q pd k1 Q1 :
  kcrit k Q -> pending k Q pd -> rdv_same k0 Q k1 Q1 -> threads k0 = threads k ->
  reply_tree k0 = reply_tree k -> memory k0 = memory k -> pending k1 Q1 pd.
Proof.
  intros HK HP (Hf & Hm & _ & _ & HQ) Et Er Em. unfold pending. apply rdv_threads in Hf as [-> _]. rewrite Hm, Et, Er.
  eapply pinv_less; [exact HP|apply (pi_local _ _ _ _ HP)|]. intros a key x Hc. exists x. split; [done|].
  destruct (pending_live _ _ _ _ _ _ HK HP Hc) as (r & Hr & Hl & Hq). exists r. split; [done|].
  destruct HQ as [-> |(r' & Hr' & ->)]; [done|]. rewrite lookup_insert_ne; [done|]. rewrite Em in Hr'. congruence.
Qed.

(** The caller waits with a rendezvous of its own. *)
Lemma reserve_pend ths rm Q Q' pd a key r th w x :
  pinv ths rm Q pd -> rm !! key = None -> (forall key' r', rm !! key' = Some r' -> r' ≠ r) ->
  th = blocked w th -> cont_fits (KCall key) (wstate_of w) = true -> wstate_of w ≠ WNone ->
  x = is_reply (wstate_of w) -> Q' !! LReply r = Some (if x then [a] else []) ->
  (forall r', r' ≠ r -> Q' !! LReply r' = Q !! LReply r') ->
  pinv (<[a := th]> ths) (<[key := r]> rm) Q' (<[a := KCall key]> pd).
Proof.
  intros HP Hk Hr Hth Hf Hw -> HQr HQ. eapply (pinv_more _ _ _ _ HP _ _ _ _ a key (is_reply (wstate_of w))).
  - intros b. destruct (decide (b = a)) as [->|]; [|rewrite !lookup_insert_ne by done; apply (pi_local _ _ _ _ HP)].
    rewrite !lookup_insert_eq, Hth. split_and!; [done|exact Hf|done].
  - rewrite !lookup_insert_eq, Hth. cbn.
    change (wstate_of (set_wresult E_OK w)) with (wstate_of w). by destruct (wstate_of w).
  - exists r. by rewrite lookup_insert_eq.
  - done.
  - intros b key' x Hb. rewrite !lookup_insert_ne by done. intros Hc. exists x. split; [done|].
    destruct (pi_rdv _ _ _ _ HP b key' x Hc) as (r' & Hr' & Hq). exists r'.
    rewrite lookup_insert_ne by congruence. split; [done|]. rewrite HQ; [done|]. by eapply Hr.
Qed.

Lemma call_pend k Q pd port_id message size o k1 Q1 :
  kcrit k Q -> pending k Q pd -> call_rel k Q port_id message size o k1 Q1 -> pending k1 Q1 (pend_out k pd o).
Proof.
  intros HK HP Hr. unfold call_rel in Hr.
  destruct (km_map (thread_tree k) !! port_id) as [p|]; [|by destruct Hr as (-> & -> & ->)].
  destruct Hr as (th & me & Hth & Hme & Hr).
  destruct (negb (opened (port th))); [by destruct Hr as (-> & -> & ->)|].
  destruct (max_call (port th) <? size); [by destruct Hr as (-> & -> & ->)|].
  destruct Hr as [(-> & _ & -> & ->)|[[-> Hs]|(key & r & Hr)]]; [done|by eapply rdv_same_pend|].
  assert (Hcall : reserved k key r (port th) k1 -> km_map (reply_tree k) !! key = None /\
    (forall key' r', km_map (reply_tree k) !! key' = Some r' -> r' ≠ r) /\ 0 < key < MAX_THREAD /\
    km_map (reply_tree k1) = <[key := r]> (km_map (reply_tree k))).
  { intros (Hf & Hl & Hm & _). destruct (free_key _ _ _ HK Hf) as (Hn & _ & Hk). split_and!; try done; [|lia..].
    intros key' r' Hr' ->. apply Hl. apply (rep_live _ _ _ _ (c_rep _ _ _ _ _ (proj1 HK))). by exists key'. }
  cbn zeta in Hr. destruct (Q !! LReceiver p) as [[|tp l]|] eqn:Hl; [shelve| |shelve].
  - destruct Hr as (w & Hw & Hr). destruct Hr as (e & u & _ & Hr).
    destruct (e =? 0); [|by destruct Hr as (-> & A & Hs); eapply rdv_same_pend].
    destruct Hr as (-> & Hres & _ & Et & ->). destruct (Hcall Hres) as (Hn & Hd & _ & Hm).
    destruct (receiver_thread _ _ _ _ _ HK Hl) as (w' & Hw' & Hwt & _). assert (w' = w) as -> by congruence.
    pose proof (deliver_pend _ _ _ _ _ size (create_ipc_tag (thread_id me) key)
      (set_threads (<[tp := woken (delivered size (create_ipc_tag (thread_id me) key) w)]> (threads k)) k)
      HK HP Hw Hwt eq_refl eq_refl) as HP1.
    unfold pending. rewrite Et, Hm. cbn [pend_out].
    apply (reserve_pend _ _ _ _ _ _ _ _ _ (set_ipc_message message (set_wtype wait_reply (wait_reason me))) true HP1);
      try done.
    + by rewrite unready_reply, lookup_insert_eq.
    + intros r' Hr'. rewrite unready_reply, lookup_insert_ne by congruence.
      by rewrite !woken_queues_reply, !unhook_lookup, lookup_insert_ne by congruence.
  Unshelve. all: destruct Hr as (-> & Hres & _ & Et & ->); destruct (Hcall Hres) as (Hn & Hd & Hk & Hm).
    all: assert (Hkey : key_of_ipc (create_ipc_tag (thread_id me) key) = key)
      by (apply key_of_create; [by eapply thread_id_range|unfold MAX_THREAD in *; lia]).
    all: unfold pending; rewrite Et, Hm; cbn [pend_out].
    all: apply (reserve_pend _ _ _ _ _ _ _ _ _
      (WaitReason wait_call E_OK size message (create_ipc_tag (thread_id me) key)) false HP); try done.
    all: try (unfold wstate_of; cbn; rewrite Hkey; apply Z.eqb_refl).
    all: try (by rewrite unready_reply, lookup_insert_ne, lookup_insert_eq).
    all: intros r' Hr'; by rewrite unready_reply, !lookup_insert_ne by congruence.
Qed.

(** ** Ports *)

Definition on_port (o : option thread_t) : Prop :=
  exists th, o = Some th /\ wstate_of (wait_reason th) ≠ WNone /\ wstate_of (wait_reason th) ≠ WReply.

Lemma pinv_drop ths rm Q pd l :
  pinv ths rm Q pd -> NoDup l -> (forall a, a ∈ l -> on_port (ths !! a)) -> pinv (drop_threads l ths) rm Q pd.
Proof.
  revert ths. induction l as [|a l IH]; intros ths HP Hnd Ho; [done|]. apply NoDup_cons in Hnd as [Ha Hnd].
  change (drop_threads (a :: l) ths) with (drop_threads l (alter dropped a ths)).
  apply IH; [|done|].
  - destruct (Ho a) as (th & Hth & Hn & Hr); [left|].
    assert (Ealt : forall b, b ≠ a -> alter dropped a ths !! b = ths !! b) by (intros; by rewrite lookup_alter_ne).
    assert (Ea : alter dropped a ths !! a = Some (dropped th)) by (by rewrite lookup_alter_eq, Hth).
    eapply pinv_less; [exact HP| |].
    + intros b. destruct (decide (b = a)) as [->|]; [|rewrite Ealt by done; apply (pi_local _ _ _ _ HP)].
      pose proof (pi_local _ _ _ _ HP a) as HL. rewrite Ea. rewrite Hth in HL. unfold local in *.
      destruct (pd !! a) as [c|]; [|done]. split_and!; [apply woken_status|by destruct c|done].
    + intros b key x. destruct (decide (b = a)) as [->|]; [|rewrite Ealt by done; intros Hc; exists x;
        split; [done|by apply (pi_rdv _ _ _ _ HP)]].
      pose proof (pi_local _ _ _ _ HP a) as HL. rewrite Ea. rewrite Hth in *. unfold local in HL. unfold claim.
      destruct (pd !! a) as [[key'| | |]|] eqn:Hpd; try done. cbn. intros [= <- <-]. exists false.
      assert (Hcl : claim (ths !! a) (pd !! a) = Some (key', false)).
      { rewrite Hth, Hpd. unfold claim. by destruct (wstate_of (wait_reason th)). }
      pose proof (pi_rdv _ _ _ _ HP a key' false Hcl) as Hrdv. rewrite Hth, Hpd in Hcl. by split.
  - intros b Hb. rewrite lookup_alter_ne by (by intros ->). apply Ho. by right.
Qed.

Lemma port_members k Q g l a :
  kcrit k Q -> Q !! g = Some l -> a ∈ l -> wait_guard g = true -> (forall r, g ≠ LReply r) ->
  on_port (threads k !! a).
Proof.
  intros HK Hg Ha Hw Hr. destruct (queued_thread _ _ _ _ a HK Hg Ha Hw) as (th & Hth & Hf & _). exists th.
  split_and!; [done|by destruct (wstate_of (wait_reason th))|]. intros E. rewrite E in Hf.
  destruct g; try done. by eapply Hr.
Qed.

Lemma close_pend k Q pd r k1 Q1 :
  kcrit k Q -> pending k Q pd -> close_rel k Q r k1 Q1 -> pending k1 Q1 pd.
Proof.
  intros HK HP (me & Hme & Hr). destruct (opened (port me)) eqn:Ho; [|by destruct Hr as (_ & -> & ->)].
  destruct (port_queues _ _ _ _ HK Hme Ho) as [[lc Hlc] [lr Hlr]]. rewrite Hlc, Hlr in Hr. cbn zeta in Hr.
  change (default [] (Some lr)) with lr in Hr. change (default [] (Some lc)) with lc in Hr.
  destruct Hr as (_ & Hq & Et & ->). apply qframe_tree in Hq. cbn in Hq.
  destruct (c_links _ _ _ _ _ (proj1 HK)) as (I & HQ & _).
  set (ths := <[running k := port_closed me]> (threads k)) in *.
  assert (HP1 : pinv ths (km_map (reply_tree k)) Q pd).
  { exact (pending_keep k Q (set_threads ths k) Q pd _ me (port_closed me) HP Hme eq_refl eq_refl eq_refl eq_refl
      (λ _, eq_refl)). }
  assert (Hon : forall g l a, Q !! g = Some l -> a ∈ l -> wait_guard g = true -> (forall r, g ≠ LReply r) ->
    on_port (ths !! a)).
  { intros g l a Hg Ha Hw Hgr. destruct (port_members _ _ _ _ _ HK Hg Ha Hw Hgr) as (th & Hth & Hon).
    unfold ths. destruct (decide (a = running k)) as [->|]; [|exists th; by rewrite lookup_insert_ne].
    exists (port_closed me). rewrite lookup_insert_eq. assert (th = me) as -> by congruence. done. }
  unfold pending. rewrite Et, Hq. apply (pinv_same (drop_threads lc (drop_threads lr ths)) _ Q).
  - apply pinv_drop; [apply pinv_drop|..].
    + done.
    + by apply (q_nodup _ _ _ HQ _ _ Hlr).
    + intros a Ha. by apply (Hon _ _ _ Hlr).
    + by apply (q_nodup _ _ _ HQ _ _ Hlc).
    + intros a Ha. rewrite drop_threads_lookup; [by apply (Hon _ _ _ Hlc)|]. intros Ha'.
      by pose proof (q_unique _ _ _ HQ _ _ _ _ a Hlr Hlc Ha' Ha eq_refl).
  - apply same_threads_refl. done.
  - intros r'. rewrite drop_queues_lookup, lookup_insert_ne, drop_queues_lookup, lookup_insert_ne by done. done.
Qed.

(** ** Threads *)

Lemma unhook_same k Q pd a b key x r :
  kcrit k Q -> pending k Q pd -> claim (threads k !! b) (pd !! b) = Some (key, x) -> b ≠ a ->
  km_map (reply_tree k) !! key = Some r -> unhook a Q !! LReply r = Q !! LReply r.
Proof.
  intros HK HP Hc Hne Hr. rewrite unhook_lookup. destruct (pi_rdv _ _ _ _ HP b key x Hc) as (r' & Hr' & Hq).
  assert (r' = r) as -> by congruence. rewrite Hq. cbn. rewrite filter_ne_id; [done|]. destruct x; set_solver.
Qed.

(** A thread that has no continuation any more. *)
Lemma pending_forget k Q pd a k1 Q1 (o : option thread_t) :
  pending k Q pd -> (forall b, b ≠ a -> threads k1 !! b = threads k !! b) -> threads k1 !! a = o ->
  match o with Some th => wstate_of (wait_reason th) = WNone | None => True end ->
  reply_tree k1 = reply_tree k ->
  (forall b key x r, b ≠ a -> claim (threads k !! b) (pd !! b) = Some (key, x) ->
     km_map (reply_tree k) !! key = Some r -> Q1 !! LReply r = Q !! LReply r) ->
  pending k1 Q1 (delete a pd).
Proof.
  intros HP Ho Ha Hw Er HQ. unfold pending. rewrite Er. eapply pinv_less; [exact HP| |].
  - intros b. destruct (decide (b = a)) as [->|].
    + rewrite lookup_delete_eq, Ha. by destruct o.
    + rewrite lookup_delete_ne, Ho by done. apply (pi_local _ _ _ _ HP).
  - intros b key x. destruct (decide (b = a)) as [->|Hne].
    + rewrite lookup_delete_eq. unfold claim. by destruct (threads k1 !! a).
    + rewrite lookup_delete_ne, Ho by done. intros Hc. exists x. split; [done|].
      destruct (pi_rdv _ _ _ _ HP b key x Hc) as (r & Hr & Hq). exists r. split; [done|]. by rewrite (HQ b key x r).
Qed.

Lemma terminate_pend k Q pd id r k1 Q1 :
  kcrit k Q -> pending k Q pd -> terminate_rel k Q id r k1 Q1 ->
  pending k1 Q1 (if r =? E_OK then match km_get (thread_tree k) id with Some a => delete a pd | None => pd end else pd).
Proof.
  intros HK HP Hr. rewrite (tree_lookup _ _ _ HK). unfold terminate_rel in Hr.
  destruct (km_map (thread_tree k) !! id) as [a|]; [|by destruct Hr as (-> & -> & ->)].
  destruct Hr as (th & Ha & Hr). destruct (status th =? TTS_RUN); [by destruct Hr as (-> & -> & ->)|].
  destruct (status th =? TTS_DMT); [by destruct Hr as (-> & -> & ->)|].
  destruct Hr as (-> & Hq & Et & ->). cbn iota.
  eapply (pending_forget k Q pd a); [done| |by rewrite Et, lookup_insert_eq| |by apply qframe_tree in Hq|].
  - intros b Hb. by rewrite Et, lookup_insert_ne.
  - cbn. destruct (waiting (status th)) eqn:Hw; [done|]. destruct (crit_threads _ (proj2 HK) a th Ha) as [_ Hwi].
    destruct (wstate_of (wait_reason th)) eqn:Ew; try done; exfalso; rewrite Hw in Hwi; by assert (false = true) by (by apply Hwi).
  - intros b key x r Hb Hc Hr. destruct (status th =? TTS_RDY); [apply unready_reply|].
    destruct (waiting (status th)); [|done]. by eapply (unhook_same k Q pd a b).
Qed.

Lemma dormant_nopend k Q pd a th : pending k Q pd -> threads k !! a = Some th -> status th = TTS_DMT -> pd !! a = None.
Proof.
  intros HP Ha Hd. pose proof (pi_local _ _ _ _ HP a) as HL. rewrite Ha in HL. unfold local in HL.
  destruct (pd !! a); [|done]. by destruct HL.
Qed.

Lemma destroy_pend k Q pd id r k1 Q1 :
  kcrit k Q -> pending k Q pd -> destroy_rel k Q id r k1 Q1 -> pending k1 Q1 pd.
Proof.
  intros HK HP [-> Hr]. destruct (km_map (thread_tree k) !! id) as [a|]; [|by destruct Hr as (_ & ->)].
  destruct Hr as (th & Ha & Hr). destruct (Z.eqb_spec (status th) TTS_DMT) as [E|E]; [|by destruct Hr as (_ & ->)].
  destruct Hr as (_ & E1 & _). pose proof (dormant_nopend _ _ _ _ _ HP Ha E) as Hn.
  rewrite <- (delete_id pd a Hn). eapply (pending_forget k Q pd a _ _ None); [done| |by rewrite E1; apply lookup_delete_eq|done|by rewrite E1|done].
  intros b Hb. rewrite E1. by apply lookup_delete_ne.
Qed.

Lemma create_pend k Q pd id pk r k1 Q1 :
  kcrit k Q -> pending k Q pd -> create_rel k Q id pk r k1 Q1 -> pending k1 Q1 pd.
Proof.
  intros HK HP Hr. unfold create_rel in Hr.
  destruct (_ || _); [by destruct Hr as (_ & -> & ->)|]. destruct (negb _); [by destruct Hr as (_ & -> & ->)|].
  destruct (negb _); [by destruct Hr as (_ & -> & ->)|].
  assert (Hnot : not_created k k1 -> pending k1 Q pd) by (intros [E _]; unfold pending; by rewrite E).
  destruct Hr as [(_ & Hn & ->)|Hr]; [by apply Hnot|].
  destruct (km_map (thread_tree k) !! id) as [w|]; [destruct Hr as (_ & Hn & ->); by apply Hnot|].
  destruct Hr as (_ & a & sp & E1 & Ha & _ & _ & _ & _ & Hr).
  assert (Hn : pd !! a = None).
  { pose proof (pi_local _ _ _ _ HP a) as HL. rewrite Ha in HL. unfold local in HL. by destruct (pd !! a). }
  rewrite <- (delete_id pd a Hn).
  destruct (Z.land (tskatr pk) TA_ACT =? 0); destruct Hr as [Et ->].
  all: eapply (pending_forget k Q pd a); [done|intros b Hb; by rewrite Et, lookup_insert_ne
    |by rewrite Et, lookup_insert_eq|done|by rewrite E1|].
  all: intros b key x r' _ _ _; unfold joined, without_port;
    rewrite ?lookup_insert_ne, !lookup_delete_ne by done; done.
Qed.

(** ** Acceptable operations *)

Definition not_idle k : Prop := km_map (thread_tree k) !! PORT_IDLE ≠ Some (running k).

(** Nobody waits on the port of a dormant thread that is destroyed. *)
Definition destroy_ok k (id : Z) : Prop :=
  forall a th, km_map (thread_tree k) !! id = Some a -> threads k !! a = Some th -> status th = TTS_DMT ->
    (lists k !! LCaller a = None \/ lists k !! LCaller a = Some []) /\
    (lists k !! LReceiver a = None \/ lists k !! LReceiver a = Some []).

(** The answer is for a call that has been received, fits and can be copied. *)
Definition reply_ok k pd (key message size : Z) : Prop :=
  received k pd key /\
  forall r rp tp w, km_map (reply_tree k) !! key = Some r -> lists k !! LReply r = Some [LWaiting tp] ->
    replies k !! r = Some rp -> threads k !! tp = Some w ->
    size <= reply_max rp /\
    exists u, memcpy_k2u (umem k) (cpu_cr3 (cpu k)) w (ipc_message (wait_reason w)) message size = Some (0, u).

(** The message can be handed to the first receiver of the port, and the
    message of its first caller can be taken, without a page fault. *)
Definition call_ok k (port_id message size : Z) : Prop :=
  forall p tp l w, km_map (thread_tree k) !! port_id = Some p -> lists k !! LReceiver p = Some (LWaiting tp :: l) ->
    threads k !! tp = Some w ->
    is_Some (memcpy_k2u (umem k) (cpu_cr3 (cpu k)) w (ipc_message (wait_reason w)) message size).

Definition receive_ok k (port_id message : Z) : Prop :=
  forall p tp l w, km_map (thread_tree k) !! port_id = Some p -> lists k !! LCaller p = Some (LWaiting tp :: l) ->
    threads k !! tp = Some w ->
    is_Some (memcpy_u2k (umem k) (cpu_cr3 (cpu k)) w message (ipc_message (wait_reason w)) (ipc_size (wait_reason w))).

(** What the callers of the kernel respect, by operation. *)
Definition acceptable (s : sys rings) (act : action) : Prop :=
  let k := kern s in
  match act with
  | AResume => is_Some (pend s !! running k)
  | ATick | ANotify _ _ => True
  | _ => pend s !! running k = None
  end /\
  match act with
  | AListen | AEnd | AEndDestroy => not_idle k
  | ACall port_id message size => not_idle k /\ call_ok k port_id message size
  | AReceive port_id message => not_idle k /\ receive_ok k port_id message
  | ASend tag message size =>
      if key_of_ipc tag =? 0 then not_idle k /\ call_ok k tag message size else reply_ok k (pend s) (key_of_ipc tag) message size
  | ACreate _ pk => ctsk_ok k pk
  | ADestroy id => destroy_ok k id
  | ATerminate id => id ≠ PORT_IDLE /\
      (km_map (thread_tree k) !! id = Some (running k) -> forall th, threads k !! running k = Some th ->
         status th = TTS_RUN)
  | ASuspend id =>
      (forall a, suspend_target k id = Some a -> km_map (thread_tree k) !! PORT_IDLE ≠ Some a) /\
      (suspend_target k id = Some (running k) -> id = TSK_SELF /\
         forall th, threads k !! running k = Some th -> status th = TTS_RUN)
  | ADelay =>
      match (kq_take (kqueue k)).1 with
      | Some (DelayParam H_ready_rotate pri _) => MIN_PRIORITY <= pri <= MAX_PRIORITY
      | Some (DelayParam H_thread_destroy id _) => destroy_ok k id
      | None => True
      end
  | APageFree addr => addr ∈ live_pages (memory k) /\
      forall a th, threads k !! a = Some th -> stack_page th ≠ addr
  | ARegionGet id from size to => region_ok memcpy_u2k k id to from size
  | ARegionPut id to size from => region_ok memcpy_k2u k id to from size
  | ARegionCopy id from size to => region_ok strncpy_u2k k id to from size
  | ASkipCopy id skip ranges n => region_ok scattered_copy_u2k k id skip ranges n
  | AOpen _ | AClose | AStart _ | AWake _ | AResume | ATick | ANotify _ _ | APageAlloc => True
  end.

(** The conditions on the lists, read on the queues. *)
Lemma list_queue k Q g :
  kcrit k Q -> is_guard g = true -> lists k !! g = None \/ lists k !! g = Some [] -> Q !! g = None \/ Q !! g = Some [].
Proof.
  intros [HC _] Hg. destruct (c_links _ _ _ _ _ HC) as (I & HQ & _). rewrite (q_guard _ _ _ HQ g Hg).
  destruct (Q !! g) as [[|a l]|]; [by right|by intros [?|?]|by left].
Qed.

Lemma destroy_ok_queues k Q id :
  kcrit k Q -> destroy_ok k id ->
  forall a th, km_map (thread_tree k) !! id = Some a -> threads k !! a = Some th -> status th = TTS_DMT -> port_idle Q a.
Proof.
  intros HK Hd a th Hp Ha Hst. destruct (Hd a th Hp Ha Hst) as [H1 H2]. split; by eapply list_queue.
Qed.

Lemma call_ok_queue k Q port_id message size :
  kcrit k Q -> call_ok k port_id message size -> port_writable k Q port_id message size.
Proof.
  intros [HC _] Hok p Hp tp l w Hl Hw. destruct (c_links _ _ _ _ _ HC) as (I & HQ & _).
  eapply (Hok p tp); [done| |done]. exact (q_lookup _ _ _ HQ _ _ Hl).
Qed.

Lemma receive_ok_queue k Q port_id message :
  kcrit k Q -> receive_ok k port_id message -> port_readable k Q port_id message.
Proof.
  intros [HC _] Hok p Hp tp l w Hl Hw. destruct (c_links _ _ _ _ _ HC) as (I & HQ & _).
  eapply (Hok p tp); [done| |done]. exact (q_lookup _ _ _ HQ _ _ Hl).
Qed.

Lemma reply_ok_guard k Q pd key message size :
  kcrit k Q -> pending k Q pd -> reply_ok k pd key message size -> reply_guard k Q key message size.
Proof.
  intros HK HP [Hr Hok]. split; [by eapply received_calls|]. intros r tp l rp w Hrm Hl Hrp Hw.
  destruct (reply_object _ _ _ _ HK Hrm) as (rp' & l' & _ & Hl' & Hlen). rewrite Hl in Hl'. simplify_eq.
  destruct l; [|cbn in Hlen; lia]. apply (Hok r rp tp w); try done.
  destruct HK as [HC _]. destruct (c_links _ _ _ _ _ HC) as (I & HQ & _). by rewrite (q_lookup _ _ _ HQ _ _ Hl).
Qed.

(** ** Steps *)

(** The goal of every case below. *)
Definition goes_on (pa : outcome -> gmap Z cont) (o : outcome) k' : Prop :=
  exists Q', kernel_at k' Q' /\ pending k' Q' (pa o).

Lemma op_goes_on (R : outcome -> kern_t -> queues -> Prop) (m : M rings outcome) k pa :
  wp m k (op_post R) -> (forall o k1 Q1, kcrit k1 Q1 -> R o k1 Q1 -> pending k1 Q1 (pa o)) -> wp m k (goes_on pa).
Proof.
  intros Hm Hp. eapply wp_mono; [exact Hm|]. intros o k' (k1 & Q1 & Q' & H1 & H2 & H3 & H4). exists Q'.
  split; [done|]. eapply pending_dframe; [done| |done]. by apply Hp.
Qed.

Lemma code_goes_on (R : Z -> kern_t -> queues -> Prop) (m : M rings Z) k pa :
  wp m k (op_post R) -> (forall r k1 Q1, kcrit k1 Q1 -> R r k1 Q1 -> pending k1 Q1 (pa (Return r None))) ->
  wp (code m) k (goes_on pa).
Proof.
  intros Hm Hp. unfold code. wp_step. eapply wp_mono; [exact Hm|].
  intros r k' (k1 & Q1 & Q' & H1 & H2 & H3 & H4). unfold ret. wp_step. exists Q'.
  split; [done|]. eapply pending_dframe; [done| |done]. by apply Hp.
Qed.

(** The running thread, with nothing pending, becomes dormant. *)
Lemma end_pend k Q pd th k1 :
  pending k Q pd -> threads k !! running k = Some th -> pd !! running k = None ->
  threads k1 = <[running k := ended th]> (threads k) -> reply_tree k1 = reply_tree k ->
  pending k1 (unready (running k) Q) pd.
Proof.
  intros HP Ha Hn Et Er. eapply (pending_upd k); try done; [by right|]. intros r. apply unready_reply.
Qed.

(** The operations on threads. *)
Lemma end_goes_on k Q pd :
  kernel_at k Q -> pending k Q pd -> pd !! running k = None -> not_idle k ->
  wp (thread_end;; ret E_OK) k (goes_on (pend_out k pd)) /\
  wp (thread_end_and_destroy;; ret E_OK) k (goes_on (pend_out k pd)).
Proof.
  intros HKa HP Hn Hi. destruct (running_facts _ _ HKa) as (me & Hme & Hr & _). split; wp_step.
  - eapply wp_mono; [by apply (thread_end_spec k Q me (proj1 HKa))|].
    intros [] k' (k1 & Q' & H1 & H2 & H3 & H4 & _ & H5). unfold ret. wp_step. exists Q'. split; [done|].
    eapply pending_dframe; [done| |done]. eapply end_pend; try done. by apply qframe_tree in H3.
  - eapply wp_mono; [by apply (thread_end_and_destroy_spec k Q me)|].
    intros [] k' (k1 & Q' & H1 & H2 & H3 & H4 & _ & H5). unfold ret. wp_step. exists Q'. split; [done|].
    eapply pending_dframe; [done| |done]. eapply end_pend; try done. by apply qframe_tree in H3.
Qed.

Lemma suspend_pend k Q pd a r k1 Q1 :
  pending k Q pd -> suspend_rel k Q a r k1 Q1 -> pending k1 Q1 pd.
Proof.
  intros HP (th & Ha & Hr). destruct (ready (status th)).
  { destruct Hr as (_ & Hq & -> & Et). eapply (pending_upd k); try done; [by apply qframe_tree in Hq|].
    intros r'. apply unready_reply. }
  destruct (status th =? TTS_WAI); [|by destruct Hr as (_ & -> & ->)].
  destruct Hr as (_ & Hq & -> & Et). eapply (pending_upd k); try done. by apply qframe_tree in Hq.
Qed.

Lemma resume_pend k Q pd a r k1 Q1 :
  pending k Q pd -> resume_rel k Q a r k1 Q1 -> pending k1 Q1 pd.
Proof.
  intros HP (th & Ha & Hr). destruct (status th =? TTS_SUS).
  { destruct Hr as (_ & Hq & -> & Et). eapply (pending_upd k); try done; [by apply qframe_tree in Hq|].
    intros r'. by rewrite lookup_insert_ne. }
  destruct (status th =? TTS_WAS); [|by destruct Hr as (_ & -> & ->)].
  destruct Hr as (_ & Hq & -> & Et). eapply (pending_upd k); try done. by apply qframe_tree in Hq.
Qed.

Lemma start_pend k Q pd id r k1 Q1 :
  pending k Q pd -> start_rel k Q id r k1 Q1 -> pending k1 Q1 pd.
Proof.
  intros HP Hr. unfold start_rel in Hr.
  destruct (km_map (thread_tree k) !! start_id k id) as [a|]; [|by destruct Hr as (_ & -> & ->)].
  destruct Hr as (th & Ha & Hr). destruct (status th =? TTS_DMT); [|by destruct Hr as (_ & -> & ->)].
  destruct Hr as (_ & Hq & -> & Et). eapply (pending_upd k); try done; [by apply qframe_tree in Hq|].
  intros r'. unfold joined. by rewrite lookup_insert_ne.
Qed.

Lemma open_pend k Q pd pk r k1 Q1 :
  pending k Q pd -> open_rel k Q pk r k1 Q1 -> pending k1 Q1 pd.
Proof.
  intros HP Hr. unfold open_rel in Hr. destruct pk as [pk|]; [|by destruct Hr as (_ & -> & ->)].
  destruct (negb _); [by destruct Hr as (_ & -> & ->)|]. destruct Hr as (me & Hme & Hr).
  destruct (opened (port me)); [by destruct Hr as (_ & -> & ->)|].
  destruct Hr as (_ & Hq & Et & ->). eapply (pending_keep k); try done; [by apply qframe_tree in Hq|].
  intros r'. by rewrite !lookup_insert_ne.
Qed.

(** A turn of the delay thread. *)
Lemma delay_goes_on (s : sys rings) Q :
  sys_at s Q -> acceptable s ADelay -> wp (delay_turn;; ret E_OK) (kern s) (goes_on (pend_out (kern s) (pend s))).
Proof.
  intros [HKa HP] [_ Hok]. set (k := kern s) in *. cbn in Hok. unfold delay_turn.
  destruct (kq_take (kqueue k)) as [o q] eqn:Eq. cbn in Hok.
  assert (HKa' : kernel_at (set_kqueue q k) Q).
  { destruct HKa as ([HC HR] & ? & ?). split_and!; [split; [by eapply core_ext|by eapply crit_ext]|done..]. }
  wp_step. wp_step. exists o, (set_kqueue q k). split; [by rewrite Eq|].
  destruct o as [[h x y]|]; cbn.
  2:{ wp_step. unfold ret. wp_step. by exists Q. }
  destruct h.
  - destruct (proj2 (rq_dom _ _ _ (c_rq _ _ _ _ _ (proj1 (proj1 HKa'))) x) Hok) as [l Hl].
    wp_step. eapply wp_mono; [by apply (ready_rotate_spec _ Q x y l)|].
    intros [] k' (k1 & Q' & H1 & H2 & H3 & H4). wp_step. unfold ret. wp_step. exists Q'. split; [done|].
    eapply pending_dframe; [done| |done]. unfold pending. rewrite H2. apply (pinv_same _ _ _ _ HP).
    + apply same_threads_refl. done.
    + intros r. by rewrite lookup_insert_ne.
  - wp_step. wp_step. eapply wp_mono.
    + apply (thread_destroy_spec _ Q x HKa'). exact (destroy_ok_queues (set_kqueue q k) Q x (proj1 HKa') Hok).
    + intros r k' (k1 & Q1 & Q' & H1 & H2 & H3 & H4). wp_step. wp_step. unfold ret. wp_step. exists Q'. split; [done|].
      eapply pending_dframe; [done| |done]. by eapply (destroy_pend (set_kqueue q k) Q); [apply HKa'| |].
Qed.

Lemma tick_pend k Q pd k' : pending k Q pd -> tick_rel k k' -> pending k' Q pd.
Proof.
  intros HP (th & Ha & Hr). destruct (is_kthread th); [by subst|].
  cbn zeta in Hr. destruct (u32 (quantum th - 1) =? 0); [|by subst k'; eapply (pending_keep k)].
  destruct Hr as [E _]. rewrite E. by eapply (pending_keep k).
Qed.

Lemma region_pend f k Q pd id x y z r k1 Q1 :
  pending k Q pd -> region_rel f k Q id x y z r k1 Q1 -> pending k1 Q1 pd.
Proof.
  intros HP [-> Hr]. destruct (km_map (thread_tree k) !! id) as [a|]; [|by destruct Hr as [_ ->]].
  by destruct Hr as (th & _ & u & _ & ->).
Qed.

(** An acceptable operation is defined, and the invariant holds after it. *)
Lemma sys_step s act :
  sys_ok s -> acceptable s act -> exists o s', sys_exec act s = Some (o, s') /\ sys_ok s'.
Proof.
  intros [Q Hat] Hacc. pose proof Hat as [HKa HP]. pose proof HKa as (HK & _).
  enough (Hwp : wp (perform act (pend s !! running (kern s))) (kern s) (goes_on (pend_after s act))).
  { destruct Hwp as (o & k' & E & Q' & H1 & H2). exists o, (Sys k' (pend_after s act o)).
    unfold sys_exec. rewrite E. split; [done|]. by exists Q'. }
  destruct act; destruct Hacc as [Hpd Hacc]; cbn in Hpd, Hacc; cbn [perform].
  - eapply code_goes_on; [by apply ipc_notify_spec|]. intros r k1 Q1 _ Hr. cbn.
    eapply pending_lframe; [exact HP|]. by eapply notify_lframe.
  - eapply code_goes_on; [by apply ipc_open_spec|]. intros r k1 Q1 _ Hr. by eapply open_pend.
  - eapply code_goes_on; [by apply ipc_close_spec|]. intros r k1 Q1 _ Hr. by eapply close_pend.
  - destruct Hacc. eapply op_goes_on; [by apply ipc_call_spec; [..|apply call_ok_queue]|]. intros o k1 Q1 _ Hr. by apply (call_pend _ _ _ _ _ _ _ _ _ HK HP) in Hr; destruct o.
  - destruct Hacc. eapply op_goes_on; [by apply ipc_receive_spec; [..|apply receive_ok_queue]|]. intros o k1 Q1 _ Hr. by apply (receive_pend _ _ _ _ _ _ _ _ HK HP) in Hr; destruct o.
  - unfold ipc_send. destruct (key_of_ipc tag =? 0); cbn [negb].
    + destruct Hacc. eapply op_goes_on; [by apply _send_spec; [..|apply call_ok_queue]|]. intros o k1 Q1 _ Hr. by apply (send_pend _ _ _ _ _ _ _ _ _ HK HP) in Hr; destruct o.
    + eapply op_goes_on; [by apply _reply_delivers; [|eapply reply_ok_guard]|]. intros o k1 Q1 _ Hr.
      by apply (reply_pend _ _ _ _ _ _ _ _ _ HK HP (proj1 Hacc)) in Hr; destruct o.
  - eapply op_goes_on; [by apply ipc_listen_spec|]. intros o k1 Q1 _ Hr. by apply (listen_pend _ _ _ _ _ _ HP) in Hr; destruct o.
  - destruct Hpd as [c Hc]. rewrite Hc. wp_step. apply wp_some. eapply op_goes_on.
    + apply (ipc_resume_spec _ Q); [done|]. intros key me -> Hme Hz. by eapply resume_guard.
    + intros o k1 Q1 _ Hr. pose proof (ipc_resume_pend _ _ _ _ _ _ _ HKa HP Hc Hr) as HP1.
      destruct Hr as (me & _ & -> & _). unfold resume_out. destruct c; [..|]; try exact HP1. by destruct (wresult _ =? 0).
  - eapply code_goes_on; [by apply thread_create_spec|]. intros r k1 Q1 _ Hr. by eapply create_pend.
  - eapply code_goes_on; [apply thread_destroy_spec; [done|by apply destroy_ok_queues]|]. intros r k1 Q1 _ Hr. by eapply destroy_pend.
  - eapply code_goes_on; [by apply thread_start_spec|]. intros r k1 Q1 _ Hr. by eapply start_pend.
  - by eapply wp_mono; [apply (end_goes_on _ _ _ HKa HP Hpd Hacc)|]; intros [].
  - by eapply wp_mono; [apply (end_goes_on _ _ _ HKa HP Hpd Hacc)|]; intros [].
  - destruct Hacc. eapply code_goes_on; [by apply thread_terminate_spec|]. intros r k1 Q1 _ Hr. by eapply terminate_pend.
  - destruct Hacc. eapply code_goes_on; [by apply thread_suspend_spec|]. intros r k1 Q1 _ Hr.
    destruct (suspend_target (kern s) id); [by eapply suspend_pend|by destruct Hr as (_ & -> & ->)].
  - eapply code_goes_on; [by apply thread_resume_spec|]. intros r k1 Q1 _ Hr.
    destruct (km_map (thread_tree (kern s)) !! id); [by eapply resume_pend|by destruct Hr as (_ & -> & ->)].
  - eapply wp_mono; [by apply (delay_goes_on s Q)|]. by intros [].
  - wp_step. eapply wp_mono; [by apply (interrupt_tick_spec _ Q)|]. intros [] k' (Q' & H1 & H2). unfold ret. wp_step.
    exists Q'. split; [done|].
    pose proof (tick_pend _ _ _ _ HP (ticked_rel _ (crit_run _ (proj2 HK)))) as HP1. destruct (_ =? 0).
    + destruct H2 as (_ & HD & _). eapply pending_dframe; [apply (kernel_at_ticked _ Q HKa)|exact HP1|by left].
    + by destruct H2 as [-> ->].
  - eapply code_goes_on; [by apply kcall_page_alloc_spec|]. intros r k1 Q1 _ (-> & E & _). unfold pending. by rewrite E.
  - destruct Hacc. eapply op_goes_on; [by apply kcall_page_free_spec|]. intros o k1 Q1 _ (-> & -> & E & _).
    unfold pending. by rewrite E.
  - eapply code_goes_on; [by apply region_spec|]. intros r k1 Q1 _ Hr. by eapply region_pend.
  - eapply code_goes_on; [by apply region_spec|]. intros r k1 Q1 _ Hr. by eapply region_pend.
  - eapply code_goes_on; [by apply region_spec|]. intros r k1 Q1 _ Hr. by eapply region_pend.
  - eapply code_goes_on; [by apply region_spec|]. intros r k1 Q1 _ Hr. by eapply region_pend.
Qed.

End System.
