(* ===== verification/KBoot.v ===== *)
(** * The boot establishes the invariant

    [start] (kernel/start.c) on cleared memory: the trees, the ready queues and
    the sequence of keys are set up, the idle thread is created and started,
    and the dispatcher leaves the thread that booted, whose record is a local
    variable, for good. *)

From S2P Require Import Prelude Lists AATree Bitmap Sequence Palloc KTypes KState KSched KThread.
From S2P Require Import KIpc Queues KQueues KInv KSteps KObjects KHoare KSchedOk KThreadOk KIpcOk KSystem.

(** The record of the thread that booted is gone. *)
Definition forget {P : Platform} {H : Type} (a : Z) (k : kernel H) : kernel H := set_threads (delete a (threads k)) k.

Section Boot.
Context {P : Platform} `{!KeyMapLaws pf_tree} `{!KernelMemoryLaws pf_memory}.
Notation kern_t := (kernel rings).
Implicit Types k : kern_t.
Implicit Types Q : queues.

(** The kernel with its slabs created and nothing allocated. *)
Record zeroed k : Prop := {
  z_threads : threads k = ∅;
  z_replies : replies k = ∅;
  z_lists : lists k = ∅;
  z_fpu : fpu_holder (cpu k) = 0;
  z_page : current_page_table (cpu k) = 0;
  z_mem : mem_ok (memory k);
  z_live : live_threads (memory k) = ∅ /\ live_replies (memory k) = ∅;
}.

(** Memory as the loader leaves it. *)
Record loaded k : Prop := {
  ld_threads : threads k = ∅;
  ld_replies : replies k = ∅;
  ld_lists : lists k = ∅;
  ld_fpu : fpu_holder (cpu k) = 0;
  ld_page : current_page_table (cpu k) = 0;
  ld_mem : mem_raw (memory k);
}.

(** ** Ready queues *)

Fixpoint empty_queues (n : nat) (i : Z) Q : queues :=
  match n with O => Q | S n => empty_queues n (i + 1) (<[LReady i := []]> Q) end.

Lemma ready_initialize_loop_spec n i k Q :
  qrep (lists k) Q ∅ -> (forall p, i <= p -> Q !! LReady p = None) ->
  wp (ready_initialize_loop n i) k (λ _ k',
    qrep (lists k') (empty_queues n i Q) ∅ /\ k' = set_lists (lists k') k).
Proof.
  revert i k Q. induction n as [|n IH]; intros i k Q HQ Hn; cbn [ready_initialize_loop empty_queues].
  { wp_step. split; [done|by destruct k]. }
  destruct (q_initialize _ _ _ HQ (LReady i)) as (A' & HA & HQ'); [done|left; apply Hn; lia|].
  wp_step. eapply wp_initialize; [exact HA|]. eapply wp_mono; [apply (IH (i + 1) _ (<[LReady i := []]> Q))|].
  - done.
  - intros p Hp. rewrite lookup_insert_ne; [apply Hn; lia|]. intros [=]. lia.
  - intros [] k' [H1 H2]. split; [done|]. rewrite H2. done.
Qed.

Definition ready_queues : queues := empty_queues 8 0 ∅.

Lemma ready_queues_lookup g :
  ready_queues !! g = match g with LReady p => if bool_decide (0 <= p <= 7) then Some [] else None | _ => None end.
Proof.
  unfold ready_queues, empty_queues. destruct g as [p|a|a|a|a|a|r].
  2,3,4,5,6,7: by rewrite !lookup_insert_ne.
  destruct (bool_decide_reflect (0 <= p <= 7)).
  - assert (p = 0 \/ p = 1 \/ p = 2 \/ p = 3 \/ p = 4 \/ p = 5 \/ p = 6 \/ p = 7) as Hp by lia.
    by destruct Hp as [->|[->|[->|[->|[->|[->|[-> | ->]]]]]]].
  - by rewrite !lookup_insert_ne by (intros [=]; lia).
Qed.

(** ** The state before the idle thread *)

(** The keys: 0 is taken at once, for it stands for no rendezvous. *)
Definition boot_keys : sequence_t :=
  match sequence_initialize MAX_THREAD true with
  | (_, Some s) => match sequence_get s with Some (_, s) => s | None => s end
  | _ => Sequence 0 0 0 [] 0
  end.

Lemma boot_keys_eq :
  exists s0, sequence_initialize MAX_THREAD true = (0, Some s0) /\ sequence_get s0 = Some (0, boot_keys).
Proof. eexists. split; [vm_compute; reflexivity|]. vm_compute. reflexivity. Qed.

Lemma boot_keys_spec :
  sequence_wf boot_keys /\ num_of_blocks boot_keys = 32 /\ forall n, n ∈ free boot_keys <-> 0 < n < MAX_THREAD.
Proof.
  destruct boot_keys_eq as (s0 & E0 & E1).
  pose proof (sequence_initialize_spec MAX_THREAD true) as Hi. rewrite E0 in Hi.
  destruct Hi as (_ & _ & _ & Hwf & Hf); [unfold MAX_THREAD; lia|].
  destruct (sequence_get_spec s0 Hwf) as (n & s1 & E & Hwf1 & Hs). rewrite E1 in E. injection E as <- <-.
  split_and!; [done|by vm_compute|].
  destruct Hs as [(_ & Hm & _)|[_ Hf1]]; [discriminate Hm|]. intros n. rewrite Hf1, elem_of_difference, elem_of_singleton, Hf. lia.
Qed.

Lemma ipc_initialize_run k m :
  reply_slab_create (memory k) = Some m ->
  ipc_initialize k = Some (E_OK, set_reply_tree km_new (set_memory m (set_reply_sequence boot_keys k))).
Proof.
  intros Em. destruct boot_keys_eq as (s0 & E0 & E1). unfold ipc_initialize. rewrite E0.
  unfold mbind, M_bind, modify, get_sequence, create_reply_tree. cbn [reply_sequence set_reply_sequence]. rewrite E1.
  cbn [mbind option_bind]. change (0 <? 0) with false. cbv beta iota.
  change (memory (set_reply_sequence boot_keys (set_reply_sequence s0 k))) with (memory k). rewrite Em. done.
Qed.

#[local] Opaque boot_keys.

(** The kernel before its first thread: no thread, no rendezvous. *)
Lemma boot_core k A :
  zeroed k -> qrep A ready_queues ∅ ->
  core (set_ready_bits 0 (set_lists A (set_thread_tree km_new (set_reply_tree km_new
    (set_reply_sequence boot_keys k))))) ready_queues ∅ ∅ ∅.
Proof.
  intros [Zt Zr Zl Zf Zp Zm [Zlt Zlr]] HQ. destruct boot_keys_spec as (Hwf & Hb & Hf). revert Hwf Hb Hf.
  generalize boot_keys as keys. intros keys Hwf Hb Hf. split; cbn.
  - exists ∅. cbn. rewrite Zt. split; [done|]. set_solver.
  - by rewrite Zt.
  - split.
    + intros p. rewrite ready_queues_lookup. unfold MIN_PRIORITY, MAX_PRIORITY.
      destruct (bool_decide_reflect (0 <= p <= 7)); by split.
    + intros p l a. rewrite ready_queues_lookup. destruct (bool_decide _); [|done]. intros [= <-].
      rewrite lookup_empty. split; [by intros ?%elem_of_nil|done].
    + done.
    + done.
    + intros p l. rewrite ready_queues_lookup. destruct (bool_decide _); [|done]. by intros [= <-].
  - split; try done.
    + intros g l a. rewrite ready_queues_lookup. by destruct g.
    + intros g l. rewrite ready_queues_lookup. by destruct g.
    + intros key r. by rewrite km_new_map, lookup_empty.
    + intros k1 k2 r. by rewrite km_new_map, lookup_empty.
  - split; try done.
  - split; [by left|by left].
  - split; try done.
    + apply km_new_wf.
    + intros id a. rewrite km_new_map, !lookup_empty. split; [done|]. by intros (s & ? & _).
  - split; try done.
    + apply km_new_wf.
    + intros key r. by rewrite km_new_map, lookup_empty.
    + intros key. by rewrite Hf.
    + by rewrite Zr, Zlr.
    + intros r. rewrite Zlr, km_new_map. split; [set_solver|]. intros (key & ?). by rewrite lookup_empty in *.
  - done.
Qed.

(** ** The idle thread *)

Definition idle_ctsk (idle_start ex : Z) : T_CTSK :=
  Ctsk TA_ACT ex idle_start MAX_PRIORITY KTHREAD_STACK_SIZE 0 0 0.

(** [fire] up to its dispatch. *)
Lemma fire_run k a th A' (Φ : unit -> kern_t -> Prop) :
  threads k !! a = Some th ->
  ring_append (lists k) (LReady (attr_priority (attr th))) (LQueue a) = Some A' ->
  wp leave_serialize_and_dispatch
    (set_lists A' (set_ready_bits (bit_set (ready_bits k) (attr_priority (attr th)))
      (set_threads (<[a := fired th]> (threads k)) k))) Φ ->
  wp (fire a) k Φ.
Proof.
  intros Ha HA HΦ. unfold fire. do 2 wp_step. wp_step. eapply wp_upd_thread; [apply lookup_insert_eq|]. kred.
  wp_step. eapply wp_upd_thread; [apply lookup_insert_eq|]. kred.
  wp_step. unfold create_context. wp_step. eapply wp_thread; [apply lookup_insert_eq|].
  eapply wp_upd_thread; [apply lookup_insert_eq|]. kred.
  wp_step. eapply wp_upd_thread; [apply lookup_insert_eq|]. kred.
  wp_step. eapply wp_thread; [apply lookup_insert_eq|]. wp_step. unfold ready_enqueue. do 2 wp_step.
  eapply wp_enqueue; [exact HA|]. exact HΦ.
Qed.

(** The first dispatch: the idle thread [a] is the only one on a ready queue. *)
Lemma first_dispatch k a th dummy d l :
  running k = dummy -> a ≠ dummy -> threads k !! dummy = Some d -> status d = TTS_DMT ->
  threads k !! a = Some th -> is_kthread th = true -> ready_bits k = bit_set 0 MAX_PRIORITY ->
  lists k !! LReady MAX_PRIORITY = Some (LQueue a :: l) ->
  interrupt_nest (sync k) = 0 -> delay_thread_start (sync k) = false ->
  wp leave_serialize_and_dispatch k (λ _ k',
    k' = set_running a (set_threads (<[a := set_status TTS_RUN th]> (threads k))
           (set_sync (Sync 0 1 0 false) k))).
Proof.
  intros Er Hne Hd Hst Ha Hk Hb Hl Hn Hdl.
  unfold leave_serialize_and_dispatch, leave_serialize, leave_serialize_, dispatch, dispatch_fuel, dispatch_.
  destruct (sync k) as [n r s dl] eqn:Es. cbn in Hn, Hdl. subst n dl.
  do 6 wp_step. cbn [sync set_sync set_serializing set_no_request interrupt_nest no_request serializing
    delay_thread_start]. rewrite Es. cbn [set_serializing set_no_request interrupt_nest no_request serializing
    delay_thread_start]. change (dispatch_skippable (Sync 0 0 0 false) =? 0) with true. cbn iota.
  do 2 wp_step. cbn. wp_step. wp_step. wp_step. wp_step. wp_step. wp_step. wp_step.
  unfold ready_dequeue. cbn [ready_dequeue_loop]. wp_step. wp_step. cbn [ready_bits set_sync]. rewrite Hb.
  change (bit_set 0 MAX_PRIORITY =? 0) with false. cbn iota.
  change (count_ntz (bit_set 0 MAX_PRIORITY)) with MAX_PRIORITY.
  wp_step. eapply wp_head; [unfold ring_head; cbn; rewrite Hl; reflexivity|].
  cbn [head getThread]. wp_step. wp_step. wp_step. cbn [running set_sync]. rewrite Er, bool_decide_false by congruence.
  wp_step. eapply wp_thread; [done|]. rewrite Hst. cbn. wp_step. wp_step. wp_step. apply wp_some.
  wp_step. eapply wp_upd_thread; [done|]. do 2 wp_step. unfold context_switch. wp_step.
  eapply wp_thread; [apply lookup_insert_eq|]. change (is_kthread (set_status TTS_RUN th)) with (is_kthread th).
  rewrite Hk. by wp_step.
Qed.

(** What the boot leaves: the idle thread alone, running. *)
Definition booted (dummy a : Z) k' : Prop :=
  running k' = a /\ a ≠ dummy /\ threads k' !! dummy = Some (set_status TTS_DMT (cleared 0)) /\
  exists th, threads (forget dummy k') = {[a := th]} /\ node_key th = PORT_IDLE /\ status th = TTS_RUN /\
    sync k' = Sync 0 1 0 false /\ km_map (reply_tree k') = ∅ /\
    exists Q, kernel_at (forget dummy k') Q.

(** The invariant of a kernel with the idle thread alone. *)
Lemma idle_kernel k a th Q :
  core k Q {[a := sig_of th]} {[a := MAX_PRIORITY]} {[a := WNone]} ->
  threads k = {[a := th]} -> running k = a -> sync k = Sync 0 1 0 false ->
  node_key th = PORT_IDLE -> status th = TTS_RUN -> priority th = MAX_PRIORITY ->
  wstate_of (wait_reason th) = WNone -> is_kthread th = true -> kernel_at k Q.
Proof.
  intros HC Et Er Es Hk Hst Hp Hw Hkt.
  assert (Erd : rdm (threads k) = {[a := MAX_PRIORITY]}).
  { rewrite Et, <- insert_empty, rdm_insert, Hst, Hp. done. }
  assert (Ewsm : wsm (threads k) = {[a := WNone]}).
  { rewrite Et, <- insert_empty, wsm_insert, Hw. done. }
  assert (Esg : sgm (threads k) = {[a := sig_of th]}).
  { rewrite Et, <- insert_empty, sgm_insert. done. }
  assert (Ha : threads k !! a = Some th) by (by rewrite Et, lookup_singleton_eq).
  split_and!; [split| |by rewrite Es].
  - by rewrite Erd, Ewsm, Esg.
  - split; rewrite ?Es; try done.
    + rewrite Et. apply map_Forall_singleton. split; [rewrite Hst; unfold valid_status; set_solver|]. by rewrite Hst, Hw.
    + exists a, th. split_and!; [|done|by rewrite Hst|done]. rewrite <- Hk.
      apply (reg_key _ _ _ (c_reg _ _ _ _ _ HC)). exists (sig_of th). by rewrite lookup_singleton_eq.
    + intros b tb. rewrite Et. intros [<- <-]%lookup_singleton_Some. done.
    + intros tr. rewrite Er, Ha. intros [= <-]. by rewrite Hkt.
    + rewrite Er, Ha. done.
    + by right.
  - by rewrite Er, Erd, lookup_singleton_eq.
Qed.

Lemma idle_core k A a m t page idle_start ex :
  zeroed k -> qrep A ready_queues ∅ -> a ≠ 0 -> mem_ok m -> live_threads m = {[a]} ∪ live_threads (memory k) ->
  live_replies m = live_replies (memory k) -> live_pages m = {[page]} ∪ live_pages (memory k) ->
  SUPERVISOR_START <= page < 2 ^ 32 - PAGE_SIZE -> km_wf t -> km_map t = {[PORT_IDLE := a]} ->
  let th := created PORT_IDLE (idle_ctsk idle_start ex) (page + KTHREAD_STACK_SIZE) in
  let k1 := set_ready_bits 0 (set_lists A (set_thread_tree km_new (set_reply_tree km_new
    (set_reply_sequence boot_keys k)))) in
  exists A1 A2 A3 A4 A5 A6 A7 A8 A9 Q,
    ring_clear A (LQueue a) = Some A1 /\ ring_clear A1 (LWaiting a) = Some A2 /\
    ring_clear A2 (LLocking a) = Some A3 /\ ring_clear A3 (LCaller a) = Some A4 /\
    ring_clear A4 (LReceiver a) = Some A5 /\ ring_initialize A5 (LQueue a) = Some A6 /\
    ring_initialize A6 (LWaiting a) = Some A7 /\ ring_initialize A7 (LLocking a) = Some A8 /\
    ring_append A8 (LReady MAX_PRIORITY) (LQueue a) = Some A9 /\ A9 !! LReady MAX_PRIORITY = Some [LQueue a] /\
    core (set_ready_bits (bit_set 0 MAX_PRIORITY) (set_lists A9 (set_threads {[a := set_status TTS_RUN (fired th)]}
      (set_memory m (set_thread_tree t k1))))) Q {[a := sig_of (fired th)]} {[a := MAX_PRIORITY]} {[a := WNone]}.
Proof.
  intros Hz HQ Ha Hm Hlt Hlr Hlp Hpg Hwf Hmap th k1.
  pose proof (boot_core k A Hz HQ) as HC. fold k1 in HC. destruct (z_live _ Hz) as [Zlt Zlr].
  destruct (core_new_thread k1 ready_queues ∅ ∅ ∅ a (sig_of th) (fired th) m t HC)
    as (A1 & A2 & A3 & A4 & A5 & A6 & A7 & A8 & H1 & H2 & H3 & H4 & H5 & H6 & H7 & H8 & HC1); try done.
  { cbn. by rewrite Zlt. }
  { cbn. rewrite Hlp. set_solver. }
  { cbn. rewrite km_new_map. by rewrite Hmap, insert_empty. }
  { cbn. by rewrite km_new_map. }
  { change (sg_stack (sig_of th)) with (stack_page th). unfold th. rewrite created_stack, Hlp by done. set_solver. }
  set (Q1 := delete (LReceiver a) (delete (LCaller a) ready_queues)) in HC1.
  assert (Hr7 : Q1 !! LReady MAX_PRIORITY = Some []).
  { unfold Q1. by rewrite !lookup_delete_ne, ready_queues_lookup. }
  assert (HC2 := core_sig _ _ _ _ _ a (sig_of th) (sig_of (fired th)) HC1 (lookup_insert_eq _ _ _)
    eq_refl eq_refl eq_refl eq_refl eq_refl eq_refl).
  destruct (core_enready _ _ _ _ _ [] a (sig_of (fired th)) (HC2 ltac:(done) (or_introl eq_refl) ltac:(done) (λ _, or_introl eq_refl)))
    as (A9 & H9 & HC3); [done|done|apply lookup_insert_eq|].
  exists A1, A2, A3, A4, A5, A6, A7, A8, A9, (<[LReady MAX_PRIORITY := [a]]> Q1).
  do 9 (split; [done|]). split.
  - destruct (c_links _ _ _ _ _ HC3) as (I & HQ3 & _). cbn in HQ3.
    rewrite (q_lookup _ _ _ HQ3 (LReady MAX_PRIORITY) [a]); [done|]. apply lookup_insert_eq.
  - change (sg_priority (sig_of (fired th))) with MAX_PRIORITY in HC3. rewrite insert_insert_eq, !insert_empty in HC3.
    eapply core_ext; [apply (core_upd _ _ _ _ _ a (set_status TTS_RUN (fired th)) HC3)|done| |done..].
    + cbn. set_solver.
    + cbn. rewrite (z_threads _ Hz), insert_insert_eq. by rewrite insert_empty.
Qed.

(** The state after the first dispatch is booted. *)
Lemma booted_intro kc k' dummy a th Q :
  core kc Q {[a := sig_of th]} {[a := MAX_PRIORITY]} {[a := WNone]} ->
  threads kc = {[a := th]} -> threads k' = <[a := th]> {[dummy := set_status TTS_DMT (cleared 0)]} -> a ≠ dummy ->
  running k' = a -> sync k' = Sync 0 1 0 false -> km_map (reply_tree k') = ∅ ->
  node_key th = PORT_IDLE -> status th = TTS_RUN -> priority th = MAX_PRIORITY ->
  wstate_of (wait_reason th) = WNone -> is_kthread th = true ->
  lists k' = lists kc -> replies k' = replies kc -> ready_bits k' = ready_bits kc -> thread_tree k' = thread_tree kc ->
  reply_tree k' = reply_tree kc -> reply_sequence k' = reply_sequence kc -> memory k' = memory kc -> cpu k' = cpu kc ->
  booted dummy a k'.
Proof.
  intros HC Etc Et Hne Er Es Ert Hk Hst Hp Hw Hkt E1 E2 E3 E4 E5 E6 E7 E8.
  assert (Ef : threads (forget dummy k') = {[a := th]}).
  { cbn. rewrite Et, delete_insert_ne, delete_singleton_eq, insert_empty by done. done. }
  split; [done|]. split; [done|]. split; [by rewrite Et, lookup_insert_ne, lookup_singleton_eq|].
  exists th. split; [exact Ef|]. do 4 (split; [done|]). exists Q.
  eapply (idle_kernel _ a th); [|exact Ef|done..].
  eapply core_ext; [exact HC|exact E1|by rewrite Ef|done..].
Qed.

(** Leaving a critical section before the first dispatch. *)
Lemma boot_leave (r : Z) k Φ :
  sync k = Sync 0 1 1 false -> Φ r (set_sync (Sync 0 1 0 false) k) -> wp (leave_serialize;; mret r) k Φ.
Proof.
  intros Es HΦ. wp_step. unfold leave_serialize. apply leave_skip; [by rewrite Es|by rewrite Es|].
  wp_step. rewrite Es. exact HΦ.
Qed.

Lemma create_idle_spec k A dummy idle_start ex :
  zeroed k -> sync k = Sync 0 1 0 false -> qrep A ready_queues ∅ ->
  (forall a m, thread_alloc (memory k) = Some (Some a, m) -> a ≠ dummy) ->
  wp (create_idle_thread dummy idle_start ex)
    (set_ready_bits 0 (set_lists A (set_thread_tree km_new (set_reply_tree km_new (set_reply_sequence boot_keys k)))))
    (λ r k', r = E_NOMEM \/ r = E_OK /\ exists a, booted dummy a k').
Proof.
  intros Hz Es HQ Hdum. destruct (z_live _ Hz) as [Zlt Zlr].
  set (k1 := set_ready_bits 0 (set_lists A (set_thread_tree km_new (set_reply_tree km_new
    (set_reply_sequence boot_keys k))))).
  set (d := set_status TTS_DMT (cleared 0)).
  unfold create_idle_thread. wp_step. wp_step. fold d.
  set (k2 := set_running dummy (set_threads (<[dummy := d]> (threads k1)) k1)).
  unfold thread_create.
  change ((PORT_IDLE <? MIN_MANUAL_ID) || (MAX_AUTO_ID <? PORT_IDLE)) with false.
  fold (idle_ctsk idle_start ex). cbn [idle_ctsk tskatr stksz stk].
  change (negb (Z.land TA_ACT TA_ASM =? 0)) with false. change (negb (KTHREAD_STACK_SIZE =? KTHREAD_STACK_SIZE)) with false.
  cbn iota. wp_enter.
  destruct (thread_alloc_law (memory k) (z_mem _ Hz)) as (o & m1 & Em1 & Hm1 & Hlr1 & Hlp1 & Ho).
  assert (Esy : sync (serialized k2) = Sync 0 1 1 false) by (cbn; by rewrite Es).
  wp_step. exists o, (set_memory m1 (serialized k2)). split; [unfold slab_alloc_thread; cbn; by rewrite Em1|].
  destruct o as [a|]; [|by apply boot_leave; [|left]].
  destruct Ho as (Ha & Ha0 & Hlt1). pose proof (Hdum a m1 Em1) as Hne.
  assert (Hmn : km_map (km_new (T := pf_tree) (V := Z)) !! PORT_IDLE = None) by (by rewrite km_new_map).
  destruct (km_put_fresh km_new PORT_IDLE a km_new_wf Hmn) as (t1 & Et1 & Hwf1 & Hmap1).
  rewrite km_new_map, insert_empty in Hmap1.
  wp_step. exists true, (set_thread_tree t1 (set_memory m1 (serialized k2))).
  split; [unfold thread_tree_put; cbn; by rewrite Et1|]. cbn [negb].
  wp_step. unfold new_thread. wp_step. cbn [threads set_thread_tree set_memory serialized set_sync].
  assert (Et2 : threads k2 = {[dummy := d]}) by (cbn; by rewrite (z_threads _ Hz), insert_empty).
  rewrite Et2, lookup_singleton_ne by done. cbn [default].
  set (th0 := set_node_key PORT_IDLE (cleared 0)).
  wp_step. unfold setup. cbn [idle_ctsk stk stksz]. change (negb (0 =? 0)) with false. cbn iota. wp_step. wp_step.
  destruct (page_alloc_law m1 Hm1) as (p & m2 & Em2 & Hm2 & Hlt2 & Hlr2 & Hpg).
  exists p, (set_threads (<[a := th0]> {[dummy := d]}) (set_thread_tree t1 (set_memory m2 (serialized k2)))).
  split; [unfold palloc_page; cbn; by rewrite Em2|]. wp_step.
  destruct (Z.eqb_spec p 0) as [Hp0|Hp0].
  - wp_step. change (negb (E_NOMEM =? 0)) with true. cbn iota. wp_step.
    eapply wp_thread; [apply lookup_insert_eq|]. wp_step.
    destruct (km_remove_law t1 PORT_IDLE Hwf1) as (t2 & Et2' & _ & _).
    eexists (Some a), _. split; [unfold thread_tree_remove; cbn; rewrite Et2', Hmap1, lookup_singleton_eq; reflexivity|].
    destruct (thread_free_law m2 a Hm2) as (m3 & Em3 & _); [rewrite Hlt2, Hlt1; set_solver|].
    wp_step. eexists tt, _. split; [unfold slab_free_thread; cbn; rewrite Em3; reflexivity|].
    by apply boot_leave; [|left].
  - destruct Hpg as [[-> _]|(Hpn & Hpr & Hlp2)]; [done|].
    assert (u32 (p + KTHREAD_STACK_SIZE) = p + KTHREAD_STACK_SIZE) as ->.
    { unfold u32. apply Z.mod_small. unfold SUPERVISOR_START, PAGE_SIZE, KTHREAD_STACK_SIZE in *. lia. }
    destruct (idle_core k A a m2 t1 p idle_start ex Hz HQ) as (A1 & A2 & A3 & A4 & A5 & A6 & A7 & A8 & A9 & Q &
      H1 & H2 & H3 & H4 & H5 & H6 & H7 & H8 & H9 & H10 & HC); try done; [congruence..|].
    eapply wp_mono; [eapply (setup_run _ a (idle_ctsk idle_start ex)); [apply lookup_insert_eq|done..]|].
    intros r k' [-> ->]. cbn [negb Z.eqb E_OK]. kred.
    change (negb (Z.land TA_ACT TA_ACT =? 0)) with true. cbn iota. wp_step.
    set (th := created PORT_IDLE (idle_ctsk idle_start ex) (p + KTHREAD_STACK_SIZE)) in *.
    eapply (fire_run _ a th A9); [apply lookup_insert_eq|exact H9|]. kred.
    eapply wp_mono; [eapply (first_dispatch _ a (fired th) dummy d []); try done|].
    + cbn. by rewrite lookup_insert_ne, lookup_singleton_eq.
    + apply lookup_insert_eq.
    + change (interrupt_nest (sync k) = 0). by rewrite Es.
    + change (delay_thread_start (sync k) = false). by rewrite Es.
    + intros [] k' ->. wp_step. right. split; [done|]. exists a.
      eapply (booted_intro _ _ dummy a (set_status TTS_RUN (fired th)) Q); [exact HC|reflexivity|apply insert_insert_eq|exact Hne|reflexivity|reflexivity| |reflexivity..].
      apply km_new_map.
Qed.

Lemma start_spec k dummy idle_start callback :
  loaded k ->
  (forall m1 m2 a m3, reply_slab_create (memory k) = Some m1 -> thread_slab_create m1 = Some m2 ->
     thread_alloc m2 = Some (Some a, m3) -> a ≠ dummy) ->
  wp (start dummy idle_start callback) k (λ r k', r = E_NOMEM \/ r = E_OK /\ exists a, booted dummy a k').
Proof.
  intros Hk Hdum. destruct (slab_create_law _ (ld_mem _ Hk)) as (m1 & m2 & Em1 & Em2 & Hm2 & Hl).
  unfold start. wp_step. wp_step. wp_step.
  exists E_OK, (set_reply_tree km_new (set_memory m1 (set_reply_sequence boot_keys (set_sync (Sync 0 1 0 false) k)))).
  split; [by apply ipc_initialize_run|]. wp_step. unfold thread_initialize, ready_initialize. wp_step.
  eexists tt, _. split; [unfold create_thread_tree; cbn; by rewrite Em2|].
  do 2 wp_step. eapply wp_mono.
  { apply (ready_initialize_loop_spec _ MIN_PRIORITY _ ∅); [|done]. cbn. rewrite (ld_lists _ Hk). apply qrep_empty. }
  intros [] k1 [HQ E1]. do 2 wp_step.
  change (empty_queues _ _ ∅) with ready_queues in HQ.
  rewrite E1. apply (create_idle_spec (set_memory m2 (set_sync (Sync 0 1 0 false) k)) (lists k1)); try done.
  - by destruct Hk.
  - intros a m. by apply (Hdum m1 m2).
Qed.

End Boot.
