(* ===== verification/KPlatform.v ===== *)
(** * The platform of the kernel

    The interfaces the kernel is written against, filled with the components
    of this development: AA trees for its registers of threads and
    rendezvous, slabs over the page allocator for its objects, the walks of
    the page tables for the copies of messages, and the lock-free queue for
    delayed calls. *)

From S2P Require Import Prelude Lists LfQueue AATree Bitmap Palloc KTypes VMem KState KQueues KInv Slab KMemory.

(** ** Copies of messages *)

(** The memory that messages are in is that of the machine, and the copies are
    those of drivers/i686. *)
#[export] Instance machine_copies : MsgCopy Palloc.memory := {
  memcpy_k2u := VMem.memcpy_k2u;
  memcpy_u2k := VMem.memcpy_u2k;
  strncpy_u2k := VMem.strncpy_u2k;
  scattered_copy_u2k := VMem.scattered_copy_u2k;
}.

(** ** Delayed calls *)

(** A lock-free queue that [lfq_initialize] has set up: the interrupt server
    does so before it installs [icall->handle]. *)
Record kqueue_t := KQueue {
  kq_lfq : lfq_t delay_param_t;
  kq_wf : exists vs n, lfq_ok kq_lfq vs n;
}.

Lemma kq_put_total q p : lfq_enqueue p (kq_lfq q) ≠ None.
Proof.
  destruct q as [q (vs & n & Hok)]. cbn [kq_lfq]. pose proof (lfq_enqueue_spec q vs n p Hok) as H.
  destruct n; destruct H as (q' & -> & _); done.
Qed.

Lemma kq_put_wf q p r : lfq_enqueue p (kq_lfq q) = Some r -> exists vs n, lfq_ok r.2 vs n.
Proof.
  destruct q as [q (vs & n & Hok)]. cbn [kq_lfq]. pose proof (lfq_enqueue_spec q vs n p Hok) as H.
  destruct n; destruct H as (q' & -> & Hok'); intros [= <-]; eauto.
Qed.

Lemma kq_take_total q : lfq_dequeue (kq_lfq q) ≠ None.
Proof.
  destruct q as [q (vs & n & Hok)]. cbn [kq_lfq]. pose proof (lfq_dequeue_spec q vs n Hok) as H.
  destruct vs; destruct H as (q' & -> & _); done.
Qed.

Lemma kq_take_wf q r : lfq_dequeue (kq_lfq q) = Some r -> exists vs n, lfq_ok r.2 vs n.
Proof.
  destruct q as [q (vs & n & Hok)]. cbn [kq_lfq]. pose proof (lfq_dequeue_spec q vs n Hok) as H.
  destruct vs; destruct H as (q' & -> & Hok'); intros [= <-]; eauto.
Qed.

#[export] Instance lfq_delay : DelayQueue kqueue_t := {
  kq_put q p :=
    match lfq_enqueue p (kq_lfq q) as o return lfq_enqueue p (kq_lfq q) = o -> bool * kqueue_t with
    | Some r => λ E, (r.1 =? QUEUE_OK, KQueue r.2 (kq_put_wf q p r E))
    | None => λ E, False_rect _ (kq_put_total q p E)
    end eq_refl;
  kq_take q :=
    match lfq_dequeue (kq_lfq q) as o return lfq_dequeue (kq_lfq q) = o -> option delay_param_t * kqueue_t with
    | Some r => λ E, (if r.1.1 =? QUEUE_OK then r.1.2 else None, KQueue r.2 (kq_take_wf q r E))
    | None => λ E, False_rect _ (kq_take_total q E)
    end eq_refl;
}.

(** The operations of lib/libset/lf_queue.c behind the interface. *)
Lemma kq_put_lfq q p r q' :
  lfq_enqueue p (kq_lfq q) = Some (r, q') -> exists w, kq_put q p = (r =? QUEUE_OK, KQueue q' w).
Proof.
  intros E. cbn [kq_put lfq_delay]. generalize (kq_put_total q p) (kq_put_wf q p).
  destruct (lfq_enqueue p (kq_lfq q)); [|done]. injection E as ->. eauto.
Qed.

Lemma kq_take_lfq q r v q' :
  lfq_dequeue (kq_lfq q) = Some (r, v, q') -> exists w, kq_take q = (if r =? QUEUE_OK then v else None, KQueue q' w).
Proof.
  intros E. cbn [kq_take lfq_delay]. generalize (kq_take_total q) (kq_take_wf q).
  destruct (lfq_dequeue (kq_lfq q)); [|done]. injection E as ->. eauto.
Qed.

Lemma kq_put_ok q vs n d :
  lfq_ok (kq_lfq q) vs (S n) -> exists q', kq_put q d = (true, q') /\ lfq_ok (kq_lfq q') (vs ++ [d]) n.
Proof.
  intros Hok. pose proof (lfq_enqueue_spec (kq_lfq q) vs (S n) d Hok) as (q' & E & Hok').
  destruct (kq_put_lfq _ _ _ _ E) as [w Ew]. eauto.
Qed.

Lemma kq_take_ok q vs n :
  lfq_ok (kq_lfq q) vs n ->
  match vs with
  | [] => exists q', kq_take q = (None, q') /\ lfq_ok (kq_lfq q') [] n
  | d :: vs => exists q', kq_take q = (Some d, q') /\ lfq_ok (kq_lfq q') vs (S n)
  end.
Proof.
  intros Hok. pose proof (lfq_dequeue_spec (kq_lfq q) vs n Hok) as H.
  destruct vs as [|v vs]; destruct H as (q' & E & Hok'); destruct (kq_take_lfq _ _ _ _ E) as [w Ew]; eauto.
Qed.

#[export] Instance lfq_delay_laws : DelayQueueLaws kqueue_t := {
  kq_holds q := lfq_ok (kq_lfq q);
  kq_put_law := kq_put_ok;
  kq_take_law := kq_take_ok;
}.

(** ** The platform *)

(** [thread_end] is at the address [te]. *)
Definition eotan (te : Z) : Platform := {|
  pf_tree := tree_t;
  pf_memory := kmem;
  pf_umem := Palloc.memory;
  pf_kqueue := kqueue_t;
  pf_thread_end := te;
|}.

#[export] Instance eotan_keymap te : @KeyMapLaws (@pf_tree (eotan te)) (@pf_keymap (eotan te)) := aatree_keymap_laws.
#[export] Instance eotan_memory te : @KernelMemoryLaws (@pf_memory (eotan te)) (@pf_kmem (eotan te)) := kernel_memory_laws.
#[export] Instance eotan_delay te : @DelayQueueLaws (@pf_kqueue (eotan te)) (@pf_delay (eotan te)) := lfq_delay_laws.
