(* ===== verification/KRuns.v ===== *)
(** * Runs of the kernel

    Sequences of operations, the states they reach, and how the kernel on the
    pointers of the code follows the kernel on rings through them. *)

From S2P Require Import Prelude Lists LfQueue AATree Bitmap Sequence Palloc KTypes VMem KState KSched KThread KIpc.
From S2P Require Import KRefine Queues KQueues KInv Slab KMemory KSteps KObjects KHoare KSchedOk KThreadOk KIpcOk.
From S2P Require Import KSystem KBoot KPlatform.

(** ** Runs *)

Section Runs.
Context {P : Platform} {H : Type} `{!ListOps loc H}.

Fixpoint sys_run (acts : list action) (s : sys H) : option (list outcome * sys H) :=
  match acts with
  | [] => Some ([], s)
  | act :: acts => '(o, s) ← sys_exec act s; '(os, s) ← sys_run acts s; Some (o :: os, s)
  end.

End Runs.

Section Reach.
Context {P : Platform} `{!KeyMapLaws pf_tree} `{!KernelMemoryLaws pf_memory}.

(** The states that acceptable operations lead to. *)
Inductive reach (s0 : sys rings) : sys rings -> Prop :=
  | reach_here : reach s0 s0
  | reach_step s act o s' : reach s0 s -> acceptable s act -> sys_exec act s = Some (o, s') -> reach s0 s'.

(** Every operation of the sequence is acceptable when its turn comes. *)
Fixpoint accept_run (acts : list action) (s : sys rings) : Prop :=
  match acts with
  | [] => True
  | act :: acts => acceptable s act /\ forall o s', sys_exec act s = Some (o, s') -> accept_run acts s'
  end.

Lemma reach_ok s0 s : sys_ok s0 -> reach s0 s -> sys_ok s.
Proof.
  intros H0. induction 1 as [|s act o s' _ IH Hacc E]; [done|].
  destruct (sys_step s act IH Hacc) as (o' & s'' & E' & Hok). rewrite E in E'. by simplify_eq.
Qed.

Lemma accept_run_total acts : forall s, sys_ok s -> accept_run acts s -> exists os s', sys_run acts s = Some (os, s') /\ sys_ok s'.
Proof.
  induction acts as [|act acts IH]; intros s Hok Hacc; [by exists [], s|]. destruct Hacc as [Ha Hr].
  destruct (sys_step s act Hok Ha) as (o & s1 & E & Hok1). destruct (IH s1 Hok1 (Hr o s1 E)) as (os & s2 & E2 & Hok2).
  exists (o :: os), s2. cbn [sys_run]. rewrite E. cbn [mbind option_bind]. by rewrite E2.
Qed.

(** The boot leaves a system in order. *)
Lemma booted_sys dummy a k : booted dummy a k -> sys_ok (Sys (forget dummy k) ∅).
Proof.
  intros (_ & _ & _ & th & Et & _ & Hst & _ & Er & Q & HK). exists Q. split; [done|]. cbn [kern pend].
  assert (Hcl : forall b, claim (threads (forget dummy k) !! b) ((∅ : gmap Z cont) !! b) = None).
  { intros b. rewrite lookup_empty. unfold claim. by destruct (_ !! b). }
  split; intros *; rewrite ?Hcl; try done. rewrite lookup_empty, Et. destruct (decide (a0 = a)) as [->|Hne].
  - rewrite lookup_singleton_eq. cbn. destruct HK as ([_ HC] & _). pose proof (crit_threads _ HC a th) as [_ Hw].
    { rewrite Et. apply lookup_singleton_eq. }
    rewrite Hst in Hw. destruct (wstate_of (wait_reason th)); [done|..]; discriminate (proj2 Hw ltac:(done)).
  - by rewrite lookup_singleton_ne.
Qed.

End Reach.

(** ** The kernel on pointers *)

Section Pointers.
Context {P : Platform} {C A : Type} `{!ListOps loc C, !ListOps loc A} (R : C -> A -> Prop) `{!ListRefines R}.

Definition srel (sc : sys C) (sa : sys A) : Prop := krel R (kern sc) (kern sa) /\ pend sc = pend sa.

Lemma sim_perform act c : sim R (perform act c) (perform act c).
Proof.
  destruct act; cbn [perform]; unfold code, region_get, region_put, region_copy, skip_copy.
  all: try (apply sim_bind; [|intros; apply sim_ipc_ret]).
  - apply (sim_ipc_notify R).
  - apply (sim_ipc_open R).
  - apply (sim_ipc_close R).
  - apply (sim_ipc_call R).
  - apply (sim_ipc_receive R).
  - apply (sim_ipc_send R).
  - apply (sim_ipc_listen R).
  - apply sim_bind; [apply sim_some|intros; apply (sim_ipc_resume R)].
  - apply (sim_thread_create R).
  - apply (sim_thread_destroy R).
  - apply (sim_thread_start R).
  - apply (sim_thread_end R).
  - apply (sim_thread_end_and_destroy R).
  - apply (sim_thread_terminate R).
  - apply (sim_thread_suspend R).
  - apply (sim_thread_resume R).
  - apply (sim_delay_turn R).
  - apply (sim_interrupt R), (sim_tick R).
  - apply (sim_kcall_page_alloc R).
  - apply (sim_kcall_page_free R).
  - apply (sim_region R).
  - apply (sim_region R).
  - apply (sim_region R).
  - apply (sim_region R).
Qed.

Lemma krel_same kc ka : krel R kc ka -> running kc = running ka /\ thread_tree kc = thread_tree ka.
Proof. intros [_ ->]. done. Qed.

Lemma sim_exec act sc sa o sa' :
  srel sc sa -> sys_exec act sa = Some (o, sa') -> exists sc', sys_exec act sc = Some (o, sc') /\ srel sc' sa'.
Proof.
  intros [Hk Hp]. unfold sys_exec. destruct (krel_same _ _ Hk) as [Er Et]. rewrite Hp, Er.
  destruct (perform act (pend sa !! running (kern sa)) (kern sa)) as [[o' ka']|] eqn:E; [|done]. cbn [mbind option_bind]. intros [= <- <-].
  destruct (sim_perform act _ _ _ _ _ Hk E) as (kc' & -> & Hk'). cbn [mbind option_bind]. eexists. split; [done|].
  split; [done|]. cbn [pend]. unfold pend_after. by rewrite Hp, Er, Et.
Qed.

Lemma sim_run acts : forall sc sa os sa',
  srel sc sa -> sys_run acts sa = Some (os, sa') -> exists sc', sys_run acts sc = Some (os, sc') /\ srel sc' sa'.
Proof.
  induction acts as [|act acts IH]; intros sc sa os sa' Hr; cbn [sys_run].
  { intros [= <- <-]. by exists sc. }
  destruct (sys_exec act sa) as [[o s1]|] eqn:E; [|done]. cbn [mbind option_bind].
  destruct (sys_run acts s1) as [[os1 s2]|] eqn:E2; [|done]. cbn [mbind option_bind]. intros [= <- <-].
  destruct (sim_exec _ _ _ _ _ Hr E) as (sc1 & -> & Hr1). cbn [mbind option_bind].
  destruct (IH _ _ _ _ Hr1 E2) as (sc2 & -> & Hr2). cbn [mbind option_bind]. by exists sc2.
Qed.

End Pointers.
