(* ===== verification/KSlices.v ===== *)
(** * Time slices

    How the end of a time slice reaches the ready queue: the interrupt of the
    timer requests a rotation from the thread for delayed calls and
    dispatches it; that thread rotates the queue of the thread that ran, finds
    nothing more to do, listens again, and the dispatch gives the processor to
    the next thread.  The sequences below are runs of the system. *)

From S2P Require Import Prelude Lists AATree Bitmap Sequence Palloc KTypes KState KSched KThread.
From S2P Require Import KIpc KRefine Queues KQueues KInv Slab KMemory KSteps KObjects KHoare KSchedOk KThreadOk KIpcOk.
From S2P Require Import KSystem KBoot KPlatform KRuns.

Section Slices.
Context {P : Platform} `{!KeyMapLaws pf_tree} `{!KernelMemoryLaws pf_memory} `{!DelayQueueLaws pf_kqueue}.
Implicit Types k : kernel rings.
Implicit Types Q : queues.
Implicit Types s : sys rings.

(** ** Runs *)

Lemma exec_wp act s Φ :
  wp (perform act (pend s !! running (kern s))) (kern s) Φ ->
  exists o k', sys_exec act s = Some (o, Sys k' (pend_after s act o)) /\ Φ o k'.
Proof. intros (o & k' & E & HΦ). exists o, k'. unfold sys_exec. by rewrite E. Qed.

Lemma run_cons act acts s o s1 os s2 :
  sys_exec act s = Some (o, s1) -> sys_run acts s1 = Some (os, s2) -> sys_run (act :: acts) s = Some (o :: os, s2).
Proof. intros E1 E2. cbn [sys_run]. rewrite E1. cbn [mbind option_bind]. by rewrite E2. Qed.

Lemma run_app acts acts' s os s1 os' s2 :
  sys_run acts s = Some (os, s1) -> sys_run acts' s1 = Some (os', s2) ->
  sys_run (acts ++ acts') s = Some (os ++ os', s2).
Proof.
  revert s os. induction acts as [|act acts IH]; intros s os; cbn [sys_run app]; [by intros [= <- <-]|].
  destruct (sys_exec act s) as [[o s']|]; [|done]. cbn [mbind option_bind].
  destruct (sys_run acts s') as [[os1 s1']|] eqn:E; [|done]. cbn [mbind option_bind]. intros [= <- <-] E2.
  by rewrite (IH _ _ E E2).
Qed.

(** ** The thread for delayed calls *)

(** It listens, has the best priority, and nothing is queued for it. *)
Record resting s (d : Z) : Prop := {
  rs_tree : km_map (thread_tree (kern s)) !! PORT_DELAY = Some d;
  rs_thread : exists th, threads (kern s) !! d = Some th /\ status th = TTS_WAI /\
    wtype (wait_reason th) = wait_flag /\ priority th = MIN_PRIORITY;
  rs_pend : pend s !! d = Some KListen;
  rs_queue : exists n, kq_holds (kqueue (kern s)) [] (S n);
  rs_sync : sync (kern s) = Sync 0 1 0 false;
}.

Lemma flag_unhooked k Q d th :
  kcrit k Q -> threads k !! d = Some th -> wtype (wait_reason th) = wait_flag -> unhook d Q = Q.
Proof.
  intros [HC _] Hd Hw. apply map_eq. intros g. rewrite unhook_lookup. destruct (Q !! g) as [l|] eqn:Hl; [|done].
  cbn. destruct (wait_guard g) eqn:Hg; [|done]. rewrite filter_ne_id; [done|]. intros Hin.
  destruct (w_mem _ _ _ _ (c_w _ _ _ _ _ HC) _ _ d Hl Hin Hg) as (t & Ht & Hf).
  rewrite (wsm_lookup _ _ _ Hd) in Ht. injection Ht as <-. unfold wstate_of in Hf. by rewrite Hw in Hf.
Qed.

Lemma highest_same Q p a l p' a' l' :
  highest Q p a l -> highest Q p' a' l' -> MIN_PRIORITY <= p -> MIN_PRIORITY <= p' -> p' = p /\ a' = a.
Proof.
  intros [H1 L1] [H2 L2] Hp Hp'. destruct (Z.lt_trichotomy p p') as [Hlt|[<-|Hlt]].
  - by rewrite (L2 p (conj Hp Hlt)) in H1.
  - rewrite H1 in H2. by injection H2 as <- <-.
  - by rewrite (L1 p' (conj Hp' Hlt)) in H2.
Qed.

Lemma highest_min k Q p a l : kcrit k Q -> highest Q p a l -> MIN_PRIORITY <= p.
Proof. intros [HC _] [Hq _]. apply (rq_dom _ _ _ (c_rq _ _ _ _ _ HC)). by eexists. Qed.

Lemma scheduled_runs k Q p a l : kcrit k Q -> scheduled k Q -> highest Q p a l -> running k = a.
Proof.
  intros HK (p' & l' & Hh') Hh. destruct (highest_same _ _ _ _ _ _ _ Hh Hh'); [by eapply highest_min..|done].
Qed.

(** Threads in the part of them that rotations depend on. *)
Definition timing (th th' : thread_t) : Prop := is_kthread th' = is_kthread th /\ quantum th' = quantum th.

Lemma timing_switched th th' : switched th th' -> timing th th'.
Proof. by intros (st & v & -> & _). Qed.

(** [s'] has the threads of [s], [d] and [a] apart, with their time slices. *)
Definition others s s' (d a : Z) : Prop :=
  forall c th, c ≠ d -> c ≠ a -> threads (kern s) !! c = Some th ->
    exists th', threads (kern s') !! c = Some th' /\ timing th th'.

(** ** Ticks *)

Lemma tick_step s Q th :
  kernel_at (kern s) Q -> sync (kern s) = Sync 0 1 0 false -> threads (kern s) !! running (kern s) = Some th ->
  is_kthread th = false -> 1 < quantum th < 2 ^ 32 ->
  sys_exec ATick s = Some (Return E_OK None,
    Sys (set_threads (<[running (kern s) := set_quantum (quantum th - 1) th]> (threads (kern s))) (kern s)) (pend s)).
Proof.
  intros HK Hs Ha Hk Hq. destruct (exec_wp ATick s (λ o k', o = Return E_OK None /\ k' = ticked (kern s))) as (o & k' & E & -> & ->).
  - cbn [perform]. wp_step. eapply wp_mono; [by apply interrupt_tick_spec|]. intros [] k' (Q' & _ & Hr). unfold ret. wp_step.
    assert (sync (ticked (kern s)) = Sync 0 1 0 false) as Es.
    { unfold ticked. rewrite Ha, Hk. cbn zeta. rewrite u32_small by (unfold is_u32; lia).
      rewrite (proj2 (Z.eqb_neq _ _)) by lia. done. }
    rewrite Es in Hr. by destruct Hr as [-> _].
  - rewrite E. unfold ticked. rewrite Ha, Hk. cbn zeta. rewrite u32_small by (unfold is_u32; lia).
    by rewrite (proj2 (Z.eqb_neq _ _)) by lia.
Qed.

(** The thread for delayed calls has been woken to rotate the queue [pri] from
    [a]. *)
Record awake s Q (d pri a : Z) : Prop := {
  aw_at : kernel_at (kern s) (<[LReady MIN_PRIORITY := [d]]> Q);
  aw_run : running (kern s) = d;
  aw_tree : km_map (thread_tree (kern s)) !! PORT_DELAY = Some d;
  aw_thread : exists th, threads (kern s) !! d = Some th /\ flag (port th) = 0 /\ priority th = MIN_PRIORITY;
  aw_queue : exists n, kq_holds (kqueue (kern s)) [DelayParam H_ready_rotate pri a] n;
  aw_sync : sync (kern s) = Sync 0 1 0 false;
}.

Lemma last_tick s Q d pri a l th :
  kernel_at (kern s) Q -> resting s d -> running (kern s) = a -> highest Q pri a l -> MIN_PRIORITY < pri ->
  threads (kern s) !! a = Some th -> is_kthread th = false -> quantum th = 1 ->
  exists o s', sys_exec ATick s = Some (o, s') /\ awake s' Q d pri a /\ pend s' = pend s /\ others s s' d a /\
    exists th', threads (kern s') !! a = Some th' /\ is_kthread th' = false /\ quantum th' = TIME_QUANTUM.
Proof.
  intros HK [Htree (dt & Hd & Hst & Hwt & Hpr) Hpd [n Hkq] Hsy] Hrun Hh Hpri Ha Hk Hq.
  destruct (highest_ready _ _ _ _ _ (proj1 HK) Hh) as (th' & Ha' & Hra & Hpa). assert (th' = th) as -> by congruence.
  assert (Hda : d ≠ a) by (intros ->; assert (th = dt) as -> by congruence; by rewrite Hst in Hra).
  destruct (kq_put_law _ _ _ (DelayParam H_ready_rotate pri a) Hkq) as (kq & Ekq & Hkq'). cbn [app] in Hkq'.
  set (k1 := set_threads (<[a := set_quantum TIME_QUANTUM th]> (threads (kern s))) (kern s)).
  assert (Et : ticked (kern s) = set_kqueue kq (set_sync (Sync 0 0 0 true) k1)).
  { unfold ticked. rewrite Hrun, Ha, Hk, Hq. cbn zeta. change (u32 (1 - 1) =? 0) with true. cbn iota.
    by rewrite Hpa, Ekq, Hsy. }
  destruct (exec_wp ATick s (λ o k', exists Q', o = Return E_OK None /\ kernel_at k' Q' /\ scheduled k' Q' /\
    dispatched (ticked (kern s)) Q k' Q' /\ sync k' = Sync 0 1 0 false)) as (o & k' & E & Q' & -> & HK' & Hsch & HD & Hs').
  { cbn [perform]. wp_step. eapply wp_mono; [by apply interrupt_tick_spec|]. intros [] k' (Q' & HK' & Hr). unfold ret. wp_step.
    exists Q'. rewrite Et in Hr |- *. split; [done|]. by split. }
  rewrite Et in HD. destruct HD as (k2 & (sy & r & Hn) & [HSe HSt]). unfold notify_rel in Hn. cbn in Hn.
  rewrite Htree in Hn. destruct Hn as (dt' & Hd' & Hn). rewrite lookup_insert_ne in Hd' by done.
  assert (dt' = dt) as -> by congruence. rewrite Hst in Hn. cbn in Hn. destruct Hn as (_ & Hq2 & Ht2 & ->).
  assert (Hfw : flag_waiter dt = true) by (unfold flag_waiter, flag_reason; by rewrite Hst, Hwt).
  unfold notified_queues, notified in *. rewrite Hfw in *.
  assert (HQ : woken_queues d dt (unhook d Q) = <[LReady MIN_PRIORITY := [d]]> Q).
  { rewrite (flag_unhooked _ _ _ _ (proj1 HK) Hd Hwt). unfold woken_queues. rewrite Hst, Hpr. cbn.
    by rewrite (proj2 Hh MIN_PRIORITY) by (unfold MIN_PRIORITY in *; lia). }
  rewrite HQ in *. eexists _, _. split; [exact E|]. split; [|split; [done|split]].
  - split; cbn [kern].
    + done.
    + eapply (scheduled_runs _ _ MIN_PRIORITY d []); [apply HK'|done|]. split; [apply lookup_insert_eq|].
      unfold MIN_PRIORITY. lia.
    + replace (thread_tree k') with (thread_tree (kern s)); [done|]. rewrite HSe, Hq2. done.
    + pose proof (HSt d) as Hsd. rewrite Ht2, lookup_insert_eq in Hsd.
      destruct (threads k' !! d) as [td|]; [|done]. destruct Hsd as (st & v & -> & _). eexists. split; [done|]. done.
    + exists n. replace (kqueue k') with kq; [done|]. rewrite HSe, Hq2. done.
    + done.
  - intros c tc Hcd Hca Hc. pose proof (HSt c) as Hsc. rewrite Ht2, !lookup_insert_ne, Hc in Hsc by done. cbn [kern].
    destruct (threads k' !! c) as [tc'|]; [|done]. exists tc'. split; [done|]. by apply timing_switched.
  - pose proof (HSt a) as Hsa. rewrite Ht2, lookup_insert_ne, lookup_insert_eq in Hsa by done. cbn [kern].
    destruct (threads k' !! a) as [ta|]; [|done]. exists ta. split; [done|].
    by apply timing_switched in Hsa as [-> ->].
Qed.

(** ** The turn of the thread for delayed calls *)

(** It returns from [ipc_listen]. *)
Lemma wakes s Q d pri a :
  awake s Q d pri a -> pend s !! d = Some KListen ->
  exists o, sys_exec AResume s = Some (o, Sys (kern s) (delete d (pend s))).
Proof.
  intros [_ Hrun _ (th & Hd & _) _ _] Hp.
  destruct (exec_wp AResume s (λ o k', k' = kern s /\ exists v, o = Return v None)) as (o & k' & E & -> & v & ->).
  - rewrite Hrun, Hp. cbn [perform]. wp_step. apply wp_some. unfold ipc_resume, ret. do 3 wp_step.
    eapply wp_thread; [by rewrite Hrun|]. wp_step. eauto.
  - eexists. rewrite E. cbn [pend_after]. by rewrite Hrun.
Qed.

Lemma rotated_head a b l : rotated a (a :: b :: l) = b :: l ++ [a].
Proof. unfold rotated. by rewrite decide_True. Qed.

(** It rotates the queue. *)
Lemma rotates s Q d pri a b l :
  awake s Q d pri a -> Q !! LReady pri = Some (a :: b :: l) -> MIN_PRIORITY < pri ->
  exists s', sys_exec ADelay s = Some (Return E_OK None, s') /\ pend s' = pend s /\
    threads (kern s') = threads (kern s) /\ running (kern s') = d /\ thread_tree (kern s') = thread_tree (kern s) /\
    sync (kern s') = Sync 0 1 0 false /\ (exists n, kq_holds (kqueue (kern s')) [] (S n)) /\
    kernel_at (kern s') (<[LReady pri := b :: l ++ [a]]> (<[LReady MIN_PRIORITY := [d]]> Q)).
Proof.
  intros [HK Hrun Htree Hth [n Hkq] Hsy] Hl Hpri. destruct (kq_take_law _ _ _ Hkq) as (q & Eq & Hq).
  destruct (exec_wp ADelay s (λ o k', o = Return E_OK None /\
    k' = set_lists (lists k') (set_kqueue q (kern s)) /\
    kernel_at k' (<[LReady pri := b :: l ++ [a]]> (<[LReady MIN_PRIORITY := [d]]> Q)))) as (o & k' & E & -> & Ek & HK').
  - cbn [perform]. unfold delay_turn. do 2 wp_step. eexists _, _. split; [by rewrite Eq|]. cbn [dp_arg1 dp_arg2 dp_arg3].
    assert (HKq : kernel_at (set_kqueue q (kern s)) (<[LReady MIN_PRIORITY := [d]]> Q)).
    { destruct HK as ([HC HR] & ? & ?). split_and!; [split; [by eapply core_ext|by eapply crit_ext]|done..]. }
    wp_step. eapply (ready_rotate_to _ _ pri a (a :: b :: l) _ HKq).
    { rewrite lookup_insert_ne; [done|]. intros [=]. lia. }
    intros k1 HK1 E1. rewrite rotated_head in HK1. apply leave_skip; [by rewrite E1; cbn; rewrite Hsy..|].
    wp_step. unfold ret. wp_step. split; [done|].
    assert (Es : set_sync (set_serializing 0 (sync k1)) k1 = set_lists (lists k1) (set_kqueue q (kern s))).
    { rewrite E1. cbn. rewrite Hsy. destruct (kern s). cbn in *. by subst. }
    rewrite Es. split; [done|]. split_and!; [|exact (proj1 (proj2 HK))|by cbn; rewrite Hsy].
    rewrite <- Es. apply kcrit_sync; [done|by rewrite E1; cbn; rewrite Hsy|right; by rewrite E1; cbn; rewrite Hsy].
  - eexists. split; [exact E|]. split; [done|]. cbn [kern]. rewrite Ek in HK' |- *. cbn.
    split_and!; try done. by exists n.
Qed.

(** It finds nothing more to do. *)
Lemma idles s Q :
  kernel_at (kern s) Q -> (exists n, kq_holds (kqueue (kern s)) [] (S n)) ->
  exists q n, sys_exec ADelay s = Some (Return E_OK None, Sys (set_kqueue q (kern s)) (pend s)) /\
    kq_holds q [] (S n) /\ kernel_at (set_kqueue q (kern s)) Q.
Proof.
  intros HK [n Hkq]. destruct (kq_take_law _ _ _ Hkq) as (q & Eq & Hq).
  destruct (exec_wp ADelay s (λ o k', o = Return E_OK None /\ k' = set_kqueue q (kern s))) as (o & k' & E & -> & ->).
  - cbn [perform]. unfold delay_turn. do 2 wp_step. eexists _, _. split; [by rewrite Eq|]. wp_step. unfold ret. by wp_step.
  - exists q, n. split; [exact E|]. split; [done|].
    destruct HK as ([HC HR] & ? & ?). split_and!; [split; [by eapply core_ext|by eapply crit_ext]|done..].
Qed.

(** It listens: the best of the other threads runs. *)
Lemma listens s Q d th :
  kernel_at (kern s) Q -> running (kern s) = d -> threads (kern s) !! d = Some th -> flag (port th) = 0 ->
  km_map (thread_tree (kern s)) !! PORT_DELAY = Some d -> delay_thread_start (sync (kern s)) = false ->
  exists k', sys_exec AListen s = Some (Block KListen, Sys k' (<[d := KListen]> (pend s))) /\
    kernel_at k' (unready d Q) /\ scheduled k' (unready d Q) /\ sync k' = Sync 0 1 0 false /\
    kqueue k' = kqueue (kern s) /\ thread_tree k' = thread_tree (kern s) /\
    same_threads switched (<[d := blocked (set_wtype wait_flag (wait_reason th)) th]> (threads (kern s))) (threads k').
Proof.
  intros HK Hrun Hd Hf Htree Hdel. pose proof HK as (HK0 & Hr & _).
  assert (Hi : km_map (thread_tree (kern s)) !! PORT_IDLE ≠ Some d).
  { intros Hi. destruct (tree_thread _ _ _ _ HK0 Hi) as (t1 & Ht1 & Hk1), (tree_thread _ _ _ _ HK0 Htree) as (t2 & Ht2 & Hk2).
    assert (t2 = t1) as -> by congruence. rewrite Hk1 in Hk2. discriminate Hk2. }
  destruct (exec_wp AListen s (λ o k', exists k1, o = Block KListen /\ kcrit k1 (unready d Q) /\
    qframe (serialized (kern s)) k1 /\ threads k1 = <[d := blocked (set_wtype wait_flag (wait_reason th)) th]> (threads (kern s)) /\
    exists Q', kernel_at k' Q' /\ scheduled k' Q' /\ dispatched k1 (unready d Q) k' Q' /\ sync k' = Sync 0 1 0 false))
    as (o & k' & E & k1 & -> & HK1 & Hq & Et & Q' & HK' & Hsch & HD & Hs').
  - cbn [perform]. destruct (running_facts _ _ HK) as (me & Hme & Hre & Hw). rewrite Hrun in Hme.
    assert (me = th) as -> by congruence. pose proof (kcrit_serialized _ _ HK0) as HKs.
    unfold ipc_listen. wp_enter. do 3 wp_step. eapply wp_thread; [cbn; by rewrite Hrun|]. rewrite Hf. cbn [Z.eqb negb].
    cbn [running serialized set_sync]. rewrite Hrun.
    wp_step. eapply wp_upd_thread; [done|]. wp_step.
    eapply wp_mono.
    + rewrite <- Hrun at 1 2. apply (block_spec (serialized (kern s)) Q th (set_wtype wait_flag (wait_reason th)));
        cbn [running serialized set_sync]; rewrite ?Hrun; try done; [apply HKs|].
      eapply core_flag; [apply HKs|exact (eq_trans (wsm_lookup _ _ _ Hd) (f_equal Some Hw))|done|done].
    + cbn [running serialized set_sync]. rewrite Hrun. intros [] k' (k1 & Q' & H1 & H2 & H3 & H4 & H5 & H6 & H7). wp_step.
      exists k1. split_and!; try done. by exists Q'.
  - destruct HD as (k2 & Hr2 & [HSe HSt]). assert (delay_thread_start (sync k1) = false) as Hd1 by (by rewrite Hq).
    rewrite Hd1 in Hr2. destruct Hr2 as [-> ->]. exists k'. rewrite E. cbn [pend_after]. rewrite Hrun.
    split_and!; try done; [rewrite HSe, Hq; done..|]. by rewrite <- Et.
Qed.

(** ** Whole slices *)

(** The operations that end the slice of a thread after [q] more ticks. *)
Definition slice (q : nat) : list action := replicate q ATick ++ [AResume; ADelay; ADelay; AListen].

(** The queues when [d] has done its work. *)
Lemma unready_back k Q d pri l :
  kcrit k Q -> rdm (threads k) !! d = None -> Q !! LReady MIN_PRIORITY = Some [] -> d ∉ l -> MIN_PRIORITY < pri ->
  unready d (<[LReady pri := l]> (<[LReady MIN_PRIORITY := [d]]> Q)) = <[LReady pri := l]> Q.
Proof.
  intros [HC _] Hd H0 Hl Hpri. apply map_eq. intros g. rewrite unready_lookup.
  destruct (decide (g = LReady pri)) as [->|Hg]; [rewrite !lookup_insert_eq; cbn; by rewrite filter_ne_id|].
  rewrite !(lookup_insert_ne _ (LReady pri)) by done.
  destruct (decide (g = LReady MIN_PRIORITY)) as [->|Hg']; [rewrite lookup_insert_eq, H0; cbn; by rewrite decide_False by naive_solver|].
  rewrite lookup_insert_ne by done. destruct (Q !! g) as [l'|] eqn:Hq; [|done]. cbn. destruct g as [p|a|a|a|a|a|a]; try done.
  rewrite filter_ne_id; [done|]. intros Hin. apply (rq_mem _ _ _ (c_rq _ _ _ _ _ HC) _ _ _ Hq) in Hin. congruence.
Qed.

(** The last tick of the slice of [a]: the next thread [b] runs, and [a] is
    last. *)
Lemma slice_end s Q d pri a b l th :
  kernel_at (kern s) Q -> resting s d -> running (kern s) = a -> highest Q pri a (b :: l) -> MIN_PRIORITY < pri ->
  threads (kern s) !! a = Some th -> is_kthread th = false -> quantum th = 1 ->
  exists os s', sys_run (slice 1) s = Some (os, s') /\ resting s' d /\
    kernel_at (kern s') (<[LReady pri := b :: l ++ [a]]> Q) /\ running (kern s') = b /\ others s s' d a.
Proof.
  intros HK Hrest Hrun Hh Hpri Ha Hk Hq. pose proof Hrest as [_ (dt & Hd & Hst & _) Hpd _ _].
  assert (Hrd : rdm (threads (kern s)) !! d = None) by (by rewrite (rdm_lookup _ _ _ Hd), Hst).
  assert (Hdl : d ∉ a :: b :: l).
  { intros Hin. apply (rq_mem _ _ _ (c_rq _ _ _ _ _ (proj1 (proj1 HK))) _ _ _ (proj1 Hh)) in Hin. congruence. }
  destruct (last_tick s Q d pri a (b :: l) th) as (o1 & s1 & E1 & Haw & Hp1 & Ho1 & _); [done..|].
  rewrite <- Hp1 in Hpd. destruct (wakes _ _ _ _ _ Haw Hpd) as [o2 E2].
  set (s2 := Sys (kern s1) (delete d (pend s1))).
  assert (Haw2 : awake s2 Q d pri a) by (destruct Haw; by split).
  destruct (rotates s2 Q d pri a b l Haw2 (proj1 Hh) Hpri) as (s3 & E3 & Hp3 & Ht3 & Hr3 & Htr3 & Hs3 & Hkq3 & HK3).
  destruct (idles _ _ HK3 Hkq3) as (q & n & E4 & Hkq4 & HK4).
  set (s4 := Sys (set_kqueue q (kern s3)) (pend s3)).
  destruct (aw_thread _ _ _ _ _ Haw2) as (td & Htd & Hfl & Hpr).
  destruct (listens s4 _ d td HK4 Hr3) as (k5 & E5 & HK5 & Hsch & Hs5 & Hkq5 & Htr5 & Hth5); cbn [s4 kern threads set_kqueue thread_tree sync].
  { by rewrite Ht3. }
  { done. }
  { rewrite Htr3. apply (aw_tree _ _ _ _ _ Haw2). }
  { by rewrite Hs3. }
  assert (EQ : unready d (<[LReady pri := b :: l ++ [a]]> (<[LReady MIN_PRIORITY := [d]]> Q)) =
    <[LReady pri := b :: l ++ [a]]> Q).
  { apply (unready_back (kern s)); [apply HK|done| |set_solver|done].
    apply (proj2 Hh). unfold MIN_PRIORITY in *. lia. }
  rewrite EQ in HK5, Hsch.
  eexists _, _. split.
  { eapply run_cons; [exact E1|]. eapply run_cons; [exact E2|]. eapply run_cons; [exact E3|].
    eapply run_cons; [exact E4|]. eapply run_cons; [exact E5|reflexivity]. }
  cbn [s4 kern threads set_kqueue thread_tree kqueue] in *. split; [|split; [done|split]].
  - split; cbn [kern pend].
    + rewrite Htr5, Htr3. apply (aw_tree _ _ _ _ _ Haw2).
    + pose proof (Hth5 d) as H5. rewrite lookup_insert_eq in H5. destruct (threads k5 !! d) as [t5|]; [|done].
      destruct H5 as (st & v & -> & Hst5). eexists. split; [done|]. cbn. split; [|done].
      destruct Hst5 as [-> |[_ Hst5]]; [done|]. discriminate Hst5.
    + apply lookup_insert_eq.
    + exists n. by rewrite Hkq5.
    + done.
  - eapply (scheduled_runs _ _ pri b (l ++ [a])); [apply HK5|done|]. split; [apply lookup_insert_eq|].
    intros p Hp. rewrite lookup_insert_ne; [by apply Hh|]. intros [=]. lia.
  - intros c tc Hcd Hca Hc. destruct (Ho1 c tc Hcd Hca Hc) as (t1 & Ht1 & Ht1').
    pose proof (Hth5 c) as H5. cbn [kern]. rewrite lookup_insert_ne, Ht3 in H5 by done. change (kern s2) with (kern s1) in H5.
    rewrite Ht1 in H5. destruct (threads k5 !! c) as [t5|]; [|done]. exists t5. split; [done|].
    apply timing_switched in H5 as [E6 E7]. destruct Ht1' as [E8 E9]. split; congruence.
Qed.

(** A whole slice. *)
Lemma slice_spec n : forall s Q d pri a b l th,
  kernel_at (kern s) Q -> resting s d -> running (kern s) = a -> highest Q pri a (b :: l) -> MIN_PRIORITY < pri ->
  threads (kern s) !! a = Some th -> is_kthread th = false -> quantum th = Z.of_nat (S n) -> quantum th < 2 ^ 32 ->
  exists os s', sys_run (slice (S n)) s = Some (os, s') /\ resting s' d /\
    kernel_at (kern s') (<[LReady pri := b :: l ++ [a]]> Q) /\ running (kern s') = b /\ others s s' d a.
Proof.
  induction n as [|n IH]; intros s Q d pri a b l th HK Hrest Hrun Hh Hpri Ha Hk Hq Hlt; [by eapply slice_end|].
  set (s1 := Sys (set_threads (<[running (kern s) := set_quantum (quantum th - 1) th]> (threads (kern s))) (kern s)) (pend s)).
  assert (E1 : sys_exec ATick s = Some (Return E_OK None, s1)).
  { eapply tick_step; [done|apply Hrest|by rewrite Hrun|done|lia]. }
  destruct Hrest as [H1 (dt & Hd & Hst & Hwt & Hpr) H3 H4 H5].
  assert (Hda : d ≠ a).
  { intros ->. destruct (highest_ready _ _ _ _ _ (proj1 HK) Hh) as (t & Ht & Hre & _).
    assert (t = dt) as -> by congruence. by rewrite Hst in Hre. }
  destruct (IH s1 Q d pri a b l (set_quantum (quantum th - 1) th)) as (os & s' & E & Hr' & HK' & Hrun' & Ho').
  - apply kernel_at_quantum; [done|by rewrite Hrun].
  - split; try done. exists dt. cbn. rewrite Hrun, lookup_insert_ne by done. done.
  - done.
  - done.
  - done.
  - cbn. rewrite Hrun. apply lookup_insert_eq.
  - done.
  - cbn. lia.
  - cbn. lia.
  - exists (Return E_OK None :: os), s'. split; [exact (run_cons _ _ _ _ _ _ _ E1 E)|]. split_and!; try done.
    intros c tc Hcd Hca Hc. apply (Ho' c tc Hcd Hca). cbn. rewrite Hrun, lookup_insert_ne by done. done.
Qed.

(** The thread [c] is a user thread with [q] ticks left. *)
Definition has_ticks s (c : Z) (q : nat) : Prop :=
  exists th, threads (kern s) !! c = Some th /\ is_kthread th = false /\ quantum th = Z.of_nat q /\ 0 < quantum th < 2 ^ 32.

Lemma Forall2_elem_impl {A B} (R S : A -> B -> Prop) l l' :
  Forall2 R l l' -> (forall x y, x ∈ l -> R x y -> S x y) -> Forall2 S l l'.
Proof.
  induction 1 as [|x y l l' Hxy _ IH]; intros HS; constructor; [by apply HS; [left|]|].
  apply IH. intros. apply HS; [by right|done].
Qed.

Lemma slices_spec pre : forall s Q d pri b post qs,
  kernel_at (kern s) Q -> resting s d -> Q !! LReady pri = Some (pre ++ b :: post) ->
  (forall p, MIN_PRIORITY <= p < pri -> Q !! LReady p = Some []) -> running (kern s) = List.hd b pre -> MIN_PRIORITY < pri ->
  Forall2 (has_ticks s) pre qs ->
  exists os s', sys_run (qs ≫= slice) s = Some (os, s') /\ resting s' d /\
    kernel_at (kern s') (<[LReady pri := b :: post ++ pre]> Q) /\ running (kern s') = b.
Proof.
  induction pre as [|a pre IH]; intros s Q d pri b post qs HK Hrest Hl Hlow Hrun Hpri Hq.
  { apply Forall2_nil_inv_l in Hq as ->. exists [], s. rewrite app_nil_r, insert_id by done. done. }
  apply Forall2_cons_inv_l in Hq as (q & qs' & (th & Ha & Hk & Hqt & Hr) & Hqs & ->). cbn [List.hd] in Hrun.
  destruct q as [|q]; [cbn in Hqt; lia|].
  assert (exists c l, pre ++ b :: post = c :: l /\ c = List.hd b pre) as (c & l & El & Hc) by (destruct pre; cbn; eauto).
  cbn [app] in Hl. rewrite El in Hl.
  destruct (slice_spec q s Q d pri a c l th) as (os & s1 & E1 & Hrest1 & HK1 & Hrun1 & Ho1); try done; [lia|].
  destruct (c_links _ _ _ _ _ (proj1 (proj1 HK))) as (I & HQ & _). pose proof (q_nodup _ _ _ HQ _ _ Hl) as Hnd.
  rewrite <- El in Hnd. apply NoDup_cons in Hnd as [Hnin _].
  assert (Hl1 : c :: l ++ [a] = pre ++ b :: (post ++ [a])) by (rewrite app_comm_cons, <- El, <- app_assoc; done).
  destruct (IH s1 (<[LReady pri := c :: l ++ [a]]> Q) d pri b (post ++ [a]) qs') as (os' & s2 & E2 & Hrest2 & HK2 & Hrun2); try done.
  - rewrite lookup_insert_eq. by f_equal.
  - intros p Hp. rewrite lookup_insert_ne; [by apply Hlow|]. intros [=]. lia.
  - by rewrite Hrun1.
  - destruct Hrest as [_ (dt & Hd & Hst & _) _ _ _].
    eapply Forall2_elem_impl; [exact Hqs|]. clear IH Hqs. intros x y Hx (tx & Hxt & Hkx & Hqx & Hrx).
    destruct (Ho1 x tx) as (tx' & Htx' & Hk' & Hq'); [| |done|].
    + intros ->. assert (Hin : d ∈ a :: c :: l) by (rewrite <- El; set_solver).
      apply (rq_mem _ _ _ (c_rq _ _ _ _ _ (proj1 (proj1 HK))) _ _ _ Hl) in Hin.
      rewrite (rdm_lookup _ _ _ Hd), Hst in Hin. done.
    + intros ->. set_solver.
    + exists tx'. rewrite Hk', Hq'. done.
  - exists (os ++ os'), s2. split; [exact (run_app _ _ _ _ _ _ _ E1 E2)|]. split_and!; try done.
    rewrite insert_insert_eq, <- app_assoc in HK2. done.
Qed.

End Slices.
