(* ===== verification/KDemo.v ===== *)
(** * A machine to run the kernel on

    A concrete platform and the memory a loader would leave: 64 free page
    frames, empty slabs, no thread.  The kernel boots on it, and a server and
    a client meet at a port.  The states of this run are where the theorems on
    the kernel are applied. *)

From S2P Require Import Prelude Lists LfQueue AATree Bitmap Sequence Palloc KTypes VMem KState KSched KThread KIpc.
From S2P Require Import KRefine Queues KQueues KInv Slab KMemory KSteps KObjects KHoare KSchedOk KThreadOk KIpcOk.
From S2P Require Import KSystem KBoot KPlatform KRuns KSlices.

(** ** The queues of a state *)

(** The threads whose links are on a ring. *)
Fixpoint threads_on (l : list loc) : list Z :=
  match l with
  | [] => []
  | (LQueue a | LWaiting a) :: l => a :: threads_on l
  | _ :: l => threads_on l
  end.

(** The queues that the rings represent. *)
Definition queues_of (A : rings) : queues :=
  map_imap (λ g l, if is_guard g then Some (threads_on l) else None) A.

Lemma threads_on_links g l : threads_on (link_of g <$> l) = l.
Proof. induction l as [|a l IH]; [done|]. destruct g; cbn in *; by rewrite IH. Qed.

Lemma queues_of_qrep A Q I : qrep A Q I -> queues_of A = Q.
Proof.
  intros HQ. apply map_eq. intros g. unfold queues_of. rewrite map_lookup_imap.
  destruct (is_guard g) eqn:Hg.
  - rewrite (q_guard _ _ _ HQ g Hg). destruct (Q !! g) as [l|]; [|done]. cbn [fmap option_fmap option_map mbind option_bind].
    by rewrite threads_on_links.
  - destruct (Q !! g) as [l|] eqn:E; [by rewrite (q_dom _ _ _ HQ g l E) in Hg|]. by destruct (A !! g).
Qed.

Lemma kernel_queues {P : Platform} `{!KeyMapLaws pf_tree} `{!KernelMemoryLaws pf_memory} (k : kernel rings) Q :
  kernel_at k Q -> kernel_at k (queues_of (lists k)).
Proof.
  intros HK. pose proof HK as ([HC _] & _). destruct (c_links _ _ _ _ _ HC) as (I & HQ & _).
  by rewrite (queues_of_qrep _ _ _ HQ).
Qed.

(** ** Boot *)

Notation demo_platform := (eotan 0x1000).

Definition demo_dummy : Z := 0x80001000.

(** A queue of delayed calls with room for two. *)
Definition demo_nodes : lfq_t delay_param_t :=
  let n := LfQueue.Node 0 0 (DelayParam H_ready_rotate 0 0) in Lfq (0, 0) (0, 0) (0, 0) 0 {[64 := n; 84 := n; 104 := n]}.

Lemma demo_kqueue_ok : exists q, lfq_initialize 64 12 3 demo_nodes = Some (QUEUE_OK, q) /\ lfq_ok q [] 2.
Proof.
  destruct (lfq_initialize_spec demo_nodes 64 12 3) as (q & E & Hok); [by vm_compute..| |by exists q].
  intros i Hi. assert (i = 0 \/ i = 1 \/ i = 2) as [->|[-> | ->]] by lia; by eexists.
Qed.

Definition demo_kq : lfq_t delay_param_t :=
  match lfq_initialize 64 12 3 demo_nodes with Some (_, q) => q | None => demo_nodes end.

Lemma demo_kq_wf : exists vs n, lfq_ok demo_kq vs n.
Proof. destruct demo_kqueue_ok as (q & E & Hok). unfold demo_kq. rewrite E. eauto. Qed.

Lemma demo_kq_empty : kq_holds (KQueue demo_kq demo_kq_wf) [] 2.
Proof. destruct demo_kqueue_ok as (q & E & Hok). cbn. unfold demo_kq. by rewrite E. Qed.

(** The memory that holds the messages: some bytes everywhere. *)
Definition demo_loaded {H} `{Empty H} : @kernel demo_platform H :=
  @Kernel demo_platform H ∅ ∅ ∅ 0 0 (km_new (T := tree_t)) (km_new (T := tree_t)) (Sequence 0 0 0 [] 0)
    (Sync 0 0 0 false) (KQueue demo_kq demo_kq_wf) (Kmem demo_pool demo_slab demo_slab)
    (λ a, a mod 251) (Cpu 0 0 0 0 0).

Lemma demo_loaded_ok : loaded (demo_loaded (H := rings)).
Proof. split; try done. split; [exact demo_pool_ok|by vm_compute]. Qed.

Lemma demo_rel : krel rep (demo_loaded (H := gmap loc (list_t loc))) (demo_loaded (H := rings)).
Proof. split; [apply rep_empty|done]. Qed.

Lemma demo_dummy_ok m1 m2 a m3 :
  reply_slab_create (memory (demo_loaded (H := rings))) = Some m1 -> thread_slab_create m1 = Some m2 ->
  thread_alloc m2 = Some (Some a, m3) -> a ≠ demo_dummy.
Proof.
  intros E1 E2 E3.
  assert ((m1 ← reply_slab_create (memory (demo_loaded (H := rings))); m2 ← thread_slab_create m1;
           '(o, _) ← thread_alloc m2; Some o) = Some (Some a)) as E.
  { rewrite E1. cbn [mbind option_bind]. rewrite E2. cbn [mbind option_bind]. by rewrite E3. }
  vm_compute in E. injection E as <-. done.
Qed.

Definition demo_start {H} `{!ListOps loc H, !Empty H} : option (Z * @kernel demo_platform H) :=
  start demo_dummy 0x2000 0 demo_loaded.

(** The system when the idle thread runs. *)
Definition demo_boot : @sys demo_platform rings :=
  Sys (forget demo_dummy (default demo_loaded (snd <$> demo_start))) ∅.

Lemma demo_boot_ok : sys_ok demo_boot.
Proof.
  destruct (start_spec demo_loaded demo_dummy 0x2000 0 demo_loaded_ok demo_dummy_ok) as (r & k & E & Hr).
  assert (Er : fst <$> demo_start (H := rings) = Some E_OK) by (vm_compute; reflexivity).
  unfold demo_boot, demo_start in *. rewrite E in *. injection Er as ->. cbn [default fmap option_fmap option_map snd].
  destruct Hr as [[=]|(_ & a & Hb)]. by eapply booted_sys.
Qed.

(** ** Steps *)

Definition after (act : action) (s : @sys demo_platform rings) : @sys demo_platform rings :=
  match sys_exec act s with Some (_, s') => s' | None => s end.

Lemma after_ok act s : sys_ok s -> acceptable s act -> sys_ok (after act s).
Proof. intros Hs Ha. unfold after. by destruct (sys_step s act Hs Ha) as (o & s' & -> & Hs'). Qed.

Lemma accept_cons act acts s s' :
  s' = after act s -> acceptable s act -> accept_run acts s' -> accept_run (act :: acts) s.
Proof. intros -> Ha Hr. split; [done|]. intros o s' E. unfold after in Hr. by rewrite E in Hr. Qed.

Lemma reach_after act s s' s0 :
  s' = after act s -> reach s0 s -> sys_ok s -> acceptable s act -> reach s0 s'.
Proof.
  intros -> Hr Hs Ha. destruct (sys_step s act Hs Ha) as (o & s' & E & _). eapply reach_step; [exact Hr|exact Ha|].
  unfold after. by rewrite E.
Qed.

Lemma sys_kernel (s : @sys demo_platform rings) : sys_ok s -> kernel_at (kern s) (queues_of (lists (kern s))).
Proof. intros (Q & HK & _). by eapply kernel_queues. Qed.

(** Conversion meets the names of the states first. *)
#[global] Opaque after.

(** A server of priority 1 and a client of priority 2. *)
Definition server : T_CTSK := Ctsk TA_ACT 0 0x3000 1 KTHREAD_STACK_SIZE 0 0 0.
Definition client : T_CTSK := Ctsk TA_ACT 0 0x4000 2 KTHREAD_STACK_SIZE 0 0 0.

(** The server runs, opens its port and waits for a message. *)
Definition demo_server := after (ACreate 100 server) demo_boot.
Definition demo_opened := after (AOpen (Some (Cpor TA_TFIFO 16 16))) demo_server.
Definition demo_waiting := after (AReceive 100 0x80050000) demo_opened.

(** The client runs, calls, and the server receives the call and answers. *)
Definition demo_client := after (ACreate 101 client) demo_waiting.
Definition demo_called := after (ACall 100 0x80060000 8) demo_client.
Definition demo_received := after AResume demo_called.
Definition demo_reply : action := ASend (create_ipc_tag 101 1) 0x80050000 8.
Definition demo_replied := after demo_reply demo_received.

Lemma ctsk_plain (k : @kernel demo_platform rings) pk :
  MIN_PRIORITY <= itskpri pk <= MAX_PRIORITY -> ctsk_ustack_top pk = 0 -> stk pk = 0 -> ctsk_ok k pk.
Proof. intros Hp Hu Hs. split; [exact Hp|]. split; [by rewrite Hu|by rewrite Hs]. Qed.

Lemma accept_server : acceptable demo_boot (ACreate 100 server).
Proof. split; [vm_compute; reflexivity|]. by apply ctsk_plain. Qed.

Lemma accept_open : acceptable demo_server (AOpen (Some (Cpor TA_TFIFO 16 16))).
Proof. split; [vm_compute; reflexivity|done]. Qed.

Lemma accept_receive : acceptable demo_opened (AReceive 100 0x80050000).
Proof.
  split; [vm_compute; reflexivity|]. split; [unfold not_idle; vm_compute; by intros [=]|].
  intros p tp l w Hp Hl _. vm_compute in Hp. injection Hp as <-. vm_compute in Hl. discriminate Hl.
Qed.

Lemma accept_client : acceptable demo_waiting (ACreate 101 client).
Proof. split; [vm_compute; reflexivity|]. by apply ctsk_plain. Qed.

Lemma accept_call : acceptable demo_client (ACall 100 0x80060000 8).
Proof.
  split; [vm_compute; reflexivity|]. split; [unfold not_idle; vm_compute; by intros [=]|].
  intros p tp l w Hp Hl Hw. vm_compute in Hp. injection Hp as <-. vm_compute in Hl. injection Hl as <- <-.
  vm_compute in Hw. injection Hw as <-. eexists. vm_compute. reflexivity.
Qed.

Lemma accept_resume : acceptable demo_called AResume.
Proof. split; [|done]. vm_compute. by eexists. Qed.

Lemma demo_server_ok : sys_ok demo_server.
Proof. apply after_ok; [exact demo_boot_ok|exact accept_server]. Qed.

Lemma demo_opened_ok : sys_ok demo_opened.
Proof. apply after_ok; [exact demo_server_ok|exact accept_open]. Qed.

Lemma demo_waiting_ok : sys_ok demo_waiting.
Proof. apply after_ok; [exact demo_opened_ok|exact accept_receive]. Qed.

Lemma demo_client_ok : sys_ok demo_client.
Proof. apply after_ok; [exact demo_waiting_ok|exact accept_client]. Qed.

Lemma demo_called_ok : sys_ok demo_called.
Proof. apply after_ok; [exact demo_client_ok|exact accept_call]. Qed.

Lemma demo_received_ok : sys_ok demo_received.
Proof. apply after_ok; [exact demo_called_ok|exact accept_resume]. Qed.

(** The keys that calls still claim, listed. *)
Definition claims (s : @sys demo_platform rings) : list (Z * bool) :=
  list_omap _ _ (λ at_, claim (Some at_.2) (pend s !! at_.1)) (map_to_list (threads (kern s))).

Lemma received_claims s key : (key, false) ∉ claims s -> received (kern s) (pend s) key.
Proof.
  intros Hn a [] Hc; [done|]. destruct (threads (kern s) !! a) as [th|] eqn:Ha; [|by destruct (pend s !! a)].
  destruct Hn. apply list_elem_of_omap. exists (a, th). split; [by apply elem_of_map_to_list|done].
Qed.

Lemma accept_reply : acceptable demo_received demo_reply.
Proof.
  split; [vm_compute; reflexivity|]. change (reply_ok (kern demo_received) (pend demo_received) 1 0x80050000 8). split.
  - apply received_claims. vm_compute. intros Hin. repeat (apply elem_of_cons in Hin as [[=]|Hin]). by apply elem_of_nil in Hin.
  - intros r rp tp w Hr Hl Hrp Hw. vm_compute in Hr. injection Hr as <-. vm_compute in Hl. injection Hl as <-.
    vm_compute in Hrp. injection Hrp as <-. vm_compute in Hw. injection Hw as <-. split; [done|].
    eexists. vm_compute. reflexivity.
Qed.

Lemma demo_replied_ok : sys_ok demo_replied.
Proof. apply after_ok; [exact demo_received_ok|exact accept_reply]. Qed.

(** The run, and what its calls return. *)
Definition demo_acts : list action :=
  [ACreate 100 server; AOpen (Some (Cpor TA_TFIFO 16 16)); AReceive 100 0x80050000; ACreate 101 client;
   ACall 100 0x80060000 8; AResume; demo_reply].

Definition demo_outcomes : list outcome :=
  [Return E_OK None; Return E_OK None; Block KReceive; Return E_OK None; Block (KCall 1);
   Return 8 (Some (create_ipc_tag 101 1)); Return E_OK None].

Lemma demo_accept : accept_run demo_acts demo_boot.
Proof.
  apply (accept_cons _ _ _ demo_server eq_refl accept_server).
  apply (accept_cons _ _ _ demo_opened eq_refl accept_open).
  apply (accept_cons _ _ _ demo_waiting eq_refl accept_receive).
  apply (accept_cons _ _ _ demo_client eq_refl accept_client).
  apply (accept_cons _ _ _ demo_called eq_refl accept_call).
  apply (accept_cons _ _ _ demo_received eq_refl accept_resume).
  apply (accept_cons _ _ _ demo_replied eq_refl accept_reply). exact I.
Qed.

Lemma demo_run : fst <$> sys_run demo_acts demo_boot = Some demo_outcomes.
Proof. vm_compute. reflexivity. Qed.

Lemma demo_boot_start : exists k, demo_start = Some (E_OK, k) /\ demo_boot = Sys (forget demo_dummy k) ∅.
Proof.
  assert (Er : fst <$> demo_start (H := rings) = Some E_OK) by (vm_compute; reflexivity).
  unfold demo_boot. destruct demo_start as [[r k]|]; [|done]. injection Er as ->. by exists k.
Qed.

Lemma reach_waiting : reach demo_boot demo_waiting.
Proof.
  apply (reach_after _ demo_opened _ _ eq_refl); [|exact demo_opened_ok|exact accept_receive].
  apply (reach_after _ demo_server _ _ eq_refl); [|exact demo_server_ok|exact accept_open].
  apply (reach_after _ demo_boot _ _ eq_refl); [|exact demo_boot_ok|exact accept_server]. apply reach_here.
Qed.

(** Two threads of the same priority. *)
Definition demo_peers := after (ACreate 102 server) demo_server.

Lemma accept_peer : acceptable demo_server (ACreate 102 server).
Proof. split; [vm_compute; reflexivity|]. by apply ctsk_plain. Qed.

Lemma demo_peers_ok : sys_ok demo_peers.
Proof. apply after_ok; [exact demo_server_ok|exact accept_peer]. Qed.

(** A thread of a user process. *)
Definition user : T_CTSK := Ctsk TA_ACT 0 0x400000 3 KTHREAD_STACK_SIZE 0 0x50000 0x7ffff000.
Definition demo_process := after (ACreate 200 user) demo_boot.

Lemma accept_process : acceptable demo_boot (ACreate 200 user).
Proof. split; [vm_compute; reflexivity|]. split; [done|]. split; [by intros _ [=]|by intros []]. Qed.

Lemma demo_process_ok : sys_ok demo_process.
Proof. apply after_ok; [exact demo_boot_ok|exact accept_process]. Qed.

(** The server is terminated while it waits. *)
Definition demo_terminated := after (ATerminate 100) demo_waiting.

Lemma accept_terminate : acceptable demo_waiting (ATerminate 100).
Proof. split; [vm_compute; reflexivity|]. split; [done|]. vm_compute. intros [=]. Qed.

Lemma demo_terminated_ok : sys_ok demo_terminated.
Proof. apply after_ok; [exact demo_waiting_ok|exact accept_terminate]. Qed.

(** ** Time slices *)

(** The thread for delayed calls listens, and two threads of a process share a
    priority. *)
Definition delay : T_CTSK := Ctsk TA_ACT 0 0x5000 MIN_PRIORITY KTHREAD_STACK_SIZE 0 0 0.
Definition demo_delay := after (ACreate PORT_DELAY delay) demo_boot.
Definition demo_listening := after AListen demo_delay.
Definition demo_one := after (ACreate 200 user) demo_listening.
Definition demo_users := after (ACreate 201 user) demo_one.

Lemma demo_delay_ok : sys_ok demo_delay.
Proof. apply after_ok; [exact demo_boot_ok|]. split; [vm_compute; reflexivity|]. by apply ctsk_plain. Qed.

Lemma demo_listening_ok : sys_ok demo_listening.
Proof. apply after_ok; [exact demo_delay_ok|]. split; [vm_compute; reflexivity|]. unfold not_idle. vm_compute. by intros [=]. Qed.

Lemma demo_users_ok : sys_ok demo_users.
Proof.
  apply after_ok; [apply after_ok; [exact demo_listening_ok|]|];
    (split; [vm_compute; reflexivity|split; [done|split; [by intros _ [=]|by intros []]]]).
Qed.

Lemma demo_users_resting : exists d, resting demo_users d.
Proof.
  eexists. split.
  - vm_compute. reflexivity.
  - eexists. split; [vm_compute; reflexivity|]. by split_and!.
  - vm_compute. reflexivity.
  - exists 1%nat. replace (kqueue (kern demo_users)) with (KQueue demo_kq demo_kq_wf); [exact demo_kq_empty|].
    vm_compute. reflexivity.
  - vm_compute. reflexivity.
Qed.
