(* ===== verification/KTheorems.v ===== *)
(** * Theorems on the kernel

    What the kernel promises to its clients: it boots, it never leaves the
    defined behaviour of C while its callers keep to their contract, the
    pointers follow the rings, the best thread runs, threads of equal priority
    take turns, and every call does what its specification says on each of its
    branches.  Each theorem is applied to a state of the runs of [KDemo]. *)

From S2P Require Import Prelude Lists LfQueue AATree Bitmap Sequence Palloc KTypes VMem KState KSched KThread KIpc.
From S2P Require Import KRefine Queues KQueues KInv Slab KMemory KSteps KObjects KHoare KSchedOk KThreadOk KIpcOk.
From S2P Require Import KSystem KBoot KPlatform KRuns KSlices KDemo.

Notation pointers := (gmap loc (list_t loc)).

Section System.
Context {P : Platform} `{!KeyMapLaws pf_tree} `{!KernelMemoryLaws pf_memory}.

(** The address of the record of the booting thread is none the slab of
    threads hands out. *)
Definition apart_from_slab (k : kernel rings) (dummy : Z) : Prop :=
  forall m1 m2 a m3, reply_slab_create (memory k) = Some m1 -> thread_slab_create m1 = Some m2 ->
    thread_alloc m2 = Some (Some a, m3) -> a ≠ dummy.

Lemma forget_rel (kc : kernel pointers) ka a :
  krel rep kc ka -> srel rep (Sys (forget a kc) ∅) (Sys (forget a ka) ∅).
Proof. intros [Hl E]. split; [|done]. split; [exact Hl|]. cbn [kern]. rewrite E. done. Qed.

(** C1: the kernel stays within the behaviour that C defines as long as its
    callers keep to the contract [acceptable].  From the memory a loader
    leaves, [start] on the pointers of the code returns: it is out of memory,
    or it has booted, and then every sequence of kernel calls, timer
    interrupts and delayed calls in which each operation is acceptable when
    its turn comes is defined to its end (no null pointer is followed, no
    freed or unlinked entry is touched, no copy of a message faults, no loop
    runs out of its bound), answers what the kernel on rings answers, and
    leaves pointers that represent rings in the invariant.  The contract asks,
    by operation: the messages of calls, sends, receptions and copies can be
    read and written where they are; an answer belongs to a received call,
    fits the port's limit and can be copied; a thread is created with a
    priority in range and a stack page that is live and not in use, and
    destroyed when nobody waits at its port; a page is freed once and not
    under a stack; the idle thread does not wait, end, or get terminated or
    suspended; another thread is not terminated or suspended while it runs.
    What the code does to an answer or a destruction outside of the contract
    is stated with those calls below. *)
Theorem kernel_safe (kc : kernel pointers) ka dummy idle_start callback :
  krel rep kc ka -> loaded ka -> apart_from_slab ka dummy ->
  exists r kc' ka',
    start dummy idle_start callback kc = Some (r, kc') /\ start dummy idle_start callback ka = Some (r, ka') /\
    (r = E_NOMEM \/ r = E_OK /\ forall acts, accept_run acts (Sys (forget dummy ka') ∅) ->
       exists os sc sa, sys_run acts (Sys (forget dummy kc') ∅) = Some (os, sc) /\
         sys_run acts (Sys (forget dummy ka') ∅) = Some (os, sa) /\ srel rep sc sa /\ sys_ok sa).
Proof.
  intros Hrel Hld Hdum. destruct (start_spec ka dummy idle_start callback Hld Hdum) as (r & ka' & Ea & Hr).
  destruct (sim_start rep dummy idle_start callback _ _ _ _ Hrel Ea) as (kc' & Ec & Hrel').
  exists r, kc', ka'. do 2 (split; [done|]). destruct Hr as [Hr|(Hr & a & Hb)]; [by left|]. right. split; [done|].
  intros acts Hacc. destruct (accept_run_total acts _ (booted_sys _ _ _ Hb) Hacc) as (os & sa & Er & Hok).
  destruct (sim_run rep acts _ _ _ _ (forget_rel _ _ dummy Hrel') Er) as (sc & Erc & Hs). by exists os, sc, sa.
Qed.

(** C2: every run of the kernel on rings is a run of the kernel on pointers,
    with the same results call by call: the code of the scheduler, of the
    threads and of the rendezvous, run over the doubly linked lists it is
    written for, implements the same code over queues of threads. *)
Theorem kernel_pointers_refine (sc : sys pointers) (sa : sys rings) acts os sa' :
  srel rep sc sa -> sys_run acts sa = Some (os, sa') ->
  exists sc', sys_run acts sc = Some (os, sc') /\ srel rep sc' sa'.
Proof. apply sim_run, _. Qed.

(** C3: the invariant of the kernel is inductive.  In every state that
    acceptable operations lead to, the queues, the registers of threads and of
    rendezvous, the memory behind them, the processor and the pending calls
    agree; and every acceptable operation (one that keeps to the contract of
    its callers, which includes that its copies of messages do not fault) is
    defined there and leads to such a state again. *)
Theorem kernel_invariant s0 s act :
  sys_ok s0 -> reach s0 s -> acceptable s act ->
  sys_ok s /\ exists o s', sys_exec act s = Some (o, s') /\ sys_ok s'.
Proof. intros H0 Hr Ha. pose proof (reach_ok _ _ H0 Hr) as Hs. split; [done|]. by apply sys_step. Qed.

(** C12: the threads of every reachable state are well typed: each is in one
    of the six states, waits exactly if a reason for it is recorded, and has a
    priority in range; one thread runs, it is ready, and no other is marked as
    running; the register finds each thread under its identifier and nothing
    else; the idle thread can always run. *)
Theorem threads_typed s0 s :
  sys_ok s0 -> reach s0 s ->
  let k := kern s in
  (forall a th, threads k !! a = Some th ->
     valid_status (status th) /\ (waiting (status th) = true <-> wstate_of (wait_reason th) ≠ WNone) /\
     MIN_PRIORITY <= priority th <= MAX_PRIORITY /\ (status th = TTS_RUN -> a = running k) /\
     km_get (thread_tree k) (node_key th) = Some a) /\
  (forall id a, km_get (thread_tree k) id = Some a -> exists th, threads k !! a = Some th /\ node_key th = id) /\
  (exists th, threads k !! running k = Some th /\ ready (status th) = true) /\
  exists a th, km_get (thread_tree k) PORT_IDLE = Some a /\ threads k !! a = Some th /\
    ready (status th) = true /\ priority th = MAX_PRIORITY.
Proof.
  intros H0 Hr. destruct (reach_ok _ _ H0 Hr) as (Q & HKa & _). pose proof HKa as (HK & _). intros k.
  pose proof (λ id, tree_lookup k Q id HK) as Hget. split_and!.
  - intros a th Ha. destruct (crit_threads _ (proj2 HK) a th Ha) as [Hv Hw]. split; [done|]. split; [done|]. split.
    { exact (proj1 (st_prio _ _ (c_st _ _ _ _ _ (proj1 HK)) a _ (sgm_lookup _ _ _ Ha))). }
    split; [by apply (crit_only _ (proj2 HK))|]. rewrite Hget. by apply (thread_tree_id _ Q).
  - intros id a. rewrite Hget. by apply (tree_thread _ Q).
  - destruct (running_facts _ _ HKa) as (me & Hme & Hre & _). by exists me.
  - destruct (crit_idle _ (proj2 HK)) as (a & th & Hi & Ha & Hre & Hp). exists a, th. by rewrite Hget.
Qed.

End System.

Lemma kernel_safe_witness :
  exists kc ka sc sa, demo_start (H := pointers) = Some (E_OK, kc) /\ demo_start (H := rings) = Some (E_OK, ka) /\
    sys_run demo_acts (Sys (forget demo_dummy kc) ∅) = Some (demo_outcomes, sc) /\
    srel rep sc sa /\ sys_ok sa.
Proof.
  destruct (kernel_safe demo_loaded demo_loaded demo_dummy 0x2000 0 demo_rel demo_loaded_ok demo_dummy_ok)
    as (r & kc & ka & Ec & Ea & Hr).
  destruct demo_boot_start as (k & Ek & Eb). unfold demo_start in Ek. rewrite Ek in Ea. injection Ea as <- <-.
  destruct Hr as [[=]|(_ & Hr)]. destruct (Hr demo_acts) as (os & sc & sa & E1 & E2 & Hrel & Hok).
  { rewrite <- Eb. exact demo_accept. }
  exists kc, k, sc, sa. split; [exact Ec|]. split; [exact Ek|]. split; [|by split].
  pose proof demo_run as Hrun. rewrite Eb, E2 in Hrun. injection Hrun as <-. exact E1.
Defined.

Lemma kernel_pointers_refine_witness :
  exists kc sc, demo_start (H := pointers) = Some (E_OK, kc) /\ sys_run demo_acts (Sys (forget demo_dummy kc) ∅) = Some (demo_outcomes, sc).
Proof.
  destruct demo_boot_start as (k & Ek & Eb). unfold demo_start in *.
  destruct (sim_start rep demo_dummy 0x2000 0 _ _ _ _ demo_rel Ek) as (kc & Ec & Hrel).
  pose proof demo_run as Hrun. destruct (sys_run demo_acts demo_boot) as [[os sa]|] eqn:Er; [|done]. injection Hrun as ->.
  rewrite Eb in Er. destruct (kernel_pointers_refine _ _ _ _ _ (forget_rel _ _ demo_dummy Hrel) Er) as (sc & E & _).
  exists kc, sc. by split.
Defined.

Lemma kernel_invariant_witness :
  sys_ok demo_waiting /\ exists o s', sys_exec (ACreate 101 client) demo_waiting = Some (o, s') /\ sys_ok s'.
Proof. apply (kernel_invariant demo_boot); [exact demo_boot_ok|exact reach_waiting|exact accept_client]. Defined.

Lemma threads_typed_witness :
  exists th, threads (kern demo_waiting) !! running (kern demo_waiting) = Some th /\ ready (status th) = true.
Proof. apply (threads_typed demo_boot); [exact demo_boot_ok|exact reach_waiting]. Defined.

(** ** Boot and scheduling *)

Section Scheduling.
Context {P : Platform} `{!KeyMapLaws pf_tree} `{!KernelMemoryLaws pf_memory}.
Implicit Types k : kernel rings.
Implicit Types Q : queues.

(** C11: booting.  From the memory a loader leaves, [start] is out of memory or
    leaves one thread, the idle one, running at the lowest priority, with the
    kernel in its invariant once the record of the booting thread is gone. *)
Theorem start_correct k dummy idle_start callback :
  loaded k -> apart_from_slab k dummy ->
  wp (start dummy idle_start callback) k (λ r k', r = E_NOMEM \/ r = E_OK /\
    sys_ok (Sys (forget dummy k') ∅) /\ exists a th, running k' = a /\ threads (forget dummy k') = {[a := th]} /\
      node_key th = PORT_IDLE /\ status th = TTS_RUN).
Proof.
  intros Hk Hd. eapply wp_mono; [by apply start_spec|]. intros r k' [->|(-> & a & Hb)]; [by left|]. right.
  split; [done|]. split; [by eapply booted_sys|]. destruct Hb as (Hr & _ & _ & th & Et & Hk' & Hs & _). by exists a, th.
Qed.

Lemma scheduled_best k Q :
  kcrit k Q -> scheduled k Q -> exists th l, threads k !! running k = Some th /\ ready (status th) = true /\
    Q !! LReady (priority th) = Some (running k :: l) /\
    forall b tb, threads k !! b = Some tb -> ready (status tb) = true -> priority th <= priority tb.
Proof.
  intros HK (p & l & Hh). destruct (highest_ready _ _ _ _ _ HK Hh) as (th & Hth & Hr & <-). destruct Hh as [Hq Hlow].
  exists th, l. do 3 (split; [done|]). intros b tb Hb Hrb. destruct (Z.le_gt_cases (priority th) (priority tb)) as [|Hlt]; [done|].
  pose proof (c_rq _ _ _ _ _ (proj1 HK)) as HR.
  assert (Hrd : rdm (threads k) !! b = Some (priority tb)) by (by rewrite (rdm_lookup _ _ _ Hb), Hrb).
  pose proof (rq_range _ _ _ HR _ _ Hrd) as [Hmin _].
  specialize (Hlow (priority tb) (conj Hmin Hlt)). apply (rq_mem _ _ _ HR _ _ b Hlow) in Hrd. by apply elem_of_nil in Hrd.
Qed.

(** C4: the dispatcher is a priority scheduler.  When a critical section ends
    with a dispatch, the thread that runs next is ready, is the first in the
    queue of its priority, and no ready thread has a better one.  The thread
    for delayed calls is notified first, exactly if that is due, as
    [ipc_notify] does it: released if it listens, or left with the flag.
    Besides that no queue changes; of the threads, only the marks for running
    and ready and the saved registers of the FPU may differ; no rendezvous, no
    register of threads and no memory is touched; and no request is left. *)
Theorem dispatch_correct k Q :
  kcrit k Q ->
  wp leave_serialize_and_dispatch k (λ _ k', exists Q' th l,
    kernel_at k' Q' /\ dispatched k Q k' Q' /\ sync k' = Sync 0 1 0 false /\
    threads k' !! running k' = Some th /\ ready (status th) = true /\
    Q' !! LReady (priority th) = Some (running k' :: l) /\
    (forall b tb, threads k' !! b = Some tb -> ready (status tb) = true -> priority th <= priority tb)).
Proof.
  intros HK. eapply wp_mono; [by apply leave_serialize_and_dispatch_spec|].
  intros [] k' (Q' & HK' & Hs & HD & Es). destruct (scheduled_best _ _ (proj1 HK') Hs) as (th & l & H1 & H2 & H3 & H4).
  exists Q', th, l. by split_and!.
Qed.

(** C5: threads of equal priority take turns.  While the thread for delayed
    calls rests, let user threads [pre], the first of them running, be ahead
    of [b] in the queue of the best priority in use, with [qs] ticks left in
    their time slices.  Then the run of the system in which the timer ticks to
    the end of each slice in turn, and the thread for delayed calls wakes,
    rotates the queue, finds no more work and listens again, is defined and
    ends with [b] on the processor, the threads that had their turns behind
    the others in order, and the thread for delayed calls resting again. *)
Theorem round_robin `{!DelayQueueLaws pf_kqueue} (s : sys rings) Q d pri pre b post qs :
  kernel_at (kern s) Q -> resting s d -> MIN_PRIORITY < pri ->
  Q !! LReady pri = Some (pre ++ b :: post) -> (forall p, MIN_PRIORITY <= p < pri -> Q !! LReady p = Some []) ->
  running (kern s) = List.hd b pre -> Forall2 (has_ticks s) pre qs ->
  exists os s', sys_run (qs ≫= slice) s = Some (os, s') /\ running (kern s') = b /\
    kernel_at (kern s') (<[LReady pri := b :: post ++ pre]> Q) /\ resting s' d.
Proof.
  intros HK Hr Hpri Hl Hlow Hrun Hq.
  destruct (slices_spec pre s Q d pri b post qs) as (os & s' & E & H1 & H2 & H3); try done. by exists os, s'.
Qed.

(** C14: the timer.  A tick while a thread of the kernel runs changes nothing;
    one while a user thread runs takes a unit from its time slice, and at the
    end of the slice the slice is renewed and a rotation of the queue of the
    thread is handed to the thread for delayed calls, with a request for a
    dispatch, unless the queue of delayed calls is full. *)
Theorem tick_correct k Q : kernel_at k Q -> wp tick k (λ _ k', kernel_at k' Q /\ tick_rel k k').
Proof. apply tick_spec. Qed.

End Scheduling.

Lemma start_correct_witness : wp (start demo_dummy 0x2000 0) (demo_loaded (H := rings)) (λ r k', r = E_NOMEM \/ r = E_OK /\
    sys_ok (Sys (forget demo_dummy k') ∅) /\ exists a th, running k' = a /\ threads (forget demo_dummy k') = {[a := th]} /\
      node_key th = PORT_IDLE /\ status th = TTS_RUN).
Proof. apply start_correct; [exact demo_loaded_ok|exact demo_dummy_ok]. Defined.

Lemma dispatch_correct_witness :
  wp leave_serialize_and_dispatch (kern demo_peers) (λ _ k', exists th, threads k' !! running k' = Some th /\
    forall b tb, threads k' !! b = Some tb -> ready (status tb) = true -> priority th <= priority tb).
Proof.
  destruct (dispatch_correct _ _ (proj1 (sys_kernel _ demo_peers_ok))) as ([] & k' & E & Q' & th & l & _ & _ & _ & H1 & _ & _ & H2).
  exists tt, k'. split; [exact E|]. exists th. split; [exact H1|exact H2].
Defined.

(** After the ten ticks of its slice the first thread of the process gives way
    to the second. *)
Lemma round_robin_witness :
  exists first second os s', queues_of (lists (kern demo_users)) !! LReady 3 = Some [first; second] /\
    running (kern demo_users) = first /\ sys_run (slice 10) demo_users = Some (os, s') /\ running (kern s') = second.
Proof.
  destruct demo_users_resting as [d Hd].
  destruct (queues_of (lists (kern demo_users)) !! LReady 3) as [[|x [|y []]]|] eqn:Hq; try (vm_compute in Hq; discriminate Hq).
  assert (Hx : running (kern demo_users) = x) by (vm_compute in Hq; injection Hq as <- _; vm_compute; reflexivity).
  destruct (round_robin demo_users (queues_of (lists (kern demo_users))) d 3 [x] y [] [10%nat]) as (os & s' & E & Hrun & _).
  - exact (sys_kernel _ demo_users_ok).
  - exact Hd.
  - vm_compute. reflexivity.
  - exact Hq.
  - intros p Hp. assert (p = 0 \/ p = 1 \/ p = 2) as [-> | [-> | ->]] by (unfold MIN_PRIORITY in Hp; lia); vm_compute; reflexivity.
  - exact Hx.
  - constructor; [|constructor]. rewrite <- Hx. eexists. split; [vm_compute; reflexivity|].
    split; [reflexivity|]. split; [reflexivity|]. split; reflexivity.
  - exists x, y, os, s'. split; [reflexivity|]. split; [exact Hx|]. split; [exact E|exact Hrun].
Defined.

Lemma tick_correct_witness :
  exists th, threads (kern demo_process) !! running (kern demo_process) = Some th /\ is_kthread th = false /\
    wp tick (kern demo_process) (λ _ k', tick_rel (kern demo_process) k').
Proof.
  destruct (threads (kern demo_process) !! running (kern demo_process)) as [th|] eqn:E; [|vm_compute in E; discriminate E].
  exists th. split; [reflexivity|]. split.
  - vm_compute in E. injection E as <-. reflexivity.
  - destruct (tick_correct _ _ (sys_kernel _ demo_process_ok)) as ([] & k' & Ek & _ & Ht). exists tt, k'. split; [exact Ek|exact Ht].
Defined.

(** ** Interprocess communication *)

Section Communication.
Context {P : Platform} `{!KeyMapLaws pf_tree} `{!KernelMemoryLaws pf_memory}.
Implicit Types k : kernel rings.
Implicit Types Q : queues.

(** C6: calling.  [ipc_call] refuses a port that does not exist or is closed
    and a message that is too long without any effect.  Else it reserves a
    rendezvous under a fresh key, or fails and gives back what it had taken
    when keys, memory or the copy of the message fail.  With the rendezvous it
    hands the message to the first receiver of the port and waits for the
    answer, or queues up behind the callers of the port; the invariant holds in
    each case.  The caller is not the idle thread, and the message can be read
    where the call hands it to a receiver: the code does not check that. *)
Theorem ipc_call_correct k Q port_id message size :
  kernel_at k Q -> not_idle k -> port_writable k Q port_id message size ->
  wp (ipc_call port_id message size) k (op_post (call_rel k Q port_id message size)).
Proof. apply ipc_call_spec. Qed.

(** C7: receiving.  [ipc_receive] returns at once with [E_RLWAI] when a flag is
    pending, refuses a port that is not open, takes the message of the first
    caller of the port, which then waits for the answer or, after a send, is
    released, and waits among the receivers when there is no caller; a message
    that cannot be copied leaves everything as it was.  The caller is not the
    idle thread, and the place for the message can be written if there is a
    message: the code does not check that. *)
Theorem ipc_receive_correct k Q port_id message :
  kernel_at k Q -> not_idle k -> port_readable k Q port_id message ->
  wp (ipc_receive port_id message) k (op_post (receive_rel k Q port_id message)).
Proof. apply ipc_receive_spec. Qed.

(** C8: sending and answering.  [ipc_send] without a key in its tag refuses
    ports and messages as a call does, and else hands the message to the first
    receiver of the port or queues the running thread among its callers.  With
    a key whose call has been received, an answer that fits and can be copied
    releases the caller with its size and frees the rendezvous and the key.
    On every other path the rendezvous and the key are freed and nothing else
    changes: an answer that is too long, or whose copy fails, returns [E_PAR]
    and leaves a caller that waits for it waiting, linked to the freed
    rendezvous; a key without a rendezvous, or whose call has not been
    received or has ended, returns [E_OBJ].  The invariant holds afterwards
    unless a thread still waits under the key.  The thread that sends without
    a key is not the idle thread, and the message can be read where it is
    copied. *)
Theorem ipc_send_correct k Q tag message size :
  kernel_at k Q ->
  (if key_of_ipc tag =? 0 then not_idle k /\ port_writable k Q tag message size
   else reply_writable k Q (key_of_ipc tag) message size) ->
  wp (ipc_send tag message size) k (
    if key_of_ipc tag =? 0 then op_post (send_rel k Q tag message size)
    else reply_post k Q (key_of_ipc tag) message size).
Proof.
  intros HK Hg. unfold ipc_send. destruct (key_of_ipc tag =? 0); cbn [negb].
  - destruct Hg. by apply _send_spec.
  - by apply _reply_spec.
Qed.


(** Flags.  [ipc_listen] takes the pending flag or waits for one;
    [ipc_notify] releases a thread that listens or receives and else leaves the
    flag with it, so that a notification is never lost; threads that are
    dormant or unknown are refused. *)
Theorem ipc_flags_correct k Q port_id flg :
  kernel_at k Q ->
  (not_idle k -> wp ipc_listen k (op_post (listen_rel k Q))) /\
  wp (ipc_notify port_id flg) k (op_post (notify_rel k Q port_id flg)).
Proof. intros HK. split; [by apply ipc_listen_spec|by apply ipc_notify_spec]. Qed.

(** Ports.  [ipc_open] opens the port of the running thread once;
    [ipc_close] closes it and releases every thread that called it or receives
    from it with [E_DLT], so that nobody waits at a closed port. *)
Theorem ipc_ports_correct k Q pk :
  kernel_at k Q ->
  wp (ipc_open pk) k (op_post (open_rel k Q pk)) /\ wp ipc_close k (op_post (close_rel k Q)).
Proof. intros HK. split; [by apply ipc_open_spec|by apply ipc_close_spec]. Qed.

(** ** Threads *)

(** C10: creation.  [thread_create] checks the identifier, the attributes and
    the size of the stack before it does anything; an identifier in use or a
    lack of memory fails with nothing kept; on success exactly one record and,
    unless the caller brings one, one page are taken, the register knows the
    thread, and it is dormant or, with [TA_ACT], last in the queue of its
    priority.  The caller's part ([ctsk_ok]): the priority is in range, a user
    thread comes with a page table, and a stack that the caller brings ends a
    live page that is no other thread's stack; the code checks none of it. *)
Theorem thread_create_correct k Q id pk :
  kernel_at k Q -> ctsk_ok k pk -> wp (thread_create id pk) k (op_post (create_rel k Q id pk)).
Proof. apply thread_create_spec. Qed.

(** C13: the end of a thread.  [thread_terminate] makes a thread that is neither
    running nor dormant dormant and takes it off the queue it is on; the thread
    is not the idle one, and if it is the one on the processor it is marked as
    running.  [thread_destroy] gives back the record and the stack of a dormant
    thread and, when nobody waits at the port of the thread, leaves the others
    alone with the invariant.  It does not look at the port: with threads on
    the port's queues (and no dispatch pending) it frees the record all the
    same and leaves the lists as they are, so that those threads stay linked
    to freed memory and wait for ever. *)
Theorem thread_end_correct k Q id :
  kernel_at k Q -> id ≠ PORT_IDLE ->
  ((km_map (thread_tree k) !! id = Some (running k) -> forall th, threads k !! running k = Some th -> status th = TTS_RUN) ->
   wp (thread_terminate id) k (op_post (terminate_rel k Q id))) /\
  ((forall a th, km_map (thread_tree k) !! id = Some a -> threads k !! a = Some th -> status th = TTS_DMT -> port_idle Q a) ->
   wp (thread_destroy id) k (op_post (destroy_rel k Q id))) /\
  (forall a th, km_map (thread_tree k) !! id = Some a -> threads k !! a = Some th -> status th = TTS_DMT ->
   no_request (sync k) = 1 ->
   wp (thread_destroy id) k (λ r k', r = E_OK /\ lists k' = lists k /\ threads k' = delete a (threads k) /\
     km_map (thread_tree k') = delete id (km_map (thread_tree k)) /\
     live_threads (memory k') = live_threads (memory k) ∖ {[a]})).
Proof.
  intros HK Hid. split; [by apply thread_terminate_spec|]. split; [by apply thread_destroy_spec|].
  intros a th Ha Hth Hd Hn. by eapply thread_destroy_strands.
Qed.

(** Starting, suspending and resuming.  A dormant thread starts last in the
    queue of its priority; a suspended thread leaves its ready queue or, while
    it waits, keeps its place in the queue it waits on; resuming undoes either;
    in any other state the calls fail without effect. *)
Theorem thread_control_correct k Q id :
  kernel_at k Q ->
  wp (thread_start id) k (op_post (start_rel k Q id)) /\
  ((forall a, suspend_target k id = Some a -> km_map (thread_tree k) !! PORT_IDLE ≠ Some a) ->
   (suspend_target k id = Some (running k) -> id = TSK_SELF /\
      forall th, threads k !! running k = Some th -> status th = TTS_RUN) ->
   wp (thread_suspend id) k (op_post (λ r k1 Q1,
     match suspend_target k id with
     | None => r = E_NOEXS /\ unchanged k Q k1 Q1
     | Some a => suspend_rel k Q a r k1 Q1
     end))) /\
  wp (thread_resume id) k (op_post (λ r k1 Q1,
    match km_map (thread_tree k) !! id with
    | None => r = E_NOEXS /\ unchanged k Q k1 Q1
    | Some a => resume_rel k Q a r k1 Q1
    end)).
Proof. intros HK. split_and!; [by apply thread_start_spec|by apply thread_suspend_spec|by apply thread_resume_spec]. Qed.

End Communication.

Lemma ipc_call_correct_witness :
  let k := kern demo_client in
  wp (ipc_call 100 0x80060000 8) k (op_post (call_rel k (queues_of (lists k)) 100 0x80060000 8)).
Proof.
  apply ipc_call_correct; [exact (sys_kernel _ demo_client_ok)|exact (proj1 (proj2 accept_call))|].
  apply call_ok_queue; [exact (proj1 (sys_kernel _ demo_client_ok))|exact (proj2 (proj2 accept_call))].
Defined.

Lemma ipc_receive_correct_witness :
  let k := kern demo_opened in
  wp (ipc_receive 100 0x80050000) k (op_post (receive_rel k (queues_of (lists k)) 100 0x80050000)).
Proof.
  apply ipc_receive_correct; [exact (sys_kernel _ demo_opened_ok)|exact (proj1 (proj2 accept_receive))|].
  apply receive_ok_queue; [exact (proj1 (sys_kernel _ demo_opened_ok))|exact (proj2 (proj2 accept_receive))].
Defined.

Lemma ipc_send_correct_witness :
  let k := kern demo_received in
  wp (ipc_send (create_ipc_tag 101 1) 0x80050000 8) k
    (reply_post k (queues_of (lists k)) 1 0x80050000 8).
Proof.
  apply (ipc_send_correct _ _ (create_ipc_tag 101 1)); [exact (sys_kernel _ demo_received_ok)|].
  intros r rp Hr _ _ tp l w Hl Hw. vm_compute in Hr. injection Hr as <-. vm_compute in Hl. injection Hl as <- <-.
  vm_compute in Hw. injection Hw as <-. eexists. vm_compute. reflexivity.
Defined.


Lemma ipc_flags_correct_witness :
  let k := kern demo_waiting in
  wp (ipc_notify 100 EVENT_INTERRUPT) k (op_post (notify_rel k (queues_of (lists k)) 100 EVENT_INTERRUPT)).
Proof. apply ipc_flags_correct. exact (sys_kernel _ demo_waiting_ok). Defined.

Lemma ipc_ports_correct_witness :
  let k := kern demo_opened in wp ipc_close k (op_post (close_rel k (queues_of (lists k)))).
Proof. apply (ipc_ports_correct _ _ None). exact (sys_kernel _ demo_opened_ok). Defined.

Lemma thread_create_correct_witness :
  let k := kern demo_waiting in wp (thread_create 101 client) k (op_post (create_rel k (queues_of (lists k)) 101 client)).
Proof. apply thread_create_correct; [exact (sys_kernel _ demo_waiting_ok)|exact (proj2 accept_client)]. Defined.

Lemma thread_end_correct_witness :
  let k := kern demo_terminated in wp (thread_destroy 100) k (op_post (destroy_rel k (queues_of (lists k)) 100)).
Proof.
  apply (thread_end_correct _ _ 100 (sys_kernel _ demo_terminated_ok)); [by vm_compute|].
  intros a th Ha _ _. vm_compute in Ha. injection Ha as <-. split; vm_compute; by right.
Defined.

Lemma thread_control_correct_witness :
  let k := kern demo_waiting in
  wp (thread_suspend 100) k (op_post (λ r k1 Q1,
     match suspend_target k 100 with
     | None => r = E_NOEXS /\ unchanged k (queues_of (lists k)) k1 Q1
     | Some a => suspend_rel k (queues_of (lists k)) a r k1 Q1
     end)).
Proof.
  refine (proj1 (proj2 (thread_control_correct _ _ 100 (sys_kernel _ demo_waiting_ok))) _ _).
  - intros a Ha. vm_compute in Ha. injection Ha as <-. vm_compute. intros [=].
  - intros Ha. vm_compute in Ha. discriminate Ha.
Defined.
