(* ===== verification/Vnodes.v ===== *)
(** * The open files of a file system (lib/libvfs/vnodes.c, name.c, path.c, flag.c, lib/libnc/copier.c)

    A vnode stands for a file that is in use: it holds the inode in the cache,
    counts who refers to it, and refers to the vnode of the directory it was
    found in.  The vnodes of a file system are chained on one list.  The state
    of the file server is a record, and its code is written in a state monad
    over it; [None] is undefined behaviour, so the use of a vnode after it has
    been given back. *)

From S2P Require Import Prelude Lists Slab Hash CMem CString DiskWords Cache Tfs.

Definition EACCES : Z := 2.
Definition EBUSY : Z := 10.
Definition EEXIST : Z := 20.
Definition EISDIR : Z := 31.
Definition ENAMETOOLONG : Z := 37.
Definition ENODEV : Z := 44.
Definition ENOENT : Z := 45.
Definition ENOMEM : Z := 49.
Definition ENOTDIR : Z := 57.
Definition ENOTEMPTY : Z := 58.
Definition NAME_MAX : Z := 255.

(** sys/stat.h, fcntl.h and sys/unistd.h *)
Definition S_IFMT : Z := 0xf000.
Definition S_IFDIR : Z := 0x4000.
Definition S_IFREG : Z := 0x8000.
Definition DMDIR : Z := 0x80000000.
Definition O_RDONLY : Z := 0.
Definition O_WRONLY : Z := 1.
Definition O_RDWR : Z := 2.
Definition O_ACCMODE : Z := 3.
Definition O_EXEC : Z := 4.
Definition O_APPEND : Z := 0x100.
Definition O_TRUNC : Z := 0x400.
Definition F_OK : Z := 0.
Definition R_OK : Z := 4.
Definition W_OK : Z := 2.
Definition X_OK : Z := 1.

(** ** Objects from a slab

    [slab_alloc] gives the address of a new object, or 0. *)

Class ObjectPool (P : Type) := {
  pool_alloc : P -> option (Z * P);
  pool_free : P -> Z -> option P;
}.

Class ObjectPoolLaws (P : Type) `{!ObjectPool P} := {
  pool_ok : P -> gset Z -> Prop;
  pool_alloc_law p live : pool_ok p live ->
    exists a p', pool_alloc p = Some (a, p') /\ (a = 0 /\ pool_ok p' live \/ a ≠ 0 /\ a ∉ live /\ pool_ok p' ({[a]} ∪ live));
  pool_free_law p live a : pool_ok p live -> a ∈ live -> exists p', pool_free p a = Some p' /\ pool_ok p' (live ∖ {[a]});
}.

Section SlabPool.
Context {G : Type} `{!PageSource G}.

#[export] Instance slab_pool {H} `{!ListOps sloc H} : ObjectPool (slab_t H * G) := {
  pool_alloc p := '(a, s, g) ← slab_alloc p.1 p.2; Some (a, (s, g));
  pool_free p a := slab_free p.1 p.2 a;
}.

(** [vnodes_initialize] and the like: a slab for [max] objects of one size. *)
Definition PAGE_SIZE : Z := 4096.
Definition sizeof_vnode_t : Z := 52.

Definition make_slab {H} `{!ListOps sloc H} (unit max : Z) (h : H) (g : G) : option (slab_t H * G) :=
  '(_, s, g) ← slab_create (Slab unit PAGE_SIZE 1 (slab_max_block max PAGE_SIZE unit) 0 0 0 0 0 h ∅) g; Some (s, g).

Definition vnodes_initialize {H} `{!ListOps sloc H} (max_vnode : Z) (h : H) (g : G) : option (Z * (slab_t H * G)) :=
  s ← make_slab sizeof_vnode_t max_vnode h g; Some (0, s).

End SlabPool.

(** ** The copiers of lib/libnc/copier.c

    A buffer and the place in it; [None] once it has been overrun. *)

Definition copier_t : Type := option (list Z * Z).

Definition copy_to (c : copier_t) (src : list Z) : Z * copier_t :=
  (0, '(buf, p) ← c;
      if p + Z.of_nat (length src) <=? Z.of_nat (length buf) then Some (splice buf (Z.to_nat p) src, p + Z.of_nat (length src)) else None).

Definition copy_from (c : copier_t) (len : Z) : Z * list Z * copier_t :=
  match c with
  | Some (buf, p) =>
      if p + len <=? Z.of_nat (length buf) then (0, take (Z.to_nat len) (drop (Z.to_nat p) buf), Some (buf, p + len)) else (0, [], None)
  | None => (0, [], None)
  end.

(** ** The state *)

(** The [list_t] objects: the member [vnodes] of the file system and the member
    [bros] of each vnode. *)
Inductive vloc := VHead | VBros (a : Z).

#[export] Instance vloc_eq_dec : EqDecision vloc.
Proof. solve_decision. Defined.

#[export] Instance vloc_countable : Countable vloc.
Proof.
  apply (inj_countable' (λ l, match l with VHead => None | VBros a => Some a end) (λ c, match c with None => VHead | Some a => VBros a end)).
  by intros [].
Defined.

(** [getINodeParent] *)
Definition getINodeParent (p : vloc) : option Z := match p with VBros a => Some a | VHead => None end.

(** There is one mounted file system: [n_fs] tells whether the member [fs] has
    been set to it. *)
Record node := Node { n_vnode : vnode_t; n_fs : bool; n_parent : option Z }.

(** The world of the server: what [time_get] reports and what is on the stack
    where a function keeps its buffer, call by call. *)
Class World := {
  time_get : Z -> Z * Z * Z;
  stack : Z -> list Z;
}.

(** A vnode after [memset]. *)
Definition zero_vnode : vnode_t :=
  {| v_index := 0; v_mode := 0; v_uid := 0; v_gid := 0; v_size := 0; v_private := None; v_dirty := false; v_refer_count := 0; v_lock_count := 0 |}.

Definition set_v_refer_count (v : vnode_t) (n : Z) : vnode_t :=
  {| v_index := v_index v; v_mode := v_mode v; v_uid := v_uid v; v_gid := v_gid v; v_size := v_size v; v_private := v_private v;
     v_dirty := v_dirty v; v_refer_count := n; v_lock_count := v_lock_count v |}.
Definition set_v_mode (v : vnode_t) (n : Z) : vnode_t :=
  {| v_index := v_index v; v_mode := n; v_uid := v_uid v; v_gid := v_gid v; v_size := v_size v; v_private := v_private v;
     v_dirty := v_dirty v; v_refer_count := v_refer_count v; v_lock_count := v_lock_count v |}.
Definition set_v_gid (v : vnode_t) (n : Z) : vnode_t :=
  {| v_index := v_index v; v_mode := v_mode v; v_uid := v_uid v; v_gid := n; v_size := v_size v; v_private := v_private v;
     v_dirty := v_dirty v; v_refer_count := v_refer_count v; v_lock_count := v_lock_count v |}.

Definition with_vnode (nd : node) (v : vnode_t) : node := Node v (n_fs nd) (n_parent nd).
Definition with_parent (nd : node) (p : option Z) : node := Node (n_vnode nd) (n_fs nd) p.
Definition refer_more (nd : node) : node := with_vnode nd (set_v_refer_count (n_vnode nd) (u32 (v_refer_count (n_vnode nd) + 1))).

Section State.
Context {D : Type} `{!BlockDevice D} {H : Type} `{!ListOps cloc H} {HH : Type} `{!ListOps hloc HH}.
Context {HV : Type} `{!ListOps vloc HV} {P : Type} `{!ObjectPool P} `{!World}.

Record vstate := VState {
  disk_of : @store D H HH;
  nodes : gmap Z node;
  bros : HV;
  pool : P;
  mem : cmem;
  rootfs : vfs_t;
  root : option Z;
  calls : Z;
}.

Definition set_disk (d : store) (s : vstate) := VState d (nodes s) (bros s) (pool s) (mem s) (rootfs s) (root s) (calls s).
Definition set_nodes (n : gmap Z node) (s : vstate) := VState (disk_of s) n (bros s) (pool s) (mem s) (rootfs s) (root s) (calls s).
Definition set_bros (b : HV) (s : vstate) := VState (disk_of s) (nodes s) b (pool s) (mem s) (rootfs s) (root s) (calls s).
Definition set_pool (p : P) (s : vstate) := VState (disk_of s) (nodes s) (bros s) p (mem s) (rootfs s) (root s) (calls s).
Definition set_mem (m : cmem) (s : vstate) := VState (disk_of s) (nodes s) (bros s) (pool s) m (rootfs s) (root s) (calls s).
Definition set_rootfs (f : vfs_t) (s : vstate) := VState (disk_of s) (nodes s) (bros s) (pool s) (mem s) f (root s) (calls s).
Definition set_root (r : option Z) (s : vstate) := VState (disk_of s) (nodes s) (bros s) (pool s) (mem s) (rootfs s) r (calls s).
Definition set_calls (n : Z) (s : vstate) := VState (disk_of s) (nodes s) (bros s) (pool s) (mem s) (rootfs s) (root s) n.

End State.

Arguments vstate : clear implicits.

Definition V {D H HH HV P : Type} (A : Type) : Type := vstate D H HH HV P -> option (A * vstate D H HH HV P).

#[export] Instance V_ret {D H HH HV P} : MRet (@V D H HH HV P) := λ A x s, Some (x, s).
#[export] Instance V_bind {D H HH HV P} : MBind (@V D H HH HV P) := λ A B f m s,
  match m s with Some (x, s) => f x s | None => None end.

Lemma run_bind {D H HH HV P A B} (m : @V D H HH HV P A) (k : A -> @V D H HH HV P B) s x s' : m s = Some (x, s') -> (m ≫= k) s = k x s'.
Proof. unfold mbind, V_bind. by intros ->. Qed.

(** The next step of a run is known. *)
Ltac vrun := repeat (erewrite run_bind; [|reflexivity]; cbn beta iota).
Ltac vstep H := rewrite (run_bind _ _ _ _ _ H); cbn beta iota.

Ltac vnext t := erewrite run_bind; [|t]; cbn beta iota.

Section Code.
Context {D : Type} `{!BlockDevice D} {H : Type} `{!ListOps cloc H} {HH : Type} `{!ListOps hloc HH}.
Context {HV : Type} `{!ListOps vloc HV} {P : Type} `{!ObjectPool P} `{!World}.
Notation st := (vstate D H HH HV P).
Notation V := (@V D H HH HV P).
Implicit Types s : st.

(** ** Steps *)

Definition undefined {A} : V A := λ _, None.
Definition gets {A} (f : st -> A) : V A := λ s, Some (f s, s).
Definition modify (f : st -> st) : V unit := λ s, Some (tt, f s).
Definition some {A} (o : option A) : V A := λ s, x ← o; Some (x, s).

(** A vnode that has been given back can be neither read nor written. *)
Definition node_at (a : Z) : V node := λ s, nd ← nodes s !! a; Some (nd, s).
Definition upd_node (a : Z) (f : node -> node) : V unit := λ s, nd ← nodes s !! a; Some (tt, set_nodes (<[a := f nd]> (nodes s)) s).
Definition links (f : HV -> option HV) : V unit := λ s, h ← f (bros s); Some (tt, set_bros h s).

Lemma node_at_run a s nd : nodes s !! a = Some nd -> node_at a s = Some (nd, s).
Proof. unfold node_at. by intros ->. Qed.
Lemma upd_node_run a f s nd : nodes s !! a = Some nd -> upd_node a f s = Some (tt, set_nodes (<[a := f nd]> (nodes s)) s).
Proof. unfold upd_node. by intros ->. Qed.
Lemma links_run f s h : f (bros s) = Some h -> links f s = Some (tt, set_bros h s).
Proof. unfold links. by intros ->. Qed.

(** A call of the file system with one vnode, whose member [fs] it follows. *)
Definition on_vnode {A} (a : Z) (f : store -> vfs_t -> vnode_t -> option (A * vnode_t * store)) : V A := λ s,
  nd ← nodes s !! a;
  if n_fs nd then
    '(r, v, d) ← f (disk_of s) (rootfs s) (n_vnode nd);
    Some (r, set_disk d (set_nodes (<[a := with_vnode nd v]> (nodes s)) s))
  else None.

Definition on_disk {A} (f : store -> vfs_t -> option (A * store)) : V A := λ s,
  '(r, d) ← f (disk_of s) (rootfs s); Some (r, set_disk d s).

(** A call of [time_get], and the contents of a buffer on the stack. *)
Definition clock : V (Z * Z * Z) := λ s, Some (time_get (calls s), set_calls (calls s + 1) s).
Definition local_buf : V (list Z) := λ s, Some (stack (calls s), set_calls (calls s + 1) s).

(** A byte of a name, and writing one. *)
Definition char_at (p : Z) : V Z := λ s, c ← mem s !! p; Some (c, s).
Definition put_char (p c : Z) : V unit := λ s, m ← CMem.put8 (mem s) p c; Some (tt, set_mem m s).

(** ** vnodes.c *)

Definition vnodes_create (parent : option Z) : V (option Z) :=
  '(a, p) ← (λ s, r ← pool_alloc (pool s); Some (r, s));
  modify (set_pool p);;
  if a =? 0 then mret None
  else
    modify (λ s, set_nodes (<[a := Node (set_v_refer_count zero_vnode 1) false None]> (nodes s)) s);;
    links (λ h, op_initialize h (VBros a));;
    match parent with
    | None => mret (Some a)
    | Some p => upd_node a (λ nd, with_parent nd (Some p));; upd_node p refer_more;; mret (Some a)
    end.

Definition vnodes_append (a : Z) : V Z :=
  nd ← node_at a;
  if n_fs nd then links (λ h, list_push h VHead (VBros a));; mret 0 else undefined.

(** [vnode] goes back to its slab. *)
Definition discard (a : Z) : V unit :=
  links (λ h, op_remove h (VBros a));;
  p ← (λ s, p ← pool_free (pool s) a; Some (p, s));
  modify (set_pool p);;
  modify (λ s, set_nodes (delete a (nodes s)) s);;
  links (λ h, op_clear h (VBros a)).

Fixpoint remove_up (f : nat) (a : Z) : V Z :=
  match f with
  | O => undefined
  | S f =>
      upd_node a (λ nd, with_vnode nd (set_v_refer_count (n_vnode nd) (u32 (v_refer_count (n_vnode nd) - 1))));;
      nd ← node_at a;
      if v_refer_count (n_vnode nd) =? 0 then
        error_no ← (if n_fs nd then on_vnode a (λ d _ v, tfs_close d v) else mret 0);
        if negb (error_no =? 0) then mret error_no
        else
          match n_parent nd with
          | Some p => remove_up f p;; upd_node a (λ nd, with_parent nd None);; discard a;; mret 0
          | None => discard a;; mret 0
          end
      else mret 0
  end.

(** A chain of parents is no longer than the table. *)
Definition vnodes_remove (a : Z) : V Z := λ s, remove_up (S (stdpp.base.size (nodes s))) a s.

Fixpoint find_loop (f : nat) (p : vloc) (index : Z) : V (option Z) :=
  match f with
  | O => undefined
  | S f =>
      if list_is_edge VHead p then mret None
      else
        a ← some (getINodeParent p);
        nd ← node_at a;
        if v_index (n_vnode nd) =? u32 index then mret (Some a)
        else
          p ← (λ s, p ← op_next (bros s) p; Some (p, s));
          find_loop f p index
  end.

Definition vnodes_find (index : Z) : V (option Z) :=
  p ← (λ s, p ← op_next (bros s) VHead; Some (p, s));
  f ← gets (λ s, S (stdpp.base.size (nodes s)));
  find_loop f p index.

Fixpoint synchronize_loop (f : nat) (p : vloc) : V unit :=
  match f with
  | O => undefined
  | S f =>
      if list_is_edge VHead p then mret tt
      else
        a ← some (getINodeParent p);
        on_vnode a (λ d _ v, tfs_synchronize d v);;
        p ← (λ s, p ← op_next (bros s) p; Some (p, s));
        synchronize_loop f p
  end.

Definition vnodes_synchronize : V unit :=
  p ← (λ s, p ← op_next (bros s) VHead; Some (p, s));
  f ← gets (λ s, S (stdpp.base.size (nodes s)));
  synchronize_loop f p.

(** ** name.c, path.c, flag.c *)

Definition slash : Z := 47.
Definition dot : Z := 46.

Definition vfs_is_valid_name (m : cmem) (name : Z) : option bool :=
  c0 ← m !! name;
  bad ← (if c0 =? 0 then Some true
         else if c0 =? dot then
           c1 ← m !! (name + 1);
           if c1 =? 0 then Some true
           else if c1 =? dot then c2 ← m !! (name + 2); Some (c2 =? 0)
           else Some false
         else Some false);
  if (bad : bool) then Some false
  else o ← strchr m name slash; Some (match o with Some _ => false | None => true end).

Fixpoint skip_slashes (f : nat) (m : cmem) (head : Z) : option Z :=
  match f with
  | O => None
  | S f => c ← m !! head; if c =? slash then skip_slashes f m (head + 1) else Some head
  end.

(** The last component of the path and, if it is set, [*parent_path]. *)
Definition vfs_split_path (m : cmem) (path : Z) : option (Z * option Z * cmem) :=
  head ← skip_slashes (CMem.turns m) m path;
  last ← strrchr m head slash;
  match last with
  | Some last => m ← CMem.put8 m last 0; Some (last + 1, Some head, m)
  | None => Some (head, None, m)
  end.

Definition vfs_check_flags (flags : Z) : bool :=
  let mode := Z.land flags O_ACCMODE in
  ((mode =? O_RDONLY) || (mode =? O_WRONLY) || (mode =? O_RDWR)) &&
  (Z.land flags (Z.lnot (Z.lor (Z.lor O_ACCMODE O_APPEND) O_TRUNC)) =? 0).

End Code.
