(* ===== verification/Directory.v ===== *)
(** * Directories of TFS (lib/libtfs/directory.c, stat.c)

    A directory is a file of entries: the number of an inode, the length of a
    name, the name, and bytes that fill the entry up to a multiple of four.
    Entries are read one by one, looked up by their names, appended, and
    removed by moving the ones behind. *)

From S2P Require Import Prelude Lists Slab Hash CMem CString DiskWords Cache Tfs Vnodes.

Definition TFS_MAXNAMLEN : Z := 255.
Definition TFS_MINNAMLEN : Z := 3.

Definition real_name_len (n : Z) : Z := u32 (n + (TFS_MINNAMLEN - Z.land n TFS_MINNAMLEN)).

(** [sizeof(struct tfs_dir) - TFS_MINNAMLEN], the size of the buffers, and
    [sizeof(struct dirent)]. *)
Definition DIR_HEAD : Z := 5.
Definition DIR_BUF : Z := DIR_HEAD + TFS_MAXNAMLEN.
Definition sizeof_dirent : Z := 260.

(** [struct tfs_dir] in a buffer. *)
Definition d_fileno (buf : list Z) : option Z := DiskWords.get32 buf 0.
Definition d_namlen (buf : list Z) : option Z := buf !! 4%nat.
Definition d_name (buf : list Z) (len : Z) : list Z := take (Z.to_nat len) (drop 5 buf).

(** The [len] bytes of a name in memory. *)
Fixpoint peek (n : nat) (m : cmem) (p : Z) : option (list Z) :=
  match n with
  | O => Some []
  | S n => c ← m !! p; l ← peek n m (p + 1); Some (c :: l)
  end.

Section Code.
Context {D : Type} `{!BlockDevice D} {H : Type} `{!ListOps cloc H} {HH : Type} `{!ListOps hloc HH}.
Context {HV : Type} `{!ListOps vloc HV} {P : Type} `{!ObjectPool P} `{!World}.
Notation st := (vstate D H HH HV P).
Notation V := (@V D H HH HV P).
Implicit Types s : st.

(** [vfs_read] into a buffer on the stack: the result, the size and the
    buffer. *)
Definition read_buf (a : Z) (buf : list Z) (offset : Z) : V (Z * Z * list Z) :=
  now ← clock;
  '(error_no, len, c) ← on_vnode a (λ d fs v,
    '(error_no, len, c, v, d) ← vfs_read copy_to d fs v (Some (buf, 0)) offset DIR_BUF now; Some ((error_no, len, c), v, d));
  '(buf, _) ← some c;
  mret (error_no, len, buf).

(** How the loops read the entry at [offset] and check it: the error they
    return, the end of the directory, or the size of the entry. *)
Inductive entry_read := Failed (error_no : Z) | End | Entry (real_len : Z).

Definition read_entry (a : Z) (buf : list Z) (offset : Z) : V (entry_read * list Z) :=
  '(error_no, len, buf) ← read_buf a buf offset;
  if negb (error_no =? 0) then mret (Failed error_no, buf)
  else if len =? 0 then mret (End, buf)
  else if len <? DIR_HEAD then mret (Failed EINVAL, buf)
  else
    namlen ← some (d_namlen buf);
    let real_len := u32 (DIR_HEAD + real_name_len namlen) in
    if len <? real_len then mret (Failed EINVAL, buf) else mret (Entry real_len, buf).

(** An entry has at least eight bytes. *)
Definition entries (s : st) (a : Z) : nat := match nodes s !! a with Some nd => S (S (Z.to_nat (v_size (n_vnode nd) / 8))) | None => O end.

(** ** tfs_getdents *)

Fixpoint skip_loop (n : nat) (a delta : Z) : V (Z * Z) :=
  match n with
  | O => mret (0, delta)
  | S n =>
      buf ← local_buf;
      '(r, buf) ← read_entry a buf delta;
      match r with
      | Failed error_no => mret (error_no, delta)
      | End => mret (0, delta)
      | Entry real_len => skip_loop n a (u32 (delta + real_len))
      end
  end.

Section Dents.
Context {C : Type} (copy : C -> list Z -> Z * C).

(** [struct dirent] in place of [struct tfs_dir]. *)
Definition to_dirent (buf : list Z) (namlen : Z) : option (list Z) :=
  let buf := splice buf 4 (d_name buf namlen) in
  DiskWords.put8 buf (4 + namlen) 0.

Fixpoint dents_loop (n : nat) (a : Z) (dest : C) (delta length : Z) : V (Z * Z * C) :=
  match n with
  | O => mret (0, length, dest)
  | S n =>
      buf ← local_buf;
      '(r, buf) ← read_entry a buf delta;
      match r with
      | Failed error_no => mret (error_no, length, dest)
      | End => mret (0, length, dest)
      | Entry real_len =>
          namlen ← some (d_namlen buf);
          entry ← some (to_dirent buf namlen);
          dents_loop n a (copy dest entry).2 (u32 (delta + real_len)) (length + sizeof_dirent)
      end
  end.

(** The result, [*length] if it has been set, and the copier. *)
Definition tfs_getdents (a : Z) (dest : C) (offset max : Z) : V (Z * option Z * C) :=
  let skip := offset / sizeof_dirent in
  if negb (offset mod sizeof_dirent =? 0) then mret (EINVAL, None, dest)
  else
    '(error_no, delta) ← skip_loop (Z.to_nat skip) a 0;
    if negb (error_no =? 0) then mret (error_no, None, dest)
    else
      '(error_no, length, dest) ← dents_loop (Z.to_nat (max / sizeof_dirent)) a dest delta 0;
      mret (error_no, Some length, dest).

End Dents.

(** ** tfs_walk *)

(** The loop that looks for a name: 0 with the entry in the buffer. *)
Fixpoint walk_loop (f : nat) (a name name_len : Z) (buf : list Z) (offset : Z) : V (Z * list Z) :=
  match f with
  | O => undefined
  | S f =>
      '(r, buf) ← read_entry a buf offset;
      match r with
      | Failed error_no => mret (error_no, buf)
      | End => mret (ENOENT, buf)
      | Entry real_len =>
          namlen ← some (d_namlen buf);
          l ← (if name_len =? namlen then m ← gets mem; some (peek (Z.to_nat name_len) m name) else mret []);
          if (name_len =? namlen) && bool_decide (l = d_name buf name_len) then mret (0, buf)
          else walk_loop f a name name_len buf (u32 (offset + real_len))
      end
  end.

Definition open_vnode (a ino : Z) : V Z := λ s,
  nd ← nodes s !! a;
  '(r, v, d) ← tfs_open (disk_of s) (rootfs s) ino (n_vnode nd);
  Some (r, set_disk d (set_nodes (<[a := Node v (n_fs nd || (r =? 0)) (n_parent nd)]> (nodes s)) s)).

(** The result and [*node]. *)
Definition tfs_walk (parent name : Z) : V (Z * option Z) :=
  buf ← local_buf;
  m ← gets mem;
  name_len ← some (strlen m name);
  f ← gets (λ s, entries s parent);
  '(error_no, buf) ← walk_loop f parent name name_len buf 0;
  if negb (error_no =? 0) then mret (error_no, None)
  else
    ino ← some (d_fileno buf);
    found ← vnodes_find (s32 ino);
    match found with
    | Some a => upd_node a refer_more;; mret (0, Some a)
    | None =>
        made ← vnodes_create (Some parent);
        match made with
        | None => mret (ENOMEM, None)
        | Some a =>
            error_no ← open_vnode a ino;
            if negb (error_no =? 0) then vnodes_remove a;; mret (error_no, Some a)
            else vnodes_append a;; mret (0, Some a)
        end
    end.

(** ** tfs_create and tfs_append_entry *)

(** [tfs_write] from a buffer. *)
Definition write_buf (a : Z) (buf : list Z) (offset nbytes : Z) : V Z :=
  now ← clock;
  '(error_no, c) ← on_vnode a (λ d fs v,
    '(error_no, _, c, v, d) ← tfs_write copy_from d fs v (Some (buf, 0)) offset nbytes now; Some ((error_no, c), v, d));
  some c;;
  mret error_no.

(** [memcpy] to the member [d_name]: it must not run over the buffer. *)
Definition fill_entry (buf : list Z) (ino : Z) (name : list Z) : option (list Z) :=
  buf ← DiskWords.put32 buf 0 ino;
  buf ← DiskWords.put8 buf 4 (u8 (Z.of_nat (length name)));
  if 5 + Z.of_nat (length name) <=? Z.of_nat (length buf) then Some (splice buf 5 name) else None.

Definition tfs_append_entry (parent name ino : Z) : V Z :=
  buf ← local_buf;
  m ← gets mem;
  name_len ← some (strlen m name);
  l ← some (peek (Z.to_nat name_len) m name);
  buf ← some (fill_entry buf ino l);
  nd ← node_at parent;
  write_buf parent buf (v_size (n_vnode nd)) (u32 (DIR_HEAD + real_name_len name_len)).

Definition allocate_inode (a : Z) : V Z := λ s,
  nd ← nodes s !! a;
  '(r, v, d) ← tfs_allocate_inode (disk_of s) (rootfs s) (n_vnode nd);
  Some (r, set_disk d (set_nodes (<[a := Node v (n_fs nd || (r =? 0)) (n_parent nd)]> (nodes s)) s)).

(** [*p = clock] for some members of the inode, and [dirty = true]. *)
Definition stamp (a : Z) (members : list Z) : V unit :=
  now ← clock;
  on_vnode a (λ d _ v,
    p ← v_private v;
    d ← foldl (λ d i, d ← d; save_time d p i now) (Some d) members;
    Some (tt, set_v_dirty v true, d)).

Definition tfs_create (parent name : Z) : V (Z * option Z) :=
  made ← vnodes_create (Some parent);
  match made with
  | None => mret (ENOMEM, None)
  | Some a =>
      error_no ← allocate_inode a;
      if negb (error_no =? 0) then vnodes_remove a;; mret (error_no, None)
      else
        vnodes_append a;;
        nd ← node_at a;
        error_no ← tfs_append_entry parent name (v_index (n_vnode nd));
        if negb (error_no =? 0) then
          on_vnode a tfs_deallocate_inode;;
          vnodes_remove a;;
          mret (error_no, None)
        else
          stamp a [i_atime; i_ctime; i_mtime];;
          mret (0, Some a)
  end.

(** ** tfs_remove and tfs_remove_entry *)

(** The first loop: 0 with the place and the size of the entry. *)
Fixpoint locate_loop (f : nat) (a index : Z) (buf : list Z) (offset : Z) : V (Z * Z * Z * list Z) :=
  match f with
  | O => undefined
  | S f =>
      '(r, buf) ← read_entry a buf offset;
      match r with
      | Failed error_no => mret (error_no, 0, 0, buf)
      | End => mret (ENOENT, 0, 0, buf)
      | Entry real_len =>
          ino ← some (d_fileno buf);
          if ino =? index then mret (0, offset, real_len, buf) else locate_loop f a index buf (u32 (offset + real_len))
      end
  end.

(** The second loop: the entries behind move. *)
Fixpoint close_up (f : nat) (a delta : Z) (buf : list Z) (offset : Z) : V Z :=
  match f with
  | O => undefined
  | S f =>
      '(r, buf) ← read_entry a buf (u32 (offset + delta));
      match r with
      | Failed error_no => mret error_no
      | End => mret 0
      | Entry real_len =>
          error_no ← write_buf a buf offset real_len;
          if negb (error_no =? 0) then mret error_no else close_up f a delta buf (u32 (offset + real_len))
      end
  end.

Definition tfs_remove_entry (parent a : Z) : V Z :=
  buf ← local_buf;
  f ← gets (λ s, entries s parent);
  nd ← node_at a;
  '(error_no, offset, delta, buf) ← locate_loop f parent (v_index (n_vnode nd)) buf 0;
  if negb (error_no =? 0) then mret error_no
  else
    error_no ← close_up f parent delta buf offset;
    if negb (error_no =? 0) then mret error_no
    else on_vnode parent (λ d fs v, tfs_shorten d fs v (u32 (v_size v - delta))).

Definition tfs_remove (parent a : Z) : V Z :=
  nd ← node_at a;
  let v := n_vnode nd in
  if 1 <? v_refer_count v then mret EBUSY
  else if (Z.land (v_mode v) S_IFMT =? S_IFDIR) && (0 <? v_size v) then mret ENOTEMPTY
  else
    error_no ← tfs_remove_entry parent a;
    if negb (error_no =? 0) then mret error_no
    else
      stamp parent [i_mtime; i_ctime];;
      on_vnode a tfs_deallocate_inode.

(** ** stat.c *)

Record stat := {
  st_dev : Z; st_ino : Z; st_mode : Z; st_nlink : Z; st_uid : Z; st_gid : Z; st_rdev : Z; st_size : Z;
  st_atime : Z; st_mtime : Z; st_ctime : Z; st_blksize : Z; st_blocks : Z;
}.

(** A signed double word of the inode. *)
Definition load64 (d : @store D H HH) (p i : Z) : option Z := lo ← load d p i; hi ← loads d p (i + 1); Some (lo + 2 ^ 32 * hi).

(** [st_size] is signed and has 64 bits, so that the sum does not wrap. *)
Definition tfs_stat (a : Z) : V (Z * stat) :=
  on_vnode a (λ d fs v,
    inode ← v_private v;
    atime ← load64 d inode i_atime;
    mtime ← load64 d inode i_mtime;
    ctime ← load64 d inode i_ctime;
    tfs ← private fs;
    bsize ← loads d tfs fs_bsize;
    bshift ← loads d tfs fs_bshift;
    blocks ← (if decide (0 <= bshift < 64) then Some (Z.shiftr (v_size v + bsize - 1) bshift) else None);
    Some ((0, {| st_dev := channel fs; st_ino := v_index v; st_mode := v_mode v; st_nlink := 1; st_uid := v_uid v; st_gid := v_gid v;
                 st_rdev := 0; st_size := v_size v; st_atime := atime; st_mtime := mtime; st_ctime := ctime; st_blksize := bsize;
                 st_blocks := blocks |}), v, d)).

Definition KEEP : Z := u32 (-1).

Definition tfs_wstat (a : Z) (st : stat) : V Z :=
  modified ← (if negb (st_mode st =? KEEP) then
                upd_node a (λ nd, with_vnode nd (set_v_mode (n_vnode nd) (Z.lor (Z.land (v_mode (n_vnode nd)) S_IFMT) (st_mode st))));; mret true
              else mret false);
  modified ← (if negb (st_gid st =? KEEP) then
                upd_node a (λ nd, with_vnode nd (set_v_gid (n_vnode nd) (st_gid st)));; mret true
              else mret modified);
  if negb (st_size st =? -1) then
    error_no ← on_vnode a (λ d fs v, tfs_shorten d fs v 0);
    if negb (error_no =? 0) then mret error_no else stamp a [i_mtime; i_ctime];; mret 0
  else if (modified : bool) then stamp a [i_ctime];; mret 0
  else mret 0.

End Code.
