(* ===== verification/Vfs.v ===== *)
(** * The virtual file system (lib/libvfs/vfs.c)

    Mounting, the walk along a path with its checks of permission, opening,
    creating and removing.  The operations of the file system are those of TFS
    (the table [vfs_fsops] of lib/libtfs/tfs.c). *)

From S2P Require Import Prelude Lists Slab Hash CMem CString DiskWords Cache Tfs Vnodes Directory.

Definition E_NOMEM : Z := -33.

(** [~(S_IRWXU | S_IRWXG | S_IRWXO)] in an unsigned word *)
Definition RWX_BITS : Z := 0x1ff.
Definition UNMODIFIABLE_MODE_BITS : Z := u32 (Z.lnot RWX_BITS).
(** [S_IRUSR | S_IWUSR | S_IRGRP | S_IWGRP | S_IROTH | S_IWOTH] *)
Definition RW_BITS : Z := 0x1b6.

Record permission := { p_uid : Z; p_gid : Z }.

(** The array [modes] at the index [flags & O_ACCMODE]. *)
Definition modes (i : Z) : Z :=
  if i =? 0 then R_OK else if i =? 1 then W_OK else if i =? 2 then Z.lor R_OK W_OK else F_OK.

Definition vfs_permit (v : vnode_t) (perm : permission) (want : Z) : Z :=
  let need := Z.land want (Z.lor (Z.lor R_OK W_OK) X_OK) in
  let bits := Z.land (v_mode v) need in
  let bits := if p_uid perm =? v_uid v then Z.lor bits (Z.land (Z.shiftr (v_mode v) 6) need) else bits in
  let bits := if p_gid perm =? v_gid v then Z.lor bits (Z.land (Z.shiftr (v_mode v) 3) need) else bits in
  if bits =? need then 0 else EACCES.

Definition is_dir (v : vnode_t) : bool := Z.land (v_mode v) S_IFMT =? S_IFDIR.

Section Code.
Context {D : Type} `{!BlockDevice D} {H : Type} `{!ListOps cloc H} {HH : Type} `{!ListOps hloc HH}.
Context {HV : Type} `{!ListOps vloc HV} {P : Type} `{!ObjectPool P} `{!World}.
Notation st := (vstate D H HH HV P).
Notation V := (@V D H HH HV P).
Implicit Types s : st.

(** [tfs_mount] opens the root in its vnode. *)
Definition mount_root (a : Z) : V Z := λ s,
  nd ← nodes s !! a;
  '(r, fs, v, d) ← tfs_mount (disk_of s) (rootfs s) (n_vnode nd);
  Some (r, set_rootfs fs (set_disk d (set_nodes (<[a := Node v (n_fs nd || (r =? 0)) (n_parent nd)]> (nodes s)) s))).

(** [found] is whether [block_initialize] finds the device; the size of a
    block is that of the cache. *)
Definition vfs_mount (found : bool) (device : Z) : V Z :=
  modify (λ s, set_rootfs {| channel := device; private := private (rootfs s) |} s);;
  if negb found then mret EIO
  else
    made ← vnodes_create None;
    match made with
    | None => mret E_NOMEM
    | Some a =>
        links (λ h, op_initialize h VHead);;
        error_no ← mount_root a;
        if negb (error_no =? 0) then vnodes_remove a;; mret error_no
        else
          modify (set_root (Some a));;
          upd_node a (λ nd, Node (n_vnode nd) true (n_parent nd));;
          vnodes_append a;;
          mret 0
    end.

Definition vfs_unmount : V Z :=
  a ← (λ s, a ← root s; Some (a, s));
  error_no ← vnodes_remove a;
  if negb (error_no =? 0) then mret error_no
  else
    error_no ← on_disk tfs_unmount;
    if negb (error_no =? 0) then mret error_no
    else on_disk (λ d fs, cache_flush d (channel fs) true).

(** The loop over one component of a path: where it stopped, the number of
    characters, and whether the path ends here.  A slash is overwritten. *)
Fixpoint component_loop (f : nat) (p i : Z) : V (Z * Z * bool) :=
  match f with
  | O => mret (p, i, false)
  | S f =>
      c ← char_at p;
      if c =? 0 then mret (p, i, true)
      else if c =? slash then put_char p 0;; mret (p, i, false)
      else component_loop f (p + 1) (i + 1)
  end.

(** [strcmp(head, "..")] *)
Definition is_dotdot (head : Z) : V bool :=
  c0 ← char_at head;
  if negb (c0 =? dot) then mret false
  else
    c1 ← char_at (head + 1);
    if negb (c1 =? dot) then mret false
    else c2 ← char_at (head + 2); mret (c2 =? 0).

(** One step of the walk, from the vnode [parent], of which a reference is
    held, to the component at [head]; on an error the reference is gone. *)
Definition walk_step (first parent head : Z) (perm : permission) : V (Z * Z) :=
  nd ← node_at parent;
  if negb (is_dir (n_vnode nd)) then vnodes_remove parent;; mret (ENOTDIR, parent)
  else
    up ← is_dotdot head;
    if negb up then
      let error_no := vfs_permit (n_vnode nd) perm (Z.lor R_OK X_OK) in
      '(error_no, node) ← (if error_no =? 0 then (if n_fs nd then tfs_walk parent head else undefined) else mret (error_no, None));
      vnodes_remove parent;;
      if negb (error_no =? 0) then mret (error_no, parent) else a ← some node; mret (0, a)
    else
      let pp := default first (n_parent nd) in
      upd_node pp refer_more;;
      vnodes_remove parent;;
      mret (0, pp).

(** The outer loop: the vnode at the end of the path, with a reference. *)
Fixpoint path_loop (f : nat) (first parent p : Z) (perm : permission) : V (Z * Z) :=
  match f with
  | O => undefined
  | S f =>
      let head := p in
      '(p, i, last) ← component_loop (Z.to_nat (NAME_MAX + 1)) p 0;
      if i =? 0 then (if (last : bool) then mret (0, parent) else path_loop f first parent (p + 1) perm)
      else if i =? NAME_MAX + 1 then vnodes_remove parent;; mret (ENAMETOOLONG, parent)
      else
        '(error_no, parent) ← walk_step first parent head perm;
        if negb (error_no =? 0) then mret (error_no, parent)
        else if last then mret (0, parent)
        else path_loop f first parent (p + 1) perm
  end.

(** A path has fewer components than memory has bytes. *)
Definition vfs_walk (parent : option Z) (path flags : Z) (perm : permission) : V (Z * option Z) :=
  match parent with
  | None => mret (ENODEV, None)
  | Some parent =>
      upd_node parent refer_more;;
      m ← gets mem;
      '(error_no, a) ← path_loop (CMem.turns m) parent parent path perm;
      if negb (error_no =? 0) then mret (error_no, None)
      else
        nd ← node_at a;
        let error_no := vfs_permit (n_vnode nd) perm (modes (Z.land flags O_ACCMODE)) in
        if negb (error_no =? 0) then vnodes_remove a;; mret (error_no, Some a) else mret (0, Some a)
  end.

(** What [vfs_open] hands to [vfs_wstat] for [O_TRUNC]. *)
Definition truncation : stat :=
  {| st_dev := 0; st_ino := 0; st_mode := KEEP; st_nlink := 0; st_uid := 0; st_gid := KEEP; st_rdev := 0; st_size := 0; st_atime := 0;
     st_mtime := -1; st_ctime := 0; st_blksize := 0; st_blocks := 0 |}.

Definition vfs_open (a flags : Z) (perm : permission) : V Z :=
  let f := if flags =? O_EXEC then O_RDONLY else flags in
  if negb (vfs_check_flags f) then mret EINVAL
  else
    nd ← node_at a;
    if is_dir (n_vnode nd) && negb (Z.land f O_ACCMODE =? O_RDONLY) then mret EISDIR
    else
      let error_no := vfs_permit (n_vnode nd) perm (if flags =? O_EXEC then X_OK else modes (Z.land flags O_ACCMODE)) in
      if negb (error_no =? 0) then mret error_no
      else if negb (Z.land f O_TRUNC =? 0) then tfs_wstat a truncation
      else mret 0.

(** The mode of a new file. *)
Definition created_mode (mode parent_mode : Z) : Z :=
  if negb (Z.land mode DMDIR =? 0) then Z.lor (Z.land (Z.land mode parent_mode) RWX_BITS) S_IFDIR
  else Z.lor (Z.land (Z.land mode parent_mode) RW_BITS) S_IFREG.

Definition created (v : vnode_t) (mode : Z) (perm : permission) : vnode_t :=
  {| v_index := v_index v; v_mode := mode; v_uid := p_uid perm; v_gid := p_gid perm; v_size := v_size v; v_private := v_private v;
     v_dirty := v_dirty v; v_refer_count := 1; v_lock_count := 0 |}.

Definition vfs_create (parent name flags mode : Z) (perm : permission) : V (Z * option Z) :=
  nd ← node_at parent;
  if negb (is_dir (n_vnode nd)) then mret (ENOTDIR, None)
  else if negb (vfs_permit (n_vnode nd) perm (Z.lor W_OK X_OK) =? 0) then mret (EACCES, None)
  else
    m ← gets mem;
    valid ← some (vfs_is_valid_name m name);
    if negb valid then mret (EINVAL, None)
    else if negb (Z.land mode (Z.land UNMODIFIABLE_MODE_BITS (u32 (Z.lnot DMDIR))) =? 0) then mret (EINVAL, None)
    else if negb (Z.land mode DMDIR =? 0) && negb (Z.land flags O_ACCMODE =? O_RDONLY) then mret (EINVAL, None)
    else
      '(result, node) ← vfs_walk (Some parent) name O_ACCMODE perm;
      if result =? 0 then a ← some node; vnodes_remove a;; mret (EEXIST, None)
      else
        '(result, node) ← tfs_create parent name;
        if negb (result =? 0) then mret (result, None)
        else
          a ← some node;
          nd ← node_at parent;
          upd_node a (λ nd', with_vnode nd' (created (n_vnode nd') (created_mode mode (v_mode (n_vnode nd))) perm));;
          mret (0, Some a).

Definition vfs_remove (a : Z) (perm : permission) : V Z :=
  nd ← node_at a;
  match n_parent nd with
  | None => mret EINVAL
  | Some parent =>
      pd ← node_at parent;
      if negb (is_dir (n_vnode pd)) then mret ENOTDIR
      else if negb (vfs_permit (n_vnode pd) perm (Z.lor W_OK X_OK) =? 0) then mret EACCES
      else if 1 <? v_refer_count (n_vnode nd) then mret EBUSY
      else
        result ← tfs_remove parent a;
        if negb (result =? 0) then mret result
        else vnodes_remove a;; mret 0
  end.

End Code.
