(* ===== verification/FsServer.v ===== *)
(** * The file server (servers/fs, lib/libserv/copier.c, get_path.c)

    Clients attach a session and name files by numbers ("fid") of their own.
    Each request is one message, and is answered with one message to the mount
    server.  The state is that of the file system, the sessions, the files and
    the memory of the clients, which the kernel reaches. *)

From S2P Require Import Prelude Lists Slab Hash AATree CMem CString DiskWords Cache Tfs Vnodes Directory Vfs.

Definition EBADF : Z := 8.
Definition EFAULT : Z := 21.
Definition ENOTSUP : Z := 60.
Definition EPERM : Z := 65.
Definition EPROTO : Z := 67.
Definition NOFID : Z := 0.
Definition MAX_FILE : Z := 32768.
Definition INIT_GID : Z := 0.
Definition MAX_VNODE : Z := 128.
Definition MAX_SESSION : Z := 256.
Definition MAX_TOTAL_FILE : Z := MAX_SESSION * MAX_FILE.
Definition sizeof_session_t : Z := 52.
Definition sizeof_file : Z := 24.
Definition PATH_MAX : Z := 1024.
Definition PORT_FS : Z := 9.
Definition IDENT : Z := 0x5039.
Definition SIGNAL_SYNC : Z := 0x73796e63.

(** The services of the kernel: copying between the server and the memory of
    the thread [id].  Each gives its result and the bytes that have arrived. *)
Class Callers (U : Type) := {
  region_get : U -> Z -> Z -> Z -> Z * list Z;
  region_put : U -> Z -> Z -> list Z -> Z * U;
  region_copy : U -> Z -> Z -> Z -> Z * list Z;
}.

(** What the server sends. *)
Inductive response :=
  | Rerror (token tag ename : Z)
  | Rattach (token tag qid : Z)
  | Rwalk (token tag : Z)
  | Ropen (token tag qid iounit : Z)
  | Rcreate (token tag qid iounit : Z)
  | Rread (token tag count : Z)
  | Rwrite (token tag count : Z)
  | Rclunk (token tag : Z)
  | Rremove (token tag : Z)
  | Rstat (token tag : Z)
  | Rwstat (token tag : Z)
  | Synced (result : Z).

(** A message: its size, the header, and the words behind it.  [q_ipc] is the
    tag the kernel gives. *)
Record request := { q_size : Z; q_ident : Z; q_type : Z; q_token : Z; q_words : list Z; q_ipc : Z }.

Definition unpack_sid (q : request) : Z := Z.land (q_token q) 0xffff.
Definition unpack_tid (q : request) : Z := Z.land (Z.shiftr (q_token q) 16) 0xffff.
Definition word (q : request) (i : nat) : Z := default 0 (q_words q !! i).

(** The members of the requests by their places: [tag] and [fid] are the first
    two everywhere. *)
Definition q_tag (q : request) : Z := word q 0.
Definition q_fid (q : request) : Z := word q 1.
Definition Tattach_afid (q : request) : Z := word q 2.
Definition Tattach_uname (q : request) : Z := word q 3.
Definition Twalk_newfid (q : request) : Z := word q 2.
Definition Twalk_nwname (q : request) : Z := word q 3.
Definition Twalk_wname (q : request) : Z := word q 4.
Definition Topen_mode (q : request) : Z := word q 2.
Definition Tcreate_name (q : request) : Z := word q 2.
Definition Tcreate_perm (q : request) : Z := word q 3.
Definition Tcreate_mode (q : request) : Z := word q 4.
Definition Tio_offset (q : request) : Z := word q 2 + 2 ^ 32 * s32 (word q 3).
Definition Tio_count (q : request) : Z := word q 4.
Definition Tio_data (q : request) : Z := word q 5.
Definition Tstat_stat (q : request) : Z := word q 2.

(** [struct stat] in memory. *)
Definition stat_bytes (t : stat) : list Z :=
  le_bytes 4 (st_dev t) ++ le_bytes 4 (st_ino t) ++ le_bytes 4 (st_mode t) ++ le_bytes 4 (st_nlink t) ++ le_bytes 4 (st_uid t) ++
  le_bytes 4 (st_gid t) ++ le_bytes 4 (st_rdev t) ++ le_bytes 8 (st_size t) ++ le_bytes 8 (st_atime t) ++ le_bytes 8 (st_mtime t) ++
  le_bytes 8 (st_ctime t) ++ le_bytes 4 (st_blksize t) ++ le_bytes 4 (st_blocks t).

Definition sizeof_stat : Z := 68.

Definition field (l : list Z) (i n : nat) : Z := le (take n (drop i l)).
Definition signed64 (x : Z) : Z := if x <? 2 ^ 63 then x else x - 2 ^ 64.

Definition stat_of (l : list Z) : stat :=
  {| st_dev := field l 0 4; st_ino := field l 4 4; st_mode := field l 8 4; st_nlink := field l 12 4; st_uid := field l 16 4; st_gid := field l 20 4;
     st_rdev := field l 24 4; st_size := signed64 (field l 28 8); st_atime := signed64 (field l 36 8); st_mtime := signed64 (field l 44 8);
     st_ctime := signed64 (field l 52 8); st_blksize := field l 60 4; st_blocks := s32 (field l 64 4) |}.

(** The request buffer [req.buf]. *)
Definition REQ_BUF : Z := 0.

Record file := File { f_key : Z; f_vnode : option Z; f_flag : Z }.

(** ** Initialization *)

Section Initialize.
Context {D : Type} `{!BlockDevice D} {H : Type} `{!ListOps cloc H} {HH : Type} `{!ListOps hloc HH} {HV : Type} `{!ListOps vloc HV}.
Context {HS : Type} `{!ListOps sloc HS} {G : Type} `{!PageSource G} `{!World}.

(** [session_initialize]: the slabs of the sessions and of the files. *)
Definition session_initialize (h h' : HS) (g g' : G) : option ((slab_t HS * G) * (slab_t HS * G)) :=
  s ← make_slab sizeof_session_t MAX_SESSION h g;
  f ← make_slab sizeof_file MAX_TOTAL_FILE h' g';
  Some (s, f).

(** [fs_initialize]: the arguments of [cache_initialize], the memory of the
    links, the pages, the memory of the server, and whether there is the
    device. *)
Definition fs_initialize (got_table got_entries : bool) (h : HH) (t : gmap Z (option (Z * Z) * option Z)) (l : H) (dv : D) (hs : HS) (g : G) (b : HV)
    (m : cmem) (found : bool) (device : Z) : option (Z * option (vstate D H HH HV (slab_t HS * G))) :=
  '(r, d) ← cache_initialize got_table got_entries h t l dv;
  match d with
  | None => Some (E_NOMEM, None)
  | Some d =>
      '(r, p) ← vnodes_initialize MAX_VNODE hs g;
      if negb (r =? 0) then Some (E_NOMEM, None)
      else
        '(r, v) ← vfs_mount found device (VState d ∅ b p m {| channel := 0; private := None |} None 0);
        Some (r, Some v)
  end.

End Initialize.

Section Server.
Context {D : Type} `{!BlockDevice D} {H : Type} `{!ListOps cloc H} {HH : Type} `{!ListOps hloc HH}.
Context {HV : Type} `{!ListOps vloc HV} {P : Type} `{!ObjectPool P} `{!World}.
Context {T : Type -> Type} `{!KeyMap T} {PS : Type} `{!ObjectPool PS} {PF : Type} `{!ObjectPool PF} {U : Type} `{!Callers U}.
Notation V := (@V D H HH HV P).

(** The sessions and the files by their addresses; the trees hold addresses. *)
Record session := Session { s_key : Z; s_permission : permission; s_root : option Z; s_files : T Z }.

Record server := Server {
  vs : vstate D H HH HV P;
  sessions : gmap Z session;
  session_tree : T Z;
  session_slab : PS;
  files : gmap Z file;
  file_slab : PF;
  user : U;
  sent : list response;
}.

Definition F (A : Type) : Type := server -> option (A * server).

#[export] Instance F_ret : MRet F := λ A x s, Some (x, s).
#[export] Instance F_bind : MBind F := λ A B f m s, match m s with Some (x, s) => f x s | None => None end.

Lemma frun {A B} (m : F A) (k : A -> F B) s x s' : m s = Some (x, s') -> (m ≫= k) s = k x s'.
Proof. unfold mbind, F_bind. by intros ->. Qed.

Definition set_vs v (s : server) := Server v (sessions s) (session_tree s) (session_slab s) (files s) (file_slab s) (user s) (sent s).
Definition set_sessions m t p (s : server) := Server (vs s) m t p (files s) (file_slab s) (user s) (sent s).
Definition set_files m p (s : server) := Server (vs s) (sessions s) (session_tree s) (session_slab s) m p (user s) (sent s).
Definition set_user u (s : server) := Server (vs s) (sessions s) (session_tree s) (session_slab s) (files s) (file_slab s) u (sent s).
Definition set_sent l (s : server) := Server (vs s) (sessions s) (session_tree s) (session_slab s) (files s) (file_slab s) (user s) l.

(** A step of the file system. *)
Definition vfs {A} (m : V A) : F A := λ s, '(x, v) ← m (vs s); Some (x, set_vs v s).

Definition undef {A} : F A := λ _, None.
Definition ensure {A} (o : option A) : F A := λ s, x ← o; Some (x, s).
Definition session_at (a : Z) : F session := λ s, x ← sessions s !! a; Some (x, s).
Definition upd_session (a : Z) (f : session -> session) : F unit := λ s,
  x ← sessions s !! a; Some (tt, set_sessions (<[a := f x]> (sessions s)) (session_tree s) (session_slab s) s).
Definition file_at (a : Z) : F file := λ s, x ← files s !! a; Some (x, s).
Definition upd_file (a : Z) (f : file -> file) : F unit := λ s, x ← files s !! a; Some (tt, set_files (<[a := f x]> (files s)) (file_slab s) s).

(** Calls of [slab_alloc] and [slab_free] for the files. *)
Definition file_alloc : F Z := λ s, '(f, p) ← pool_alloc (file_slab s); Some (f, set_files (files s) p s).
Definition file_free (f : Z) : F unit := λ s, p ← pool_free (file_slab s) f; Some (tt, set_files (delete f (files s)) p s).
Definition file_new (f : Z) (x : file) : F unit := λ s, Some (tt, set_files (<[f := x]> (files s)) (file_slab s) s).

(** ** reply.c; that [ipc_send] can fail is not seen by the server. *)

Definition reply (r : response) : F unit := λ s, Some (tt, set_sent (sent s ++ [r]) s).
Definition reply_error (token caller_tag error_no : Z) : F unit :=
  reply (Rerror (Z.lor (Z.shiftl PORT_FS 16) (Z.land token 0xffff)) caller_tag error_no).

(** ** session.c *)

Definition with_files (x : session) (t : T Z) : session := Session (s_key x) (s_permission x) (s_root x) t.

Definition session_create (pid : Z) : F (option Z) := λ s,
  '(a, p) ← pool_alloc (session_slab s);
  if a =? 0 then Some (None, set_sessions (sessions s) (session_tree s) p s)
  else
    '(ok, t) ← km_put (session_tree s) pid a;
    if negb ok then p ← pool_free p a; Some (None, set_sessions (sessions s) t p s)
    else Some (Some a, set_sessions (<[a := Session pid {| p_uid := 0; p_gid := 0 |} None km_new]> (sessions s)) t p s).

Definition session_find (pid : Z) : F (option Z) := λ s, Some (km_get (session_tree s) pid, s).

Definition session_find_file (a fd : Z) : F (option Z) := x ← session_at a; mret (km_get (s_files x) fd).

(** The result and [*file]. *)
Definition session_create_file (a fd : Z) : F (Z * option Z) :=
  found ← session_find_file a fd;
  match found with
  | Some _ => mret (EBUSY, None)
  | None =>
      f ← file_alloc;
      if f =? 0 then mret (ENOMEM, None)
      else
        x ← session_at a;
        '(ok, t) ← ensure (km_put (s_files x) fd f);
        if negb (ok : bool) then
          file_free f;;
          mret (EIO, None)
        else
          upd_session a (λ x, with_files x t);;
          file_new f (File fd None 0);;
          mret (0, Some f)
  end.

Definition session_destroy_file (a fd : Z) : F Z :=
  x ← session_at a;
  '(found, t) ← ensure (km_remove (s_files x) fd);
  upd_session a (λ x, with_files x t);;
  match found with
  | None => mret EBADF
  | Some f =>
      y ← file_at f;
      error_no ← match f_vnode y with Some v => vfs (vnodes_remove v) | None => mret 0 end;
      file_free f;;
      mret error_no
  end.

Fixpoint destroy_files (n : nat) (a fd : Z) : F unit :=
  match n with O => mret tt | S n => session_destroy_file a fd;; destroy_files n a (fd + 1) end.

Definition unlist_session (key : Z) : F (option Z) := λ s,
  '(found, t) ← km_remove (session_tree s) key; Some (found, set_sessions (sessions s) t (session_slab s) s).
Definition session_free (a : Z) : F unit := λ s,
  p ← pool_free (session_slab s) a; Some (tt, set_sessions (delete a (sessions s)) (session_tree s) p s).

Definition session_destroy (a : Z) : F unit :=
  x ← session_at a;
  found ← unlist_session (s_key x);
  match found with
  | None => mret tt
  | Some _ =>
      destroy_files (Z.to_nat MAX_FILE) a 0;;
      match s_root x with Some v => vfs (vnodes_remove v);; mret tt | None => mret tt end;;
      session_free a
  end.

(** [get_path]: the string goes to the request buffer. *)
Definition get_path (tid src : Z) : F Z := λ s,
  let '(len, l) := region_copy (user s) tid src PATH_MAX in
  if PATH_MAX <? Z.of_nat (length l) then None
  else
    let s := set_vs (set_mem (CMem.put (mem (vs s)) REQ_BUF l) (vs s)) s in
    Some (if len <? 0 then EFAULT else if len =? 0 then EINVAL else if PATH_MAX <=? len then ENAMETOOLONG else 0, s).

(** The result and the vnode where the path starts. *)
Definition session_get_path (a : Z) (parent : option Z) (tid src : Z) : F (Z * option Z) :=
  result ← get_path tid src;
  if negb (result =? 0) then mret (result, None)
  else
    c ← vfs (char_at REQ_BUF);
    x ← session_at a;
    mret (0, if c =? slash then s_root x else parent).

(** ** The handlers *)

Definition if_attach (q : request) : F unit :=
  let error error_no := reply_error (q_token q) (q_tag q) error_no in
  if negb (Tattach_afid q =? NOFID) then error EINVAL
  else
    made ← session_create (unpack_sid q);
    match made with
    | None => error ENOMEM
    | Some a =>
        '(error_no, made) ← session_create_file a (q_fid q);
        if negb (error_no =? 0) then session_destroy a;; error error_no
        else
          f ← ensure made;
          r ← vfs (gets root);
          upd_session a (λ x, Session (s_key x) {| p_uid := Tattach_uname q; p_gid := INIT_GID |} r (s_files x));;
          v ← ensure r;
          vfs (upd_node v refer_more);;
          upd_file f (λ y, File (f_key y) r O_ACCMODE);;
          nd ← vfs (node_at v);
          reply (Rattach (q_token q) (q_tag q) (v_index (n_vnode nd)))
    end.

(** The session and the file of a request, or the error. *)
Definition find_file (q : request) : F (Z + Z * Z) :=
  found ← session_find (unpack_sid q);
  match found with
  | None => mret (inl EPERM)
  | Some a =>
      found ← session_find_file a (q_fid q);
      mret (match found with None => inl EBADF | Some f => inr (a, f) end)
  end.

(** [file->f_vnode], which must not be [NULL], and the vnode behind it. *)
Definition vnode_of (f : Z) : F (Z * vnode_t) :=
  y ← file_at f;
  v ← ensure (f_vnode y);
  nd ← vfs (node_at v);
  mret (v, n_vnode nd).

(** The vnode that [if_walk] walks to, with a reference. *)
Definition walk_to (q : request) (a f : Z) : F (Z * option Z) :=
  if negb (Twalk_nwname q =? 0) then
    y ← file_at f;
    '(error_no, start) ← session_get_path a (f_vnode y) (unpack_tid q) (Twalk_wname q);
    if negb (error_no =? 0) then mret (error_no, None)
    else x ← session_at a; vfs (vfs_walk start REQ_BUF O_RDONLY (s_permission x))
  else
    '(v, _) ← vnode_of f;
    vfs (upd_node v refer_more);;
    mret (0, Some v).

Definition walk_from (q : request) (a f : Z) : F unit :=
  let error error_no := reply_error (q_token q) (q_tag q) error_no in
  let newfid := Twalk_newfid q in
  if (newfid =? q_fid q) && (Twalk_nwname q =? 0) then reply (Rwalk (q_token q) (q_tag q))
  else
    '(error_no, made) ← (if newfid =? q_fid q then mret (0, None) else session_create_file a newfid);
    if negb (error_no =? 0) then error error_no
    else
      '(error_no, node) ← walk_to q a f;
      if negb (error_no =? 0) then
        match made with Some _ => session_destroy_file a newfid;; mret tt | None => mret tt end;;
        error error_no
      else
        v ← ensure node;
        match made with
        | None => '(old, _) ← vnode_of f; vfs (vnodes_remove old);; mret tt
        | Some _ => mret tt
        end;;
        upd_file (default f made) (λ y, File (f_key y) (Some v) O_ACCMODE);;
        reply (Rwalk (q_token q) (q_tag q)).

Definition if_walk (q : request) : F unit :=
  let error error_no := reply_error (q_token q) (q_tag q) error_no in
  found ← find_file q;
  match found with
  | inl error_no => error error_no
  | inr (a, f) =>
      y ← file_at f;
      if negb (f_flag y =? O_ACCMODE) then error EBADF
      else
        dir ← (if negb (Twalk_nwname q =? 0) then '(_, v) ← vnode_of f; mret (is_dir v) else mret true);
        if negb dir then error ENOTDIR else walk_from q a f
  end.

Definition if_create (q : request) : F unit :=
  let error error_no := reply_error (q_token q) (q_tag q) error_no in
  found ← find_file q;
  match found with
  | inl error_no => error error_no
  | inr (a, f) =>
      y ← file_at f;
      if negb (f_flag y =? O_ACCMODE) then error EBADF
      else
        '(v, vn) ← vnode_of f;
        if negb (is_dir vn) then error ENOTDIR
        else
          '(error_no, start) ← session_get_path a (Some v) (unpack_tid q) (Tcreate_name q);
          if negb (error_no =? 0) then error error_no
          else
            start ← ensure start;
            x ← session_at a;
            '(error_no, node) ← vfs (vfs_create start REQ_BUF (Tcreate_mode q) (Tcreate_perm q) (s_permission x));
            if negb (error_no =? 0) then error error_no
            else
              vfs (vnodes_remove v);;
              upd_file f (λ y, File (f_key y) node (Z.land (Tcreate_mode q) O_ACCMODE));;
              reply (Rcreate (q_token q) (q_tag q) (f_key y) 0)
  end.

Definition if_remove (q : request) : F unit :=
  let error error_no := reply_error (q_token q) (q_tag q) error_no in
  found ← find_file q;
  match found with
  | inl error_no => error error_no
  | inr (a, f) =>
      '(v, _) ← vnode_of f;
      x ← session_at a;
      error_no ← vfs (vfs_remove v (s_permission x));
      session_destroy_file a (q_fid q);;
      if negb (error_no =? 0) then error error_no else reply (Rremove (q_token q) (q_tag q))
  end.

Definition if_open (q : request) : F unit :=
  let error error_no := reply_error (q_token q) (q_tag q) error_no in
  found ← find_file q;
  match found with
  | inl error_no => error error_no
  | inr (a, f) =>
      y ← file_at f;
      if negb (f_flag y =? O_ACCMODE) then error EBUSY
      else
        '(v, vn) ← vnode_of f;
        x ← session_at a;
        error_no ← vfs (vfs_open v (Topen_mode q) (s_permission x));
        if negb (error_no =? 0) then error error_no
        else
          upd_file f (λ y, File (f_key y) (f_vnode y) (Z.land (Topen_mode q) O_ACCMODE));;
          reply (Ropen (q_token q) (q_tag q) (v_index vn) 0)
  end.

Definition if_clunk (q : request) : F unit :=
  let error error_no := reply_error (q_token q) (q_tag q) error_no in
  found ← session_find (unpack_sid q);
  match found with
  | None => error EPERM
  | Some a =>
      error_no ← session_destroy_file a (q_fid q);
      if negb (error_no =? 0) then error error_no else reply (Rclunk (q_token q) (q_tag q))
  end.

(** *** Reading and writing *)

(** The copiers of lib/libserv/copier.c: the memory of the clients and the
    address. *)
Definition copy_to_user (tid : Z) (c : U * Z) (src : list Z) : Z * (U * Z) :=
  let '(error_no, u) := region_put c.1 tid c.2 src in
  if negb (error_no =? 0) then (error_no, (u, c.2)) else (0, (u, c.2 + Z.of_nat (length src))).

Definition copy_from_user (tid : Z) (c : U * Z) (len : Z) : Z * list Z * (U * Z) :=
  let '(error_no, l) := region_get c.1 tid c.2 len in
  if negb (error_no =? 0) then (error_no, l, c) else (0, l, (c.1, c.2 + len)).

(** A step of the file system that copies from or to a client. *)
Definition with_user {A} (data : Z) (m : U * Z -> V (A * (U * Z))) : F A := λ s,
  '(r, c, v) ← m (user s, data) (vs s); Some (r, set_user c.1 (set_vs v s)).

(** [fs_read]: the result and the count. *)
Definition fs_read (tid a offset len : Z) (c : U * Z) : V (Z * Z * (U * Z)) :=
  nd ← node_at a;
  if is_dir (n_vnode nd) then
    '(error_no, n, c) ← tfs_getdents (copy_to_user tid) a c offset len;
    mret (error_no, default 0 n, c)
  else
    now ← clock;
    on_vnode a (λ d fs v,
      '(error_no, n, c, v, d) ← vfs_read (copy_to_user tid) d fs v c offset len now; Some ((error_no, n, c), v, d)).

Definition vfs_write {C} (copy : C -> Z -> Z * list Z * C) (a : Z) (c : C) (offset nbytes : Z) : V (Z * option Z * C) :=
  now ← clock;
  on_vnode a (λ d fs v,
    '(error_no, n, c, v, d) ← tfs_write copy d fs v c offset nbytes now; Some ((error_no, n, c), v, d)).

Definition if_read (q : request) : F unit :=
  let error error_no := reply_error (q_token q) (q_tag q) error_no in
  found ← find_file q;
  match found with
  | inl error_no => error error_no
  | inr (a, f) =>
      y ← file_at f;
      if f_flag y =? O_WRONLY then error EBADF
      else if Tio_offset q <? 0 then error EINVAL
      else
        '(v, _) ← vnode_of f;
        '(error_no, count) ← with_user (Tio_data q) (fs_read (unpack_tid q) v (u32 (Tio_offset q)) (Tio_count q));
        if negb (error_no =? 0) then error error_no else reply (Rread (q_token q) (q_tag q) count)
  end.

(** The request buffer filled with zeros. *)
Definition clear_req_buf : F unit := λ s,
  Some (tt, set_vs (set_mem (CMem.put (mem (vs s)) REQ_BUF (replicate (Z.to_nat PATH_MAX) 0)) (vs s)) s).

(** The gap behind the end of the file is filled first, from the request
    buffer: a gap that is wider than it is read from behind it. *)
Definition fill_gap (v size offset : Z) : F Z :=
  if size <? offset then
    clear_req_buf;;
    '(error_no, _, c) ← vfs (vfs_write copy_from v (Some (replicate (Z.to_nat PATH_MAX) 0, 0)) size (offset - size));
    match c with Some _ => mret error_no | None => undef end
  else mret 0.

Definition if_write (q : request) : F unit :=
  let error error_no := reply_error (q_token q) (q_tag q) error_no in
  found ← find_file q;
  match found with
  | inl error_no => error error_no
  | inr (a, f) =>
      y ← file_at f;
      if f_flag y =? O_RDONLY then error EBADF
      else if Tio_offset q <? 0 then error EINVAL
      else if Tio_count q =? 0 then reply (Rwrite (q_token q) (q_tag q) 0)
      else
        let offset := u32 (Tio_offset q) in
        '(v, vn) ← vnode_of f;
        error_no ← fill_gap v (v_size vn) offset;
        if negb (error_no =? 0) then error error_no
        else
          '(error_no, n) ← with_user (Tio_data q) (λ c, vfs_write (copy_from_user (unpack_tid q)) v c offset (Tio_count q));
          if negb (error_no =? 0) then error error_no
          else n ← ensure n; reply (Rwrite (q_token q) (q_tag q) n)
  end.

(** [struct stat] from the request buffer to the client, and back. *)
Definition put_stat (q : request) (t : stat) : F bool := λ s,
  let '(r, u) := region_put (user s) (unpack_tid q) (Tstat_stat q) (stat_bytes t) in
  Some (negb (r =? 0), set_user u (set_vs (set_mem (CMem.put (mem (vs s)) REQ_BUF (stat_bytes t)) (vs s)) s)).

Definition fetch_stat (q : request) : F (Z * list Z) := λ s,
  let '(r, l) := region_get (user s) (unpack_tid q) (Tstat_stat q) sizeof_stat in
  Some ((r, l), set_vs (set_mem (CMem.put (mem (vs s)) REQ_BUF l) (vs s)) s).

Definition if_stat (q : request) : F unit :=
  let error error_no := reply_error (q_token q) (q_tag q) error_no in
  found ← find_file q;
  match found with
  | inl error_no => error error_no
  | inr (a, f) =>
      '(v, _) ← vnode_of f;
      '(error_no, t) ← vfs (tfs_stat v);
      if negb (error_no =? 0) then error error_no
      else
        failed ← put_stat q t;
        if (failed : bool) then error EFAULT else reply (Rstat (q_token q) (q_tag q))
  end.

Definition if_wstat (q : request) : F unit :=
  let error error_no := reply_error (q_token q) (q_tag q) error_no in
  found ← find_file q;
  match found with
  | inl error_no => error error_no
  | inr (a, f) =>
      '(v, vn) ← vnode_of f;
      x ← session_at a;
      if negb (v_uid vn =? p_uid (s_permission x)) then error EPERM
      else
        '(r, l) ← fetch_stat q;
        if negb (r =? 0) then error EFAULT
        else if negb (Z.land (st_mode (stat_of l)) UNMODIFIABLE_MODE_BITS =? 0) then error EINVAL
        else
          error_no ← vfs (tfs_wstat v (stat_of l));
          if negb (error_no =? 0) then error error_no else reply (Rwstat (q_token q) (q_tag q))
  end.

(** ** main.c *)

(** [func_table]: the handlers with the sizes of their messages. *)
Definition func_table : list ((request -> F unit) * Z) :=
  [(if_attach, 28); (if_walk, 28); (if_open, 20); (if_create, 28); (if_read, 32); (if_write, 32); (if_clunk, 16); (if_remove, 16);
   (if_stat, 20); (if_wstat, 20)].

Definition sizeof_header : Z := 8.
Definition key_of_ipc (tag : Z) : Z := Z.shiftr (u32 tag) 16.

(** The signal: everything goes to the disk. *)
Definition synchronize (q : request) : F unit :=
  vfs vnodes_synchronize;;
  result ← vfs (on_disk (λ d fs, cache_flush d (channel fs) false));
  if negb (key_of_ipc (q_ipc q) =? 0) then reply (Synced result) else mret tt.

(** One turn of the loop of [start]: the message is what [ipc_receive] has
    given; in a message that is too short to have a header, the first word is
    in the place of [ident] and [type]. *)
Definition start_turn (q : request) : F unit :=
  if q_size q <? 0 then mret tt
  else if q_size q <? sizeof_header then
    if (q_size q =? 4) && (q_ident q + 65536 * q_type q =? SIGNAL_SYNC) then synchronize q else reply_error 0 0 EPROTO
  else if negb (q_ident q =? IDENT) then reply_error (q_token q) 0 EPROTO
  else
    match func_table !! Z.to_nat (q_type q) with
    | None => reply_error (q_token q) 0 ENOTSUP
    | Some (call, max) => if q_size q =? max then call q else reply_error (q_token q) 0 EPROTO
    end.

End Server.
