(* ===== verification/DirProofs.v ===== *)
(** * Reading directories

    A directory as a list of entries, a number and a name each, and what the
    loops of lib/libtfs/directory.c find in it. *)

From S2P Require Import Prelude Lists Slab Hash CMem CString DiskWords Cache Tfs TfsBlock TfsFile TfsTheorems Vnodes Directory.

(** ** The copiers *)

Definition got (c : copier_t) : list Z := match c with Some (buf, p) => take (Z.to_nat p) buf | None => [] end.
Definition space (c : copier_t) : Z :=
  match c with
  | Some (buf, p) => if decide (0 <= p <= Z.of_nat (length buf)) then Z.of_nat (length buf) - p else -1
  | None => -1
  end.
Definition unread (c : copier_t) : list Z := match c with Some (buf, p) => drop (Z.to_nat p) buf | None => [] end.

Lemma copy_to_ok c l : Z.of_nat (length l) <= space c ->
  exists c', copy_to c l = (0, c') /\ got c' = got c ++ l /\ space c' = space c - Z.of_nat (length l).
Proof.
  intros Hl. destruct c as [[buf p]|]; cbn [space] in Hl; [|lia]. destruct (decide _) as [Hp|]; [|lia]. unfold copy_to. cbn [mbind option_bind].
  rewrite (proj2 (Z.leb_le _ _)) by lia. eexists. split; [done|]. cbn [got space].
  assert (Hlen : length (splice buf (Z.to_nat p) l) = length buf) by (unfold splice; rewrite !length_app, length_take, length_drop; lia).
  rewrite Hlen, !decide_True by lia. split; [|lia]. unfold splice. rewrite app_assoc, take_app_length'; [done|]. rewrite length_app, length_take. lia.
Qed.

Definition in_bounds (c : copier_t) : Prop := match c with Some (buf, p) => 0 <= p <= Z.of_nat (length buf) | None => False end.

Lemma copy_from_ok c len : in_bounds c -> 0 <= len <= Z.of_nat (length (unread c)) ->
  exists c', copy_from c len = (0, take (Z.to_nat len) (unread c), c') /\ unread c' = drop (Z.to_nat len) (unread c) /\ in_bounds c'.
Proof.
  intros Hc Hl. destruct c as [[buf p]|]; [|done]. cbn [unread in_bounds] in *. rewrite length_drop in Hl.
  unfold copy_from. rewrite (proj2 (Z.leb_le _ _)) by lia. eexists. split; [done|]. cbn [unread in_bounds]. rewrite drop_drop.
  split; [f_equal; lia|lia].
Qed.

(** ** Names in memory *)

Lemma peek_spec m q l : bytes_at m q l -> peek (length l) m q = Some l.
Proof.
  revert q. induction l as [|x l IH]; intros q; cbn [bytes_at peek length]; [done|]. intros [Hx Hl]. rewrite Hx. cbn [mbind option_bind].
  by rewrite IH.
Qed.

(** ** Entries *)

Notation entry := (Z * list Z)%type.

(** The size of an entry, a multiple of four. *)
Definition entry_len (name : list Z) : Z := 8 + 4 * (Z.of_nat (length name) / 4).

Definition entry_head (e : entry) : list Z := le_bytes 4 e.1 ++ Z.of_nat (length e.2) :: e.2.

Definition entry_ok (e : entry) : Prop := is_u32 e.1 /\ (length e.2 <= 255)%nat.

Lemma real_len n : 0 <= n <= 255 -> u32 (DIR_HEAD + real_name_len n) = 8 + 4 * (n / 4).
Proof.
  intros Hn. unfold real_name_len, TFS_MINNAMLEN, DIR_HEAD. change 3 with (Z.ones 2) at 2. rewrite Z.land_ones by lia. change (2 ^ 2) with 4.
  pose proof (Z.div_mod n 4 ltac:(lia)). pose proof (Z.mod_pos_bound n 4 ltac:(lia)).
  rewrite (u32_small (n + _)) by (unfold is_u32; lia). rewrite u32_small by (unfold is_u32; lia). lia.
Qed.

Lemma entry_len_bounds name : (length name <= 255)%nat -> Z.of_nat (length name) + 5 <= entry_len name <= 260 /\ 8 <= entry_len name.
Proof. intros Hn. unfold entry_len. pose proof (Z.div_mod (Z.of_nat (length name)) 4 ltac:(lia)). pose proof (Z.mod_pos_bound (Z.of_nat (length name)) 4 ltac:(lia)). lia. Qed.

Lemma length_entry_head e : length (entry_head e) = (5 + length e.2)%nat.
Proof. unfold entry_head. rewrite length_app, length_le_bytes. done. Qed.

(** What the code sees of a buffer that begins with an entry. *)
Lemma entry_fields buf e : entry_ok e -> take (5 + length e.2) buf = entry_head e ->
  d_fileno buf = Some e.1 /\ d_namlen buf = Some (Z.of_nat (length e.2)) /\ d_name buf (Z.of_nat (length e.2)) = e.2.
Proof.
  intros [Hu Hn] Hb. rewrite <- (take_drop (5 + length e.2) buf), Hb. unfold entry_head. set (rest := drop _ buf). split_and!.
  - unfold d_fileno, DiskWords.get32. rewrite decide_True by (rewrite !length_app, length_le_bytes; lia). change (Z.to_nat (4 * 0)) with 0%nat.
    rewrite drop_0, <- app_assoc, take_app_length' by (by rewrite length_le_bytes). by rewrite le_le_bytes.
  - unfold d_namlen. rewrite <- app_assoc, lookup_app_r by (rewrite length_le_bytes; lia). by rewrite length_le_bytes.
  - unfold d_name. rewrite Nat2Z.id, <- app_assoc. rewrite (drop_app_ge _ _ 5) by (rewrite length_le_bytes; lia). rewrite length_le_bytes. cbn.
    by rewrite drop_0, take_app_length.
Qed.

Section Dir.
Context {D : Type} `{!BlockDevice D, !BlockDeviceLaws D} {HV : Type} `{!ListOps vloc HV} {P : Type} `{!ObjectPool P} `{!World}.
Notation vst := (vstate D crings (gmap hloc (list hloc)) HV P).
Implicit Types s : vst.
Implicit Types f : Z * Z -> list Z.
Implicit Types h : gmap Z (Z * Z * Z * bool).
Context (ch maps total p : Z) (Hgeo : geometry ch maps total).

Notation content := (content ch).
Notation stretch := (stretch ch).

(** The entries [es] fill the bytes from [off] to [stop] of the file. *)
Definition entry_at f (ino off : Z) (e : entry) : Prop :=
  entry_ok e /\ stretch f ino off (5 + Z.of_nat (length e.2)) = entry_head e.

Fixpoint listing f (ino off : Z) (es : list entry) (stop : Z) : Prop :=
  match es with
  | [] => off = stop
  | e :: es => entry_at f ino off e /\ listing f ino (off + entry_len e.2) es stop
  end.

Lemma listing_le f ino off es stop : listing f ino off es stop -> off + 8 * Z.of_nat (length es) <= stop.
Proof.
  revert off. induction es as [|e es IH]; intros off; cbn [listing length]; [lia|]. intros [[[_ Hn] _] Hl%IH]. pose proof (entry_len_bounds e.2 Hn). lia.
Qed.

Lemma stretch_ext f f' ino off len : (forall i, off <= i < off + len -> content f' ino i = content f ino i) -> stretch f' ino off len = stretch f ino off len.
Proof.
  intros He. apply list_fmap_ext. intros i x Hx. apply lookup_seqZ in Hx as [-> Hi]. rewrite He by lia. done.
Qed.

Lemma listing_ext f f' ino off es stop : 0 <= off -> (forall i, off <= i < stop -> content f' ino i = content f ino i) ->
  listing f ino off es stop -> listing f' ino off es stop.
Proof.
  revert off. induction es as [|e es IH]; intros off Hoff He; [done|]. intros Hl. pose proof (listing_le _ _ _ (e :: es) _ Hl) as Hle.
  cbn [listing length] in *. destruct Hl as [[Hok Hs] Hl]. pose proof (entry_len_bounds e.2 (proj2 Hok)) as Hb. pose proof (listing_le _ _ _ _ _ Hl) as Hle2.
  split.
  - split; [done|]. rewrite <- Hs. apply stretch_ext. intros i Hi. apply He. lia.
  - apply IH; [lia| |done]. intros i Hi. apply He. lia.
Qed.

(** ** An open directory *)

Record dir_at s (a : Z) (nd : node) f h (ino : Z) : Prop := {
  da_node : nodes s !! a = Some nd;
  da_fs : n_fs nd = true;
  da_rootfs : rootfs s = fs ch p;
  da_open : opened ch maps total p (disk_of s) f h ino (n_vnode nd);
  da_full pos : 0 <= pos < v_size (n_vnode nd) -> content f ino pos ≠ None;
  da_size : 0 <= v_size (n_vnode nd) <= 512 * PARTS;
}.

(** The same locks are held. *)
Definition same_locks h h' : Prop := (fst <$> h') = (fst <$> h).

(** Reading changes nothing but the time stamp: the vnode may be dirty. *)
Definition same_node (nd nd' : node) : Prop :=
  nd' = with_vnode nd (set_v_dirty (n_vnode nd) (v_dirty (n_vnode nd'))).

Record seen s s' (a : Z) (nd nd' : node) f f' h h' (ino : Z) : Prop := {
  e_nodes : nodes s' = <[a := nd']> (nodes s);
  e_bros : bros s' = bros s;
  e_pool : pool s' = pool s;
  e_mem : mem s' = mem s;
  e_root : root s' = root s;
  e_node : same_node nd nd';
  e_dir : dir_at s' a nd' f' h' ino;
  e_stamp : restamped ch f f' ino;
  e_locks : same_locks h h';
}.

Lemma seen_refl s a nd f h ino : dir_at s a nd f h ino -> seen s s a nd nd f f h h ino.
Proof.
  intros Hd. split; [|done|done|done|done| |done| |done].
  - symmetry. apply insert_id, Hd.
  - unfold same_node, with_vnode, set_v_dirty. by destruct nd as [[]].
  - split; [|done|done]. apply (i_self _ _ _ _ _ _ (p_file _ _ _ _ _ _ _ _ _ (da_open _ _ _ _ _ _ Hd))).
Qed.

Lemma seen_trans s s1 s2 a nd nd1 nd2 f f1 f2 h h1 h2 ino :
  seen s s1 a nd nd1 f f1 h h1 ino -> seen s1 s2 a nd1 nd2 f1 f2 h1 h2 ino -> seen s s2 a nd nd2 f f2 h h2 ino.
Proof.
  intros [A1 A2 A3 A4 A5 A6 A7 A8 A9] [B1 B2 B3 B4 B5 B6 B7 B8 B9]. split; [|congruence..| |done| |].
  - by rewrite B1, A1, insert_insert_eq.
  - unfold same_node in *. rewrite B6, A6. done.
  - by eapply restamped_trans.
  - unfold same_locks in *. congruence.
Qed.

Lemma same_locks_mark h v k n t t' : h !! v = Some (k, n, t) -> same_locks h (<[v := (k, n, t')]> h).
Proof. intros Hv. unfold same_locks. rewrite fmap_insert. cbn [fst]. apply insert_id. by rewrite lookup_fmap, Hv. Qed.

Lemma unheld_same h h' k : same_locks h h' -> unheld h k -> unheld h' k.
Proof.
  intros Hs Hu i n t Hi. assert (E : (fst <$> h') !! i = (fst <$> h) !! i) by (by rewrite Hs). rewrite !lookup_fmap, Hi in E. cbn in E.
  destruct (h !! i) as [[[k' n'] t']|] eqn:Eh; [|done]. injection E as <- <-. by destruct (Hu i n t').
Qed.

Lemma file_same f h h' ino : same_locks h h' -> file ch maps total f h ino -> file ch maps total f h' ino.
Proof.
  intros Hs [F1 F2 F3 F4 F5 F6]. split; [done| | |done|done|done].
  - intros j Hj Hne. destruct (F2 j Hj Hne) as (? & ? & ? & ?). split_and!; [done|done|by eapply unheld_same|done].
  - intros j Hj Hne. destruct (F3 j Hj Hne) as (? & ? & ?). split_and!; [done|by eapply unheld_same|done].
Qed.

(** The bytes of the directory stay. *)
Lemma seen_content s s' a nd nd' f f' h h' ino i : dir_at s a nd f h ino -> seen s s' a nd nd' f f' h h' ino -> 0 <= i < 512 * PARTS ->
  content f' ino i = content f ino i.
Proof. intros Hd Hs Hi. eapply restamped_content; [by apply Hs|by apply (da_open _ _ _ _ _ _ Hd)|done]. Qed.

Lemma seen_listing s s' a nd nd' f f' h h' ino es : dir_at s a nd f h ino -> seen s s' a nd nd' f f' h h' ino ->
  forall off, 0 <= off -> listing f ino off es (v_size (n_vnode nd)) -> listing f' ino off es (v_size (n_vnode nd')).
Proof.
  intros Hd Hs off Hoff Hl. rewrite (e_node _ _ _ _ _ _ _ _ _ _ Hs). cbn [n_vnode with_vnode set_v_dirty v_size].
  apply (listing_ext f); [done| |done]. intros i Hi. eapply seen_content; [done..|]. pose proof (da_size _ _ _ _ _ _ Hd). lia.
Qed.

(** A read through any copier that has the space: it gives the bytes up to the
    end of the file. *)
Lemma on_read_spec {C A} (copy : C -> list Z -> Z * C) (got : C -> list Z) (space : C -> Z)
    (Hcopy : forall c l, Z.of_nat (length l) <= space c -> exists c', copy c l = (0, c') /\ got c' = got c ++ l /\ space c' = space c - Z.of_nat (length l))
    (g : Z -> Z -> C -> A) s a nd f h ino c offset nbytes now : dir_at s a nd f h ino -> 0 <= offset <= v_size (n_vnode nd) -> 0 <= nbytes ->
  let len := Z.min nbytes (v_size (n_vnode nd) - offset) in len <= space c ->
  exists c' s' nd' f' h', on_vnode a (λ d fs v, '(e, n, c, v, d) ← vfs_read copy d fs v c offset nbytes now; Some (g e n c, v, d)) s = Some (g 0 len c', s') /\
    seen s s' a nd nd' f f' h h' ino /\ (if len =? 0 then f' = f else stamped ch f f' ino i_atime now) /\
    got c' = got c ++ stretch f ino offset len /\ space c' = space c - len.
Proof using Hgeo.
  intros Hd Hoff Hnb len Hsp. pose proof Hd as [Hn Hfs Hroot [Hr Hok Hf Hroom (v & n & t & Hv & Hvp)] Hfull Hsize].
  unfold on_vnode. rewrite Hn. cbn [mbind option_bind]. rewrite Hfs, Hroot. unfold vfs_read. destruct (Z.ltb_spec (v_size (n_vnode nd)) offset); [lia|].
  assert ((if v_size (n_vnode nd) - offset <? nbytes then v_size (n_vnode nd) - offset else nbytes) = len) as ->.
  { unfold len. destruct (Z.ltb_spec (v_size (n_vnode nd) - offset) nbytes); lia. }
  destruct (Z.eqb_spec len 0) as [E|E]; cbn [mbind option_bind].
  - rewrite E. eexists c, _, nd, f, h. split; [reflexivity|]. assert (Hid : with_vnode nd (n_vnode nd) = nd) by (by destruct nd).
    split; [|split; [done|]; unfold stretch; cbn; rewrite app_nil_r; split; [done|lia]]. destruct (seen_refl s a nd f h ino Hd) as [_ _ _ _ _ E6 _ E8 E9].
    split; cbn; rewrite ?Hid; [done|done..|exact E6| |exact E8|exact E9].
    split; cbn; [apply lookup_insert_eq|done|done|by split; [..|by exists v, n, t]|done|done].
  - assert (Hl : 0 < len /\ offset + len <= v_size (n_vnode nd)) by (unfold len in *; lia).
    destruct (tfs_read_spec ch maps total p Hgeo copy got space Hcopy (disk_of s) f h v ino n t (n_vnode nd) c offset len
      now Hr Hok Hf Hroom Hv Hvp ltac:(lia) ltac:(lia) ltac:(unfold PARTS in Hsize; lia))
      as (r & size & c' & d & f' & t' & Hrd & Hr' & Hst & Hat & Hs & Hgot & Hspace & Hres).
    assert (r = 0 /\ size = len) as [-> ->].
    { destruct Hres as [?|(_ & Hlt & Hc)]; [done|]. destruct (Hfull (offset + size)); [lia|done]. }
    rewrite Hrd. cbn [mbind option_bind]. destruct (restamped_file ch maps total p Hgeo f f' h ino v n t t' Hst Hok Hf Hv) as (Hok' & Hf' & _).
    rewrite (proj2 (Z.eqb_neq len 0)) in * by done. eexists c', _, _, f', _. split; [reflexivity|]. split; [|split; [exact Hat|done]].
    split; cbn; [reflexivity|done..|done| |done|by eapply same_locks_mark].
    split; cbn; [apply lookup_insert_eq|done|done| | |done].
    + split; [exact Hr'|done|done|by eapply roomy_mark|]. exists v, n, t'. split; [apply lookup_insert_eq|done].
    + intros pos Hpos. rewrite (restamped_content ch maps total f f' h ino pos Hst Hf) by lia. by apply Hfull.
Qed.

Lemma dir_at_calls s a nd f h ino n : dir_at s a nd f h ino -> dir_at (set_calls n s) a nd f h ino.
Proof. intros []. by split. Qed.

Lemma read_buf_spec s a nd f h ino buf offset : dir_at s a nd f h ino -> length buf = 260%nat -> 0 <= offset <= v_size (n_vnode nd) ->
  let len := Z.min 260 (v_size (n_vnode nd) - offset) in
  exists buf' s' nd' f' h', read_buf a buf offset s = Some ((0, len, buf'), s') /\ seen s s' a nd nd' f f' h h' ino /\
    length buf' = 260%nat /\ take (Z.to_nat len) buf' = stretch f ino offset len.
Proof using Hgeo.
  intros Hd Hbuf Hoff len. assert (Hsp : space (Some (buf, 0)) = 260) by (cbn; rewrite Hbuf; rewrite decide_True by lia; lia).
  unfold read_buf. rewrite (run_bind clock _ s _ _ eq_refl). set (s0 := set_calls (calls s + 1) s).
  destruct (on_read_spec copy_to got space copy_to_ok (λ e n c, (e, n, c)) s0 a nd f h ino (Some (buf, 0)) offset DIR_BUF (time_get (calls s))
    (dir_at_calls _ _ _ _ _ _ _ Hd) Hoff ltac:(done) ltac:(rewrite Hsp; unfold DIR_BUF, DIR_HEAD, TFS_MAXNAMLEN; lia))
    as (c & s' & nd' & f' & h' & Hrun & Hs & _ & Hgot & Hspace).
  change (Z.min DIR_BUF (v_size (n_vnode nd) - offset)) with len in *. rewrite (run_bind _ _ _ _ _ Hrun). rewrite Hsp in Hspace.
  destruct c as [[buf' q]|]; cbn [space] in Hspace; [|unfold len in Hspace; lia]. destruct (decide _) as [Hq|]; [|unfold len in Hspace; lia].
  cbn [got] in Hgot. change (Z.to_nat 0) with 0%nat in Hgot. rewrite take_0 in Hgot. cbn [app] in Hgot.
  assert (Hq' : length (take (Z.to_nat q) buf') = Z.to_nat len) by (rewrite Hgot; apply length_stretch). rewrite length_take in Hq'.
  exists buf', s', nd', f', h'. split; [done|]. split; [destruct Hs; by split|]. split; [unfold len in *; lia|]. rewrite <- Hgot. f_equal. unfold len in *. lia.
Qed.

(** The loops at the end of the directory, and at an entry. *)
Lemma read_entry_end s a nd f h ino buf offset : dir_at s a nd f h ino -> length buf = 260%nat -> offset = v_size (n_vnode nd) ->
  exists buf' s' nd' f' h', read_entry a buf offset s = Some ((End, buf'), s') /\ seen s s' a nd nd' f f' h h' ino /\ length buf' = 260%nat.
Proof using Hgeo.
  intros Hd Hbuf ->. pose proof (da_size _ _ _ _ _ _ Hd).
  destruct (read_buf_spec s a nd f h ino buf (v_size (n_vnode nd)) Hd Hbuf ltac:(lia)) as (buf' & s' & nd' & f' & h' & Hr & Hs & Hl & _).
  rewrite Z.sub_diag in Hr. change (Z.min 260 0) with 0 in Hr. exists buf', s', nd', f', h'. unfold read_entry. by vstep Hr.
Qed.

Lemma read_entry_at s a nd f h ino buf offset e : dir_at s a nd f h ino -> length buf = 260%nat -> 0 <= offset ->
  entry_at f ino offset e -> offset + entry_len e.2 <= v_size (n_vnode nd) ->
  exists buf' s' nd' f' h', read_entry a buf offset s = Some ((Entry (entry_len e.2), buf'), s') /\ seen s s' a nd nd' f f' h h' ino /\
    length buf' = 260%nat /\ take (5 + length e.2) buf' = entry_head e /\
    take (Z.to_nat (entry_len e.2)) buf' = stretch f ino offset (entry_len e.2).
Proof using Hgeo.
  intros Hd Hbuf Hoff [Hok He] Hle. pose proof (entry_len_bounds e.2 (proj2 Hok)) as Hb. pose proof (da_size _ _ _ _ _ _ Hd) as Hsize.
  destruct (read_buf_spec s a nd f h ino buf offset Hd Hbuf ltac:(lia)) as (buf' & s' & nd' & f' & h' & Hr & Hs & Hl & Ht).
  set (len := Z.min 260 (v_size (n_vnode nd) - offset)) in *. assert (Hlen : entry_len e.2 <= len) by lia.
  assert (Htake : forall k, 0 <= k <= len -> take (Z.to_nat k) buf' = stretch f ino offset k).
  { intros k Hk. assert (take (Z.to_nat k) buf' = take (Z.to_nat k) (stretch f ino offset len)) as -> by (rewrite <- Ht, take_take; f_equal; lia).
    replace len with (k + (len - k)) by lia. rewrite stretch_app by lia. apply take_app_length'. rewrite length_stretch. lia. }
  assert (Hh : take (5 + length e.2) buf' = entry_head e).
  { rewrite <- He, <- Htake by lia. f_equal. lia. }
  destruct (entry_fields buf' e Hok Hh) as (_ & Hnl & _).
  exists buf', s', nd', f', h'. split; [|by rewrite Htake by lia].
  unfold read_entry. vstep Hr. change (0 =? 0) with true. cbn [negb].
  rewrite (proj2 (Z.eqb_neq len 0)), (proj2 (Z.ltb_ge len DIR_HEAD)) by (unfold DIR_HEAD; lia). rewrite Hnl. vrun. rewrite real_len by (destruct Hok; lia). fold (entry_len e.2). by rewrite (proj2 (Z.ltb_ge len _)) by lia.
Qed.

(** ** Looking up *)

(** The number of the first entry with the name. *)
Definition find_name (name : list Z) (es : list entry) : option Z := fst <$> head (filter (λ e, e.2 = name) es).

Lemma listing_bound f ino off e es stop : listing f ino off (e :: es) stop -> off + entry_len e.2 <= stop.
Proof. intros [_ Hl%listing_le]. lia. Qed.

Lemma walk_loop_spec a ino name nm : forall es fuel s nd f h buf off, dir_at s a nd f h ino -> length buf = 260%nat -> 0 <= off ->
  listing f ino off es (v_size (n_vnode nd)) -> bytes_at (mem s) name nm -> (length es < fuel)%nat ->
  exists r buf' s' nd' f' h', walk_loop fuel a name (Z.of_nat (length nm)) buf off s = Some ((r, buf'), s') /\ seen s s' a nd nd' f f' h h' ino /\
    match find_name nm es with Some i => r = 0 /\ d_fileno buf' = Some i | None => r = ENOENT end.
Proof using Hgeo.
  induction es as [|e es IH]; intros [|fuel] s nd f h buf off Hd Hbuf Hoff Hl Hm Hfuel; [cbn in Hfuel; lia| |cbn in Hfuel; lia|]; cbn [walk_loop].
  - destruct (read_entry_end s a nd f h ino buf off Hd Hbuf Hl) as (buf' & s' & nd' & f' & h' & Hr & Hs & _).
    exists ENOENT, buf', s', nd', f', h'. by vstep Hr.
  - pose proof (listing_bound _ _ _ _ _ _ Hl) as Hle. destruct Hl as [He Hl]. pose proof (da_size _ _ _ _ _ _ Hd) as Hsize.
    destruct (read_entry_at s a nd f h ino buf off e Hd Hbuf Hoff He Hle) as (buf1 & s1 & nd1 & f1 & h1 & Hr & Hs & Hb1 & Hh & _).
    destruct (entry_fields buf1 e (proj1 He) Hh) as (Hno & Hnl & Hname). pose proof (entry_len_bounds e.2 (proj2 (proj1 He))) as Hb.
    vstep Hr. rewrite Hnl. vrun. unfold find_name. rewrite filter_cons.
    assert (Hnext : e.2 ≠ nm -> exists r buf' s' nd' f' h',
      walk_loop fuel a name (Z.of_nat (length nm)) buf1 (u32 (off + entry_len e.2)) s1 = Some ((r, buf'), s') /\ seen s s' a nd nd' f f' h h' ino /\
      match find_name nm es with Some i => r = 0 /\ d_fileno buf' = Some i | None => r = ENOENT end).
    { intros Hne. rewrite u32_small by (unfold is_u32, PARTS in *; lia).
      destruct (IH fuel s1 nd1 f1 h1 buf1 (off + entry_len e.2) (e_dir _ _ _ _ _ _ _ _ _ _ Hs) Hb1 ltac:(lia)) as (r & buf' & s' & nd' & f' & h' & Hw & Hs' & Hres).
      - eapply seen_listing; [done|done|lia|done].
      - by rewrite (e_mem _ _ _ _ _ _ _ _ _ _ Hs).
      - cbn in Hfuel. lia.
      - exists r, buf', s', nd', f', h'. split; [done|]. split; [by eapply seen_trans|done]. }
    destruct (Z.eqb_spec (Z.of_nat (length nm)) (Z.of_nat (length e.2))) as [El|El]; cbn [andb].
    + assert (Hp : (m ← gets mem; some (peek (Z.to_nat (Z.of_nat (length nm))) m name)) s1 = Some (nm, s1)).
      { unfold gets. vrun. rewrite (e_mem _ _ _ _ _ _ _ _ _ _ Hs), Nat2Z.id. unfold some. by rewrite (peek_spec _ _ _ Hm). }
      vstep Hp. rewrite El, Hname. destruct (decide (e.2 = nm)) as [<-|Hne].
      * rewrite bool_decide_true by done. exists 0, buf1, s1, nd1, f1, h1. split; [done|]. split; [done|]. by cbn.
      * rewrite bool_decide_false by congruence. rewrite <- El. by apply Hnext.
    + vrun. rewrite decide_False by congruence. apply Hnext. congruence.
Qed.

(** ** Writing *)

(** [data] has been written to the directory at [off]. *)
Record edited s s' (a : Z) (nd nd' : node) f f' h h' (ino off : Z) (data : list Z) : Prop := {
  x_nodes : nodes s' = <[a := nd']> (nodes s);
  x_bros : bros s' = bros s;
  x_pool : pool s' = pool s;
  x_mem : mem s' = mem s;
  x_root : root s' = root s;
  x_node : exists d, nd' = with_vnode nd (set_v_dirty (set_v_size (n_vnode nd) (v_size (n_vnode nd'))) d);
  x_size : v_size (n_vnode nd') = if decide (data = []) then v_size (n_vnode nd) else Z.max (v_size (n_vnode nd)) (off + Z.of_nat (length data));
  x_dir : dir_at s' a nd' f' h' ino;
  x_grown : grown ch maps total f f' ino;
  x_wrote : wrote ch f f' ino off data;
  x_locks : exists v n t t', h !! v = Some ((ino, ch), n, t) /\ h' = <[v := ((ino, ch), n, t')]> h;
}.

Lemma wrote_stretch f f' ino off data k : wrote ch f f' ino off data -> 0 <= k <= Z.of_nat (length data) -> stretch f' ino off k = take (Z.to_nat k) data.
Proof.
  intros [Hn _] Hk. apply list_eq. intros i. destruct (decide (i < Z.to_nat k)%nat) as [Hi|Hi].
  - rewrite stretch_lookup, Hn, lookup_take_lt by lia. destruct (lookup_lt_is_Some_2 data i) as [x ->]; [lia|done].
  - rewrite !lookup_ge_None_2; [done|rewrite length_take; lia|rewrite length_stretch; lia].
Qed.

(** A write through any copier that delivers its bytes. *)
Lemma on_write_spec {C A} (copy : C -> Z -> Z * list Z * C) (left : C -> list Z) (good : C -> Prop)
    (Hcopy : forall c len, good c -> 0 <= len <= Z.of_nat (length (left c)) ->
       exists c', copy c len = (0, take (Z.to_nat len) (left c), c') /\ left c' = drop (Z.to_nat len) (left c) /\ good c')
    (g : Z -> option Z -> C -> A) s a nd f h ino c offset nbytes now : dir_at s a nd f h ino -> 0 <= nbytes <= Z.of_nat (length (left c)) -> good c ->
  0 <= offset <= v_size (n_vnode nd) -> offset + nbytes < 2 ^ 32 ->
  exists r n c' s' nd' f' h', on_vnode a (λ d fs v, '(e, n, c, v, d) ← tfs_write copy d fs v c offset nbytes now; Some (g e n c, v, d)) s = Some (g r (Some n) c', s') /\
    good c' /\ 0 <= n <= nbytes /\ edited s s' a nd nd' f f' h h' ino offset (take (Z.to_nat n) (left c)) /\
    (r = 0 /\ n = nbytes \/ r = EIO /\ n < nbytes /\ (512 * PARTS <= offset + n \/ (stdpp.base.size (usable ch maps total f') <= 1)%nat)).
Proof using Hgeo.
  intros Hd Hnb Hgood Hoff Hbig. pose proof Hd as [Hn Hfs Hroot [Hr Hok Hf Hroom (v & n & t & Hv & Hvp)] Hfull Hsize].
  unfold on_vnode. rewrite Hn. cbn [mbind option_bind]. rewrite Hfs, Hroot.
  destruct (tfs_write_spec ch maps total p Hgeo copy left good Hcopy (disk_of s) f h v ino n t (n_vnode nd) c offset nbytes now Hr Hok Hf Hroom Hv Hvp
    ltac:(lia) ltac:(lia) ltac:(lia) Hgood) as (r & size & c' & vn & d & f' & t' & Hw & Hr' & Hok' & Hf' & Hc & Hg & Hs & Hwr & Hvn & Hres).
  rewrite Hw. cbn [mbind option_bind].
  set (data := take (Z.to_nat size) (left c)) in *. assert (Hld : length data = Z.to_nat size) by (unfold data; rewrite length_take; lia).
  assert (Hvs : v_size vn = if decide (data = []) then v_size (n_vnode nd) else Z.max (v_size (n_vnode nd)) (offset + Z.of_nat (length data))).
  { rewrite Hvn. destruct (decide (data = [])) as [E|E], (Z.eqb_spec size 0) as [E'|E']; cbn; [done| | |f_equal; lia].
    - rewrite E in Hld. cbn in Hld. lia.
    - destruct E. apply nil_length_inv. lia. }
  assert (Hino : 0 <= ino < total) by (destruct (i_self _ _ _ _ _ _ Hf) as [[? _] _]; destruct Hgeo; lia).
  eexists r, size, c', _, _, f', _. split; [reflexivity|]. split; [done|]. split; [done|]. split; [|exact Hres].
  split; cbn; [reflexivity|done..| |exact Hvs| |done|done|by exists v, n, t, t'].
  - exists (v_dirty vn). unfold with_vnode. f_equal. rewrite Hvn. destruct (size =? 0); [by destruct (n_vnode nd)|done].
  - split; cbn; [apply lookup_insert_eq|done|done| | |].
    + split; [exact Hr'|done|done|by eapply roomy_mark|]. exists v, n, t'. split; [apply lookup_insert_eq|]. rewrite Hvn. by destruct (size =? 0).
    + intros pos Hpos. rewrite Hvs in Hpos. destruct (decide (offset <= pos < offset + Z.of_nat (length data))) as [Hin|Hout].
      * replace pos with (offset + Z.of_nat (Z.to_nat (pos - offset))) by lia. rewrite (o_new _ _ _ _ _ _ Hwr) by lia.
        destruct (lookup_lt_is_Some_2 data (Z.to_nat (pos - offset))) as [x ->]; [lia|done].
      * assert (Hlt : 0 <= pos < v_size (n_vnode nd)) by (destruct (decide (data = [])) as [E|E]; [done|]; lia).
        rewrite (o_old _ _ _ _ _ _ Hwr); [by apply Hfull|lia|by apply Hfull|done].
    + rewrite Hvs. destruct (decide (data = [])) as [E|E]; [done|].
      pose proof (wrote_bound ch maps total Hgeo d f f' _ ino offset data Hr' Hino ltac:(lia) Hwr E). lia.
Qed.

Lemma write_buf_spec s a nd f h ino buf offset nbytes : dir_at s a nd f h ino -> 0 <= nbytes <= Z.of_nat (length buf) -> nbytes <= 2 ^ 31 ->
  0 <= offset <= v_size (n_vnode nd) ->
  exists r n s' nd' f' h', write_buf a buf offset nbytes s = Some (r, s') /\ 0 <= n <= nbytes /\
    edited s s' a nd nd' f f' h h' ino offset (take (Z.to_nat n) buf) /\
    (r = 0 /\ n = nbytes \/ r = EIO /\ n < nbytes /\ (512 * PARTS <= offset + n \/ (stdpp.base.size (usable ch maps total f') <= 1)%nat)).
Proof using Hgeo.
  intros Hd Hnb Hsmall Hoff. unfold write_buf. rewrite (run_bind clock _ s _ _ eq_refl).
  destruct (on_write_spec copy_from unread in_bounds copy_from_ok (λ e _ c, (e, c)) (set_calls (calls s + 1) s) a nd f h ino (Some (buf, 0)) offset nbytes
    (time_get (calls s)) (dir_at_calls _ _ _ _ _ _ _ Hd) ltac:(cbn; rewrite drop_0; lia) ltac:(cbn; lia) Hoff
    ltac:(pose proof (da_size _ _ _ _ _ _ Hd) as Hsize; unfold PARTS in Hsize; lia)) as (r & n & c & s' & nd' & f' & h' & Hrun & Hc & Hn & Hx & Hres).
  rewrite (run_bind _ _ _ _ _ Hrun). destruct c as [c|]; [|done]. cbn [unread] in Hx. rewrite drop_0 in Hx.
  exists r, n, s', nd', f', h'. split; [done|]. split; [done|]. split; [destruct Hx; by split|done].
Qed.

(** The entry in the buffer. *)
Lemma fill_entry_spec buf ino nm : length buf = 260%nat -> entry_ok (ino, nm) ->
  exists buf', fill_entry buf ino nm = Some buf' /\ length buf' = 260%nat /\ take (5 + length nm) buf' = entry_head (ino, nm).
Proof.
  intros Hb [Hu Hn]. cbn [fst snd] in *. unfold fill_entry, DiskWords.put32. rewrite decide_True by lia. cbn [mbind option_bind]. change (Z.to_nat (4 * 0)) with 0%nat.
  set (b1 := splice buf 0 (le_bytes 4 ino)). assert (H1 : length b1 = 260%nat) by (unfold b1; rewrite length_splice; rewrite ?length_le_bytes; lia).
  unfold DiskWords.put8. rewrite decide_True by lia. cbn [mbind option_bind]. change (Z.to_nat 4) with 4%nat. set (b2 := <[4%nat := _]> b1).
  assert (H2 : length b2 = 260%nat) by (unfold b2; by rewrite length_insert). rewrite (proj2 (Z.leb_le _ _)) by lia. eexists. split; [done|].
  split; [rewrite length_splice; lia|]. unfold splice. rewrite app_assoc, take_app_length' by (rewrite length_app, length_take; lia).
  unfold entry_head. cbn [fst snd]. change (le_bytes 4 ino ++ Z.of_nat (length nm) :: nm) with (le_bytes 4 ino ++ [Z.of_nat (length nm)] ++ nm). rewrite app_assoc. f_equal.
  unfold b2, b1, splice. rewrite take_0, length_le_bytes. cbn [app]. rewrite insert_app_r_alt by (rewrite length_le_bytes; lia). rewrite length_le_bytes.
  rewrite take_app_ge by (rewrite length_le_bytes; lia). rewrite length_le_bytes. f_equal. destruct (drop (0 + 4) buf) as [|x l] eqn:E.
  { apply (f_equal length) in E. rewrite length_drop in E. cbn in E. lia. }
  cbn. f_equal. unfold u8. rewrite Z.mod_mod by lia. apply Z.mod_small. lia.
Qed.

Lemma listing_app f ino off es e stop : listing f ino off es stop -> entry_at f ino stop e -> listing f ino off (es ++ [e]) (stop + entry_len e.2).
Proof.
  revert off. induction es as [|x es IH]; intros off; cbn [listing app]; [by intros ->|]. intros [Hx Hl] He. split; [done|]. by apply IH.
Qed.

Context (Hstack : forall n, length (stack n) = 260%nat).

(** [tfs_append_entry] puts the entry behind the others, or leaves a part of
    it when the disk is full. *)
Lemma append_entry_spec s a nd f h ino name nm new es : dir_at s a nd f h ino -> listing f ino 0 es (v_size (n_vnode nd)) -> cstr (mem s) name nm ->
  entry_ok (new, nm) ->
  exists r s' nd' f' h' data, tfs_append_entry a name new s = Some (r, s') /\ edited s s' a nd nd' f f' h h' ino (v_size (n_vnode nd)) data /\
    listing f' ino 0 es (v_size (n_vnode nd)) /\
    (r = 0 /\ listing f' ino 0 (es ++ [(new, nm)]) (v_size (n_vnode nd')) \/
     r = EIO /\ (512 * PARTS < v_size (n_vnode nd) + entry_len nm \/ (stdpp.base.size (usable ch maps total f') <= 1)%nat)).
Proof using Hgeo Hstack.
  intros Hd Hl Hname He. pose proof (da_size _ _ _ _ _ _ Hd) as Hsize. unfold tfs_append_entry. rewrite (run_bind local_buf _ s _ _ eq_refl).
  cbn beta. unfold gets. vrun. cbn [mem set_calls]. rewrite (strlen_spec _ _ _ Hname). vrun. destruct Hname as [Hname _]. apply bytes_at_app in Hname as [Hname _].
  rewrite Nat2Z.id, (peek_spec _ _ _ Hname). vrun.
  destruct (fill_entry_spec (stack (calls s)) new nm (Hstack _) He) as (buf & Hfill & Hbuf & Hhead). rewrite Hfill. vrun.
  assert (Hd' : dir_at (set_calls (calls s + 1) s) a nd f h ino) by (destruct Hd; by split).
  assert (Hna : node_at a (set_calls (calls s + 1) s) = Some (nd, set_calls (calls s + 1) s)) by (unfold node_at; by rewrite (da_node _ _ _ _ _ _ Hd')).
  vstep Hna. destruct He as [Hu Hn]. cbn [fst snd] in Hu, Hn. pose proof (entry_len_bounds nm Hn) as Hb. rewrite real_len by lia. fold (entry_len nm).
  destruct (write_buf_spec _ a nd f h ino buf (v_size (n_vnode nd)) (entry_len nm) Hd' ltac:(lia) ltac:(lia) ltac:(lia))
    as (r & n & s' & nd' & f' & h' & Hw & Hn' & Hx & Hres).
  exists r, s', nd', f', h', (take (Z.to_nat n) buf). split; [exact Hw|].
  assert (Hx' : edited s s' a nd nd' f f' h h' ino (v_size (n_vnode nd)) (take (Z.to_nat n) buf)) by (destruct Hx; by split).
  assert (Hl' : listing f' ino 0 es (v_size (n_vnode nd))).
  { apply (listing_ext f); [done| |done]. intros i Hi. apply (o_old _ _ _ _ _ _ (x_wrote _ _ _ _ _ _ _ _ _ _ _ _ Hx)); [lia|by apply Hd|lia]. }
  split; [done|]. split; [done|]. destruct Hres as [[-> ->]|(-> & Hlt & Hwhy)].
  - left. split; [done|]. assert (Hlen : length (take (Z.to_nat (entry_len nm)) buf) = Z.to_nat (entry_len nm)) by (rewrite length_take; lia).
    assert (v_size (n_vnode nd') = v_size (n_vnode nd) + entry_len (snd (new, nm))) as ->.
    { rewrite (x_size _ _ _ _ _ _ _ _ _ _ _ _ Hx), decide_False by (intros E; rewrite E in Hlen; cbn in Hlen; lia). cbn [snd]. lia. }
    apply listing_app; [done|]. split; [done|]. cbn [snd]. rewrite (wrote_stretch f f' ino _ _ _ (x_wrote _ _ _ _ _ _ _ _ _ _ _ _ Hx)) by lia.
    rewrite take_take, <- Hhead. f_equal. lia.
  - right. split; [done|]. destruct Hwhy as [|]; [left; lia|by right].
Qed.

End Dir.
