(* ===== verification/VfsProofs.v ===== *)
(** * The table of vnodes

    What vnodes.c does to the list of vnodes and to the pool they come from,
    and the walk from a directory to the vnode of an entry. *)

From S2P Require Import Prelude Lists Queues Slab Hash CMem CString DiskWords Cache Tfs TfsBlock TfsFile TfsTheorems Vnodes Directory DirProofs.

#[export] Instance vnode_queueing : Queueing vloc := {
  is_guard g := match g with VHead => true | VBros _ => false end;
  link_of _ := VBros;
}.

#[export] Instance vnode_queueing_laws : QueueingLaws vloc.
Proof. split; [done|]. intros g g' a b. cbn. naive_solver. Qed.

(** The pools that are slabs keep the laws. *)
Section SlabLaws.
Context {G : Type} `{!PageSource G} (bs : Z) `{!PageSourceLaws bs G}.

#[export] Instance slab_pool_laws : ObjectPoolLaws (slab_t srings * G).
Proof.
  refine {| Vnodes.pool_ok (x : slab_t srings * G) (live : gset Z) := exists blocks, slab_in bs x.1 x.2 blocks live |}.
  - intros [s g] live [blocks Hs]. destruct (slab_alloc_spec bs s g blocks live Hs) as (a & s' & g' & blocks' & Ha & _ & _ & Hres).
    exists a, (s', g'). unfold pool_alloc, slab_pool. cbn [fst snd]. rewrite Ha. split; [done|]. destruct Hres as [[? ?]|(? & ? & ?)]; [left|right]; eauto.
  - intros [s g] live a [blocks Hs] Hin. destruct (slab_free_spec bs s g blocks live a Hs Hin) as (s' & g' & blocks' & Ha & _ & _ & Hs').
    exists (s', g'). unfold pool_free, slab_pool. cbn [fst snd]. rewrite Ha. eauto.
Defined.

End SlabLaws.

Section Table.
Context {D : Type} `{!BlockDevice D, !BlockDeviceLaws D} {P : Type} `{!ObjectPool P, !ObjectPoolLaws P} `{!World}.
Notation vst := (vstate D crings (gmap hloc (list hloc)) (rings_of vloc) P).
Implicit Types s : vst.
Implicit Types f : Z * Z -> list Z.
Implicit Types h : gmap Z (Z * Z * Z * bool).

(** The vnodes [l] are on the list of the file system, and the pool has given
    out exactly the vnodes of the table. *)
Record table s (l : list Z) : Prop := {
  tb_list : exists I, qrep (bros s) {[VHead := l]} I;
  tb_nodes a : a ∈ l -> is_Some (nodes s !! a);
  tb_pool : Vnodes.pool_ok (pool s) (dom (nodes s));
}.

Lemma table_size s l : table s l -> (length l <= stdpp.base.size (nodes s))%nat.
Proof.
  intros [[I HQ] Hn _]. pose proof (q_nodup _ _ _ HQ VHead l (lookup_singleton_eq _ _)) as Hnd.
  rewrite <- (size_list_to_set (C := gset Z) l Hnd), <- size_dom. apply subseteq_size. intros a Ha%elem_of_list_to_set. by apply elem_of_dom, Hn.
Qed.

Definition index_of_node s (a : Z) : Z := match nodes s !! a with Some nd => v_index (n_vnode nd) | None => 0 end.

(** [vnodes_find] gives the first vnode of the list with the number. *)

Lemma find_loop_spec s l index : table s l -> forall l2 l1 fuel, l = l1 ++ l2 -> (length l2 < fuel)%nat ->
  find_loop fuel (default VHead (VBros <$> head l2)) index s = Some (head (filter (λ a, index_of_node s a = u32 index) l2), s).
Proof.
  intros Ht. destruct (tb_list _ _ Ht) as [I HQ]. induction l2 as [|a l2 IH]; intros l1 [|fuel] -> Hf; cbn in Hf; [lia| |lia|]; cbn [find_loop].
  - done.
  - change (default VHead (VBros <$> head (a :: l2))) with (VBros a). unfold list_is_edge. rewrite bool_decide_false by done. cbn [getINodeParent].
    destruct (tb_nodes _ _ Ht a ltac:(set_solver)) as [nd Hnd]. rewrite (run_bind (some (Some a)) _ s _ _ eq_refl).
    assert (Hna : node_at a s = Some (nd, s)) by (unfold node_at; by rewrite Hnd). vstep Hna. rewrite filter_cons.
    assert (Hi : index_of_node s a = v_index (n_vnode nd)) by (unfold index_of_node; by rewrite Hnd).
    destruct (Z.eqb_spec (v_index (n_vnode nd)) (u32 index)) as [E|E]; [by rewrite decide_True by congruence|]. rewrite decide_False by congruence.
    pose proof (q_next_member _ _ _ HQ VHead a l1 l2 (lookup_singleton_eq _ _)) as Hx. cbn [link_of vnode_queueing] in Hx.
    erewrite run_bind; [|change (op_next (bros s) (VBros a)) with (ring_next (bros s) (VBros a)); rewrite Hx; reflexivity].
    apply (IH (l1 ++ [a])); [by rewrite <- app_assoc|lia].
Qed.

Lemma vnodes_find_spec s l index : table s l ->
  vnodes_find index s = Some (head (filter (λ a, index_of_node s a = u32 index) l), s).
Proof.
  intros Ht. destruct (tb_list _ _ Ht) as [I HQ]. unfold vnodes_find. pose proof (q_next_guard _ _ _ HQ VHead l (lookup_singleton_eq _ _)) as Hx.
  erewrite run_bind; [|change (op_next (bros s) VHead) with (ring_next (bros s) VHead); rewrite Hx; reflexivity].
  unfold gets. vrun. apply (find_loop_spec s l index Ht l []); [done|]. pose proof (table_size _ _ Ht). lia.
Qed.

(** [vnodes_create] gives a new vnode, which holds a reference to its parent,
    or none. *)
Definition new_node (parent : option Z) : node := Node (set_v_refer_count zero_vnode 1) false parent.

Lemma vnodes_create_spec s l par nd : table s l -> nodes s !! par = Some nd ->
  exists o s', vnodes_create (Some par) s = Some (o, s') /\ table s' l /\ disk_of s' = disk_of s /\ mem s' = mem s /\ rootfs s' = rootfs s /\ root s' = root s /\
    match o with
    | None => nodes s' = nodes s
    | Some a => nodes s !! a = None /\ nodes s' = <[par := refer_more nd]> (<[a := new_node (Some par)]> (nodes s)) /\
        exists I, qrep (bros s') {[VHead := l]} I /\ VBros a ∈ I
    end.
Proof.
  intros [[I HQ] Hn Hp] Hpar. unfold vnodes_create. destruct (pool_alloc_law _ _ Hp) as (a & pl & Ha & Hres).
  erewrite run_bind; [|rewrite Ha; reflexivity]. cbn beta iota. unfold modify at 1. vrun. destruct (Z.eqb_spec a 0) as [E|E].
  { destruct Hres as [[_ Hp']|[? _]]; [|done]. eexists None, _. split; [reflexivity|]. by repeat split; [exists I|..]. }
  destruct Hres as [[? _]|(_ & Hfresh & Hp')]; [done|]. apply not_elem_of_dom in Hfresh. assert (Hne : par ≠ a) by congruence.
  assert (Hoff : off {[VHead := l]} VHead a).
  { intros g' l' Hl' _ Hin. apply lookup_singleton_Some in Hl' as [<- <-]. destruct (Hn a Hin). congruence. }
  destruct (q_initialize_link _ _ _ HQ VHead a Hoff) as (A' & HA & HQ'). cbn [link_of vnode_queueing] in HA, HQ'.
  unfold modify. vrun. vnext ltac:(apply links_run; exact HA). vnext ltac:(apply upd_node_run; cbn; apply lookup_insert_eq).
  vnext ltac:(apply upd_node_run; cbn; rewrite !lookup_insert_ne by done; exact Hpar).
  eexists (Some a), _. split; [reflexivity|]. cbn [nodes set_nodes set_pool set_bros bros pool disk_of mem rootfs root].
  split; [|do 4 (split; [done|])].
  - split; cbn; [by eexists|intros b Hb; destruct (Hn b Hb) as [x Hx]; rewrite !lookup_insert; repeat case_decide; eauto|].
    rewrite !dom_insert_L. replace ({[par]} ∪ ({[a]} ∪ ({[a]} ∪ dom (nodes s)))) with ({[a]} ∪ dom (nodes s)); [done|].
    assert (par ∈ dom (nodes s)) by (by apply elem_of_dom_2 in Hpar). set_solver.
  - split; [done|]. split; [by rewrite insert_insert_eq|]. exists ({[VBros a]} ∪ I). split; [done|set_solver].
Qed.

(** [vnodes_append] puts it in front. *)
Lemma vnodes_append_spec s l a nd I : table s l -> nodes s !! a = Some nd -> n_fs nd = true -> a ∉ l -> qrep (bros s) {[VHead := l]} I ->
  exists s', vnodes_append a s = Some (0, s') /\ table s' (a :: l) /\ nodes s' = nodes s /\ disk_of s' = disk_of s /\ mem s' = mem s /\
    rootfs s' = rootfs s /\ root s' = root s.
Proof.
  intros [_ Hn Hp] Ha Hfs Hin HQ. unfold vnodes_append. assert (Hna : node_at a s = Some (nd, s)) by (unfold node_at; by rewrite Ha). vstep Hna. rewrite Hfs.
  assert (Hoff : off {[VHead := l]} VHead a) by (intros g' l' Hl' _; apply lookup_singleton_Some in Hl' as [<- <-]; done).
  destruct (q_push _ _ _ HQ VHead a l (lookup_singleton_eq _ _) Hoff) as (A' & HA & HQ'). cbn [link_of vnode_queueing] in HA.
  vnext ltac:(apply links_run; exact HA).
  eexists. split; [reflexivity|]. cbn. split; [|done]. split; cbn; [exists I; by rewrite insert_singleton_eq in HQ'| |done].
  intros b [->|Hb]%elem_of_cons; [by exists nd|by apply Hn].
Qed.

End Table.
