(* ===== verification/VfsTheorems.v ===== *)
(** * Theorems on directories, names and permissions

    Looking up and adding entries of directories (lib/libtfs/directory.c) with
    the table of vnodes (lib/libvfs/vnodes.c), and the checks of permission
    (lib/libvfs/vfs.c). *)

From S2P Require Import Prelude Lists Queues Slab Hash CMem CString DiskWords Cache RamDisk Tfs TfsBlock TfsFile TfsTheorems Vnodes Directory Vfs DirProofs VfsProofs.

(** ** Permissions *)

(** C23: [vfs_permit] grants what is asked for when each of the rights to read,
    write and execute that are wanted is given to everybody, or to the group
    if the caller is of the group, or to the owner if the caller is the owner;
    it answers [EACCES] in every other case. *)
Theorem vfs_permit_correct v perm want :
  (vfs_permit v perm want = 0 <->
   forall i, 0 <= i < 3 -> Z.testbit want i = true ->
     Z.testbit (v_mode v) i = true \/ (p_gid perm = v_gid v /\ Z.testbit (v_mode v) (i + 3) = true) \/
     (p_uid perm = v_uid v /\ Z.testbit (v_mode v) (i + 6) = true)) /\
  (vfs_permit v perm want = 0 \/ vfs_permit v perm want = EACCES).
Proof.
  unfold vfs_permit. change (Z.lor (Z.lor R_OK W_OK) X_OK) with (Z.ones 3). set (need := Z.land want (Z.ones 3)).
  set (b0 := Z.land (v_mode v) need).
  set (b1 := if p_uid perm =? v_uid v then Z.lor b0 (Z.land (Z.shiftr (v_mode v) 6) need) else b0).
  set (b2 := if p_gid perm =? v_gid v then Z.lor b1 (Z.land (Z.shiftr (v_mode v) 3) need) else b1).
  assert (Hneed : forall i, 0 <= i -> Z.testbit need i = Z.testbit want i && (i <? 3)).
  { intros i Hi. unfold need. rewrite Z.land_spec. destruct (Z.ltb_spec i 3); [by rewrite Z.ones_spec_low by lia|by rewrite Z.ones_spec_high by lia]. }
  assert (Hb2 : forall i, 0 <= i -> Z.testbit b2 i = Z.testbit need i &&
    (Z.testbit (v_mode v) i || ((p_uid perm =? v_uid v) && Z.testbit (v_mode v) (i + 6)) || ((p_gid perm =? v_gid v) && Z.testbit (v_mode v) (i + 3)))).
  { intros i Hi. unfold b2, b1, b0. destruct (p_uid perm =? v_uid v), (p_gid perm =? v_gid v);
      rewrite ?Z.lor_spec, ?Z.land_spec, ?Z.shiftr_spec by lia; cbn [andb]; destruct (Z.testbit need i), (Z.testbit (v_mode v) i); cbn;
      rewrite ?andb_false_r, ?andb_true_r, ?orb_false_r; done. }
  split; [|destruct (b2 =? need); [by left|by right]]. destruct (Z.eqb_spec b2 need) as [E|E]; split; try done.
  - intros _ i Hi Hw. pose proof (Hb2 i ltac:(lia)) as Hb. rewrite E, Hneed, Hw, (proj2 (Z.ltb_lt i 3)) in Hb by lia. cbn [andb] in Hb. symmetry in Hb.
    rewrite !orb_true_iff, !andb_true_iff, !Z.eqb_eq in Hb. tauto.
  - intros Hall. destruct E. apply Z.bits_inj'. intros i Hi. rewrite Hb2 by done. destruct (Z.testbit need i) eqn:En; [|done]. cbn [andb].
    rewrite Hneed, andb_true_iff, Z.ltb_lt in En by done. destruct En as [Hw Hi3].
    rewrite !orb_true_iff, !andb_true_iff, !Z.eqb_eq. specialize (Hall i ltac:(lia) Hw). tauto.
Qed.

(** ** Directories *)

Section Directories.
Context {D : Type} `{!BlockDevice D, !BlockDeviceLaws D} {P : Type} `{!ObjectPool P, !ObjectPoolLaws P} `{!World}.
Notation vst := (vstate D crings (gmap hloc (list hloc)) (rings_of vloc) P).
Implicit Types s : vst.
Implicit Types f : Z * Z -> list Z.
Implicit Types h : gmap Z (Z * Z * Z * bool).
Context (ch maps total p : Z).

(** The vnode of the inode [i] that is in the buffer [q]. *)
Definition inode_vnode f (i q : Z) : vnode_t :=
  {| v_index := wd ch f i i_inumber; v_mode := wd ch f i i_mode; v_uid := wd ch f i i_uid; v_gid := wd ch f i i_gid; v_size := wd ch f i i_size;
     v_private := Some q; v_dirty := false; v_refer_count := 1; v_lock_count := 0 |}.

Lemma open_vnode_spec s a nd f h i : geometry ch maps total -> nodes s !! a = Some nd -> rootfs s = fs ch p -> refines (disk_of s) (Blocks f h) ->
  roomy h -> 0 <= i < total -> unheld h (i, ch) ->
  exists q d, open_vnode a i s = Some (0, set_disk d (set_nodes (<[a := Node (inode_vnode f i q) true (n_parent nd)]> (nodes s)) s)) /\
    h !! q = None /\ refines d (Blocks f (<[q := ((i, ch), 1, false)]> h)).
Proof.
  intros Hgeo Ha Hroot Hr Hroom Hi Hu. pose proof Hgeo as [G1 G2 G3]. unfold open_vnode. rewrite Ha, Hroot. cbn [mbind option_bind]. unfold tfs_open.
  destruct (get_spec (disk_of s) f h ch i Hr ltac:(apply G3; lia) ltac:(lia) Hu) as (o & d & Hg & Hd). cbn [channel TfsBlock.fs]. rewrite Hg. cbn [mbind option_bind].
  destruct o as [q|]; [|destruct Hd as [_ Hw]; by destruct (roomy_serves f h Hroom)]. destruct Hd as [Hd Hq].
  assert (Hl : forall j, 0 <= j < 128 -> load d q j = Some (wd ch f i j)).
  { intros j Hj. apply (inode_load ch maps total Hgeo d f _ q i 1 false j Hd); [apply lookup_insert_eq|done|done]. }
  rewrite !Hl by done. cbn [mbind option_bind]. exists q, d. by rewrite orb_true_r.
Qed.

Lemma seen_table s s' a nd nd' f f' h h' ino l : seen ch maps total p s s' a nd nd' f f' h h' ino -> nodes s !! a = Some nd -> table s l -> table s' l.
Proof.
  intros Hs Ha [HQ Hn Hp]. split.
  - by rewrite (e_bros _ _ _ _ _ _ _ _ _ _ _ _ _ _ Hs).
  - intros b Hb. rewrite (e_nodes _ _ _ _ _ _ _ _ _ _ _ _ _ _ Hs), lookup_insert. case_decide; [by eexists|by apply Hn].
  - rewrite (e_pool _ _ _ _ _ _ _ _ _ _ _ _ _ _ Hs), (e_nodes _ _ _ _ _ _ _ _ _ _ _ _ _ _ Hs), dom_insert_lookup_L by (by rewrite Ha). done.
Qed.

Lemma seen_index s s' a nd nd' f f' h h' ino b : seen ch maps total p s s' a nd nd' f f' h h' ino -> nodes s !! a = Some nd -> index_of_node s' b = index_of_node s b.
Proof.
  intros Hs Ha. unfold index_of_node. rewrite (e_nodes _ _ _ _ _ _ _ _ _ _ _ _ _ _ Hs), lookup_insert. case_decide as E; [|done]. subst b.
  by rewrite Ha, (e_node _ _ _ _ _ _ _ _ _ _ _ _ _ _ Hs).
Qed.

Context (Hstack : forall n, length (stack n) = 260%nat).

(** The part of [tfs_walk] that reads the directory. *)
Lemma walk_search s a nd f h ino es name nm : geometry ch maps total -> dir_at ch maps total p s a nd f h ino ->
  listing ch f ino 0 es (v_size (n_vnode nd)) -> cstr (mem s) name nm ->
  exists s1 nd1 f1 h1, seen ch maps total p s s1 a nd nd1 f f1 h h1 ino /\
    match find_name nm es with
    | None => tfs_walk a name s = Some ((ENOENT, None), s1)
    | Some i => tfs_walk a name s = (
        found ← vnodes_find (s32 i);
        match found with
        | Some b => upd_node b refer_more;; mret (0, Some b)
        | None =>
            made ← vnodes_create (Some a);
            match made with
            | None => mret (ENOMEM, None)
            | Some b =>
                error_no ← open_vnode b i;
                if negb (error_no =? 0) then vnodes_remove b;; mret (error_no, Some b) else vnodes_append b;; mret (0, Some b)
            end
        end) s1
    end.
Proof using Hstack.
  intros Hgeo Hd Hl Hname. pose proof (da_size _ _ _ _ _ _ _ _ _ _ Hd) as Hsize. pose proof (listing_le _ _ _ _ _ _ Hl) as Hle. unfold tfs_walk.
  rewrite (run_bind local_buf _ s _ _ eq_refl). cbn beta. unfold gets. vrun. cbn [mem set_calls].
  rewrite (strlen_spec _ _ _ Hname). vrun. destruct Hname as [Hname _]. apply bytes_at_app in Hname as [Hname _].
  set (s0 := set_calls (calls s + 1) s). assert (Hd0 : dir_at ch maps total p s0 a nd f h ino) by (destruct Hd; by split).
  assert (Hfuel : (length es < entries s0 a)%nat).
  { unfold entries. rewrite (da_node _ _ _ _ _ _ _ _ _ _ Hd0). pose proof (Z.div_le_lower_bound (v_size (n_vnode nd)) 8 (Z.of_nat (length es)) ltac:(lia) ltac:(lia)). lia. }
  destruct (walk_loop_spec ch maps total p Hgeo a ino name nm es (entries s0 a) s0 nd f h (stack (calls s)) 0 Hd0 (Hstack _) ltac:(lia) Hl Hname Hfuel)
    as (r & buf & s1 & nd1 & f1 & h1 & Hw & Hs & Hres).
  exists s1, nd1, f1, h1. split; [destruct Hs; by split|]. rewrite (run_bind _ _ _ _ _ Hw). cbn beta iota. destruct (find_name nm es) as [i|].
  - destruct Hres as [-> Hno]. change (negb (0 =? 0)) with false. cbn iota. rewrite Hno. vrun. done.
  - by rewrite Hres.
Qed.

(** The part that makes a vnode for the inode [i]. *)
Lemma walk_new s a nd f h ino i l : geometry ch maps total -> dir_at ch maps total p s a nd f h ino -> table s l -> 0 <= i < total -> unheld h (i, ch) ->
  exists r o s', (made ← vnodes_create (Some a);
      match made with
      | None => mret (ENOMEM, None)
      | Some b =>
          error_no ← open_vnode b i;
          if negb (error_no =? 0) then vnodes_remove b;; mret (error_no, Some b) else vnodes_append b;; mret (0, Some b)
      end) s = Some ((r, o), s') /\
    (r = ENOMEM /\ nodes s' = nodes s /\ table s' l /\ disk_of s' = disk_of s \/
     r = 0 /\ exists b q, o = Some b /\ nodes s !! b = None /\ h !! q = None /\ table s' (b :: l) /\
       nodes s' = <[b := Node (inode_vnode f i q) true (Some a)]> (<[a := refer_more nd]> (nodes s)) /\
       refines (disk_of s') (Blocks f (<[q := ((i, ch), 1, false)]> h))).
Proof.
  intros Hgeo Hd Ht Hi Hun. pose proof (da_node _ _ _ _ _ _ _ _ _ _ Hd) as Ha.
  destruct (vnodes_create_spec s l a nd Ht Ha) as (o & s2 & Hc & Ht2 & Hdisk & Hmem & Hroot & _ & Ho). rewrite (run_bind _ _ _ _ _ Hc). destruct o as [b|].
  2:{ exists ENOMEM, None, s2. split; [done|]. by left. }
  destruct Ho as (Hb & Hnodes & I & HQ & _). assert (Hne : b ≠ a) by congruence. pose proof (da_open _ _ _ _ _ _ _ _ _ _ Hd) as [Hr _ _ Hroom _].
  assert (Hb2 : nodes s2 !! b = Some (new_node (Some a))) by (rewrite Hnodes, lookup_insert_ne by done; apply lookup_insert_eq).
  destruct (open_vnode_spec s2 b _ f h i Hgeo Hb2 ltac:(rewrite Hroot; apply Hd) ltac:(by rewrite Hdisk) Hroom Hi Hun) as (q & d & Hopen & Hq & Hr3).
  cbn beta iota. rewrite (run_bind _ _ _ _ _ Hopen). change (negb (0 =? 0)) with false. cbn iota.
  set (s3 := set_disk d _). assert (Hb3 : nodes s3 !! b = Some (Node (inode_vnode f i q) true (Some a))) by (cbn; apply lookup_insert_eq).
  assert (Ht3 : table s3 l).
  { destruct Ht2 as [T1 T2 T3]. split; cbn; [done| |].
    - intros x Hx. rewrite lookup_insert. case_decide; [by eexists|by apply T2].
    - rewrite dom_insert_lookup_L by (by rewrite Hb2). done. }
  assert (Hbl : b ∉ l) by (intros Hin; destruct (tb_nodes _ _ Ht b Hin); congruence).
  destruct (vnodes_append_spec s3 l b _ I Ht3 Hb3 eq_refl Hbl HQ) as (s' & Happ & Ht' & Hn' & Hd' & _). rewrite (run_bind _ _ _ _ _ Happ).
  exists 0, (Some b), s'. split; [done|]. right. split; [done|]. exists b, q. split; [done|]. split; [done|]. split; [done|]. split; [done|]. split; [|by rewrite Hd'].
  rewrite Hn'. cbn. rewrite Hnodes, (insert_insert_ne _ a b) by done. by rewrite insert_insert_eq.
Qed.

(** C21: [tfs_walk] in a directory with the entries [es].  A name that is not
    there gives [ENOENT].  Otherwise the vnode is that of the first entry with
    the name: if the table has a vnode with its number, that one with one more
    reference, else a new one in front of the list, opened on the inode that
    it locks, and referring to the directory; or there is no memory for one.
    Reading changes the directory by its time stamp only. *)
Theorem tfs_walk_correct s a nd f h ino es name nm l : geometry ch maps total -> dir_at ch maps total p s a nd f h ino ->
  listing ch f ino 0 es (v_size (n_vnode nd)) -> cstr (mem s) name nm -> table s l ->
  (forall i, find_name nm es = Some i -> 0 <= i < total /\ ((exists b, b ∈ l /\ index_of_node s b = i) \/ unheld h (i, ch))) ->
  exists r o s' s1 nd1 f1 h1, tfs_walk a name s = Some ((r, o), s') /\ seen ch maps total p s s1 a nd nd1 f f1 h h1 ino /\
    match find_name nm es with
    | None => r = ENOENT /\ o = None /\ s' = s1
    | Some i =>
        match head (filter (λ b, index_of_node s b = i) l) with
        | Some b => r = 0 /\ o = Some b /\ exists ndb, nodes s1 !! b = Some ndb /\ s' = set_nodes (<[b := refer_more ndb]> (nodes s1)) s1
        | None =>
            r = ENOMEM /\ nodes s' = nodes s1 /\ table s' l /\ disk_of s' = disk_of s1 \/
            r = 0 /\ exists b q, o = Some b /\ nodes s !! b = None /\ h !! q = None /\ table s' (b :: l) /\
              nodes s' = <[b := Node (inode_vnode f1 i q) true (Some a)]> (<[a := refer_more nd1]> (nodes s1)) /\
              refines (disk_of s') (Blocks f1 (<[q := ((i, ch), 1, false)]> h1))
        end
    end.
Proof using Hstack.
  intros Hgeo Hd Hl Hname Ht Hent. destruct (walk_search s a nd f h ino es name nm Hgeo Hd Hl Hname) as (s1 & nd1 & f1 & h1 & Hs & Hw).
  pose proof (da_node _ _ _ _ _ _ _ _ _ _ Hd) as Ha. pose proof (seen_table _ _ _ _ _ _ _ _ _ _ l Hs Ha Ht) as Ht1.
  destruct (find_name nm es) as [i|]; [|by exists ENOENT, None, s1, s1, nd1, f1, h1]. destruct (Hent i eq_refl) as [Hi Hheld]. pose proof Hgeo as [G1 G2 G3].
  assert (Hu32 : u32 (s32 i) = i) by (rewrite s32_small by (unfold is_s32; lia); apply u32_small; unfold is_u32; lia).
  pose proof (vnodes_find_spec s1 l (s32 i) Ht1) as Hfind. rewrite Hu32 in Hfind.
  assert (Hsame : filter (λ b, index_of_node s1 b = i) l = filter (λ b, index_of_node s b = i) l).
  { apply list_filter_iff. intros b. by rewrite (seen_index _ _ _ _ _ _ _ _ _ _ b Hs Ha). }
  rewrite Hsame in Hfind. rewrite Hw, (run_bind _ _ _ _ _ Hfind). clear Hw. destruct (head (filter (λ b, index_of_node s b = i) l)) as [b|] eqn:Eh.
  - assert (Hb : b ∈ l).
    { assert (b ∈ filter (λ b, index_of_node s b = i) l) as [_ ?]%list_elem_of_filter by (destruct (filter _ l); [done|injection Eh as ->; by left]). done. }
    destruct (tb_nodes _ _ Ht1 b Hb) as [ndb Hndb]. rewrite (run_bind _ _ _ _ _ (upd_node_run b refer_more s1 ndb Hndb)).
    eexists 0, (Some b), _, s1, nd1, f1, h1. split; [reflexivity|]. split; [done|]. split; [done|]. split; [done|]. by exists ndb.
  - assert (Hun : unheld h (i, ch)).
    { destruct Hheld as [(b & Hb & Hbi)|]; [|done]. exfalso. assert (b ∈ filter (λ b, index_of_node s b = i) l) as Hin by (by apply list_elem_of_filter).
      destruct (filter _ l); [by apply not_elem_of_nil in Hin|done]. }
    destruct (walk_new s1 a nd1 f1 h1 ino i l Hgeo (e_dir _ _ _ _ _ _ _ _ _ _ _ _ _ _ Hs) Ht1 Hi ltac:(eapply unheld_same; [apply Hs|done]))
      as (r & o & s' & Hw & Hres). exists r, o, s', s1, nd1, f1, h1. split; [exact Hw|]. split; [done|]. destruct Hres as [?|(-> & b & q & -> & Hb & Hq & Hrest)]; [by left|right].
    split; [done|]. exists b, q. split; [done|]. split; [|split; [|done]].
    + rewrite (e_nodes _ _ _ _ _ _ _ _ _ _ _ _ _ _ Hs) in Hb. by apply lookup_insert_None in Hb as [? _].
    + destruct (h !! q) as [x|] eqn:Ehq; [|done]. assert (E : (fst <$> h1) !! q = (fst <$> h) !! q) by (f_equal; apply Hs). by rewrite !lookup_fmap, Hq, Ehq in E.
Qed.

(** C22: [tfs_append_entry] puts an entry behind the others: when it reports
    success the directory has the old entries, in their order, and then the new
    one, which is what looking the name up finds unless an older entry has the
    name; when the disk or the directory is full the old entries are still
    there.  No other file changes. *)
Theorem tfs_append_correct s a nd f h ino es name nm new : geometry ch maps total -> dir_at ch maps total p s a nd f h ino ->
  listing ch f ino 0 es (v_size (n_vnode nd)) -> cstr (mem s) name nm -> (length nm <= 255)%nat -> is_u32 new ->
  exists r s' nd' f' h', tfs_append_entry a name new s = Some (r, s') /\ dir_at ch maps total p s' a nd' f' h' ino /\
    nodes s' = <[a := nd']> (nodes s) /\ bros s' = bros s /\ pool s' = pool s /\ mem s' = mem s /\
    listing ch f' ino 0 es (v_size (n_vnode nd)) /\
    (forall other, other_file ch maps total f h ino other -> file ch maps total f' h' other /\
       forall pos, 0 <= pos < 512 * PARTS -> content ch f' other pos = content ch f other pos) /\
    (r = 0 /\ listing ch f' ino 0 (es ++ [(new, nm)]) (v_size (n_vnode nd')) /\
       find_name nm (es ++ [(new, nm)]) = Some (default new (find_name nm es)) \/
     r = EIO /\ (512 * PARTS < v_size (n_vnode nd) + entry_len nm \/ (stdpp.base.size (usable ch maps total f') <= 1)%nat)).
Proof using Hstack.
  intros Hgeo Hd Hl Hname Hlen Hnew.
  destruct (append_entry_spec ch maps total p Hgeo Hstack s a nd f h ino name nm new es Hd Hl Hname (conj Hnew Hlen))
    as (r & s' & nd' & f' & h' & data & Happ & Hx & Hold & Hres).
  exists r, s', nd', f', h'. split; [done|]. split; [apply Hx|]. split; [apply Hx|]. split; [apply Hx|]. split; [apply Hx|]. split; [apply Hx|]. split; [done|]. split.
  - intros other Ho. destruct (x_locks _ _ _ _ _ _ _ _ _ _ _ _ _ _ _ _ Hx) as (v & n & t & t' & Hv & ->). eapply other_kept; [apply Hx|done|done].
  - destruct Hres as [[-> Hnew']|Hfull]; [left|by right]. split; [done|]. split; [done|]. unfold find_name. rewrite filter_app, filter_cons_True by done.
    by destruct (filter _ es).
Qed.

End Directories.

(** ** The root of a new disk *)

(** A pool that knows only what it has given out. *)
#[local] Instance any_pool : ObjectPool (gset Z) := {
  pool_alloc p := let a := stdpp.base.fresh ({[0]} ∪ p) in Some (a, {[a]} ∪ p);
  pool_free p a := Some (p ∖ {[a]});
}.

#[local] Instance any_pool_laws : ObjectPoolLaws (gset Z).
Proof.
  refine {| Vnodes.pool_ok (p live : gset Z) := p = live |}.
  - intros p live ->. pose proof (is_fresh ({[0]} ∪ live)) as Hf. eexists _, _. split; [done|]. right.
    apply not_elem_of_union in Hf as [H0 Hl]. rewrite not_elem_of_singleton in H0. done.
  - intros p live a -> _. by eexists.
Defined.

#[local] Existing Instance disk16_laws.

#[local] Instance quiet_world : World := {| time_get n := (n, 0, 0); stack _ := replicate 260 0 |}.

(** The string "a", and the root directory of the new disk, which is empty. *)
Definition name_a : cmem := CMem.put ∅ 100 [97; 0].

Lemma root_dir16 : exists (s : vstate (image 16) crings (gmap hloc (list hloc)) (rings_of vloc) (gset Z)) nd f h p,
  dir_at 7 1 16 p s 16 nd f h 3 /\ table s [16] /\ mem s = name_a /\ v_size (n_vnode nd) = 0.
Proof.
  destruct opened16 as (d & f & h & p & v & Ho & _). destruct (q_initialize _ _ _ (qrep_empty (loc := vloc)) VHead) as (A1 & _ & HQ1); [done|by left|].
  destruct (q_push _ _ _ HQ1 VHead 16 [] ltac:(apply lookup_insert_eq)) as (A2 & _ & HQ2).
  { intros g l Hl _. apply lookup_insert_Some in Hl as [[_ <-]|[_ Hl]]; [apply not_elem_of_nil|by rewrite lookup_empty in Hl]. }
  rewrite insert_insert_eq, insert_empty in HQ2. set (nd := Node (root_vnode v) true None).
  exists (VState d {[16 := nd]} A2 {[16]} name_a (fs 7 p) (Some 16) 0), nd, f, h, p. split; [|split; [|done]].
  - split; cbn; [apply lookup_singleton_eq|done|done|done|lia|unfold PARTS; lia].
  - split; cbn; [by eexists|intros a ->%list_elem_of_singleton; by exists nd|by rewrite dom_singleton_L].
Qed.

Lemma cstr_a : cstr name_a 100 [97].
Proof. split; [by vm_compute|]. repeat constructor. Qed.

Lemma tfs_walk_correct_witness : exists (s : vstate (image 16) crings (gmap hloc (list hloc)) (rings_of vloc) (gset Z)) s',
  tfs_walk 16 100 s = Some ((ENOENT, None), s').
Proof.
  destruct root_dir16 as (s & nd & f & h & p & Hd & Ht & Hm & Hz).
  destruct (tfs_walk_correct 7 1 16 p ltac:(done) s 16 nd f h 3 [] 100 [97] [16] geometry16 Hd ltac:(by rewrite Hz) ltac:(rewrite Hm; apply cstr_a) Ht ltac:(done))
    as (r & o & s' & s1 & nd1 & f1 & h1 & Hw & _ & -> & -> & _).
  by exists s, s'.
Defined.

Lemma tfs_append_correct_witness : exists (s : vstate (image 16) crings (gmap hloc (list hloc)) (rings_of vloc) (gset Z)) r s',
  tfs_append_entry 16 100 7 s = Some (r, s') /\ (r = 0 \/ r = EIO).
Proof.
  destruct root_dir16 as (s & nd & f & h & p & Hd & Ht & Hm & Hz).
  destruct (tfs_append_correct 7 1 16 p ltac:(done) s 16 nd f h 3 [] 100 [97] 7 geometry16 Hd ltac:(by rewrite Hz) ltac:(rewrite Hm; apply cstr_a)
    ltac:(cbn; lia) ltac:(done)) as (r & s' & nd' & f' & h' & Ha & _ & _ & _ & _ & _ & _ & _ & Hr).
  exists s, r, s'. split; [exact Ha|]. destruct Hr as [[-> _]|[-> _]]; [by left|by right].
Defined.
