(* ===== verification/FsFiles.v ===== *)
(** * Reading and writing through the file server

    The requests [Tread] and [Twrite] for a file that is open (servers/fs/file.c
    with lib/libserv/copier.c): what reaches the client and the disk, and what
    the server answers. *)

From S2P Require Import Prelude Lists Slab Hash AATree CMem CString DiskWords Cache RamDisk Tfs TfsBlock TfsFile TfsTheorems Vnodes Directory Vfs FsServer DirProofs.

(** What the server relies on in the kernel: the bytes of the memory of a
    thread, which of them it may write to, and that copying whole ranges that
    are there works. *)
Class CallersLaws (U : Type) `{!Callers U} := {
  user_byte : U -> Z -> Z -> option Z;
  writable : U -> Z -> Z -> bool;
  region_get_law u id a n : 0 <= n -> (forall x, a <= x < a + n -> is_Some (user_byte u id x)) ->
    region_get u id a n = (0, (λ x, default 0 (user_byte u id x)) <$> seqZ a n);
  region_put_law u id a l : (forall x, a <= x < a + Z.of_nat (length l) -> writable u id x = true) ->
    exists u', region_put u id a l = (0, u') /\ (forall x, writable u' id x = writable u id x) /\
      forall x, user_byte u' id x = if decide (a <= x < a + Z.of_nat (length l)) then l !! Z.to_nat (x - a) else user_byte u id x;
}.

Section Copiers.
Context {U : Type} `{!Callers U, !CallersLaws U}.

Definition user_bytes (u : U) (id a n : Z) : list Z := (λ x, default 0 (user_byte u id x)) <$> seqZ a n.

Lemma length_user_bytes u id a n : length (user_bytes u id a n) = Z.to_nat n.
Proof. unfold user_bytes. by rewrite length_fmap, length_seqZ. Qed.

Lemma user_bytes_lookup u id a n i : 0 <= i < n -> user_bytes u id a n !! Z.to_nat i = Some (default 0 (user_byte u id (a + i))).
Proof. intros Hi. unfold user_bytes. rewrite list_lookup_fmap, lookup_seqZ_lt by lia. cbn. by rewrite Z2Nat.id by lia. Qed.

Lemma user_bytes_app u id a n m : 0 <= n -> 0 <= m -> user_bytes u id a (n + m) = user_bytes u id a n ++ user_bytes u id (a + n) m.
Proof. intros Hn Hm. unfold user_bytes. by rewrite seqZ_app, fmap_app. Qed.

(** The room that is left of the client's buffer of [count] bytes at [data],
    and what has been put there. *)
Definition room (id data count : Z) (c : U * Z) : Z :=
  if bool_decide (data <= c.2 <= data + count) && forallb (writable c.1 id) (seqZ c.2 (data + count - c.2)) then data + count - c.2 else -1.
Definition delivered (id data : Z) (c : U * Z) : list Z := user_bytes c.1 id data (c.2 - data).

Lemma room_spec id data count c : data <= c.2 <= data + count -> (forall x, c.2 <= x < data + count -> writable c.1 id x = true) ->
  room id data count c = data + count - c.2.
Proof.
  intros Hc Hw. unfold room. rewrite bool_decide_true by done. cbn [andb]. assert (forallb (writable c.1 id) (seqZ c.2 (data + count - c.2)) = true) as ->; [|done].
  apply Is_true_true, forallb_True, Forall_forall. intros x [H1 H2]%elem_of_seqZ. apply Is_true_true, Hw. lia.
Qed.

Lemma room_inv id data count c : 0 <= room id data count c ->
  room id data count c = data + count - c.2 /\ data <= c.2 <= data + count /\ forall x, c.2 <= x < data + count -> writable c.1 id x = true.
Proof.
  unfold room. case_bool_decide as Hc; cbn [andb]; [|lia]. destruct (forallb _ _) eqn:E; [|lia]. intros _. split; [done|]. split; [done|].
  intros x Hx. apply Is_true_true in E. rewrite forallb_True, Forall_forall in E. apply Is_true_true, E, elem_of_seqZ. lia.
Qed.

Lemma copy_to_user_ok id data count c l : Z.of_nat (length l) <= room id data count c ->
  exists c', copy_to_user id c l = (0, c') /\ delivered id data c' = delivered id data c ++ l /\ room id data count c' = room id data count c - Z.of_nat (length l).
Proof.
  intros Hl. destruct (room_inv id data count c ltac:(lia)) as (E & Hc & Hw). destruct c as [u a]. cbn [fst snd] in *.
  destruct (region_put_law u id a l) as (u' & Hput & Hw' & Hb); [intros x Hx; apply Hw; lia|].
  unfold copy_to_user. cbn [fst snd]. rewrite Hput. cbn [negb Z.eqb]. eexists. split; [done|]. split.
  - unfold delivered. cbn [fst snd]. replace (a + Z.of_nat (length l) - data) with ((a - data) + Z.of_nat (length l)) by lia. rewrite user_bytes_app by lia. f_equal.
    + apply list_fmap_ext. intros i x [-> Hi]%lookup_seqZ. rewrite Hb, decide_False by lia. done.
    + replace (data + (a - data)) with a by lia. apply list_eq. intros i. destruct (decide (i < length l)%nat) as [Hi|Hi].
      * rewrite <- (Nat2Z.id i), user_bytes_lookup, Hb, decide_True by lia. replace (a + Z.of_nat i - a) with (Z.of_nat i) by lia.
        destruct (lookup_lt_is_Some_2 l i) as [x Hx]; [done|]. by rewrite !Nat2Z.id, Hx.
      * rewrite !lookup_ge_None_2; [done|lia|rewrite length_user_bytes; lia].
  - rewrite room_spec; cbn [fst snd]; [lia|lia|]. intros x Hx. rewrite Hw'. apply Hw. lia.
Qed.

(** What is left to fetch of the client's bytes before [stop]. *)
Definition unfetched (id stop : Z) (c : U * Z) : list Z := user_bytes c.1 id c.2 (stop - c.2).
Definition fetchable (u : U) (id stop : Z) (c : U * Z) : Prop := c.1 = u /\ c.2 <= stop /\ forall x, c.2 <= x < stop -> is_Some (user_byte u id x).

Lemma copy_from_user_ok u id stop c len : fetchable u id stop c -> 0 <= len <= Z.of_nat (length (unfetched id stop c)) ->
  exists c', copy_from_user id c len = (0, take (Z.to_nat len) (unfetched id stop c), c') /\
    unfetched id stop c' = drop (Z.to_nat len) (unfetched id stop c) /\ fetchable u id stop c'.
Proof.
  destruct c as [u' a]. unfold fetchable, unfetched. cbn [fst snd]. intros (-> & Ha & Hs) Hl. rewrite length_user_bytes in Hl.
  unfold copy_from_user. cbn [fst snd]. rewrite region_get_law by (lia || intros x Hx; apply Hs; lia). cbn [negb Z.eqb].
  replace (stop - a) with (len + (stop - (a + len))) by lia. rewrite user_bytes_app by lia.
  eexists. split; [rewrite take_app_length' by (by rewrite length_user_bytes); done|]. cbn [fst snd].
  split; [by rewrite drop_app_length' by (by rewrite length_user_bytes)|]. split; [done|]. split; [lia|]. intros x Hx. apply Hs. lia.
Qed.

End Copiers.

Section Io.
Context {D : Type} `{!BlockDevice D, !BlockDeviceLaws D} {HV : Type} `{!ListOps vloc HV} {P : Type} `{!ObjectPool P} `{!World}.
Context {T : Type -> Type} `{!KeyMap T} {PS : Type} `{!ObjectPool PS} {PF : Type} `{!ObjectPool PF} {U : Type} `{!Callers U, !CallersLaws U}.
Notation server := (@server D crings (gmap hloc (list hloc)) HV P T PS PF U).
Notation F := (@F D crings (gmap hloc (list hloc)) HV P T PS PF U).
Implicit Types s : server.
Context (ch maps total p : Z) (Hgeo : geometry ch maps total).
Notation dir_at := (dir_at ch maps total p).

(** The number [fid] of the request names the open file [f] on the vnode [v]. *)
Record fid_at s (q : request) (f : Z) (y : file) (v : Z) : Prop := {
  fa_session : exists a x, km_get (session_tree s) (unpack_sid q) = Some a /\ sessions s !! a = Some x /\ km_get (s_files x) (q_fid q) = Some f;
  fa_file : files s !! f = Some y;
  fa_vnode : f_vnode y = Some v;
}.

(** The sessions and the files stay. *)
Definition kept s s' : Prop := s' = Server (vs s') (sessions s) (session_tree s) (session_slab s) (files s) (file_slab s) (user s') (sent s').

Lemma kept_trans s s1 s2 : kept s s1 -> kept s1 s2 -> kept s s2.
Proof. unfold kept. intros -> ->. done. Qed.

Lemma find_file_spec s q f y v : fid_at s q f y v -> exists a, find_file q s = Some (inr (a, f), s).
Proof.
  intros [(a & x & Ha & Hx & Hf) _ _]. exists a. unfold find_file. rewrite (frun _ _ s (Some a) s) by (unfold session_find; by rewrite Ha).
  unfold session_find_file. rewrite (frun _ _ s (Some f) s); [done|]. rewrite (frun _ _ s x s) by (unfold session_at; by rewrite Hx). by rewrite Hf.
Qed.

Lemma file_at_run s q f y v : fid_at s q f y v -> file_at f s = Some (y, s).
Proof. intros [_ Hf _]. unfold file_at. by rewrite Hf. Qed.

Lemma vnode_of_spec s q f y v nd : fid_at s q f y v -> nodes (vs s) !! v = Some nd -> vnode_of f s = Some ((v, n_vnode nd), s).
Proof.
  intros Hfid Hn. unfold vnode_of. rewrite (frun _ _ s y s) by (by eapply file_at_run). rewrite (fa_vnode _ _ _ _ _ Hfid). rewrite (frun _ _ s v s) by done.
  rewrite (frun _ _ s nd s); [done|]. unfold vfs, node_at. rewrite Hn. cbn. by destruct s.
Qed.

(** A message that is well formed reaches its handler. *)
Lemma start_turn_call s q (call : request -> F unit) max : func_table !! Z.to_nat (q_type q) = Some (call, max) -> q_ident q = IDENT -> q_size q = max -> sizeof_header <= max ->
  start_turn q s = call q s.
Proof.
  intros Hc Hi Hs Hm. unfold start_turn. rewrite Hc, Hi, Hs, Z.eqb_refl. unfold sizeof_header in *.
  rewrite (proj2 (Z.ltb_ge max 0)), (proj2 (Z.ltb_ge max 8)) by lia. cbn [negb]. by rewrite Z.eqb_refl.
Qed.

(** *** Reading *)

Lemma fs_read_spec s v nd fb h ino id data offset count : dir_at (vs s) v nd fb h ino -> is_dir (n_vnode nd) = false -> 0 <= offset -> 0 <= count ->
  let size := v_size (n_vnode nd) in let len := Z.min count (size - offset) in
  (forall x, data <= x < data + len -> writable (user s) id x = true) ->
  exists r n s', with_user data (fs_read id v offset count) s = Some ((r, n), s') /\ kept s s' /\ sent s' = sent s /\
    if size <? offset then r = EINVAL /\ user s' = user s /\ disk_of (vs s') = disk_of (vs s) /\ nodes (vs s') = nodes (vs s)
    else r = 0 /\ n = len /\ user_bytes (user s') id data len = stretch ch fb ino offset len /\
      exists nd' fb' h', seen ch maps total p (vs s) (vs s') v nd nd' fb fb' h h' ino /\
        (if len =? 0 then fb' = fb else stamped ch fb fb' ino i_atime (time_get (calls (vs s)))).
Proof using Hgeo.
  intros Hd Hdir Hoff Hcount size len Hw. pose proof (da_node _ _ _ _ _ _ _ _ _ _ Hd) as Hn. unfold with_user, fs_read.
  rewrite (run_bind _ _ _ _ _ (node_at_run v (vs s) nd Hn)). rewrite Hdir. rewrite (run_bind clock _ (vs s) _ _ eq_refl).
  destruct (Z.ltb_spec size offset) as [Hlt|Hge].
  - unfold on_vnode. cbn [nodes set_calls disk_of rootfs]. rewrite Hn. cbn [mbind option_bind]. rewrite (da_fs _ _ _ _ _ _ _ _ _ _ Hd). unfold vfs_read.
    fold size. rewrite (proj2 (Z.ltb_lt _ _)) by done. cbn [mbind option_bind]. eexists EINVAL, 0, _. split; [reflexivity|]. split; [done|]. split; [done|].
    split; [done|]. split; [done|]. split; [done|]. cbn. rewrite insert_id; [done|]. rewrite Hn. by destruct nd.
  - destruct (on_read_spec ch maps total p Hgeo (copy_to_user id) (delivered id data) (room id data len) (copy_to_user_ok id data len) (λ e n c, (e, n, c))
      (set_calls (calls (vs s) + 1) (vs s)) v nd fb h ino (user s, data) offset count (time_get (calls (vs s))) (dir_at_calls _ _ _ _ _ _ _ _ _ _ _ Hd))
      as (c & v' & nd' & fb' & h' & Hrun & Hs & Hat & Hgot & Hsp); [fold size; lia|done|fold size len; rewrite room_spec; cbn [fst snd]; [lia|unfold len; lia|done]|].
    fold size in Hrun, Hat, Hgot, Hsp. fold len in Hrun, Hat, Hgot, Hsp. rewrite Hrun. cbn [mbind option_bind]. eexists 0, len, _. split; [reflexivity|].
    split; [done|]. split; [done|]. split; [done|]. split; [done|]. rewrite (room_spec id data len (user s, data)) in Hsp by (cbn [fst snd]; (unfold len; lia) || done).
    cbn [fst snd] in Hsp.
    assert (Hc : c.2 = data + len).
    { destruct (room_inv id data len c ltac:(rewrite Hsp; lia)) as (E & _ & _). rewrite Hsp in E. lia. }
    split; [|exists nd', fb', h'; split; [destruct Hs; by split|exact Hat]]. unfold delivered in Hgot. rewrite Hc in Hgot. cbn [fst snd] in Hgot.
    rewrite Z.sub_diag in Hgot. replace (data + len - data) with len in Hgot by lia. exact Hgot.
Qed.

Lemma if_read_spec s q f y v nd fb h ino : fid_at s q f y v -> dir_at (vs s) v nd fb h ino -> is_dir (n_vnode nd) = false -> f_flag y ≠ O_WRONLY ->
  0 <= Tio_offset q < 2 ^ 32 -> 0 <= Tio_count q ->
  let size := v_size (n_vnode nd) in let len := Z.min (Tio_count q) (size - Tio_offset q) in
  (forall x, Tio_data q <= x < Tio_data q + len -> writable (user s) (unpack_tid q) x = true) ->
  exists s', if_read q s = Some (tt, s') /\ kept s s' /\
    if size <? Tio_offset q then
      sent s' = sent s ++ [Rerror (Z.lor (Z.shiftl PORT_FS 16) (unpack_sid q)) (q_tag q) EINVAL] /\
      user s' = user s /\ disk_of (vs s') = disk_of (vs s) /\ nodes (vs s') = nodes (vs s)
    else sent s' = sent s ++ [Rread (q_token q) (q_tag q) len] /\
      user_bytes (user s') (unpack_tid q) (Tio_data q) len = stretch ch fb ino (Tio_offset q) len /\
      exists nd' fb' h', seen ch maps total p (vs s) (vs s') v nd nd' fb fb' h h' ino /\
        (if len =? 0 then fb' = fb else stamped ch fb fb' ino i_atime (time_get (calls (vs s)))).
Proof using Hgeo.
  intros Hfid Hd Hdir Hflag Hoff Hcount size len Hw. unfold if_read. destruct (find_file_spec s q f y v Hfid) as [a Ha].
  rewrite (frun _ _ _ _ _ Ha), (frun _ _ _ _ _ (file_at_run _ _ _ _ _ Hfid)). rewrite (proj2 (Z.eqb_neq _ _)), (proj2 (Z.ltb_ge _ _)) by (done || lia).
  rewrite (frun _ _ _ _ _ (vnode_of_spec _ _ _ _ _ _ Hfid (da_node _ _ _ _ _ _ _ _ _ _ Hd))). rewrite u32_small by (unfold is_u32; lia).
  destruct (fs_read_spec s v nd fb h ino (unpack_tid q) (Tio_data q) (Tio_offset q) (Tio_count q) Hd Hdir ltac:(lia) Hcount Hw) as (r & n & s1 & Hrun & Hk & Hsent & Hres).
  rewrite (frun _ _ _ _ _ Hrun). fold size in Hres. destruct (size <? Tio_offset q).
  - destruct Hres as (-> & Hu & Hdisk & Hn). eexists. split; [reflexivity|]. split; [by eapply kept_trans|]. cbn. by rewrite Hsent.
  - destruct Hres as (-> & -> & Hb & Hs). eexists. split; [reflexivity|]. split; [by eapply kept_trans|]. cbn. by rewrite Hsent.
Qed.

(** *** Writing *)

(** [data] has been written to the file at [start]. *)
Record wrote_to s s' (v : Z) (nd nd' : node) fb fb' h h' (ino start : Z) (data : list Z) : Prop := {
  wt_kept : kept s s';
  wt_sent : sent s' = sent s;
  wt_user : user s' = user s;
  wt_nodes : nodes (vs s') = <[v := nd']> (nodes (vs s));
  wt_node : exists d, nd' = with_vnode nd (set_v_dirty (set_v_size (n_vnode nd) (v_size (n_vnode nd'))) d);
  wt_size : v_size (n_vnode nd') = if decide (data = []) then v_size (n_vnode nd) else Z.max (v_size (n_vnode nd)) (start + Z.of_nat (length data));
  wt_dir : dir_at (vs s') v nd' fb' h' ino;
  wt_grown : grown ch maps total fb fb' ino;
  wt_wrote : wrote ch fb fb' ino start data;
  wt_locks : same_locks h h';
}.

Lemma wrote_to_nil s v nd fb h ino start : dir_at (vs s) v nd fb h ino -> wrote_to s s v nd nd fb fb h h ino start [].
Proof.
  intros Hd. split; [by destruct s|done|done| | |done|done|apply growth_refl| |done].
  - symmetry. apply insert_id, Hd.
  - exists (v_dirty (n_vnode nd)). by destruct nd as [[]].
  - split; [cbn; lia|done].
Qed.

Lemma wrote_to_app s s1 s2 v nd nd1 nd2 fb fb1 fb2 h h1 h2 ino start d1 d2 : 0 <= start ->
  wrote_to s s1 v nd nd1 fb fb1 h h1 ino start d1 -> wrote_to s1 s2 v nd1 nd2 fb1 fb2 h1 h2 ino (start + Z.of_nat (length d1)) d2 ->
  start + Z.of_nat (length d1) <= 512 * PARTS -> wrote_to s s2 v nd nd2 fb fb2 h h2 ino start (d1 ++ d2).
Proof.
  intros Hs [A1 A2 A3 A4 [? A0] A5 A6 A7 A8 A9] [B1 B2 B3 B4 [d B0] B5 B6 B7 B8 B9] Hle. split; [|congruence|congruence| | | |done| | |].
  - by eapply kept_trans.
  - by rewrite B4, A4, insert_insert_eq.
  - exists d. rewrite B0 at 1. rewrite A0. done.
  - rewrite B5, A5, length_app. destruct d1, d2; cbn [app length]; repeat case_decide; (done || lia).
  - by eapply growth_trans.
  - by eapply wrote_trans.
  - unfold same_locks in *. congruence.
Qed.

Lemma wrote_to_edited s s' v nd nd' fb fb' h h' ino start data : kept s s' -> sent s' = sent s -> user s' = user s ->
  (exists w, edited ch maps total p w (vs s') v nd nd' fb fb' h h' ino start data /\ nodes w = nodes (vs s)) ->
  wrote_to s s' v nd nd' fb fb' h h' ino start data.
Proof.
  intros H1 H2 H3 (w & [X1 X2 X3 X4 X5 X6 X7 X8 X9 X10 (b & n & t & t' & Hb & ->)] & Hn). split; try done.
  - by rewrite X1, Hn.
  - by eapply same_locks_mark.
Qed.

(** The disk or the file is full at [pos]. *)
Definition full fb (pos : Z) : Prop := 512 * PARTS <= pos \/ (stdpp.base.size (usable ch maps total fb) <= 1)%nat.

Lemma fill_gap_spec s v nd fb h ino offset : dir_at (vs s) v nd fb h ino -> 0 <= offset < 2 ^ 32 -> offset - v_size (n_vnode nd) <= PATH_MAX ->
  let start := Z.min (v_size (n_vnode nd)) offset in
  exists r n s' nd' fb' h', fill_gap v (v_size (n_vnode nd)) offset s = Some (r, s') /\
    wrote_to s s' v nd nd' fb fb' h h' ino start (replicate n 0) /\
    (r = 0 /\ start + Z.of_nat n = offset \/ r = EIO /\ start + Z.of_nat n < offset /\ full fb' (start + Z.of_nat n)).
Proof using Hgeo.
  intros Hd Hoff Hgap start. pose proof (da_size _ _ _ _ _ _ _ _ _ _ Hd) as Hsize. unfold fill_gap. destruct (Z.ltb_spec (v_size (n_vnode nd)) offset) as [Hlt|Hge].
  2:{ exists 0, 0%nat, s, nd, fb, h. split; [done|]. split; [by apply wrote_to_nil|]. left. unfold start. split; [done|lia]. }
  rewrite (frun clear_req_buf _ s _ _ eq_refl). set (s0 := set_vs _ s). unfold PATH_MAX in *. set (zeros := replicate (Z.to_nat 1024) 0).
  assert (Hd0 : dir_at (set_calls (calls (vs s0) + 1) (vs s0)) v nd fb h ino) by (apply dir_at_calls; destruct Hd; by split).
  destruct (on_write_spec ch maps total p Hgeo copy_from unread in_bounds copy_from_ok (λ e n c, (e, n, c)) _ v nd fb h ino (Some (zeros, 0))
    (v_size (n_vnode nd)) (offset - v_size (n_vnode nd)) (time_get (calls (vs s0))) Hd0) as (r & n & c & v' & nd' & fb' & h' & Hrun & Hc & Hn & Hx & Hres).
  { cbn [unread]. unfold zeros. change (Z.to_nat 0) with 0%nat. rewrite drop_0, length_replicate. lia. }
  { cbn [in_bounds]. unfold zeros. rewrite length_replicate. lia. }
  { lia. }
  { lia. }
  assert (Hw : vfs (vfs_write copy_from v (Some (zeros, 0)) (v_size (n_vnode nd)) (offset - v_size (n_vnode nd))) s0 = Some ((r, Some n, c), set_vs v' s0)).
  { unfold vfs, vfs_write. rewrite (run_bind clock _ (vs s0) _ _ eq_refl), Hrun. done. }
  rewrite (frun _ _ _ _ _ Hw). destruct c as [c|]; [|done]. cbn [unread] in Hx. change (Z.to_nat 0) with 0%nat in Hx. rewrite drop_0 in Hx. unfold zeros in Hx.
  rewrite take_replicate, Nat.min_l in Hx by lia. exists r, (Z.to_nat n), (set_vs v' s0), nd', fb', h'. split; [done|].
  assert (start = v_size (n_vnode nd)) as Es by (unfold start; lia). rewrite Es. split.
  - apply wrote_to_edited; [done..|]. by eexists.
  - rewrite Z2Nat.id by lia. destruct Hres as [[-> ->]|(-> & ? & ?)]; [left; lia|right]. split; [done|]. split; [lia|done].
Qed.


Lemma user_write_spec s v nd fb h ino id data offset count : dir_at (vs s) v nd fb h ino -> 0 <= offset <= v_size (n_vnode nd) -> 0 <= count ->
  offset + count < 2 ^ 32 -> (forall x, data <= x < data + count -> is_Some (user_byte (user s) id x)) ->
  exists r n s' nd' fb' h', with_user data (λ c, vfs_write (copy_from_user id) v c offset count) s = Some ((r, Some (Z.of_nat n)), s') /\
    wrote_to s s' v nd nd' fb fb' h h' ino offset (take n (user_bytes (user s) id data count)) /\
    (r = 0 /\ n = Z.to_nat count \/ r = EIO /\ (n < Z.to_nat count)%nat /\ full fb' (offset + Z.of_nat n)).
Proof using Hgeo.
  intros Hd Hoff Hcount Hbig Hb. assert (Hu : unfetched id (data + count) (user s, data) = user_bytes (user s) id data count).
  { unfold unfetched. cbn [fst snd]. f_equal. lia. }
  destruct (on_write_spec ch maps total p Hgeo (copy_from_user id) (unfetched id (data + count)) (fetchable (user s) id (data + count)) (copy_from_user_ok _ _ _)
    (λ e n c, (e, n, c)) (set_calls (calls (vs s) + 1) (vs s)) v nd fb h ino (user s, data) offset count (time_get (calls (vs s))) (dir_at_calls _ _ _ _ _ _ _ _ _ _ _ Hd))
    as (r & n & c & v' & nd' & fb' & h' & Hrun & (Hc & _) & Hn & Hx & Hres); [rewrite Hu, length_user_bytes; lia|by split; [|cbn; split; [lia|]]|done|done|].
  unfold with_user, vfs_write. rewrite (run_bind clock _ (vs s) _ _ eq_refl), Hrun. cbn [mbind option_bind]. rewrite Hc. rewrite Hu in Hx.
  exists r, (Z.to_nat n). eexists _, nd', fb', h'. rewrite Z2Nat.id by lia. split; [reflexivity|]. split.
  - apply wrote_to_edited; [done..|]. by eexists.
  - destruct Hres as [[-> ->]|(-> & ? & ?)]; [by left|right]. split; [done|]. split; [lia|done].
Qed.

Lemma take_gap n m (l : list Z) : (n <= m)%nat -> take n (replicate m 0 ++ l) = replicate n 0.
Proof. intros Hn. rewrite take_app_le by (by rewrite length_replicate). rewrite take_replicate. by rewrite Nat.min_l. Qed.

Lemma if_write_spec s q f y v nd fb h ino : fid_at s q f y v -> dir_at (vs s) v nd fb h ino -> f_flag y ≠ O_RDONLY ->
  0 <= Tio_offset q -> 0 < Tio_count q -> Tio_offset q + Tio_count q < 2 ^ 32 -> Tio_offset q - v_size (n_vnode nd) <= PATH_MAX ->
  (forall x, Tio_data q <= x < Tio_data q + Tio_count q -> is_Some (user_byte (user s) (unpack_tid q) x)) ->
  let start := Z.min (v_size (n_vnode nd)) (Tio_offset q) in
  let bytes := replicate (Z.to_nat (Tio_offset q - start)) 0 ++ user_bytes (user s) (unpack_tid q) (Tio_data q) (Tio_count q) in
  exists r n s1 nd' fb' h', if_write q s = Some (tt, set_sent (sent s ++ [r]) s1) /\
    wrote_to s s1 v nd nd' fb fb' h h' ino start (take n bytes) /\ (n <= length bytes)%nat /\
    (r = Rwrite (q_token q) (q_tag q) (Tio_count q) /\ n = length bytes \/
     r = Rerror (Z.lor (Z.shiftl PORT_FS 16) (unpack_sid q)) (q_tag q) EIO /\ (n < length bytes)%nat /\ full fb' (start + Z.of_nat n)).
Proof using Hgeo.
  intros Hfid Hd Hflag Hoff Hcount Hbig Hgap Hb start bytes. pose proof (da_size _ _ _ _ _ _ _ _ _ _ Hd) as Hsize. destruct (find_file_spec s q f y v Hfid) as [a Ha].
  assert (Hlen : length bytes = (Z.to_nat (Tio_offset q - start) + Z.to_nat (Tio_count q))%nat) by (unfold bytes; by rewrite length_app, length_replicate, length_user_bytes).
  unfold if_write. rewrite (frun _ _ _ _ _ Ha), (frun _ _ _ _ _ (file_at_run _ _ _ _ _ Hfid)).
  rewrite (proj2 (Z.eqb_neq (f_flag y) _)), (proj2 (Z.ltb_ge (Tio_offset q) _)), (proj2 (Z.eqb_neq (Tio_count q) _)) by (done || lia).
  rewrite (frun _ _ _ _ _ (vnode_of_spec _ _ _ _ _ _ Hfid (da_node _ _ _ _ _ _ _ _ _ _ Hd))). rewrite u32_small by (unfold is_u32; lia).
  destruct (fill_gap_spec s v nd fb h ino (Tio_offset q) Hd ltac:(lia) Hgap) as (r1 & n1 & s1 & nd1 & fb1 & h1 & Hrun1 & Hw1 & Hres1).
  fold start in Hw1, Hres1. rewrite (frun _ _ _ _ _ Hrun1). destruct Hres1 as [[-> Hn1]|(-> & Hn1 & Hfull)].
  2:{ eexists _, n1, s1, nd1, fb1, h1. split; [cbn; rewrite <- (wt_sent _ _ _ _ _ _ _ _ _ _ _ _ Hw1); reflexivity|].
      split; [unfold bytes; by rewrite take_gap by lia|]. split; [lia|]. right. split; [done|]. split; [lia|done]. }
  destruct (user_write_spec s1 v nd1 fb1 h1 ino (unpack_tid q) (Tio_data q) (Tio_offset q) (Tio_count q) (wt_dir _ _ _ _ _ _ _ _ _ _ _ _ Hw1))
    as (r & n & s2 & nd2 & fb2 & h2 & Hrun2 & Hw2 & Hres2); [|lia|done|by rewrite (wt_user _ _ _ _ _ _ _ _ _ _ _ _ Hw1)|].
  { rewrite (wt_size _ _ _ _ _ _ _ _ _ _ _ _ Hw1), length_replicate. destruct (decide _) as [E|E]; [|lia].
    apply (f_equal length) in E. rewrite length_replicate in E. cbn in E. unfold start in *. lia. }
  change (negb (0 =? 0)) with false. cbn beta iota. rewrite (frun _ _ _ _ _ Hrun2). rewrite (wt_user _ _ _ _ _ _ _ _ _ _ _ _ Hw1) in Hw2.
  assert (Hw : wrote_to s s2 v nd nd2 fb fb2 h h2 ino start (take (n1 + n) bytes)).
  { assert (take (n1 + n) bytes = replicate n1 0 ++ take n (user_bytes (user s) (unpack_tid q) (Tio_data q) (Tio_count q))) as ->.
    { unfold bytes. replace (Z.to_nat (Tio_offset q - start)) with n1 by lia. rewrite take_app_ge by (rewrite length_replicate; lia). rewrite length_replicate. do 2 f_equal. lia. }
    eapply wrote_to_app; [unfold start; lia|exact Hw1| |]; rewrite length_replicate, Hn1; [exact Hw2|].
    pose proof (da_size _ _ _ _ _ _ _ _ _ _ (wt_dir _ _ _ _ _ _ _ _ _ _ _ _ Hw1)) as Hs1. rewrite (wt_size _ _ _ _ _ _ _ _ _ _ _ _ Hw1), length_replicate in Hs1.
    destruct (decide _) as [E|E]; [|lia]. apply (f_equal length) in E. rewrite length_replicate in E. cbn in E. unfold start in *. lia. }
  destruct Hres2 as [[-> ->]|(-> & Hn & Hfull)].
  - eexists _, _, s2, nd2, fb2, h2. split; [cbn; rewrite <- (wt_sent _ _ _ _ _ _ _ _ _ _ _ _ Hw), Z2Nat.id by lia; reflexivity|]. split; [exact Hw|].
    split; [lia|]. left. split; [done|lia].
  - eexists _, _, s2, nd2, fb2, h2. split; [cbn; rewrite <- (wt_sent _ _ _ _ _ _ _ _ _ _ _ _ Hw); reflexivity|]. split; [exact Hw|].
    split; [lia|]. right. split; [done|]. split; [lia|]. replace (start + Z.of_nat (n1 + n)) with (Tio_offset q + Z.of_nat n) by lia. done.
Qed.

End Io.

(** ** Properties *)

Section Promises.
Context {D : Type} `{!BlockDevice D, !BlockDeviceLaws D} {HV : Type} `{!ListOps vloc HV} {P : Type} `{!ObjectPool P} `{!World}.
Context {T : Type -> Type} `{!KeyMap T} {PS : Type} `{!ObjectPool PS} {PF : Type} `{!ObjectPool PF} {U : Type} `{!Callers U, !CallersLaws U}.
Notation server := (@server D crings (gmap hloc (list hloc)) HV P T PS PF U).
Context (ch maps total p : Z).

(** C25: the request to write.  For a number that names a file open for
    writing, and a client whose bytes are there, the server ends its turn and
    answers once: with the count after all bytes have reached the file at the
    offset, the gap behind the old end being filled with zeros, or with [EIO]
    when the file or the disk is full, where a first part of the zeros and
    bytes has been written.  What the file held elsewhere, the other files,
    the sessions and the client's memory stay, and the file has no hole
    afterwards, so it can be read and written again.  The gap is at most
    [PATH_MAX] bytes wide, and the offset and the count are of 32 bits. *)
Theorem fs_write_correct (s : server) q f y v nd fb h ino :
  geometry ch maps total -> fid_at s q f y v -> dir_at ch maps total p (vs s) v nd fb h ino -> f_flag y ≠ O_RDONLY ->
  q_size q = 32 -> q_ident q = IDENT -> q_type q = 5 ->
  0 <= Tio_offset q -> 0 < Tio_count q -> Tio_offset q + Tio_count q < 2 ^ 32 -> Tio_offset q - v_size (n_vnode nd) <= PATH_MAX ->
  (forall x, Tio_data q <= x < Tio_data q + Tio_count q -> is_Some (user_byte (user s) (unpack_tid q) x)) ->
  let start := Z.min (v_size (n_vnode nd)) (Tio_offset q) in
  let bytes := replicate (Z.to_nat (Tio_offset q - start)) 0 ++ user_bytes (user s) (unpack_tid q) (Tio_data q) (Tio_count q) in
  exists r n s' nd' fb' h', start_turn q s = Some (tt, s') /\ sent s' = sent s ++ [r] /\ kept s s' /\ user s' = user s /\
    dir_at ch maps total p (vs s') v nd' fb' h' ino /\ (n <= length bytes)%nat /\
    v_size (n_vnode nd') = (if decide (n = 0%nat) then v_size (n_vnode nd) else Z.max (v_size (n_vnode nd)) (start + Z.of_nat n)) /\
    (forall i, (i < n)%nat -> content ch fb' ino (start + Z.of_nat i) = bytes !! i) /\
    (forall pos, 0 <= pos < v_size (n_vnode nd) -> ~ start <= pos < start + Z.of_nat n -> content ch fb' ino pos = content ch fb ino pos) /\
    (forall other, other_file ch maps total fb h ino other -> TfsFile.file ch maps total fb' h' other /\
       forall pos, 0 <= pos < 512 * PARTS -> content ch fb' other pos = content ch fb other pos) /\
    (r = Rwrite (q_token q) (q_tag q) (Tio_count q) /\ n = length bytes \/
     r = Rerror (Z.lor (Z.shiftl PORT_FS 16) (unpack_sid q)) (q_tag q) EIO /\ (n < length bytes)%nat /\
       (512 * PARTS <= start + Z.of_nat n \/ (stdpp.base.size (usable ch maps total fb') <= 1)%nat)).
Proof.
  intros Hgeo Hfid Hd Hflag Hsz Hid Hty Hoff Hcount Hbig Hgap Hb start bytes. pose proof (da_size _ _ _ _ _ _ _ _ _ _ Hd) as Hsize.
  rewrite (start_turn_call s q if_write 32) by (try rewrite Hty; done).
  destruct (if_write_spec ch maps total p Hgeo s q f y v nd fb h ino Hfid Hd Hflag Hoff Hcount Hbig Hgap Hb) as (r & n & s1 & nd' & fb' & h' & Hrun & Hw & Hn & Hres).
  fold start in Hw, Hn, Hres. fold bytes in Hw, Hn, Hres. destruct Hw as [W1 W2 W3 W4 _ W5 W6 W7 [W8 W9] W10].
  assert (Hl : length (take n bytes) = n) by (rewrite length_take; lia). rewrite Hl in *.
  exists r, n. eexists _, nd', fb', h'. split; [exact Hrun|]. split; [done|]. split; [by rewrite W1|]. split; [done|].
  split; [exact W6|]. split; [done|]. split.
  { rewrite W5. destruct (decide (n = 0%nat)) as [->|Hne]; [done|]. rewrite decide_False; [done|]. intros E. rewrite E in Hl. cbn in Hl. lia. }
  split; [intros i Hi; by rewrite W8, lookup_take_lt by done|]. split; [intros pos Hpos Hout; apply W9; [lia|by apply (da_full _ _ _ _ _ _ _ _ _ _ Hd)|done]|].
  split; [|done]. intros other Ho. destruct (da_open _ _ _ _ _ _ _ _ _ _ Hd) as [_ _ _ _ (b & m & t & Hbuf & _)].
  destruct (other_kept ch maps total fb fb' h b ino m t t other W7 Hbuf Ho) as [Hf Hc]. split; [|exact Hc]. rewrite insert_id in Hf by done. by eapply file_same.
Qed.


End Promises.

(** ** A client *)

(** One memory for all threads. *)
#[export] Instance memory_callers : Callers cmem := {
  region_get m id from size := match peek (Z.to_nat size) m from with Some l => (0, l) | None => (-1, []) end;
  region_put m id to l := match peek (length l) m to with Some _ => (0, CMem.put m to l) | None => (-1, m) end;
  region_copy m id from size :=
    match strlen m from with
    | Some n => match peek (Z.to_nat (n + 1)) m from with Some l => (n, l) | None => (-1, []) end
    | None => (-1, [])
    end;
}.

Lemma peek_all n m q : (forall x, q <= x < q + Z.of_nat n -> is_Some (m !! x)) -> peek n m q = Some ((λ x, default 0 (m !! x)) <$> seqZ q (Z.of_nat n)).
Proof.
  revert q. induction n as [|n IH]; intros q Hs; [done|]. cbn [peek]. destruct (Hs q) as [c Hc]; [lia|]. rewrite Hc. cbn [mbind option_bind].
  rewrite IH by (intros x Hx; apply Hs; lia). cbn [mbind option_bind]. rewrite (seqZ_cons q (Z.of_nat (S n))) by lia. cbn [fmap list_fmap]. rewrite Hc. cbn.
  do 4 f_equal; lia.
Qed.

#[export] Instance memory_callers_laws : CallersLaws cmem.
Proof.
  refine {| user_byte m id x := m !! x; writable m id x := bool_decide (is_Some (m !! x)) |}.
  - intros m id a n Hn Hs. cbn. rewrite peek_all by (intros x Hx; apply Hs; lia). by rewrite Z2Nat.id by lia.
  - intros m id a l Hw. cbn. assert (Hin : forall x, a <= x < a + Z.of_nat (length l) -> is_Some (m !! x)) by (intros x Hx; by eapply bool_decide_eq_true_1, Hw).
    rewrite peek_all by done. eexists. split; [done|].
    assert (Hput : forall x, CMem.put m a l !! x = if decide (a <= x < a + Z.of_nat (length l)) then l !! Z.to_nat (x - a) else m !! x).
    { intros x. case_decide as Hx; [|by rewrite put_out by lia].
      destruct (lookup_lt_is_Some_2 l (Z.to_nat (x - a))) as [c Hc]; [lia|]. rewrite Hc.
      replace x with (a + Z.of_nat (Z.to_nat (x - a))) by lia. by apply (proj1 (bytes_at_lookup _ _ _) (put_bytes m a l)). }
    split; [|exact Hput]. intros x. apply bool_decide_ext. rewrite Hput. case_decide as Hx; [|done]. split; intros _; [by apply Hin|].
    apply lookup_lt_is_Some_2. lia.
Defined.

#[local] Existing Instance disk16_laws.
#[local] Instance still_world : World := {| time_get n := (n, 0, 0); stack _ := replicate 260 0 |}.
#[local] Instance empty_pool : ObjectPool unit := {| pool_alloc _ := Some (0, tt); pool_free _ _ := None |}.

Notation demo_server := (@server (image 16) crings (gmap hloc (list hloc)) (gmap vloc (list vloc)) unit tree_t unit unit cmem).

Definition one {V} (k : Z) (x : V) : tree_t V := match km_put km_new k x with Some (_, t) => t | None => km_new end.

(** Session 1 of user 0 with file 2, which is open and empty, on a new disk; the
    client has the bytes 9, 8, 7 at 200 and a buffer at 300. *)
Definition demo_vnode (b : Z) : vnode_t :=
  {| v_index := 3; v_mode := 0x8180; v_uid := 0; v_gid := 0; v_size := 0; v_private := Some b; v_dirty := false; v_refer_count := 1; v_lock_count := 0 |}.

Definition demo_user_memory : cmem := CMem.put (CMem.put ∅ 200 [9; 8; 7]) 300 [0; 0; 0; 0].

Definition demo_open (d : @store (image 16) crings (gmap hloc (list hloc))) (p b : Z) : demo_server :=
  Server (VState d {[16 := Node (demo_vnode b) true None]} ∅ tt ∅ (fs 7 p) (Some 16) 0)
    {[100 := Session 1 {| p_uid := 0; p_gid := 0 |} None (one 2 50)]} (one 1 100) tt {[50 := File 2 (Some 16) 2]} tt demo_user_memory [].

(** Requests of thread 5 in the session. *)
Definition demo_io (type offset count data : Z) : request :=
  {| q_size := 32; q_ident := IDENT; q_type := type; q_token := 0x50001; q_words := [7; 2; offset; 0; count; data]; q_ipc := 0 |}.

Lemma demo_open_ok : exists d fb h p b, let s := demo_open d p b in
  dir_at 7 1 16 p (vs s) 16 (Node (demo_vnode b) true None) fb h 3 /\ forall type offset count data, fid_at s (demo_io type offset count data) 50 (File 2 (Some 16) 2) 16.
Proof.
  destruct opened16 as (d & fb & h & p & b & [Hr Hok Hf Hroom (b' & n & t & Hb & Hp)] & _). injection Hp as <-. exists d, fb, h, p, b. split.
  - split; cbn; [apply lookup_singleton_eq|done|done| |lia|unfold PARTS; lia]. split; [done..|]. by exists b, n, t.
  - intros type offset count data. split; [|apply lookup_singleton_eq|done]. exists 100, (Session 1 {| p_uid := 0; p_gid := 0 |} None (one 2 50)).
    split; [vm_compute; reflexivity|]. split; [apply lookup_singleton_eq|vm_compute; reflexivity].
Qed.

Lemma demo_memory_bytes x : 200 <= x < 203 -> is_Some (demo_user_memory !! x).
Proof.
  intros Hx. assert (x = 200 \/ x = 201 \/ x = 202) as [->|[-> | ->]] by lia; by eexists.
Qed.

(** Three bytes behind a gap of four. *)
Lemma fs_write_correct_witness : exists (s : demo_server) r n s', start_turn (demo_io 5 4 3 200) s = Some (tt, s') /\ sent s' = [r] /\
  (r = Rwrite 0x50001 7 3 /\ n = 7%nat \/ r = Rerror 0x90001 7 EIO /\ (n < 7)%nat).
Proof.
  destruct demo_open_ok as (d & fb & h & p & b & Hd & Hfid).
  destruct (fs_write_correct 7 1 16 p (demo_open d p b) (demo_io 5 4 3 200) 50 (File 2 (Some 16) 2) 16 _ fb h 3 geometry16 (Hfid _ _ _ _) Hd ltac:(done)
    eq_refl eq_refl eq_refl ltac:(by vm_compute) ltac:(by vm_compute) ltac:(by vm_compute) ltac:(by vm_compute) demo_memory_bytes)
    as (r & n & s' & nd' & fb' & h' & Hrun & Hs & _ & _ & _ & _ & _ & _ & _ & _ & Hr).
  exists (demo_open d p b), r, n, s'. split; [exact Hrun|]. split; [exact Hs|]. destruct Hr as [Hr|(Hr & Hn & _)]; [left; exact Hr|right; split; [exact Hr|exact Hn]].
Defined.

