(* ===== verification/FsTheorems.v ===== *)
(** * Theorems on the file server

    Every request is answered once, and runs of the server on a RAM disk: how
    it works, and where it fails. *)

From S2P Require Import Prelude Lists Slab Hash AATree CMem CString DiskWords Cache RamDisk Tfs Mkfs Palloc KMemory Vnodes Directory Vfs FsServer FsFiles.

(** ** Answers *)

(** The answer to a request that has reached its handler: the message that
    belongs to the type of the request, with its token and tag, or an error
    with the tag. *)
Definition answers (q : request) (r : response) : Prop :=
  let of_type type token tag := q_type q = type /\ token = q_token q /\ tag = q_tag q in
  match r with
  | Rerror token tag _ => token = Z.lor (Z.shiftl PORT_FS 16) (unpack_sid q) /\ tag = q_tag q
  | Rattach token tag _ => of_type 0 token tag
  | Rwalk token tag => of_type 1 token tag
  | Ropen token tag _ _ => of_type 2 token tag
  | Rcreate token tag _ _ => of_type 3 token tag
  | Rread token tag _ => of_type 4 token tag
  | Rwrite token tag _ => of_type 5 token tag
  | Rclunk token tag => of_type 6 token tag
  | Rremove token tag => of_type 7 token tag
  | Rstat token tag => of_type 8 token tag
  | Rwstat token tag => of_type 9 token tag
  | Synced _ => False
  end.

(** The signal to write everything to the disk: a message of one word. *)
Definition is_sync (q : request) : Prop := q_size q = 4 /\ q_ident q + 65536 * q_type q = SIGNAL_SYNC.

(** The sizes of the requests by their types. *)
Definition request_sizes : list Z := [28; 28; 20; 28; 32; 32; 16; 16; 20; 20].

(** A message that is refused before a handler sees it; the tag is not known. *)
Definition refusal (q : request) (e : Z) : response := Rerror (Z.lor (Z.shiftl PORT_FS 16) (unpack_sid q)) 0 e.

Inductive refused_with (q : request) : response -> Prop :=
  | too_short : 0 <= q_size q < sizeof_header -> ~ is_sync q -> refused_with q (Rerror (Z.shiftl PORT_FS 16) 0 EPROTO)
  | wrong_ident : sizeof_header <= q_size q -> q_ident q ≠ IDENT -> refused_with q (refusal q EPROTO)
  | unknown_type : sizeof_header <= q_size q -> q_ident q = IDENT -> 10 <= q_type q -> refused_with q (refusal q ENOTSUP)
  | wrong_size n : sizeof_header <= q_size q -> q_ident q = IDENT -> request_sizes !! Z.to_nat (q_type q) = Some n -> q_size q ≠ n -> refused_with q (refusal q EPROTO).

(** The request is of a known type and has its size. *)
Definition well_formed (q : request) : Prop := q_ident q = IDENT /\ request_sizes !! Z.to_nat (q_type q) = Some (q_size q).

(** What the server sends for a message. *)
Inductive promised (q : request) : list response -> Prop :=
  | no_message : q_size q < 0 -> promised q []
  | sync_silent : is_sync q -> key_of_ipc (q_ipc q) = 0 -> promised q []
  | sync_answered r : is_sync q -> key_of_ipc (q_ipc q) ≠ 0 -> promised q [Synced r]
  | refused_now r : refused_with q r -> promised q [r]
  | handled r : well_formed q -> answers q r -> promised q [r].

Section Answers.
Context {D : Type} `{!BlockDevice D} {H : Type} `{!ListOps cloc H} {HH : Type} `{!ListOps hloc HH}.
Context {HV : Type} `{!ListOps vloc HV} {P : Type} `{!ObjectPool P} `{!World}.
Context {T : Type -> Type} `{!KeyMap T} {PS : Type} `{!ObjectPool PS} {PF : Type} `{!ObjectPool PF} {U : Type} `{!Callers U}.
Notation F := (@F D H HH HV P T PS PF U).
Notation server := (@server D H HH HV P T PS PF U).

(** A step that sends nothing, and one that answers [q] once. *)
Definition quiet {A} (m : F A) : Prop := forall s x s', m s = Some (x, s') -> sent s' = sent s.
Definition replies {A} (q : request) (m : F A) : Prop := forall s x s', m s = Some (x, s') -> exists r, sent s' = sent s ++ [r] /\ answers q r.

Lemma quiet_ret {A} (x : A) : quiet (mret x).
Proof. by intros s y s' [= _ <-]. Qed.

Lemma quiet_bind {A B} (m : F A) (k : A -> F B) : quiet m -> (forall x, quiet (k x)) -> quiet (m ≫= k).
Proof.
  intros Hm Hk s y s'. unfold mbind, F_bind. destruct (m s) as [[x s1]|] eqn:E; [|done]. intros Hy. rewrite (Hk x s1 y s' Hy). by eapply Hm.
Qed.

Lemma replies_bind {A B} q (m : F A) (k : A -> F B) : quiet m -> (forall x, replies q (k x)) -> replies q (m ≫= k).
Proof.
  intros Hm Hk s y s'. unfold mbind, F_bind. destruct (m s) as [[x s1]|] eqn:E; [|done]. intros Hy. rewrite <- (Hm _ _ _ E). by eapply Hk.
Qed.

Lemma quiet_vfs {A} (m : @V D H HH HV P A) : quiet (vfs m).
Proof. intros s x s'. unfold vfs. destruct (m (vs s)) as [[y v]|]; [|done]. by intros [= _ <-]. Qed.

Lemma quiet_ensure {A} (o : option A) : quiet (ensure o).
Proof. intros s x s'. unfold ensure. destruct o; [|done]. by intros [= _ <-]. Qed.

Lemma quiet_undef {A} : quiet (A := A) undef.
Proof. by intros s x s'. Qed.

Lemma quiet_session_at a : quiet (session_at a).
Proof. intros s x s'. unfold session_at. destruct (sessions s !! a); [|done]. by intros [= _ <-]. Qed.

Lemma quiet_upd_session a f : quiet (upd_session a f).
Proof. intros s x s'. unfold upd_session. destruct (sessions s !! a); [|done]. by intros [= _ <-]. Qed.

Lemma quiet_file_at a : quiet (file_at a).
Proof. intros s x s'. unfold file_at. destruct (files s !! a); [|done]. by intros [= _ <-]. Qed.

Lemma quiet_upd_file a f : quiet (upd_file a f).
Proof. intros s x s'. unfold upd_file. destruct (files s !! a); [|done]. by intros [= _ <-]. Qed.

Lemma quiet_file_alloc : quiet file_alloc.
Proof. intros s x s'. unfold file_alloc. destruct (pool_alloc (file_slab s)) as [[f p]|]; [|done]. by intros [= _ <-]. Qed.

Lemma quiet_file_free f : quiet (file_free f).
Proof. intros s x s'. unfold file_free. destruct (pool_free (file_slab s) f); [|done]. by intros [= _ <-]. Qed.

Lemma quiet_file_new f x : quiet (file_new f x).
Proof. by intros s y s' [= _ <-]. Qed.

Lemma quiet_session_create pid : quiet (session_create pid).
Proof.
  intros s x s'. unfold session_create. destruct (pool_alloc (session_slab s)) as [[a p]|]; [|done]. cbn [mbind option_bind].
  destruct (a =? 0); [by intros [= _ <-]|]. destruct (km_put (session_tree s) pid a) as [[[] t]|]; [by intros [= _ <-]| |done]. cbn [mbind option_bind negb].
  destruct (pool_free p a); [|done]. by intros [= _ <-].
Qed.

Lemma quiet_session_find pid : quiet (session_find pid).
Proof. by intros s x s' [= _ <-]. Qed.

Lemma quiet_unlist_session key : quiet (unlist_session key).
Proof. intros s x s'. unfold unlist_session. destruct (km_remove (session_tree s) key) as [[o t]|]; [|done]. by intros [= _ <-]. Qed.

Lemma quiet_session_free a : quiet (session_free a).
Proof. intros s x s'. unfold session_free. destruct (pool_free (session_slab s) a); [|done]. by intros [= _ <-]. Qed.

Lemma quiet_get_path tid src : quiet (get_path tid src).
Proof.
  intros s x s'. unfold get_path. destruct (region_copy (user s) tid src PATH_MAX) as [len l]. destruct (PATH_MAX <? Z.of_nat (length l)); [done|].
  by intros [= _ <-].
Qed.

Lemma quiet_with_user {A} data (m : U * Z -> @V D H HH HV P (A * (U * Z))) : quiet (with_user data m).
Proof. intros s x s'. unfold with_user. destruct (m (user s, data) (vs s)) as [[[r c] v]|]; [|done]. by intros [= _ <-]. Qed.

Lemma final_state {A} (x y : A) (s s' : server) : Some (x, s) = Some (y, s') -> s = s'.
Proof. by intros [= _ ?]. Qed.

Lemma quiet_clear_req_buf : quiet clear_req_buf.
Proof. by intros s x s' <-%final_state. Qed.

Lemma quiet_put_stat q t : quiet (put_stat q t).
Proof. intros s x s'. unfold put_stat. destruct (region_put _ _ _ _) as [r u]. by intros <-%final_state. Qed.

Lemma quiet_fetch_stat q : quiet (fetch_stat q).
Proof. intros s x s'. unfold fetch_stat. destruct (region_get _ _ _ _) as [r l]. by intros <-%final_state. Qed.

Lemma replies_reply q r : answers q r -> replies q (reply r).
Proof. intros Hr s x s' [= _ <-]. by exists r. Qed.

Lemma replies_error q e : replies q (reply_error (q_token q) (q_tag q) e).
Proof. by apply replies_reply. Qed.
End Answers.

Create HintDb fs_quiet.
#[export] Hint Resolve quiet_ret quiet_vfs quiet_ensure quiet_undef quiet_session_at quiet_upd_session quiet_file_at quiet_upd_file quiet_file_alloc
  quiet_file_free quiet_file_new quiet_session_create quiet_session_find quiet_unlist_session quiet_session_free quiet_get_path quiet_with_user
  quiet_clear_req_buf quiet_put_stat quiet_fetch_stat replies_error : fs_quiet.

(** Walks through the code: binds, cases, and steps that are known. *)
Ltac fs_steps := repeat match goal with
  | |- quiet (_ ≫= _) => apply quiet_bind; [|intros ?]
  | |- replies _ (_ ≫= _) => apply replies_bind; [|intros ?]
  | |- replies _ (reply _) => apply replies_reply; cbn; tauto
  | |- quiet _ => solve [eauto with fs_quiet nocore]
  | |- replies _ _ => solve [eauto with fs_quiet nocore]
  | |- context [match ?x with _ => _ end] => destruct x
  end.

Section Server.
Context {D : Type} `{!BlockDevice D} {H : Type} `{!ListOps cloc H} {HH : Type} `{!ListOps hloc HH}.
Context {HV : Type} `{!ListOps vloc HV} {P : Type} `{!ObjectPool P} `{!World}.
Context {T : Type -> Type} `{!KeyMap T} {PS : Type} `{!ObjectPool PS} {PF : Type} `{!ObjectPool PF} {U : Type} `{!Callers U}.
Notation server := (@server D H HH HV P T PS PF U).
Notation F := (@FsServer.F D H HH HV P T PS PF U).
Notation quiet := (@quiet D H HH HV P T PS PF U _).
Notation replies := (@replies D H HH HV P T PS PF U _).

Lemma quiet_find_file q : quiet (find_file q).
Proof. unfold find_file, session_find_file. fs_steps. Qed.

Lemma quiet_vnode_of f : quiet (vnode_of f).
Proof. unfold vnode_of. fs_steps. Qed.

Lemma quiet_session_create_file a fd : quiet (session_create_file a fd).
Proof. unfold session_create_file, session_find_file. fs_steps. Qed.

Lemma quiet_session_destroy_file a fd : quiet (session_destroy_file a fd).
Proof. unfold session_destroy_file. fs_steps. Qed.

Lemma quiet_destroy_files n a fd : quiet (destroy_files n a fd).
Proof. revert fd. induction n as [|n IH]; intros fd; cbn [destroy_files]; [apply quiet_ret|]. apply quiet_bind; [apply quiet_session_destroy_file|intros _; apply IH]. Qed.

Lemma quiet_session_get_path a parent tid src : quiet (session_get_path a parent tid src).
Proof. unfold session_get_path. fs_steps. Qed.

#[local] Hint Resolve quiet_find_file quiet_vnode_of quiet_session_create_file quiet_session_destroy_file quiet_destroy_files quiet_session_get_path : fs_quiet.

Lemma quiet_session_destroy a : quiet (session_destroy a).
Proof. unfold session_destroy. fs_steps. Qed.

Lemma quiet_walk_to q a f : quiet (walk_to q a f).
Proof. unfold walk_to. fs_steps. Qed.

Lemma quiet_fill_gap v size offset : quiet (fill_gap v size offset).
Proof. unfold fill_gap. fs_steps. Qed.

#[local] Hint Resolve quiet_session_destroy quiet_walk_to quiet_fill_gap : fs_quiet.

Lemma table_sizes n : (func_table : list ((request -> F unit) * Z)).*2 !! n = request_sizes !! n.
Proof. done. Qed.

Lemma table_type (q : request) call max : (func_table : list ((request -> F unit) * Z)) !! Z.to_nat (q_type q) = Some (call, max) ->
  request_sizes !! Z.to_nat (q_type q) = Some max.
Proof. intros Hc. by rewrite <- table_sizes, list_lookup_fmap, Hc. Qed.

Lemma handler_replies (q : request) call max : 0 <= q_type q -> (func_table : list ((request -> F unit) * Z)) !! Z.to_nat (q_type q) = Some (call, max) ->
  replies q (call q).
Proof.
  intros Hq Hc. destruct (Z.to_nat (q_type q)) as [|[|[|[|[|[|[|[|[|[|n]]]]]]]]]] eqn:E; try done; injection Hc as <- _.
  - assert (q_type q = 0) by lia. unfold if_attach. fs_steps.
  - assert (q_type q = 1) by lia. unfold if_walk, walk_from. fs_steps.
  - assert (q_type q = 2) by lia. unfold if_open. fs_steps.
  - assert (q_type q = 3) by lia. unfold if_create. fs_steps.
  - assert (q_type q = 4) by lia. unfold if_read. fs_steps.
  - assert (q_type q = 5) by lia. unfold if_write. fs_steps.
  - assert (q_type q = 6) by lia. unfold if_clunk. fs_steps.
  - assert (q_type q = 7) by lia. unfold if_remove. fs_steps.
  - assert (q_type q = 8) by lia. unfold if_stat. fs_steps.
  - assert (q_type q = 9) by lia. unfold if_wstat. fs_steps.
Qed.

(** Messages that do not reach a handler, or reach one that finds no session or
    no file: the server only sends the error. *)
Lemma refused_total (q : request) r (s : server) : 0 <= q_type q -> refused_with q r -> start_turn q s = Some (tt, set_sent (sent s ++ [r]) s).
Proof.
  intros Hq Hr. unfold start_turn, sizeof_header in *. destruct Hr as [[Hlo H8] Hn|H8 Hi|H8 Hi Ht|n H8 Hi Hn Hs]; unfold sizeof_header in *;
    rewrite (proj2 (Z.ltb_ge _ 0)) by lia; [rewrite (proj2 (Z.ltb_lt _ 8)) by lia|rewrite (proj2 (Z.ltb_ge _ 8)) by lia..].
  - destruct ((q_size q =? 4) && _) eqn:E; [|done]. apply andb_prop in E as [E1%Z.eqb_eq E2%Z.eqb_eq]. by destruct Hn.
  - by rewrite (proj2 (Z.eqb_neq _ _)).
  - rewrite Hi, Z.eqb_refl. cbn [negb]. rewrite lookup_ge_None_2 by (cbn; lia). done.
  - rewrite Hi, Z.eqb_refl. cbn [negb]. destruct (func_table !! Z.to_nat (q_type q)) as [[call max]|] eqn:Ef.
    + apply table_type in Ef. rewrite (proj2 (Z.eqb_neq _ _)) by congruence. done.
    + rewrite <- table_sizes, list_lookup_fmap, Ef in Hn. done.
Qed.

Lemma well_formed_call (q : request) (s : server) : well_formed q -> exists call max,
  (func_table : list ((request -> F unit) * Z)) !! Z.to_nat (q_type q) = Some (call, max) /\ start_turn q s = call q s.
Proof.
  intros [Hi Hs]. pose proof Hs as Hl. rewrite <- table_sizes, list_lookup_fmap in Hl. destruct (func_table !! Z.to_nat (q_type q)) as [[call max]|] eqn:Ef; [|done].
  injection Hl as ->. exists call, (q_size q). split; [done|]. unfold start_turn. rewrite Hi, Ef. cbn [negb].
  assert (8 <= q_size q).
  { apply list_elem_of_lookup_2 in Hs. unfold request_sizes in Hs. rewrite !elem_of_cons, elem_of_nil in Hs. lia. }
  rewrite (proj2 (Z.ltb_ge _ 0)), (proj2 (Z.ltb_ge _ _)), !Z.eqb_refl by (unfold sizeof_header; lia). done.
Qed.

Lemma find_file_missing (q : request) (s : server) e :
  (km_get (session_tree s) (unpack_sid q) = None /\ e = EPERM \/
   exists a x, km_get (session_tree s) (unpack_sid q) = Some a /\ sessions s !! a = Some x /\ km_get (s_files x) (q_fid q) = None /\ e = EBADF) ->
  find_file q s = Some (inl e, s).
Proof.
  intros Hm. unfold find_file. destruct Hm as [[Hk ->]|(a & x & Hk & Hx & Hf & ->)].
  - by rewrite (frun _ _ s None s) by (unfold session_find; by rewrite Hk).
  - rewrite (frun _ _ s (Some a) s) by (unfold session_find; by rewrite Hk). unfold session_find_file.
    rewrite (frun _ _ s None s); [done|]. rewrite (frun _ _ s x s) by (unfold session_at; by rewrite Hx). by rewrite Hf.
Qed.

Lemma no_file_total (q : request) (s : server) e : 0 <= q_type q -> well_formed q -> q_type q ∉ [0; 6] ->
  (km_get (session_tree s) (unpack_sid q) = None /\ e = EPERM \/
   exists a x, km_get (session_tree s) (unpack_sid q) = Some a /\ sessions s !! a = Some x /\ km_get (s_files x) (q_fid q) = None /\ e = EBADF) ->
  start_turn q s = Some (tt, set_sent (sent s ++ [Rerror (Z.lor (Z.shiftl PORT_FS 16) (unpack_sid q)) (q_tag q) e]) s).
Proof.
  intros Hq Hwf Hty Hm. destruct (well_formed_call q s Hwf) as (call & max & Hc & ->). pose proof (find_file_missing q s e Hm) as Hfind. rewrite !not_elem_of_cons in Hty.
  destruct (Z.to_nat (q_type q)) as [|[|[|[|[|[|[|[|[|[|n]]]]]]]]]] eqn:E; try done; try lia; injection Hc as <- _;
    unfold if_walk, if_open, if_create, if_read, if_write, if_remove, if_stat, if_wstat; by rewrite (frun _ _ _ _ _ Hfind).
Qed.

Lemma promised_cases (q : request) : 0 <= q_type q -> 0 <= q_size q -> (exists r, refused_with q r) \/ is_sync q \/ well_formed q.
Proof.
  intros Hq Hs. destruct (decide (q_size q < sizeof_header)) as [H8|H8].
  { destruct (decide (q_size q = 4 /\ q_ident q + 65536 * q_type q = SIGNAL_SYNC)) as [Hy|Hn]; [by right; left|]. left. eexists. by apply too_short. }
  destruct (decide (q_ident q = IDENT)) as [Hi|Hi]; [|left; eexists; apply wrong_ident; [lia|done]].
  destruct (request_sizes !! Z.to_nat (q_type q)) as [n|] eqn:En.
  - destruct (decide (q_size q = n)) as [<-|Hn]; [right; right; by split|]. left. eexists. apply (wrong_size q n); [lia|done|done|done].
  - left. eexists. apply unknown_type; [lia|done|]. apply lookup_ge_None_1 in En. cbn in En. lia.
Qed.

Lemma sync_promised (q : request) (s s' : server) : is_sync q -> start_turn q s = Some (tt, s') -> exists l, sent s' = sent s ++ l /\ promised q l.
Proof.
  intros Hy. pose proof Hy as [H4 Hw]. unfold start_turn. rewrite H4, Hw, !Z.eqb_refl. change (4 <? 0) with false. change (4 <? sizeof_header) with true. cbn [andb].
  unfold synchronize, mbind, F_bind. destruct (vfs vnodes_synchronize s) as [[x1 s1]|] eqn:E1; [|done]. apply quiet_vfs in E1.
  destruct (vfs _ s1) as [[x2 s2]|] eqn:E2; [|done]. apply quiet_vfs in E2. destruct (Z.eqb_spec (key_of_ipc (q_ipc q)) 0) as [Hk|Hk]; cbn [negb].
  - intros <-%final_state. exists []. rewrite app_nil_r. split; [congruence|by apply sync_silent].
  - intros <-%final_state. exists [Synced x2]. split; [cbn; congruence|by apply sync_answered].
Qed.


End Server.

(** ** Runs

    The server on a RAM disk of 32 blocks with a new file system, its slabs on
    the page allocator.  The memory of the clients is one array of bytes. *)

#[local] Instance run_world : World := {| time_get n := (n, 0, 0); stack _ := replicate 260 170 |}.

Notation run_slab := (slab_t srings * page_pool)%type.
Notation run_server := (@server (image 32) crings (gmap hloc (list hloc)) (gmap vloc (list vloc)) run_slab tree_t run_slab run_slab cmem).

(** Disks whose root belongs to user 0: everybody may do everything, and only
    the owner may read. *)
Definition open_disk : image 32.
Proof.
  refine (Image ((match mkfs 512 32 0x41ff 0 0 0 with inr l => l | inl _ => [] end) ++ replicate 14336 0) _). vm_compute. reflexivity.
Defined.

Definition drop_disk : image 32.
Proof.
  refine (Image ((match mkfs 512 32 0x41db 0 0 0 with inr l => l | inl _ => [] end) ++ replicate 14336 0) _). vm_compute. reflexivity.
Defined.

(** The server when it begins to receive; the clients' memory holds the names
    "a" and one of 256 letters, three bytes to write and room to read to. *)
Definition run_memory : cmem :=
  CMem.put (CMem.put (CMem.put (CMem.put ∅ 1000 (replicate 8 0)) 100 [97; 0]) 200 [9; 8; 7]) 2000 (replicate 256 97 ++ [0]).

Definition boot (disk : image 32) : option run_server :=
  '(r, v) ← fs_initialize true true (∅ : gmap hloc (list hloc)) ∅ (∅ : crings) disk (∅ : srings) demo_pool (∅ : gmap vloc (list vloc))
    (CMem.put ∅ REQ_BUF (replicate 1024 0)) true 7;
  v ← v;
  '(ps, pf) ← session_initialize (∅ : srings) (∅ : srings) demo_pool demo_pool;
  if r =? 0 then Some (Server v ∅ (km_new (T := tree_t)) ps ∅ pf run_memory []) else None.

Definition run (disk : image 32) (l : list request) : option run_server :=
  foldl (λ s q, s ← s; '(_, s) ← start_turn q s; Some s) (boot disk) l.

(** Messages of thread 5 in session [sid]; the number of a message is its
    tag. *)
Definition msg (sid type size : Z) (words : list Z) : request :=
  {| q_size := size; q_ident := IDENT; q_type := type; q_token := 0x50000 + sid; q_words := words; q_ipc := 0 |}.

Definition attach sid uid := msg sid 0 28 [1; 1; 0; uid; 0].
Definition clone sid fid := msg sid 1 28 [2; 1; fid; 0; 0].
Definition walk sid fid name := msg sid 1 28 [3; 1; fid; 1; name].
Definition open sid fid mode := msg sid 2 20 [4; fid; mode].
Definition create sid fid name perm mode := msg sid 3 28 [5; fid; name; perm; mode].
Definition read sid fid count := msg sid 4 32 [6; fid; 0; 0; count; 1000].
Definition write sid fid offset count := msg sid 5 32 [7; fid; offset; 0; count; 200].
Definition clunk sid fid := msg sid 6 16 [8; fid].
Definition remove sid fid := msg sid 7 16 [9; fid].

Definition answers_of (o : option run_server) : option (list response) := s ← o; Some (sent s).

(** A file is created, written, found again by its name, and read. *)
Lemma run_ok :
  (s ← run open_disk [attach 1 0; clone 1 2; create 1 2 100 0x1b6 1; write 1 2 0 3; clunk 1 2; walk 1 3 100; read 1 3 8]; Some (sent s, peek 4 (user s) 1000)) =
  Some ([Rattach 0x50001 1 3; Rwalk 0x50001 2; Rcreate 0x50001 5 2 0; Rwrite 0x50001 7 3; Rclunk 0x50001 8; Rwalk 0x50001 3; Rread 0x50001 6 3],
        Some [9; 8; 7; 0]).
Proof. vm_compute. reflexivity. Qed.

(** What [vfs_remove] does to the newest file: its result, and whether the
    vnode has been given back. *)
Definition remove_newest (s : run_server) : option (Z * bool) :=
  v ← fst <$> head (map_to_list (nodes (vs s)));
  '(r, s') ← vfs_remove v {| p_uid := 0; p_gid := 0 |} (vs s);
  Some (r, bool_decide (nodes s' !! v = None)).

(** Four ways in which the server fails.  Removing a file succeeds in the
    file system, and the handler then uses the vnode that has been given back.
    A client that may not write to a file is refused when it opens it for
    writing, and can then write to it without opening it.  A name of more than
    255 characters overruns the buffer of the entry.  In a directory that a
    client may write to but not read, it can create the same name twice. *)
Lemma fs_server_defects :
  (s ← run open_disk [attach 1 0; clone 1 2; create 1 2 100 0x1b6 1]; Some (remove_newest s, start_turn (remove 1 2) s)) = Some (Some (0, true), None) /\
  answers_of (run open_disk [attach 1 0; clone 1 2; create 1 2 100 0x124 1; write 1 2 0 3; clunk 1 2; attach 2 7; walk 2 3 100; open 2 3 O_WRONLY; write 2 3 0 2]) =
    Some [Rattach 0x50001 1 3; Rwalk 0x50001 2; Rcreate 0x50001 5 2 0; Rwrite 0x50001 7 3; Rclunk 0x50001 8; Rattach 0x50002 1 3; Rwalk 0x50002 3;
          Rerror 0x90002 4 EACCES; Rwrite 0x50002 7 2] /\
  (s ← run open_disk [attach 1 0; clone 1 2]; Some (start_turn (create 1 2 2000 0x1b6 1) s)) = Some None /\
  answers_of (run drop_disk [attach 1 7; clone 1 2; create 1 2 100 0x1b6 1; clone 1 3; create 1 3 100 0x1b6 1]) =
    Some [Rattach 0x50001 1 3; Rwalk 0x50001 2; Rcreate 0x50001 5 2 0; Rwalk 0x50001 2; Rcreate 0x50001 5 3 0].
Proof. split_and!; vm_compute; reflexivity. Qed.

Definition attached : option run_server := s ← boot open_disk; '(_, s) ← start_turn (attach 1 0) s; Some s.

Lemma attached_ok : match attached with Some _ => true | None => false end = true.
Proof. vm_compute. reflexivity. Qed.

